(* ===== verification/_CoqProject ===== *)
-Q . S2P
Prelude.v
GoString.v
GoNet.v
GoSort.v
GoPath.v
GoNumber.v
GoYaml.v
Persist.v
Ipam.v
IpamTheory.v
Ssm.v
Csm.v
Psm.v
Npm.v
Nsm.v
Bsm.v
StartOrder.v
World.v
PathSafety.v
RuntimeSpec.v
Kernel.v
MountGuard.v
RuntimeNs.v
RuntimeInit.v
RuntimeInitTheory.v
RuntimeStatus.v
RuntimeLifecycle.v
RuntimeLifecycleTheory.v
RuntimeSafety.v
ContainerModel.v
Bottle.v
BottleTheory.v
PodService.v
PodController.v
PodTheory.v
Iptables.v
PolicyService.v
PolicyTheory.v
PolicyCommit.v
PolicyPackets.v
Netpol.v
Cfm.v
Sec.v
Ism.v
Vsm.v
Pvc.v
NetworkPolicy.v
Manifests.v
PodManifest.v
NetworkPolicyTheory.v
ContainerList.v
ServiceController.v
ServiceTheory.v
Netfilter.v
ServiceRules.v
ServiceInstall.v
Network.v
NetworkTheory.v
NamespaceService.v
Resource.v
ResourceApply.v
ResourceDelete.v
ResourceTheory.v
ResourceRollback.v
Seccomp.v
Profiles.v
ProfilesTheory.v
ContainerCalls.v
ContainerCreate.v
ContainerTheory.v
ContainerSpec.v
DropletHandler.v
SpecCommand.v
SpecRefinement.v
Ilm.v
HookService.v
LocalZone.v
