(* ===== verification/Prelude.v ===== *)
(** * A verified model of Raind

    Raind is a container platform: the [raind] command talks over HTTP to the
    [condenser] daemon, which keeps its objects (containers, pods, services,
    networks, policies, bottles) in JSON files and drives the low-level runtime
    [droplet].  This library models the parts of both that decide things: in the
    daemon the state tables with their file engine, the allocators of addresses,
    and the services and controllers on the tables, down to the rules of the
    packet filter and the command lines of the runtime; in the runtime what it
    makes of such a command line, the life of a container, its first process up
    to the execution of the entry point, and the filter of its system calls.
    A path that begins with [droplet/] is under [internal/]; the others are under
    [internal/condenser/].

    ** The program's parts and the files that model them

    Go and its libraries, as far as the code uses them:
    - [GoString], [GoNumber], [GoSort], [GoNet], [GoPath]: the functions of
      [strings], [strconv] with [encoding/base64] and [crypto/sha256], [sort],
      [net] with the arithmetic of addresses, and [path/filepath]; [GoYaml]: what a document is read into, its decoder being
      a parameter.

    The tables of the daemon ([store/]):
    - [Persist]: the engine all stores share ([store/ipam/store.go], and the
      same functions in the other stores): [withLock], [withRLock], [loadOrInit],
      [atomicSave].  A step of the file system may fail, write short, or be the
      last before a crash; a [withLock] call runs one pure transaction
      [St -> res (St * A)] between a load and a save.
    - [Ipam] ([store/ipam]): the pools of addresses, one per bridge; with
      [IpamTheory] (the search for a free address, the subnets, and the
      invariant of all operations).
    - [Ssm] (services and their cluster addresses), [Csm] (containers and their
      life cycle), [Psm] (pods, templates, replica sets, deployments), [Npm] (the
      lists of packet filter policies, with backup and revert), [Netpol] (network
      policy objects), [Nsm] (namespaces), [Bsm] (bottles), [Cfm] (config maps),
      [Sec] (secrets, with an engine of private files), [Ism] (ingresses), [Vsm]
      (volume claims), [Ilm] (images).

    The services of the daemon ([core/]):
    - [World]: the monad of the services: the store's state with the fault each
      access meets, the calls made to other services in order, and the state of
      those services, which the classes [Peers] and [Callees] leave open.
    - [StartOrder], [Bottle], with [BottleTheory] ([core/bottle]): specifications,
      the order of their services, and creating, starting, stopping and deleting a
      bottle with the roll-back.
    - [PodService], [PodController], with [PodTheory] ([core/pod]): pods made, started, stopped and removed over [Psm], and one
      round of the controller (deployments, replica sets with back-off, the
      repair of pods).  The container service they call shares the pod table:
      the class [PodPeers], and [PodCalleesLaw] for what it leaves alone.
    - [Iptables], [PolicyService] ([core/policy]): the rules and the commit of
      the policies of [Npm].  The [iptables] command is the class [PolicyPeers];
      [IptablesLaw] ([PolicyTheory]) is what its manual says of the options used.
      [PolicyCommit] has what a commit leaves in the chains and in the table,
      [PolicyPackets] what the chains do to packets, with a filter that satisfies
      the law and commits on it.
    - [NetworkPolicy], with [NetworkPolicyTheory] ([core/networkpolicy]): the translation of [Netpol] objects to east-west
      policies between pods, and the controller that commits them.
    - [ServiceController] ([core/service/controller.go]): the chains that send
      the connections to a service to its ready pods, and the rounds that keep
      them up to date.  [Netfilter] has what the manual of [iptables] says of its
      commands ([NetfilterLaw], [NetfilterSteady]); [ServiceTheory] is about a
      round, [ServiceRules] says which rules belong to a service and that they can
      be taken out, [ServiceInstall] what they are, with a filter and services on
      it.
    - [Network], with [NetworkTheory] ([core/network]):
      bridges with their roll-back, published ports, masquerade and redirection;
      [NamespaceService] ([core/namespace]) over it.
    - [PathSafety] ([utils/path_safety.go]) and [Pvc] ([core/pvc]): the guard of
      removals, and volume claims with their directories.
    - [Manifests], [PodManifest]: what decoded manifests must be like and become
      ([core/configmap], [core/secret], [core/service/manifest.go],
      [core/ingress/manifest.go], [core/networkpolicy/manifest.go],
      [core/pod/manifest.go]).
    - [Resource] (data and interface), [ResourceApply], [ResourceDelete], with
      [ResourceTheory] and [ResourceRollback] ([core/resource]): applying and deleting documents over six tables, with
      the roll-back and the roll-out of pods, replica sets and deployments.
    - [Profiles], with [ProfilesTheory] ([core/securityprofile]): the built-in
      security profiles and the custom ones that extend them.
    - [ContainerModel], [ContainerList], [ContainerCalls] (tables, calls and pure
      parts), [ContainerCreate] (the operations), with [ContainerTheory] and
      [ContainerSpec] ([core/container]): containers made, with the roll-back and the infra
      container of a pod, started, stopped, deleted and listed.
    - [HookService] ([core/hook]): what the daemon makes of the events that the
      runtime reports; [LocalZone] ([dns]): the zones of containers and services,
      the cache and the questions that go to other servers.
    The way to the runtime:
    - [DropletHandler] ([runtime/droplet/handler.go]) writes requests as command
      lines; [SpecCommand] ([droplet/command/spec.go]) reads one back into the
      options that [RuntimeSpec] makes a specification of; [SpecRefinement] puts the
      two ends together.

    The runtime ([droplet/]):
    - [RuntimeSpec] ([droplet/spec]): specifications, how they are made from
      options, and the checks of a bundle; [MountGuard]
      ([droplet/container/mountguard]): what may be mounted and where.
    - [Kernel]: the calls made of the kernel, an instance of [World.Peers].
    - [RuntimeNs] ([droplet/container/namespace], [droplet/container/rootless]):
      namespaces, joins and the maps of identifiers.
    - [RuntimeInit], with [RuntimeInitTheory] ([droplet/container/init.go]): the
      first process, from the sealed specification to the entry point.
    - [RuntimeStatus] ([droplet/status], [droplet/container/statusflow]): the
      state files; [RuntimeLifecycle] ([droplet/container/create] and its
      siblings): create, start, kill, delete, exec, run and what the supervisor
      records; with [RuntimeLifecycleTheory] and [RuntimeSafety].
    - [Seccomp] ([droplet/container/security/seccomp.go]): the program made of a
      filter's rules, and the machine of the kernel that runs it.
    The operation [XsmManager.Op(args)] of a store is the definition [Op args]
    of that store's file, the transaction it hands to the engine; [init] and
    [repair] are the two branches of [loadOrInit], and [withLock], [loadOrInit]
    and the like are the engine of [Persist] at that store.  An operation of a
    service has its Go name in its file.  Data types are records with the fields
    of the Go structs; a Go [map] is a [gmap], a slice a [list].  Where Go ranges
    over a map the model takes the order from the class [RangeOrder], of which
    nothing is known but that it lists the map, so the theorems hold for every
    order Go may choose.  A function that returns [(T, error)] gives a [res T];
    run-time panics are its third constructor.

    ** What the theorems show

    - Stores: a locked call replaces the stored state by the transaction's
      result or leaves it, under any fault or crash, and the next call finds one
      of the two ([Persist.withLock_atomic], [withLock_recovers]).
    - Addresses: in every reachable state of the pools no two containers and no
      two bridges share an address, every address is a host of its subnet, and
      the searches are exact and end ([IpamTheory], [Ssm]).
    - Tables: each keeps its invariant under every transaction sequence, and its
      searches and updates do what they say on every branch ([Csm], [Psm],
      [Npm], [Nsm], [Cfm], [Sec], [Ism], [Vsm]).  The filter of policies that
      works in place on a shared array is equivalent to a pure filter; [Revert]
      loses no policy text under faults ([Npm]).
    - Bottles: the start order is a topological order and exists unless there is
      a cycle ([StartOrder]); [Create] undoes what it did when it fails,
      [Delete] keeps the record until all else is gone ([BottleTheory]).
    - Pods: names stay unique under every sequence of operations and rounds
      that meet readable tables ([PodTheory]); deployments get their replica sets, a healthy state is a
      fixed point, the back-off is bounded, and scaling down does not work
      ([PodTheory]).
    - Policies: after a commit whose reads succeeded, FORWARD sends packets to the
      chains, where a new connection between containers, and in enforcing mode to
      the outside, is dropped unless a live policy covers it ([PolicyPackets]); the commit carries out the removals and the mode change
      asked for ([PolicyCommit]); a failed read opens the filter, and failures of
      a loop go unreported ([PolicyPackets]).
    - Network policies: the generated policies are exactly the connections asked
      for, a reconciliation converges in one round, but neither a new object nor
      a failed commit is committed by the controller
      ([NetworkPolicyTheory]).
    - Services: a round settles ([ServiceTheory]); the rules of a service are its
      own, and taking them out undoes putting them in ([ServiceRules]); an
      installation that returns has the rules for the ready endpoints, which
      share the connections unevenly ([ServiceInstall]).  Both are about ports of
      TCP and UDP, the latter with a number each.
    - Networks, namespaces and claims: the rules of a published port can be taken
      out wherever their installation stopped, and a network that could not be
      made is in no pool ([NetworkTheory]); a namespace that is removed had
      nothing in it ([NamespaceService]); quantities of storage do not wrap
      around, a claim in use stays ([Pvc]); nothing but what is below the root is
      removed ([PathSafety]).
    - Resources: a failed [Apply] puts back what the documents changed in the
      tables of config maps, secrets and ingresses ([ResourceRollback]);
      environments are resolved in the order of the references, and applying a
      pod ends ([ResourceTheory]).
    - Profiles: what a name means, that looking it up ends on cycles too, and
      what a registration changes ([ProfilesTheory]).
    - Containers: operations follow the state of a container, a failed creation
      leaves it in no table and names are unique while the tables can be read and
      written ([ContainerTheory]); every specification handed to the runtime has the
      confinement asked for, and the namespaces joined are those of the container's
      own pod ([ContainerSpec]).
    - Daemon to runtime: a request read back from its command line is the request
      that was written, but for the spaces around the values of lists, and the profile asked for is the one the process runs
      under ([SpecRefinement]).
    - Runtime: every operation follows one life cycle with any answers and faults,
      and what status, start and delete promise ([RuntimeSafety]); the
      paths of mounts and files stay below the root (links on the way are not
      followed), the host directories that are shown are the runtime's own or named
      in the specification, whose binds are vetted, and the entry point runs only after
      the hash of the specification was compared and every step succeeded
      ([RuntimeInitTheory]); the owners of a
      shifted layer are those the kernel maps ([RuntimeNs]); the filter's program
      answers each call as the rules with an error say that it was made of
      ([Seccomp]).
    - Hooks and names: an event changes the entry of its container and the pod
      that the container owns, and nothing else ([HookService]); questions about
      local names never leave the host, and names of containers get the address
      of the container, else of the service ([LocalZone]).
    Examples in each file evaluate the definitions on concrete states, and some
    show what the code gets wrong (a store file with a missing map, a revert
    without a running copy, a roll-back that removes a network in use, a
    forwarding rule left behind, an error number that hides a denial).

    ** Bounds and fuel

    - [Ipam.findFreeIpv4] loops at most 2^24 times in the code; the model has
      the same bound, and [findFreeIpv4_correct] shows that it is enough for
      prefixes from /8 on.
    - The loop of [StoreBridge] has no bound in the code; [subnet_fuel] is
      2^24 + 1, and [StoreBridge_correct] shows that fuel never runs out for the
      runtime subnet 10.166.0.0/16 (256 steps of /24).
    - [Ssm.clusterIP_fuel] is 256, the size of the service network.
    - [StartOrder.kahn] is given one more than the number of services; each is
      queued once.
    - [ResourceApply.applyPodManifest] calls itself after removing a pod;
      [applyPodManifest_ends] shows that one more than the number of pods is
      enough.
    - [Profiles.getCustomProfile] follows the chain of parents; [Get_correct] has
      more fuel than there are files.
    - Waiting is bounded as in the code: 50 looks for the namespaces of a pod,
      ten further generated names, and the rounds of [WaitProcessExit] before its
      deadline.
    All other functions are structural.

    ** What is not modelled

    - The JSON codec is a parameter ([Codec]) with the law that decoding gives
      back what was encoded; the YAML decoder, the flag parser (urfave/cli), the
      splitting and quoting of shell words (shlex, shellescape) are arguments,
      with what they are known to do where a theorem needs it.
    - A call on a store is one step: the mutex and [flock] that serialise calls
      are taken to work, and the engine's part in them (that the lock is always
      released) is proved.  The directory creation before it is not modelled.
    - Strings are byte sequences; case folding and trimming are those of ASCII.
    - Time and identifiers are inputs.
    - Services that another calls are calls with any answers; what a theorem needs
      of them is a class or a named hypothesis ([StopLaw], [CreateLaw], [tame]).
    - The packet filter is read as the manual describes it for the options that
      are written; other rules in the FORWARD chain are outside the theorems.
    - The two calls of a controller round see one order of each map, and
      [sort.Slice] is a function of its slice.  The tickers that repeat the
      rounds are left out.
    - Of the kernel and the host only the answers to calls are known; the modes of
      files are not kept.
    - Left out, being input and output around libraries: downloads, extraction and
      builds of images, the ingress gateway with its certificates,
      the HTTP API, the [raind] command line with image promotion, statistics and
      the views of containers, AppArmor profiles, the terminal and sockets of the
      supervisor, the copying of shifted layers, logs, audit records, and the
      set-up of the host. *)

From Stdlib Require Import ZArith Lia.
From stdpp Require Import base gmap strings list sorting.

Open Scope Z_scope.

Create HintDb go discriminated.

(** ** Results of Go functions

    A Go function that returns [(T, error)] is modelled by [res T]; the text
    of the error is kept, since the code inspects it in places
    ([strings.Contains(err.Error(), "not found")]).  A run-time panic (nil
    dereference, assignment to a nil map, negative shift) is a third
    outcome. *)

Definition error := string.

Inductive res (A : Type) : Type :=
  | Ok (a : A)
  | Err (e : error)
  | Panic (e : error).
Arguments Ok {A} a.
Arguments Err {A} e.
Arguments Panic {A} e.

#[export] Instance res_ret : MRet res := fun A a => Ok a.
#[export] Instance res_bind : MBind res := fun A B f m =>
  match m with
  | Ok a => f a
  | Err e => Err e
  | Panic e => Panic e
  end.
#[export] Instance res_fmap : FMap res := fun A B f m =>
  match m with
  | Ok a => Ok (f a)
  | Err e => Err e
  | Panic e => Panic e
  end.

Definition is_ok {A} (m : res A) : bool :=
  match m with Ok _ => true | _ => false end.

Lemma res_bind_ok {A B} (m : res A) (f : A -> res B) b :
  m ≫= f = Ok b <-> exists a, m = Ok a /\ f a = Ok b.
Proof.
  unfold mbind, res_bind. destruct m; split; try discriminate; eauto;
    intros (? & [=] & ?); congruence.
Qed.

Lemma res_fmap_ok {A B} (f : A -> B) (m : res A) b :
  f <$> m = Ok b <-> exists a, m = Ok a /\ b = f a.
Proof.
  unfold fmap, res_fmap. destruct m; split; try discriminate; try naive_solver.
Qed.

Lemma res_bind_assoc {A B C} (m : res A) (f : A -> res B) (g : B -> res C) :
  (m ≫= f) ≫= g = m ≫= (fun a => f a ≫= g).
Proof. by destruct m. Qed.

(** ** Loops

    [iter_until step p s] runs [step] at most [p] times from [s], stopping
    at the first [inr].  The fuel is binary, so bounds such as [2^24] can be
    written as they are in the code and evaluated. *)
Section loops.
Context {S R : Type} (step : S -> S + R).

Fixpoint iter_until (p : positive) (s : S) : S + R :=
  match p with
  | xH => step s
  | xO q => match iter_until q s with
            | inl s' => iter_until q s'
            | inr r => inr r
            end
  | xI q => match step s with
            | inl s' => match iter_until q s' with
                        | inl s'' => iter_until q s''
                        | inr r => inr r
                        end
            | inr r => inr r
            end
  end.

Fixpoint iter_nat_until (n : nat) (s : S) : S + R :=
  match n with
  | O => inl s
  | Datatypes.S n => match step s with
                     | inl s' => iter_nat_until n s'
                     | inr r => inr r
                     end
  end.

Lemma iter_nat_until_add n m s :
  iter_nat_until (n + m) s =
    match iter_nat_until n s with
    | inl s' => iter_nat_until m s'
    | inr r => inr r
    end.
Proof.
  revert s. induction n as [|n IH]; intros s; simpl; [done|].
  destruct (step s); [apply IH|done].
Qed.

Lemma iter_until_nat p s : iter_until p s = iter_nat_until (Pos.to_nat p) s.
Proof.
  revert s. induction p as [p IH|p IH|]; intros s; simpl iter_until.
  - replace (Pos.to_nat p~1) with (Datatypes.S (Pos.to_nat p + Pos.to_nat p))
      by lia.
    simpl. destruct (step s) as [s'|]; [|done].
    by rewrite iter_nat_until_add, IH; destruct (iter_nat_until _ s').
  - replace (Pos.to_nat p~0) with (Pos.to_nat p + Pos.to_nat p)%nat by lia.
    by rewrite iter_nat_until_add, IH; destruct (iter_nat_until _ s).
  - simpl. by destruct (step s).
Qed.

Lemma iter_nat_until_mono n m s r :
  iter_nat_until n s = inr r -> (n <= m)%nat -> iter_nat_until m s = inr r.
Proof.
  intros H Hle. replace m with (n + (m - n))%nat by lia.
  by rewrite iter_nat_until_add, H.
Qed.

Lemma iter_nat_until_S n s :
  iter_nat_until (Datatypes.S n) s =
    match iter_nat_until n s with inl s' => step s' | inr r => inr r end.
Proof.
  replace (Datatypes.S n) with (n + 1)%nat by lia.
  rewrite iter_nat_until_add. destruct (iter_nat_until n s); [|done].
  simpl. by destruct (step _).
Qed.

(** A linear scan: the states are [e 0, e 1, ...] and the loop stops at the
    first index that satisfies [P]. *)
Lemma iter_scan (e : nat -> S) (P : nat -> bool) (f : nat -> R) (N : nat) :
  (forall k, (k < N)%nat ->
     step (e k) = if P k then inr (f k) else inl (e (Datatypes.S k))) ->
  forall m, (m <= N)%nat ->
    (exists j, (j < m)%nat /\ P j = true /\
       (forall i, (i < j)%nat -> P i = false) /\
       iter_nat_until m (e O) = inr (f j)) \/
    ((forall i, (i < m)%nat -> P i = false) /\
       iter_nat_until m (e O) = inl (e m)).
Proof.
  intros Hstep m. induction m as [|m IH]; intros Hm.
  - right. split; [lia|done].
  - rewrite iter_nat_until_S.
    destruct IH as [(j & Hj & HP & Hn & ->)|[Hn ->]]; [lia|left|].
    + exists j. split_and!; auto with lia.
    + rewrite Hstep by lia. destruct (P m) eqn:E; [left|right].
      * exists m. auto with lia.
      * split; [|done]. intros i Hi.
        destruct (decide (i = m)) as [->|]; [done|]. apply Hn. lia.
Qed.

(** Invariants of the loop hold for the state it exits from. *)
Lemma iter_nat_until_inv (I : S -> Prop) (Q : R -> Prop) :
  (forall s, I s -> match step s with inl s' => I s' | inr r => Q r end) ->
  forall n s, I s ->
    match iter_nat_until n s with inl s' => I s' | inr r => Q r end.
Proof.
  intros Hstep n. induction n as [|n IH]; intros s Hs; simpl; [done|].
  pose proof (Hstep s Hs) as H. destruct (step s); [by apply IH|done].
Qed.
End loops.

(** ** Map iteration

    Go leaves the order in which [range] visits a map unspecified.  The model
    takes the order as a parameter, known only to enumerate the map. *)
Class RangeOrder := {
  range_map : forall {V : Type}, gmap string V -> list (string * V);
  range_map_perm : forall V (m : gmap string V), range_map m ≡ₚ map_to_list m
}.

(** One admissible order, used where the model is evaluated. *)
#[export] Instance default_order : RangeOrder | 100 := {|
  range_map := fun V m => map_to_list m;
  range_map_perm := fun V m => reflexivity _
|}.

Section range.
Context {RO : RangeOrder} {V : Type}.
Implicit Types (m : gmap string V) (k : string) (v : V).

Lemma elem_of_range_map m k v : (k, v) ∈ range_map m <-> m !! k = Some v.
Proof. rewrite range_map_perm. apply elem_of_map_to_list. Qed.

Lemma NoDup_range_keys m : NoDup (range_map m).*1.
Proof. rewrite range_map_perm. apply NoDup_fst_map_to_list. Qed.

Lemma length_range_map m : length (range_map m) = size m.
Proof. by rewrite range_map_perm, length_map_to_list. Qed.

Lemma range_map_empty : range_map (∅ : gmap string V) = [].
Proof.
  apply Permutation_nil_r. by rewrite range_map_perm, map_to_list_empty.
Qed.
End range.

(** ** Linear search

    [for _, x := range xs { if p(x) { ...; return } }] takes the first match;
    [list_find] of stdpp returns it with its index. *)
Definition first_match {A} (p : A -> bool) (l : list A) : option A :=
  list_find (fun x => p x = true) l ≫= fun '(_, x) => Some x.

Lemma first_match_Some {A} (p : A -> bool) l x :
  first_match p l = Some x -> x ∈ l /\ p x = true.
Proof.
  unfold first_match. intros ([i y] & Hf & [= ->])%bind_Some.
  apply list_find_Some in Hf as (Hl & Hp & _).
  split; [by eapply list_elem_of_lookup_2|done].
Qed.

Lemma first_match_cons {A} (p : A -> bool) x l :
  first_match p (x :: l) = if p x then Some x else first_match p l.
Proof.
  unfold first_match. simpl. case_decide as H; [by rewrite H|].
  apply not_true_is_false in H. rewrite H.
  by destruct (list_find _ l) as [[]|].
Qed.

Lemma first_match_None {A} (p : A -> bool) l :
  first_match p l = None <-> forall x, x ∈ l -> p x = false.
Proof.
  induction l as [|y l IH]; [split; [intros _ x Hx; by apply not_elem_of_nil in Hx|done]|].
  rewrite first_match_cons. setoid_rewrite elem_of_cons.
  destruct (p y) eqn:E; [|rewrite IH; naive_solver].
  split; [done|]. intros H. rewrite (H y) in E; [done|by left].
Qed.



(** ** Tables

    [for k, v := range m { if p(v) { ...; return } }]: the first match in the
    iteration order, and the read-modify-write of one entry. *)
Section tables.
Context {RO : RangeOrder} {V : Type}.
Implicit Types (m : gmap string V) (k : string) (v : V) (p : V -> bool).

Definition range_find (p : V -> bool) (m : gmap string V) : option (string * V) :=
  first_match (fun kv => p kv.2) (range_map m).

Definition range_values (m : gmap string V) : list V := (range_map m).*2.

(** [v, ok := m[k]; if !ok { return e }; v = f(v); m[k] = v]. *)
Definition update_entry (e : error) (k : string) (f : V -> res V) (m : gmap string V)
    : res (gmap string V) :=
  match m !! k with
  | None => Err e
  | Some v => v ← f v; Ok (<[k := v]> m)
  end.

(** [if _, ok := m[k]; !ok { return e }; delete(m, k)]. *)
Definition remove_entry (e : error) (k : string) (m : gmap string V)
    : res (gmap string V) :=
  match m !! k with
  | None => Err e
  | Some _ => Ok (delete k m)
  end.

Lemma range_find_Some p m k v :
  range_find p m = Some (k, v) -> m !! k = Some v /\ p v = true.
Proof.
  unfold range_find. intros [Hin Hp]%first_match_Some.
  by apply elem_of_range_map in Hin.
Qed.

Lemma range_find_None p m :
  range_find p m = None <-> forall k v, m !! k = Some v -> p v = false.
Proof.
  unfold range_find. rewrite first_match_None. split.
  - intros H k v Hk. apply elem_of_range_map in Hk. by apply (H (k, v)).
  - intros H [k v] Hk. apply elem_of_range_map in Hk. by eapply H.
Qed.

(** When at most one entry matches, the order does not matter. *)
Lemma range_find_unique p m k v :
  m !! k = Some v -> p v = true ->
  (forall k' v', m !! k' = Some v' -> p v' = true -> k' = k) ->
  range_find p m = Some (k, v).
Proof.
  intros Hk Hp Hu. destruct (range_find p m) as [[k' v']|] eqn:E.
  - apply range_find_Some in E as [Hk' Hp'].
    pose proof (Hu _ _ Hk' Hp') as ->. congruence.
  - rewrite range_find_None in E. rewrite (E _ _ Hk) in Hp. done.
Qed.

Lemma elem_of_range_values m v : v ∈ range_values m <-> exists k, m !! k = Some v.
Proof.
  unfold range_values. rewrite list_elem_of_fmap. split.
  - intros ([k v'] & -> & H%elem_of_range_map). eauto.
  - intros [k H%elem_of_range_map]. by exists (k, v).
Qed.

Lemma update_entry_ok e k f m m' :
  update_entry e k f m = Ok m' <->
  exists v v', m !! k = Some v /\ f v = Ok v' /\ m' = <[k := v']> m.
Proof.
  unfold update_entry. destruct (m !! k) as [v|]; [|naive_solver].
  rewrite res_bind_ok. naive_solver.
Qed.

Lemma remove_entry_ok e k m m' :
  remove_entry e k m = Ok m' <-> is_Some (m !! k) /\ m' = delete k m.
Proof.
  unfold remove_entry. destruct (m !! k) as [v|].
  - split; [intros [= <-]; eauto|]. by intros [_ ->].
  - split; [done|]. by intros [[? ?] _].
Qed.

(** Entries stored under the key they carry. *)
Definition keyed (key : V -> string) (m : gmap string V) : Prop :=
  map_Forall (fun k v => key v = k) m.

Lemma keyed_empty key : keyed key ∅.
Proof. apply map_Forall_empty. Qed.

Lemma keyed_insert key m k v : keyed key m -> key v = k -> keyed key (<[k := v]> m).
Proof. intros Hm Hk. by apply map_Forall_insert_2. Qed.

Lemma keyed_delete key m k : keyed key m -> keyed key (delete k m).
Proof. apply map_Forall_delete. Qed.

Lemma keyed_update key e k f m m' :
  keyed key m -> (forall v v', f v = Ok v' -> key v' = key v) ->
  update_entry e k f m = Ok m' -> keyed key m'.
Proof.
  intros Hm Hf (v & v' & Hv & Hv' & ->)%update_entry_ok.
  apply keyed_insert; [done|]. rewrite (Hf _ _ Hv'). by apply Hm.
Qed.

(** On a keyed table the search by id is the lookup. *)
Lemma range_find_keyed key m k :
  keyed key m ->
  range_find (fun v => String.eqb (key v) k) m = (fun v => (k, v)) <$> m !! k.
Proof.
  intros Hm. destruct (m !! k) as [v|] eqn:E; simpl.
  - apply range_find_unique; [done| |].
    + apply String.eqb_eq. by apply Hm.
    + intros k' v' Hk' He%String.eqb_eq. apply Hm in Hk'. congruence.
  - apply range_find_None. intros k' v' Hk'. apply String.eqb_neq.
    apply Hm in Hk' as Hkey. congruence.
Qed.
End tables.

#[export] Hint Resolve keyed_empty keyed_insert keyed_delete : go.

(** ** Tactics *)

(** Split the outcome of a successful computation into its steps. *)
Ltac inv_ok :=
  repeat match goal with
    | H : _ ≫= _ = Ok _ |- _ =>
        let a := fresh "v" in let Ha := fresh "Hv" in
        apply res_bind_ok in H; destruct H as (a & Ha & H)
    | H : Ok _ = Ok _ |- _ => injection H as H
    | H : (_, _) = (_, _) |- _ => injection H as ? ?
    | H : Err _ = Ok _ |- _ => discriminate H
    | H : Panic _ = Ok _ |- _ => discriminate H
    end; subst.

(** Case analysis on the scrutinee of a match or conditional of [H]. *)
Ltac case_in H :=
  match type of H with
  | context [match ?x with _ => _ end] =>
      let E := fresh "E" in destruct x eqn:E
  end.

Ltac case_goal :=
  match goal with
  | |- context [match ?x with _ => _ end] =>
      let E := fresh "E" in destruct x eqn:E
  end.
