(* ===== verification/GoString.v ===== *)
(** * The functions of Go's [strings] and [strconv] packages that Raind uses

    Go strings are byte sequences; [string] is a sequence of bytes as well.
    Case folding and white space are those of the ASCII range; bytes outside
    it are left alone by [toLower], [toUpper] and [trimSpace]. *)

From Stdlib Require Import ZArith Lia Ascii String.
From stdpp Require Import base gmap strings pretty list.
From S2P Require Import Prelude.
Open Scope Z_scope.

Definition NUL : ascii := "000"%char.

(** [strconv.Itoa] and [fmt.Sprint] on an [int]. *)
Definition itoa (z : Z) : string := pretty z.

#[export] Instance itoa_inj : Inj (=) (=) itoa.
Proof. unfold itoa. apply _. Qed.

(** ** Bytes *)

Definition byte_of (c : ascii) : Z := Z.of_N (N_of_ascii c).

Definition is_digit (c : ascii) : bool :=
  (48 <=? byte_of c) && (byte_of c <=? 57).
Definition is_lower (c : ascii) : bool :=
  (97 <=? byte_of c) && (byte_of c <=? 122).
Definition is_upper (c : ascii) : bool :=
  (65 <=? byte_of c) && (byte_of c <=? 90).
(** ['\t', '\n', '\v', '\f', '\r', ' ']. *)
Definition is_space (c : ascii) : bool :=
  ((9 <=? byte_of c) && (byte_of c <=? 13)) || (byte_of c =? 32).

Definition lower_byte (c : ascii) : ascii :=
  if is_upper c then ascii_of_N (Z.to_N (byte_of c + 32)) else c.
Definition upper_byte (c : ascii) : ascii :=
  if is_lower c then ascii_of_N (Z.to_N (byte_of c - 32)) else c.

Fixpoint string_map (f : ascii -> ascii) (s : string) : string :=
  match s with
  | EmptyString => EmptyString
  | String c r => String (f c) (string_map f r)
  end.

Definition toLower : string -> string := string_map lower_byte.
Definition toUpper : string -> string := string_map upper_byte.

Fixpoint trim_left (p : ascii -> bool) (s : string) : string :=
  match s with
  | String c r => if p c then trim_left p r else s
  | EmptyString => EmptyString
  end.

Definition string_rev (s : string) : string :=
  string_of_list_ascii (rev (list_ascii_of_string s)).

Definition trim_right (p : ascii -> bool) (s : string) : string :=
  string_rev (trim_left p (string_rev s)).

Definition trimSpace (s : string) : string :=
  trim_right is_space (trim_left is_space s).

(** ** Prefixes, suffixes, splitting *)

Fixpoint hasPrefix (s pre : string) {struct pre} : bool :=
  match pre, s with
  | EmptyString, _ => true
  | String c p, String d t => Ascii.eqb c d && hasPrefix t p
  | String _ _, EmptyString => false
  end.

(** [s[n:]] and [s[:n]], with [n] within the string. *)
Fixpoint drop_str (n : nat) (s : string) : string :=
  match n, s with
  | O, _ => s
  | S n, String _ r => drop_str n r
  | S _, EmptyString => EmptyString
  end.

Definition take_str (n : nat) (s : string) : string := substring 0 n s.

Definition trimPrefix (s pre : string) : string :=
  if hasPrefix s pre then drop_str (String.length pre) s else s.

Definition hasSuffix (s suf : string) : bool :=
  (String.length suf <=? String.length s)%nat &&
  String.eqb (drop_str (String.length s - String.length suf) s) suf.

Definition trimSuffix (s suf : string) : string :=
  if hasSuffix s suf
  then take_str (String.length s - String.length suf) s else s.

Fixpoint contains (s sub : string) {struct s} : bool :=
  hasPrefix s sub ||
  match s with
  | EmptyString => false
  | String _ r => contains r sub
  end.

(** [strings.Cut(s, sep)] for a one-byte separator. *)
Fixpoint cut (sep : ascii) (s : string) : option (string * string) :=
  match s with
  | EmptyString => None
  | String c r =>
      if Ascii.eqb c sep then Some (EmptyString, r)
      else match cut sep r with
           | Some (a, b) => Some (String c a, b)
           | None => None
           end
  end.

(** [strings.Split(s, sep)] for a one-byte separator: never empty. *)
Fixpoint split (sep : ascii) (s : string) : list string :=
  match s with
  | EmptyString => [EmptyString]
  | String c r =>
      if Ascii.eqb c sep then EmptyString :: split sep r
      else match split sep r with
           | p :: ps => String c p :: ps
           | [] => [String c EmptyString]
           end
  end.

(** [strings.Join]. *)
Definition join (sep : string) (l : list string) : string :=
  String.concat sep l.

(** [strings.Split(s, sep)[0]]. *)
Definition split_head (sep : ascii) (s : string) : string :=
  match cut sep s with Some (a, _) => a | None => s end.

(** [strings.Fields]: the words of [s]; [w] is the word being read. *)
Fixpoint fields_from (s w : string) : list string :=
  match s with
  | EmptyString => if String.eqb w "" then [] else [w]
  | String c r =>
      if is_space c
      then (if String.eqb w "" then [] else [w]) ++ fields_from r ""
      else fields_from r (w +:+ String c EmptyString)
  end.
Definition fields (s : string) : list string := fields_from s "".

(** ** Quoting *)

Definition hex_digit (z : Z) : ascii :=
  ascii_of_N (Z.to_N (if z <? 10 then 48 + z else 87 + z)).

(** One byte as [%q] writes it: the double quote (34) and the backslash (92)
    escaped, control characters by their letter or as [\xNN].  Bytes outside
    ASCII are kept, which is right for printable UTF-8 text. *)
Definition quote_byte (c : ascii) : string :=
  let z := byte_of c in
  let esc (l : Z) := String "\" (String (ascii_of_N (Z.to_N l)) EmptyString) in
  if (z =? 34) || (z =? 92) then esc z
  else if z =? 7 then esc 97 else if z =? 8 then esc 98
  else if z =? 9 then esc 116 else if z =? 10 then esc 110
  else if z =? 11 then esc 118 else if z =? 12 then esc 102
  else if z =? 13 then esc 114
  else if (z <? 32) || (z =? 127)
  then String "\" (String "x" (String (hex_digit (z / 16))
         (String (hex_digit (z mod 16)) EmptyString)))
  else String c EmptyString.

Definition DQUOTE : ascii := "034"%char.

(** The verb [%q]. *)
Definition quoted (s : string) : string :=
  String DQUOTE (String.concat "" (quote_byte <$> list_ascii_of_string s))
    +:+ String DQUOTE EmptyString.

(** ** Lemmas *)

#[local] Arguments String.append !_ _ / : simpl nomatch.

Lemma string_app_assoc (a b c : string) :
  ((a +:+ b) +:+ c = a +:+ (b +:+ c))%string.
Proof. induction a as [|x a IH]; simpl; [done|]. f_equal. apply IH. Qed.

Lemma string_app_nil_r (a : string) : (a +:+ "" = a)%string.
Proof. induction a as [|x a IH]; simpl; [done|]. f_equal. apply IH. Qed.

Lemma string_length_app (a b : string) :
  String.length (a +:+ b) = (String.length a + String.length b)%nat.
Proof. induction a as [|x a IH]; simpl; [done|]. f_equal. apply IH. Qed.

Lemma hasPrefix_spec s pre : hasPrefix s pre = true <-> exists t, s = (pre +:+ t)%string.
Proof.
  revert s. induction pre as [|c pre IH]; intros s; simpl.
  - split; [by exists s|done].
  - destruct s as [|d s]; [split; [done|]; intros [t Ht]; discriminate Ht|].
    rewrite andb_true_iff, IH.
    destruct (Ascii.eqb_spec c d) as [->|Hn]; split.
    + intros [_ [t ->]]. by exists t.
    + intros [t Ht]. injection Ht as Ht. eauto.
    + by intros [? _].
    + intros [t Ht]. injection Ht as -> _. done.
Qed.

Lemma hasPrefix_app pre t : hasPrefix (pre +:+ t)%string pre = true.
Proof. apply hasPrefix_spec. by exists t. Qed.

Lemma drop_str_app a b : drop_str (String.length a) (a +:+ b)%string = b.
Proof. by induction a. Qed.

Lemma string_rev_involutive s : string_rev (string_rev s) = s.
Proof.
  unfold string_rev. rewrite list_ascii_of_string_of_list_ascii, rev_involutive.
  apply string_of_list_ascii_of_string.
Qed.

Lemma string_of_list_ascii_app l k :
  string_of_list_ascii (l ++ k) =
    (string_of_list_ascii l +:+ string_of_list_ascii k)%string.
Proof. induction l as [|x l IH]; simpl; [done|]. f_equal. apply IH. Qed.

Lemma split_nonempty sep s : split sep s <> [].
Proof.
  destruct s as [|c s]; simpl; [done|].
  destruct (Ascii.eqb c sep); [done|]. by destruct (split sep s).
Qed.

(** The pieces of a split joined with the separator give the string back. *)
Lemma join_split sep s : join (String sep EmptyString) (split sep s) = s.
Proof.
  unfold join. induction s as [|c s IH]; simpl; [done|].
  destruct (Ascii.eqb_spec c sep) as [->|Hne].
  - pose proof (split_nonempty sep s) as Hn.
    destruct (split sep s) as [|p ps]; [done|].
    transitivity (String sep (String.concat (String sep EmptyString) (p :: ps)));
      [done|by rewrite IH].
  - pose proof (split_nonempty sep s) as Hn.
    destruct (split sep s) as [|p ps]; [done|].
    destruct ps as [|q ps]; simpl in *; by rewrite <- IH.
Qed.

Lemma hasPrefix_take n s : hasPrefix s (take_str n s) = true.
Proof.
  unfold take_str. revert n. induction s as [|c s IH]; intros [|n]; simpl; [done..|].
  by rewrite Ascii.eqb_refl, IH.
Qed.

(** *** Trimming *)

Lemma string_rev_app a b : string_rev (a +:+ b)%string = (string_rev b +:+ string_rev a)%string.
Proof.
  unfold string_rev. rewrite <- string_of_list_ascii_app, <- rev_app_distr. do 2 f_equal.
  induction a as [|x a IH]; simpl; [done|]. by f_equal.
Qed.

(** The first character, if any, is not one of [p]. *)
Definition head_not (p : ascii -> bool) (s : string) : bool :=
  match s with String c _ => negb (p c) | EmptyString => true end.

Lemma trim_left_head p s : head_not p (trim_left p s) = true.
Proof. induction s as [|c s IH]; simpl; [done|]. destruct (p c) eqn:E; [exact IH|]. simpl. by rewrite E. Qed.
Lemma trim_left_id p s : head_not p s = true -> trim_left p s = s.
Proof. destruct s as [|c s]; simpl; [done|]. by destruct (p c). Qed.
Lemma trim_left_suffix p s : exists a, s = (a +:+ trim_left p s)%string.
Proof.
  induction s as [|c s [a IH]]; [by exists ""|]. simpl. destruct (p c); [|by exists ""].
  exists (String c a). simpl. by f_equal.
Qed.
Lemma trim_right_prefix p s : exists b, s = (trim_right p s +:+ b)%string.
Proof.
  unfold trim_right. destruct (trim_left_suffix p (string_rev s)) as [a Ha].
  exists (string_rev a). rewrite <- string_rev_app, <- Ha. by rewrite string_rev_involutive.
Qed.
Lemma head_not_prefix p a b : head_not p (a +:+ b)%string = true -> head_not p a = true.
Proof. by destruct a. Qed.

Lemma trimSpace_idem s : trimSpace (trimSpace s) = trimSpace s.
Proof.
  unfold trimSpace. set (t := trim_left is_space s).
  rewrite (trim_left_id _ (trim_right is_space t)).
  - unfold trim_right. by rewrite string_rev_involutive, (trim_left_id _ (trim_left _ _))
      by apply trim_left_head.
  - destruct (trim_right_prefix is_space t) as [b Hb]. apply (head_not_prefix _ _ b).
    rewrite <- Hb. apply trim_left_head.
Qed.

Lemma cut_app sep a b c : cut sep (a +:+ (b +:+ c))%string = None -> cut sep b = None.
Proof.
  induction a as [|x a IH]; simpl.
  - revert c. induction b as [|x b IH]; simpl; [done|]. intros c.
    destruct (Ascii.eqb x sep); [done|]. destruct (cut sep (b +:+ c)%string) as [[]|] eqn:E; [done|].
    by rewrite (IH _ E).
  - destruct (Ascii.eqb x sep); [done|]. destruct (cut sep (a +:+ (b +:+ c))%string) as [[]|]; [done|].
    auto.
Qed.

Lemma cut_split_head sep s : cut sep (split_head sep s) = None.
Proof.
  unfold split_head. destruct (cut sep s) as [[a b]|] eqn:E; [|done].
  revert a b E. induction s as [|x s IH]; simpl; [done|]. intros a b.
  destruct (Ascii.eqb x sep) eqn:Ex; [by intros [= <- <-]|].
  destruct (cut sep s) as [[a' b']|]; [|done]. intros [= <- <-]. simpl. rewrite Ex.
  by rewrite (IH _ _ eq_refl).
Qed.

Lemma split_head_trimSpace sep s :
  split_head sep (trimSpace (split_head sep s)) = trimSpace (split_head sep s).
Proof.
  set (t := split_head sep s). assert (H : cut sep (trimSpace t) = None).
  { pose proof (cut_split_head sep s) as H. fold t in H. unfold trimSpace.
    destruct (trim_left_suffix is_space t) as [a Ha].
    destruct (trim_right_prefix is_space (trim_left is_space t)) as [b Hb].
    apply (cut_app _ a _ b). by rewrite <- Hb, <- Ha. }
  unfold split_head at 1. by rewrite H.
Qed.
