(* ===== verification/GoNet.v ===== *)
(** * The part of Go's [net] package that Raind uses

    [net.IP] is a byte slice: a list of integers, empty for [nil].  The
    textual forms are parsed as [net/netip] does, IPv6 and IPv4-mapped
    addresses included, because [ParseIP] and [ParseCIDR] accept them and the
    code then goes through [To4].  [GoNet.v] holds the lemmas. *)

From Stdlib Require Import ZArith Lia Ascii String.
From stdpp Require Import base gmap strings pretty list.
From S2P Require Import Prelude.
From S2P Require Import GoString.
Open Scope Z_scope.

Notation IP := (list Z) (only parsing).

(** ** Parsing *)

(** [netip.parseIPv4Fields]: [val] and [digLen] are the octet being read,
    [acc] the octets already read. *)
Fixpoint parse_ipv4_fields (s : string) (val digLen : Z) (acc : list Z)
    : option (list Z) :=
  match s with
  | EmptyString =>
      if (length acc =? 3)%nat then Some (acc ++ [val]) else None
  | String c r =>
      if is_digit c then
        if (digLen =? 1) && (val =? 0) then None else
        let v := val * 10 + (byte_of c - 48) in
        if 255 <? v then None else parse_ipv4_fields r v (digLen + 1) acc
      else if Ascii.eqb c "." then
        if (digLen =? 0) || String.eqb r "" then None else
        if (length acc =? 3)%nat then None else
        parse_ipv4_fields r 0 0 (acc ++ [val])
      else None
  end.

Definition hex_digit (c : ascii) : option Z :=
  let b := byte_of c in
  if is_digit c then Some (b - 48)
  else if (97 <=? b) && (b <=? 102) then Some (b - 87)
  else if (65 <=? b) && (b <=? 70) then Some (b - 55)
  else None.

(** The leading hexadecimal digits of a group: at most four. *)
Fixpoint hex_group (s : string) (off acc : Z) : option (Z * Z * string) :=
  match s with
  | EmptyString => Some (acc, off, s)
  | String c r =>
      match hex_digit c with
      | None => Some (acc, off, s)
      | Some d => if 3 <? off then None else hex_group r (off + 1) (acc * 16 + d)
      end
  end.

(** The loop of [netip.parseIPv6]; each round appends a group of two bytes, so
    the eight rounds of fuel are the loop bound [i < 16]. *)
Fixpoint parse_ipv6_loop (fuel : nat) (s : string) (ip : list Z)
    (ellipsis : option nat) : option (list Z * option nat * string) :=
  match fuel with
  | O => Some (ip, ellipsis, s)
  | S fuel =>
      '(acc, off, rest) ← hex_group s 0 0;
      if off =? 0 then None else
      match rest with
      | String "." _ =>
          if match ellipsis with
             | None => negb (length ip =? 12)%nat
             | Some _ => false
             end then None else
          if (16 <? length ip + 4)%nat then None else
          fields ← parse_ipv4_fields s 0 0 [];
          Some (ip ++ fields, ellipsis, EmptyString)
      | _ =>
          let ip := ip ++ [acc / 256; acc mod 256] in
          match rest with
          | EmptyString => Some (ip, ellipsis, EmptyString)
          | String c r =>
              if negb (Ascii.eqb c ":") then None else
              match r with
              | EmptyString => None
              | String c2 r2 =>
                  if Ascii.eqb c2 ":" then
                    match ellipsis with
                    | Some _ => None
                    | None =>
                        if String.eqb r2 ""
                        then Some (ip, Some (length ip), EmptyString)
                        else parse_ipv6_loop fuel r2 ip (Some (length ip))
                    end
                  else parse_ipv6_loop fuel r ip ellipsis
              end
          end
      end
  end.

(** [netip.parseIPv6].  A zone ([%eth0]) is an error for both callers in
    [net], so an address with a percent sign is refused here. *)
Definition parse_ipv6 (s : string) : option (list Z) :=
  if contains s "%" then None else
  let '(s, ellipsis) :=
    if hasPrefix s "::" then (drop_str 2 s, Some O) else (s, None) in
  if String.eqb s "" && bool_decide (ellipsis = Some O)
  then Some (replicate 16 0) else
  '(ip, ellipsis, s) ← parse_ipv6_loop 8 s [] ellipsis;
  if negb (String.eqb s "") then None else
  if (length ip <? 16)%nat then
    match ellipsis with
    | None => None
    | Some e =>
        Some (take e ip ++ replicate (16 - length ip) 0 ++ drop e ip)
    end
  else match ellipsis with Some _ => None | None => Some ip end.

(** [netip.ParseAddr]: the first of [.], [:] and [%] decides the form. *)
Fixpoint addr_form (s : string) : option ascii :=
  match s with
  | EmptyString => None
  | String c r =>
      if Ascii.eqb c "." || Ascii.eqb c ":" || Ascii.eqb c "%"
      then Some c else addr_form r
  end.

Definition parse_addr (s : string) : option (list Z) :=
  match addr_form s with
  | Some "."%char => parse_ipv4_fields s 0 0 []
  | Some ":"%char => parse_ipv6 s
  | _ => None
  end.

Definition v4InV6Prefix : list Z := [0;0;0;0;0;0;0;0;0;0;255;255].

Definition as16 (a : list Z) : list Z :=
  if (length a =? 4)%nat then v4InV6Prefix ++ a else a.

(** [net.ParseIP]: sixteen bytes, or [nil]. *)
Definition ParseIP (s : string) : IP :=
  match parse_addr s with Some a => as16 a | None => [] end.

(** [ip.To4()]. *)
Definition To4 (ip : IP) : IP :=
  if (length ip =? 4)%nat then ip
  else if (length ip =? 16)%nat && bool_decide (take 12 ip = v4InV6Prefix)
  then drop 12 ip
  else [].

Definition is_nil {A} (l : list A) : bool :=
  match l with [] => true | _ => false end.

(** [ip.Equal(x)]: an IPv4 address equals its IPv6-mapped form. *)
Definition IP_Equal (a b : IP) : bool := bool_decide (To4 a = To4 b /\ To4 a <> [] \/ a = b).

(** ** Masks and networks *)

Record IPNet := { net_ip : IP; net_mask : list Z }.

(** [net.CIDRMask(ones, bits)] for [0 <= ones <= bits]. *)
Fixpoint cidr_mask_bytes (n : nat) (ones : Z) : list Z :=
  match n with
  | O => []
  | S n => (if 8 <=? ones then 255
            else 255 - Z.shiftr 255 (Z.max 0 ones)) :: cidr_mask_bytes n (ones - 8)
  end.
Definition CIDRMask (ones bits : Z) : list Z :=
  cidr_mask_bytes (Z.to_nat (bits / 8)) ones.

Definition all_ff (m : list Z) : bool := forallb (fun b => b =? 255) m.

(** [ip.Mask(m)]. *)
Definition IP_Mask (ip : IP) (m : list Z) : IP :=
  let m := if (length m =? 16)%nat && (length ip =? 4)%nat && all_ff (take 12 m)
           then drop 12 m else m in
  let ip := if (length m =? 4)%nat && (length ip =? 16)%nat &&
               bool_decide (take 12 ip = v4InV6Prefix)
            then drop 12 ip else ip in
  if (length ip =? length m)%nat then zip_with Z.land ip m else [].

(** [net.dtoi]: the number and what is left of the string. *)
Fixpoint dtoi_loop (s : string) (n : Z) : option (Z * string) :=
  match s with
  | EmptyString => Some (n, s)
  | String c r =>
      if is_digit c then
        let n := n * 10 + (byte_of c - 48) in
        if 16777215 <=? n then None else dtoi_loop r n
      else Some (n, s)
  end.

(** [net.ParseCIDR]: the network it returns; [None] is the parse error. *)
Definition ParseCIDR (s : string) : option IPNet :=
  '(addr, mask) ← cut "/" s;
  a ← parse_addr addr;
  '(n, rest) ← dtoi_loop mask 0;
  let bits := 8 * Z.of_nat (length a) in
  if String.eqb mask "" || negb (String.eqb rest "") || (bits <? n) then None
  else
    let m := CIDRMask n bits in
    Some {| net_ip := IP_Mask (as16 a) m; net_mask := m |}.

(** [networkNumberAndMask]. *)
Definition networkNumberAndMask (n : IPNet) : option (IP * list Z) :=
  let ip := if is_nil (To4 (net_ip n)) then net_ip n else To4 (net_ip n) in
  let m := net_mask n in
  if is_nil (To4 (net_ip n)) && negb (length ip =? 16)%nat then None else
  if (length m =? 4)%nat then
    if (length ip =? 4)%nat then Some (ip, m) else None
  else if (length m =? 16)%nat then
    Some (ip, if (length ip =? 4)%nat then drop 12 m else m)
  else None.

(** [n.Contains(ip)]. *)
Definition Contains (n : IPNet) (ip : IP) : bool :=
  match networkNumberAndMask n with
  | None => is_nil ip
  | Some (nn, m) =>
      let ip := if is_nil (To4 ip) then ip else To4 ip in
      (length ip =? length nn)%nat &&
      bool_decide (zip_with Z.land nn m = zip_with Z.land ip m)
  end.

(** [simpleMaskLength] and [Mask.Size]. *)
Fixpoint leading_ones (fuel : nat) (v n : Z) : Z * Z :=
  match fuel with
  | O => (n, v)
  | S fuel =>
      if Z.testbit v 7 then leading_ones fuel ((v * 2) mod 256) (n + 1)
      else (n, v)
  end.
Fixpoint simpleMaskLength (m : list Z) (n : Z) : Z :=
  match m with
  | [] => n
  | v :: r =>
      if v =? 255 then simpleMaskLength r (n + 8)
      else let '(n, v) := leading_ones 8 v n in
           if negb (v =? 0) then -1
           else if forallb (fun b => b =? 0) r then n else -1
  end.
Definition Mask_ones (m : list Z) : Z :=
  let n := simpleMaskLength m 0 in if n =? -1 then 0 else n.

(** ** Printing *)

(** [ip.String()] for a four-byte address. *)
Definition ipv4_String (ip : IP) : string := join "." (itoa <$> ip).

(** [n.String()] for an IPv4 network given by [CIDRMask]. *)
Definition IPNet_String (n : IPNet) : string :=
  match networkNumberAndMask n with
  | None => "<nil>"
  | Some (nn, m) => ipv4_String nn +:+ "/" +:+ itoa (simpleMaskLength m 0)
  end.

(** * IPv4 addresses and prefixes as 32-bit integers

    Lemmas on [GoNet.v]: a four-byte address is determined by its value
    [ipv4_val], printing and parsing are inverse to each other, and a network
    of prefix length [n] contains exactly the [2^(32-n)] values from its
    base. *)

Definition is_byte (b : Z) : Prop := 0 <= b < 256.

Definition is_ipv4 (ip : IP) : Prop := length ip = 4%nat /\ Forall is_byte ip.

(** Big-endian value. *)
Definition ipv4_val (ip : IP) : Z := fold_left (fun a b => a * 256 + b) ip 0.

(** The four bytes of a 32-bit value ([binary.BigEndian.PutUint32]). *)
Definition ipv4_bytes (v : Z) : IP :=
  [v / 16777216 mod 256; v / 65536 mod 256; v / 256 mod 256; v mod 256].

Ltac destruct_ipv4 H :=
  let Hl := fresh "Hl" in let Hb := fresh "Hb" in
  destruct H as [Hl Hb];
  match type of Hl with length ?ip = _ =>
    destruct ip as [|? [|? [|? [|? [|? ?]]]]]; try discriminate Hl;
    repeat match goal with
      | Hf : Forall is_byte (_ :: _) |- _ => apply Forall_cons in Hf as [? Hf]
      end; clear Hl Hb
  end.

Lemma is_ipv4_cons a b c d :
  is_ipv4 [a; b; c; d] <-> is_byte a /\ is_byte b /\ is_byte c /\ is_byte d.
Proof.
  unfold is_ipv4. rewrite !Forall_cons. simpl. split; [tauto|].
  intros (?&?&?&?). split; [done|]. auto.
Qed.

Lemma ipv4_val_range ip : is_ipv4 ip -> 0 <= ipv4_val ip < 2 ^ 32.
Proof. intros H. destruct_ipv4 H. unfold ipv4_val, is_byte in *. simpl. lia. Qed.

Lemma ipv4_val_inj a b :
  is_ipv4 a -> is_ipv4 b -> ipv4_val a = ipv4_val b -> a = b.
Proof.
  intros Ha Hb. destruct_ipv4 Ha. destruct_ipv4 Hb.
  unfold ipv4_val, is_byte in *. cbn. intros He. repeat f_equal; lia.
Qed.

Lemma ipv4_bytes_ok v : is_ipv4 (ipv4_bytes v).
Proof.
  apply is_ipv4_cons. unfold is_byte.
  repeat split; apply Z.mod_pos_bound; lia.
Qed.

Lemma ipv4_val_bytes v : 0 <= v < 2 ^ 32 -> ipv4_val (ipv4_bytes v) = v.
Proof.
  intros Hv. unfold ipv4_val, ipv4_bytes. cbn.
  pose proof (Z.div_mod v 256 ltac:(lia)).
  pose proof (Z.div_mod (v / 256) 256 ltac:(lia)).
  pose proof (Z.div_mod (v / 65536) 256 ltac:(lia)).
  assert (v / 65536 = v / 256 / 256) as E1 by (rewrite Z.div_div; [f_equal|..]; lia).
  assert (v / 16777216 = v / 65536 / 256) as E2
    by (rewrite Z.div_div; [f_equal|..]; lia).
  assert (v / 16777216 mod 256 = v / 16777216) as E3.
  { apply Z.mod_small. split; [apply Z.div_pos; lia|].
    apply Z.div_lt_upper_bound; lia. }
  rewrite E3, E2, E1 in *. lia.
Qed.

Lemma ipv4_bytes_val ip : is_ipv4 ip -> ipv4_bytes (ipv4_val ip) = ip.
Proof.
  intros H. apply ipv4_val_inj; [apply ipv4_bytes_ok|done|].
  apply ipv4_val_bytes. by apply ipv4_val_range.
Qed.

Lemma To4_ipv4 ip : is_ipv4 ip -> To4 ip = ip.
Proof. intros [Hl _]. unfold To4. by rewrite Hl. Qed.

Lemma To4_mapped ip : is_ipv4 ip -> To4 (as16 ip) = ip.
Proof. intros H. destruct_ipv4 H. reflexivity. Qed.

(** ** Printing and parsing *)

(** Running the digits of [s] through the octet parser. *)
Fixpoint octet_run (s : string) (val digLen : Z) : option (Z * Z) :=
  match s with
  | EmptyString => Some (val, digLen)
  | String c r =>
      if is_digit c then
        if (digLen =? 1) && (val =? 0) then None else
        let v := val * 10 + (byte_of c - 48) in
        if 255 <? v then None else octet_run r v (digLen + 1)
      else None
  end.

#[local] Arguments String.append !_ _ / : simpl nomatch.

Lemma octet_run_parse s val dl v' dl' rest acc :
  octet_run s val dl = Some (v', dl') ->
  parse_ipv4_fields (s +:+ rest) val dl acc = parse_ipv4_fields rest v' dl' acc.
Proof.
  revert val dl. induction s as [|c s IH]; intros val dl; simpl; [congruence|].
  destruct (is_digit c); [|done].
  destruct ((dl =? 1) && (val =? 0)); [done|].
  destruct (255 <? _); [done|]. apply IH.
Qed.

(** What the parsers need to know of a printed octet, checked for each. *)
Definition octet_ok (b : Z) : bool :=
  match octet_run (itoa b) 0 0 with
  | Some (v, dl) => (v =? b) && (0 <? dl)
  | None => false
  end &&
  forallb is_digit (list_ascii_of_string (itoa b)) &&
  match itoa b with EmptyString => false | _ => true end.

Lemma octets_ok : forallb octet_ok (seqZ 0 256) = true.
Proof. vm_compute. reflexivity. Qed.

Lemma octet_run_itoa b :
  is_byte b -> exists dl, octet_run (itoa b) 0 0 = Some (b, dl) /\ 0 < dl.
Proof.
  intros Hb. pose proof octets_ok as H. rewrite forallb_forall in H.
  specialize (H b). rewrite <- list_elem_of_In, elem_of_seqZ in H.
  specialize (H ltac:(unfold is_byte in Hb; lia)).
  unfold octet_ok in H. destruct (octet_run (itoa b) 0 0) as [[v dl]|]; [|done].
  exists dl. split; [|lia]. repeat f_equal. lia.
Qed.

Lemma itoa_octet_digits b :
  is_byte b -> Forall (fun c => is_digit c = true) (list_ascii_of_string (itoa b)) /\
  itoa b <> EmptyString.
Proof.
  intros Hb. pose proof octets_ok as H. rewrite forallb_forall in H.
  specialize (H b). rewrite <- list_elem_of_In, elem_of_seqZ in H.
  specialize (H ltac:(unfold is_byte in Hb; lia)).
  unfold octet_ok in H. apply andb_true_iff in H as [H1 H2].
  apply andb_true_iff in H1 as [_ H1].
  split; [|by destruct (itoa b)].
  apply Forall_forall. intros c Hc. rewrite forallb_forall in H1.
  apply H1. by apply list_elem_of_In.
Qed.

Lemma parse_octet_dot b r acc :
  is_byte b -> r <> EmptyString -> length acc <> 3%nat ->
  parse_ipv4_fields (itoa b +:+ String "." r) 0 0 acc =
    parse_ipv4_fields r 0 0 (acc ++ [b]).
Proof.
  intros Hb Hr Hacc. destruct (octet_run_itoa b Hb) as (dl & He & Hdl).
  rewrite (octet_run_parse _ _ _ _ _ _ _ He). simpl.
  rewrite (proj2 (Z.eqb_neq dl 0)) by lia.
  destruct (String.eqb_spec r ""); [done|].
  by rewrite (proj2 (Nat.eqb_neq (length acc) 3)).
Qed.

Lemma parse_octet_end b acc :
  is_byte b -> length acc = 3%nat ->
  parse_ipv4_fields (itoa b) 0 0 acc = Some (acc ++ [b]).
Proof.
  intros Hb Hacc. destruct (octet_run_itoa b Hb) as (dl & He & Hdl).
  rewrite <- (string_app_nil_r (itoa b)).
  rewrite (octet_run_parse _ _ _ _ _ _ _ He). simpl. by rewrite Hacc.
Qed.

Lemma ipv4_String_eq a b c d :
  ipv4_String [a; b; c; d] =
    itoa a +:+ String "." (itoa b +:+ String "." (itoa c +:+ String "." (itoa d))).
Proof. reflexivity. Qed.

Lemma app_string_nonempty (a b : string) : a <> EmptyString -> a +:+ b <> EmptyString.
Proof. by destruct a. Qed.

Lemma parse_ipv4_String ip :
  is_ipv4 ip -> parse_ipv4_fields (ipv4_String ip) 0 0 [] = Some ip.
Proof.
  intros H. destruct_ipv4 H. rewrite ipv4_String_eq.
  repeat (rewrite parse_octet_dot;
    [|done|first [apply app_string_nonempty|idtac]; by apply itoa_octet_digits|done]).
  by rewrite parse_octet_end.
Qed.

(** A byte that is a digit is none of the separators. *)
Lemma digit_not_sep c d :
  is_digit c = true -> is_digit d = false -> Ascii.eqb c d = false.
Proof. intros Hc Hd. destruct (Ascii.eqb_spec c d); congruence. Qed.

Lemma addr_form_digits s r :
  Forall (fun c => is_digit c = true) (list_ascii_of_string s) ->
  addr_form (s +:+ r) = addr_form r.
Proof.
  induction s as [|c s IH]; simpl; [done|]. intros [Hc Hs]%Forall_cons.
  rewrite !(digit_not_sep c) by done. auto.
Qed.

Lemma addr_form_ipv4 ip : is_ipv4 ip -> addr_form (ipv4_String ip) = Some "."%char.
Proof.
  intros H. destruct_ipv4 H. rewrite ipv4_String_eq.
  rewrite addr_form_digits by (by apply itoa_octet_digits). reflexivity.
Qed.

Lemma parse_addr_ipv4 ip : is_ipv4 ip -> parse_addr (ipv4_String ip) = Some ip.
Proof.
  intros H. unfold parse_addr. rewrite addr_form_ipv4 by done.
  by apply parse_ipv4_String.
Qed.

Lemma ParseIP_String ip : is_ipv4 ip -> To4 (ParseIP (ipv4_String ip)) = ip.
Proof.
  intros H. unfold ParseIP. rewrite parse_addr_ipv4 by done. by apply To4_mapped.
Qed.

Lemma ipv4_String_inj a b :
  is_ipv4 a -> is_ipv4 b -> ipv4_String a = ipv4_String b -> a = b.
Proof.
  intros Ha Hb He. apply parse_ipv4_String in Ha, Hb. congruence.
Qed.

(** ** Masks *)

Lemma testbit_byte a b n :
  is_byte b -> 0 <= n ->
  Z.testbit (a * 256 + b) n =
    if n <? 8 then Z.testbit b n else Z.testbit a (n - 8).
Proof.
  intros Hb Hn. unfold is_byte in Hb.
  destruct (Z.ltb_spec n 8).
  - rewrite <- (Z.mod_pow2_bits_low (a * 256 + b) 8 n) by lia.
    change (2 ^ 8) with 256.
    rewrite Z.add_comm, Z_mod_plus_full, Z.mod_small; done || lia.
  - replace n with (n - 8 + 8) at 1 by lia.
    rewrite <- Z.div_pow2_bits by lia. change (2 ^ 8) with 256.
    rewrite Z.div_add_l, Z.div_small by lia. by rewrite Z.add_0_r.
Qed.

Lemma land_byte b d : is_byte b -> is_byte d -> is_byte (Z.land b d).
Proof.
  unfold is_byte. intros Hb Hd. split; [apply Z.land_nonneg; lia|].
  assert (Z.land b d = Z.land b d mod 2 ^ 8) as ->; [|apply Z.mod_pos_bound; lia].
  rewrite <- Z.land_ones, <- Z.land_assoc by lia. f_equal.
  rewrite Z.land_ones by lia. change (2 ^ 8) with 256.
  by rewrite Z.mod_small by lia.
Qed.

Lemma land_cons a b c d :
  is_byte b -> is_byte d ->
  Z.land (a * 256 + b) (c * 256 + d) = Z.land a c * 256 + Z.land b d.
Proof.
  intros Hb Hd. apply Z.bits_inj'. intros n Hn.
  rewrite Z.land_spec, !testbit_byte by auto using land_byte.
  by destruct (n <? 8); rewrite Z.land_spec.
Qed.

Lemma ipv4_val_land a m :
  is_ipv4 a -> is_ipv4 m ->
  ipv4_val (zip_with Z.land a m) = Z.land (ipv4_val a) (ipv4_val m).
Proof.
  intros Ha Hm. destruct_ipv4 Ha. destruct_ipv4 Hm.
  unfold ipv4_val. cbn [zip_with fold_left].
  rewrite !land_cons by done. reflexivity.
Qed.

Lemma zip_land_ipv4 a m : is_ipv4 a -> is_ipv4 m -> is_ipv4 (zip_with Z.land a m).
Proof.
  intros Ha Hm. destruct_ipv4 Ha. destruct_ipv4 Hm.
  apply is_ipv4_cons. auto using land_byte.
Qed.

(** The prefix lengths are few: facts about one are checked for all. *)
Lemma forall_prefix (P : Z -> Prop) `{forall n, Decision (P n)} :
  forallb (fun n => bool_decide (P n)) (seqZ 0 33) = true ->
  forall n, 0 <= n <= 32 -> P n.
Proof.
  intros Hall n Hn. rewrite forallb_forall in Hall.
  apply (bool_decide_unpack (P n)).
  apply Is_true_true, Hall, list_elem_of_In, elem_of_seqZ. lia.
Qed.

#[export] Instance is_byte_dec b : Decision (is_byte b).
Proof. unfold is_byte. apply _. Defined.
#[export] Instance is_ipv4_dec ip : Decision (is_ipv4 ip).
Proof. unfold is_ipv4. apply _. Defined.

Lemma CIDRMask_ipv4 n : 0 <= n <= 32 -> is_ipv4 (CIDRMask n 32).
Proof. revert n. apply (forall_prefix _). vm_compute. reflexivity. Qed.

Lemma CIDRMask_val n :
  0 <= n <= 32 -> ipv4_val (CIDRMask n 32) = Z.shiftl (Z.ones n) (32 - n).
Proof. revert n. apply (forall_prefix _). vm_compute. reflexivity. Qed.

Lemma CIDRMask_ones n : 0 <= n <= 32 -> simpleMaskLength (CIDRMask n 32) 0 = n.
Proof. revert n. apply (forall_prefix _). vm_compute. reflexivity. Qed.

Lemma dtoi_prefix n : 0 <= n <= 32 -> dtoi_loop (itoa n) 0 = Some (n, EmptyString).
Proof. revert n. apply (forall_prefix _). vm_compute. reflexivity. Qed.

(** Keeping the first [n] of 32 bits clears the value below [2^(32-n)]. *)
Lemma land_prefix v n :
  0 <= v < 2 ^ 32 -> 0 <= n <= 32 ->
  Z.land v (Z.shiftl (Z.ones n) (32 - n)) = 2 ^ (32 - n) * (v / 2 ^ (32 - n)).
Proof.
  intros Hv Hn. rewrite Z.mul_comm, <- Z.shiftl_mul_pow2, <- Z.shiftr_div_pow2 by lia.
  apply Z.bits_inj'. intros i Hi.
  rewrite Z.land_spec, !Z.shiftl_spec by lia.
  destruct (Z.ltb_spec i (32 - n)).
  - rewrite !(Z.testbit_neg_r _ (i - (32 - n))) by lia. apply andb_false_r.
  - rewrite Z.shiftr_spec, Z.sub_add by lia.
    destruct (Z.ltb_spec i 32).
    + rewrite Z.ones_spec_low by lia. apply andb_true_r.
    + rewrite <- (Z.mod_small v (2 ^ 32)) by done.
      by rewrite Z.mod_pow2_bits_high by lia.
Qed.

(** ** Networks *)

(** The IPv4 network with base address [base] and prefix length [n]. *)
Definition net4 (base n : Z) : IPNet :=
  {| net_ip := ipv4_bytes base; net_mask := CIDRMask n 32 |}.

(** Its number of addresses. *)
Definition net_size (n : Z) : Z := 2 ^ (32 - n).

Record is_prefix (base n : Z) : Prop := {
  prefix_len : 0 <= n <= 32;
  prefix_range : 0 <= base < 2 ^ 32;
  prefix_aligned : base mod net_size n = 0
}.

#[export] Instance is_prefix_dec base n : Decision (is_prefix base n).
Proof.
  refine (cast_if (decide (0 <= n <= 32 /\ 0 <= base < 2 ^ 32 /\
                           base mod net_size n = 0)));
    abstract (destruct_and?; first [by constructor|intros []; tauto]).
Defined.

Lemma net_size_pos n : n <= 32 -> 0 < net_size n.
Proof. intros. apply Z.pow_pos_nonneg; lia. Qed.

Lemma networkNumberAndMask_net4 base n :
  0 <= n <= 32 ->
  networkNumberAndMask (net4 base n) = Some (ipv4_bytes base, CIDRMask n 32).
Proof.
  intros Hn. unfold networkNumberAndMask, net4. cbn [net_ip net_mask].
  rewrite To4_ipv4 by apply ipv4_bytes_ok.
  destruct (CIDRMask_ipv4 n Hn) as [Hl _]. by rewrite Hl.
Qed.

Lemma Contains_net4 base n ip :
  is_prefix base n -> is_ipv4 ip ->
  Contains (net4 base n) ip = true <->
    base <= ipv4_val ip < base + net_size n.
Proof.
  intros [Hn Hb Ha] Hip. unfold Contains.
  rewrite networkNumberAndMask_net4 by done. rewrite To4_ipv4 by done.
  pose proof (CIDRMask_ipv4 n Hn) as Hm.
  pose proof (ipv4_val_range ip Hip) as Hr.
  pose proof (net_size_pos n ltac:(lia)) as Hs.
  destruct Hip as [Hl Hbytes].
  destruct (is_nil ip); rewrite Hl; cbn [Nat.eqb length ipv4_bytes andb];
    rewrite bool_decide_eq_true;
    (trans (Z.land base (ipv4_val (CIDRMask n 32)) =
            Z.land (ipv4_val ip) (ipv4_val (CIDRMask n 32)));
     [rewrite <- (ipv4_val_bytes base) at 2 by done;
      rewrite <- !ipv4_val_land by (done || apply ipv4_bytes_ok);
      split; [by intros ->|apply ipv4_val_inj;
        apply zip_land_ipv4; done || apply ipv4_bytes_ok]|];
     rewrite CIDRMask_val, !land_prefix by done; fold (net_size n);
     pose proof (Z.div_mod base (net_size n) ltac:(lia));
     pose proof (Z.div_mod (ipv4_val ip) (net_size n) ltac:(lia));
     pose proof (Z.mod_pos_bound (ipv4_val ip) (net_size n) ltac:(lia));
     split; [lia|]; intros; f_equal;
     apply Z.div_unique with (r := ipv4_val ip - base) (b := net_size n);
     lia).
Qed.

Lemma cut_digits s r sep :
  Forall (fun c => is_digit c = true) (list_ascii_of_string s) ->
  is_digit sep = false ->
  cut sep (s +:+ r) = match cut sep r with
                      | Some (a, b) => Some (s +:+ a, b)
                      | None => None
                      end.
Proof.
  intros Hs Hsep. induction s as [|c s IH]; simpl in *.
  - by destruct (cut sep r) as [[]|].
  - apply Forall_cons in Hs as [Hc Hs].
    rewrite (digit_not_sep c sep), IH by done.
    by destruct (cut sep r) as [[]|].
Qed.

Lemma cut_ipv4 ip r :
  is_ipv4 ip ->
  cut "/" (ipv4_String ip +:+ String "/" r) = Some (ipv4_String ip, r).
Proof.
  intros H. destruct_ipv4 H. rewrite ipv4_String_eq, !string_app_assoc. simpl.
  rewrite !string_app_assoc. simpl. rewrite !string_app_assoc. simpl.
  rewrite cut_digits; [|by apply itoa_octet_digits|done]. simpl.
  rewrite cut_digits; [|by apply itoa_octet_digits|done]. simpl.
  rewrite cut_digits; [|by apply itoa_octet_digits|done]. simpl.
  rewrite cut_digits; [|by apply itoa_octet_digits|done]. simpl.
  by rewrite string_app_nil_r.
Qed.

(** The host part of an address is cleared by its mask. *)
Lemma IP_Mask_ipv4 ip n :
  is_ipv4 ip -> 0 <= n <= 32 ->
  IP_Mask (as16 ip) (CIDRMask n 32) =
    ipv4_bytes (net_size n * (ipv4_val ip / net_size n)).
Proof.
  intros Hip Hn. pose proof (CIDRMask_ipv4 n Hn) as Hm.
  assert (IP_Mask (as16 ip) (CIDRMask n 32) = zip_with Z.land ip (CIDRMask n 32)) as ->.
  { unfold IP_Mask. destruct Hm as [Hlm _].
    rewrite Hlm. cbn [Nat.eqb andb]. destruct_ipv4 Hip. cbn [as16 length Nat.eqb app v4InV6Prefix].
    rewrite bool_decide_true by done. cbn [andb drop]. by rewrite Hlm. }
  rewrite <- (ipv4_bytes_val (zip_with _ _ _)) by by apply zip_land_ipv4.
  rewrite ipv4_val_land, CIDRMask_val, land_prefix by auto using ipv4_val_range.
  done.
Qed.

(** ** CIDR notation *)

Lemma itoa_prefix_nonempty n : 0 <= n <= 32 -> itoa n <> EmptyString.
Proof. revert n. apply (forall_prefix _). vm_compute. reflexivity. Qed.

Lemma ParseCIDR_print ip n :
  is_ipv4 ip -> 0 <= n <= 32 ->
  ParseCIDR (ipv4_String ip +:+ "/" +:+ itoa n) =
    Some (net4 (net_size n * (ipv4_val ip / net_size n)) n).
Proof.
  intros Hip Hn. unfold ParseCIDR.
  change ("/" +:+ itoa n) with (String "/" (itoa n)).
  rewrite cut_ipv4 by done. cbn [mbind option_bind].
  rewrite parse_addr_ipv4 by done. cbn [mbind option_bind].
  rewrite dtoi_prefix by done. cbn [mbind option_bind].
  rewrite (proj1 Hip).
  change (8 * Z.of_nat 4) with 32.
  destruct (String.eqb_spec (itoa n) ""); [by destruct (itoa_prefix_nonempty n Hn)|].
  rewrite (proj2 (Z.ltb_ge 32 n)) by lia. cbn [String.eqb negb orb].
  unfold net4. by rewrite IP_Mask_ipv4.
Qed.

Lemma is_prefix_mask v n :
  0 <= v < 2 ^ 32 -> 0 <= n <= 32 -> is_prefix (net_size n * (v / net_size n)) n.
Proof.
  intros Hv Hn. pose proof (net_size_pos n ltac:(lia)) as Hs.
  pose proof (Z.div_mod v (net_size n) ltac:(lia)).
  pose proof (Z.mod_pos_bound v (net_size n) ltac:(lia)).
  pose proof (Z.div_pos v (net_size n) ltac:(lia) ltac:(lia)).
  split; [done|nia|]. by rewrite Z.mul_comm, Z_mod_mult.
Qed.

Lemma prefix_base base n :
  is_prefix base n -> net_size n * (base / net_size n) = base.
Proof.
  intros [Hn Hb Ha]. pose proof (net_size_pos n ltac:(lia)) as Hs.
  pose proof (Z.div_mod base (net_size n) ltac:(lia)). lia.
Qed.

(** The text of the network [base/n]. *)
Definition cidr_text (base n : Z) : string :=
  ipv4_String (ipv4_bytes base) +:+ "/" +:+ itoa n.

Lemma ParseCIDR_text base n :
  is_prefix base n -> ParseCIDR (cidr_text base n) = Some (net4 base n).
Proof.
  intros H. unfold cidr_text.
  rewrite ParseCIDR_print by (apply ipv4_bytes_ok || apply H).
  by rewrite ipv4_val_bytes, prefix_base by apply H.
Qed.

Lemma IPNet_String_net4 base n :
  0 <= n <= 32 -> IPNet_String (net4 base n) = cidr_text base n.
Proof.
  intros Hn. unfold IPNet_String. rewrite networkNumberAndMask_net4 by done.
  unfold cidr_text. by rewrite CIDRMask_ones.
Qed.

Lemma cidr_text_inj b1 b2 n1 n2 :
  is_prefix b1 n1 -> is_prefix b2 n2 -> cidr_text b1 n1 = cidr_text b2 n2 ->
  b1 = b2 /\ n1 = n2.
Proof.
  intros H1 H2 He. pose proof (ParseCIDR_text _ _ H1) as P1.
  rewrite He, (ParseCIDR_text _ _ H2) in P1.
  assert (net4 b1 n1 = net4 b2 n2) as HE by congruence.
  pose proof (f_equal net_ip HE) as Hb. pose proof (f_equal net_mask HE) as Hm.
  cbn [net4 net_ip net_mask] in Hb, Hm. split.
  - rewrite <- (ipv4_val_bytes b1), <- (ipv4_val_bytes b2) by apply H1 || apply H2.
    congruence.
  - rewrite <- (CIDRMask_ones n1), <- (CIDRMask_ones n2) by apply H1 || apply H2.
    congruence.
Qed.

(** ** What the parsers accept is made of bytes *)

Lemma digit_range c : is_digit c = true -> 0 <= byte_of c - 48 <= 9.
Proof. unfold is_digit. lia. Qed.

Lemma parse_ipv4_fields_bytes s val dl acc r :
  Forall is_byte acc -> is_byte val -> parse_ipv4_fields s val dl acc = Some r ->
  Forall is_byte r.
Proof.
  revert val dl acc. induction s as [|c s IH]; intros val dl acc Ha Hv; simpl.
  - case_match; [|done]. intros [= <-]. apply Forall_app. split; [done|]. by constructor.
  - destruct (is_digit c) eqn:Ec.
    + case_match; [done|]. destruct (255 <? _) eqn:E; [done|].
      apply IH; [done|]. apply digit_range in Ec. unfold is_byte in *. lia.
    + repeat (case_match; try done).
      apply IH; [apply Forall_app; auto|]. unfold is_byte. lia.
Qed.

Lemma hex_digit_range c d : hex_digit c = Some d -> 0 <= d < 16.
Proof.
  unfold hex_digit. destruct (is_digit c) eqn:E; [apply digit_range in E; intros [= <-]; lia|].
  repeat (case_match; try done); intros [= <-]; lia.
Qed.

Lemma hex_group_range s off acc v o r :
  0 <= off <= 4 -> 0 <= acc < 16 ^ off -> hex_group s off acc = Some (v, o, r) ->
  0 <= v < 65536.
Proof.
  assert (forall o, 0 <= o <= 4 -> 16 ^ o <= 65536) as Hb.
  { intros o' Ho. change 65536 with (16 ^ 4). apply Z.pow_le_mono_r; lia. }
  revert off acc. induction s as [|c s IH]; intros off acc Ho Ha; simpl.
  - intros [= <- _ _]. specialize (Hb off Ho). lia.
  - destruct (hex_digit c) as [d|] eqn:Ed.
    + destruct (3 <? off) eqn:E; [done|]. apply IH; [lia|].
      apply hex_digit_range in Ed. rewrite Z.pow_add_r by lia. lia.
    + intros [= <- _ _]. specialize (Hb off Ho). lia.
Qed.

Lemma group_bytes v : 0 <= v < 65536 -> Forall is_byte [v / 256; v mod 256].
Proof.
  intros Hv. repeat constructor; unfold is_byte;
    Z.to_euclidean_division_equations; lia.
Qed.

Lemma parse_ipv6_loop_bytes fuel s ip e r :
  Forall is_byte ip -> parse_ipv6_loop fuel s ip e = Some r -> Forall is_byte r.1.1.
Proof.
  revert s ip e. induction fuel as [|fuel IH]; intros s ip e Hip; simpl.
  { by intros [= <-]. }
  intros ([[acc off] rest] & Hg & H)%bind_Some.
  apply hex_group_range in Hg; [|lia..]. apply group_bytes in Hg.
  assert (Forall is_byte (ip ++ [acc / 256; acc mod 256])) as Hip'
    by (apply Forall_app; auto).
  destruct (off =? 0); [done|].
  assert (forall f, (f ← parse_ipv4_fields s 0 0 [];
    Some (ip ++ f, e, EmptyString)) = Some f -> Forall is_byte f.1.1) as H4.
  { intros f (l & Hl & [= <-])%bind_Some. simpl. apply Forall_app. split; [done|].
    eapply parse_ipv4_fields_bytes; [constructor| |exact Hl]. unfold is_byte. lia. }
  repeat (case_match; simplify_eq; try done); simpl; eauto.
Qed.

Lemma parse_ipv6_bytes s r : parse_ipv6 s = Some r -> Forall is_byte r.
Proof.
  assert (forall n, Forall is_byte (replicate n 0)) as Hz
    by (intros n; apply Forall_replicate; unfold is_byte; lia).
  unfold parse_ipv6. case_match; [done|].
  destruct (if hasPrefix s "::" then _ else _) as [s' e].
  case_match; [intros [= <-]; apply (Hz 16%nat)|].
  intros ([[ip e'] s''] & Hl & Hr)%bind_Some.
  apply parse_ipv6_loop_bytes in Hl; [|constructor]. simpl in Hl.
  repeat (case_match; simplify_eq; try done).
  repeat (apply Forall_app; split); auto using Forall_take, Forall_drop.
Qed.

(** An address in the form that the code keeps: four bytes or nothing. *)
Lemma To4_ParseIP s : is_nil (To4 (ParseIP s)) = false -> is_ipv4 (To4 (ParseIP s)).
Proof.
  intros Hn.
  assert (Forall is_byte (ParseIP s)) as Hb.
  { unfold ParseIP, parse_addr.
    assert (forall a, Forall is_byte a -> Forall is_byte (as16 a)) as H16.
    { intros a Ha. unfold as16. case_match; [|done]. apply Forall_app. split; [|done].
      unfold v4InV6Prefix, is_byte. repeat constructor; lia. }
    repeat (case_match; try (by constructor)); simplify_eq; apply H16.
    all: first [eapply parse_ipv6_bytes; eassumption
      | eapply parse_ipv4_fields_bytes; [constructor| |eassumption]; unfold is_byte; lia]. }
  revert Hn. unfold To4. destruct (length (ParseIP s) =? 4)%nat eqn:E4.
  - intros _. split; [by apply Nat.eqb_eq|done].
  - destruct ((length (ParseIP s) =? 16)%nat && _) eqn:E16; [|done].
    intros _. apply andb_true_iff in E16 as [E16%Nat.eqb_eq _].
    split; [rewrite length_drop; lia|by apply Forall_drop].
Qed.
