(* ===== verification/GoSort.v ===== *)
(** * Sorting

    The order of Go's strings, [sort.Strings], and [sort.Slice], which promises
    a sorted permutation and nothing of the order of equal elements. *)

From Stdlib Require Import ZArith Lia Ascii String.
From stdpp Require Import base strings list sorting.
From S2P Require Import Prelude.
From S2P Require Import GoString.
Open Scope Z_scope.

(** Strings are ordered by their bytes. *)
Fixpoint string_leb (a b : string) : bool :=
  match a, b with
  | EmptyString, _ => true
  | String _ _, EmptyString => false
  | String c a, String d b =>
      if byte_of c <? byte_of d then true
      else if byte_of d <? byte_of c then false
      else string_leb a b
  end.
(** [a < b]. *)
Definition string_ltb (a b : string) : bool := negb (string_leb b a).

Lemma string_leb_total a b : string_leb a b = true \/ string_leb b a = true.
Proof.
  revert b. induction a as [|c a IH]; intros [|d b]; simpl; auto.
  destruct (byte_of c <? byte_of d) eqn:E1; [by left|].
  destruct (byte_of d <? byte_of c) eqn:E2; auto.
Qed.

Lemma byte_of_inj c d : byte_of c = byte_of d -> c = d.
Proof.
  unfold byte_of. intros H%N2Z.inj. apply (f_equal ascii_of_N) in H.
  by rewrite !ascii_N_embedding in H.
Qed.

Lemma string_leb_antisym a b : string_leb a b = true -> string_leb b a = true -> a = b.
Proof.
  revert b. induction a as [|c a IH]; intros [|d b]; simpl; try done.
  destruct (byte_of c <? byte_of d) eqn:E1; destruct (byte_of d <? byte_of c) eqn:E2;
    try done; try lia.
  intros H1 H2. f_equal; [apply byte_of_inj; lia|auto].
Qed.

Lemma string_leb_trans a b c :
  string_leb a b = true -> string_leb b c = true -> string_leb a c = true.
Proof.
  revert b c. induction a as [|x a IH]; intros [|y b] [|z c]; simpl; try done.
  destruct (byte_of x <? byte_of y) eqn:E1; destruct (byte_of y <? byte_of x) eqn:E2;
    destruct (byte_of y <? byte_of z) eqn:E3; destruct (byte_of z <? byte_of y) eqn:E4;
    destruct (byte_of x <? byte_of z) eqn:E5; destruct (byte_of z <? byte_of x) eqn:E6;
    try done; try lia. apply IH.
Qed.

Definition string_le (a b : string) : Prop := string_leb a b = true.
#[export] Instance string_le_dec : RelDecision string_le.
Proof. intros x y. unfold string_le. apply _. Defined.
#[export] Instance string_le_total : Total string_le.
Proof. intros x y. apply string_leb_total. Qed.
#[export] Instance string_le_trans : Transitive string_le.
Proof. intros x y z. apply string_leb_trans. Qed.
#[export] Instance string_le_antisymm : AntiSymm (=) string_le.
Proof. intros x y. apply string_leb_antisym. Qed.

(** [sort.Strings]. *)
Definition sort_Strings (l : list string) : list string := merge_sort string_le l.

(** [sort.Slice(l, less)]. *)
Class SliceSort := {
  sort_slice : forall {A : Type}, (A -> A -> bool) -> list A -> list A;
  sort_slice_perm : forall A (less : A -> A -> bool) l, sort_slice less l ≡ₚ l;
  sort_slice_sorted : forall A (less : A -> A -> bool) l,
    (forall a b, less a b = true -> less b a = false) ->
    (forall a b c, less b a = false -> less c b = false -> less c a = false) ->
    StronglySorted (fun a b => less b a = false) (sort_slice less l)
}.

Definition not_after {A} (less : A -> A -> bool) (a b : A) : Prop := less b a = false.
#[export] Instance not_after_dec {A} (less : A -> A -> bool) : RelDecision (not_after less).
Proof. intros a b. unfold not_after. apply _. Defined.

(** One way to sort, used where the model is evaluated. *)
#[export] Instance default_sort : SliceSort | 100.
Proof.
  refine {| sort_slice := fun A less => merge_sort (not_after less) |}.
  - intros A less l. apply merge_sort_Permutation.
  - intros A less l Has Htr. apply StronglySorted_merge_sort.
    + intros a b c. apply Htr.
    + intros a b. destruct (less b a) eqn:E; [right; by apply Has|by left].
Defined.

Section by_key.
Context {SS : SliceSort} {A : Type} (key : A -> string).
Definition key_less (a b : A) : bool := string_ltb (key a) (key b).

Lemma key_less_false a b : key_less b a = false <-> string_le (key a) (key b).
Proof. unfold key_less, string_ltb, string_le. by destruct (string_leb _ _). Qed.

Lemma sort_by_key_sorted l : StronglySorted string_le (key <$> sort_slice key_less l).
Proof.
  assert (StronglySorted (fun a b => key_less b a = false) (sort_slice key_less l)) as H.
  { apply sort_slice_sorted.
    - intros a b Hab. apply key_less_false. unfold key_less, string_ltb in Hab.
      destruct (string_leb_total (key a) (key b)) as [H|H]; [done|]. by rewrite H in Hab.
    - intros a b c. rewrite !key_less_false. intros H1 H2. by etrans. }
  induction H as [|x l' _ IH Hx]; [constructor|]. simpl. constructor; [done|].
  apply Forall_fmap. eapply Forall_impl; [exact Hx|]. intros y. apply key_less_false.
Qed.

(** The keys of a slice sorted by them do not depend on the algorithm. *)
Lemma sort_by_key l : key <$> sort_slice key_less l = sort_Strings (key <$> l).
Proof.
  apply (StronglySorted_unique string_le); [apply sort_by_key_sorted| |].
  - unfold sort_Strings. apply StronglySorted_merge_sort; apply _.
  - unfold sort_Strings. by rewrite merge_sort_Permutation, sort_slice_perm.
Qed.
End by_key.
