(* ===== verification/GoPath.v ===== *)
(** * Paths ([path/filepath] on Unix)

    [Clean], [Join], [Abs], [Rel] and [IsAbs], by the elements of a path, and
    the elements a cleaned path has. *)

From Stdlib Require Import ZArith Lia Ascii String.
From stdpp Require Import base gmap strings list.
From S2P Require Import Prelude.
From S2P Require Import GoString.
Open Scope Z_scope.

(** ** Definitions *)

Definition IsAbs (path : string) : bool := hasPrefix path "/".

(** The elements on the way, innermost first; [rooted]: there is nothing above
    the first one. *)
Definition clean_element (rooted : bool) (stack : list string) (e : string) : list string :=
  if String.eqb e "" || String.eqb e "." then stack
  else if String.eqb e ".." then
    match stack with
    | top :: below => if String.eqb top ".." then ".." :: stack else below
    | [] => if rooted then [] else [".."]
    end
  else e :: stack.

(** The elements of a path once cleaned. *)
Definition elements (path : string) : list string :=
  rev (fold_left (clean_element (IsAbs path)) (split "/"%char path) []).

Definition render (rooted : bool) (l : list string) : string :=
  if rooted then "/" +:+ join "/" l else match l with [] => "." | _ => join "/" l end.

Definition Clean (path : string) : string := render (IsAbs path) (elements path).

(** [Join]: leading empty elements are dropped, the rest is cleaned. *)
Fixpoint Join (elems : list string) : string :=
  match elems with
  | [] => ""
  | e :: rest => if String.eqb e "" then Join rest else Clean (join "/" elems)
  end.

(** [cwd] is what [os.Getwd] gives: it is asked for a relative path only. *)
Definition Abs (cwd : res string) (path : string) : res string :=
  if IsAbs path then Ok (Clean path) else wd ← cwd; Ok (Join [wd; path]).

Fixpoint strip_common (base targ : list string) : list string * list string :=
  match base, targ with
  | b :: base', t :: targ' => if String.eqb b t then strip_common base' targ' else (base, targ)
  | _, _ => (base, targ)
  end.

(** Of two absolute or two relative paths; the target [.] is not covered. *)
Definition Rel (basepath targpath : string) : res string :=
  if String.eqb (Clean targpath) (Clean basepath) then Ok "." else
  if negb (Bool.eqb (IsAbs basepath) (IsAbs targpath))
  then Err ("Rel: can't make " +:+ targpath +:+ " relative to " +:+ basepath) else
  match strip_common (elements basepath) (elements targpath) with
  | (".." :: _, _) => Err ("Rel: can't make " +:+ targpath +:+ " relative to " +:+ basepath)
  | (base, targ) => Ok (join "/" (((fun _ => "..") <$> base) ++ targ))
  end.

(** [path[:i+1]], cleaned, with [i] the last slash. *)
Definition Dir (path : string) : string :=
  match removelast (split "/"%char path) with
  | [] => Clean ""
  | l => Clean (join "/" l +:+ "/")
  end.

(** ** Elements *)

(** A name in a directory. *)
Definition name_ok (e : string) : bool :=
  negb (String.eqb e "") && negb (String.eqb e ".") && negb (String.eqb e "..") &&
  negb (contains e "/").

Definition no_slash (e : string) : Prop := contains e "/" = false.

(** The elements of a cleaned path: names, after climbs if it is relative. *)
Definition elements_ok (rooted : bool) (l : list string) : Prop :=
  exists ups names, l = ups ++ names /\ Forall (fun e => e = "..") ups /\
    Forall (fun e => name_ok e = true) names /\ (rooted = true -> ups = []).

Lemma name_ok_no_slash e : name_ok e = true -> no_slash e.
Proof. unfold name_ok, no_slash. intros [_ H]%andb_prop. by destruct (contains e "/"). Qed.

Lemma elements_ok_no_slash b l : elements_ok b l -> Forall no_slash l.
Proof.
  intros (ups & names & -> & Hu & Hn & _). apply Forall_app. split.
  - eapply Forall_impl; [exact Hu|]. by intros x ->.
  - eapply Forall_impl; [exact Hn|]. apply name_ok_no_slash.
Qed.

Lemma contains_slash_cons c s :
  contains (String c s) "/" = Ascii.eqb "/"%char c || contains s "/".
Proof. cbn [contains hasPrefix]. by rewrite andb_true_r. Qed.

Lemma split_slash_cons c s : c <> "/"%char ->
  split "/"%char (String c s) =
    match split "/"%char s with p :: ps => String c p :: ps | [] => [String c ""] end.
Proof. intros Hc. cbn [split]. by rewrite (proj2 (Ascii.eqb_neq _ _) Hc). Qed.

Lemma split_no_slash_elems s : Forall no_slash (split "/"%char s).
Proof.
  induction s as [|c s IH]; [by repeat constructor|].
  destruct (decide (c = "/"%char)) as [->|Hc]; [by constructor|].
  rewrite split_slash_cons by done. pose proof (split_nonempty "/"%char s) as Hne.
  destruct (split "/"%char s) as [|p ps]; [done|].
  apply Forall_cons in IH as [Hp Hps]. constructor; [|done].
  unfold no_slash. by rewrite contains_slash_cons, (proj2 (Ascii.eqb_neq _ _) (not_eq_sym Hc)).
Qed.

Lemma split_app_slash e s :
  no_slash e -> split "/"%char (e +:+ String "/" s)%string = e :: split "/"%char s.
Proof.
  induction e as [|c e IH]; [done|]. unfold no_slash. rewrite contains_slash_cons.
  intros [Hc He]%orb_false_iff.
  change (String c e +:+ String "/" s)%string with (String c (e +:+ String "/" s)%string).
  assert (c <> "/"%char) by (intros ->; done).
  by rewrite split_slash_cons, IH.
Qed.

Lemma split_one e : no_slash e -> split "/"%char e = [e].
Proof.
  induction e as [|c e IH]; [done|]. unfold no_slash. rewrite contains_slash_cons.
  intros [Hc He]%orb_false_iff. assert (c <> "/"%char) by (intros ->; done).
  by rewrite split_slash_cons, IH.
Qed.

Lemma join_cons2 e e' l :
  join "/" (e :: e' :: l) = (e +:+ String "/" (join "/" (e' :: l)))%string.
Proof. done. Qed.

Lemma split_join l : l <> [] -> Forall no_slash l -> split "/"%char (join "/" l) = l.
Proof.
  intros Hl H. induction H as [|e l He Hls IH]; [done|].
  destruct l as [|e' l]; [by apply split_one|].
  by rewrite join_cons2, split_app_slash, IH.
Qed.

(** The split of a concatenation at a slash. *)
Lemma split_app a b :
  split "/"%char (a +:+ String "/" b)%string = split "/"%char a ++ split "/"%char b.
Proof.
  induction a as [|c a IH]; [done|].
  change (String c a +:+ String "/" b)%string with (String c (a +:+ String "/" b)%string).
  destruct (decide (c = "/"%char)) as [->|Hc]; [cbn [split]; rewrite Ascii.eqb_refl, IH; done|].
  rewrite !split_slash_cons, IH by done. pose proof (split_nonempty "/"%char a).
  by destruct (split "/"%char a).
Qed.

(** ** The stack of elements *)

Definition stack_ok (rooted : bool) (st : list string) : Prop :=
  exists names ups, st = names ++ ups /\ Forall (fun e => name_ok e = true) names /\
    Forall (fun e => e = "..") ups /\ (rooted = true -> ups = []).

Lemma clean_element_ok rooted st e :
  no_slash e -> stack_ok rooted st -> stack_ok rooted (clean_element rooted st e).
Proof.
  intros He (names & ups & -> & Hn & Hu & Hr). unfold clean_element.
  destruct (String.eqb_spec e "") as [|H1]; [by exists names, ups|].
  destruct (String.eqb_spec e ".") as [|H2]; [by exists names, ups|]. cbn [orb].
  destruct (String.eqb_spec e "..") as [->|H3].
  - destruct names as [|n names]; simpl.
    + destruct ups as [|u ups].
      * exists [], (if rooted then [] else [".."]). destruct rooted; by repeat constructor.
      * pose proof (Forall_cons_1 _ _ _ Hu) as [-> _]. simpl. exists [], (".." :: ".." :: ups).
        repeat split; [constructor|by constructor|]. by intros H%Hr.
    + apply Forall_cons in Hn as [Hn Hns].
      destruct (String.eqb_spec n "..") as [->|_]; [done|]. by exists names, ups.
  - exists (e :: names), ups. repeat split; [|done..]. constructor; [|done].
    unfold name_ok. rewrite (proj2 (String.eqb_neq _ _) H1), (proj2 (String.eqb_neq _ _) H2),
      (proj2 (String.eqb_neq _ _) H3). unfold no_slash in He. by rewrite He.
Qed.

Lemma clean_fold_ok rooted l st :
  Forall no_slash l -> stack_ok rooted st ->
  stack_ok rooted (fold_left (clean_element rooted) l st).
Proof.
  intros H. revert st. induction H as [|e l He _ IH]; intros st Hst; simpl; [done|].
  apply IH, clean_element_ok; done.
Qed.

Lemma stack_ok_nil rooted : stack_ok rooted [].
Proof. exists [], []. by repeat constructor. Qed.

Lemma stack_elements rooted st : stack_ok rooted st -> elements_ok rooted (rev st).
Proof.
  intros (names & ups & -> & Hn & Hu & Hr). exists (rev ups), (rev names).
  rewrite rev_app_distr. repeat split; [by apply Forall_rev..|].
  intros H%Hr. by rewrite H.
Qed.

Lemma elements_are_ok path : elements_ok (IsAbs path) (elements path).
Proof. apply stack_elements, clean_fold_ok, stack_ok_nil. apply split_no_slash_elems. Qed.

(** Names are pushed. *)
Lemma clean_fold_names rooted names st :
  Forall (fun e => name_ok e = true) names ->
  fold_left (clean_element rooted) names st = rev names ++ st.
Proof.
  intros H. revert st. induction H as [|e l He _ IH]; intros st; simpl; [done|].
  rewrite IH, <- app_assoc. do 2 f_equal. unfold clean_element, name_ok in *.
  destruct (String.eqb e ""), (String.eqb e "."), (String.eqb e ".."); done.
Qed.

Lemma clean_fold_ups ups st :
  Forall (fun e => e = "..") ups -> Forall (fun e => e = "..") st ->
  fold_left (clean_element false) ups st = rev ups ++ st.
Proof.
  intros H. revert st. induction H as [|e l -> _ IH]; intros st Hst; simpl; [done|].
  assert (clean_element false st ".." = ".." :: st) as ->.
  { destruct st as [|t st]; [done|]. by apply Forall_cons in Hst as [-> _]. }
  rewrite IH by by constructor. by rewrite <- app_assoc.
Qed.

Lemma clean_fold_again rooted l :
  elements_ok rooted l -> rev (fold_left (clean_element rooted) l []) = l.
Proof.
  intros (ups & names & -> & Hu & Hn & Hr). rewrite fold_left_app.
  rewrite clean_fold_names by done. destruct rooted.
  - rewrite Hr by done. simpl. by rewrite app_nil_r, rev_involutive.
  - rewrite clean_fold_ups by done. rewrite app_nil_r, <- rev_app_distr. apply rev_involutive.
Qed.

(** ** Rendering *)

Lemma IsAbs_render rooted l : elements_ok rooted l -> IsAbs (render rooted l) = rooted.
Proof.
  intros Hl. destruct rooted; [done|]. unfold render, IsAbs.
  pose proof (elements_ok_no_slash _ _ Hl) as Hs.
  destruct l as [|e l]; [done|]. apply Forall_cons in Hs as [He _].
  destruct e as [|c e].
  { exfalso. destruct Hl as (ups & names & Heq & Hu & Hn & _). destruct ups as [|u ups].
    - destruct names as [|n names]; simplify_eq/=. by apply Forall_cons in Hn as [? _].
    - simplify_eq/=. by apply Forall_cons in Hu as [? _]. }
  unfold no_slash in He. rewrite contains_slash_cons in He. apply orb_false_iff in He as [Hc _].
  assert (hasPrefix (String c (match l with [] => e | _ => (e +:+ String "/" (join "/" l))%string end)) "/" = false) as H.
  { cbn [hasPrefix]. by rewrite Hc. }
  destruct l; exact H.
Qed.

Lemma elements_render rooted l : elements_ok rooted l -> elements (render rooted l) = l.
Proof.
  intros Hl. unfold elements. rewrite IsAbs_render by done.
  pose proof (elements_ok_no_slash _ _ Hl) as Hs. transitivity
    (rev (fold_left (clean_element rooted) l [])); [|by apply clean_fold_again]. f_equal.
  destruct rooted; unfold render.
  - change ("/" +:+ join "/" l) with ("" +:+ String "/" (join "/" l))%string.
    rewrite split_app. simpl. destruct l as [|e l]; [done|]. by rewrite split_join.
  - destruct l as [|e l]; [done|]. by rewrite split_join.
Qed.

Lemma render_inj rooted l k :
  elements_ok rooted l -> elements_ok rooted k -> render rooted l = render rooted k -> l = k.
Proof. intros Hl Hk H. by rewrite <- (elements_render _ _ Hl), <- (elements_render _ _ Hk), H. Qed.

Lemma elements_Clean path : elements (Clean path) = elements path.
Proof. apply elements_render, elements_are_ok. Qed.
Lemma IsAbs_Clean path : IsAbs (Clean path) = IsAbs path.
Proof. apply IsAbs_render, elements_are_ok. Qed.
Lemma Clean_idem path : Clean (Clean path) = Clean path.
Proof. unfold Clean at 1. by rewrite elements_Clean, IsAbs_Clean. Qed.

Lemma Clean_eq_iff p q :
  IsAbs p = IsAbs q -> Clean p = Clean q <-> elements p = elements q.
Proof.
  intros H. unfold Clean. rewrite H. split; [|by intros ->].
  pose proof (elements_are_ok p). pose proof (elements_are_ok q). rewrite H in *.
  by apply render_inj.
Qed.

(** ** Joining to an absolute path *)

Lemma IsAbs_app a b : IsAbs a = true -> IsAbs (a +:+ b)%string = true.
Proof.
  destruct a as [|c a]; [done|]. unfold IsAbs.
  change (String c a +:+ b)%string with (String c (a +:+ b)%string). by cbn [hasPrefix].
Qed.

Lemma IsAbs_nonempty a : IsAbs a = true -> String.eqb a "" = false.
Proof. by destruct a. Qed.

Lemma elements_abs a : IsAbs a = true ->
  elements a = rev (fold_left (clean_element true) (split "/"%char a) []).
Proof. intros H. unfold elements. by rewrite H. Qed.

(** The elements after those of [a] are added to its own. *)
Lemma elements_Join_abs a l : IsAbs a = true ->
  IsAbs (Join (a :: l)) = true /\
  elements (Join (a :: l)) =
    rev (fold_left (clean_element true) (l ≫= split "/"%char) (rev (elements a))).
Proof.
  intros Ha. cbn [Join]. rewrite IsAbs_nonempty by done.
  rewrite IsAbs_Clean, elements_Clean.
  assert (forall l a, split "/"%char (join "/" (a :: l)) = split "/"%char a ++ (l ≫= split "/"%char))
    as Hsplit.
  { clear. induction l as [|b l IH]; intros a; [by rewrite app_nil_r|].
    rewrite join_cons2, split_app, IH. done. }
  assert (IsAbs (join "/" (a :: l)) = true) as Hj.
  { destruct l as [|b l]; [done|]. rewrite join_cons2. by apply IsAbs_app. }
  split; [done|]. rewrite elements_abs, Hsplit, fold_left_app, elements_abs by done.
  by rewrite rev_involutive.
Qed.

Lemma Abs_abs cwd p : IsAbs p = true -> Abs cwd p = Ok (Clean p).
Proof. intros H. unfold Abs. by rewrite H. Qed.

Lemma Abs_IsAbs cwd p a :
  (forall wd, cwd = Ok wd -> IsAbs wd = true) -> Abs cwd p = Ok a -> IsAbs a = true /\ Clean a = a.
Proof.
  intros Hcwd. unfold Abs. destruct (IsAbs p) eqn:E.
  - intros [= <-]. by rewrite IsAbs_Clean, Clean_idem.
  - intros (wd & Hwd & [= <-])%res_bind_ok. specialize (Hcwd _ Hwd).
    split; [exact (proj1 (elements_Join_abs wd [p] Hcwd))|]. cbn [Join]. rewrite IsAbs_nonempty by done. apply Clean_idem.
Qed.

Lemma Clean_abs p : IsAbs p = true -> Clean p = render true (elements p).
Proof. intros H. unfold Clean. by rewrite H. Qed.

Lemma elements_abs_names p : IsAbs p = true -> Forall (fun e => name_ok e = true) (elements p).
Proof.
  intros H. destruct (elements_are_ok p) as (ups & names & -> & _ & Hn & Hr).
  by rewrite Hr.
Qed.

Lemma names_elements_ok b l : Forall (fun e => name_ok e = true) l -> elements_ok b l.
Proof. intros H. exists [], l. by repeat split. Qed.

(** ** Relative paths *)

Lemma strip_common_spec b t :
  exists pre, b = pre ++ (strip_common b t).1 /\ t = pre ++ (strip_common b t).2.
Proof.
  revert t. induction b as [|x b IH]; intros t; [by exists []|].
  destruct t as [|y t]; [by exists []|]. simpl.
  destruct (String.eqb_spec x y) as [->|]; [|by exists []].
  destruct (IH t) as (pre & H1 & H2). exists (y :: pre). simpl. by rewrite <- H1, <- H2.
Qed.

Lemma strip_common_app b t : strip_common b (b ++ t) = ([], t).
Proof. induction b as [|x b IH]; simpl; [by destruct t|]. by rewrite String.eqb_refl. Qed.

Lemma hasPrefix_join_slash e l : no_slash e ->
  hasPrefix (join "/" (e :: l)) "../" = true -> e = "..".
Proof.
  intros He [t Ht]%hasPrefix_spec.
  assert (split "/"%char (join "/" (e :: l)) = ".." :: split "/"%char t) as H by by rewrite Ht.
  destruct l as [|e' l].
  - change (join "/" [e]) with e in H. rewrite split_one in H by done. by simplify_eq.
  - rewrite join_cons2, split_app_slash in H by done. by simplify_eq.
Qed.

Lemma IsAbs_join e l : name_ok e = true -> IsAbs (join "/" (e :: l)) = false.
Proof.
  intros He. pose proof (name_ok_no_slash _ He) as Hs. destruct e as [|c e]; [done|].
  unfold no_slash in Hs. rewrite contains_slash_cons in Hs. apply orb_false_iff in Hs as [Hc _].
  assert (forall s, IsAbs (String c s) = false) as H.
  { intros s. unfold IsAbs. cbn [hasPrefix]. by rewrite Hc. }
  destruct l as [|e' l]; [exact (H e)|rewrite join_cons2; apply H].
Qed.

(** ** Prefixes of cleaned paths *)

(** Each element with the slash after it. *)
Fixpoint terminated (l : list string) : string :=
  match l with [] => "" | e :: l => (e +:+ String "/" (terminated l))%string end.

Lemma terminated_join l : l <> [] -> (join "/" l +:+ "/" = terminated l)%string.
Proof.
  induction l as [|e l IH]; [done|]. intros _. destruct l as [|e' l]; [done|].
  rewrite join_cons2, string_app_assoc. cbn [terminated].
  change (String "/" (join "/" (e' :: l)) +:+ "/")%string with
    (String "/" (join "/" (e' :: l) +:+ "/")%string). by rewrite IH.
Qed.

Lemma split_terminated l s : Forall no_slash l ->
  split "/"%char (terminated l +:+ s)%string = l ++ split "/"%char s.
Proof.
  induction 1 as [|e l He _ IH]; [done|]. cbn [terminated].
  rewrite string_app_assoc. change (String "/" (terminated l) +:+ s)%string with
    (String "/" (terminated l +:+ s)%string). by rewrite split_app_slash, IH.
Qed.

Lemma terminated_app l k : terminated (l ++ k) = (terminated l +:+ terminated k)%string.
Proof.
  induction l as [|e l IH]; [done|]. cbn [app terminated]. rewrite IH, string_app_assoc. done.
Qed.

Lemma hasPrefix_terminated l k : Forall no_slash l -> Forall no_slash k ->
  hasPrefix (terminated l) (terminated k) = true <-> k `prefix_of` l.
Proof.
  intros Hl Hk. rewrite hasPrefix_spec. split.
  - intros [t Ht].
    assert (split "/"%char (terminated l +:+ "") = split "/"%char (terminated k +:+ t)) as H
      by by rewrite string_app_nil_r, Ht.
    rewrite !split_terminated in H by done. change (split "/"%char "") with [""] in H.
    pose proof (split_nonempty "/"%char t) as Hne. destruct (split "/"%char t) as [|x xs _] using rev_ind; [done|].
    rewrite app_assoc in H. apply app_inj_tail in H as [-> _]. by exists xs.
  - intros [r ->]. exists (terminated r). by rewrite terminated_app.
Qed.

Lemma render_abs_terminated l : l <> [] ->
  (render true l +:+ "/" = String "/" (terminated l))%string.
Proof. intros Hl. unfold render. rewrite string_app_assoc, terminated_join by done. done. Qed.

(** [p == d || strings.HasPrefix(p, d+"/")] on cleaned absolute paths. *)
Definition same_or_below (p d : string) : bool :=
  String.eqb p d || hasPrefix p (d +:+ "/").

Lemma hasPrefix_same_or_below p d :
  same_or_below p d = hasPrefix (p +:+ "/") (d +:+ "/").
Proof.
  unfold same_or_below. revert d. induction p as [|c p IH]; intros [|x d]; [done| |done|].
  - simpl. destruct (Ascii.eqb x "/"); [|done]. by destruct d.
  - change (String c p +:+ "/")%string with (String c (p +:+ "/")%string).
    change (String x d +:+ "/")%string with (String x (d +:+ "/")%string).
    cbn [String.eqb hasPrefix]. specialize (IH d).
    destruct (Ascii.eqb_spec c x) as [->|Hn]; [by rewrite Ascii.eqb_refl|].
    by rewrite (proj2 (Ascii.eqb_neq _ _) (not_eq_sym Hn)).
Qed.

Lemma same_or_below_elements p d :
  IsAbs p = true -> IsAbs d = true -> elements d <> [] ->
  same_or_below (Clean p) (Clean d) = true <-> elements d `prefix_of` elements p.
Proof.
  intros Hp Hd Hne. rewrite hasPrefix_same_or_below, !Clean_abs by done.
  rewrite (render_abs_terminated (elements d)) by done.
  pose proof (elements_ok_no_slash _ _ (elements_are_ok p)) as Hpn.
  pose proof (elements_ok_no_slash _ _ (elements_are_ok d)) as Hdn.
  destruct (elements p) as [|e l] eqn:E.
  - unfold render. simpl. split.
    + intros H. exfalso. apply hasPrefix_spec in H as [t Ht].
      pose proof (elements_abs_names d Hd) as Hok.
      destruct (elements d) as [|x xs]; [done|]. apply Forall_cons in Hok as [Hx _].
      destruct x as [|c x]; [done|]. apply name_ok_no_slash in Hx.
      unfold no_slash in Hx. rewrite contains_slash_cons in Hx. cbn [terminated] in Ht.
      simpl in Ht. injection Ht as Hc _. by subst c.
    + intros [r Hr]. by destruct (elements d).
  - rewrite render_abs_terminated by done. rewrite <- (hasPrefix_terminated (e :: l)) by done.
    cbn [hasPrefix]. by rewrite Ascii.eqb_refl.
Qed.

(** ** The directory of a path *)

Lemma removelast_cons2 {A} (x y : A) l : removelast (x :: y :: l) = x :: removelast (y :: l).
Proof. done. Qed.

Lemma elements_Dir p : IsAbs p = true -> Clean p = p ->
  IsAbs (Dir p) = true /\ elements (Dir p) = removelast (elements p).
Proof.
  intros Ha Hc. pose proof (elements_abs_names p Ha) as Hn.
  rewrite <- Hc at 1 2. rewrite Clean_abs by done. unfold Dir.
  set (l := elements p) in *. clearbody l. clear Ha Hc p.
  assert (split "/"%char (render true l) = "" :: match l with [] => [""] | _ => l end) as ->.
  { unfold render. change ("/" +:+ join "/" l)%string with ("" +:+ String "/" (join "/" l))%string.
    rewrite split_app. cbn [split app]. destruct l as [|e l]; [done|].
    rewrite split_join; [done|done|]. eapply Forall_impl; [exact Hn|]. apply name_ok_no_slash. }
  destruct l as [|e l]; [done|]. rewrite removelast_cons2.
  assert (Forall (fun e => name_ok e = true) (removelast (e :: l))) as Hr.
  { apply Forall_forall. intros x Hx. rewrite Forall_forall in Hn. apply Hn.
    apply list_elem_of_In in Hx. apply list_elem_of_In. revert Hx. clear.
    revert e. induction l as [|y l IH]; intros e; [done|]. rewrite removelast_cons2.
    intros [->|H]; [by left|]. right. by apply IH. }
  set (k := removelast (e :: l)) in *. clearbody k. clear Hn e l.
  rewrite IsAbs_Clean, elements_Clean.
  assert (IsAbs (join "/" ("" :: k) +:+ "/") = true) as Habs by (destruct k; reflexivity).
  split; [done|]. rewrite elements_abs by done.
  change "/" with (String "/" "") at 2. rewrite split_app.
  assert (split "/"%char (join "/" ("" :: k)) = "" :: k) as ->.
  { apply split_join; [done|]. constructor; [done|].
    eapply Forall_impl; [exact Hr|]. apply name_ok_no_slash. }
  rewrite fold_left_app.
  change (fold_left (clean_element true) ("" :: k) []) with (fold_left (clean_element true) k []).
  rewrite (clean_fold_names true k [] Hr), app_nil_r.
  change (fold_left (clean_element true) (split "/"%char "") (rev k)) with (rev k).
  apply rev_involutive.
Qed.
