(* ===== verification/GoNumber.v ===== *)
(** * Numbers in text ([strconv])

    [ParseUint], [ParseInt] and [Atoi] in base 10, with their bounds. *)

From Stdlib Require Import ZArith Lia Ascii String.
From stdpp Require Import base strings pretty list.
From S2P Require Import Prelude.
From S2P Require Import GoString.
Open Scope Z_scope.

Definition syntax_error (fn s : string) : error :=
  "strconv." +:+ fn +:+ ": parsing " +:+ quoted s +:+ ": invalid syntax".
Definition range_error (fn s : string) : error :=
  "strconv." +:+ fn +:+ ": parsing " +:+ quoted s +:+ ": value out of range".

(** The digits from the left; the first fault found is reported. *)
Fixpoint read_digits (fn whole : string) (max : Z) (s : string) (n : Z) : res Z :=
  match s with
  | EmptyString => Ok n
  | String c r =>
      if negb (is_digit c) then Err (syntax_error fn whole) else
      let n := n * 10 + (byte_of c - 48) in
      if max <? n then Err (range_error fn whole) else read_digits fn whole max r n
  end.

Definition uint_of (fn whole : string) (max : Z) (s : string) : res Z :=
  if String.eqb s "" then Err (syntax_error fn whole) else read_digits fn whole max s 0.

Definition MaxUint64 : Z := 2 ^ 64 - 1.
Definition MaxInt64 : Z := 2 ^ 63 - 1.
Definition MinInt64 : Z := - 2 ^ 63.

(** [strconv.ParseUint(s, 10, 64)]. *)
Definition ParseUint (s : string) : res Z := uint_of "ParseUint" s MaxUint64 s.

Definition int_of (fn s : string) : res Z :=
  let '(neg, digits) := match s with
                        | String c r => if Ascii.eqb c "-" then (true, r)
                                        else if Ascii.eqb c "+" then (false, r) else (false, s)
                        | EmptyString => (false, s)
                        end in
  un ← uint_of fn s MaxUint64 digits;
  if negb neg && (MaxInt64 <? un) then Err (range_error fn s)
  else if neg && (- MinInt64 <? un) then Err (range_error fn s)
  else Ok (if neg then - un else un).

(** [strconv.Atoi] and [strconv.ParseInt(s, 10, 64)] where [int] has 64 bits. *)
Definition Atoi (s : string) : res Z := int_of "Atoi" s.
Definition ParseInt (s : string) : res Z := int_of "ParseInt" s.

(** ** Bounds *)

Lemma read_digits_bounds fn whole max s n v :
  0 <= n <= max -> read_digits fn whole max s n = Ok v -> n <= v <= max.
Proof.
  revert n. induction s as [|c s IH]; intros n Hn; simpl; [intros [= <-]; lia|].
  destruct (is_digit c) eqn:Ed; [|done]. simpl.
  assert (48 <= byte_of c) as Hc.
  { unfold is_digit in Ed. apply andb_true_iff in Ed as [H _]. lia. }
  destruct (Z.ltb_spec max (n * 10 + (byte_of c - 48))) as [|Hle]; [done|].
  intros H. apply IH in H; lia.
Qed.

Lemma uint_of_bounds fn whole max s v : 0 <= max -> uint_of fn whole max s = Ok v -> 0 <= v <= max.
Proof.
  intros Hm. unfold uint_of. destruct (String.eqb s ""); [done|].
  intros H. apply read_digits_bounds in H; lia.
Qed.

Lemma int_of_bounds fn s v : int_of fn s = Ok v -> MinInt64 <= v <= MaxInt64.
Proof.
  unfold int_of. destruct (match s with EmptyString => _ | String _ _ => _ end) as [neg d].
  intros (un & Hu & H)%res_bind_ok. apply uint_of_bounds in Hu; [|done].
  unfold MaxInt64, MinInt64 in *. destruct neg; simpl in H.
  - destruct (Z.ltb_spec (- - 2 ^ 63) un); [done|]. injection H as <-. lia.
  - destruct (Z.ltb_spec (2 ^ 63 - 1) un); [done|]. injection H as <-. lia.
Qed.

(** ** Reading back what [itoa] writes *)

Lemma pretty_N_char_digit d : (d < 10)%N ->
  is_digit (pretty_N_char d) = true /\ byte_of (pretty_N_char d) = 48 + Z.of_N d.
Proof.
  intros H. assert (d = 0 \/ d = 1 \/ d = 2 \/ d = 3 \/ d = 4 \/ d = 5 \/ d = 6 \/ d = 7 \/ d = 8 \/ d = 9)%N
    as Hd by lia. by destruct_or! Hd; subst d.
Qed.

Lemma read_pretty_N_go fn whole max x s : Z.of_N x <= max ->
  read_digits fn whole max (pretty_N_go x s) 0 = read_digits fn whole max s (Z.of_N x).
Proof.
  revert s. induction (N.lt_wf_0 x) as [x _ IH]; intros s Hx.
  destruct (decide (x = 0)%N) as [->|Hne]; [by rewrite pretty_N_go_0|].
  rewrite pretty_N_go_step by lia.
  assert (Z.of_N (x `div` 10) * 10 + Z.of_N (x `mod` 10) = Z.of_N x) as Hdm.
  { rewrite N2Z.inj_div, N2Z.inj_mod. pose proof (Z.div_mod (Z.of_N x) 10). lia. }
  assert (x `div` 10 < x)%N as Hlt by (apply N.div_lt; lia).
  rewrite IH by lia. cbn [read_digits].
  assert (x `mod` 10 < 10)%N as Hm by (apply N.mod_lt; lia).
  destruct (pretty_N_char_digit _ Hm) as [-> ->]. cbn [negb].
  replace (Z.of_N (x `div` 10) * 10 + (48 + Z.of_N (x `mod` 10) - 48)) with (Z.of_N x) by lia.
  destruct (Z.ltb_spec max (Z.of_N x)); [lia|done].
Qed.

Lemma uint_of_pretty fn whole max x : Z.of_N x <= max ->
  uint_of fn whole max (pretty x) = Ok (Z.of_N x).
Proof.
  intros Hx. unfold uint_of, pretty, pretty_N. destruct (decide (x = 0)%N) as [->|Hne].
  { cbn [String.eqb read_digits]. change (is_digit "0") with true.
    change (0 * 10 + (byte_of "0" - 48)) with 0. cbn [negb].
    destruct (Z.ltb_spec max 0); [lia|done]. }
  assert (String.eqb (pretty_N_go x "") "" = false) as ->.
  { apply String.eqb_neq. intros H. pose proof (read_pretty_N_go fn whole max x "" Hx) as Hr.
    rewrite H in Hr. simpl in Hr. injection Hr as Hr. lia. }
  by rewrite read_pretty_N_go.
Qed.

Lemma pretty_N_head (x : N) : exists c r, pretty x = String c r /\ is_digit c = true.
Proof.
  pose proof (uint_of_pretty "" "" (Z.of_N x) x (Z.le_refl _)) as H.
  unfold uint_of in H. destruct (String.eqb_spec (pretty x) "") as [|Hne]; [done|].
  destruct (pretty x) as [|c r]; [done|]. exists c, r. split; [done|].
  simpl in H. by destruct (is_digit c).
Qed.

Theorem int_of_itoa fn z : MinInt64 <= z <= MaxInt64 -> int_of fn (itoa z) = Ok z.
Proof.
  unfold MinInt64, MaxInt64. intros Hz. unfold itoa.
  destruct z as [|p|p]; [reflexivity| |].
  - change (pretty (Z.pos p)) with (pretty (N.pos p)).
    destruct (pretty_N_head (N.pos p)) as (c & r & Hc & Hd). unfold int_of. rewrite Hc.
    assert (Ascii.eqb c "-" = false /\ Ascii.eqb c "+" = false) as [-> ->].
    { split; apply Ascii.eqb_neq; intros ->; done. }
    rewrite <- Hc. rewrite uint_of_pretty by (unfold MaxUint64; lia). cbn [mbind res_bind negb andb].
    unfold MaxInt64. destruct (Z.ltb_spec (2 ^ 63 - 1) (Z.of_N (N.pos p))); [lia|done].
  - change (pretty (Z.neg p)) with (String "-" (pretty (N.pos p))). unfold int_of.
    rewrite Ascii.eqb_refl. rewrite uint_of_pretty by (unfold MaxUint64; lia).
    cbn [mbind res_bind negb andb]. unfold MinInt64.
    destruct (Z.ltb_spec (- - 2 ^ 63) (Z.of_N (N.pos p))); [lia|done].
Qed.

(** * Base 64 ([encoding/base64], [StdEncoding])

    Decoding as the package does it, and the encoding of RFC 4648 as the
    reference that it inverts. *)

(** ** The alphabet *)

Definition alphabet : list ascii :=
  list_ascii_of_string "ABCDEFGHIJKLMNOPQRSTUVWXYZabcdefghijklmnopqrstuvwxyz0123456789+/".
Definition pad : ascii := "=".

Definition char_of (i : Z) : ascii := nth (Z.to_nat i) alphabet pad.

Definition sextet (c : ascii) : option Z :=
  let b := byte_of c in
  if is_upper c then Some (b - 65)
  else if is_lower c then Some (b - 71)
  else if is_digit c then Some (b + 4)
  else if Ascii.eqb c "+" then Some 62
  else if Ascii.eqb c "/" then Some 63
  else None.

Definition byte (z : Z) : ascii := ascii_of_N (Z.to_N z).

(** ** Decoding *)

(** The three bytes of four sextets. *)
Definition bytes_of (s1 s2 s3 s4 : Z) : list ascii :=
  let v := s1 * 262144 + s2 * 4096 + s3 * 64 + s4 in
  [byte (v / 65536); byte (v / 256 mod 256); byte (v mod 256)].

(** Quanta of four characters; padding ends the text, and the bits that it
    leaves over are not looked at. *)
Fixpoint decode_quanta (l : list ascii) : option (list ascii) :=
  match l with
  | [] => Some []
  | a :: b :: c :: d :: rest =>
      s1 ← sextet a; s2 ← sextet b;
      if Ascii.eqb d pad then
        match rest with
        | [] =>
            if Ascii.eqb c pad then Some (take 1 (bytes_of s1 s2 0 0))
            else s3 ← sextet c; Some (take 2 (bytes_of s1 s2 s3 0))
        | _ => None
        end
      else
        s3 ← sextet c; s4 ← sextet d; out ← decode_quanta rest;
        Some (bytes_of s1 s2 s3 s4 ++ out)
  | _ => None
  end.

Definition is_newline (c : ascii) : bool :=
  Ascii.eqb c "010"%char || Ascii.eqb c "013"%char.

(** [StdEncoding.DecodeString]: line ends are skipped wherever they are. *)
Definition DecodeString (s : string) : option string :=
  string_of_list_ascii <$>
    decode_quanta (List.filter (fun c => negb (is_newline c)) (list_ascii_of_string s)).

(** ** Encoding *)

Fixpoint encode_bytes (l : list ascii) : list ascii :=
  match l with
  | [] => []
  | [x] =>
      let v := byte_of x * 65536 in
      [char_of (v / 262144); char_of (v / 4096 mod 64); pad; pad]
  | [x; y] =>
      let v := byte_of x * 65536 + byte_of y * 256 in
      [char_of (v / 262144); char_of (v / 4096 mod 64); char_of (v / 64 mod 64); pad]
  | x :: y :: z :: rest =>
      let v := byte_of x * 65536 + byte_of y * 256 + byte_of z in
      [char_of (v / 262144); char_of (v / 4096 mod 64); char_of (v / 64 mod 64);
       char_of (v mod 64)] ++ encode_bytes rest
  end.

Definition EncodeToString (s : string) : string :=
  string_of_list_ascii (encode_bytes (list_ascii_of_string s)).

(** ** Decoding inverts encoding *)

Lemma byte_of_range c : 0 <= byte_of c < 256.
Proof. unfold byte_of. pose proof (N_ascii_bounded c). lia. Qed.

Lemma byte_byte_of c : byte (byte_of c) = c.
Proof. unfold byte, byte_of. by rewrite N2Z.id, ascii_N_embedding. Qed.

(** The 64 characters of the alphabet are what [sextet] reads. *)
Lemma sextet_char_of i : 0 <= i < 64 ->
  sextet (char_of i) = Some i /\ Ascii.eqb (char_of i) pad = false /\
  is_newline (char_of i) = false.
Proof.
  intros Hi. assert (H : Forall (fun i => sextet (char_of i) = Some i /\
    Ascii.eqb (char_of i) pad = false /\ is_newline (char_of i) = false)
    (Z.of_nat <$> seq 0 64)).
  { apply (bool_decide_eq_true _). vm_compute. reflexivity. }
  rewrite Forall_forall in H. apply H. apply list_elem_of_fmap.
  exists (Z.to_nat i). split; [lia|]. apply elem_of_seq. lia.
Qed.

Ltac sextets :=
  repeat match goal with
  | |- context [sextet (char_of ?i)] =>
      let H := fresh in
      assert (H : sextet (char_of i) = Some i)
        by (apply sextet_char_of; Z.to_euclidean_division_equations; lia);
      rewrite H; clear H
  | |- context [Ascii.eqb (char_of ?i) pad] =>
      let H := fresh in
      assert (H : Ascii.eqb (char_of i) pad = false)
        by (apply sextet_char_of; Z.to_euclidean_division_equations; lia);
      rewrite H; clear H
  end.

(** The sextets of a 24-bit number give its bytes back. *)
Lemma bytes_of_sextets v : 0 <= v < 16777216 ->
  bytes_of (v / 262144) (v / 4096 mod 64) (v / 64 mod 64) (v mod 64) =
  [byte (v / 65536); byte (v / 256 mod 256); byte (v mod 256)].
Proof.
  intros Hv. unfold bytes_of.
  replace (v / 262144 * 262144 + (v / 4096 mod 64) * 4096 + (v / 64 mod 64) * 64 + v mod 64)
    with v by (Z.to_euclidean_division_equations; lia).
  done.
Qed.

Lemma bytes_of_word x y z :
  let v := byte_of x * 65536 + byte_of y * 256 + byte_of z in
  0 <= v < 16777216 /\
  [byte (v / 65536); byte (v / 256 mod 256); byte (v mod 256)] = [x; y; z].
Proof.
  pose proof (byte_of_range x). pose proof (byte_of_range y). pose proof (byte_of_range z).
  intros v. split; [lia|].
  assert (v / 65536 = byte_of x) as -> by (unfold v; Z.to_euclidean_division_equations; lia).
  assert (v / 256 mod 256 = byte_of y) as -> by (unfold v; Z.to_euclidean_division_equations; lia).
  assert (v mod 256 = byte_of z) as -> by (unfold v; Z.to_euclidean_division_equations; lia).
  by rewrite !byte_byte_of.
Qed.

Lemma decode_encode_bytes : forall l, decode_quanta (encode_bytes l) = Some l.
Proof.
  fix IH 1. intros [|x [|y [|z rest]]]; [done|..]; cbn [encode_bytes].
  - destruct (bytes_of_word x "000" "000") as [Hv Hb].
    replace (byte_of x * 65536) with
      (byte_of x * 65536 + byte_of "000" * 256 + byte_of "000") by (unfold byte_of; simpl; lia).
    set (v := _ + _) in *. cbn [decode_quanta]. sextets. simpl.
    rewrite <- bytes_of_sextets in Hb by done.
    assert (v / 64 mod 64 = 0) as E1
      by (unfold v, byte_of; simpl; Z.to_euclidean_division_equations; lia).
    assert (v mod 64 = 0) as E2
      by (unfold v, byte_of; simpl; Z.to_euclidean_division_equations; lia).
    rewrite E1, E2 in Hb. by injection Hb as -> _ _.
  - destruct (bytes_of_word x y "000") as [Hv Hb].
    replace (byte_of x * 65536 + byte_of y * 256) with
      (byte_of x * 65536 + byte_of y * 256 + byte_of "000") by (unfold byte_of; simpl; lia).
    set (v := _ + _) in *. cbn [decode_quanta]. sextets. simpl. sextets. simpl.
    rewrite <- bytes_of_sextets in Hb by done.
    assert (v mod 64 = 0) as E2
      by (unfold v, byte_of; simpl; Z.to_euclidean_division_equations; lia).
    rewrite E2 in Hb. by injection Hb as -> -> _.
  - destruct (bytes_of_word x y z) as [Hv Hb]. set (v := _ + _) in *.
    cbn [app decode_quanta]. sextets. cbn [mbind option_bind].
    rewrite IH. cbn [mbind option_bind]. by rewrite bytes_of_sextets, Hb.
Qed.

Lemma encode_no_newline : forall l, Forall (fun c => is_newline c = false) (encode_bytes l).
Proof.
  assert (Hc : forall i, 0 <= i < 64 -> is_newline (char_of i) = false)
    by (intros; by apply sextet_char_of).
  fix IH 1. intros [|x [|y [|z rest]]]; cbn [encode_bytes app];
    repeat constructor; try apply IH; try done; apply Hc;
    pose proof (byte_of_range x); try pose proof (byte_of_range y); try pose proof (byte_of_range z);
    Z.to_euclidean_division_equations; lia.
Qed.

(** Line ends may be put anywhere into an encoding. *)
Lemma Decode_Encode_lines s t :
  List.filter (fun c => negb (is_newline c)) (list_ascii_of_string t) =
    list_ascii_of_string (EncodeToString s) ->
  DecodeString t = Some s.
Proof.
  intros Ht. unfold DecodeString. rewrite Ht. unfold EncodeToString.
  rewrite list_ascii_of_string_of_list_ascii, decode_encode_bytes. simpl.
  by rewrite string_of_list_ascii_of_string.
Qed.

Lemma Decode_Encode s : DecodeString (EncodeToString s) = Some s.
Proof.
  apply Decode_Encode_lines. unfold EncodeToString.
  rewrite list_ascii_of_string_of_list_ascii.
  pose proof (encode_no_newline (list_ascii_of_string s)) as H. induction H as [|c l Hc _ IH]; [done|].
  simpl. by rewrite Hc, IH.
Qed.

Example decode_hello : DecodeString "aGVsbG8=" = Some "hello".
Proof. vm_compute. reflexivity. Qed.
Example decode_bad : DecodeString "aGVsbG8" = None /\ DecodeString "aGV*bG8=" = None.
Proof. vm_compute. done. Qed.

(** * SHA-256 ([crypto/sha256]) and hexadecimal text ([encoding/hex])

    The hash of FIPS 180-4 on 32-bit words, of which the names of bridges are
    made. *)

Definition w32 (x : Z) : Z := x mod 4294967296.
Definition add32 (x y : Z) : Z := w32 (x + y).
Definition not32 (x : Z) : Z := 4294967295 - x.
Definition rotr (n x : Z) : Z := Z.lor (Z.shiftr x n) (w32 (Z.shiftl x (32 - n))).
Definition shr (n x : Z) : Z := Z.shiftr x n.

(** The first 32 bits of the fractional parts of the roots of the first primes:
    cube roots for the rounds, square roots for the initial hash. *)
Definition primes (n : nat) : list Z :=
  filter (fun p => forallb (fun d => negb (p mod d =? 0)) (Z.of_nat <$> seq 2 (Z.to_nat (p - 2))))
    (Z.of_nat <$> seq 2 n).

(** The largest [r] below [2 ^ bits] with [r ^ 3 <= x], bit by bit. *)
Fixpoint cube_root (bits : nat) (x r : Z) : Z :=
  match bits with
  | O => r
  | S bits => let r' := r + 2 ^ Z.of_nat bits in
              cube_root bits x (if r' * r' * r' <=? x then r' else r)
  end.

Definition K : list Z := Eval vm_compute in
  (fun p => w32 (cube_root 36 (p * 2 ^ 96) 0)) <$> take 64 (primes 311).
Definition H0 : list Z := Eval vm_compute in
  (fun p => w32 (Z.sqrt (p * 2 ^ 64))) <$> take 8 (primes 20).

(** ** Padding *)

Definition be_bytes (n : nat) (x : Z) : list Z :=
  (fun i => Z.shiftr x (8 * Z.of_nat i) mod 256) <$> rev (seq 0 n).

Definition padded (msg : list Z) : list Z :=
  let len := Z.of_nat (length msg) in
  let zeros := Z.to_nat ((55 - len) mod 64) in
  msg ++ [128] ++ replicate zeros 0 ++ be_bytes 8 (8 * len).

Fixpoint words (l : list Z) : list Z :=
  match l with
  | a :: b :: c :: d :: l => (a * 16777216 + b * 65536 + c * 256 + d) :: words l
  | _ => []
  end.

Fixpoint blocks (fuel : nat) (l : list Z) : list (list Z) :=
  match fuel with
  | O => []
  | S fuel => match l with [] => [] | _ => take 16 l :: blocks fuel (drop 16 l) end
  end.

(** ** Compression *)

(** The schedule, the last word first; [n] more words. *)
Fixpoint schedule (n : nat) (ws : list Z) : list Z :=
  match n with
  | O => ws
  | S n =>
      let w2 := nth 1 ws 0 in let w7 := nth 6 ws 0 in
      let w15 := nth 14 ws 0 in let w16 := nth 15 ws 0 in
      let s0 := Z.lxor (Z.lxor (rotr 7 w15) (rotr 18 w15)) (shr 3 w15) in
      let s1 := Z.lxor (Z.lxor (rotr 17 w2) (rotr 19 w2)) (shr 10 w2) in
      schedule n (w32 (w16 + s0 + w7 + s1) :: ws)
  end.

Definition round (st : list Z) (kw : Z * Z) : list Z :=
  match st with
  | [a; b; c; d; e; f; g; h] =>
      let s1 := Z.lxor (Z.lxor (rotr 6 e) (rotr 11 e)) (rotr 25 e) in
      let ch := Z.lxor (Z.land e f) (Z.land (not32 e) g) in
      let t1 := w32 (h + s1 + ch + kw.1 + kw.2) in
      let s0 := Z.lxor (Z.lxor (rotr 2 a) (rotr 13 a)) (rotr 22 a) in
      let maj := Z.lxor (Z.lxor (Z.land a b) (Z.land a c)) (Z.land b c) in
      [add32 t1 (add32 s0 maj); a; b; c; add32 d t1; e; f; g]
  | _ => st
  end.

Definition compress (hash block : list Z) : list Z :=
  let ws := rev (schedule 48 (rev block)) in
  zip_with add32 hash (fold_left round (zip K ws) hash).

(** [sha256.Sum256]. *)
Definition Sum256 (msg : string) : list Z :=
  let ws := words (padded (byte_of <$> list_ascii_of_string msg)) in
  flat_map (be_bytes 4) (fold_left compress (blocks (length ws) ws) H0).

(** [hex.EncodeToString]. *)
Definition hex_of (bytes : list Z) : string :=
  string_of_list_ascii (flat_map (fun b => [hex_digit (b / 16); hex_digit (b mod 16)]) bytes).

(** The vectors of the standard. *)
Example sha_abc : hex_of (Sum256 "abc") =
  "ba7816bf8f01cfea414140de5dae2223b00361a396177a9cb410ff61f20015ad".
Proof. vm_compute. reflexivity. Qed.
Example sha_two_blocks :
  hex_of (Sum256 "abcdbcdecdefdefgefghfghighijhijkijkljklmklmnlmnomnopnopq") =
  "248d6a61d20638b8e5c026930c3e6039a33ce45964ff2167f6ecedd419db06c1".
Proof. vm_compute. reflexivity. Qed.

(** ** Lengths *)

Lemma fold_compress_length l hash :
  length hash = 8%nat -> length (fold_left compress l hash) = 8%nat.
Proof.
  revert hash. induction l as [|b l IH]; intros hash Hh; [done|]. simpl. apply IH.
  unfold compress. rewrite length_zip_with.
  assert (forall kws st, length st = 8%nat -> length (fold_left round kws st) = 8%nat) as Hr.
  { induction kws as [|kw kws IHk]; intros st Hst; [done|]. simpl. apply IHk.
    by destruct st as [|a [|b' [|c [|d [|e [|f [|g [|h [|]]]]]]]]]. }
  rewrite Hr by done. lia.
Qed.

Lemma Sum256_length msg : length (Sum256 msg) = 32%nat.
Proof.
  unfold Sum256. set (l := fold_left _ _ _).
  assert (Hl : length l = 8%nat) by by apply fold_compress_length.
  destruct l as [|a [|b [|c [|d [|e [|f [|g [|h [|]]]]]]]]]; done.
Qed.

Lemma hex_of_length bytes : String.length (hex_of bytes) = (2 * length bytes)%nat.
Proof.
  unfold hex_of. induction bytes as [|b l IH]; [done|]. simpl in *. lia.
Qed.
