(* ===== verification/GoYaml.v ===== *)
(** * YAML ([gopkg.in/yaml.v3])

    The module is not part of the repository: its decoder, its encoder and the
    decoding into a struct are parameters.  What is here is the values that a
    document is read into and the loop that all manifests are read with. *)

From Stdlib Require Import ZArith String.
From stdpp Require Import base strings list.
From S2P Require Import Prelude.
Open Scope Z_scope.

(** A Go [any] as the decoder makes it; [AOther] is a time or a binary value. *)
Inductive any :=
  | ANull
  | ABool (b : bool)
  | AInt (z : Z)
  | AFloat (text : string)
  | AString (s : string)
  | AList (l : list any)
  | AMap (m : list (string * any))
  | AOther (text : string).

(** [map[string]any]: the keys of a mapping are different, which the decoder
    checks. *)
Definition document : Type := list (string * any).

Fixpoint field (k : string) (m : document) : option any :=
  match m with
  | [] => None
  | (k', v) :: m => if String.eqb k' k then Some v else field k m
  end.

Class Yaml := {
  (** The documents of a text, and the error that ends them if one does. *)
  Decode : string -> list document * option error;
  (** [yaml.Marshal]. *)
  Marshal : document -> res string
}.

(** [yaml.Unmarshal] into a struct of type [A]. *)
Class YamlType (A : Type) := Unmarshal : string -> res A.

(** [kind, _ := raw["kind"].(string)]. *)
Definition raw_kind (raw : document) : string :=
  match field "kind" raw with Some (AString s) => s | _ => "" end.

Section manifest.
Context {Y : Yaml} {A B : Type} {T : YamlType A}.

(** The loop of the [DecodeK8s...Manifest] functions that read one document:
    empty documents are skipped, the first other one must have the kind. *)
Fixpoint first_manifest (kind label : string) (build : A -> res B) (docs : list document)
    (end_error : option error) : res B :=
  match docs with
  | [] => match end_error with
          | Some e => Err e
          | None => Err (label +:+ " manifest not found")
          end
  | [] :: docs => first_manifest kind label build docs end_error
  | raw :: _ =>
      if String.eqb (raw_kind raw) "" then Err "kind is required" else
      if negb (String.eqb (raw_kind raw) kind)
      then Err ("unsupported kind: " +:+ raw_kind raw) else
      rawBytes ← Marshal raw;
      manifest ← Unmarshal rawBytes;
      build manifest
  end.

Definition decode_manifest (kind label : string) (build : A -> res B) (body : string) : res B :=
  let '(docs, end_error) := Decode body in first_manifest kind label build docs end_error.

(** What the loop gives was built from a struct. *)
Lemma decode_manifest_ok kind label build body b :
  decode_manifest kind label build body = Ok b -> exists a, build a = Ok b.
Proof.
  unfold decode_manifest. destruct (Decode body) as [docs e].
  induction docs as [|[|kv raw] docs IH]; simpl; [by destruct e|done|].
  destruct (String.eqb _ ""); [done|]. destruct (String.eqb _ kind); [|done]. simpl.
  intros (bytes & _ & H)%res_bind_ok. apply res_bind_ok in H as (a & _ & H). eauto.
Qed.
End manifest.
