(* ===== verification/Persist.v ===== *)
(** * The JSON file stores: locking, loading and atomic saving

    Every store of the condenser ([csm], [psm], [npm], ...) keeps its state in
    one JSON file and has the same engine in its [store.go]: [withLock],
    [withRLock], [loadOrInit] and [atomicSave].  This file models the engine
    over the filesystem operations of [utils.FilesystemHandler], each of which
    may fail, write short, or be the last one before a crash. *)

From Stdlib Require Import ZArith Lia Ascii.
From stdpp Require Import base gmap strings list.
From S2P Require Import Prelude.
From S2P Require Import GoString.

(** ** The filesystem *)
Module Fs.

(** What the environment makes of the next operation.  [Crash] stops the
    machine before the operation takes effect, [CrashAfter] right after. *)
Inductive fault :=
  | NoFault
  | Fail (e : error)
  | Short (n : nat) (e : error)
  | Crash
  | CrashAfter.

(** An [error] of the [os] package, with what [os.IsNotExist] tells of it. *)
Inductive oserror :=
  | NotExist
  | OsError (e : error).

Definition oserror_text (e : oserror) : error :=
  match e with
  | NotExist => "no such file or directory"
  | OsError e => e
  end.

Definition IsNotExist (e : oserror) : bool :=
  match e with NotExist => true | OsError _ => false end.

Record fs := {
  files : gmap string string;
  locked : gset string;
  faults : list fault
}.

Inductive outcome (A : Type) :=
  | Done (a : A)
  | Failed (e : oserror)
  | Crashed.
Arguments Done {A} a.
Arguments Failed {A} e.
Arguments Crashed {A}.

Definition fsM (A : Type) : Type := fs -> outcome A * fs.

#[export] Instance fsM_ret : MRet fsM := fun A a w => (Done a, w).
#[export] Instance fsM_bind : MBind fsM := fun A B f m w =>
  match m w with
  | (Done a, w') => f a w'
  | (Failed e, w') => (Failed e, w')
  | (Crashed, w') => (Crashed, w')
  end.

Definition fail {A} (e : error) : fsM A := fun w => (Failed (OsError e), w).

Definition of_res {A} (r : res A) : fsM A := fun w =>
  match r with
  | Ok a => (Done a, w)
  | Err e => (Failed (OsError e), w)
  | Panic e => (Crashed, w)
  end.

Definition set_files (f : gmap string string -> gmap string string) (w : fs) : fs :=
  {| files := f (files w); locked := locked w; faults := faults w |}.
Definition set_locked (f : gset string -> gset string) (w : fs) : fs :=
  {| files := files w; locked := f (locked w); faults := faults w |}.
Definition pop (w : fs) : fault * fs :=
  match faults w with
  | [] => (NoFault, w)
  | f :: fs => (f, {| files := files w; locked := locked w; faults := fs |})
  end.

(** An operation with effect [eff]: a system call that succeeds, fails
    without effect, or meets a crash on either side of its effect. *)
Definition syscall {A} (eff : fs -> A * fs) : fsM A := fun w =>
  let '(f, w) := pop w in
  match f with
  | NoFault => let '(a, w) := eff w in (Done a, w)
  | Fail e | Short _ e => (Failed (OsError e), w)
  | Crash => (Crashed, w)
  | CrashAfter => (Crashed, snd (eff w))
  end.

Definition nop : fs -> unit * fs := fun w => (tt, w).

Definition MkdirAll (dir : string) : fsM unit := syscall nop.
(** [OpenFile(name, O_CREATE|O_RDWR)]: creates the file if it is missing. *)
Definition OpenCreate (name : string) : fsM unit := syscall (fun w =>
  (tt, set_files (fun m => match m !! name with
                           | Some _ => m
                           | None => <[name := ""]> m
                           end) w)).
(** [OpenFile(name, O_CREATE|O_TRUNC|O_WRONLY)]. *)
Definition OpenTrunc (name : string) : fsM unit :=
  syscall (fun w => (tt, set_files (<[name := ""]>) w)).
Definition FlockEx (name : string) : fsM unit :=
  syscall (fun w => (tt, set_locked (fun l => {[name]} ∪ l) w)).
(** The deferred [Flock(LOCK_UN)] and [Close], whose errors are dropped: the
    kernel releases the lock when the descriptor is closed. *)
Definition Unlock (name : string) : fs -> fs := set_locked (fun l => l ∖ {[name]}).

Definition ReadFile (name : string) : fsM string := fun w =>
  match syscall nop w with
  | (Done _, w) =>
      match files w !! name with
      | Some b => (Done b, w)
      | None => (Failed NotExist, w)
      end
  | (Failed e, w) => (Failed e, w)
  | (Crashed, w) => (Crashed, w)
  end.

(** [f.Write(b)] at the end of the open file [name]: a short write leaves a
    part of [b] in the file and is an error. *)
Definition append_file (name b : string) (w : fs) : fs :=
  set_files (fun m => <[name := default "" (m !! name) +:+ b]> m) w.
Definition Write (name b : string) : fsM unit := fun w =>
  let '(f, w) := pop w in
  match f with
  | NoFault => (Done tt, append_file name b w)
  | Fail e => (Failed (OsError e), w)
  | Short n e => (Failed (OsError e), append_file name (take_str n b) w)
  | Crash => (Crashed, w)
  | CrashAfter => (Crashed, append_file name b w)
  end.

Definition Sync (name : string) : fsM unit := syscall nop.
Definition Close (name : string) : fsM unit := syscall nop.
Definition Rename (old new : string) : fsM unit := fun w =>
  let '(f, w') := pop w in
  match files w !! old with
  | None => match f with
            | Crash | CrashAfter => (Crashed, w')
            | _ => (Failed NotExist, w')
            end
  | Some b =>
      syscall (fun w => (tt, set_files (fun m => <[new := b]> (delete old m)) w)) w
  end.

(** [Open], [Remove], and [Copy] of the file [src] to the open file [dst]. *)
Definition Open (name : string) : fsM unit := fun w =>
  match syscall nop w with
  | (Done _, w) => match files w !! name with
                   | Some _ => (Done tt, w)
                   | None => (Failed NotExist, w)
                   end
  | r => r
  end.

Definition Copy (dst src : string) : fsM unit := b ← ReadFile src; Write dst b.

Definition Remove (name : string) : fsM unit := fun w =>
  match files w !! name with
  | None => match pop w with
            | (Crash, w') | (CrashAfter, w') => (Crashed, w')
            | (_, w') => (Failed NotExist, w')
            end
  | Some _ => syscall (fun w => (tt, set_files (delete name) w)) w
  end.

End Fs.
Export Fs.

(** ** The engine *)

Definition newline : string := String "010"%char EmptyString.

(** How a state is written to JSON text and read back ([encoding/json] with
    the struct tags of the store's [model.go]). *)
Class Codec (St : Type) := {
  marshal : St -> res string;
  unmarshal : string -> res St
}.

(** The two directions agree: what [marshal] writes, [unmarshal] reads, also
    with the newline that [atomicSave] appends. *)
Class CodecLaws (St : Type) {C : Codec St} :=
  unmarshal_marshal : forall (st : St) (b : string),
    marshal st = Ok b -> unmarshal (b +:+ newline) = Ok st.

Section engine.
Context {St : Type} {C : Codec St}.

(** [atomicSave]: write a temporary file, sync it, rename it over [path]. *)
Definition atomicSave (path : string) (st : St) : fsM unit :=
  let tmp := path +:+ ".tmp" in
  b ← of_res (marshal st);
  let b := b +:+ newline in
  _ ← OpenTrunc tmp;
  _ ← Write tmp b;
  _ ← Sync tmp;
  _ ← Close tmp;
  Rename tmp path.

(** [loadOrInit]: the initial state when the file does not exist, else the
    decoded file with [repair] applied ([if st.Containers == nil ...]). *)
Definition loadOrInit (path broken : string) (init : St) (repair : St -> St) : fsM St :=
  fun w =>
    match ReadFile path w with
    | (Done b, w) =>
        match unmarshal b with
        | Ok st => (Done (repair st), w)
        | Err e => (Failed (OsError (broken +:+ ": " +:+ e)), w)
        | Panic e => (Crashed, w)
        end
    | (Failed e, w) => if IsNotExist e then (Done init, w) else (Failed e, w)
    | (Crashed, w) => (Crashed, w)
    end.

(** [withLock]: lock, load, run the transaction, save.  The lock is released
    on every return; an error of the transaction is returned before the
    save. *)
Definition withLock {A} (path : string) (load : fsM St)
    (fn : St -> res (St * A)) : fsM A := fun w =>
  let lockPath := path +:+ ".lock" in
  match (_ ← MkdirAll path; _ ← OpenCreate lockPath; FlockEx lockPath) w with
  | (Done _, w) =>
      let '(r, w) :=
        (st ← load;
         '(st', a) ← of_res (fn st);
         _ ← atomicSave path st';
         mret a) w in
      (r, Unlock lockPath w)
  | (Failed e, w) => (Failed e, w)
  | (Crashed, w) => (Crashed, w)
  end.

(** [withRLock]: the same without the save. *)
Definition withRLock {A} (path : string) (load : fsM St)
    (fn : St -> res A) : fsM A := fun w =>
  let lockPath := path +:+ ".lock" in
  match (_ ← MkdirAll path; _ ← OpenCreate lockPath; FlockEx lockPath) w with
  | (Done _, w) =>
      let '(r, w) := (st ← load; of_res (fn st)) w in
      (r, Unlock lockPath w)
  | (Failed e, w) => (Failed e, w)
  | (Crashed, w) => (Crashed, w)
  end.
End engine.

(** ** What the engine guarantees *)

(** [frame X m]: [m] changes no file outside [X] and leaves the locks alone. *)
Definition frame {A} (X : gset string) (m : fsM A) : Prop :=
  forall w, locked (m w).2 = locked w /\
    forall p, p ∉ X -> files (m w).2 !! p = files w !! p.

Lemma bind_run {A B} (m : fsM A) (f : A -> fsM B) w o w' :
  (m ≫= f) w = (o, w') ->
  (exists a w1, m w = (Done a, w1) /\ f a w1 = (o, w')) \/
  (exists e, m w = (Failed e, w') /\ o = Failed e) \/
  (m w = (Crashed, w') /\ o = Crashed).
Proof.
  unfold mbind, fsM_bind. destruct (m w) as [[a|e|] w1]; naive_solver.
Qed.

Lemma pop_frame w : locked (pop w).2 = locked w /\ files (pop w).2 = files w.
Proof. unfold pop. by destruct (faults w). Qed.

Section frames.
Implicit Types X : gset string.

Lemma frame_bind {A B} X (m : fsM A) (f : A -> fsM B) :
  frame X m -> (forall a, frame X (f a)) -> frame X (m ≫= f).
Proof.
  intros Hm Hf w. unfold mbind, fsM_bind. specialize (Hm w).
  destruct (m w) as [[a|e|] w1]; simpl in *; [|done..].
  destruct Hm as [Hl Hp]. specialize (Hf a w1) as [Hl' Hp'].
  split; [congruence|]. intros p Hpx. by rewrite Hp', Hp.
Qed.

Lemma frame_ret {A} X (a : A) : frame X (mret a).
Proof. by intros w. Qed.

Lemma frame_of_res {A} X (r : res A) : frame X (of_res r).
Proof. intros w. unfold of_res. by destruct r. Qed.

Lemma frame_syscall {A} X (eff : fs -> A * fs) :
  (forall w, locked (eff w).2 = locked w /\
     forall p, p ∉ X -> files (eff w).2 !! p = files w !! p) ->
  frame X (syscall eff).
Proof.
  intros Heff w. unfold syscall. pose proof (pop_frame w) as [Hl Hf].
  destruct (pop w) as [f w1]; simpl in *. specialize (Heff w1) as [El Ef].
  destruct f; simpl; rewrite <- ?Hl, <- ?Hf; try done;
    destruct (eff w1); done.
Qed.

Lemma frame_nop X : frame X (syscall nop).
Proof. by apply frame_syscall. Qed.

Lemma frame_OpenTrunc X n : n ∈ X -> frame X (OpenTrunc n).
Proof.
  intros Hn. apply frame_syscall. intros w; split; [done|]. simpl.
  intros p Hp. rewrite lookup_insert_ne; [done|]. by intros <-.
Qed.

Lemma frame_OpenCreate X n : n ∈ X -> frame X (OpenCreate n).
Proof.
  intros Hn. apply frame_syscall. intros w; split; [done|]. simpl.
  intros p Hp. destruct (files w !! n); [done|].
  rewrite lookup_insert_ne; [done|]. by intros <-.
Qed.

Lemma frame_Write X n b : n ∈ X -> frame X (Write n b).
Proof.
  intros Hn w. unfold Write. pose proof (pop_frame w) as [Hl Hf].
  destruct (pop w) as [f w1]; simpl in *. rewrite <- Hl, <- Hf.
  assert (forall c, forall p, p ∉ X ->
    files (append_file n c w1) !! p = files w1 !! p) as Ha.
  { intros c p Hp. simpl. rewrite lookup_insert_ne; [done|]. by intros <-. }
  destruct f; (split; [done|]); try done; apply Ha.
Qed.

Lemma frame_ReadFile X n : frame X (ReadFile n).
Proof.
  intros w. unfold ReadFile. pose proof (frame_nop X w) as [Hl Hf].
  destruct (syscall nop w) as [[[]|e|] w1]; simpl in *; try done.
  by destruct (files w1 !! n).
Qed.

Lemma frame_loadOrInit `{Codec St} X path broken (init : St) repair :
  frame X (loadOrInit path broken init repair).
Proof.
  intros w. unfold loadOrInit. pose proof (frame_ReadFile X path w) as Hf.
  destruct (ReadFile path w) as [[b|e|] w1]; simpl in *; try done.
  - by destruct (unmarshal b).
  - by destruct (IsNotExist e).
Qed.
End frames.

#[export] Hint Resolve frame_ret frame_of_res frame_nop frame_OpenTrunc
  frame_OpenCreate frame_Write frame_ReadFile frame_loadOrInit : go.

(** A successful step of the save. *)
Lemma OpenTrunc_done n w u w' :
  OpenTrunc n w = (Done u, w') -> files w' !! n = Some "".
Proof.
  unfold OpenTrunc, syscall. destruct (pop w) as [[] w1]; simpl; intros [= <- <-].
  apply lookup_insert_eq.
Qed.

Lemma Write_done n b w u w' c :
  Write n b w = (Done u, w') -> files w !! n = Some c ->
  files w' !! n = Some (c +:+ b).
Proof.
  unfold Write. pose proof (pop_frame w) as [_ Hf].
  destruct (pop w) as [[] w1]; simpl in *; intros [= <- <-] Hc.
  simpl. by rewrite lookup_insert_eq, Hf, Hc.
Qed.

Lemma nop_done w u w' : syscall nop w = (Done u, w') -> files w' = files w.
Proof.
  unfold syscall. pose proof (pop_frame w) as [_ Hf].
  by destruct (pop w) as [[] w1]; simpl in *; intros [= <- <-].
Qed.

(** [Rename] either happens or does not. *)
Lemma Rename_run old new w o w' b :
  files w !! old = Some b -> Rename old new w = (o, w') ->
  locked w' = locked w /\
  ((files w' = <[new := b]> (delete old (files w)) /\
    (o = Done tt \/ o = Crashed)) \/
   (files w' = files w /\ (exists e, o = Failed e) \/
    files w' = files w /\ o = Crashed)).
Proof.
  unfold Rename, syscall. intros Hb. pose proof (pop_frame w) as [Hl Hf].
  destruct (pop w) as [f w1]; simpl in *. rewrite Hb.
  destruct f; simpl; intros [= <- <-]; simpl; rewrite ?Hf; naive_solver.
Qed.

#[local] Arguments String.append !_ _ / : simpl nomatch.

Lemma string_app_ne (s t : string) : t <> "" -> s +:+ t <> s.
Proof.
  intros Ht He. apply (f_equal String.length) in He.
  rewrite string_length_app in He. destruct t; [done|]. simpl in He. lia.
Qed.

Section save.
Context {St : Type} {C : Codec St}.
Implicit Types st : St.

Definition saved (path : string) st (w : fs) : Prop :=
  exists b, marshal st = Ok b /\ files w !! path = Some (b +:+ newline).

(** Everything up to the rename leaves [path] alone and, when it succeeds,
    leaves the complete text in the temporary file. *)
Lemma prepare_frame tmp b :
  frame {[tmp]} (_ ← OpenTrunc tmp; _ ← Write tmp b; _ ← Sync tmp; Close tmp).
Proof.
  repeat (apply frame_bind; [|intros []]);
    auto using frame_nop with go; auto with go set_solver;
    first [apply frame_OpenTrunc | apply frame_Write]; set_solver.
Qed.

Lemma prepare_done tmp b w u w' :
  (_ ← OpenTrunc tmp; _ ← Write tmp b; _ ← Sync tmp; Close tmp) w = (Done u, w') ->
  files w' !! tmp = Some b.
Proof.
  intros H.
  apply bind_run in H as [(? & w1 & H1 & H)|[(? & _ & [=])|[_ [=]]]].
  apply bind_run in H as [(? & w2 & H2 & H)|[(? & _ & [=])|[_ [=]]]].
  apply bind_run in H as [(? & w3 & H3 & H)|[(? & _ & [=])|[_ [=]]]].
  apply OpenTrunc_done in H1. apply nop_done in H3, H.
  rewrite H, H3. by apply (Write_done _ _ _ _ _ "" H2 H1).
Qed.

Lemma atomicSave_run path st w :
  atomicSave path st w =
    match marshal st with
    | Ok b =>
        (_ ← (_ ← OpenTrunc (path +:+ ".tmp");
              _ ← Write (path +:+ ".tmp") (b +:+ newline);
              _ ← Sync (path +:+ ".tmp"); Close (path +:+ ".tmp"));
         Rename (path +:+ ".tmp") path) w
    | Err e => (Failed (OsError e), w)
    | Panic _ => (Crashed, w)
    end.
Proof.
  unfold atomicSave, mbind, fsM_bind, of_res.
  destruct (marshal st) as [b|e|e]; [|done..].
  destruct (OpenTrunc _ w) as [[a1|e1|] w1]; [|done..].
  destruct (Write _ _ w1) as [[a2|e2|] w2]; [|done..].
  by destruct (Sync _ w2) as [[a3|e3|] w3].
Qed.

(** The specification of the save: the file is replaced as a whole or not
    at all; an error means it was not. *)
Definition save_spec (path : string) st (w : fs) (o : outcome unit) (w' : fs) : Prop :=
  match o with
  | Done _ => saved path st w'
  | Failed _ => files w' !! path = files w !! path
  | Crashed => files w' !! path = files w !! path \/ saved path st w'
  end.

Lemma atomicSave_spec path st w o w' :
  atomicSave path st w = (o, w') ->
  save_spec path st w o w' /\ locked w' = locked w /\
  forall p, p <> path -> p <> path +:+ ".tmp" -> files w' !! p = files w !! p.
Proof.
  assert (path +:+ ".tmp" <> path) as Hne by by apply string_app_ne.
  rewrite atomicSave_run. unfold save_spec, saved.
  destruct (marshal st) as [b|e|e]; [|intros [= <- <-]; naive_solver..].
  intros H. pose proof (prepare_frame (path +:+ ".tmp") (b +:+ newline) w) as [Hl Hf].
  apply bind_run in H as [([] & w1 & H1 & H)|[(e & H1 & ->)|[H1 ->]]];
    rewrite H1 in Hl, Hf; simpl in Hl, Hf;
    [|split_and!; [|done|]; intros; try left; apply Hf; set_solver..].
  apply prepare_done in H1.
  destruct (Rename_run _ _ _ _ _ _ H1 H) as [Hl' Hr].
  rewrite Hl', Hl. split_and!; [|done|].
  - destruct Hr as [[Hw [->| ->]]|[[Hw [e ->]]|[Hw ->]]]; rewrite Hw.
    + exists b. by rewrite lookup_insert_eq.
    + right. exists b. by rewrite lookup_insert_eq.
    + apply Hf. set_solver.
    + left. apply Hf. set_solver.
  - intros p Hp Hpt. destruct Hr as [[-> _]|[[-> _]|[-> _]]];
      rewrite ?lookup_insert_ne, ?lookup_delete_ne by done; apply Hf; set_solver.
Qed.
End save.

(** ** Taking the lock *)
Section locking.
Context (path : string).

Definition lock_path : string := path +:+ ".lock".

Lemma lock_path_ne : lock_path <> path.
Proof. by apply string_app_ne. Qed.

Lemma acquire_run w o w' :
  (_ ← MkdirAll path; _ ← OpenCreate lock_path; FlockEx lock_path) w = (o, w') ->
  (forall p, p <> lock_path -> files w' !! p = files w !! p) /\
  locked w' ∖ {[lock_path]} = locked w ∖ {[lock_path]}.
Proof.
  intros H.
  assert (frame {[lock_path]} (_ ← MkdirAll path; OpenCreate lock_path)) as HF.
  { apply frame_bind; [apply frame_nop|]. intros _. apply frame_OpenCreate. set_solver. }
  specialize (HF w) as [Hl Hf]. unfold mbind, fsM_bind in *.
  destruct (MkdirAll path w) as [[[]|e|] w1]; simpl in *;
    [|injection H as <- <-; split; [intros; apply Hf; set_solver|by rewrite Hl]..].
  destruct (OpenCreate lock_path w1) as [[[]|e|] w2]; simpl in *;
    [|injection H as <- <-; split; [intros; apply Hf; set_solver|by rewrite Hl]..].
  unfold FlockEx, syscall in H. pose proof (pop_frame w2) as [Hl2 Hf2].
  destruct (pop w2) as [f w3]; simpl in *.
  destruct f; injection H as <- <-; simpl; rewrite ?Hl2, ?Hf2, ?Hl;
    (split; [intros; apply Hf; set_solver|set_solver]).
Qed.

Lemma Failed_unlocked w e w' :
  (_ ← MkdirAll path; _ ← OpenCreate lock_path; FlockEx lock_path) w
    = (Failed e, w') ->
  locked w' = locked w.
Proof.
  assert (frame {[lock_path]} (_ ← MkdirAll path; OpenCreate lock_path)) as HF.
  { apply frame_bind; [apply frame_nop|]. intros _. apply frame_OpenCreate. set_solver. }
  specialize (HF w) as [Hl _]. unfold mbind, fsM_bind in *.
  destruct (MkdirAll path w) as [[[]|e1|] w1]; simpl in *; try (by intros [= _ <-]).
  destruct (OpenCreate lock_path w1) as [[[]|e2|] w2]; simpl in *;
    try (by intros [= _ <-]).
  unfold FlockEx, syscall. pose proof (pop_frame w2) as [Hl2 _].
  destruct (pop w2) as [[] w3]; simpl in *; intros [= _ <-]; congruence.
Qed.
End locking.

(** ** Refinement: a store is a variable that transactions update

    [view] is the state a store file holds; the engine implements transactions
    on it. *)

(** What the engine needs of a store's [loadOrInit]: [cv] is the state that
    the content of the file stands for ([None]: there is no file). *)
Class Loader {St} {C : Codec St} (path : string) (load : fsM St)
    (cv : option string -> option St) (repair : St -> St) : Prop := {
  load_frame : frame ∅ load;
  load_view w st w' :
    load w = (Done st, w') -> cv (files w !! path) = Some st;
  load_saved st b :
    marshal st = Ok b -> cv (Some (b +:+ newline)) = Some (repair st);
  load_runs w st :
    faults w = [] -> cv (files w !! path) = Some st ->
    exists w', load w = (Done st, w') /\ faults w' = []
}.

Section loader.
Context {St : Type} {C : Codec St} {CL : CodecLaws St}.
Context (path broken : string) (init : St) (repair : St -> St).

(** The content view of the stores that start from a constant state. *)
Definition content_view (c : option string) : option St :=
  match c with
  | None => Some init
  | Some b => match unmarshal b with
              | Ok st => Some (repair st)
              | _ => None
              end
  end.

#[export] Instance loadOrInit_Loader :
  Loader path (loadOrInit path broken init repair) content_view repair.
Proof.
  split.
  - auto with go.
  - intros w st w'. unfold loadOrInit, ReadFile, syscall, content_view.
    pose proof (pop_frame w) as [_ Hf]. destruct (pop w) as [f w1]; simpl in Hf.
    destruct f; simpl; try (by intros [=]); rewrite Hf.
    destruct (files w !! path) as [b|]; simpl; [|by intros [= <- _]].
    by destruct (unmarshal b); intros [= <- _].
  - intros st b Hb. simpl. by rewrite (unmarshal_marshal _ _ Hb).
  - intros w st Hw. unfold loadOrInit, ReadFile, syscall, pop, content_view.
    rewrite Hw. simpl. destruct (files w !! path) as [b|]; simpl;
      [|intros [= <-]; eauto].
    destruct (unmarshal b); intros [= <-]; eauto.
Qed.
End loader.

Section refinement.
Context {St : Type} {C : Codec St}.
Context (path : string) (load : fsM St) (cv : option string -> option St)
  (repair : St -> St) {L : Loader path load cv repair}.

Definition view (w : fs) : option St := cv (files w !! path).

Lemma view_ext w w' :
  files w' !! path = files w !! path -> view w' = view w.
Proof. unfold view. by intros ->. Qed.

Lemma view_saved st w : saved path st w -> view w = Some (repair st).
Proof. intros (b & Hb & Hf). unfold view. rewrite Hf. by apply load_saved. Qed.

(** What one call of [withLock] may do to the stored state. *)
Definition txn_spec {A} (fn : St -> res (St * A)) (s : option St)
    (o : outcome A) (s' : option St) : Prop :=
  match o with
  | Done a => exists st st', s = Some st /\ fn st = Ok (st', a) /\
                             s' = Some (repair st')
  | Failed _ => s' = s
  | Crashed => s' = s \/
      exists st st' a, s = Some st /\ fn st = Ok (st', a) /\ s' = Some (repair st')
  end.

Lemma body_run {A} (fn : St -> res (St * A)) w o w' :
  (st ← load;
   '(st', a) ← of_res (fn st);
   _ ← atomicSave path st';
   mret a) w = (o, w') ->
  txn_spec fn (view w) o (view w') /\ locked w' = locked w /\
  forall p, p <> path -> p <> path +:+ ".tmp" -> files w' !! p = files w !! p.
Proof.
  intros H.
  pose proof (load_frame w) as [Hl Hf].
  apply bind_run in H as [(st & w1 & H1 & H)|[(e & H1 & ->)|[H1 ->]]];
    rewrite H1 in Hl, Hf; simpl in Hl, Hf.
  2: { split_and!; [apply view_ext, Hf; set_solver|done|]. intros; apply Hf; set_solver. }
  2: { split_and!; [left; apply view_ext, Hf; set_solver|done|].
       intros; apply Hf; set_solver. }
  apply load_view in H1. fold (view w) in H1.
  rewrite <- (view_ext w w1) in H1 by (apply Hf; set_solver).
  rewrite <- (view_ext w w1) by (apply Hf; set_solver).
  assert (forall p, files w1 !! p = files w !! p) as Hf1 by (intros; apply Hf; set_solver).
  rewrite <- Hl. setoid_rewrite <- Hf1. clear w Hl Hf Hf1.
  unfold of_res, mbind at 1, fsM_bind at 1 in H.
  destruct (fn st) as [[st' a]|e|e] eqn:Hfn;
    [|injection H as <- <-; split_and!; try done; by left..].
  apply bind_run in H as [([] & w2 & H2 & H)|[(e & H2 & ->)|[H2 ->]]];
    destruct (atomicSave_spec _ _ _ _ _ H2) as (Hs & Hl & Hf); simpl in Hs.
  - injection H as <- <-. split_and!; [|done|done].
    exists st, st'. eauto using view_saved.
  - split_and!; [|done|done]. by apply view_ext.
  - split_and!; [|done|done].
    destruct Hs as [Hs|Hs]; [left; by apply view_ext|right].
    exists st, st', a. eauto using view_saved.
Qed.
End refinement.

Section engine_theorems.
Context {St : Type} {C : Codec St}.
Context (path : string) (load : fsM St) (cv : option string -> option St)
  (repair : St -> St) {L : Loader path load cv repair}.
Let view := view path cv.

(** Reading and writing an engine run: its three phases. *)
Lemma withLock_run {A} (fn : St -> res (St * A)) w o w' :
  withLock path load fn w = (o, w') ->
  txn_spec repair fn (view w) o (view w') /\
  (forall p, p <> path -> p <> path +:+ ".tmp" -> p <> lock_path path ->
     files w' !! p = files w !! p) /\
  (o <> Crashed -> lock_path path ∉ locked w -> lock_path path ∉ locked w') /\
  locked w' ∖ {[lock_path path]} = locked w ∖ {[lock_path path]}.
Proof.
  unfold withLock. fold (lock_path path). intros H.
  destruct ((_ ← MkdirAll path; _ ← OpenCreate (lock_path path);
             FlockEx (lock_path path)) w) as [oa w1] eqn:Ha.
  pose proof Ha as Hacq. apply acquire_run in Hacq as [Hf1 Hl1].
  pose proof (view_ext path cv w w1
    (Hf1 path (not_eq_sym (lock_path_ne path)))) as Hv1.
  fold (view w) (view w1) in Hv1.
  destruct oa as [[]|e|]; cycle 1.
  { injection H as <- <-. apply Failed_unlocked in Ha.
    split_and!; [done|by auto|by rewrite Ha|done]. }
  { injection H as <- <-. split_and!; [by left|by auto|done|done]. }
  destruct ((st ← load; '(st', a) ← of_res (fn st);
             _ ← atomicSave path st'; mret a) w1) as [r w2] eqn:Hb.
  injection H as <- <-.
  apply (body_run path load cv repair) in Hb as (Hs & Hl & Hf).
  fold (view w1) (view w2) in Hs. rewrite Hv1 in Hs.
  split_and!; [exact Hs| | |].
  - intros p ???. simpl. rewrite Hf by done. by apply Hf1.
  - simpl. set_solver.
  - simpl. rewrite Hl. set_solver.
Qed.

Lemma withRLock_run {A} (fn : St -> res A) w o w' :
  withRLock path load fn w = (o, w') ->
  view w' = view w /\
  (forall p, p <> lock_path path -> files w' !! p = files w !! p) /\
  match o with
  | Done a => exists st, view w = Some st /\ fn st = Ok a
  | _ => True
  end.
Proof.
  unfold withRLock. fold (lock_path path). intros H.
  destruct ((_ ← MkdirAll path; _ ← OpenCreate (lock_path path);
             FlockEx (lock_path path)) w) as [oa w1] eqn:Ha.
  apply acquire_run in Ha as [Hf1 _].
  pose proof (view_ext path cv w w1
    (Hf1 path (not_eq_sym (lock_path_ne path)))) as Hv1.
  fold (view w) (view w1) in Hv1.
  destruct oa as [[]|e|]; [|by injection H as <- <-..].
  destruct ((st ← load; of_res (fn st)) w1) as [r w2] eqn:Hb.
  injection H as <- <-.
  pose proof (load_frame w1) as [_ Hf2].
  assert (forall p, files w2 !! p = files w1 !! p /\ True) as Hf.
  { intros p. apply bind_run in Hb as [(st & w3 & H3 & Hb)|[(e & H3 & ->)|[H3 ->]]];
      rewrite H3 in Hf2; simpl in Hf2;
      [|split; [apply Hf2; set_solver|done]..].
    rewrite <- Hf2 by set_solver.
    unfold of_res in Hb. by destruct (fn st); injection Hb as _ <-. }
  split_and!.
  - rewrite <- Hv1. apply view_ext. apply Hf.
  - intros p Hp. simpl. rewrite (proj1 (Hf p)). by apply Hf1.
  - apply bind_run in Hb as [(st & w3 & H3 & Hb)|[(e & H3 & ->)|[H3 ->]]]; try done.
    apply load_view in H3. fold (Persist.view path cv w1) in H3. fold view in H3. rewrite Hv1 in H3.
    unfold of_res in Hb. destruct (fn st) eqn:E; injection Hb as <- _; eauto.
Qed.

(** Without faults the engine runs the transaction to its result. *)
Lemma syscall_ok {A} (eff : fs -> A * fs) w :
  faults w = [] -> syscall eff w = (Done (eff w).1, (eff w).2).
Proof.
  intros Hw. unfold syscall, pop. rewrite Hw. by destruct (eff w).
Qed.

Lemma atomicSave_ok st b w :
  faults w = [] -> marshal st = Ok b ->
  exists w', atomicSave path st w = (Done tt, w').
Proof.
  intros Hw Hb. rewrite atomicSave_run, Hb.
  unfold mbind, fsM_bind, OpenTrunc. rewrite syscall_ok by done. simpl.
  unfold Write at 1, pop. simpl. rewrite Hw. unfold Sync, Close.
  rewrite syscall_ok by done. simpl. rewrite syscall_ok by done. simpl.
  unfold Rename, pop. simpl. rewrite Hw. simpl.
  rewrite lookup_insert_eq. rewrite syscall_ok by done. eauto.
Qed.

Lemma acquire_ok w :
  faults w = [] ->
  exists w1, (_ ← MkdirAll path; _ ← OpenCreate (lock_path path);
              FlockEx (lock_path path)) w = (Done tt, w1) /\ faults w1 = [].
Proof.
  intros Hw. unfold mbind, fsM_bind, MkdirAll, OpenCreate, FlockEx.
  do 3 (rewrite syscall_ok by done; simpl). eauto.
Qed.

Lemma withLock_progress {A} (fn : St -> res (St * A)) w st :
  faults w = [] -> view w = Some st ->
  (forall st' a, fn st = Ok (st', a) -> is_ok (marshal st') = true) ->
  (withLock path load fn w).1 =
    match fn st with
    | Ok (_, a) => Done a
    | Err e => Failed (OsError e)
    | Panic _ => Crashed
    end.
Proof.
  intros Hw Hv Hm. unfold withLock. fold (lock_path path).
  destruct (acquire_ok w Hw) as (w1 & Ha & Hw1). rewrite Ha.
  apply acquire_run in Ha as [Hf1 _].
  assert (view w1 = Some st) as Hv1.
  { rewrite <- Hv. apply view_ext, Hf1, not_eq_sym, lock_path_ne. }
  destruct (load_runs w1 st Hw1 Hv1) as (w2 & Hl & Hw2).
  unfold mbind at 1, fsM_bind at 1. rewrite Hl.
  unfold mbind at 1, fsM_bind at 1, of_res.
  destruct (fn st) as [[st' a]|e|e]; [|done..].
  specialize (Hm st' a eq_refl). destruct (marshal st') as [b|e|e] eqn:Hb; [|done..].
  destruct (atomicSave_ok st' b w2 Hw2 Hb) as [w3 Hs].
  unfold mbind, fsM_bind. by rewrite Hs.
Qed.
End engine_theorems.

(** ** The properties *)

(** What the machine is after a crash and a restart: the files survive, the
    locks do not. *)
Definition reboot (w : fs) : fs := {| files := files w; locked := ∅; faults := [] |}.

Section properties.
Context {St : Type} {C : Codec St}.
Context (path : string) (load : fsM St) (cv : option string -> option St)
  (repair : St -> St) {L : Loader path load cv repair}.
Let view := view path cv.

(** C23: one call of [withLock], under any sequence of faults, short writes and
    crashes, replaces the stored state by the transaction's result or leaves
    it as it was: an error means it is unchanged, a success that it is the
    new state, a crash that it is one of the two.  No file but the store's
    own three changes, and unless the machine stopped the lock is free
    again. *)
Theorem withLock_atomic {A} (fn : St -> res (St * A)) w o w' :
  withLock path load fn w = (o, w') ->
  txn_spec repair fn (view w) o (view w') /\
  (forall p, p <> path -> p <> path +:+ ".tmp" -> p <> lock_path path ->
     files w' !! p = files w !! p) /\
  (o <> Crashed -> lock_path path ∉ locked w -> lock_path path ∉ locked w').
Proof.
  intros H. destruct (withLock_run path load cv repair fn w o w' H) as (? & ? & ? & _).
  done.
Qed.

(** [withRLock] changes neither the stored state nor any other file but
    the lock file, and what it returns was computed from the stored state. *)
Theorem withRLock_read_only {A} (fn : St -> res A) w o w' :
  withRLock path load fn w = (o, w') ->
  view w' = view w /\
  (forall p, p <> lock_path path -> files w' !! p = files w !! p) /\
  match o with
  | Done a => exists st, view w = Some st /\ fn st = Ok a
  | _ => True
  end.
Proof. apply (withRLock_run path load cv repair). Qed.

(** Recovery.  However a first call of [withLock] ended (an error or a
    crash at any point, also between the writes of the temporary file), a
    second call after a restart runs its transaction to its result, on the
    state before the first call or the state the first call computed. *)
Theorem withLock_recovers {A B} (fn : St -> res (St * A)) (fn' : St -> res (St * B))
    w o w' st :
  view w = Some st ->
  withLock path load fn w = (o, w') ->
  (forall x y b, fn' x = Ok (y, b) -> is_ok (marshal y) = true) ->
  exists st1,
    (st1 = st \/ exists st' a, fn st = Ok (st', a) /\ st1 = repair st') /\
    (withLock path load fn' (reboot w')).1 =
      match fn' st1 with
      | Ok (_, b) => Done b
      | Err e => Failed (OsError e)
      | Panic _ => Crashed
      end.
Proof.
  intros Hv H Hm.
  destruct (withLock_run path load cv repair fn w o w' H) as (Ht & _).
  assert (exists st1, view (reboot w') = Some st1 /\
    (st1 = st \/ exists st' a, fn st = Ok (st', a) /\ st1 = repair st'))
    as (st1 & Hv1 & Hst).
  { change (view (reboot w')) with (view w'). fold view in Ht. rewrite Hv in Ht.
    destruct o as [a|e|]; simpl in Ht; naive_solver. }
  exists st1. split; [done|].
  apply (withLock_progress path load cv repair fn' (reboot w') st1); naive_solver.
Qed.
End properties.

(** ** The properties on a concrete store

    The state is one line of text; [unmarshal] takes the final newline off and
    fails without it. *)
Module Line.

Fixpoint chomp (s : string) : option string :=
  match s with
  | EmptyString => None
  | String c EmptyString => if Ascii.eqb c "010" then Some EmptyString else None
  | String c r => String c <$> chomp r
  end.

#[export] Instance codec : Codec string := {|
  marshal := fun s => Ok s;
  unmarshal := fun s => match chomp s with
                        | Some r => Ok r
                        | None => Err "unexpected end of input"
                        end
|}.

Lemma chomp_newline s : chomp (s +:+ newline) = Some s.
Proof.
  induction s as [|c s IH]; [done|]. simpl. rewrite IH. by destruct s.
Qed.

#[export] Instance codec_laws : CodecLaws string.
Proof. intros s b [= <-]. simpl. by rewrite chomp_newline. Qed.

Definition load : fsM string := loadOrInit "log" "log broken" "empty" id.

Definition append (x s : string) : res (string * nat) :=
  if decide (x = "") then Err "nothing to append"
  else Ok (s +:+ "," +:+ x, String.length s).

(** The machine stops in the middle of the write of the temporary file, or
    right after the rename. *)
Definition disk (fl : list fault) : fs :=
  {| files := {["log" := "a" +:+ newline]}; locked := ∅; faults := fl |}.
Definition crash_in_write : fs :=
  disk [NoFault; NoFault; NoFault; NoFault; NoFault; CrashAfter].
Definition crash_in_rename : fs :=
  disk [NoFault; NoFault; NoFault; NoFault; NoFault; NoFault; NoFault; NoFault; CrashAfter].

Lemma view_disk fl : view "log" (content_view "empty" id) (disk fl) = Some "a".
Proof. reflexivity. Qed.

(** The three ends of a run: the old line, the new line after a crash, and a
    failed write that leaves the old line. *)
Example withLock_atomic_witness :
  let run w := withLock "log" load (append "b") w in
  txn_spec id (append "b") (Some "a") (run crash_in_rename).1
    (view "log" (content_view "empty" id) (run crash_in_rename).2) /\
  view "log" (content_view "empty" id) (run crash_in_rename).2 = Some "a,b" /\
  view "log" (content_view "empty" id) (run crash_in_write).2 = Some "a".
Proof.
  intros run. split; [|split; vm_compute; reflexivity].
  pose proof (withLock_atomic "log" load (content_view "empty" id) id (append "b")
    crash_in_rename _ _ eq_refl) as [H _].
  exact H.
Defined.

Example withRLock_read_only_witness :
  (withRLock "log" load (fun s => Ok (String.length s)) (disk [])).1 = Done 1%nat /\
  view "log" (content_view "empty" id)
    (withRLock "log" load (fun s => Ok (String.length s)) (disk [])).2 = Some "a".
Proof.
  split; [vm_compute; reflexivity|].
  pose proof (withRLock_read_only "log" load (content_view "empty" id) id
    (fun s => Ok (String.length s)) (disk []) _ _ eq_refl) as [H _].
  exact H.
Defined.

Example withLock_recovers_witness :
  exists st1, (st1 = "a" \/ exists st' a, append "b" "a" = Ok (st', a) /\ st1 = st') /\
    (withLock "log" load (append "c")
       (reboot (withLock "log" load (append "b") crash_in_write).2)).1 =
      match append "c" st1 with
      | Ok (_, b) => Done b
      | Err e => Failed (OsError e)
      | Panic _ => Crashed
      end.
Proof.
  apply (withLock_recovers "log" load (content_view "empty" id) id (append "b")
    (append "c") crash_in_write (withLock "log" load (append "b") crash_in_write).1
    (withLock "log" load (append "b") crash_in_write).2 "a").
  - reflexivity.
  - apply surjective_pairing.
  - intros x y b _. reflexivity.
Defined.
End Line.
