(* ===== verification/Ipam.v ===== *)
(** * IP address management ([store/ipam])

    Pools are the bridge networks; a pool maps each address in use to the
    container holding it.  An operation of [IpamManager] is a transaction on
    [IpamState], run by [withLock] or [withRLock]. *)

From Stdlib Require Import ZArith Lia Ascii String.
From stdpp Require Import base gmap strings pretty list.
From S2P Require Import Prelude.
From S2P Require Import GoString.
From S2P Require Import GoNet.
From S2P Require Import Persist.
Open Scope Z_scope.

(** ** Data ([model.go]) *)

(** Times are nanoseconds from the zero value of [time.Time]. *)
Notation time := Z (only parsing).

Record ForwardInfo := {
  HostPort : Z;
  ContainerPort : Z;
  fi_Protocol : string
}.

Record Allocation := {
  al_ContainerId : string;
  al_Interface : string;
  Forwards : list ForwardInfo;
  AssignedAt : time
}.

(** [Allocations] is [None] for a nil map. *)
Record Pool := {
  p_Interface : string;
  Subnet : string;
  Address : string;
  Allocations : option (gmap string Allocation)
}.

Record DnsProxy := {
  DnsProxyInterface : string;
  DnsProxyAddr : string;
  Upstreams : list string
}.

Record IpamState := {
  Version : string;
  RuntimeSubnet : string;
  st_DnsProxy : DnsProxy;
  HostInterface : string;
  HostInterfaceAddr : string;
  Pools : list Pool
}.

Record NetworkList := {
  nl_Interface : string;
  nl_Address : string;
  NumContainers : Z
}.

Definition set_Pools (st : IpamState) (ps : list Pool) : IpamState :=
  {| Version := Version st; RuntimeSubnet := RuntimeSubnet st;
     st_DnsProxy := st_DnsProxy st; HostInterface := HostInterface st;
     HostInterfaceAddr := HostInterfaceAddr st; Pools := ps |}.

Definition set_Allocations (p : Pool) (m : gmap string Allocation) : Pool :=
  {| p_Interface := p_Interface p; Subnet := Subnet p; Address := Address p;
     Allocations := Some m |}.

(** Reading a nil map is reading an empty one. *)
Definition allocs (p : Pool) : gmap string Allocation := default ∅ (Allocations p).

(** ** Address arithmetic *)

(** [incIP]: increment the last byte, then carry while the byte at [i] is 0. *)
Fixpoint incIP_carry (i : nat) (v : list Z) : list Z :=
  if v !!! i =? 0 then
    match i with
    | O => v
    | S j => incIP_carry j (<[j := (v !!! j + 1) mod 256]> v)
    end
  else v.
Definition incIP (ip : IP) : IP :=
  incIP_carry 3 (<[3%nat := (ip !!! 3%nat + 1) mod 256]> ip).

Definition BigEndian_Uint32 (ip : IP) : Z := ipv4_val (take 4 ip).

(** [ipv4Add]: addition on [uint32], wrapping around. *)
Definition ipv4Add (ip : IP) (add : Z) : IP :=
  ipv4_bytes ((BigEndian_Uint32 (To4 ip) + add) mod 2 ^ 32).

(** [broadcastIPv4]: [ip[i] | ^mask[i]] for the first four bytes. *)
Definition broadcastIPv4 (n : IPNet) : IP :=
  zip_with (fun b m => Z.lor b (255 - m)) (take 4 (To4 (net_ip n))) (take 4 (net_mask n)).

(** ** The search for a free address *)

Section search.
Context (ipnet : IPNet) (gateway : IP) (alloc : gmap string Allocation).
Let network := To4 (net_ip ipnet).
Let start := incIP network.
Let bcast := broadcastIPv4 ipnet.

(** One round of the loop of [findFreeIpv4]. *)
Definition find_step (cursor : IP) : IP + IP :=
  let cursor := if Contains ipnet cursor then cursor else start in
  if IP_Equal cursor network || IP_Equal cursor gateway || IP_Equal cursor bcast
  then inl (incIP cursor)
  else match alloc !! ipv4_String cursor with
       | None => inr cursor
       | Some _ => inl (incIP cursor)
       end.

Definition findFreeIpv4 : res IP :=
  if is_nil network then Err "ipv4 only supported" else
  match iter_until find_step (2 ^ 24) start with
  | inr ip => Ok ip
  | inl _ => Err ("no free ip in subnet " +:+ IPNet_String ipnet)
  end.
End search.

(** ** Transactions of [IpamManager] *)

Section manager.
Context {RO : RangeOrder}.
Implicit Types st : IpamState.

(** The pool loop of [Allocate]: the first pool of [bridge] decides. *)
Fixpoint allocate_pools (containerId bridge : string) (now : time)
    (ps : list Pool) : res (list Pool * string) :=
  match ps with
  | [] => Err ("target bridge not configured: " +:+ bridge)
  | p :: rest =>
      if String.eqb (p_Interface p) bridge then
        if String.eqb (Subnet p) "" || String.eqb (Address p) ""
        then Err "ipam not configured" else
        let gw := To4 (ParseIP (split_head "/" (Address p))) in
        if is_nil gw then Err "gateway must be ipv4" else
        match ParseCIDR (Subnet p) with
        | None => Panic "nil pointer dereference"
        | Some ipnet =>
            next ← findFreeIpv4 ipnet gw (allocs p);
            let ipStr := ipv4_String next in
            match Allocations p with
            | None => Panic "assignment to entry in nil map"
            | Some m =>
                let a := {| al_ContainerId := containerId;
                            al_Interface := "rd_" +:+ containerId;
                            Forwards := []; AssignedAt := now |} in
                Ok (set_Allocations p (<[ipStr := a]> m) :: rest, ipStr)
            end
        end
      else
        '(rest, ip) ← allocate_pools containerId bridge now rest;
        Ok (p :: rest, ip)
  end.

Definition Allocate (containerId bridge : string) (now : time) st
    : res (IpamState * string) :=
  '(ps, ip) ← allocate_pools containerId bridge now (Pools st);
  Ok (set_Pools st ps, ip).

(** The address of a container in a pool, if any. *)
Definition find_container (containerId : string) (p : Pool)
    : option (string * Allocation) :=
  first_match (fun '(_, a) => String.eqb (al_ContainerId a) containerId)
    (range_map (allocs p)).

Fixpoint release_pools (containerId : string) (ps : list Pool) : list Pool :=
  match ps with
  | [] => []
  | p :: rest =>
      match find_container containerId p with
      | Some (ip, _) => set_Allocations p (delete ip (allocs p)) :: rest
      | None => p :: release_pools containerId rest
      end
  end.

Definition Release (containerId : string) st : res (IpamState * unit) :=
  Ok (set_Pools st (release_pools containerId (Pools st)), tt).

Definition GetNetworkList st : res (list NetworkList) :=
  let l := (fun p => {| nl_Interface := p_Interface p; nl_Address := Address p;
                        NumContainers := Z.of_nat (size (allocs p)) |}) <$> Pools st in
  if is_nil l then Err "network is not configured" else Ok l.

Definition GetRuntimeSubnet st : res string :=
  if String.eqb (RuntimeSubnet st) ""
  then Err "runtime subnet is not configured" else Ok (RuntimeSubnet st).

Definition GetDefaultInterface st : res string :=
  if String.eqb (HostInterface st) ""
  then Err "default interface is not configured" else Ok (HostInterface st).

Definition GetDefaultInterfaceAddr st : res string :=
  if String.eqb (HostInterfaceAddr st) ""
  then Err "default interface address is not configured"
  else Ok (HostInterfaceAddr st).

(** [usedSubnets]: the networks of the pools, in canonical text. *)
Fixpoint usedSubnets (ps : list Pool) (used : gset string) : res (gset string) :=
  match ps with
  | [] => Ok used
  | p :: rest =>
      match ParseCIDR (Subnet p) with
      | None => Err ("invalid pool subnet: " +:+ Subnet p)
      | Some poolNet =>
          if is_nil (To4 (net_ip poolNet))
          then Err ("pool subnet must be ipv4: " +:+ Subnet p)
          else usedSubnets rest ({[IPNet_String poolNet]} ∪ used)
      end
  end.

(** One round of the subnet loop: a free /24, or the end of the range. *)
Definition subnet_step (runtimeNet : IPNet) (used : gset string) (ip : IP)
    : IP + option IP :=
  if Contains runtimeNet ip then
    let subnetNet := {| net_ip := ip; net_mask := CIDRMask 24 32 |} in
    if Contains runtimeNet (broadcastIPv4 subnetNet) then
      if decide (IPNet_String subnetNet ∈ used)
      then inl (ipv4Add ip 256) else inr (Some ip)
    else inr None
  else inr None.

(** Rounds the model runs before it gives the loop up as endless. *)
Definition subnet_fuel : positive := 16777217.

Definition StoreBridge (bridge : string) st
    : res (IpamState * (string * string)) :=
  if existsb (fun p => String.eqb (p_Interface p) bridge) (Pools st)
  then Err ("interface: " +:+ bridge +:+ " is already created") else
  if String.eqb (RuntimeSubnet st) ""
  then Err "runtime subnet is not configured" else
  match ParseCIDR (RuntimeSubnet st) with
  | None => Err ("invalid runtime subnet: invalid CIDR address: " +:+ RuntimeSubnet st)
  | Some runtimeNet =>
      if is_nil (To4 (net_ip runtimeNet)) then Err "runtime subnet must be ipv4" else
      if 24 <? Mask_ones (net_mask runtimeNet)
      then Err ("runtime subnet prefix must be <= /24: " +:+ IPNet_String runtimeNet) else
      used ← usedSubnets (Pools st) ∅;
      let start := To4 (IP_Mask (net_ip runtimeNet) (net_mask runtimeNet)) in
      if is_nil start then Err "runtime subnet must be ipv4" else
      match iter_until (subnet_step runtimeNet used) subnet_fuel start with
      | inl _ => Panic "endless loop"
      | inr None => Err ("no available /24 subnet in runtime subnet: " +:+
                         IPNet_String runtimeNet)
      | inr (Some ip) =>
          let subnet := IPNet_String {| net_ip := ip; net_mask := CIDRMask 24 32 |} in
          let addr := ipv4_String (ipv4Add ip 254) +:+ "/24" in
          let p := {| p_Interface := bridge; Subnet := subnet; Address := addr;
                      Allocations := Some ∅ |} in
          Ok (set_Pools st (Pools st ++ [p]), (subnet, addr))
      end
  end.

Definition RemoveBridge (bridge : string) st : res (IpamState * unit) :=
  if existsb (fun p => String.eqb (p_Interface p) bridge) (Pools st)
  then Ok (set_Pools st
             (List.filter (fun p => negb (String.eqb (p_Interface p) bridge)) (Pools st)), tt)
  else Err ("bridge: " +:+ bridge +:+ " not found").

Definition GetBridgeAddr (bridge : string) st : res string :=
  match first_match (fun p => String.eqb (p_Interface p) bridge) (Pools st) with
  | Some p => Ok (Address p)
  | None => Err ("interface: " +:+ bridge +:+ " not found")
  end.

(** The pool and address of a container: the search that the next
    operations share ([for pools { for addr, info := range Allocations }]). *)
Fixpoint locate (containerId : string) (ps : list Pool)
    : option (Pool * (string * Allocation)) :=
  match ps with
  | [] => None
  | p :: rest =>
      match find_container containerId p with
      | Some x => Some (p, x)
      | None => locate containerId rest
      end
  end.

(** The named results keep their values on the error path: the host
    interface is returned in both cases. *)
Definition GetContainerAddress (containerId : string) st
    : string * string * string * option error :=
  match locate containerId (Pools st) with
  | Some (p, (addr, _)) => (HostInterface st, p_Interface p, addr, None)
  | None => (HostInterface st, "", "",
             Some ("container: " +:+ containerId +:+ " not found"))
  end.

(** Here too the results are assigned before the check. *)
Definition GetDnsProxyInfo st : string * string * list string * option error :=
  let d := st_DnsProxy st in
  (DnsProxyInterface d, DnsProxyAddr d, Upstreams d,
   if String.eqb (DnsProxyInterface d) "" || String.eqb (DnsProxyAddr d) "" ||
      is_nil (Upstreams d)
   then Some "Dns Proxy not configured" else None).

Definition add_forward (fi : ForwardInfo) (a : Allocation) : Allocation :=
  {| al_ContainerId := al_ContainerId a; al_Interface := al_Interface a;
     Forwards := Forwards a ++ [fi]; AssignedAt := AssignedAt a |}.

Fixpoint forward_pools (containerId : string) (fi : ForwardInfo)
    (ps : list Pool) : res (list Pool) :=
  match ps with
  | [] => Err ("container: " +:+ containerId +:+ " not found")
  | p :: rest =>
      match find_container containerId p with
      | Some (addr, a) =>
          Ok (set_Allocations p (<[addr := add_forward fi a]> (allocs p)) :: rest)
      | None => rest ← forward_pools containerId fi rest; Ok (p :: rest)
      end
  end.

Definition SetForwardInfo (containerId : string) (sport dport : Z)
    (protocol : string) st : res (IpamState * unit) :=
  let fi := {| HostPort := sport; ContainerPort := dport; fi_Protocol := protocol |} in
  ps ← forward_pools containerId fi (Pools st);
  Ok (set_Pools st ps, tt).

Definition GetForwardInfo (containerId : string) st : res (list ForwardInfo) :=
  Ok (p ← Pools st;
      '(_, a) ← range_map (allocs p);
      if String.eqb (al_ContainerId a) containerId then Forwards a else []).

Definition GetPoolList st : res (list Pool) := Ok (Pools st).

Definition GetNetworkInfoById (containerId : string) st : res (string * Allocation) :=
  match locate containerId (Pools st) with
  | Some (_, x) => Ok x
  | None => Err ("container: " +:+ containerId +:+ " not found")
  end.

Definition GetVethById (containerId : string) st : res string :=
  match locate containerId (Pools st) with
  | Some (_, (_, a)) => Ok (al_Interface a)
  | None => Err ("contianer: " +:+ containerId +:+ " not found")
  end.

(** The first pool that has [ip] as a key. *)
Fixpoint GetInfoByIp_pools (ip : string) (ps : list Pool) : res (string * string) :=
  match ps with
  | [] => Err ("ip: " +:+ ip +:+ " not found")
  | p :: rest =>
      match allocs p !! ip with
      | Some a => Ok (al_ContainerId a, al_Interface a)
      | None => GetInfoByIp_pools ip rest
      end
  end.
Definition GetInfoByIp (ip : string) st : res (string * string) :=
  GetInfoByIp_pools ip (Pools st).
End manager.

(** ** The store ([store.go], [network.go]) *)

(** The field after [dev]. *)
Fixpoint field_after_dev (l : list string) : option string :=
  match l with
  | a :: (b :: _) as l' => if String.eqb a "dev" then Some b else field_after_dev l'
  | _ => None
  end.

(** [GetDefaultInterfaceIpv4] on the output of [ip -4 route show default]. *)
Definition GetDefaultInterfaceIpv4 (out : res string) : res string :=
  match out with
  | Ok out =>
      let line := split_head "010" (trimSpace out) in
      if String.eqb (trimSpace line) "" then Err "no defauilt route found (ipv4)" else
      match field_after_dev (fields line) with
      | Some dev => Ok dev
      | None => Err ("cannot find dev in: " +:+ line)
      end
  | Err e => Err ("run ip route: " +:+ e)
  | Panic e => Panic e
  end.

(** The longest prefix of bytes satisfying [p], and the rest. *)
Fixpoint span (p : ascii -> bool) (s : string) : string * string :=
  match s with
  | String c r =>
      if p c then let '(a, b) := span p r in (String c a, b) else (EmptyString, s)
  | EmptyString => (EmptyString, EmptyString)
  end.

(** The regular expression [inet\s+([0-9.]+/\d+)], at the start of [s]; its
    character classes exclude each other, so there is nothing to backtrack. *)
Definition match_inet (s : string) : option string :=
  if hasPrefix s "inet" then
    let '(ws, s) := span (fun c => is_space c && negb (byte_of c =? 11)) (drop_str 4 s) in
    if String.eqb ws "" then None else
    let '(ip, s) := span (fun c => is_digit c || Ascii.eqb c ".") s in
    if String.eqb ip "" then None else
    match s with
    | String "/" s =>
        let '(n, _) := span is_digit s in
        if String.eqb n "" then None else Some (ip +:+ "/" +:+ n)
    | _ => None
    end
  else None.

Fixpoint find_inet (s : string) : option string :=
  match match_inet s with
  | Some r => Some r
  | None => match s with
            | EmptyString => None
            | String _ r => find_inet r
            end
  end.

(** [GetDefaultInterfaceAddressIpv4] on the output of [ip -4 addr show]. *)
Definition GetDefaultInterfaceAddressIpv4 (interfaceName : string)
    (out : res string) : res string :=
  out ← out;
  match find_inet out with
  | Some a => Ok a
  | None => Err ("no ipv4 address found for " +:+ interfaceName)
  end.

Definition default_dns : DnsProxy :=
  {| DnsProxyInterface := "raindDns"; DnsProxyAddr := "10.166.254.254";
     Upstreams := ["8.8.8.8"; "1.1.1.1"] |}.

Definition default_pool : Pool :=
  {| p_Interface := "raind0"; Subnet := "10.166.0.0/24";
     Address := "10.166.0.254/24"; Allocations := Some ∅ |}.

Definition default_state (iface addr : string) : IpamState :=
  {| Version := "0.1.0"; RuntimeSubnet := "10.166.0.0/16";
     st_DnsProxy := default_dns; HostInterface := iface;
     HostInterfaceAddr := addr; Pools := [default_pool] |}.

Section store.
Context {C : Codec IpamState}.
(** The outputs of the [ip] commands. *)
Context (ip_route : res string) (ip_addr : string -> res string).

Definition default_interface : res (string * string) :=
  iface ← GetDefaultInterfaceIpv4 ip_route;
  addr ← GetDefaultInterfaceAddressIpv4 iface (ip_addr iface);
  Ok (iface, addr).

(** The loop of [loadOrInit] over [st.Pools] assigns the missing maps to its
    copy [p] of the pool: the state it returns is the decoded one. *)
Definition repair (st : IpamState) : IpamState :=
  let _ := (fun p => match Allocations p with
                     | None => set_Allocations p ∅
                     | Some _ => p
                     end) <$> Pools st in st.

Definition loadOrInit (path : string) : fsM IpamState := fun w =>
  match Fs.ReadFile path w with
  | (Fs.Done b, w) =>
      match unmarshal b with
      | Ok st => (Fs.Done (repair st), w)
      | Err e => (Fs.Failed (Fs.OsError ("ipam state json broken: " +:+ e)), w)
      | Panic e => (Fs.Crashed, w)
      end
  | (Fs.Failed e, w) =>
      match default_interface with
      | Ok (iface, addr) =>
          if Fs.IsNotExist e then (Fs.Done (default_state iface addr), w)
          else (Fs.Failed e, w)
      | Err e => (Fs.Failed (Fs.OsError e), w)
      | Panic e => (Fs.Crashed, w)
      end
  | (Fs.Crashed, w) => (Fs.Crashed, w)
  end.

Definition atomicSave : string -> IpamState -> fsM unit := Persist.atomicSave.

Definition withLock {A} (path : string) : (IpamState -> res (IpamState * A)) -> fsM A :=
  Persist.withLock path (loadOrInit path).
Definition withRLock {A} (path : string) : (IpamState -> res A) -> fsM A :=
  Persist.withRLock path (loadOrInit path).

(** The transaction of [SetConfig]. *)
Definition SetConfig_tx (iface addr : string) (st : IpamState)
    : res (IpamState * unit) :=
  Ok ({| Version := "0.1.0"; RuntimeSubnet := "10.166.0.0/16";
         st_DnsProxy := default_dns; HostInterface := iface;
         HostInterfaceAddr := addr;
         Pools := if is_nil (Pools st) then [default_pool] else Pools st |}, tt).

Definition SetConfig (path : string) : fsM unit := fun w =>
  match default_interface with
  | Ok (iface, addr) => withLock path (SetConfig_tx iface addr) w
  | Err e => (Fs.Failed (Fs.OsError e), w)
  | Panic e => (Fs.Crashed, w)
  end.

Definition content_view (c : option string) : option IpamState :=
  match c with
  | None => match default_interface with
            | Ok (iface, addr) => Some (default_state iface addr)
            | _ => None
            end
  | Some b => match unmarshal b with Ok st => Some (repair st) | _ => None end
  end.

#[export] Instance loadOrInit_Loader {CL : CodecLaws IpamState} path :
  Loader path (loadOrInit path) content_view repair.
Proof.
  split.
  - intros w. unfold loadOrInit. pose proof (frame_ReadFile ∅ path w) as Hf.
    destruct (Fs.ReadFile path w) as [[b|e|] w1]; simpl in *; try done.
    + by destruct (unmarshal b).
    + destruct default_interface as [[]|?|?]; try done. by destruct (Fs.IsNotExist e).
  - intros w st w'. unfold loadOrInit, Fs.ReadFile, Fs.syscall, content_view.
    pose proof (pop_frame w) as [_ Hf]. destruct (Fs.pop w) as [f w1]; simpl in Hf.
    destruct f; simpl; try (by intros [=]); rewrite <- ?Hf;
      try (destruct default_interface as [[]|?|?]; by intros [=]).
    destruct (Fs.files w1 !! path) as [b|]; simpl.
    + by destruct (unmarshal b); intros [= <- _].
    + destruct default_interface as [[]|?|?]; [by intros [= <- _]|by intros [=]..].
  - intros st b Hb. simpl. by rewrite (unmarshal_marshal _ _ Hb).
  - intros w st Hw. unfold loadOrInit, Fs.ReadFile, Fs.syscall, Fs.pop, content_view.
    rewrite Hw. simpl. destruct (Fs.files w !! path) as [b|]; simpl.
    + destruct (unmarshal b); intros [= <-]; eauto.
    + destruct default_interface as [[]|?|?]; intros [= <-]; eauto.
Qed.
End store.
