(* ===== verification/IpamTheory.v ===== *)
(** * Correctness of address management

    The address arithmetic of [Ipam.v] against 32-bit integers, the search for
    a free address (sound, and complete for subnets of at most [2^24]
    addresses), and the invariant of the pool table that every transaction
    preserves. *)

From Stdlib Require Import ZArith Lia Ascii String.
From stdpp Require Import base gmap strings pretty list relations.
From S2P Require Import Prelude.
From S2P Require Import GoString.
From S2P Require Import GoNet.
From S2P Require Import Persist.
From S2P Require Import Ipam.
Open Scope Z_scope.

(** ** Address arithmetic *)

Lemma succ_byte b : is_byte b -> (b + 1) mod 256 = if b =? 255 then 0 else b + 1.
Proof.
  unfold is_byte. intros Hb. destruct (Z.eqb_spec b 255) as [->|?]; [done|].
  apply Z.mod_small. lia.
Qed.

Lemma incIP_bytes a b c d :
  is_ipv4 [a; b; c; d] ->
  incIP [a; b; c; d] =
    if d =? 255 then
      if c =? 255 then
        if b =? 255 then [(a + 1) mod 256; 0; 0; 0] else [a; b + 1; 0; 0]
      else [a; b; c + 1; 0]
    else [a; b; c; d + 1].
Proof.
  rewrite is_ipv4_cons. intros (Ha & Hb & Hc & Hd).
  assert (forall x, is_byte x -> x <> 255 -> x + 1 =? 0 = false) as Hz
    by (unfold is_byte; lia).
  unfold incIP. simpl. rewrite (succ_byte d) by done.
  destruct (Z.eqb_spec d 255); simpl; [|by rewrite Hz].
  rewrite (succ_byte c) by done.
  destruct (Z.eqb_spec c 255); simpl; [|by rewrite Hz].
  rewrite (succ_byte b) by done.
  destruct (Z.eqb_spec b 255); simpl; [|by rewrite Hz].
  by destruct ((a + 1) mod 256 =? 0).
Qed.

Lemma incIP_ipv4 ip : is_ipv4 ip -> is_ipv4 (incIP ip).
Proof.
  intros H. pose proof H as H'. destruct_ipv4 H'. rewrite incIP_bytes by done.
  apply is_ipv4_cons in H as (?&?&?&?).
  pose proof (Z.mod_pos_bound (z + 1) 256 ltac:(lia)).
  repeat case_match; apply is_ipv4_cons; unfold is_byte in *; lia.
Qed.

Lemma incIP_val ip :
  is_ipv4 ip -> ipv4_val (incIP ip) = (ipv4_val ip + 1) mod 2 ^ 32.
Proof.
  intros H. pose proof H as H'. pose proof (incIP_ipv4 ip H) as Hi.
  apply ipv4_val_range in Hi.
  destruct_ipv4 H'. rewrite incIP_bytes in * by done.
  apply is_ipv4_cons in H as (?&?&?&?). rewrite succ_byte in * by done.
  unfold ipv4_val, is_byte in *. simpl fold_left in *.
  change (2 ^ 32) with 4294967296 in *.
  repeat case_match; simpl fold_left in *;
    Z.to_euclidean_division_equations; lia.
Qed.

Lemma ipv4Add_bytes ip n :
  is_ipv4 ip -> ipv4Add ip n = ipv4_bytes ((ipv4_val ip + n) mod 2 ^ 32).
Proof.
  intros H. unfold ipv4Add, BigEndian_Uint32. rewrite To4_ipv4 by done.
  destruct_ipv4 H. reflexivity.
Qed.

Lemma lor_byte b d : is_byte b -> is_byte d -> is_byte (Z.lor b d).
Proof.
  unfold is_byte. intros Hb Hd.
  assert (Z.lor b d = Z.lor b d mod 2 ^ 8) as ->; [|apply Z.mod_pos_bound; lia].
  rewrite <- Z.land_ones, Z.land_lor_distr_l, !Z.land_ones by lia.
  change (2 ^ 8) with 256. by rewrite !Z.mod_small by lia.
Qed.

Lemma lor_cons a b c d :
  is_byte b -> is_byte d ->
  Z.lor (a * 256 + b) (c * 256 + d) = Z.lor a c * 256 + Z.lor b d.
Proof.
  intros Hb Hd. apply Z.bits_inj'. intros n Hn.
  rewrite Z.lor_spec, !testbit_byte by auto using lor_byte.
  by destruct (n <? 8); rewrite Z.lor_spec.
Qed.

Lemma compl_byte m : is_byte m -> is_byte (255 - m).
Proof. unfold is_byte. lia. Qed.

Lemma broadcast_ipv4 a m :
  is_ipv4 a -> is_ipv4 m ->
  let b := zip_with (fun b m => Z.lor b (255 - m)) a m in
  is_ipv4 b /\ ipv4_val b = Z.lor (ipv4_val a) (2 ^ 32 - 1 - ipv4_val m).
Proof.
  intros Ha Hm. destruct_ipv4 Ha. destruct_ipv4 Hm. cbn [zip_with]. split.
  - apply is_ipv4_cons. auto 10 using lor_byte, compl_byte.
  - unfold ipv4_val. cbn [fold_left].
    match goal with |- _ = Z.lor _ (_ - (_ + ?d)) =>
      match goal with |- context [(((0 * 256 + ?a) * 256 + ?b) * 256 + ?c) * 256 + d] =>
        replace (2 ^ 32 - 1 - ((((0 * 256 + a) * 256 + b) * 256 + c) * 256 + d))
          with ((((0 * 256 + (255 - a)) * 256 + (255 - b)) * 256 + (255 - c)) * 256
                + (255 - d)) by lia
      end
    end.
    rewrite !lor_cons by auto using compl_byte. reflexivity.
Qed.

(** The last address of a network: all host bits set. *)
Lemma broadcast_net4 base n :
  is_prefix base n ->
  is_ipv4 (broadcastIPv4 (net4 base n)) /\
  ipv4_val (broadcastIPv4 (net4 base n)) = base + net_size n - 1.
Proof.
  intros [Hn Hb Ha]. unfold broadcastIPv4, net4. cbn [net_ip net_mask].
  rewrite To4_ipv4 by apply ipv4_bytes_ok.
  pose proof (CIDRMask_ipv4 n Hn) as Hm.
  rewrite !take_ge by (rewrite ?(proj1 Hm); simpl; lia).
  destruct (broadcast_ipv4 (ipv4_bytes base) _ (ipv4_bytes_ok base) Hm) as [Hi ->].
  split; [done|]. rewrite ipv4_val_bytes, CIDRMask_val by done.
  rewrite Z.shiftl_mul_pow2, Z.ones_equiv by lia.
  assert (2 ^ 32 = 2 ^ n * net_size n) as E.
  { unfold net_size. rewrite <- Z.pow_add_r by lia. f_equal. lia. }
  replace (2 ^ 32 - 1 - Z.pred (2 ^ n) * 2 ^ (32 - n)) with (Z.ones (32 - n))
    by (rewrite Z.ones_equiv; unfold net_size in E; lia).
  pose proof (Z.add_lor_land base (Z.ones (32 - n))) as Hs.
  rewrite Z.land_ones in Hs by lia. fold (net_size n) in Hs.
  rewrite Ha in Hs. rewrite Z.ones_equiv in *. unfold net_size in *. lia.
Qed.

(** ** The search for a free address *)

Lemma IP_Equal_ipv4 a b : is_ipv4 a -> IP_Equal a b = true <-> To4 b = a \/ b = a.
Proof.
  intros Ha. unfold IP_Equal. rewrite bool_decide_eq_true, To4_ipv4 by done.
  split; [naive_solver|]. intros [Hb|Hb]; [left|by right].
  split; [done|]. destruct Ha as [Hl _]. by intros ->.
Qed.

Lemma prefix_end base n : is_prefix base n -> base + net_size n <= 2 ^ 32.
Proof.
  intros H. pose proof (prefix_base _ _ H) as Hb. destruct H as [Hn Hr Ha].
  assert (2 ^ 32 = 2 ^ n * net_size n) as E.
  { unfold net_size. rewrite <- Z.pow_add_r by lia. f_equal. lia. }
  pose proof (net_size_pos n ltac:(lia)) as Hs.
  assert (base / net_size n < 2 ^ n) as Hq
    by (apply Z.div_lt_upper_bound; lia).
  assert (net_size n * (base / net_size n + 1) <= net_size n * 2 ^ n)
    by (apply Z.mul_le_mono_nonneg_l; lia).
  lia.
Qed.

Lemma net_size_even base n :
  is_prefix base n -> n <= 31 -> exists q, base = 2 * q /\ 2 <= net_size n.
Proof.
  intros H Hn. pose proof (prefix_base _ _ H) as Hb. destruct H as [Hn' Hr Ha].
  assert (net_size n = 2 * 2 ^ (31 - n)) as E.
  { unfold net_size. rewrite <- Z.pow_succ_r by lia. f_equal. lia. }
  pose proof (Z.pow_pos_nonneg 2 (31 - n) ltac:(lia) ltac:(lia)).
  exists (2 ^ (31 - n) * (base / net_size n)). split; [|lia].
  rewrite Z.mul_assoc, <- E. lia.
Qed.

Section find_free.
Context (base n : Z) (gateway : IP) (alloc : gmap string Allocation).
Context (Hp : is_prefix base n) (Hn : n <= 31).
#[local] Notation net := (net4 base n).

(** A host address that the pool can still hand out. *)
Record free_host (ip : IP) : Prop := {
  free_ipv4 : is_ipv4 ip;
  free_host_range : base < ipv4_val ip < base + net_size n - 1;
  free_gateway : To4 gateway <> ip /\ gateway <> ip;
  free_unused : alloc !! ipv4_String ip = None
}.

Lemma network_start :
  To4 (net_ip net) = ipv4_bytes base /\
  incIP (ipv4_bytes base) = ipv4_bytes (base + 1).
Proof.
  pose proof (prefix_end _ _ Hp). pose proof (net_size_even _ _ Hp Hn) as (q & ? & ?).
  destruct Hp as [? Hr _].
  split; [by apply To4_ipv4, ipv4_bytes_ok|].
  apply ipv4_val_inj; [apply incIP_ipv4, ipv4_bytes_ok|apply ipv4_bytes_ok|].
  rewrite incIP_val, !ipv4_val_bytes by (apply ipv4_bytes_ok || lia).
  apply Z.mod_small. lia.
Qed.

Lemma bytes_in_net v :
  base <= v < base + net_size n -> Contains net (ipv4_bytes v) = true.
Proof.
  pose proof (prefix_end _ _ Hp). destruct Hp as [_ Hr _]. intros Hv.
  apply Contains_net4; [done|apply ipv4_bytes_ok|].
  rewrite ipv4_val_bytes by lia. done.
Qed.

Definition is_free (v : Z) : bool :=
  negb (IP_Equal (ipv4_bytes v) (ipv4_bytes base) ||
        IP_Equal (ipv4_bytes v) gateway ||
        IP_Equal (ipv4_bytes v) (broadcastIPv4 net)) &&
  bool_decide (alloc !! ipv4_String (ipv4_bytes v) = None).

Lemma bytes_eq v w : 0 <= v < 2 ^ 32 -> 0 <= w < 2 ^ 32 ->
  ipv4_bytes v = ipv4_bytes w -> v = w.
Proof. intros Hv Hw E. rewrite <- (ipv4_val_bytes v), <- (ipv4_val_bytes w), E; done. Qed.

Lemma is_free_spec v :
  base <= v < base + net_size n -> is_free v = true <-> free_host (ipv4_bytes v).
Proof.
  pose proof (prefix_end _ _ Hp). pose proof (prefix_range _ _ Hp) as Hr. intros Hv.
  pose proof (ipv4_bytes_ok v) as Hi.
  destruct (broadcast_net4 _ _ Hp) as [Hbi Hbv].
  unfold is_free. rewrite andb_true_iff, negb_true_iff, !orb_false_iff.
  rewrite bool_decide_eq_true, <- !not_true_iff_false, !IP_Equal_ipv4 by done.
  rewrite (To4_ipv4 (broadcastIPv4 _)), (To4_ipv4 (ipv4_bytes base))
    by (done || apply ipv4_bytes_ok).
  split.
  - intros [[[H1 H2] H3] H4]. split; try done; [|naive_solver].
    rewrite ipv4_val_bytes by lia.
    assert (v <> base) by naive_solver.
    assert (v <> base + net_size n - 1); [|lia].
    intros E. apply H3. left. apply ipv4_val_inj; try done.
    rewrite Hbv, ipv4_val_bytes by lia. done.
  - intros [_ H1 [H2 H3] H4]. rewrite ipv4_val_bytes in H1 by lia.
    split_and!; try done.
    + intros [E|E]; apply bytes_eq in E; lia.
    + naive_solver.
    + intros [E|E]; apply (f_equal ipv4_val) in E;
        rewrite Hbv, ipv4_val_bytes in E; lia.
Qed.

Lemma find_step_bytes v :
  base <= v < base + net_size n ->
  find_step net gateway alloc (ipv4_bytes v) =
    if is_free v then inr (ipv4_bytes v) else inl (ipv4_bytes ((v + 1) mod 2 ^ 32)).
Proof.
  intros Hv. pose proof (prefix_end _ _ Hp). pose proof (prefix_range _ _ Hp) as Hr.
  assert (incIP (ipv4_bytes v) = ipv4_bytes ((v + 1) mod 2 ^ 32)) as Hinc.
  { apply ipv4_val_inj; [apply incIP_ipv4, ipv4_bytes_ok|apply ipv4_bytes_ok|].
    pose proof (Z.mod_pos_bound (v + 1) (2 ^ 32) ltac:(lia)).
    rewrite incIP_val, !ipv4_val_bytes by (apply ipv4_bytes_ok || lia). done. }
  unfold find_step, is_free. rewrite bytes_in_net by done.
  rewrite (proj1 network_start), Hinc.
  destruct (IP_Equal _ _ || _ || _); simpl; [done|].
  by destruct (alloc !! _).
Qed.

(** The state of the search after [k] rounds. *)
Lemma find_scan k :
  base + 1 + Z.of_nat k <= base + net_size n - 1 ->
  (exists j, (j < k)%nat /\ is_free (base + 1 + Z.of_nat j) = true /\
     (forall i, (i < j)%nat -> is_free (base + 1 + Z.of_nat i) = false) /\
     iter_nat_until (find_step net gateway alloc) k (ipv4_bytes (base + 1)) =
       inr (ipv4_bytes (base + 1 + Z.of_nat j))) \/
  ((forall i, (i < k)%nat -> is_free (base + 1 + Z.of_nat i) = false) /\
     iter_nat_until (find_step net gateway alloc) k (ipv4_bytes (base + 1)) =
       inl (ipv4_bytes (base + 1 + Z.of_nat k))).
Proof.
  pose proof (prefix_end _ _ Hp). pose proof (prefix_range _ _ Hp) as Hr.
  intros Hk.
  pose proof (iter_scan (find_step net gateway alloc)
    (fun i => ipv4_bytes (base + 1 + Z.of_nat i))
    (fun i => is_free (base + 1 + Z.of_nat i))
    (fun i => ipv4_bytes (base + 1 + Z.of_nat i)) k) as Hs.
  replace (ipv4_bytes (base + 1)) with (ipv4_bytes (base + 1 + Z.of_nat 0))
    by (f_equal; lia).
  apply Hs; [|lia]. intros i Hi. rewrite find_step_bytes by lia.
  rewrite Z.mod_small by lia. by replace (base + 1 + Z.of_nat i + 1)
    with (base + 1 + Z.of_nat (S i)) by lia.
Qed.

Lemma start_in_net : base <= base + 1 < base + net_size n.
Proof. pose proof (net_size_even _ _ Hp Hn) as (q & _ & ?). lia. Qed.

Lemma find_step_sound c :
  is_ipv4 c ->
  match find_step net gateway alloc c with
  | inl c' => is_ipv4 c'
  | inr r => free_host r
  end.
Proof.
  intros Hc. pose proof (prefix_end _ _ Hp). pose proof start_in_net.
  pose proof (prefix_range _ _ Hp) as Hr.
  assert (exists v, base <= v < base + net_size n /\
    find_step net gateway alloc c = find_step net gateway alloc (ipv4_bytes v))
    as (v & Hv & ->).
  { destruct (Contains net c) eqn:E.
    - exists (ipv4_val c). rewrite ipv4_bytes_val by done. split; [|done].
      by apply Contains_net4 in E.
    - exists (base + 1). split; [done|]. unfold find_step.
      by rewrite E, (proj1 network_start), (proj2 network_start), bytes_in_net. }
  rewrite find_step_bytes by done.
  destruct (is_free v) eqn:E; [by apply is_free_spec|apply ipv4_bytes_ok].
Qed.

Lemma free_host_index ip :
  free_host ip ->
  is_free (base + 1 + Z.of_nat (Z.to_nat (ipv4_val ip - base - 1))) = true /\
  ipv4_val ip = base + 1 + Z.of_nat (Z.to_nat (ipv4_val ip - base - 1)).
Proof.
  intros Hf. destruct (free_host_range _ Hf). split; [|lia].
  replace (base + 1 + _) with (ipv4_val ip) by lia.
  apply is_free_spec; [lia|]. rewrite ipv4_bytes_val; [done|apply Hf].
Qed.

(** The loop bound of [2^24] rounds covers a subnet of prefix 8 or longer:
    the search returns the lowest free host address, and fails only when
    there is none. *)
Lemma findFreeIpv4_spec :
  8 <= n ->
  match findFreeIpv4 net gateway alloc with
  | Ok ip => free_host ip /\ forall ip', free_host ip' -> ipv4_val ip <= ipv4_val ip'
  | Err _ => forall ip, ~ free_host ip
  | Panic _ => False
  end.
Proof.
  intros Hn8. unfold findFreeIpv4. rewrite (proj1 network_start), (proj2 network_start).
  assert (net_size n <= 2 ^ 24) as Hsz
    by (unfold net_size; apply Z.pow_le_mono_r; lia).
  pose proof start_in_net as Hst. pose proof (prefix_end _ _ Hp).
  pose proof (prefix_range _ _ Hp) as Hr.
  rewrite iter_until_nat. cbn [is_nil ipv4_bytes].
  pose proof (iter_nat_until_inv (find_step net gateway alloc) is_ipv4 free_host
    find_step_sound (Pos.to_nat (2 ^ 24)) (ipv4_bytes (base + 1))
    (ipv4_bytes_ok _)) as Hsound.
  destruct (find_scan (Z.to_nat (net_size n - 2)) ltac:(lia))
    as [(j & Hj & Hf & Hm & Hit)|[Hm Hit]].
  - rewrite (iter_nat_until_mono _ _ (Pos.to_nat (2 ^ 24)) _ _ Hit) in * by lia.
    split; [done|]. intros ip' Hf'.
    destruct (free_host_index _ Hf') as [Hfi ->].
    rewrite ipv4_val_bytes by lia.
    destruct (le_lt_dec j (Z.to_nat (ipv4_val ip' - base - 1))) as [|Hlt]; [lia|].
    apply Hm in Hlt. congruence.
  - assert (forall ip, ~ free_host ip) as Hnone.
    { intros ip Hf. destruct (free_host_index _ Hf) as [Hfi Hv].
      pose proof (free_host_range _ Hf). rewrite Hm in Hfi; [done|lia]. }
    destruct (iter_nat_until _ _ _); [done|]. by apply Hnone in Hsound.
Qed.
End find_free.

(** ** The pool table *)

(** A pool that [StoreBridge] or the default state made, in use: a /24 from
    [base], its gateway, and host addresses of the network as keys. *)
Record pool_ok (base : Z) (p : Pool) : Prop := {
  pool_prefix : is_prefix base 24;
  pool_subnet : ParseCIDR (Subnet p) = Some (net4 base 24);
  pool_configured : Subnet p <> "" /\ Address p <> "";
  pool_gateway : is_ipv4 (To4 (ParseIP (split_head "/" (Address p))));
  pool_map : is_Some (Allocations p);
  pool_keys k : is_Some (allocs p !! k) ->
    exists a, is_ipv4 a /\ k = ipv4_String a /\
      base < ipv4_val a < base + 255 /\
      To4 (ParseIP (split_head "/" (Address p))) <> a
}.

Record runtime_ok (s : string) (rb rn : Z) : Prop := {
  runtime_prefix : is_prefix rb rn;
  runtime_len : 1 <= rn <= 24;
  runtime_parse : ParseCIDR s = Some (net4 rb rn);
  runtime_set : s <> ""
}.

(** The invariant: the pools are pairwise different /24 networks with
    different interfaces. *)
Record ipam_ok (bases : list Z) (st : IpamState) : Prop := {
  ok_pools : Forall2 pool_ok bases (Pools st);
  ok_disjoint : NoDup bases;
  ok_interfaces : NoDup (p_Interface <$> Pools st);
  ok_runtime : exists rb rn, runtime_ok (RuntimeSubnet st) rb rn
}.

Lemma allocs_set p m : allocs (set_Allocations p m) = m.
Proof. reflexivity. Qed.

Lemma pool_ok_set base p m :
  pool_ok base p ->
  (forall k, is_Some (m !! k) -> is_Some (allocs p !! k) \/
     exists a, is_ipv4 a /\ k = ipv4_String a /\ base < ipv4_val a < base + 255 /\
       To4 (ParseIP (split_head "/" (Address p))) <> a) ->
  pool_ok base (set_Allocations p m).
Proof.
  intros [H1 H2 H3 H4 H5 H6] Hm. split; try done.
  intros k Hk. destruct (Hm k Hk) as [Hk'|Hk']; [by apply H6|done].
Qed.

(** Two pools never hold the same address. *)
Lemma pool_keys_disjoint b1 b2 p q k :
  pool_ok b1 p -> pool_ok b2 q -> b1 <> b2 ->
  is_Some (allocs p !! k) -> allocs q !! k = None.
Proof.
  intros Hp Hq Hne Hk. destruct (allocs q !! k) as [x|] eqn:E; [exfalso|done].
  destruct (pool_keys _ _ Hp k Hk) as (a & Ha & -> & Hra & _).
  destruct (pool_keys _ _ Hq _ (mk_is_Some _ _ E)) as (c & Hc & He & Hrc & _).
  apply ipv4_String_inj in He; [|done..]. subst c.
  destruct (pool_prefix _ _ Hp) as [_ _ E1], (pool_prefix _ _ Hq) as [_ _ E2].
  change (net_size 24) with 256 in *.
  Z.to_euclidean_division_equations; lia.
Qed.

Section allocate.
Context {RO : RangeOrder}.

Lemma allocate_pools_spec cid br now bases ps ps' ip :
  Forall2 pool_ok bases ps -> allocate_pools cid br now ps = Ok (ps', ip) ->
  exists i p base m a,
    ps !! i = Some p /\ bases !! i = Some base /\
    p_Interface p = br /\ Allocations p = Some m /\ ip = ipv4_String a /\
    free_host base 24 (To4 (ParseIP (split_head "/" (Address p)))) m a /\
    ps' = <[i := set_Allocations p
      (<[ip := {| al_ContainerId := cid; al_Interface := "rd_" +:+ cid;
                  Forwards := []; AssignedAt := now |}]> m)]> ps.
Proof.
  intros Hok. revert ps' ip.
  induction Hok as [|base p bases ps Hp Hok IH]; intros ps' ip; simpl; [done|].
  destruct (String.eqb_spec (p_Interface p) br) as [Hbr|Hbr]; cycle 1.
  { intros H. inv_ok. destruct v as [ps1 ip1].
    destruct (IH _ _ Hv) as (i & q & b & m & a & H1 & H2 & H3 & H4 & H5 & H6 & H7).
    injection H as <- <-. exists (S i), q, b, m, a. by rewrite H7. }
  destruct (pool_configured _ _ Hp) as [Hs Ha].
  apply String.eqb_neq in Hs, Ha. rewrite Hs, Ha. cbn [orb].
  destruct (is_nil _) eqn:Enil; [done|].
  rewrite (pool_subnet _ _ Hp). intros H. inv_ok.
  destruct (pool_map _ _ Hp) as [m Hm]. rewrite Hm in H. unfold allocs in Hv.
  rewrite Hm in Hv. simpl in Hv. injection H as <- <-.
  pose proof (findFreeIpv4_spec base 24 (To4 (ParseIP (split_head "/" (Address p)))) m
    (pool_prefix _ _ Hp)) as Hspec.
  specialize (Hspec ltac:(lia) ltac:(lia)).
  rewrite Hv in Hspec. exists O, p, base, m, v. naive_solver.
Qed.

(** [Allocate] keeps the invariant and hands out an address that no pool
    has in use. *)
Lemma Allocate_ok cid br now bases st st' ip :
  ipam_ok bases st -> Allocate cid br now st = Ok (st', ip) ->
  ipam_ok bases st' /\
  (forall p, p ∈ Pools st -> allocs p !! ip = None) /\
  (exists i p, Pools st !! i = Some p /\ p_Interface p = br /\
     st' = set_Pools st (<[i := set_Allocations p
       (<[ip := {| al_ContainerId := cid; al_Interface := "rd_" +:+ cid;
                   Forwards := []; AssignedAt := now |}]> (allocs p))]> (Pools st))).
Proof.
  intros [Hpools Hnd Hif Hrt] H. unfold Allocate in H. inv_ok.
  destruct v as [ps ip']. injection H as <- <-.
  destruct (allocate_pools_spec _ _ _ _ _ _ _ Hpools Hv) as
    (i & p & base & m & a & Hi & Hb & Hbr & Hm & -> & Hf & ->).
  assert (allocs p = m) as Ham by (unfold allocs; by rewrite Hm).
  set (al := {| al_ContainerId := cid |}). set (p' := set_Allocations p _).
  pose proof (Forall2_lookup_lr _ _ _ _ _ _ Hpools Hb Hi) as Hp.
  assert (pool_ok base p') as Hp'.
  { apply pool_ok_set; [done|]. intros k. rewrite lookup_insert_is_Some.
    intros [<-|[_ Hk]]; [right|left; by rewrite Ham].
    exists a. destruct Hf as [? Hr [? _] _]. change (net_size 24) with 256 in Hr.
    rewrite (To4_ipv4 (To4 _)) in * by apply Hp. split_and!; done || lia. }
  split_and!.
  - split; try done; simpl.
    + rewrite <- (list_insert_id bases i base Hb). by apply Forall2_insert.
    + rewrite list_fmap_insert. simpl. rewrite list_insert_id; [done|].
      by rewrite list_lookup_fmap, Hi.
  - intros q (j & Hj)%list_elem_of_lookup.
    destruct (decide (i = j)) as [<-|Hne].
    + rewrite Hi in Hj. injection Hj as <-. rewrite Ham. apply Hf.
    + destruct (Forall2_lookup_r _ _ _ _ _ Hpools Hj) as (b & Hbj & Hq).
      eapply pool_keys_disjoint; [exact Hp'|exact Hq| |].
      * intros ->. by apply Hne, (NoDup_lookup bases i j b).
      * unfold p'. rewrite allocs_set, lookup_insert_eq. by eexists.
  - exists i, p. by rewrite Ham.
Qed.
End allocate.

(** ** New bridges *)

Lemma IP_Mask_net4 base n :
  is_prefix base n -> IP_Mask (ipv4_bytes base) (CIDRMask n 32) = ipv4_bytes base.
Proof.
  intros H. pose proof (prefix_len _ _ H) as Hn. pose proof (CIDRMask_ipv4 n Hn) as Hm.
  pose proof (ipv4_bytes_ok base) as Hb.
  assert (IP_Mask (ipv4_bytes base) (CIDRMask n 32) =
    zip_with Z.land (ipv4_bytes base) (CIDRMask n 32)) as ->.
  { unfold IP_Mask. rewrite (proj1 Hm). cbn [Nat.eqb andb]. rewrite (proj1 Hm). done. }
  apply ipv4_val_inj; [by apply zip_land_ipv4|done|].
  rewrite ipv4_val_land, CIDRMask_val by done.
  rewrite ipv4_val_bytes, land_prefix by (done || apply H). by apply prefix_base.
Qed.

Lemma Mask_ones_CIDR n : 0 <= n <= 32 -> Mask_ones (CIDRMask n 32) = n.
Proof.
  intros Hn. unfold Mask_ones. rewrite CIDRMask_ones by done.
  destruct (Z.eqb_spec n (-1)); lia.
Qed.

Lemma usedSubnets_spec bases ps used :
  Forall2 pool_ok bases ps ->
  exists u, usedSubnets ps used = Ok u /\
    forall s, s ∈ u <-> s ∈ used \/ exists b, b ∈ bases /\ s = cidr_text b 24.
Proof.
  intros Hok. revert used. induction Hok as [|b p bases ps Hp Hok IH]; intros used; simpl.
  - exists used. split; [done|]. set_solver.
  - rewrite (pool_subnet _ _ Hp). cbn [net_ip net4].
    rewrite To4_ipv4 by apply ipv4_bytes_ok. cbn [is_nil ipv4_bytes].
    change {| net_ip := _; net_mask := _ |} with (net4 b 24).
    rewrite IPNet_String_net4 by lia.
    destruct (IH ({[cidr_text b 24]} ∪ used)) as (u & Hu & Hs).
    exists u. split; [done|]. intros s. rewrite Hs. set_solver.
Qed.

Section bridges.
Context (rb rn : Z) (Hr : is_prefix rb rn) (Hlen : 1 <= rn <= 24) (used : gset string).
Let N := Z.to_nat (net_size rn / 256).

Lemma runtime_size : net_size rn = 256 * Z.of_nat N /\ rb mod 256 = 0 /\ (0 < N)%nat.
Proof.
  assert (net_size rn = 256 * 2 ^ (24 - rn)) as E.
  { unfold net_size. change 256 with (2 ^ 8). rewrite <- Z.pow_add_r by lia.
    f_equal. lia. }
  pose proof (Z.pow_pos_nonneg 2 (24 - rn) ltac:(lia) ltac:(lia)) as Hpos.
  pose proof (prefix_base _ _ Hr) as Hb.
  unfold N. rewrite E, Z.mul_comm, Z.div_mul by lia. rewrite E in Hb.
  split_and!; [lia| |lia].
  rewrite <- Hb, <- Z.mul_assoc, Z.mul_comm. apply Z_mod_mult.
Qed.

Definition taken (k : nat) : bool :=
  bool_decide (cidr_text (rb + 256 * Z.of_nat k) 24 ∈ used).

Lemma subnet_is_prefix k : (k < N)%nat -> is_prefix (rb + 256 * Z.of_nat k) 24.
Proof.
  intros Hk. pose proof runtime_size as (Hs & Ha & _). pose proof (prefix_end _ _ Hr).
  pose proof (prefix_range _ _ Hr). split; [lia|lia|].
  change (net_size 24) with 256. rewrite Z.mul_comm, Z_mod_plus_full. done.
Qed.

Lemma subnet_step_bytes k :
  (k < N)%nat ->
  subnet_step (net4 rb rn) used (ipv4_bytes (rb + 256 * Z.of_nat k)) =
    if negb (taken k) then inr (Some (ipv4_bytes (rb + 256 * Z.of_nat k)))
    else inl (ipv4_bytes ((rb + 256 * Z.of_nat (S k)) mod 2 ^ 32)).
Proof.
  intros Hk. pose proof runtime_size as (Hs & Ha & _).
  pose proof (prefix_end _ _ Hr). pose proof (prefix_range _ _ Hr).
  pose proof (subnet_is_prefix k Hk) as Hp.
  pose proof (broadcast_net4 _ _ Hp) as [Hbi Hbv].
  unfold subnet_step. fold (net4 (rb + 256 * Z.of_nat k) 24).
  change {| net_ip := ipv4_bytes (rb + 256 * Z.of_nat k); net_mask := CIDRMask 24 32 |}
    with (net4 (rb + 256 * Z.of_nat k) 24).
  change (net_size 24) with 256 in Hbv.
  rewrite (proj2 (Contains_net4 rb rn (ipv4_bytes _) Hr (ipv4_bytes_ok _)))
    by (rewrite ipv4_val_bytes; lia).
  rewrite (proj2 (Contains_net4 rb rn (broadcastIPv4 _) Hr Hbi)) by lia.
  rewrite IPNet_String_net4 by lia. unfold taken.
  destruct (decide _) as [Hin|Hin]; [rewrite bool_decide_true by done|
    rewrite bool_decide_false by done]; cbn [negb]; [|done].
  rewrite ipv4Add_bytes, ipv4_val_bytes by (apply ipv4_bytes_ok || lia).
  do 3 f_equal. lia.
Qed.

(** The subnet loop ends within its range: with the first free /24, or after
    all of them are in use. *)
Lemma subnet_loop :
  (exists k, (k < N)%nat /\ taken k = false /\
     (forall i, (i < k)%nat -> taken i = true) /\
     iter_until (subnet_step (net4 rb rn) used) subnet_fuel (ipv4_bytes rb) =
       inr (Some (ipv4_bytes (rb + 256 * Z.of_nat k)))) \/
  ((forall i, (i < N)%nat -> taken i = true) /\
     iter_until (subnet_step (net4 rb rn) used) subnet_fuel (ipv4_bytes rb) =
       inr None).
Proof.
  pose proof runtime_size as (Hs & Ha & Hpos).
  pose proof (prefix_end _ _ Hr) as Hend. pose proof (prefix_range _ _ Hr) as Hrr.
  assert (net_size rn <= 2 ^ 31) as Hsz by (unfold net_size; apply Z.pow_le_mono_r; lia).
  rewrite iter_until_nat.
  pose proof (iter_scan (subnet_step (net4 rb rn) used)
    (fun k => ipv4_bytes ((rb + 256 * Z.of_nat k) mod 2 ^ 32))
    (fun k => negb (taken k))
    (fun k => Some (ipv4_bytes (rb + 256 * Z.of_nat k))) N) as Hscan.
  replace (ipv4_bytes rb) with (ipv4_bytes ((rb + 256 * Z.of_nat 0) mod 2 ^ 32))
    by (f_equal; rewrite Z.mod_small; lia).
  cbv beta in Hscan.
  destruct (Hscan ltac:(intros k Hk; rewrite (Z.mod_small (rb + 256 * Z.of_nat k)) by lia;
    by apply subnet_step_bytes) N ltac:(lia)) as [(j & Hj & Ht & Hn & Hit)|[Hn Hit]].
  - left. exists j. split_and!; [done|by destruct (taken j)| |].
    + intros i Hi. specialize (Hn i Hi). by destruct (taken i).
    + eapply iter_nat_until_mono; [exact Hit|]. unfold subnet_fuel. lia.
  - right. split; [intros i Hi; specialize (Hn i Hi); by destruct (taken i)|].
    apply (iter_nat_until_mono _ (S N)); [|unfold subnet_fuel; lia].
    rewrite iter_nat_until_S, Hit. unfold subnet_step.
    destruct (Contains _ _) eqn:E; [|done].
    apply Contains_net4 in E; [|done|apply ipv4_bytes_ok].
    pose proof (Z.mod_pos_bound (rb + 256 * Z.of_nat N) (2 ^ 32) ltac:(lia)).
    rewrite ipv4_val_bytes in E by lia.
    destruct (decide (rb + 256 * Z.of_nat N < 2 ^ 32)).
    + rewrite Z.mod_small in E; lia.
    + replace (rb + 256 * Z.of_nat N) with (2 ^ 32) in E by lia.
      rewrite Z_mod_same_full in E. lia.
Qed.
End bridges.

Definition bridge_pool (br : string) (b : Z) : Pool :=
  {| p_Interface := br; Subnet := cidr_text b 24;
     Address := ipv4_String (ipv4_bytes (b + 254)) +:+ "/24";
     Allocations := Some ∅ |}.

Lemma String_app_ne_nil (a b : string) : b <> "" -> a +:+ b <> "".
Proof. destruct a; [done|]. by intros _ [=]. Qed.

Lemma bridge_pool_ok br b : is_prefix b 24 -> pool_ok b (bridge_pool br b).
Proof.
  intros Hp. split; simpl; try done.
  - by apply ParseCIDR_text.
  - split; [|by apply String_app_ne_nil].
    unfold cidr_text. by repeat apply String_app_ne_nil.
  - unfold split_head. change "/24"%string with (String "/" "24").
    rewrite cut_ipv4 by apply ipv4_bytes_ok.
    rewrite ParseIP_String; apply ipv4_bytes_ok.
  - intros k [? Hk]. unfold allocs in Hk. simpl in Hk. by rewrite lookup_empty in Hk.
Qed.

Lemma existsb_interface br ps :
  existsb (fun p => String.eqb (p_Interface p) br) ps = true <->
  br ∈ p_Interface <$> ps.
Proof.
  rewrite existsb_exists, list_elem_of_fmap. split.
  - intros (p & Hp & He%String.eqb_eq). exists p. split; [done|].
    by apply list_elem_of_In.
  - intros (p & -> & Hp). exists p. split; [by apply list_elem_of_In|].
    apply String.eqb_refl.
Qed.

Lemma ipam_ok_snoc bases st br b :
  ipam_ok bases st -> is_prefix b 24 -> b ∉ bases -> br ∉ p_Interface <$> Pools st ->
  ipam_ok (bases ++ [b]) (set_Pools st (Pools st ++ [bridge_pool br b])).
Proof.
  intros [H1 H2 H3 H4] Hp Hb Hbr. split; simpl; try done.
  - apply Forall2_app; [done|]. constructor; [by apply bridge_pool_ok|constructor].
  - apply NoDup_app. split_and!; [done|set_solver|apply NoDup_singleton].
  - rewrite fmap_app. apply NoDup_app. split_and!; [done|set_solver|apply NoDup_singleton].
Qed.

(** [StoreBridge]: the first /24 of the runtime subnet that no pool has. *)
Lemma StoreBridge_spec br bases st rb rn :
  ipam_ok bases st -> runtime_ok (RuntimeSubnet st) rb rn ->
  match StoreBridge br st with
  | Ok (st', (subnet, addr)) =>
      br ∉ p_Interface <$> Pools st /\
      exists b, is_prefix b 24 /\ rb <= b /\ b + 256 <= rb + net_size rn /\
        b ∉ bases /\ (forall b', is_prefix b' 24 -> rb <= b' < b -> b' ∈ bases) /\
        subnet = Subnet (bridge_pool br b) /\ addr = Address (bridge_pool br b) /\
        st' = set_Pools st (Pools st ++ [bridge_pool br b])
  | Err _ => br ∈ p_Interface <$> Pools st \/
      forall b, is_prefix b 24 -> rb <= b < rb + net_size rn -> b ∈ bases
  | Panic _ => False
  end.
Proof.
  intros Hok [Hr Hlen Hparse Hset]. unfold StoreBridge.
  destruct (existsb _ _) eqn:Eex.
  { left. by apply existsb_interface. }
  assert (br ∉ p_Interface <$> Pools st) as Hbr.
  { rewrite <- existsb_interface. by rewrite Eex. }
  apply String.eqb_neq in Hset. rewrite Hset, Hparse.
  cbn [net_ip net_mask net4]. rewrite To4_ipv4 by apply ipv4_bytes_ok.
  cbn [is_nil ipv4_bytes]. rewrite Mask_ones_CIDR by lia.
  rewrite (proj2 (Z.ltb_ge 24 rn)) by lia.
  destruct (usedSubnets_spec _ _ ∅ (ok_pools _ _ Hok)) as (u & -> & Hu).
  cbn [mbind res_bind]. fold (ipv4_bytes rb).
  rewrite IP_Mask_net4, To4_ipv4 by (done || apply ipv4_bytes_ok).
  cbn [is_nil ipv4_bytes]. fold (ipv4_bytes rb).
  change {| net_ip := ipv4_bytes rb; net_mask := CIDRMask rn 32 |} with (net4 rb rn).
  pose proof (runtime_size rb rn Hr Hlen) as (Hs & Ha & Hpos).
  assert (forall k, (k < Z.to_nat (net_size rn / 256))%nat ->
    taken rb u k = true <-> rb + 256 * Z.of_nat k ∈ bases) as Htaken.
  { intros k Hk. unfold taken. rewrite bool_decide_eq_true, Hu. split.
    - intros [?|(b & Hb & Heq)]; [set_solver|].
      destruct (list_elem_of_lookup_1 _ _ Hb) as [i Hi].
      destruct (Forall2_lookup_l _ _ _ _ _ (ok_pools _ _ Hok) Hi) as (p & _ & Hp).
      apply cidr_text_inj in Heq as [-> _]; [done| |apply Hp].
      by apply (subnet_is_prefix rb rn).
    - intros Hin. right. eauto. }
  assert (forall b, is_prefix b 24 -> rb <= b < rb + net_size rn ->
    exists k, (k < Z.to_nat (net_size rn / 256))%nat /\ b = rb + 256 * Z.of_nat k)
    as Hindex.
  { intros b [_ _ Hb] Hrange. change (net_size 24) with 256 in Hb.
    exists (Z.to_nat ((b - rb) / 256)).
    Z.to_euclidean_division_equations; lia. }
  destruct (subnet_loop rb rn Hr Hlen u) as [(k & Hk & Ht & Hlow & ->)|[Hall ->]].
  - split; [done|]. exists (rb + 256 * Z.of_nat k).
    pose proof (subnet_is_prefix rb rn Hr Hlen k Hk) as Hp.
    pose proof (prefix_range _ _ Hp). pose proof (prefix_end _ _ Hp) as He.
    change (net_size 24) with 256 in He.
    change {| net_ip := ipv4_bytes (rb + 256 * Z.of_nat k); net_mask := CIDRMask 24 32 |}
      with (net4 (rb + 256 * Z.of_nat k) 24).
    rewrite IPNet_String_net4 by lia.
    rewrite ipv4Add_bytes, ipv4_val_bytes, Z.mod_small by (apply ipv4_bytes_ok || lia).
    split_and!; [done|lia|lia| | |done..].
    + rewrite <- Htaken by done. by rewrite Ht.
    + intros b' Hb' Hrange. destruct (Hindex b' Hb' ltac:(lia)) as (i & Hi & ->).
      apply Htaken; [done|]. apply Hlow. lia.
  - right. intros b Hb Hrange. destruct (Hindex b Hb Hrange) as (i & Hi & ->).
    apply Htaken; [done|]. by apply Hall.
Qed.

(** * Address management: what holds in every reachable state

    The transactions of [Ipam.v] as a step relation, the invariant of
    [IpamTheory.v] along every execution from the default state, and the
    behaviour of each transaction on it. *)

(** ** Preservation *)

Lemma Forall2_filter_r {A B} (P : A -> B -> Prop) (f : B -> bool) l k :
  Forall2 P l k ->
  exists l', sublist l' l /\ Forall2 P l' (List.filter f k).
Proof.
  induction 1 as [|x y l k Hx Hl (l' & Hs & IH)]; simpl.
  - by exists [].
  - destruct (f y).
    + exists (x :: l'). split; [by constructor|by constructor].
    + exists l'. split; [by constructor|done].
Qed.

Lemma sublist_filter {A} (f : A -> bool) (l : list A) :
  sublist (List.filter f l) l.
Proof. induction l as [|x l IH]; simpl; [done|]. by destruct (f x); constructor. Qed.

Section preservation.
Context {RO : RangeOrder}.

Lemma find_container_Some cid p ip a :
  find_container cid p = Some (ip, a) ->
  allocs p !! ip = Some a /\ al_ContainerId a = cid.
Proof.
  unfold find_container. intros H. apply first_match_Some in H as [Hin He].
  apply elem_of_range_map in Hin. by apply String.eqb_eq in He.
Qed.

Lemma find_container_None cid p :
  find_container cid p = None <->
  forall ip a, allocs p !! ip = Some a -> al_ContainerId a <> cid.
Proof.
  unfold find_container. rewrite first_match_None. split.
  - intros H ip a Ha. apply elem_of_range_map in Ha. apply H in Ha.
    by apply String.eqb_neq.
  - intros H [ip a] Ha. apply elem_of_range_map in Ha.
    apply String.eqb_neq. by eapply H.
Qed.

Lemma release_pools_ok cid bases ps :
  Forall2 pool_ok bases ps ->
  Forall2 pool_ok bases (release_pools cid ps) /\
  p_Interface <$> release_pools cid ps = p_Interface <$> ps.
Proof.
  induction 1 as [|b p bases ps Hp Hps [IH1 IH2]]; [done|]. simpl.
  destruct (find_container cid p) as [[ip a]|] eqn:E; cycle 1.
  { split; [by constructor|]. by rewrite !fmap_cons, IH2. }
  split; [constructor; [|done]|done].
  apply pool_ok_set; [done|]. intros k [x Hk]. left.
  apply lookup_delete_Some in Hk as [_ Hk]. by eexists.
Qed.

Lemma forward_pools_ok cid fi bases ps ps' :
  Forall2 pool_ok bases ps -> forward_pools cid fi ps = Ok ps' ->
  Forall2 pool_ok bases ps' /\ p_Interface <$> ps' = p_Interface <$> ps.
Proof.
  intros H. revert ps'.
  induction H as [|b p bases ps Hp Hps IH]; intros ps'; simpl; [done|].
  destruct (find_container cid p) as [[ip a]|] eqn:E.
  - intros [= <-]. split; [constructor; [|done]|done].
    apply find_container_Some in E as [E _].
    apply pool_ok_set; [done|]. intros k Hk. left.
    apply lookup_insert_is_Some in Hk as [<-|[_ Hk]]; [by eexists|done].
  - intros H. inv_ok. destruct (IH _ Hv) as [H1 H2]. split; [by constructor|].
    by rewrite !fmap_cons, H2.
Qed.

Lemma Release_keeps cid bases st st' :
  ipam_ok bases st -> Release cid st = Ok (st', tt) -> ipam_ok bases st'.
Proof.
  intros [H1 H2 H3 H4] [= <-].
  destruct (release_pools_ok cid _ _ H1) as [Ho Hi].
  by split; simpl; rewrite ?Hi.
Qed.

Lemma SetForwardInfo_keeps cid s d pr bases st st' :
  ipam_ok bases st -> SetForwardInfo cid s d pr st = Ok (st', tt) -> ipam_ok bases st'.
Proof.
  intros [H1 H2 H3 H4] H. unfold SetForwardInfo in H. inv_ok.
  destruct (forward_pools_ok _ _ _ _ _ H1 Hv) as [Ho Hi].
  by split; simpl; rewrite ?Hi.
Qed.

Lemma RemoveBridge_keeps br bases st st' :
  ipam_ok bases st -> RemoveBridge br st = Ok (st', tt) ->
  exists bases', sublist bases' bases /\ ipam_ok bases' st'.
Proof.
  intros [H1 H2 H3 H4] H. unfold RemoveBridge in H.
  destruct (existsb _ _); [injection H as <-|done].
  destruct (Forall2_filter_r _ (fun p => negb (String.eqb (p_Interface p) br)) _ _ H1)
    as (bases' & Hs & Hf).
  exists bases'. split; [done|]. split; simpl; try done.
  - by eapply sublist_NoDup.
  - eapply sublist_NoDup; [exact H3|]. apply fmap_sublist, sublist_filter.
Qed.
End preservation.

(** ** The configuration the code starts from *)

Definition default_base : Z := 178651136.

Lemma default_prefix n : 16 <= n <= 32 -> is_prefix default_base n.
Proof.
  intros Hn. split; [lia|unfold default_base; lia|].
  change default_base with (2726 * 2 ^ 16). unfold net_size.
  replace (2 ^ 16) with (2 ^ (n - 16) * 2 ^ (32 - n))
    by (rewrite <- Z.pow_add_r by lia; f_equal; lia).
  rewrite Z.mul_assoc. apply Z_mod_mult.
Qed.

Lemma default_pool_ok : pool_ok default_base default_pool.
Proof.
  assert (default_pool = bridge_pool "raind0" default_base) as ->
    by (vm_compute; reflexivity).
  apply bridge_pool_ok, default_prefix. lia.
Qed.

Lemma default_runtime_ok : runtime_ok "10.166.0.0/16" default_base 16.
Proof.
  split; [apply default_prefix; lia|lia|vm_compute; reflexivity|done].
Qed.

Lemma default_state_ok iface addr : ipam_ok [default_base] (default_state iface addr).
Proof.
  split; simpl.
  - constructor; [apply default_pool_ok|constructor].
  - apply NoDup_singleton.
  - apply NoDup_singleton.
  - exists default_base, 16. apply default_runtime_ok.
Qed.

Lemma SetConfig_keeps iface addr bases st st' :
  ipam_ok bases st -> SetConfig_tx iface addr st = Ok (st', tt) ->
  exists bases', ipam_ok bases' st'.
Proof.
  intros [H1 H2 H3 H4] [= <-].
  assert (exists rb rn, runtime_ok "10.166.0.0/16" rb rn)
    by eauto using default_runtime_ok.
  destruct (Pools st) as [|p ps] eqn:E; simpl.
  - exists [default_base]. split; simpl; try done; try apply NoDup_singleton.
    constructor; [apply default_pool_ok|constructor].
  - exists bases. by split.
Qed.

(** ** Executions *)

Section executions.
Context {RO : RangeOrder}.

(** One committed transaction of the store. *)
Inductive ipam_step : IpamState -> IpamState -> Prop :=
  | step_Allocate cid br now st st' ip :
      Allocate cid br now st = Ok (st', ip) -> ipam_step st st'
  | step_Release cid st st' :
      Release cid st = Ok (st', tt) -> ipam_step st st'
  | step_StoreBridge br st st' r :
      StoreBridge br st = Ok (st', r) -> ipam_step st st'
  | step_RemoveBridge br st st' :
      RemoveBridge br st = Ok (st', tt) -> ipam_step st st'
  | step_SetForwardInfo cid s d pr st st' :
      SetForwardInfo cid s d pr st = Ok (st', tt) -> ipam_step st st'
  | step_SetConfig iface addr st st' :
      SetConfig_tx iface addr st = Ok (st', tt) -> ipam_step st st'.

Definition ipam_reachable (st : IpamState) : Prop :=
  exists iface addr, rtc ipam_step (default_state iface addr) st.

Lemma ipam_step_ok st st' :
  ipam_step st st' -> (exists bases, ipam_ok bases st) -> exists bases, ipam_ok bases st'.
Proof.
  intros Hs [bases Hok]. destruct Hs as [? ? ? ? ? ? H|? ? ? H|? ? ? r H|? ? ? H|? ? ? ? ? ? H|? ? ? ? H].
  - destruct (Allocate_ok _ _ _ _ _ _ _ Hok H) as [? _]; eauto.
  - eauto using Release_keeps.
  - pose proof Hok as [_ _ _ (rb & rn & Hr)].
    pose proof (StoreBridge_spec br bases _ rb rn Hok Hr) as Hspec.
    rewrite H in Hspec. destruct r as [s a].
    destruct Hspec as (Hbr & b & Hp & _ & _ & Hb & _ & _ & _ & ->).
    eexists. by apply ipam_ok_snoc.
  - destruct (RemoveBridge_keeps _ _ _ _ Hok H) as (? & _ & ?); eauto.
  - eauto using SetForwardInfo_keeps.
  - eauto using SetConfig_keeps.
Qed.

Lemma ipam_reachable_inv st : ipam_reachable st -> exists bases, ipam_ok bases st.
Proof.
  intros (iface & addr & Hrtc).
  assert (exists bases, ipam_ok bases (default_state iface addr)) as H
    by (eexists; apply default_state_ok).
  revert H. induction Hrtc as [|x y z Hxy _ IH]; [done|].
  intros H. apply IH. by eapply ipam_step_ok.
Qed.

(** A state as an outside observer describes it: the pools carry different
    interfaces, their subnets do not overlap, and every address in use is a
    host of its pool's subnet, not the gateway, and in use in no other
    pool. *)
Record pools_sound (ps : list Pool) : Prop := {
  sound_interfaces : NoDup (p_Interface <$> ps);
  sound_disjoint i j p q np nq ip :
    ps !! i = Some p -> ps !! j = Some q -> i <> j ->
    ParseCIDR (Subnet p) = Some np -> ParseCIDR (Subnet q) = Some nq ->
    is_ipv4 ip -> Contains np ip = true -> Contains nq ip = false;
  sound_hosts p k :
    p ∈ ps -> is_Some (allocs p !! k) ->
    exists net ip, ParseCIDR (Subnet p) = Some net /\ is_ipv4 ip /\
      k = ipv4_String ip /\ Contains net ip = true /\
      ip <> To4 (net_ip net) /\ ip <> broadcastIPv4 net /\
      To4 (ParseIP (split_head "/" (Address p))) <> ip;
  sound_unique i j p q k :
    ps !! i = Some p -> ps !! j = Some q ->
    is_Some (allocs p !! k) -> is_Some (allocs q !! k) -> i = j
}.

Lemma slash24_disjoint a b v :
  is_prefix a 24 -> is_prefix b 24 -> a <> b ->
  a <= v < a + 256 -> ~ (b <= v < b + 256).
Proof.
  intros [_ _ Ha] [_ _ Hb]. change (net_size 24) with 256 in *.
  intros. Z.to_euclidean_division_equations; lia.
Qed.

Lemma ipam_ok_sound bases st : ipam_ok bases st -> pools_sound (Pools st).
Proof.
  intros [Hps Hnd Hif _]. split; [done|..].
  - intros i j p q np nq ip Hi Hj Hne Hnp Hnq Hip Hin.
    destruct (Forall2_lookup_r _ _ _ _ _ Hps Hi) as (b & Hbi & Hp).
    destruct (Forall2_lookup_r _ _ _ _ _ Hps Hj) as (c & Hcj & Hq).
    rewrite (pool_subnet _ _ Hp) in Hnp. rewrite (pool_subnet _ _ Hq) in Hnq.
    injection Hnp as <-. injection Hnq as <-.
    pose proof (pool_prefix _ _ Hp) as Pb. pose proof (pool_prefix _ _ Hq) as Pc.
    apply Contains_net4 in Hin; [|done..]. apply not_true_iff_false.
    intros Hin'. apply Contains_net4 in Hin'; [|done..].
    eapply (slash24_disjoint b c); [done|done| |exact Hin|exact Hin'].
    intros ->. apply Hne. exact (NoDup_lookup bases i j _ Hnd Hbi Hcj).
  - intros p k (i & Hi)%list_elem_of_lookup Hk.
    destruct (Forall2_lookup_r _ _ _ _ _ Hps Hi) as (b & Hbi & Hp).
    destruct (pool_keys _ _ Hp k Hk) as (a & Ha & -> & Hr & Hg).
    pose proof (pool_prefix _ _ Hp) as Pb. pose proof (prefix_range _ _ Pb) as Hbr.
    destruct (broadcast_net4 _ _ Pb) as [_ Hbv].
    exists (net4 b 24), a. split_and!; try done.
    + apply (pool_subnet _ _ Hp).
    + apply Contains_net4; [done..|]. change (net_size 24) with 256. lia.
    + cbn [net_ip net4]. rewrite To4_ipv4 by apply ipv4_bytes_ok. intros ->.
      rewrite ipv4_val_bytes in Hr by lia. lia.
    + intros ->. rewrite Hbv in Hr. change (net_size 24) with 256 in Hr. lia.
  - intros i j p q k Hi Hj Hp Hq. destruct (decide (i = j)) as [|Hne]; [done|].
    destruct (Forall2_lookup_r _ _ _ _ _ Hps Hi) as (b & Hbi & Hpo).
    destruct (Forall2_lookup_r _ _ _ _ _ Hps Hj) as (c & Hcj & Hqo).
    assert (b <> c) as Hbc by (intros ->; apply Hne; exact (NoDup_lookup bases i j _ Hnd Hbi Hcj)).
    rewrite (pool_keys_disjoint b c p q k) in Hq by done. by destruct Hq.
Qed.
End executions.

(** ** What each transaction answers *)

Section answers.
Context {RO : RangeOrder}.

(** The addresses that [p] may hand out. *)
Definition host_of (p : Pool) (ip : IP) : Prop :=
  is_ipv4 ip /\ exists net, ParseCIDR (Subnet p) = Some net /\
    Contains net ip = true /\ ip <> To4 (net_ip net) /\ ip <> broadcastIPv4 net /\
    To4 (ParseIP (split_head "/" (Address p))) <> ip.

Lemma host_of_iff b p ip :
  pool_ok b p ->
  host_of p ip <->
  is_ipv4 ip /\ b < ipv4_val ip < b + net_size 24 - 1 /\
  To4 (ParseIP (split_head "/" (Address p))) <> ip.
Proof.
  intros Hp. pose proof (pool_prefix _ _ Hp) as Pb.
  pose proof (prefix_range _ _ Pb) as Hbr. pose proof (prefix_end _ _ Pb) as He.
  destruct (broadcast_net4 _ _ Pb) as [Hbi Hbv].
  unfold host_of. rewrite (pool_subnet _ _ Hp). change (net_size 24) with 256 in *.
  split.
  - intros (Hi & ? & [= <-] & Hc & Hn & Hb & Hg). split_and!; try done.
    + apply Contains_net4 in Hc; [|done..]. change (net_size 24) with 256 in Hc.
      cbn [net_ip net4] in Hn. rewrite To4_ipv4 in Hn by apply ipv4_bytes_ok.
      assert (ipv4_val ip <> b); [|lia].
      intros E. apply Hn. by rewrite <- E, ipv4_bytes_val.
    + apply Contains_net4 in Hc; [|done..]. change (net_size 24) with 256 in Hc.
      assert (ipv4_val ip <> b + 256 - 1); [|lia].
      intros E. apply Hb. apply ipv4_val_inj; [done..|]. lia.
  - intros (Hi & Hr & Hg). split; [done|]. exists (net4 b 24). split_and!; try done.
    + apply Contains_net4; [done..|]. change (net_size 24) with 256. lia.
    + cbn [net_ip net4]. rewrite To4_ipv4 by apply ipv4_bytes_ok. intros ->.
      rewrite ipv4_val_bytes in Hr; lia.
    + intros ->. lia.
Qed.

Lemma free_host_of b p m ip :
  pool_ok b p ->
  free_host b 24 (To4 (ParseIP (split_head "/" (Address p)))) m ip <->
  host_of p ip /\ m !! ipv4_String ip = None.
Proof.
  intros Hp. rewrite (host_of_iff _ _ _ Hp). split.
  - intros [? ? [? ?] ?]. done.
  - intros [(? & ? & ?) ?]. split; try done.
    split; [|done]. by rewrite (To4_ipv4 (To4 _)) by apply Hp.
Qed.

(** The pool loop on a well-formed table, on every branch. *)
Lemma allocate_pools_answer cid br now bases ps :
  Forall2 pool_ok bases ps ->
  match allocate_pools cid br now ps with
  | Ok (ps', ipStr) => exists i p ip,
      ps !! i = Some p /\ p_Interface p = br /\ ipStr = ipv4_String ip /\
      host_of p ip /\ allocs p !! ipStr = None /\
      (forall ip', host_of p ip' -> allocs p !! ipv4_String ip' = None ->
         ipv4_val ip <= ipv4_val ip') /\
      ps' = <[i := set_Allocations p
        (<[ipStr := {| al_ContainerId := cid; al_Interface := "rd_" +:+ cid;
                       Forwards := []; AssignedAt := now |}]> (allocs p))]> ps
  | Err _ => br ∉ p_Interface <$> ps \/
      exists p, p ∈ ps /\ p_Interface p = br /\
        forall ip, host_of p ip -> is_Some (allocs p !! ipv4_String ip)
  | Panic _ => False
  end.
Proof.
  induction 1 as [|b p bases ps Hp Hps IH]; simpl.
  { left. apply not_elem_of_nil. }
  destruct (String.eqb_spec (p_Interface p) br) as [Hbr|Hbr]; cycle 1.
  { destruct (allocate_pools cid br now ps) as [[ps' ip]|e|e]; cbn [mbind res_bind].
    - destruct IH as (i & q & IH). exists (S i), q. naive_solver.
    - destruct IH as [IH|(q & Hq & IH)]; [left|right].
      + by apply not_elem_of_cons.
      + exists q. split; [by right|done].
    - done. }
  destruct (pool_configured _ _ Hp) as [Hs Ha].
  apply String.eqb_neq in Hs, Ha. rewrite Hs, Ha. cbn [orb].
  pose proof (pool_gateway _ _ Hp) as Hg. destruct (is_nil _) eqn:Enil.
  { exfalso. destruct Hg as [Hl _]. by destruct (To4 _). }
  rewrite (pool_subnet _ _ Hp). destruct (pool_map _ _ Hp) as [m Hm]. rewrite Hm.
  assert (allocs p = m) as Ham by (unfold allocs; by rewrite Hm). rewrite Ham.
  pose proof (findFreeIpv4_spec b 24 (To4 (ParseIP (split_head "/" (Address p)))) m
    (pool_prefix _ _ Hp)) as Hspec.
  specialize (Hspec ltac:(lia) ltac:(lia)).
  destruct (findFreeIpv4 _ _ _) as [ip|e|e]; cbn [mbind res_bind]; [| |done].
  - destruct Hspec as [[Hh Hf]%(free_host_of _ _ _ _ Hp) Hlow].
    exists O, p, ip. rewrite Ham. split_and!; try done.
    intros ip' Hh' Hf'. apply Hlow. by apply free_host_of.
  - right. exists p. split_and!; [by left|done|]. intros ip Hh. rewrite Ham.
    destruct (m !! ipv4_String ip) eqn:E; [by eexists|].
    exfalso. apply (Hspec ip). by apply free_host_of.
Qed.

(** The runtime subnet never changes. *)
Lemma ipam_reachable_runtime st :
  ipam_reachable st -> RuntimeSubnet st = "10.166.0.0/16".
Proof.
  intros (iface & addr & H).
  enough (RuntimeSubnet (default_state iface addr) = "10.166.0.0/16" ->
    RuntimeSubnet st = "10.166.0.0/16") as Hx by (by apply Hx).
  induction H as [|x y z Hxy _ IH]; [done|]. intros Hx. apply IH.
  destruct Hxy as [? ? ? ? ? ? H|? ? ? H|? ? ? r H|? ? ? H|? ? ? ? ? ? H|? ? ? ? H].
  - unfold Allocate in H. inv_ok. destruct v. by injection H as <- _.
  - by injection H as <-.
  - unfold StoreBridge in H. repeat (case_in H; try done).
    all: unfold mbind, res_bind in H; repeat (case_in H; try done);
      by injection H as <- _.
  - unfold RemoveBridge in H. case_in H; [by injection H as <-|done].
  - unfold SetForwardInfo in H. inv_ok. done.
  - by injection H as <-.
Qed.

Lemma StoreBridge_answer br bases st :
  ipam_ok bases st -> RuntimeSubnet st = "10.166.0.0/16" ->
  match StoreBridge br st with
  | Ok (st', (subnet, addr)) =>
      br ∉ p_Interface <$> Pools st /\
      exists k, 0 <= k < 256 /\ default_base + 256 * k ∉ bases /\
        (forall j, 0 <= j < k -> default_base + 256 * j ∈ bases) /\
        subnet = Subnet (bridge_pool br (default_base + 256 * k)) /\
        addr = Address (bridge_pool br (default_base + 256 * k)) /\
        st' = set_Pools st (Pools st ++ [bridge_pool br (default_base + 256 * k)])
  | Err _ => br ∈ p_Interface <$> Pools st \/ 256 <= Z.of_nat (length (Pools st))
  | Panic _ => False
  end.
Proof.
  intros Hok Hrt.
  assert (runtime_ok (RuntimeSubnet st) default_base 16) as Hr
    by (rewrite Hrt; apply default_runtime_ok).
  pose proof (StoreBridge_spec br bases st default_base 16 Hok Hr) as Hspec.
  assert (net_size 16 = 65536) as Hsz by reflexivity.
  assert (forall k, 0 <= k < 256 -> is_prefix (default_base + 256 * k) 24) as Hk.
  { intros k Hk. split; [lia|unfold default_base; lia|].
    change (net_size 24) with 256. rewrite Z.mul_comm, Z_mod_plus_full. done. }
  destruct (StoreBridge br st) as [[st' [subnet addr]]|e|e]; [| |done].
  - destruct Hspec as (Hbr & b & Hp & Hl & Hu & Hb & Hlow & -> & -> & ->).
    split; [done|]. destruct Hp as [_ _ Hb24]. change (net_size 24) with 256 in Hb24.
    assert (b = default_base + 256 * ((b - default_base) / 256)) as Eb
      by (unfold default_base in *; Z.to_euclidean_division_equations; lia).
    exists ((b - default_base) / 256). rewrite <- Eb.
    split_and!; try done; try (Z.to_euclidean_division_equations; lia).
    intros j Hj. apply Hlow; [apply Hk|]; Z.to_euclidean_division_equations; lia.
  - destruct Hspec as [Hbr|Hall]; [by left|right].
    rewrite <- (Forall2_length _ _ _ (ok_pools _ _ Hok)).
    set (l := (fun k => default_base + 256 * Z.of_nat k) <$> seq 0 256).
    change 256 with (Z.of_nat (length l)). apply inj_le, NoDup_incl_length.
    + apply NoDup_ListNoDup, NoDup_fmap_2; [|apply NoDup_seq].
      intros x y. lia.
    + intros b (k & -> & Hin)%list_elem_of_In%list_elem_of_fmap.
      apply elem_of_seq in Hin. apply list_elem_of_In, Hall; [apply Hk|]; lia.
Qed.

(** [Release] undoes [Allocate]. *)
Lemma release_allocated cid ps i p ip a :
  ps !! i = Some p -> Allocations p <> None ->
  (forall q, q ∈ ps -> find_container cid q = None) ->
  allocs p !! ip = None -> al_ContainerId a = cid ->
  release_pools cid (<[i := set_Allocations p (<[ip := a]> (allocs p))]> ps) = ps.
Proof.
  revert i. induction ps as [|q ps IH]; intros i Hi Hnil Hno Hfree Ha; [done|].
  destruct i as [|i]; simpl in Hi.
  - injection Hi as ->. simpl.
    destruct (find_container _ _) as [[ip' a']|] eqn:E.
    + pose proof E as [Hin He]%find_container_Some. rewrite allocs_set in Hin |- *.
      destruct (decide (ip = ip')) as [<-|Hne].
      * rewrite delete_insert_id by done. unfold set_Allocations, allocs.
        destruct p as [? ? ? [m|]]; done.
      * rewrite lookup_insert_ne in Hin by done.
        assert (find_container cid p = None) as Hn by (apply Hno; by left).
        rewrite find_container_None in Hn. by apply Hn in Hin.
    + rewrite find_container_None in E. exfalso. apply (E ip a); [|done].
      rewrite allocs_set. apply lookup_insert_eq.
  - simpl. rewrite (Hno q) by (by left).
    rewrite IH; try done. intros r Hr. apply Hno. by right.
Qed.

Lemma locate_None cid ps :
  locate cid ps = None <-> forall p, p ∈ ps -> find_container cid p = None.
Proof.
  induction ps as [|p ps IH]; simpl.
  - split; [|done]. intros _ p Hp. by apply not_elem_of_nil in Hp.
  - setoid_rewrite elem_of_cons. destruct (find_container cid p) eqn:E.
    + split; [done|]. intros H. rewrite (H p) in E by auto. done.
    + rewrite IH. naive_solver.
Qed.

Lemma GetInfoByIp_pools_found ip ps i p a :
  ps !! i = Some p -> allocs p !! ip = Some a ->
  (forall j q, (j < i)%nat -> ps !! j = Some q -> allocs q !! ip = None) ->
  GetInfoByIp_pools ip ps = Ok (al_ContainerId a, al_Interface a).
Proof.
  revert i. induction ps as [|q ps IH]; intros i Hi Ha Hb; [done|].
  destruct i as [|i]; simpl in *.
  - injection Hi as ->. by rewrite Ha.
  - rewrite (Hb O q) by (lia || done). eapply IH; [done..|].
    intros j r Hj Hr. apply (Hb (S j)); [lia|done].
Qed.
End answers.

(** ** The properties *)

Section properties.
Context {RO : RangeOrder}.

(** C21: in every state that the transactions reach from the default one,
    the bridges have different interfaces and non-overlapping subnets, and
    every address in use is a host address of its own subnet (never the
    network, broadcast or gateway address) that no other pool has in use. *)
Theorem ipam_pools_sound st : ipam_reachable st -> pools_sound (Pools st).
Proof.
  intros [bases H]%ipam_reachable_inv. by eapply ipam_ok_sound.
Qed.

(** In every reachable state [Allocate] hands out the lowest host
    address of the bridge's subnet that is not in use, records it for the
    container and changes nothing else; it fails only when the bridge is
    unknown or its subnet has no free host address, and never panics. *)
Theorem Allocate_correct cid br now st :
  ipam_reachable st ->
  match Allocate cid br now st with
  | Ok (st', ipStr) => exists i p ip,
      Pools st !! i = Some p /\ p_Interface p = br /\ ipStr = ipv4_String ip /\
      host_of p ip /\ allocs p !! ipStr = None /\
      (forall ip', host_of p ip' -> allocs p !! ipv4_String ip' = None ->
         ipv4_val ip <= ipv4_val ip') /\
      st' = set_Pools st (<[i := set_Allocations p
        (<[ipStr := {| al_ContainerId := cid; al_Interface := "rd_" +:+ cid;
                       Forwards := []; AssignedAt := now |}]> (allocs p))]> (Pools st))
  | Err _ => br ∉ p_Interface <$> Pools st \/
      exists p, p ∈ Pools st /\ p_Interface p = br /\
        forall ip, host_of p ip -> is_Some (allocs p !! ipv4_String ip)
  | Panic _ => False
  end.
Proof.
  intros [bases H]%ipam_reachable_inv. unfold Allocate.
  pose proof (allocate_pools_answer cid br now bases _ (ok_pools _ _ H)) as Ha.
  destruct (allocate_pools _ _ _ _) as [[ps ip]|e|e]; [|done..].
  destruct Ha as (i & p & a & ? & ? & ? & ? & ? & ? & ->). by exists i, p, a.
Qed.

(** C22: in every reachable state [StoreBridge] with a new interface and
    fewer than 256 bridges succeeds: it appends a pool with no address in
    use on the first /24 of 10.166.0.0/16 that no pool has, with the
    gateway at .254, and returns that subnet and address. *)
Theorem StoreBridge_correct br st :
  ipam_reachable st -> br ∉ p_Interface <$> Pools st ->
  (length (Pools st) < 256)%nat ->
  exists k, 0 <= k < 256 /\
    let p := bridge_pool br (default_base + 256 * k) in
    StoreBridge br st = Ok (set_Pools st (Pools st ++ [p]), (Subnet p, Address p)) /\
    Subnet p ∉ Subnet <$> Pools st /\
    forall q net, q ∈ Pools st -> ParseCIDR (Subnet q) = Some net ->
      Contains net (ipv4_bytes (default_base + 256 * k)) = false.
Proof.
  intros Hr Hbr Hlen. pose proof (ipam_reachable_runtime _ Hr) as Hrt.
  apply ipam_reachable_inv in Hr as [bases H].
  pose proof (StoreBridge_answer br bases st H Hrt) as Ha.
  destruct (StoreBridge br st) as [[st' [s a]]|e|e]; [|destruct Ha; [done|lia]|done].
  destruct Ha as (_ & k & Hk & Hb & _ & -> & -> & ->). exists k. split; [done|].
  assert (is_prefix (default_base + 256 * k) 24) as Hp.
  { split; [lia|unfold default_base; lia|]. change (net_size 24) with 256.
    rewrite Z.mul_comm, Z_mod_plus_full. done. }
  pose proof (prefix_range _ _ Hp) as Hr'.
  assert (forall q net, q ∈ Pools st -> ParseCIDR (Subnet q) = Some net ->
      Contains net (ipv4_bytes (default_base + 256 * k)) = false) as Hno.
  { intros q net (j & Hj)%list_elem_of_lookup Hn.
    destruct (Forall2_lookup_r _ _ _ _ _ (ok_pools _ _ H) Hj) as (b & Hbj & Hq).
    rewrite (pool_subnet _ _ Hq) in Hn. injection Hn as <-.
    apply not_true_iff_false. intros Hc.
    apply Contains_net4 in Hc; [|apply Hq|apply ipv4_bytes_ok].
    rewrite ipv4_val_bytes in Hc by lia. change (net_size 24) with 256 in Hc.
    eapply (slash24_disjoint (default_base + 256 * k) b); [done|apply Hq| | |exact Hc];
      [|lia].
    intros E. apply Hb. rewrite E. by eapply list_elem_of_lookup_2. }
  split; [done|]. split; [|done].
  intros (q & Hs & Hq)%list_elem_of_fmap.
  pose proof (pool_subnet _ _ (bridge_pool_ok br _ Hp)) as Hsub. rewrite Hs in Hsub.
  pose proof (Hno q _ Hq Hsub) as Hc. apply not_true_iff_false in Hc. apply Hc.
  apply Contains_net4; [done|apply ipv4_bytes_ok|].
  rewrite ipv4_val_bytes by lia. change (net_size 24) with 256. lia.
Qed.

(** [findFreeIpv4] on any IPv4 subnet of prefix /8 to /31 returns the
    lowest host address that is neither the gateway nor in use, and an error
    exactly when there is none: the bound of [1<<24] rounds is enough. *)
Theorem findFreeIpv4_correct base n gateway alloc :
  is_prefix base n -> 8 <= n <= 31 ->
  match findFreeIpv4 (net4 base n) gateway alloc with
  | Ok ip => free_host base n gateway alloc ip /\
      forall ip', free_host base n gateway alloc ip' -> ipv4_val ip <= ipv4_val ip'
  | Err _ => forall ip, ~ free_host base n gateway alloc ip
  | Panic _ => False
  end.
Proof. intros Hp Hn. apply findFreeIpv4_spec; lia || done. Qed.

(** Releasing a container right after its first allocation gives back
    the state before it, whatever the order in which maps are ranged over. *)
Theorem Release_undoes_Allocate cid br now st st' ip :
  ipam_reachable st ->
  locate cid (Pools st) = None ->
  Allocate cid br now st = Ok (st', ip) ->
  Release cid st' = Ok (st, tt).
Proof.
  intros [bases H]%ipam_reachable_inv Hno Ha.
  destruct (Allocate_ok _ _ _ _ _ _ _ H Ha) as (_ & Hfree & i & p & Hi & _ & ->).
  pose proof (Forall2_lookup_r _ _ _ _ _ (ok_pools _ _ H) Hi) as (b & _ & Hp).
  unfold Release. cbn [Pools set_Pools]. rewrite release_allocated; try done.
  - by destruct st.
  - by destruct (pool_map _ _ Hp) as [m ->].
  - by apply locate_None.
  - apply Hfree. by eapply list_elem_of_lookup_2.
Qed.

(** After a successful [Allocate] the address leads back to the
    container and its interface ([GetInfoByIp]). *)
Theorem GetInfoByIp_Allocate cid br now st st' ip :
  ipam_reachable st ->
  Allocate cid br now st = Ok (st', ip) ->
  GetInfoByIp ip st' = Ok (cid, "rd_" +:+ cid).
Proof.
  intros [bases H]%ipam_reachable_inv Ha.
  destruct (Allocate_ok _ _ _ _ _ _ _ H Ha) as (_ & Hfree & i & p & Hi & _ & ->).
  unfold GetInfoByIp. cbn [Pools set_Pools].
  erewrite (GetInfoByIp_pools_found _ _ i).
  2: { apply list_lookup_insert_eq. by eapply lookup_lt_Some. }
  2: { rewrite allocs_set. apply lookup_insert_eq. }
  { reflexivity. }
  intros j q Hj Hq. rewrite list_lookup_insert_ne in Hq by lia.
  apply Hfree. by eapply list_elem_of_lookup_2.
Qed.

(** The byte-wise address arithmetic is arithmetic on 32-bit integers,
    wrapping around at the end of the address space: [incIP] adds 1,
    [ipv4Add] adds its argument, and [broadcastIPv4] is the last address of
    the network. *)
Theorem address_arithmetic :
  (forall ip, is_ipv4 ip -> is_ipv4 (incIP ip) /\
     ipv4_val (incIP ip) = (ipv4_val ip + 1) mod 2 ^ 32) /\
  (forall ip n, is_ipv4 ip -> is_ipv4 (ipv4Add ip n) /\
     ipv4_val (ipv4Add ip n) = (ipv4_val ip + n) mod 2 ^ 32) /\
  (forall base n, is_prefix base n -> is_ipv4 (broadcastIPv4 (net4 base n)) /\
     ipv4_val (broadcastIPv4 (net4 base n)) = base + net_size n - 1).
Proof.
  split_and!.
  - auto using incIP_ipv4, incIP_val.
  - intros ip n H. rewrite ipv4Add_bytes by done.
    pose proof (Z.mod_pos_bound (ipv4_val ip + n) (2 ^ 32) ltac:(lia)).
    split; [apply ipv4_bytes_ok|by rewrite ipv4_val_bytes].
  - apply broadcast_net4.
Qed.

(** [loadOrInit] does not repair a pool whose address map is missing,
    and [Allocate] on such a pool assigns to a nil map. *)
Theorem repair_leaves_nil_map st p ps cid now net ip :
  Pools st = p :: ps -> Allocations p = None ->
  Subnet p <> "" -> Address p <> "" ->
  To4 (ParseIP (split_head "/" (Address p))) <> [] ->
  ParseCIDR (Subnet p) = Some net ->
  findFreeIpv4 net (To4 (ParseIP (split_head "/" (Address p)))) ∅ = Ok ip ->
  Allocate cid (p_Interface p) now (repair st) =
    Panic "assignment to entry in nil map".
Proof.
  intros Hps Hn Hs%String.eqb_neq Ha%String.eqb_neq Hg Hc Hf.
  unfold Allocate, repair. rewrite Hps. simpl. rewrite String.eqb_refl, Hs, Ha.
  cbn [orb]. destruct (To4 _) as [|b l] eqn:E; [done|]. cbn [is_nil].
  rewrite Hc. unfold allocs. rewrite Hn. simpl. by rewrite Hf.
Qed.
End properties.

(** ** The properties on concrete states *)

Definition demo : IpamState := default_state "eth0" "192.0.2.10/24".

(** The state that an operation leaves. *)
Definition left {A} (m : res (IpamState * A)) : IpamState :=
  match m with Ok (st, _) => st | _ => demo end.

Definition demo1 : IpamState := left (Allocate "c1" "raind0" 7 demo).
Definition demo2 : IpamState := left (StoreBridge "br1" demo1).

Lemma demo_reachable : ipam_reachable demo.
Proof. exists "eth0", "192.0.2.10/24". apply rtc_refl. Qed.

Lemma demo2_reachable : ipam_reachable demo2.
Proof.
  exists "eth0", "192.0.2.10/24". apply rtc_l with demo1.
  - apply (step_Allocate "c1" "raind0" 7 _ _ "10.166.0.1"). vm_compute. reflexivity.
  - apply rtc_once. apply (step_StoreBridge "br1" _ _ ("10.166.1.0/24", "10.166.1.254/24")).
    vm_compute. reflexivity.
Qed.

Example ipam_pools_sound_witness : ipam_reachable demo2 /\ pools_sound (Pools demo2).
Proof. split; [exact demo2_reachable|apply ipam_pools_sound, demo2_reachable]. Defined.

Example Allocate_correct_witness :
  ipam_reachable demo2 /\
  exists p ip, "10.166.1.1" = ipv4_String ip /\ p_Interface p = "br1" /\ host_of p ip /\
    forall ip', host_of p ip' -> allocs p !! ipv4_String ip' = None ->
      ipv4_val ip <= ipv4_val ip'.
Proof.
  split; [exact demo2_reachable|].
  pose proof (Allocate_correct "c2" "br1" 8 demo2 demo2_reachable) as H.
  assert (Allocate "c2" "br1" 8 demo2 =
    Ok (left (Allocate "c2" "br1" 8 demo2), "10.166.1.1")) as E
    by (vm_compute; reflexivity).
  rewrite E in H. destruct H as (i & p & ip & _ & Hi & Hs & Hh & _ & Hl & _).
  exists p, ip. split; [exact Hs|]. split; [exact Hi|]. split; [exact Hh|exact Hl].
Defined.

Example StoreBridge_correct_witness :
  exists k, 0 <= k < 256 /\
    StoreBridge "br2" demo2 =
      Ok (set_Pools demo2 (Pools demo2 ++ [bridge_pool "br2" (default_base + 256 * k)]),
          (Subnet (bridge_pool "br2" (default_base + 256 * k)),
           Address (bridge_pool "br2" (default_base + 256 * k)))).
Proof.
  destruct (StoreBridge_correct "br2" demo2 demo2_reachable) as (k & Hk & H & _).
  - apply not_elem_of_cons. split; [vm_compute; congruence|].
    apply not_elem_of_cons. split; [vm_compute; congruence|apply not_elem_of_nil].
  - vm_compute. lia.
  - exists k. split; [exact Hk|exact H].
Defined.

Example findFreeIpv4_correct_witness :
  is_prefix default_base 24 /\
  free_host default_base 24 (ipv4_bytes (default_base + 254)) ∅
    (ipv4_bytes (default_base + 1)).
Proof.
  split; [apply default_prefix; lia|].
  assert (findFreeIpv4 (net4 default_base 24) (ipv4_bytes (default_base + 254)) ∅ =
    Ok (ipv4_bytes (default_base + 1))) as E by (vm_compute; reflexivity).
  pose proof (findFreeIpv4_correct default_base 24 (ipv4_bytes (default_base + 254)) ∅
    ltac:(apply default_prefix; lia) ltac:(lia)) as H.
  rewrite E in H. apply H.
Defined.

Example Release_undoes_Allocate_witness :
  Release "c2" (left (Allocate "c2" "br1" 8 demo2)) = Ok (demo2, tt).
Proof.
  apply (Release_undoes_Allocate "c2" "br1" 8 demo2 _ "10.166.1.1").
  - exact demo2_reachable.
  - vm_compute. reflexivity.
  - vm_compute. reflexivity.
Defined.

Example GetInfoByIp_Allocate_witness :
  GetInfoByIp "10.166.1.1" (left (Allocate "c2" "br1" 8 demo2)) = Ok ("c2", "rd_c2").
Proof.
  apply (GetInfoByIp_Allocate "c2" "br1" 8 demo2).
  - exact demo2_reachable.
  - vm_compute. reflexivity.
Defined.

(** The default state as it is read back from a file whose pool has no
    [allocations] field. *)
Definition nil_map_demo : IpamState :=
  set_Pools demo [{| p_Interface := "raind0"; Subnet := "10.166.0.0/24";
                     Address := "10.166.0.254/24"; Allocations := None |}].

Example repair_leaves_nil_map_witness :
  Allocate "c1" "raind0" 7 (repair nil_map_demo) = Panic "assignment to entry in nil map".
Proof.
  apply (repair_leaves_nil_map nil_map_demo
    {| p_Interface := "raind0"; Subnet := "10.166.0.0/24";
       Address := "10.166.0.254/24"; Allocations := None |} [] "c1" 7
    (net4 default_base 24) (ipv4_bytes (default_base + 1)));
    first [reflexivity | discriminate | vm_compute; reflexivity | vm_compute; discriminate].
Defined.
