(* ===== verification/Ssm.v ===== *)
(** * Services ([store/ssm])

    The service table: its transactions, the allocation of cluster addresses
    from the service network, and the invariant on them. *)

From Stdlib Require Import ZArith Lia Ascii String.
From stdpp Require Import base gmap strings pretty list relations.
From S2P Require Import Prelude.
From S2P Require Import GoString.
From S2P Require Import GoNet.
From S2P Require Import Persist.
From S2P Require Import Ipam.
From S2P Require Import IpamTheory.
Open Scope Z_scope.

(** ** Data ([model.go]) *)

Record ServicePort := {
  sp_Port : Z;
  TargetPort : Z;
  sp_Protocol : string
}.

Record ServiceInfo := {
  ServiceId : string;
  sv_Name : string;
  sv_Namespace : string;
  sv_Type : string;
  ClusterIP : string;
  Selector : gmap string string;
  sv_Ports : list ServicePort;
  sv_CreatedAt : Z
}.

Record ServiceState := {
  sv_Version : string;
  Services : gmap string ServiceInfo
}.

Definition set_Services (st : ServiceState) (m : gmap string ServiceInfo) : ServiceState :=
  {| sv_Version := sv_Version st; Services := m |}.

Definition set_Type (s : ServiceInfo) (t : string) : ServiceInfo :=
  {| ServiceId := ServiceId s; sv_Name := sv_Name s; sv_Namespace := sv_Namespace s;
     sv_Type := t; ClusterIP := ClusterIP s; Selector := Selector s;
     sv_Ports := sv_Ports s; sv_CreatedAt := sv_CreatedAt s |}.

Definition set_ClusterIP (s : ServiceInfo) (ip : string) : ServiceInfo :=
  {| ServiceId := ServiceId s; sv_Name := sv_Name s; sv_Namespace := sv_Namespace s;
     sv_Type := sv_Type s; ClusterIP := ip; Selector := Selector s;
     sv_Ports := sv_Ports s; sv_CreatedAt := sv_CreatedAt s |}.

Definition ServiceTypeNodePort : string := "NodePort".
Definition ServiceTypeClusterIP : string := "ClusterIP".
Definition DefaultServiceCIDR : string := "10.166.255.0/24".

(** ** Operations ([ssm.go]) *)

Definition NormalizeServiceType (t : string) : string :=
  let l := toLower (trimSpace t) in
  if String.eqb l "" || String.eqb l "clusterip" then ServiceTypeClusterIP
  else if String.eqb l "nodeport" then ServiceTypeNodePort
  else t.

Definition broadcastIPv4 (n : IPNet) : IP :=
  zip_with (fun b m => Z.lor b (255 - m)) (take 4 (To4 (net_ip n))) (take 4 (net_mask n)).

(** [incIPv4]: increment from the last byte on, while a byte wraps to 0;
    [i] counts the bytes left. *)
Fixpoint incIPv4_from (i : nat) (out : IP) : IP :=
  match i with
  | O => out
  | S j => let b := (out !!! j + 1) mod 256 in
           let out := <[j := b]> out in
           if b =? 0 then incIPv4_from j out else out
  end.
Definition incIPv4 (ip : IP) : IP := incIPv4_from (length ip) ip.

Definition isReservedClusterIP (ipnet : IPNet) (ip : IP) : bool :=
  IP_Equal ip (To4 (net_ip ipnet)) || IP_Equal ip (broadcastIPv4 ipnet).

(** One round of the address loop; [None]: the loop ran out of the network. *)
Definition clusterIP_step (ipnet : IPNet) (used : gset string) (ip : IP)
    : IP + option IP :=
  if Contains ipnet ip then
    if isReservedClusterIP ipnet ip then inl (incIPv4 ip)
    else if decide (ipv4_String ip ∈ used) then inl (incIPv4 ip)
    else inr (Some ip)
  else inr None.

(** Rounds before the model gives the loop up as endless; the service network
    is a /24. *)
Definition clusterIP_fuel : positive := 256.

Section manager.
Context {RO : RangeOrder}.
Implicit Types st : ServiceState.

Definition usedClusterIPs st : gset string :=
  list_to_set (filter (fun ip => ip <> "") (ClusterIP <$> (range_map (Services st)).*2)).

Definition allocateClusterIP st (requested : string) : res string :=
  match ParseCIDR DefaultServiceCIDR with
  | None => Err "invalid CIDR address"
  | Some ipnet =>
      let used := usedClusterIPs st in
      if negb (String.eqb requested "") then
        let ip := To4 (ParseIP requested) in
        if is_nil ip then Err ("invalid clusterIP: " +:+ requested) else
        if negb (Contains ipnet ip)
        then Err ("clusterIP " +:+ requested +:+ " is outside service CIDR " +:+
                  DefaultServiceCIDR) else
        if isReservedClusterIP ipnet ip
        then Err ("clusterIP " +:+ requested +:+ " is reserved") else
        if decide (ipv4_String ip ∈ used)
        then Err ("clusterIP " +:+ requested +:+ " is already allocated")
        else Ok (ipv4_String ip)
      else
        match iter_until (clusterIP_step ipnet used) clusterIP_fuel
                (incIPv4 (To4 (net_ip ipnet))) with
        | inl _ => Panic "endless loop"
        | inr None => Err ("no available clusterIP in service CIDR " +:+ DefaultServiceCIDR)
        | inr (Some ip) => Ok (ipv4_String ip)
        end
  end.

Definition StoreService (serviceId : string) (spec : ServiceInfo) (now : Z) st
    : res (ServiceState * unit) :=
  let spec := {| ServiceId := serviceId; sv_Name := sv_Name spec;
                 sv_Namespace := sv_Namespace spec;
                 sv_Type := NormalizeServiceType (sv_Type spec);
                 ClusterIP := ClusterIP spec; Selector := Selector spec;
                 sv_Ports := sv_Ports spec; sv_CreatedAt := now |} in
  if negb (String.eqb (sv_Type spec) ServiceTypeNodePort) &&
     negb (String.eqb (sv_Type spec) ServiceTypeClusterIP)
  then Err ("unsupported service type: " +:+ sv_Type spec) else
  spec ← (if String.eqb (sv_Type spec) ServiceTypeClusterIP
          then set_ClusterIP spec <$> allocateClusterIP st (ClusterIP spec)
          else Ok spec);
  Ok (set_Services st (<[serviceId := spec]> (Services st)), tt).

Definition GetServiceList st : res (list ServiceInfo) :=
  Ok ((fun s => set_Type s (NormalizeServiceType (sv_Type s))) <$>
        (range_map (Services st)).*2).

Definition GetServiceById (serviceId : string) st : res ServiceInfo :=
  match Services st !! serviceId with
  | None => Err ("serviceId=" +:+ serviceId +:+ " not found")
  | Some s => Ok (set_Type s (NormalizeServiceType (sv_Type s)))
  end.

Definition RemoveService (serviceId : string) st : res (ServiceState * unit) :=
  match Services st !! serviceId with
  | None => Err ("serviceId=" +:+ serviceId +:+ " not found")
  | Some _ => Ok (set_Services st (delete serviceId (Services st)), tt)
  end.

(** The error of the lock is dropped: [false] when the store cannot be read. *)
Definition IsNameAlreadyUsed (name namespace : string) st : res bool :=
  Ok (existsb (fun s => String.eqb (sv_Name s) name &&
                        String.eqb (sv_Namespace s) namespace)
        (range_map (Services st)).*2).
End manager.

(** ** The store ([store.go]) *)

Definition init : ServiceState := {| sv_Version := "0.1.0"; Services := ∅ |}.

(** [if st.Services == nil { ... }]: a nil map and an empty one are the same
    [gmap]. *)
Definition repair (st : ServiceState) : ServiceState := st.

Definition SetServiceState_tx (st : ServiceState) : res (ServiceState * unit) :=
  Ok ({| sv_Version := "0.1.0"; Services := Services st |}, tt).

Section store.
Context {C : Codec ServiceState}.

Definition loadOrInit (path : string) : fsM ServiceState :=
  Persist.loadOrInit path "service state json broken" init repair.
Definition atomicSave : string -> ServiceState -> fsM unit := Persist.atomicSave.
Definition withLock {A} (path : string) : (ServiceState -> res (ServiceState * A)) -> fsM A :=
  Persist.withLock path (loadOrInit path).
Definition withRLock {A} (path : string) : (ServiceState -> res A) -> fsM A :=
  Persist.withRLock path (loadOrInit path).
Definition SetServiceState (path : string) : fsM unit := withLock path SetServiceState_tx.
End store.

(** ** Cluster addresses *)

Definition service_base : Z := 178716416.

Lemma service_cidr :
  is_prefix service_base 24 /\
  ParseCIDR DefaultServiceCIDR = Some (net4 service_base 24).
Proof.
  split; [|vm_compute; reflexivity].
  split; [lia|unfold service_base; lia|vm_compute; reflexivity].
Qed.

Lemma incIPv4_incIP ip : is_ipv4 ip -> incIPv4 ip = incIP ip.
Proof.
  intros H. pose proof H as H'. destruct_ipv4 H'. rewrite incIP_bytes by done.
  apply is_ipv4_cons in H as (?&?&?&?). unfold incIPv4. simpl.
  assert (forall x, is_byte x -> x <> 255 -> x + 1 =? 0 = false) as Hx
    by (unfold is_byte; lia).
  rewrite !succ_byte by done.
  repeat match goal with
    | |- context [?x =? 255] => destruct (Z.eqb_spec x 255); simpl; rewrite ?Hx by done
    end; try done.
Qed.

(** The addresses a service may have. *)
Definition cluster_host (v : Z) : Prop := service_base < v < service_base + 255.
Definition cluster_addr (v : Z) : string := ipv4_String (ipv4_bytes v).

Lemma reserved_iff v :
  service_base <= v < service_base + 256 ->
  isReservedClusterIP (net4 service_base 24) (ipv4_bytes v) = false <-> cluster_host v.
Proof.
  intros Hv. destruct service_cidr as [Hp _]. pose proof (ipv4_bytes_ok v) as Hi.
  destruct (broadcast_net4 _ _ Hp) as [Hbi Hbv]. change (net_size 24) with 256 in Hbv.
  unfold isReservedClusterIP, cluster_host. change broadcastIPv4 with Ipam.broadcastIPv4.
  rewrite orb_false_iff, <- !not_true_iff_false, !IP_Equal_ipv4 by done.
  rewrite (To4_ipv4 (Ipam.broadcastIPv4 _)) by done.
  change (net_ip (net4 service_base 24)) with (ipv4_bytes service_base).
  rewrite !(To4_ipv4 (ipv4_bytes service_base)) by apply ipv4_bytes_ok.
  assert (forall a, is_ipv4 a -> a = ipv4_bytes v <-> ipv4_val a = v) as He.
  { intros a Ha. split; [intros ->; apply ipv4_val_bytes; unfold service_base in *; lia|].
    intros <-. by rewrite ipv4_bytes_val. }
  rewrite !He, !(ipv4_val_bytes service_base) by (done || apply ipv4_bytes_ok || by vm_compute).
  rewrite Hbv. lia.
Qed.

Lemma service_contains v :
  0 <= v < 2 ^ 32 ->
  Contains (net4 service_base 24) (ipv4_bytes v) = true <->
  service_base <= v < service_base + 256.
Proof.
  intros Hv. rewrite Contains_net4; [|apply service_cidr|apply ipv4_bytes_ok].
  by rewrite ipv4_val_bytes.
Qed.

Lemma cluster_addr_inj v w :
  cluster_host v -> cluster_host w -> cluster_addr v = cluster_addr w -> v = w.
Proof.
  unfold cluster_host, cluster_addr, service_base. intros Hv Hw H.
  apply ipv4_String_inj in H; [|apply ipv4_bytes_ok..].
  rewrite <- (ipv4_val_bytes v), <- (ipv4_val_bytes w), H; lia.
Qed.

Section search.
Context (used : gset string).
#[local] Notation net := (net4 service_base 24).

Lemma clusterIP_step_bytes k :
  (k < 255)%nat ->
  let v := service_base + 1 + Z.of_nat k in
  clusterIP_step net used (ipv4_bytes v) =
    if bool_decide (cluster_host v /\ cluster_addr v ∉ used)
    then inr (Some (ipv4_bytes v)) else inl (ipv4_bytes (v + 1)).
Proof.
  intros Hk v. assert (service_base <= v < service_base + 256) as Hv by lia.
  assert (0 <= v < 2 ^ 32 - 1) as Hv32 by (unfold service_base in *; lia).
  unfold clusterIP_step. rewrite (proj2 (service_contains v ltac:(lia)) Hv).
  assert (incIPv4 (ipv4_bytes v) = ipv4_bytes (v + 1)) as ->.
  { rewrite incIPv4_incIP by apply ipv4_bytes_ok.
    apply ipv4_val_inj; [apply incIP_ipv4, ipv4_bytes_ok|apply ipv4_bytes_ok|].
    rewrite incIP_val, !ipv4_val_bytes by (apply ipv4_bytes_ok || lia).
    apply Z.mod_small. lia. }
  pose proof (reserved_iff v Hv) as Hr.
  destruct (isReservedClusterIP _ _).
  - rewrite bool_decide_false; [done|]. intros [?%Hr _]. done.
  - fold (cluster_addr v). destruct (decide (cluster_addr v ∈ used)).
    + rewrite bool_decide_false; [done|]. naive_solver.
    + rewrite bool_decide_true; [done|]. naive_solver.
Qed.

(** The loop ends within 256 rounds: with the lowest address not in use, or
    past the end of the network. *)
Lemma clusterIP_loop :
  let r := iter_until (clusterIP_step net used) clusterIP_fuel
             (incIPv4 (To4 (net_ip net))) in
  (exists v, r = inr (Some (ipv4_bytes v)) /\ cluster_host v /\ cluster_addr v ∉ used /\
     forall w, cluster_host w -> cluster_addr w ∉ used -> v <= w) \/
  (r = inr None /\ forall v, cluster_host v -> cluster_addr v ∈ used).
Proof.
  assert (incIPv4 (To4 (net_ip net)) = ipv4_bytes (service_base + 1 + Z.of_nat 0)) as ->
    by (vm_compute; reflexivity).
  cbv zeta. rewrite iter_until_nat.
  destruct (iter_scan (clusterIP_step net used)
    (fun k => ipv4_bytes (service_base + 1 + Z.of_nat k))
    (fun k => let v := service_base + 1 + Z.of_nat k in
              bool_decide (cluster_host v /\ cluster_addr v ∉ used))
    (fun k => Some (ipv4_bytes (service_base + 1 + Z.of_nat k))) 255) with (m := 255%nat)
    as [(j & Hj & HP & Hlow & Hit)|[Hn Hit]]; [|lia|left|right].
  { intros k Hk. rewrite clusterIP_step_bytes by done.
    by replace (service_base + 1 + Z.of_nat k + 1)
      with (service_base + 1 + Z.of_nat (S k)) by lia. }
  - exists (service_base + 1 + Z.of_nat j).
    apply bool_decide_eq_true in HP as [Hh Hu].
    split_and!; [eapply iter_nat_until_mono; [exact Hit|unfold clusterIP_fuel; lia]|done|done|].
    intros w Hw Hwu.
    destruct (Z.le_gt_cases (service_base + 1 + Z.of_nat j) w) as [|Hlt]; [done|].
    unfold cluster_host in Hw.
    pose proof (Hlow (Z.to_nat (w - service_base - 1)) ltac:(lia)) as Hf.
    cbv zeta in Hf. apply bool_decide_eq_false in Hf. exfalso. apply Hf.
    by replace (service_base + 1 + _) with w by lia.
  - split.
    + change (Pos.to_nat clusterIP_fuel) with (S 255).
      rewrite iter_nat_until_S, Hit. unfold clusterIP_step.
      destruct (Contains _ _) eqn:E; [|done].
      apply service_contains in E; unfold service_base in *; lia.
    + intros v Hv. pose proof Hv as Hv'. unfold cluster_host in Hv'.
      pose proof (Hn (Z.to_nat (v - service_base - 1)) ltac:(lia)) as Hf.
      cbv zeta in Hf. apply bool_decide_eq_false in Hf.
      replace (service_base + 1 + _) with v in Hf by lia.
      destruct (decide (cluster_addr v ∈ used)); naive_solver.
Qed.
End search.

Section allocation.
Context {RO : RangeOrder}.
Implicit Types st : ServiceState.

Lemma elem_of_usedClusterIPs st ip :
  ip ∈ usedClusterIPs st <->
  ip <> "" /\ exists id s, Services st !! id = Some s /\ ClusterIP s = ip.
Proof.
  unfold usedClusterIPs. rewrite elem_of_list_to_set, list_elem_of_filter.
  rewrite list_elem_of_fmap. setoid_rewrite list_elem_of_fmap. split.
  - intros [Hn (s & -> & [id s'] & -> & H%elem_of_range_map)]. eauto.
  - intros [Hn (id & s & H%elem_of_range_map & <-)]. split; [done|].
    exists s. split; [done|]. by exists (id, s).
Qed.

(** [allocateClusterIP] on every branch. *)
Lemma allocateClusterIP_spec st requested :
  match allocateClusterIP st requested with
  | Ok ip => exists v, ip = cluster_addr v /\ cluster_host v /\ ip ∉ usedClusterIPs st /\
      if String.eqb requested ""
      then forall w, cluster_host w -> cluster_addr w ∉ usedClusterIPs st -> v <= w
      else To4 (ParseIP requested) = ipv4_bytes v
  | Err _ =>
      if String.eqb requested ""
      then forall v, cluster_host v -> cluster_addr v ∈ usedClusterIPs st
      else forall v, cluster_host v -> To4 (ParseIP requested) = ipv4_bytes v ->
             cluster_addr v ∈ usedClusterIPs st
  | Panic _ => False
  end.
Proof.
  unfold allocateClusterIP. rewrite (proj2 service_cidr).
  destruct (String.eqb requested ""); cbn [negb].
  { destruct (clusterIP_loop (usedClusterIPs st)) as [(v & -> & ? & ? & ?)|[-> ?]];
      [exists v; split_and!|]; done. }
  destruct (is_nil _) eqn:En.
  { intros v _ Hv. by rewrite Hv in En. }
  apply To4_ParseIP in En. set (ip := To4 (ParseIP requested)) in *.
  pose proof (ipv4_val_range _ En) as Hr. rewrite <- (ipv4_bytes_val ip) by done.
  assert (forall v, cluster_host v -> ipv4_bytes (ipv4_val ip) = ipv4_bytes v ->
    ipv4_val ip = v) as Heq.
  { intros v Hv He. unfold cluster_host, service_base in Hv.
    rewrite <- (ipv4_val_bytes (ipv4_val ip)), He, ipv4_val_bytes; lia. }
  pose proof (service_contains (ipv4_val ip) Hr) as Hc.
  destruct (Contains _ _); cbn [negb]; cycle 1.
  { intros v Hv He%Heq; [|done]. unfold cluster_host in Hv. assert (false = true); [|done].
    apply Hc. lia. }
  pose proof (reserved_iff (ipv4_val ip) ltac:(by apply Hc)) as Hres.
  destruct (isReservedClusterIP _ _).
  { intros v Hv He%Heq; [|done]. subst v. assert (true = false) by (by apply Hres). done. }
  fold (cluster_addr (ipv4_val ip)). destruct (decide _) as [Hin|Hin].
  - intros v Hv He%Heq; [|done]. by subst v.
  - exists (ipv4_val ip). split_and!; try done. by apply Hres.
Qed.
End allocation.

(** ** Executions *)

Section executions.
Context {RO : RangeOrder}.
Implicit Types st : ServiceState.

(** One committed transaction of the store. *)
Inductive ssm_step : ServiceState -> ServiceState -> Prop :=
  | step_StoreService id spec now st st' :
      StoreService id spec now st = Ok (st', tt) -> ssm_step st st'
  | step_RemoveService id st st' :
      RemoveService id st = Ok (st', tt) -> ssm_step st st'
  | step_SetServiceState st st' :
      SetServiceState_tx st = Ok (st', tt) -> ssm_step st st'.

Definition ssm_reachable (st : ServiceState) : Prop := rtc ssm_step init st.

(** The cluster services have usable addresses, no two the same. *)
Record services_ok st : Prop := {
  ok_types id s : Services st !! id = Some s ->
    sv_Type s = ServiceTypeClusterIP \/ sv_Type s = ServiceTypeNodePort;
  ok_ids id s : Services st !! id = Some s -> ServiceId s = id;
  ok_addrs id s : Services st !! id = Some s -> sv_Type s = ServiceTypeClusterIP ->
    exists v, cluster_host v /\ ClusterIP s = cluster_addr v;
  ok_unique i j s t :
    Services st !! i = Some s -> Services st !! j = Some t ->
    sv_Type s = ServiceTypeClusterIP -> sv_Type t = ServiceTypeClusterIP ->
    ClusterIP s = ClusterIP t -> i = j
}.

Lemma cluster_addr_nonempty v : cluster_addr v <> "".
Proof.
  unfold cluster_addr, ipv4_bytes. rewrite ipv4_String_eq. apply app_string_nonempty.
  apply itoa_octet_digits. unfold is_byte. apply Z.mod_pos_bound. lia.
Qed.

Lemma service_types_differ : ServiceTypeClusterIP <> ServiceTypeNodePort.
Proof. discriminate. Qed.

(** A stored service: the entry, and nothing else, changed. *)
Lemma StoreService_inv id spec now st st' :
  StoreService id spec now st = Ok (st', tt) ->
  exists s, st' = set_Services st (<[id := s]> (Services st)) /\
    ServiceId s = id /\ sv_CreatedAt s = now /\
    sv_Type s = NormalizeServiceType (sv_Type spec) /\
    ((sv_Type s = ServiceTypeNodePort /\ ClusterIP s = ClusterIP spec) \/
     (sv_Type s = ServiceTypeClusterIP /\
      allocateClusterIP st (ClusterIP spec) = Ok (ClusterIP s))).
Proof.
  unfold StoreService. cbn [sv_Type ClusterIP].
  set (t := NormalizeServiceType (sv_Type spec)).
  destruct (String.eqb_spec t ServiceTypeNodePort) as [En|En];
    destruct (String.eqb_spec t ServiceTypeClusterIP) as [Ec|Ec]; cbn [negb andb];
    try discriminate; try (rewrite En in Ec; discriminate Ec).
  - cbn [mbind res_bind]. intros [= <-]. eexists. split; [reflexivity|]. cbn. split_and!; auto.
  - intros H. inv_ok. apply res_fmap_ok in Hv as (ip & Hip & ->).
    eexists. split; [reflexivity|]. cbn. split_and!; auto.
Qed.

Lemma StoreService_keeps id spec now st st' :
  services_ok st -> StoreService id spec now st = Ok (st', tt) -> services_ok st'.
Proof.
  intros [Ht Hid Ha Hu] H.
  apply StoreService_inv in H as (s & -> & Hsid & _ & _ & Hs).
  assert (forall j t, Services st !! j = Some t -> sv_Type s = ServiceTypeClusterIP ->
    ClusterIP s <> ClusterIP t) as Hfresh.
  { intros j t Hj Hty He. destruct Hs as [[Hn _]|[_ Hal]];
      [by destruct service_types_differ; congruence|].
    pose proof (allocateClusterIP_spec st (ClusterIP spec)) as Hspec.
    rewrite Hal in Hspec. destruct Hspec as (v & Hv & _ & Hnot & _).
    apply Hnot, elem_of_usedClusterIPs. rewrite Hv at 1.
    split; [apply cluster_addr_nonempty|eauto]. }
  split; cbn [Services set_Services].
  - intros j t [[<- <-]|[_ Hj]]%lookup_insert_Some; [|eauto]. naive_solver.
  - intros j t [[<- <-]|[_ Hj]]%lookup_insert_Some; eauto.
  - intros j t [[<- <-]|[_ Hj]]%lookup_insert_Some Hty; [|eauto].
    destruct Hs as [[Hn _]|[_ Hal]];
      [by destruct service_types_differ; congruence|].
    pose proof (allocateClusterIP_spec st (ClusterIP spec)) as Hspec.
    rewrite Hal in Hspec. destruct Hspec as (v & Hv & Hh & _). eauto.
  - intros i j a b [[<- <-]|[Hi Hia]]%lookup_insert_Some
      [[<- <-]|[Hj Hjb]]%lookup_insert_Some Ha1 Ha2 He; try done.
    + by destruct (Hfresh _ _ Hjb Ha1 He).
    + by destruct (Hfresh _ _ Hia Ha2 (eq_sym He)).
    + by eapply Hu.
Qed.

Lemma RemoveService_keeps id st st' :
  services_ok st -> RemoveService id st = Ok (st', tt) -> services_ok st'.
Proof.
  intros [Ht Hid Ha Hu] H. unfold RemoveService in H. case_in H; [|done].
  injection H as <-. split; cbn [Services set_Services].
  - intros j t [_ Hj]%lookup_delete_Some. eauto.
  - intros j t [_ Hj]%lookup_delete_Some. eauto.
  - intros j t [_ Hj]%lookup_delete_Some. eauto.
  - intros i j a b [_ Hi]%lookup_delete_Some [_ Hj]%lookup_delete_Some. eauto.
Qed.

Lemma ssm_reachable_ok st : ssm_reachable st -> services_ok st.
Proof.
  intros H. assert (services_ok init) as H0
    by (split; intros; simplify_map_eq).
  revert H0. induction H as [|x y z Hxy _ IH]; [done|]. intros Hx. apply IH.
  destruct Hxy as [? ? ? ? ? H|? ? ? H|? ? H].
  - by eapply StoreService_keeps.
  - by eapply RemoveService_keeps.
  - injection H as <-. destruct Hx. by split.
Qed.

(** ** The properties *)

(** C24: in every state the service transactions reach, each service is stored
    under its own id with a supported type, and the cluster services have
    pairwise different addresses, all of them host addresses of the service
    network. *)
Theorem service_addresses_unique st : ssm_reachable st -> services_ok st.
Proof. apply ssm_reachable_ok. Qed.

(** [StoreService] of a cluster service, on every branch: a success stores
    the service under an address no service has (the lowest one when none was
    requested, else the requested one) and changes no other service; it fails
    only when every address is taken, or the requested one is or is not a
    host address of the service network; it never panics. *)
Theorem StoreService_ClusterIP id spec now st :
  NormalizeServiceType (sv_Type spec) = ServiceTypeClusterIP ->
  match StoreService id spec now st with
  | Ok (st', _) => exists s v,
      Services st' = <[id := s]> (Services st) /\
      ServiceId s = id /\ sv_Type s = ServiceTypeClusterIP /\ sv_CreatedAt s = now /\
      ClusterIP s = cluster_addr v /\ cluster_host v /\
      (forall j t, Services st !! j = Some t -> ClusterIP t <> cluster_addr v) /\
      if String.eqb (ClusterIP spec) ""
      then forall w, cluster_host w -> w < v ->
             exists j t, Services st !! j = Some t /\ ClusterIP t = cluster_addr w
      else To4 (ParseIP (ClusterIP spec)) = ipv4_bytes v
  | Err _ => forall v, cluster_host v ->
      (ClusterIP spec = "" \/ To4 (ParseIP (ClusterIP spec)) = ipv4_bytes v) ->
      exists j t, Services st !! j = Some t /\ ClusterIP t = cluster_addr v
  | Panic _ => False
  end.
Proof.
  intros Ht.
  assert (forall v, cluster_addr v ∈ usedClusterIPs st <->
    exists j t, Services st !! j = Some t /\ ClusterIP t = cluster_addr v) as Hused.
  { intros v. rewrite elem_of_usedClusterIPs. pose proof (cluster_addr_nonempty v).
    naive_solver. }
  pose proof (allocateClusterIP_spec st (ClusterIP spec)) as Ha.
  unfold StoreService. cbn [sv_Type ClusterIP]. rewrite Ht. cbn [negb andb String.eqb].
  change (String.eqb ServiceTypeClusterIP ServiceTypeClusterIP) with true.
  change (String.eqb ServiceTypeClusterIP ServiceTypeNodePort) with false. cbn [negb andb].
  destruct (allocateClusterIP _ _) as [ip|e|e]; cbn [fmap res_fmap mbind res_bind];
    [| |done].
  - destruct Ha as (v & -> & Hv & Hn & Hreq). eexists _, v.
    split; [reflexivity|]. cbn. split_and!; try done.
    + intros j t Hj He. apply Hn, Hused. eauto.
    + destruct (String.eqb (ClusterIP spec) ""); [|done]. intros w Hw Hlt.
      destruct (decide (cluster_addr w ∈ usedClusterIPs st)) as [Hin|Hin];
        [by apply Hused|]. specialize (Hreq w Hw Hin). lia.
  - intros v Hv Hreq. apply Hused.
    destruct (String.eqb_spec (ClusterIP spec) "") as [E|E]; [by apply Ha|].
    apply Ha; [done|]. by destruct Hreq.
Qed.

(** A service stored under a new id is found again with its data and the
    normalised type, and removing it gives back the table. *)
Theorem StoreService_roundtrip id spec now st st' :
  Services st !! id = None -> StoreService id spec now st = Ok (st', tt) ->
  (exists s, GetServiceById id st' = Ok s /\ ServiceId s = id /\
     sv_Type s = NormalizeServiceType (sv_Type spec) /\ sv_CreatedAt s = now) /\
  RemoveService id st' = Ok (st, tt).
Proof.
  intros Hnew H. apply StoreService_inv in H as (s & -> & Hid & Hnow & Ht & Hs).
  unfold GetServiceById, RemoveService. cbn [Services set_Services].
  rewrite lookup_insert_eq. split.
  - eexists. split; [done|]. cbn. split_and!; try done. rewrite Ht.
    destruct Hs as [[Hs _]|[Hs _]]; rewrite <- Ht, Hs; vm_compute; reflexivity.
  - rewrite delete_insert_id by done. by destruct st.
Qed.

(** The address of a NodePort service is stored as it is given, without a
    check against the addresses in use: a cluster service and a NodePort
    service can end up with the same address. *)
Theorem NodePort_address_unchecked id spec now st :
  NormalizeServiceType (sv_Type spec) = ServiceTypeNodePort ->
  exists s, StoreService id spec now st =
      Ok (set_Services st (<[id := s]> (Services st)), tt) /\
    ClusterIP s = ClusterIP spec /\ sv_Type s = ServiceTypeNodePort.
Proof.
  intros Ht. unfold StoreService. cbn [sv_Type]. rewrite Ht.
  eexists. split; [reflexivity|]. done.
Qed.
End executions.

(** ** The properties on concrete states *)

Definition web : ServiceInfo :=
  {| ServiceId := ""; sv_Name := "web"; sv_Namespace := "default"; sv_Type := "";
     ClusterIP := ""; Selector := {["app" := "web"]};
     sv_Ports := [{| sp_Port := 80; TargetPort := 8080; sp_Protocol := "TCP" |}];
     sv_CreatedAt := 0 |}.
Definition after {A} (m : res (ServiceState * A)) : ServiceState :=
  match m with Ok (st, _) => st | _ => init end.
Definition two : ServiceState :=
  after (StoreService "svc-2" web 2 (after (StoreService "svc-1" web 1 init))).

Lemma two_reachable : ssm_reachable two.
Proof.
  eapply rtc_l; [|apply rtc_once].
  - apply (step_StoreService "svc-1" web 1 init (after (StoreService "svc-1" web 1 init))).
    vm_compute. reflexivity.
  - apply (step_StoreService "svc-2" web 2). vm_compute. reflexivity.
Qed.

Example service_addresses_unique_witness :
  services_ok two /\
  (ClusterIP <$> Services two !! "svc-1", ClusterIP <$> Services two !! "svc-2") =
    (Some "10.166.255.1", Some "10.166.255.2").
Proof.
  split; [apply service_addresses_unique, two_reachable|vm_compute; reflexivity].
Defined.

Example StoreService_ClusterIP_witness :
  exists v, cluster_addr v = "10.166.255.3" /\ cluster_host v /\
    forall j t, Services two !! j = Some t -> ClusterIP t <> cluster_addr v.
Proof.
  pose proof (StoreService_ClusterIP "svc-3" web 3 two
    ltac:(vm_compute; reflexivity)) as H.
  assert (StoreService "svc-3" web 3 two =
    Ok (after (StoreService "svc-3" web 3 two), tt)) as E by (vm_compute; reflexivity).
  rewrite E in H. destruct H as (s & v & Hs & _ & _ & _ & Hip & Hv & Hn & _).
  exists v. split; [|split; [exact Hv|exact Hn]].
  rewrite <- Hip.
  assert (Services (after (StoreService "svc-3" web 3 two)) !! "svc-3" = Some s) as Hl
    by (rewrite Hs; apply lookup_insert_eq).
  vm_compute in Hl. injection Hl as <-. reflexivity.
Defined.

Example StoreService_roundtrip_witness :
  RemoveService "svc-3" (after (StoreService "svc-3" web 3 two)) = Ok (two, tt).
Proof.
  apply (StoreService_roundtrip "svc-3" web 3 two); vm_compute; reflexivity.
Defined.

Definition clash : ServiceInfo := set_ClusterIP (set_Type web "nodeport") "10.166.255.1".

Example NodePort_address_unchecked_witness :
  exists s, StoreService "svc-3" clash 3 two =
      Ok (set_Services two (<["svc-3" := s]> (Services two)), tt) /\
    ClusterIP s = "10.166.255.1" /\ sv_Type s = ServiceTypeNodePort.
Proof. apply (NodePort_address_unchecked "svc-3" clash 3 two). vm_compute. reflexivity. Defined.

(** ** The service network and the bridges *)

Section bridges.
Context {RO : RangeOrder}.

Definition nth_base (i : nat) : Z := default_base + 256 * Z.of_nat i.

Definition nth_bridge (i : nat) : string := "br" +:+ itoa (Z.of_nat i).

Lemma nth_bridge_inj i j : nth_bridge i = nth_bridge j -> i = j.
Proof.
  unfold nth_bridge. intros H%(inj (String.append "br"))%itoa_inj. lia.
Qed.

Lemma in_nth_bases k n :
  0 <= k -> default_base + 256 * k ∈ nth_base <$> seq 0 n <-> k < Z.of_nat n.
Proof.
  intros Hk. rewrite list_elem_of_fmap. unfold nth_base. split.
  - intros (i & Hi & Hin%elem_of_seq). lia.
  - intros Hn. exists (Z.to_nat k). rewrite elem_of_seq. split; [f_equal|]; lia.
Qed.

(** Bridges created one after another take the /24 networks in order. *)
Lemma StoreBridge_in_order n :
  (n < 256)%nat ->
  exists st, ipam_reachable st /\ ipam_ok (nth_base <$> seq 0 (S n)) st /\
    forall i, (n < i)%nat -> nth_bridge i ∉ p_Interface <$> Pools st.
Proof.
  induction n as [|n IH]; intros Hn.
  - exists (default_state "" ""). split; [exists "", ""; apply rtc_refl|].
    split; [apply default_state_ok|]. intros i _. simpl. set_solver.
  - destruct IH as (st & (iface & addr & Hr) & Hok & Hbr); [lia|].
    assert (ipam_reachable st) as Hre by (by exists iface, addr).
    pose proof (StoreBridge_answer (nth_bridge (S n)) _ st Hok
      (ipam_reachable_runtime _ Hre)) as Ha.
    destruct (StoreBridge _ st) as [[st' [s a]]|e|e] eqn:E; [| |done].
    + destruct Ha as (Hnew & k & Hk & Hfree & Hlow & _ & _ & ->).
      rewrite in_nth_bases in Hfree by lia.
      assert (k = Z.of_nat (S n)) as ->.
      { destruct (Z.lt_ge_cases (Z.of_nat (S n)) k) as [Hlt|]; [|lia].
        specialize (Hlow (Z.of_nat (S n)) ltac:(lia)).
        rewrite in_nth_bases in Hlow by lia. lia. }
      eexists. split_and!.
      * exists iface, addr. eapply rtc_r; [exact Hr|]. by eapply step_StoreBridge.
      * rewrite (seq_S (S n)), fmap_app. simpl ([_] ++ _). apply ipam_ok_snoc; try done.
        -- apply (subnet_is_prefix default_base 16);
             [apply default_prefix; lia|lia|].
           change (Z.to_nat (net_size 16 / 256)) with 256%nat. lia.
        -- by rewrite in_nth_bases by lia.
      * intros i Hi. cbn [Pools set_Pools]. rewrite fmap_app.
        rewrite not_elem_of_app. split; [apply Hbr; lia|].
        intros Hin%list_elem_of_singleton%nth_bridge_inj. lia.
    + destruct Ha as [Ha|Ha]; [by apply Hbr in Ha; [|lia]|].
      rewrite <- (Forall2_length _ _ _ (ok_pools _ _ Hok)), length_fmap, length_seq in Ha.
      lia.
Qed.

(** Nothing keeps a bridge off the network of the services: with enough
    bridges [StoreBridge] hands out [DefaultServiceCIDR] itself. *)
Theorem StoreBridge_takes_service_network :
  exists st br st' addr, ipam_reachable st /\
    StoreBridge br st = Ok (st', (DefaultServiceCIDR, addr)).
Proof.
  destruct (StoreBridge_in_order 254 ltac:(lia)) as (st & Hre & Hok & Hbr).
  pose proof (StoreBridge_answer (nth_bridge 255) _ st Hok
    (ipam_reachable_runtime _ Hre)) as Ha.
  destruct (StoreBridge _ st) as [[st' [s a]]|e|e] eqn:E; [| |done].
  - exists st, (nth_bridge 255), st', a. split; [done|]. rewrite E.
    destruct Ha as (_ & k & Hk & Hfree & _ & -> & _).
    rewrite in_nth_bases in Hfree by lia. replace k with 255 by lia.
    vm_compute. reflexivity.
  - destruct Ha as [Ha|Ha].
    + exfalso. by apply (Hbr 255%nat ltac:(lia)).
    + rewrite <- (Forall2_length _ _ _ (ok_pools _ _ Hok)), length_fmap, length_seq in Ha. lia.
Qed.
End bridges.
