(* ===== verification/Csm.v ===== *)
(** * Containers ([store/csm])

    The container table: who a container is (id, name, image), where it is in
    its life cycle, and how the command line's "id or name" is resolved. *)

From Stdlib Require Import ZArith Lia String.
From stdpp Require Import base gmap strings list relations.
From S2P Require Import Prelude.
From S2P Require Import GoString.
From S2P Require Import Persist.
Open Scope Z_scope.

(** ** Data ([model.go]) *)

Record StoreContainerRequest := {
  req_ContainerId : string;
  req_State : string;
  req_Pid : Z;
  req_Tty : bool;
  req_Repository : string;
  req_Reference : string;
  req_Command : list string;
  req_ContainerName : string;
  req_BottleId : string;
  req_LogPath : string;
  req_PodId : string;
  req_DropletId : string;
  req_SecurityProfile : string
}.

Record ContainerInfo := {
  ContainerId : string;
  ContainerName : string;
  PodId : string;
  DropletId : string;
  SpiffeId : string;
  State : string;
  Pid : Z;
  ExitCode : Z;
  Reason : string;
  Message : string;
  LogPath : string;
  Tty : bool;
  Repository : string;
  Reference : string;
  Command : list string;
  BottleId : string;
  SecurityProfile : string;
  CreatingAt : Z;
  CreatedAt : Z;
  StartedAt : Z;
  StoppedAt : Z;
  FinishedAt : Z;
  Labels : gmap string string;
  Annotaions : gmap string string;
  Attemp : Z
}.

Record ContainerState := {
  Version : string;
  Containers : gmap string ContainerInfo
}.

Definition set_Containers (st : ContainerState) (m : gmap string ContainerInfo)
    : ContainerState :=
  {| Version := Version st; Containers := m |}.

(** ** Operations ([csm.go]) *)

(** The entry that [StoreContainer] writes; fields not named there have their
    zero value. *)
Definition new_container (req : StoreContainerRequest) (now : Z) : ContainerInfo :=
  {| ContainerId := req_ContainerId req; ContainerName := req_ContainerName req;
     PodId := req_PodId req; DropletId := req_DropletId req; SpiffeId := "";
     State := req_State req; Pid := req_Pid req; ExitCode := 0; Reason := "";
     Message := ""; LogPath := req_LogPath req; Tty := req_Tty req;
     Repository := req_Repository req; Reference := req_Reference req;
     Command := req_Command req; BottleId := req_BottleId req;
     SecurityProfile := req_SecurityProfile req; CreatingAt := 0; CreatedAt := now;
     StartedAt := 0; StoppedAt := 0; FinishedAt := 0; Labels := ∅; Annotaions := ∅;
     Attemp := 0 |}.

(** The update of one entry by [UpdateContainer]. *)
Definition update_state (state : string) (pid : Z) (now : Z) (c : ContainerInfo)
    : ContainerInfo :=
  let fresh := StoppedAt c <? CreatedAt c in
  let entered s := String.eqb state s in
  {| ContainerId := ContainerId c; ContainerName := ContainerName c;
     PodId := PodId c; DropletId := DropletId c; SpiffeId := SpiffeId c;
     State := state; Pid := if 0 <=? pid then pid else Pid c;
     ExitCode := ExitCode c; Reason := Reason c; Message := Message c;
     LogPath := LogPath c; Tty := Tty c; Repository := Repository c;
     Reference := Reference c; Command := Command c; BottleId := BottleId c;
     SecurityProfile := SecurityProfile c;
     CreatingAt := if entered "creating" && fresh then now else CreatingAt c;
     CreatedAt := if entered "created" && fresh then now else CreatedAt c;
     StartedAt := if entered "running" then now else StartedAt c;
     StoppedAt := if entered "stopped" then now else StoppedAt c;
     FinishedAt := if entered "stopped" then now else FinishedAt c;
     Labels := Labels c; Annotaions := Annotaions c; Attemp := Attemp c |}.

Definition update_exit (exitCode : Z) (reason message : string) (c : ContainerInfo)
    : ContainerInfo :=
  {| ContainerId := ContainerId c; ContainerName := ContainerName c;
     PodId := PodId c; DropletId := DropletId c; SpiffeId := SpiffeId c;
     State := State c; Pid := Pid c; ExitCode := exitCode; Reason := reason;
     Message := message; LogPath := LogPath c; Tty := Tty c;
     Repository := Repository c; Reference := Reference c; Command := Command c;
     BottleId := BottleId c; SecurityProfile := SecurityProfile c;
     CreatingAt := CreatingAt c; CreatedAt := CreatedAt c; StartedAt := StartedAt c;
     StoppedAt := StoppedAt c; FinishedAt := FinishedAt c; Labels := Labels c;
     Annotaions := Annotaions c; Attemp := Attemp c |}.

Definition update_spiffe (spiffe : string) (c : ContainerInfo) : ContainerInfo :=
  {| ContainerId := ContainerId c; ContainerName := ContainerName c;
     PodId := PodId c; DropletId := DropletId c; SpiffeId := spiffe;
     State := State c; Pid := Pid c; ExitCode := ExitCode c; Reason := Reason c;
     Message := Message c; LogPath := LogPath c; Tty := Tty c;
     Repository := Repository c; Reference := Reference c; Command := Command c;
     BottleId := BottleId c; SecurityProfile := SecurityProfile c;
     CreatingAt := CreatingAt c; CreatedAt := CreatedAt c; StartedAt := StartedAt c;
     StoppedAt := StoppedAt c; FinishedAt := FinishedAt c; Labels := Labels c;
     Annotaions := Annotaions c; Attemp := Attemp c |}.

Section manager.
Context {RO : RangeOrder}.
Implicit Types st : ContainerState.

Definition id_not_found (containerId : string) : error :=
  "containerId=" +:+ containerId +:+ " not found".
Definition not_found (str : string) : error := "container: " +:+ str +:+ " not found".

Definition StoreContainer (req : StoreContainerRequest) (now : Z) st
    : res (ContainerState * unit) :=
  Ok (set_Containers st
        (<[req_ContainerId req := new_container req now]> (Containers st)), tt).

(** The first container in iteration order with [ContainerId == containerId]
    or [ContainerName == name]. *)
Definition find_by_id (containerId : string) st : option (string * ContainerInfo) :=
  range_find (fun c => String.eqb (ContainerId c) containerId) (Containers st).
Definition find_by_name (name : string) st : option (string * ContainerInfo) :=
  range_find (fun c => String.eqb (ContainerName c) name) (Containers st).

Definition RemoveContainer (containerId : string) st : res (ContainerState * unit) :=
  match find_by_id containerId st with
  | Some (id, _) => Ok (set_Containers st (delete id (Containers st)), tt)
  | None => Err (id_not_found containerId)
  end.

(** The shape of the three updates. *)
Definition update (containerId : string) (f : ContainerInfo -> ContainerInfo) st
    : res (ContainerState * unit) :=
  m ← update_entry (id_not_found containerId) containerId (fun c => Ok (f c)) (Containers st);
  Ok (set_Containers st m, tt).

Definition UpdateContainer (containerId state : string) (pid : Z) (now : Z) st
    : res (ContainerState * unit) :=
  update containerId (update_state state pid now) st.

Definition UpdateExitStatus (containerId : string) (exitCode : Z)
    (reason message : string) st : res (ContainerState * unit) :=
  update containerId (update_exit exitCode reason message) st.

Definition UpdateSpiffe (containerId spiffe : string) st : res (ContainerState * unit) :=
  update containerId (update_spiffe spiffe) st.

Definition GetContainerList st : res (list ContainerInfo) :=
  Ok (range_values (Containers st)).

Definition GetContainersByPodId (podId : string) st : res (list ContainerInfo) :=
  Ok (List.filter (fun c => String.eqb (PodId c) podId) (range_values (Containers st))).

(** A field of the container found by id. *)
Definition get_by_id {A} (f : ContainerInfo -> A) (containerId : string) st : res A :=
  match find_by_id containerId st with
  | Some (_, c) => Ok (f c)
  | None => Err (not_found containerId)
  end.

Definition GetContainerById (containerId : string) st : res ContainerInfo :=
  get_by_id id containerId st.
Definition GetContainerNameById (containerId : string) st : res string :=
  get_by_id ContainerName containerId st.
Definition GetSpiffeById (containerId : string) st : res string :=
  get_by_id SpiffeId containerId st.
Definition GetLogPath (containerId : string) st : res string :=
  get_by_id LogPath containerId st.

Definition GetContainerIdByName (name : string) st : res string :=
  match find_by_name name st with
  | Some (_, c) => Ok (ContainerId c)
  | None => Err (not_found name)
  end.

Definition IsNameAlreadyUsed (name : string) st : res bool :=
  Ok (match find_by_name name st with Some _ => true | None => false end).

(** The operations below take the lock twice; [st1] and [st2] are the states
    of the two reads. *)
Definition GetContainerIdAndName (str : string) st1 st2 : res (string * string) :=
  match GetContainerIdByName str st1, GetContainerNameById str st2 with
  | Ok containerId, _ => Ok (containerId, str)
  | _, Ok containerName => Ok (str, containerName)
  | _, _ => Err (not_found str)
  end.

Definition ResolveContainerId (str : string) st1 st2 : res string :=
  match GetContainerIdByName str st1 with
  | Ok containerId => Ok containerId
  | _ => match GetContainerById str st2 with
         | Ok _ => Ok str
         | Err e => Err e
         | Panic e => Panic e
         end
  end.

Definition IsContainerExist (str : string) st1 st2 : bool :=
  is_ok (GetContainerIdByName str st1) || is_ok (GetContainerNameById str st2).
End manager.

(** ** The store ([store.go]) *)

Definition init : ContainerState := {| Version := "0.1.0"; Containers := ∅ |}.
(** A nil map and an empty map are the same [gmap]. *)
Definition repair (st : ContainerState) : ContainerState := st.
Definition SetContainerState_tx (st : ContainerState) : res (ContainerState * unit) :=
  Ok ({| Version := "0.1.0"; Containers := Containers st |}, tt).

Section store.
Context {C : Codec ContainerState}.

Definition loadOrInit (path : string) : fsM ContainerState :=
  Persist.loadOrInit path "container state json broken" init repair.
Definition atomicSave : string -> ContainerState -> fsM unit := Persist.atomicSave.
Definition withLock {A} (path : string)
    : (ContainerState -> res (ContainerState * A)) -> fsM A :=
  Persist.withLock path (loadOrInit path).
Definition withRLock {A} (path : string) : (ContainerState -> res A) -> fsM A :=
  Persist.withRLock path (loadOrInit path).
Definition SetContainerState (path : string) : fsM unit :=
  withLock path SetContainerState_tx.
End store.

(** ** Executions *)

Section executions.
Context {RO : RangeOrder}.
Implicit Types st : ContainerState.

Inductive csm_step : ContainerState -> ContainerState -> Prop :=
  | step_StoreContainer req now st st' :
      StoreContainer req now st = Ok (st', tt) -> csm_step st st'
  | step_RemoveContainer id st st' :
      RemoveContainer id st = Ok (st', tt) -> csm_step st st'
  | step_UpdateContainer id s pid now st st' :
      UpdateContainer id s pid now st = Ok (st', tt) -> csm_step st st'
  | step_UpdateExitStatus id code r m st st' :
      UpdateExitStatus id code r m st = Ok (st', tt) -> csm_step st st'
  | step_UpdateSpiffe id sp st st' :
      UpdateSpiffe id sp st = Ok (st', tt) -> csm_step st st'
  | step_SetContainerState st st' :
      SetContainerState_tx st = Ok (st', tt) -> csm_step st st'.

Definition csm_reachable (st : ContainerState) : Prop := rtc csm_step init st.

Lemma update_inv id f st st' :
  update id f st = Ok (st', tt) <->
  exists c, Containers st !! id = Some c /\
    st' = set_Containers st (<[id := f c]> (Containers st)).
Proof.
  unfold update. rewrite res_bind_ok. setoid_rewrite update_entry_ok. naive_solver.
Qed.

Lemma update_keyed id f st st' :
  (forall c, ContainerId (f c) = ContainerId c) ->
  keyed ContainerId (Containers st) -> update id f st = Ok (st', tt) ->
  keyed ContainerId (Containers st').
Proof.
  intros Hf Hk (c & Hc & ->)%update_inv. simpl.
  apply keyed_insert; [done|]. rewrite Hf. by apply Hk.
Qed.

(** Every container is stored under its own id. *)
Lemma csm_keyed st : csm_reachable st -> keyed ContainerId (Containers st).
Proof.
  intros H. assert (keyed ContainerId (Containers init)) as H0 by apply keyed_empty.
  revert H0. induction H as [|x y z Hxy _ IH]; [done|]. intros Hx. apply IH.
  destruct Hxy as [? ? ? ? H|? ? ? H|? ? ? ? ? ? H|? ? ? ? ? ? H|? ? ? ? H|? ? H].
  - injection H as <-. by apply keyed_insert.
  - unfold RemoveContainer in H. case_in H; [|done]. destruct p. injection H as <-.
    by apply keyed_delete.
  - by apply update_keyed in H.
  - by apply update_keyed in H.
  - by apply update_keyed in H.
  - by injection H as <-.
Qed.

Lemma find_by_id_keyed st id :
  keyed ContainerId (Containers st) ->
  find_by_id id st = (fun c => (id, c)) <$> Containers st !! id.
Proof. apply range_find_keyed. Qed.

(** ** The properties *)

(** In every reachable state the searches by id, which range over the
    whole map in an unspecified order, are plain lookups, and [RemoveContainer]
    deletes exactly the container asked for. *)
Theorem container_lookup st id :
  csm_reachable st ->
  GetContainerById id st =
    match Containers st !! id with Some c => Ok c | None => Err (not_found id) end /\
  RemoveContainer id st =
    match Containers st !! id with
    | Some _ => Ok (set_Containers st (delete id (Containers st)), tt)
    | None => Err (id_not_found id)
    end.
Proof.
  intros Hk%csm_keyed. unfold GetContainerById, get_by_id, RemoveContainer.
  rewrite find_by_id_keyed by done. by destruct (Containers st !! id).
Qed.

(** Resolution of an "id or name" argument in a reachable state: the name
    wins, then the id; what it returns is the id of a stored container, and it
    fails exactly when the argument is neither. *)
Theorem ResolveContainerId_correct st str :
  csm_reachable st ->
  match ResolveContainerId str st st with
  | Ok cid => exists c, Containers st !! cid = Some c /\
      (ContainerName c = str \/
       cid = str /\ forall k d, Containers st !! k = Some d -> ContainerName d <> str)
  | Err _ => Containers st !! str = None /\
      forall k d, Containers st !! k = Some d -> ContainerName d <> str
  | Panic _ => False
  end.
Proof.
  intros Hk%csm_keyed. unfold ResolveContainerId, GetContainerIdByName.
  destruct (find_by_name str st) as [[k c]|] eqn:E.
  - apply range_find_Some in E as [Hc Hn%String.eqb_eq].
    rewrite (Hk _ _ Hc). eauto.
  - assert (forall k d, Containers st !! k = Some d -> ContainerName d <> str) as Hno.
    { intros k d Hd. unfold find_by_name in E. rewrite range_find_None in E.
      apply E in Hd. by apply String.eqb_neq. }
    unfold GetContainerById, get_by_id. rewrite find_by_id_keyed by done.
    destruct (Containers st !! str) as [c|] eqn:Hc; simpl; eauto.
Qed.

(** [UpdateContainer] on a stored container changes its state, its pid
    when one is given, and the time stamp of the state entered, keeps every
    other field and every other container, and fails exactly when the
    container is unknown.  [FinishedAt] follows [StoppedAt], and a container
    that stopped after its creation keeps its creation times. *)
Theorem UpdateContainer_correct cid state pid now st :
  match UpdateContainer cid state pid now st with
  | Ok (st', _) => exists c c',
      Containers st !! cid = Some c /\ Containers st' !! cid = Some c' /\
      (forall k, k <> cid -> Containers st' !! k = Containers st !! k) /\
      State c' = state /\ Pid c' = (if 0 <=? pid then pid else Pid c) /\
      (state = "stopped" -> StoppedAt c' = now /\ FinishedAt c' = now) /\
      (state <> "stopped" -> StoppedAt c' = StoppedAt c /\ FinishedAt c' = FinishedAt c) /\
      (StartedAt c' = if String.eqb state "running" then now else StartedAt c) /\
      (CreatedAt c <= StoppedAt c ->
         CreatedAt c' = CreatedAt c /\ CreatingAt c' = CreatingAt c) /\
      (ContainerId c', ContainerName c', PodId c', BottleId c', ExitCode c', SpiffeId c') =
        (ContainerId c, ContainerName c, PodId c, BottleId c, ExitCode c, SpiffeId c)
  | Err e => Containers st !! cid = None /\ e = id_not_found cid
  | Panic _ => False
  end.
Proof.
  unfold UpdateContainer, update, update_entry.
  destruct (Containers st !! cid) as [c|] eqn:E; cbn [mbind res_bind]; [|done].
  exists c, (update_state state pid now c). simpl. rewrite lookup_insert_eq.
  split_and!; try done.
  - intros k Hk. by rewrite lookup_insert_ne.
  - by intros ->.
  - intros ->%String.eqb_neq. done.
  - intros Hle. rewrite (proj2 (Z.ltb_ge _ _) Hle), !andb_false_r. done.
Qed.
End executions.

(** ** The properties on concrete states *)

Definition req (id name : string) : StoreContainerRequest :=
  {| req_ContainerId := id; req_State := "creating"; req_Pid := 0; req_Tty := false;
     req_Repository := "alpine"; req_Reference := "latest"; req_Command := ["sh"];
     req_ContainerName := name; req_BottleId := ""; req_LogPath := ""; req_PodId := "";
     req_DropletId := ""; req_SecurityProfile := "" |}.
Definition after {A} (m : res (ContainerState * A)) : ContainerState :=
  match m with Ok (st, _) => st | _ => init end.
(** A container whose name is the id of another one. *)
Definition shadowed : ContainerState :=
  after (StoreContainer (req "id2" "id1") 2 (after (StoreContainer (req "id1" "web") 1 init))).

Lemma shadowed_reachable : csm_reachable shadowed.
Proof.
  eapply rtc_l; [|apply rtc_once].
  - by apply (step_StoreContainer (req "id1" "web") 1).
  - by apply (step_StoreContainer (req "id2" "id1") 2).
Qed.

Example container_lookup_witness :
  RemoveContainer "id1" shadowed =
    Ok (set_Containers shadowed (delete "id1" (Containers shadowed)), tt).
Proof. apply (container_lookup shadowed "id1" shadowed_reachable). Defined.

Example ResolveContainerId_correct_witness :
  ResolveContainerId "id1" shadowed shadowed = Ok "id2" /\
  exists c, Containers shadowed !! "id2" = Some c /\
    (ContainerName c = "id1" \/ "id2" = "id1" /\
     forall k d, Containers shadowed !! k = Some d -> ContainerName d <> "id1").
Proof.
  pose proof (ResolveContainerId_correct shadowed "id1" shadowed_reachable) as H.
  assert (ResolveContainerId "id1" shadowed shadowed = Ok "id2") as E
    by (vm_compute; reflexivity).
  rewrite E in H. split; [exact E|exact H].
Defined.
