(* ===== verification/Psm.v ===== *)
(** * Pods, templates, replica sets and deployments ([store/psm])

    The tables that the pod controller reconciles: one state with four maps
    and the transactions on each. *)

From Stdlib Require Import ZArith Lia String.
From stdpp Require Import base gmap strings list relations.
From S2P Require Import Prelude.
From S2P Require Import GoString.
From S2P Require Import Persist.
Open Scope Z_scope.

(** ** Data ([model.go]) *)

Definition PodStateCreated : string := "created".
Definition PodStateRunning : string := "running".
Definition PodStateStopped : string := "stopped".
Definition PodStateDegraded : string := "degraded".
Definition ContainerStateCreated : string := "created".
Definition ContainerStateRunning : string := "running".
Definition ContainerStateStopped : string := "stopped".
Definition OwnerKindReplicaSet : string := "ReplicaSet".

Record PodInfo := {
  PodId : string;
  TemplateId : string;
  OwnerKind : string;
  OwnerId : string;
  Name : string;
  Namespace : string;
  UID : string;
  State : string;
  OwnerPid : Z;
  NetworkNS : string;
  IPCNS : string;
  UTSNS : string;
  UserNS : string;
  Rootless : bool;
  Labels : gmap string string;
  Annotations : gmap string string;
  CreatedAt : Z;
  StartedAt : Z;
  StoppedAt : Z;
  StoppedByUser : bool
}.

Record StorePodRequest := {
  req_PodId : string;
  req_TemplateId : string;
  req_OwnerKind : string;
  req_OwnerId : string;
  req_Name : string;
  req_Namespace : string;
  req_UID : string;
  req_State : string;
  req_NetworkNS : string;
  req_IPCNS : string;
  req_UTSNS : string;
  req_UserNS : string;
  req_Rootless : bool;
  req_Labels : gmap string string;
  req_Annotations : gmap string string
}.

Record ContainerTemplateSpec := {
  ct_Name : string;
  Image : string;
  ct_Command : list string;
  Port : list string;
  Mount : list string;
  Env : list string;
  CapAdd : list string;
  CapDrop : list string;
  ct_SecurityProfile : string;
  Network : string;
  ct_Tty : bool
}.

Record PodTemplateSpec := {
  pt_Name : string;
  pt_Namespace : string;
  pt_NetworkNS : string;
  pt_IPCNS : string;
  pt_UTSNS : string;
  pt_UserNS : string;
  pt_Rootless : bool;
  pt_Labels : gmap string string;
  pt_Annotations : gmap string string;
  pt_Containers : list ContainerTemplateSpec
}.

Record PodTemplateInfo := {
  ti_TemplateId : string;
  ti_Spec : PodTemplateSpec;
  ti_CreatedAt : Z
}.

Record ReplicaSetSpec := {
  rs_Name : string;
  rs_Namespace : string;
  Replicas : Z;
  rs_TemplateId : string;
  rs_Selector : gmap string string
}.

Record ReplicaSetInfo := {
  ReplicaSetId : string;
  ri_Spec : ReplicaSetSpec;
  ri_CreatedAt : Z;
  ReconcileAttempt : Z;
  LastReconcileError : string;
  NextReconcileAt : Z
}.

Record DeploymentSpec := {
  d_Name : string;
  d_Namespace : string;
  d_Replicas : Z;
  d_TemplateId : string;
  d_Selector : gmap string string;
  d_ReplicaSetId : string
}.

Record DeploymentInfo := {
  DeploymentId : string;
  di_Spec : DeploymentSpec;
  di_CreatedAt : Z;
  UpdatedAt : Z
}.

Record PodState := {
  Version : string;
  Pods : gmap string PodInfo;
  PodTemplates : gmap string PodTemplateInfo;
  ReplicaSets : gmap string ReplicaSetInfo;
  Deployments : gmap string DeploymentInfo
}.

Definition set_Pods (st : PodState) (m : gmap string PodInfo) : PodState :=
  {| Version := Version st; Pods := m; PodTemplates := PodTemplates st;
     ReplicaSets := ReplicaSets st; Deployments := Deployments st |}.
Definition set_PodTemplates (st : PodState) (m : gmap string PodTemplateInfo) : PodState :=
  {| Version := Version st; Pods := Pods st; PodTemplates := m;
     ReplicaSets := ReplicaSets st; Deployments := Deployments st |}.
Definition set_ReplicaSets (st : PodState) (m : gmap string ReplicaSetInfo) : PodState :=
  {| Version := Version st; Pods := Pods st; PodTemplates := PodTemplates st;
     ReplicaSets := m; Deployments := Deployments st |}.
Definition set_Deployments (st : PodState) (m : gmap string DeploymentInfo) : PodState :=
  {| Version := Version st; Pods := Pods st; PodTemplates := PodTemplates st;
     ReplicaSets := ReplicaSets st; Deployments := m |}.

(** ** Operations ([psm.go]) *)

Definition podId_not_found (id : string) : error := "podId=" +:+ id +:+ " not found".
Definition pod_not_found (id : string) : error := "pod: " +:+ id +:+ " not found".
Definition template_not_found (id : string) : error :=
  "podTemplateId=" +:+ id +:+ " not found".
Definition replicaSet_not_found (id : string) : error :=
  "replicaSetId=" +:+ id +:+ " not found".
Definition deployment_not_found (id : string) : error :=
  "deploymentId=" +:+ id +:+ " not found".

(** The zero [time.Time]. *)
Definition zero_time : Z := 0.

Section manager.
Context {RO : RangeOrder}.
Implicit Types st : PodState.

(** *** Pods *)

Definition new_pod (req : StorePodRequest) (now : Z) : PodInfo :=
  {| PodId := req_PodId req; TemplateId := req_TemplateId req;
     OwnerKind := req_OwnerKind req; OwnerId := req_OwnerId req; Name := req_Name req;
     Namespace := req_Namespace req; UID := req_UID req; State := req_State req;
     OwnerPid := 0; NetworkNS := req_NetworkNS req; IPCNS := req_IPCNS req;
     UTSNS := req_UTSNS req; UserNS := req_UserNS req; Rootless := req_Rootless req;
     Labels := req_Labels req; Annotations := req_Annotations req; CreatedAt := now;
     StartedAt := zero_time; StoppedAt := zero_time; StoppedByUser := false |}.

Definition StorePod (req : StorePodRequest) (now : Z) st : res (PodState * unit) :=
  Ok (set_Pods st (<[req_PodId req := new_pod req now]> (Pods st)), tt).

(** [p, ok := st.Pods[podId]; if !ok { ... }; ...; st.Pods[podId] = p]. *)
Definition update_pod (podId : string) (f : PodInfo -> PodInfo) st
    : res (PodState * unit) :=
  m ← update_entry (podId_not_found podId) podId (fun p => Ok (f p)) (Pods st);
  Ok (set_Pods st m, tt).

Definition UpdatePod (podId state : string) (now : Z) st : res (PodState * unit) :=
  update_pod podId (fun p =>
    {| PodId := PodId p; TemplateId := TemplateId p;
       OwnerKind := OwnerKind p; OwnerId := OwnerId p; Name := Name p;
       Namespace := Namespace p; UID := UID p; State := state;
       OwnerPid := OwnerPid p; NetworkNS := NetworkNS p; IPCNS := IPCNS p;
       UTSNS := UTSNS p; UserNS := UserNS p; Rootless := Rootless p;
       Labels := Labels p; Annotations := Annotations p;
       CreatedAt := if String.eqb state PodStateCreated then now else CreatedAt p;
       StartedAt := if String.eqb state PodStateRunning then now else StartedAt p;
       StoppedAt := if String.eqb state PodStateStopped then now else StoppedAt p;
       StoppedByUser := StoppedByUser p |}) st.

Definition UpdatePodOwner (podId ownerKind ownerId : string) st : res (PodState * unit) :=
  update_pod podId (fun p =>
    {| PodId := PodId p; TemplateId := TemplateId p; OwnerKind := ownerKind;
       OwnerId := ownerId; Name := Name p; Namespace := Namespace p;
       UID := UID p; State := State p; OwnerPid := OwnerPid p;
       NetworkNS := NetworkNS p; IPCNS := IPCNS p; UTSNS := UTSNS p;
       UserNS := UserNS p; Rootless := Rootless p; Labels := Labels p;
       Annotations := Annotations p; CreatedAt := CreatedAt p;
       StartedAt := StartedAt p; StoppedAt := StoppedAt p;
       StoppedByUser := StoppedByUser p |}) st.

Definition UpdatePodStoppedByUser (podId : string) (stopped : bool) st
    : res (PodState * unit) :=
  update_pod podId (fun p =>
    {| PodId := PodId p; TemplateId := TemplateId p;
       OwnerKind := OwnerKind p; OwnerId := OwnerId p; Name := Name p;
       Namespace := Namespace p; UID := UID p; State := State p;
       OwnerPid := OwnerPid p; NetworkNS := NetworkNS p; IPCNS := IPCNS p;
       UTSNS := UTSNS p; UserNS := UserNS p; Rootless := Rootless p;
       Labels := Labels p; Annotations := Annotations p;
       CreatedAt := CreatedAt p; StartedAt := StartedAt p;
       StoppedAt := StoppedAt p; StoppedByUser := stopped |}) st.

(** A namespace path is set once: the first non-empty one stays. *)
Definition keep_first (old new : string) : string :=
  if String.eqb old "" && negb (String.eqb new "") then new else old.

Definition UpdatePodNamespaces (ownerPid : Z) (podId networkNS ipcNS utsNS userNS : string)
    st : res (PodState * unit) :=
  update_pod podId (fun p =>
    {| PodId := PodId p; TemplateId := TemplateId p;
       OwnerKind := OwnerKind p; OwnerId := OwnerId p; Name := Name p;
       Namespace := Namespace p; UID := UID p; State := State p;
       OwnerPid := ownerPid; NetworkNS := keep_first (NetworkNS p) networkNS;
       IPCNS := keep_first (IPCNS p) ipcNS;
       UTSNS := keep_first (UTSNS p) utsNS;
       UserNS := keep_first (UserNS p) userNS; Rootless := Rootless p;
       Labels := Labels p; Annotations := Annotations p;
       CreatedAt := CreatedAt p; StartedAt := StartedAt p;
       StoppedAt := StoppedAt p; StoppedByUser := StoppedByUser p |}) st.

Definition ResetPodNamespaces (podId : string) st : res (PodState * unit) :=
  update_pod podId (fun p =>
    {| PodId := PodId p; TemplateId := TemplateId p;
       OwnerKind := OwnerKind p; OwnerId := OwnerId p; Name := Name p;
       Namespace := Namespace p; UID := UID p; State := State p;
       OwnerPid := 0; NetworkNS := ""; IPCNS := ""; UTSNS := "";
       UserNS := ""; Rootless := Rootless p; Labels := Labels p;
       Annotations := Annotations p; CreatedAt := CreatedAt p;
       StartedAt := StartedAt p; StoppedAt := StoppedAt p;
       StoppedByUser := StoppedByUser p |}) st.

Definition RemovePod (podId : string) st : res (PodState * unit) :=
  m ← remove_entry (podId_not_found podId) podId (Pods st);
  Ok (set_Pods st m, tt).

Definition GetPodList st : res (list PodInfo) := Ok (range_values (Pods st)).

Definition lookup_pod (podId : string) st : res PodInfo :=
  match Pods st !! podId with Some p => Ok p | None => Err (pod_not_found podId) end.

Definition GetPodById (podId : string) st : res PodInfo := lookup_pod podId st.

Definition named (name namespace : string) (p : PodInfo) : bool :=
  String.eqb (Name p) name && String.eqb (Namespace p) namespace.

Definition IsNameAlreadyUsed (name namespace : string) st : res bool :=
  Ok (match range_find (named name namespace) (Pods st) with
      | Some _ => true
      | None => false
      end).

Definition GetPodIdByName (name namespace : string) st : res string :=
  match range_find (named name namespace) (Pods st) with
  | Some (_, p) => Ok (PodId p)
  | None => Err ("pod: " +:+ namespace +:+ "/" +:+ name +:+ " not found")
  end.

(** Two reads of the store: by name, then by id. *)
Definition ResolvePodId (str namespace : string) st1 st2 : res string :=
  let by_id :=
    match GetPodById str st2 with
    | Ok _ => Ok str
    | Err e => Err e
    | Panic e => Panic e
    end in
  if negb (String.eqb namespace "") then
    match GetPodIdByName str namespace st1 with
    | Ok podId => Ok podId
    | _ => by_id
    end
  else by_id.

Definition IsPodExist (podId : string) st : bool := is_ok (GetPodById podId st).

(** An error of the store counts as "not the owner". *)
Definition IsPodOwner (podId : string) st : bool :=
  if String.eqb podId "" then false else
  match Pods st !! podId with
  | None => false
  | Some p => String.eqb (UserNS p) "" && String.eqb (NetworkNS p) "" &&
              String.eqb (IPCNS p) "" && String.eqb (UTSNS p) ""
  end.

Definition GetPodOwnerPid (podId : string) st : res Z :=
  p ← lookup_pod podId st; Ok (OwnerPid p).

(** *** Templates *)

Definition StorePodTemplate (templateId : string) (spec : PodTemplateSpec) (now : Z) st
    : res (PodState * unit) :=
  let t := {| ti_TemplateId := templateId; ti_Spec := spec; ti_CreatedAt := now |} in
  Ok (set_PodTemplates st (<[templateId := t]> (PodTemplates st)), tt).

Definition GetPodTemplate (templateId : string) st : res PodTemplateInfo :=
  match PodTemplates st !! templateId with
  | Some t => Ok t
  | None => Err (template_not_found templateId)
  end.

Definition GetPodTemplateList st : res (list PodTemplateInfo) :=
  Ok (range_values (PodTemplates st)).

(** Replace the first container of the same, non-empty name, or append. *)
Fixpoint put_container (spec : ContainerTemplateSpec) (l : list ContainerTemplateSpec)
    : list ContainerTemplateSpec :=
  match l with
  | [] => [spec]
  | c :: l' =>
      if String.eqb (ct_Name c) (ct_Name spec) && negb (String.eqb (ct_Name spec) "")
      then spec :: l' else c :: put_container spec l'
  end.

Definition AddContainerToPodTemplate (podId : string) (spec : ContainerTemplateSpec) st
    : res (PodState * unit) :=
  match Pods st !! podId with
  | None => Err (podId_not_found podId)
  | Some pod =>
      if String.eqb (TemplateId pod) ""
      then Err ("podId=" +:+ podId +:+ " has no templateId") else
      m ← update_entry (template_not_found (TemplateId pod)) (TemplateId pod) (fun tpl =>
            let s := ti_Spec tpl in
            let s := {| pt_Name := pt_Name s; pt_Namespace := pt_Namespace s;
                        pt_NetworkNS := pt_NetworkNS s;
                        pt_IPCNS := pt_IPCNS s; pt_UTSNS := pt_UTSNS s;
                        pt_UserNS := pt_UserNS s;
                        pt_Rootless := pt_Rootless s;
                        pt_Labels := pt_Labels s;
                        pt_Annotations := pt_Annotations s;
                        pt_Containers := put_container spec (pt_Containers s) |} in
            Ok {| ti_TemplateId := ti_TemplateId tpl; ti_Spec := s;
                  ti_CreatedAt := ti_CreatedAt tpl |})
          (PodTemplates st);
      Ok (set_PodTemplates st m, tt)
  end.

Definition RemovePodTemplate (templateId : string) st : res (PodState * unit) :=
  m ← remove_entry (template_not_found templateId) templateId (PodTemplates st);
  Ok (set_PodTemplates st m, tt).

Definition IsTemplateReferenced (templateId : string) st : res bool :=
  Ok (existsb (fun rs => String.eqb (rs_TemplateId (ri_Spec rs)) templateId)
        (range_values (ReplicaSets st)) ||
      existsb (fun d => String.eqb (d_TemplateId (di_Spec d)) templateId)
        (range_values (Deployments st))).

(** *** Replica sets *)

Definition StoreReplicaSet (replicaSetId : string) (spec : ReplicaSetSpec) (now : Z) st
    : res (PodState * unit) :=
  let rs := {| ReplicaSetId := replicaSetId; ri_Spec := spec; ri_CreatedAt := now;
               ReconcileAttempt := 0; LastReconcileError := "";
               NextReconcileAt := zero_time |} in
  Ok (set_ReplicaSets st (<[replicaSetId := rs]> (ReplicaSets st)), tt).

Definition GetReplicaSet (replicaSetId : string) st : res ReplicaSetInfo :=
  match ReplicaSets st !! replicaSetId with
  | Some rs => Ok rs
  | None => Err (replicaSet_not_found replicaSetId)
  end.

Definition GetReplicaSetList st : res (list ReplicaSetInfo) :=
  Ok (range_values (ReplicaSets st)).

Definition update_replicaSet (replicaSetId : string)
    (f : ReplicaSetInfo -> res ReplicaSetInfo) st : res (PodState * unit) :=
  m ← update_entry (replicaSet_not_found replicaSetId) replicaSetId f (ReplicaSets st);
  Ok (set_ReplicaSets st m, tt).

Definition UpdateReplicaSetReplicas (replicaSetId : string) (replicas : Z) st
    : res (PodState * unit) :=
  update_replicaSet replicaSetId (fun rs =>
    if replicas <? 0 then Err "replicas must be >= 0" else
    let s := ri_Spec rs in
    let s := {| rs_Name := rs_Name s; rs_Namespace := rs_Namespace s;
                Replicas := replicas; rs_TemplateId := rs_TemplateId s;
                rs_Selector := rs_Selector s |} in
    Ok {| ReplicaSetId := ReplicaSetId rs; ri_Spec := s;
          ri_CreatedAt := ri_CreatedAt rs;
          ReconcileAttempt := ReconcileAttempt rs;
          LastReconcileError := LastReconcileError rs;
          NextReconcileAt := NextReconcileAt rs |}) st.

Definition set_reconcile (attempt : Z) (lastError : string) (next : Z)
    (rs : ReplicaSetInfo) : ReplicaSetInfo :=
  {| ReplicaSetId := ReplicaSetId rs; ri_Spec := ri_Spec rs;
     ri_CreatedAt := ri_CreatedAt rs; ReconcileAttempt := attempt;
     LastReconcileError := lastError; NextReconcileAt := next |}.

Definition UpdateReplicaSetSpec (replicaSetId : string) (spec : ReplicaSetSpec) st
    : res (PodState * unit) :=
  update_replicaSet replicaSetId (fun rs =>
    if Replicas spec <? 0 then Err "replicas must be >= 0" else
    let rs := {| ReplicaSetId := ReplicaSetId rs; ri_Spec := spec;
                 ri_CreatedAt := ri_CreatedAt rs;
                 ReconcileAttempt := ReconcileAttempt rs;
                 LastReconcileError := LastReconcileError rs;
                 NextReconcileAt := NextReconcileAt rs |} in
    Ok (set_reconcile 0 "" zero_time rs)) st.

Definition UpdateReplicaSetReconcileStatus (replicaSetId : string) (attempt : Z)
    (lastError : string) (nextReconcileAt : Z) st : res (PodState * unit) :=
  update_replicaSet replicaSetId
    (fun rs => Ok (set_reconcile attempt lastError nextReconcileAt rs)) st.

Definition ClearReplicaSetReconcileStatus (replicaSetId : string) st
    : res (PodState * unit) :=
  update_replicaSet replicaSetId (fun rs => Ok (set_reconcile 0 "" zero_time rs)) st.

Definition RemoveReplicaSet (replicaSetId : string) st : res (PodState * unit) :=
  m ← remove_entry (replicaSet_not_found replicaSetId) replicaSetId (ReplicaSets st);
  Ok (set_ReplicaSets st m, tt).

(** *** Deployments *)

Definition StoreDeployment (deploymentId : string) (spec : DeploymentSpec) (now : Z) st
    : res (PodState * unit) :=
  let d := {| DeploymentId := deploymentId; di_Spec := spec; di_CreatedAt := now;
              UpdatedAt := now |} in
  Ok (set_Deployments st (<[deploymentId := d]> (Deployments st)), tt).

Definition GetDeployment (deploymentId : string) st : res DeploymentInfo :=
  match Deployments st !! deploymentId with
  | Some d => Ok d
  | None => Err (deployment_not_found deploymentId)
  end.

Definition GetDeploymentList st : res (list DeploymentInfo) :=
  Ok (range_values (Deployments st)).

Definition update_deployment (deploymentId : string)
    (f : DeploymentInfo -> res DeploymentInfo) st : res (PodState * unit) :=
  m ← update_entry (deployment_not_found deploymentId) deploymentId f (Deployments st);
  Ok (set_Deployments st m, tt).

Definition UpdateDeploymentReplicas (deploymentId : string) (replicas now : Z) st
    : res (PodState * unit) :=
  update_deployment deploymentId (fun d =>
    if replicas <? 0 then Err "replicas must be >= 0" else
    let s := di_Spec d in
    let s := {| d_Name := d_Name s; d_Namespace := d_Namespace s;
                d_Replicas := replicas; d_TemplateId := d_TemplateId s;
                d_Selector := d_Selector s;
                d_ReplicaSetId := d_ReplicaSetId s |} in
    Ok {| DeploymentId := DeploymentId d; di_Spec := s;
          di_CreatedAt := di_CreatedAt d; UpdatedAt := now |}) st.

Definition UpdateDeploymentSpec (deploymentId : string) (spec : DeploymentSpec) (now : Z)
    st : res (PodState * unit) :=
  update_deployment deploymentId (fun d =>
    if d_Replicas spec <? 0 then Err "replicas must be >= 0" else
    Ok {| DeploymentId := DeploymentId d; di_Spec := spec;
          di_CreatedAt := di_CreatedAt d; UpdatedAt := now |}) st.

Definition UpdateDeploymentReplicaSet (deploymentId replicaSetId : string) (now : Z) st
    : res (PodState * unit) :=
  update_deployment deploymentId (fun d =>
    let s := di_Spec d in
    let s := {| d_Name := d_Name s; d_Namespace := d_Namespace s;
                d_Replicas := d_Replicas s; d_TemplateId := d_TemplateId s;
                d_Selector := d_Selector s; d_ReplicaSetId := replicaSetId |} in
    Ok {| DeploymentId := DeploymentId d; di_Spec := s;
          di_CreatedAt := di_CreatedAt d; UpdatedAt := now |}) st.

Definition RemoveDeployment (deploymentId : string) st : res (PodState * unit) :=
  m ← remove_entry (deployment_not_found deploymentId) deploymentId (Deployments st);
  Ok (set_Deployments st m, tt).
End manager.

(** ** The store ([store.go]) *)

Definition init : PodState :=
  {| Version := "0.3.0"; Pods := ∅; PodTemplates := ∅; ReplicaSets := ∅;
     Deployments := ∅ |}.
(** A nil map and an empty map are the same [gmap]. *)
Definition repair (st : PodState) : PodState := st.
Definition SetPodState_tx (st : PodState) : res (PodState * unit) :=
  Ok ({| Version := "0.3.0"; Pods := Pods st;
         PodTemplates := PodTemplates st; ReplicaSets := ReplicaSets st;
         Deployments := Deployments st |}, tt).

Section store.
Context {C : Codec PodState}.

Definition loadOrInit (path : string) : fsM PodState :=
  Persist.loadOrInit path "pod state json broken" init repair.
Definition atomicSave : string -> PodState -> fsM unit := Persist.atomicSave.
Definition withLock {A} (path : string) : (PodState -> res (PodState * A)) -> fsM A :=
  Persist.withLock path (loadOrInit path).
Definition withRLock {A} (path : string) : (PodState -> res A) -> fsM A :=
  Persist.withRLock path (loadOrInit path).
Definition SetPodState (path : string) : fsM unit := withLock path SetPodState_tx.
End store.

(** ** Executions *)

Section executions.
Context {RO : RangeOrder}.
Implicit Types st : PodState.

(** The transactions of the manager, as functions of the state. *)
Inductive psm_op : Type :=
  | op_StorePod (req : StorePodRequest) (now : Z)
  | op_UpdatePod (podId state : string) (now : Z)
  | op_UpdatePodOwner (podId ownerKind ownerId : string)
  | op_UpdatePodStoppedByUser (podId : string) (stopped : bool)
  | op_UpdatePodNamespaces (ownerPid : Z) (podId net ipc uts user : string)
  | op_ResetPodNamespaces (podId : string)
  | op_RemovePod (podId : string)
  | op_StorePodTemplate (templateId : string) (spec : PodTemplateSpec) (now : Z)
  | op_AddContainerToPodTemplate (podId : string) (spec : ContainerTemplateSpec)
  | op_RemovePodTemplate (templateId : string)
  | op_StoreReplicaSet (replicaSetId : string) (spec : ReplicaSetSpec) (now : Z)
  | op_UpdateReplicaSetReplicas (replicaSetId : string) (replicas : Z)
  | op_UpdateReplicaSetSpec (replicaSetId : string) (spec : ReplicaSetSpec)
  | op_UpdateReplicaSetReconcileStatus (replicaSetId : string) (attempt : Z)
      (lastError : string) (next : Z)
  | op_ClearReplicaSetReconcileStatus (replicaSetId : string)
  | op_RemoveReplicaSet (replicaSetId : string)
  | op_StoreDeployment (deploymentId : string) (spec : DeploymentSpec) (now : Z)
  | op_UpdateDeploymentReplicas (deploymentId : string) (replicas now : Z)
  | op_UpdateDeploymentSpec (deploymentId : string) (spec : DeploymentSpec) (now : Z)
  | op_UpdateDeploymentReplicaSet (deploymentId replicaSetId : string) (now : Z)
  | op_RemoveDeployment (deploymentId : string)
  | op_SetPodState.

Definition run_op (o : psm_op) : PodState -> res (PodState * unit) :=
  match o with
  | op_StorePod req now => StorePod req now
  | op_UpdatePod p s now => UpdatePod p s now
  | op_UpdatePodOwner p k o => UpdatePodOwner p k o
  | op_UpdatePodStoppedByUser p b => UpdatePodStoppedByUser p b
  | op_UpdatePodNamespaces pid p n i u us => UpdatePodNamespaces pid p n i u us
  | op_ResetPodNamespaces p => ResetPodNamespaces p
  | op_RemovePod p => RemovePod p
  | op_StorePodTemplate t s now => StorePodTemplate t s now
  | op_AddContainerToPodTemplate p s => AddContainerToPodTemplate p s
  | op_RemovePodTemplate t => RemovePodTemplate t
  | op_StoreReplicaSet r s now => StoreReplicaSet r s now
  | op_UpdateReplicaSetReplicas r n => UpdateReplicaSetReplicas r n
  | op_UpdateReplicaSetSpec r s => UpdateReplicaSetSpec r s
  | op_UpdateReplicaSetReconcileStatus r a e n => UpdateReplicaSetReconcileStatus r a e n
  | op_ClearReplicaSetReconcileStatus r => ClearReplicaSetReconcileStatus r
  | op_RemoveReplicaSet r => RemoveReplicaSet r
  | op_StoreDeployment d s now => StoreDeployment d s now
  | op_UpdateDeploymentReplicas d n now => UpdateDeploymentReplicas d n now
  | op_UpdateDeploymentSpec d s now => UpdateDeploymentSpec d s now
  | op_UpdateDeploymentReplicaSet d r now => UpdateDeploymentReplicaSet d r now
  | op_RemoveDeployment d => RemoveDeployment d
  | op_SetPodState => SetPodState_tx
  end.

(** A store that runs transactions one after another; one that fails leaves
    the state as it is ([withLock] returns before the save). *)
Definition run_ops (st : PodState) (ops : list psm_op) : PodState :=
  fold_left (fun st o => match run_op o st with Ok (st', _) => st' | _ => st end) ops st.

(** What the operations assume of a new specification: the manifests are
    checked before they are stored. *)
Definition op_valid (o : psm_op) : bool :=
  match o with
  | op_StoreReplicaSet _ s _ => 0 <=? Replicas s
  | op_StoreDeployment _ s _ => 0 <=? d_Replicas s
  | _ => true
  end.

(** Every entry is stored under the id it carries. *)
Record tables_keyed st : Prop := {
  keyed_pods : keyed PodId (Pods st);
  keyed_templates : keyed ti_TemplateId (PodTemplates st);
  keyed_replicaSets : keyed ReplicaSetId (ReplicaSets st);
  keyed_deployments : keyed DeploymentId (Deployments st)
}.

Definition replicas_ok st : Prop :=
  map_Forall (fun _ rs => 0 <= Replicas (ri_Spec rs)) (ReplicaSets st) /\
  map_Forall (fun _ d => 0 <= d_Replicas (di_Spec d)) (Deployments st).

Lemma update_pod_ok podId f st st' :
  update_pod podId f st = Ok (st', tt) <->
  exists p, Pods st !! podId = Some p /\ st' = set_Pods st (<[podId := f p]> (Pods st)).
Proof.
  unfold update_pod. rewrite res_bind_ok. setoid_rewrite update_entry_ok. naive_solver.
Qed.

Lemma update_replicaSet_ok id f st st' :
  update_replicaSet id f st = Ok (st', tt) <->
  exists rs rs', ReplicaSets st !! id = Some rs /\ f rs = Ok rs' /\
    st' = set_ReplicaSets st (<[id := rs']> (ReplicaSets st)).
Proof.
  unfold update_replicaSet. rewrite res_bind_ok. setoid_rewrite update_entry_ok.
  naive_solver.
Qed.

Lemma update_deployment_ok id f st st' :
  update_deployment id f st = Ok (st', tt) <->
  exists d d', Deployments st !! id = Some d /\ f d = Ok d' /\
    st' = set_Deployments st (<[id := d']> (Deployments st)).
Proof.
  unfold update_deployment. rewrite res_bind_ok. setoid_rewrite update_entry_ok.
  naive_solver.
Qed.

(** What one transaction leaves of each table. *)
Ltac psm_cases H :=
  repeat match type of H with
    | update_pod _ _ _ = _ => apply update_pod_ok in H as (? & ? & ->)
    | update_replicaSet _ _ _ = _ =>
        apply update_replicaSet_ok in H as (? & ? & ? & H & ->)
    | update_deployment _ _ _ = _ =>
        apply update_deployment_ok in H as (? & ? & ? & H & ->)
    | (_ ≫= _) = Ok _ =>
        let m := fresh "m" in let Hm := fresh "Hm" in
        apply res_bind_ok in H as (m & Hm & H);
        first [apply remove_entry_ok in Hm as [_ ->]
              |apply update_entry_ok in Hm as (? & ? & ? & Hm & ->)]
    | (if ?b then _ else _) = Ok _ => destruct b eqn:?; [discriminate H|]
    | match ?x with _ => _ end = Ok _ => destruct x eqn:?; [|discriminate H]
    | Ok _ = Ok _ => injection H as <-
    end.

Lemma run_op_keyed o st st' :
  tables_keyed st -> run_op o st = Ok (st', tt) -> tables_keyed st'.
Proof.
  intros [H1 H2 H3 H4] H.
  destruct o; simpl in H;
    unfold StorePod, UpdatePod, UpdatePodOwner, UpdatePodStoppedByUser,
      UpdatePodNamespaces, ResetPodNamespaces, RemovePod, StorePodTemplate,
      AddContainerToPodTemplate, RemovePodTemplate, StoreReplicaSet,
      UpdateReplicaSetReplicas, UpdateReplicaSetSpec, UpdateReplicaSetReconcileStatus,
      ClearReplicaSetReconcileStatus, RemoveReplicaSet, StoreDeployment,
      UpdateDeploymentReplicas, UpdateDeploymentSpec, UpdateDeploymentReplicaSet,
      RemoveDeployment, SetPodState_tx in H;
    psm_cases H; simplify_eq; split; simpl; auto with go;
    apply keyed_insert; auto; simpl; eauto.
Qed.

Lemma run_op_replicas o st st' :
  op_valid o = true -> replicas_ok st -> run_op o st = Ok (st', tt) -> replicas_ok st'.
Proof.
  intros Hv [H1 H2] H.
  destruct o; simpl in H, Hv;
    unfold StorePod, UpdatePod, UpdatePodOwner, UpdatePodStoppedByUser,
      UpdatePodNamespaces, ResetPodNamespaces, RemovePod, StorePodTemplate,
      AddContainerToPodTemplate, RemovePodTemplate, StoreReplicaSet,
      UpdateReplicaSetReplicas, UpdateReplicaSetSpec, UpdateReplicaSetReconcileStatus,
      ClearReplicaSetReconcileStatus, RemoveReplicaSet, StoreDeployment,
      UpdateDeploymentReplicas, UpdateDeploymentSpec, UpdateDeploymentReplicaSet,
      RemoveDeployment, SetPodState_tx in H;
    psm_cases H; simplify_eq; split; cbn;
    first [exact H1 | exact H2 | by apply map_Forall_delete
          |apply map_Forall_insert_2; [cbn|assumption]];
    first [lia | by eapply H1 | by eapply H2].
Qed.

Lemma run_ops_inv (I : PodState -> Prop) (ok : psm_op -> bool) st ops :
  (forall o st st', ok o = true -> I st -> run_op o st = Ok (st', tt) -> I st') ->
  forallb ok ops = true -> I st -> I (run_ops st ops).
Proof.
  intros Hstep. revert st. induction ops as [|o ops IH]; intros st; simpl; [done|].
  intros [Ho Hops]%andb_true_iff Hst. apply IH; [done|].
  destruct (run_op o st) as [[st' []]| |] eqn:E; eauto.
Qed.
End executions.

(** ** The properties *)

Section properties.
Context {RO : RangeOrder}.
Implicit Types st : PodState.

(** After any sequence of transactions on the empty store, every pod,
    template, replica set and deployment is stored under its own id, and no
    replica count is negative as long as the specifications stored first are
    not: the updates refuse negative counts themselves. *)
Theorem psm_tables_ok ops :
  forallb op_valid ops = true ->
  tables_keyed (run_ops init ops) /\ replicas_ok (run_ops init ops).
Proof.
  intros Hops. split.
  - apply (run_ops_inv tables_keyed op_valid); [|done|].
    + intros o st st' _. apply run_op_keyed.
    + split; apply keyed_empty.
  - apply (run_ops_inv replicas_ok op_valid); [|done|].
    + apply run_op_replicas.
    + split; apply map_Forall_empty.
Qed.

(** The first non-empty path of a sequence. *)
Definition first_path (old : string) (l : list string) : string :=
  fold_left keep_first l old.

Lemma first_path_set old l : old <> "" -> first_path old l = old.
Proof.
  intros Hold. unfold first_path. induction l as [|x l IH]; simpl; [done|].
  unfold keep_first at 2. apply String.eqb_neq in Hold. by rewrite Hold.
Qed.

Lemma last_cons_default {A} (x d : A) (l : list A) :
  List.last (x :: l) d = List.last l x.
Proof. revert x d. induction l as [|y l IH]; intros x d; [done|].
  change (List.last (y :: l) d = List.last (y :: l) x). by rewrite !IH.
Qed.

(** A call of [UpdatePodNamespaces] on pod [podId]. *)
Definition ns_update (podId : string) (u : Z * (string * string * string * string))
    : psm_op :=
  let '(pid, (net, ipc, uts, user)) := u in op_UpdatePodNamespaces pid podId net ipc uts user.

Definition ns_path (sel : string * string * string * string -> string)
    (us : list (Z * (string * string * string * string))) : list string :=
  (fun u => sel u.2) <$> us.

(** The namespace paths of a pod are written once.  After any sequence of
    [UpdatePodNamespaces] calls for a stored pod each path is the first
    non-empty one among the stored path and the given ones in order, the owner
    pid is the last one given, and the pod is otherwise what it was; a reset
    clears the paths again. *)
Theorem UpdatePodNamespaces_first_wins podId us st p :
  Pods st !! podId = Some p ->
  (exists p', Pods (run_ops st (ns_update podId <$> us)) !! podId = Some p' /\
    NetworkNS p' = first_path (NetworkNS p) (ns_path (fun x => x.1.1.1) us) /\
    IPCNS p' = first_path (IPCNS p) (ns_path (fun x => x.1.1.2) us) /\
    UTSNS p' = first_path (UTSNS p) (ns_path (fun x => x.1.2) us) /\
    UserNS p' = first_path (UserNS p) (ns_path (fun x => x.2) us) /\
    OwnerPid p' = List.last us.*1 (OwnerPid p) /\
    (State p', Name p', Namespace p', OwnerId p', TemplateId p', StoppedByUser p') =
      (State p, Name p, Namespace p, OwnerId p, TemplateId p, StoppedByUser p)) /\
  (exists p', Pods (run_ops st ((ns_update podId <$> us) ++ [op_ResetPodNamespaces podId]))
      !! podId = Some p' /\
    (OwnerPid p', NetworkNS p', IPCNS p', UTSNS p', UserNS p') = (0, "", "", "", "")).
Proof.
  intros Hp.
  assert (exists p', Pods (run_ops st (ns_update podId <$> us)) !! podId = Some p' /\
    NetworkNS p' = first_path (NetworkNS p) (ns_path (fun x => x.1.1.1) us) /\
    IPCNS p' = first_path (IPCNS p) (ns_path (fun x => x.1.1.2) us) /\
    UTSNS p' = first_path (UTSNS p) (ns_path (fun x => x.1.2) us) /\
    UserNS p' = first_path (UserNS p) (ns_path (fun x => x.2) us) /\
    OwnerPid p' = List.last us.*1 (OwnerPid p) /\
    (State p', Name p', Namespace p', OwnerId p', TemplateId p', StoppedByUser p') =
      (State p, Name p, Namespace p, OwnerId p, TemplateId p, StoppedByUser p)) as H.
  { revert st p Hp. induction us as [|[pid [[[net ipc] uts] user]] us IH]; intros st p Hp.
    - exists p. done.
    - rewrite fmap_cons. unfold run_ops. simpl fold_left.
      unfold UpdatePodNamespaces, update_pod, update_entry. rewrite Hp.
      cbn [mbind res_bind].
      match goal with
      | |- context [set_Pods st (<[podId := ?q]> _)] =>
          destruct (IH (set_Pods st (<[podId := q]> (Pods st))) q
            (lookup_insert_eq _ _ _)) as (p' & Hp' & Hn & Hi & Hu & Hus & Ho & Hrest)
      end.
      exists p'. split; [exact Hp'|]. cbn in *.
      rewrite Hn, Hi, Hu, Hus, Ho. split_and!; try done.
      symmetry. apply last_cons_default. }
  split; [exact H|]. destruct H as (p' & Hp' & _).
  unfold run_ops in *. rewrite fold_left_app. cbn [fold_left run_op].
  unfold ResetPodNamespaces, update_pod, update_entry. rewrite Hp'. cbn.
  rewrite lookup_insert_eq. eexists. split; [reflexivity|done].
Qed.

(** Resolution of an "id or name" argument of a pod: in a keyed store a
    name in the given namespace wins, then the id; the result is the id of a
    stored pod, and the call fails exactly when there is neither. *)
Theorem ResolvePodId_correct str namespace st :
  tables_keyed st ->
  match ResolvePodId str namespace st st with
  | Ok podId => exists p, Pods st !! podId = Some p /\
      (namespace <> "" /\ Name p = str /\ Namespace p = namespace \/ podId = str)
  | Err _ => Pods st !! str = None /\
      (namespace <> "" -> forall k p, Pods st !! k = Some p ->
         ~ (Name p = str /\ Namespace p = namespace))
  | Panic _ => False
  end.
Proof.
  intros [Hk _ _ _]. unfold ResolvePodId, GetPodById, lookup_pod.
  destruct (String.eqb_spec namespace "") as [->|Hns]; cbn [negb].
  { destruct (Pods st !! str) as [p|] eqn:E; naive_solver. }
  unfold GetPodIdByName. destruct (range_find _ _) as [[k p]|] eqn:E.
  - apply range_find_Some in E as [Hp Hn].
    apply andb_true_iff in Hn as [Hn%String.eqb_eq Hs%String.eqb_eq].
    rewrite (Hk _ _ Hp). eauto 10.
  - rewrite range_find_None in E.
    assert (forall k p, Pods st !! k = Some p ->
      ~ (Name p = str /\ Namespace p = namespace)) as Hno.
    { intros k p Hp [Hn Hs]. apply E in Hp. unfold named in Hp.
      apply andb_false_iff in Hp as [Hp|Hp]; apply String.eqb_neq in Hp; done. }
    destruct (Pods st !! str) as [p|] eqn:Ep; naive_solver.
Qed.
End properties.

(** ** The properties on concrete states *)

Definition web_pod (id : string) : StorePodRequest :=
  {| req_PodId := id; req_TemplateId := "t1"; req_OwnerKind := OwnerKindReplicaSet;
     req_OwnerId := "rs1"; req_Name := "web-" +:+ id; req_Namespace := "default";
     req_UID := ""; req_State := PodStateCreated; req_NetworkNS := ""; req_IPCNS := "";
     req_UTSNS := ""; req_UserNS := ""; req_Rootless := false; req_Labels := ∅;
     req_Annotations := ∅ |}.
Definition web_rs : ReplicaSetSpec :=
  {| rs_Name := "web"; rs_Namespace := "default"; Replicas := 2; rs_TemplateId := "t1";
     rs_Selector := ∅ |}.
Definition demo_ops : list psm_op :=
  [op_StoreReplicaSet "rs1" web_rs 1; op_StorePod (web_pod "p1") 2;
   op_UpdateReplicaSetReplicas "rs1" (-1); op_UpdatePod "p1" PodStateRunning 3].
Definition demo : PodState := run_ops init demo_ops.

Example psm_tables_ok_witness :
  tables_keyed demo /\ replicas_ok demo /\
  (fun rs => Replicas (ri_Spec rs)) <$> ReplicaSets demo !! "rs1" = Some 2.
Proof.
  destruct (psm_tables_ok demo_ops ltac:(vm_compute; reflexivity)) as [H1 H2].
  split; [exact H1|]. split; [exact H2|]. vm_compute. reflexivity.
Defined.

Example UpdatePodNamespaces_first_wins_witness :
  exists p', Pods (run_ops demo (ns_update "p1" <$>
      [(10, ("", "/proc/10/ns/ipc", "", ""));
       (11, ("/proc/11/ns/net", "/proc/11/ns/ipc", "", ""))])) !! "p1" = Some p' /\
    NetworkNS p' = "/proc/11/ns/net" /\ IPCNS p' = "/proc/10/ns/ipc" /\ OwnerPid p' = 11.
Proof.
  destruct (Pods demo !! "p1") as [p|] eqn:E; [|vm_compute in E; discriminate E].
  destruct (UpdatePodNamespaces_first_wins "p1"
    [(10, ("", "/proc/10/ns/ipc", "", ""));
     (11, ("/proc/11/ns/net", "/proc/11/ns/ipc", "", ""))] demo p E)
    as [(p' & Hp & Hn & Hi & _ & _ & Ho & _) _].
  exists p'. split; [exact Hp|]. vm_compute in E. injection E as <-.
  split; [exact Hn|]. split; [exact Hi|exact Ho].
Defined.

Example ResolvePodId_correct_witness :
  tables_keyed demo /\
  exists p, Pods demo !! "p1" = Some p /\
    ("default" <> "" /\ Name p = "web-p1" /\ Namespace p = "default" \/ "p1" = "web-p1").
Proof.
  assert (tables_keyed demo) as Hk.
  { apply (run_ops_inv tables_keyed (fun _ => true)); [|reflexivity|].
    - intros o st st' _. apply run_op_keyed.
    - split; apply keyed_empty. }
  split; [exact Hk|].
  pose proof (ResolvePodId_correct "web-p1" "default" demo Hk) as H.
  assert (ResolvePodId "web-p1" "default" demo demo = Ok "p1") as E
    by (vm_compute; reflexivity).
  rewrite E in H. exact H.
Defined.
