(* ===== verification/Npm.v ===== *)
(** * Network policies ([store/npm])

    Three ordered lists of policies, one per iptables chain, the default modes,
    and the running copy that uncommitted changes are reverted to. *)

From Stdlib Require Import ZArith Lia String.
From stdpp Require Import base gmap strings list.
From S2P Require Import Prelude.
From S2P Require Import GoString.
From S2P Require Import Persist.
Open Scope Z_scope.

(** ** Data ([model.go]) *)

Record HostInfo := {
  h_ContainerName : string;
  DisplayName : string;
  h_Address : string
}.

Record Policy := {
  Id : string;
  Status : string;
  Reason : string;
  Source : HostInfo;
  Destination : HostInfo;
  Protocol : string;
  DestPort : Z;
  Comment : string;
  ManagedBy : string;
  OwnerKind : string;
  OwnerNS : string;
  OwnerName : string;
  OwnerId : string
}.

Record PolicyChain := {
  EastWestPolicy : list Policy;
  NorthSouthObservePolicy : list Policy;
  NorthSouthEnforcePolicy : list Policy
}.

Record PolicyMode := {
  Mode : string;
  Logging : bool
}.

Record DefaultPolicy := {
  EastWest : PolicyMode;
  NorthSouth : PolicyMode
}.

Record NetworkPolicy := {
  Version : string;
  DefaultRule : DefaultPolicy;
  Policies : PolicyChain
}.

Definition set_EW (np : NetworkPolicy) (l : list Policy) : NetworkPolicy :=
  let c := Policies np in
  let c := {| EastWestPolicy := l;
              NorthSouthObservePolicy := NorthSouthObservePolicy c;
              NorthSouthEnforcePolicy := NorthSouthEnforcePolicy c |} in {| Version := Version np;
                                                                            DefaultRule := DefaultRule np;
                                                                            Policies := c |}.
Definition set_OBS (np : NetworkPolicy) (l : list Policy) : NetworkPolicy :=
  let c := Policies np in
  let c := {| EastWestPolicy := EastWestPolicy c;
              NorthSouthObservePolicy := l;
              NorthSouthEnforcePolicy := NorthSouthEnforcePolicy c |} in {| Version := Version np;
                                                                            DefaultRule := DefaultRule np;
                                                                            Policies := c |}.
Definition set_ENF (np : NetworkPolicy) (l : list Policy) : NetworkPolicy :=
  let c := Policies np in
  let c := {| EastWestPolicy := EastWestPolicy c;
              NorthSouthObservePolicy := NorthSouthObservePolicy c;
              NorthSouthEnforcePolicy := l |} in {| Version := Version np;
                                                    DefaultRule := DefaultRule np;
                                                    Policies := c |}.

(** ** Operations ([npm.go]) *)

Section manager.
Implicit Types np : NetworkPolicy.

(** The readers return the zero value when the store cannot be read. *)
Definition GetEWMode np : res string := Ok (Mode (EastWest (DefaultRule np))).
Definition GetNSMode np : res string := Ok (Mode (NorthSouth (DefaultRule np))).
Definition GetEWLogging np : res bool := Ok (Logging (EastWest (DefaultRule np))).
Definition GetNSLogging np : res bool := Ok (Logging (NorthSouth (DefaultRule np))).
Definition IsNsEnforce np : res bool :=
  Ok (String.eqb (Mode (NorthSouth (DefaultRule np))) "enforce").
Definition GetEWPolicyList np : res (list Policy) := Ok (EastWestPolicy (Policies np)).
Definition GetNSObsPolicyList np : res (list Policy) :=
  Ok (NorthSouthObservePolicy (Policies np)).
Definition GetNSEnfPolicyList np : res (list Policy) :=
  Ok (NorthSouthEnforcePolicy (Policies np)).

Definition has_id (policyId : string) (l : list Policy) : bool :=
  existsb (fun p => String.eqb (Id p) policyId) l.

Definition id_not_found (policyId : string) : error := "ID: " +:+ policyId +:+ " not found".

Definition GetPolicyChain (policyId : string) np : res string :=
  if has_id policyId (EastWestPolicy (Policies np)) then Ok "RAIND-EW"
  else if has_id policyId (NorthSouthObservePolicy (Policies np)) then Ok "RAIND-NS-OBS"
  else if has_id policyId (NorthSouthEnforcePolicy (Policies np)) then Ok "RAIND-NS-ENF"
  else Err (id_not_found policyId).

(** The [switch chainName] of the operations on one chain. *)
Definition on_chain (chainName : string) (f : list Policy -> list Policy) np
    : option NetworkPolicy :=
  if String.eqb chainName "RAIND-EW" then Some (set_EW np (f (EastWestPolicy (Policies np))))
  else if String.eqb chainName "RAIND-NS-OBS"
  then Some (set_OBS np (f (NorthSouthObservePolicy (Policies np))))
  else if String.eqb chainName "RAIND-NS-ENF"
  then Some (set_ENF np (f (NorthSouthEnforcePolicy (Policies np))))
  else None.

Definition AddPolicy (chainName : string) (policy : Policy) np
    : res (NetworkPolicy * unit) :=
  match on_chain chainName (fun l => l ++ [policy]) np with
  | Some np => Ok (np, tt)
  | None => Err ("Chain: " +:+ chainName +:+ " is invalid")
  end.

(** The loop of [RemovePolicy] over one list:
    [append(l[:i], l[i+1:]...)] at the first match. *)
Fixpoint remove_id (policyId : string) (l : list Policy) : option (list Policy) :=
  match l with
  | [] => None
  | p :: l' =>
      if String.eqb (Id p) policyId then Some l'
      else (fun r => p :: r) <$> remove_id policyId l'
  end.

Definition RemovePolicy (policyId : string) np : res (NetworkPolicy * unit) :=
  match remove_id policyId (EastWestPolicy (Policies np)) with
  | Some l => Ok (set_EW np l, tt)
  | None =>
  match remove_id policyId (NorthSouthObservePolicy (Policies np)) with
  | Some l => Ok (set_OBS np l, tt)
  | None =>
  match remove_id policyId (NorthSouthEnforcePolicy (Policies np)) with
  | Some l => Ok (set_ENF np l, tt)
  | None => Err (id_not_found policyId)
  end end end.

(** [removePoliciesByOwner] filters in place: [kept] starts as [policies[:0]]
    and grows over the array that the loop is reading.  [arr] is that array,
    [i] the read index, [w] the length of [kept]; the loop runs once per
    element of [policies]. *)
Fixpoint remove_loop (n : nat) (ownerKind ownerId : string) (i w : nat)
    (arr removed : list Policy) : nat * list Policy * list Policy :=
  match n with
  | O => (w, arr, removed)
  | S n =>
      match arr !! i with
      | None => (w, arr, removed)
      | Some p =>
          if String.eqb (OwnerKind p) ownerKind && String.eqb (OwnerId p) ownerId
          then remove_loop n ownerKind ownerId (S i) w arr (removed ++ [p])
          else remove_loop n ownerKind ownerId (S i) (S w) (<[w := p]> arr) removed
      end
  end.

Definition removePoliciesByOwner (policies : list Policy) (ownerKind ownerId : string)
    (removed : list Policy) : list Policy * list Policy :=
  let '(w, arr, removed) :=
    remove_loop (length policies) ownerKind ownerId 0 0 policies removed in
  (take w arr, removed).

Definition RemovePoliciesByOwner (ownerKind ownerId : string) np
    : res (NetworkPolicy * list Policy) :=
  let '(ew, removed) :=
    removePoliciesByOwner (EastWestPolicy (Policies np)) ownerKind ownerId [] in
  let np := set_EW np ew in
  let '(obs, removed) :=
    removePoliciesByOwner (NorthSouthObservePolicy (Policies np)) ownerKind ownerId removed in
  let np := set_OBS np obs in
  let '(enf, removed) :=
    removePoliciesByOwner (NorthSouthEnforcePolicy (Policies np)) ownerKind ownerId removed in
  Ok (set_ENF np enf, removed).

Definition replacePoliciesByOwnerKind (current : list Policy) (ownerKind : string)
    (desired : list Policy) : list Policy :=
  List.filter (fun p => negb (String.eqb (OwnerKind p) ownerKind)) current ++ desired.

Definition ReplacePoliciesByOwnerKind (chainName ownerKind : string)
    (policies : list Policy) np : res (NetworkPolicy * unit) :=
  match on_chain chainName (fun l => replacePoliciesByOwnerKind l ownerKind policies) np with
  | Some np => Ok (np, tt)
  | None => Err ("Chain: " +:+ chainName +:+ " is invalid")
  end.

Definition set_status (status reason : string) (p : Policy) : Policy :=
  {| Id := Id p; Status := status; Reason := reason; Source := Source p;
     Destination := Destination p; Protocol := Protocol p;
     DestPort := DestPort p; Comment := Comment p; ManagedBy := ManagedBy p;
     OwnerKind := OwnerKind p; OwnerNS := OwnerNS p;
     OwnerName := OwnerName p; OwnerId := OwnerId p |}.

(** The first policy with the id gets the status; [None]: there is none. *)
Fixpoint update_id (policyId status reason : string) (l : list Policy)
    : option (list Policy) :=
  match l with
  | [] => None
  | p :: l' =>
      if String.eqb (Id p) policyId then Some (set_status status reason p :: l')
      else (fun r => p :: r) <$> update_id policyId status reason l'
  end.

Definition UpdateStatus (chainName policyId status reason : string) np
    : res (NetworkPolicy * unit) :=
  let upd (set : NetworkPolicy -> list Policy -> NetworkPolicy) l :=
    match update_id policyId status reason l with
    | Some l => Ok (set np l, tt)
    | None => Err (id_not_found policyId)
    end in
  if String.eqb chainName "RAIND-EW" then upd set_EW (EastWestPolicy (Policies np))
  else if String.eqb chainName "RAIND-NS-OBS"
  then upd set_OBS (NorthSouthObservePolicy (Policies np))
  else if String.eqb chainName "RAIND-NS-ENF"
  then upd set_ENF (NorthSouthEnforcePolicy (Policies np))
  else Err (id_not_found policyId).

Definition ChangeNSMode (mode : string) np : res (NetworkPolicy * unit) :=
  let d := DefaultRule np in
  let m := NorthSouth d in
  let m := {| Mode := mode; Logging := Logging m |} in
  let d := {| EastWest := EastWest d; NorthSouth := m |} in
  Ok ({| Version := Version np; DefaultRule := d; Policies := Policies np |}, tt).
End manager.

(** ** The store ([store.go]) *)

Definition init : NetworkPolicy :=
  {| Version := "v1";
     DefaultRule := {| EastWest := {| Mode := "deny_by_default"; Logging := true |};
                       NorthSouth := {| Mode := "observe"; Logging := true |} |};
     Policies := {| EastWestPolicy := []; NorthSouthObservePolicy := [];
                    NorthSouthEnforcePolicy := [] |} |}.

Definition SetNetworkPolicy_tx (np : NetworkPolicy) : res (NetworkPolicy * unit) :=
  Ok ({| Version := "v1"; DefaultRule := DefaultRule np;
         Policies := Policies np |}, tt).

Section store.
Context {C : Codec NetworkPolicy}.

Definition loadOrInit (path : string) : fsM NetworkPolicy :=
  Persist.loadOrInit path "network policy json broken" init id.
Definition atomicSave : string -> NetworkPolicy -> fsM unit := Persist.atomicSave.
Definition withLock {A} (path : string)
    : (NetworkPolicy -> res (NetworkPolicy * A)) -> fsM A :=
  Persist.withLock path (loadOrInit path).
Definition withRLock {A} (path : string) : (NetworkPolicy -> res A) -> fsM A :=
  Persist.withRLock path (loadOrInit path).

(** [Backup]: copy the state file to [.running], truncating the old copy. *)
Definition Backup (path : string) : fsM unit :=
  let file := path +:+ ".running" in
  _ ← Open path;
  _ ← OpenTrunc file;
  Copy file path.

(** [Revert]: put the running copy in place of the state file. *)
Definition Revert (path : string) : fsM unit :=
  let orgFile := path +:+ ".org" in
  let runningFile := path +:+ ".running" in
  _ ← Rename path orgFile;
  _ ← Rename runningFile path;
  _ ← Backup path;
  Remove orgFile.

(** The error of the transaction is overwritten by that of [Backup]. *)
Definition SetNetworkPolicy (path : string) : fsM unit := fun w =>
  match withLock path SetNetworkPolicy_tx w with
  | (Crashed, w) => (Crashed, w)
  | (_, w) => Backup path w
  end.
End store.

(** ** Lists of policies *)

Definition owned (ownerKind ownerId : string) (p : Policy) : bool :=
  String.eqb (OwnerKind p) ownerKind && String.eqb (OwnerId p) ownerId.

(** The array under the loop: what [kept] holds, then what is still to be
    read; the writes never touch the unread part. *)
Lemma remove_loop_spec k o rest i w arr removed :
  (w <= i)%nat -> drop i arr = rest ->
  exists w' arr',
    remove_loop (length rest) k o i w arr removed =
      (w', arr', removed ++ List.filter (owned k o) rest) /\
    take w' arr' = take w arr ++ List.filter (fun p => negb (owned k o p)) rest.
Proof.
  revert i w arr removed. induction rest as [|p rest IH]; intros i w arr removed Hw Hd.
  - exists w, arr. by rewrite !app_nil_r.
  - assert (arr !! i = Some p) as Hi.
    { rewrite <- (Nat.add_0_r i), <- lookup_drop, Hd. done. }
    assert (drop (S i) arr = rest) as Hd'.
    { replace (S i) with (i + 1)%nat by lia. by rewrite <- drop_drop, Hd. }
    simpl. rewrite Hi. fold (owned k o p). destruct (owned k o p) eqn:E; simpl.
    + destruct (IH (S i) w arr (removed ++ [p]) ltac:(lia) Hd') as (w' & arr' & -> & Ht).
      exists w', arr'. by rewrite <- (assoc_L (++)).
    + destruct (IH (S i) (S w) (<[w:=p]> arr) removed ltac:(lia)) as (w' & arr' & -> & Ht).
      { rewrite drop_insert_lt by lia. done. }
      exists w', arr'. split; [done|]. rewrite Ht.
      assert (w < length arr)%nat as Hlt by (apply lookup_lt_Some in Hi; lia).
      rewrite (take_S_r _ w p) by by apply list_lookup_insert_eq.
      rewrite take_insert_ge by lia. by rewrite <- (assoc_L (++)).
Qed.

Lemma removePoliciesByOwner_eq policies k o removed :
  removePoliciesByOwner policies k o removed =
    (List.filter (fun p => negb (owned k o p)) policies,
     removed ++ List.filter (owned k o) policies).
Proof.
  unfold removePoliciesByOwner.
  destruct (remove_loop_spec k o policies 0 0 policies removed) as (w & arr & -> & Ht);
    [lia|by rewrite drop_0|].
  by rewrite Ht, take_0.
Qed.

Lemma has_id_false id l : has_id id l = false <-> forall p, p ∈ l -> Id p <> id.
Proof.
  unfold has_id. rewrite <- not_true_iff_false, existsb_exists.
  setoid_rewrite String.eqb_eq. setoid_rewrite <- list_elem_of_In. naive_solver.
Qed.

Lemma remove_id_spec id l :
  match remove_id id l with
  | Some l' => exists l1 p l2, l = l1 ++ p :: l2 /\ l' = l1 ++ l2 /\ Id p = id /\
      has_id id l1 = false
  | None => has_id id l = false
  end.
Proof.
  induction l as [|p l IH]; simpl; [done|].
  destruct (String.eqb_spec (Id p) id) as [E|E].
  - by exists [], p, l.
  - destruct (remove_id id l) as [l'|]; simpl; [|done].
    destruct IH as (l1 & q & l2 & -> & -> & Hq & Hl1). exists (p :: l1), q, l2.
    split_and!; try done. simpl. apply String.eqb_neq in E. by rewrite E.
Qed.

Lemma update_id_spec id s r l :
  match update_id id s r l with
  | Some l' => exists l1 p l2, l = l1 ++ p :: l2 /\ l' = l1 ++ set_status s r p :: l2 /\
      Id p = id /\ has_id id l1 = false
  | None => has_id id l = false
  end.
Proof.
  induction l as [|p l IH]; simpl; [done|].
  destruct (String.eqb_spec (Id p) id) as [E|E].
  - by exists [], p, l.
  - destruct (update_id id s r l) as [l'|]; simpl; [|done].
    destruct IH as (l1 & q & l2 & -> & -> & Hq & Hl1). exists (p :: l1), q, l2.
    split_and!; try done. simpl. apply String.eqb_neq in E. by rewrite E.
Qed.

Definition all_policies (np : NetworkPolicy) : list Policy :=
  EastWestPolicy (Policies np) ++ NorthSouthObservePolicy (Policies np) ++
  NorthSouthEnforcePolicy (Policies np).

(** ** The properties *)

(** [RemovePoliciesByOwner], which filters each list in place while it
    reads it, keeps exactly the policies of other owners, in order, in each
    chain, and returns exactly the removed ones in chain order: no policy is
    lost or duplicated by the shared array. *)
Theorem RemovePoliciesByOwner_correct k o np :
  exists np',
    RemovePoliciesByOwner k o np = Ok (np', List.filter (owned k o) (all_policies np)) /\
    let keep := List.filter (fun p => negb (owned k o p)) in
    Policies np' =
      {| EastWestPolicy := keep (EastWestPolicy (Policies np));
         NorthSouthObservePolicy := keep (NorthSouthObservePolicy (Policies np));
         NorthSouthEnforcePolicy := keep (NorthSouthEnforcePolicy (Policies np)) |} /\
    DefaultRule np' = DefaultRule np /\ Version np' = Version np.
Proof.
  unfold RemovePoliciesByOwner. rewrite !removePoliciesByOwner_eq.
  eexists. split.
  { unfold all_policies. rewrite !List.filter_app.
  cbn. rewrite <- app_assoc. reflexivity. }
  done.
Qed.

(** [RemovePolicy] removes exactly one policy: the first one with the id
    in the first chain that has it (the chain [GetPolicyChain] names), and
    nothing else; it fails, and changes nothing, exactly when no chain has the
    id. *)
Theorem RemovePolicy_correct id np :
  match RemovePolicy id np with
  | Ok (np', _) => exists l1 p l2,
      all_policies np = l1 ++ p :: l2 /\ all_policies np' = l1 ++ l2 /\
      Id p = id /\ has_id id l1 = false /\
      is_ok (GetPolicyChain id np) = true /\ DefaultRule np' = DefaultRule np
  | Err e => has_id id (all_policies np) = false /\ e = id_not_found id /\
      GetPolicyChain id np = Err e
  | Panic _ => False
  end.
Proof.
  unfold RemovePolicy, GetPolicyChain, all_policies.
  assert (forall l1 p l2, Id p = id -> has_id id (l1 ++ p :: l2) = true) as Htrue.
  { intros l1 p l2 Hp. unfold has_id. apply existsb_exists. exists p.
    split; [apply in_app_iff; right; by left|by apply String.eqb_eq]. }
  assert (forall l k, has_id id (l ++ k) = has_id id l || has_id id k) as Happ
    by (intros; apply existsb_app).
  pose proof (remove_id_spec id (EastWestPolicy (Policies np))) as H1.
  destruct (remove_id _ _) as [ew|].
  { destruct H1 as (l1 & p & l2 & E & -> & Hp & Hl). exists l1, p. eexists.
    cbn. rewrite E, Htrue by done. rewrite <- !(assoc_L (++)). done. }
  pose proof (remove_id_spec id (NorthSouthObservePolicy (Policies np))) as H2.
  destruct (remove_id _ _) as [obs|].
  { destruct H2 as (l1 & p & l2 & E & -> & Hp & Hl).
    exists (EastWestPolicy (Policies np) ++ l1), p. eexists.
    cbn. rewrite E, Htrue, Happ, H1, Hl by done. rewrite <- !(assoc_L (++)). done. }
  pose proof (remove_id_spec id (NorthSouthEnforcePolicy (Policies np))) as H3.
  destruct (remove_id _ _) as [enf|].
  { destruct H3 as (l1 & p & l2 & E & -> & Hp & Hl).
    exists (EastWestPolicy (Policies np) ++ NorthSouthObservePolicy (Policies np) ++ l1), p.
    eexists. cbn. rewrite E, Htrue, !Happ, H1, H2, Hl by done.
    rewrite <- !(assoc_L (++)). done. }
  by rewrite !Happ, H1, H2, H3.
Qed.

(** The list of a chain. *)
Definition chain_list (chainName : string) (np : NetworkPolicy) : option (list Policy) :=
  if String.eqb chainName "RAIND-EW" then Some (EastWestPolicy (Policies np))
  else if String.eqb chainName "RAIND-NS-OBS"
  then Some (NorthSouthObservePolicy (Policies np))
  else if String.eqb chainName "RAIND-NS-ENF"
  then Some (NorthSouthEnforcePolicy (Policies np))
  else None.

Lemma filter_all {A} (f : A -> bool) l :
  (forall x, x ∈ l -> f x = true) -> List.filter f l = l.
Proof.
  induction l as [|x l IH]; intros H; simpl; [done|].
  rewrite (H x), IH; [done| |by left]. intros y Hy. apply H. by right.
Qed.

Lemma filter_none {A} (f : A -> bool) l :
  (forall x, x ∈ l -> f x = false) -> List.filter f l = [].
Proof.
  induction l as [|x l IH]; intros H; simpl; [done|].
  rewrite (H x), IH; [done| |by left]. intros y Hy. apply H. by right.
Qed.

Lemma filter_idem {A} (f : A -> bool) l :
  List.filter f (List.filter f l) = List.filter f l.
Proof.
  apply filter_all. intros x Hx. apply list_elem_of_In, filter_In in Hx. apply Hx.
Qed.

#[local] Arguments replacePoliciesByOwnerKind : simpl never.

(** [ReplacePoliciesByOwnerKind] with policies of that kind makes the
    chain hold exactly them among its policies of the kind, keeps the others
    in order, and running it again changes nothing (a controller can repeat
    it). *)
Theorem ReplacePoliciesByOwnerKind_correct chain kind desired np l :
  chain_list chain np = Some l ->
  (forall p, p ∈ desired -> OwnerKind p = kind) ->
  exists np' l',
    ReplacePoliciesByOwnerKind chain kind desired np = Ok (np', tt) /\
    chain_list chain np' = Some l' /\
    List.filter (fun p => String.eqb (OwnerKind p) kind) l' = desired /\
    List.filter (fun p => negb (String.eqb (OwnerKind p) kind)) l' =
      List.filter (fun p => negb (String.eqb (OwnerKind p) kind)) l /\
    ReplacePoliciesByOwnerKind chain kind desired np' = Ok (np', tt).
Proof.
  intros Hl Hd.
  assert (List.filter (fun p => negb (String.eqb (OwnerKind p) kind)) desired = []) as Hn.
  { apply filter_none. intros p Hp. apply negb_false_iff, String.eqb_eq. by apply Hd. }
  assert (List.filter (fun p => String.eqb (OwnerKind p) kind) desired = desired) as Hy.
  { apply filter_all. intros p Hp. apply String.eqb_eq. by apply Hd. }
  assert (forall l, List.filter (fun p => String.eqb (OwnerKind p) kind) (replacePoliciesByOwnerKind l kind desired) = desired)
    as H1.
  { intros k. unfold replacePoliciesByOwnerKind. rewrite List.filter_app, Hy.
    rewrite filter_none; [done|]. intros x Hx%list_elem_of_In.
    apply filter_In in Hx as [_ Hx]. by apply negb_true_iff. }
  assert (forall l, List.filter (fun p => negb (String.eqb (OwnerKind p) kind)) (replacePoliciesByOwnerKind l kind desired) =
    List.filter (fun p => negb (String.eqb (OwnerKind p) kind)) l) as H2.
  { intros k. unfold replacePoliciesByOwnerKind.
    by rewrite List.filter_app, Hn, filter_idem, app_nil_r. }
  assert (forall l, replacePoliciesByOwnerKind (replacePoliciesByOwnerKind l kind desired)
    kind desired = replacePoliciesByOwnerKind l kind desired) as H3.
  { intros k. unfold replacePoliciesByOwnerKind at 1. by rewrite H2. }
  unfold ReplacePoliciesByOwnerKind, on_chain, chain_list in *.
  destruct (String.eqb chain "RAIND-EW");
    [|destruct (String.eqb chain "RAIND-NS-OBS");
      [|destruct (String.eqb chain "RAIND-NS-ENF"); [|done]]];
    injection Hl as <-; eexists _, _; (split; [reflexivity|]); cbn;
    (split; [reflexivity|]); rewrite H1, H2; (split; [done|]); (split; [done|]);
    unfold set_EW, set_OBS, set_ENF; cbn; rewrite H3; done.
Qed.

(** [UpdateStatus] changes the status and reason of one policy of the
    named chain, the first with the id, and nothing else; it fails exactly
    when the chain is unknown or does not have the id. *)
Theorem UpdateStatus_correct chain id s r np :
  match UpdateStatus chain id s r np with
  | Ok (np', _) => exists l1 p l2,
      chain_list chain np = Some (l1 ++ p :: l2) /\
      chain_list chain np' = Some (l1 ++ set_status s r p :: l2) /\
      Id p = id /\ has_id id l1 = false /\
      (forall c, c <> chain -> chain_list c np' = chain_list c np) /\
      DefaultRule np' = DefaultRule np
  | Err e => e = id_not_found id /\
      match chain_list chain np with Some l => has_id id l = false | None => True end
  | Panic _ => False
  end.
Proof.
  unfold UpdateStatus, chain_list.
  destruct (String.eqb_spec chain "RAIND-EW") as [->|];
    [|destruct (String.eqb_spec chain "RAIND-NS-OBS") as [->|];
      [|destruct (String.eqb_spec chain "RAIND-NS-ENF") as [->|]; [|done]]];
    match goal with |- context [update_id id s r ?l] =>
      pose proof (update_id_spec id s r l) as H; destruct (update_id id s r l); [|done]
    end;
    destruct H as (l1 & p & l2 & E & -> & Hp & Hl); exists l1, p, l2; cbn;
    (split; [by f_equal|]); (split; [done|]); (split; [done|]); (split; [done|]);
    (split; [|done]); intros c Hc; apply String.eqb_neq in Hc;
    destruct (String.eqb_spec c "RAIND-EW"); try done; subst; try done;
    destruct (String.eqb_spec c "RAIND-NS-OBS"); try done; subst; try done;
    destruct (String.eqb_spec c "RAIND-NS-ENF"); try done; subst; done.
Qed.

(** ** The running copy *)

Section backup.
Context {C : Codec NetworkPolicy}.

Definition running_path (path : string) : string := path +:+ ".running".
Definition org_path (path : string) : string := path +:+ ".org".

Lemma paths_differ path :
  running_path path <> path /\ org_path path <> path /\ running_path path <> org_path path.
Proof.
  unfold running_path, org_path. split_and!; try by apply string_app_ne.
  intros H%(inj (String.append path)). discriminate H.
Qed.

Lemma frame_Backup path : frame {[running_path path]} (Backup path).
Proof.
  unfold Backup. apply frame_bind.
  { intros w. unfold Open. pose proof (frame_nop {[running_path path]} w) as [Hl Hf].
    destruct (syscall nop w) as [[[]|e|] w1]; simpl in *; try done.
    by destruct (files w1 !! path). }
  intros _. apply frame_bind; [apply frame_OpenTrunc; unfold running_path; set_solver|].
  intros _. unfold Copy. apply frame_bind; [apply frame_ReadFile|].
  intros b. apply frame_Write. unfold running_path. set_solver.
Qed.

Lemma frame_Remove X n : n ∈ X -> frame X (Remove n).
Proof.
  intros Hn w. unfold Remove. destruct (files w !! n) as [b|].
  - apply (frame_syscall X (fun w => (tt, set_files (delete n) w))).
    intros w'. split; [done|]. simpl. intros p Hp. rewrite lookup_delete_ne; [done|].
    by intros <-.
  - pose proof (pop_frame w) as [Hl Hf]. destruct (pop w) as [f w1]; simpl in *.
    destruct f; simpl; by rewrite Hl, Hf.
Qed.

Lemma Remove_run n w o w' b :
  files w !! n = Some b -> Remove n w = (o, w') ->
  (forall p, p <> n -> files w' !! p = files w !! p) /\
  (files w' = files w \/ o = Done tt \/ o = Crashed).
Proof.
  intros Hb H. pose proof (frame_Remove {[n]} n ltac:(set_solver) w) as [_ Hm].
  rewrite H in Hm. simpl in Hm. split; [intros p Hp; apply Hm; set_solver|].
  unfold Remove, syscall in H. rewrite Hb in H. pose proof (pop_frame w) as [_ Hf].
  destruct (pop w) as [f w1]; simpl in *.
  destruct f; injection H as <- <-; simpl; rewrite ?Hf; auto.
Qed.
Section revert.
Context (path old running : string) (w0 : fs).
Context (Hold : files w0 !! path = Some old)
  (Hrun : files w0 !! running_path path = Some running).

(** The files after each of the two renames. *)
Definition renamed1 : gmap string string :=
  <[org_path path := old]> (delete path (files w0)).
Definition renamed2 : gmap string string :=
  <[path := running]> (delete (running_path path) renamed1).

(** What no fault may break. *)
Record revert_safe (m : gmap string string) : Prop := {
  safe_running : m !! path = Some running \/ m !! running_path path = Some running;
  safe_old : m !! path = Some old \/ m !! org_path path = Some old;
  safe_others p : p <> path -> p <> running_path path -> p <> org_path path ->
    m !! p = files w0 !! p
}.

Lemma safe0 : revert_safe (files w0).
Proof. split; auto. Qed.

Lemma renamed1_running : renamed1 !! running_path path = Some running.
Proof.
  destruct (paths_differ path) as (? & ? & ?). unfold renamed1.
  by rewrite lookup_insert_ne, lookup_delete_ne.
Qed.

Lemma safe1 : revert_safe renamed1.
Proof.
  destruct (paths_differ path) as (? & ? & ?). split.
  - right. apply renamed1_running.
  - right. apply lookup_insert_eq.
  - intros p ???. unfold renamed1. by rewrite lookup_insert_ne, lookup_delete_ne.
Qed.

Lemma safe2 m :
  (forall p, p <> running_path path -> m !! p = renamed2 !! p) ->
  revert_safe m /\ m !! path = Some running /\ m !! org_path path = Some old.
Proof.
  destruct (paths_differ path) as (? & ? & ?). intros Hm.
  assert (m !! path = Some running) as Hp
    by (rewrite Hm by done; apply lookup_insert_eq).
  assert (m !! org_path path = Some old) as Ho.
  { rewrite Hm by done. unfold renamed2, renamed1.
    by rewrite lookup_insert_ne, lookup_delete_ne, lookup_insert_eq. }
  split; [split; auto|done]. intros p ???. rewrite Hm by done. unfold renamed2, renamed1.
  by rewrite !lookup_insert_ne, !lookup_delete_ne, lookup_insert_ne, lookup_delete_ne.
Qed.

End revert.

(** [Revert] never loses a policy text: after any sequence of faults and
    crashes the running text is the state file or still the running copy, and
    the old state file is there under its name or as [.org] unless the call
    ran to its last step; when it succeeds the state file has the running
    text.  No other file changes. *)
Theorem Revert_keeps_running path w o w' old running :
  files w !! path = Some old -> files w !! running_path path = Some running ->
  Revert path w = (o, w') ->
  (files w' !! path = Some running \/ files w' !! running_path path = Some running) /\
  (o = Done tt -> files w' !! path = Some running) /\
  (files w' !! path = Some old \/ files w' !! org_path path = Some old \/
   o = Done tt \/ o = Crashed) /\
  (forall p, p <> path -> p <> running_path path -> p <> org_path path ->
     files w' !! p = files w !! p).
Proof.
  destruct (paths_differ path) as (Hrp & Hop & Hro).
  intros Hold Hrun H. unfold Revert in H. fold (running_path path) (org_path path) in H.
  enough (o <> Done tt /\ revert_safe path old running w (files w') \/
    (files w' !! path = Some running /\
     (files w' !! org_path path = Some old \/ o = Done tt \/ o = Crashed) /\
     forall p, p <> path -> p <> running_path path -> p <> org_path path ->
       files w' !! p = files w !! p)) as [[Ho [Hs1 Hs2 Hs3]]|(H1 & H2 & H3)]
    by naive_solver.
  apply bind_run in H as [([] & w1 & H1 & H)|[(e & H1 & ->)|[H1 ->]]];
    apply (Rename_run _ _ _ _ _ _ Hold) in H1 as [_ H1]; fold (renamed1 path old w) in H1.
  2,3: left; split; [done|];
    destruct H1 as [[-> ?]|[[-> ?]|[-> ?]]]; auto using safe0, safe1.
  destruct H1 as [[Hw1 _]|[[_ [? ?]]|[_ ?]]]; try done.
  assert (files w1 !! running_path path = Some running) as Hrun1
    by (rewrite Hw1; by apply renamed1_running).
  apply bind_run in H as [([] & w2 & H2 & H)|[(e & H2 & ->)|[H2 ->]]];
    apply (Rename_run _ _ _ _ _ _ Hrun1) in H2 as [_ H2]; rewrite Hw1 in H2;
    fold (renamed2 path old running w) in H2.
  2,3: left; split; [done|];
    destruct H2 as [[-> ?]|[[-> ?]|[-> ?]]]; try (by apply safe1); by apply safe2.
  destruct H2 as [[Hw2 _]|[[_ [? ?]]|[_ ?]]]; try done.
  pose proof (frame_Backup path w2) as [_ Hb].
  assert (forall w3, (forall p, p ∉ ({[running_path path]} : gset string) ->
    files w3 !! p = files w2 !! p) -> _) as Hs
    by (intros w3 Hw3; apply (safe2 path old running w (files w3)); intros p Hp;
        rewrite Hw3, Hw2 by set_solver; reflexivity).
  apply bind_run in H as [([] & w3 & H3 & H)|[(e & H3 & ->)|[H3 ->]]];
    rewrite H3 in Hb; simpl in Hb; apply Hs in Hb as ([Hb1 Hb2 Hb3] & Hbp & Hbo).
  2,3: right; auto.
  apply (Remove_run _ _ _ _ _ Hbo) in H as [Hf Ho]. right. split_and!.
  - by rewrite Hf.
  - destruct Ho as [->|?]; auto.
  - intros p ???. rewrite Hf by done. by apply Hb3.
Qed.

(** When there is no running copy [Revert] fails after it has renamed the
    state file away: the next transaction finds no file and starts from the
    initial policies. *)
Theorem Revert_without_running_copy path w old :
  faults w = [] -> files w !! path = Some old ->
  files w !! running_path path = None ->
  exists w', Revert path w = (Failed NotExist, w') /\
    files w' !! path = None /\ files w' !! org_path path = Some old /\
    view path (content_view init id) w' = Some init.
Proof.
  destruct (paths_differ path) as (Hrp & Hop & Hro).
  intros Hf Hold Hrun. unfold Revert. fold (running_path path) (org_path path).
  unfold mbind, fsM_bind. unfold Rename at 1, syscall, pop. rewrite Hf. cbn.
  rewrite Hold. cbn. unfold Rename, pop. cbn. rewrite Hf. cbn.
  rewrite lookup_insert_ne, lookup_delete_ne, Hrun by done.
  eexists. split; [reflexivity|]. cbn. unfold view. cbn.
  rewrite lookup_insert_eq, lookup_insert_ne, lookup_delete_eq by done. done.
Qed.
End backup.

(** ** The properties on concrete states *)

Definition no_host : HostInfo :=
  {| h_ContainerName := ""; DisplayName := ""; h_Address := "" |}.
Definition pol (id kind owner : string) : Policy :=
  {| Id := id; Status := ""; Reason := ""; Source := no_host; Destination := no_host;
     Protocol := ""; DestPort := 0; Comment := ""; ManagedBy := ""; OwnerKind := kind;
     OwnerNS := ""; OwnerName := ""; OwnerId := owner |}.
Definition demo : NetworkPolicy :=
  set_ENF (set_EW init [pol "1" "" ""; pol "2" "NetworkPolicy" "a"; pol "3" "" "";
                        pol "4" "NetworkPolicy" "b"])
    [pol "5" "NetworkPolicy" "a"].

Example RemovePoliciesByOwner_demo :
  match RemovePoliciesByOwner "NetworkPolicy" "a" demo with
  | Ok (np, removed) => (Id <$> all_policies np, Id <$> removed)
  | _ => ([], [])
  end = (["1"; "3"; "4"], ["2"; "5"]).
Proof. reflexivity. Qed.

Example ReplacePoliciesByOwnerKind_correct_witness :
  exists np' l', ReplacePoliciesByOwnerKind "RAIND-EW" "NetworkPolicy"
      [pol "6" "NetworkPolicy" "c"] demo = Ok (np', tt) /\
    chain_list "RAIND-EW" np' = Some l' /\
    List.filter (fun p => String.eqb (OwnerKind p) "NetworkPolicy") l' =
      [pol "6" "NetworkPolicy" "c"].
Proof.
  destruct (ReplacePoliciesByOwnerKind_correct "RAIND-EW" "NetworkPolicy"
    [pol "6" "NetworkPolicy" "c"] demo (EastWestPolicy (Policies demo)) eq_refl)
    as (np' & l' & H1 & H2 & H3 & _).
  - intros p Hp. apply list_elem_of_singleton in Hp. rewrite Hp. reflexivity.
  - exists np', l'. split; [exact H1|]. split; [exact H2|exact H3].
Defined.

(** A machine with a state file, with or without its running copy. *)
Definition disk (copy : bool) (fl : list fault) : fs :=
  {| files := let m := {["np.json" := "new"]} in
              if copy then <["np.json.running" := "old"]> m else m;
     locked := ∅; faults := fl |}.

Example Revert_keeps_running_witness :
  let w := (Revert "np.json" (disk true [NoFault; NoFault; NoFault; CrashAfter])).2 in
  files w !! "np.json.running" = Some "" /\
  (files w !! "np.json" = Some "old" \/ files w !! "np.json.running" = Some "old").
Proof.
  split; [vm_compute; reflexivity|].
  apply (Revert_keeps_running "np.json"
    (disk true [NoFault; NoFault; NoFault; CrashAfter])
    (Revert "np.json" (disk true [NoFault; NoFault; NoFault; CrashAfter])).1 _ "new" "old").
  - reflexivity.
  - reflexivity.
  - apply surjective_pairing.
Defined.

Example Revert_without_running_copy_witness :
  exists w', Revert "np.json" (disk false []) = (Failed NotExist, w') /\
    files w' !! "np.json" = None /\ files w' !! "np.json.org" = Some "new" /\
    @view _ "np.json" (@content_view _
      {| marshal := fun _ => Err "unused"; unmarshal := fun _ => Err "unused" |} init id) w'
      = Some init.
Proof.
  apply (@Revert_without_running_copy
    {| marshal := fun _ => Err "unused"; unmarshal := fun _ => Err "unused" |}
    "np.json" (disk false []) "new"); reflexivity.
Defined.
