(* ===== verification/Nsm.v ===== *)
(** * Namespaces ([store/nsm])

    The namespace table.  The default namespace is there in every state that is
    loaded, and no operation removes it. *)

From Stdlib Require Import ZArith Lia Ascii String.
From stdpp Require Import base gmap strings list sorting relations.
From S2P Require Import Prelude.
From S2P Require Import GoString.
From S2P Require Import GoSort.
From S2P Require Import Persist.
Open Scope Z_scope.

(** ** Data ([model.go]) *)

Definition DefaultNamespace : string := "default".
Definition DefaultNamespaceNetwork : string := "raind0".

Record NamespaceInfo := {
  Name : string;
  Network : string;
  NetworkAuto : bool;
  Labels : gmap string string;
  Annotations : gmap string string;
  CreatedAt : Z
}.

Record NamespaceState := {
  Version : string;
  Namespace : gmap string NamespaceInfo
}.

Definition set_Namespace (st : NamespaceState) (m : gmap string NamespaceInfo)
    : NamespaceState :=
  {| Version := Version st; Namespace := m |}.

(** ** Operations ([nsm.go]) *)

Definition ensureDefaultNamespace (now : Z) (namespaces : gmap string NamespaceInfo)
    : gmap string NamespaceInfo :=
  match namespaces !! DefaultNamespace with
  | Some _ => namespaces
  | None =>
      <[DefaultNamespace :=
          {| Name := DefaultNamespace; Network := DefaultNamespaceNetwork;
             NetworkAuto := false; Labels := ∅; Annotations := ∅; CreatedAt := now |}]>
        namespaces
  end.

Definition name_le (x y : NamespaceInfo) : Prop := string_leb (Name x) (Name y) = true.
#[export] Instance name_le_dec : RelDecision name_le.
Proof. intros x y. unfold name_le. apply _. Defined.

Section manager.
Context {RO : RangeOrder}.
Implicit Types st : NamespaceState.

Definition ns_not_found (name : string) : error := "namespace not found: " +:+ name.

Definition StoreNamespace (info : NamespaceInfo) (now : Z) st
    : res (NamespaceState * unit) :=
  if String.eqb (Name info) "" then Err "namespace name is required" else
  match Namespace st !! Name info with
  | Some _ => Err ("namespace already exists: " +:+ Name info)
  | None =>
      let info := {| Name := Name info; Network := Network info;
                     NetworkAuto := NetworkAuto info; Labels := Labels info;
                     Annotations := Annotations info;
                     CreatedAt := if CreatedAt info =? 0 then now else CreatedAt info |} in
      Ok (set_Namespace st (<[Name info := info]> (Namespace st)), tt)
  end.

Definition GetNamespace (name : string) st : res NamespaceInfo :=
  match Namespace st !! name with
  | Some ns => Ok ns
  | None => Err (ns_not_found name)
  end.

(** [sort.Slice] by name; the names are different, so every sorting algorithm
    gives the same list. *)
Definition GetNamespaceList st : res (list NamespaceInfo) :=
  Ok (merge_sort name_le (range_values (Namespace st))).

Definition RemoveNamespace (name : string) st : res (NamespaceState * unit) :=
  if String.eqb name DefaultNamespace then Err "default namespace cannot be removed" else
  m ← remove_entry (ns_not_found name) name (Namespace st);
  Ok (set_Namespace st m, tt).

Definition IsNamespaceExist (name : string) st : bool := is_ok (GetNamespace name st).
End manager.

(** ** The store ([store.go]) *)

Definition defaultNamespaceState (now : Z) : NamespaceState :=
  {| Version := "0.1.0"; Namespace := ensureDefaultNamespace now ∅ |}.

(** What [loadOrInit] does to a decoded state: the missing version and the
    missing default namespace are put in. *)
Definition repair (now : Z) (st : NamespaceState) : NamespaceState :=
  {| Version := if String.eqb (Version st) "" then "0.1.0" else Version st;
     Namespace := ensureDefaultNamespace now (Namespace st) |}.

Definition SetNamespaceState_tx (now : Z) (st : NamespaceState)
    : res (NamespaceState * unit) :=
  Ok ({| Version := "0.1.0"; Namespace := ensureDefaultNamespace now (Namespace st) |}, tt).

Section store.
Context {C : Codec NamespaceState}.

Definition loadOrInit (path : string) (now : Z) : fsM NamespaceState :=
  Persist.loadOrInit path "namespace state json broken" (defaultNamespaceState now)
    (repair now).
Definition atomicSave : string -> NamespaceState -> fsM unit := Persist.atomicSave.
Definition withLock {A} (path : string) (now : Z)
    : (NamespaceState -> res (NamespaceState * A)) -> fsM A :=
  Persist.withLock path (loadOrInit path now).
Definition withRLock {A} (path : string) (now : Z) : (NamespaceState -> res A) -> fsM A :=
  Persist.withRLock path (loadOrInit path now).
Definition SetNamespaceState (path : string) (now : Z) : fsM unit :=
  withLock path now (SetNamespaceState_tx now).
Definition EnsureDefaultNamespace : string -> Z -> fsM unit := SetNamespaceState.
End store.

(** ** Theory *)

Section theory.
Context {RO : RangeOrder}.
Implicit Types st : NamespaceState.

Lemma ensure_default now m : is_Some (ensureDefaultNamespace now m !! DefaultNamespace).
Proof.
  unfold ensureDefaultNamespace. destruct (m !! DefaultNamespace) eqn:E; [by eexists|].
  rewrite lookup_insert_eq. by eexists.
Qed.

Lemma ensure_keeps now m name ns :
  m !! name = Some ns -> ensureDefaultNamespace now m !! name = Some ns.
Proof.
  intros Hm. unfold ensureDefaultNamespace. destruct (m !! DefaultNamespace) eqn:E; [done|].
  rewrite lookup_insert_ne; [done|]. intros <-. congruence.
Qed.

Lemma ensure_keyed now m : keyed Name m -> keyed Name (ensureDefaultNamespace now m).
Proof.
  intros Hk. unfold ensureDefaultNamespace. case_match; [done|]. by apply keyed_insert.
Qed.

(** The transactions, run one after another on a state that was loaded, with a
    load and repair before each, as [withLock] does. *)
Inductive nsm_step : NamespaceState -> NamespaceState -> Prop :=
  | step_StoreNamespace info now st st' :
      StoreNamespace info now (repair now st) = Ok (st', tt) -> nsm_step st st'
  | step_RemoveNamespace name now st st' :
      RemoveNamespace name (repair now st) = Ok (st', tt) -> nsm_step st st'
  | step_SetNamespaceState now st st' :
      SetNamespaceState_tx now (repair now st) = Ok (st', tt) -> nsm_step st st'.

Record nsm_ok st : Prop := {
  nsm_keyed : keyed Name (Namespace st);
  nsm_default : is_Some (Namespace st !! DefaultNamespace)
}.

Lemma nsm_step_ok st st' : nsm_step st st' -> keyed Name (Namespace st) -> nsm_ok st'.
Proof.
  intros Hs Hk. destruct Hs as [info now st st' H|name now st st' H|now st st' H];
    pose proof (ensure_keyed now _ Hk) as Hk';
    pose proof (ensure_default now (Namespace st)) as Hd.
  - unfold StoreNamespace in H. case_in H; [done|]. case_in H; [done|]. injection H as <-.
    split; simpl in *; [by apply keyed_insert|].
    apply lookup_insert_is_Some. destruct (decide (Name info = DefaultNamespace)); auto.
  - unfold RemoveNamespace in H. destruct (String.eqb_spec name DefaultNamespace) as [|Hne];
      [done|].
    apply res_bind_ok in H as (m & [_ ->]%remove_entry_ok & [= <-]).
    split; simpl in *; [by apply keyed_delete|]. by rewrite lookup_delete_ne.
  - injection H as <-. split; simpl; [by apply ensure_keyed|apply ensure_default].
Qed.

(** The default namespace survives: after any sequence of committed
    transactions from a keyed state, the default namespace exists, every
    namespace is stored under its name, and removing the default one is
    refused. *)
Theorem default_namespace_survives st st' now :
  keyed Name (Namespace st) -> tc nsm_step st st' ->
  nsm_ok st' /\ IsNamespaceExist DefaultNamespace st' = true /\
  RemoveNamespace DefaultNamespace (repair now st') =
    Err "default namespace cannot be removed".
Proof.
  intros Hk H. assert (nsm_ok st') as Hok.
  { revert Hk. induction H as [x y Hxy|x y z Hxy _ IH]; intros Hk.
    - by eapply nsm_step_ok.
    - apply IH. by eapply nsm_step_ok. }
  split; [done|]. split; [|done].
  unfold IsNamespaceExist, GetNamespace. by destruct (nsm_default _ Hok) as [ns ->].
Qed.

(** [GetNamespaceList] lists exactly the stored namespaces in strictly
    increasing name order; the iteration order of the map does not show. *)
Theorem GetNamespaceList_sorted st :
  keyed Name (Namespace st) ->
  exists l, GetNamespaceList st = Ok l /\
    l ≡ₚ range_values (Namespace st) /\ StronglySorted name_le l /\
    (forall RO' : RangeOrder, @GetNamespaceList RO' st = Ok l).
Proof.
  intros Hk.
  assert (Total name_le) as Ht by (intros x y; apply string_leb_total).
  assert (Transitive name_le) as Htr by (intros x y z; apply string_leb_trans).
  eexists. split; [reflexivity|]. split; [apply merge_sort_Permutation|].
  split; [by apply StronglySorted_merge_sort|]. intros RO'. unfold GetNamespaceList. f_equal.
  assert (forall (R : RangeOrder),
    @range_values R _ (Namespace st) ≡ₚ (map_to_list (Namespace st)).*2) as Hp.
  { intros R. unfold range_values. by rewrite range_map_perm. }
  apply (StronglySorted_unique_strong name_le).
  - intros x y Hx Hy Hxy Hyx.
    rewrite merge_sort_Permutation in Hx, Hy.
    apply elem_of_range_values in Hx as [k1 Hx]. apply elem_of_range_values in Hy as [k2 Hy].
    pose proof (string_leb_antisym _ _ Hxy Hyx) as He.
    apply Hk in Hx as Hkx. apply Hk in Hy as Hky.
    assert (k1 = k2) as -> by congruence. congruence.
  - by apply StronglySorted_merge_sort.
  - by apply StronglySorted_merge_sort.
  - by rewrite !merge_sort_Permutation, !Hp.
Qed.
End theory.

(** ** The properties on concrete states *)

Definition team (name : string) : NamespaceInfo :=
  {| Name := name; Network := "raind0"; NetworkAuto := false; Labels := ∅;
     Annotations := ∅; CreatedAt := 0 |}.
Definition after {A} (m : res (NamespaceState * A)) : NamespaceState :=
  match m with Ok (st, _) => st | _ => defaultNamespaceState 0 end.
(** A state file without the default namespace. *)
Definition bare : NamespaceState := {| Version := ""; Namespace := ∅ |}.
Lemma bare_keyed : keyed Name (Namespace bare).
Proof. unfold bare. cbn [Namespace]. exact (keyed_empty Name). Qed.

Definition two : NamespaceState :=
  after (StoreNamespace (team "a") 3 (repair 3
    (after (StoreNamespace (team "web") 2 (repair 2 bare))))).

Example default_namespace_survives_witness :
  nsm_ok two /\ IsNamespaceExist DefaultNamespace two = true /\
  RemoveNamespace DefaultNamespace (repair 9 two) =
    Err "default namespace cannot be removed".
Proof.
  apply (default_namespace_survives bare two 9).
  - exact bare_keyed.
  - eapply tc_l; [|apply tc_once].
    + apply (step_StoreNamespace (team "web") 2 bare
        (after (StoreNamespace (team "web") 2 (repair 2 bare)))). vm_compute. reflexivity.
    + apply (step_StoreNamespace (team "a") 3). vm_compute. reflexivity.
Defined.

Example GetNamespaceList_sorted_witness :
  exists l, GetNamespaceList two = Ok l /\ Name <$> l = ["a"; "default"; "web"] /\
    StronglySorted name_le l.
Proof.
  destruct (GetNamespaceList_sorted two) as (l & Hl & _ & Hs & _).
  - apply (nsm_step_ok (after (StoreNamespace (team "web") 2 (repair 2 bare))) two).
    + apply (step_StoreNamespace (team "a") 3). vm_compute. reflexivity.
    + apply (nsm_step_ok bare); [|exact bare_keyed].
      apply (step_StoreNamespace (team "web") 2). vm_compute. reflexivity.
  - exists l. split; [exact Hl|]. split; [|exact Hs].
    assert (match GetNamespaceList two with Ok x => Name <$> x | _ => [] end =
      ["a"; "default"; "web"]) as E by (vm_compute; reflexivity).
    rewrite Hl in E. exact E.
Defined.
