(* ===== verification/Bsm.v ===== *)
(** * Bottles ([store/bsm])

    A bottle is a group of services started together: the table of their
    specifications, start order and the containers that run them. *)

From Stdlib Require Import ZArith Lia String.
From stdpp Require Import base gmap strings list relations.
From S2P Require Import Prelude.
From S2P Require Import GoString.
From S2P Require Import Persist.
Open Scope Z_scope.

(** ** Data ([model.go]) *)

Record ServiceSpec := {
  Image : string;
  Command : list string;
  Env : list string;
  Ports : list string;
  Mount : list string;
  Device : list string;
  CapAdd : list string;
  CapDrop : list string;
  Network : string;
  Tty : bool;
  DependsOn : list string
}.

Record PolicyInfo := {
  Id : string;
  Type_ : string;
  Source : string;
  Destination : string;
  Protocol : string;
  DestPort : Z;
  Comment : string
}.

Record BottleInfo := {
  BottleId : string;
  BottleName : string;
  Services : gmap string ServiceSpec;
  StartOrder : list string;
  Containers : gmap string string;
  Policies : list PolicyInfo;
  b_Network : string;
  NetworkAuto : bool;
  CreatedAt : Z
}.

Record BottleState := {
  Version : string;
  Bottles : gmap string BottleInfo
}.

Definition set_Bottles (st : BottleState) (m : gmap string BottleInfo) : BottleState :=
  {| Version := Version st; Bottles := m |}.

(** ** Operations ([bsm.go]) *)

Section manager.
Context {RO : RangeOrder}.
Implicit Types st : BottleState.

Definition id_not_found (bottleId : string) : error :=
  "bottleId=" +:+ bottleId +:+ " not found".
Definition not_found (str : string) : error := "bottle: " +:+ str +:+ " not found".

Definition StoreBottle (bottleId bottleName : string) (services : gmap string ServiceSpec)
    (startOrder : list string) (policies : list PolicyInfo) (now : Z) st
    : res (BottleState * unit) :=
  let b := {| BottleId := bottleId; BottleName := bottleName; Services := services;
              StartOrder := startOrder; Containers := ∅; Policies := policies;
              b_Network := ""; NetworkAuto := false; CreatedAt := now |} in
  Ok (set_Bottles st (<[bottleId := b]> (Bottles st)), tt).

Definition find_by_id (bottleId : string) st : option (string * BottleInfo) :=
  range_find (fun b => String.eqb (BottleId b) bottleId) (Bottles st).
Definition find_by_name (name : string) st : option (string * BottleInfo) :=
  range_find (fun b => String.eqb (BottleName b) name) (Bottles st).

Definition RemoveBottle (bottleId : string) st : res (BottleState * unit) :=
  match find_by_id bottleId st with
  | Some (id, _) => Ok (set_Bottles st (delete id (Bottles st)), tt)
  | None => Err (id_not_found bottleId)
  end.

Definition update (bottleId : string) (f : BottleInfo -> BottleInfo) st
    : res (BottleState * unit) :=
  m ← update_entry (id_not_found bottleId) bottleId (fun b => Ok (f b)) (Bottles st);
  Ok (set_Bottles st m, tt).

Definition UpdateBottleContainers (bottleId : string) (containers : gmap string string) st
    : res (BottleState * unit) :=
  update bottleId (fun b => {| BottleId := BottleId b;
                               BottleName := BottleName b;
                               Services := Services b;
                               StartOrder := StartOrder b;
                               Containers := containers;
                               Policies := Policies b;
                               b_Network := b_Network b;
                               NetworkAuto := NetworkAuto b;
                               CreatedAt := CreatedAt b |}) st.

(** A missing [Containers] map is made first; it is an empty [gmap] here. *)
Definition UpdateBottleContainer (bottleId serviceName containerId : string) st
    : res (BottleState * unit) :=
  update bottleId (fun b =>
    {| BottleId := BottleId b; BottleName := BottleName b;
       Services := Services b; StartOrder := StartOrder b;
       Containers := <[serviceName := containerId]> (Containers b);
       Policies := Policies b; b_Network := b_Network b;
       NetworkAuto := NetworkAuto b; CreatedAt := CreatedAt b |}) st.

Definition UpdateBottleNetwork (bottleId network : string) (auto : bool) st
    : res (BottleState * unit) :=
  update bottleId (fun b =>
    {| BottleId := BottleId b; BottleName := BottleName b;
       Services := Services b; StartOrder := StartOrder b;
       Containers := Containers b; Policies := Policies b;
       b_Network := network; NetworkAuto := auto; CreatedAt := CreatedAt b |}) st.

Definition GetBottleList st : res (list BottleInfo) := Ok (range_values (Bottles st)).

Definition GetBottleById (bottleId : string) st : res BottleInfo :=
  match find_by_id bottleId st with
  | Some (_, b) => Ok b
  | None => Err (not_found bottleId)
  end.

Definition GetBottleByName (bottleName : string) st : res BottleInfo :=
  match find_by_name bottleName st with
  | Some (_, b) => Ok b
  | None => Err (not_found bottleName)
  end.

Definition IsNameAlreadyUsed (name : string) st : res bool :=
  Ok (match find_by_name name st with Some _ => true | None => false end).

Definition GetBottleIdByName (name : string) st : res string :=
  match find_by_name name st with
  | Some (_, b) => Ok (BottleId b)
  | None => Err (not_found name)
  end.

Definition GetBottleNameById (bottleId : string) st : res string :=
  match find_by_id bottleId st with
  | Some (_, b) => Ok (BottleName b)
  | None => Err (not_found bottleId)
  end.

(** The operations below take the lock twice; [st1] and [st2] are the states
    of the two reads. *)
Definition GetBottleIdAndName (str : string) st1 st2 : res (string * string) :=
  match GetBottleIdByName str st1, GetBottleNameById str st2 with
  | Ok bottleId, _ => Ok (bottleId, str)
  | _, Ok bottleName => Ok (str, bottleName)
  | _, _ => Err (not_found str)
  end.

Definition ResolveBottleId (str : string) st1 st2 : res string :=
  match GetBottleIdByName str st1 with
  | Ok bottleId => Ok bottleId
  | _ => match GetBottleById str st2 with
         | Ok _ => Ok str
         | Err e => Err e
         | Panic e => Panic e
         end
  end.

Definition IsBottleExist (str : string) st1 st2 : bool :=
  is_ok (GetBottleIdByName str st1) || is_ok (GetBottleNameById str st2).
End manager.

(** ** The store ([store.go]) *)

Definition init : BottleState := {| Version := "0.1.0"; Bottles := ∅ |}.
(** A nil map and an empty map are the same [gmap]. *)
Definition repair (st : BottleState) : BottleState := st.
Definition SetBottleState_tx (st : BottleState) : res (BottleState * unit) :=
  Ok ({| Version := "0.1.0"; Bottles := Bottles st |}, tt).

Section store.
Context {C : Codec BottleState}.

Definition loadOrInit (path : string) : fsM BottleState :=
  Persist.loadOrInit path "bottle state json broken" init repair.
Definition atomicSave : string -> BottleState -> fsM unit := Persist.atomicSave.
Definition withLock {A} (path : string) : (BottleState -> res (BottleState * A)) -> fsM A :=
  Persist.withLock path (loadOrInit path).
Definition withRLock {A} (path : string) : (BottleState -> res A) -> fsM A :=
  Persist.withRLock path (loadOrInit path).
Definition SetBottleState (path : string) : fsM unit := withLock path SetBottleState_tx.
End store.

(** ** Lemmas *)

Section lemmas.
Context {RO : RangeOrder}.
Implicit Types st : BottleState.

Lemma update_ok bottleId f st st' :
  update bottleId f st = Ok (st', tt) <->
  exists b, Bottles st !! bottleId = Some b /\
    st' = set_Bottles st (<[bottleId := f b]> (Bottles st)).
Proof.
  unfold update. rewrite res_bind_ok. setoid_rewrite update_entry_ok. naive_solver.
Qed.

Lemma bottle_by_id_keyed st id :
  keyed BottleId (Bottles st) ->
  find_by_id id st = (fun b => (id, b)) <$> Bottles st !! id.
Proof. apply range_find_keyed. Qed.

Lemma GetBottleById_keyed st id :
  keyed BottleId (Bottles st) ->
  GetBottleById id st =
    match Bottles st !! id with Some b => Ok b | None => Err (not_found id) end.
Proof.
  intros Hk. unfold GetBottleById. rewrite bottle_by_id_keyed by done.
  by destruct (Bottles st !! id).
Qed.

Lemma RemoveBottle_keyed st id :
  keyed BottleId (Bottles st) ->
  RemoveBottle id st =
    match Bottles st !! id with
    | Some _ => Ok (set_Bottles st (delete id (Bottles st)), tt)
    | None => Err (id_not_found id)
    end.
Proof.
  intros Hk. unfold RemoveBottle. rewrite bottle_by_id_keyed by done.
  by destruct (Bottles st !! id).
Qed.

Lemma StoreBottle_keyed id name sv order ps now st st' :
  keyed BottleId (Bottles st) -> StoreBottle id name sv order ps now st = Ok (st', tt) ->
  keyed BottleId (Bottles st').
Proof. intros Hk [= <-]. by apply keyed_insert. Qed.

Lemma bottle_update_keyed id f st st' :
  (forall b, BottleId (f b) = BottleId b) ->
  keyed BottleId (Bottles st) -> update id f st = Ok (st', tt) ->
  keyed BottleId (Bottles st').
Proof.
  intros Hf Hk (b & Hb & ->)%update_ok. simpl. apply keyed_insert; [done|].
  rewrite Hf. by apply Hk.
Qed.
End lemmas.
