(* ===== verification/StartOrder.v ===== *)
(** * The start order of a bottle ([core/bottle/service.go], specifications)

    A bottle specification is read, normalised, and ordered so that every
    service starts after those it depends on (Kahn's algorithm on maps and
    slices). *)

From Stdlib Require Import ZArith Lia String.
From stdpp Require Import base gmap strings list fin_maps fin_sets.
From S2P Require Import Prelude.
From S2P Require Import GoString.
Open Scope Z_scope.

(** ** Data ([model.go]) *)

Record BottleMeta := {
  bm_Name : string
}.

Record ServiceSpec := {
  Image : string;
  Command : list string;
  Env : list string;
  Ports : list string;
  Mount : list string;
  Device : list string;
  DeviceAlt : list string;
  CapAdd : list string;
  CapAddAlt : list string;
  CapDrop : list string;
  CapDropAlt : list string;
  Network : string;
  Tty : bool;
  DependsOn : list string
}.

Record PolicySpec := {
  ps_Type : string;
  Source : string;
  Destination : string;
  Protocol : string;
  DestPort : Z;
  Comment : string
}.

Record BottleSpec := {
  Bottle : BottleMeta;
  Services : gmap string ServiceSpec;
  Policies : list PolicySpec
}.

(** ** Reading a specification *)

(** The loop of [mergeUniqueStrings]; [seen] holds what [out] holds. *)
Fixpoint merge_loop (l : list string) (seen : gset string) : list string :=
  match l with
  | [] => []
  | s :: l =>
      let v := trimSpace s in
      if String.eqb v "" then merge_loop l seen
      else if decide (v ∈ seen) then merge_loop l seen
      else v :: merge_loop l ({[v]} ∪ seen)
  end.
Definition mergeUniqueStrings (a b : list string) : list string := merge_loop (a ++ b) ∅.

Definition normalize_service (svc : ServiceSpec) : ServiceSpec :=
  {| Image := Image svc; Command := Command svc; Env := Env svc;
     Ports := Ports svc; Mount := Mount svc;
     Device := mergeUniqueStrings (Device svc) (DeviceAlt svc);
     DeviceAlt := [];
     CapAdd := mergeUniqueStrings (CapAdd svc) (CapAddAlt svc);
     CapAddAlt := [];
     CapDrop := mergeUniqueStrings (CapDrop svc) (CapDropAlt svc);
     CapDropAlt := []; Network := Network svc; Tty := Tty svc;
     DependsOn := DependsOn svc |}.

Definition normalizeServiceSpec (services : gmap string ServiceSpec)
    : gmap string ServiceSpec :=
  normalize_service <$> services.

(** [DecodeSpec] after [yaml.Unmarshal], whose result is the argument. *)
Definition DecodeSpec (decoded : res BottleSpec) : res BottleSpec :=
  spec ← decoded;
  let spec := {| Bottle := Bottle spec;
                 Services := normalizeServiceSpec (Services spec);
                 Policies := Policies spec |} in
  if String.eqb (bm_Name (Bottle spec)) "" then Err "bottle.name is required" else
  if decide (Services spec = ∅) then Err "services is required" else
  Ok spec.

(** ** The order *)

Section order.
Context {RO : RangeOrder}.

(** The dependencies of one service: an edge from each to the service. *)
Fixpoint add_edges (services : gmap string ServiceSpec) (svcName : string)
    (deps : list string) (g : gmap string (list string)) (d : gmap string Z)
    : res (gmap string (list string) * gmap string Z) :=
  match deps with
  | [] => Ok (g, d)
  | dep :: deps =>
      match services !! dep with
      | None => Err ("service " +:+ quoted svcName +:+ " depends on unknown service " +:+ quoted dep)
      | Some _ =>
          add_edges services svcName deps
            (<[dep := default [] (g !! dep) ++ [svcName]]> g)
            (<[svcName := default 0 (d !! svcName) + 1]> d)
      end
  end.

Fixpoint build_graph (services : gmap string ServiceSpec)
    (l : list (string * ServiceSpec)) (g : gmap string (list string)) (d : gmap string Z)
    : res (gmap string (list string) * gmap string Z) :=
  match l with
  | [] => Ok (g, d)
  | (svcName, svc) :: l =>
      '(g, d) ← add_edges services svcName (DependsOn svc) g d;
      build_graph services l g d
  end.

(** [for _, next := range graph[n] { inDegree[next]--; ... }] *)
Fixpoint relax (l : list string) (d : gmap string Z) (queue : list string)
    : gmap string Z * list string :=
  match l with
  | [] => (d, queue)
  | next :: l =>
      let k := default 0 (d !! next) - 1 in
      relax l (<[next := k]> d) (if k =? 0 then queue ++ [next] else queue)
  end.

(** The queue loop; [None]: not finished after [fuel] rounds. *)
Fixpoint kahn (fuel : nat) (g : gmap string (list string)) (d : gmap string Z)
    (queue order : list string) : option (list string) :=
  match fuel with
  | O => None
  | S fuel =>
      match queue with
      | [] => Some order
      | n :: queue =>
          let '(d, queue) := relax (default [] (g !! n)) d queue in
          kahn fuel g d queue (order ++ [n])
      end
  end.

Definition BuildStartOrder (spec : BottleSpec) : res (list string) :=
  let services := Services spec in
  '(g, d) ← build_graph services (range_map services) ∅ ((fun _ => 0) <$> services);
  let queue := (List.filter (fun kv => kv.2 =? 0) (range_map d)).*1 in
  match kahn (S (size services)) g d queue [] with
  | None => Panic "endless loop"
  | Some order =>
      if negb (length order =? size services)%nat
      then Err "dependency cycle detected" else Ok order
  end.
End order.

(** ** Correctness *)

(** The number of times [x] is in [l]. *)
Definition occ (x : string) (l : list string) : nat := length (filter (fun y => y = x) l).

Lemma occ_nil x : occ x [] = O.
Proof. done. Qed.
Lemma occ_cons x y l : occ x (y :: l) = ((if decide (y = x) then 1 else 0) + occ x l)%nat.
Proof. unfold occ. rewrite filter_cons. by case_decide. Qed.
Lemma occ_app x l k : occ x (l ++ k) = (occ x l + occ x k)%nat.
Proof. unfold occ. by rewrite filter_app, length_app. Qed.
Lemma occ_pos x l : x ∈ l <-> (0 < occ x l)%nat.
Proof.
  induction l as [|y l IH]; [rewrite occ_nil; split; [by intros ?%not_elem_of_nil|lia]|].
  rewrite elem_of_cons, occ_cons, IH. case_decide as E.
  - split; [lia|auto].
  - split; [intros [->|?]; [done|lia]|intros; right; lia].
Qed.

(** How many of [deps] are not in [order] yet, with multiplicity. *)
Definition waiting (order deps : list string) : nat :=
  length (filter (fun u => u ∉ order) deps).

Lemma waiting_nil order : waiting order [] = O.
Proof. done. Qed.
Lemma waiting_cons order u deps :
  waiting order (u :: deps) =
    ((if decide (u ∈ order) then 0 else 1) + waiting order deps)%nat.
Proof.
  unfold waiting. rewrite filter_cons. by repeat case_decide.
Qed.
Lemma waiting_start deps : waiting [] deps = length deps.
Proof.
  induction deps as [|u deps IH]; [done|]. rewrite waiting_cons, IH.
  rewrite decide_False by apply not_elem_of_nil. done.
Qed.

Lemma waiting_zero order deps : waiting order deps = O <-> forall u, u ∈ deps -> u ∈ order.
Proof.
  induction deps as [|u deps IH].
  - split; [|done]. by intros _ u ?%not_elem_of_nil.
  - rewrite waiting_cons. setoid_rewrite elem_of_cons. case_decide; naive_solver lia.
Qed.

Lemma waiting_snoc order n deps :
  n ∉ order -> waiting order deps = (waiting (order ++ [n]) deps + occ n deps)%nat.
Proof.
  intros Hn. induction deps as [|u deps IH]; [done|].
  rewrite !waiting_cons, occ_cons, IH.
  assert (u ∈ order ++ [n] <-> u ∈ order \/ u = n) as Hu
    by (by rewrite elem_of_app, list_elem_of_singleton).
  repeat case_decide; subst; first [lia | exfalso; naive_solver].
Qed.

Section kahn.
Context (services : gmap string ServiceSpec).

Definition deps (v : string) : list string :=
  match services !! v with Some svc => DependsOn svc | None => [] end.
Definition known (v : string) : Prop := is_Some (services !! v).

(** The graph has each dependency edge with its multiplicity. *)
Definition graph_ok (g : gmap string (list string)) : Prop :=
  forall u v, occ v (default [] (g !! u)) = if decide (known v) then occ u (deps v) else O.

Lemma add_edges_spec svcName l g d :
  match add_edges services svcName l g d with
  | Ok (g', d') =>
      (forall u, u ∈ l -> known u) /\
      (forall u v, occ v (default [] (g' !! u)) =
         (occ v (default [] (g !! u)) + if decide (v = svcName) then occ u l else 0)%nat) /\
      (forall v, default 0 (d' !! v) =
         default 0 (d !! v) + if decide (v = svcName) then Z.of_nat (length l) else 0) /\
      (is_Some (d !! svcName) -> dom d' = dom d)
  | Err _ => exists u, u ∈ l /\ ~ known u
  | Panic _ => False
  end.
Proof.
  revert g d. induction l as [|dep l IH]; intros g d; simpl.
  - split_and!.
    + by intros u ?%not_elem_of_nil.
    + intros u v. case_decide; rewrite ?occ_nil; lia.
    + intros v. case_decide; lia.
    + done.
  - destruct (services !! dep) as [svc|] eqn:E; cycle 1.
    { exists dep. split; [by left|]. unfold known. rewrite E. by intros [? ?]. }
    specialize (IH (<[dep := default [] (g !! dep) ++ [svcName]]> g)
      (<[svcName := default 0 (d !! svcName) + 1]> d)).
    destruct (add_edges _ _ _ _ _) as [[g' d']|e|e]; [| |done].
    + destruct IH as (Hk & Hg & Hd & Hdom). split_and!.
      * intros u [->|Hu]%elem_of_cons; [by eexists|auto].
      * intros u v. rewrite Hg, occ_cons.
        destruct (decide (dep = u)) as [<-|Hne].
        -- rewrite lookup_insert_eq. cbn [default from_option id].
           rewrite occ_app, occ_cons, occ_nil. repeat case_decide; subst; first [lia | exfalso; naive_solver].
        -- rewrite lookup_insert_ne by done. repeat case_decide; subst; first [lia | exfalso; naive_solver].
      * intros v. rewrite Hd. destruct (decide (v = svcName)) as [->|Hne].
        -- rewrite lookup_insert_eq. cbn. lia.
        -- rewrite lookup_insert_ne by done. lia.
      * intros Hs. rewrite Hdom by (rewrite lookup_insert_eq; by eexists).
        rewrite dom_insert_L. apply elem_of_dom in Hs. set_solver.
    + destruct IH as (u & Hu & Hn). exists u. split; [by right|done].
Qed.

Lemma build_graph_spec l g d :
  (forall v svc, (v, svc) ∈ l -> services !! v = Some svc) -> NoDup l.*1 ->
  dom d = dom services ->
  match build_graph services l g d with
  | Ok (g', d') =>
      (forall v u, v ∈ l.*1 -> u ∈ deps v -> known u) /\
      (forall u v, occ v (default [] (g' !! u)) =
         (occ v (default [] (g !! u)) + if decide (v ∈ l.*1) then occ u (deps v) else 0)%nat) /\
      (forall v, default 0 (d' !! v) =
         default 0 (d !! v) + if decide (v ∈ l.*1) then Z.of_nat (length (deps v)) else 0) /\
      dom d' = dom services
  | Err _ => exists v u, u ∈ deps v /\ ~ known u
  | Panic _ => False
  end.
Proof.
  revert g d. induction l as [|[s svc] l IH]; intros g d Hl Hnd Hdom; simpl.
  - split_and!; [by intros v u ?%not_elem_of_nil| | |done]; intros;
      try (case_decide as Hx; [by apply not_elem_of_nil in Hx|]); lia.
  - apply NoDup_cons in Hnd as [Hs Hnd].
    assert (services !! s = Some svc) as Es by (apply Hl; by left).
    assert (deps s = DependsOn svc) as Eds by (unfold deps; by rewrite Es).
    pose proof (add_edges_spec s (DependsOn svc) g d) as Ha.
    destruct (add_edges _ _ _ _ _) as [[g1 d1]|e|e]; cbn [mbind res_bind]; [| |done]; cycle 1.
    { destruct Ha as (u & Hu & Hn). exists s, u. by rewrite Eds. }
    destruct Ha as (Hk & Hg & Hd & Hdom1).
    assert (dom d1 = dom services) as Hd1.
    { rewrite Hdom1; [done|]. apply elem_of_dom. rewrite Hdom. apply elem_of_dom.
      by eexists. }
    specialize (IH g1 d1 ltac:(intros; apply Hl; by right) Hnd Hd1).
    destruct (build_graph _ _ _ _) as [[g' d']|e|e]; [|done..].
    destruct IH as (Hk' & Hg' & Hd' & Hdom'). split_and!; [| | |done].
    + intros v u [->|Hv]%elem_of_cons; [rewrite Eds; auto|eauto].
    + intros u v. rewrite Hg', Hg, <- Eds. pose proof (elem_of_cons l.*1 v s) as Hc.
      repeat case_decide; subst; first [lia | exfalso; naive_solver].
    + intros v. rewrite Hd', Hd, <- Eds. pose proof (elem_of_cons l.*1 v s) as Hc.
      repeat case_decide; subst; first [lia | exfalso; naive_solver].
Qed.

(** ** The queue loop *)

(** What holds between rounds, with [f] the number of unprocessed
    dependencies. *)
Record marks_ok (f : string -> nat) (order queue : list string) (d : gmap string Z) : Prop := {
  marks_nodup : NoDup (order ++ queue);
  marks_known v : v ∈ order ++ queue -> known v;
  marks_degree v : known v -> default 0 (d !! v) = Z.of_nat (f v);
  marks_ready v : known v -> v ∈ order ++ queue <-> f v = O
}.

Lemma relax_spec (f : string -> nat) l order queue d :
  (forall v, v ∈ l -> known v) ->
  marks_ok (fun v => (f v + occ v l)%nat) order queue d ->
  let '(d', queue') := relax l d queue in marks_ok f order queue' d'.
Proof.
  revert queue d. induction l as [|x l IH]; intros queue d Hl [H1 H2 H3 H4]; simpl.
  - split; try done.
    + intros v Hv. rewrite H3 by done. by rewrite occ_nil, Nat.add_0_r.
    + intros v Hv. rewrite H4 by done. by rewrite occ_nil, Nat.add_0_r.
  - assert (known x) as Hx by (apply Hl; by left).
    pose proof (H3 x Hx) as Hdx. rewrite occ_cons, decide_True in Hdx by done.
    assert (x ∉ order ++ queue) as Hxn.
    { rewrite H4 by done. rewrite occ_cons, decide_True by done. lia. }
    apply IH; [intros v Hv; apply Hl; by right|].
    assert (forall v, known v -> default 0 (<[x:=default 0 (d !! x) - 1]> d !! v) =
      Z.of_nat (f v + occ v l)) as Hdeg.
    { intros v Hv. destruct (decide (x = v)) as [<-|Hne].
      - rewrite lookup_insert_eq. cbn. lia.
      - rewrite lookup_insert_ne by done. rewrite H3 by done.
        by rewrite occ_cons, decide_False. }
    destruct (Z.eqb_spec (default 0 (d !! x) - 1) 0) as [Ez|Ez].
    + split; [| |done|].
      * rewrite (assoc_L (++)). apply NoDup_app. split_and!; [done| |apply NoDup_singleton].
        intros y Hy ->%list_elem_of_singleton. done.
      * intros v. rewrite (assoc_L (++)), elem_of_app, list_elem_of_singleton.
        intros [Hv| ->]; auto.
      * intros v Hv. rewrite (assoc_L (++)), elem_of_app, list_elem_of_singleton, H4 by done.
        rewrite occ_cons. case_decide as Hxv; [subst; naive_solver lia|].
        split; [intros [?|?]; [lia|congruence]|intros; left; lia].
    + split; [done|done|done|]. intros v Hv. rewrite H4 by done. rewrite occ_cons.
      case_decide as Hxv; [subst; lia|lia].
Qed.

Definition sorted_order (order : list string) : Prop :=
  forall i v u, order !! i = Some v -> u ∈ deps v ->
    exists j, (j < i)%nat /\ order !! j = Some u.

Lemma order_length order queue :
  NoDup (order ++ queue) -> (forall v, v ∈ order ++ queue -> known v) ->
  (length order + length queue <= size services)%nat.
Proof.
  intros Hnd Hk. rewrite <- length_app, <- (size_dom services).
  rewrite <- (size_list_to_set (C:=gset string)) by done. apply subseteq_size.
  intros v. rewrite elem_of_list_to_set. intros Hv. by apply elem_of_dom, Hk.
Qed.

Lemma kahn_spec fuel g d queue order :
  graph_ok g ->
  (size services < fuel + length order)%nat ->
  marks_ok (fun v => waiting order (deps v)) order queue d -> sorted_order order ->
  exists order', kahn fuel g d queue order = Some order' /\
    NoDup order' /\ (forall v, v ∈ order' -> known v) /\ sorted_order order' /\
    (forall v, known v -> v ∈ order' <-> forall u, u ∈ deps v -> u ∈ order').
Proof.
  intros Hg. revert d queue order. induction fuel as [|fuel IH];
    intros d queue order Hf Hm Hs; pose proof Hm as [H1 H2 H3 H4];
    pose proof (order_length _ _ H1 H2) as Hlen; [lia|].
  destruct queue as [|n queue]; simpl.
  - exists order. rewrite app_nil_r in *. split_and!; try done.
    intros v Hv. rewrite H4 by done. apply waiting_zero.
  - simpl in Hlen.
    assert (n ∉ order /\ n ∉ queue) as [Hno Hnq].
    { apply NoDup_app in H1 as (_ & Hdis & Hq). apply NoDup_cons in Hq as [? _].
      split; [|done]. intros Ho. apply (Hdis n Ho). by left. }
    assert (known n) as Hn by (apply H2; rewrite elem_of_app, elem_of_cons; auto).
    pose proof (relax_spec (fun v => waiting (order ++ [n]) (deps v))
      (default [] (g !! n)) (order ++ [n]) queue d) as Hr.
    destruct (relax _ _ _) as [d' queue'].
    assert (marks_ok (fun v => waiting (order ++ [n]) (deps v)) (order ++ [n]) queue' d')
      as Hm'.
    { apply Hr.
      - intros v Hv. apply occ_pos in Hv. rewrite Hg in Hv. case_decide; [done|lia].
      - assert (forall v, known v ->
          (waiting (order ++ [n]) (deps v) + occ v (default [] (g !! n)))%nat =
          waiting order (deps v)) as He.
        { intros v Hv. rewrite Hg, decide_True by done. by rewrite <- waiting_snoc. }
        split.
        + by rewrite <- (assoc_L (++)).
        + intros v. rewrite <- (assoc_L (++)). apply H2.
        + intros v Hv. rewrite He by done. by apply H3.
        + intros v Hv. rewrite He, <- (assoc_L (++)) by done. by apply H4. }
    apply IH; [rewrite length_app; simpl; lia|done|].
    intros i v u Hi Hu. apply lookup_app_Some in Hi as [Hi|[Hge Hi]].
    + destruct (Hs i v u Hi Hu) as (j & Hj & Hju). exists j. split; [done|].
      by apply lookup_app_l_Some.
    + apply list_lookup_singleton_Some in Hi as [Hi <-].
      assert (waiting order (deps n) = O) as Hw.
      { apply H4; [done|]. rewrite elem_of_app, elem_of_cons. auto. }
      rewrite waiting_zero in Hw. apply Hw, list_elem_of_lookup in Hu as [j Hj].
      exists j. pose proof (lookup_lt_Some _ _ _ Hj). split; [lia|].
      by apply lookup_app_l_Some.
Qed.
End kahn.

(** ** The whole function *)

Section whole.
Context {RO : RangeOrder}.

Lemma range_keys_known services v : v ∈ (range_map services).*1 <-> known services v.
Proof.
  rewrite list_elem_of_fmap. split.
  - intros ([k svc] & -> & Hin%elem_of_range_map). by eexists.
  - intros [svc Hin]. exists (v, svc). by rewrite elem_of_range_map.
Qed.

(** The services the queue starts with: those of in-degree 0. *)
Definition start_queue (d : gmap string Z) : list string :=
  (List.filter (fun kv => kv.2 =? 0) (range_map d)).*1.

Lemma start_queue_NoDup d : NoDup (start_queue d).
Proof.
  eapply sublist_NoDup; [apply (NoDup_range_keys d)|]. apply fmap_sublist.
  induction (range_map d) as [|x l IH]; simpl; [done|].
  by destruct (x.2 =? 0); constructor.
Qed.

Lemma elem_of_start_queue d v : v ∈ start_queue d <-> d !! v = Some 0.
Proof.
  unfold start_queue. rewrite list_elem_of_fmap, <- elem_of_range_map. split.
  - intros ([k x] & -> & Hin). apply list_elem_of_In, filter_In in Hin as [Hin Hx].
    simpl in *. apply Z.eqb_eq in Hx as ->. by apply list_elem_of_In.
  - intros Hin. exists (v, 0). split; [done|].
    apply list_elem_of_In, filter_In. split; [|done]. by apply list_elem_of_In.
Qed.

(** [build_graph] started as [BuildStartOrder] does. *)
Lemma built_graph services :
  match build_graph services (range_map services) ∅ ((fun _ => 0) <$> services) with
  | Ok (g, d) =>
      (forall v u, u ∈ deps services v -> known services u) /\
      graph_ok services g /\
      dom d = dom services /\
      (forall v, known services v -> d !! v = Some (Z.of_nat (length (deps services v))))
  | Err _ => exists v u, u ∈ deps services v /\ ~ known services u
  | Panic _ => False
  end.
Proof.
  pose proof (build_graph_spec services (range_map services) ∅ ((fun _ => 0) <$> services)
    ltac:(intros v svc; apply elem_of_range_map) (NoDup_range_keys _)
    ltac:(apply dom_fmap_L)) as Hb.
  destruct (build_graph _ _ _ _) as [[g d]|e|e]; [|done..].
  destruct Hb as (Hk & Hg & Hd & Hdom). split_and!; [| |done|].
  - intros v u Hu. destruct (decide (v ∈ (range_map services).*1)) as [Hv|Hv]; [eauto|].
    rewrite range_keys_known in Hv. unfold deps in Hu. unfold known in Hv.
    destruct (services !! v); [by destruct Hv|by apply not_elem_of_nil in Hu].
  - intros u v. rewrite Hg, lookup_empty. cbn [default from_option id]. rewrite occ_nil.
    pose proof (range_keys_known services v).
    repeat case_decide; first [lia | exfalso; naive_solver].
  - intros v Hv. pose proof (Hd v) as Hdv.
    rewrite decide_True in Hdv by by apply range_keys_known.
    assert (is_Some (d !! v)) as [x Hx].
    { apply elem_of_dom. rewrite Hdom. by apply elem_of_dom. }
    rewrite Hx in Hdv |- *. cbn in Hdv. destruct Hv as [svc Hsvc].
    rewrite lookup_fmap, Hsvc in Hdv. cbn in Hdv. f_equal. lia.
Qed.

(** Every service is either ordered, after its dependencies, or waits for a
    service that is not. *)
Lemma BuildStartOrder_run spec :
  match build_graph (Services spec) (range_map (Services spec)) ∅
          ((fun _ => 0) <$> Services spec) with
  | Ok _ =>
      (forall v u, u ∈ deps (Services spec) v -> known (Services spec) u) /\
      exists order, BuildStartOrder spec =
          (if negb (length order =? size (Services spec))%nat
           then Err "dependency cycle detected" else Ok order) /\
        NoDup order /\ (forall v, v ∈ order -> known (Services spec) v) /\
        sorted_order (Services spec) order /\
        (forall v, known (Services spec) v ->
           v ∈ order <-> forall u, u ∈ deps (Services spec) v -> u ∈ order)
  | Err e => BuildStartOrder spec = Err e /\
      exists v u, u ∈ deps (Services spec) v /\ ~ known (Services spec) u
  | Panic _ => False
  end.
Proof.
  set (services := Services spec). pose proof (built_graph services) as Hb.
  unfold BuildStartOrder. fold services.
  destruct (build_graph _ _ _ _) as [[g d]|e|e]; [|done..].
  destruct Hb as (Hknown & Hg & Hdom & Hdeg). cbn [mbind res_bind]. split; [done|].
  fold (start_queue d). assert (forall v, v ∈ start_queue d <->
    known services v /\ length (deps services v) = O) as Hqueue.
  { intros v. rewrite elem_of_start_queue. split.
    - intros Hv. assert (known services v) as Hk.
      { apply elem_of_dom. rewrite <- Hdom. apply elem_of_dom. by eexists. }
      rewrite (Hdeg v Hk) in Hv. injection Hv as Hv. split; [done|lia].
    - intros [Hv Hl]. by rewrite (Hdeg v Hv), Hl. }
  destruct (kahn_spec services (S (size services)) g d (start_queue d) []) as
    (order & Hrun & Hnd & Hko & Hso & Hro).
  - exact Hg.
  - simpl. lia.
  - split; simpl.
    + apply start_queue_NoDup.
    + intros v Hv. by apply Hqueue.
    + intros v Hv. rewrite Hdeg, waiting_start by done. done.
    + intros v Hv. rewrite Hqueue, waiting_start. naive_solver.
  - by intros i v u Hi.
  - rewrite Hrun. exists order. done.
Qed.

Definition depends (services : gmap string ServiceSpec) (svc dep : string) : Prop :=
  exists s, services !! svc = Some s /\ dep ∈ DependsOn s.

Lemma depends_deps services svc dep : depends services svc dep <-> dep ∈ deps services svc.
Proof.
  unfold depends, deps. destruct (services !! svc) eqn:E; [naive_solver|].
  split; [naive_solver|]. by intros ?%not_elem_of_nil.
Qed.

Lemma order_complete services order :
  NoDup order -> (forall v, v ∈ order -> known services v) ->
  length order = size services -> forall v, known services v -> v ∈ order.
Proof.
  intros Hnd Hk Hlen v Hv.
  assert ((list_to_set order : gset string) = dom services) as He.
  { apply set_subseteq_size_eq.
    - intros x. rewrite elem_of_list_to_set. intros Hx. by apply elem_of_dom, Hk.
    - rewrite size_list_to_set by done. by rewrite size_dom, Hlen. }
  rewrite <- (elem_of_list_to_set (C:=gset string)), He. by apply elem_of_dom.
Qed.

(** C18: [BuildStartOrder] returns each service exactly once, every one after
    all the services it depends on; it refuses a specification only because of
    an unknown dependency or a real cycle (a non-empty set of services each
    depending on one of the set), and its queue loop always ends. *)
Theorem BuildStartOrder_correct spec :
  match BuildStartOrder spec with
  | Ok order =>
      order ≡ₚ (map_to_list (Services spec)).*1 /\
      forall i svc dep, order !! i = Some svc -> depends (Services spec) svc dep ->
        exists j, (j < i)%nat /\ order !! j = Some dep
  | Err _ =>
      (exists svc dep, depends (Services spec) svc dep /\ Services spec !! dep = None) \/
      (exists cycle : gset string, cycle <> ∅ /\
         forall svc, svc ∈ cycle -> exists dep, dep ∈ cycle /\ depends (Services spec) svc dep)
  | Panic _ => False
  end.
Proof.
  pose proof (BuildStartOrder_run spec) as H.
  destruct (build_graph _ _ _ _) as [gd|e|e]; [| |done].
  - destruct H as (Hk & order & -> & Hnd & Hko & Hso & Hro).
    destruct (Nat.eqb_spec (length order) (size (Services spec))) as [Hlen|Hlen]; simpl.
    + split; [|intros i v u Hi Hu%depends_deps; by apply (Hso i v)].
      apply NoDup_Permutation; [done|apply NoDup_fst_map_to_list|].
      intros v. rewrite list_elem_of_fmap. split.
      * intros [svc Hv]%Hko. exists (v, svc). by rewrite elem_of_map_to_list.
      * intros ([k svc] & -> & Hin%elem_of_map_to_list).
        eapply order_complete; eauto. by eexists.
    + right. exists (dom (Services spec) ∖ list_to_set order). split.
      * intros He. apply Hlen. rewrite <- size_dom.
        rewrite <- (size_list_to_set (C:=gset string)) by done. f_equal.
        apply set_eq. intros v. rewrite elem_of_list_to_set. split.
        -- intros Hv. by apply elem_of_dom, Hko.
        -- intros Hv. destruct (decide (v ∈ order)); [done|]. set_solver.
      * intros v. rewrite elem_of_difference, elem_of_list_to_set, elem_of_dom.
        intros [Hv Hn]. rewrite Hro in Hn by done.
        destruct (decide (Forall (fun u => u ∈ order) (deps (Services spec) v))) as [Hf|Hf].
        -- exfalso. apply Hn. by apply Forall_forall.
        -- apply not_Forall_Exists in Hf; [|apply _]. apply Exists_exists in Hf as (u & Hu & Hno).
           exists u. rewrite elem_of_difference, elem_of_list_to_set, elem_of_dom.
           split; [split; [by eapply Hk|done]|by apply depends_deps].
  - destruct H as (-> & v & u & Hu & Hn). left. exists v, u. split; [by apply depends_deps|].
    unfold known in Hn. destruct (Services spec !! u); [|done]. exfalso. eauto.
Qed.

(** [BuildStartOrder] succeeds on every specification without unknown
    dependencies and without cycles (there is a rank that grows along the
    dependencies), whatever the iteration order of the maps. *)
Theorem BuildStartOrder_complete spec (rank : string -> nat) :
  (forall svc dep, depends (Services spec) svc dep ->
     is_Some (Services spec !! dep) /\ (rank dep < rank svc)%nat) ->
  exists order, BuildStartOrder spec = Ok order.
Proof.
  intros Hrank. pose proof (BuildStartOrder_run spec) as H.
  setoid_rewrite depends_deps in Hrank.
  destruct (build_graph _ _ _ _) as [gd|e|e]; [| |done].
  - destruct H as (Hk & order & -> & Hnd & Hko & Hso & Hro).
    assert (forall n v, (rank v < n)%nat -> known (Services spec) v -> v ∈ order) as Hall.
    { induction n as [|n IH]; intros v Hv Hkv; [lia|]. apply Hro; [done|].
      intros u Hu. destruct (Hrank v u Hu). apply IH; [lia|done]. }
    exists order.
    assert (length order = size (Services spec)) as ->; [|by rewrite Nat.eqb_refl].
    rewrite <- size_dom, <- (size_list_to_set (C:=gset string)) by done. f_equal.
    apply set_eq. intros v. rewrite elem_of_list_to_set, elem_of_dom. split; [apply Hko|].
    intros Hv. by apply (Hall (S (rank v))); [lia|].
  - destruct H as (_ & v & u & Hu & Hn). destruct Hn. by apply (Hrank v u).
Qed.

(** [mergeUniqueStrings] keeps the first occurrence of each non-empty
    trimmed string of its two arguments, and nothing else. *)
Theorem mergeUniqueStrings_correct a b :
  NoDup (mergeUniqueStrings a b) /\
  (forall v, v ∈ mergeUniqueStrings a b <->
     v <> "" /\ exists s, s ∈ a ++ b /\ trimSpace s = v) /\
  sublist (mergeUniqueStrings a b) (trimSpace <$> a ++ b).
Proof.
  unfold mergeUniqueStrings.
  assert (forall l seen,
    NoDup (merge_loop l seen) /\
    (forall v, v ∈ merge_loop l seen <->
       v <> "" /\ v ∉ seen /\ exists s, s ∈ l /\ trimSpace s = v) /\
    sublist (merge_loop l seen) (trimSpace <$> l)) as H.
  { induction l as [|s l IH]; intros seen; simpl.
    { split_and!; [constructor| |constructor]. intros v.
      split; [by intros ?%not_elem_of_nil|].
      intros (_ & _ & s & ?%not_elem_of_nil & _). done. }
    assert (forall v, (exists s', s' ∈ s :: l /\ trimSpace s' = v) <->
      trimSpace s = v \/ exists s', s' ∈ l /\ trimSpace s' = v) as Hex
      by (intros v; setoid_rewrite elem_of_cons; naive_solver).
    setoid_rewrite Hex.
    destruct (String.eqb_spec (trimSpace s) "") as [E|E];
      [|case_decide as Hin];
      [destruct (IH seen) as (H1 & H2 & H3)|destruct (IH seen) as (H1 & H2 & H3)|
       destruct (IH ({[trimSpace s]} ∪ seen)) as (H1 & H2 & H3)].
    - split_and!; [done| |by constructor]. intros v. rewrite H2. naive_solver.
    - split_and!; [done| |by constructor]. intros v. rewrite H2. naive_solver.
    - split_and!.
      + constructor; [|done]. rewrite H2. set_solver.
      + intros v. rewrite elem_of_cons, H2. destruct (decide (v = trimSpace s)); set_solver.
      + by constructor. }
  destruct (H (a ++ b) ∅) as (H1 & H2 & H3). split_and!; [done| |done].
  intros v. rewrite H2. set_solver.
Qed.
End whole.

(** ** The properties on concrete specifications *)

Definition svc (deps : list string) : ServiceSpec :=
  {| Image := "alpine"; Command := []; Env := []; Ports := []; Mount := []; Device := [];
     DeviceAlt := []; CapAdd := []; CapAddAlt := []; CapDrop := []; CapDropAlt := [];
     Network := ""; Tty := false; DependsOn := deps |}.
Definition bottle (l : list (string * list string)) : BottleSpec :=
  {| Bottle := {| bm_Name := "b" |};
     Services := list_to_map ((fun p => (p.1, svc p.2)) <$> l); Policies := [] |}.
Definition shop : BottleSpec :=
  bottle [("web", ["api"; "api"]); ("api", ["db"]); ("db", []); ("log", ["db"; "web"])].
Definition shop_rank (s : string) : nat :=
  if String.eqb s "db" then 0 else if String.eqb s "api" then 1
  else if String.eqb s "web" then 2 else 3.

Example start_order_demo : BuildStartOrder shop = Ok ["db"; "api"; "web"; "log"].
Proof. vm_compute. reflexivity. Qed.

Example start_order_cycle :
  BuildStartOrder (bottle [("a", ["b"]); ("b", ["a"]); ("c", [])]) =
    Err "dependency cycle detected".
Proof. vm_compute. reflexivity. Qed.

Example BuildStartOrder_complete_witness : exists order, BuildStartOrder shop = Ok order.
Proof.
  apply (BuildStartOrder_complete shop shop_rank).
  intros s dep (x & Hx & Hd).
  assert (map_Forall (fun k v => forallb (fun d =>
    bool_decide (is_Some (Services shop !! d)) && (shop_rank d <? shop_rank k)%nat)
    (DependsOn v) = true) (Services shop)) as Hall.
  { apply (bool_decide_unpack _). vm_compute. exact I. }
  pose proof (Hall s x Hx) as Hb. rewrite forallb_forall in Hb.
  apply list_elem_of_In in Hd. apply Hb in Hd. apply andb_true_iff in Hd as [H1 H2].
  split; [by apply bool_decide_eq_true in H1|by apply Nat.ltb_lt].
Defined.
