(* ===== verification/World.v ===== *)
(** * Services over a store

    The services of [core/] read and write a store, one locked transaction at a
    time, and call other services.  This file holds their monad: the store's
    state, the outcome the environment gives to each access, the calls made so
    far, and the state of the services called. *)

From Stdlib Require Import ZArith Lia String.
From stdpp Require Import base gmap strings list.
From S2P Require Import Prelude.
Open Scope Z_scope.

(** A service as its clients see it: a call changes its state and returns a
    text or an error.  Nothing is assumed of it, so the theorems on a client
    hold for every implementation. *)
Class Peers (C W : Type) := perform : C -> W -> res string * W.

(** The same for services that work on the table of their client as well. *)
Class Callees (C St W : Type) := callee : C -> St * W -> res string * (St * W).

(** [faults] holds, for each store access to come, the error it meets
    ([None]: it runs; by [Persist.withLock_atomic] a failed access leaves the
    state as it is).  [times] and [ids] are what [time.Now] and the identifier
    generator return next. *)
Record world (St C W : Type) := {
  store : St;
  faults : list (option error);
  times : list Z;
  ids : list string;
  trace : list C;
  inner : W
}.
Arguments store {St C W} w.
Arguments faults {St C W} w.
Arguments times {St C W} w.
Arguments ids {St C W} w.
Arguments trace {St C W} w.
Arguments inner {St C W} w.

Section monad.
Context {St C W : Type}.
Notation world := (world St C W).

Definition M (A : Type) : Type := world -> res A * world.

#[export] Instance M_ret : MRet M := fun A a w => (Ok a, w).
#[export] Instance M_bind : MBind M := fun A B f m w =>
  match m w with
  | (Ok a, w) => f a w
  | (Err e, w) => (Err e, w)
  | (Panic e, w) => (Panic e, w)
  end.

Definition fail {A} (e : error) : M A := fun w => (Err e, w).

(** [r, err := m()] with the error kept, and [_ = m()].  A panic goes on. *)
Definition attempt {A} (m : M A) : M (res A) := fun w =>
  match m w with
  | (Panic e, w) => (Panic e, w)
  | (r, w) => (Ok r, w)
  end.
Definition ignore {A} (m : M A) : M unit := fun w =>
  match m w with
  | (Panic e, w) => (Panic e, w)
  | (_, w) => (Ok tt, w)
  end.

Definition pop_fault (w : world) : option error * world :=
  match faults w with
  | [] => (None, w)
  | f :: fs => (f, {| store := store w; faults := fs; times := times w; ids := ids w;
                      trace := trace w; inner := inner w |})
  end.

Definition set_store (st : St) (w : world) : world :=
  {| store := st; faults := faults w; times := times w; ids := ids w;
     trace := trace w; inner := inner w |}.

(** One transaction with [withLock], one read with [withRLock]. *)
Definition txn {A} (fn : St -> res (St * A)) : M A := fun w =>
  let '(f, w) := pop_fault w in
  match f with
  | Some e => (Err e, w)
  | None => match fn (store w) with
            | Ok (st, a) => (Ok a, set_store st w)
            | Err e => (Err e, w)
            | Panic e => (Panic e, w)
            end
  end.
(** A transaction on a store whose call can fail after the new state is saved
    as well (the secrets, [Sec.error_after_commit]): the second fault. *)
Definition txn_late {A} (fn : St -> res (St * A)) : M A := fun w =>
  match txn fn w with
  | (Ok a, w) => let '(f, w) := pop_fault w in
                 match f with Some e => (Err e, w) | None => (Ok a, w) end
  | r => r
  end.
Definition read {A} (fn : St -> res A) : M A := fun w =>
  let '(f, w) := pop_fault w in
  match f with
  | Some e => (Err e, w)
  | None => (fn (store w), w)
  end.

(** [time.Now()] and a new identifier. *)
Definition now : M Z := fun w =>
  match times w with
  | [] => (Ok 0, w)
  | t :: ts => (Ok t, {| store := store w; faults := faults w; times := ts; ids := ids w;
                         trace := trace w; inner := inner w |})
  end.
Definition new_id : M string := fun w =>
  match ids w with
  | [] => (Ok "", w)
  | i :: is' => (Ok i, {| store := store w; faults := faults w; times := times w;
                          ids := is'; trace := trace w; inner := inner w |})
  end.

(** A call to another service. *)
Definition call {S : Peers C W} (c : C) : M string := fun w =>
  let '(r, i) := perform c (inner w) in
  (r, {| store := store w; faults := faults w; times := times w; ids := ids w;
         trace := trace w ++ [c]; inner := i |}).

(** A call to a service that may change this table too. *)
Definition invoke {S : Callees C St W} (c : C) : M string := fun w =>
  let '(r, (st, i)) := callee c (store w, inner w) in
  (r, {| store := st; faults := faults w; times := times w; ids := ids w;
         trace := trace w ++ [c]; inner := i |}).

(** A run-time panic. *)
Definition crash {A} (e : error) : M A := fun w => (Panic e, w).

(** A look at the state of the other services. *)
Definition observe {A} (f : W -> res A) : M A := fun w => (f (inner w), w).

(** A read of another table, under its own lock. *)
Definition peek {A} (f : W -> res A) : M A := fun w =>
  let '(f0, w) := pop_fault w in
  match f0 with
  | Some e => (Err e, w)
  | None => (f (inner w), w)
  end.

(** [x, _ := m()] and a getter that drops the error: the zero value then. *)
Definition or_zero {A} (zero : A) (m : M A) : M A :=
  r ← attempt m; mret (match r with Ok a => a | _ => zero end).

(** ** What a computation adds to the trace *)

Lemma M_bind_run {A B} (m : M A) (f : A -> M B) w r w' :
  (m ≫= f) w = (r, w') ->
  (exists a w1, m w = (Ok a, w1) /\ f a w1 = (r, w')) \/
  (exists e, m w = (Err e, w') /\ r = Err e) \/
  (exists e, m w = (Panic e, w') /\ r = Panic e).
Proof.
  unfold mbind, M_bind. destruct (m w) as [[a|e|e] w1]; naive_solver.
Qed.

Lemma bind_ok {A B} (m : M A) (f : A -> M B) w b w' :
  (m ≫= f) w = (Ok b, w') <->
  exists a w1, m w = (Ok a, w1) /\ f a w1 = (Ok b, w').
Proof.
  unfold mbind, M_bind. destruct (m w) as [[a|e|e] w1]; naive_solver.
Qed.

Lemma M_bind_eq {A B} (m : M A) (f : A -> M B) w a w1 :
  m w = (Ok a, w1) -> (m ≫= f) w = f a w1.
Proof. intros H. unfold mbind, M_bind. by rewrite H. Qed.

(** A run that returned, without its final state being computed. *)
Lemma ran {A} (m : M A) w a : (m w).1 = Ok a -> m w = (Ok a, (m w).2).
Proof. destruct (m w). simpl. by intros ->. Qed.

Lemma pop_fault_keeps w :
  store (pop_fault w).2 = store w /\ trace (pop_fault w).2 = trace w /\
  inner (pop_fault w).2 = inner w.
Proof. unfold pop_fault. by destruct (faults w). Qed.

(** [quiet m]: [m] makes no call. *)
Definition quiet {A} (m : M A) : Prop :=
  forall w, trace (m w).2 = trace w /\ inner (m w).2 = inner w.
(** [reads m]: [m] does not change the store. *)
Definition reads {A} (m : M A) : Prop := forall w, store (m w).2 = store w.

Lemma quiet_bind {A B} (m : M A) (f : A -> M B) :
  quiet m -> (forall a, quiet (f a)) -> quiet (m ≫= f).
Proof.
  intros Hm Hf w. unfold mbind, M_bind. specialize (Hm w).
  destruct (m w) as [[a|e|e] w1]; simpl in *; [|done..].
  destruct Hm as [H1 H2]. destruct (Hf a w1) as [H3 H4]. split; congruence.
Qed.
Lemma quiet_txn {A} (fn : St -> res (St * A)) : quiet (txn fn).
Proof.
  intros w. unfold txn. pose proof (pop_fault_keeps w) as (_ & H1 & H2).
  destruct (pop_fault w) as [[e|] w1]; simpl in *; [done|].
  by destruct (fn (store w1)) as [[]| |].
Qed.
Lemma quiet_read {A} (fn : St -> res A) : quiet (read fn).
Proof.
  intros w. unfold read. pose proof (pop_fault_keeps w) as (_ & H1 & H2).
  by destruct (pop_fault w) as [[e|] w1].
Qed.
Lemma quiet_attempt {A} (m : M A) : quiet m -> quiet (attempt m).
Proof.
  intros Hm w. unfold attempt. specialize (Hm w). by destruct (m w) as [[| |] w1].
Qed.
Lemma quiet_ignore {A} (m : M A) : quiet m -> quiet (ignore m).
Proof.
  intros Hm w. unfold ignore. specialize (Hm w). by destruct (m w) as [[| |] w1].
Qed.
Lemma quiet_run {A} (m : M A) w r w' :
  quiet m -> m w = (r, w') -> trace w' = trace w /\ inner w' = inner w.
Proof. intros Hm H. specialize (Hm w). by rewrite H in Hm. Qed.
Lemma quiet_ret {A} (a : A) : quiet (mret a).
Proof. by intros w. Qed.
Lemma quiet_fail {A} e : quiet (@fail A e).
Proof. by intros w. Qed.
Lemma quiet_observe {A} (f : W -> res A) : quiet (observe f).
Proof. by intros w. Qed.
Lemma quiet_now : quiet now.
Proof. intros w. unfold now. by destruct (times w). Qed.

Lemma reads_bind {A B} (m : M A) (f : A -> M B) :
  reads m -> (forall a, reads (f a)) -> reads (m ≫= f).
Proof.
  intros Hm Hf w. unfold mbind, M_bind. specialize (Hm w).
  destruct (m w) as [[a|e|e] w1]; simpl in *; [|done..]. by rewrite Hf.
Qed.
Lemma reads_read {A} (fn : St -> res A) : reads (read fn).
Proof.
  intros w. unfold read. pose proof (pop_fault_keeps w) as (H1 & _).
  by destruct (pop_fault w) as [[e|] w1].
Qed.
Lemma reads_attempt {A} (m : M A) : reads m -> reads (attempt m).
Proof.
  intros Hm w. unfold attempt. specialize (Hm w). by destruct (m w) as [[| |] w1].
Qed.
Lemma reads_ret {A} (a : A) : reads (mret a).
Proof. by intros w. Qed.
Lemma reads_fail {A} e : reads (@fail A e).
Proof. by intros w. Qed.
Lemma reads_observe {A} (f : W -> res A) : reads (observe f).
Proof. by intros w. Qed.
Lemma reads_call {S : Peers C W} c : reads (call c).
Proof. intros w. unfold call. by destruct (perform c (inner w)). Qed.

Lemma quiet_peek {A} (f : W -> res A) : quiet (peek f).
Proof.
  intros w. unfold peek. pose proof (pop_fault_keeps w) as (_ & H1 & H2).
  by destruct (pop_fault w) as [[e|] w1].
Qed.
Lemma reads_peek {A} (f : W -> res A) : reads (peek f).
Proof.
  intros w. unfold peek. pose proof (pop_fault_keeps w) as (H1 & _).
  by destruct (pop_fault w) as [[e|] w1].
Qed.
Lemma quiet_or_zero {A} (z : A) (m : M A) : quiet m -> quiet (or_zero z m).
Proof. intros Hm. apply quiet_bind; [by apply quiet_attempt|]. intros a. apply quiet_ret. Qed.
Lemma reads_or_zero {A} (z : A) (m : M A) : reads m -> reads (or_zero z m).
Proof. intros Hm. apply reads_bind; [by apply reads_attempt|]. intros a. apply reads_ret. Qed.

Lemma read_ok {A} (fn : St -> res A) w a w' :
  read fn w = (Ok a, w') -> fn (store w) = Ok a /\ store w' = store w.
Proof.
  unfold read. pose proof (pop_fault_keeps w) as (H & _).
  destruct (pop_fault w) as [[e|] w1]; simpl in *; [done|].
  intros [= Hf <-]. by rewrite <- H.
Qed.

Lemma txn_ok {A} (fn : St -> res (St * A)) w a w' :
  txn fn w = (Ok a, w') -> fn (store w) = Ok (store w', a).
Proof.
  unfold txn. pose proof (pop_fault_keeps w) as (H & _).
  destruct (pop_fault w) as [[e|] w1]; simpl in *; [done|].
  rewrite <- H. destruct (fn (store w1)) as [[st b]|e|e]; [|done..].
  by intros [= <- <-].
Qed.

Lemma txn_not_ok {A} (fn : St -> res (St * A)) w r w' :
  txn fn w = (r, w') -> is_ok r = false -> store w' = store w.
Proof.
  unfold txn. pose proof (pop_fault_keeps w) as (H & _).
  destruct (pop_fault w) as [[e|] w1]; simpl in *; [by intros [= <- <-]|].
  destruct (fn (store w1)) as [[st b]|e|e]; by intros [= <- <-].
Qed.

Lemma call_trace {S : Peers C W} c w : trace (call c w).2 = trace w ++ [c].
Proof. unfold call. by destruct (perform c (inner w)). Qed.
End monad.
Arguments M St C W A : clear implicits.

#[export] Hint Resolve quiet_txn quiet_read quiet_attempt quiet_ignore quiet_ret quiet_fail
  quiet_observe quiet_peek quiet_or_zero reads_peek reads_or_zero quiet_now reads_read reads_attempt reads_ret reads_fail reads_observe
  reads_call : go.

(** ** Runs without store faults *)
Section no_faults.
Context {St C W : Type}.

Lemma txn_run {A} (fn : St -> res (St * A)) (w : world St C W) :
  faults w = [] ->
  txn fn w = match fn (store w) with
             | Ok (st, a) => (Ok a, set_store st w)
             | Err e => (Err e, w)
             | Panic e => (Panic e, w)
             end.
Proof. intros Hw. unfold txn, pop_fault. by rewrite Hw. Qed.

Lemma txn_late_run {A} (fn : St -> res (St * A)) (w : world St C W) :
  faults w = [] -> txn_late fn w = txn fn w.
Proof.
  intros Hw. unfold txn_late. rewrite txn_run by done.
  destruct (fn (store w)) as [[st a]|e|e]; [|done..].
  unfold pop_fault, set_store. cbn [faults]. by rewrite Hw.
Qed.

Lemma read_run {A} (fn : St -> res A) (w : world St C W) :
  faults w = [] -> read fn w = (fn (store w), w).
Proof. intros Hw. unfold read, pop_fault. by rewrite Hw. Qed.

Lemma peek_run {A} (f : W -> res A) (w : world St C W) :
  faults w = [] -> peek f w = (f (inner w), w).
Proof. intros Hw. unfold peek, pop_fault. by rewrite Hw. Qed.

Lemma or_zero_run {A} (z : A) (m : M St C W A) w r :
  m w = (r, w) -> (forall e, r <> Panic e) ->
  or_zero z m w = (Ok (match r with Ok a => a | _ => z end), w).
Proof.
  intros H Hr. unfold or_zero, mbind, M_bind, attempt. rewrite H.
  destruct r as [a|e|e]; [done..|]. by destruct (Hr e).
Qed.

Lemma call_keeps {S : Peers C W} c (w : world St C W) :
  faults (call c w).2 = faults w /\ store (call c w).2 = store w.
Proof. unfold call. by destruct (perform c (inner w)). Qed.
End no_faults.

(** ** What a computation does to the store, without store faults

    [steps R m]: a run of [m] takes the store from a state to one related by
    [R], and meets no fault of its own. *)
Section steps.
Context {St C W : Type} (R : relation St) `{!PreOrder R}.

Definition steps {A} (m : M St C W A) : Prop :=
  forall w, faults w = [] -> faults (m w).2 = [] /\ R (store w) (store (m w).2).

Lemma steps_bind {A B} (m : M St C W A) (f : A -> M St C W B) :
  steps m -> (forall a, steps (f a)) -> steps (m ≫= f).
Proof.
  intros Hm Hf w Hw. unfold mbind, M_bind. destruct (Hm w Hw) as [H1 H2].
  destruct (m w) as [[a|e|e] w1]; simpl in *; [|done..].
  destruct (Hf a w1 H1) as [H3 H4]. split; [done|]. by etrans.
Qed.
Lemma steps_attempt {A} (m : M St C W A) : steps m -> steps (attempt m).
Proof.
  intros Hm w Hw. unfold attempt. specialize (Hm w Hw). by destruct (m w) as [[| |] w1].
Qed.
Lemma steps_ignore {A} (m : M St C W A) : steps m -> steps (ignore m).
Proof.
  intros Hm w Hw. unfold ignore. specialize (Hm w Hw). by destruct (m w) as [[| |] w1].
Qed.
Lemma steps_txn {A} (fn : St -> res (St * A)) :
  (forall st st' a, fn st = Ok (st', a) -> R st st') -> steps (txn fn).
Proof.
  intros Hfn w Hw. rewrite txn_run by done.
  destruct (fn (store w)) as [[st a]|e|e] eqn:E; simpl; [|done..]. eauto.
Qed.
Lemma steps_read {A} (fn : St -> res A) : steps (read fn).
Proof. intros w Hw. by rewrite read_run. Qed.
Lemma steps_ret {A} (a : A) : steps (mret a).
Proof. by intros w Hw. Qed.
Lemma steps_fail {A} e : steps (@fail St C W A e).
Proof. by intros w Hw. Qed.
Lemma steps_crash {A} e : steps (@crash St C W A e).
Proof. by intros w Hw. Qed.
Lemma steps_observe {A} (f : W -> res A) : steps (observe f).
Proof. by intros w Hw. Qed.
Lemma steps_now : steps now.
Proof. intros w Hw. unfold now. by destruct (times w). Qed.
Lemma steps_new_id : steps new_id.
Proof. intros w Hw. unfold new_id. by destruct (ids w). Qed.
Lemma steps_invoke {S : Callees C St W} c :
  (forall st i, R st (callee c (st, i)).2.1) -> steps (invoke c).
Proof.
  intros Hc w Hw. unfold invoke. specialize (Hc (store w) (inner w)).
  by destruct (callee c (store w, inner w)) as [r [st i]].
Qed.
End steps.
#[export] Hint Resolve steps_bind steps_attempt steps_ignore steps_read steps_ret
  steps_fail steps_crash steps_observe steps_now steps_new_id : go.
