(* ===== verification/PathSafety.v ===== *)
(** * Paths below a root directory ([condenser/utils/path_safety.go])

    The guard in front of every removal of a directory tree: [SafeJoin],
    [EnsurePathUnderRoot] and [RemoveAllUnderRoot]. *)

From Stdlib Require Import ZArith Lia Ascii String.
From stdpp Require Import base gmap strings list.
From S2P Require Import Prelude.
From S2P Require Import GoString.
From S2P Require Import GoPath.
From S2P Require Import World.
Open Scope Z_scope.

Section path_safety.
(** What [os.Getwd] gives. *)
Context (cwd : res string).

Definition EnsurePathUnderRoot (root path : string) : res unit :=
  absRoot ← Abs cwd root;
  target ← Abs cwd path;
  rel ← Rel absRoot target;
  if String.eqb rel "." || String.eqb rel ".." || hasPrefix rel "../" || IsAbs rel
  then Err ("path escapes root " +:+ quoted root +:+ ": " +:+ path) else
  Ok tt.

Definition SafeJoin (root : string) (elems : list string) : res string :=
  absRoot ← Abs cwd root;
  let target := Join (absRoot :: elems) in
  _ ← EnsurePathUnderRoot absRoot target;
  Abs cwd target.

(** [RemoveAll] is the file system's. *)
Definition RemoveAllUnderRoot {St C W} (RemoveAll : string -> M St C W unit)
    (root path : string) : M St C W unit :=
  match EnsurePathUnderRoot root path with
  | Ok _ => RemoveAll path
  | Err e => fail e
  | Panic e => crash e
  end.

(** ** What the guard lets through *)

(** [below a p]: [p] names something inside the directory [a]. *)
Definition below (a p : string) : Prop :=
  exists e l, elements p = elements a ++ e :: l.

Lemma Rel_below a p : IsAbs a = true -> IsAbs p = true ->
  exists r, Rel a p = Ok r /\
    (String.eqb r "." || String.eqb r ".." || hasPrefix r "../" || IsAbs r = false <-> below a p).
Proof.
  intros Ha Hp. unfold Rel. rewrite Ha, Hp. cbn [Bool.eqb negb].
  destruct (String.eqb_spec (Clean p) (Clean a)) as [Heq|Hne].
  { exists ".". split; [done|]. split; [done|]. intros (e & l & Hel).
    apply Clean_eq_iff in Heq; [|by rewrite Ha]. rewrite Heq in Hel.
    apply (f_equal length) in Hel. rewrite length_app in Hel. simpl in Hel. lia. }
  destruct (strip_common_spec (elements a) (elements p)) as (pre & Hb & Ht).
  destruct (strip_common (elements a) (elements p)) as [b t] eqn:E. cbn [fst snd] in Hb, Ht.
  pose proof (elements_abs_names a Ha) as Hna. pose proof (elements_abs_names p Hp) as Hnp.
  rewrite Hb in Hna. rewrite Ht in Hnp. apply Forall_app in Hna as [_ Hnb].
  apply Forall_app in Hnp as [_ Hnt]. destruct b as [|x b].
  - exists (join "/" t). split; [done|]. rewrite app_nil_r in Hb. subst pre.
    destruct t as [|e t].
    { exfalso. apply Hne. apply Clean_eq_iff; [by rewrite Ha|]. by rewrite Ht, app_nil_r. }
    split; [by intros _; exists e, t|]. intros _. apply Forall_cons in Hnt as [He Hnt].
    assert (join "/" (e :: t) <> "." /\ join "/" (e :: t) <> "..") as [H1 H2].
    { pose proof (name_ok_no_slash _ He) as Hs.
      assert (forall d, split "/"%char d = [d] -> name_ok d = false -> join "/" (e :: t) <> d) as H.
      { intros d Hd Hbad Hj. rewrite <- Hj, split_join in Hd; [|done|].
        - assert (e = d) as -> by by rewrite <- Hj; injection Hd; intros; subst. congruence.
        - constructor; [done|]. eapply Forall_impl; [exact Hnt|]. apply name_ok_no_slash. }
      split; by apply H. }
    apply String.eqb_neq in H1, H2. rewrite H1, H2, IsAbs_join, orb_false_r by done. cbn [orb].
    destruct (hasPrefix (join "/" (e :: t)) "../") eqn:Eh; [|done].
    apply hasPrefix_join_slash in Eh as ->; [done|]. by apply name_ok_no_slash.
  - apply Forall_cons in Hnb as [Hx Hnb].
    exists (join "/" (((fun _ => "..") <$> x :: b) ++ t)). split.
    { destruct (String.eqb_spec x "..") as [->|Hd]; [done|].
      clear -Hd. repeat match goal with
      | |- context [match ?u with _ => _ end] => is_var u; destruct u; try done
      end. }
    split; [|intros (e & l & Hel)].
    + intros Hf. exfalso. cbn [fmap list_fmap app] in Hf.
      destruct (((fun _ => "..") <$> b) ++ t) as [|y r]; [done|].
      rewrite join_cons2 in Hf.
      assert (hasPrefix (".." +:+ String "/" (join "/" (y :: r))) "../" = true) as H
        by by cbn [hasPrefix].
      rewrite H in Hf. by rewrite !orb_true_r in Hf.
    + exfalso. rewrite Hel, strip_common_app in E. done.
Qed.

Lemma Ensure_Abs root path a p :
  (forall wd, cwd = Ok wd -> IsAbs wd = true) ->
  Abs cwd root = Ok a -> Abs cwd path = Ok p ->
  EnsurePathUnderRoot root path = Ok tt <-> below a p.
Proof.
  intros Hcwd Ha Hp. destruct (Abs_IsAbs cwd root a Hcwd Ha) as [HA _].
  destruct (Abs_IsAbs cwd path p Hcwd Hp) as [HP _].
  destruct (Rel_below a p HA HP) as (r & Hr & Hiff). rewrite <- Hiff.
  unfold EnsurePathUnderRoot. rewrite Ha. cbn [mbind res_bind]. rewrite Hp. cbn [mbind res_bind].
  rewrite Hr. cbn [mbind res_bind].
  destruct (String.eqb r "." || String.eqb r ".." || hasPrefix r "../" || IsAbs r); done.
Qed.

(** C35: a tree is removed only when its path, made absolute and cleaned, names
    something strictly inside the root: the root itself, its parents and its
    siblings are refused, however the path is spelled. *)
Theorem RemoveAllUnderRoot_only_below {St C W} (RemoveAll : string -> M St C W unit)
    root path a p w :
  (forall wd, cwd = Ok wd -> IsAbs wd = true) ->
  Abs cwd root = Ok a -> Abs cwd path = Ok p ->
  (below a p /\ RemoveAllUnderRoot RemoveAll root path w = RemoveAll path w) \/
  (~ below a p /\ exists e, RemoveAllUnderRoot RemoveAll root path w = (Err e, w)).
Proof.
  intros Hcwd Ha Hp. pose proof (Ensure_Abs root path a p Hcwd Ha Hp) as Hiff.
  unfold RemoveAllUnderRoot. destruct (EnsurePathUnderRoot root path) as [[]|e|e] eqn:E.
  - left. split; [by apply Hiff|done].
  - right. split; [by intros H%Hiff|eauto].
  - exfalso. revert E. unfold EnsurePathUnderRoot. rewrite Ha. cbn [mbind res_bind].
    rewrite Hp. cbn [mbind res_bind].
    destruct (Abs_IsAbs cwd root a Hcwd Ha) as [HA _], (Abs_IsAbs cwd path p Hcwd Hp) as [HP _].
    destruct (Rel_below a p HA HP) as (r & -> & _). cbn [mbind res_bind]. by case_match.
Qed.

(** [SafeJoin] returns only cleaned absolute paths strictly inside the root,
    and joins names to it without a change. *)
Theorem SafeJoin_correct root elems a :
  (forall wd, cwd = Ok wd -> IsAbs wd = true) -> Abs cwd root = Ok a ->
  (forall p, SafeJoin root elems = Ok p -> below a p /\ IsAbs p = true /\ Clean p = p) /\
  (elems <> [] -> Forall (fun e => name_ok e = true) elems ->
     SafeJoin root elems = Ok (render true (elements a ++ elems))).
Proof.
  intros Hcwd Ha. destruct (Abs_IsAbs cwd root a Hcwd Ha) as [HA HC].
  destruct (elements_Join_abs a elems HA) as [Hj Hel].
  assert (Abs cwd a = Ok a) as Haa by by rewrite Abs_abs, HC.
  assert (Abs cwd (Join (a :: elems)) = Ok (Clean (Join (a :: elems)))) as Hjj by by apply Abs_abs.
  pose proof (Ensure_Abs a _ a _ Hcwd Haa Hjj) as Hiff.
  unfold SafeJoin. rewrite Ha. cbn [mbind res_bind]. split.
  - intros p ([] & He & Hp)%res_bind_ok. rewrite Hjj in Hp. injection Hp as <-.
    apply Hiff in He. by rewrite IsAbs_Clean, Clean_idem.
  - intros Hne Hn.
    assert (elements (Join (a :: elems)) = elements a ++ elems) as Hjn.
    { rewrite Hel. assert (elems ≫= split "/"%char = elems) as ->.
      { clear -Hn. induction Hn as [|e l He _ IH]; [done|]. cbn. rewrite split_one, IH; [done|].
        by apply name_ok_no_slash. }
      by rewrite clean_fold_names, rev_app_distr, !rev_involutive. }
    assert (EnsurePathUnderRoot a (Join (a :: elems)) = Ok tt) as ->.
    { apply Hiff. destruct elems as [|e l]; [done|]. exists e, l. by rewrite elements_Clean. }
    cbn [mbind res_bind]. by rewrite Hjj, Clean_abs, Hjn.
Qed.
End path_safety.

Example SafeJoin_correct_witness :
  (forall p, SafeJoin (Err "") "/etc/raind/container" ["../image"] = Ok p -> below "/etc/raind/container" p) /\
  SafeJoin (Err "") "/etc/raind/container" ["01ab"; "logs"] = Ok "/etc/raind/container/01ab/logs".
Proof.
  split.
  - intros p Hp. refine (proj1 (proj1 (SafeJoin_correct (Err "") "/etc/raind/container" ["../image"]
      "/etc/raind/container" _ _) p Hp)); [done|reflexivity].
  - refine (proj2 (SafeJoin_correct (Err "") "/etc/raind/container/" ["01ab"; "logs"]
      "/etc/raind/container" _ _) _ _); [done|reflexivity|done|by repeat constructor].
Defined.

Example RemoveAllUnderRoot_only_below_witness :
  exists e, RemoveAllUnderRoot (Ok "/root") (fun _ => mret tt) "/etc/raind/image" "/etc/raind/image/a/../.."
    {| store := tt; faults := []; times := []; ids := []; trace := @nil unit; inner := tt |}
  = (Err e, {| store := tt; faults := []; times := []; ids := []; trace := []; inner := tt |}).
Proof.
  destruct (RemoveAllUnderRoot_only_below (Ok "/root") (fun _ => mret tt) "/etc/raind/image"
    "/etc/raind/image/a/../.." "/etc/raind/image" "/etc/raind"
    {| store := tt; faults := []; times := []; ids := []; trace := @nil unit; inner := tt |})
    as [[(e & l & H) _]|[_ H]]; [by intros wd [= <-]|reflexivity|reflexivity| |exact H].
  vm_compute in H. discriminate H.
Defined.

Example SafeJoin_examples :
  SafeJoin (Ok "/srv") "data" ["a/../b"; ""; "c"] = Ok "/srv/data/b/c" /\
  is_ok (SafeJoin (Ok "/srv") "/etc/raind" ["x"; "../../passwd"]) = false /\
  is_ok (SafeJoin (Ok "/srv") "/etc/raind" [".."; "raind"]) = false /\
  is_ok (SafeJoin (Ok "/srv") "/etc/raind" [".."; "raindx"]) = false.
Proof. done. Qed.
