(* ===== verification/RuntimeSpec.v ===== *)
(** * The runtime specification of a container ([droplet/spec])

    [spec.go], [options.go], [security_profile.go], [spec_io.go] and
    [validate.go]: the OCI specification as the runtime reads it, how it is made
    from options, and the checks of a bundle. *)

From Stdlib Require Import ZArith Lia Ascii String.
From stdpp Require Import base gmap strings list.
From S2P Require Import Prelude.
From S2P Require Import GoString.
From S2P Require Import GoPath.
Open Scope Z_scope.

(** ** The specification ([spec.go]) *)

Record RootObject := { root_Path : string; root_Readonly : bool }.

Record MountObject := {
  Destination : string;
  m_Type : string;
  Source : string;
  Options : list string
}.

Record CapabilityObject := {
  Bounding : list string;
  Permitted : list string;
  Inheritable : list string;
  Effective : list string;
  Ambient : list string
}.

Record UserObject := {
  UID : Z;
  GID : Z;
  Umask : option Z;
  AdditionalGids : list Z
}.

Record RlimitObject := { rl_Type : string; Hard : Z; Soft : Z }.

Record ConsoleSizeObject := { Height : Z; Width : Z }.

Record ProcessObject := {
  Cwd : string;
  Env : list string;
  Args : list string;
  Terminal : bool;
  ConsoleSize : option ConsoleSizeObject;
  OOMScoreAdj : option Z;
  Capabilities : CapabilityObject;
  User : UserObject;
  Rlimits : list RlimitObject;
  NoNewPrivileges : bool
}.

Record CpuObject := { Period : Z; Quota : Z }.

Record DeviceCgroupObject := {
  Allow : bool;
  dc_Type : string;
  dc_Major : option Z;
  dc_Minor : option Z;
  Access : string
}.

Record ResourceObject := {
  MemoryLimit : Z;
  Cpu : CpuObject;
  PidsLimit : Z;
  r_Devices : list DeviceCgroupObject
}.

Record DeviceObject := {
  dev_Path : string;
  dev_Type : string;
  Major : Z;
  Minor : Z;
  FileMode : option Z;
  dev_UID : option Z;
  dev_GID : option Z
}.

Record NamespaceObject := { ns_Type : string; ns_Path : string }.

Record IDMappingObject := { ContainerID : Z; HostID : Z; Size : Z }.

Record SeccompSyscallObject := {
  Names : list string;
  Action : string;
  ErrnoRet : option Z
}.

(** The arguments and conditions of a system call rule are not used by the
    modelled code. *)
Record SeccompObject := {
  DefaultAction : string;
  DefaultErrnoRet : option Z;
  Architectures : list string;
  Syscalls : list SeccompSyscallObject
}.

Record LinuxSpecObject := {
  Resources : ResourceObject;
  CgroupsPath : string;
  Namespaces : list NamespaceObject;
  Devices : list DeviceObject;
  UIDMappings : list IDMappingObject;
  GIDMappings : list IDMappingObject;
  MaskedPaths : list string;
  ReadonlyPaths : list string;
  RootfsPropagation : string;
  Seccomp : option SeccompObject;
  AppArmorProfile : string
}.

Record AnnotationObject := {
  Version : string;
  Net : string;
  Image : string;
  Rootless : string;
  Extra : gmap string string
}.

Record HookObject := {
  hook_Path : string;
  hook_Args : list string;
  hook_Env : list string;
  Timeout : option Z
}.

Record HookLifecycleObject := {
  Prestart : list HookObject;
  CreateRuntime : list HookObject;
  CreateContainer : list HookObject;
  StartContainer : list HookObject;
  Poststart : list HookObject;
  StopContainer : list HookObject;
  Poststop : list HookObject
}.

Record Spec := {
  OciVersion : string;
  Root : RootObject;
  Mounts : list MountObject;
  Process : ProcessObject;
  Hostname : string;
  LinuxSpec : LinuxSpecObject;
  Hooks : HookLifecycleObject;
  Annotations : AnnotationObject
}.

Record InterfaceObject := {
  if_Name : string;
  if_Address : string;
  if_Gateway : string;
  if_Servers : list string
}.
Record NetConfigObject := {
  HostInterface : string;
  BridgeInterface : string;
  Interface : InterfaceObject
}.
Record ImageConfigObject := {
  RootfsType : string;
  ImageLayer : list string;
  UpperDir : string;
  WorkDir : string
}.
Record RootlessConfigObject := {
  Enabled : bool;
  Mode : string;
  HostRootUID : Z;
  HostRootGID : Z
}.

Definition RootlessModeShiftedRoot : string := "shifted-root".
Definition RootlessModeLoginRoot : string := "login-root".

(** *** Annotations *)

Definition key_version : string := "io.raind.runtime.annotation.version".
Definition key_net : string := "io.raind.net.config".
Definition key_image : string := "io.raind.image.config".
Definition key_rootless : string := "io.raind.rootless".

Definition put_nonempty (k v : string) (m : gmap string string) : gmap string string :=
  if String.eqb v "" then m else <[k := v]> m.

(** [MarshalJSON] and [UnmarshalJSON], up to the text of a JSON object. *)
Definition annotation_items (a : AnnotationObject) : gmap string string :=
  put_nonempty key_rootless (Rootless a) (put_nonempty key_image (Image a)
    (put_nonempty key_net (Net a) (put_nonempty key_version (Version a) (Extra a)))).

Definition annotation_of_items (m : gmap string string) : AnnotationObject :=
  let get k := default "" (m !! k) in
  {| Version := get key_version; Net := get key_net; Image := get key_image;
     Rootless := get key_rootless;
     Extra := delete key_rootless (delete key_image (delete key_net (delete key_version m))) |}.

(** ** Options ([options.go]) *)

Record ProcessOption := {
  po_Cwd : string;
  po_Env : list string;
  po_Args : list string;
  CapAdd : list string;
  CapDrop : list string
}.
Record NetOption := {
  no_HostInterface : string;
  BridgeInterfaceName : string;
  InterfaceName : string;
  Address : string;
  Gateway : string;
  Dns : list string
}.
Record SecurityOption := {
  ProfileName : string;
  BaseCapabilities : list string;
  so_Seccomp : option SeccompObject;
  so_AppArmorProfile : string;
  so_NoNewPrivileges : bool
}.
(** Mounts, namespaces and hooks are copied field by field. *)
Record ConfigOptions := {
  Rootfs : string;
  o_Mounts : list MountObject;
  o_Process : ProcessOption;
  Security : SecurityOption;
  Namespace : list NamespaceObject;
  o_Hostname : string;
  o_Net : NetOption;
  o_ImageLayer : list string;
  o_UpperDir : string;
  o_WorkDir : string;
  o_Hooks : HookLifecycleObject;
  o_Rootless : bool;
  RootlessMode : string;
  RootlessRootUID : Z;
  RootlessRootGID : Z
}.

(** ** Security profiles ([security_profile.go]) *)

Record SecurityProfile := {
  p_Name : string;
  Base : list string;
  p_Seccomp : option SeccompObject;
  p_AppArmorProfile : string;
  p_NoNewPrivileges : bool
}.

Definition allCapabilities : list string :=
  ["CAP_CHOWN"; "CAP_DAC_OVERRIDE"; "CAP_DAC_READ_SEARCH"; "CAP_FOWNER"; "CAP_FSETID";
   "CAP_KILL"; "CAP_SETGID"; "CAP_SETUID"; "CAP_SETPCAP"; "CAP_LINUX_IMMUTABLE";
   "CAP_NET_BIND_SERVICE"; "CAP_NET_BROADCAST"; "CAP_NET_ADMIN"; "CAP_NET_RAW"; "CAP_IPC_LOCK";
   "CAP_IPC_OWNER"; "CAP_SYS_MODULE"; "CAP_SYS_RAWIO"; "CAP_SYS_CHROOT"; "CAP_SYS_PTRACE";
   "CAP_SYS_PACCT"; "CAP_SYS_ADMIN"; "CAP_SYS_BOOT"; "CAP_SYS_NICE"; "CAP_SYS_RESOURCE";
   "CAP_SYS_TIME"; "CAP_SYS_TTY_CONFIG"; "CAP_MKNOD"; "CAP_LEASE"; "CAP_AUDIT_WRITE";
   "CAP_AUDIT_CONTROL"; "CAP_SETFCAP"; "CAP_MAC_OVERRIDE"; "CAP_MAC_ADMIN"; "CAP_SYSLOG";
   "CAP_WAKE_ALARM"; "CAP_BLOCK_SUSPEND"; "CAP_AUDIT_READ"; "CAP_PERFMON"; "CAP_BPF";
   "CAP_CHECKPOINT_RESTORE"].

Definition dropCapabilities (base drops : list string) : list string :=
  List.filter (fun cap => negb (existsb (String.eqb cap) drops)) base.

Section profiles.
(** [runtime.GOARCH]. *)
Context (GOARCH : string).

Definition defaultSeccompArchitectures : list string :=
  if String.eqb GOARCH "amd64" then ["SCMP_ARCH_X86_64"]
  else if String.eqb GOARCH "arm64" then ["SCMP_ARCH_AARCH64"]
  else if String.eqb GOARCH "riscv64" then ["SCMP_ARCH_RISCV64"]
  else [""].

Definition DefaultSecurityProfile : SecurityProfile :=
  {| p_Name := "default";
     Base := ["CAP_CHOWN"; "CAP_DAC_OVERRIDE"; "CAP_FSETID"; "CAP_FOWNER"; "CAP_MKNOD";
              "CAP_NET_RAW"; "CAP_SETGID"; "CAP_SETUID"; "CAP_SETFCAP"; "CAP_SETPCAP";
              "CAP_NET_BIND_SERVICE"; "CAP_SYS_CHROOT"; "CAP_KILL"; "CAP_AUDIT_WRITE"];
     p_Seccomp := Some
       {| DefaultAction := "SCMP_ACT_ALLOW"; DefaultErrnoRet := Some 1;
          Architectures := defaultSeccompArchitectures;
          Syscalls := [
            {| Names := ["bpf"; "perf_event_open"; "kexec_load"; "open_by_handle_at"; "ptrace";
                         "process_vm_readv"; "process_vm_writev"; "userfaultfd"; "reboot";
                         "swapon"; "swapoff"; "open_by_handle_at"; "name_to_handle_at";
                         "init_module"; "finit_module"; "delete_module"; "kcmp"; "mount";
                         "unshare"; "setns"];
               Action := "SCMP_ACT_ERRNO"; ErrnoRet := Some 1 |}] |};
     p_AppArmorProfile := "raind-default";
     p_NoNewPrivileges := false |}.

Definition DevSecurityProfile : SecurityProfile :=
  let p := DefaultSecurityProfile in
  {| p_Name := "dev"; Base := Base p; p_Seccomp := p_Seccomp p;
     p_AppArmorProfile := p_AppArmorProfile p; p_NoNewPrivileges := true |}.
Definition DeploySecurityProfile : SecurityProfile :=
  let p := DefaultSecurityProfile in
  {| p_Name := "deploy"; Base := dropCapabilities (Base p) ["CAP_NET_RAW"; "CAP_MKNOD"];
     p_Seccomp := p_Seccomp p; p_AppArmorProfile := p_AppArmorProfile p;
     p_NoNewPrivileges := true |}.
Definition RestrictedSecurityProfile : SecurityProfile :=
  let p := DefaultSecurityProfile in
  {| p_Name := "restricted"; Base := []; p_Seccomp := p_Seccomp p;
     p_AppArmorProfile := p_AppArmorProfile p; p_NoNewPrivileges := true |}.
Definition PrivilegedSecurityProfile : SecurityProfile :=
  {| p_Name := "privileged"; Base := allCapabilities; p_Seccomp := None;
     p_AppArmorProfile := ""; p_NoNewPrivileges := false |}.
Definition UnconfinedSecurityProfile : SecurityProfile :=
  {| p_Name := "unconfined"; Base := Base DefaultSecurityProfile; p_Seccomp := None;
     p_AppArmorProfile := ""; p_NoNewPrivileges := false |}.

Definition ResolveSecurityProfile (name : string) : res SecurityProfile :=
  if String.eqb name "" || String.eqb name "default" then Ok DefaultSecurityProfile
  else if String.eqb name "dev" then Ok DevSecurityProfile
  else if String.eqb name "deploy" then Ok DeploySecurityProfile
  else if String.eqb name "restricted" then Ok RestrictedSecurityProfile
  else if String.eqb name "privileged" then Ok PrivilegedSecurityProfile
  else if String.eqb name "unconfined" then Ok UnconfinedSecurityProfile
  else Err ("unknown security profile: " +:+ name).

(** Seccomp objects are values here: the copies of [cloneSeccompObject] are
    the objects themselves. *)
Definition ResolveSecurityOption (opt : SecurityOption) : res SecurityProfile :=
  if negb (bool_decide (BaseCapabilities opt = [])) ||
     match so_Seccomp opt with Some _ => true | None => false end ||
     negb (String.eqb (so_AppArmorProfile opt) "") || so_NoNewPrivileges opt
  then Ok {| p_Name := ProfileName opt; Base := BaseCapabilities opt;
             p_Seccomp := so_Seccomp opt; p_AppArmorProfile := so_AppArmorProfile opt;
             p_NoNewPrivileges := so_NoNewPrivileges opt |}
  else ResolveSecurityProfile (ProfileName opt).
End profiles.

(** ** Making a specification ([spec_io.go]) *)

Definition normalizeCapabilityName (c : string) : string :=
  let n := trimSpace (toUpper c) in
  if String.eqb n "" then "" else if hasPrefix n "CAP_" then n else "CAP_" +:+ n.

(** [seen] is the names taken so far. *)
Fixpoint normalize_from (seen : list string) (caps : list string) : list string :=
  match caps with
  | [] => []
  | c :: caps =>
      let n := normalizeCapabilityName c in
      if String.eqb n "" then normalize_from seen caps
      else if existsb (String.eqb n) seen then normalize_from seen caps
      else n :: normalize_from (n :: seen) caps
  end.
Definition normalizeCapabilityNames (caps : list string) : list string := normalize_from [] caps.

(** The names of [caps] that are neither dropped nor there already. *)
Fixpoint add_caps (dropSet : list string) (filtered : list string) (caps : list string)
    : list string :=
  match caps with
  | [] => filtered
  | c :: caps =>
      if existsb (String.eqb c) dropSet then add_caps dropSet filtered caps
      else if existsb (String.eqb c) filtered then add_caps dropSet filtered caps
      else add_caps dropSet (filtered ++ [c]) caps
  end.

Definition mergeCapabilities (base capAdd capDrop : list string) : list string :=
  let final := normalizeCapabilityNames base in
  let dropSet := normalizeCapabilityNames capDrop in
  let filtered := List.filter (fun c => negb (existsb (String.eqb c) dropSet)) final in
  add_caps dropSet filtered (normalizeCapabilityNames capAdd).

Definition env_preset : list (string * string) :=
  [("PATH", "/usr/local/sbin:/usr/local/bin:/usr/sbin:/usr/bin:/sbin:/bin");
   ("TERM", "xterm-256color"); ("LANG", "C.UTF-8"); ("HOME", "/root")].

Definition env_of_list (specEnv : list string) : gmap string string :=
  fold_left (fun env kv =>
    match cut "="%char kv with
    | Some (k, v) => if String.eqb k "" then env else <[k := v]> env
    | None => env
    end) specEnv ∅.

Definition with_preset (env : gmap string string) : gmap string string :=
  fold_left (fun env '(k, v) =>
    if String.eqb (trimSpace (default "" (env !! k))) "" then <[k := v]> env else env)
    env_preset env.

Section build.
Context {RO : RangeOrder} (GOARCH : string).
(** [utils.JsonToString] on the objects that go into annotations. *)
Context (json_net : NetConfigObject -> res string) (json_image : ImageConfigObject -> res string)
  (json_rootless : RootlessConfigObject -> res string).

Definition buildProcessEnvSpec (specEnv : list string) : list string :=
  (fun '(k, v) => k +:+ "=" +:+ v) <$> range_map (with_preset (env_of_list specEnv)).

Definition buildProcessSpec (opts : ConfigOptions) (profile : SecurityProfile) : ProcessObject :=
  let finalCaps := mergeCapabilities (Base profile) (CapAdd (o_Process opts))
                     (CapDrop (o_Process opts)) in
  {| Cwd := po_Cwd (o_Process opts);
     Env := buildProcessEnvSpec (po_Env (o_Process opts));
     Args := po_Args (o_Process opts);
     Terminal := false; ConsoleSize := None; OOMScoreAdj := None;
     Capabilities := {| Bounding := finalCaps; Permitted := finalCaps; Inheritable := [];
                        Effective := finalCaps; Ambient := [] |};
     User := {| UID := 0; GID := 0; Umask := None; AdditionalGids := [] |};
     Rlimits := [];
     NoNewPrivileges := p_NoNewPrivileges profile |}.

Definition buildLinuxSpec (opts : ConfigOptions) (profile : SecurityProfile) : LinuxSpecObject :=
  {| Resources := {| MemoryLimit := 1073741824; Cpu := {| Period := 100000; Quota := 80000 |};
                     PidsLimit := 512; r_Devices := [] |};
     CgroupsPath := "";
     Namespaces := Namespace opts;
     Devices := []; UIDMappings := []; GIDMappings := []; MaskedPaths := []; ReadonlyPaths := [];
     RootfsPropagation := "";
     Seccomp := p_Seccomp profile;
     AppArmorProfile := p_AppArmorProfile profile |}.

Definition buildNetSpec (opts : ConfigOptions) : NetConfigObject :=
  let net := o_Net opts in
  {| HostInterface := no_HostInterface net; BridgeInterface := BridgeInterfaceName net;
     Interface := {| if_Name := InterfaceName net; if_Address := Address net;
                     if_Gateway := Gateway net; if_Servers := Dns net |} |}.

Definition buildImageSpec (opts : ConfigOptions) : ImageConfigObject :=
  {| RootfsType := "overlay"; ImageLayer := o_ImageLayer opts; UpperDir := o_UpperDir opts;
     WorkDir := o_WorkDir opts |}.

Definition buildRootlessSpec (opts : ConfigOptions) : RootlessConfigObject :=
  {| Enabled := o_Rootless opts;
     Mode := if String.eqb (RootlessMode opts) "" then RootlessModeShiftedRoot
             else RootlessMode opts;
     HostRootUID := RootlessRootUID opts; HostRootGID := RootlessRootGID opts |}.

(** [s, _ := utils.JsonToString(v)]. *)
Definition json_or_empty (r : res string) : string :=
  match r with Ok s => s | _ => "" end.

Definition buildAnnotationSpec (opts : ConfigOptions) : AnnotationObject :=
  {| Version := "0.1.0";
     Net := json_or_empty (json_net (buildNetSpec opts));
     Image := json_or_empty (json_image (buildImageSpec opts));
     Rootless := if o_Rootless opts then json_or_empty (json_rootless (buildRootlessSpec opts))
                 else "";
     Extra := ∅ |}.

Definition buildSpec (opts : ConfigOptions) : res Spec :=
  profile ← ResolveSecurityOption GOARCH (Security opts);
  Ok {| OciVersion := "1.3.0";
        Root := {| root_Path := Rootfs opts; root_Readonly := false |};
        Mounts := o_Mounts opts;
        Process := buildProcessSpec opts profile;
        Hostname := o_Hostname opts;
        LinuxSpec := buildLinuxSpec opts profile;
        Hooks := o_Hooks opts;
        Annotations := buildAnnotationSpec opts |}.
End build.

(** ** The checks of a bundle ([validate.go]) *)

Definition one_of (l : list string) (s : string) : bool := existsb (String.eqb s) l.

Definition isSupportedOCIVersion : string -> bool :=
  one_of ["1.0.0"; "1.0.1"; "1.0.2"; "1.0.2-dev"; "1.1.0"; "1.2.0"; "1.3.0"].

Definition namespaceLinkName (nsType : string) : string :=
  if String.eqb nsType "mount" then "mnt"
  else if String.eqb nsType "network" then "net" else nsType.

Definition namespace_types : list string :=
  ["mount"; "network"; "uts"; "pid"; "ipc"; "user"; "cgroup"; "time"].

Definition supportedCapabilities : list string :=
  ["CAP_CHOWN"; "CAP_DAC_OVERRIDE"; "CAP_DAC_READ_SEARCH"; "CAP_FOWNER";
   "CAP_FSETID"; "CAP_KILL"; "CAP_SETGID"; "CAP_SETUID";
   "CAP_SETPCAP"; "CAP_LINUX_IMMUTABLE"; "CAP_NET_BIND_SERVICE";
   "CAP_NET_BROADCAST"; "CAP_NET_ADMIN"; "CAP_NET_RAW"; "CAP_IPC_LOCK";
   "CAP_IPC_OWNER"; "CAP_SYS_MODULE"; "CAP_SYS_RAWIO"; "CAP_SYS_CHROOT";
   "CAP_SYS_PTRACE"; "CAP_SYS_PACCT"; "CAP_SYS_ADMIN"; "CAP_SYS_BOOT";
   "CAP_SYS_NICE"; "CAP_SYS_RESOURCE"; "CAP_SYS_TIME"; "CAP_SYS_TTY_CONFIG";
   "CAP_MKNOD"; "CAP_LEASE"; "CAP_AUDIT_WRITE"; "CAP_AUDIT_CONTROL";
   "CAP_SETFCAP"; "CAP_MAC_OVERRIDE"; "CAP_MAC_ADMIN"; "CAP_SYSLOG";
   "CAP_WAKE_ALARM"; "CAP_BLOCK_SUSPEND"; "CAP_AUDIT_READ"; "CAP_PERFMON";
   "CAP_BPF"; "CAP_CHECKPOINT_RESTORE"].

Definition supportedRlimits : list string :=
  ["RLIMIT_AS"; "RLIMIT_CORE"; "RLIMIT_CPU"; "RLIMIT_DATA";
   "RLIMIT_FSIZE"; "RLIMIT_LOCKS"; "RLIMIT_MEMLOCK"; "RLIMIT_MSGQUEUE";
   "RLIMIT_NICE"; "RLIMIT_NOFILE"; "RLIMIT_NPROC"; "RLIMIT_RSS";
   "RLIMIT_RTPRIO"; "RLIMIT_RTTIME"; "RLIMIT_SIGPENDING"; "RLIMIT_STACK"].

Definition appendCapabilityNames (c : CapabilityObject) : list string :=
  Bounding c ++ Permitted c ++ Inheritable c ++ Effective c ++ Ambient c.

(** [for _, x := range l { if err := check(x); err != nil { return err } }]. *)
Fixpoint check_each {A} (check : A -> res unit) (l : list A) : res unit :=
  match l with
  | [] => Ok tt
  | x :: l => _ ← check x; check_each check l
  end.

Definition guard_res (b : bool) (e : error) : res unit := if b then Err e else Ok tt.

Section validate.
(** [os.Readlink]. *)
Context (Readlink : string -> res string).

Definition validateNamespacePath (nsType path : string) : res unit :=
  match Readlink path with
  | Err e => Err ("read namespace path " +:+ path +:+ ": " +:+ e)
  | Panic e => Panic e
  | Ok target =>
      let want := namespaceLinkName nsType in
      if String.eqb want "" then Err ("unsupported linux namespace type: " +:+ nsType) else
      if negb (hasPrefix target (want +:+ ":"))
      then Err ("namespace path " +:+ path +:+ " has type " +:+ quoted target +:+
                ", expected " +:+ quoted want)
      else Ok tt
  end.

Definition check_console (c : option ConsoleSizeObject) : res unit :=
  match c with
  | None => Ok tt
  | Some c =>
      if (Height c =? 0) || (Width c =? 0)
      then Err "process.consoleSize height and width must be positive" else
      guard_res ((65535 <? Height c) || (65535 <? Width c))
        "process.consoleSize height and width must be <= 65535"
  end.

Definition check_oom (v : option Z) : res unit :=
  match v with
  | None => Ok tt
  | Some v => guard_res ((v <? -1000) || (1000 <? v))
                "process.oomScoreAdj must be between -1000 and 1000"
  end.

Definition check_namespace (ns : NamespaceObject) : res unit :=
  if negb (one_of namespace_types (ns_Type ns))
  then Err ("unsupported linux namespace type: " +:+ ns_Type ns) else
  if String.eqb (ns_Path ns) "" then Ok tt else validateNamespacePath (ns_Type ns) (ns_Path ns).

Definition check_idmap (m : IDMappingObject) : res unit :=
  if Size m <=? 0 then Err "linux id mapping size must be positive" else
  guard_res ((ContainerID m <? 0) || (HostID m <? 0)) "linux id mapping ids must be non-negative".

Definition check_device (d : DeviceObject) : res unit :=
  if String.eqb (trimSpace (dev_Path d)) "" then Err "linux device path is required" else
  guard_res (negb (one_of ["c"; "u"; "b"; "p"] (dev_Type d)))
    ("unsupported linux device type: " +:+ dev_Type d).

Definition check_device_rule (r : DeviceCgroupObject) : res unit :=
  _ ← guard_res (negb (String.eqb (dc_Type r) "") && negb (one_of ["a"; "b"; "c"] (dc_Type r)))
        ("unsupported linux resources device type: " +:+ dc_Type r);
  _ ← guard_res (match dc_Major r with Some v => v <? 0 | None => false end)
        "linux resources device major must be non-negative";
  _ ← guard_res (match dc_Minor r with Some v => v <? 0 | None => false end)
        "linux resources device minor must be non-negative";
  check_each (fun c => guard_res (negb (one_of ["r"; "w"; "m"] (String c "")))
      ("unsupported linux resources device access: " +:+ String c ""))
    (list_ascii_of_string (Access r)).

Definition check_capability (c : string) : res unit :=
  guard_res (negb (one_of supportedCapabilities c)) ("unsupported process capability: " +:+ c).

Definition check_rlimit (r : RlimitObject) : res unit :=
  guard_res (negb (one_of supportedRlimits (toUpper (trimSpace (rl_Type r)))))
    ("unsupported process rlimit type: " +:+ rl_Type r).

Definition check_abs (what path : string) : res unit :=
  guard_res (negb (IsAbs path)) ("linux " +:+ what +:+ " path must be absolute: " +:+ path).

Definition ValidateBasic (s : Spec) : res unit :=
  let linux := LinuxSpec s in
  if String.eqb (trimSpace (OciVersion s)) "" then Err "ociVersion is required" else
  if negb (isSupportedOCIVersion (OciVersion s))
  then Err ("unsupported ociVersion: " +:+ OciVersion s) else
  if String.eqb (trimSpace (root_Path (Root s))) "" then Err "root.path is required" else
  _ ← check_console (ConsoleSize (Process s));
  _ ← check_oom (OOMScoreAdj (Process s));
  _ ← check_each check_namespace (Namespaces linux);
  _ ← check_each (check_abs "masked") (MaskedPaths linux);
  _ ← check_each (check_abs "readonly") (ReadonlyPaths linux);
  _ ← check_each check_idmap (UIDMappings linux ++ GIDMappings linux);
  _ ← check_each check_device (Devices linux);
  _ ← check_each check_device_rule (r_Devices (Resources linux));
  _ ← check_each check_capability (appendCapabilityNames (Capabilities (Process s)));
  check_each check_rlimit (Rlimits (Process s)).
End validate.

(** ** Lemmas *)

Lemma one_of_elem l s : one_of l s = true <-> s ∈ l.
Proof.
  unfold one_of. rewrite existsb_exists. split.
  - intros (x & Hx & He). apply String.eqb_eq in He as ->. by apply list_elem_of_In.
  - intros H. exists s. split; [by apply list_elem_of_In|apply String.eqb_refl].
Qed.

Lemma existsb_eqb_elem l s : existsb (String.eqb s) l = true <-> s ∈ l.
Proof. apply one_of_elem. Qed.
Lemma existsb_eqb_not_elem l s : existsb (String.eqb s) l = false <-> s ∉ l.
Proof. rewrite <- existsb_eqb_elem. by destruct (existsb _ l). Qed.

Lemma check_each_ok {A} (check : A -> res unit) l :
  check_each check l = Ok tt <-> Forall (fun x => check x = Ok tt) l.
Proof.
  induction l as [|x l IH]; simpl; [by split; [constructor|]|].
  rewrite Forall_cons, <- IH. unfold mbind, res_bind. destruct (check x) as [[]|e|e]; naive_solver.
Qed.

Lemma guard_res_ok b e : guard_res b e = Ok tt <-> b = false.
Proof. by destruct b. Qed.

(** *** Capabilities *)

Definition named (n : string) (caps : list string) : Prop :=
  n <> "" /\ n ∈ normalizeCapabilityName <$> caps.

Lemma normalize_from_elem seen caps n :
  n ∈ normalize_from seen caps <-> n ∉ seen /\ named n caps.
Proof.
  unfold named. revert seen. induction caps as [|c caps IH]; intros seen.
  { simpl. split; [by intros ?%not_elem_of_nil|intros (_ & _ & ?%not_elem_of_nil); done]. }
  rewrite fmap_cons, elem_of_cons. cbn [normalize_from].
  destruct (String.eqb_spec (normalizeCapabilityName c) "") as [He|He].
  { rewrite IH, He. naive_solver. }
  destruct (existsb _ seen) eqn:Es.
  - apply existsb_eqb_elem in Es. rewrite IH. naive_solver.
  - apply existsb_eqb_not_elem in Es. rewrite elem_of_cons, IH, not_elem_of_cons.
    destruct (decide (n = normalizeCapabilityName c)) as [->|]; naive_solver.
Qed.

Lemma normalize_from_NoDup seen caps : NoDup (normalize_from seen caps).
Proof.
  revert seen. induction caps as [|c caps IH]; intros seen; cbn [normalize_from]; [constructor|].
  destruct (String.eqb _ ""); [done|]. destruct (existsb _ seen); [done|].
  constructor; [|done]. rewrite normalize_from_elem. intros [H _]. apply H. by left.
Qed.

Lemma add_caps_elem drops l caps n :
  n ∈ add_caps drops l caps <-> n ∈ l \/ (n ∈ caps /\ n ∉ drops).
Proof.
  revert l. induction caps as [|c caps IH]; intros l; cbn [add_caps].
  { split; [by left|]. intros [H|[H%not_elem_of_nil _]]; done. }
  rewrite elem_of_cons.
  destruct (existsb _ drops) eqn:Ed; [apply existsb_eqb_elem in Ed; rewrite IH; naive_solver|].
  apply existsb_eqb_not_elem in Ed.
  destruct (existsb _ l) eqn:El; [apply existsb_eqb_elem in El; rewrite IH; naive_solver|].
  rewrite IH, elem_of_app, list_elem_of_singleton. naive_solver.
Qed.

Lemma add_caps_NoDup drops l caps : NoDup l -> NoDup (add_caps drops l caps).
Proof.
  revert l. induction caps as [|c caps IH]; intros l Hl; cbn [add_caps]; [done|].
  destruct (existsb _ drops); [by apply IH|].
  destruct (existsb _ l) eqn:El; [by apply IH|]. apply existsb_eqb_not_elem in El.
  apply IH, NoDup_app. split; [done|]. split; [|apply NoDup_singleton].
  intros x Hx ->%list_elem_of_singleton. done.
Qed.

Lemma filter_elem {A} (p : A -> bool) l x : x ∈ List.filter p l <-> p x = true /\ x ∈ l.
Proof. rewrite !list_elem_of_In, filter_In. naive_solver. Qed.

Lemma filter_NoDup {A} (p : A -> bool) l : NoDup l -> NoDup (List.filter p l).
Proof.
  induction 1 as [|x l Hx Hl IH]; [constructor|]. simpl. destruct (p x); [|done].
  constructor; [|done]. by rewrite filter_elem; intros [_ H].
Qed.

(** A container has exactly the capabilities of its profile and those added,
    less those dropped, each once; case, blanks and a missing [CAP_] do not
    matter, and a dropped capability stays dropped though it is added. *)
Theorem mergeCapabilities_spec base capAdd capDrop :
  NoDup (mergeCapabilities base capAdd capDrop) /\
  forall n, n ∈ mergeCapabilities base capAdd capDrop <->
    (named n base \/ named n capAdd) /\ ~ named n capDrop.
Proof.
  assert (forall n l, n ∈ normalizeCapabilityNames l <-> named n l) as Hn.
  { intros n l. unfold normalizeCapabilityNames. rewrite normalize_from_elem.
    pose proof (not_elem_of_nil n). tauto. }
  unfold mergeCapabilities. split.
  - apply add_caps_NoDup, filter_NoDup, normalize_from_NoDup.
  - intros n. rewrite add_caps_elem, filter_elem, negb_true_iff, existsb_eqb_not_elem, !Hn. tauto.
Qed.

Example mergeCapabilities_example :
  mergeCapabilities ["CAP_CHOWN"; "CAP_KILL"] [" net_admin"; "chown"; "sys_admin"] ["kill"; "CAP_sys_admin"]
  = ["CAP_CHOWN"; "CAP_NET_ADMIN"].
Proof. reflexivity. Qed.

(** *** The environment of the process *)

Lemma cut_app_none sep k v : cut sep k = None ->
  cut sep (k +:+ String sep v)%string = Some (k, v).
Proof.
  induction k as [|c k IH]; simpl; [by rewrite Ascii.eqb_refl|].
  destruct (Ascii.eqb c sep); [done|]. destruct (cut sep k) as [[]|]; [done|].
  intros _. simpl in IH. by rewrite IH.
Qed.

Lemma cut_first sep s k v : cut sep s = Some (k, v) -> cut sep k = None.
Proof. intros H. pose proof (cut_split_head sep s) as Hk. unfold split_head in Hk. by rewrite H in Hk. Qed.

(** A name of a variable. *)
Definition var_name (k : string) : Prop := k <> "" /\ cut "="%char k = None.

Lemma env_of_list_names l k v : env_of_list l !! k = Some v -> var_name k.
Proof.
  unfold env_of_list.
  assert (forall env : gmap string string, (forall k v, env !! k = Some v -> var_name k) ->
    forall k v, fold_left (fun env kv => match cut "="%char kv with
      | Some (k, v) => if String.eqb k "" then env else <[k := v]> env | None => env end)
      l env !! k = Some v -> var_name k) as H.
  { induction l as [|kv l IH]; intros env Henv k' v'; cbn [fold_left]; [apply Henv|].
    apply IH. destruct (cut _ kv) as [[x y]|] eqn:E; [|done].
    destruct (String.eqb_spec x "") as [|Hx]; [done|].
    intros k0 v0. rewrite lookup_insert_Some. intros [[<- _]|[_ ?]]; [|by eapply Henv].
    split; [done|]. by eapply cut_first. }
  apply H. intros k' v'. by rewrite lookup_empty.
Qed.

Definition preset_step (env : gmap string string) (kv : string * string) : gmap string string :=
  if String.eqb (trimSpace (default "" (env !! kv.1))) "" then <[kv.1 := kv.2]> env else env.

Lemma preset_fold presets env k : NoDup presets.*1 ->
  fold_left preset_step presets env !! k =
    match list_find (fun kv => kv.1 = k) presets with
    | Some (_, kv) => if String.eqb (trimSpace (default "" (env !! k))) "" then Some kv.2 else env !! k
    | None => env !! k
    end.
Proof.
  revert env. induction presets as [|[x v] l IH]; intros env Hnd; cbn [fold_left]; [done|].
  cbn [fmap list_fmap fst] in Hnd. apply NoDup_cons in Hnd as [Hx Hnd].
  rewrite IH by done. cbn [list_find fst]. destruct (decide (x = k)) as [->|Hne].
  - assert (list_find (fun kv : string * string => kv.1 = k) l = None) as ->.
    { apply list_find_None. apply Forall_forall. intros [a b] Ha Hk. cbn [fst] in Hk. subst.
      apply Hx. apply list_elem_of_fmap. by exists (k, b). }
    unfold preset_step. cbn [fst snd].
    destruct (String.eqb (trimSpace (default "" (env !! k))) ""); [by rewrite lookup_insert_eq|done].
  - assert (preset_step env (x, v) !! k = env !! k) as ->.
    { unfold preset_step. cbn [fst snd].
      destruct (String.eqb _ ""); [by rewrite lookup_insert_ne|done]. }
    destruct (list_find _ l) as [[i kv]|]; done.
Qed.

Lemma with_preset_lookup env k :
  with_preset env !! k =
    match list_find (fun kv => kv.1 = k) env_preset with
    | Some (_, kv) => if String.eqb (trimSpace (default "" (env !! k))) "" then Some kv.2 else env !! k
    | None => env !! k
    end.
Proof.
  rewrite <- preset_fold.
  - reflexivity.
  - repeat (apply NoDup_cons; split; [set_solver|]). by apply NoDup_nil.
Qed.

Lemma with_preset_names env k v :
  (forall k v, env !! k = Some v -> var_name k) -> with_preset env !! k = Some v -> var_name k.
Proof.
  intros Henv. rewrite with_preset_lookup. destruct (list_find _ env_preset) as [[i kv]|] eqn:E.
  - case_match; [|by apply Henv]. intros _. apply list_find_Some in E as (Hl & Hk & _).
    apply list_elem_of_lookup_2 in Hl. subst k. clear -Hl. unfold env_preset in Hl.
    rewrite !elem_of_cons, elem_of_nil in Hl. by destruct_or! Hl; subst.
  - apply Henv.
Qed.

(** Every entry of the environment made for a container is [NAME=value] with
    a name, so that splitting it at the sign is safe; the variables asked for
    are there, and [PATH], [TERM], [LANG] and [HOME] have a value that is not
    blank. *)
Theorem buildProcessEnvSpec_spec {RO : RangeOrder} specEnv :
  (forall e, e ∈ buildProcessEnvSpec specEnv ->
     exists k v, cut "="%char e = Some (k, v) /\ k <> "") /\
  (forall k v, env_of_list specEnv !! k = Some v -> trimSpace v <> "" \/ k ∉ env_preset.*1 ->
     (k +:+ "=" +:+ v)%string ∈ buildProcessEnvSpec specEnv) /\
  (forall k, k ∈ env_preset.*1 -> exists v, trimSpace v <> "" /\
     (k +:+ "=" +:+ v)%string ∈ buildProcessEnvSpec specEnv).
Proof.
  assert (forall k v, with_preset (env_of_list specEnv) !! k = Some v ->
    (k +:+ "=" +:+ v)%string ∈ buildProcessEnvSpec specEnv) as Hin.
  { intros k v H. unfold buildProcessEnvSpec. apply list_elem_of_fmap.
    exists (k, v). split; [done|]. by apply elem_of_range_map. }
  split_and!.
  - intros e ([k v] & -> & H)%list_elem_of_fmap. apply elem_of_range_map in H.
    apply with_preset_names in H as [Hk Hc]; [|apply env_of_list_names].
    exists k, v. split; [|done]. by apply (cut_app_none "="%char).
  - intros k v Hkv Hor. apply Hin. rewrite with_preset_lookup, Hkv.
    change (default "" (Some v)) with v.
    destruct (list_find _ env_preset) as [[i kv]|] eqn:E; [|done].
    destruct Hor as [Hv|Hk]; [by apply String.eqb_neq in Hv; rewrite Hv|].
    exfalso. apply Hk. apply list_find_Some in E as (Hl & <- & _).
    apply list_elem_of_fmap. exists kv. split; [done|]. by eapply list_elem_of_lookup_2.
  - intros k Hk. set (env := env_of_list specEnv).
    destruct (decide (trimSpace (default "" (env !! k)) = "")) as [Hb|Hb].
    + assert (exists v, trimSpace v <> "" /\ with_preset env !! k = Some v) as (v & Hv & Hl).
      { rewrite with_preset_lookup, Hb. cbn [String.eqb]. clear -Hk. unfold env_preset in Hk.
        cbn [fmap list_fmap fst] in Hk. rewrite !elem_of_cons, elem_of_nil in Hk.
        destruct_or! Hk; subst; eexists; (split; [|reflexivity]); done. }
      exists v. split; [done|]. by apply Hin.
    + destruct (env !! k) as [v|] eqn:E; [|done]. exists v. split; [done|]. apply Hin.
      rewrite with_preset_lookup. unfold env in *. rewrite E.
      change (default "" (Some v)) with v in *.
      apply String.eqb_neq in Hb. rewrite Hb. by destruct (list_find _ env_preset) as [[]|].
Qed.

(** *** Annotations *)

Lemma annotation_key_lookup a k : k ∈ [key_version; key_net; key_image; key_rootless] ->
  (forall k, k ∈ [key_version; key_net; key_image; key_rootless] -> Extra a !! k = None) ->
  default "" (annotation_items a !! k) =
    if String.eqb k key_version then Version a else if String.eqb k key_net then Net a
    else if String.eqb k key_image then Image a else Rootless a.
Proof.
  intros Hk He. specialize (He _ Hk). unfold annotation_items, put_nonempty.
  assert (forall k' v (m : gmap string string), k' <> k ->
    (if String.eqb v "" then m else <[k' := v]> m) !! k = m !! k) as Hne.
  { intros k' v m H. destruct (String.eqb v ""); [done|]. by rewrite lookup_insert_ne. }
  assert (forall v (m : gmap string string), m !! k = None ->
    default "" ((if String.eqb v "" then m else <[k := v]> m) !! k) = v) as Heq.
  { intros v m H. destruct (String.eqb_spec v "") as [->|]; [by rewrite H|].
    by rewrite lookup_insert_eq. }
  rewrite !elem_of_cons, elem_of_nil in Hk.
  destruct_or! Hk; subst k; cbn [String.eqb Ascii.eqb Bool.eqb];
    repeat first [rewrite Heq; [reflexivity|] | rewrite Hne by done]; done.
Qed.

(** Annotations survive the trip through their JSON object, whatever other
    annotations a bundle has. *)
Theorem annotation_roundtrip a :
  (forall k, k ∈ [key_version; key_net; key_image; key_rootless] -> Extra a !! k = None) ->
  annotation_of_items (annotation_items a) = a.
Proof.
  intros He. unfold annotation_of_items. cbv zeta.
  assert (forall k, k ∈ [key_version; key_net; key_image; key_rootless] ->
    default "" (annotation_items a !! k) = _) as Hk by
    exact (fun k H => annotation_key_lookup a k H He).
  rewrite !Hk by set_solver. cbn [String.eqb Ascii.eqb Bool.eqb].
  destruct a as [v n i r x]. cbn [Version Net Image Rootless Extra] in *. f_equal.
  apply map_eq. intros k. rewrite !lookup_delete.
  destruct (decide (k ∈ [key_version; key_net; key_image; key_rootless])) as [Hin|Hout].
  - rewrite He by done. rewrite !elem_of_cons, elem_of_nil in Hin.
    destruct_or! Hin; subst; repeat (case_decide; [done|]); done.
  - rewrite !not_elem_of_cons in Hout. destruct Hout as (H1 & H2 & H3 & H4 & _).
    repeat (case_decide; [done|]). unfold annotation_items, put_nonempty. cbn [Version Net Image Rootless Extra].
    repeat case_match; rewrite ?lookup_insert_ne by done; done.
Qed.

Example annotation_roundtrip_witness :
  let a := {| Version := "0.1.0"; Net := "{}"; Image := ""; Rootless := "";
              Extra := {["com.example" := "x"]} |} in
  annotation_of_items (annotation_items a) = a.
Proof.
  apply annotation_roundtrip. intros k. rewrite !elem_of_cons, elem_of_nil.
  intros Hk. destruct_or! Hk; subst k; done.
Defined.
