(* ===== verification/Kernel.v ===== *)
(** * The system calls of the runtime ([droplet/utils.KernelSyscallHandler])

    The calls the runtime makes of the kernel.  What a call does is left to the
    class [World.Peers]; the model keeps the calls made, in order.  A call that
    answers a question gives its answer as text. *)

From Stdlib Require Import ZArith Lia Ascii String.
From stdpp Require Import base gmap strings list.
From S2P Require Import Prelude.
From S2P Require Import GoString.
From S2P Require Import World.
Open Scope Z_scope.

Inductive sys :=
  | Mount (source target fstype : string) (flags : Z) (data : string)
  | Unmount (target : string) (flags : Z)
  | PivotRoot (newroot putold : string)
  | Chdir (path : string)
  | Mkdir (path : string) (mode : Z)
  | MkdirAll (path : string) (perm : Z)
  | Mknod (path : string) (mode dev : Z)
  | Chown (path : string) (uid gid : Z)
  | Chmod (path : string) (mode : Z)
  | Rmdir (path : string)
  | Stat (path : string)
  | Lstat (path : string)
  | Create (path : string)
  | Symlink (oldname newname : string)
  | CreateExcl (path : string) (perm : Z)
  | WriteFile (path data : string)
  | Setresgid (gid : Z)
  | Setresuid (uid : Z)
  | Setgroups (gids : list Z)
  | SetUmask (mask : Z)
  | Setrlimit (resource soft hard : Z)
  | Sethostname (name : string)
  | Setenv (key value : string)
  | Setns (name path : string)
  | SetNoNewPrivs
  | InstallSeccomp
  | ApplyCaps (bounding permitted inheritable effective ambient : list string)
  | ApplyAppArmor (profile : string)
  | ReadFifo (path : string)
  | AccessX (path : string)
  | CloseFiles
  | Exec (arg0 : string) (argv env : list string)
  | Open (path : string)
  | Remove (path : string)
  | RemoveAll (path : string)
  | ReadFile (path : string)
  | Sha256File (path : string)
  | ReadJson (path : string)
  | WriteJson (path text : string)
  | Signal (pid signal : Z)
  | Mkfifo (path : string)
  | WriteFifo (path : string)
  | RunCommand (name : string) (args env : list string) (stdin : string) (timeout : option Z)
  | StartCommand (name : string) (args : list string)
  | WaitCommand (pid : Z)
  | WaitInitPid (path : string)
  | PrepareNetwork (containerId : string) (pid : Z) (config : string)
  | ShiftLayers (containerId : string)
  | ChownTree (path : string).

(** [os.IsNotExist]: the error text of a missing file. *)
Definition ENOENT : error := "no such file or directory".
Definition is_ENOENT (e : error) : bool := String.eqb e ENOENT.

(** The answers of [Stat] and [Lstat]. *)
Definition DIR : string := "directory".
Definition LINK : string := "symlink".

(** [<linux/mount.h>], as in [syscall]. *)
Definition MS_RDONLY : Z := 1.
Definition MS_NOSUID : Z := 2.
Definition MS_NODEV : Z := 4.
Definition MS_NOEXEC : Z := 8.
Definition MS_REMOUNT : Z := 32.
Definition MS_NOATIME : Z := 1024.
Definition MS_BIND : Z := 4096.
Definition MS_REC : Z := 16384.
Definition MS_UNBINDABLE : Z := 131072.
Definition MS_PRIVATE : Z := 262144.
Definition MS_SLAVE : Z := 524288.
Definition MS_SHARED : Z := 1048576.
Definition MS_RELATIME : Z := 2097152.
Definition MS_STRICTATIME : Z := 16777216.
Definition MNT_DETACH : Z := 2.

(** [a | b]. *)
Definition flag_or (l : list Z) : Z := fold_right Z.lor 0 l.
(** [flags & bit != 0]. *)
Definition has_flag (flags bit : Z) : bool := negb (Z.land flags bit =? 0).

Section calls.
Context {St W : Type} {P : Peers sys W}.

Definition do (c : sys) : M St sys W unit := _ ← call c; mret tt.

(** [if err := m(); err != nil { return fmt.Errorf(pre + ": %w", err) }]. *)
Definition wrap {A} (pre : string) (m : M St sys W A) : M St sys W A :=
  r ← attempt m;
  match r with
  | Ok a => mret a
  | Err e => fail (pre +:+ ": " +:+ e)
  | Panic e => crash e
  end.

Definition when (b : bool) (m : M St sys W unit) : M St sys W unit :=
  if b then m else mret tt.

(** A [for] loop that returns at the first error. *)
Fixpoint each {A} (f : A -> M St sys W unit) (l : list A) : M St sys W unit :=
  match l with
  | [] => mret tt
  | x :: l => _ ← f x; each f l
  end.
End calls.

(** ** What a computation may call

    [only Q m]: every call that [m] makes satisfies [Q], however it ends. *)
Section only.
Context {St W : Type} {P : Peers sys W} (Q : sys -> Prop).

Definition only {A} (m : M St sys W A) : Prop :=
  forall w, exists t, trace (m w).2 = trace w ++ t /\ Forall Q t.

Lemma only_ret {A} (a : A) : only (mret a).
Proof. intros w. exists []. by rewrite app_nil_r. Qed.
Lemma only_fail {A} e : only (@fail St sys W A e).
Proof. intros w. exists []. by rewrite app_nil_r. Qed.
Lemma only_crash {A} e : only (@crash St sys W A e).
Proof. intros w. exists []. by rewrite app_nil_r. Qed.
Lemma only_bind {A B} (m : M St sys W A) (f : A -> M St sys W B) :
  only m -> (forall a, only (f a)) -> only (m ≫= f).
Proof.
  intros Hm Hf w. unfold mbind, M_bind. destruct (Hm w) as (t & Ht & HQ).
  destruct (m w) as [[a|e|e] w1]; cbn [snd] in *; [|by exists t..].
  destruct (Hf a w1) as (t' & Ht' & HQ'). exists (t ++ t').
  rewrite Ht', Ht, app_assoc. split; [done|]. by apply Forall_app.
Qed.
Lemma only_attempt {A} (m : M St sys W A) : only m -> only (attempt m).
Proof. intros Hm w. unfold attempt. specialize (Hm w). by destruct (m w) as [[| |] w1]. Qed.
Lemma only_call c : Q c -> only (call c).
Proof. intros Hc w. exists [c]. rewrite call_trace. by repeat constructor. Qed.
Lemma only_quiet {A} (m : M St sys W A) : quiet m -> only m.
Proof. intros Hm w. exists []. destruct (Hm w) as [-> _]. by rewrite app_nil_r. Qed.
Lemma only_do c : Q c -> only (do c).
Proof. intros Hc. apply only_bind; [by apply only_call|]. intros a. apply only_ret. Qed.
Lemma only_wrap {A} pre (m : M St sys W A) : only m -> only (wrap pre m).
Proof.
  intros Hm. apply only_bind; [by apply only_attempt|].
  intros [a|e|e]; [apply only_ret|apply only_fail|apply only_crash].
Qed.
Lemma only_when b (m : M St sys W unit) : (b = true -> only m) -> only (when b m).
Proof. intros Hm. destruct b; [by apply Hm|apply only_ret]. Qed.
Lemma only_each {A} (f : A -> M St sys W unit) l :
  (forall x, x ∈ l -> only (f x)) -> only (each f l).
Proof.
  induction l as [|x l IH]; intros Hf; [apply only_ret|].
  apply only_bind; [apply Hf; by left|]. intros _. apply IH. intros y Hy. apply Hf. by right.
Qed.
End only.

Lemma only_weaken {St W : Type} {P : Peers sys W} (Q R : sys -> Prop) {A} (m : M St sys W A) :
  (forall c, Q c -> R c) -> only Q m -> only R m.
Proof.
  intros H Hm w. destruct (Hm w) as (t & Ht & HQ). exists t. split; [done|].
  by eapply Forall_impl.
Qed.

#[export] Hint Resolve only_ret only_fail only_crash only_attempt only_wrap : go.
#[export] Hint Extern 2 (only _ (_ ≫= _)) => apply only_bind : go.
#[export] Hint Extern 2 (only _ (do _)) => apply only_do : go.
#[export] Hint Extern 2 (only _ (call _)) => apply only_call : go.
