(* ===== verification/MountGuard.v ===== *)
(** * The guard of the mounts ([droplet/container/mountguard])

    Which mounts a container may ask for, and where they end up. *)

From Stdlib Require Import ZArith Lia Ascii String.
From stdpp Require Import base gmap strings list.
From S2P Require Import Prelude.
From S2P Require Import GoString.
From S2P Require Import GoPath.
From S2P Require Import World.
From S2P Require Import RuntimeSpec.
From S2P Require Import Kernel.
Open Scope Z_scope.

(** ** Where ([SecurePath]) *)

Definition SecurePath (rootfs dest : string) : res string :=
  let rel := trimPrefix dest "/" in
  let clean := Clean rel in
  if String.eqb clean "." || hasPrefix clean "../" || String.eqb clean ".."
  then Err ("invalid destination: " +:+ quoted dest) else
  let fullPath := Join [rootfs; clean] in
  let root := Clean rootfs +:+ "/" in
  if negb (hasPrefix (fullPath +:+ "/") root) && negb (String.eqb fullPath (Clean rootfs))
  then Err ("destination escapes rootfs: " +:+ quoted dest +:+ " -> " +:+ quoted fullPath) else
  Ok fullPath.

(** ** How ([SecureMount]) *)

Section mount.
Context {St W : Type} {P : Peers sys W}.

Definition SecureMount (source target fstype : string) (flags : Z) (data : string)
    (allowDevice : bool) : M St sys W unit :=
  let fstype := if String.eqb fstype "bind" then "" else fstype in
  _ ← do (Mount source target fstype flags data);
  _ ← when (String.eqb fstype "bind" || has_flag flags MS_BIND) (
    let remountFlags := flag_or ([MS_BIND; MS_REMOUNT; MS_NOEXEC; MS_NOSUID] ++
      (if allowDevice then [] else [MS_NODEV]) ++
      (if has_flag flags MS_RDONLY then [MS_RDONLY] else [])) in
    do (Mount "" target "" remountFlags ""));
  do (Mount "" target "" (flag_or [MS_PRIVATE; MS_REC]) "").
End mount.

(** ** What *)

(** [p == d || strings.HasPrefix(p, d+"/")] for one of the list. *)
Definition in_list (denied : list string) (p : string) : bool := existsb (same_or_below p) denied.

Definition denied_sources : list string :=
  ["/proc"; "/sys"; "/dev"; "/run"; "/var/run"; "/boot"; "/root"; "/bin"; "/usr/bin";
   "/usr/local/bin"; "/etc/raind"].
Definition denied_destinations : list string :=
  ["/proc"; "/sys"; "/dev"; "/run"; "/var/run"; "/boot"].

Definition HasDeniedSource (source : string) : bool :=
  let p := Clean source in String.eqb p "/" || in_list denied_sources p.
Definition HasDeniedDestination (destination : string) : bool :=
  let p := Clean destination in String.eqb p "/" || in_list denied_destinations p.

Definition IsAllowedKernelMountType : string -> bool :=
  one_of ["proc"; "sysfs"; "tmpfs"; "devpts"; "cgroup"; "cgroup2"; "mqueue"].

Definition IsAllowedMountDataOption (option : string) : bool :=
  match cut "="%char option with
  | None => false
  | Some (key, _) => one_of ["mode"; "size"; "gid"; "uid"; "ptmxmode"] key
  end.

Definition plain_options : list string :=
  ["shared"; "rshared"; "slave"; "rslave"; "private"; "rprivate"; "unbindable"; "runbindable";
   "ro"; "rw"; "nosuid"; "nodev"; "noexec"; "relatime"; "noatime"; "strictatime"; "dev";
   "newinstance"; "z"; "Z"].

(** The loop over the options: [Some hasBind] when all are allowed. *)
Fixpoint allowed_options (kernelMount hasBind : bool) (options : list string) : option bool :=
  match options with
  | [] => Some hasBind
  | o :: options =>
      if one_of ["bind"; "rbind"] o
      then if kernelMount then None else allowed_options kernelMount true options
      else if one_of plain_options o then allowed_options kernelMount hasBind options
      else if negb kernelMount || negb (IsAllowedMountDataOption o) then None
      else allowed_options kernelMount hasBind options
  end.

Definition IsAllowedType (fstype : string) (options : list string) : bool :=
  let kernelMount := IsAllowedKernelMountType fstype in
  if negb (String.eqb fstype "") && negb (String.eqb fstype "bind") && negb kernelMount then false
  else match allowed_options kernelMount (String.eqb fstype "bind") options with
       | None => false
       | Some hasBind => kernelMount || hasBind || (length options =? 0)%nat
       end.

Definition HasMountOption (options : list string) (want : string) : bool := one_of options want.

Definition IsUnderPath (path base : string) : bool := same_or_below (Clean path) (Clean base).

Definition IsAllowedRuntimeVolumeSource (source : string) : bool :=
  IsUnderPath source "/etc/raind/volume/pvc".

Definition ValidateUserMount (m : MountObject) : res unit :=
  if negb (IsAllowedType (m_Type m) (Options m))
  then Err ("invalid mount type/options: type=" +:+ quoted (m_Type m) +:+
            " options=" +:+ quoted (join "," (Options m))) else
  if IsAllowedKernelMountType (m_Type m) then Ok tt else
  let allowDevice := HasMountOption (Options m) "dev" in
  if HasDeniedSource (Source m) && negb (allowDevice && IsUnderPath (Source m) "/dev") &&
     negb (IsAllowedRuntimeVolumeSource (Source m))
  then Err ("invalid mount source: " +:+ Source m) else
  if HasDeniedDestination (Destination m) &&
     negb (allowDevice && IsUnderPath (Destination m) "/dev")
  then Err ("invalid mount destination: " +:+ Destination m) else
  Ok tt.

(** ** Symbolic links below a source ([RejectSymlinkInDirTreeFd])

    What the kernel answers for an entry of a directory: its type, or an error.
    A directory lists its entries and may then fail to list the rest. *)
Inductive node :=
  | Regular
  | SymbolicLink
  | Unreadable (e : error)
  | Directory (entries : list (string * node)) (rest : option error).

Record WalkLimits := { MaxDepth : Z; MaxEntries : Z }.

Definition default_limits (lim : WalkLimits) : WalkLimits :=
  {| MaxDepth := if MaxDepth lim <=? 0 then 64 else MaxDepth lim;
     MaxEntries := if MaxEntries lim <=? 0 then 200000 else MaxEntries lim |}.

(** [walk]: the number of entries seen so far is kept for the whole tree. *)
Fixpoint walk (lim : WalkLimits) (dir : node) (absPath : string) (depth entries : Z) : res Z :=
  match dir with
  | Directory l rest =>
      if MaxDepth lim <? depth
      then Err ("mount source tree too deep: " +:+ absPath +:+ " (depth>" +:+
                itoa (MaxDepth lim) +:+ ")") else
      (fix loop (l : list (string * node)) (entries : Z) : res Z :=
         match l with
         | [] => match rest with
                 | Some e => Err ("readdir failed: " +:+ absPath +:+ ": " +:+ e)
                 | None => Ok entries
                 end
         | (name, n) :: l =>
             if String.eqb name "." || String.eqb name ".." then loop l entries else
             let entries := entries + 1 in
             if MaxEntries lim <? entries
             then Err ("mount source tree too large: " +:+ absPath +:+ " (entries>" +:+
                       itoa (MaxEntries lim) +:+ ")") else
             match n with
             | Regular => loop l entries
             | SymbolicLink => Err ("symlink found under mount source: " +:+ Join [absPath; name])
             | Unreadable e => Err ("fstatat failed: " +:+ absPath +:+ "/" +:+ name +:+ ": " +:+ e)
             | Directory _ _ =>
                 entries ← walk lim n (Join [absPath; name]) (depth + 1) entries;
                 loop l entries
             end
         end) l entries
  | _ => Ok entries
  end.

Definition RejectSymlinkInDirTreeFd (root : string) (tree : node) (lim : WalkLimits) : res unit :=
  let lim := default_limits lim in
  match tree with
  | Unreadable e => Err ("open root failed: " +:+ root +:+ ": " +:+ e)
  | SymbolicLink => Err ("source:" +:+ root +:+ " is symlink")
  | Regular => Ok tt
  | Directory _ _ => _ ← walk lim tree (Clean root) 0 0; Ok tt
  end.

(** ** Lemmas and properties *)

(** *** Where *)

Lemma trimPrefix_slash dest :
  trimPrefix dest "/" = match dest with
                        | String c d => if Ascii.eqb "/"%char c then d else dest
                        | EmptyString => ""
                        end.
Proof.
  destruct dest as [|c d]; [done|]. unfold trimPrefix. cbn [hasPrefix]. rewrite andb_true_r.
  by destruct (Ascii.eqb "/"%char c).
Qed.

Lemma render_rel_climbs l : elements_ok false l -> l <> [] ->
  String.eqb (render false l) "." = false /\
  (hasPrefix (render false l) "../" || String.eqb (render false l) ".." = true <->
   exists k, l = ".." :: k).
Proof.
  intros Hl Hne. pose proof (elements_ok_no_slash _ _ Hl) as Hs.
  destruct l as [|e k]; [done|]. unfold render. pose proof (Forall_cons_1 _ _ _ Hs) as [He _].
  assert (forall d, no_slash d -> join "/" (e :: k) = d -> e = d /\ k = []) as Hone.
  { intros d Hd Hj. assert (split "/"%char (join "/" (e :: k)) = [d]) as H
      by by rewrite Hj, split_one.
    rewrite split_join in H by done. by simplify_eq. }
  split.
  - apply String.eqb_neq. intros [-> ->]%Hone; [|done].
    destruct Hl as (ups & names & Heq & Hu & Hn & _). destruct ups as [|u ups]; simplify_eq/=.
    + by apply Forall_cons in Hn as [? _].
    + by apply Forall_cons in Hu as [? _].
  - rewrite orb_true_iff, String.eqb_eq. split.
    + intros [H|[-> ->]%Hone]; [|by eauto|done]. apply hasPrefix_join_slash in H as ->; eauto.
    + intros [k' [= -> ->]]. destruct k' as [|x k']; [by right|]. left.
      rewrite join_cons2. by cbn [hasPrefix].
Qed.

(** A destination is accepted only where it is: with a root other than [/],
    [SecurePath] gives the cleaned destination appended to the cleaned root, and
    refuses exactly the destinations that climb out of it or name the root
    itself by a relative path. *)
Theorem SecurePath_spec rootfs dest :
  IsAbs rootfs = true -> elements rootfs <> [] ->
  let rel := trimPrefix dest "/" in
  if IsAbs rel || match elements rel with [] => false | e :: _ => negb (String.eqb e "..") end
  then SecurePath rootfs dest = Ok (render true (elements rootfs ++ elements rel)) /\
       Forall (fun e => name_ok e = true) (elements rel)
  else SecurePath rootfs dest = Err ("invalid destination: " +:+ quoted dest).
Proof.
  intros Hr Hne rel. unfold SecurePath. fold rel.
  assert (forall l, Forall (fun e => name_ok e = true) l -> Forall no_slash l) as Hns.
  { intros l H. eapply Forall_impl; [exact H|]. apply name_ok_no_slash. }
  assert (forall c, Forall (fun e => name_ok e = true) (elements rel) ->
    fold_left (clean_element true) (split "/"%char c) (rev (elements rootfs)) =
      rev (elements rel) ++ rev (elements rootfs) ->
    let fullPath := Join [rootfs; c] in
    (if negb (hasPrefix (fullPath +:+ "/") (Clean rootfs +:+ "/")) &&
        negb (String.eqb fullPath (Clean rootfs))
     then Err ("destination escapes rootfs: " +:+ quoted dest +:+ " -> " +:+ quoted fullPath)
     else Ok fullPath) = Ok (render true (elements rootfs ++ elements rel))) as Hfull.
  { intros c Hn Hfold fullPath. destruct (elements_Join_abs rootfs [c] Hr) as [Ha He].
    cbn [mbind list_bind] in He. rewrite app_nil_r, Hfold, rev_app_distr, !rev_involutive in He.
    assert (fullPath = render true (elements rootfs ++ elements rel)) as Hfp.
    { unfold fullPath. rewrite <- He, <- Clean_abs by done. cbn [Join].
      rewrite IsAbs_nonempty by done. by rewrite Clean_idem. }
    assert (hasPrefix (fullPath +:+ "/") (Clean rootfs +:+ "/") = true) as ->.
    { rewrite <- hasPrefix_same_or_below. rewrite <- (Clean_idem rootfs).
      replace fullPath with (Clean fullPath).
      - apply same_or_below_elements; rewrite ?IsAbs_Clean, ?elements_Clean; try done.
        fold fullPath in He. rewrite He. by exists (elements rel).
      - unfold fullPath. cbn [Join]. rewrite IsAbs_nonempty by done. apply Clean_idem. }
    cbn [negb andb]. by rewrite Hfp. }
  destruct (IsAbs rel) eqn:Eabs; cbn [orb].
  - pose proof (elements_abs_names rel Eabs) as Hn. split; [|done].
    rewrite Clean_abs by done.
    assert (String.eqb (render true (elements rel)) "." || hasPrefix (render true (elements rel)) "../"
      || String.eqb (render true (elements rel)) ".." = false) as -> by done.
    apply Hfull; [done|]. unfold render.
    change ("/" +:+ join "/" (elements rel))%string with ("" +:+ String "/" (join "/" (elements rel)))%string.
    rewrite split_app. cbn [split app fold_left clean_element String.eqb orb].
    destruct (elements rel) as [|e l] eqn:E; [done|].
    rewrite split_join, clean_fold_names by auto. done.
  - pose proof (elements_are_ok rel) as Hok. rewrite Eabs in Hok.
    assert (Clean rel = render false (elements rel)) as HC by (unfold Clean; by rewrite Eabs).
    cbv zeta. rewrite HC.
    destruct (elements rel) as [|e l] eqn:E; [done|].
    destruct (render_rel_climbs (e :: l) Hok) as [Hdot Hclimb]; [done|].
    rewrite Hdot. cbn [orb].
    destruct (String.eqb_spec e "..") as [->|He]; cbn [negb].
    + assert (hasPrefix (render false (".." :: l)) "../" || String.eqb (render false (".." :: l)) ".." = true)
        as -> by (apply Hclimb; eauto). done.
    + assert (hasPrefix (render false (e :: l)) "../" || String.eqb (render false (e :: l)) ".." = false) as ->.
      { apply not_true_is_false. intros [k [= -> _]]%Hclimb. done. }
      destruct Hok as (ups & names & Heq & Hu & Hn & _).
      destruct ups as [|u ups]; [|simplify_eq/=; by apply Forall_cons in Hu as [? _]].
      cbn [app] in Heq. subst names. split; [|done].
      apply Hfull; [done|]. unfold render.
      rewrite split_join, clean_fold_names by auto. done.
Qed.

Example SecurePath_spec_example :
  SecurePath "/srv/merged" "/a/../data/./x" = Ok "/srv/merged/data/x" /\
  is_ok (SecurePath "/srv/merged" "/../etc") = false.
Proof.
  split.
  - exact (proj1 (SecurePath_spec "/srv/merged" "/a/../data/./x" eq_refl ltac:(discriminate))).
  - assert (SecurePath "/srv/merged" "/../etc" = _) as -> by
      exact (SecurePath_spec "/srv/merged" "/../etc" eq_refl ltac:(discriminate)).
    reflexivity.
Qed.

(** The root itself is refused when it is written [/], not when it is written
    [//]. *)
Example SecurePath_root :
  is_ok (SecurePath "/srv/merged" "/") = false /\
  SecurePath "/srv/merged" "//" = Ok "/srv/merged" /\
  SecurePath "/srv/merged" "//.." = Ok "/srv/merged".
Proof. done. Qed.

(** With [/] as the root every destination is refused. *)
Example SecurePath_slash : is_ok (SecurePath "/" "/data") = false.
Proof. reflexivity. Qed.

(** *** What *)

(** [inside p d]: the path [p] is the directory [d] or in it. *)
Definition inside (p d : string) : Prop := elements d `prefix_of` elements p.

(** The root, or one of the reserved directories. *)
Definition reserved (dirs : list string) (p : string) : Prop :=
  elements p = [] \/ exists d, d ∈ dirs /\ inside p d.

Lemma in_list_inside dirs p :
  IsAbs p = true ->
  Forall (fun d => IsAbs d = true /\ elements d <> [] /\ Clean d = d) dirs ->
  in_list dirs (Clean p) = true <-> exists d, d ∈ dirs /\ inside p d.
Proof.
  intros Hp. induction 1 as [|d dirs (Hd & Hne & Hc) _ IH]; simpl.
  - split; [done|]. intros (d & Hd%not_elem_of_nil & _). done.
  - rewrite orb_true_iff, IH. rewrite <- Hc at 1.
    rewrite same_or_below_elements by done. setoid_rewrite elem_of_cons. unfold inside.
    split; [|naive_solver]. intros [H|(x & Hx & H)]; eauto.
Qed.

Lemma IsUnderPath_inside p d :
  IsAbs p = true -> IsAbs d = true -> elements d <> [] -> IsUnderPath p d = true <-> inside p d.
Proof. apply same_or_below_elements. Qed.

Lemma Clean_slash p : IsAbs p = true -> String.eqb (Clean p) "/" = true <-> elements p = [].
Proof.
  intros Hp. rewrite String.eqb_eq. rewrite Clean_abs by done. split; [|by intros ->].
  intros H. apply (f_equal elements) in H. rewrite elements_render in H; [done|].
  apply names_elements_ok, elements_abs_names, Hp.
Qed.

Lemma denied_source_reserved p : IsAbs p = true ->
  HasDeniedSource p = true <-> reserved denied_sources p.
Proof.
  intros Hp. unfold HasDeniedSource, reserved. rewrite orb_true_iff, Clean_slash by done.
  rewrite in_list_inside; [done|done|]. by repeat constructor.
Qed.
Lemma denied_destination_reserved p : IsAbs p = true ->
  HasDeniedDestination p = true <-> reserved denied_destinations p.
Proof.
  intros Hp. unfold HasDeniedDestination, reserved. rewrite orb_true_iff, Clean_slash by done.
  rewrite in_list_inside; [done|done|]. by repeat constructor.
Qed.

(** A bind mount between absolute paths is allowed if and only if its options
    are, its source is no reserved directory of the host unless it is a managed
    volume, or a device and devices are asked for, and its destination no
    reserved directory of the container with the same exception; what counts is
    where the paths lead, not how they are spelled. *)
Theorem ValidateUserMount_correct m :
  IsAbs (Source m) = true -> IsAbs (Destination m) = true ->
  IsAllowedKernelMountType (m_Type m) = false ->
  ValidateUserMount m = Ok tt <->
    IsAllowedType (m_Type m) (Options m) = true /\
    (reserved denied_sources (Source m) ->
       inside (Source m) "/etc/raind/volume/pvc" \/
       ("dev" ∈ Options m /\ inside (Source m) "/dev")) /\
    (reserved denied_destinations (Destination m) ->
       "dev" ∈ Options m /\ inside (Destination m) "/dev").
Proof.
  intros Hs Hd Hk. rewrite <- denied_source_reserved, <- denied_destination_reserved by done.
  rewrite <- !IsUnderPath_inside by done. rewrite <- one_of_elem.
  unfold ValidateUserMount, IsAllowedRuntimeVolumeSource, HasMountOption. rewrite Hk.
  destruct (IsAllowedType _ _); cbn [negb]; [|naive_solver].
  destruct (HasDeniedSource _), (HasDeniedDestination _), (one_of _ "dev"),
    (IsUnderPath (Source m) "/dev"), (IsUnderPath (Destination m) "/dev"),
    (IsUnderPath (Source m) "/etc/raind/volume/pvc"); cbn; naive_solver.
Qed.

Example ValidateUserMount_correct_witness :
  ~ ValidateUserMount {| Destination := "/mnt"; m_Type := "bind"; Source := "/var/../proc/1";
                         Options := ["ro"] |} = Ok tt.
Proof.
  intros H. apply ValidateUserMount_correct in H as (_ & H & _); [|reflexivity..].
  destruct H as [[k H]|[H _]].
  - right. exists "/proc". split; [apply list_elem_of_here|]. exists ["1"]. reflexivity.
  - vm_compute in H. discriminate H.
  - apply one_of_elem in H. vm_compute in H. discriminate H.
Defined.

(** Two ways past the checks: a relative source is compared as it is written, and
    the destination of a file system of the kernel is not looked at. *)
Example ValidateUserMount_gaps :
  ValidateUserMount {| Destination := "/mnt"; m_Type := "bind"; Source := "../../proc";
                       Options := [] |} = Ok tt /\
  ValidateUserMount {| Destination := "//"; m_Type := "tmpfs"; Source := "tmpfs";
                       Options := [] |} = Ok tt /\
  ValidateUserMount {| Destination := "/proc"; m_Type := "tmpfs"; Source := "tmpfs";
                       Options := [] |} = Ok tt.
Proof. done. Qed.

(** *** How *)

Section secure_mount.
Context {St W : Type} {P : Peers sys W}.

Lemma do_ok c (w : world St sys W) w' :
  do c w = (Ok tt, w') -> trace w' = trace w ++ [c].
Proof.
  unfold do. intros (s & w1 & Hc & [= <-])%bind_ok.
  pose proof (call_trace c w) as Ht. by rewrite Hc in Ht.
Qed.

Definition hardened (flags : Z) (allowDevice : bool) : Z :=
  flag_or ([MS_BIND; MS_REMOUNT; MS_NOEXEC; MS_NOSUID] ++
    (if allowDevice then [] else [MS_NODEV]) ++
    (if has_flag flags MS_RDONLY then [MS_RDONLY] else [])).

Lemma hardened_flags flags allowDevice :
  has_flag (hardened flags allowDevice) MS_REMOUNT = true /\
  has_flag (hardened flags allowDevice) MS_NOSUID = true /\
  has_flag (hardened flags allowDevice) MS_NOEXEC = true /\
  has_flag (hardened flags allowDevice) MS_NODEV = negb allowDevice /\
  has_flag (hardened flags allowDevice) MS_RDONLY = has_flag flags MS_RDONLY.
Proof. unfold hardened. destruct allowDevice, (has_flag flags MS_RDONLY); done. Qed.

(** A bind mount that is made is remounted at once without set-user-id bits
    and programs, without devices unless they were asked for, and read-only when
    that was asked for; every mount is then made private. *)
Theorem SecureMount_hardens source target fstype flags data allowDevice (w w' : world St sys W) :
  SecureMount source target fstype flags data allowDevice w = (Ok tt, w') ->
  exists remount,
    trace w' = trace w ++
      [Mount source target (if String.eqb fstype "bind" then "" else fstype) flags data] ++
      remount ++ [Mount "" target "" (Z.lor MS_PRIVATE MS_REC) ""] /\
    if has_flag flags MS_BIND
    then exists f, remount = [Mount "" target "" f ""] /\
      has_flag f MS_REMOUNT = true /\ has_flag f MS_NOSUID = true /\
      has_flag f MS_NOEXEC = true /\ has_flag f MS_NODEV = negb allowDevice /\
      has_flag f MS_RDONLY = has_flag flags MS_RDONLY
    else remount = [].
Proof.
  unfold SecureMount. cbv zeta.
  assert (forall s, String.eqb (if String.eqb s "bind" then "" else s) "bind" = false) as Hb.
  { intros s. destruct (String.eqb s "bind") eqn:E; [done|exact E]. }
  rewrite Hb. cbn [orb]. intros ([] & w1 & H1 & H)%bind_ok.
  apply bind_ok in H as ([] & w2 & H2 & H3).
  apply do_ok in H1, H3. rewrite H3. change (flag_or [MS_PRIVATE; MS_REC]) with (Z.lor MS_PRIVATE MS_REC).
  destruct (has_flag flags MS_BIND); unfold when in H2.
  - apply do_ok in H2. rewrite H2, H1, <- !app_assoc. eexists. split; [done|].
    exists (hardened flags allowDevice). split; [done|]. apply hardened_flags.
  - injection H2 as <-. rewrite H1, <- app_assoc. by exists [].
Qed.

(** Whatever comes of it, the calls are mounts on the target. *)
Lemma only_SecureMount (Q : sys -> Prop) source target fstype flags data allowDevice :
  Q (Mount source target (if String.eqb fstype "bind" then "" else fstype) flags data) ->
  (forall f, Q (Mount "" target "" f "")) ->
  only Q (SecureMount (St := St) source target fstype flags data allowDevice).
Proof.
  intros HQ Hr. unfold SecureMount. cbv zeta. apply only_bind; [by apply only_do|]. intros _.
  apply only_bind; [|intros _; by apply only_do]. apply only_when. intros _. by apply only_do.
Qed.
End secure_mount.

Example SecureMount_hardens_witness :
  exists remount,
    [Mount "/srv/a" "/r/a" "" MS_BIND ""; Mount "" "/r/a" "" (hardened MS_BIND false) "";
     Mount "" "/r/a" "" (Z.lor MS_PRIVATE MS_REC) ""] =
    [] ++ [Mount "/srv/a" "/r/a" "" MS_BIND ""] ++ remount ++
      [Mount "" "/r/a" "" (Z.lor MS_PRIVATE MS_REC) ""] /\
    exists f, remount = [Mount "" "/r/a" "" f ""] /\ has_flag f MS_NOSUID = true.
Proof.
  set (w := {| store := tt; faults := []; times := []; ids := []; trace := []; inner := tt |}
        : world unit sys unit).
  destruct (@SecureMount_hardens unit unit (fun _ i => (Ok "", i)) "/srv/a" "/r/a" "bind" MS_BIND ""
    false w _ eq_refl) as (remount & H & f & Hr & _ & Hs & _).
  exists remount. split; [exact H|]. by exists f.
Defined.

(** *** Symbolic links *)

Definition dot (name : string) : bool := String.eqb name "." || String.eqb name "..".

(** [reaches n p m]: [m] is at the path [p] below [n]. *)
Inductive reaches : node -> list string -> node -> Prop :=
  | reaches_here n : reaches n [] n
  | reaches_down l rest name n p m :
      (name, n) ∈ l -> dot name = false -> reaches n p m -> reaches (Directory l rest) (name :: p) m.

(** The number of names below. *)
Fixpoint names_below (n : node) : Z :=
  match n with
  | Directory l _ =>
      (fix sum (l : list (string * node)) : Z :=
         match l with
         | [] => 0
         | (name, n) :: l => (if dot name then 0 else 1 + names_below n) + sum l
         end) l
  | _ => 0
  end.

Fixpoint node_induction (Q : node -> Prop) (HR : Q Regular) (HS : Q SymbolicLink)
    (HU : forall e, Q (Unreadable e))
    (HD : forall l rest, Forall (fun kv => Q kv.2) l -> Q (Directory l rest)) (n : node) : Q n :=
  match n with
  | Regular => HR
  | SymbolicLink => HS
  | Unreadable e => HU e
  | Directory l rest => HD l rest
      ((fix all (l : list (string * node)) : Forall (fun kv => Q kv.2) l :=
          match l with
          | [] => @Forall_nil_2 _ _
          | kv :: l => @Forall_cons_2 _ _ kv l (node_induction Q HR HS HU HD kv.2) (all l)
          end) l)
  end.

(** What a walk from [n] at a depth accepts at the path [p]. *)
Definition fine (lim : WalkLimits) (depth : Z) (p : list string) (m : node) : Prop :=
  match m with
  | Regular => True
  | Directory _ rest => rest = None /\ depth + Z.of_nat (length p) <= MaxDepth lim
  | _ => False
  end.

Lemma walk_directory lim l rest absPath depth entries :
  walk lim (Directory l rest) absPath depth entries =
    if MaxDepth lim <? depth
    then Err ("mount source tree too deep: " +:+ absPath +:+ " (depth>" +:+
              itoa (MaxDepth lim) +:+ ")") else
    (fix loop (l : list (string * node)) (entries : Z) : res Z :=
       match l with
       | [] => match rest with
               | Some e => Err ("readdir failed: " +:+ absPath +:+ ": " +:+ e)
               | None => Ok entries
               end
       | (name, n) :: l =>
           if String.eqb name "." || String.eqb name ".." then loop l entries else
           let entries := entries + 1 in
           if MaxEntries lim <? entries
           then Err ("mount source tree too large: " +:+ absPath +:+ " (entries>" +:+
                     itoa (MaxEntries lim) +:+ ")") else
           match n with
           | Regular => loop l entries
           | SymbolicLink => Err ("symlink found under mount source: " +:+ Join [absPath; name])
           | Unreadable e => Err ("fstatat failed: " +:+ absPath +:+ "/" +:+ name +:+ ": " +:+ e)
           | Directory _ _ =>
               entries ← walk lim n (Join [absPath; name]) (depth + 1) entries;
               loop l entries
           end
       end) l entries.
Proof. reflexivity. Qed.

Lemma names_below_pos n : 0 <= names_below n.
Proof.
  induction n as [| | |l rest IH] using node_induction; simpl; try lia.
  induction IH as [|[name n] l Hn _ IH]; [lia|]. cbn [snd] in Hn. destruct (dot name); lia.
Qed.

Lemma reaches_cons name n l rest p m :
  reaches (Directory ((name, n) :: l) rest) p m <->
    (p = [] /\ m = Directory ((name, n) :: l) rest) \/
    (dot name = false /\ exists q, p = name :: q /\ reaches n q m) \/
    (p <> [] /\ reaches (Directory l rest) p m).
Proof.
  split.
  - intros H. inversion H; subst; [by left|]. right.
    rename select (_ ∈ _ :: _) into Hin. apply elem_of_cons in Hin as [[= -> ->]|Hin]; [left; eauto|].
    right. split; [done|]. by econstructor.
  - intros [[-> ->]|[(Hd & q & -> & Hr)|[Hp Hr]]].
    + constructor.
    + econstructor; [by left|done..].
    + inversion Hr; subst; [done|]. econstructor; [by right|done..].
Qed.

(** A tree is accepted if and only if no symbolic link can be reached in it,
    everything in it could be read, and it is within the limits of depth and
    size; the count returned is that of its entries. *)
Theorem walk_correct lim n absPath depth entries k :
  entries <= MaxEntries lim ->
  match n with Directory _ _ => True | _ => False end ->
  walk lim n absPath depth entries = Ok k <->
    (forall p m, reaches n p m -> fine lim depth p m) /\
    k = entries + names_below n /\ k <= MaxEntries lim.
Proof.
  intros He Hn. revert absPath depth entries k He.
  induction n as [| | |l rest IH] using node_induction; try done. clear Hn.
  intros absPath depth entries k He. rewrite walk_directory.
  destruct (Z.ltb_spec (MaxDepth lim) depth) as [Hdeep|Hdeep].
  { split; [done|]. intros (H & _). specialize (H [] _ (reaches_here _)). simpl in H. lia. }
  revert entries He k. induction IH as [|[name n] l Hn _ IHl]; intros entries He k.
  - cbn [names_below]. destruct rest as [e|].
    + split; [done|]. intros (H & _). by specialize (H [] _ (reaches_here _)) as [? _].
    + split.
      * intros [= <-]. split; [|lia]. intros p m H. inversion H; subst; simpl; [split; [done|lia]|].
        by rename select (_ ∈ []) into Hin; apply not_elem_of_nil in Hin.
      * intros (_ & -> & _). f_equal. lia.
  - cbn [snd] in Hn. cbv zeta. fold (dot name).
    assert (names_below (Directory ((name, n) :: l) rest) =
      (if dot name then 0 else 1 + names_below n) + names_below (Directory l rest)) as -> by done.
    pose proof (names_below_pos n) as Hpn. pose proof (names_below_pos (Directory l rest)) as Hpl.
    set (loop := fix loop (l : list (string * node)) (entries : Z) : res Z := _) in *.
    assert ((forall p m, reaches (Directory ((name, n) :: l) rest) p m -> fine lim depth p m) <->
      (dot name = false -> forall p m, reaches n p m -> fine lim (depth + 1) p m) /\
      (forall p m, reaches (Directory l rest) p m -> fine lim depth p m)) as Hsplit.
    { setoid_rewrite reaches_cons. split.
      - intros H. split.
        + intros Hd p m Hr. assert (fine lim depth (name :: p) m) as Hf by (apply H; right; left; eauto).
          destruct m; simpl in *; [done..|]. split; [easy|lia].
        + intros p m Hr. destruct p as [|x p]; [|by apply H; right; right].
          inversion Hr; subst. specialize (H [] _ (or_introl (conj eq_refl eq_refl))). exact H.
      - intros [H1 H2] p m [[-> ->]|[(Hd & q & -> & Hr)|[_ Hr]]]; [| |by apply H2].
        + exact (H2 [] _ (reaches_here _)).
        + specialize (H1 Hd _ _ Hr). destruct m; simpl in *; [done..|]. split; [easy|lia]. }
    rewrite Hsplit. destruct (dot name) eqn:Ed.
    { rewrite (IHl entries He k). split; intros (H1 & H2 & H3); [|by destruct H1].
      repeat split; [done|done|lia|done]. }
    destruct (Z.ltb_spec (MaxEntries lim) (entries + 1)) as [Hm|Hm].
    { split; [done|]. intros (_ & -> & H). lia. }
    destruct n as [| |e|l' rest'].
    + fold loop. rewrite (IHl (entries + 1) Hm k). cbn [names_below]. split.
      * intros (H1 & -> & H3). repeat split; [|done|lia|lia]. intros _ p m Hr.
        inversion Hr; subst. done.
      * intros ((_ & H1) & -> & H3). repeat split; [done|lia|lia].
    + split; [done|]. intros ((H & _) & _). destruct (H eq_refl [] _ (reaches_here _)).
    + split; [done|]. intros ((H & _) & _). destruct (H eq_refl [] _ (reaches_here _)).
    + rewrite res_bind_ok. split.
      * intros (k1 & H1 & H2). apply Hn in H1 as (Hf & -> & Hle); [|done|done].
        apply IHl in H2 as (Hf' & -> & Hle'); [|done].
        repeat split; [done|done|lia|done].
      * intros ((H1 & H2) & -> & H3). exists (entries + 1 + names_below (Directory l' rest')). split.
        -- apply Hn; [done|done|]. repeat split; [by apply H1|lia].
        -- apply IHl; [lia|]. repeat split; [done|lia|lia].
Qed.

Example walk_correct_witness :
  walk {| MaxDepth := 1; MaxEntries := 10 |}
    (Directory [(".", Directory [] None); ("a", Directory [("b", Regular)] None)] None) "/s" 0 0 = Ok 2 /\
  forall k, walk {| MaxDepth := 1; MaxEntries := 10 |}
    (Directory [("a", Directory [("b", SymbolicLink)] None)] None) "/s" 0 0 <> Ok k.
Proof.
  split; [reflexivity|]. intros k H. apply walk_correct in H as (H & _); [|reflexivity || (compute; discriminate)|exact I].
  apply (H ["a"; "b"] SymbolicLink).
  apply (reaches_down _ _ _ (Directory [("b", SymbolicLink)] None)); [apply list_elem_of_here|done|].
  apply (reaches_down _ _ _ SymbolicLink); [apply list_elem_of_here|done|apply reaches_here].
Defined.
