(* ===== verification/RuntimeNs.v ===== *)
(** * Namespaces and identifiers of a container
      ([droplet/container/namespace], [droplet/container/rootless/config.go])

    Which namespaces the first process of a container gets or joins, and how its
    users are mapped to users of the host. *)

From Stdlib Require Import ZArith Lia Ascii String.
From stdpp Require Import base gmap strings list.
From S2P Require Import Prelude.
From S2P Require Import GoString.
From S2P Require Import GoPath.
From S2P Require Import GoNumber.
From S2P Require Import RuntimeSpec.
From S2P Require Import Kernel.
Open Scope Z_scope.

(** ** Rootless containers ([rootless/config.go]) *)

Record IDMapPolicy := {
  mode : string;
  uidBase : Z;
  gidBase : Z;
  mapSize : Z;
  rootUID : Z;
  rootGID : Z
}.

Record Plan := {
  Config_ : RootlessConfigObject;
  p_Enabled : bool;
  Nested : bool;
  Policy : IDMapPolicy;
  p_HostRootUID : Z;
  p_HostRootGID : Z
}.

Definition empty_plan : Plan :=
  {| Config_ := {| Enabled := false; Mode := ""; HostRootUID := 0; HostRootGID := 0 |};
     p_Enabled := false; Nested := false;
     Policy := {| mode := ""; uidBase := 0; gidBase := 0; mapSize := 0; rootUID := 0; rootGID := 0 |};
     p_HostRootUID := 0; p_HostRootGID := 0 |}.

Definition ModeOrDefault (mode : string) : string :=
  if String.eqb mode RootlessModeLoginRoot then RootlessModeLoginRoot else RootlessModeShiftedRoot.

Definition set_mode (cfg : RootlessConfigObject) : RootlessConfigObject :=
  {| Enabled := Enabled cfg; Mode := ModeOrDefault (Mode cfg);
     HostRootUID := HostRootUID cfg; HostRootGID := HostRootGID cfg |}.

Definition HostRootID (p : IDMapPolicy) : Z * Z :=
  if String.eqb (mode p) RootlessModeLoginRoot then (rootUID p, rootGID p)
  else (uidBase p, gidBase p).

Definition map_id_with (what path : string) (p : IDMapPolicy) (base root id : Z) : res Z :=
  if (id <? 0) || (mapSize p <=? id)
  then Err (what +:+ " outside rootless map: path=" +:+ path +:+ " " +:+ what +:+ "=" +:+ itoa id +:+
            " map_size=" +:+ itoa (mapSize p)) else
  if String.eqb (mode p) RootlessModeLoginRoot
  then if id =? 0 then Ok root else Ok (base + id - 1)
  else Ok (base + id).
Definition MapUID (p : IDMapPolicy) (path : string) (uid : Z) : res Z :=
  map_id_with "uid" path p (uidBase p) (rootUID p) uid.
Definition MapGID (p : IDMapPolicy) (path : string) (gid : Z) : res Z :=
  map_id_with "gid" path p (gidBase p) (rootGID p) gid.

Definition ShiftIDs (p : IDMapPolicy) (path : string) (uid gid : Z) : res (Z * Z) :=
  shiftedUID ← MapUID p path uid;
  shiftedGID ← MapGID p path gid;
  Ok (shiftedUID, shiftedGID).

Definition NewIDMapPolicy (m : string) (ub gb size ru rg : Z) : IDMapPolicy :=
  {| mode := ModeOrDefault m; uidBase := ub; gidBase := gb; mapSize := size;
     rootUID := ru; rootGID := rg |}.

Definition IsNonInitialUserNamespace (uidMap : string) : bool :=
  (fix loop (lines : list string) : bool :=
     match lines with
     | [] => false
     | line :: lines =>
         match fields line with
         | f0 :: f1 :: _ :: _ =>
             match ParseUint f0 with
             | Ok 0 => match ParseUint f1 with
                       | Ok hostID => negb (hostID =? 0)
                       | _ => false
                       end
             | _ => loop lines
             end
         | _ => loop lines
         end
     end) (split "010"%char uidMap).

Definition UserNamespaceDiffersFromInit (selfUIDMap initUIDMap : string) : bool :=
  let self := trimSpace selfUIDMap in
  let init := trimSpace initUIDMap in
  negb (String.eqb self "") && negb (String.eqb init "") && negb (String.eqb self init).

Section rootless.
(** [os.Getenv], [os.Getuid], [os.Getgid], the files [/proc/self/uid_map] and
    [/proc/1/uid_map], and the JSON decoder of the annotation. *)
Context (Getenv : string -> string) (Getuid Getgid : Z)
  (self_uid_map init_uid_map : res string)
  (json_rootless : string -> res RootlessConfigObject).

Definition envInt (name : string) (fallback : Z) : Z :=
  let value := Getenv name in
  if String.eqb value "" then fallback else
  match Atoi value with
  | Ok parsed => if parsed <=? 0 then fallback else parsed
  | _ => fallback
  end.

Definition rootlessIDMapConfig : Z * Z * Z :=
  (envInt "RAIND_ROOTLESS_UID_BASE" 100000, envInt "RAIND_ROOTLESS_GID_BASE" 100000,
   envInt "RAIND_ROOTLESS_ID_MAP_SIZE" 65536).

Definition IDMapPolicyFromConfig (cfg : RootlessConfigObject) : IDMapPolicy :=
  let '(ub, gb, size) := rootlessIDMapConfig in
  let m := ModeOrDefault (Mode cfg) in
  if String.eqb m RootlessModeLoginRoot
  then {| mode := m; uidBase := ub; gidBase := gb; mapSize := size;
          rootUID := if HostRootUID cfg <=? 0 then Getuid else HostRootUID cfg;
          rootGID := if HostRootGID cfg <=? 0 then Getgid else HostRootGID cfg |}
  else {| mode := m; uidBase := ub; gidBase := gb; mapSize := size; rootUID := ub; rootGID := gb |}.

Definition CurrentUserNamespaceDiffersFromInit : bool :=
  match self_uid_map, init_uid_map with
  | Ok self, Ok init => UserNamespaceDiffersFromInit self init
  | _, _ => false
  end.

Definition ConfigFromAnnotation (a : AnnotationObject) : option RootlessConfigObject :=
  if String.eqb (Rootless a) "" then None else
  match json_rootless (Rootless a) with
  | Ok cfg => if Enabled cfg then Some (set_mode cfg) else None
  | _ => None
  end.
Definition ConfigFromSpec (s : Spec) : option RootlessConfigObject :=
  ConfigFromAnnotation (Annotations s).
Definition IsAnnotation (a : AnnotationObject) : bool :=
  match ConfigFromAnnotation a with Some _ => true | None => false end.
Definition IsSpec (s : Spec) : bool := IsAnnotation (Annotations s).

Definition PlanFromConfig (cfg : RootlessConfigObject) : Plan :=
  if negb (Enabled cfg) then empty_plan else
  let cfg := set_mode cfg in
  let policy := IDMapPolicyFromConfig cfg in
  {| Config_ := cfg; p_Enabled := true; Nested := CurrentUserNamespaceDiffersFromInit;
     Policy := policy; p_HostRootUID := (HostRootID policy).1;
     p_HostRootGID := (HostRootID policy).2 |}.
Definition PlanFromSpec (s : Spec) : Plan :=
  match ConfigFromSpec s with Some cfg => PlanFromConfig cfg | None => empty_plan end.
End rootless.

Definition ShouldPrepareHostResources (p : Plan) : bool := negb (p_Enabled p) || negb (Nested p).
Definition ShouldPrepareHostOwnedFiles (p : Plan) : bool := p_Enabled p && negb (Nested p).
Definition ShouldPrejoinNamespaces (p : Plan) (hasJoinTargets : bool) : bool :=
  p_Enabled p && hasJoinTargets.

(** ** Namespaces ([namespace_linux.go]) *)

(** The pair of fields [x] and [xPath] of the Go [Config]. *)
Record nsreq := { fresh : bool; path : string }.

Record Config := {
  mount : nsreq; network : nsreq; uts : nsreq; pid : nsreq;
  ipc : nsreq; user : nsreq; cgroup : nsreq; time : nsreq
}.

Definition no_ns : nsreq := {| fresh := false; path := "" |}.
Definition no_config : Config :=
  {| mount := no_ns; network := no_ns; uts := no_ns; pid := no_ns;
     ipc := no_ns; user := no_ns; cgroup := no_ns; time := no_ns |}.

(** One entry for a namespace. *)
Definition note (p : string) (n : nsreq) : nsreq :=
  if negb (String.eqb p "") then {| fresh := false; path := p |}
  else if String.eqb (path n) "" then {| fresh := true; path := path n |} else n.

Definition BuildConfig_step (c : Config) (ns : NamespaceObject) : Config :=
  let t := ns_Type ns in
  let on (name : string) (n : nsreq) := if String.eqb t name then note (ns_Path ns) n else n in
  {| mount := on "mount" (mount c); network := on "network" (network c); uts := on "uts" (uts c);
     pid := on "pid" (pid c); ipc := on "ipc" (ipc c); user := on "user" (user c);
     cgroup := on "cgroup" (cgroup c); time := on "time" (time c) |}.

Definition BuildConfig (s : Spec) : Config :=
  fold_left BuildConfig_step (Namespaces (LinuxSpec s)) no_config.

(** [<linux/sched.h>]. *)
Definition CLONE_NEWNS : Z := 131072.
Definition CLONE_NEWCGROUP : Z := 33554432.
Definition CLONE_NEWUTS : Z := 67108864.
Definition CLONE_NEWIPC : Z := 134217728.
Definition CLONE_NEWUSER : Z := 268435456.
Definition CLONE_NEWPID : Z := 536870912.
Definition CLONE_NEWNET : Z := 1073741824.

Definition BuildCloneFlags (c : Config) : Z :=
  let flag (n : nsreq) (f acc : Z) := if fresh n then Z.lor acc f else acc in
  flag (cgroup c) CLONE_NEWCGROUP (flag (user c) CLONE_NEWUSER (flag (ipc c) CLONE_NEWIPC
    (flag (pid c) CLONE_NEWPID (flag (uts c) CLONE_NEWUTS (flag (network c) CLONE_NEWNET
      (flag (mount c) CLONE_NEWNS 0)))))).

Record JoinTarget := { name : string; jt_path : string; nstype : Z }.

Definition BuildJoinTargets (s : Spec) : list JoinTarget :=
  let c := BuildConfig s in
  let target (nm : string) (n : nsreq) (t : Z) :=
    if String.eqb (path n) "" then [] else [{| name := nm; jt_path := path n; nstype := t |}] in
  target "mount" (mount c) CLONE_NEWNS ++ target "cgroup" (cgroup c) CLONE_NEWCGROUP ++
  target "network" (network c) CLONE_NEWNET ++ target "ipc" (ipc c) CLONE_NEWIPC ++
  target "uts" (uts c) CLONE_NEWUTS.

Definition UserNamespacePath (s : Spec) : string := path (user (BuildConfig s)).

Definition PIDFromProcPath (p : string) : option Z :=
  match split "/"%char (Clean p) with
  | [_; p1; p2; p3; _] =>
      if negb (String.eqb p1 "proc") || negb (String.eqb p3 "ns") then None else
      match Atoi p2 with
      | Ok n => if n <=? 0 then None else Some n
      | _ => None
      end
  | _ => None
  end.

(** [filepath.Base]: the last element; [.] of an empty path, [/] of slashes. *)
Definition Base_of (p : string) : string :=
  let q := trim_right (fun c => Ascii.eqb c "/"%char) p in
  if String.eqb p "" then "." else
  if String.eqb q "" then "/" else List.last (split "/"%char q) "".

Section nsenter.
(** The first child of a process, from [/proc] ([FirstChildPID], then
    [ScanFirstChildPID]). *)
Context (FirstChildPID ScanFirstChildPID : Z -> option Z).

Definition ResolvePIDPath (p : string) : string :=
  if negb (String.eqb (Base_of p) "pid_for_children") then p else
  match PIDFromProcPath p with
  | None => p
  | Some parentPID =>
      match FirstChildPID parentPID with
      | Some child => "/proc/" +:+ itoa child +:+ "/ns/pid"
      | None => match ScanFirstChildPID parentPID with
                | Some child => "/proc/" +:+ itoa child +:+ "/ns/pid"
                | None => p
                end
      end
  end.

Definition PathNsenterArgs (s : Spec) : list string :=
  let c := BuildConfig s in
  let arg (flag : string) (n : nsreq) :=
    if String.eqb (path n) "" then [] else [flag +:+ path n] in
  arg "--cgroup=" (cgroup c) ++ arg "--ipc=" (ipc c) ++ arg "--mount=" (mount c) ++
  arg "--net=" (network c) ++
  (if String.eqb (path (pid c)) "" then [] else ["--pid=" +:+ ResolvePIDPath (path (pid c))]) ++
  arg "--uts=" (uts c) ++
  (if String.eqb (path (user c)) "" then []
   else ["--user=" +:+ path (user c); "--setuid=0"; "--setgid=0"]).
End nsenter.

(** *** Maps of identifiers *)

Definition idmap (container host size : Z) : IDMappingObject :=
  {| ContainerID := container; HostID := host; Size := size |}.

Definition BuildRootUserNamespaceIDMap (c : Config) : list IDMappingObject * list IDMappingObject :=
  if negb (fresh (user c)) then ([], []) else ([idmap 0 0 65535], [idmap 0 0 65535]).

Definition BuildSpecUserNamespaceIDMap (c : Config) (uids gids : list IDMappingObject)
    : list IDMappingObject * list IDMappingObject :=
  if negb (fresh (user c)) then ([], []) else (uids, gids).

Definition BuildRootlessUserNamespaceIDMap (c : Config) (policy : IDMapPolicy)
    : list IDMappingObject * list IDMappingObject :=
  if negb (fresh (user c)) then ([], []) else
  if String.eqb (mode policy) RootlessModeLoginRoot
  then ([idmap 0 (rootUID policy) 1; idmap 1 (uidBase policy) (mapSize policy - 1)],
        [idmap 0 (rootGID policy) 1; idmap 1 (gidBase policy) (mapSize policy - 1)])
  else ([idmap 0 (uidBase policy) (mapSize policy)], [idmap 0 (gidBase policy) (mapSize policy)]).

Record ProcAttr := {
  cloneFlags : Z;
  uidMap : list IDMappingObject;
  gidMap : list IDMappingObject;
  setGroupsFlag : bool;
  credential : bool  (** uid 0, gid 0 without [setgroups], if any *)
}.

Section proc_attr.
Context (Getenv : string -> string) (Getuid Getgid : Z)
  (json_rootless : string -> res RootlessConfigObject).

Definition BuildProcAttrForContainer (s : Spec) : ProcAttr :=
  let c := BuildConfig s in
  let '(uids, gids) :=
    BuildSpecUserNamespaceIDMap c (UIDMappings (LinuxSpec s)) (GIDMappings (LinuxSpec s)) in
  if (0 <? length uids)%nat || (0 <? length gids)%nat
  then {| cloneFlags := BuildCloneFlags c; uidMap := uids; gidMap := gids;
          setGroupsFlag := fresh (user c); credential := false |}
  else match ConfigFromSpec json_rootless s with
       | Some cfg =>
           let '(uids, gids) := BuildRootlessUserNamespaceIDMap c
                                  (IDMapPolicyFromConfig Getenv Getuid Getgid cfg) in
           {| cloneFlags := BuildCloneFlags c; uidMap := uids; gidMap := gids;
              setGroupsFlag := fresh (user c); credential := fresh (user c) |}
       | None =>
           let '(uids, gids) := BuildRootUserNamespaceIDMap c in
           {| cloneFlags := BuildCloneFlags c; uidMap := uids; gidMap := gids;
              setGroupsFlag := fresh (user c); credential := false |}
       end.
End proc_attr.

(** ** Properties *)

(** *** The kernel and the image agree on identifiers *)

(** What the kernel makes of an identifier, by the rows of [uid_map]. *)
Fixpoint kernel_map (rows : list IDMappingObject) (id : Z) : option Z :=
  match rows with
  | [] => None
  | r :: rows =>
      if (ContainerID r <=? id) && (id <? ContainerID r + Size r)
      then Some (HostID r + (id - ContainerID r)) else kernel_map rows id
  end.

(** C36: an identifier of a file in an image is shifted to the host identifier the
    kernel gives the same user of the container, in both modes and for users and
    groups alike; an identifier the kernel does not map is refused. *)
Theorem shift_agrees_with_kernel c policy path uid gid :
  fresh (user c) = true -> 1 <= mapSize policy ->
  (forall h, MapUID policy path uid = Ok h <->
     kernel_map (BuildRootlessUserNamespaceIDMap c policy).1 uid = Some h) /\
  (forall h, MapGID policy path gid = Ok h <->
     kernel_map (BuildRootlessUserNamespaceIDMap c policy).2 gid = Some h).
Proof.
  intros Hc Hs. unfold BuildRootlessUserNamespaceIDMap, MapUID, MapGID. rewrite Hc. cbn [negb].
  assert (forall what base root id h,
    map_id_with what path policy base root id = Ok h <->
    kernel_map (if String.eqb (mode policy) RootlessModeLoginRoot
                then [idmap 0 root 1; idmap 1 base (mapSize policy - 1)]
                else [idmap 0 base (mapSize policy)]) id = Some h) as H.
  { intros what base root id h. unfold map_id_with.
    destruct (String.eqb (mode policy) RootlessModeLoginRoot); cbn [kernel_map idmap ContainerID HostID Size].
    - destruct (Z.ltb_spec id 0), (Z.leb_spec (mapSize policy) id), (Z.leb_spec 0 id),
        (Z.ltb_spec id (0 + 1)), (Z.leb_spec 1 id), (Z.ltb_spec id (1 + (mapSize policy - 1)));
        cbn [orb andb]; try lia; try (split; done).
      + destruct (Z.eqb_spec id 0) as [->|]; [|lia]. rewrite Z.add_0_r. split; congruence.
      + destruct (Z.eqb_spec id 0); [lia|].
        replace (base + (id - 1)) with (base + id - 1) by lia. split; congruence.
    - destruct (Z.ltb_spec id 0), (Z.leb_spec (mapSize policy) id), (Z.leb_spec 0 id),
        (Z.ltb_spec id (0 + mapSize policy)); cbn [orb andb]; try lia; try (split; done).
      rewrite Z.sub_0_r. split; congruence. }
  destruct (String.eqb (mode policy) RootlessModeLoginRoot); split; intros h; apply H.
Qed.

Example shift_agrees_with_kernel_witness :
  let policy := NewIDMapPolicy "login-root" 100000 100000 65536 1000 1000 in
  MapUID policy "/etc/shadow" 33 = Ok 100032.
Proof.
  apply (proj1 (shift_agrees_with_kernel
    {| mount := no_ns; network := no_ns; uts := no_ns; pid := no_ns; ipc := no_ns;
       user := {| fresh := true; path := "" |}; cgroup := no_ns; time := no_ns |}
    (NewIDMapPolicy "login-root" 100000 100000 65536 1000 1000) "/etc/shadow" 33 0
    eq_refl ltac:(done))).
  reflexivity.
Defined.

(** Two users of a container never become one user of the host, unless the
    login user of the login-root mode is itself one of the host identifiers the
    other users are mapped to. *)
Theorem MapUID_injective policy path u v h :
  (mode policy = RootlessModeLoginRoot ->
     rootUID policy < uidBase policy \/ uidBase policy + mapSize policy - 1 <= rootUID policy) ->
  MapUID policy path u = Ok h -> MapUID policy path v = Ok h -> u = v.
Proof.
  intros Hr. unfold MapUID, map_id_with.
  destruct (Z.ltb_spec u 0), (Z.leb_spec (mapSize policy) u), (Z.ltb_spec v 0),
    (Z.leb_spec (mapSize policy) v); cbn [orb]; try done.
  destruct (String.eqb_spec (mode policy) RootlessModeLoginRoot) as [Hm|]; [|intros [= <-] [=]; lia].
  specialize (Hr Hm).
  destruct (Z.eqb_spec u 0), (Z.eqb_spec v 0); intros [= <-] [=]; lia.
Qed.

Example MapUID_injective_witness :
  let policy := NewIDMapPolicy "login-root" 100000 100000 65536 1000 1000 in
  forall v, MapUID policy "" v = Ok 1000 -> v = 0.
Proof.
  intros policy v Hv. symmetry. apply (MapUID_injective policy "" 0 v 1000); [|reflexivity|exact Hv].
  intros _. left. reflexivity.
Defined.

(** The exception: a login user inside the range is shared with user 3. *)
Example MapUID_collision :
  let policy := NewIDMapPolicy "login-root" 100000 100000 65536 100002 100002 in
  MapUID policy "" 0 = Ok 100002 /\ MapUID policy "" 3 = Ok 100002.
Proof. done. Qed.

(** *** Namespaces *)

Definition entries_of (t : string) (l : list NamespaceObject) : list string :=
  ns_Path <$> List.filter (fun ns => String.eqb (ns_Type ns) t) l.

(** The last path given, if any; a new namespace if it is listed without. *)
Definition request_of (paths : list string) : nsreq := fold_left (fun n p => note p n) paths no_ns.

Lemma BuildConfig_field (get : Config -> nsreq) (t : string) l :
  (forall c ns, get (BuildConfig_step c ns) =
     if String.eqb (ns_Type ns) t then note (ns_Path ns) (get c) else get c) ->
  forall c, get (fold_left BuildConfig_step l c) =
    fold_left (fun n p => note p n) (entries_of t l) (get c).
Proof.
  intros Hstep. unfold entries_of. induction l as [|ns l IH]; intros c; [done|].
  cbn [fold_left List.filter]. rewrite IH, Hstep.
  by destruct (String.eqb (ns_Type ns) t).
Qed.

Lemma request_of_snoc paths p : request_of (paths ++ [p]) = note p (request_of paths).
Proof. unfold request_of. by rewrite fold_left_app. Qed.

Lemma request_of_fresh paths :
  (fresh (request_of paths) = true <-> paths <> [] /\ Forall (fun p => p = "") paths) /\
  (path (request_of paths) = "" <-> Forall (fun p => p = "") paths).
Proof.
  induction paths as [|p paths [IH1 IH2]] using rev_ind; [simpl; by intuition|].
  rewrite request_of_snoc, !Forall_app, !Forall_singleton. unfold note.
  destruct (String.eqb_spec p "") as [->|Hp]; cbn [negb fresh path].
  - destruct (String.eqb_spec (path (request_of paths)) "") as [He|He]; cbn [fresh path].
    + apply IH2 in He as Hf. split; [|by rewrite He]. split; [|done].
      intros _. split; [by destruct paths|done].
    + split; [|by rewrite IH2; intuition]. rewrite IH1. split; [by intuition|].
      intros [_ [H _]]. apply IH2 in H. done.
  - split; [split; [done|]; by intros [_ [_ ?]]|]. split; [done|]. by intros [_ ?].
Qed.

Definition ns_field (t : string) (c : Config) : nsreq :=
  if String.eqb t "mount" then mount c else if String.eqb t "network" then network c
  else if String.eqb t "uts" then uts c else if String.eqb t "pid" then pid c
  else if String.eqb t "ipc" then ipc c else if String.eqb t "user" then user c
  else if String.eqb t "cgroup" then cgroup c else time c.

Lemma BuildConfig_ns s t : t ∈ namespace_types ->
  ns_field t (BuildConfig s) = request_of (entries_of t (Namespaces (LinuxSpec s))).
Proof.
  intros Ht. unfold BuildConfig.
  rewrite (BuildConfig_field (ns_field t) t).
  - unfold request_of. f_equal. unfold namespace_types in Ht.
    rewrite !elem_of_cons, elem_of_nil in Ht. by destruct_or! Ht; subst.
  - intros c ns. unfold namespace_types in Ht. rewrite !elem_of_cons, elem_of_nil in Ht.
    by destruct_or! Ht; subst.
Qed.

Definition clone_flag (t : string) : Z :=
  if String.eqb t "mount" then CLONE_NEWNS else if String.eqb t "network" then CLONE_NEWNET
  else if String.eqb t "uts" then CLONE_NEWUTS else if String.eqb t "pid" then CLONE_NEWPID
  else if String.eqb t "ipc" then CLONE_NEWIPC else if String.eqb t "user" then CLONE_NEWUSER
  else CLONE_NEWCGROUP.

Lemma BuildCloneFlags_field c t : t ∈ namespace_types -> t <> "time" ->
  has_flag (BuildCloneFlags c) (clone_flag t) = fresh (ns_field t c).
Proof.
  intros Ht Hn. unfold BuildCloneFlags.
  unfold namespace_types in Ht. rewrite !elem_of_cons, elem_of_nil in Ht.
  destruct_or! Ht; subst; unfold clone_flag, ns_field; cbn [String.eqb Ascii.eqb Bool.eqb];
    repeat match goal with |- context [fresh ?r] => destruct (fresh r) end; done.
Qed.

(** A namespace is created if and only if the specification lists it and
    gives it no path, and joined by path only if it gives one; so no namespace is
    both created and joined, whatever the order and number of its entries. *)
Theorem namespaces_created_or_joined s t :
  t ∈ namespace_types -> t <> "time" ->
  let paths := entries_of t (Namespaces (LinuxSpec s)) in
  (has_flag (BuildCloneFlags (BuildConfig s)) (clone_flag t) = true <->
     paths <> [] /\ Forall (fun p => p = "") paths) /\
  (forall j, j ∈ BuildJoinTargets s -> name j = t ->
     jt_path j <> "" /\ has_flag (BuildCloneFlags (BuildConfig s)) (clone_flag t) = false).
Proof.
  intros Ht Hn paths. rewrite BuildCloneFlags_field, BuildConfig_ns by done.
  fold paths. destruct (request_of_fresh paths) as [H1 H2]. split; [done|].
  intros j Hj Hname.
  assert (path (request_of paths) <> "" /\ jt_path j = path (request_of paths)) as [Hp ->].
  { unfold paths. rewrite <- (BuildConfig_ns s t Ht). unfold BuildJoinTargets in Hj. cbv zeta in Hj.
    rewrite !elem_of_app in Hj.
    assert (forall nm n ty, j ∈ (if String.eqb (path n) "" then [] else
      [{| name := nm; jt_path := path n; nstype := ty |}]) -> name j = nm /\ path n <> "" /\ jt_path j = path n) as Hone.
    { intros nm n ty H. destruct (String.eqb_spec (path n) "") as [|Hne]; [by apply not_elem_of_nil in H|].
      by apply list_elem_of_singleton in H as ->. }
    destruct_or! Hj; apply Hone in Hj as (Hnm & Hj); rewrite Hname in Hnm; by subst t. }
  split; [done|]. apply not_true_is_false. intros [_ Hf]%H1. by apply Hp, H2.
Qed.

Definition spec_with_namespaces (l : list NamespaceObject) : Spec :=
  {| OciVersion := ""; Root := {| root_Path := ""; root_Readonly := false |}; Mounts := [];
     Process := {| Cwd := ""; Env := []; Args := []; Terminal := false; ConsoleSize := None;
       OOMScoreAdj := None; Capabilities := {| Bounding := []; Permitted := []; Inheritable := [];
         Effective := []; Ambient := [] |};
       User := {| UID := 0; GID := 0; Umask := None; AdditionalGids := [] |}; Rlimits := [];
       NoNewPrivileges := false |};
     Hostname := "";
     LinuxSpec := {| Resources := {| MemoryLimit := 0; Cpu := {| Period := 0; Quota := 0 |};
         PidsLimit := 0; r_Devices := [] |}; CgroupsPath := ""; Namespaces := l; Devices := [];
       UIDMappings := []; GIDMappings := []; MaskedPaths := []; ReadonlyPaths := [];
       RootfsPropagation := ""; Seccomp := None; AppArmorProfile := "" |};
     Hooks := {| Prestart := []; CreateRuntime := []; CreateContainer := []; StartContainer := [];
       Poststart := []; StopContainer := []; Poststop := [] |};
     Annotations := {| Version := ""; Net := ""; Image := ""; Rootless := ""; Extra := ∅ |} |}.

Example namespaces_created_or_joined_witness :
  let s := spec_with_namespaces [ {| ns_Type := "network"; ns_Path := "/run/netns/a" |};
             {| ns_Type := "network"; ns_Path := "" |}; {| ns_Type := "pid"; ns_Path := "" |} ] in
  has_flag (BuildCloneFlags (BuildConfig s)) CLONE_NEWPID = true /\
  has_flag (BuildCloneFlags (BuildConfig s)) CLONE_NEWNET = false.
Proof.
  intros s. split.
  - apply (proj1 (namespaces_created_or_joined s "pid" ltac:(by apply one_of_elem) ltac:(done))).
    split; [discriminate|]. repeat constructor.
  - refine (proj2 (proj2 (namespaces_created_or_joined s "network" ltac:(by apply one_of_elem) ltac:(done))
      {| name := "network"; jt_path := "/run/netns/a"; nstype := CLONE_NEWNET |} _ eq_refl)).
    apply list_elem_of_here.
Defined.
