(* ===== verification/RuntimeInit.v ===== *)
(** * The first process of a container ([droplet/container/init.go])

    What the init process does between the start signal and the execution of the
    entry point: namespaces, mounts, devices, the change of root, and giving up
    privileges ([security/capability.go], [initproc/helpers.go],
    [pathenv/pathenv.go], [spechash/spechash.go]). *)

From Stdlib Require Import ZArith Lia Ascii String.
From stdpp Require Import base gmap strings list.
From S2P Require Import Prelude.
From S2P Require Import GoString.
From S2P Require Import GoPath.
From S2P Require Import World.
From S2P Require Import RuntimeSpec.
From S2P Require Import Kernel.
From S2P Require Import MountGuard.
From S2P Require Import RuntimeNs.
Open Scope Z_scope.

(** ** Paths of a container ([utils/paths.go]) *)

Section paths.
(** [RAIND_ROOT_DIR], or the default. *)
Context (root_dir : string).

Definition DefaultRootDir : string :=
  if String.eqb root_dir "" then "/etc/raind/container" else root_dir.
Definition ContainerDir (containerId : string) : string := Join [DefaultRootDir; containerId].
Definition file_of (name containerId : string) : string := Join [ContainerDir containerId; name].
Definition ConfigFilePath := file_of "config.json".
Definition ConfigFileHashPath := file_of "config_hash.json".
Definition ContainerStatePath := file_of "state.json".
Definition FifoPath := file_of "exec.fifo".
Definition SockPath := file_of "tty.sock".
Definition InitPidFilePath := file_of "init.pid".
Definition ExternalPidFileMarkerPath := file_of "external_pid_file".
Definition CgroupPath (containerId : string) : string := Join ["/sys/fs/cgroup/raind"; containerId].
End paths.

(** ** Mount options *)

Record mount_opts := {
  mo_flags : Z;
  mo_data : list string;
  bindFlag : bool;
  deviceMountFlag : bool;
  propagation : string
}.

Definition no_opts : mount_opts :=
  {| mo_flags := 0; mo_data := []; bindFlag := false; deviceMountFlag := false; propagation := "" |}.

Definition add_flag (f : Z) (o : mount_opts) : mount_opts :=
  {| mo_flags := Z.lor (mo_flags o) f; mo_data := mo_data o; bindFlag := bindFlag o;
     deviceMountFlag := deviceMountFlag o; propagation := propagation o |}.
Definition set_bind (f : Z) (o : mount_opts) : mount_opts :=
  {| mo_flags := Z.lor (mo_flags o) f; mo_data := mo_data o; bindFlag := true;
     deviceMountFlag := deviceMountFlag o; propagation := propagation o |}.

Definition propagation_options : list string :=
  ["shared"; "rshared"; "slave"; "rslave"; "private"; "rprivate"; "unbindable"; "runbindable"].

Definition apply_option (o : mount_opts) (option : string) : mount_opts :=
  if String.eqb option "nosuid" then add_flag MS_NOSUID o
  else if String.eqb option "noexec" then add_flag MS_NOEXEC o
  else if String.eqb option "nodev" then add_flag MS_NODEV o
  else if String.eqb option "dev"
  then {| mo_flags := mo_flags o; mo_data := mo_data o; bindFlag := bindFlag o;
          deviceMountFlag := true; propagation := propagation o |}
  else if String.eqb option "ro" then add_flag MS_RDONLY o
  else if String.eqb option "rw" then o
  else if String.eqb option "bind" then set_bind MS_BIND o
  else if String.eqb option "strictatime" then add_flag MS_STRICTATIME o
  else if String.eqb option "noatime" then add_flag MS_NOATIME o
  else if String.eqb option "relatime" then add_flag MS_RELATIME o
  else if String.eqb option "rbind" then set_bind (Z.lor MS_BIND MS_REC) o
  else if one_of propagation_options option
  then {| mo_flags := mo_flags o; mo_data := mo_data o; bindFlag := bindFlag o;
          deviceMountFlag := deviceMountFlag o; propagation := option |}
  else if one_of ["z"; "Z"] option then o
  else {| mo_flags := mo_flags o; mo_data := mo_data o ++ [option]; bindFlag := bindFlag o;
          deviceMountFlag := deviceMountFlag o; propagation := propagation o |}.

(** The loop and the two defaults after it. *)
Definition mount_options (m : MountObject) : mount_opts :=
  let o := fold_left apply_option (Options m) no_opts in
  let o := if String.eqb (m_Type m) "bind" && negb (bindFlag o) then set_bind MS_BIND o else o in
  if String.eqb (m_Type m) "" && negb (bindFlag o) && hasPrefix (Source m) "/"
  then set_bind MS_BIND o else o.

Definition mountPropagationFlags (p : string) : option Z :=
  if String.eqb p "shared" then Some MS_SHARED
  else if String.eqb p "rshared" then Some (Z.lor MS_SHARED MS_REC)
  else if String.eqb p "slave" then Some MS_SLAVE
  else if String.eqb p "rslave" then Some (Z.lor MS_SLAVE MS_REC)
  else if String.eqb p "private" then Some MS_PRIVATE
  else if String.eqb p "rprivate" then Some (Z.lor MS_PRIVATE MS_REC)
  else if String.eqb p "unbindable" then Some MS_UNBINDABLE
  else if String.eqb p "runbindable" then Some (Z.lor MS_UNBINDABLE MS_REC)
  else None.

(** ** The mounts every container gets *)

Definition mnt (dest ty src : string) (opts : list string) : MountObject :=
  {| Destination := dest; m_Type := ty; Source := src; Options := opts |}.

Definition defaultContainerMounts (containerId : string) : list MountObject :=
  let managed (f : string) :=
    mnt ("/etc/" +:+ f) "bind" ("/etc/raind/container/" +:+ containerId +:+ "/etc/" +:+ f)
      ["rbind"; "rprivate"] in
  [ mnt "/proc" "proc" "proc" ["nosuid"; "noexec"; "nodev"];
    mnt "/dev" "tmpfs" "tmpfs" ["nosuid"; "strictatime"; "mode=755"; "size=65536k"];
    mnt "/dev/pts" "devpts" "devpts"
      ["nosuid"; "noexec"; "newinstance"; "ptmxmode=0666"; "mode=0620"; "gid=5"];
    mnt "/sys" "sysfs" "sysfs" ["nosuid"; "noexec"; "nodev"; "ro"];
    mnt "/tmp" "tmpfs" "tmpfs" ["nosuid"; "nodev"; "mode=1777"; "size=512m"];
    mnt "/run" "tmpfs" "tmpfs" ["nosuid"; "nodev"; "mode=755"; "size=65536k"];
    mnt "/proc/sys" "tmpfs" "tmpfs" ["nosuid"; "noexec"; "nodev"; "mode=0555"; "size=0"];
    mnt "/proc/sysrq-trigger" "bind" "/dev/null" ["rbind"; "ro"];
    mnt "/sys/firmware" "tmpfs" "tmpfs" ["nosuid"; "noexec"; "nodev"; "mode=0555"; "size=0"];
    mnt "/sys/fs/bpf" "tmpfs" "tmpfs" ["nosuid"; "noexec"; "nodev"; "ro"; "mode=0555"; "size=0"];
    mnt "/sys/fs/cgroup" "cgroup2" "cgroup" ["nosuid"; "nodev"; "noexec"; "ro"];
    mnt "/dev/mqueue" "mqueue" "mqueue" ["nosuid"; "noexec"; "nodev"];
    mnt "/dev/shm" "tmpfs" "shm" ["nosuid"; "noexec"; "nodev"; "mode=1777"; "size=67108864"];
    managed "resolv.conf"; managed "hostname"; managed "hosts" ].

Definition baseMountsForMode (containerId : string) (ociBundleMode : bool) : list MountObject :=
  if ociBundleMode then [] else defaultContainerMounts containerId.

Definition isManagedEtcMount (m : MountObject) : bool :=
  if one_of ["/etc/resolv.conf"; "/etc/hostname"; "/etc/hosts"] (Clean (Destination m))
  then contains (Clean (Source m)) "/etc/" else false.

Definition filterRootlessPrejoinedMounts (mounts : list MountObject) : list MountObject :=
  List.filter (fun m =>
    let d := Clean (Destination m) in
    negb (String.eqb d "/sys" || hasPrefix d "/sys/" || String.eqb d "/dev/mqueue")) mounts.

(** ** Capabilities and limits *)

(** The names of [CapNameMap]; a capability is known by its name here. *)
Definition CapNames : list string :=
  ["CAP_CHOWN"; "CAP_DAC_OVERRIDE"; "CAP_DAC_READ_SEARCH"; "CAP_FOWNER"; "CAP_FSETID";
   "CAP_KILL"; "CAP_SETGID"; "CAP_SETUID"; "CAP_SETPCAP"; "CAP_LINUX_IMMUTABLE";
   "CAP_NET_BIND_SERVICE"; "CAP_NET_BROADCAST"; "CAP_NET_ADMIN"; "CAP_NET_RAW"; "CAP_IPC_LOCK";
   "CAP_IPC_OWNER"; "CAP_SYS_MODULE"; "CAP_SYS_RAWIO"; "CAP_SYS_CHROOT"; "CAP_SYS_PTRACE";
   "CAP_SYS_PACCT"; "CAP_SYS_ADMIN"; "CAP_SYS_BOOT"; "CAP_SYS_NICE"; "CAP_SYS_RESOURCE";
   "CAP_SYS_TIME"; "CAP_SYS_TTY_CONFIG"; "CAP_MKNOD"; "CAP_LEASE"; "CAP_AUDIT_WRITE";
   "CAP_AUDIT_CONTROL"; "CAP_SETFCAP"; "CAP_MAC_OVERRIDE"; "CAP_MAC_ADMIN"; "CAP_SYSLOG";
   "CAP_WAKE_ALARM"; "CAP_BLOCK_SUSPEND"; "CAP_AUDIT_READ"; "CAP_PERFMON"; "CAP_BPF";
   "CAP_CHECKPOINT_RESTORE"].

Definition ToCaps (names : list string) : list string := List.filter (one_of CapNames) names.

(** [<sys/resource.h>]. *)
Definition rlimit_numbers : list (string * Z) :=
  [("RLIMIT_AS", 9); ("RLIMIT_CORE", 4); ("RLIMIT_CPU", 0); ("RLIMIT_DATA", 2);
   ("RLIMIT_FSIZE", 1); ("RLIMIT_LOCKS", 10); ("RLIMIT_MEMLOCK", 8); ("RLIMIT_MSGQUEUE", 12);
   ("RLIMIT_NICE", 13); ("RLIMIT_NOFILE", 7); ("RLIMIT_NPROC", 6); ("RLIMIT_RSS", 5);
   ("RLIMIT_RTPRIO", 14); ("RLIMIT_RTTIME", 15); ("RLIMIT_SIGPENDING", 11); ("RLIMIT_STACK", 3)].

Definition RlimitResource (name : string) : option Z :=
  let n := toUpper (trimSpace name) in
  snd <$> first_match (fun kv => String.eqb kv.1 n) rlimit_numbers.

Definition S_IFIFO : Z := 4096.
Definition S_IFCHR : Z := 8192.
Definition S_IFBLK : Z := 24576.

Definition DeviceMode (d : DeviceObject) : res Z :=
  let perm := default 438 (FileMode d) in (* 0666 *)
  if one_of ["c"; "u"] (dev_Type d) then Ok (Z.lor S_IFCHR perm)
  else if String.eqb (dev_Type d) "b" then Ok (Z.lor S_IFBLK perm)
  else if String.eqb (dev_Type d) "p" then Ok (Z.lor S_IFIFO perm)
  else Err ("unsupported linux device type: " +:+ dev_Type d).

Definition ShouldSkipMissingMaskedPath (path : string) : bool :=
  hasPrefix path "/proc/" || hasPrefix path "/sys/".

Definition Default : string := "/usr/local/sbin:/usr/local/bin:/usr/sbin:/usr/bin:/sbin:/bin".
Fixpoint OrDefault (env : list string) : string :=
  match env with
  | [] => Default
  | item :: env =>
      if hasPrefix item "PATH="
      then let value := trimPrefix item "PATH=" in
           if String.eqb value "" then Default else value
      else OrDefault env
  end.

(** ** The steps of [prepare] *)

Section prepare.
Context {St W : Type} {P : Peers sys W}.
Notation M := (M St sys W).

(** [syscall.Mkdev] of golang.org/x/sys, the decoders of JSON, and whether the
    namespaces were joined before ([RAIND_NAMESPACES_PREJOINED]). *)
Context (Mkdev : Z -> Z -> Z) (json_image : string -> res ImageConfigObject)
  (json_rootless : string -> res RootlessConfigObject) (prejoined : bool).

Definition lift {A} (r : res A) : M A :=
  match r with Ok a => mret a | Err e => fail e | Panic e => crash e end.

Definition JoinExisting (s : Spec) : M unit :=
  each (fun t =>
    _ ← wrap ("open " +:+ name t +:+ " namespace") (do (Open (jt_path t)));
    wrap ("setns " +:+ name t) (do (Setns (name t) (jt_path t)))) (BuildJoinTargets s).

Definition switchToUserNamespaceRoot : M unit := _ ← do (Setresgid 0); do (Setresuid 0).

Definition ShouldSkipHostname (s : Spec) : bool :=
  negb (String.eqb (path (uts (BuildConfig s))) "") || (prejoined && IsSpec json_rootless s).

(** [envParts[1]] of an entry without the sign is out of range. *)
Definition setEnv (envlist : list string) : M unit :=
  each (fun e => match cut "="%char e with
                 | Some (k, v) => do (Setenv k v)
                 | None => crash "index out of range [1] with length 1"
                 end) envlist.

Definition makeMountsPrivate : M unit := do (Mount "" "/" "" (flag_or [MS_PRIVATE; MS_REC]) "").

Definition ensureOverlayManagedFileTargets (upperDir : string) : M unit :=
  each (fun destination =>
    target ← lift (SecurePath upperDir destination);
    _ ← wrap ("create managed target parent " +:+ quoted (Dir target)) (do (MkdirAll (Dir target) 493));
    st ← attempt (call (Stat target));
    match st with
    | Ok _ => mret tt
    | Panic e => crash e
    | Err e =>
        if negb (is_ENOENT e) then fail ("stat managed target " +:+ quoted target +:+ ": " +:+ e) else
        wrap ("create managed target " +:+ quoted target) (do (CreateExcl target 420))
    end) ["/etc/resolv.conf"; "/etc/hostname"; "/etc/hosts"].

Definition setupOverlay (rootfs imageAnnotation : string) : M unit :=
  if String.eqb (trimSpace imageAnnotation) "" then mret tt else
  cfg ← lift (json_image imageAnnotation);
  _ ← wrap "make root private failed" makeMountsPrivate;
  _ ← wrap "prepare overlay managed file targets" (ensureOverlayManagedFileTargets (UpperDir cfg));
  let data := "lowerdir=" +:+ join ":" (ImageLayer cfg) +:+ ",upperdir=" +:+ UpperDir cfg +:+
              ",workdir=" +:+ WorkDir cfg in
  _ ← wrap "mount overlay failed" (do (Mount "overlay" rootfs (RootfsType cfg) 0 data));
  wrap "mount overlay propagation failed" (do (Mount "" rootfs "" (flag_or [MS_PRIVATE; MS_REC]) "")).

Definition filterMissingManagedFileMounts : list MountObject -> M (list MountObject) :=
  fix loop (mounts : list MountObject) : M (list MountObject) :=
    match mounts with
    | [] => mret []
    | m :: mounts =>
        if isManagedEtcMount m then
          st ← attempt (call (Stat (Source m)));
          rest ← loop mounts;
          mret (match st with Ok _ => m :: rest | _ => rest end)
        else rest ← loop mounts; mret (m :: rest)
    end.

Definition applyMountPropagation (target p : string) : M unit :=
  match mountPropagationFlags p with
  | None => fail ("unsupported mount propagation: " +:+ p)
  | Some flags => do (Mount "" target "" flags "")
  end.

(** The place of a mount is made: for a bind mount as its source is. *)
Definition makeMountpoint (m : MountObject) (bind : bool) (mountPath : string) : M unit :=
  if bind then
    lst ← wrap ("lstat failed: " +:+ Source m) (call (Lstat (Source m)));
    if String.eqb lst LINK then fail ("source:" +:+ Source m +:+ " is symlink") else
    info ← call (Stat (Source m));
    if String.eqb info DIR then
      st ← attempt (call (Stat mountPath));
      when (match st with Err e => is_ENOENT e | _ => false end) (do (MkdirAll mountPath 511))
    else
      _ ← do (MkdirAll (Dir mountPath) 511);
      st ← attempt (call (Stat mountPath));
      when (match st with Err e => is_ENOENT e | _ => false end) (do (CreateExcl mountPath 420))
  else
    st ← attempt (call (Stat mountPath));
    when (match st with Err e => is_ENOENT e | _ => false end) (do (MkdirAll mountPath 511)).

Definition hostUsesUnifiedCgroupV2 : M bool :=
  r ← attempt (call (Stat "/sys/fs/cgroup/cgroup.controllers")); mret (is_ok r).

Definition mount_one (rootfs : string) (m : MountObject) : M unit :=
  let o := mount_options m in
  mountPath ← lift (SecurePath rootfs (Destination m));
  _ ← makeMountpoint m (bindFlag o) mountPath;
  v2 ← (if String.eqb (m_Type m) "cgroup" then hostUsesUnifiedCgroupV2 else mret false);
  let mountType := if (v2 : bool) then "cgroup2" else m_Type m in
  let mountSource := if v2 && (String.eqb (Source m) "" || String.eqb (Source m) "cgroup")
                     then "cgroup" else Source m in
  let data := if v2 then "" else join "," (mo_data o) in
  _ ← wrap "mount fs failed"
        (SecureMount mountSource mountPath mountType (mo_flags o) data (deviceMountFlag o));
  when (negb (String.eqb (propagation o) ""))
    (wrap "mount propagation failed" (applyMountPropagation mountPath (propagation o))).

Definition mountFilesystem (containerId rootfs : string) (mountList : list MountObject)
    (ociBundleMode : bool) : M unit :=
  base ← (let base := baseMountsForMode containerId ociBundleMode in
          if ociBundleMode then mret base else
          filterMissingManagedFileMounts
            (if prejoined then filterRootlessPrejoinedMounts base else base));
  _ ← lift (check_each ValidateUserMount mountList);
  each (mount_one rootfs) (base ++ mountList).

Definition mountStdDevice (rootfs : string) : M unit :=
  each (fun device =>
    let destination := Join [rootfs; "dev"; device] in
    st ← attempt (call (Stat destination));
    _ ← when (match st with Err e => is_ENOENT e | _ => false end) (do (Create destination));
    _ ← wrap "mount device failed" (do (Mount ("/dev/" +:+ device) destination "" MS_BIND ""));
    wrap "remount device failed" (do (Mount "" destination ""
      (flag_or [MS_BIND; MS_REMOUNT; MS_RDONLY; MS_NOEXEC; MS_NOSUID]) "")))
  ["random"; "urandom"; "null"; "zero"; "full"; "tty"].

Definition createLinuxDevices (rootfs : string) (devices : list DeviceObject) : M unit :=
  each (fun d =>
    target ← lift (SecurePath rootfs (dev_Path d));
    _ ← do (MkdirAll (Dir target) 493);
    mode ← lift (DeviceMode d);
    let dev := if one_of ["c"; "u"; "b"] (dev_Type d)
               then Mkdev (Major d mod 2 ^ 32) (Minor d mod 2 ^ 32) else 0 in
    _ ← do (Mknod target mode dev);
    _ ← when (match dev_UID d, dev_GID d with None, None => false | _, _ => true end)
          (do (Chown target (default (-1) (dev_UID d)) (default (-1) (dev_GID d))));
    match FileMode d with Some m => do (Chmod target m) | None => mret tt end) devices.

Definition createSymbolicLink (rootfs : string) : M unit :=
  let deviceDir := Join [rootfs; "dev"] in
  each (fun '(link, target) =>
    st ← attempt (call (Lstat link));
    if is_ok st then mret tt else do (Symlink target link))
  [(Join [deviceDir; "fd"], "/proc/self/fd"); (Join [deviceDir; "stdin"], "/proc/self/fd/0");
   (Join [deviceDir; "stdout"], "/proc/self/fd/1"); (Join [deviceDir; "stderr"], "/proc/self/fd/2");
   (Join [deviceDir; "ptmx"], "pts/ptmx")].

Definition masked_flags : Z := flag_or [MS_BIND; MS_REMOUNT; MS_RDONLY; MS_NOSUID; MS_NODEV; MS_NOEXEC].

Definition applyMaskedPaths (rootfs : string) (paths : list string) : M unit :=
  each (fun path =>
    target ← lift (SecurePath rootfs path);
    st ← attempt (call (Stat target));
    let by_null (missing : bool) :=
      _ ← do (MkdirAll (Dir target) 493);
      _ ← when missing (do (CreateExcl target 420));
      _ ← do (Mount "/dev/null" target "" MS_BIND "");
      do (Mount "" target "" masked_flags "") in
    match st with
    | Panic e => crash e
    | Ok info =>
        if String.eqb info DIR then
          _ ← do (Mount "tmpfs" target "tmpfs" (flag_or [MS_NOSUID; MS_NODEV; MS_NOEXEC]) "");
          do (Mount "" target "" masked_flags "")
        else by_null false
    | Err e =>
        if negb (is_ENOENT e) then fail e else
        if ShouldSkipMissingMaskedPath path then mret tt else by_null true
    end) paths.

Definition applyReadonlyPaths (rootfs : string) (paths : list string) : M unit :=
  each (fun path =>
    target ← lift (SecurePath rootfs path);
    st ← attempt (call (Stat target));
    match st with
    | Panic e => crash e
    | Err e => if is_ENOENT e then mret tt else fail e
    | Ok _ =>
        _ ← do (Mount target target "" (flag_or [MS_BIND; MS_REC]) "");
        do (Mount "" target "" (flag_or [MS_BIND; MS_REMOUNT; MS_RDONLY; MS_REC]) "")
    end) paths.

Definition ensureRootfsMountpoint (rootfs : string) : M unit :=
  do (Mount rootfs rootfs "" (flag_or [MS_BIND; MS_REC]) "").

Definition pivotRoot (rootfs : string) : M unit :=
  let putoldDir := Join [rootfs; "put_old"] in
  _ ← do (Mkdir putoldDir 448);
  _ ← do (PivotRoot rootfs putoldDir);
  _ ← do (Chdir "/");
  _ ← do (Unmount "/put_old" MNT_DETACH);
  do (Rmdir "/put_old").

Definition makeCurrentRootReadonly : M unit :=
  do (Mount "" "/" "" (flag_or [MS_BIND; MS_REMOUNT; MS_RDONLY; MS_REC]) "").

(** All sets are cleared before the names are added, so a set left out is empty. *)
Definition setCapability (c : CapabilityObject) : M unit :=
  wrap "apply capability failed"
    (do (ApplyCaps (ToCaps (Bounding c)) (ToCaps (Permitted c)) (ToCaps (Inheritable c))
           (ToCaps (Effective c)) (ToCaps (Ambient c)))).

Definition setOOMScoreAdj (value : option Z) : M unit :=
  match value with
  | None => mret tt
  | Some v =>
      if (v <? -1000) || (1000 <? v) then fail "oomScoreAdj must be between -1000 and 1000" else
      do (WriteFile "/proc/self/oom_score_adj" (itoa v))
  end.

Definition setRlimits (rlimits : list RlimitObject) : M unit :=
  each (fun r => match RlimitResource (rl_Type r) with
                 | None => fail ("unsupported rlimit type: " +:+ rl_Type r)
                 | Some n => do (Setrlimit n (Soft r) (Hard r))
                 end) rlimits.

Definition setProcessUser (u : UserObject) : M unit :=
  _ ← when (0 <? length (AdditionalGids u))%nat (do (Setgroups (AdditionalGids u)));
  _ ← do (Setresgid (GID u));
  _ ← do (Setresuid (UID u));
  match Umask u with Some m => do (SetUmask m) | None => mret tt end.

Context (root_dir : string) (json_bundle : string -> res string).

(** [json_bundle] decodes the field [bundle] of a state file. *)
Definition IsOCIBundleMode (containerId : string) : M bool :=
  r ← attempt (text ← call (ReadJson (ContainerStatePath root_dir containerId));
               lift (json_bundle text));
  mret (match r with
        | Ok b => negb (String.eqb b "") &&
                  negb (String.eqb (Clean b) (Clean (ContainerDir root_dir containerId)))
        | _ => false
        end).

(** Up to the change of root. *)
Definition prepare_root (containerId : string) (s : Spec) : M unit :=
  let rootfs := root_Path (Root s) in
  _ ← when (negb prejoined) (wrap "join namespaces" (JoinExisting s));
  _ ← wrap "switch to user namespace root" switchToUserNamespaceRoot;
  _ ← when (negb (ShouldSkipHostname s)) (wrap "set hostname" (do (Sethostname (Hostname s))));
  _ ← wrap "set env" (setEnv (Env (Process s)));
  _ ← wrap "make mounts private" makeMountsPrivate;
  _ ← wrap "setup overlay" (setupOverlay rootfs (Image (Annotations s)));
  ociBundleMode ← IsOCIBundleMode containerId;
  _ ← wrap "mount filesystem" (mountFilesystem containerId rootfs (Mounts s) ociBundleMode);
  _ ← wrap "mount std device" (mountStdDevice rootfs);
  _ ← wrap "create linux devices" (createLinuxDevices rootfs (Devices (LinuxSpec s)));
  _ ← wrap "create symbolic link" (createSymbolicLink rootfs);
  _ ← wrap "apply masked paths" (applyMaskedPaths rootfs (MaskedPaths (LinuxSpec s)));
  _ ← wrap "apply readonly paths" (applyReadonlyPaths rootfs (ReadonlyPaths (LinuxSpec s)));
  _ ← wrap "ensure rootfs mountpoint" (ensureRootfsMountpoint rootfs);
  when (negb (String.eqb (RootfsPropagation (LinuxSpec s)) ""))
    (wrap "apply rootfs propagation" (applyMountPropagation rootfs (RootfsPropagation (LinuxSpec s)))).

(** From the change of root on. *)
Definition prepare_process (s : Spec) : M unit :=
  _ ← wrap "pivot root" (pivotRoot (root_Path (Root s)));
  _ ← when (root_Readonly (Root s)) (wrap "make rootfs readonly" makeCurrentRootReadonly);
  _ ← when (NoNewPrivileges (Process s)) (wrap "set no_new_privileges" (do SetNoNewPrivs));
  _ ← when (match Seccomp (LinuxSpec s) with Some _ => true | None => false end)
        (wrap "install seccomp" (do InstallSeccomp));
  _ ← wrap "set capability" (setCapability (Capabilities (Process s)));
  _ ← wrap "set oom_score_adj" (setOOMScoreAdj (OOMScoreAdj (Process s)));
  _ ← wrap "set rlimits" (setRlimits (Rlimits (Process s)));
  _ ← wrap "chdir" (do (Chdir (Cwd (Process s))));
  wrap "set process user" (setProcessUser (User (Process s))).

Definition prepare (containerId : string) (s : Spec) : M unit :=
  _ ← prepare_root containerId s;
  prepare_process s.

(** ** The whole run ([Execute]) *)

Definition LookupEntrypointPath (arg0 : string) (env : list string) : M string :=
  if contains arg0 "/" then mret arg0 else
  (fix loop (dirs : list string) : M string :=
     match dirs with
     | [] => fail (arg0 +:+ ": not found in PATH")
     | dir :: dirs =>
         let cand := Join [if String.eqb dir "" then "." else dir; arg0] in
         r ← attempt (call (AccessX cand));
         if is_ok r then mret cand else loop dirs
     end) (split ":"%char (OrDefault env)).

(** [spechash.go]: the text of [config_hash.json] is the hash it holds, and
    [config.json] is decoded by [json_spec]; [root_dir] is [RAIND_ROOT_DIR]. *)
Context (json_spec : string -> res Spec).

Definition Current (containerId : string) : M string :=
  call (Sha256File (ConfigFilePath root_dir containerId)).
Definition Read (containerId : string) : M string :=
  call (ReadJson (ConfigFileHashPath root_dir containerId)).
Definition Write_ (containerId hash : string) : M unit :=
  do (WriteJson (ConfigFileHashPath root_dir containerId) hash).
Definition loadFile (containerId : string) : M Spec :=
  text ← call (ReadJson (ConfigFilePath root_dir containerId));
  lift (json_spec text).

Definition validationError (expected got : string) : error :=
  "config.json hash validation failed: expect=" +:+ expected +:+ ", got=" +:+ got.

Definition Verify (containerId : string) : M unit :=
  expectedHash ← Read containerId;
  currentHash ← Current containerId;
  if String.eqb expectedHash currentHash then mret tt
  else fail (validationError expectedHash currentHash).

Definition VerifyAndLoad (containerId : string) : M Spec :=
  _ ← Verify containerId; loadFile containerId.

(** [shouldIgnoreSpecHashRemoveError]: a rootless container may lack the
    permission; [EACCES] is the error text that [os.IsPermission] knows. *)
Definition EACCES : error := "permission denied".
Definition VerifyLoadAndConsume (containerId : string) : M Spec :=
  s ← VerifyAndLoad containerId;
  r ← attempt (call (Remove (ConfigFileHashPath root_dir containerId)));
  match r with
  | Err e => if String.eqb e EACCES && IsSpec json_rootless s then mret s else fail e
  | Panic e => crash e
  | Ok _ => mret s
  end.

Definition SealAndLoad (containerId : string) : M Spec :=
  beforeLoadedHash ← Current containerId;
  _ ← Write_ containerId beforeLoadedHash;
  s ← loadFile containerId;
  afterLoadedHash ← Current containerId;
  sealedHash ← Read containerId;
  if negb (String.eqb beforeLoadedHash sealedHash)
  then fail (validationError beforeLoadedHash sealedHash) else
  if negb (String.eqb sealedHash afterLoadedHash)
  then fail (validationError sealedHash afterLoadedHash) else
  mret s.

Definition WriteCurrent (containerId : string) : M unit :=
  hash ← Current containerId; Write_ containerId hash.

(** [IsOCIBundleMode]: [bundle] is the field of the state file. *)
Definition Execute (containerId fifo : string) (entrypoint : list string) : M unit :=
  s ← VerifyLoadAndConsume containerId;
  _ ← do (ReadFifo fifo);
  _ ← prepare containerId s;
  _ ← do (ApplyAppArmor (AppArmorProfile (LinuxSpec s)));
  match entrypoint with
  | [] => crash "index out of range [0] with length 0"
  | arg :: args =>
      arg0 ← LookupEntrypointPath arg (Env (Process s));
      _ ← do CloseFiles;
      do (Exec arg0 (arg0 :: args) (Env (Process s)))
  end.
End prepare.
