(* ===== verification/RuntimeInitTheory.v ===== *)
(** * Properties of the first process of a container

    The mounts and files made before the change of root stay below the root, host
    directories appear only as the guard allows, nothing runs unless all steps
    succeeded, and a checked bundle has nothing the init process would drop. *)

From Stdlib Require Import ZArith Lia Ascii String.
From stdpp Require Import base gmap strings list.
From S2P Require Import Prelude.
From S2P Require Import GoString.
From S2P Require Import GoPath.
From S2P Require Import World.
From S2P Require Import RuntimeSpec.
From S2P Require Import Kernel.
From S2P Require Import MountGuard.
From S2P Require Import RuntimeNs.
From S2P Require Import RuntimeInit.
Open Scope Z_scope.

(** ** Paths below a root *)

Lemma inside_refl p : inside p p.
Proof. unfold inside. done. Qed.

Lemma Clean_Join_abs r l : IsAbs r = true -> Clean (Join (r :: l)) = Join (r :: l).
Proof. intros Hr. cbn [Join]. rewrite IsAbs_nonempty by done. apply Clean_idem. Qed.

Lemma SecurePath_inside r d p : IsAbs r = true -> SecurePath r d = Ok p ->
  IsAbs p = true /\ Clean p = p /\ inside p r.
Proof.
  intros Hr H. assert (exists c, p = Join [r; c]) as [c ->].
  { revert H. unfold SecurePath. cbv zeta. case_match; [done|]. case_match; [done|].
    intros [= <-]. eauto. }
  destruct (elements_Join_abs r [c] Hr) as [Ha _]. split; [done|].
  split; [by apply Clean_Join_abs|]. unfold inside. destruct (decide (elements r = [])) as [->|Hne]; [by apply prefix_nil|].
  pose proof (SecurePath_spec r d Hr Hne) as Hs. cbv zeta in Hs.
  destruct (IsAbs (trimPrefix d "/") || _).
  - destruct Hs as [Hs Hn]. rewrite Hs in H.
    assert (Join [r; c] = render true (elements r ++ elements (trimPrefix d "/"))) as -> by congruence.
    rewrite elements_render; [by eexists|]. apply names_elements_ok, Forall_app.
    split; [by apply elements_abs_names|done].
  - by rewrite Hs in H.
Qed.

(** The parent is below the root as well, but for the root itself. *)
Lemma SecurePath_dir r d p : IsAbs r = true -> SecurePath r d = Ok p ->
  inside (Dir p) r \/ Dir p = Dir (Clean r).
Proof.
  intros Hr H. destruct (SecurePath_inside r d p Hr H) as (Ha & Hc & [k Hk]).
  destruct (elements_Dir p Ha Hc) as [_ Hd]. destruct k as [|x k _] using rev_ind.
  - right. f_equal. rewrite app_nil_r in Hk. rewrite <- Hc.
    apply Clean_eq_iff; [by rewrite Ha|done].
  - left. unfold inside. rewrite Hd, Hk, app_assoc, removelast_last. by eexists.
Qed.

Lemma Join_inside r l : IsAbs r = true -> Forall (fun e => name_ok e = true) l ->
  inside (Join (r :: l)) r /\ IsAbs (Join (r :: l)) = true.
Proof.
  intros Hr Hl. destruct (elements_Join_abs r l Hr) as [Ha He]. split; [|done].
  unfold inside. rewrite He. assert (l ≫= split "/"%char = l) as ->.
  { clear -Hl. induction Hl as [|e l He _ IH]; [done|]. cbn. rewrite split_one, IH; [done|].
    by apply name_ok_no_slash. }
  rewrite clean_fold_names, rev_app_distr, !rev_involutive by done. by eexists.
Qed.

Lemma inside_trans p q r : inside p q -> inside q r -> inside p r.
Proof. unfold inside. intros H1 H2. by trans (elements q). Qed.

(** ** Computations *)

Section lemmas.
Context {St W : Type} {P : Peers sys W}.
Notation M := (M St sys W).

Lemma only_lift Q {A} (r : res A) : only Q (lift (St := St) (W := W) r).
Proof. destruct r; [apply only_ret|apply only_fail|apply only_crash]. Qed.

Lemma only_lift_bind Q {A B} (r : res A) (f : A -> M B) :
  (forall a, r = Ok a -> only Q (f a)) -> only Q (lift r ≫= f).
Proof.
  destruct r as [a|e|e]; intros H; [|apply (only_fail Q)|apply (only_crash Q)]. by apply H.
Qed.

Lemma wrap_ok {A} pre (m : M A) w a w' : wrap pre m w = (Ok a, w') -> m w = (Ok a, w').
Proof.
  unfold wrap. intros (r & w1 & H1 & H2)%bind_ok. unfold attempt in H1.
  destruct (m w) as [[x|e|e] w2]; simplify_eq/=. by injection H2 as -> ->.
Qed.

Lemma when_ok b (m : M unit) w w' :
  when b m w = (Ok tt, w') -> if b then m w = (Ok tt, w') else w' = w.
Proof. destruct b; simpl; [done|]. by intros [= <-]. Qed.
End lemmas.

(** The calls of a computation, one construct at a time. *)
Ltac stay_step :=
  match goal with
  | |- only _ (lift _ ≫= _) => apply only_lift_bind; intros ? ?
  | |- only _ (_ ≫= _) => apply only_bind; [|intros ?]
  | |- only _ (wrap _ _) => apply only_wrap
  | |- only _ (when _ _) => apply only_when; intros ?
  | |- only _ (attempt _) => apply only_attempt
  | |- only _ (do _) => apply only_do
  | |- only _ (call _) => apply only_call
  | |- only _ (mret _) => apply only_ret
  | |- only _ (fail _) => apply only_fail
  | |- only _ (crash _) => apply only_crash
  | |- only _ (lift _) => apply only_lift
  | |- only _ (each _ _) => apply only_each; intros ? ?
  | |- only _ (match ?x with _ => _ end) => destruct x eqn:?
  | |- only _ (let '(_, _) := ?x in _) => destruct x
  end.
Ltac stay := repeat stay_step.

(** ** Where the calls go *)

(** [within roots p]: [p] is in one of the directories. *)
Definition within (roots : list string) (p : string) : Prop :=
  exists r, r ∈ roots /\ inside p r.

(** What may be called before the change of root, by the texts of the paths: mounts
    and changes of files below the roots, the directory of a root, the propagation
    of the whole tree made private, and calls that change no file. *)
Definition stays (roots : list string) (c : sys) : Prop :=
  match c with
  | Mount _ t _ _ _ => within roots t \/ c = Mount "" "/" "" (flag_or [MS_PRIVATE; MS_REC]) ""
  | MkdirAll p _ => within roots p \/ exists r, r ∈ roots /\ p = Dir (Clean r)
  | Mkdir p _ | Mknod p _ _ | Chown p _ _ | Chmod p _ | Create p | CreateExcl p _ | Symlink _ p =>
      within roots p
  | Unmount _ _ | PivotRoot _ _ | Rmdir _ | WriteFile _ _ | WriteJson _ _ | Remove _
  | RemoveAll _ | Mkfifo _ | WriteFifo _ | Exec _ _ _ | RunCommand _ _ _ _ _
  | StartCommand _ _ | ShiftLayers _ | ChownTree _ => False
  | _ => True
  end.

Section stay.
Context {St W : Type} {P : Peers sys W}.
Context (Mkdev : Z -> Z -> Z) (json_image : string -> res ImageConfigObject)
  (json_rootless : string -> res RootlessConfigObject) (prejoined : bool).
Context (roots : list string) (Hroots : forall r, r ∈ roots -> IsAbs r = true).
Notation only := (only (St := St) (W := W) (stays roots)).

Lemma secure_within r d p : r ∈ roots -> SecurePath r d = Ok p ->
  within roots p /\ stays roots (MkdirAll (Dir p) 493) /\ stays roots (MkdirAll (Dir p) 511).
Proof.
  intros Hr Hp. specialize (Hroots r Hr).
  destruct (SecurePath_inside r d p Hroots Hp) as (_ & _ & Hin).
  split; [by exists r|]. cbn [stays].
  destruct (SecurePath_dir r d p Hroots Hp) as [H|H]; [split; left|split; right]; by exists r.
Qed.

Lemma join_within r l : r ∈ roots -> Forall (fun e => name_ok e = true) l ->
  within roots (Join (r :: l)).
Proof. intros Hr Hl. exists r. split; [done|]. apply Join_inside; auto. Qed.

Lemma stays_SecureMount src t ty fl data dev : within roots t ->
  only (SecureMount src t ty fl data dev).
Proof. intros Ht. apply only_SecureMount; [by left|]. intros f. by left. Qed.

Lemma stays_managed r : r ∈ roots -> only (ensureOverlayManagedFileTargets r).
Proof.
  intros Hr. unfold ensureOverlayManagedFileTargets. stay; try done.
  all: match goal with H : SecurePath _ _ = Ok _ |- _ =>
    destruct (secure_within r _ _ Hr H) as (H1 & H2 & H3) end; done.
Qed.

Lemma stays_setupOverlay r ann : r ∈ roots ->
  (forall cfg, json_image ann = Ok cfg -> UpperDir cfg ∈ roots) ->
  only (setupOverlay json_image r ann).
Proof.
  intros Hr Hu. unfold setupOverlay, makeMountsPrivate. stay; try (by right).
  all: try (left; exists r; split; [done|apply inside_refl]).
  by apply stays_managed, Hu.
Qed.

Lemma stays_makeMountpoint r m b t d : r ∈ roots -> SecurePath r d = Ok t ->
  only (makeMountpoint m b t).
Proof.
  intros Hr Ht. destruct (secure_within r d t Hr Ht) as (H1 & H2 & H3).
  unfold makeMountpoint. stay; try done; by left.
Qed.

Lemma stays_propagation t p : within roots t -> only (applyMountPropagation t p).
Proof. intros Ht. unfold applyMountPropagation. stay. by left. Qed.

Lemma stays_mount_one r m : r ∈ roots -> only (mount_one r m).
Proof.
  intros Hr. unfold mount_one, hostUsesUnifiedCgroupV2. cbv zeta. apply only_lift_bind.
  intros t Ht. destruct (secure_within r _ t Hr Ht) as (H1 & H2 & H3).
  apply only_bind; [by eapply stays_makeMountpoint|intros _].
  stay; try done; [by apply stays_SecureMount|by apply stays_propagation].
Qed.

Lemma stays_filter l : only (filterMissingManagedFileMounts l).
Proof.
  induction l as [|m l IH]; cbn [filterMissingManagedFileMounts]; [stay|].
  destruct (isManagedEtcMount m); stay; try done.
Qed.

Lemma stays_mountFilesystem id r l b : r ∈ roots -> only (mountFilesystem prejoined id r l b).
Proof.
  intros Hr. unfold mountFilesystem. cbv zeta. apply only_bind.
  - destruct b; [apply only_ret|apply stays_filter].
  - intros base. apply only_bind; [apply only_lift|]. intros _. apply only_each. intros m _.
    by apply stays_mount_one.
Qed.

Lemma stays_mountStdDevice r : r ∈ roots -> only (mountStdDevice r).
Proof.
  intros Hr. unfold mountStdDevice. apply only_each. intros d Hd. cbv zeta.
  assert (within roots (Join [r; "dev"; d])) as Hw.
  { apply join_within; [done|]. constructor; [done|]. constructor; [|done].
    rewrite !elem_of_cons, elem_of_nil in Hd. by destruct_or! Hd; subst. }
  stay; try done; by left.
Qed.

Lemma stays_createLinuxDevices r l : r ∈ roots -> only (createLinuxDevices Mkdev r l).
Proof.
  intros Hr. unfold createLinuxDevices. apply only_each. intros d _. apply only_lift_bind.
  intros t Ht. destruct (secure_within r _ t Hr Ht) as (H1 & H2 & H3). stay; done.
Qed.

Lemma stays_createSymbolicLink r : r ∈ roots -> only (createSymbolicLink r).
Proof.
  intros Hr. unfold createSymbolicLink. cbv zeta. apply only_each. intros [link target] Hl.
  assert (within roots link) as Hw.
  { assert (forall n, name_ok n = true -> within roots (Join [Join [r; "dev"]; n])) as H.
    { intros n Hn. destruct (Join_inside r ["dev"] (Hroots r Hr)) as [H1 H2]; [by repeat constructor|].
      exists r. split; [done|]. eapply inside_trans; [|exact H1].
      apply Join_inside; [done|]. by repeat constructor. }
    rewrite !elem_of_cons, elem_of_nil in Hl. by destruct_or! Hl; simplify_eq; apply H. }
  stay; done.
Qed.

Lemma stays_applyMaskedPaths r l : r ∈ roots -> only (applyMaskedPaths r l).
Proof.
  intros Hr. unfold applyMaskedPaths. apply only_each. intros x _. apply only_lift_bind.
  intros t Ht. destruct (secure_within r _ t Hr Ht) as (H1 & H2 & H3). cbv zeta.
  stay; try done; by left.
Qed.

Lemma stays_applyReadonlyPaths r l : r ∈ roots -> only (applyReadonlyPaths r l).
Proof.
  intros Hr. unfold applyReadonlyPaths. apply only_each. intros x _. apply only_lift_bind.
  intros t Ht. destruct (secure_within r _ t Hr Ht) as (H1 & H2 & H3).
  stay; try done; by left.
Qed.
End stay.

(** C26: up to the change of root every path that the init process mounts on, creates
    or changes is, as a text with its [.] and [..] worked out, the container's root,
    the upper directory of its overlay, or below one of them, whatever the
    specification asks for and whatever the kernel answers; the exceptions are the
    propagation of the whole tree being made private ([mount --make-rprivate /])
    and, for a destination that is the root itself, the making of the directory the
    root is in.  Symbolic links are not followed here: where a link in the image
    leads is the kernel's, and the code does not resolve the paths below the root
    before it uses them. *)
Theorem prepare_root_stays {St W} {P : Peers sys W} Mkdev json_image json_rootless prejoined
    root_dir json_bundle containerId s (w : world St sys W) :
  IsAbs (root_Path (Root s)) = true ->
  (forall cfg, json_image (Image (Annotations s)) = Ok cfg -> IsAbs (UpperDir cfg) = true) ->
  let upper := match json_image (Image (Annotations s)) with
               | Ok cfg => [UpperDir cfg] | _ => [] end in
  exists t, trace (prepare_root Mkdev json_image json_rootless prejoined
      root_dir json_bundle containerId s w).2
              = trace w ++ t /\ Forall (stays (root_Path (Root s) :: upper)) t.
Proof.
  intros Hr Hu upper. revert w. set (roots := root_Path (Root s) :: upper).
  assert (forall r, r ∈ roots -> IsAbs r = true) as Hroots.
  { intros r [->|H]%elem_of_cons; [done|]. unfold upper in H.
    destruct (json_image _) as [cfg| |]; [|by apply not_elem_of_nil in H..].
    apply list_elem_of_singleton in H as ->. by apply Hu. }
  assert (root_Path (Root s) ∈ roots) as Hin by by left.
  change (only (stays roots) (prepare_root (St := St) Mkdev json_image json_rootless prejoined
    root_dir json_bundle containerId s)).
  unfold prepare_root, JoinExisting, switchToUserNamespaceRoot, setEnv, makeMountsPrivate,
    ensureRootfsMountpoint, IsOCIBundleMode. cbv zeta.
  stay; try done; try (by right).
  all: try (left; exists (root_Path (Root s)); split; [done|apply inside_refl]).
  - apply stays_setupOverlay; [done..|]. intros cfg Hcfg. right. unfold upper. rewrite Hcfg. by left.
  - by apply stays_mountFilesystem.
  - by apply stays_mountStdDevice.
  - by apply stays_createLinuxDevices.
  - by apply stays_createSymbolicLink.
  - by apply stays_applyMaskedPaths.
  - by apply stays_applyReadonlyPaths.
  - apply stays_propagation. exists (root_Path (Root s)). split; [done|apply inside_refl].
Qed.

(** ** Computations that follow a script

    [script m l]: [m] makes the calls of [l] in order; an error ends it after the
    call that met it, success means all were made. *)
Section script.
Context {St W : Type} {P : Peers sys W}.
Notation M := (M St sys W).

Definition script (m : M unit) (l : list sys) : Prop :=
  forall w, exists t, trace (m w).2 = trace w ++ t /\ t `prefix_of` l /\
    (forall w', m w = (Ok tt, w') -> t = l).

Lemma script_ret : script (mret tt) [].
Proof. intros w. exists []. rewrite app_nil_r. done. Qed.
Lemma script_fail e l : script (fail e) l.
Proof. intros w. exists []. rewrite app_nil_r. split; [done|]. split; [apply prefix_nil|done]. Qed.
Lemma script_do c : script (do c) [c].
Proof.
  intros w. exists [c]. unfold do, mbind, M_bind. pose proof (call_trace c w) as H.
  destruct (call c w) as [[a|e|e] w1]; done.
Qed.
Lemma script_bind (m : M unit) (f : M unit) l k :
  script m l -> script f k -> script (m ≫= fun _ => f) (l ++ k).
Proof.
  intros Hm Hf w. destruct (Hm w) as (t & Ht & Hp & Hok). unfold mbind, M_bind.
  destruct (m w) as [[[]|e|e] w1] eqn:E; cbn [snd] in *.
  - rewrite (Hok _ eq_refl) in Ht. destruct (Hf w1) as (t' & Ht' & Hp' & Hok').
    exists (l ++ t'). rewrite Ht', Ht, app_assoc. split; [done|]. split; [by apply prefix_app|].
    intros w' H. by rewrite (Hok' _ H).
  - exists t. split; [done|]. split; [|done]. by apply prefix_app_r.
  - exists t. split; [done|]. split; [|done]. by apply prefix_app_r.
Qed.
Lemma script_wrap pre (m : M unit) l : script m l -> script (wrap pre m) l.
Proof.
  intros Hm w. destruct (Hm w) as (t & Ht & Hp & Hok). exists t.
  unfold wrap, attempt, mbind, M_bind. destruct (m w) as [[[]|e|e] w1]; cbn [snd] in *;
    (split; [done|]; split; [done|]); [intros w' _; by eapply Hok|done..].
Qed.
Lemma script_when b (m : M unit) l : script m l -> script (when b m) (if b then l else []).
Proof. intros Hm. destruct b; [done|]. apply script_ret. Qed.
Lemma script_each {A} (f : A -> M unit) (g : A -> list sys) l :
  (forall x, script (f x) (g x)) -> script (each f l) (l ≫= g).
Proof.
  intros Hf. induction l as [|x l IH]; [apply script_ret|]. by apply script_bind.
Qed.
End script.

(** What the process does from the change of root on. *)
Definition user_calls (u : UserObject) : list sys :=
  (if (0 <? length (AdditionalGids u))%nat then [Setgroups (AdditionalGids u)] else []) ++
  [Setresgid (GID u)] ++ [Setresuid (UID u)] ++
  match Umask u with Some m => [SetUmask m] | None => [] end.

Definition process_calls (s : Spec) : list sys :=
  let rootfs := root_Path (Root s) in
  let caps := Capabilities (Process s) in
  [Mkdir (Join [rootfs; "put_old"]) 448; PivotRoot rootfs (Join [rootfs; "put_old"]); Chdir "/";
   Unmount "/put_old" MNT_DETACH; Rmdir "/put_old"] ++
  (if root_Readonly (Root s)
   then [Mount "" "/" "" (flag_or [MS_BIND; MS_REMOUNT; MS_RDONLY; MS_REC]) ""] else []) ++
  (if NoNewPrivileges (Process s) then [SetNoNewPrivs] else []) ++
  match Seccomp (LinuxSpec s) with Some _ => [InstallSeccomp] | None => [] end ++
  [ApplyCaps (ToCaps (Bounding caps)) (ToCaps (Permitted caps)) (ToCaps (Inheritable caps))
     (ToCaps (Effective caps)) (ToCaps (Ambient caps))] ++
  match OOMScoreAdj (Process s) with
  | Some v => [WriteFile "/proc/self/oom_score_adj" (itoa v)] | None => [] end ++
  (Rlimits (Process s) ≫= fun r => match RlimitResource (rl_Type r) with
     | Some n => [Setrlimit n (Soft r) (Hard r)] | None => [] end) ++
  [Chdir (Cwd (Process s))] ++ user_calls (User (Process s)).

Lemma script_prepare_process {St W} {P : Peers sys W} s :
  script (prepare_process (St := St) s) (process_calls s).
Proof.
  unfold prepare_process, process_calls, user_calls. cbv zeta.
  apply script_bind.
  { apply script_wrap. unfold pivotRoot. cbv zeta.
    repeat first [apply (script_bind _ _ [_]) | apply script_do]. }
  apply script_bind; [apply script_when, script_wrap, script_do|].
  apply script_bind; [apply script_when, script_wrap, script_do|].
  apply script_bind.
  { destruct (Seccomp (LinuxSpec s)); [apply (script_wrap _ _ [_]), script_do|apply script_ret]. }
  apply script_bind; [apply script_wrap, script_wrap, script_do|].
  apply script_bind.
  { apply script_wrap. unfold setOOMScoreAdj. destruct (OOMScoreAdj (Process s)); [|apply script_ret].
    case_match; [apply script_fail|apply script_do]. }
  apply script_bind.
  { apply script_wrap, script_each. intros r.
    destruct (RlimitResource (rl_Type r)); [apply script_do|apply script_fail]. }
  apply script_bind; [apply script_wrap, script_do|].
  apply script_wrap. unfold setProcessUser.
  apply script_bind; [apply script_when, script_do|].
  apply script_bind; [apply script_do|]. apply script_bind; [apply script_do|].
  destruct (Umask (User (Process s))); [apply script_do|apply script_ret].
Qed.

(** The old root is detached before any privilege is touched, and the steps
    come in one order: read-only root, no new privileges, seccomp, capabilities,
    limits, working directory, and the user last, after its groups; an error
    ends the sequence where it is met. *)
Theorem prepare_process_script {St W} {P : Peers sys W} s (w : world St sys W) :
  exists t, trace (prepare_process s w).2 = trace w ++ t /\ t `prefix_of` process_calls s /\
    (forall w', prepare_process s w = (Ok tt, w') -> t = process_calls s).
Proof. apply script_prepare_process. Qed.

(** ** Nothing runs before everything is in place *)

Section execute.
Context {St W : Type} {P : Peers sys W}.
Context (Mkdev : Z -> Z -> Z) (json_image : string -> res ImageConfigObject)
  (json_rootless : string -> res RootlessConfigObject) (prejoined : bool) (root_dir : string)
  (json_spec : string -> res Spec) (json_bundle : string -> res string).
Notation world := (world St sys W).

Definition not_exec (c : sys) : Prop := match c with Exec _ _ _ => False | _ => True end.

Lemma no_exec_prepare id s :
  only not_exec (prepare (St := St) Mkdev json_image json_rootless prejoined root_dir json_bundle id s).
Proof.
  unfold prepare. apply only_bind.
  - unfold prepare_root, JoinExisting, switchToUserNamespaceRoot, setEnv, makeMountsPrivate,
      ensureRootfsMountpoint, IsOCIBundleMode, setupOverlay, ensureOverlayManagedFileTargets, makeMountsPrivate,
      mountStdDevice, createLinuxDevices, createSymbolicLink, applyMaskedPaths, applyReadonlyPaths,
      mountFilesystem, mount_one, makeMountpoint, hostUsesUnifiedCgroupV2, applyMountPropagation.
    cbv zeta. stay; try done.
    + clear. generalize (if prejoined then filterRootlessPrejoinedMounts (baseMountsForMode id false)
        else baseMountsForMode id false). intros l. induction l as [|m l IH]; cbn [filterMissingManagedFileMounts]; [stay|].
      destruct (isManagedEtcMount m); stay; done.
    + by apply only_SecureMount.
  - intros _ w. destruct (script_prepare_process s w) as (t & Ht & [k Hk] & _).
    exists t. split; [done|]. assert (Forall not_exec (process_calls s)) as H.
    { unfold process_calls, user_calls. cbv zeta.
      repeat (first [apply Forall_app; split | apply Forall_cons; split | apply Forall_nil; exact I
        | done | case_match]).
      induction (Rlimits (Process s)) as [|r l IH]; [constructor|]. rewrite bind_cons. apply Forall_app.
      split; [|exact IH]. destruct (RlimitResource (rl_Type r)); by repeat constructor. }
    rewrite Hk in H. by apply Forall_app in H as [? _].
Qed.

(** A run from [w] to [w'] executes nothing, or one thing at its end, of which [F]
    holds. *)
Definition ends (F : Prop) (w w' : world) : Prop :=
  exists t, trace w' = trace w ++ t /\
    (Forall not_exec t \/ exists t0 c, t = t0 ++ [c] /\ Forall not_exec t0 /\ F).

Lemma ends_bind {A B} (F : world -> Prop) (m : M St sys W A) (f : A -> M St sys W B) w :
  only not_exec m -> (forall a w1, m w = (Ok a, w1) -> ends (F (f a w1).2) w1 (f a w1).2) ->
  ends (F ((m ≫= f) w).2) w ((m ≫= f) w).2.
Proof.
  intros Hm Hf. destruct (Hm w) as (t & Ht & HQ). unfold ends, mbind, M_bind in *.
  destruct (m w) as [[a|e|e] w1]; cbn [snd] in *; [|exists t; auto..].
  destruct (Hf a w1 eq_refl) as (t' & Ht' & [HQ'|(t0 & c & -> & HQ' & HF)]);
    eexists; rewrite Ht', Ht, <- app_assoc; (split; [done|]).
  - left. by apply Forall_app.
  - right. exists (t ++ t0), c. rewrite <- app_assoc. split; [done|].
    split; [by apply Forall_app|done].
Qed.

Lemma no_exec_lookup arg env : only not_exec (LookupEntrypointPath (St := St) arg env).
Proof.
  unfold LookupEntrypointPath. destruct (contains arg "/"); [stay|].
  induction (split ":"%char (OrDefault env)) as [|d dirs IH]; stay; done.
Qed.

Lemma no_exec_load id :
  only not_exec (VerifyLoadAndConsume (St := St) json_rootless root_dir json_spec id).
Proof.
  unfold VerifyLoadAndConsume, VerifyAndLoad, Verify, Read, Current, loadFile. stay; done.
Qed.

Lemma call_ok c (w : world) a w' :
  call c w = (Ok a, w') -> perform c (inner w) = (Ok a, inner w') /\ trace w' = trace w ++ [c].
Proof. unfold call. destruct (perform c (inner w)) as [r i]. by intros [= -> <-]. Qed.

(** A specification is loaded when the hash that the seal holds is that of the file
    it is then read from; the seal is removed. *)
Definition loaded_sealed (containerId : string) (s : Spec) (w w1 : world) : Prop :=
  let config := ConfigFilePath root_dir containerId in
  let seal := ConfigFileHashPath root_dir containerId in
  exists h text i1 i2 i3,
    perform (ReadJson seal) (inner w) = (Ok h, i1) /\
    perform (Sha256File config) i1 = (Ok h, i2) /\
    perform (ReadJson config) i2 = (Ok text, i3) /\ json_spec text = Ok s /\
    trace w1 = trace w ++ [ReadJson seal; Sha256File config; ReadJson config; Remove seal].

Lemma load_run containerId (w w1 : world) s :
  VerifyLoadAndConsume json_rootless root_dir json_spec containerId w = (Ok s, w1) ->
  loaded_sealed containerId s w w1.
Proof.
  unfold VerifyLoadAndConsume, VerifyAndLoad, Verify, Read, Current, loadFile, loaded_sealed.
  intros (s' & w2 & H & Hrm)%bind_ok. apply bind_ok in H as ([] & w3 & H & Hl).
  apply bind_ok in H as (h & w4 & [H1 T1]%call_ok & H).
  apply bind_ok in H as (h' & w5 & [H2 T2]%call_ok & H).
  destruct (String.eqb_spec h h') as [<-|]; [|done]. injection H as ->.
  apply bind_ok in Hl as (text & w6 & [H3 T3]%call_ok & Hs).
  assert (json_spec text = Ok s' /\ w6 = w2) as [Hj ->].
  { revert Hs. unfold lift. destruct (json_spec text); [|done..]. by intros [= -> ->]. }
  apply bind_ok in Hrm as (r & w7 & Hc & Hr).
  assert (s' = s /\ trace w1 = trace w2 ++ [Remove (ConfigFileHashPath root_dir containerId)]) as [-> Ht].
  { pose proof (call_trace (Remove (ConfigFileHashPath root_dir containerId)) w2) as Htr.
    unfold attempt in Hc. destruct (call _ w2) as [[x|x|x] w8]; simplify_eq/=.
    - by injection Hr as <- <-.
    - destruct (_ && _); [|done]. by injection Hr as <- <-. }
  exists h, text, (inner w4), (inner w3), (inner w2). split_and!; [done..|].
  rewrite Ht, T3, T2, T1, <- !app_assoc. done.
Qed.

(** The entry point is executed: the specification was loaded sealed, then the start
    signal came, then the preparation of that specification succeeded and its
    AppArmor profile was applied, all in this run and in this order. *)
Definition executed (containerId fifo : string) (entrypoint : list string) (w w' : world) : Prop :=
  exists s (w1 w2 w3 w4 : world) arg0 t,
    loaded_sealed containerId s w w1 /\
    do (ReadFifo fifo) w1 = (Ok tt, w2) /\
    prepare Mkdev json_image json_rootless prejoined root_dir json_bundle containerId s w2 = (Ok tt, w3) /\
    do (ApplyAppArmor (AppArmorProfile (LinuxSpec s))) w3 = (Ok tt, w4) /\
    trace w' = trace w4 ++ t ++ [Exec arg0 (arg0 :: tail entrypoint) (Env (Process s))] /\
    Forall not_exec t.

(** C27: the entry point is executed at most once, as the last call of the run, and
    only after, earlier in the same run: the hash in the seal was compared with that
    of [config.json] and was the same, the specification was read from that file,
    the start signal came, every step of the preparation of that specification
    succeeded, and its AppArmor profile was applied.  It gets the arguments it was
    given and the environment of that specification.  Any answers of the kernel are
    allowed. *)
Theorem exec_only_when_prepared containerId fifo entrypoint (w : world) :
  let w' := (Execute Mkdev json_image json_rootless prejoined root_dir json_bundle json_spec
               containerId fifo entrypoint w).2 in
  exists t, trace w' = trace w ++ t /\
    (Forall not_exec t \/
     exists t0 c, t = t0 ++ [c] /\ Forall not_exec t0 /\ executed containerId fifo entrypoint w w').
Proof.
  intros w'. unfold w', Execute. set (ep := entrypoint) at 2.
  apply (ends_bind (executed containerId fifo ep w)); [apply no_exec_load|]. intros s w1 H1%load_run.
  apply (ends_bind (executed containerId fifo ep w)); [by apply only_do|]. intros [] w2 H2.
  apply (ends_bind (executed containerId fifo ep w)); [apply no_exec_prepare|]. intros [] w3 H3.
  apply (ends_bind (executed containerId fifo ep w)); [by apply only_do|]. intros [] w4 H4.
  destruct entrypoint as [|arg args] in ep |- *; [exists []; rewrite app_nil_r; auto|].
  destruct (no_exec_lookup arg (Env (Process s)) w4) as (t5 & T5 & Q5).
  apply (ends_bind (executed containerId fifo ep w)); [apply no_exec_lookup|]. intros arg0 w5 H5. rewrite H5 in T5. cbn [snd] in T5.
  destruct (only_do not_exec CloseFiles I w5) as (t6 & T6 & Q6).
  apply (ends_bind (executed containerId fifo ep w)); [by apply only_do|]. intros [] w6 H6. rewrite H6 in T6. cbn [snd] in T6.
  assert (trace (do (Exec arg0 (arg0 :: args) (Env (Process s))) w6).2 =
    trace w6 ++ [Exec arg0 (arg0 :: args) (Env (Process s))]) as Ht.
  { unfold do, mbind, M_bind. pose proof (call_trace (Exec arg0 (arg0 :: args) (Env (Process s))) w6) as H.
    by destruct (call _ w6) as [[| |] w7]. }
  eexists. split; [exact Ht|]. right. exists [], (Exec arg0 (arg0 :: args) (Env (Process s))).
  split; [done|]. split; [constructor|].
  exists s, w1, w2, w3, w4, arg0, (t5 ++ t6). split_and!; [done..| |by apply Forall_app].
  rewrite Ht, T6, T5, <- !app_assoc. done.
Qed.

(** ** Sealed specifications ([spechash.go]) *)

(** A specification is sealed only when [config.json] had one hash before and
    after it was loaded, and that hash is the one the seal holds afterwards: a
    change of the file or of the seal in between is an error. *)
Theorem SealAndLoad_sealed containerId (w w' : world) s :
  SealAndLoad root_dir json_spec containerId w = (Ok s, w') ->
  let config := ConfigFilePath root_dir containerId in
  let seal := ConfigFileHashPath root_dir containerId in
  exists h text i1 i2 i3 i4,
    perform (Sha256File config) (inner w) = (Ok h, i1) /\
    (exists r, perform (WriteJson seal h) i1 = (Ok r, i2)) /\
    perform (ReadJson config) i2 = (Ok text, i3) /\ json_spec text = Ok s /\
    perform (Sha256File config) i3 = (Ok h, i4) /\
    perform (ReadJson seal) i4 = (Ok h, inner w') /\
    trace w' = trace w ++ [Sha256File config; WriteJson seal h; ReadJson config;
                           Sha256File config; ReadJson seal].
Proof.
  cbv zeta. unfold SealAndLoad, Current, Write_, Read, loadFile.
  intros (h & w1 & [H1 T1]%call_ok & H)%bind_ok.
  apply bind_ok in H as ([] & w2 & Hw & H). unfold do in Hw.
  apply bind_ok in Hw as (r & w2' & [H2 T2]%call_ok & [= <-]).
  apply bind_ok in H as (s' & w3 & Hl & H).
  apply bind_ok in Hl as (text & w3' & [H3 T3]%call_ok & Hs).
  assert (json_spec text = Ok s' /\ w3' = w3) as [Hj ->].
  { revert Hs. unfold lift. destruct (json_spec text); [|done..]. by intros [= -> ->]. }
  apply bind_ok in H as (h' & w4 & [H4 T4]%call_ok & H).
  apply bind_ok in H as (h'' & w5 & [H5 T5]%call_ok & H).
  destruct (String.eqb_spec h h'') as [<-|]; [|done]. cbn [negb] in H.
  destruct (String.eqb_spec h h') as [<-|]; [|done]. cbn [negb] in H.
  injection H as <- <-.
  exists h, text, (inner w1), (inner w2'), (inner w3), (inner w4).
  split_and!; [done|by exists r|done..|].
  rewrite T5, T4, T3, T2, T1, <- !app_assoc. done.
Qed.
End execute.

(** ** Host directories that appear in a container *)

Lemma has_flag_lor a f b : has_flag (Z.lor a f) b = has_flag a b || has_flag f b.
Proof.
  unfold has_flag. rewrite Z.land_lor_distr_l.
  destruct (Z.eqb_spec (Z.lor (Z.land a b) (Z.land f b)) 0) as [H|H].
  - apply Z.lor_eq_0_iff in H as [-> ->]. done.
  - destruct (Z.eqb_spec (Z.land a b) 0) as [Ha|], (Z.eqb_spec (Z.land f b) 0) as [Hf|]; try done.
    rewrite Ha, Hf in H. done.
Qed.

Definition unbound (o : mount_opts) : Prop := has_flag (mo_flags o) MS_BIND = false /\ bindFlag o = false.

Lemma apply_option_unbound o x :
  one_of ["bind"; "rbind"] x = false -> unbound o -> unbound (apply_option o x).
Proof.
  unfold one_of, existsb. rewrite !orb_false_iff. intros (H1 & H2 & _) [Hf Hb].
  unfold apply_option. rewrite H1, H2. unfold unbound, add_flag.
  repeat case_match; cbn [mo_flags bindFlag]; rewrite ?has_flag_lor, ?Hf; try done; congruence.
Qed.

Lemma allowed_options_kernel hb opts r :
  allowed_options true hb opts = Some r -> Forall (fun x => one_of ["bind"; "rbind"] x = false) opts.
Proof.
  revert hb. induction opts as [|x opts IH]; intros hb; cbn [allowed_options]; [by constructor|].
  destruct (one_of ["bind"; "rbind"] x) eqn:E; [done|]. intros H. constructor; [done|].
  destruct (one_of plain_options x); [by eapply IH|].
  destruct (negb true || negb (IsAllowedMountDataOption x)); [done|by eapply IH].
Qed.

(** A file system of the kernel never shows a directory of the host, so that its
    source need not be checked. *)
Lemma kernel_mount_unbound m :
  IsAllowedType (m_Type m) (Options m) = true -> IsAllowedKernelMountType (m_Type m) = true ->
  unbound (mount_options m).
Proof.
  intros Ha Hk. unfold IsAllowedType in Ha. rewrite Hk in Ha.
  rewrite andb_false_r in Ha. cbn [negb] in Ha.
  destruct (allowed_options true _ _) as [r|] eqn:E; [|done]. apply allowed_options_kernel in E.
  assert (unbound (fold_left apply_option (Options m) no_opts)) as Hu.
  { assert (unbound no_opts) as H0 by done. revert H0. generalize no_opts.
    induction E as [|x l Hx _ IH]; intros o Ho; [done|]. by apply IH, apply_option_unbound. }
  unfold mount_options. cbv zeta.
  assert (String.eqb (m_Type m) "bind" = false /\ String.eqb (m_Type m) "" = false) as [-> ->].
  { apply one_of_elem in Hk. rewrite !elem_of_cons, elem_of_nil in Hk.
    destruct_or! Hk; rewrite Hk; done. }
  done.
Qed.

(** The directories of the host that no container may be shown. *)
Definition host_directories : list string :=
  ["/proc"; "/sys"; "/dev"; "/run"; "/var/run"; "/boot"; "/root"; "/bin"; "/usr/bin";
   "/usr/local/bin"; "/etc/raind"].
(** A mount that may be asked for: its source is not the root of the host, nor one
    of these directories, nor below one - but for the volumes of the runtime, and
    for devices when devices are asked for. *)
Definition may_show (m : MountObject) : Prop :=
  IsAbs (Source m) = true -> reserved host_directories (Source m) ->
  inside (Source m) "/etc/raind/volume/pvc" \/ ("dev" ∈ Options m /\ inside (Source m) "/dev").

(** What the runtime itself shows of the host: some devices, and three files it
    writes for the container. *)
Definition runtime_sources (containerId : string) : list string :=
  ["/dev/null"; "/dev/random"; "/dev/urandom"; "/dev/zero"; "/dev/full"; "/dev/tty"] ++
  ((fun f => "/etc/raind/container/" +:+ containerId +:+ "/etc/" +:+ f) <$>
     ["resolv.conf"; "hostname"; "hosts"]).
Definition kernel_types : list string :=
  ["proc"; "sysfs"; "tmpfs"; "devpts"; "cgroup"; "cgroup2"; "mqueue"].
Definition overlay_data (cfg : ImageConfigObject) : string :=
  "lowerdir=" +:+ join ":" (ImageLayer cfg) +:+ ",upperdir=" +:+ UpperDir cfg +:+
  ",workdir=" +:+ WorkDir cfg.

(** Where what a mount shows comes from. *)
Definition vetted (json_image : string -> res ImageConfigObject) (containerId : string)
    (s : Spec) (c : sys) : Prop :=
  match c with
  | Mount src t ty flags data =>
      if has_flag flags MS_BIND
      then src = "" \/ (src = t /\ within [root_Path (Root s)] t) \/
           src ∈ runtime_sources containerId \/
           exists m, m ∈ Mounts s /\ src = Source m /\ may_show m
      else src = "" \/ ty = "" \/ ty ∈ kernel_types \/
           exists cfg, json_image (Image (Annotations s)) = Ok cfg /\
             c = Mount "overlay" (root_Path (Root s)) (RootfsType cfg) 0 (overlay_data cfg)
  | _ => True
  end.

Lemma validated_may_show m :
  ValidateUserMount m = Ok tt -> IsAllowedKernelMountType (m_Type m) = false -> may_show m.
Proof.
  intros Hv Hk Hs Hr. change host_directories with denied_sources in Hr.
  apply denied_source_reserved in Hr; [|done]. revert Hv. unfold ValidateUserMount. rewrite Hk, Hr.
  destruct (negb _); [done|]. unfold IsAllowedRuntimeVolumeSource, HasMountOption. cbn [andb].
  destruct (IsUnderPath (Source m) "/etc/raind/volume/pvc") eqn:E1.
  { intros _. left. by apply IsUnderPath_inside in E1. }
  destruct (one_of (Options m) "dev" && IsUnderPath (Source m) "/dev") eqn:E2; [|done].
  intros _. right. apply andb_true_iff in E2 as [E2 E3]. apply IsUnderPath_inside in E3; [|done..].
  split; [by apply one_of_elem|done].
Qed.

Section vetted.
Context {St W : Type} {P : Peers sys W} (prejoined : bool).
Context (json_image : string -> res ImageConfigObject) (containerId : string) (s : Spec).
Context (Hroot : IsAbs (root_Path (Root s)) = true).
#[local] Notation Q := (vetted json_image containerId s).

Lemma only_bind_run Q {A B} (m : M St sys W A) (f : A -> M St sys W B) :
  only Q m -> (forall a w w', m w = (Ok a, w') -> only Q (f a)) -> only Q (m ≫= f).
Proof.
  intros Hm Hf w. destruct (Hm w) as (t & Ht & HQ). unfold mbind, M_bind.
  destruct (m w) as [[a|e|e] w1] eqn:E; cbn [snd] in *; [|by exists t..].
  destruct (Hf a w w1 E w1) as (t' & Ht' & HQ'). exists (t ++ t').
  rewrite Ht', Ht, app_assoc. split; [done|]. by apply Forall_app.
Qed.

Lemma filter_missing_sub l (w : world St sys W) l' w' :
  filterMissingManagedFileMounts l w = (Ok l', w') -> forall m, m ∈ l' -> m ∈ l.
Proof.
  revert w l' w'. induction l as [|x l IH]; intros w l' w'; cbn [filterMissingManagedFileMounts].
  { by intros [= <- <-]. }
  intros H m Hm. rewrite elem_of_cons. destruct (isManagedEtcMount x).
  - apply bind_ok in H as (st & w1 & _ & H). apply bind_ok in H as (rest & w2 & H & [= <- <-]).
    destruct st; [apply elem_of_cons in Hm as [->|Hm]; [by left|]|..]; right; by eapply IH.
  - apply bind_ok in H as (rest & w2 & H & [= <- <-]).
    apply elem_of_cons in Hm as [->|Hm]; [by left|]. right. by eapply IH.
Qed.

Lemma propagation_flags p f : mountPropagationFlags p = Some f -> has_flag f MS_BIND = false.
Proof. unfold mountPropagationFlags. repeat case_match; by intros [= <-]. Qed.

(** A mount that is no bind mount, and a bind mount on itself. *)
Lemma vetted_plain src t ty flags data : has_flag flags MS_BIND = false ->
  src = "" \/ ty = "" \/ ty ∈ kernel_types -> Q (Mount src t ty flags data).
Proof. intros Hf H. cbn. rewrite Hf. naive_solver. Qed.
Lemma vetted_remount t flags : Q (Mount "" t "" flags "").
Proof. cbn. destruct (has_flag _ _); by left. Qed.
Lemma vetted_runtime src t ty flags data :
  src ∈ runtime_sources containerId -> has_flag flags MS_BIND = true -> Q (Mount src t ty flags data).
Proof. intros H Hf. cbn. rewrite Hf. auto. Qed.

(** The runtime's own mounts. *)
Lemma own_mounts m : m ∈ defaultContainerMounts containerId ->
  m_Type m <> "cgroup" /\
  if has_flag (mo_flags (mount_options m)) MS_BIND then Source m ∈ runtime_sources containerId
  else m_Type m ∈ kernel_types.
Proof.
  intros Hm. unfold defaultContainerMounts in Hm. cbv zeta in Hm.
  rewrite !elem_of_cons, elem_of_nil in Hm.
  destruct_or! Hm; subst; cbn; try (unfold kernel_types, runtime_sources; split; [done|set_solver]).
Qed.

(** The mount itself; [v2] only for the type [cgroup]. *)
Lemma vetted_mount_call m t (v2 : bool) :
  m ∈ defaultContainerMounts containerId \/ (m ∈ Mounts s /\ ValidateUserMount m = Ok tt) ->
  (v2 = true -> m_Type m = "cgroup") ->
  Q (Mount (if v2 && (String.eqb (Source m) "" || String.eqb (Source m) "cgroup")
            then "cgroup" else Source m) t
      (if String.eqb (if v2 then "cgroup2" else m_Type m) "bind" then ""
       else if v2 then "cgroup2" else m_Type m) (mo_flags (mount_options m))
      (if v2 then "" else join "," (mo_data (mount_options m)))).
Proof.
  intros [Hown|[Hasked Hval]] Hv2.
  { apply own_mounts in Hown as [Hty Hown].
    destruct v2; [by destruct Hty; apply Hv2|]. cbn [andb].
    destruct (has_flag _ MS_BIND) eqn:Ef; [by apply vetted_runtime|].
    apply vetted_plain; [done|]. right. destruct (String.eqb_spec (m_Type m) "bind"); auto. }
  assert (IsAllowedType (m_Type m) (Options m) = true) as Ha.
  { revert Hval. unfold ValidateUserMount. by destruct (IsAllowedType _ _). }
  destruct (IsAllowedKernelMountType (m_Type m)) eqn:Ek.
  - destruct (kernel_mount_unbound m Ha Ek) as [Hf _]. apply vetted_plain; [done|].
    right; right. apply one_of_elem in Ek. destruct v2; [unfold kernel_types; set_solver|].
    destruct (String.eqb_spec (m_Type m) "bind") as [E|_]; [|exact Ek].
    rewrite E in Ek. exfalso. set_solver.
  - destruct v2; [by rewrite Hv2 in Ek|]. cbn [andb].
    destruct (has_flag (mo_flags (mount_options m)) MS_BIND) eqn:Ef.
    + cbn. rewrite Ef. right; right; right. exists m. split_and!; [done..|]. by apply validated_may_show.
    + apply vetted_plain; [done|]. right; left. revert Ha. unfold IsAllowedType. rewrite Ek.
      destruct (String.eqb_spec (m_Type m) ""), (String.eqb_spec (m_Type m) "bind"); done.
Qed.

Lemma vetted_mount_one rootfs m :
  m ∈ defaultContainerMounts containerId \/ (m ∈ Mounts s /\ ValidateUserMount m = Ok tt) ->
  only Q (mount_one (St := St) rootfs m).
Proof.
  intros Hm. unfold mount_one, hostUsesUnifiedCgroupV2. cbv zeta.
  apply only_bind; [apply only_lift|]. intros t.
  apply only_bind; [unfold makeMountpoint; stay; done|]. intros _.
  apply only_bind_run.
  { destruct (String.eqb (m_Type m) "cgroup"); stay; done. }
  intros v2 w0 w0' Hv2.
  assert (v2 = true -> m_Type m = "cgroup") as Hty.
  { intros ->. destruct (String.eqb_spec (m_Type m) "cgroup"); done. }
  apply only_bind.
  - apply only_wrap, only_SecureMount; [by apply vetted_mount_call|]. intros f. apply vetted_remount.
  - intros _. apply only_when. intros _. apply only_wrap. unfold applyMountPropagation.
    destruct (mountPropagationFlags _) as [f|] eqn:E; [|apply only_fail]. apply only_do.
    apply vetted_remount.
Qed.

Lemma vetted_mountFilesystem b :
  only Q (mountFilesystem (St := St) prejoined containerId (root_Path (Root s)) (Mounts s) b).
Proof.
  unfold mountFilesystem. cbv zeta. apply only_bind_run.
  { destruct b; [apply only_ret|].
    generalize (if prejoined then filterRootlessPrejoinedMounts (baseMountsForMode containerId false)
      else baseMountsForMode containerId false). intros l.
    induction l as [|m l IH]; cbn [filterMissingManagedFileMounts]; [stay|].
    destruct (isManagedEtcMount m); stay; done. }
  intros base w w' Hbase.
  assert (forall m, m ∈ base -> m ∈ defaultContainerMounts containerId) as Hsub.
  { intros m Hm. destruct b; [injection Hbase as <- _; by apply not_elem_of_nil in Hm|].
    eapply filter_missing_sub in Hbase; [|done]. cbn [baseMountsForMode] in Hbase.
    destruct prejoined; [|done]. unfold filterRootlessPrejoinedMounts in Hbase.
    by apply filter_elem in Hbase as [_ ?]. }
  apply only_lift_bind. intros [] Hval. apply check_each_ok in Hval. rewrite Forall_forall in Hval.
  apply only_each. intros m [Hm|Hm]%elem_of_app; apply vetted_mount_one; [left|right]; auto.
Qed.

Lemma vetted_setupOverlay :
  only Q (setupOverlay (St := St) json_image (root_Path (Root s)) (Image (Annotations s))).
Proof.
  unfold setupOverlay, makeMountsPrivate, ensureOverlayManagedFileTargets.
  stay; try done; try apply vetted_remount.
  cbn. right; right; right. eauto.
Qed.

Lemma vetted_std_device : only Q (mountStdDevice (St := St) (root_Path (Root s))).
Proof.
  unfold mountStdDevice. apply only_each. intros d Hd. cbv zeta. stay; try done.
  - apply vetted_runtime; [|done]. unfold runtime_sources.
    rewrite !elem_of_cons, elem_of_nil in Hd. destruct_or! Hd; subst; cbn; set_solver.
  - apply vetted_remount.
Qed.
Lemma vetted_masked l : only Q (applyMaskedPaths (St := St) (root_Path (Root s)) l).
Proof.
  unfold applyMaskedPaths. apply only_each. intros x _. cbv zeta. stay; try done; try apply vetted_remount.
  all: first [by apply vetted_runtime; [unfold runtime_sources; cbn; set_solver|]
             | apply vetted_plain; [done|unfold kernel_types; set_solver]].
Qed.
Lemma vetted_readonly l : only Q (applyReadonlyPaths (St := St) (root_Path (Root s)) l).
Proof.
  unfold applyReadonlyPaths. apply only_each. intros x _. apply only_lift_bind. intros t Ht.
  destruct (SecurePath_inside _ _ _ Hroot Ht) as (_ & _ & Hin).
  stay; try done; try apply vetted_remount. cbn. right; left. split; [done|].
  exists (root_Path (Root s)). split; [by left|done].
Qed.
End vetted.


(** ** What a checked bundle promises *)

(** Once a bundle passed the checks, the init process finds nothing in it that
    it would have to refuse or would silently leave out: every capability and
    limit has a number, every device a type, every namespace is one it knows, and
    the score is one the kernel takes. *)
Theorem ValidateBasic_covers_init Readlink s :
  ValidateBasic Readlink s = Ok tt ->
  let caps := Capabilities (Process s) in
  Forall (fun l => ToCaps l = l)
    [Bounding caps; Permitted caps; Inheritable caps; Effective caps; Ambient caps] /\
  Forall (fun r => exists n, RlimitResource (rl_Type r) = Some n) (Rlimits (Process s)) /\
  Forall (fun d => exists m, DeviceMode d = Ok m) (Devices (LinuxSpec s)) /\
  Forall (fun ns => ns_Type ns ∈ namespace_types) (Namespaces (LinuxSpec s)) /\
  (forall v, OOMScoreAdj (Process s) = Some v -> -1000 <= v <= 1000).
Proof.
  unfold ValidateBasic. cbv zeta. repeat (case_match; [done|]).
  intros ([] & _ & Hv)%res_bind_ok. apply res_bind_ok in Hv as ([] & Hoom & Hv).
  apply res_bind_ok in Hv as ([] & Hns & Hv). apply res_bind_ok in Hv as ([] & _ & Hv).
  apply res_bind_ok in Hv as ([] & _ & Hv). apply res_bind_ok in Hv as ([] & _ & Hv).
  apply res_bind_ok in Hv as ([] & Hdev & Hv). apply res_bind_ok in Hv as ([] & _ & Hv).
  apply res_bind_ok in Hv as ([] & Hcap & Hrl).
  apply check_each_ok in Hns, Hdev, Hcap, Hrl. split_and!.
  - assert (forall l, Forall (fun x => check_capability x = Ok tt) l -> ToCaps l = l) as Hid.
    { intros l. induction 1 as [|c l Hc _ IH]; [done|]. unfold ToCaps in *. cbn [List.filter].
      unfold check_capability in Hc. apply guard_res_ok in Hc. rewrite negb_false_iff in Hc.
      change supportedCapabilities with CapNames in Hc. by rewrite Hc, IH. }
    unfold appendCapabilityNames in Hcap. rewrite !Forall_app in Hcap.
    destruct Hcap as (Hc1 & Hc2 & Hc3 & Hc4 & Hc5). repeat constructor; by apply Hid.
  - eapply Forall_impl; [exact Hrl|]. intros r Hr. unfold check_rlimit in Hr.
    apply guard_res_ok in Hr. rewrite negb_false_iff in Hr. apply one_of_elem in Hr.
    unfold RlimitResource. set (n := toUpper _) in *. clearbody n.
    unfold supportedRlimits in Hr. rewrite !elem_of_cons, elem_of_nil in Hr.
    destruct_or! Hr; subst n; by eexists.
  - eapply Forall_impl; [exact Hdev|]. intros d Hd. unfold check_device in Hd.
    destruct (String.eqb (trimSpace (dev_Path d)) ""); [done|]. apply guard_res_ok in Hd.
    rewrite negb_false_iff in Hd. apply one_of_elem in Hd. unfold DeviceMode.
    rewrite !elem_of_cons, elem_of_nil in Hd. destruct_or! Hd; rewrite Hd; by eexists.
  - eapply Forall_impl; [exact Hns|]. intros ns Hn. unfold check_namespace in Hn.
    destruct (one_of namespace_types (ns_Type ns)) eqn:E; [|done]. by apply one_of_elem.
  - intros v Hv. rewrite Hv in Hoom. unfold check_oom in Hoom. apply guard_res_ok in Hoom. lia.
Qed.

(** ** Runs *)
Module Demo.

(** A kernel in which every call succeeds. *)
#[export] Instance kernel : Peers sys unit := fun c i => (Ok "", i).

Definition w0 : world unit sys unit :=
  {| store := tt; faults := []; times := []; ids := []; trace := []; inner := tt |}.

Definition spec0 : Spec :=
  let s := spec_with_namespaces [] in
  {| OciVersion := "1.3.0"; Root := {| root_Path := "/srv/merged"; root_Readonly := false |};
     Mounts := [mnt "/data" "bind" "/srv/data" ["ro"]]; Process := Process s; Hostname := "c1";
     LinuxSpec := LinuxSpec s; Hooks := Hooks s; Annotations := Annotations s |}.

Definition no_json {A} (_ : string) : res A := Err "no JSON".

Example prepare_root_stays_witness :
  exists t, trace (prepare_root (fun _ _ => 0) no_json no_json false "" no_json "c1" spec0 w0).2 = [] ++ t /\
    Forall (stays ["/srv/merged"]) t.
Proof.
  exact (prepare_root_stays (fun _ _ => 0) no_json no_json false "" no_json "c1" spec0 w0 eq_refl
           ltac:(discriminate)).
Defined.

(** The host directory asked for is shown, and a directory of the system is not. *)
Definition begun := prepare_root (fun _ _ => 0) no_json no_json false "" no_json "c1" spec0 w0.
Example data_shown :
  begun.1 = Ok tt /\ Mount "/srv/data" "/srv/merged/data" "" (Z.lor MS_RDONLY MS_BIND) "" ∈ trace begun.2.
Proof. split; [vm_compute; reflexivity|]. apply list_elem_of_In. vm_compute. tauto. Qed.

(** A run to its end: the hash is compared, the signal awaited, everything prepared. *)
Definition ran := Execute (fun _ _ => 0) no_json no_json false "" no_json (fun _ => Ok spec0)
  "c1" "/run/exec.fifo" ["/bin/sh"; "-c"] w0.
Example ran_trace :
  take 5 (trace ran.2) =
    [ReadJson "/etc/raind/container/c1/config_hash.json"; Sha256File "/etc/raind/container/c1/config.json";
     ReadJson "/etc/raind/container/c1/config.json"; Remove "/etc/raind/container/c1/config_hash.json";
     ReadFifo "/run/exec.fifo"] /\
  last (trace ran.2) = Some (Exec "/bin/sh" ["/bin/sh"; "-c"] (Env (Process spec0))).
Proof. vm_compute. split; reflexivity. Qed.
Example exec_only_when_prepared_witness :
  exists t, trace ran.2 = [] ++ t /\
    (Forall not_exec t \/
     exists t0 c, t = t0 ++ [c] /\ Forall not_exec t0 /\
       executed (fun _ _ => 0) no_json no_json false "" (fun _ => Ok spec0) no_json "c1" "/run/exec.fifo"
         ["/bin/sh"; "-c"] w0 ran.2).
Proof.
  exact (exec_only_when_prepared (fun _ _ => 0) no_json no_json false "" (fun _ => Ok spec0) no_json
    "c1" "/run/exec.fifo" ["/bin/sh"; "-c"] w0).
Defined.

Example SealAndLoad_sealed_witness :
  exists h text i1 i2 i3 i4,
    perform (Sha256File (ConfigFilePath "" "c1")) (inner w0) = (Ok h, i1) /\
    (exists r, perform (WriteJson (ConfigFileHashPath "" "c1") h) i1 = (Ok r, i2)) /\
    perform (ReadJson (ConfigFilePath "" "c1")) i2 = (Ok text, i3) /\
    (fun _ => Ok spec0) text = Ok spec0 /\
    perform (Sha256File (ConfigFilePath "" "c1")) i3 = (Ok h, i4).
Proof.
  pose (w' := (SealAndLoad (St := unit) (P := kernel) "" (fun _ => Ok spec0) "c1" w0).2).
  assert (SealAndLoad "" (fun _ => Ok spec0) "c1" w0 = (Ok spec0, w')) as H by (vm_compute; reflexivity).
  destruct (SealAndLoad_sealed "" (fun _ => Ok spec0) "c1" w0 w' spec0 H)
    as (h & text & i1 & i2 & i3 & i4 & H1 & H2 & H3 & H4 & H5 & _).
  exists h, text, i1, i2, i3, i4. done.
Defined.

Definition checked : Spec :=
  let s := spec0 in
  {| OciVersion := "1.0.2"; Root := Root s; Mounts := [];
     Process := {| Cwd := "/"; Env := ["PATH"]; Args := ["sh"]; Terminal := false; ConsoleSize := None;
       OOMScoreAdj := Some 500; Capabilities := {| Bounding := ["CAP_KILL"]; Permitted := [];
         Inheritable := []; Effective := ["CAP_KILL"]; Ambient := [] |};
       User := User (Process s);
       Rlimits := [{| rl_Type := "RLIMIT_NOFILE"; Hard := 1024; Soft := 1024 |}];
       NoNewPrivileges := true |};
     Hostname := ""; LinuxSpec := LinuxSpec s; Hooks := Hooks s; Annotations := Annotations s |}.

Example ValidateBasic_covers_init_witness :
  ToCaps (Bounding (Capabilities (Process checked))) = Bounding (Capabilities (Process checked)).
Proof.
  destruct (ValidateBasic_covers_init (fun _ => Err "") checked eq_refl) as (H & _).
  exact (Forall_inv H).
Defined.

(** The same bundle passes the checks and then stops the init process with a
    panic: its environment has an entry without [=]. *)
Example environment_is_not_checked :
  ValidateBasic (fun _ => Err "") checked = Ok tt /\
  (prepare_root (St := unit) (fun _ _ => 0) no_json no_json false "" no_json "c1" checked w0).1 =
    Panic "index out of range [1] with length 1".
Proof. done. Qed.

(** A capability that is added under a name the runtime does not know is left
    out without a word. *)
Example unknown_capability_is_dropped :
  mergeCapabilities ["CAP_KILL"] ["net-admin"] [] = ["CAP_KILL"; "CAP_NET-ADMIN"] /\
  ToCaps ["CAP_KILL"; "CAP_NET-ADMIN"] = ["CAP_KILL"].
Proof. done. Qed.

(** A file system mounted on [//] passes both guards and covers the root. *)
Example mount_over_the_root :
  (mountFilesystem (St := unit) false "c1" "/srv/merged" [mnt "//" "tmpfs" "tmpfs" []] true w0).1 = Ok tt /\
  Mount "tmpfs" "/srv/merged" "tmpfs" 0 "" ∈
    trace (mountFilesystem (St := unit) false "c1" "/srv/merged" [mnt "//" "tmpfs" "tmpfs" []] true w0).2.
Proof. split; [done|]. right. left. Qed.

End Demo.
