(* ===== verification/RuntimeStatus.v ===== *)
(** * The state files of the runtime ([droplet/status], [statusflow])

    One [state.json] per container: its status, process identifiers and exit
    code; and the decisions on them. *)

From Stdlib Require Import ZArith Lia Ascii String.
From stdpp Require Import base gmap strings list.
From S2P Require Import Prelude.
From S2P Require Import GoString.
From S2P Require Import World.
From S2P Require Import RuntimeSpec.
From S2P Require Import Kernel.
Open Scope Z_scope.

(** ** Status ([status.go]) *)

Record StatusObject := {
  so_OciVersion : string;
  Id : string;
  Status : string;
  ExitCode : Z;
  Reason : string;
  Message : string;
  Pid : Z;
  ShimPid : Z;
  so_Rootfs : string;
  Bundle : string;
  Annotation : AnnotationObject
}.

Inductive ContainerStatus := CREATING | CREATED | RUNNING | STOPPED.

#[export] Instance ContainerStatus_eq : EqDecision ContainerStatus.
Proof. solve_decision. Defined.

Definition status_String (s : ContainerStatus) : string :=
  match s with
  | CREATING => "creating"
  | CREATED => "created"
  | RUNNING => "running"
  | STOPPED => "stopped"
  end.

Definition ParseContainerStatus (s : string) : res ContainerStatus :=
  let l := toLower s in
  if String.eqb l "creating" then Ok CREATING
  else if String.eqb l "created" then Ok CREATED
  else if String.eqb l "running" then Ok RUNNING
  else if String.eqb l "stopped" then Ok STOPPED
  else Err ("invalid status: " +:+ quoted s).

Lemma Parse_String s : ParseContainerStatus (status_String s) = Ok s.
Proof. by destruct s. Qed.

(** ** The state files ([status_io.go])

    The store maps a container to what its file decodes to; a container without
    an entry has no file.  Faults are those of reading and writing. *)

Notation states := (gmap string StatusObject).

Section manager.
Context {W : Type} {P : Peers sys W}.
Notation M := (M states sys W).

Definition ReadJsonFile (id : string) : M StatusObject :=
  read (fun st => match st !! id with Some o => Ok o | None => Err ENOENT end).
Definition WriteJsonToFile (id : string) (o : StatusObject) : M unit :=
  txn (fun st => Ok (<[id := o]> st, tt)).

Definition CreateStatusFile (id : string) (pid : Z) (s : ContainerStatus) (rootfs bundle : string)
    (a : AnnotationObject) : M unit :=
  WriteJsonToFile id
    {| so_OciVersion := "1.3.0"; Id := id; Status := status_String s; ExitCode := 0; Reason := "";
       Message := ""; Pid := pid; ShimPid := 0; so_Rootfs := rootfs; Bundle := bundle;
       Annotation := a |}.

Definition RemoveStatusFile (id : string) : M unit :=
  txn (fun st => match st !! id with
                 | Some _ => Ok (delete id st, tt)
                 | None => Err ENOENT
                 end).

(** A negative number leaves the field as it is. *)
Definition set_status (s : ContainerStatus) (pid shimPid : Z) (o : StatusObject) : StatusObject :=
  {| so_OciVersion := so_OciVersion o; Id := Id o; Status := status_String s;
     ExitCode := ExitCode o; Reason := Reason o; Message := Message o;
     Pid := if 0 <=? pid then pid else Pid o;
     ShimPid := if 0 <=? shimPid then shimPid else ShimPid o;
     so_Rootfs := so_Rootfs o; Bundle := Bundle o; Annotation := Annotation o |}.

Definition UpdateStatus (id : string) (s : ContainerStatus) (pid shimPid : Z) : M unit :=
  o ← ReadJsonFile id; WriteJsonToFile id (set_status s pid shimPid o).

Definition set_exit (code : Z) (o : StatusObject) : StatusObject :=
  {| so_OciVersion := so_OciVersion o; Id := Id o; Status := Status o;
     ExitCode := code; Reason := Reason o; Message := Message o; Pid := Pid o;
     ShimPid := ShimPid o; so_Rootfs := so_Rootfs o; Bundle := Bundle o;
     Annotation := Annotation o |}.
Definition UpdateExitCode (id : string) (code : Z) : M unit :=
  o ← ReadJsonFile id; WriteJsonToFile id (set_exit code o).

Definition set_reason (reason message : string) (o : StatusObject) : StatusObject :=
  {| so_OciVersion := so_OciVersion o; Id := Id o; Status := Status o;
     ExitCode := ExitCode o; Reason := reason; Message := message; Pid := Pid o;
     ShimPid := ShimPid o; so_Rootfs := so_Rootfs o; Bundle := Bundle o;
     Annotation := Annotation o |}.
Definition UpdateReasonAndMessage (id reason message : string) : M unit :=
  o ← ReadJsonFile id; WriteJsonToFile id (set_reason reason message o).

Definition GetPidFromId (id : string) : M Z := o ← ReadJsonFile id; mret (Pid o).
Definition GetShimPidFromId (id : string) : M Z := o ← ReadJsonFile id; mret (ShimPid o).

Definition ESRCH : error := "no such process".
Definition EPERM : error := "operation not permitted".

Definition pidAlive (pid : Z) : M bool :=
  if pid <=? 0 then mret false else
  r ← attempt (call (Signal pid 0));
  mret (match r with
        | Ok _ => true
        | Err e => if String.eqb e ESRCH then false else String.eqb e EPERM
        | Panic _ => false
        end).

Definition recomputeStatus (id : string) (pid : Z) (current : ContainerStatus) : M unit :=
  if decide (current = RUNNING)
  then alive ← pidAlive pid;
       if (alive : bool) then mret tt else UpdateStatus id STOPPED 0 0
  else mret tt.

Definition parse_status (o : StatusObject) : M ContainerStatus :=
  match ParseContainerStatus (Status o) with
  | Ok s => mret s | Err e => fail e | Panic e => crash e
  end.

(** [ReadStatusFile]: the file after the status was brought up to date. *)
Definition ReadStatusFile (id : string) : M StatusObject :=
  o ← ReadJsonFile id;
  current ← parse_status o;
  _ ← recomputeStatus id (Pid o) current;
  ReadJsonFile id.

Definition GetStatusFromId (id : string) : M ContainerStatus :=
  o ← ReadStatusFile id; parse_status o.

(** [ListContainers]: [entries] is what [ReadDir] gives; a container without a
    file is skipped. *)
Fixpoint ListContainers (entries : list (string * bool)) : M (list StatusObject) :=
  match entries with
  | [] => mret []
  | (id, isDir) :: entries =>
      if negb isDir then ListContainers entries else
      r ← attempt (ReadJsonFile id);
      match r with
      | Ok o =>
          current ← parse_status o;
          _ ← recomputeStatus (Id o) (Pid o) current;
          r ← attempt (ReadJsonFile id);
          match r with
          | Ok o => rest ← ListContainers entries; mret (o :: rest)
          | _ => ListContainers entries
          end
      | _ => ListContainers entries
      end
  end.

(** ** Decisions ([statusflow.go]) *)

Definition EnsureCreated (id : string) (current : ContainerStatus) : M unit :=
  if decide (current = CREATED) then mret tt
  else fail ("container: " +:+ id +:+ " is not created. currnet status: " +:+ status_String current).
Definition EnsureRunning (id : string) (current : ContainerStatus) : M unit :=
  if decide (current = RUNNING) then mret tt else fail ("container: " +:+ id +:+ " not running.").
End manager.

Definition IsAllowed (current : ContainerStatus) (allowed : list ContainerStatus) : bool :=
  bool_decide (current ∈ allowed).
Definition CanDelete (current : ContainerStatus) (force : bool) : bool :=
  bool_decide (current = STOPPED) || force.
Definition ShouldKillBeforeDelete (current : ContainerStatus) (force : bool) : bool :=
  bool_decide (current = CREATED) || (bool_decide (current = RUNNING) && force).
Definition KillTransition (current : ContainerStatus) (signalName : string)
    : ContainerStatus * Z * Z * bool :=
  if bool_decide (current = CREATED) || String.eqb signalName "TERM" || String.eqb signalName "KILL"
  then (STOPPED, 0, 0, true) else (RUNNING, -1, -1, false).
