(* ===== verification/RuntimeLifecycle.v ===== *)
(** * The operations of the runtime on a container
      ([droplet/container/{bundle,create,start,kill,delete,exec,run,shim}], [droplet/hook])

    [create], [start], [kill], [delete], [exec] and [run] as the command line
    calls them, the hooks they run, and what the supervisor of a container writes
    when its process ends. *)

From Stdlib Require Import ZArith Lia Ascii String.
From stdpp Require Import base gmap strings list.
From S2P Require Import Prelude.
From S2P Require Import GoString.
From S2P Require Import GoPath.
From S2P Require Import GoNumber.
From S2P Require Import World.
From S2P Require Import RuntimeSpec.
From S2P Require Import Kernel.
From S2P Require Import RuntimeNs.
From S2P Require Import RuntimeInit.
From S2P Require Import RuntimeStatus.
Open Scope Z_scope.

(** ** Signals ([signals.go]) *)

Definition signal_map : list (string * Z) :=
  [("TERM", 15); ("KILL", 9); ("INT", 2); ("HUP", 1); ("QUIT", 3); ("USR1", 10); ("USR2", 12);
   ("STOP", 19); ("CONT", 18)].

Definition signals_Parse (input : string) : res (string * Z) :=
  let name := trimSpace input in
  let name := if String.eqb name "" then "TERM" else name in
  match Atoi name with
  | Ok n => if n <? 0 then Err ("invalid signal: " +:+ input) else Ok (itoa n, n)
  | _ =>
      let name := trimPrefix (toUpper name) "SIG" in
      match first_match (fun kv => String.eqb kv.1 name) signal_map with
      | Some (_, sig) => Ok (name, sig)
      | None => Err ("unsupported signal: " +:+ input)
      end
  end.

(** ** Process information *)

(** [s[strings.LastIndex(s, c)+1:]]. *)
Fixpoint after_last (c : ascii) (s : string) : option string :=
  match s with
  | EmptyString => None
  | String x r =>
      match after_last c r with
      | Some t => Some t
      | None => if Ascii.eqb x c then Some r else None
      end
  end.

Definition ParseProcStatFields (s : string) : res (list string) :=
  match after_last ")"%char s with
  | None => Err "invalid stat format"
  | Some rest =>
      let l := fields rest in
      if (length l <? 20)%nat then Err "invalid stat format" else Ok l
  end.

(** ** Exit codes ([shim.go]) *)

(** [code] is [ExitCode()], [-1] for a process ended by a signal; [signal] the
    signal of the wait status. *)
Definition InitExitCode (code : Z) (signal : option Z) : Z :=
  if 0 <=? code then code else
  match signal with Some n => 128 + n | None => -1 end.

Section lifecycle.
Context {W : Type} {P : Peers sys W}.
Notation M := (M states sys W).

(** [RAIND_ROOT_DIR], [os.Getwd], [os.Readlink], [SelfBinPath], the codecs of
    JSON, and the plan of a rootless container ([RuntimeNs.PlanFromSpec]). *)
Context (root_dir : string) (cwd : res string) (Readlink : string -> res string)
  (SelfBinPath : string)
  (json_spec : string -> res Spec) (spec_json : Spec -> res string)
  (state_json : StatusObject -> string) (json_net : string -> res NetConfigObject)
  (json_image : string -> res ImageConfigObject)
  (json_rootless : string -> res RootlessConfigObject) (PlanOf : Spec -> Plan)
  (in_user_namespace : bool).

Notation loadFile := (loadFile (St := states) root_dir json_spec).

(** ** Bundles ([bundle.go]) *)

Definition PathForContainer (id bundle : string) : M string :=
  if String.eqb bundle "" then mret (ContainerDir root_dir id) else
  abs ← lift (Abs cwd bundle);
  info ← wrap "stat bundle" (call (Stat abs));
  if String.eqb info DIR then mret abs else fail ("bundle is not a directory: " +:+ abs).

Definition ResolveRootPath (bundlePath rootPath : string) : string :=
  if String.eqb rootPath "" || IsAbs rootPath then rootPath else Join [bundlePath; rootPath].

Definition with_root (s : Spec) (p : string) : Spec :=
  {| OciVersion := OciVersion s; Root := {| root_Path := p; root_Readonly := root_Readonly (Root s) |};
     Mounts := Mounts s; Process := Process s; Hostname := Hostname s; LinuxSpec := LinuxSpec s;
     Hooks := Hooks s; Annotations := Annotations s |}.

Definition PrepareConfig (id bundle : string) : M unit :=
  if String.eqb bundle "" then mret tt else
  bundlePath ← PathForContainer id bundle;
  s ← wrap "load bundle config"
        (text ← call (ReadJson (Join [bundlePath; "config.json"])); lift (json_spec text));
  _ ← wrap "validate bundle config" (lift (ValidateBasic Readlink s));
  let s := with_root s (ResolveRootPath bundlePath (root_Path (Root s))) in
  _ ← wrap "create runtime bundle dir" (do (MkdirAll (Join [ContainerDir root_dir id; "logs"]) 493));
  wrap "write runtime config"
    (text ← lift (spec_json s); do (WriteJson (ConfigFilePath root_dir id) text)).

Definition WriteContainerPidFile (pidFile : string) (pid : Z) : M unit :=
  if String.eqb pidFile "" then mret tt else
  _ ← do (MkdirAll (Dir pidFile) 493);
  do (WriteFile pidFile (itoa pid)).

Definition WriteExternalPidFileMarker (id pidFile : string) : M unit :=
  if String.eqb pidFile "" then mret tt else
  do (WriteFile (ExternalPidFileMarkerPath root_dir id) pidFile).

(** ** Hooks ([hook_executor.go]) *)

(** The first argument is the name of the program in OCI; options come as they
    are. *)
Definition commandArgsFromOCIArgs (args : list string) : list string :=
  match args with
  | [] => []
  | a :: rest => if hasPrefix a "-" then args else rest
  end.

Definition hook_timeout (h : HookObject) : option Z :=
  match Timeout h with
  | Some t => if t <=? 0 then None else Some t
  | None => None
  end.

Fixpoint run_hooks (phase : string) (i : Z) (cmd : HookObject -> string * list string)
    (stdin : string) (hooks : list HookObject) : M unit :=
  match hooks with
  | [] => mret tt
  | h :: hooks =>
      if String.eqb (hook_Path h) ""
      then fail ("hook " +:+ phase +:+ "[" +:+ itoa i +:+ "]: empty path") else
      _ ← wrap ("hook " +:+ phase +:+ "[" +:+ itoa i +:+ "] failed")
            (do (RunCommand (cmd h).1 (cmd h).2 (hook_Env h) stdin (hook_timeout h)));
      run_hooks phase (i + 1) cmd stdin hooks
  end.

Definition runHookList (id phase : string) (hooks : list HookObject) : M unit :=
  o ← ReadStatusFile id;
  run_hooks phase 0 (fun h => (hook_Path h, commandArgsFromOCIArgs (hook_Args h)))
    (state_json o) hooks.

Definition runHookListWithNsenter (id phase : string) (hooks : list HookObject) : M unit :=
  o ← ReadStatusFile id;
  initPid ← GetPidFromId id;
  run_hooks phase 0 (fun h => ("/usr/bin/nsenter",
      ["-t"; itoa initPid; "-m"; "-u"; "-i"; "-n"; "-p"; "--"; hook_Path h] ++
      commandArgsFromOCIArgs (hook_Args h)))
    (state_json o) hooks.

Definition unless_empty (hooks : list HookObject) (m : M unit) : M unit :=
  match hooks with [] => mret tt | _ => m end.

Definition RunCreateRuntimeHooks (id : string) (l : list HookObject) : M unit :=
  unless_empty l (runHookList id "createRuntime" l).
Definition RunCreateContainerHooks (id : string) (l : list HookObject) : M unit :=
  unless_empty l (runHookList id "createContainer" l).
Definition RunStartContainerHooks (id : string) (l : list HookObject) : M unit :=
  unless_empty l (runHookListWithNsenter id "startContainer" l).
Definition RunPoststartHooks (id : string) (l : list HookObject) : M unit :=
  unless_empty l (runHookList id "poststart" l).
Definition RunStopContainerHooks (id : string) (l : list HookObject) : M unit :=
  unless_empty l (runHookList id "stopContainer" l).
Definition RunPoststopHooks (id : string) (l : list HookObject) : M unit :=
  unless_empty l (runHookList id "poststop" l).

(** ** Limits ([cgroup.go]) *)

Definition HasResourceConfig (r : ResourceObject) : bool :=
  (0 <? MemoryLimit r) || ((0 <? Quota (Cpu r)) && (0 <? Period (Cpu r))) || (0 <? PidsLimit r).

Definition newline : string := String "010" "".

Definition PrepareCgroup (id : string) (s : Spec) (pid : Z) : M unit :=
  let r := Resources (LinuxSpec s) in
  let file (n : string) := Join [CgroupPath id; n] in
  if negb (HasResourceConfig r) then mret tt else
  _ ← do (MkdirAll (CgroupPath id) 493);
  _ ← when (0 <? MemoryLimit r) (do (WriteFile (file "memory.max") (itoa (MemoryLimit r) +:+ newline)));
  _ ← when (negb ((Quota (Cpu r) <=? 0) || (Period (Cpu r) <=? 0)))
        (do (WriteFile (file "cpu.max")
               (itoa (Quota (Cpu r)) +:+ " " +:+ itoa (Period (Cpu r)) +:+ newline)));
  _ ← when (0 <? PidsLimit r) (do (WriteFile (file "pids.max") (itoa (PidsLimit r) +:+ newline)));
  do (WriteFile (file "cgroup.procs") (itoa pid +:+ newline)).

(** ** Network ([network.go]) *)

Definition BuildContainerVethPeerName (id : string) : string :=
  "rp_" +:+ (if (12 <? String.length id)%nat then take_str 12 id else id).
Definition BuildRootlessNetnsName (id : string) : string := "rn_" +:+ BuildContainerVethPeerName id.
Definition BuildNamedNetnsPath (name : string) : string := "/run/netns/" +:+ name.
Definition BuildProcessNetnsPath (pid : Z) : string := "/proc/" +:+ itoa pid +:+ "/ns/net".

Definition runNetworkCommand (step name : string) (args : list string) : M unit :=
  wrap ("network command " +:+ step +:+ " failed") (do (RunCommand name args [] "" None)).

Definition cleanup_netns (path : string) : M unit :=
  runNetworkCommand "cleanup_container_netns" "sh"
    ["-c"; "umount " +:+ quoted path +:+ " 2>/dev/null || true; rm -f " +:+ quoted path].

Definition createVethPair (id : string) (pid : Z) (cfg : NetConfigObject) (rootless : bool) : M unit :=
  let host := if_Name (Interface cfg) in
  let peer := BuildContainerVethPeerName id in
  let netnsName := BuildRootlessNetnsName id in
  let netnsPath := BuildNamedNetnsPath netnsName in
  _ ← runNetworkCommand "create_veth_pair" "ip"
        ["link"; "add"; "name"; host; "type"; "veth"; "peer"; "name"; peer];
  _ ← when rootless (
        _ ← cleanup_netns netnsPath;
        _ ← runNetworkCommand "ensure_netns_dir" "mkdir" ["-p"; "/run/netns"];
        _ ← runNetworkCommand "ensure_netns_file" "touch" [netnsPath];
        runNetworkCommand "bind_container_netns" "mount"
          ["--bind"; BuildProcessNetnsPath pid; netnsPath]);
  _ ← runNetworkCommand "move_veth_peer_to_netns" "ip"
        ["link"; "set"; peer; "netns"; if rootless then netnsName else itoa pid];
  _ ← when rootless (cleanup_netns netnsPath);
  _ ← runNetworkCommand "attach_veth_to_bridge" "ip"
        ["link"; "set"; host; "master"; BridgeInterface cfg];
  runNetworkCommand "up_host_veth" "ip" ["link"; "set"; host; "up"].

Definition setupContainerNetns (id : string) (pid : Z) (cfg : NetConfigObject) (rootless : bool)
    : M unit :=
  let nsenter (step : string) (args : list string) :=
    runNetworkCommand step "nsenter"
      (["-t"; itoa pid] ++ (if rootless then ["-U"; "--setuid"; "0"; "--setgid"; "0"] else []) ++
       ["-n"] ++ args) in
  _ ← nsenter "up_loopback_in_netns" ["ip"; "link"; "set"; "lo"; "up"];
  _ ← nsenter "rename_veth_in_netns"
        ["ip"; "link"; "set"; BuildContainerVethPeerName id; "name"; "eth0"];
  _ ← nsenter "assign_addr_in_netns" ["ip"; "addr"; "add"; if_Address (Interface cfg); "dev"; "eth0"];
  _ ← nsenter "up_veth_in_netns" ["ip"; "link"; "set"; "eth0"; "up"];
  nsenter "set_gateway_in_netns"
    ["ip"; "route"; "add"; "default"; "via"; if_Gateway (Interface cfg)].

(** [WaitProcessNetnsReady] asks until the deadline: [polls] times. *)
Fixpoint WaitProcessNetnsReady (polls : nat) (pid : Z) : M unit :=
  r ← attempt (call (Stat (BuildProcessNetnsPath pid)));
  match r, polls with
  | Ok _, _ => mret tt
  | _, O => fail ("container init network namespace is not available: pid=" +:+ itoa pid)
  | _, S polls => WaitProcessNetnsReady polls pid
  end.

Definition PrepareNetwork (polls : nat) (id : string) (pid : Z) (a : AnnotationObject) : M unit :=
  if String.eqb (trimSpace (Net a)) "" then mret tt else
  cfg ← lift (json_net (Net a));
  let rootless := IsAnnotation json_rootless a in
  if String.eqb (if_Name (Interface cfg)) "" || String.eqb (if_Address (Interface cfg)) ""
  then mret tt else
  _ ← when rootless (WaitProcessNetnsReady polls pid);
  _ ← createVethPair id pid cfg rootless;
  setupContainerNetns id pid cfg rootless.

(** ** Rootless preparation ([create.go], [rootless/filesystem.go]) *)

Definition RewriteContainerSpecAndHash (id : string) (s : Spec) : M unit :=
  text ← lift (spec_json s);
  _ ← do (WriteJson (ConfigFilePath root_dir id) text);
  WriteCurrent root_dir id.

Definition PrepareWritableFilesystem (s : Spec) : M unit :=
  match ConfigFromSpec json_rootless s with
  | None => mret tt
  | Some _ =>
      if in_user_namespace then mret tt else
      cfg ← lift (json_image (Image (Annotations s)));
      each (fun p => if String.eqb p "" then mret tt
                     else wrap ("chown rootless writable path " +:+ quoted p) (do (ChownTree p)))
        [UpperDir cfg; WorkDir cfg; root_Path (Root s)]
  end.

Definition PrepareSpec (id : string) (s : Spec) : M (Spec * Plan) :=
  let plan := PlanOf s in
  if negb (p_Enabled plan) then mret (s, plan) else
  text ← call (ShiftLayers id);
  updated ← lift (json_spec text);
  _ ← RewriteContainerSpecAndHash id updated;
  mret (updated, plan).

Definition PrepareRuntime (fifo : string) (s : Spec) (plan : Plan) : M unit :=
  if negb (p_Enabled plan) then mret tt else
  _ ← when (ShouldPrepareHostOwnedFiles plan)
        (do (Chown fifo (p_HostRootUID plan) (p_HostRootGID plan)));
  PrepareWritableFilesystem s.

(** ** Supervision ([InitSupervisor]) *)

Definition cleanupShimFile (id : string) : M unit :=
  _ ← ignore (call (Remove (SockPath root_dir id)));
  ignore (call (Remove (InitPidFilePath root_dir id))).

Definition executeShim (id : string) (s : Spec) (fifo : string) (tty : bool) (consoleSocket : string)
    : M Z :=
  text ← call (StartCommand SelfBinPath
    (["shim"] ++ (if tty then ["--tty"] else []) ++
     (if String.eqb consoleSocket "" then [] else ["--console-socket"; consoleSocket]) ++
     [id; fifo] ++ Args (Process s)));
  lift (Atoi text).

Definition tryReadPidFile (id : string) : M (option Z) :=
  r ← attempt (call (ReadFile (InitPidFilePath root_dir id)));
  mret (match r with
        | Ok text =>
            let s := trimSpace text in
            if String.eqb s "" then None else
            match ParseInt s with
            | Ok pid => if pid <=? 0 then None else Some pid
            | _ => None
            end
        | _ => None
        end).

(** The first attempt and one for each tick before the timeout. *)
Fixpoint waitInitPid (polls : nat) (id : string) : M Z :=
  r ← tryReadPidFile id;
  match r, polls with
  | Some pid, _ => mret pid
  | None, O => fail "wait init pid timeout: context deadline exceeded"
  | None, S polls => waitInitPid polls id
  end.

(** [tailFileForError]: the last lines of a log. *)
Definition tail_of (text : string) (maxLines : nat) : string :=
  let lines := split "010"%char (trim_right (fun c => Ascii.eqb c "010"%char) text) in
  match lines with
  | [""] => ""
  | _ => join newline (drop (length lines - maxLines) lines)
  end.
Definition tailFileForError (path : string) : M string :=
  r ← attempt (call (ReadFile path));
  mret (match r with Ok text => tail_of text 12 | _ => "" end).

Definition wrapInitPidWaitError {A} (id : string) (m : M A) : M A :=
  r ← attempt m;
  match r with
  | Ok a => mret a
  | Panic e => crash e
  | Err e =>
      shimTail ← tailFileForError (Join [ContainerDir root_dir id; "logs"; "shim.log"]);
      logTail ← tailFileForError (Join [ContainerDir root_dir id; "logs"; "container.log"]);
      let details := (if String.eqb shimTail "" then [] else ["shim log:" +:+ newline +:+ shimTail]) ++
                     (if String.eqb logTail "" then [] else ["container log:" +:+ newline +:+ logTail]) in
      match details with
      | [] => fail e
      | _ => fail (e +:+ newline +:+ join newline details)
      end
  end.

Definition StartAndWait (polls : nat) (id : string) (s : Spec) (fifo : string) (tty : bool)
    (consoleSocket pidFile : string) : M (Z * Z) :=
  _ ← cleanupShimFile id;
  shimPid ← executeShim id s fifo tty consoleSocket;
  initPid ← wrapInitPidWaitError id (waitInitPid polls id);
  _ ← WriteContainerPidFile pidFile initPid;
  _ ← WriteExternalPidFileMarker id pidFile;
  mret (initPid, shimPid).

Definition PrepareHost (polls : nat) (id : string) (s : Spec) (initPid : Z) (plan : Plan) : M unit :=
  if negb (ShouldPrepareHostResources plan) then mret tt else
  _ ← wrapInitPidWaitError id (PrepareCgroup id s initPid);
  PrepareNetwork polls id initPid (Annotations s).

(** ** [create] *)

Record CreateOption := {
  co_ContainerId : string;
  co_Bundle : string;
  ConsoleSocket : string;
  PidFile : string;
  TtyFlag : bool
}.

Context (polls : nat).

Definition Create (opt : CreateOption) : M unit :=
  let id := co_ContainerId opt in
  _ ← PrepareConfig id (co_Bundle opt);
  s ← SealAndLoad root_dir json_spec id;
  bundlePath ← PathForContainer id (co_Bundle opt);
  let tty := TtyFlag opt || Terminal (Process s) in
  if negb (String.eqb (ConsoleSocket opt) "") && negb tty
  then fail "--console-socket requires --tty or process.terminal=true" else
  sp ← PrepareSpec id s;
  let s := sp.1 in
  let plan := sp.2 in
  _ ← CreateStatusFile id 0 CREATING (root_Path (Root s)) bundlePath (Annotations s);
  _ ← RunCreateRuntimeHooks id (CreateRuntime (Hooks s));
  let fifo := FifoPath root_dir id in
  _ ← do (Mkfifo fifo);
  _ ← PrepareRuntime fifo s plan;
  pids ← StartAndWait polls id s fifo tty (ConsoleSocket opt) (PidFile opt);
  _ ← PrepareHost polls id s pids.1 plan;
  _ ← UpdateStatus id CREATED pids.1 pids.2;
  _ ← when (0 <? length (Prestart (Hooks s)))%nat (RunCreateRuntimeHooks id (Prestart (Hooks s)));
  RunCreateContainerHooks id (CreateContainer (Hooks s)).

(** ** [start] *)

Definition Start (id : string) : M unit :=
  current ← GetStatusFromId id;
  _ ← EnsureCreated id current;
  s ← loadFile id;
  _ ← RunStartContainerHooks id (StartContainer (Hooks s));
  let fifo := FifoPath root_dir id in
  _ ← do (WriteFifo fifo);
  _ ← do (Remove fifo);
  _ ← UpdateStatus id RUNNING (-1) (-1);
  RunPoststartHooks id (Poststart (Hooks s)).

(** ** [kill] *)

Definition proc_stat (pid : Z) : M (list string) :=
  text ← call (ReadFile ("/proc/" +:+ itoa pid +:+ "/stat"));
  lift (ParseProcStatFields text).
Definition ReadProcStartTime (pid : Z) : M Z :=
  l ← proc_stat pid; lift (ParseUint (nth 19 l "")).
Definition ReadProcState (pid : Z) : M string := l ← proc_stat pid; mret (nth 0 l "").

Definition is_enoent {A} (r : res A) : bool :=
  match r with Err e => is_ENOENT e | _ => false end.

(** [WaitProcessExit]: [fuel] rounds at most, one every 50 ms. *)
Fixpoint WaitProcessExit (fuel : nat) (pid start deadline : Z) : M unit :=
  match fuel with
  | O => fail "context deadline exceeded"
  | S fuel =>
      currentStart ← attempt (ReadProcStartTime pid);
      if is_enoent currentStart then mret tt else
      state ← attempt (ReadProcState pid);
      if is_enoent state then mret tt else
      if match state with Ok s => String.eqb s "Z" | _ => false end then mret tt else
      if negb (match currentStart with Ok v => v | _ => 0 end =? start) then mret tt else
      st ← attempt (call (Stat ("/proc/" +:+ itoa pid)));
      if is_enoent st then mret tt else
      t ← now;
      if deadline <? t then fail "context deadline exceeded" else
      WaitProcessExit fuel pid start deadline
  end.

Definition wait_exit (pid start seconds : Z) : M unit :=
  t ← now; WaitProcessExit polls pid start (t + seconds * 1000000000).

Definition HasExternalPidFileMarker (id : string) : M bool :=
  r ← attempt (call (Stat (ExternalPidFileMarkerPath root_dir id))); mret (is_ok r).

(** A removal for which a missing file is no error. *)
Definition remove_if_present (path : string) : M unit :=
  r ← attempt (call (Remove path));
  match r with
  | Err e => if is_ENOENT e then mret tt else fail e
  | Panic e => crash e
  | Ok _ => mret tt
  end.
Definition CleanupShim (id : string) : M unit :=
  _ ← remove_if_present (SockPath root_dir id);
  remove_if_present (InitPidFilePath root_dir id).

Definition Kill (id signal : string) : M unit :=
  s ← loadFile id;
  current ← GetStatusFromId id;
  sn ← lift (signals_Parse signal);
  let signalName := sn.1 in
  let sig := sn.2 in
  if negb (IsAllowed current [RUNNING; CREATED]) then
    marker ← (if bool_decide (current = STOPPED) && String.eqb signalName "KILL"
              then HasExternalPidFileMarker id else mret false);
    if (marker : bool) then mret tt else
    fail ("container: " +:+ id +:+ " neither created nor running.")
  else
    containerPid ← GetPidFromId id;
    shimPid ← GetShimPidFromId id;
    procStartTime ← ReadProcStartTime containerPid;
    _ ← do (Signal containerPid sig);
    _ ← (if String.eqb signalName "TERM" then
           r ← attempt (wait_exit containerPid procStartTime 3);
           match r with
           | Ok _ => mret tt
           | Panic e => crash e
           | Err _ =>
               _ ← ignore (call (Signal containerPid 9));
               wrap ("failed to stop container pid=" +:+ itoa containerPid)
                 (wait_exit containerPid procStartTime 5)
           end
         else mret tt);
    _ ← when (String.eqb signalName "KILL") (ignore (wait_exit containerPid procStartTime 5));
    let '(nextStatus, nextPid, nextShimPid, stopped) := KillTransition current signalName in
    _ ← when (stopped && (0 <? shimPid)) (ignore (CleanupShim id));
    _ ← UpdateStatus id nextStatus nextPid nextShimPid;
    if negb stopped then mret tt else
    RunStopContainerHooks id (StopContainer (Hooks s)).

(** ** [delete] *)

Definition KillInitProcess (id : string) : M unit :=
  containerPid ← GetPidFromId id;
  _ ← do (Signal containerPid 9);
  UpdateStatus id STOPPED 0 0.

Definition Delete (id : string) (force : bool) : M unit :=
  current ← GetStatusFromId id;
  if negb (CanDelete current force)
  then fail ("container: " +:+ id +:+ " is not stopped. current status: " +:+ status_String current)
  else
    _ ← when (ShouldKillBeforeDelete current force)
          (wrap "kill init process failed" (KillInitProcess id));
    s ← loadFile id;
    _ ← RunPoststopHooks id (Poststop (Hooks s));
    _ ← RemoveStatusFile id;
    _ ← when (bool_decide (current = CREATED)) (do (Remove (FifoPath root_dir id)));
    _ ← do (RemoveAll (CgroupPath id));
    do (RemoveAll (ContainerDir root_dir id)).

(** ** [exec] ([exec.go], [exec_nsenter.go]) *)

Definition execWorkingDir (s : Spec) : string :=
  if String.eqb (Cwd (Process s)) "" then "/" else Cwd (Process s).

Definition buildExecNsenterCommand (containerPid : string) (s : Spec) : list string :=
  ["nsenter"; "-t"; containerPid] ++
  (if IsSpec json_rootless s then ["-U"; "--setuid"; "0"; "--setgid"; "0"] else []) ++
  ["-m"; "-u"; "-i"; "-n"; "-p"; "-C"; "--root"; "--wd=" +:+ execWorkingDir s; "--"].

Definition resolveExecEntrypoint (containerPid : string) (s : Spec) (entrypoint : list string)
    : M (list string) :=
  match entrypoint with
  | [] => fail "exec command required"
  | arg0 :: args =>
      if contains arg0 "/" then mret entrypoint else
      let pathVal := OrDefault (Env (Process s)) in
      (fix loop (dirs : list string) : M (list string) :=
         match dirs with
         | [] => fail (arg0 +:+ ": not found in container PATH " +:+ quoted pathVal)
         | dir :: dirs =>
             let containerPath := Join [if String.eqb dir "" then "." else dir; arg0] in
             let hostPath := Join ["/proc/" +:+ containerPid +:+ "/root"; trimPrefix containerPath "/"] in
             r ← attempt (call (AccessX hostPath));
             if is_ok r then mret (containerPath :: args) else loop dirs
         end) (split ":"%char pathVal)
  end.

(** Without a terminal; with one, [ExecuteShim] starts the same command under a
    supervisor of its own. *)
Definition Exec_ (id : string) (tty : bool) (entrypoint : list string) : M unit :=
  current ← GetStatusFromId id;
  _ ← EnsureRunning id current;
  containerPid ← GetPidFromId id;
  s ← loadFile id;
  if tty then _ ← call (StartCommand SelfBinPath (["exec-shim"; id; itoa containerPid] ++ entrypoint));
              mret tt
  else
    resolved ← resolveExecEntrypoint (itoa containerPid) s entrypoint;
    let log := Join [ContainerDir root_dir id; "logs"; "container.log"] in
    _ ← do (Open log);
    match buildExecNsenterCommand (itoa containerPid) s ++ resolved with
    | [] => crash "index out of range [0] with length 0"
    | cmd :: args => wrap "exec command failed" (do (RunCommand cmd args (Env (Process s)) "" None))
    end.

(** ** [run] *)

Record RunOption := {
  ro_ContainerId : string;
  ro_Bundle : string;
  ro_PidFile : string;
  Tty : bool
}.

Definition Run (opt : RunOption) : M unit :=
  let id := ro_ContainerId opt in
  _ ← PrepareConfig id (ro_Bundle opt);
  s ← loadFile id;
  _ ← WriteCurrent root_dir id;
  bundlePath ← PathForContainer id (ro_Bundle opt);
  _ ← CreateStatusFile id 0 CREATING (root_Path (Root s)) bundlePath (Annotations s);
  _ ← RunCreateRuntimeHooks id (CreateRuntime (Hooks s));
  let fifo := FifoPath root_dir id in
  _ ← do (Mkfifo fifo);
  let tty := Tty opt || Terminal (Process s) in
  text ← call (StartCommand SelfBinPath (["init"; id; fifo] ++ Args (Process s)));
  initPid ← lift (Atoi text);
  _ ← WriteContainerPidFile (ro_PidFile opt) initPid;
  _ ← PrepareCgroup id s initPid;
  _ ← PrepareNetwork polls id initPid (Annotations s);
  _ ← UpdateStatus id CREATED initPid 0;
  _ ← when (0 <? length (Prestart (Hooks s)))%nat (RunCreateRuntimeHooks id (Prestart (Hooks s)));
  _ ← RunCreateContainerHooks id (CreateContainer (Hooks s));
  _ ← RunStartContainerHooks id (StartContainer (Hooks s));
  _ ← Start id;
  _ ← UpdateStatus id RUNNING (-1) (-1);
  _ ← RunPoststartHooks id (Poststart (Hooks s));
  if negb tty then mret tt else
  _ ← do (WaitCommand initPid);
  UpdateStatus id STOPPED 0 0.

(** ** The end of the process, as its supervisor records it ([shim.go]) *)

Definition SetReasonAndMessage (id : string) (exitCode : Z) (message : string) : M unit :=
  if exitCode =? 0
  then UpdateReasonAndMessage id "Completed" ("exit code: " +:+ itoa exitCode)
  else UpdateReasonAndMessage id "Error" message.

Definition shim_exit (id : string) (exitCode : Z) (waitErr : option error) : M unit :=
  _ ← UpdateStatus id STOPPED 0 0;
  _ ← UpdateExitCode id exitCode;
  _ ← SetReasonAndMessage id exitCode (default "" waitErr);
  match waitErr with Some e => fail e | None => mret tt end.
End lifecycle.
