(* ===== verification/RuntimeLifecycleTheory.v ===== *)
(** * Properties of the operations of the runtime

    The life of a container as its state file shows it, and what each operation
    demands and leaves. *)

From Stdlib Require Import ZArith Lia Ascii String.
From stdpp Require Import base gmap strings list relations.
From S2P Require Import Prelude.
From S2P Require Import GoString.
From S2P Require Import GoPath.
From S2P Require Import World.
From S2P Require Import RuntimeSpec.
From S2P Require Import Kernel.
From S2P Require Import RuntimeNs.
From S2P Require Import RuntimeInit.
From S2P Require Import RuntimeStatus.
From S2P Require Import RuntimeLifecycle.
Open Scope Z_scope.

(** ** What a computation does to the state files *)

Section triples.
Context {St W : Type} (R : relation St) `{!PreOrder R}.
Notation M := (M St sys W).

(** [tri I m J]: from a store in [I], with or without faults, [m] takes the
    store to one related by [R], and to one in [J a] when it returns [a]. *)
Definition tri {A} (I : St -> Prop) (m : M A) (J : A -> St -> Prop) : Prop :=
  forall w, I (store w) ->
    R (store w) (store (m w).2) /\ (forall a, (m w).1 = Ok a -> J a (store (m w).2)).

Lemma tri_bind {A B} (m : M A) (f : A -> M B) I J K :
  tri I m J -> (forall a, tri (J a) (f a) K) -> tri I (m ≫= f) K.
Proof.
  intros Hm Hf w Hw. unfold mbind, M_bind. destruct (Hm w Hw) as [H1 H2].
  destruct (m w) as [[a|e|e] w1]; cbn [fst snd] in *; [|done..].
  destruct (Hf a w1 (H2 a eq_refl)) as [H3 H4]. split; [by etrans|done].
Qed.
Lemma tri_reads {A} (m : M A) I : reads m -> tri I m (fun _ => I).
Proof. intros Hm w Hw. split; [by rewrite Hm|]. intros a _. by rewrite Hm. Qed.
Lemma tri_ret {A} (a : A) (I : A -> St -> Prop) : tri (I a) (mret a) I.
Proof. intros w Hw. split; [reflexivity|]. by intros ? [= <-]. Qed.
Lemma tri_fail {A} e I J : tri I (@fail St sys W A e) J.
Proof. intros w Hw. split; [reflexivity|done]. Qed.
Lemma tri_fail_then {A B} e (f : A -> M B) I J : tri I (fail e ≫= f) J.
Proof. intros w Hw. split; [reflexivity|done]. Qed.
Lemma tri_crash_then {A B} e (f : A -> M B) I J : tri I (crash e ≫= f) J.
Proof. intros w Hw. split; [reflexivity|done]. Qed.
Lemma tri_ret_then {A B} (a : A) (f : A -> M B) I J : tri I (f a) J -> tri I (mret a ≫= f) J.
Proof. done. Qed.
Lemma tri_crash {A} e I J : tri I (@crash St sys W A e) J.
Proof. intros w Hw. split; [reflexivity|done]. Qed.
Lemma tri_conseq {A} (m : M A) (I I' : St -> Prop) (J J' : A -> St -> Prop) :
  tri I m J -> (forall st, I' st -> I st) -> (forall a st, J a st -> J' a st) -> tri I' m J'.
Proof. intros Hm HI HJ w Hw. destruct (Hm w (HI _ Hw)) as [H1 H2]. eauto. Qed.
Lemma tri_then {A B} (m : M A) (f : A -> M B) I K :
  tri I m (fun _ => I) -> (forall a, tri I (f a) K) -> tri I (m ≫= f) K.
Proof. apply tri_bind. Qed.
Lemma tri_attempt {A} (m : M A) I : tri I m (fun _ _ => True) ->
  tri I (attempt m) (fun _ _ => True).
Proof.
  intros Hm w Hw. destruct (Hm w Hw) as [H _]. unfold attempt. by destruct (m w) as [[| |] w1].
Qed.
Lemma tri_wrap {A} pre (m : M A) I J : tri I m J -> tri I (wrap pre m) J.
Proof.
  intros Hm w Hw. destruct (Hm w Hw) as [H1 H2].
  unfold wrap, mbind, M_bind, attempt. destruct (m w) as [[a|e|e] w1]; cbn in *; [|done..].
  split; [done|]. intros ? [= <-]. by apply H2.
Qed.
Lemma tri_cond {A} (Q : Prop) (m : M A) (I : St -> Prop) J :
  (forall st, I st -> Q) -> (Q -> tri I m J) -> tri I m J.
Proof. intros H Hm w Hw. apply Hm; [by eapply H|done]. Qed.

Context {P : Peers sys W}.
Lemma reads_do c : reads (do c : M unit).
Proof. apply reads_bind; [apply reads_call|]. intros. apply reads_ret. Qed.
Lemma reads_lift {A} (r : res A) : reads (lift r : M A).
Proof. by destruct r. Qed.
Lemma reads_ignore {A} (m : M A) : reads m -> reads (ignore m).
Proof. intros Hm w. unfold ignore. specialize (Hm w). by destruct (m w) as [[| |] w1]. Qed.
Lemma reads_wrap {A} pre (m : M A) : reads m -> reads (wrap pre m).
Proof. intros Hm. apply reads_bind; [by apply reads_attempt|]. by intros []. Qed.
Lemma reads_when b (m : M unit) : reads m -> reads (when b m).
Proof. intros Hm. by destruct b. Qed.
Lemma reads_each {A} (f : A -> M unit) l : (forall x, reads (f x)) -> reads (each f l).
Proof.
  intros Hf. induction l as [|x l IH]; [apply reads_ret|]. by apply reads_bind.
Qed.
Lemma reads_now : reads (now : M Z).
Proof. intros w. unfold now. by destruct (times w). Qed.
Lemma reads_crash {A} e : reads (@crash St sys W A e).
Proof. done. Qed.
End triples.

Ltac rd_step :=
  match goal with
  | |- reads (_ ≫= _) => apply reads_bind; [|intros ?]
  | |- reads (wrap _ _) => apply reads_wrap
  | |- reads (when _ _) => apply reads_when
  | |- reads (attempt _) => apply reads_attempt
  | |- reads (ignore _) => apply reads_ignore
  | |- reads (each _ _) => apply reads_each; intros ?
  | |- reads (lift _) => apply reads_lift
  | |- reads (do _) => apply reads_do
  | |- reads (call _) => apply reads_call
  | |- reads (mret _) => apply reads_ret
  | |- reads (fail _) => apply reads_fail
  | |- reads (crash _) => apply reads_crash
  | |- reads (read _) => apply reads_read
  | |- reads now => apply reads_now
  | |- reads (if ?x then _ else _) => destruct x
  | |- reads (match ?x with _ => _ end) => destruct x
  end.
Ltac rd := repeat rd_step.

(** The next computation of a sequence, and one that keeps the assertion. *)
Tactic Notation "tseq" := (eapply tri_bind; [apply _| |intros ?]).
Tactic Notation "tkeep" := (eapply tri_then; [apply _| |intros ?]).

(** ** The life of a container *)

Inductive kind :=
  | KCreate | KCreated | KRun | KKeep | KAgain | KDie | KStop | KEnd | KNote | KRemove | KForce.

#[export] Instance kind_eq : EqDecision kind.
Proof. solve_decision. Defined.

Definition status_is (o : StatusObject) (s : ContainerStatus) : Prop :=
  ParseContainerStatus (Status o) = Ok s.

(** The changes of the state file of [id]: from which states each is made. *)
Inductive edge (id : string) : kind -> option StatusObject -> option StatusObject -> Prop :=
  | edge_create x o : Id o = id -> status_is o CREATING -> Pid o = 0 -> ShimPid o = 0 ->
      edge id KCreate x (Some o)
  | edge_created o pid shim : status_is o CREATING ->
      edge id KCreated (Some o) (Some (set_status CREATED pid shim o))
  | edge_run o : status_is o CREATED ->
      edge id KRun (Some o) (Some (set_status RUNNING (-1) (-1) o))
  | edge_keep o : status_is o RUNNING ->
      edge id KKeep (Some o) (Some (set_status RUNNING (-1) (-1) o))
  | edge_again o : status_is o RUNNING \/ status_is o STOPPED ->
      edge id KAgain (Some o) (Some (set_status RUNNING (-1) (-1) o))
  | edge_die o : status_is o RUNNING ->
      edge id KDie (Some o) (Some (set_status STOPPED 0 0 o))
  | edge_stop o : status_is o CREATED \/ status_is o RUNNING ->
      edge id KStop (Some o) (Some (set_status STOPPED 0 0 o))
  | edge_end o : edge id KEnd (Some o) (Some (set_status STOPPED 0 0 o))
  | edge_exit o code : edge id KNote (Some o) (Some (set_exit code o))
  | edge_reason o r m : edge id KNote (Some o) (Some (set_reason r m o))
  | edge_remove o : status_is o STOPPED -> edge id KRemove (Some o) None
  | edge_force o : status_is o CREATING -> edge id KForce (Some o) None.

(** Changes of the file of [id] of some kinds, and of no other file. *)
Definition within_life (id : string) (ks : list kind) (st st' : states) : Prop :=
  (forall j, j <> id -> st' !! j = st !! j) /\
  rtc (fun x y => exists k, k ∈ ks /\ edge id k x y) (st !! id) (st' !! id).

#[export] Instance within_life_preorder id ks : PreOrder (within_life id ks).
Proof.
  split.
  - intros st. by split.
  - intros a b c [H1 H2] [H3 H4]. split; [|by etrans].
    intros j Hj. rewrite H3, H1 by done. done.
Qed.

Lemma within_life_mono id ks ks' st st' :
  ks ⊆ ks' -> within_life id ks st st' -> within_life id ks' st st'.
Proof.
  intros Hk [H1 H2]. split; [done|]. eapply rtc_subrel; [|exact H2].
  intros x y (k & Hin & He). exists k. split; [by apply Hk|done].
Qed.

Lemma tri_mono {W A} id ks ks' I (m : M states sys W A) J :
  ks ⊆ ks' -> tri (within_life id ks) I m J -> tri (within_life id ks') I m J.
Proof.
  intros Hk Hm w Hw. destruct (Hm w Hw) as [H1 H2]. split; [|done].
  by eapply within_life_mono.
Qed.

Lemma within_insert id ks k st o : k ∈ ks -> edge id k (st !! id) (Some o) ->
  within_life id ks st (<[id := o]> st).
Proof.
  intros Hk He. split; [intros j Hj; by rewrite lookup_insert_ne|].
  apply rtc_once. exists k. by rewrite lookup_insert_eq.
Qed.
Lemma within_delete id ks k st : k ∈ ks -> edge id k (st !! id) None ->
  within_life id ks st (delete id st).
Proof.
  intros Hk He. split; [intros j Hj; by rewrite lookup_delete_ne|].
  apply rtc_once. exists k. by rewrite lookup_delete_eq.
Qed.

(** The store holds a file for [id] of one of some states. *)
Definition at_ (id : string) (l : list ContainerStatus) (st : states) : Prop :=
  exists o s, st !! id = Some o /\ status_is o s /\ s ∈ l.

Lemma status_set s p q o : status_is (set_status s p q o) s.
Proof. unfold status_is. cbn. apply Parse_String. Qed.
Lemma status_unique o s s' : status_is o s -> status_is o s' -> s = s'.
Proof. unfold status_is. congruence. Qed.
Lemma at_set id s p q o st : at_ id [s] (<[id := set_status s p q o]> st).
Proof.
  exists (set_status s p q o), s. rewrite lookup_insert_eq. split_and!; [done|apply status_set|by left].
Qed.
Lemma at_mono id l l' st : l ⊆ l' -> at_ id l st -> at_ id l' st.
Proof. intros Hl (o & s & H1 & H2 & H3). exists o, s. auto. Qed.
Lemma at_found id l st o : at_ id l st -> st !! id = Some o -> exists s, status_is o s /\ s ∈ l.
Proof. intros (o' & s & H1 & H2 & H3) H. rewrite H1 in H. injection H as <-. eauto. Qed.

(** ** The state files *)

Section files.
Context {W : Type} {P : Peers sys W}.
Notation M := (M states sys W).
Notation tri id ks := (tri (W := W) (within_life id ks)).

Lemma tri_file id ks I :
  tri id ks I (ReadJsonFile id : M StatusObject) (fun o st => I st /\ st !! id = Some o).
Proof.
  intros w Hw. unfold ReadJsonFile. split.
  - by rewrite reads_read.
  - intros o Ho. destruct (read _ w) as [r w1] eqn:E. cbn [fst snd] in *. subst r.
    apply read_ok in E as [Hr ->]. split; [done|]. destruct (store w !! id); congruence.
Qed.

Lemma tri_write id ks (I : states -> Prop) o :
  (forall st, I st -> exists k, k ∈ ks /\ edge id k (st !! id) (Some o)) ->
  tri id ks I (WriteJsonToFile id o : M unit) (fun _ st => exists st0, I st0 /\ st = <[id := o]> st0).
Proof.
  intros He w Hw. unfold WriteJsonToFile, txn. pose proof (pop_fault_keeps w) as (Hp & _).
  destruct (pop_fault w) as [[e|] w1]; cbn [fst snd] in *.
  - rewrite Hp. split; [reflexivity|done].
  - cbn [store set_store fst snd]. rewrite Hp. split; [|intros _ _; by eexists].
    destruct (He _ Hw) as (k & Hk & Hek). by eapply within_insert.
Qed.

(** Reading a file and writing it back changed. *)
Lemma tri_rewrite id ks (I : states -> Prop) (f : StatusObject -> StatusObject) :
  (forall st o, I st -> st !! id = Some o -> exists k, k ∈ ks /\ edge id k (Some o) (Some (f o))) ->
  tri id ks I (o ← ReadJsonFile id; WriteJsonToFile id (f o) : M unit)
    (fun _ st => exists st0 o, I st0 /\ st0 !! id = Some o /\ st = <[id := f o]> st0).
Proof.
  intros He. tseq; [apply tri_file|].
  eapply tri_conseq; [eapply (tri_write id ks (fun st => I st /\ st !! id = Some a))|done|].
  - intros st [H1 H2]. rewrite H2. by eapply He.
  - intros [] st (st0 & [] & ->). eauto.
Qed.

Lemma tri_update id ks (I : states -> Prop) s p q :
  (forall st o, I st -> st !! id = Some o ->
     exists k, k ∈ ks /\ edge id k (Some o) (Some (set_status s p q o))) ->
  tri id ks I (UpdateStatus id s p q : M unit) (fun _ => at_ id [s]).
Proof.
  intros He. eapply tri_conseq; [by apply (tri_rewrite id ks I)|done|].
  intros [] st (st0 & o & _ & _ & ->). apply at_set.
Qed.

Lemma tri_create id ks I rootfs bundle a : KCreate ∈ ks ->
  tri id ks I (CreateStatusFile id 0 CREATING rootfs bundle a : M unit) (fun _ => at_ id [CREATING]).
Proof.
  intros Hk. eapply tri_conseq; [eapply (tri_write id ks I)|done|].
  - intros st _. exists KCreate. split; [done|]. by constructor.
  - intros [] st (st0 & _ & ->). eexists _, CREATING. rewrite lookup_insert_eq.
    split_and!; [done|done|by left].
Qed.

Lemma tri_remove id ks (I : states -> Prop) :
  (forall st o, I st -> st !! id = Some o -> exists k, k ∈ ks /\ edge id k (Some o) None) ->
  tri id ks I (RemoveStatusFile id : M unit) (fun _ st => st !! id = None).
Proof.
  intros He w Hw. unfold RemoveStatusFile, txn. pose proof (pop_fault_keeps w) as (Hp & _).
  destruct (pop_fault w) as [[e|] w1]; cbn [fst snd] in *; [by rewrite Hp|].
  destruct (store w1 !! id) as [o|] eqn:E; cbn [store set_store fst snd]; rewrite Hp in *; [|done].
  split; [|intros _ _; by rewrite lookup_delete_eq].
  destruct (He _ _ Hw E) as (k & Hk & Hek). eapply within_delete; [done|]. by rewrite E.
Qed.

Lemma reads_parse_status o : reads (parse_status o : M ContainerStatus).
Proof. unfold parse_status. rd. Qed.
Lemma reads_pidAlive pid : reads (pidAlive pid : M bool).
Proof. unfold pidAlive. rd. Qed.

Lemma tri_parse_status id ks (I : states -> Prop) o :
  tri id ks I (parse_status o : M ContainerStatus) (fun s st => I st /\ status_is o s).
Proof.
  intros w Hw. split; [by rewrite reads_parse_status|]. intros s. rewrite reads_parse_status.
  unfold parse_status, status_is. destruct (ParseContainerStatus (Status o)) as [s'|e|e]; [|done..].
  by intros [= <-].
Qed.

(** What a client of the file may assume of reading it: a container found dead
    is marked stopped, and [I] does not mind. *)
Definition settled (id : string) (ks : list kind) (I : states -> Prop) : Prop :=
  forall st o, I st -> st !! id = Some o -> status_is o RUNNING -> KDie ∈ ks /\
    I (<[id := set_status STOPPED 0 0 o]> st).

Lemma settled_true id ks : KDie ∈ ks -> settled id ks (fun _ => True).
Proof. done. Qed.
Lemma settled_at id ks l : RUNNING ∉ l -> settled id ks (at_ id l).
Proof.
  intros Hl st o Hat Ho Hr. destruct (at_found _ _ _ _ Hat Ho) as (s & Hs & Hin).
  by rewrite (status_unique _ _ _ Hs Hr) in Hin.
Qed.
Lemma settled_at_stopped id ks l : KDie ∈ ks -> STOPPED ∈ l -> settled id ks (at_ id l).
Proof.
  intros Hk Hl st o Hat Ho Hr. split; [done|]. eapply at_mono; [|apply at_set].
  by intros s ->%list_elem_of_singleton.
Qed.

Lemma tri_recompute id ks (I : states -> Prop) o s : settled id ks I ->
  tri id ks (fun st => (I st /\ st !! id = Some o) /\ status_is o s)
    (recomputeStatus id (Pid o) s : M unit) (fun _ => I).
Proof.
  intros HI. unfold recomputeStatus. destruct (decide (s = RUNNING)) as [->|].
  - tkeep; [apply tri_reads; [apply _|apply reads_pidAlive]|]. destruct a.
    + eapply tri_conseq; [apply (tri_ret _ tt (fun _ => I))|naive_solver|done].
    + eapply tri_conseq; [eapply (tri_rewrite id ks (fun st => (I st /\ st !! id = Some o) /\ status_is o RUNNING))|by intros|].
      * intros st o' [[H1 H2] H3] H. replace o' with o by congruence. exists KDie.
        split; [by destruct (HI st o)|by constructor].
      * intros [] st (st0 & o' & [[H1 H2] H3] & H & ->).
        replace o' with o by congruence. by destruct (HI st0 o).
  - eapply tri_conseq; [apply (tri_ret _ tt (fun _ => I))|naive_solver|done].
Qed.

Lemma tri_ReadStatus id ks I : settled id ks I ->
  tri id ks I (ReadStatusFile id : M StatusObject) (fun o st => I st /\ st !! id = Some o).
Proof.
  intros HI. unfold ReadStatusFile. tseq; [apply tri_file|].
  tseq; [apply tri_parse_status|]. tseq; [by apply tri_recompute|]. apply tri_file.
Qed.

Lemma tri_keep_Status id ks I : settled id ks I ->
  tri id ks I (ReadStatusFile id : M StatusObject) (fun _ => I).
Proof. intros HI. eapply tri_conseq; [by apply tri_ReadStatus|done|naive_solver]. Qed.

Lemma tri_GetStatus id ks I : settled id ks I ->
  tri id ks I (GetStatusFromId id : M ContainerStatus) (fun s st => I st /\ at_ id [s] st).
Proof.
  intros HI. unfold GetStatusFromId. tseq; [by apply tri_ReadStatus|].
  eapply tri_conseq; [apply (tri_parse_status id ks (fun st => I st /\ st !! id = Some a))|done|].
  intros s st [[H1 H2] H3]. split; [done|]. exists a, s. split_and!; [done|done|by left].
Qed.

Lemma tri_GetStatus_at id ks : KDie ∈ ks ->
  tri id ks (fun _ => True) (GetStatusFromId id : M ContainerStatus) (fun s => at_ id [s]).
Proof.
  intros HI. eapply tri_conseq; [by apply (tri_GetStatus id ks (fun _ => True)), settled_true|by intros|by intros ? ? []].
Qed.
End files.

(** ** What does not touch the state files *)

Section quiet_parts.
Context {W : Type} {P : Peers sys W}.
Context (root_dir : string) (cwd : res string) (Readlink : string -> res string)
  (SelfBinPath : string)
  (json_spec : string -> res Spec) (spec_json : Spec -> res string)
  (state_json : StatusObject -> string) (json_net : string -> res NetConfigObject)
  (json_image : string -> res ImageConfigObject)
  (json_rootless : string -> res RootlessConfigObject) (PlanOf : Spec -> Plan)
  (in_user_namespace : bool).
Notation M := (M states sys W).

Lemma reads_run_hooks phase i cmd stdin l : reads (run_hooks phase i cmd stdin l : M unit).
Proof. revert i. induction l as [|h l IH]; intros i; cbn [run_hooks]; rd. apply IH. Qed.
Lemma reads_WaitProcessExit fuel pid start deadline :
  reads (WaitProcessExit fuel pid start deadline : M unit).
Proof.
  induction fuel as [|fuel IH]; cbn [WaitProcessExit]; [rd|].
  unfold ReadProcStartTime, ReadProcState, proc_stat. rd. all: apply IH.
Qed.
Lemma reads_wait_exit polls pid start seconds :
  reads (wait_exit polls pid start seconds : M unit).
Proof. unfold wait_exit. rd. apply reads_WaitProcessExit. Qed.
Lemma reads_waitInitPid n id : reads (waitInitPid root_dir n id : M Z).
Proof. induction n as [|n IH]; cbn [waitInitPid]; unfold tryReadPidFile; rd. apply IH. Qed.
Lemma reads_wrapInit {A} id (m : M A) : reads m -> reads (wrapInitPidWaitError root_dir id m).
Proof. intros Hm. unfold wrapInitPidWaitError, tailFileForError. rd. done. Qed.
Lemma reads_WaitProcessNetnsReady n pid : reads (WaitProcessNetnsReady n pid : M unit).
Proof. induction n as [|n IH]; cbn [WaitProcessNetnsReady]; rd. all: apply IH. Qed.
Lemma reads_PrepareNetwork n id pid a :
  reads (PrepareNetwork json_net json_rootless n id pid a : M unit).
Proof.
  unfold PrepareNetwork, createVethPair, setupContainerNetns, cleanup_netns, runNetworkCommand.
  cbv zeta. rd. apply reads_WaitProcessNetnsReady.
Qed.
Lemma reads_PrepareCgroup id s pid : reads (PrepareCgroup id s pid : M unit).
Proof. unfold PrepareCgroup. cbv zeta. rd. Qed.
Lemma reads_PathForContainer id b : reads (PathForContainer root_dir cwd id b : M string).
Proof. unfold PathForContainer. rd. Qed.
Lemma reads_PrepareConfig id b :
  reads (PrepareConfig root_dir cwd Readlink json_spec spec_json id b : M unit).
Proof. unfold PrepareConfig. cbv zeta. rd. apply reads_PathForContainer. Qed.
Lemma reads_loadFile id : reads (loadFile root_dir json_spec id : M Spec).
Proof. unfold loadFile. rd. Qed.
Lemma reads_WriteCurrent id : reads (WriteCurrent root_dir id : M unit).
Proof. unfold WriteCurrent, Current, Write_. rd. Qed.
Lemma reads_SealAndLoad id : reads (SealAndLoad root_dir json_spec id : M Spec).
Proof. unfold SealAndLoad, Current, Write_, Read, loadFile. cbv zeta. rd. Qed.
Lemma reads_PrepareSpec id s :
  reads (PrepareSpec root_dir json_spec spec_json PlanOf id s : M (Spec * Plan)).
Proof.
  unfold PrepareSpec, RewriteContainerSpecAndHash. cbv zeta. rd. apply reads_WriteCurrent.
Qed.
Lemma reads_PrepareRuntime fifo s plan :
  reads (PrepareRuntime json_image json_rootless in_user_namespace fifo s plan : M unit).
Proof. unfold PrepareRuntime, PrepareWritableFilesystem. rd. Qed.
Lemma reads_WriteContainerPidFile f pid : reads (WriteContainerPidFile f pid : M unit).
Proof. unfold WriteContainerPidFile. rd. Qed.
Lemma reads_StartAndWait n id s fifo tty cs pf :
  reads (StartAndWait root_dir SelfBinPath n id s fifo tty cs pf : M (Z * Z)).
Proof.
  unfold StartAndWait, cleanupShimFile, executeShim, WriteExternalPidFileMarker.
  rd; try apply reads_WriteContainerPidFile. all: apply reads_wrapInit, reads_waitInitPid.
Qed.
Lemma reads_PrepareHost n id s pid plan :
  reads (PrepareHost root_dir json_net json_rootless n id s pid plan : M unit).
Proof.
  unfold PrepareHost. rd; [apply reads_wrapInit, reads_PrepareCgroup|apply reads_PrepareNetwork].
Qed.
Lemma reads_pids id : reads (GetPidFromId id : M Z) /\ reads (GetShimPidFromId id : M Z).
Proof. unfold GetPidFromId, GetShimPidFromId, ReadJsonFile. split; rd. Qed.
Lemma reads_ReadProcStartTime pid : reads (ReadProcStartTime pid : M Z).
Proof. unfold ReadProcStartTime, proc_stat. rd. Qed.
Lemma reads_CleanupShim id : reads (CleanupShim root_dir id : M unit).
Proof. unfold CleanupShim, remove_if_present. rd. Qed.
Lemma reads_Marker id : reads (HasExternalPidFileMarker root_dir id : M bool).
Proof. unfold HasExternalPidFileMarker. rd. Qed.
Lemma reads_resolve pid s l : reads (resolveExecEntrypoint pid s l : M (list string)).
Proof.
  unfold resolveExecEntrypoint. destruct l as [|a l]; rd.
  match goal with |- context [split ?c ?x] => generalize (split c x) end.
  intros dirs. induction dirs as [|d dirs IH]; [apply reads_fail|]. rd. apply IH.
Qed.

Lemma tri_hooks id ks I phase l : settled id ks I ->
  tri (within_life id ks) I (unless_empty l (runHookList state_json id phase l) : M unit) (fun _ => I).
Proof.
  intros HI. destruct l as [|h l]; cbn [unless_empty]; [apply (tri_ret _ tt (fun _ => I))|].
  unfold runHookList. tkeep; [by apply tri_keep_Status|].
  apply tri_reads; [apply _|]. apply reads_run_hooks.
Qed.
Lemma tri_hooks_nsenter id ks I phase l : settled id ks I ->
  tri (within_life id ks) I
    (unless_empty l (runHookListWithNsenter state_json id phase l) : M unit) (fun _ => I).
Proof.
  intros HI. destruct l as [|h l]; cbn [unless_empty]; [apply (tri_ret _ tt (fun _ => I))|].
  unfold runHookListWithNsenter. tkeep; [by apply tri_keep_Status|].
  apply tri_reads; [apply _|]. apply reads_bind; [apply reads_pids|intros pid].
  apply reads_run_hooks.
Qed.
End quiet_parts.
#[export] Hint Resolve reads_run_hooks reads_WaitProcessExit reads_wait_exit reads_waitInitPid
  reads_wrapInit reads_PrepareNetwork reads_PrepareCgroup reads_PathForContainer
  reads_PrepareConfig reads_loadFile reads_WriteCurrent reads_SealAndLoad reads_PrepareSpec
  reads_PrepareRuntime reads_WriteContainerPidFile reads_StartAndWait reads_PrepareHost
  reads_ReadProcStartTime reads_CleanupShim reads_Marker reads_resolve reads_do reads_lift
  reads_ignore reads_wrap reads_when reads_each reads_now reads_crash : go.
#[export] Hint Extern 1 (reads (GetPidFromId _)) => apply reads_pids : go.
#[export] Hint Extern 1 (reads (GetShimPidFromId _)) => apply reads_pids : go.

(** A computation that leaves the state files as they are. *)
Tactic Notation "tread" :=
  (tkeep; [apply tri_reads; [apply _|solve [eauto 6 with go]]|]).

(** ** The operations *)

(** The signals after which a container counts as stopped. *)
Definition stopping (signal : string) : bool :=
  match signals_Parse signal with
  | Ok (n, _) => String.eqb n "TERM" || String.eqb n "KILL"
  | _ => false
  end.

Section operations.
Context {W : Type} {P : Peers sys W}.
Context (root_dir : string) (cwd : res string) (Readlink : string -> res string)
  (SelfBinPath : string)
  (json_spec : string -> res Spec) (spec_json : Spec -> res string)
  (state_json : StatusObject -> string) (json_net : string -> res NetConfigObject)
  (json_image : string -> res ImageConfigObject)
  (json_rootless : string -> res RootlessConfigObject) (PlanOf : Spec -> Plan)
  (in_user_namespace : bool) (polls : nat).
Notation M := (M states sys W).
Notation tri id ks := (tri (W := W) (within_life id ks)).

Lemma tri_Start id ks (I : states -> Prop) : KRun ∈ ks -> KDie ∈ ks ->
  tri id ks I (Start root_dir json_spec state_json id : M unit) (fun _ => at_ id [RUNNING; STOPPED]).
Proof.
  intros Hr Hd. unfold Start, EnsureCreated, RunStartContainerHooks, RunPoststartHooks. cbv zeta.
  tseq; [eapply tri_conseq; [by apply tri_GetStatus_at|by intros|by intros]|].
  destruct (decide (a = CREATED)) as [->|]; [|by apply tri_fail_then; apply _].
  tread. tread.
  tkeep; [apply tri_hooks_nsenter, settled_at; by intros ?%list_elem_of_singleton|].
  tread. tread. tseq; [apply tri_update|].
  - intros st o Hat Ho. exists KRun. split; [done|].
    destruct (at_found _ _ _ _ Hat Ho) as (s & Hs & ->%list_elem_of_singleton). by constructor.
  - eapply tri_conseq; [apply tri_hooks, (settled_at_stopped id ks [RUNNING; STOPPED]); [done|]| |done].
    + right; left.
    + intros st. apply at_mono. intros s ->%list_elem_of_singleton. left.
Qed.

Ltac ttail := eapply tri_conseq; [apply tri_reads; [apply _|rd; auto with go]|by intros|by intros].

Lemma tri_Create opt ks (I : states -> Prop) : KCreate ∈ ks -> KCreated ∈ ks ->
  let id := co_ContainerId opt in
  tri id ks I
    (Create root_dir cwd Readlink SelfBinPath json_spec spec_json state_json json_net json_image
       json_rootless PlanOf in_user_namespace polls opt : M unit) (fun _ => at_ id [CREATED]).
Proof.
  intros Hc Hd id. unfold Create, RunCreateRuntimeHooks, RunCreateContainerHooks. fold id. cbv zeta.
  tread. tread. tread. destruct (_ && _); [by apply tri_fail; apply _|].
  tread. tseq; [by apply tri_create|].
  tkeep; [apply tri_hooks, settled_at; by intros ?%list_elem_of_singleton|].
  tread. tread. tread. tread.
  tseq; [apply tri_update|].
  { intros st o Hat Ho. exists KCreated. split; [done|].
    destruct (at_found _ _ _ _ Hat Ho) as (s & Hs & ->%list_elem_of_singleton). by constructor. }
  tkeep.
  { destruct (0 <? _)%nat; [|apply (tri_ret _ tt (fun _ => at_ id [CREATED]))].
    apply tri_hooks, settled_at; by intros ?%list_elem_of_singleton. }
  apply tri_hooks, settled_at; by intros ?%list_elem_of_singleton.
Qed.

Lemma tri_Kill id signal ks : KDie ∈ ks -> KStop ∈ ks -> KKeep ∈ ks ->
  tri id ks (fun _ => True) (Kill root_dir json_spec state_json polls id signal : M unit)
    (fun _ st => stopping signal = true -> at_ id [STOPPED] st).
Proof.
  intros Hd Hs Hk. unfold Kill, RunStopContainerHooks. cbv zeta.
  tread. tseq; [by apply tri_GetStatus_at|]. rename a0 into current.
  unfold stopping. destruct (signals_Parse signal) as [[n sig]|e|e]; cbn [lift];
    [|by apply tri_fail_then; apply _|by apply tri_crash_then; apply _].
  apply tri_ret_then. cbn [fst snd].
  destruct (IsAllowed current [RUNNING; CREATED]) eqn:Hin; cbn [negb].
  2: { destruct (bool_decide (current = STOPPED)) eqn:Hst; cbn [andb];
         [|apply tri_ret_then; by apply tri_fail; apply _].
       apply bool_decide_eq_true in Hst as ->. tkeep; [apply tri_reads; [apply _|rd; auto with go]|].
       destruct a0; [|by apply tri_fail; apply _].
       eapply tri_conseq; [apply (tri_ret _ tt (fun _ => at_ id [STOPPED]))|by intros|by intros]. }
  unfold IsAllowed in Hin. apply bool_decide_eq_true in Hin.
  tread. tread. tread. tread.
  tkeep. { apply tri_reads; [apply _|]. rd; auto with go. }
  tread. unfold KillTransition. rewrite <- orb_assoc.
  destruct (bool_decide (current = CREATED) || _) eqn:Hc.
  - tread. tseq; [apply tri_update|].
    + intros st o Hat Ho. exists KStop. split; [done|].
      destruct (at_found _ _ _ _ Hat Ho) as (s & Hst & ->%list_elem_of_singleton).
      constructor. rewrite !elem_of_cons in Hin. destruct Hin as [->|[->|?%not_elem_of_nil]]; auto; done.
    + cbn [negb]. eapply tri_conseq;
        [by apply tri_hooks, (settled_at_stopped id ks [STOPPED]); [|left]|by intros|by intros].
  - rewrite orb_false_iff in Hc. destruct Hc as [Hc Hn]. apply bool_decide_eq_false in Hc.
    tread. tseq; [apply tri_update|cbn [negb]].
    + intros st o Hat Ho. exists KKeep. split; [done|].
      destruct (at_found _ _ _ _ Hat Ho) as (s & Hst & ->%list_elem_of_singleton).
      constructor. rewrite !elem_of_cons in Hin. by destruct Hin as [->|[->|?%not_elem_of_nil]].
    + eapply tri_conseq; [apply (tri_ret _ tt (fun _ => at_ id [RUNNING]))|done|].
      intros ? st _. by rewrite Hn.
Qed.

Lemma tri_kill_first id ks current force : KStop ∈ ks -> CanDelete current force = true ->
  tri id ks (at_ id [current])
    (when (ShouldKillBeforeDelete current force)
       (wrap "kill init process failed" (KillInitProcess id)) : M unit)
    (fun _ => at_ id [if decide (current = CREATING) then CREATING else STOPPED]).
Proof.
  intros Hk Hc. destruct (ShouldKillBeforeDelete current force) eqn:Hs; cbn [when].
  - apply tri_wrap. unfold KillInitProcess. tread. tread.
    assert (current = CREATED \/ current = RUNNING) as Hcur.
    { unfold ShouldKillBeforeDelete in Hs. by destruct current; auto. }
    rewrite decide_False by (by destruct Hcur as [-> | ->]). apply tri_update.
    intros st o Hat Ho. exists KStop. split; [done|].
    destruct (at_found _ _ _ _ Hat Ho) as (s & Hst & ->%list_elem_of_singleton).
    constructor. by destruct Hcur as [-> | ->]; auto.
  - eapply tri_conseq; [apply (tri_ret _ tt (fun _ => at_ id [current]))|done|].
    intros a st. by destruct current, force.
Qed.

Lemma tri_Delete id force ks : KDie ∈ ks -> KStop ∈ ks -> KRemove ∈ ks ->
  (force = true -> KForce ∈ ks) ->
  tri id ks (fun _ => True) (Delete root_dir json_spec state_json id force : M unit)
    (fun _ st => st !! id = None).
Proof.
  intros Hd Hs Hr Hf. unfold Delete, RunPoststopHooks.
  tseq; [by apply tri_GetStatus_at|]. rename a into current.
  destruct (CanDelete current force) eqn:Hc; cbn [negb]; [|by apply tri_fail; apply _].
  tseq; [by apply tri_kill_first|]. tread.
  tkeep. { apply tri_hooks, settled_at. intros ?%list_elem_of_singleton. by destruct current. }
  tseq; [apply tri_remove|].
  - intros st o Hat Ho. destruct (at_found _ _ _ _ Hat Ho) as (s & Hst & ->%list_elem_of_singleton).
    destruct (decide (current = CREATING)) as [->|].
    + exists KForce. split; [|by constructor]. apply Hf. by destruct force.
    + exists KRemove. split; [done|by constructor].
  - tread. tread. apply tri_reads; [apply _|apply reads_do].
Qed.

Lemma tri_Exec id tty entrypoint ks : KDie ∈ ks ->
  tri id ks (fun _ => True)
    (Exec_ root_dir SelfBinPath json_spec json_rootless id tty entrypoint : M unit) (fun _ _ => True).
Proof.
  intros Hd. unfold Exec_, EnsureRunning. tseq; [by apply tri_GetStatus_at|].
  eapply tri_conseq; [apply tri_reads; [apply _|]|by intros|by intros]. cbv zeta.
  rd; auto with go.
Qed.

Lemma tri_exit id code err ks : KEnd ∈ ks -> KNote ∈ ks ->
  tri id ks (fun _ => True) (shim_exit id code err : M unit) (fun _ _ => True).
Proof.
  intros He Hn. unfold shim_exit, UpdateExitCode, SetReasonAndMessage, UpdateReasonAndMessage.
  assert (forall r m, tri id ks (fun _ => True)
    (o ← ReadJsonFile id; WriteJsonToFile id (set_reason r m o) : M unit) (fun _ _ => True)) as Hr.
  { intros r m. eapply tri_conseq; [apply (tri_rewrite id ks (fun _ => True))|by intros|by intros].
    intros st o _ _. exists KNote. split; [done|constructor]. }
  tkeep.
  { eapply tri_conseq; [apply (tri_update id ks (fun _ => True))|by intros|by intros].
    intros st o _ _. exists KEnd. split; [done|constructor]. }
  tkeep.
  { eapply tri_conseq; [apply (tri_rewrite id ks (fun _ => True))|by intros|by intros].
    intros st o _ _. exists KNote. split; [done|constructor]. }
  tkeep; [by destruct (code =? 0); apply Hr|].
  destruct err; [by apply tri_fail; apply _|apply (tri_ret _ tt (fun _ _ => True))].
Qed.

Lemma tri_Run opt ks : KCreate ∈ ks -> KCreated ∈ ks -> KRun ∈ ks -> KDie ∈ ks -> KAgain ∈ ks ->
  KEnd ∈ ks ->
  let id := ro_ContainerId opt in
  tri id ks (fun _ => True)
    (Run root_dir cwd Readlink SelfBinPath json_spec spec_json state_json json_net json_rootless
       polls opt : M unit) (fun _ _ => True).
Proof.
  intros Hc Hd Hr Hdie Ha He id. unfold Run, RunCreateRuntimeHooks, RunCreateContainerHooks,
    RunStartContainerHooks, RunPoststartHooks. fold id. cbv zeta.
  tread. tread. tread. tread. tseq; [by apply tri_create|].
  tkeep; [apply tri_hooks, settled_at; by intros ?%list_elem_of_singleton|].
  tread. tread. tread. tread. tread. tread.
  tseq; [apply tri_update|].
  { intros st o Hat Ho. exists KCreated. split; [done|].
    destruct (at_found _ _ _ _ Hat Ho) as (s & Hs & ->%list_elem_of_singleton). by constructor. }
  tkeep.
  { destruct (0 <? _)%nat; [|apply (tri_ret _ tt (fun _ => at_ id [CREATED]))].
    apply tri_hooks, settled_at; by intros ?%list_elem_of_singleton. }
  tkeep; [apply tri_hooks, settled_at; by intros ?%list_elem_of_singleton|].
  tkeep; [apply tri_hooks_nsenter, settled_at; by intros ?%list_elem_of_singleton|].
  tseq; [by apply tri_Start|].
  tseq; [apply tri_update|].
  { intros st o Hat Ho. exists KAgain. split; [done|].
    destruct (at_found _ _ _ _ Hat Ho) as (s & Hs & Hin). constructor.
    rewrite !elem_of_cons in Hin. destruct Hin as [->|[->|?%not_elem_of_nil]]; auto; done. }
  eapply (tri_conseq _ _ (fun _ => True)); [|by intros|by intros].
  tkeep; [by apply tri_hooks, settled_true|].
  destruct (negb _); [by apply (tri_ret _ tt (fun _ _ => True))|]. tread.
  eapply tri_conseq; [apply (tri_update id ks (fun _ => True))|by intros|by intros].
  intros st o _ _. exists KEnd. split; [done|constructor].
Qed.
End operations.
