(* ===== verification/RuntimeSafety.v ===== *)
(** * The life of a container

    Every operation of the runtime, in any order and with any faults, takes the
    state files along the edges of one state machine; what a status report, a
    start, a kill and a delete guarantee; an example run. *)

From Stdlib Require Import ZArith Lia Ascii String.
From stdpp Require Import base gmap strings list relations.
From S2P Require Import Prelude.
From S2P Require Import GoString.
From S2P Require Import GoPath.
From S2P Require Import World.
From S2P Require Import RuntimeSpec.
From S2P Require Import Kernel.
From S2P Require Import RuntimeNs.
From S2P Require Import RuntimeInit.
From S2P Require Import RuntimeStatus.
From S2P Require Import RuntimeLifecycle.
From S2P Require Import RuntimeLifecycleTheory.
Open Scope Z_scope.

(** One run of the command line, or the end of a supervised process. *)
Inductive op :=
  | OCreate (opt : CreateOption)
  | OStart (id : string)
  | OKill (id signal : string)
  | ODelete (id : string) (force : bool)
  | OExec (id : string) (tty : bool) (entrypoint : list string)
  | ORun (opt : RunOption)
  | OExit (id : string) (exitCode : Z) (waitErr : option error).

Definition target (o : op) : string :=
  match o with
  | OCreate opt => co_ContainerId opt
  | OStart id | OKill id _ | ODelete id _ | OExec id _ _ | OExit id _ _ => id
  | ORun opt => ro_ContainerId opt
  end.

(** The edges an operation may take. *)
Definition allowed (o : op) : list kind :=
  match o with
  | OCreate _ => [KCreate; KCreated]
  | OStart _ => [KDie; KRun]
  | OKill _ _ => [KDie; KStop; KKeep]
  | ODelete _ force => [KDie; KStop; KRemove] ++ (if force then [KForce] else [])
  | OExec _ _ _ => [KDie]
  | ORun _ => [KCreate; KCreated; KRun; KDie; KAgain; KEnd]
  | OExit _ _ _ => [KEnd; KNote]
  end.

Section safety.
Context {W : Type} {P : Peers sys W}.
Context (root_dir : string) (cwd : res string) (Readlink : string -> res string)
  (SelfBinPath : string)
  (json_spec : string -> res Spec) (spec_json : Spec -> res string)
  (state_json : StatusObject -> string) (json_net : string -> res NetConfigObject)
  (json_image : string -> res ImageConfigObject)
  (json_rootless : string -> res RootlessConfigObject) (PlanOf : Spec -> Plan)
  (in_user_namespace : bool) (polls : nat).
Notation M := (M states sys W).
Notation world := (world states sys W).

Definition perform_op (o : op) : M unit :=
  match o with
  | OCreate opt => Create root_dir cwd Readlink SelfBinPath json_spec spec_json state_json json_net
                     json_image json_rootless PlanOf in_user_namespace polls opt
  | OStart id => Start root_dir json_spec state_json id
  | OKill id signal => Kill root_dir json_spec state_json polls id signal
  | ODelete id force => Delete root_dir json_spec state_json id force
  | OExec id tty entrypoint => Exec_ root_dir SelfBinPath json_spec json_rootless id tty entrypoint
  | ORun opt => Run root_dir cwd Readlink SelfBinPath json_spec spec_json state_json json_net
                  json_rootless polls opt
  | OExit id code err => shim_exit id code err
  end.

Ltac member := repeat first [by left | right].

Lemma perform_within (o : op) (w : world) :
  within_life (target o) (allowed o) (store w) (store (perform_op o w).2).
Proof.
  destruct o as [opt|id|id sig|id force|id tty l|opt|id code err]; cbn [target allowed perform_op].
  - by apply (tri_Create root_dir cwd Readlink SelfBinPath json_spec spec_json state_json json_net
      json_image json_rootless PlanOf in_user_namespace polls opt _ (fun _ => True));
      [member|member|].
  - by apply (tri_Start root_dir json_spec state_json id _ (fun _ => True)); [member|member|].
  - by apply tri_Kill; [member..|].
  - by apply tri_Delete; [member..| |]; [intros ->; member|].
  - by apply tri_Exec; [member|].
  - by apply tri_Run; [member..|].
  - by apply tri_exit; [member..|].
Qed.

(** Where an operation changes nothing: [start], [kill] and [exec] a container that is
    being created or has stopped, and all but [create] and [run] a container that
    has no state file. *)
Definition inert (o : op) (x : option StatusObject) : Prop :=
  match o, x with
  | OCreate _, _ | ORun _, _ => False
  | _, None => True
  | OStart _, Some f | OKill _ _, Some f | OExec _ _ _, Some f => status_is f CREATING \/ status_is f STOPPED
  | _, Some _ => False
  end.
Lemma inert_stuck o x k y : inert o x -> k ∈ allowed o -> ~ edge (target o) k x y.
Proof.
  intros Hi Hk He.
  assert (forall f s t, status_is f s -> status_is f t -> s = t) as Hfun.
  { intros f s t H1 H2. unfold status_is in *. congruence. }
  destruct o; cbn in Hi, Hk; try done; rewrite ?elem_of_app, ?elem_of_cons, ?elem_of_nil in Hk.
  all: destruct He; try done; try (by destruct_or! Hk).
  all: try (destruct force; cbn in Hk; rewrite ?elem_of_cons, ?elem_of_nil in Hk; by destruct_or! Hk).
  all: destruct_or! Hi; try destruct_or!; by (assert (CREATING = CREATED) by eauto) ||
    (assert (STOPPED = CREATED) by eauto) || (assert (CREATING = RUNNING) by eauto) ||
    (assert (STOPPED = RUNNING) by eauto).
Qed.

(** C31: whatever is asked of the runtime, whatever the kernel answers and
    whichever access to a state file fails, an operation changes no state file but
    that of its container, and that one only by the changes of [edge] that are
    [allowed] to it.  [create] puts a new file in state creating in the place of
    whatever is there, and takes it to created; [start] takes created to running;
    [kill] takes created or running to stopped, or leaves running as it is; [delete]
    does as [kill] does and removes the file of a stopped container, or with force
    of one that is being created; [run] does what [create] and [start] do, records
    running again what is running or stopped, and at its end records stopped
    whatever the state; the end of a supervised process records stopped whatever
    the state, and its exit code and reason; and [start], [kill], [delete], [exec]
    and [run] may record as stopped what was running.  In particular [start], [kill]
    and [exec] change nothing for a container that is being created or has stopped,
    and only [create] and [run] make a file where there is none. *)
Theorem operations_follow_the_life_cycle (o : op) (w : world) :
  let st := store w in
  let st' := store (perform_op o w).2 in
  (forall j, j <> target o -> st' !! j = st !! j) /\
  rtc (fun x y => exists k, k ∈ allowed o /\ edge (target o) k x y)
    (st !! target o) (st' !! target o) /\
  (inert o (st !! target o) -> st' !! target o = st !! target o).
Proof.
  cbv zeta. destruct (perform_within o w) as [Hj Hr]. split_and!; [done..|].
  intros Hi. destruct Hr as [x|x y z (k & Hk & He) _]; [done|].
  by destruct (inert_stuck o x k y Hi Hk He).
Qed.

(** The states of the files after some operations. *)
Inductive reachable : states -> Prop :=
  | reachable_init : reachable ∅
  | reachable_op (o : op) (w : world) : reachable (store w) ->
      reachable (store (perform_op o w).2).

(** A state file the runtime wrote. *)
Definition sound (id : string) (o : StatusObject) : Prop :=
  Id o = id /\ 0 <= Pid o /\ 0 <= ShimPid o /\
  exists s, status_is o s /\
    (s = CREATING \/ s = STOPPED -> Pid o = 0 /\ ShimPid o = 0).

Definition sound_file (id : string) (x : option StatusObject) : Prop :=
  match x with Some o => sound id o | None => True end.

Lemma sound_set id s pid shim o : sound id o -> s = CREATED \/ s = RUNNING ->
  sound id (set_status s pid shim o).
Proof.
  intros (H1 & H2 & H3 & H4) Hs. split_and!; cbn.
  - done.
  - destruct (0 <=? pid) eqn:E; [by apply Z.leb_le in E|done].
  - destruct (0 <=? shim) eqn:E; [by apply Z.leb_le in E|done].
  - exists s. split; [apply Parse_String|]. by destruct Hs as [->| ->]; intros [].
Qed.
Lemma sound_stop id o : sound id o -> sound id (set_status STOPPED 0 0 o).
Proof. intros (H1 & H2 & H3 & H4). split_and!; [done..|]. by exists STOPPED. Qed.

Lemma sound_edge id k x y : edge id k x y -> sound_file id x -> sound_file id y.
Proof.
  destruct 1; cbn; intros Hx; auto using sound_set, sound_stop.
  - split_and!; [done|lia..|]. by exists CREATING.
Qed.

(** C32: in every state the runtime can reach, a state file carries the
    identifier of its container and a status that can be read back, no process
    identifier is negative, and a container that is being created or has stopped
    has none. *)
Theorem reachable_sound st : reachable st -> map_Forall sound st.
Proof.
  induction 1 as [|o w Hr IH]; [apply map_Forall_empty|].
  destruct (perform_within o w) as [Hother Hrtc].
  intros id ob Hob. destruct (decide (id = target o)) as [->|Hne].
  - assert (sound_file (target o) (store (perform_op o w).2 !! target o)) as Hs; [|by rewrite Hob in Hs].
    assert (sound_file (target o) (store w !! target o)) as H0.
    { destruct (store w !! target o) eqn:E; [by apply IH|done]. }
    clear Hob. induction Hrtc as [|x y z (k & _ & He) _ IHr]; [done|]. by eapply IHr, sound_edge.
  - rewrite Hother in Hob by done. by apply IH.
Qed.

(** ** What a status report means *)

(** The kernel knows the process: it takes signal 0, or refuses it for want of
    permission. *)
Definition alive (pid : Z) (w : W) : Prop :=
  (exists r, (perform (Signal pid 0) w).1 = Ok r) \/ (perform (Signal pid 0) w).1 = Err EPERM.

Lemma pidAlive_run pid (w : world) :
  exists b w1, pidAlive pid w = ((match b with Ok b => Ok b | _ => b end), w1) /\ store w1 = store w /\
    (b = Ok true -> 0 < pid /\ alive pid (inner w)) /\
    (b = Ok false -> ~ (0 < pid /\ alive pid (inner w))).
Proof.
  unfold pidAlive. destruct (Z.leb_spec pid 0) as [Hp|Hp].
  { exists (Ok false), w. split_and!; [done..|]. intros _ [H _]. lia. }
  unfold mbind, M_bind, attempt, call, alive.
  destruct (perform (Signal pid 0) (inner w)) as [r i]. cbn [fst]. destruct r as [a|e|e].
  - eexists (Ok true), _. split_and!; [done..| |done]. intros _. split; [done|]. left. by exists a.
  - eexists (Ok _), _. split_and!; [reflexivity|done|intros [= Hb]|intros [= Hb]].
    + split; [done|]. right. destruct (String.eqb_spec e ESRCH); [done|].
      by apply String.eqb_eq in Hb as ->.
    + intros [_ [[r [=]]|[= ->]]]. done.
  - eexists (Panic e), _. split_and!; [reflexivity|done|done|done].
Qed.

Lemma quiet_ReadJson id : quiet (ReadJsonFile id : M StatusObject).
Proof. apply quiet_read. Qed.
Lemma ReadJson_ok id (w : world) o w' : ReadJsonFile id w = (Ok o, w') ->
  store w !! id = Some o /\ store w' = store w /\ inner w' = inner w.
Proof.
  intros Hr. pose proof (quiet_ReadJson id w) as [_ Hi]. rewrite Hr in Hi.
   apply read_ok in Hr as [H ->]. split_and!; [|done..].
  destruct (store w !! id); [|done]. by injection H as ->.
Qed.
Lemma parse_status_ok o (w : world) s w' : parse_status o w = (Ok s, w') -> status_is o s /\ w' = w.
Proof.
  unfold parse_status, status_is. destruct (ParseContainerStatus (Status o)) as [s'|e|e]; [|done..].
  by intros [= -> ->].
Qed.
Lemma write_ok id o (w w' : world) : WriteJsonToFile id o w = (Ok tt, w') ->
  store w' = <[id := o]> (store w).
Proof. by intros [= ->]%txn_ok. Qed.

(** How a report comes about. *)
Lemma GetStatus_ok id (w : world) s w' : GetStatusFromId id w = (Ok s, w') ->
  exists o, store w !! id = Some o /\
    ((status_is o s /\ store w' = store w /\ (s = RUNNING -> 0 < Pid o /\ alive (Pid o) (inner w))) \/
     (status_is o RUNNING /\ s = STOPPED /\ store w' = <[id := set_status STOPPED 0 0 o]> (store w) /\
      ~ (0 < Pid o /\ alive (Pid o) (inner w)))).
Proof.
  unfold GetStatusFromId, ReadStatusFile, recomputeStatus.
  intros (o' & w4 & (o & w1 & (Ho & Hs1 & Hi1)%ReadJson_ok & H)%bind_ok & [Hp ->]%parse_status_ok)%bind_ok.
  apply bind_ok in H as (cur & w2 & [Hcur ->]%parse_status_ok & H).
  apply bind_ok in H as ([] & w3 & H & (Ho' & Hs4 & _)%ReadJson_ok).
  exists o. split; [done|]. destruct (decide (cur = RUNNING)) as [->|Hne].
  - apply bind_ok in H as (b & w5 & Hb & H).
    destruct (pidAlive_run (Pid o) w1) as (b' & w6 & Hb' & Hs6 & Ha & Hna).
    rewrite Hi1 in Ha, Hna.
    rewrite Hb' in Hb. injection Hb as Hb ->. destruct b' as [b'| |]; [|done..]. injection Hb as ->.
    destruct b.
    + injection H as <-. left. assert (o' = o) as -> by congruence.
      split_and!; [done|congruence|]. intros ->. by apply Ha.
    + unfold UpdateStatus in H. apply bind_ok in H as (o2 & w7 & (Ho2 & Hs7 & _)%ReadJson_ok & H).
      apply write_ok in H. rewrite Hs7, Hs6, Hs1 in *. replace o2 with o in * by congruence.
      rewrite H, lookup_insert_eq in Ho'. injection Ho' as <-.
      right. split_and!; [done| |congruence|by apply Hna]. by eapply status_unique; [|apply status_set].
  - injection H as <-. left. assert (o' = o) as -> by congruence.
    replace cur with s in * by by eapply status_unique.
    split_and!; [done|congruence|done].
Qed.

(** C33: a container is reported running only if its process is one the kernel
    knows when it is asked, and a report changes nothing; a container whose file
    says running without such a process is reported stopped, and the file says
    so from then on; every other status is reported as it is in the file. *)
Theorem status_report_is_true id (w : world) s w' : GetStatusFromId id w = (Ok s, w') ->
  exists o, store w !! id = Some o /\
    ((status_is o s /\ store w' = store w /\ (s = RUNNING -> 0 < Pid o /\ alive (Pid o) (inner w))) \/
     (status_is o RUNNING /\ s = STOPPED /\ store w' = <[id := set_status STOPPED 0 0 o]> (store w) /\
      ~ (0 < Pid o /\ alive (Pid o) (inner w)))).
Proof. apply GetStatus_ok. Qed.

(** ** Start, kill and delete *)

Lemma only_GetStatus (Q : sys -> Prop) id : (forall pid, Q (Signal pid 0)) ->
  only Q (GetStatusFromId id : M ContainerStatus).
Proof.
  intros HQ. unfold GetStatusFromId, ReadStatusFile, recomputeStatus, pidAlive, UpdateStatus,
    parse_status.
  repeat first [apply only_bind; [|intros ?] | apply only_attempt | apply only_call, HQ | case_match
    | apply only_ret | apply only_fail | apply only_crash
    | apply only_quiet, quiet_ReadJson | apply only_quiet, quiet_txn].
Qed.
Lemma only_ReadStatus (Q : sys -> Prop) id : (forall pid, Q (Signal pid 0)) ->
  only Q (ReadStatusFile id : M StatusObject).
Proof.
  intros HQ. unfold ReadStatusFile, recomputeStatus, pidAlive, UpdateStatus, parse_status.
  repeat first [apply only_bind; [|intros ?] | apply only_attempt | apply only_call, HQ | case_match
    | apply only_ret | apply only_fail | apply only_crash
    | apply only_quiet, quiet_ReadJson | apply only_quiet, quiet_txn].
Qed.

Lemma only_run_hooks (Q : sys -> Prop) phase i cmd stdin l : (forall n a e s t, Q (RunCommand n a e s t)) ->
  only Q (run_hooks phase i cmd stdin l : M unit).
Proof.
  intros HQ. revert i. induction l as [|h l IH]; intros i; cbn [run_hooks]; [apply only_ret|].
  destruct (String.eqb _ _); [apply only_fail|].
  apply only_bind; [by apply only_wrap, only_do, HQ|intros _; apply IH].
Qed.
Lemma only_hooks (Q : sys -> Prop) id phase l :
  (forall n a e s t, Q (RunCommand n a e s t)) -> (forall pid, Q (Signal pid 0)) ->
  only Q (unless_empty l (runHookList state_json id phase l) : M unit) /\
  only Q (unless_empty l (runHookListWithNsenter state_json id phase l) : M unit).
Proof.
  intros Hc Hs. destruct l as [|h l]; cbn [unless_empty]; [split; apply only_ret|].
  unfold runHookList, runHookListWithNsenter, GetPidFromId. split.
  - apply only_bind; [by apply only_ReadStatus|intros o]. by apply only_run_hooks.
  - apply only_bind; [by apply only_ReadStatus|intros o].
    apply only_bind; [|intros pid; by apply only_run_hooks].
    apply only_quiet, quiet_bind; [apply quiet_ReadJson|intros; apply quiet_ret].
Qed.

Lemma only_ran {A} (Q : sys -> Prop) (m : M A) (w w' : world) r :
  only Q m -> m w = (r, w') -> exists t, trace w' = trace w ++ t /\ Forall Q t.
Proof. intros H E. specialize (H w). by rewrite E in H. Qed.

Lemma do_ran c (w w' : world) : do c w = (Ok tt, w') ->
  trace w' = trace w ++ [c] /\ store w' = store w.
Proof.
  intros (a & w1 & Hc & [= <-])%bind_ok. pose proof (call_trace c w) as Ht.
  pose proof (call_keeps c w) as [_ Hs]. rewrite Hc in *. done.
Qed.

Lemma only_loadFile (Q : sys -> Prop) id :
  (forall p, Q (ReadJson p)) -> only Q (loadFile root_dir json_spec id : M Spec).
Proof.
  intros HQ. unfold loadFile. apply only_bind; [by apply only_call|intros text].
  apply only_quiet. by destruct (json_spec text).
Qed.

(** [once c m]: a run of [m] makes the call [c] once if it ends well, and at
    most once if not. *)
Definition made_once (c : sys) (t : list sys) : Prop :=
  exists t1 t2, t = t1 ++ [c] ++ t2 /\ Forall (.≠ c) t1 /\ Forall (.≠ c) t2.
Definition once {A} (c : sys) (m : M A) : Prop :=
  forall w, exists t, trace (m w).2 = trace w ++ t /\
    (Forall (.≠ c) t /\ is_ok (m w).1 = false \/ made_once c t).

Lemma once_fail {A} c e : once c (@fail states sys W A e).
Proof. intros w. exists []. rewrite app_nil_r. auto. Qed.
Lemma once_bind {A B} c (m : M A) (f : A -> M B) :
  only (.≠ c) m -> (forall a, once c (f a)) -> once c (m ≫= f).
Proof.
  intros Hm Hf w. unfold mbind, M_bind. destruct (Hm w) as (t & Ht & HQ).
  destruct (m w) as [[a|e|e] w1]; cbn [fst snd] in *; [|by exists t; auto..].
  destruct (Hf a w1) as (t' & Ht' & H). exists (t ++ t'). rewrite Ht', Ht, app_assoc.
  split; [done|]. destruct H as [[H1 H2]|(t1 & t2 & -> & H1 & H2)].
  - left. by rewrite Forall_app.
  - right. exists (t ++ t1), t2. rewrite Forall_app. by rewrite <- !app_assoc.
Qed.
Lemma once_do {A} c (m : M A) : only (.≠ c) m -> once c (do c ≫= fun _ => m).
Proof.
  intros Hm w. unfold do, mbind, M_bind. pose proof (call_trace c w) as Hc.
  destruct (call c w) as [[a|e|e] w1]; cbn [fst snd] in *.
  - destruct (Hm w1) as (t & Ht & HQ). exists ([c] ++ t). rewrite app_assoc, <- Hc. split; [done|].
    right. by exists [], t.
  - exists [c]. split; [done|]. right. by exists [], [].
  - exists [c]. split; [done|]. right. by exists [], [].
Qed.

(** The process of a container is let go only by a start, at most once, and
    only if the state file said [created] when the start began; a start that
    succeeds has let it go. *)
Theorem start_releases_once id (w : world) :
  let r := Start root_dir json_spec state_json id w in
  let release := WriteFifo (FifoPath root_dir id) in
  exists t, trace r.2 = trace w ++ t /\
    (Forall (.≠ release) t /\ is_ok r.1 = false \/
     made_once release t /\ exists o, store w !! id = Some o /\ status_is o CREATED).
Proof.
  cbv zeta. set (release := WriteFifo _). unfold Start.
  match goal with |- context [(_ ≫= ?f) w] => set (rest := f) end. unfold mbind, M_bind.
  destruct (only_GetStatus (.≠ release) id ltac:(done) w) as (t & Ht & HQ).
  pose proof (GetStatus_ok id w) as Hok.
  destruct (GetStatusFromId id w) as [[s|e|e] w1]; cbn [fst snd] in *;
    [|by exists t; auto..].
  destruct (decide (s = CREATED)) as [->|Hs].
  2: { exists t. unfold rest, EnsureCreated. rewrite decide_False by done. by auto. }
  destruct (Hok _ _ eq_refl) as (o & Ho & [(Hc & _)|(_ & ? & _)]); [|done].
  assert (once release (rest CREATED)) as Honce.
  { unfold rest, EnsureCreated. apply once_bind; [apply only_ret|intros _].
    apply once_bind; [by apply only_loadFile|intros sp]. unfold RunStartContainerHooks.
    apply once_bind; [by apply only_hooks|intros _]. cbv zeta.
    apply once_do. apply only_bind; [by apply only_do|intros _].
    apply only_bind; [|intros _; unfold RunPoststartHooks; by apply only_hooks].
    apply only_quiet. unfold UpdateStatus. apply quiet_bind; [apply quiet_ReadJson|intros ob].
    apply quiet_txn. }
  destruct (Honce w1) as (t' & Ht' & H). exists (t ++ t'). rewrite Ht', Ht, app_assoc.
  split; [done|]. destruct H as [[H1 H2]|(t1 & t2 & -> & H1 & H2)].
  - left. by rewrite Forall_app.
  - right. split; [|by exists o]. exists (t ++ t1), t2. rewrite Forall_app, <- !app_assoc. done.
Qed.

(** When a kill with a signal that ends a container returns without an error,
    the container is recorded as stopped. *)
Theorem kill_stops id signal (w w' : world) :
  stopping signal = true ->
  Kill root_dir json_spec state_json polls id signal w = (Ok tt, w') ->
  exists o, store w' !! id = Some o /\ status_is o STOPPED.
Proof.
  intros Hs Hk.
  destruct (tri_Kill root_dir json_spec state_json polls id signal [KDie; KStop; KKeep]
    ltac:(member) ltac:(member) ltac:(member) w I) as [_ H].
  rewrite Hk in H. destruct (H tt eq_refl Hs) as (o & s & H1 & H2 & ->%list_elem_of_singleton).
  by exists o.
Qed.

Lemma only_kill (Q : sys -> Prop) id b : (forall pid sig, Q (Signal pid sig)) ->
  only Q (when b (wrap "kill init process failed" (KillInitProcess id)) : M unit).
Proof.
  intros HQ. apply only_when. intros _. apply only_wrap. unfold KillInitProcess, GetPidFromId, UpdateStatus.
  repeat first [apply only_do, HQ | apply only_quiet, quiet_ReadJson | apply only_bind; [|intros ?] | apply only_ret
    | apply only_quiet, quiet_ReadJson | apply only_quiet, quiet_txn].
Qed.

(** C34: a delete that succeeds leaves neither a state file nor a directory of the
    container: the limits and the directory are the last it removes; without
    force it takes a stopped container only. *)
Theorem delete_leaves_nothing id force (w w' : world) :
  Delete root_dir json_spec state_json id force w = (Ok tt, w') ->
  store w' !! id = None /\
  (exists t, trace w' = trace w ++ t ++
     [RemoveAll (CgroupPath id); RemoveAll (ContainerDir root_dir id)]) /\
  exists o, store w !! id = Some o /\
    (force = false -> status_is o STOPPED \/
       status_is o RUNNING /\ ~ (0 < Pid o /\ alive (Pid o) (inner w))).
Proof.
  intros Hd. split_and!.
  - destruct (tri_Delete root_dir json_spec state_json id force
      ([KDie; KStop; KRemove] ++ (if force then [KForce] else [])) ltac:(member) ltac:(member)
      ltac:(member) ltac:(intros ->; member) w I) as [_ H].
    rewrite Hd in H. by apply (H tt).
  - apply bind_ok in Hd as (current & w1 & H1 & Hd).
    apply (only_ran (fun _ => True)) in H1 as (t1 & H1 & _); [|by apply only_GetStatus].
    destruct (negb _); [done|].
    apply bind_ok in Hd as ([] & w2 & H2 & Hd).
    apply (only_ran (fun _ => True)) in H2 as (t2 & H2 & _); [|by apply only_kill].
    apply bind_ok in Hd as (s & w3 & H3 & Hd).
    apply (only_ran (fun _ => True)) in H3 as (t3 & H3 & _); [|by apply only_loadFile].
    apply bind_ok in Hd as ([] & w4 & H4 & Hd).
    apply (only_ran (fun _ => True)) in H4 as (t4 & H4 & _); [|by apply only_hooks].
    apply bind_ok in Hd as ([] & w5 & H5 & Hd).
    apply (only_ran (fun _ => True)) in H5 as (t5 & H5 & _); [|by apply only_quiet, quiet_txn].
    apply bind_ok in Hd as ([] & w6 & H6 & Hd).
    apply (only_ran (fun _ => True)) in H6 as (t6 & H6 & _); [|by apply only_when; intros _; apply only_do].
    apply bind_ok in Hd as ([] & w7 & [H7 _]%do_ran & [H8 _]%do_ran).
    exists (t1 ++ t2 ++ t3 ++ t4 ++ t5 ++ t6).
    rewrite H8, H7, H6, H5, H4, H3, H2, H1, <- !app_assoc. done.
  - apply bind_ok in Hd as (current & w1 & H1 & Hd). apply GetStatus_ok in H1 as (o & Ho & H).
    exists o. split; [done|]. intros ->. destruct (CanDelete current false) eqn:Hc; [|done].
    unfold CanDelete in Hc. rewrite orb_false_r in Hc. apply bool_decide_eq_true in Hc as ->.
    destruct H as [(H1 & _)|(H1 & _ & _ & H2)]; auto.
Qed.
End safety.

(** * A container from [create] to [delete]

    One host, the life of one container on it, and what the runtime does where
    its operations meet in an order of their own. *)

Module Demo.

(** The host: the processes that live.  The process of a container is 101, its
    supervisor 100. *)
#[export] Instance host : Peers sys (list Z) := fun c live =>
  match c with
  | Stat _ => (Ok DIR, live)
  | Sha256File _ => (Ok "h", live)
  | ReadJson p => (Ok (if hasSuffix p "config_hash.json" then "h" else "{}"), live)
  | StartCommand _ args => (Ok (match args with "init" :: _ => "101" | _ => "100" end), 101 :: live)
  | ReadFile p =>
      if hasSuffix p "init.pid" then (Ok "101", live)
      else if bool_decide (101 ∈ live)
      then (Ok "101 (sh) S 1 1 1 0 -1 0 0 0 0 0 0 0 0 0 20 0 1 0 777", live)
      else (Err ENOENT, live)
  | Signal pid sig =>
      if bool_decide (pid ∈ live)
      then (Ok "", if (sig =? 9) || (sig =? 15) then List.filter (fun p => negb (p =? pid)) live else live)
      else (Err ESRCH, live)
  | _ => (Ok "", live)
  end.

Definition hook (p : string) : HookObject :=
  {| hook_Path := p; hook_Args := [p]; hook_Env := []; Timeout := None |}.
Definition spec1 : Spec :=
  let s := spec_with_namespaces [] in
  {| OciVersion := "1.3.0"; Root := {| root_Path := "/srv/merged"; root_Readonly := false |};
     Mounts := []; Process := Process s; Hostname := "c1"; LinuxSpec := LinuxSpec s;
     Hooks := {| Prestart := []; CreateRuntime := []; CreateContainer := []; StartContainer := [];
       Poststart := [hook "/hooks/up"]; StopContainer := [hook "/hooks/down"]; Poststop := [] |};
     Annotations := Annotations s |}.

Definition w0 : world states sys (list Z) :=
  {| store := ∅; faults := []; times := []; ids := []; trace := []; inner := [] |}.

Notation run o w := (perform_op (P := host) "/run/droplet" (Ok "/") (fun _ => Err "not a link") "droplet"
  (fun _ => Ok spec1) (fun _ => Ok "{}") (fun _ => "{}") (fun _ => Err "no network")
  (fun _ => Err "no image") (fun _ => Err "not rootless") (fun _ => empty_plan) false 3%nat o w).

Definition create : op := OCreate {| co_ContainerId := "c1"; co_Bundle := ""; ConsoleSocket := "";
  PidFile := ""; TtyFlag := false |}.
Definition run_c1 : op := ORun {| ro_ContainerId := "c1"; ro_Bundle := ""; ro_PidFile := ""; Tty := false |}.

Definition w1 := (run create w0).2.
Definition w2 := (run (OStart "c1") w1).2.
Definition w3 := (run (OKill "c1" "TERM") w2).2.
Definition w4 := (run (ODelete "c1" false) w3).2.

Definition seen (w : world states sys (list Z)) : option (string * Z) :=
  match store w !! "c1" with Some o => Some (Status o, Pid o) | None => None end.

(** The life of a container, and what it leaves. *)
Example whole_life :
  seen w1 = Some ("created", 101) /\ seen w2 = Some ("running", 101) /\ seen w3 = Some ("stopped", 0) /\
  seen w4 = None /\ inner w4 = [] /\
  Forall (fun r => r = Ok tt)
    [(run create w0).1; (run (OStart "c1") w1).1; (run (OKill "c1" "TERM") w2).1; (run (ODelete "c1" false) w3).1].
Proof. vm_compute. repeat split. repeat constructor. Qed.

Example too_early :
  (run (ODelete "c1" false) w2).1 = Err "container: c1 is not stopped. current status: running" /\
  (run (OStart "c1") w2).1 = Err "container: c1 is not created. currnet status: running" /\
  (run (OExec "c1" false ["/bin/sh"]) w1).1 = Err "container: c1 not running.".
Proof. done. Qed.

Definition hooks_run (p : string) (w : world states sys (list Z)) : nat :=
  length (List.filter (fun c => match c with RunCommand n _ _ _ _ => String.eqb n p | _ => false end)
    (trace w)).

(** The name of a signal decides what a kill records, and a number is not a
    name: [kill c1 9] ends the process, but the container stays recorded as
    running and its stop hooks do not run; [kill c1 KILL] does both. *)
Example kill_by_number :
  signals_Parse "9" = Ok ("9", 9) /\ signals_Parse "KILL" = Ok ("KILL", 9) /\
  (let w := (run (OKill "c1" "9") w2).2 in
   seen w = Some ("running", 101) /\ inner w = [] /\ hooks_run "/hooks/down" w = 0%nat) /\
  (let w := (run (OKill "c1" "KILL") w2).2 in
   seen w = Some ("stopped", 0) /\ inner w = [] /\ hooks_run "/hooks/down" w = 1%nat).
Proof. vm_compute. done. Qed.

(** Any signal to a container that has not been started records it as stopped,
    though its process lives on. *)
Example kill_before_start :
  let r := run (OKill "c1" "CONT") w1 in
  r.1 = Ok tt /\ seen r.2 = Some ("stopped", 0) /\ inner r.2 = [101].
Proof. vm_compute. done. Qed.

(** A second [create] under the same identifier replaces the state of a
    container that is running. *)
Example create_over_running :
  let r := run create w2 in
  r.1 = Ok tt /\ seen w2 = Some ("running", 101) /\ seen r.2 = Some ("created", 101) /\
  inner r.2 = [101; 101].
Proof. vm_compute. done. Qed.

(** [run] starts through [start] and then repeats its hooks. *)
Example run_repeats_poststart :
  let r := run run_c1 w0 in
  r.1 = Ok tt /\ seen r.2 = Some ("running", 101) /\ hooks_run "/hooks/up" r.2 = 2%nat.
Proof. vm_compute. done. Qed.

(** ** The theorems on this run *)

(** [start] and [kill] of the stopped container, [start] of the removed one. *)
Example operations_follow_the_life_cycle_witness :
  store (run (OStart "c1") w3).2 !! "c1" = store w3 !! "c1" /\
  store (run (OKill "c1" "KILL") w3).2 !! "c1" = store w3 !! "c1" /\
  store (run (OStart "c1") w4).2 !! "c1" = None.
Proof.
  assert (exists f, store w3 !! "c1" = Some f /\ status_is f STOPPED) as (f & Hf & Hs).
  { eexists. split; vm_compute; reflexivity. }
  assert (store w4 !! "c1" = None) as H4 by (vm_compute; reflexivity).
  pose proof (fun o w => operations_follow_the_life_cycle (P := host) "/run/droplet" (Ok "/")
    (fun _ => Err "not a link") "droplet" (fun _ => Ok spec1) (fun _ => Ok "{}") (fun _ => "{}")
    (fun _ => Err "no network") (fun _ => Err "no image") (fun _ => Err "not rootless")
    (fun _ => empty_plan) false 3%nat o w) as H.
  split; [|split].
  - apply (H (OStart "c1") w3). cbn [target inert]. rewrite Hf. right. exact Hs.
  - apply (H (OKill "c1" "KILL") w3). cbn [target inert]. rewrite Hf. right. exact Hs.
  - rewrite <- H4. apply (H (OStart "c1") w4). cbn [target inert]. rewrite H4. exact I.
Defined.

Example reachable_sound_witness : map_Forall sound (store w2).
Proof.
  apply (reachable_sound (P := host) "/run/droplet" (Ok "/") (fun _ => Err "not a link") "droplet"
    (fun _ => Ok spec1) (fun _ => Ok "{}") (fun _ => "{}") (fun _ => Err "no network")
    (fun _ => Err "no image") (fun _ => Err "not rootless") (fun _ => empty_plan) false 3%nat).
  unfold w2. apply reachable_op. unfold w1. apply reachable_op. constructor.
Defined.

Example status_report_is_true_witness :
  exists o, store w2 !! "c1" = Some o /\ 0 < Pid o /\ alive (Pid o) (inner w2).
Proof.
  pose (w' := (GetStatusFromId (P := host) "c1" w2).2).
  assert (GetStatusFromId (P := host) "c1" w2 = (Ok RUNNING, w')) as H by (vm_compute; reflexivity).
  destruct (status_report_is_true (P := host) "c1" w2 RUNNING w' H) as (o & Ho & [(_ & _ & Ha)|(_ & Hs & _)]);
    [|discriminate Hs].
  exists o. split; [exact Ho|exact (Ha eq_refl)].
Defined.

Example kill_stops_witness : exists o, store w3 !! "c1" = Some o /\ status_is o STOPPED.
Proof.
  apply (kill_stops (P := host) "/run/droplet" (fun _ => Ok spec1) (fun _ => "{}") 3%nat "c1" "TERM" w2 w3).
  - reflexivity.
  - vm_compute. reflexivity.
Defined.

Example delete_leaves_nothing_witness : store w4 !! "c1" = None.
Proof.
  apply (delete_leaves_nothing (P := host) "/run/droplet" (fun _ => Ok spec1) (fun _ => "{}") "c1" false w3 w4).
  vm_compute. reflexivity.
Defined.
End Demo.
