(* ===== verification/ContainerModel.v ===== *)
(** * The container service as its clients see it ([core/container/model.go])

    The parameters of a creation and the description of a container.  The
    operations themselves are the calls of [Bottle.v] and [PodService.v]. *)

From Stdlib Require Import ZArith String.
From stdpp Require Import base strings list.
Open Scope Z_scope.

(** Without [Progress], a callback that only the image download calls. *)
Record ServiceCreateModel := {
  cm_Image : string;
  cm_Os : string;
  cm_Arch : string;
  cm_Command : list string;
  cm_Port : list string;
  cm_Mount : list string;
  cm_Device : list string;
  cm_Env : list string;
  cm_CapAdd : list string;
  cm_CapDrop : list string;
  cm_SecurityProfile : string;
  cm_Network : string;
  cm_Tty : bool;
  cm_Name : string;
  cm_BottleId : string;
  cm_PodId : string;
  cm_Rootless : bool;
  cm_RootlessMode : string;
  cm_RootlessRootUID : Z;
  cm_RootlessRootGID : Z;
  cm_IsPodInfra : bool
}.

Record ForwardInfo := {
  fw_HostPort : Z;
  fw_ContainerPort : Z;
  fw_Protocol : string
}.

Record ContainerState := {
  cs_ContainerId : string;
  cs_Name : string;
  cs_PodId : string;
  cs_State : string;
  cs_Pid : Z;
  cs_Repository : string;
  cs_Reference : string;
  cs_Command : list string;
  cs_Address : string;
  cs_Forwards : list ForwardInfo;
  cs_CreatingAt : Z;
  cs_CreatedAt : Z;
  cs_StartedAt : Z;
  cs_StoppedAt : Z
}.
