(* ===== verification/Bottle.v ===== *)
(** * Bottles: create, start, stop, delete ([core/bottle/service.go])

    The operations on a stored bottle, over the bottle table ([Bsm.v]) and the
    container, network and policy services, which are only called here. *)

From Stdlib Require Import ZArith Lia String.
From stdpp Require Import base gmap strings list.
From S2P Require Import Prelude.
From S2P Require Import GoString.
From S2P Require Import Bsm.
From S2P Require Import World.
From S2P Require Import ContainerModel.
Open Scope Z_scope.

(** ** The calls *)

Inductive service_call :=
  | CreateContainer (m : ServiceCreateModel)
  | StartContainer (containerId : string) (tty : bool)
  | StopContainer (containerId : string)
  | DeleteContainer (containerId : string)
  | CreateNewNetwork (bridge : string)
  | RemoveNetwork (bridge : string)
  | RemoveUserPolicy (policyId : string)
  | CommitPolicy.

(** ** Operations *)

Definition buildContainerName (bottleName serviceName : string) : string :=
  bottleName +:+ "-" +:+ serviceName.

Definition bottleIdPrefix (bottleId : string) : string :=
  if (String.length bottleId <=? 10)%nat then bottleId else take_str 10 bottleId.

Section service.
Context {RO : RangeOrder} {W : Type} {S : Peers service_call W}.
(** The state of a container in the container table ([csm]). *)
Context (container_state : string -> W -> res string).
#[local] Notation M := (M BottleState service_call W).

Definition shouldCreateBottleNetwork (services : gmap string ServiceSpec) : bool :=
  if decide (services = ∅) then false
  else forallb (fun svc => String.eqb (Network svc) "") (range_values services).

(** [bsm.ResolveBottleId] and [bsm.GetBottleById], each read under the lock. *)
Definition ResolveBottle (bottleIdOrName : string) : M string :=
  r ← attempt (read (GetBottleIdByName bottleIdOrName));
  match r with
  | Ok bottleId => mret bottleId
  | _ => _ ← read (GetBottleById bottleIdOrName); mret bottleIdOrName
  end.

(** The lines that the four operations start with. *)
Definition load_bottle (bottleIdOrName : string) : M (string * BottleInfo) :=
  bottleId ← ResolveBottle bottleIdOrName;
  info ← read (GetBottleById bottleId);
  match StartOrder info with
  | [] => fail "start order is empty"
  | _ => mret (bottleId, info)
  end.

(** A missing key reads as the empty string. *)
Definition container_of (containers : gmap string string) (serviceName : string) : string :=
  default "" (containers !! serviceName).

(** The two loops of the roll-back: delete the containers, last one first, and
    drop every service whose container is one of them. *)
Fixpoint delete_created (ids : list string) : M unit :=
  match ids with
  | [] => mret tt
  | id :: ids => _ ← ignore (call (DeleteContainer id)); delete_created ids
  end.

Definition drop_created (created : list string) (containers : gmap string string)
    : gmap string string :=
  fold_left (fun m id => filter (fun kv => kv.2 <> id) m) created containers.

Definition rollbackCreatedContainers (created : list string)
    (containers : gmap string string) (bottleId bridge : string) (autoNetwork : bool)
    : M unit :=
  _ ← delete_created (rev created);
  _ ← ignore (txn (UpdateBottleContainers bottleId (drop_created created containers)));
  if autoNetwork && negb (String.eqb bridge "") then
    _ ← ignore (call (RemoveNetwork bridge));
    ignore (txn (UpdateBottleNetwork bottleId "" false))
  else mret tt.

Definition create_param (info : BottleInfo) (bottleId bridge : string) (autoNetwork : bool)
    (serviceName : string) (spec : ServiceSpec) : ServiceCreateModel :=
  {| cm_Image := Image spec; cm_Os := ""; cm_Arch := ""; cm_Command := Command spec;
     cm_Port := Ports spec; cm_Mount := Mount spec; cm_Device := Device spec;
     cm_Env := Env spec; cm_CapAdd := CapAdd spec; cm_CapDrop := CapDrop spec;
     cm_SecurityProfile := "";
     cm_Network := if String.eqb (Network spec) "" && autoNetwork then bridge
                   else Network spec;
     cm_Tty := Tty spec; cm_Name := buildContainerName (BottleName info) serviceName;
     cm_BottleId := bottleId; cm_PodId := ""; cm_Rootless := false; cm_RootlessMode := "";
     cm_RootlessRootUID := 0; cm_RootlessRootGID := 0; cm_IsPodInfra := false |}.

Section create_loop.
Context (info : BottleInfo) (bottleId bridge : string) (autoNetwork : bool).

Fixpoint create_loop (order : list string) (containers : gmap string string)
    (created : list string) : M unit :=
  match order with
  | [] => mret tt
  | serviceName :: order =>
      if negb (String.eqb (container_of containers serviceName) "")
      then create_loop order containers created else
      match Services info !! serviceName with
      | None => fail ("service spec not found: " +:+ serviceName)
      | Some spec =>
          r ← attempt (call (CreateContainer
                (create_param info bottleId bridge autoNetwork serviceName spec)));
          match r with
          | Ok containerId =>
              let containers := <[serviceName := containerId]> containers in
              let created := created ++ [containerId] in
              u ← attempt (txn (UpdateBottleContainer bottleId serviceName containerId));
              match u with
              | Ok _ => create_loop order containers created
              | Err e | Panic e =>
                  _ ← rollbackCreatedContainers created containers bottleId bridge autoNetwork;
                  fail e
              end
          | Err e | Panic e =>
              _ ← rollbackCreatedContainers created containers bottleId bridge autoNetwork;
              fail e
          end
      end
  end.
End create_loop.

(** The network of the bottle: one of its own when none of its services names
    one. *)
Definition prepare_network (bottleId : string) (info : BottleInfo) : M (string * bool) :=
  if String.eqb (b_Network info) "" && shouldCreateBottleNetwork (Services info) then
    let bridge := "raind" +:+ bottleIdPrefix bottleId in
    _ ← call (CreateNewNetwork bridge);
    r ← attempt (txn (UpdateBottleNetwork bottleId bridge true));
    match r with
    | Ok _ => mret (bridge, true)
    | Err e | Panic e => _ ← ignore (call (RemoveNetwork bridge)); fail e
    end
  else
    _ ← (if String.eqb (b_Network info) "" && negb (NetworkAuto info)
         then ignore (txn (UpdateBottleNetwork bottleId "" false)) else mret tt);
    mret (b_Network info, NetworkAuto info).

Definition Create (bottleIdOrName : string) : M string :=
  '(bottleId, info) ← load_bottle bottleIdOrName;
  '(bridge, autoNetwork) ← prepare_network bottleId info;
  _ ← create_loop info bottleId bridge autoNetwork (StartOrder info) (Containers info) [];
  mret bottleId.

Fixpoint start_loop (info : BottleInfo) (order : list string) : M unit :=
  match order with
  | [] => mret tt
  | serviceName :: order =>
      let containerId := container_of (Containers info) serviceName in
      if String.eqb containerId ""
      then fail ("container for service " +:+ serviceName +:+ " not created") else
      match Services info !! serviceName with
      | None => fail ("service spec not found: " +:+ serviceName)
      | Some spec =>
          _ ← call (StartContainer containerId (Tty spec));
          start_loop info order
      end
  end.

Definition Start (bottleIdOrName : string) : M string :=
  '(bottleId, info) ← load_bottle bottleIdOrName;
  _ ← start_loop info (StartOrder info);
  mret bottleId.

(** The container of a service, for the operations that take them down. *)
Definition existing_container (info : BottleInfo) (serviceName : string) : M string :=
  let containerId := container_of (Containers info) serviceName in
  if String.eqb containerId ""
  then fail ("container for service " +:+ serviceName +:+ " not found")
  else mret containerId.

Fixpoint stop_loop (info : BottleInfo) (order : list string) : M unit :=
  match order with
  | [] => mret tt
  | serviceName :: order =>
      containerId ← existing_container info serviceName;
      state ← observe (container_state containerId);
      if negb (String.eqb state "running") then stop_loop info order else
      _ ← call (StopContainer containerId);
      stop_loop info order
  end.

Definition Stop (bottleIdOrName : string) : M string :=
  '(bottleId, info) ← load_bottle bottleIdOrName;
  _ ← stop_loop info (rev (StartOrder info));
  mret bottleId.

Fixpoint delete_loop (info : BottleInfo) (order : list string) : M unit :=
  match order with
  | [] => mret tt
  | serviceName :: order =>
      containerId ← existing_container info serviceName;
      state ← observe (container_state containerId);
      _ ← (if String.eqb state "running"
           then _ ← call (StopContainer containerId); mret tt else mret tt);
      _ ← call (DeleteContainer containerId);
      delete_loop info order
  end.

Fixpoint removeBottlePolicies (policies : list PolicyInfo) : M unit :=
  match policies with
  | [] => mret tt
  | p :: policies =>
      if String.eqb (Id p) "" then removeBottlePolicies policies else
      _ ← call (RemoveUserPolicy (Id p));
      _ ← call CommitPolicy;
      removeBottlePolicies policies
  end.

Definition Delete (bottleIdOrName : string) : M string :=
  '(bottleId, info) ← load_bottle bottleIdOrName;
  _ ← delete_loop info (rev (StartOrder info));
  _ ← removeBottlePolicies (Policies info);
  _ ← (if NetworkAuto info && negb (String.eqb (b_Network info) "")
       then _ ← call (RemoveNetwork (b_Network info)); mret tt else mret tt);
  _ ← txn (RemoveBottle bottleId);
  mret bottleId.
End service.
