(* ===== verification/BottleTheory.v ===== *)
(** * Correctness of the bottle operations

    What [Bottle.v] asks of the other services, in which order, and what it
    leaves in the bottle table, on success and on every failure. *)

From Stdlib Require Import ZArith Lia String.
From stdpp Require Import base gmap strings list.
From S2P Require Import Prelude.
From S2P Require Import GoString.
From S2P Require Import Bsm.
From S2P Require Import World.
From S2P Require Import ContainerModel.
From S2P Require Import Bottle.
Open Scope Z_scope.

Section theory.
Context {RO : RangeOrder} {W : Type} {S : Peers service_call W}.
#[local] Notation world := (world BottleState service_call W).
Implicit Types w : world.

(** ** Loading *)

Lemma ResolveBottle_quiet str : quiet (W := W) (ResolveBottle str).
Proof.
  apply quiet_bind; [auto with go|]. intros [id|e|e]; [auto with go|..];
    (apply quiet_bind; [auto with go|]; intros ?; auto with go).
Qed.
Lemma ResolveBottle_reads str : reads (W := W) (ResolveBottle str).
Proof.
  apply reads_bind; [auto with go|]. intros [id|e|e]; [auto with go|..];
    (apply reads_bind; [auto with go|]; intros ?; auto with go).
Qed.

Lemma load_bottle_run str w r w' :
  load_bottle str w = (r, w') ->
  trace w' = trace w /\ inner w' = inner w /\ store w' = store w /\
  (forall bottleId info, r = Ok (bottleId, info) ->
     StartOrder info <> [] /\ exists k, find_by_id bottleId (store w) = Some (k, info)).
Proof.
  intros H.
  assert (quiet (W := W) (load_bottle str)) as Hq.
  { apply quiet_bind; [apply ResolveBottle_quiet|]. intros id.
    apply quiet_bind; [auto with go|]. intros info. case_match; auto with go. }
  assert (reads (W := W) (load_bottle str)) as Hr.
  { apply reads_bind; [apply ResolveBottle_reads|]. intros id.
    apply reads_bind; [auto with go|]. intros info. case_match; auto with go. }
  specialize (Hq w). specialize (Hr w). rewrite H in Hq, Hr. simpl in Hq, Hr.
  destruct Hq as [Hq1 Hq2]. split_and!; try done.
  intros bottleId info ->. unfold load_bottle in H.
  apply bind_ok in H as (id & w1 & H1 & H).
  apply bind_ok in H as (info' & w2 & H2 & H).
  pose proof (ResolveBottle_reads str w) as Hs. rewrite H1 in Hs. simpl in Hs.
  apply read_ok in H2 as [H2 _]. rewrite Hs in H2.
  destruct (StartOrder info') eqn:E; [discriminate H|].
  injection H as <- <- _. rewrite E. split; [done|].
  unfold GetBottleById in H2. destruct (find_by_id id (store w)) as [[k b]|]; [|done].
  injection H2 as ->. by exists k.
Qed.

(** ** Calls one after another *)

Lemma run_call c w r w1 :
  call c w = (r, w1) ->
  trace w1 = trace w ++ [c] /\ store w1 = store w /\ faults w1 = faults w.
Proof.
  intros H. pose proof (call_trace c w) as Ht. pose proof (call_keeps c w) as [Hf Hs].
  rewrite H in *. done.
Qed.

(** The calls of [Start] when every step succeeds. *)
Definition start_calls (info : BottleInfo) (order : list string) : list service_call :=
  (fun s => StartContainer (container_of (Containers info) s)
              (default false (Tty <$> Bsm.Services info !! s))) <$> order.

#[local] Arguments start_calls : simpl never.

Lemma start_calls_cons info s order spec :
  Bsm.Services info !! s = Some spec ->
  start_calls info (s :: order) =
    StartContainer (container_of (Containers info) s) (Tty spec) :: start_calls info order.
Proof. intros Hs. unfold start_calls. rewrite fmap_cons, Hs. done. Qed.

Definition startable (info : BottleInfo) (s : string) : Prop :=
  container_of (Containers info) s <> "" /\ is_Some (Bsm.Services info !! s).

Lemma start_loop_run info order w r w' :
  start_loop info order w = (r, w') ->
  store w' = store w /\ exists calls, trace w' = trace w ++ calls /\
    prefix calls (start_calls info order) /\
    (is_ok r = true -> calls = start_calls info order /\ Forall (startable info) order).
Proof.
  revert w. induction order as [|s order IH]; intros w; simpl.
  - intros [= <- <-]. split; [done|]. exists []. by rewrite app_nil_r.
  - destruct (String.eqb_spec (container_of (Containers info) s) "") as [E|E].
    { intros [= <- <-]. split; [done|]. exists []. rewrite app_nil_r.
      split_and!; [done|apply prefix_nil|done]. }
    destruct (Bsm.Services info !! s) as [spec|] eqn:Es; cycle 1.
    { intros [= <- <-]. split; [done|]. exists []. rewrite app_nil_r.
      split_and!; [done|apply prefix_nil|done]. }
    intros H. apply M_bind_run in H as [(t & w1 & H1 & H)|[(e & H1 & ->)|(e & H1 & ->)]];
      apply run_call in H1 as (Ht & Hs & _).
    + apply IH in H as (Hst & calls & Hc & Hp & Hok). split; [congruence|].
      exists (StartContainer (container_of (Containers info) s) (Tty spec) :: calls).
      rewrite Hc, Ht, <- (assoc_L (++)), (start_calls_cons _ _ _ _ Es).
      split; [done|]. split; [by apply prefix_cons|].
      intros Hr. destruct (Hok Hr) as [-> Hf]. split; [done|].
      constructor; [|done]. split; [done|]. rewrite Es. by eexists.
    + split; [done|]. eexists. split; [exact Ht|].
      rewrite (start_calls_cons _ _ _ _ Es). split; [by apply prefix_cons, prefix_nil|done].
    + split; [done|]. eexists. split; [exact Ht|].
      rewrite (start_calls_cons _ _ _ _ Es). split; [by apply prefix_cons, prefix_nil|done].
Qed.

(** [Start] starts the containers of a bottle one by one in its start
    order: the calls made are an initial part of that sequence, all of it when
    the call succeeds; it starts nothing else and leaves the bottle table as
    it is. *)
Theorem Start_in_order str w r w' :
  Start str w = (r, w') ->
  store w' = store w /\ exists calls, trace w' = trace w ++ calls /\
    (calls = [] /\ is_ok r = false \/
     exists bottleId k info, find_by_id bottleId (store w) = Some (k, info) /\
       prefix calls (start_calls info (StartOrder info)) /\
       (is_ok r = true -> r = Ok bottleId /\
          calls = start_calls info (StartOrder info) /\
          Forall (startable info) (StartOrder info))).
Proof.
  unfold Start. intros H.
  apply M_bind_run in H as [([id info] & w1 & H1 & H)|[(e & H1 & ->)|(e & H1 & ->)]];
    apply load_bottle_run in H1 as (Ht & _ & Hs & Hi).
  2,3: split; [done|]; exists []; rewrite app_nil_r; split; [done|]; by left.
  destruct (Hi id info eq_refl) as (_ & k & Hk).
  apply M_bind_run in H as [([] & w2 & H2 & H)|[(e & H2 & ->)|(e & H2 & ->)]];
    apply start_loop_run in H2 as (Hs2 & calls & Hc & Hp & Hok); rewrite Hs in Hs2.
  - injection H as <- <-. split; [done|]. exists calls. rewrite Hc, Ht. split; [done|].
    right. exists id, k, info. naive_solver.
  - split; [done|]. exists calls. rewrite Hc, Ht. split; [done|].
    right. exists id, k, info. naive_solver.
  - split; [done|]. exists calls. rewrite Hc, Ht. split; [done|].
    right. exists id, k, info. naive_solver.
Qed.

(** ** Taking a bottle down *)

Context (container_state : string -> W -> res string).

Definition container (info : BottleInfo) (s : string) : string :=
  container_of (Containers info) s.

Lemma existing_container_run info s w r w1 :
  existing_container info s w = (r, w1) ->
  w1 = w /\ forall c, r = Ok c -> c = container info s /\ c <> "".
Proof.
  unfold existing_container, container.
  destruct (String.eqb_spec (container_of (Containers info) s) "");
    intros [= <- <-]; naive_solver.
Qed.

Lemma stop_loop_run info order w r w' :
  stop_loop container_state info order w = (r, w') ->
  store w' = store w /\ exists calls, trace w' = trace w ++ calls /\
    sublist calls ((fun s => StopContainer (container info s)) <$> order).
Proof.
  revert w. induction order as [|s order IH]; intros w; simpl.
  - intros [= <- <-]. split; [done|]. exists []. by rewrite app_nil_r.
  - assert (forall w0 : world, store w0 = store w /\ trace w0 = trace w ->
      store w0 = store w /\ exists calls, trace w0 = trace w ++ calls /\
        sublist calls (StopContainer (container info s) ::
          ((fun s => StopContainer (container info s)) <$> order))) as Hnone.
    { intros w0 [? ?]. split; [done|]. exists []. rewrite app_nil_r.
      split; [done|apply sublist_nil_l]. }
    intros H. apply M_bind_run in H as [(c & w1 & H1 & H)|[(e & H1 & ->)|(e & H1 & ->)]];
      apply existing_container_run in H1 as [-> Hc]; [|by apply Hnone..].
    destruct (Hc c eq_refl) as [-> Hne].
    apply M_bind_run in H as [(st & w1 & H1 & H)|[(e & H1 & ->)|(e & H1 & ->)]];
      unfold observe in H1; injection H1 as H1 <-; [|by apply Hnone..].
    destruct (negb (String.eqb st "running")).
    { apply IH in H as (Hs & calls & Ht & Hsub). split; [done|].
      exists calls. split; [done|by constructor]. }
    apply M_bind_run in H as [(u & w1 & H2 & H)|[(e & H2 & ->)|(e & H2 & ->)]];
      apply run_call in H2 as (Ht & Hs & _).
    + apply IH in H as (Hs' & calls & Ht' & Hsub). split; [congruence|].
      eexists. rewrite Ht', Ht, <- (assoc_L (++)). split; [reflexivity|].
      by apply sublist_skip.
    + split; [done|]. eexists. split; [exact Ht|]. apply sublist_skip, sublist_nil_l.
    + split; [done|]. eexists. split; [exact Ht|]. apply sublist_skip, sublist_nil_l.
Qed.

(** What the container service promises of [Stop]: a stopped container is not
    running, and the state of the others does not change. *)
Class StopLaw : Prop := stop_law c i t i' :
  perform (StopContainer c) i = (Ok t, i') ->
  (forall st, container_state c i' = Ok st -> st <> "running") /\
  forall c', c' <> c -> container_state c' i' = container_state c' i.

Lemma stop_loop_stops {L : StopLaw} info order w w' :
  stop_loop container_state info order w = (Ok tt, w') ->
  (forall s st, s ∈ order -> container_state (container info s) (inner w') = Ok st ->
     st <> "running") /\
  forall c, (forall st, container_state c (inner w) = Ok st -> st <> "running") ->
    forall st, container_state c (inner w') = Ok st -> st <> "running".
Proof.
  revert w. induction order as [|s order IH]; intros w; simpl.
  - intros [= <-]. split; [|done]. intros s st Hs. by apply not_elem_of_nil in Hs.
  - intros H. apply bind_ok in H as (c & w1 & H1 & H).
    apply existing_container_run in H1 as [-> Hc]. destruct (Hc c eq_refl) as [-> _].
    apply bind_ok in H as (st & w1 & H1 & H).
    unfold observe in H1. injection H1 as H1 <-.
    destruct (String.eqb_spec st "running") as [->|Hst]; simpl in H.
    + apply bind_ok in H as (u & w1 & H2 & H). destruct (IH w1 H) as [Ha Hb].
      unfold call in H2. destruct (perform _ _) as [t i] eqn:Ep.
      injection H2 as -> <-. simpl in *. apply stop_law in Ep as [Hstop Hother].
      split; [|].
      * intros s' st' [->|Hs']%elem_of_cons; [by apply Hb|by apply Ha].
      * intros c Hc'. apply Hb. intros st' Hst'.
        destruct (decide (c = container info s)) as [->|Hne]; [by eapply Hstop|].
        apply Hc'. by rewrite <- Hother.
    + destruct (IH w H) as [Ha Hb]. split; [|exact Hb].
      intros s' st' [->|Hs']%elem_of_cons; [|by apply Ha].
      apply Hb. intros st'' Hst''. congruence.
Qed.

(** A [Stop] that succeeds leaves no container of the bottle running,
    given that stopping one container stops it and no other; in every run the
    containers are stopped in reverse start order, each at most once per
    service, and the bottle table stays as it is. *)
Theorem Stop_stops_all {L : StopLaw} str w r w' :
  Stop container_state str w = (r, w') ->
  store w' = store w /\
  exists calls, trace w' = trace w ++ calls /\
    (calls = [] /\ is_ok r = false \/
     exists bottleId k info, find_by_id bottleId (store w) = Some (k, info) /\
       sublist calls ((fun s => StopContainer (container info s)) <$> rev (StartOrder info)) /\
       (is_ok r = true -> r = Ok bottleId /\
          forall s st, s ∈ StartOrder info ->
            container_state (container info s) (inner w') = Ok st -> st <> "running")).
Proof.
  unfold Stop. intros H.
  apply M_bind_run in H as [([id info] & w1 & H1 & H)|[(e & H1 & ->)|(e & H1 & ->)]];
    apply load_bottle_run in H1 as (Ht & _ & Hs & Hi).
  2,3: split; [done|]; exists []; rewrite app_nil_r; split; [done|]; by left.
  destruct (Hi id info eq_refl) as (_ & k & Hk).
  apply M_bind_run in H as [([] & w2 & H2 & H)|[(e & H2 & ->)|(e & H2 & ->)]];
    pose proof (stop_loop_run _ _ _ _ _ H2) as (Hs2 & calls & Hc & Hp); rewrite Hs in Hs2.
  - injection H as <- <-. split; [done|]. exists calls. rewrite Hc, Ht. split; [done|].
    right. exists id, k, info. split_and!; [done|done|]. intros _. split; [done|].
    intros s st Hin. apply (proj1 (stop_loop_stops _ _ _ _ H2)).
    apply list_elem_of_In. rewrite <- in_rev. by apply list_elem_of_In.
  - split; [done|]. exists calls. rewrite Hc, Ht. split; [done|].
    right. exists id, k, info. done.
  - split; [done|]. exists calls. rewrite Hc, Ht. split; [done|].
    right. exists id, k, info. done.
Qed.

(** ** Deleting *)

(** The containers a sequence of calls deletes. *)
Fixpoint deleted (calls : list service_call) : list string :=
  match calls with
  | [] => []
  | DeleteContainer c :: l => c :: deleted l
  | _ :: l => deleted l
  end.

Lemma deleted_app l k : deleted (l ++ k) = deleted l ++ deleted k.
Proof. induction l as [|[] l IH]; simpl; congruence. Qed.

Lemma delete_loop_run info order w r w' :
  delete_loop container_state info order w = (r, w') ->
  store w' = store w /\ faults w' = faults w /\
  exists calls, trace w' = trace w ++ calls /\
    prefix (deleted calls) (container info <$> order) /\
    (is_ok r = true -> deleted calls = container info <$> order /\
       Forall (fun s => container info s <> "") order).
Proof.
  revert w. induction order as [|s order IH]; intros w; simpl.
  - intros [= <- <-]. split_and!; [done..|]. exists []. by rewrite app_nil_r.
  - intros H. apply M_bind_run in H as [(c & w1 & H1 & H)|[(e & H1 & ->)|(e & H1 & ->)]];
      apply existing_container_run in H1 as [-> Hc].
    2,3: split_and!; [done..|]; exists []; rewrite app_nil_r;
      split_and!; [done|apply prefix_nil|done].
    destruct (Hc c eq_refl) as [-> Hne].
    apply M_bind_run in H as [(st & w1 & H1 & H)|[(e & H1 & ->)|(e & H1 & ->)]];
      unfold observe in H1; injection H1 as H1 <-.
    2,3: split_and!; [done..|]; exists []; rewrite app_nil_r;
      split_and!; [done|apply prefix_nil|done].
    assert (forall r1 w1,
      (if String.eqb st "running"
       then _ ← call (StopContainer (container info s)); mret tt else mret tt) w = (r1, w1) ->
      store w1 = store w /\ faults w1 = faults w /\
      exists calls, trace w1 = trace w ++ calls /\ deleted calls = []) as Hstop.
    { intros r1 w1. destruct (String.eqb st "running").
      - intros H2. apply M_bind_run in H2 as [(u & w2 & H2 & H3)|[(e & H2 & ->)|(e & H2 & ->)]];
          apply run_call in H2 as (Ht & Hs & Hf); [injection H3 as <- <-|..];
          (split_and!; [done..|]); eexists; (split; [exact Ht|done]).
      - intros [= <- <-]. split_and!; [done..|]. exists []. by rewrite app_nil_r. }
    apply M_bind_run in H as [(u & w1 & H2 & H)|[(e & H2 & ->)|(e & H2 & ->)]];
      apply Hstop in H2 as (Hs1 & Hf1 & calls1 & Ht1 & Hd1).
    2,3: split_and!; [done..|]; exists calls1; rewrite Hd1;
      split_and!; [done|apply prefix_nil|done].
    apply M_bind_run in H as [(t & w2 & H3 & H)|[(e & H3 & ->)|(e & H3 & ->)]];
      apply run_call in H3 as (Ht2 & Hs2 & Hf2).
    2,3: split_and!; [congruence..|]; eexists;
      (split; [rewrite Ht2, Ht1, <- (assoc_L (++)); reflexivity|]);
      rewrite deleted_app, Hd1; simpl; split; [by apply prefix_cons, prefix_nil|done].
    apply IH in H as (Hs & Hf & calls & Ht & Hp & Hok). split_and!; [congruence..|].
    eexists. split; [rewrite Ht, Ht2, Ht1, <- !(assoc_L (++)); reflexivity|].
    rewrite !deleted_app, Hd1. simpl. split; [by apply prefix_cons|].
    intros Hr. destruct (Hok Hr) as [-> Hfo]. split; [done|by constructor].
Qed.

(** The calls of [removeBottlePolicies]: each policy, then a commit. *)
Definition policy_calls (policies : list PolicyInfo) : list service_call :=
  p ← filter (fun p => Id p <> "") policies; [RemoveUserPolicy (Id p); CommitPolicy].

Lemma removeBottlePolicies_run policies w r w' :
  removeBottlePolicies policies w = (r, w') ->
  store w' = store w /\ faults w' = faults w /\
  exists calls, trace w' = trace w ++ calls /\ prefix calls (policy_calls policies) /\
    (is_ok r = true -> calls = policy_calls policies).
Proof.
  revert w. induction policies as [|p policies IH]; intros w; simpl.
  - intros [= <- <-]. split_and!; [done..|]. exists []. by rewrite app_nil_r.
  - unfold policy_calls. rewrite filter_cons.
    destruct (String.eqb_spec (Id p) "") as [E|E].
    { rewrite decide_False by (by intros []). apply IH. }
    rewrite decide_True by done. cbn [mbind list_bind]. fold (policy_calls policies).
    intros H. apply M_bind_run in H as [(u & w1 & H1 & H)|[(e & H1 & ->)|(e & H1 & ->)]];
      apply run_call in H1 as (Ht1 & Hs1 & Hf1).
    2,3: split_and!; [done..|]; eexists; split; [exact Ht1|];
      split; [by apply prefix_cons, prefix_nil|done].
    apply M_bind_run in H as [(u2 & w2 & H2 & H)|[(e & H2 & ->)|(e & H2 & ->)]];
      apply run_call in H2 as (Ht2 & Hs2 & Hf2).
    2,3: split_and!; [congruence..|]; eexists; rewrite Ht2, Ht1, <- (assoc_L (++));
      split; [reflexivity|]; split; [by do 2 apply prefix_cons; apply prefix_nil|done].
    apply IH in H as (Hs & Hf & calls & Ht & Hp & Hok). split_and!; [congruence..|].
    eexists. rewrite Ht, Ht2, Ht1, <- !(assoc_L (++)). split; [reflexivity|].
    split; [by do 2 apply prefix_cons|]. intros Hr. by rewrite (Hok Hr).
Qed.

(** C20: [Delete] removes the bottle record only at the very end: when it fails
    at any point the table is unchanged, so the call can be repeated; when it
    succeeds it has deleted the container of every service in reverse start
    order, then removed each of the bottle's policies with a commit, then the
    network it had created, and the record is gone. *)
Theorem Delete_correct str w r w' :
  keyed BottleId (Bottles (store w)) ->
  Delete container_state str w = (r, w') ->
  match r with
  | Ok bottleId => exists info calls,
      Bottles (store w) !! bottleId = Some info /\
      Bottles (store w') = delete bottleId (Bottles (store w)) /\
      trace w' = trace w ++ calls ++ policy_calls (Policies info) ++
        (if NetworkAuto info && negb (String.eqb (b_Network info) "")
         then [RemoveNetwork (b_Network info)] else []) /\
      deleted calls = container info <$> rev (StartOrder info)
  | _ => store w' = store w
  end.
Proof.
  intros Hkeyed H. unfold Delete in H.
  apply M_bind_run in H as [([id info] & w1 & H1 & H)|[(e & H1 & ->)|(e & H1 & ->)]];
    apply load_bottle_run in H1 as (Ht1 & _ & Hs1 & Hi); [|done..].
  destruct (Hi id info eq_refl) as (_ & k & Hk).
  apply M_bind_run in H as [([] & w2 & H2 & H)|[(e & H2 & ->)|(e & H2 & ->)]];
    apply delete_loop_run in H2 as (Hs2 & _ & calls & Ht2 & _ & Hok2); [|congruence..].
  apply M_bind_run in H as [([] & w3 & H3 & H)|[(e & H3 & ->)|(e & H3 & ->)]];
    apply removeBottlePolicies_run in H3 as (Hs3 & _ & pcalls & Ht3 & _ & Hok3);
    [|congruence..].
  set (net := if NetworkAuto info && negb (String.eqb (b_Network info) "")
              then [RemoveNetwork (b_Network info)] else []).
  assert (forall r4 w4,
    (if NetworkAuto info && negb (String.eqb (b_Network info) "")
     then _ ← call (RemoveNetwork (b_Network info)); mret tt else mret tt) w3 = (r4, w4) ->
    store w4 = store w3 /\ trace w4 = trace w3 ++ net) as Hnet.
  { intros r4 w4. unfold net. destruct (_ && _).
    - intros H4. apply M_bind_run in H4 as [(u & w5 & H4 & H5)|[(e & H4 & ->)|(e & H4 & ->)]];
        apply run_call in H4 as (Ht & Hs & _); [injection H5 as <- <-|..]; done.
    - intros [= <- <-]. by rewrite app_nil_r. }
  apply M_bind_run in H as [([] & w4 & H4 & H)|[(e & H4 & ->)|(e & H4 & ->)]];
    apply Hnet in H4 as [Hs4 Ht4]; [|congruence..].
  apply M_bind_run in H as [([] & w5 & H5 & H)|[(e & H5 & ->)|(e & H5 & ->)]].
  2,3: apply txn_not_ok in H5; [congruence|done].
  injection H as <- <-.
  pose proof (quiet_txn (W := W) (C := service_call) (RemoveBottle id) w4) as [Hq _].
  rewrite H5 in Hq. simpl in Hq. apply txn_ok in H5.
  assert (store w4 = store w) as Hs by congruence. rewrite Hs in H5.
  rewrite RemoveBottle_keyed in H5 by done. rewrite bottle_by_id_keyed in Hk by done.
  destruct (Bottles (store w) !! id) as [info'|] eqn:E; [|done].
  injection Hk as <- ->. injection H5 as Hw5. exists info, calls.
  split_and!; [done|by rewrite <- Hw5| |].
  - rewrite Hq, Ht4, Ht3, Ht2, Ht1, (Hok3 eq_refl), <- !(assoc_L (++)). done.
  - apply (Hok2 eq_refl).
Qed.

(** ** Creating *)

(** The containers map after [pairs] of services and new containers. *)
Definition add_pairs (pairs : list (string * string)) (m : gmap string string)
    : gmap string string :=
  fold_left (fun m p => <[p.1 := p.2]> m) pairs m.

Lemma add_pairs_lookup pairs m s :
  (s ∉ pairs.*1 /\ add_pairs pairs m !! s = m !! s) \/
  (s ∈ pairs.*1 /\ exists c, c ∈ pairs.*2 /\ add_pairs pairs m !! s = Some c).
Proof.
  revert m. induction pairs as [|[n c] pairs IH]; intros m; simpl.
  - left. split; [apply not_elem_of_nil|done].
  - destruct (IH (<[n := c]> m)) as [[Hs He]|(Hs & c' & Hc & He)]; rewrite He.
    + destruct (decide (s = n)) as [->|Hne].
      * right. split; [by left|]. exists c. rewrite lookup_insert_eq.
        split; [by left|done].
      * left. rewrite lookup_insert_ne by done. split; [|done].
        by apply not_elem_of_cons.
    + right. split; [by right|]. exists c'. split; [by right|done].
Qed.

Lemma drop_created_lookup created m s :
  drop_created created m !! s =
    match m !! s with Some c => if decide (c ∈ created) then None else Some c | None => None end.
Proof.
  unfold drop_created. revert m. induction created as [|id created IH]; intros m.
  - cbn [fold_left]. destruct (m !! s) as [c|]; [|done].
    rewrite decide_False; [done|]. apply not_elem_of_nil.
  - cbn [fold_left]. rewrite IH, map_lookup_filter. destruct (m !! s) as [c|]; [|done]. simpl.
    destruct (decide (c = id)) as [->|Hne].
    + rewrite option_guard_False by (by intros []). rewrite decide_True; [done|by left].
    + rewrite option_guard_True by done.
      destruct (decide (c ∈ created)) as [Hin|Hin].
      * rewrite decide_True; [done|by right].
      * rewrite decide_False; [done|]. by apply not_elem_of_cons.
Qed.

(** What the container service promises of [Create]: identifiers are not
    empty and are new. *)
Class CreateLaw (fresh : string -> Prop) : Prop := create_law m i c i' :
  perform (CreateContainer m) i = (Ok c, i') -> c <> "" /\ fresh c.

Lemma delete_created_run l w w' :
  delete_created l w = (Ok tt, w') ->
  store w' = store w /\ faults w' = faults w /\
  trace w' = trace w ++ (DeleteContainer <$> l).
Proof.
  revert w. induction l as [|id l IH]; intros w; simpl.
  - intros [= <-]. by rewrite app_nil_r.
  - intros H. apply bind_ok in H as (u & w1 & H1 & H).
    assert (w1 = (call (DeleteContainer id) w).2) as ->.
    { unfold ignore in H1. by destruct (call _ w) as [[| |] w2]; injection H1 as _ <-. }
    destruct (call_keeps (W := W) (DeleteContainer id) w) as [Hf Hs].
    apply IH in H as (-> & -> & ->). rewrite call_trace, <- (assoc_L (++)). done.
Qed.

Section create.
Context (bottleId : string) (b : BottleInfo).

Definition with_containers (m : gmap string string) : BottleInfo :=
  {| BottleId := BottleId b; BottleName := BottleName b;
     Services := Services b; StartOrder := StartOrder b; Containers := m;
     Policies := Policies b; b_Network := b_Network b;
     NetworkAuto := NetworkAuto b; CreatedAt := CreatedAt b |}.
Definition with_network (b : BottleInfo) (bridge : string) (auto : bool) : BottleInfo :=
  {| BottleId := BottleId b; BottleName := BottleName b;
     Services := Services b; StartOrder := StartOrder b;
     Containers := Containers b; Policies := Policies b; b_Network := bridge;
     NetworkAuto := auto; CreatedAt := CreatedAt b |}.

(** The store holds [b'] for the bottle, and is otherwise [st0]. *)
Definition holds (st0 : BottleState) (b' : BottleInfo) (st : BottleState) : Prop :=
  st = set_Bottles st0 (<[bottleId := b']> (Bottles st0)).

Lemma holds_update st0 b1 st f :
  holds st0 b1 st ->
  update bottleId f st = Ok (set_Bottles st0 (<[bottleId := f b1]> (Bottles st0)), tt).
Proof.
  intros ->. apply update_ok. exists b1. simpl. rewrite lookup_insert_eq. split; [done|].
  by rewrite insert_insert_eq.
Qed.

Lemma ignore_txn_update st0 b1 (w w' : world) f u :
  faults w = [] -> holds st0 b1 (store w) ->
  ignore (txn (update bottleId f)) w = (u, w') ->
  faults w' = [] /\ trace w' = trace w /\ holds st0 (f b1) (store w').
Proof.
  intros Hf Hh. unfold ignore. rewrite txn_run by done.
  rewrite (holds_update _ _ _ _ Hh). by intros [= <- <-].
Qed.

(** The network part of the roll-back, when there is one. *)
Definition net_calls (bridge : string) (auto : bool) : list service_call :=
  if auto && negb (String.eqb bridge "") then [RemoveNetwork bridge] else [].
Definition net_bottle (bridge : string) (auto : bool) (b : BottleInfo) : BottleInfo :=
  if auto && negb (String.eqb bridge "") then with_network b "" false else b.

Lemma rollback_run st0 created containers bridge auto m w w' :
  faults w = [] -> holds st0 (with_containers m) (store w) ->
  rollbackCreatedContainers created containers bottleId bridge auto w = (Ok tt, w') ->
  faults w' = [] /\
  trace w' = trace w ++ (DeleteContainer <$> rev created) ++ net_calls bridge auto /\
  holds st0 (net_bottle bridge auto (with_containers (drop_created created containers)))
    (store w').
Proof.
  intros Hf Hh H. unfold rollbackCreatedContainers in H.
  apply bind_ok in H as ([] & w1 & H1 & H). apply delete_created_run in H1 as (Hs1 & Hf1 & Ht1).
  rewrite Hf in Hf1. rewrite <- Hs1 in Hh.
  apply bind_ok in H as (u & w2 & H2 & H).
  apply (ignore_txn_update st0 _ _ _ _ _ Hf1 Hh) in H2 as (Hf2 & Ht2 & Hh2).
  unfold net_calls, net_bottle. destruct (auto && _).
  - apply bind_ok in H as (u3 & w3 & H3 & H).
    assert (w3 = (call (RemoveNetwork bridge) w2).2) as ->.
    { unfold ignore in H3. by destruct (call _ w2) as [[| |] w4]; injection H3 as _ <-. }
    destruct (call_keeps (W := W) (RemoveNetwork bridge) w2) as [Hf3 Hs3].
    rewrite Hf2 in Hf3. rewrite <- Hs3 in Hh2.
    apply (ignore_txn_update st0 _ _ _ _ _ Hf3 Hh2) in H as (Hf4 & Ht4 & Hh4).
    split_and!; [done| |exact Hh4]. rewrite Ht4, call_trace, Ht2, Ht1.
    by rewrite <- !(assoc_L (++)).
  - injection H as <-. split_and!; [done| |exact Hh2].
    by rewrite Ht2, Ht1, app_nil_r.
Qed.

(** The roll-back drops every error it meets. *)
Lemma ignore_no_err {A} (m : M BottleState service_call W A) w e w' :
  ignore m w <> (Err e, w').
Proof. unfold ignore. by destruct (m w) as [[| |] ?]. Qed.

Lemma delete_created_no_err l w e w' : delete_created l w <> (Err e, w').
Proof.
  revert w. induction l as [|id l IH]; intros w; simpl; [done|]. intros H.
  apply M_bind_run in H as [(u & w1 & H1 & H)|[(e' & H1 & _)|(e' & _ & [=])]];
    [by apply IH in H|by apply ignore_no_err in H1].
Qed.

Lemma rollback_no_err created containers bridge auto w e w' :
  rollbackCreatedContainers created containers bottleId bridge auto w <> (Err e, w').
Proof.
  unfold rollbackCreatedContainers. intros H.
  apply M_bind_run in H as [(u & w1 & _ & H)|[(e' & H & _)|(e' & _ & [=])]];
    [|by apply delete_created_no_err in H].
  apply M_bind_run in H as [(u2 & w2 & _ & H)|[(e' & H & _)|(e' & _ & [=])]];
    [|by apply ignore_no_err in H].
  destruct (auto && _); [|done].
  apply M_bind_run in H as [(u3 & w3 & _ & H)|[(e' & H & _)|(e' & _ & [=])]];
    by apply ignore_no_err in H.
Qed.

Section loop.
Context (fresh : string -> Prop) {CL : CreateLaw fresh}.
Context (info : BottleInfo) (bridge : string) (auto : bool).

Definition create_call (s : string) : service_call :=
  CreateContainer (create_param info bottleId bridge auto s
    (default {| Image := ""; Command := []; Env := []; Ports := []; Mount := [];
                Device := []; CapAdd := []; CapDrop := []; Network := ""; Tty := false;
                DependsOn := [] |} (Bsm.Services info !! s))).

(** The identifiers that the container service answers with when it is asked for
    the containers of [services] in this order, and nothing else. *)
Fixpoint answers (services : list string) (i : W) : option (list string) :=
  match services with
  | [] => Some []
  | s :: services =>
      match perform (create_call s) i with
      | (Ok c, i) => cons c <$> answers services i
      | _ => None
      end
  end.

(** How the loop ends when the store has no faults. *)
Definition loop_end (order : list string) (m : gmap string string) (created : list string)
    (st0 : BottleState) (w : world) (r : res unit) (w' : world) : Prop :=
  exists pairs,
    sublist pairs.*1 order /\ Forall (fun p => container_of m p.1 = "") pairs /\
    Forall (fun c => fresh c) pairs.*2 /\ answers pairs.*1 (inner w) = Some pairs.*2 /\
    match r with
    | Ok _ =>
        trace w' = trace w ++ (create_call <$> pairs.*1) /\ faults w' = [] /\
        holds st0 (with_containers (add_pairs pairs m)) (store w') /\
        forall s, s ∈ order -> container_of (add_pairs pairs m) s <> ""
    | Err _ => exists s, s ∈ order /\
        trace w' = trace w ++ (create_call <$> pairs.*1) ++ [create_call s] ++
          (DeleteContainer <$> rev (created ++ pairs.*2)) ++ net_calls bridge auto /\
        holds st0 (net_bottle bridge auto
          (with_containers (drop_created (created ++ pairs.*2) (add_pairs pairs m)))) (store w')
    | Panic _ => True
    end.

Lemma create_loop_run st0 order m created w r w' :
  faults w = [] -> holds st0 (with_containers m) (store w) ->
  (forall s, s ∈ order -> is_Some (Bsm.Services info !! s)) ->
  create_loop info bottleId bridge auto order m created w = (r, w') ->
  loop_end order m created st0 w r w'.
Proof.
  revert m created w. induction order as [|s order IH]; intros m created w Hf Hh Hall H.
  { injection H as <- <-. exists []. simpl. rewrite app_nil_r.
    split_and!; try done; try constructor. by intros s ?%not_elem_of_nil. }
  simpl in H.
  destruct (String.eqb_spec (container_of m s) "") as [E|E]; simpl in H; cycle 1.
  { apply IH in H; [|done|done|by intros; apply Hall; right].
    destruct H as (pairs & Hsub & Hp & Hfr & Han & H). exists pairs.
    split_and!; [by constructor|done|done|done|]. destruct r as [u|e|e]; [| |done].
    - destruct H as (H1 & H2 & H3 & H4). split_and!; try done.
      intros s' [->|Hs']%elem_of_cons; [|by apply H4].
      unfold container_of in *.
      destruct (add_pairs_lookup pairs m s) as [[_ ->]|(Hin & c & _ & _)]; [done|].
      exfalso. apply list_elem_of_fmap in Hin as (p & -> & Hin).
      rewrite Forall_forall in Hp. by apply E, Hp.
    - destruct H as (s' & Hs' & H). exists s'. split; [by right|done]. }
  destruct (Hall s ltac:(by left)) as [spec Hspec]. rewrite Hspec in H.
  assert (CreateContainer (create_param info bottleId bridge auto s spec) = create_call s)
    as Hcc by (unfold create_call; by rewrite Hspec).
  rewrite Hcc in H. unfold mbind, M_bind, attempt in H.
  destruct (call (create_call s) w) as [r1 w1] eqn:Hcall.
  pose proof (run_call _ _ _ _ Hcall) as (Ht1 & Hs1 & Hf1). rewrite Hf in Hf1.
  rewrite <- Hs1 in Hh.
  destruct r1 as [cid|e|e].
  - assert (perform (create_call s) (inner w) = (Ok cid, inner w1)) as Hperf.
    { unfold call in Hcall. destruct (perform (create_call s) (inner w)) as [t i] eqn:Ep.
      by injection Hcall as -> <-. }
    assert (cid <> "" /\ fresh cid) as [Hne Hfresh] by by eapply create_law.
    rewrite txn_run in H by done.
    unfold UpdateBottleContainer in H. rewrite (holds_update _ _ _ _ Hh) in H.
    apply (IH (<[s := cid]> m)) in H; [|done|reflexivity|by intros; apply Hall; right].
    destruct H as (pairs & Hsub & Hp & Hfr & Han & H). exists ((s, cid) :: pairs). simpl.
    assert (forall s', container_of (<[s := cid]> m) s' = "" -> container_of m s' = "")
      as Hback.
    { intros s'. unfold container_of. destruct (decide (s = s')) as [<-|Hss].
      - rewrite lookup_insert_eq. simpl. by intros ->.
      - by rewrite lookup_insert_ne. }
    split_and!; [by constructor| |by constructor| |].
    2:{ rewrite Hperf. change (inner (set_store _ w1)) with (inner w1) in Han.
        change (cons cid <$> answers pairs.*1 (inner w1) = Some (cid :: pairs.*2)). by rewrite Han. }
    { constructor; [done|]. eapply Forall_impl; [exact Hp|]. intros p. apply Hback. }
    destruct r as [u|e|e]; [| |done].
    + destruct H as (H1 & H2 & H3 & H4). split_and!; [|done|done|].
      * rewrite H1. simpl. by rewrite Ht1, <- (assoc_L (++)).
      * intros s' [->|Hs']%elem_of_cons; [|by apply H4]. unfold container_of.
        destruct (add_pairs_lookup pairs (<[s := cid]> m) s) as [[_ ->]|(Hin & c & Hc & ->)].
        -- by rewrite lookup_insert_eq.
        -- simpl. apply list_elem_of_fmap in Hin as (p & Es & Hin).
           rewrite Forall_forall in Hp. specialize (Hp p Hin).
           unfold container_of in Hp. rewrite <- Es, lookup_insert_eq in Hp. done.
    + destruct H as (s' & Hs' & Ht & Hst). exists s'. split; [by right|].
      rewrite <- (assoc_L (++)) in Ht, Hst. split; [|done].
      rewrite Ht. simpl. by rewrite Ht1, <- !(assoc_L (++)).
  - destruct (rollbackCreatedContainers created m bottleId bridge auto w1) as [[[]|e2|e2] w2]
      eqn:Hroll; unfold fail in H; injection H as <- <-.
    + apply (rollback_run st0 _ _ _ _ m) in Hroll as (Hf2 & Ht2 & Hh2); [|done..].
      exists []. simpl. rewrite app_nil_r. split_and!; [by apply sublist_nil_l|constructor|constructor|done|].
      exists s. split; [by left|]. split; [|done]. rewrite Ht2, Ht1, <- !(assoc_L (++)). done.
    + by apply rollback_no_err in Hroll.
    + exists []. split_and!; [by apply sublist_nil_l|constructor|constructor|done|done].
  - injection H as <- <-. exists []. split_and!; [by apply sublist_nil_l|constructor|constructor|done|done].
Qed.

(** The containers the roll-back leaves are those there were before. *)
Lemma rollback_restores pairs m s :
  Forall (fun p => container_of m p.1 = "") pairs ->
  Forall (fun c => fresh c) pairs.*2 ->
  (forall s c, m !! s = Some c -> ~ fresh c) ->
  container_of (drop_created pairs.*2 (add_pairs pairs m)) s = container_of m s.
Proof.
  intros Hp Hf Hm. unfold container_of. rewrite drop_created_lookup.
  destruct (add_pairs_lookup pairs m s) as [[Hs ->]|(Hs & c & Hc & ->)].
  - destruct (m !! s) as [c|] eqn:E; [|done]. rewrite decide_False; [done|].
    rewrite Forall_forall in Hf. intros Hin. by apply (Hm s c E), Hf.
  - rewrite decide_True by done. apply list_elem_of_fmap in Hs as (p & -> & Hin).
    rewrite Forall_forall in Hp. symmetry. by apply Hp.
Qed.
End loop.
End create.

(** Without store faults the lines every operation starts with change nothing. *)
Lemma load_bottle_clean str w r w' :
  faults w = [] -> load_bottle str w = (r, w') -> w' = w.
Proof.
  intros Hf. unfold load_bottle, ResolveBottle, mbind, M_bind, attempt.
  rewrite read_run by done. unfold mret, M_ret, fail.
  destruct (GetBottleIdByName str (store w)) as [i|e|e]; [|rewrite read_run by done|];
    [|destruct (Bsm.GetBottleById str (store w)) as [b|e1|e1]|];
    try rewrite read_run by done; try (by intros [= <- <-]);
    (destruct (Bsm.GetBottleById _ (store w)) as [b1|e2|e2];
     [destruct (StartOrder b1)|..]; by intros [= <- <-]).
Qed.

(** The network a creation sets up first, if any, and what it then uses. *)
Definition new_network (bottleId : string) (info : BottleInfo) : bool :=
  String.eqb (b_Network info) "" && shouldCreateBottleNetwork (Bsm.Services info).
Definition bridge_of (bottleId : string) (info : BottleInfo) : string :=
  if new_network bottleId info then "raind" +:+ bottleIdPrefix bottleId
  else b_Network info.
Definition auto_of (bottleId : string) (info : BottleInfo) : bool :=
  if new_network bottleId info then true else NetworkAuto info.
Definition network_calls (bottleId : string) (info : BottleInfo) : list service_call :=
  if new_network bottleId info
  then [CreateNewNetwork (bridge_of bottleId info)] else [].

Lemma with_network_same info : with_network info (b_Network info) (NetworkAuto info) = info.
Proof. by destruct info. Qed.

Lemma prepare_network_run bottleId info w r w' :
  faults w = [] -> Bottles (store w) !! bottleId = Some info ->
  prepare_network bottleId info w = (r, w') ->
  trace w' = trace w ++ network_calls bottleId info /\
  match r with
  | Ok (bridge, auto) =>
      bridge = bridge_of bottleId info /\ auto = auto_of bottleId info /\
      faults w' = [] /\
      holds bottleId (store w) (with_network info bridge auto) (store w')
  | _ => store w' = store w
  end.
Proof.
  intros Hf Hi. unfold prepare_network, network_calls, bridge_of, auto_of.
  fold (new_network bottleId info). destruct (new_network bottleId info) eqn:En.
  - intros H. apply M_bind_run in H as [(u & w1 & H1 & H)|[(e & H1 & ->)|(e & H1 & ->)]];
      apply run_call in H1 as (Ht & Hs & Hf1); [|done..]. rewrite Hf in Hf1.
    unfold mbind, M_bind, attempt in H. rewrite txn_run in H by done.
    unfold UpdateBottleNetwork in H.
    rewrite Hs in H. rewrite (proj2 (update_ok _ _ _ _)) in H by (by exists info).
    injection H as <- <-. simpl. split; [done|]. by split_and!.
  - rewrite app_nil_r. intros H.
    assert (store w = set_Bottles (store w) (<[bottleId := info]> (Bottles (store w))))
      as Hself by (rewrite insert_id by done; by destruct (store w)).
    destruct (String.eqb_spec (b_Network info) "") as [E|E]; [destruct (NetworkAuto info) eqn:Ea|].
    + injection H as <- <-. split; [done|]. split_and!; [done..|].
      rewrite <- Ea, with_network_same. done.
    + simpl in H. unfold mbind, M_bind, ignore in H. rewrite txn_run in H by done.
      unfold UpdateBottleNetwork in H.
      rewrite (proj2 (update_ok _ _ _ _)) in H by (by exists info).
      injection H as <- <-. split; [done|]. split_and!; [done..|].
      rewrite E. reflexivity.
    + injection H as <- <-. split; [done|]. split_and!; [done..|].
      rewrite with_network_same. done.
Qed.

(** The other services after the network was set up. *)
Definition after_network (bottleId : string) (info : BottleInfo) (i : W) : W :=
  if new_network bottleId info
  then (perform (CreateNewNetwork (bridge_of bottleId info)) i).2 else i.
Lemma prepare_network_inner bottleId info w x w' :
  faults w = [] -> Bottles (store w) !! bottleId = Some info ->
  prepare_network bottleId info w = (Ok x, w') -> inner w' = after_network bottleId info (inner w).
Proof.
  intros Hf Hi. unfold prepare_network, after_network.
  fold (new_network bottleId info). unfold bridge_of.
  destruct (new_network bottleId info).
  - intros H. apply bind_ok in H as (y & w1 & H1 & H). unfold call in H1.
    destruct (perform _ (inner w)) as [t i] eqn:Ep. injection H1 as -> <-. cbn [snd].
    unfold mbind, M_bind, attempt in H. rewrite txn_run in H by done. simpl in H.
    unfold UpdateBottleNetwork in H. rewrite (proj2 (update_ok _ _ _ _)) in H by (by exists info).
    by injection H as _ <-.
  - intros H. apply bind_ok in H as (y & w1 & H1 & H). injection H as _ <-.
    destruct (_ && _) in H1; [|by injection H1 as _ <-].
    unfold ignore in H1. rewrite txn_run in H1 by done.
    by destruct (UpdateBottleNetwork _ _ _ _) as [[]| |]; simplify_eq/=.
Qed.

(** The bottle as a creation leaves it, with containers [m]. *)
Definition created_bottle (bottleId : string) (info : BottleInfo) (m : gmap string string)
    : BottleInfo :=
  with_containers (with_network info (bridge_of bottleId info) (auto_of bottleId info)) m.
Definition creation (bottleId : string) (info : BottleInfo) (s : string) : service_call :=
  create_call bottleId info (bridge_of bottleId info) (auto_of bottleId info) s.

(** What a stored bottle satisfies: its start order names its services
    ([BuildStartOrder] sees to it), and no container it lists is still to be
    created. *)
Definition bottle_ready (fresh : string -> Prop) (info : BottleInfo) : Prop :=
  (forall s, s ∈ StartOrder info -> is_Some (Bsm.Services info !! s)) /\
  forall s c, Containers info !! s = Some c -> ~ fresh c.

(** C19: a [Create] that succeeds leaves every service of the start order with a
    container, having created in start order exactly the missing ones, stores the
    identifiers that the container service answered with, and keeps the containers
    that were there; one that fails on a container has deleted every container it
    created - by the identifiers it was answered with, the last one first - has taken
    away the network it made, and leaves each service with the container it had
    before; one that fails earlier changes nothing.  The table of bottles can be read
    and written throughout ([faults w = []]), the start orders name services, new
    containers get new identifiers, and panics of called services are left aside. *)
Theorem Create_correct (fresh : string -> Prop) {CL : CreateLaw fresh} str w r w' :
  keyed BottleId (Bottles (store w)) -> faults w = [] ->
  (forall id info, Bottles (store w) !! id = Some info -> bottle_ready fresh info) ->
  Create str w = (r, w') ->
  (exists e, r = Panic e) \/
  (is_ok r = false /\ store w' = store w /\
   exists calls, trace w' = trace w ++ calls /\
     forall c, c ∈ calls -> exists bridge, c = CreateNewNetwork bridge) \/
  exists bottleId info services ids calls,
    Bottles (store w) !! bottleId = Some info /\
    trace w' = trace w ++ network_calls bottleId info ++
      (creation bottleId info <$> services) ++ calls /\
    sublist services (StartOrder info) /\
    Forall (fun s => container_of (Containers info) s = "") services /\
    answers bottleId info (bridge_of bottleId info) (auto_of bottleId info) services
      (after_network bottleId info (inner w)) = Some ids /\
    match r with
    | Ok id =>
        let m := add_pairs (zip services ids) (Containers info) in
        id = bottleId /\ calls = [] /\
        holds bottleId (store w) (created_bottle bottleId info m) (store w') /\
        (forall s, s ∈ StartOrder info -> container_of m s <> "") /\
        (forall s, container_of (Containers info) s <> "" -> m !! s = Containers info !! s)
    | Err _ => exists s m,
        s ∈ StartOrder info /\
        calls = creation bottleId info s :: (DeleteContainer <$> rev ids) ++
                  net_calls (bridge_of bottleId info) (auto_of bottleId info) /\
        holds bottleId (store w)
          (net_bottle (bridge_of bottleId info) (auto_of bottleId info)
             (created_bottle bottleId info m)) (store w') /\
        (forall s, container_of m s = container_of (Containers info) s)
    | Panic _ => False
    end.
Proof.
  intros Hk Hf Hready H. unfold Create in H.
  apply M_bind_run in H as [([id info] & w1 & H1 & H)|[(e & H1 & ->)|(e & H1 & ->)]].
  2,3: right; left; apply load_bottle_clean in H1 as ->; [|done]; split_and!; [done..|];
    exists []; rewrite app_nil_r; split; [done|]; by intros c ?%not_elem_of_nil.
  pose proof (load_bottle_clean _ _ _ _ Hf H1) as ->.
  apply load_bottle_run in H1 as (_ & _ & _ & Hi).
  destruct (Hi id info eq_refl) as (_ & k & Hki).
  rewrite bottle_by_id_keyed in Hki by done.
  destruct (Bottles (store w) !! id) as [info'|] eqn:Ei; [|done].
  injection Hki as <- ->. destruct (Hready id info Ei) as [Hspec Hfresh].
  apply M_bind_run in H as [([bridge auto] & w1 & H1 & H)|[(e & H1 & ->)|(e & H1 & ->)]];
    [pose proof (prepare_network_inner _ _ _ _ _ Hf Ei H1) as Hin1|..];
    apply prepare_network_run in H1 as [Ht H1]; try done.
  2,3: right; left; split_and!; [done..|]; exists (network_calls id info); split; [done|];
    unfold network_calls; destruct (new_network id info);
    [intros c ->%list_elem_of_singleton; by eexists | by intros c ?%not_elem_of_nil].
  destruct H1 as (-> & -> & Hf1 & Hh1).
  assert (forall r1 w2, create_loop info id (bridge_of id info) (auto_of id info)
      (StartOrder info) (Containers info) [] w1 = (r1, w2) ->
    loop_end id (with_network info (bridge_of id info) (auto_of id info)) fresh info
      (bridge_of id info) (auto_of id info) (StartOrder info) (Containers info) []
      (store w) w1 r1 w2) as Hloop.
  { intros r1 w2. eapply create_loop_run; done. }
  apply M_bind_run in H as [([] & w2 & H2 & H)|[(e & H2 & ->)|(e & H2 & ->)]];
    apply Hloop in H2 as (pairs & Hsub & Hp & Hfr & Han & H2); rewrite Hin1 in Han.
  - right. right. injection H as <- <-. destruct H2 as (Ht2 & _ & Hh2 & Hall).
    exists id, info, pairs.*1, pairs.*2, [].
    cbv zeta. rewrite zip_fst_snd, app_nil_r, (assoc_L (++)), <- Ht. split_and!; try done.
    { by apply Forall_fmap. }
    intros s Hs. destruct (add_pairs_lookup pairs (Containers info) s) as [[_ ->]|(Hin & _)];
      [done|].
    apply list_elem_of_fmap in Hin as (p & -> & Hin). rewrite Forall_forall in Hp.
    by apply Hp in Hin.
  - right. right. destruct H2 as (s & Hs & Ht2 & Hh2). simpl in Ht2, Hh2.
    eexists id, info, pairs.*1, pairs.*2, _. split; [done|].
    split; [rewrite Ht2, Ht, <- !(assoc_L (++)); reflexivity|].
    split; [done|]. split; [by apply Forall_fmap|]. split; [exact Han|].
    eexists s, _. split_and!; [done|done|exact Hh2|].
    intros s'. by apply (rollback_restores fresh).
  - left. by eexists.
Qed.
End theory.

(** ** A concrete run

    A bottle of a database and the web service that depends on it, over a
    container service that keeps the containers' states. *)

Module Demo.
Definition ctr (n : string) : string := "new-" +:+ n.
Definition fresh (c : string) : Prop := exists n, c = ctr n.

(** Creation fails without an image. *)
#[export] Instance peers : Peers service_call (gmap string string) := fun c i =>
  match c with
  | CreateContainer m =>
      if String.eqb (cm_Image m) "" then (Err "image is required", i)
      else (Ok (ctr (cm_Name m)), <[ctr (cm_Name m) := "created"]> i)
  | StartContainer c _ => (Ok c, <[c := "running"]> i)
  | StopContainer c => (Ok c, <[c := "stopped"]> i)
  | DeleteContainer c => (Ok c, delete c i)
  | _ => (Ok "", i)
  end.

Definition state (c : string) (i : gmap string string) : res string :=
  match i !! c with Some s => Ok s | None => Err "container not found" end.

#[export] Instance stop_law_demo : StopLaw state.
Proof.
  intros c i t i' [= <- <-]. unfold state. split.
  - intros st. rewrite lookup_insert_eq. by intros [= <-].
  - intros c' Hne. by rewrite lookup_insert_ne.
Qed.
#[export] Instance create_law_demo : CreateLaw fresh.
Proof.
  intros m i c i'. unfold perform, peers. destruct (String.eqb _ ""); [done|].
  intros [= <- _]. split; [done|by eexists].
Qed.

Definition spec (image : string) (deps : list string) : ServiceSpec :=
  {| Image := image; Command := []; Env := []; Ports := []; Mount := []; Device := [];
     CapAdd := []; CapDrop := []; Network := ""; Tty := false; DependsOn := deps |}.
Definition bottle (webImage : string) (containers : gmap string string) : BottleInfo :=
  {| BottleId := "b1"; BottleName := "shop";
     Services := <["db" := spec "postgres" []]> (<["web" := spec webImage ["db"]]> ∅);
     StartOrder := ["db"; "web"]; Containers := containers;
     Policies := [{| Id := "p1"; Type_ := "ew"; Source := "web"; Destination := "db";
                     Protocol := "tcp"; DestPort := 5432; Comment := "" |}];
     b_Network := ""; NetworkAuto := false; CreatedAt := 7 |}.
Definition table (b : BottleInfo) : BottleState :=
  {| Version := "0.1.0"; Bottles := <["b1" := b]> ∅ |}.
Definition start (b : BottleInfo) : world BottleState service_call (gmap string string) :=
  {| store := table b; faults := []; times := []; ids := []; trace := []; inner := ∅ |}.

Lemma table_keyed b : BottleId b = "b1" -> keyed BottleId (Bottles (table b)).
Proof.
  intros Hb. unfold table. cbn [Bottles].
  apply keyed_insert; [exact (keyed_empty BottleId)|exact Hb].
Qed.
Lemma table_ready image containers :
  (forall s c, containers !! s = Some c -> ~ fresh c) ->
  forall id info, Bottles (table (bottle image containers)) !! id = Some info ->
  bottle_ready fresh info.
Proof.
  intros Hc id info H. unfold table in H. cbn [Bottles] in H.
  apply lookup_insert_Some in H as [[_ <-]|[_ H]]; [|by rewrite lookup_empty in H].
  split; [|exact Hc]. intros s Hs.
  apply elem_of_cons in Hs as [->|Hs%list_elem_of_singleton]; [by eexists|].
  subst s. by eexists.
Qed.

Definition good := bottle "nginx" ∅.
Definition broken := bottle "" ∅.
Definition half := bottle "" (<["db" := "old-db"]> ∅).

(** The states along a whole life. *)
Definition after_create := (Create "b1" (start good)).2.
Definition after_start := (Start "shop" after_create).2.
Definition after_stop := (Stop state "shop" after_start).2.
Definition after_delete := (Delete state "b1" after_start).2.

Example life :
  trace after_delete =
    CreateNewNetwork "raindb1" ::
    (creation "b1" good <$> ["db"; "web"]) ++
    [StartContainer "new-shop-db" false; StartContainer "new-shop-web" false;
     StopContainer "new-shop-web"; DeleteContainer "new-shop-web";
     StopContainer "new-shop-db"; DeleteContainer "new-shop-db";
     RemoveUserPolicy "p1"; CommitPolicy; RemoveNetwork "raindb1"].
Proof. vm_compute. reflexivity. Qed.

(** The roll-back takes the bottle's network away also when a container made
    by an earlier [Create] stays in it. *)
Example rollback_removes_network_in_use :
  let info := {| BottleId := BottleId half; BottleName := BottleName half;
                 Services := Services half; StartOrder := StartOrder half;
                 Containers := Containers half; Policies := Policies half;
                 b_Network := "raindb1"; NetworkAuto := true;
                 CreatedAt := CreatedAt half |} in
  match Create "b1" (start info) with
  | (Err e, w) => e = "image is required" /\ last (trace w) = Some (RemoveNetwork "raindb1") /\
      (fun b => (Containers b !! "db", b_Network b)) <$> Bottles (store w) !! "b1" =
        Some (Some "old-db", "")
  | _ => False
  end.
Proof. vm_compute. split_and!; reflexivity. Qed.

(** A service without a specification ends [Create] with no roll-back. *)
Example missing_spec_keeps_containers :
  let info := {| BottleId := BottleId good; BottleName := BottleName good;
                 Services := Services good; StartOrder := ["db"; "cache"];
                 Containers := Containers good; Policies := Policies good;
                 b_Network := b_Network good;
                 NetworkAuto := NetworkAuto good; CreatedAt := CreatedAt good |} in
  match Create "b1" (start info) with
  | (Err e, w) => e = "service spec not found: cache" /\
      inner w !! "new-shop-db" = Some "created"
  | _ => False
  end.
Proof. vm_compute. split; reflexivity. Qed.

Lemma no_containers s c : (∅ : gmap string string) !! s = Some c -> ~ fresh c.
Proof. by rewrite lookup_empty. Qed.

(** Three services, the last of which has no image: the two containers made are
    deleted in the reverse order. *)
Definition three : BottleInfo :=
  {| BottleId := "b1"; BottleName := "shop";
     Services := <["db" := spec "postgres" []]> (<["api" := spec "api" ["db"]]>
       (<["web" := spec "" ["api"]]> ∅));
     StartOrder := ["db"; "api"; "web"]; Containers := ∅; Policies := [];
     b_Network := ""; NetworkAuto := false; CreatedAt := 7 |}.
Lemma three_ready : forall id info, Bottles (table three) !! id = Some info -> bottle_ready fresh info.
Proof.
  intros id info H. unfold table in H. cbn [Bottles] in H.
  apply lookup_insert_Some in H as [[_ <-]|[_ H]]; [|by rewrite lookup_empty in H].
  split; [|exact no_containers]. intros s Hs. cbn in Hs.
  repeat (apply elem_of_cons in Hs as [->|Hs]; [by eexists|]). by apply not_elem_of_nil in Hs.
Qed.
Example three_rolled_back :
  trace (Create "b1" (start three)).2 =
    (CreateNewNetwork "raindb1" :: (creation "b1" three <$> ["db"; "api"])) ++
    [creation "b1" three "web"; DeleteContainer "new-shop-api"; DeleteContainer "new-shop-db";
     RemoveNetwork "raindb1"].
Proof. vm_compute. reflexivity. Qed.

Example Create_correct_witness :
  exists w', Create "b1" (start three) = (Err "image is required", w') /\
    exists ids m, answers "b1" three "raindb1" true ["db"; "api"]
        (perform (CreateNewNetwork "raindb1") ∅).2 = Some ids /\
      trace w' = (CreateNewNetwork "raindb1" :: (creation "b1" three <$> ["db"; "api"])) ++
        creation "b1" three "web" :: (DeleteContainer <$> rev ids) ++ [RemoveNetwork "raindb1"] /\
      (forall s, container_of m s = "") /\
      store w' = table (net_bottle "raindb1" true (created_bottle "b1" three m)).
Proof.
  destruct (Create "b1" (start three)) as [r w'] eqn:E.
  pose proof E as E'. vm_compute in E'.
  injection E' as <- Hw. exists w'. split; [reflexivity|].
  pose proof (Create_correct fresh "b1" (start three) _ w'
    (table_keyed three eq_refl) eq_refl three_ready E) as H.
  destruct H as [[e He]|[(_ & _ & calls & Ht & Hc)|(id & info & sv & ids & calls & Hi & Ht & _ & _ & _ & H)]].
  - discriminate He.
  - exfalso. destruct (Hc (RemoveNetwork "raindb1")) as [b Hb]; [|discriminate Hb].
    assert (trace (start three) = []) as E0 by reflexivity.
    rewrite E0 in Ht. simpl in Ht. rewrite <- Ht, <- Hw.
    apply list_elem_of_In. vm_compute. tauto.
  - destruct H as (s & m & _ & _ & Hh & Hm).
    unfold start, table in Hi. cbn [store Bottles] in Hi.
    apply lookup_insert_Some in Hi as [[<- <-]|[_ Hi]]; [|by rewrite lookup_empty in Hi].
    exists ["new-shop-db"; "new-shop-api"], m. split; [vm_compute; reflexivity|].
    split; [rewrite <- Hw; vm_compute; reflexivity|]. split; [exact Hm|]. unfold holds in Hh.
    unfold start, table, set_Bottles in Hh. cbn [store Bottles Version] in Hh.
    rewrite insert_insert_eq in Hh. exact Hh.
Defined.

Example Start_in_order_witness :
  is_ok (Start "shop" after_create).1 = true /\
  exists bottleId k info, find_by_id bottleId (store after_create) = Some (k, info) /\
    trace after_start = trace after_create ++ start_calls info (StartOrder info).
Proof.
  split; [vm_compute; reflexivity|].
  destruct (Start_in_order "shop" after_create (Start "shop" after_create).1 after_start
    (surjective_pairing _)) as (_ & calls & Ht & [[_ H]|(id & k & info & Hf & _ & H)]).
  - exfalso. vm_compute in H. discriminate H.
  - exists id, k, info. split; [exact Hf|].
    destruct H as (_ & <- & _); [vm_compute; reflexivity|exact Ht].
Defined.

Example Stop_stops_all_witness :
  is_ok (Stop state "shop" after_start).1 = true /\
  state "new-shop-db" (inner after_start) = Ok "running" /\
  exists bottleId k info, find_by_id bottleId (store after_start) = Some (k, info) /\
    forall s st, s ∈ StartOrder info ->
      state (container info s) (inner after_stop) = Ok st -> st <> "running".
Proof.
  split_and!; [vm_compute; reflexivity..|].
  destruct (Stop_stops_all state "shop" after_start (Stop state "shop" after_start).1 after_stop
    (surjective_pairing _)) as (_ & calls & Ht & [[_ H]|(id & k & info & Hf & _ & H)]).
  - exfalso. vm_compute in H. discriminate H.
  - exists id, k, info. split; [exact Hf|].
    apply H. vm_compute. reflexivity.
Defined.

Example Delete_correct_witness :
  exists info calls, BottleName info = "shop" /\
    Bottles (store after_delete) = delete "b1" (Bottles (store after_start)) /\
    trace after_delete = trace after_start ++ calls ++ policy_calls (Policies info) ++
      (if NetworkAuto info && negb (String.eqb (b_Network info) "")
       then [RemoveNetwork (b_Network info)] else []) /\
    deleted calls = container info <$> rev (StartOrder info).
Proof.
  assert (keyed BottleId (Bottles (store after_start))) as Hk.
  { assert (exists b, Bottles (store after_start) = <["b1" := b]> ∅ /\ BottleId b = "b1")
      as (b & -> & Hb) by (eexists; split; vm_compute; reflexivity).
    apply keyed_insert; [exact (keyed_empty BottleId)|exact Hb]. }
  pose proof (Delete_correct state "b1" after_start (Delete state "b1" after_start).1 after_delete
    Hk (surjective_pairing _)) as H.
  assert ((Delete state "b1" after_start).1 = Ok "b1") as E by (vm_compute; reflexivity).
  rewrite E in H. destruct H as (info & calls & Hi & H2 & H3 & H4).
  exists info, calls. split; [|split; [exact H2|split; [exact H3|exact H4]]].
  assert ((fun b => BottleName b) <$> Bottles (store after_start) !! "b1" = Some "shop")
    as En by (vm_compute; reflexivity).
  rewrite Hi in En. by injection En.
Defined.
End Demo.
