(* ===== verification/PodService.v ===== *)
(** * Pods: create, start, stop, remove ([core/pod/service*.go])

    The pod service over the pod table ([Psm.v]), which it shares with the
    container service it calls. *)

From Stdlib Require Import ZArith Lia String.
From stdpp Require Import base gmap strings list.
From S2P Require Import Prelude.
From S2P Require Import GoString.
From S2P Require Import Psm.
From S2P Require Import World.
From S2P Require Import ContainerModel.
Open Scope Z_scope.

(** ** Data *)

Record ServiceCreateModel := {
  pc_Name : string;
  pc_Namespace : string;
  pc_UID : string;
  pc_NetworkNS : string;
  pc_IPCNS : string;
  pc_UTSNS : string;
  pc_UserNS : string;
  pc_Rootless : bool;
  pc_Labels : gmap string string;
  pc_Annotations : gmap string string;
  pc_Containers : list ContainerTemplateSpec
}.

(** What the API shows of a pod. *)
Record PodState := {
  ps_PodId : string;
  ps_Name : string;
  ps_Namespace : string;
  ps_UID : string;
  ps_State : string;
  DesiredContainers : Z;
  RunningContainers : Z;
  ps_NetworkNS : string;
  ps_IPCNS : string;
  ps_UTSNS : string;
  ps_UserNS : string;
  ps_Rootless : bool;
  ps_Labels : gmap string string;
  ps_Annotations : gmap string string;
  ps_CreatedAt : Z;
  ps_StartedAt : Z;
  ps_StoppedAt : Z
}.

Inductive container_call :=
  | CreateContainer (m : ContainerModel.ServiceCreateModel)
  | StartContainer (containerId : string)
  | StopContainer (containerId : string)
  | DeleteContainer (containerId : string).

(** The container service, which reads and writes the pod table too, its list
    of the containers of a pod, and the network of a namespace. *)
Class PodPeers (W : Type) := {
  pod_callees :: Callees container_call Psm.PodState W;
  containers_of : string -> W -> res (list ContainerState);
  resolve_network : string -> W -> res string
}.

Definition PodInfraContainerNamePrefix : string := "condenser-pod-infra-".

Definition isPodInfraName (name : string) : bool :=
  hasPrefix name PodInfraContainerNamePrefix.

(** The text is what the code looks at; the errors of the file system that
    stand for a missing file carry it. *)
Definition isNotFoundErr (e : error) : bool :=
  let msg := toLower e in contains msg "not found" || contains msg "no such file".

(** [a[k]] of a missing key is the empty string. *)
Definition equalStringMap {RO : RangeOrder} (a b : gmap string string) : bool :=
  (size a =? size b)%nat &&
  forallb (fun kv => String.eqb (default "" (b !! kv.1)) kv.2) (range_map a).

Definition buildPodMemberName (baseName podId : string) : string :=
  if String.eqb baseName "" then baseName else
  let suffix := if (8 <? String.length podId)%nat
                then drop_str (String.length podId - 8) podId else podId in
  baseName +:+ "-" +:+ suffix.

(** ** Operations *)

Section service.
Context {RO : RangeOrder} {W : Type} {S : PodPeers W}.
#[local] Notation M := (M Psm.PodState container_call W).

Definition GetContainersByPodId (podId : string) : M (list ContainerState) :=
  observe (containers_of podId).

Definition with_network (networkName : string) (c : ContainerTemplateSpec)
    : ContainerTemplateSpec :=
  if String.eqb (Network c) "" then
    {| ct_Name := ct_Name c; Image := Image c; ct_Command := ct_Command c; Port := Port c;
       Mount := Mount c; Env := Env c; CapAdd := CapAdd c; CapDrop := CapDrop c;
       ct_SecurityProfile := ct_SecurityProfile c; Network := networkName;
       ct_Tty := ct_Tty c |}
  else c.

Definition resolveContainerNetworks (namespace : string)
    (containers : list ContainerTemplateSpec) : M (list ContainerTemplateSpec) :=
  match containers with
  | [] => mret []
  | _ => networkName ← observe (resolve_network namespace);
         mret (with_network networkName <$> containers)
  end.

(** [if err := m(); err != nil { if isNotFoundErr(err) { return d } return err }]. *)
Definition or_absent {A B} (m : M A) (d : M B) (k : A -> M B) : M B :=
  r ← attempt m;
  match r with
  | Ok a => k a
  | Err e | Panic e => if isNotFoundErr e then d else fail e
  end.

(** *** Removing ([service_delete.go]) *)

Definition stopContainerIgnoreStopped (containerId : string) : M unit :=
  r ← attempt (invoke (StopContainer containerId));
  match r with
  | Ok _ => mret tt
  | Err e | Panic e =>
      if contains e "stop operation not allowed to current container status"
      then mret tt
      else if isNotFoundErr e then mret tt else fail e
  end.

Definition delete_container (containerId : string) : M unit :=
  or_absent (invoke (DeleteContainer containerId)) (mret tt) (fun _ => mret tt).

(** The loop over the containers; the infra container found last is kept for
    the end. *)
Fixpoint remove_members (l : list ContainerState) (infra : option ContainerState)
    : M (option ContainerState) :=
  match l with
  | [] => mret infra
  | c :: l =>
      if isPodInfraName (cs_Name c) then remove_members l (Some c) else
      _ ← stopContainerIgnoreStopped (cs_ContainerId c);
      _ ← delete_container (cs_ContainerId c);
      remove_members l infra
  end.

(** A template that nothing refers to any more goes with its pod. *)
Definition remove_template (templateId : string) : M unit :=
  if String.eqb templateId "" then mret tt else
  r ← attempt (read (IsTemplateReferenced templateId));
  match r with
  | Ok false => ignore (txn (RemovePodTemplate templateId))
  | _ => mret tt
  end.

Definition Remove (podId : string) : M string :=
  or_absent (read (Psm.GetPodById podId)) (mret podId) (fun podInfo =>
  or_absent (txn (UpdatePodStoppedByUser podId true)) (mret podId) (fun _ =>
  or_absent (GetContainersByPodId podId)
    (_ ← ignore (txn (RemovePod podId)); mret podId) (fun containers =>
  infra ← remove_members containers None;
  _ ← match infra with
      | Some c => _ ← stopContainerIgnoreStopped (cs_ContainerId c);
                  delete_container (cs_ContainerId c)
      | None => mret tt
      end;
  or_absent (txn (RemovePod podId)) (mret podId) (fun _ =>
  _ ← remove_template (TemplateId podInfo);
  mret podId)))).

(** *** Creating ([service_create.go]) *)

(** What to do about a pod that has the name already: [Some id] when it is the
    pod asked for; it is removed when it is another one. *)
Definition existing_pod (uid : string) (p : ServiceCreateModel) : M (option string) :=
  r ← attempt (read (GetPodIdByName (pc_Name p) (pc_Namespace p)));
  match r with
  | Ok existingId =>
      e ← attempt (read (Psm.GetPodById existingId));
      match e with
      | Ok existing =>
          if negb (String.eqb (UID existing) "") && negb (String.eqb uid "") &&
             String.eqb (UID existing) uid
          then mret (Some existingId)
          else if negb (String.eqb (UID existing) "") && negb (String.eqb uid "") &&
                  negb (String.eqb (UID existing) uid)
          then _ ← Remove existingId; mret None
          else fail ("pod name already used: " +:+ pc_Namespace p +:+ "/" +:+ pc_Name p)
      | _ => mret None
      end
  | _ => mret None
  end.

Definition store_request (podId templateId uid : string) (p : ServiceCreateModel)
    : StorePodRequest :=
  {| req_PodId := podId; req_TemplateId := templateId; req_OwnerKind := "";
     req_OwnerId := ""; req_Name := pc_Name p; req_Namespace := pc_Namespace p;
     req_UID := uid; req_State := PodStateCreated; req_NetworkNS := pc_NetworkNS p;
     req_IPCNS := pc_IPCNS p; req_UTSNS := pc_UTSNS p; req_UserNS := pc_UserNS p;
     req_Rootless := pc_Rootless p; req_Labels := pc_Labels p;
     req_Annotations := pc_Annotations p |}.

Definition createWithTemplate (templateId : string) (p : ServiceCreateModel) : M string :=
  if String.eqb (pc_Name p) "" then fail "pod name is required" else
  if String.eqb (pc_Namespace p) "" then fail "pod namespace is required" else
  uid ← (if String.eqb (pc_UID p) "" then new_id else mret (pc_UID p));
  found ← existing_pod uid p;
  match found with
  | Some existingId => mret existingId
  | None =>
      podId ← new_id;
      t ← now;
      _ ← txn (StorePod (store_request podId templateId uid p) t);
      mret podId
  end.

Definition template_model (name : string) (t : PodTemplateSpec) : ServiceCreateModel :=
  {| pc_Name := name; pc_Namespace := pt_Namespace t; pc_UID := "";
     pc_NetworkNS := pt_NetworkNS t; pc_IPCNS := pt_IPCNS t; pc_UTSNS := pt_UTSNS t;
     pc_UserNS := pt_UserNS t; pc_Rootless := pt_Rootless t; pc_Labels := pt_Labels t;
     pc_Annotations := pt_Annotations t; pc_Containers := [] |}.

Definition CreateFromTemplate (templateId nameOverride : string) : M string :=
  template ← read (GetPodTemplate templateId);
  let name := if negb (String.eqb nameOverride "") then nameOverride
              else pt_Name (ti_Spec template) in
  createWithTemplate templateId (template_model name (ti_Spec template)).

Definition RecreateFromTemplate (templateId : string) : M string :=
  CreateFromTemplate templateId "".

Definition Create (p : ServiceCreateModel) : M string :=
  templateId ← new_id;
  containers ← resolveContainerNetworks (pc_Namespace p) (pc_Containers p);
  t ← now;
  _ ← txn (StorePodTemplate templateId
        {| pt_Name := pc_Name p; pt_Namespace := pc_Namespace p;
           pt_NetworkNS := pc_NetworkNS p; pt_IPCNS := pc_IPCNS p;
           pt_UTSNS := pc_UTSNS p; pt_UserNS := pc_UserNS p;
           pt_Rootless := pc_Rootless p; pt_Labels := pc_Labels p;
           pt_Annotations := pc_Annotations p; pt_Containers := containers |} t);
  createWithTemplate templateId p.

(** *** Starting ([service_start.go]) *)

Fixpoint check_images (l : list ContainerTemplateSpec) : M unit :=
  match l with
  | [] => mret tt
  | spec :: l =>
      if String.eqb (ct_Name spec) "" then check_images l else
      if String.eqb (Image spec) ""
      then fail ("pod template invalid: container image required: " +:+ ct_Name spec)
      else check_images l
  end.

Definition ensurePodTemplateConsistency (podInfo : PodInfo) : M unit :=
  if String.eqb (TemplateId podInfo) "" then mret tt else
  tpl ← read (GetPodTemplate (TemplateId podInfo));
  let spec := ti_Spec tpl in
  _ ← (if negb (String.eqb (pt_Name spec) (Name podInfo)) ||
          negb (String.eqb (pt_Namespace spec) (Namespace podInfo))
       then inUse ← read (IsTemplateReferenced (TemplateId podInfo));
            if negb inUse then fail "pod template mismatch: name/namespace" else mret tt
       else mret tt);
  if negb (equalStringMap (pt_Labels spec) (Labels podInfo))
  then fail "pod template mismatch: labels" else
  if negb (equalStringMap (pt_Annotations spec) (Annotations podInfo))
  then fail "pod template mismatch: annotations" else
  check_images (pt_Containers spec).

Definition member_model (podInfo : PodInfo) (networkName : string)
    (spec : ContainerTemplateSpec) : ContainerModel.ServiceCreateModel :=
  {| cm_Image := Image spec; cm_Os := ""; cm_Arch := ""; cm_Command := ct_Command spec;
     cm_Port := Port spec; cm_Mount := Mount spec; cm_Device := []; cm_Env := Env spec;
     cm_CapAdd := CapAdd spec; cm_CapDrop := CapDrop spec;
     cm_SecurityProfile := ct_SecurityProfile spec; cm_Network := networkName;
     cm_Tty := ct_Tty spec; cm_Name := ct_Name spec; cm_BottleId := "";
     cm_PodId := PodId podInfo; cm_Rootless := Rootless podInfo; cm_RootlessMode := "";
     cm_RootlessRootUID := 0; cm_RootlessRootGID := 0; cm_IsPodInfra := false |}.

(** The keys of [actualByName]. *)
Definition member_names (containers : list ContainerState) : gset string :=
  list_to_set (cs_Name <$> filter (fun c => isPodInfraName (cs_Name c) = false) containers).

Fixpoint create_members (podInfo : PodInfo) (actual : gset string)
    (l : list ContainerTemplateSpec) : M unit :=
  match l with
  | [] => mret tt
  | spec :: l =>
      if String.eqb (ct_Name spec) "" then create_members podInfo actual l else
      if String.eqb (Image spec) ""
      then fail ("pod template invalid: container image required: " +:+ ct_Name spec) else
      networkName ← (if String.eqb (Network spec) ""
                     then observe (resolve_network (Namespace podInfo))
                     else mret (Network spec));
      if decide (buildPodMemberName (ct_Name spec) (PodId podInfo) ∈ actual)
      then create_members podInfo actual l else
      _ ← invoke (CreateContainer (member_model podInfo networkName spec));
      create_members podInfo actual l
  end.

Definition ensurePodTemplateContainers (podInfo : PodInfo) : M unit :=
  if String.eqb (TemplateId podInfo) "" then mret tt else
  tpl ← read (GetPodTemplate (TemplateId podInfo));
  match pt_Containers (ti_Spec tpl) with
  | [] => mret tt
  | specs =>
      containers ← GetContainersByPodId (PodId podInfo);
      create_members podInfo (member_names containers) specs
  end.

(** One pass over the containers: [infra] tells which ones it starts. *)
Fixpoint start_pass (infra : bool) (l : list ContainerState) : M unit :=
  match l with
  | [] => mret tt
  | c :: l =>
      if Bool.eqb (isPodInfraName (cs_Name c)) infra &&
         negb (String.eqb (cs_State c) ContainerStateRunning)
      then _ ← invoke (StartContainer (cs_ContainerId c)); start_pass infra l
      else start_pass infra l
  end.

Definition Start (podId : string) : M string :=
  podInfo ← read (Psm.GetPodById podId);
  _ ← ensurePodTemplateConsistency podInfo;
  _ ← ensurePodTemplateContainers podInfo;
  containers ← GetContainersByPodId podId;
  _ ← start_pass true containers;
  _ ← start_pass false containers;
  t ← now;
  _ ← txn (UpdatePod podId PodStateRunning t);
  _ ← ignore (txn (UpdatePodStoppedByUser podId false));
  mret podId.

(** *** Stopping ([service_stop.go]) *)

Fixpoint stop_members (l : list ContainerState) : M unit :=
  match l with
  | [] => mret tt
  | c :: l =>
      if isPodInfraName (cs_Name c) then stop_members l else
      _ ← invoke (StopContainer (cs_ContainerId c));
      stop_members l
  end.

Definition Stop (podId : string) : M string :=
  containers ← GetContainersByPodId podId;
  _ ← stop_members containers;
  t ← now;
  _ ← txn (UpdatePod podId PodStateStopped t);
  _ ← txn (UpdatePodStoppedByUser podId true);
  mret podId.

(** *** Listing ([service_list.go]) *)

(** The loop over the containers: how many members, how many of them run. *)
Fixpoint count_members (l : list ContainerState) (nonInfra running : Z) : Z * Z :=
  match l with
  | [] => (nonInfra, running)
  | c :: l =>
      if isPodInfraName (cs_Name c) then count_members l nonInfra running else
      count_members l (nonInfra + 1)
        (if String.eqb (cs_State c) ContainerStateRunning then running + 1 else running)
  end.

(** The wanted and the running members. *)
Definition getContainerCounts (podId templateId : string) : M (Z * Z) :=
  desired ← (if String.eqb templateId "" then mret 0 else
             r ← attempt (read (GetPodTemplate templateId));
             match r with
             | Ok tmpl => mret (Z.of_nat (length (pt_Containers (ti_Spec tmpl))))
             | _ => mret 0
             end);
  containers ← GetContainersByPodId podId;
  let '(nonInfra, running) := count_members containers 0 0 in
  mret (if desired =? 0 then nonInfra else desired, running).

Definition pod_state (p : PodInfo) (desired running : Z) : PodState :=
  {| ps_PodId := PodId p; ps_Name := Name p; ps_Namespace := Namespace p; ps_UID := UID p;
     ps_State := State p; DesiredContainers := desired; RunningContainers := running;
     ps_NetworkNS := NetworkNS p; ps_IPCNS := IPCNS p; ps_UTSNS := UTSNS p;
     ps_UserNS := UserNS p; ps_Rootless := Rootless p; ps_Labels := Labels p;
     ps_Annotations := Annotations p; ps_CreatedAt := CreatedAt p;
     ps_StartedAt := StartedAt p; ps_StoppedAt := StoppedAt p |}.

Fixpoint list_pods (l : list PodInfo) : M (list PodState) :=
  match l with
  | [] => mret []
  | p :: l =>
      '(desired, running) ← getContainerCounts (PodId p) (TemplateId p);
      rest ← list_pods l;
      mret (pod_state p desired running :: rest)
  end.

Definition GetPodList : M (list PodState) :=
  podList ← read Psm.GetPodList; list_pods podList.

Definition GetPodById (podId : string) : M PodState :=
  p ← read (Psm.GetPodById podId);
  '(desired, running) ← getContainerCounts (PodId p) (TemplateId p);
  mret (pod_state p desired running).
End service.
