(* ===== verification/PodController.v ===== *)
(** * The pod controller ([core/pod/controller.go])

    One round of the controller: deployments are brought to their replica
    sets, replica sets to their number of pods, pods and templates to running
    pods.  The ticker around it is not modelled; the writes to the log are left
    out. *)

From Stdlib Require Import ZArith Lia String.
From stdpp Require Import base gmap strings list.
From S2P Require Import Prelude.
From S2P Require Import GoString.
From S2P Require Import Psm.
From S2P Require Import World.
From S2P Require Import ContainerModel.
From S2P Require Import PodService.
Open Scope Z_scope.

(** [time.Duration] counts nanoseconds in 64 bits. *)
Definition Second : Z := 1000000000.
Definition Minute : Z := 60 * Second.
Definition to_int64 (z : Z) : Z := (z + 2^63) mod 2^64 - 2^63.

Section controller.
Context {RO : RangeOrder} {W : Type} {S : PodPeers W}.
#[local] Notation M := (M Psm.PodState container_call W).
(** The field [interval] of the controller, 5 seconds. *)
Context (interval : Z).

(** ** Helpers *)

Definition replicaSetTemplateRefs (replicaSets : list ReplicaSetInfo) : gmap string Z :=
  fold_left (fun refs rs =>
    let t := rs_TemplateId (ri_Spec rs) in
    <[t := default 0 (refs !! t) + 1]> refs) replicaSets ∅.

Definition owned_by (rs : ReplicaSetInfo) (templateRefs : gmap string Z) (p : PodInfo)
    : bool :=
  if String.eqb (OwnerKind p) OwnerKindReplicaSet || negb (String.eqb (OwnerId p) "")
  then String.eqb (OwnerKind p) OwnerKindReplicaSet &&
       String.eqb (OwnerId p) (ReplicaSetId rs)
  else String.eqb (TemplateId p) (rs_TemplateId (ri_Spec rs)) &&
       (default 0 (templateRefs !! rs_TemplateId (ri_Spec rs)) =? 1) &&
       hasPrefix (Name p) (rs_Name (ri_Spec rs) +:+ "-").

Definition filterReplicaSetPods (rs : ReplicaSetInfo) (pods : list PodInfo)
    (templateRefs : gmap string Z) : list PodInfo :=
  List.filter (owned_by rs templateRefs) pods.

Definition shouldSkipReplicaSet (rs : ReplicaSetInfo) : M bool :=
  if NextReconcileAt rs =? zero_time then mret false else
  t ← now; mret (t <? NextReconcileAt rs).

(** [time.Duration(1<<min(attempt-1, 6)) * c.interval], then the clamps; a
    negative shift count panics. *)
Definition backoff (attempt : Z) : res Z :=
  let shift := Z.min (attempt - 1) 6 in
  if shift <? 0 then Panic "negative shift amount" else
  let delay := to_int64 (Z.shiftl 1 shift * interval) in
  let delay := if delay <=? 0 then 5 * Second else delay in
  Ok (if Minute <? delay then Minute else delay).

Definition recordReplicaSetReconcileError (rs : ReplicaSetInfo) (err : error) : M unit :=
  let attempt := ReconcileAttempt rs + 1 in
  match backoff attempt with
  | Ok delay =>
      t ← now;
      ignore (txn (UpdateReplicaSetReconcileStatus (ReplicaSetId rs) attempt err (t + delay)))
  | Err e | Panic e => crash e
  end.

Definition clearReplicaSetReconcileStatus (rs : ReplicaSetInfo) : M unit :=
  if (ReconcileAttempt rs =? 0) && String.eqb (LastReconcileError rs) "" &&
     (NextReconcileAt rs =? zero_time)
  then mret tt
  else ignore (txn (ClearReplicaSetReconcileStatus (ReplicaSetId rs))).

(** The loop that [recreatePod] and [deletePod] share. *)
Fixpoint clean_containers (l : list ContainerState) : M unit :=
  match l with
  | [] => mret tt
  | c :: l =>
      _ ← (if String.eqb (cs_State c) ContainerStateRunning
           then ignore (invoke (StopContainer (cs_ContainerId c))) else mret tt);
      _ ← ignore (invoke (DeleteContainer (cs_ContainerId c)));
      clean_containers l
  end.

Definition deletePod (podInfo : PodInfo) : M unit :=
  _ ← txn (UpdatePodStoppedByUser (PodId podInfo) true);
  containers ← GetContainersByPodId (PodId podInfo);
  _ ← clean_containers containers;
  txn (RemovePod (PodId podInfo)).

Definition recreatePod (podInfo : PodInfo) : M unit :=
  containers ← GetContainersByPodId (PodId podInfo);
  _ ← clean_containers containers;
  r ← attempt (txn (RemovePod (PodId podInfo)));
  _ ← match r with
      | Ok _ => mret tt
      | Err e | Panic e => if contains e "not found" then mret tt else fail e
      end;
  if String.eqb (TemplateId podInfo) "" then mret tt else
  newPodId ← RecreateFromTemplate (TemplateId podInfo);
  _ ← (if negb (String.eqb (OwnerKind podInfo) "") || negb (String.eqb (OwnerId podInfo) "")
       then txn (UpdatePodOwner newPodId (OwnerKind podInfo) (OwnerId podInfo))
       else mret tt);
  _ ← Start newPodId;
  mret tt.

(** The counters [runningInfra] and [stoppedInfra]. *)
Fixpoint count_infra (l : list ContainerState) (running stopped : Z) : Z * Z :=
  match l with
  | [] => (running, stopped)
  | c :: l =>
      if isPodInfraName (cs_Name c) then
        if String.eqb (cs_State c) ContainerStateRunning
        then count_infra l (running + 1) stopped
        else count_infra l running (stopped + 1)
      else count_infra l running stopped
  end.

Definition infra_state (containers : list ContainerState) : string :=
  match containers with
  | [] => "missing"
  | _ =>
      let '(runningInfra, stoppedInfra) := count_infra containers 0 0 in
      if (runningInfra =? 1) && (stoppedInfra =? 0) then ContainerStateRunning
      else if 1 <? runningInfra then "duplicate"
      else if 0 <? stoppedInfra then ContainerStateStopped
      else "missing"
  end.

Definition getPodInfraState (podId : string) : M string :=
  containers ← GetContainersByPodId podId; mret (infra_state containers).

Definition isPodInfraDown (podId : string) : M bool :=
  state ← getPodInfraState podId;
  mret (negb (String.eqb state ContainerStateRunning)).

(** ** Deployments *)

Fixpoint deployment_loop (replicaSetsById : gmap string ReplicaSetInfo)
    (l : list DeploymentInfo) : M unit :=
  match l with
  | [] => mret tt
  | deploy :: l =>
      let spec := di_Spec deploy in
      if String.eqb (d_ReplicaSetId spec) "" then
        replicaSetId ← new_id;
        t ← now;
        _ ← txn (StoreReplicaSet replicaSetId
              {| rs_Name := d_Name spec; rs_Namespace := d_Namespace spec;
                 Replicas := d_Replicas spec; rs_TemplateId := d_TemplateId spec;
                 rs_Selector := d_Selector spec |} t);
        t ← now;
        r ← attempt (txn (UpdateDeploymentReplicaSet (DeploymentId deploy) replicaSetId t));
        match r with
        | Ok _ => deployment_loop replicaSetsById l
        | Err e | Panic e => _ ← ignore (txn (RemoveReplicaSet replicaSetId)); fail e
        end
      else
        match replicaSetsById !! d_ReplicaSetId spec with
        | None =>
            t ← now;
            _ ← txn (UpdateDeploymentReplicaSet (DeploymentId deploy) "" t);
            deployment_loop replicaSetsById l
        | Some rs =>
            _ ← (if negb (Replicas (ri_Spec rs) =? d_Replicas spec)
                 then txn (UpdateReplicaSetReplicas (ReplicaSetId rs) (d_Replicas spec))
                 else mret tt);
            deployment_loop replicaSetsById l
        end
  end.

(** The map [replicaSetsById]. *)
Definition by_id (replicaSets : list ReplicaSetInfo) : gmap string ReplicaSetInfo :=
  fold_left (fun m rs => <[ReplicaSetId rs := rs]> m) replicaSets ∅.

Definition reconcileDeployments : M unit :=
  deployments ← read GetDeploymentList;
  match deployments with
  | [] => mret tt
  | _ =>
      replicaSets ← read GetReplicaSetList;
      deployment_loop (by_id replicaSets) deployments
  end.

(** ** Replica sets *)

(** The pods not stopped by the user, the others deleted; with the error that
    ended the loop, if one did. *)
Fixpoint cleanup_loop (pods active : list PodInfo) : M (list PodInfo * option error) :=
  match pods with
  | [] => mret (active, None)
  | p :: pods =>
      if negb (StoppedByUser p) then cleanup_loop pods (active ++ [p]) else
      r ← attempt (deletePod p);
      match r with
      | Ok _ => cleanup_loop pods active
      | Err e | Panic e => mret (active, Some e)
      end
  end.
Definition cleanupStoppedManagedPods (pods : list PodInfo) :=
  cleanup_loop pods [].

(** The loops return [reconcileErr]. *)
Fixpoint scale_up (n : nat) (rs : ReplicaSetInfo) (reconcileErr : option error)
    : M (option error) :=
  match n with
  | O => mret reconcileErr
  | Datatypes.S n =>
      id ← new_id;
      let name := rs_Name (ri_Spec rs) +:+ "-" +:+ take_str 8 id in
      r ← attempt (CreateFromTemplate (rs_TemplateId (ri_Spec rs)) name);
      match r with
      | Err e | Panic e => mret (Some e)
      | Ok podId =>
          r ← attempt (txn (UpdatePodOwner podId OwnerKindReplicaSet (ReplicaSetId rs)));
          match r with
          | Err e | Panic e => mret (Some e)
          | Ok _ =>
              r ← attempt (Start podId);
              match r with
              | Ok _ => scale_up n rs reconcileErr
              | Err e | Panic e =>
                  g ← attempt (read (Psm.GetPodById podId));
                  _ ← match g with
                      | Ok podInfo => ignore (deletePod podInfo)
                      | _ => mret tt
                      end;
                  scale_up n rs (Some e)
              end
          end
      end
  end.

Fixpoint scale_down (n : nat) (podList : list PodInfo) : M (option error) :=
  match n with
  | O => mret None
  | Datatypes.S n =>
      match podList with
      | [] => crash "index out of range"
      | p :: podList =>
          r ← attempt (deletePod p);
          match r with
          | Ok _ => scale_down n podList
          | Err e | Panic e => mret (Some e)
          end
      end
  end.

Definition scale (rs : ReplicaSetInfo) (podList : list PodInfo) : M (option error) :=
  let current := Z.of_nat (length podList) in
  let wanted := Replicas (ri_Spec rs) in
  if current <? wanted then scale_up (Z.to_nat (wanted - current)) rs None
  else if wanted <? current then scale_down (Z.to_nat (current - wanted)) podList
  else mret None.

Definition start_pod (podId : string) (reconcileErr : option error) : M (option error) :=
  r ← attempt (Start podId);
  match r with
  | Ok _ => mret reconcileErr
  | Err e | Panic e => mret (Some e)
  end.

(** One pod of a replica set. *)
Definition check_pod (p : PodInfo) (reconcileErr : option error) : M (option error) :=
  if StoppedByUser p then mret reconcileErr else
  infra ← attempt (getPodInfraState (PodId p));
  match infra with
  | Err e | Panic e => mret (Some e)
  | Ok infraState =>
      if negb (String.eqb infraState ContainerStateRunning) then
        r ← attempt (recreatePod p);
        match r with
        | Ok _ => mret reconcileErr
        | Err e | Panic e => mret (Some e)
        end
      else if String.eqb (State p) PodStateDegraded then start_pod (PodId p) reconcileErr
      else if String.eqb (State p) PodStateStopped then start_pod (PodId p) reconcileErr
      else if String.eqb (State p) PodStateCreated then
        r ← attempt (Start (PodId p));
        match r with
        | Ok _ => mret reconcileErr
        | Err e | Panic e => _ ← ignore (recreatePod p); mret (Some e)
        end
      else mret reconcileErr
  end.

Fixpoint check_pods (podList : list PodInfo) (reconcileErr : option error)
    : M (option error) :=
  match podList with
  | [] => mret reconcileErr
  | p :: podList => e ← check_pod p reconcileErr; check_pods podList e
  end.

Definition reconcile_replicaSet (pods : list PodInfo) (templateRefs : gmap string Z)
    (rs : ReplicaSetInfo) : M unit :=
  skip ← shouldSkipReplicaSet rs;
  if skip : bool then mret tt else
  '(podList, err) ← cleanupStoppedManagedPods (filterReplicaSetPods rs pods templateRefs);
  match err with
  | Some e => recordReplicaSetReconcileError rs e
  | None =>
      err ← scale rs podList;
      match err with
      | Some e => recordReplicaSetReconcileError rs e
      | None =>
          err ← check_pods podList None;
          match err with
          | Some e => recordReplicaSetReconcileError rs e
          | None => clearReplicaSetReconcileStatus rs
          end
      end
  end.

Fixpoint replicaSet_loop (pods : list PodInfo) (templateRefs : gmap string Z)
    (l : list ReplicaSetInfo) : M unit :=
  match l with
  | [] => mret tt
  | rs :: l => _ ← reconcile_replicaSet pods templateRefs rs;
               replicaSet_loop pods templateRefs l
  end.

(** ** Templates without a replica set *)

(** The loop over the pods of a template: [hasActive], [degradedPodId] and
    [stoppedPodId] at its end. *)
Fixpoint scan_pods (l : list PodInfo) (degradedPodId stoppedPodId : string)
    : M (bool * string * string) :=
  match l with
  | [] => mret (false, degradedPodId, stoppedPodId)
  | p :: l =>
      if String.eqb (State p) PodStateCreated
      then mret (true, degradedPodId, stoppedPodId) else
      down ← (if StoppedByUser p then mret (Ok false) else attempt (isPodInfraDown (PodId p)));
      match down with
      | Ok true => _ ← ignore (recreatePod p); mret (true, degradedPodId, stoppedPodId)
      | _ =>
          let degradedPodId :=
            if String.eqb (State p) PodStateDegraded && negb (StoppedByUser p) &&
               String.eqb degradedPodId "" then PodId p else degradedPodId in
          if negb (String.eqb (State p) PodStateStopped)
          then mret (true, degradedPodId, stoppedPodId) else
          if StoppedByUser p then scan_pods l degradedPodId stoppedPodId else
          scan_pods l degradedPodId
            (if String.eqb stoppedPodId "" then PodId p else stoppedPodId)
      end
  end.

Definition reconcile_template (pods : list PodInfo) (tpl : PodTemplateInfo) : M unit :=
  r ← attempt (read (IsTemplateReferenced (ti_TemplateId tpl)));
  match r with
  | Ok false =>
      match List.filter (fun p => negb (String.eqb (TemplateId p) "") &&
              String.eqb (TemplateId p) (ti_TemplateId tpl)) pods with
      | [] => ignore (RecreateFromTemplate (ti_TemplateId tpl))
      | podList =>
          '(hasActive, degradedPodId, stoppedPodId) ← scan_pods podList "" "";
          if negb (String.eqb degradedPodId "") then ignore (Start degradedPodId) else
          if (hasActive : bool) || String.eqb stoppedPodId "" then mret tt else
          ignore (Start stoppedPodId)
      end
  | _ => mret tt
  end.

Fixpoint template_loop (pods : list PodInfo) (l : list PodTemplateInfo) : M unit :=
  match l with
  | [] => mret tt
  | tpl :: l => _ ← reconcile_template pods tpl; template_loop pods l
  end.

(** ** The whole round *)

Definition reconcileOnce : M unit :=
  _ ← reconcileDeployments;
  replicaSets ← read GetReplicaSetList;
  templates ← read GetPodTemplateList;
  if (length templates =? 0)%nat && (length replicaSets =? 0)%nat then mret tt else
  pods ← read Psm.GetPodList;
  _ ← replicaSet_loop pods (replicaSetTemplateRefs replicaSets) replicaSets;
  template_loop pods templates.
End controller.
