(* ===== verification/PodTheory.v ===== *)
(** * Correctness of the pod service ([core/pod/service*.go])

    Removal, start and the uniqueness of pod names, under a container service
    that may change the pod table but adds no pods and renames none. *)

From Stdlib Require Import ZArith Lia String.
From stdpp Require Import base gmap strings list.
From S2P Require Import Prelude.
From S2P Require Import GoString.
From S2P Require Import Psm.
From S2P Require Import World.
From S2P Require Import ContainerModel.
From S2P Require Import PodService.
From S2P Require Import PodController.
Open Scope Z_scope.

(** ** The names of the pods *)

Definition same_name (p q : PodInfo) : Prop :=
  PodId p = PodId q /\ Name p = Name q /\ Namespace p = Namespace q.

(** Every pod of [st'] is one of [st], under its name. *)
Definition names_from (st st' : Psm.PodState) : Prop :=
  forall k p', Pods st' !! k = Some p' -> exists p, Pods st !! k = Some p /\ same_name p p'.

#[export] Instance names_from_preorder : PreOrder names_from.
Proof.
  split.
  - intros st k p Hp. by exists p.
  - intros st1 st2 st3 H12 H23 k p Hp.
    apply H23 in Hp as (q & Hq & ? & ? & ?). apply H12 in Hq as (r & Hr & ? & ? & ?).
    exists r. split; [done|]. unfold same_name. split_and!; congruence.
Qed.

(** No two pods of a namespace have one name. *)
Definition pods_ok (st : Psm.PodState) : Prop :=
  keyed PodId (Pods st) /\
  forall k1 k2 p1 p2, Pods st !! k1 = Some p1 -> Pods st !! k2 = Some p2 ->
    Name p1 = Name p2 -> Namespace p1 = Namespace p2 -> k1 = k2.

Lemma pods_ok_from st st' : names_from st st' -> pods_ok st -> pods_ok st'.
Proof.
  intros Hn [Hk Hu]. split.
  - intros k p' Hp. apply Hn in Hp as (p & Hp & Hid & _). rewrite <- Hid. by apply Hk.
  - intros k1 k2 p1 p2 H1 H2 E1 E2.
    apply Hn in H1 as (q1 & H1 & _ & ? & ?). apply Hn in H2 as (q2 & H2 & _ & ? & ?).
    apply (Hu k1 k2 q1 q2); congruence.
Qed.

Lemma absent_from st st' k :
  names_from st st' -> Pods st !! k = None -> Pods st' !! k = None.
Proof.
  intros Hn Hk. destruct (Pods st' !! k) as [p|] eqn:E; [|done].
  apply Hn in E as (q & Hq & _). congruence.
Qed.

(** What the container service may do to the pod table: change pods, not add
    or rename them. *)
Class PodCalleesLaw (W : Type) {S : PodPeers W} : Prop := callee_names c st (i : W) :
  names_from st (callee (C := container_call) c (st, i)).2.1.

(** ** The operations on the table *)

Lemma update_pod_names podId f st st' u :
  (forall p, same_name p (f p)) -> update_pod podId f st = Ok (st', u) -> names_from st st'.
Proof.
  intros Hf H. unfold update_pod in H.
  apply res_bind_ok in H as (m & (p & p' & Hp & Hp' & ->)%update_entry_ok & H).
  injection H as <- _. injection Hp' as <-. intros k q. simpl. intros Hq.
  apply lookup_insert_Some in Hq as [[<- <-]|[_ Hq]]; [|by exists q].
  by exists p.
Qed.

Lemma RemovePod_names podId st st' u : RemovePod podId st = Ok (st', u) -> names_from st st'.
Proof.
  intros H. unfold RemovePod in H.
  apply res_bind_ok in H as (m & [_ ->]%remove_entry_ok & H). injection H as <- _.
  intros k q Hq. simpl in Hq. apply lookup_delete_Some in Hq as [_ Hq]. by exists q.
Qed.

(** Transactions on the other tables. *)
Lemma same_pods_names st st' : Pods st' = Pods st -> names_from st st'.
Proof. intros E k p. rewrite E. by exists p. Qed.

Section service.
Context {RO : RangeOrder} {W : Type} {S : PodPeers W} {L : PodCalleesLaw W}.
#[local] Notation world := (world Psm.PodState container_call W).
#[local] Notation steps := (steps (C := container_call) (W := W) names_from).
Implicit Types w : world.

Lemma steps_UpdatePod podId state t : steps (txn (UpdatePod podId state t)).
Proof. apply (steps_txn names_from). intros st st' u. by apply update_pod_names. Qed.
Lemma steps_UpdatePodOwner podId k i : steps (txn (UpdatePodOwner podId k i)).
Proof. apply (steps_txn names_from). intros st st' u. by apply update_pod_names. Qed.
Lemma steps_UpdatePodStoppedByUser podId b : steps (txn (UpdatePodStoppedByUser podId b)).
Proof. apply (steps_txn names_from). intros st st' u. by apply update_pod_names. Qed.
Lemma steps_RemovePod podId : steps (txn (RemovePod podId)).
Proof. apply (steps_txn names_from). intros st st' u. apply RemovePod_names. Qed.
Lemma steps_RemovePodTemplate templateId : steps (txn (RemovePodTemplate templateId)).
Proof.
  apply (steps_txn names_from). intros st st' u H. unfold RemovePodTemplate in H.
  apply res_bind_ok in H as (m & _ & H). injection H as <- _. by apply same_pods_names.
Qed.
Lemma steps_StorePodTemplate templateId spec t :
  steps (txn (StorePodTemplate templateId spec t)).
Proof. apply (steps_txn names_from). intros st st' u [= <- _]. by apply same_pods_names. Qed.
Lemma steps_call c : steps (invoke c).
Proof. apply (steps_invoke names_from). intros st i. apply callee_names. Qed.

#[local] Hint Resolve steps_UpdatePod steps_UpdatePodOwner steps_UpdatePodStoppedByUser
  steps_RemovePod steps_RemovePodTemplate steps_StorePodTemplate steps_call : go.

Ltac steps_tac :=
  repeat first
    [ progress intros
    | solve [auto with go typeclass_instances]
    | apply (steps_bind names_from)
    | match goal with |- World.steps _ (if ?b then _ else _) => destruct b end
    | match goal with |- World.steps _ (match ?x with _ => _ end) => destruct x end ].

Lemma steps_or_absent {A B} m (d : M Psm.PodState container_call W B) (k : A -> _) :
  steps m -> steps d -> (forall a, steps (k a)) -> steps (or_absent m d k).
Proof. intros Hm Hd Hk. unfold or_absent. steps_tac. Qed.

Lemma steps_stop c : steps (stopContainerIgnoreStopped c).
Proof. unfold stopContainerIgnoreStopped. steps_tac. Qed.
Lemma steps_delete_container c : steps (delete_container c).
Proof. apply steps_or_absent; steps_tac. Qed.
#[local] Hint Resolve steps_stop steps_delete_container : go.

Lemma steps_remove_members l o : steps (remove_members l o).
Proof. revert o. induction l as [|c l IH]; intros o; simpl; steps_tac. Qed.
#[local] Hint Resolve steps_remove_members : go.

Lemma steps_remove_template t : steps (remove_template t).
Proof. unfold remove_template. steps_tac. Qed.
#[local] Hint Resolve steps_remove_template : go.

Lemma steps_GetContainersByPodId p : steps (GetContainersByPodId p).
Proof. unfold GetContainersByPodId. steps_tac. Qed.
#[local] Hint Resolve steps_GetContainersByPodId : go.

Lemma steps_Remove podId : steps (Remove podId).
Proof.
  unfold Remove. repeat (apply steps_or_absent; [steps_tac|steps_tac|intros ?]). steps_tac.
Qed.
#[local] Hint Resolve steps_Remove : go.

Lemma steps_consistency p : steps (ensurePodTemplateConsistency p).
Proof.
  unfold ensurePodTemplateConsistency.
  assert (forall l, steps (check_images l)) by (induction l; simpl; steps_tac).
  steps_tac.
Qed.
Lemma steps_ensure_containers p : steps (ensurePodTemplateContainers p).
Proof.
  unfold ensurePodTemplateContainers.
  assert (forall g l, steps (create_members p g l)) by (intros g l; induction l; simpl; steps_tac).
  steps_tac.
Qed.
Lemma steps_start_pass b l : steps (start_pass b l).
Proof. induction l; simpl; steps_tac. Qed.
#[local] Hint Resolve steps_consistency steps_ensure_containers steps_start_pass : go.

Lemma steps_Start podId : steps (Start podId).
Proof. unfold Start. steps_tac. Qed.
#[local] Hint Resolve steps_Start : go.

Lemma steps_Stop podId : steps (Stop podId).
Proof.
  unfold Stop. assert (forall l, steps (stop_members l)) by (induction l; simpl; steps_tac).
  steps_tac.
Qed.
#[local] Hint Resolve steps_Stop : go.

(** ** Removal *)

Lemma or_absent_run {A B} (m : M Psm.PodState container_call W A) d (k : A -> M _ _ _ B) w r w' :
  or_absent m d k w = (r, w') ->
  (exists a w1, m w = (Ok a, w1) /\ k a w1 = (r, w')) \/
  (exists e w1, m w = (Err e, w1) /\ isNotFoundErr e = true /\ d w1 = (r, w')) \/
  (exists e, m w = (Err e, w') /\ isNotFoundErr e = false /\ r = Err e) \/
  (exists e, m w = (Panic e, w') /\ r = Panic e).
Proof.
  unfold or_absent, mbind, M_bind, attempt. destruct (m w) as [[a|e|e] w1].
  - eauto.
  - intros H. right. destruct (isNotFoundErr e) eqn:E; [left; by eauto|right; left].
    injection H as <- <-. eauto.
  - intros [= <- <-]. eauto 6.
Qed.

(** Without store faults a pod is not in the table after its removal, whether
    it was there or not. *)
Lemma RemovePod_absent podId w :
  faults w = [] -> Pods (store (txn (RemovePod podId) w).2) !! podId = None.
Proof.
  intros Hw. rewrite txn_run by done. unfold RemovePod, remove_entry.
  destruct (Pods (store w) !! podId) as [p|] eqn:E; simpl; [|done].
  apply lookup_delete_eq.
Qed.

Lemma absent_after {A} (m : M Psm.PodState container_call W A) w r w' podId :
  steps m -> faults w = [] -> m w = (r, w') ->
  Pods (store w) !! podId = None -> Pods (store w') !! podId = None.
Proof.
  intros Hm Hw H. destruct (Hm w Hw) as [_ Hn]. rewrite H in Hn. by apply absent_from.
Qed.

Lemma steps_faults {A} (m : M Psm.PodState container_call W A) w r w' :
  steps m -> faults w = [] -> m w = (r, w') -> faults w' = [] /\ names_from (store w) (store w').
Proof. intros Hm Hw H. specialize (Hm w Hw). by rewrite H in Hm. Qed.

Lemma Remove_absent podId w r w' :
  faults w = [] -> Remove podId w = (Ok r, w') ->
  r = podId /\ Pods (store w') !! podId = None.
Proof.
  intros Hw H. unfold Remove in H.
  apply or_absent_run in H as [(p & w1 & H1 & H)|[(e & w1 & H1 & _ & H)|[(e & _ & _ & [=])|(e & _ & [=])]]];
    rewrite read_run in H1 by done.
  2: { injection H1 as H1 <-. injection H as <- <-. unfold Psm.GetPodById, lookup_pod in H1.
       by destruct (Pods (store w) !! podId). }
  injection H1 as _ <-.
  apply or_absent_run in H as [([] & w1 & H1 & H)|[(e & w1 & H1 & _ & H)|[(e & _ & _ & [=])|(e & _ & [=])]]].
  2: { rewrite txn_run in H1 by done. injection H as <- <-.
       unfold UpdatePodStoppedByUser, update_pod, update_entry in H1.
       destruct (Pods (store w) !! podId) eqn:E; [done|]. by injection H1 as _ <-. }
  apply steps_faults in H1 as [Hw1 _]; [|auto with go|done].
  apply or_absent_run in H as [(l & w2 & H1 & H)|[(e & w2 & H1 & _ & H)|[(e & _ & _ & [=])|(e & _ & [=])]]];
    pose proof (steps_faults _ _ _ _ (steps_GetContainersByPodId _) Hw1 H1) as [Hw2 _].
  2: { apply M_bind_run in H as [([] & w3 & H2 & H)|[(e' & _ & [=])|(e' & _ & [=])]].
       injection H as <- <-. split; [done|].
       pose proof (RemovePod_absent podId w2 Hw2) as Ha. unfold ignore in H2.
       destruct (txn (RemovePod podId) w2) as [[| |] w4]; by simplify_eq/=. }
  apply M_bind_run in H as [(infra & w3 & H2 & H)|[(e & _ & [=])|(e & _ & [=])]].
  apply steps_faults in H2 as [Hw3 _]; [|auto with go|done].
  apply M_bind_run in H as [(u & w4 & H2 & H)|[(e & _ & [=])|(e & _ & [=])]].
  apply steps_faults in H2 as [Hw4 _]; [|destruct infra; steps_tac|done].
  pose proof (RemovePod_absent podId w4 Hw4) as Ha.
  apply or_absent_run in H as [([] & w5 & H1' & H)|[(e & w5 & H1' & _ & H)|[(e & _ & _ & [=])|(e & _ & [=])]]];
    pose proof (steps_faults _ _ _ _ (steps_RemovePod _) Hw4 H1') as [Hw5 _];
    rewrite H1' in Ha; simpl in Ha; [|by injection H as <- <-].
  apply M_bind_run in H as [(u' & w6 & H2 & H)|[(e & _ & [=])|(e & _ & [=])]].
  injection H as <- <-. split; [done|].
  eapply absent_after; [apply (steps_remove_template (TemplateId p))|exact Hw5|exact H2|done].
Qed.

(** ** Creation *)

Lemma existing_pod_none uid p w w' :
  faults w = [] -> pods_ok (store w) -> existing_pod uid p w = (Ok None, w') ->
  forall k q, Pods (store w') !! k = Some q ->
    Name q = pc_Name p -> Namespace q = pc_Namespace p -> False.
Proof.
  intros Hw [Hk Hu] H k q Hq En Ens. unfold existing_pod, mbind, M_bind, attempt in H.
  rewrite read_run in H by done. unfold GetPodIdByName in H.
  destruct (range_find _ _) as [[k' q']|] eqn:E; cycle 1.
  { injection H as <-. rewrite range_find_None in E. specialize (E k q Hq).
    unfold named in E. by rewrite En, Ens, !String.eqb_refl in E. }
  apply range_find_Some in E as [Hq' Hn]. unfold named in Hn.
  apply andb_true_iff in Hn as [Hn1 Hn2].
  apply String.eqb_eq in Hn1. apply String.eqb_eq in Hn2.
  rewrite read_run in H by done.
  unfold Psm.GetPodById, lookup_pod in H. rewrite (Hk _ _ Hq'), Hq' in H.
  destruct (_ && _ && String.eqb _ _); [done|]. destruct (_ && _ && negb _); [|done].
  destruct (Remove k' w) as [[r|e|e] w1] eqn:Hr; [|done..]. injection H as <-.
  pose proof (steps_faults _ _ _ _ (steps_Remove k') Hw Hr) as [_ Hf].
  apply Remove_absent in Hr as [_ Ha]; [|done].
  pose proof Hq as Hq0. apply Hf in Hq0 as (q0 & Hq0 & _ & ? & ?).
  assert (k = k') as -> by (apply (Hu k k' q0 q'); congruence).
  congruence.
Qed.

(** Runs that keep the names unique. *)
Definition ok_step (st st' : Psm.PodState) : Prop := pods_ok st -> pods_ok st'.
#[local] Instance ok_step_preorder : PreOrder ok_step.
Proof. split; unfold ok_step; repeat intro; auto. Qed.
#[local] Notation keeps := (World.steps (C := container_call) (W := W) ok_step).

Lemma steps_keeps {A} (m : M Psm.PodState container_call W A) : steps m -> keeps m.
Proof.
  intros Hm w Hw. destruct (Hm w Hw) as [H1 H2]. split; [done|].
  intros Hok. by eapply pods_ok_from.
Qed.

Lemma StorePod_ok req t st :
  pods_ok st ->
  (forall k q, Pods st !! k = Some q -> Name q = req_Name req ->
     Namespace q = req_Namespace req -> False) ->
  pods_ok (set_Pods st (<[req_PodId req := new_pod req t]> (Pods st))).
Proof.
  intros [Hk Hu] Hno. split; [by apply keyed_insert|]. simpl.
  intros k1 k2 p1 p2 [[<- <-]|[? H1]]%lookup_insert_Some [[<- <-]|[? H2]]%lookup_insert_Some;
    simpl; intros E1 E2; [done|exfalso; eauto..|]. by apply (Hu k1 k2 p1 p2).
Qed.

Lemma steps_existing_pod uid p : steps (existing_pod uid p).
Proof. unfold existing_pod. steps_tac. Qed.

Lemma keeps_createWithTemplate templateId p : keeps (createWithTemplate templateId p).
Proof.
  intros w Hw. unfold createWithTemplate.
  destruct (String.eqb (pc_Name p) ""); [done|].
  destruct (String.eqb (pc_Namespace p) ""); [done|].
  set (m := if String.eqb (pc_UID p) "" then new_id else mret (pc_UID p)).
  assert (steps m) as Hm by (unfold m; destruct (String.eqb _ _); auto with go typeclass_instances).
  unfold mbind, M_bind. destruct (m w) as [[uid|e|e] w1] eqn:E1;
    apply steps_faults in E1 as [Hw1 Hn1]; try done;
    try (split; [done|intros ?; by eapply pods_ok_from]).
  destruct (existing_pod uid p w1) as [[[id|]|e|e] w2] eqn:E2;
    pose proof (steps_faults _ _ _ _ (steps_existing_pod _ _) Hw1 E2) as [Hw2 Hn2];
    try (split; [done|]; intros ?; eapply pods_ok_from; [|done]; by etrans).
  destruct (steps_new_id names_from (C := container_call) (W := W) w2 Hw2) as [Hw3 _].
  assert (store (new_id w2).2 = store w2) as E3
    by (unfold new_id; by destruct (ids w2)).
  destruct (new_id w2) as [[podId|e|e] w3] eqn:En;
    [|unfold new_id in En; by destruct (ids w2)..].
  simpl in Hw3, E3.
  assert (store (now w3).2 = store w3 /\ faults (now w3).2 = faults w3) as [E4 Hw4]
    by (unfold now; by destruct (times w3)).
  destruct (now w3) as [[t|e|e] w4] eqn:Et; [|unfold now in Et; by destruct (times w3)..].
  simpl in E4, Hw4. rewrite txn_run by congruence. simpl. split; [congruence|].
  intros Hok. rewrite E4, E3.
  apply (StorePod_ok (store_request podId templateId uid p)).
  - eapply pods_ok_from; [|done]. by etrans.
  - apply (existing_pod_none uid p w1 w2 Hw1); [by eapply pods_ok_from|done].
Qed.
#[local] Hint Resolve keeps_createWithTemplate : go.

Lemma keeps_CreateFromTemplate templateId name : keeps (CreateFromTemplate templateId name).
Proof.
  unfold CreateFromTemplate. apply (steps_bind ok_step); auto with go typeclass_instances.
Qed.
#[local] Hint Resolve keeps_CreateFromTemplate : go.

Ltac keeps_tac :=
  repeat first
    [ progress intros
    | solve [auto with go typeclass_instances]
    | solve [apply steps_keeps; auto with go typeclass_instances]
    | apply (steps_bind ok_step)
    | match goal with |- World.steps _ (if ?b then _ else _) => destruct b end
    | match goal with |- World.steps _ (match ?x with _ => _ end) => destruct x end ].

Lemma keeps_Create p : keeps (Create p).
Proof. unfold Create, resolveContainerNetworks. keeps_tac. Qed.

(** *** The controller *)

Lemma update_replicaSet_pods id f st st' u :
  update_replicaSet id f st = Ok (st', u) -> Pods st' = Pods st.
Proof.
  intros H. unfold update_replicaSet in H. by apply res_bind_ok in H as (m & _ & [= <- _]).
Qed.
Lemma update_deployment_pods id f st st' u :
  update_deployment id f st = Ok (st', u) -> Pods st' = Pods st.
Proof.
  intros H. unfold update_deployment in H. by apply res_bind_ok in H as (m & _ & [= <- _]).
Qed.

Lemma steps_same_pods (fn : Psm.PodState -> res (Psm.PodState * unit)) :
  (forall st st' u, fn st = Ok (st', u) -> Pods st' = Pods st) -> steps (txn fn).
Proof.
  intros Hfn. apply (steps_txn names_from). intros st st' u H.
  by apply same_pods_names, (Hfn _ _ u).
Qed.

Lemma steps_replicaSet id f : steps (txn (update_replicaSet id f)).
Proof. apply steps_same_pods. apply update_replicaSet_pods. Qed.
Lemma steps_deployment id f : steps (txn (update_deployment id f)).
Proof. apply steps_same_pods. apply update_deployment_pods. Qed.
Lemma steps_StoreReplicaSet id spec t : steps (txn (StoreReplicaSet id spec t)).
Proof.
  apply steps_same_pods. by intros st st' u [= <- _].
Qed.
Lemma steps_RemoveReplicaSet id : steps (txn (RemoveReplicaSet id)).
Proof.
  apply steps_same_pods. intros st st' u H. unfold RemoveReplicaSet in H.
  by apply res_bind_ok in H as (m & _ & [= <- _]).
Qed.
#[local] Hint Resolve steps_StoreReplicaSet steps_RemoveReplicaSet : go.
#[local] Hint Extern 1 (World.steps _ (txn (UpdateReplicaSetReplicas _ _))) =>
  apply steps_replicaSet : go.
#[local] Hint Extern 1 (World.steps _ (txn (UpdateReplicaSetReconcileStatus _ _ _ _))) =>
  apply steps_replicaSet : go.
#[local] Hint Extern 1 (World.steps _ (txn (ClearReplicaSetReconcileStatus _))) =>
  apply steps_replicaSet : go.
#[local] Hint Extern 1 (World.steps _ (txn (UpdateDeploymentReplicaSet _ _ _))) =>
  apply steps_deployment : go.

Lemma steps_deployment_loop m l : steps (deployment_loop m l).
Proof. induction l as [|d l IH]; simpl; steps_tac. Qed.
#[local] Hint Resolve steps_deployment_loop : go.
Lemma steps_reconcileDeployments : steps reconcileDeployments.
Proof. unfold reconcileDeployments. steps_tac. Qed.

Lemma steps_clean l : steps (clean_containers l).
Proof. induction l as [|c l IH]; simpl; steps_tac. Qed.
#[local] Hint Resolve steps_clean : go.
Lemma steps_deletePod p : steps (deletePod p).
Proof. unfold deletePod. steps_tac. Qed.
#[local] Hint Resolve steps_deletePod : go.
Lemma steps_record iv rs e : steps (recordReplicaSetReconcileError iv rs e).
Proof. unfold recordReplicaSetReconcileError. steps_tac. Qed.
Lemma steps_clear rs : steps (clearReplicaSetReconcileStatus rs).
Proof. unfold clearReplicaSetReconcileStatus. steps_tac. Qed.
Lemma steps_skip rs : steps (shouldSkipReplicaSet rs).
Proof. unfold shouldSkipReplicaSet. steps_tac. Qed.
Lemma steps_infra p : steps (getPodInfraState p).
Proof. unfold getPodInfraState. steps_tac. Qed.
#[local] Hint Resolve steps_record steps_clear steps_skip steps_infra
  steps_reconcileDeployments : go.
Lemma steps_down p : steps (isPodInfraDown p).
Proof. unfold isPodInfraDown. steps_tac. Qed.
Lemma steps_cleanup l a : steps (cleanup_loop l a).
Proof. revert a. induction l as [|p l IH]; intros a; simpl; steps_tac. Qed.
Lemma steps_scale_down n l : steps (scale_down n l).
Proof. revert l. induction n as [|n IH]; intros l; simpl; steps_tac. Qed.
#[local] Hint Resolve steps_down steps_cleanup steps_scale_down : go.

Lemma keeps_recreatePod p : keeps (recreatePod p).
Proof. unfold recreatePod, RecreateFromTemplate. keeps_tac. Qed.
#[local] Hint Resolve keeps_recreatePod : go.
Lemma keeps_scale_up n rs e : keeps (scale_up n rs e).
Proof. revert e. induction n as [|n IH]; intros e; simpl; keeps_tac. Qed.
#[local] Hint Resolve keeps_scale_up : go.
Lemma keeps_check_pods l e : keeps (check_pods l e).
Proof.
  revert e. induction l as [|p l IH]; intros e; simpl; [keeps_tac|].
  apply (steps_bind ok_step); [|done]. unfold check_pod, start_pod. keeps_tac.
Qed.
#[local] Hint Resolve keeps_check_pods : go.
Lemma keeps_scan_pods l a b : keeps (scan_pods l a b).
Proof. revert a b. induction l as [|p l IH]; intros a b; simpl; keeps_tac. Qed.
#[local] Hint Resolve keeps_scan_pods : go.

Lemma keeps_reconcileOnce iv : keeps (reconcileOnce iv).
Proof.
  assert (forall pods refs l, keeps (replicaSet_loop iv pods refs l)).
  { intros pods refs l. induction l as [|rs l IH]; simpl; [keeps_tac|].
    apply (steps_bind ok_step); [|done].
    unfold reconcile_replicaSet, cleanupStoppedManagedPods, scale. keeps_tac. }
  assert (forall pods l, keeps (template_loop pods l)).
  { intros pods l. induction l as [|t l IH]; simpl; [keeps_tac|].
    apply (steps_bind ok_step); [|done].
    unfold reconcile_template, RecreateFromTemplate. keeps_tac. }
  unfold reconcileOnce. keeps_tac.
Qed.

(** ** The operations that the API and the controller run *)

Inductive pod_op :=
  | op_Create (p : ServiceCreateModel)
  | op_CreateFromTemplate (templateId name : string)
  | op_Remove (podId : string)
  | op_Start (podId : string)
  | op_Stop (podId : string)
  | op_reconcileOnce.

Definition run_pod_op (interval : Z) (o : pod_op) (w : world) : world :=
  match o with
  | op_Create p => (Create p w).2
  | op_CreateFromTemplate templateId name => (CreateFromTemplate templateId name w).2
  | op_Remove podId => (Remove podId w).2
  | op_Start podId => (Start podId w).2
  | op_Stop podId => (Stop podId w).2
  | op_reconcileOnce => (reconcileOnce interval w).2
  end.

(** C15: while the tables can be read and written ([faults w = []]) and the container service
    adds no pods and renames none, after any sequence of creations, removals, starts,
    stops and controller rounds, successful or not, no two pods of a namespace have
    the same name and every pod is stored under its id.  (A name that cannot be looked
    up counts as free.) *)
Theorem pod_names_unique interval ops w :
  faults w = [] -> pods_ok (store w) ->
  pods_ok (store (foldl (fun w o => run_pod_op interval o w) w ops)).
Proof.
  revert w. induction ops as [|o ops IH]; intros w Hw Hok; [done|]. simpl.
  assert (keeps (fun w => (Ok tt, run_pod_op interval o w))) as Hk.
  { destruct o; unfold run_pod_op; intros w1 Hw1; simpl;
      [apply keeps_Create|apply keeps_CreateFromTemplate|apply (steps_keeps _ (steps_Remove _))
      |apply (steps_keeps _ (steps_Start _))|apply (steps_keeps _ (steps_Stop _))
      |apply keeps_reconcileOnce]; done. }
  destruct (Hk w Hw) as [Hw1 Hok1]. apply IH; [done|by apply Hok1].
Qed.

(** ** What the service asks of the containers *)

Lemma invoke_trace c w r w' : invoke c w = (r, w') -> trace w' = trace w ++ [c].
Proof.
  unfold invoke. destruct (callee c _) as [r0 [st i]]. by intros [= <- <-].
Qed.

Definition take_down (l : list ContainerState) : list container_call :=
  c ← l; [StopContainer (cs_ContainerId c); DeleteContainer (cs_ContainerId c)].
Definition members (l : list ContainerState) : list ContainerState :=
  filter (fun c => isPodInfraName (cs_Name c) = false) l.
Definition infra_of (l : list ContainerState) : option ContainerState :=
  last (filter (fun c => isPodInfraName (cs_Name c) = true) l).

Lemma take_down_run c w u w' :
  (_ ← stopContainerIgnoreStopped (cs_ContainerId c); delete_container (cs_ContainerId c)) w
    = (Ok u, w') ->
  trace w' = trace w ++ take_down [c].
Proof.
  intros H. apply M_bind_run in H as [([] & w1 & H1 & H)|[(e & _ & [=])|(e & _ & [=])]].
  unfold stopContainerIgnoreStopped, mbind, M_bind, attempt, mret, M_ret, fail in H1.
  destruct (invoke (StopContainer _) w) as [r1 w2] eqn:E1. apply invoke_trace in E1.
  assert (w1 = w2) as -> by (destruct r1; repeat case_match; by simplify_eq/=).
  unfold delete_container, or_absent, mbind, M_bind, attempt, mret, M_ret, fail in H.
  destruct (invoke (DeleteContainer _) w2) as [r3 w3] eqn:E3. apply invoke_trace in E3.
  assert (w' = w3) as -> by (destruct r3; repeat case_match; by simplify_eq/=).
  rewrite E3, E1, <- (assoc_L (++)). done.
Qed.

Lemma remove_members_run l o w infra w' :
  remove_members l o w = (Ok infra, w') ->
  trace w' = trace w ++ take_down (members l) /\
  infra = match infra_of l with Some c => Some c | None => o end.
Proof.
  unfold members, infra_of. revert o w. induction l as [|c l IH]; intros o w; simpl.
  - intros [= <- <-]. by rewrite app_nil_r.
  - rewrite !filter_cons. destruct (isPodInfraName (cs_Name c)) eqn:E; simpl; intros H.
    + apply IH in H as [Ht ->]. split; [done|]. rewrite last_cons.
      by destruct (last _).
    + apply M_bind_run in H as [([] & w1 & H1 & H)|[(e & _ & [=])|(e & _ & [=])]].
      apply M_bind_run in H as [([] & w2 & H2 & H)|[(e & _ & [=])|(e & _ & [=])]].
      assert ((_ ← stopContainerIgnoreStopped (cs_ContainerId c);
               delete_container (cs_ContainerId c)) w = (Ok tt, w2)) as Ht
        by (unfold mbind, M_bind; by rewrite H1).
      apply take_down_run in Ht. apply IH in H as [Ht' ->]. split; [|done].
      rewrite Ht', Ht, <- (assoc_L (++)). done.
Qed.

Lemma quiet_remove_template t :
  quiet (W := W) (C := container_call) (remove_template t).
Proof.
  unfold remove_template. destruct (String.eqb _ _); [auto with go|].
  apply quiet_bind; [auto with go|]. intros [[]| |]; auto with go.
Qed.

(** [Remove] of a pod that is there, once its containers are listed. *)
Lemma Remove_listed podId p l w r w' :
  (infra ← remove_members l None;
   _ ← match infra with
       | Some c => _ ← stopContainerIgnoreStopped (cs_ContainerId c);
                   delete_container (cs_ContainerId c)
       | None => mret tt
       end;
   or_absent (txn (RemovePod podId)) (mret podId) (fun _ =>
   _ ← remove_template (TemplateId p); mret podId)) w = (Ok r, w') ->
  trace w' = trace w ++ take_down (members l) ++
    match infra_of l with Some c => take_down [c] | None => [] end.
Proof.
  intros H. apply M_bind_run in H as [(infra & w3 & H3 & H)|[(e & _ & [=])|(e & _ & [=])]].
  apply remove_members_run in H3 as [Ht3 Hinf].
  assert (infra = infra_of l) as -> by (rewrite Hinf; by destruct (infra_of l)). clear Hinf.
  apply M_bind_run in H as [([] & w4 & H4 & H)|[(e & _ & [=])|(e & _ & [=])]].
  assert (trace w4 = trace w3 ++ match infra_of l with Some c => take_down [c] | None => [] end)
    as Ht4.
  { destruct (infra_of l) as [c|]; [by apply take_down_run in H4|].
    injection H4 as <-. by rewrite app_nil_r. }
  rewrite (assoc_L (++)), <- Ht3, <- Ht4.
  apply or_absent_run in H
    as [([] & w5 & H5 & H)|[(e & w5 & H5 & _ & H)|[(e & _ & _ & [=])|(e & _ & [=])]]];
    (apply quiet_run in H5 as [<- _]; [|auto with go]); [|by injection H as _ <-].
  apply M_bind_run in H as [(u & w6 & H6 & H)|[(e & _ & [=])|(e & _ & [=])]].
  apply quiet_run in H6 as [<- _]; [|apply quiet_remove_template]. by injection H as _ <-.
Qed.

(** A [Remove] that succeeds has taken the pod out of the table and nothing
    else into it; it stopped and deleted each member container in the order
    of the list, and the infra container, which holds the namespaces, last.  A
    pod that is not there makes no calls. *)
Theorem Remove_correct podId w r w' :
  faults w = [] -> Remove podId w = (Ok r, w') ->
  r = podId /\ Pods (store w') !! podId = None /\ names_from (store w) (store w') /\
  match Pods (store w) !! podId, containers_of podId (inner w) with
  | Some _, Ok l =>
      trace w' = trace w ++ take_down (members l) ++
        match infra_of l with Some c => take_down [c] | None => [] end
  | _, _ => trace w' = trace w
  end.
Proof.
  intros Hw H. destruct (Remove_absent _ _ _ _ Hw H) as [-> Ha].
  split; [done|]. split; [done|].
  split; [by apply (steps_faults _ _ _ _ (steps_Remove podId) Hw H)|].
  clear Ha. unfold Remove in H.
  apply or_absent_run in H
    as [(p & w1 & H1 & H)|[(e & w1 & H1 & _ & H)|[(e & _ & _ & [=])|(e & _ & [=])]]];
    rewrite read_run in H1 by done; injection H1 as Hp <-;
    unfold Psm.GetPodById, lookup_pod in Hp;
    destruct (Pods (store w) !! podId) as [p'|] eqn:Ep; try done;
    [|by injection H as <-].
  apply or_absent_run in H
    as [([] & w1 & H1 & H)|[(e & w1 & H1 & _ & H)|[(e & _ & _ & [=])|(e & _ & [=])]]].
  2: { exfalso. rewrite txn_run in H1 by done.
       unfold UpdatePodStoppedByUser, update_pod, update_entry in H1. by rewrite Ep in H1. }
  apply quiet_run in H1 as [<- Hi1]; [|auto with go].
  apply or_absent_run in H
    as [(l & w2 & H2 & H)|[(e & w2 & H2 & _ & H)|[(e & _ & _ & [=])|(e & _ & [=])]]];
    injection H2 as Hl <-; rewrite <- Hi1, Hl.
  - by apply Remove_listed in H.
  - apply M_bind_run in H as [([] & w3 & H2 & H)|[(e' & _ & [=])|(e' & _ & [=])]].
    injection H as <-. apply quiet_run in H2 as [<- _]; auto with go.
Qed.

(** ** Starting *)

Definition starts (infra : bool) (l : list ContainerState) : list container_call :=
  (fun c => StartContainer (cs_ContainerId c)) <$>
    filter (fun c => isPodInfraName (cs_Name c) = infra /\
                     cs_State c <> ContainerStateRunning) l.

Lemma start_pass_run infra l w w' :
  start_pass infra l w = (Ok tt, w') -> trace w' = trace w ++ starts infra l.
Proof.
  unfold starts. revert w. induction l as [|c l IH]; intros w; simpl.
  - intros [= <-]. by rewrite app_nil_r.
  - rewrite filter_cons.
    destruct (Bool.eqb (isPodInfraName (cs_Name c)) infra &&
              negb (String.eqb (cs_State c) ContainerStateRunning)) eqn:E.
    + apply andb_true_iff in E as [E1 E2]. apply Bool.eqb_prop in E1.
      apply negb_true_iff, String.eqb_neq in E2. rewrite decide_True by done.
      intros H. apply M_bind_run in H as [(u & w1 & H1 & H)|[(e & _ & [=])|(e & _ & [=])]].
      apply invoke_trace in H1. rewrite (IH _ H), H1, <- (assoc_L (++)). done.
    + rewrite decide_False; [apply IH|]. intros [<- Hs].
      by rewrite Bool.eqb_reflx, (proj2 (String.eqb_neq _ _) Hs) in E.
Qed.

Lemma create_members_run p g l w w' :
  create_members p g l w = (Ok tt, w') ->
  exists ms, trace w' = trace w ++ (CreateContainer <$> ms) /\
    Forall (fun m => cm_PodId m = PodId p /\
              buildPodMemberName (cm_Name m) (PodId p) ∉ g) ms.
Proof.
  revert w. induction l as [|c l IH]; intros w; simpl.
  - intros [= <-]. exists []. by rewrite app_nil_r.
  - destruct (String.eqb (ct_Name c) ""); [apply IH|].
    destruct (String.eqb (Image c) ""); [done|]. intros H.
    apply M_bind_run in H as [(net & w1 & H1 & H)|[(e & _ & [=])|(e & _ & [=])]].
    apply quiet_run in H1 as [Ht _]; [|destruct (String.eqb _ _); auto with go].
    destruct (decide _) as [Hin|Hin].
    { apply IH in H as (ms & H & Hms). exists ms. by rewrite H, Ht. }
    apply M_bind_run in H as [(u & w2 & H2 & H)|[(e & _ & [=])|(e & _ & [=])]].
    apply invoke_trace in H2. apply IH in H as (ms & H & Hms).
    exists (member_model p net c :: ms). rewrite H, H2, Ht, <- (assoc_L (++)).
    split; [done|]. by constructor.
Qed.

Lemma quiet_consistency p :
  quiet (W := W) (C := container_call) (ensurePodTemplateConsistency p).
Proof.
  assert (forall l, quiet (W := W) (C := container_call) (check_images l)) as Hci.
  { induction l as [|c l IH]; simpl; [auto with go|].
    destruct (String.eqb _ _); [done|]. destruct (String.eqb _ _); auto with go. }
  unfold ensurePodTemplateConsistency. destruct (String.eqb _ _); [auto with go|].
  apply quiet_bind; [auto with go|]. intros t. apply quiet_bind.
  - destruct (_ || _); [|auto with go]. apply quiet_bind; [auto with go|].
    intros b. destruct (negb b); auto with go.
  - intros _. repeat (case_match; auto with go).
Qed.

Lemma ensure_containers_run p w w' :
  ensurePodTemplateContainers p w = (Ok tt, w') ->
  exists ms, trace w' = trace w ++ (CreateContainer <$> ms) /\
    Forall (fun m => cm_PodId m = PodId p) ms.
Proof.
  unfold ensurePodTemplateContainers. intros H.
  assert (forall w0 : world, trace w0 = trace w -> exists ms,
    trace w0 = trace w ++ (CreateContainer <$> ms) /\
    Forall (fun m => cm_PodId m = PodId p) ms) as Hnone.
  { intros w0 H0. exists []. by rewrite app_nil_r. }
  destruct (String.eqb _ _); [injection H as <-; by apply Hnone|].
  apply M_bind_run in H as [(t & w1 & H1 & H)|[(e & _ & [=])|(e & _ & [=])]].
  apply quiet_run in H1 as [Ht _]; [|auto with go].
  destruct (pt_Containers (ti_Spec t)) as [|c l]; [injection H as <-; by apply Hnone|].
  apply M_bind_run in H as [(cs & w2 & H2 & H)|[(e & _ & [=])|(e & _ & [=])]].
  injection H2 as _ <-. apply create_members_run in H as (ms & H & Hms). exists ms.
  rewrite H, Ht. split; [done|]. eapply Forall_impl; [exact Hms|]. by intros m [? _].
Qed.

(** [UpdatePod] and then [UpdatePodStoppedByUser], without store faults. *)
Lemma mark_running podId t w w' :
  faults w = [] -> (_ ← txn (UpdatePod podId PodStateRunning t);
    _ ← ignore (txn (UpdatePodStoppedByUser podId false)); mret podId) w = (Ok podId, w') ->
  trace w' = trace w /\ exists q, Pods (store w') !! podId = Some q /\
    State q = PodStateRunning /\ StoppedByUser q = false.
Proof.
  intros Hw H. apply M_bind_run in H as [([] & w1 & H1 & H)|[(e & _ & [=])|(e & _ & [=])]].
  apply M_bind_run in H as [(u & w2 & H2 & H)|[(e & _ & [=])|(e & _ & [=])]].
  injection H as <-.
  pose proof (steps_faults _ _ _ _ (steps_UpdatePod _ _ _) Hw H1) as [Hw1 _].
  pose proof (quiet_run _ _ _ _ (quiet_txn _) H1) as [Ht1 _].
  pose proof (quiet_run _ _ _ _ (quiet_ignore _ (quiet_txn _)) H2) as [Ht2 _].
  split; [congruence|]. apply txn_ok in H1. unfold ignore in H2. rewrite txn_run in H2 by done.
  unfold UpdatePod, update_pod in H1.
  apply res_bind_ok in H1 as (m & (p & p' & Hp & Hp' & ->)%update_entry_ok & H1).
  injection H1 as H1. rewrite <- H1 in H2. simpl in H2.
  unfold UpdatePodStoppedByUser, update_pod, update_entry in H2. simpl in H2.
  rewrite lookup_insert_eq in H2. injection H2 as _ <-. simpl.
  rewrite lookup_insert_eq. injection Hp' as <-. by eexists.
Qed.

(** A [Start] that succeeds has first created the members of the template
    that were missing, then started the infra container if it was not
    running, and only then each member that was not running; the pod is then
    recorded as running and not stopped by the user. *)
Theorem Start_correct podId w r w' :
  faults w = [] -> Start podId w = (Ok r, w') ->
  r = podId /\ exists p created l w1,
    Pods (store w) !! podId = Some p /\
    trace w1 = trace w ++ (CreateContainer <$> created) /\
    Forall (fun m => cm_PodId m = PodId p) created /\
    containers_of podId (inner w1) = Ok l /\
    trace w' = trace w1 ++ starts true l ++ starts false l /\
    exists q, Pods (store w') !! podId = Some q /\
      State q = PodStateRunning /\ StoppedByUser q = false.
Proof.
  intros Hw H. unfold Start in H.
  apply M_bind_run in H as [(p & w1 & H1 & H)|[(e & _ & [=])|(e & _ & [=])]].
  rewrite read_run in H1 by done. injection H1 as Hp <-.
  unfold Psm.GetPodById, lookup_pod in Hp.
  destruct (Pods (store w) !! podId) as [p'|] eqn:Ep; [injection Hp as ->|done].
  apply M_bind_run in H as [([] & w1 & H1 & H)|[(e & _ & [=])|(e & _ & [=])]].
  pose proof (quiet_run _ _ _ _ (quiet_consistency p) H1) as [Ht1 _].
  pose proof (steps_faults _ _ _ _ (steps_consistency p) Hw H1) as [Hw1 _].
  apply M_bind_run in H as [([] & w2 & H2 & H)|[(e & _ & [=])|(e & _ & [=])]].
  pose proof (steps_faults _ _ _ _ (steps_ensure_containers p) Hw1 H2) as [Hw2 _].
  apply ensure_containers_run in H2 as (created & Ht2 & Hcr).
  apply M_bind_run in H as [(l & w3 & H3 & H)|[(e & _ & [=])|(e & _ & [=])]].
  injection H3 as Hl <-.
  apply M_bind_run in H as [([] & w4 & H4 & H)|[(e & _ & [=])|(e & _ & [=])]].
  pose proof (steps_faults _ _ _ _ (steps_start_pass _ _) Hw2 H4) as [Hw4 _].
  apply M_bind_run in H as [([] & w5 & H5 & H)|[(e & _ & [=])|(e & _ & [=])]].
  pose proof (steps_faults _ _ _ _ (steps_start_pass _ _) Hw4 H5) as [Hw5 _].
  apply start_pass_run in H4. apply start_pass_run in H5.
  apply M_bind_run in H as [(t & w6 & H6 & H)|[(e & _ & [=])|(e & _ & [=])]].
  pose proof (steps_faults _ _ _ _ (steps_now _) Hw5 H6) as [Hw6 _].
  apply quiet_run in H6 as [Ht6 _]; [|auto with go].
  assert (r = podId) as ->.
  { apply M_bind_run in H as [(? & ? & _ & H)|[(e & _ & [=])|(e & _ & [=])]].
    apply M_bind_run in H as [(? & ? & _ & H)|[(e & _ & [=])|(e & _ & [=])]].
    by injection H. }
  apply mark_running in H as [Ht Hq]; [|done]. split; [done|].
  exists p, created, l, w2. rewrite Ht2, Ht1. split_and!; try done.
  rewrite Ht, Ht6, H5, H4, Ht2, Ht1, <- !(assoc_L (++)). done.
Qed.
End service.

(** ** A concrete container service

    It keeps the containers by id and makes the infra container of a pod with
    its first member. *)
Module Demo.
Definition containers := gmap string ContainerState.

Definition container (id name podId state : string) : ContainerState :=
  {| cs_ContainerId := id; cs_Name := name; cs_PodId := podId; cs_State := state;
     cs_Pid := 0; cs_Repository := ""; cs_Reference := ""; cs_Command := [];
     cs_Address := ""; cs_Forwards := []; cs_CreatingAt := 0; cs_CreatedAt := 0;
     cs_StartedAt := 0; cs_StoppedAt := 0 |}.
Definition set_state (id state : string) (i : containers) : containers :=
  match i !! id with
  | Some c => <[id := container id (cs_Name c) (cs_PodId c) state]> i
  | None => i
  end.

Definition demo_call (c : container_call) (i : containers) : res string * containers :=
  match c with
  | CreateContainer m =>
      let id := buildPodMemberName (cm_Name m) (cm_PodId m) in
      let infra := PodInfraContainerNamePrefix +:+ cm_PodId m in
      let i := match i !! infra with
               | Some _ => i
               | None => <[infra := container infra infra (cm_PodId m) "created"]> i
               end in
      (Ok id, <[id := container id id (cm_PodId m) "created"]> i)
  | StartContainer id => (Ok id, set_state id "running" i)
  | StopContainer id => (Ok id, set_state id "stopped" i)
  | DeleteContainer id => (Ok id, delete id i)
  end.

#[export] Instance demo_peers : PodPeers containers := {|
  pod_callees := fun c sti => let '(r, i) := demo_call c sti.2 in (r, (sti.1, i));
  containers_of := fun podId i =>
    Ok (filter (fun c => cs_PodId c = podId) (map_to_list i).*2);
  resolve_network := fun _ _ => Ok "raind0"
|}.

#[export] Instance demo_law : PodCalleesLaw containers.
Proof.
  intros c st i. unfold callee, pod_callees, demo_peers. simpl.
  destruct (demo_call c i). reflexivity.
Qed.

Definition nginx : ContainerTemplateSpec :=
  {| ct_Name := "nginx"; Image := "nginx"; ct_Command := []; Port := []; Mount := [];
     Env := []; CapAdd := []; CapDrop := []; ct_SecurityProfile := ""; Network := "";
     ct_Tty := false |}.
Definition web : ServiceCreateModel :=
  {| pc_Name := "web"; pc_Namespace := "demo"; pc_UID := ""; pc_NetworkNS := "";
     pc_IPCNS := ""; pc_UTSNS := ""; pc_UserNS := ""; pc_Rootless := false;
     pc_Labels := ∅; pc_Annotations := ∅; pc_Containers := [nginx] |}.

Definition world0 : world Psm.PodState container_call containers :=
  {| store := init; faults := []; times := [];
     ids := (fun n => "id" +:+ pretty.pretty n) <$> seq 1 40; trace := []; inner := ∅ |}.

(** The pod of [Create web]: the template is [id1], the UID [id2]. *)
Definition created := (Create web world0).2.
Definition started := (Start "id3" created).2.
Definition removed := (Remove "id3" started).2.

Lemma init_ok : pods_ok init.
Proof.
  split; [exact (keyed_empty PodId)|]. intros k1 k2 p1 p2 H.
  unfold init in H. cbn [Pods] in H. by rewrite lookup_empty in H.
Qed.

Example pod_names_unique_witness :
  let ops := [op_Create web; op_Start "id3"; op_Create web; op_reconcileOnce;
              op_Remove "id3"] in
  let w := foldl (fun w o => run_pod_op (5 * Second) o w) world0 ops in
  length (trace w) = 7%nat /\ pods_ok (store w).
Proof.
  split; [vm_compute; reflexivity|].
  apply (pod_names_unique (5 * Second)); [reflexivity|exact init_ok].
Defined.

Example Remove_correct_witness :
  Pods (store started) !! "id3" <> None /\ Pods (store removed) !! "id3" = None /\
  exists calls, trace removed = trace started ++ calls /\
    last calls = Some (DeleteContainer "condenser-pod-infra-id3").
Proof.
  assert (Remove "id3" started = (Ok "id3", removed)) as H
    by (unfold removed; assert ((Remove "id3" started).1 = Ok "id3") as <-
          by (vm_compute; reflexivity); apply surjective_pairing).
  split; [vm_compute; discriminate|].
  destruct (Remove_correct "id3" started "id3" removed eq_refl H) as (_ & Hn & _ & Ht).
  split; [exact Hn|].
  assert (exists p, Pods (store started) !! "id3" = Some p) as [p Hp]
    by (eexists; vm_compute; reflexivity).
  rewrite Hp in Ht. simpl in Ht. eexists. split; [exact Ht|].
  vm_compute. reflexivity.
Defined.

Example Start_correct_witness :
  trace started = [CreateContainer (member_model (new_pod (store_request "id3" "id1" "id2" web) 0)
                     "raind0" nginx);
                   StartContainer "condenser-pod-infra-id3"; StartContainer "nginx-id3"] /\
  exists q, Pods (store started) !! "id3" = Some q /\ State q = PodStateRunning /\
    StoppedByUser q = false.
Proof.
  split; [vm_compute; reflexivity|].
  assert (Start "id3" created = (Ok "id3", started)) as H
    by (unfold started; assert ((Start "id3" created).1 = Ok "id3") as <-
          by (vm_compute; reflexivity); apply surjective_pairing).
  destruct (Start_correct "id3" created "id3" started eq_refl H)
    as (_ & p & cr & l & w1 & _ & _ & _ & _ & _ & Hq).
  exact Hq.
Defined.
End Demo.

(** * Correctness of the pod controller ([core/pod/controller.go])

    The back-off of a replica set that fails, the state the controller leaves
    alone, the convergence of deployments, and what scaling down does. *)

Section controller.
Context {RO : RangeOrder} {W : Type} {S : PodPeers W}.
#[local] Notation world := (world Psm.PodState container_call W).
Implicit Types w : world.

(** ** Back-off *)

Lemma to_int64_small z : 0 <= z < 2 ^ 63 -> to_int64 z = z.
Proof. intros H. unfold to_int64. rewrite Z.mod_small; lia. Qed.

Lemma backoff_value interval n :
  0 < interval <= Minute -> 0 <= n ->
  backoff interval (n + 1) = Ok (Z.min Minute (2 ^ Z.min n 6 * interval)).
Proof.
  intros Hi Hn. unfold backoff. replace (n + 1 - 1) with n by lia.
  assert (0 <= Z.min n 6 <= 6) as Hs by lia. set (s := Z.min n 6) in *.
  destruct (Z.ltb_spec s 0); [lia|].
  rewrite Z.shiftl_mul_pow2, Z.mul_1_l by lia.
  assert (1 <= 2 ^ s <= 64) as Hp.
  { split; [pose proof (Z.pow_pos_nonneg 2 s); lia|].
    change 64 with (2 ^ 6). apply Z.pow_le_mono_r; lia. }
  unfold Minute, Second in *. rewrite to_int64_small by nia.
  destruct (Z.leb_spec (2 ^ s * interval) 0); [nia|].
  destruct (Z.ltb_spec (60 * 1000000000) (2 ^ s * interval)); f_equal; lia.
Qed.

(** After its [n+1]-th failure in a row a replica set is left alone for
    [interval * 2^min(n,6)], at most a minute; the failure is recorded with
    its text and the specification stays.  With the interval of 5 seconds
    the delays are 5, 10, 20, 40 seconds and then a minute. *)
Theorem reconcile_backoff interval rs rs0 e w t ts :
  0 < interval <= Minute -> 0 <= ReconcileAttempt rs ->
  faults w = [] -> times w = t :: ts ->
  ReplicaSets (store w) !! ReplicaSetId rs = Some rs0 ->
  let delay := Z.min Minute (2 ^ Z.min (ReconcileAttempt rs) 6 * interval) in
  0 < delay <= Minute /\
  exists rs' w', recordReplicaSetReconcileError interval rs e w = (Ok tt, w') /\
    trace w' = trace w /\
    ReplicaSets (store w') = <[ReplicaSetId rs := rs']> (ReplicaSets (store w)) /\
    Pods (store w') = Pods (store w) /\
    ri_Spec rs' = ri_Spec rs0 /\ ReconcileAttempt rs' = ReconcileAttempt rs + 1 /\
    LastReconcileError rs' = e /\
    forall w1 t1 ts1, times w1 = t1 :: ts1 -> t + delay <> zero_time ->
      (shouldSkipReplicaSet (W := W) rs' w1).1 = Ok (t1 <? t + delay).
Proof.
  intros Hi Hn Hw Ht Hrs delay. split.
  { unfold delay, Minute, Second in *.
    assert (1 <= 2 ^ Z.min (ReconcileAttempt rs) 6) by
      (pose proof (Z.pow_pos_nonneg 2 (Z.min (ReconcileAttempt rs) 6)); lia). nia. }
  unfold recordReplicaSetReconcileError. rewrite backoff_value by done. fold delay.
  unfold mbind, M_bind, now. rewrite Ht. unfold ignore.
  rewrite txn_run by done. simpl.
  unfold UpdateReplicaSetReconcileStatus, update_replicaSet, update_entry. rewrite Hrs.
  simpl. eexists _, _. split; [reflexivity|]. simpl. split_and!; try done.
  intros w1 t1 ts1 H1 Hz. unfold shouldSkipReplicaSet. simpl.
  destruct (Z.eqb_spec (t + delay) zero_time); [done|].
  unfold mbind, M_bind, now. by rewrite H1.
Qed.

(** ** The state of the infra container *)

Lemma count_infra_spec l a b :
  count_infra l a b =
    (a + Z.of_nat (length (filter (fun c => isPodInfraName (cs_Name c) = true /\
             cs_State c = ContainerStateRunning) l)),
     b + Z.of_nat (length (filter (fun c => isPodInfraName (cs_Name c) = true /\
             cs_State c <> ContainerStateRunning) l))).
Proof.
  revert a b. induction l as [|c l IH]; intros a b; simpl; [f_equal; lia|].
  rewrite !filter_cons.
  destruct (isPodInfraName (cs_Name c)) eqn:E;
    [destruct (String.eqb_spec (cs_State c) ContainerStateRunning) as [Es|Es]|].
  - rewrite decide_True, decide_False, IH by (tauto || by intros []). simpl. f_equal; lia.
  - rewrite decide_False, decide_True, IH by (tauto || by intros []). simpl. f_equal; lia.
  - rewrite !decide_False, IH by (by intros []). done.
Qed.

(** ** The steady state *)

(** A pod the controller has nothing to do for. *)
Definition healthy (i : W) (p : PodInfo) : Prop :=
  StoppedByUser p = false /\ State p = PodStateRunning /\
  exists l, containers_of (PodId p) i = Ok l /\ infra_state l = ContainerStateRunning.

Definition quiet_replicaSet (i : W) (st : Psm.PodState) (rs : ReplicaSetInfo) : Prop :=
  NextReconcileAt rs = zero_time /\ ReconcileAttempt rs = 0 /\ LastReconcileError rs = "" /\
  let pods := filterReplicaSetPods rs (range_values (Pods st))
                (replicaSetTemplateRefs (range_values (ReplicaSets st))) in
  Z.of_nat (length pods) = Replicas (ri_Spec rs) /\ Forall (healthy i) pods.

Definition template_ok (i : W) (st : Psm.PodState) (t : PodTemplateInfo) : Prop :=
  IsTemplateReferenced (ti_TemplateId t) st = Ok true \/
  IsTemplateReferenced (ti_TemplateId t) st = Ok false /\
  exists k p, Pods st !! k = Some p /\ TemplateId p = ti_TemplateId t /\
    TemplateId p <> "" /\
    forall k q, Pods st !! k = Some q -> TemplateId q = ti_TemplateId t -> healthy i q.

Definition steady (i : W) (st : Psm.PodState) : Prop :=
  (forall k d, Deployments st !! k = Some d ->
     d_ReplicaSetId (di_Spec d) <> "" /\
     exists rs, by_id (range_values (ReplicaSets st)) !! d_ReplicaSetId (di_Spec d) = Some rs /\
       Replicas (ri_Spec rs) = d_Replicas (di_Spec d)) /\
  (forall k rs, ReplicaSets st !! k = Some rs -> quiet_replicaSet i st rs) /\
  (forall k t, PodTemplates st !! k = Some t -> template_ok i st t).

Lemma deployment_loop_steady m l w :
  Forall (fun d => d_ReplicaSetId (di_Spec d) <> "" /\
    exists rs, m !! d_ReplicaSetId (di_Spec d) = Some rs /\
      Replicas (ri_Spec rs) = d_Replicas (di_Spec d)) l ->
  deployment_loop m l w = (Ok tt, w).
Proof.
  induction 1 as [|d l (Hd & rs & Hrs & Hr) _ IH]; simpl; [done|].
  rewrite (proj2 (String.eqb_neq _ _) Hd), Hrs, Hr, Z.eqb_refl. simpl.
  unfold mbind, M_bind. simpl. exact IH.
Qed.

Lemma cleanup_healthy i pods active w :
  Forall (healthy i) pods -> cleanup_loop pods active w = (Ok (active ++ pods, None), w).
Proof.
  intros H. revert active. induction H as [|p pods (Hp & _) _ IH]; intros active; simpl.
  - by rewrite app_nil_r.
  - rewrite Hp. simpl. rewrite IH, <- (assoc_L (++)). done.
Qed.

Lemma check_pods_healthy pods w :
  Forall (healthy (inner w)) pods -> check_pods pods None w = (Ok None, w).
Proof.
  induction 1 as [|p pods (Hp & Hs & l & Hl & Hi) _ IH]; simpl; [done|].
  unfold check_pod. rewrite Hp. unfold mbind, M_bind, attempt, getPodInfraState, mbind, M_bind,
    GetContainersByPodId, observe. rewrite Hl. simpl. rewrite Hi. simpl.
  rewrite Hs. simpl. exact IH.
Qed.

Lemma replicaSet_steady interval st pods refs rs w :
  st = store w -> pods = range_values (Pods st) ->
  refs = replicaSetTemplateRefs (range_values (ReplicaSets st)) ->
  quiet_replicaSet (inner w) st rs ->
  reconcile_replicaSet interval pods refs rs w = (Ok tt, w).
Proof.
  intros -> -> -> (Hz & Ha & He & Hlen & Hp). unfold reconcile_replicaSet.
  unfold mbind at 1, M_bind at 1, shouldSkipReplicaSet. rewrite Hz. simpl.
  unfold cleanupStoppedManagedPods, mbind at 1, M_bind at 1.
  rewrite (cleanup_healthy _ _ _ _ Hp). simpl.
  unfold mbind at 1, M_bind at 1, scale. rewrite Hlen, Z.ltb_irrefl. simpl.
  unfold mbind at 1, M_bind at 1. rewrite check_pods_healthy by done.
  unfold clearReplicaSetReconcileStatus. by rewrite Hz, Ha, He.
Qed.

Lemma scan_healthy l w :
  l <> [] -> Forall (healthy (inner w)) l -> scan_pods l "" "" w = (Ok (true, "", ""), w).
Proof.
  destruct l as [|p l]; [done|]. intros _ [(Hp & Hs & c & Hc & Hi) _]%Forall_cons.
  simpl. rewrite Hs, Hp. simpl. unfold mbind, M_bind, attempt, isPodInfraDown, mbind, M_bind,
    getPodInfraState, mbind, M_bind, GetContainersByPodId, observe. rewrite Hc. simpl.
  rewrite Hi. done.
Qed.

Lemma template_steady t w :
  faults w = [] -> template_ok (inner w) (store w) t ->
  reconcile_template (range_values (Pods (store w))) t w = (Ok tt, w).
Proof.
  intros Hw Ht. unfold reconcile_template.
  assert (exists b, attempt (C := container_call) (W := W)
    (read (IsTemplateReferenced (ti_TemplateId t))) w = (Ok (Ok b), w) /\
    (b = false -> exists k p, Pods (store w) !! k = Some p /\ TemplateId p = ti_TemplateId t /\
      TemplateId p <> "" /\ forall k q, Pods (store w) !! k = Some q ->
        TemplateId q = ti_TemplateId t -> healthy (inner w) q)) as (b & Hb & Hp).
  { destruct Ht as [Ht|[Ht Hp]]; [exists true|exists false]; unfold attempt;
      rewrite read_run, Ht by done; by split. }
  rewrite (M_bind_eq _ _ _ _ _ Hb). destruct b; [done|].
  destruct (Hp eq_refl) as (k & p & Hk & Et & Hne & Hall).
  set (l := List.filter _ _).
  assert (forall q, q ∈ l -> healthy (inner w) q) as Hl.
  { intros q Hq. apply list_elem_of_In, filter_In in Hq as [Hq Hf].
    apply list_elem_of_In, elem_of_range_values in Hq as [k' Hq].
    apply andb_true_iff in Hf as [_ Hf]. apply String.eqb_eq in Hf. by eapply Hall. }
  assert (p ∈ l) as Hpl.
  { apply list_elem_of_In, filter_In. split.
    - apply list_elem_of_In, elem_of_range_values. by eexists.
    - by rewrite (proj2 (String.eqb_neq _ _) Hne), Et, String.eqb_refl. }
  destruct l as [|q l'] eqn:E; [by apply not_elem_of_nil in Hpl|].
  rewrite (M_bind_eq _ _ _ _ _ (scan_healthy (q :: l') w ltac:(done) ltac:(by apply Forall_forall))).
  done.
Qed.

Lemma replicaSet_loop_steady interval pods refs l w :
  Forall (fun rs => reconcile_replicaSet interval pods refs rs w = (Ok tt, w)) l ->
  replicaSet_loop interval pods refs l w = (Ok tt, w).
Proof.
  induction 1 as [|rs l' H _ IH]; simpl; [done|]. by rewrite (M_bind_eq _ _ _ _ _ H).
Qed.
Lemma template_loop_steady pods l w :
  Forall (fun t => reconcile_template pods t w = (Ok tt, w)) l ->
  template_loop pods l w = (Ok tt, w).
Proof.
  induction 1 as [|t l' H _ IH]; simpl; [done|]. by rewrite (M_bind_eq _ _ _ _ _ H).
Qed.

(** C17: in a state where every deployment has its replica set with the same
    number of replicas, every replica set has that many pods and every pod
    runs with its infra container, a round of the controller does nothing: no
    call, no change of the tables. *)
Theorem reconcileOnce_steady interval w :
  faults w = [] -> steady (inner w) (store w) ->
  reconcileOnce interval w = (Ok tt, w).
Proof.
  intros Hw (Hd & Hrs & Ht). unfold reconcileOnce.
  rewrite (M_bind_eq _ _ _ tt w); cycle 1.
  { unfold reconcileDeployments. erewrite M_bind_eq by by rewrite read_run.
    destruct (range_values (Deployments (store w))) as [|d0 l0] eqn:E; [done|].
    erewrite M_bind_eq by by rewrite read_run.
    apply deployment_loop_steady. rewrite <- E. apply Forall_forall.
    intros d' Hd'%elem_of_range_values. destruct Hd' as [k Hk]. by eapply Hd. }
  do 2 (erewrite M_bind_eq by by rewrite read_run).
  destruct (_ && _); [done|].
  erewrite M_bind_eq by by rewrite read_run.
  rewrite (M_bind_eq _ _ _ tt w); cycle 1.
  { apply replicaSet_loop_steady, Forall_forall. intros rs [k Hk]%elem_of_range_values.
    eapply replicaSet_steady; [done..|]. by eapply Hrs. }
  apply template_loop_steady, Forall_forall. intros t [k Hk]%elem_of_range_values.
  apply template_steady; [done|]. by eapply Ht.
Qed.

(** ** Deployments *)

Definition link (d : DeploymentInfo) : string := d_ReplicaSetId (di_Spec d).

Definition synced (st : Psm.PodState) (d : DeploymentInfo) : Prop :=
  exists rs, ReplicaSets st !! link d = Some rs /\
    Replicas (ri_Spec rs) = d_Replicas (di_Spec d).

(** The tables before a round, with the identifiers to come: no replica set
    serves two deployments, and the identifiers are new. *)
Record sys_ok (st : Psm.PodState) (ids : list string) : Prop := {
  sys_deployments : keyed DeploymentId (Deployments st);
  sys_replicaSets : keyed ReplicaSetId (ReplicaSets st);
  sys_links : forall k1 k2 d1 d2, Deployments st !! k1 = Some d1 ->
    Deployments st !! k2 = Some d2 -> link d1 = link d2 -> link d1 <> "" -> k1 = k2;
  sys_replicas : forall k d, Deployments st !! k = Some d -> 0 <= d_Replicas (di_Spec d);
  sys_NoDup : NoDup ids;
  sys_fresh : forall i, i ∈ ids -> i <> "" /\ ReplicaSets st !! i = None /\
    forall k d, Deployments st !! k = Some d -> link d <> i
}.

(** What one turn of the loop does to the deployment [d]. *)
Definition settled (m : gmap string ReplicaSetInfo) (d : DeploymentInfo) (st : Psm.PodState)
    : Prop :=
  exists d', Deployments st !! DeploymentId d = Some d' /\
    d_Replicas (di_Spec d') = d_Replicas (di_Spec d) /\
    if decide (link d <> "" /\ m !! link d = None) then link d' = ""
    else link d' <> "" /\ synced st d'.

Definition relinked (d : DeploymentInfo) (id : string) (t : Z) : DeploymentInfo :=
  {| DeploymentId := DeploymentId d;
     di_Spec := {| d_Name := d_Name (di_Spec d); d_Namespace := d_Namespace (di_Spec d);
                   d_Replicas := d_Replicas (di_Spec d);
                   d_TemplateId := d_TemplateId (di_Spec d);
                   d_Selector := d_Selector (di_Spec d); d_ReplicaSetId := id |};
     di_CreatedAt := di_CreatedAt d; UpdatedAt := t |}.

Lemma UpdateDeploymentReplicaSet_run id rid t st d :
  Deployments st !! id = Some d ->
  UpdateDeploymentReplicaSet id rid t st =
    Ok (set_Deployments st (<[id := relinked d rid t]> (Deployments st)), tt).
Proof.
  intros H. unfold UpdateDeploymentReplicaSet, update_deployment, update_entry.
  by rewrite H.
Qed.

(** Setting the link of [d] to a new identifier or to nothing. *)
Lemma relink_ok st ids d rid t :
  sys_ok st ids -> Deployments st !! DeploymentId d = Some d ->
  (rid = "" \/ forall k d', Deployments st !! k = Some d' -> link d' <> rid) ->
  (forall i, i ∈ ids -> i <> rid) ->
  sys_ok (set_Deployments st (<[DeploymentId d := relinked d rid t]> (Deployments st))) ids.
Proof.
  intros [Hd Hr Hl Hn Hnd Hf] Hdd Hrid Hids. split; simpl; try done.
  - by apply keyed_insert.
  - intros k1 k2 d1 d2 [[<- <-]|[? H1]]%lookup_insert_Some [[<- <-]|[? H2]]%lookup_insert_Some;
      try done; unfold link in *; simpl; [..|by eapply Hl].
    + intros E Hne. destruct Hrid as [->|Hrid]; [done|]. by destruct (Hrid _ _ H2).
    + intros E Hne. destruct Hrid as [->|Hrid]; [congruence|]. by destruct (Hrid _ _ H1).
  - intros k d' [[<- <-]|[? H1]]%lookup_insert_Some; [|by eapply Hn].
    apply (Hn _ _ Hdd).
  - intros i Hi. destruct (Hf i Hi) as (? & ? & Hk). split_and!; [done..|].
    intros k d' [[<- <-]|[? H1]]%lookup_insert_Some; [|by eapply Hk].
    unfold link. simpl. intros <-. by apply (Hids _ Hi).
Qed.

Lemma store_replicaSet_ok st i ids rs :
  sys_ok st (i :: ids) -> ReplicaSetId rs = i ->
  sys_ok (set_ReplicaSets st (<[i := rs]> (ReplicaSets st))) ids.
Proof.
  intros [Hd Hr Hl Hn Hnd Hf] <-. apply NoDup_cons in Hnd as [Hni Hnd].
  split; simpl; try done; [by apply keyed_insert|].
  intros j Hj. destruct (Hf j ltac:(by right)) as (? & ? & ?). split_and!; try done.
  rewrite lookup_insert_ne; [done|]. by intros <-.
Qed.

Lemma update_replicas_ok st ids k rs n :
  sys_ok st ids -> ReplicaSets st !! k = Some rs -> 0 <= n ->
  exists rs', UpdateReplicaSetReplicas k n st =
      Ok (set_ReplicaSets st (<[k := rs']> (ReplicaSets st)), tt) /\
    Replicas (ri_Spec rs') = n /\
    sys_ok (set_ReplicaSets st (<[k := rs']> (ReplicaSets st))) ids.
Proof.
  intros [Hd Hr Hl Hn Hnd Hf] Hk H0.
  unfold UpdateReplicaSetReplicas, update_replicaSet, update_entry. rewrite Hk.
  destruct (Z.ltb_spec n 0); [lia|]. eexists. split; [reflexivity|]. split; [done|].
  split; simpl; try done.
  - apply keyed_insert; [done|]. simpl. by apply Hr.
  - intros i Hi. destruct (Hf i Hi) as (? & ? & ?). split_and!; try done.
    rewrite lookup_insert_ne; [done|]. intros <-. congruence.
Qed.

(** One turn of the loop: the deployment settled, the others and their replica
    sets as they were. *)
Definition turn (m : gmap string ReplicaSetInfo) (d : DeploymentInfo) (w w1 : world) : Prop :=
  faults w1 = [] /\ sys_ok (store w1) (ids w1) /\ (length (ids w) <= Datatypes.S (length (ids w1)))%nat /\
  settled m d (store w1) /\
  (forall k, k <> DeploymentId d -> Deployments (store w1) !! k = Deployments (store w) !! k) /\
  (forall k, k <> link d -> is_Some (ReplicaSets (store w) !! k) ->
     ReplicaSets (store w1) !! k = ReplicaSets (store w) !! k).

(** [time.Now] changes nothing but the time. *)
Lemma now_run w : exists t w1, now w = (Ok t, w1) /\ store w1 = store w /\
  faults w1 = faults w /\ ids w1 = ids w.
Proof. unfold now. destruct (times w) as [|t ts]; by eexists _, _. Qed.

Lemma turn_new m d l w :
  faults w = [] -> sys_ok (store w) (ids w) -> ids w <> [] ->
  Deployments (store w) !! DeploymentId d = Some d -> link d = "" ->
  exists w1, deployment_loop m (d :: l) w = deployment_loop m l w1 /\ turn m d w w1.
Proof.
  intros Hw Hok Hids Hd El. simpl. unfold link in El. rewrite El. simpl.
  destruct (ids w) as [|i is'] eqn:Ei; [done|].
  erewrite (M_bind_eq new_id) by (unfold new_id; rewrite Ei; reflexivity).
  match goal with |- context [(now ≫= _) ?w0] =>
    destruct (now_run w0) as (t & w1 & H1 & Hs1 & Hf1 & Hi1) end.
  rewrite (M_bind_eq _ _ _ _ _ H1). simpl in Hs1, Hf1, Hi1. rewrite Hw in Hf1.
  erewrite M_bind_eq by (rewrite txn_run by done; reflexivity).
  match goal with |- context [(now ≫= _) ?w0] =>
    destruct (now_run w0) as (t2 & w2 & H2 & Hs2 & Hf2 & Hi2) end.
  rewrite (M_bind_eq _ _ _ _ _ H2). simpl in Hs2, Hf2, Hi2. rewrite Hs1 in Hs2.
  pose proof (sys_fresh _ _ Hok i ltac:(by left)) as (Hne & Hnew & Hlinks).
  pose proof (sys_NoDup _ _ Hok) as [Hni _]%NoDup_cons.
  set (rs := {| ReplicaSetId := i; ri_Spec := _ |}) in Hs2.
  pose proof (store_replicaSet_ok _ _ _ rs Hok eq_refl) as Hok1.
  erewrite (M_bind_eq (attempt _)); cycle 1.
  { unfold attempt. rewrite txn_run by congruence. rewrite Hs2.
    rewrite (UpdateDeploymentReplicaSet_run _ _ _ _ d) by done. reflexivity. }
  eexists. split; [reflexivity|]. unfold turn. simpl. rewrite Hi2, Hi1.
  split; [congruence|]. split.
  { refine (relink_ok _ _ d i t2 Hok1 Hd (or_intror Hlinks) _). by intros j Hj ->. }
  split; [rewrite Ei; simpl; lia|]. split; [|split].
  - exists (relinked d i t2). simpl. rewrite lookup_insert_eq. split; [done|]. split; [done|].
    rewrite decide_False by (unfold link; rewrite El; by intros [? _]).
    split; [done|]. exists rs. unfold link. simpl. by rewrite lookup_insert_eq.
  - intros k Hk. by rewrite lookup_insert_ne.
  - intros k _ [x Hx]. rewrite lookup_insert_ne; [done|]. intros <-. congruence.
Qed.

Lemma turn_dangling m d l w :
  faults w = [] -> sys_ok (store w) (ids w) ->
  Deployments (store w) !! DeploymentId d = Some d -> link d <> "" -> m !! link d = None ->
  exists w1, deployment_loop m (d :: l) w = deployment_loop m l w1 /\ turn m d w w1.
Proof.
  intros Hw Hok Hd El Hm. simpl. rewrite (proj2 (String.eqb_neq (d_ReplicaSetId (di_Spec d)) "") El).
  unfold link in Hm. rewrite Hm.
  destruct (now_run w) as (t & w1 & H1 & Hs1 & Hf1 & Hi1).
  rewrite (M_bind_eq _ _ _ _ _ H1).
  erewrite M_bind_eq; cycle 1.
  { rewrite txn_run by congruence. rewrite Hs1.
    rewrite (UpdateDeploymentReplicaSet_run _ _ _ _ d) by done. reflexivity. }
  eexists. split; [reflexivity|]. unfold turn. simpl. rewrite Hi1.
  split; [congruence|]. split.
  { apply (relink_ok _ _ d); [done|done|by left|]. intros j Hj ->.
    by destruct (sys_fresh _ _ Hok _ Hj). }
  split; [lia|]. split; [|split].
  - exists (relinked d "" t). simpl. rewrite lookup_insert_eq. split; [done|]. split; [done|].
    by rewrite decide_True.
  - intros k Hk. by rewrite lookup_insert_ne.
  - done.
Qed.

Lemma turn_linked m d l w rs :
  faults w = [] -> sys_ok (store w) (ids w) ->
  Deployments (store w) !! DeploymentId d = Some d -> link d <> "" ->
  m !! link d = Some rs -> ReplicaSets (store w) !! link d = Some rs ->
  exists w1, deployment_loop m (d :: l) w = deployment_loop m l w1 /\ turn m d w w1.
Proof.
  intros Hw Hok Hd El Hm Hrs. simpl. rewrite (proj2 (String.eqb_neq (d_ReplicaSetId (di_Spec d)) "") El).
  unfold link in Hm. rewrite Hm.
  assert (forall w1 rs', faults w1 = [] -> ids w1 = ids w ->
    store w1 = set_ReplicaSets (store w) (<[link d := rs']> (ReplicaSets (store w))) ->
    Replicas (ri_Spec rs') = d_Replicas (di_Spec d) ->
    sys_ok (store w1) (ids w) -> turn m d w w1) as Hturn.
  { intros w1 rs' Hf1 Hi1 Hs1 Hr Hok1. unfold turn. rewrite Hi1. split; [done|].
    split; [done|]. split; [lia|]. rewrite Hs1. simpl. split; [|split].
    - exists d. split; [done|]. split; [done|]. unfold link. rewrite decide_False
        by (rewrite Hm; by intros [_ ?]). split; [done|].
      exists rs'. simpl. unfold link. by rewrite lookup_insert_eq.
    - done.
    - intros k Hk _. by rewrite lookup_insert_ne. }
  destruct (Z.eqb_spec (Replicas (ri_Spec rs)) (d_Replicas (di_Spec d))) as [E|E].
  - erewrite M_bind_eq by reflexivity. exists w. split; [done|].
    apply (Hturn w rs); [done|done| |done|done].
    rewrite insert_id by done. by destruct (store w).
  - pose proof (sys_replicaSets _ _ Hok _ _ Hrs) as Hid.
    destruct (update_replicas_ok _ _ _ rs (d_Replicas (di_Spec d)) Hok Hrs
      ltac:(by eapply sys_replicas)) as (rs' & Hu & Hn & Hok1).
    rewrite <- Hid in Hu at 1. cbn [negb].
    erewrite M_bind_eq by (rewrite txn_run by done; rewrite Hu; reflexivity).
    eexists. split; [reflexivity|]. by apply (Hturn _ rs').
Qed.

Lemma settled_kept m d (l : list DeploymentInfo) w w' :
  settled m d (store w) -> sys_ok (store w) (ids w) ->
  (forall e, e ∈ l -> DeploymentId e <> DeploymentId d /\
     Deployments (store w) !! DeploymentId e = Some e) ->
  Deployments (store w') !! DeploymentId d = Deployments (store w) !! DeploymentId d ->
  (forall k, k ∉ link <$> l -> is_Some (ReplicaSets (store w) !! k) ->
     ReplicaSets (store w') !! k = ReplicaSets (store w) !! k) ->
  settled m d (store w').
Proof.
  intros (d' & Hd' & Hn & Hs) Hok Hl Hk Hr. exists d'. rewrite Hk.
  split; [done|]. split; [done|]. destruct (decide _); [done|].
  destruct Hs as [Hne (rs & Hrs & Hn')]. split; [done|]. exists rs. split; [|done].
  rewrite Hr; [done| |by eexists].
  intros (e & E & He)%list_elem_of_fmap. destruct (Hl e He) as [Hid Hde].
  apply Hid. eapply (sys_links _ _ Hok); [exact Hde|exact Hd'|done|congruence].
Qed.

(** The loop over deployments that are in the table as they were read. *)
Lemma deployment_loop_run m (l : list DeploymentInfo) w :
  faults w = [] -> sys_ok (store w) (ids w) -> (length l <= length (ids w))%nat ->
  NoDup (DeploymentId <$> l) ->
  (forall d, d ∈ l -> Deployments (store w) !! DeploymentId d = Some d /\
     forall rs, link d <> "" -> m !! link d = Some rs ->
       ReplicaSets (store w) !! link d = Some rs) ->
  exists w', deployment_loop m l w = (Ok tt, w') /\ faults w' = [] /\
    sys_ok (store w') (ids w') /\ (length (ids w) <= length l + length (ids w'))%nat /\
    (forall d, d ∈ l -> settled m d (store w')) /\
    (forall k, k ∉ DeploymentId <$> l ->
       Deployments (store w') !! k = Deployments (store w) !! k) /\
    (forall k, k ∉ link <$> l -> is_Some (ReplicaSets (store w) !! k) ->
       ReplicaSets (store w') !! k = ReplicaSets (store w) !! k).
Proof.
  revert w. induction l as [|d l IH]; intros w Hw Hok Hlen Hnd Hl.
  { exists w. split_and!; try done; by intros d ?%not_elem_of_nil. }
  rewrite fmap_cons in Hnd. apply NoDup_cons in Hnd as [Hni Hnd].
  destruct (Hl d ltac:(by left)) as [Hd Hrs].
  assert (exists w1, deployment_loop m (d :: l) w = deployment_loop m l w1 /\ turn m d w w1)
    as (w1 & -> & Hw1 & Hok1 & Hlen1 & Hset & Hkeep & Hrkeep).
  { destruct (decide (link d = "")) as [E|E].
    { apply turn_new; try done. intros E'. rewrite E' in Hlen. simpl in Hlen. lia. }
    destruct (m !! link d) as [rs|] eqn:Em; [|by apply turn_dangling].
    eapply turn_linked; eauto. }
  assert (forall e, e ∈ l -> DeploymentId e <> DeploymentId d) as Hne.
  { intros e He E. apply Hni. rewrite <- E. by apply list_elem_of_fmap_2. }
  assert (forall e, e ∈ l -> Deployments (store w1) !! DeploymentId e = Some e) as Hin.
  { intros e He. rewrite Hkeep by by apply Hne. by apply Hl; right. }
  simpl in Hlen. destruct (IH w1) as (w' & -> & Hw' & Hok' & Hlen' & Hall & Hk' & Hr');
    [done|done|lia|done| |].
  { intros e He. split; [by apply Hin|]. destruct (Hl e ltac:(by right)) as [He1 He2].
    intros rs Hnz Hm. rewrite Hrkeep; [by apply He2| |rewrite (He2 rs) by done; by eexists].
    intros E. apply (Hne e He). by eapply (sys_links _ _ Hok). }
  exists w'. split; [done|]. split; [done|]. split; [done|]. split; [simpl; lia|].
  split; [|split].
  - intros e [->|He]%elem_of_cons; [|by apply Hall].
    apply (settled_kept m d l w1); [done|done| |by apply Hk'|done].
    intros e He. split; [by apply Hne|by apply Hin].
  - intros k [Hk Hkl]%not_elem_of_cons. by rewrite Hk', Hkeep.
  - intros k [Hk Hkl]%not_elem_of_cons Hs. rewrite Hr', Hrkeep; try done.
    by rewrite Hrkeep.
Qed.

Lemma by_id_fold (m : gmap string ReplicaSetInfo) l m0 :
  (forall rs, rs ∈ l -> m !! ReplicaSetId rs = Some rs) -> m0 ⊆ m ->
  let r := fold_left (fun m rs => <[ReplicaSetId rs := rs]> m) l m0 in
  r ⊆ m /\ m0 ⊆ r /\ forall rs, rs ∈ l -> r !! ReplicaSetId rs = Some rs.
Proof.
  revert m0. induction l as [|x l IH]; intros m0 Hl Hm0; simpl.
  - split_and!; try done. by intros rs ?%not_elem_of_nil.
  - pose proof (Hl x ltac:(by left)) as Hx.
    assert (m0 ⊆ <[ReplicaSetId x := x]> m0) as Hins.
    { apply map_subseteq_spec. intros k v Hv. destruct (decide (k = ReplicaSetId x)) as [->|Hk].
      - rewrite lookup_insert_eq. pose proof (lookup_weaken _ _ _ _ Hv Hm0). congruence.
      - by rewrite lookup_insert_ne. }
    destruct (IH (<[ReplicaSetId x := x]> m0)) as (H1 & H2 & H3).
    { intros rs Hrs. apply Hl. by right. }
    { by apply insert_subseteq_l. }
    split; [done|]. split; [by etrans|].
    intros rs [->|Hrs]%elem_of_cons; [|by apply H3].
    eapply lookup_weaken; [|exact H2]. apply lookup_insert_eq.
Qed.

Lemma by_id_keyed (m : gmap string ReplicaSetInfo) :
  keyed ReplicaSetId m -> by_id (range_values m) = m.
Proof.
  intros Hk. unfold by_id.
  destruct (by_id_fold m (range_values m) ∅) as (H1 & _ & H3).
  - intros rs [k Hrs]%elem_of_range_values. by rewrite (Hk _ _ Hrs).
  - apply map_empty_subseteq.
  - apply (anti_symm (⊆)); [done|]. apply map_subseteq_spec. intros k rs Hrs.
    rewrite <- (Hk _ _ Hrs). apply H3, elem_of_range_values. by eexists.
Qed.

Lemma range_ids (m : gmap string DeploymentInfo) :
  keyed DeploymentId m -> DeploymentId <$> range_values m = (range_map m).*1.
Proof.
  intros Hk. unfold range_values. rewrite <- list_fmap_compose.
  apply list_fmap_ext. intros i [k d] Hin%list_elem_of_lookup_2. simpl.
  apply Hk. by apply elem_of_range_map.
Qed.

Lemma reconcileDeployments_round w :
  faults w = [] -> sys_ok (store w) (ids w) ->
  (size (Deployments (store w)) <= length (ids w))%nat ->
  exists w', reconcileDeployments w = (Ok tt, w') /\ faults w' = [] /\
    sys_ok (store w') (ids w') /\
    (length (ids w) <= size (Deployments (store w)) + length (ids w'))%nat /\
    (forall k, Deployments (store w) !! k = None -> Deployments (store w') !! k = None) /\
    forall k d, Deployments (store w) !! k = Some d ->
      settled (ReplicaSets (store w)) d (store w').
Proof.
  intros Hw Hok Hlen. pose proof (sys_deployments _ _ Hok) as Hk.
  set (l := range_values (Deployments (store w))).
  assert (length l = size (Deployments (store w))) as Hl.
  { unfold l, range_values. rewrite length_fmap, range_map_perm, length_map_to_list. done. }
  assert (forall k d, Deployments (store w) !! k = Some d -> d ∈ l) as Hin.
  { intros k d Hd. apply elem_of_range_values. by eexists. }
  destruct (deployment_loop_run (ReplicaSets (store w)) l w) as
    (w' & Hrun & Hw' & Hok' & Hlen' & Hall & Hkeep & _); [done|done|lia| | |].
  { unfold l. rewrite range_ids by done. apply NoDup_range_keys. }
  { intros d [k Hd]%elem_of_range_values. by rewrite (Hk _ _ Hd). }
  exists w'. split.
  - unfold reconcileDeployments. erewrite M_bind_eq by by rewrite read_run. fold l.
    destruct l as [|d0 l0] eqn:El; [simpl in Hrun; by injection Hrun as <-|].
    erewrite M_bind_eq by by rewrite read_run.
    by rewrite by_id_keyed by apply (sys_replicaSets _ _ Hok).
  - split_and!; [done|done|lia| |].
    + intros k Hnone. rewrite Hkeep; [done|]. unfold l. rewrite range_ids by done.
      intros ([k' d] & -> & Hd%elem_of_range_map)%list_elem_of_fmap. simpl in Hnone. congruence.
    + intros k d Hd. by apply Hall, (Hin k).
Qed.

(** C16: two rounds over the deployments are enough: whatever links are missing
    or dangling, afterwards every deployment has a replica set of its own with
    the number of replicas it asks for. *)
Theorem deployments_converge w :
  faults w = [] -> sys_ok (store w) (ids w) ->
  (2 * size (Deployments (store w)) <= length (ids w))%nat ->
  exists w1 w2, reconcileDeployments w = (Ok tt, w1) /\
    reconcileDeployments w1 = (Ok tt, w2) /\ sys_ok (store w2) (ids w2) /\
    forall k, match Deployments (store w) !! k, Deployments (store w2) !! k with
              | Some d, Some d2 => d_Replicas (di_Spec d2) = d_Replicas (di_Spec d) /\
                  link d2 <> "" /\ synced (store w2) d2
              | None, None => True
              | _, _ => False
              end.
Proof.
  intros Hw Hok Hlen.
  destruct (reconcileDeployments_round w Hw Hok) as
    (w1 & Hr1 & Hw1 & Hok1 & Hl1 & Hn1 & Hs1); [lia|].
  pose proof (sys_deployments _ _ Hok) as Hk. pose proof (sys_deployments _ _ Hok1) as Hk1.
  assert (size (Deployments (store w1)) <= size (Deployments (store w)))%nat as Hsz.
  { rewrite <- !size_dom. apply subseteq_size. intros k [d Hd]%elem_of_dom.
    apply elem_of_dom. destruct (Deployments (store w) !! k) eqn:E; [by eexists|].
    apply Hn1 in E. congruence. }
  destruct (reconcileDeployments_round w1 Hw1 Hok1) as
    (w2 & Hr2 & Hw2 & Hok2 & Hl2 & Hn2 & Hs2); [lia|].
  exists w1, w2. split_and!; [done..|]. intros k.
  destruct (Deployments (store w) !! k) as [d|] eqn:Ed; [|by rewrite Hn2 by by apply Hn1].
  destruct (Hs1 _ _ Ed) as (d1 & Hd1 & Hrep1 & Hset1). rewrite (Hk _ _ Ed) in Hd1.
  destruct (Hs2 _ _ Hd1) as (d2 & Hd2 & Hrep2 & Hset2). rewrite (Hk1 _ _ Hd1) in Hd2.
  rewrite Hd2. split; [congruence|]. rewrite decide_False in Hset2; [done|].
  intros [Hne Hnone]. destruct (decide _) in Hset1; [done|].
  destruct Hset1 as [_ (rs & Hrs & _)]. congruence.
Qed.

(** ** The steady state is decidable *)

Definition healthyb (i : W) (p : PodInfo) : bool :=
  negb (StoppedByUser p) && String.eqb (State p) PodStateRunning &&
  match containers_of (PodId p) i with
  | Ok l => String.eqb (infra_state l) ContainerStateRunning
  | _ => false
  end.

Definition steadyb (i : W) (st : Psm.PodState) : bool :=
  forallb (fun kd => negb (String.eqb (link kd.2) "") &&
      match by_id (range_values (ReplicaSets st)) !! link kd.2 with
      | Some rs => Replicas (ri_Spec rs) =? d_Replicas (di_Spec kd.2)
      | None => false
      end) (map_to_list (Deployments st)) &&
  forallb (fun kr => let rs := kr.2 in
      let pods := filterReplicaSetPods rs (range_values (Pods st))
                    (replicaSetTemplateRefs (range_values (ReplicaSets st))) in
      (NextReconcileAt rs =? zero_time) && (ReconcileAttempt rs =? 0) &&
      String.eqb (LastReconcileError rs) "" &&
      (Z.of_nat (length pods) =? Replicas (ri_Spec rs)) && forallb (healthyb i) pods)
    (map_to_list (ReplicaSets st)) &&
  forallb (fun kt => match IsTemplateReferenced (ti_TemplateId kt.2) st with
                     | Ok b => b | _ => false end) (map_to_list (PodTemplates st)).

Lemma healthyb_ok i p : healthyb i p = true -> healthy i p.
Proof.
  unfold healthyb, healthy. rewrite !andb_true_iff, negb_true_iff, String.eqb_eq.
  intros [[H1 H2] H3]. split_and!; [done..|]. destruct (containers_of _ _) as [l| |]; try done.
  exists l. split; [done|]. by apply String.eqb_eq.
Qed.

Lemma forallb_lookup {V} (f : string * V -> bool) (m : gmap string V) k v :
  forallb f (map_to_list m) = true -> m !! k = Some v -> f (k, v) = true.
Proof.
  rewrite forallb_forall. intros H Hk. apply H, list_elem_of_In.
  by apply elem_of_map_to_list.
Qed.

(** A template that is referenced is all [steadyb] accepts. *)
Lemma steadyb_ok i st : steadyb i st = true -> steady i st.
Proof.
  unfold steadyb. rewrite !andb_true_iff. intros [[Hd Hr] Ht]. split_and!.
  - intros k d Hk. apply (forallb_lookup _ _ _ _ Hd) in Hk. simpl in Hk.
    apply andb_true_iff in Hk as [Hne Hk]. apply negb_true_iff, String.eqb_neq in Hne.
    split; [done|]. unfold link in Hk. destruct (_ !! _) as [rs|]; [|done].
    exists rs. split; [done|]. by apply Z.eqb_eq.
  - intros k rs Hk. apply (forallb_lookup _ _ _ _ Hr) in Hk. simpl in Hk.
    rewrite !andb_true_iff, !Z.eqb_eq, String.eqb_eq, forallb_forall in Hk.
    destruct Hk as [[[[H1 H2] H3] H4] H5]. unfold quiet_replicaSet. cbv zeta.
    split; [done|]. split; [done|]. split; [done|]. split; [done|].
    apply Forall_forall. intros p Hp. by apply healthyb_ok, H5, list_elem_of_In.
  - intros k t Hk. left. apply (forallb_lookup _ _ _ _ Ht) in Hk. simpl in Hk.
    unfold IsTemplateReferenced. by rewrite Hk.
Qed.
End controller.

(** ** A concrete run *)
Module ControllerDemo.
Import PodTheory.Demo.
Definition interval : Z := 5 * Second.

Definition web_template : PodTemplateInfo :=
  {| ti_TemplateId := "tpl";
     ti_Spec := {| pt_Name := "web"; pt_Namespace := "demo"; pt_NetworkNS := "";
                   pt_IPCNS := ""; pt_UTSNS := ""; pt_UserNS := ""; pt_Rootless := false;
                   pt_Labels := ∅; pt_Annotations := ∅; pt_Containers := [nginx] |};
     ti_CreatedAt := 0 |}.
Definition deployment (id name rsId : string) (n : Z) : DeploymentInfo :=
  {| DeploymentId := id;
     di_Spec := {| d_Name := name; d_Namespace := "demo"; d_Replicas := n;
                   d_TemplateId := "tpl"; d_Selector := ∅; d_ReplicaSetId := rsId |};
     di_CreatedAt := 0; UpdatedAt := 0 |}.

Definition tables (ds : gmap string DeploymentInfo) : Psm.PodState :=
  {| Version := "0.1.0"; Pods := ∅; PodTemplates := <["tpl" := web_template]> ∅;
     ReplicaSets := ∅; Deployments := ds |}.
Definition world_of (st : Psm.PodState) : world Psm.PodState container_call containers :=
  {| store := st; faults := []; times := []; ids := ids world0; trace := []; inner := ∅ |}.

(** A deployment of two pods, and one more with a dangling link. *)
Definition fresh := world_of (tables (<["d1" := deployment "d1" "web" "" 2]> ∅)).
Definition two_deployments := world_of (tables
  (<["d1" := deployment "d1" "web" "" 2]> (<["d2" := deployment "d2" "api" "gone" 1]> ∅))).

Definition round (w : world Psm.PodState container_call containers) :=
  (reconcileOnce interval w).2.
Definition states (w : world Psm.PodState container_call containers) : list (string * string * string) :=
  (fun kv => (kv.1, Name kv.2, State kv.2)) <$> map_to_list (Pods (store w)).
Definition rescale (n : Z) (w : world Psm.PodState container_call containers) :=
  (txn (UpdateDeploymentReplicas "d1" n 0) w).2.
Definition settled_world := round fresh.

Example fresh_round :
  states settled_world = [("id7", "web-id5", "running"); ("id4", "web-id2", "running")].
Proof. vm_compute. reflexivity. Qed.

Definition after_rounds (n : nat) := Nat.iter n round (rescale 1 settled_world).

(** Scaling down does not work: a deployment of two running pods that is
    scaled to one keeps two pods through every one of the next rounds.  Each
    round deletes a pod of the list, and then, going through the same list,
    finds it without containers and recreates it from the template. *)
Theorem scale_down_recreates :
  Forall (fun n =>
    Replicas <$> (ri_Spec <$> ReplicaSets (store (after_rounds n)) !! "id1") = Some 1 /\
    size (Pods (store (after_rounds n))) = 2%nat /\
    length (trace (after_rounds n)) = (length (trace (after_rounds (n - 1))) + 7)%nat)
    [1; 2; 3; 4]%nat.
Proof. repeat constructor; vm_compute; reflexivity. Qed.

Definition failing : ReplicaSetInfo :=
  {| ReplicaSetId := "rs"; ri_Spec := {| rs_Name := "web"; rs_Namespace := "demo";
       Replicas := 1; rs_TemplateId := "none"; rs_Selector := ∅ |};
     ri_CreatedAt := 0; ReconcileAttempt := 3; LastReconcileError := "";
     NextReconcileAt := zero_time |}.
Definition failing_world : world Psm.PodState container_call containers :=
  {| store := {| Version := "0.1.0"; Pods := ∅; PodTemplates := ∅;
                 ReplicaSets := <["rs" := failing]> ∅; Deployments := ∅ |};
     faults := []; times := [100 * Second]; ids := []; trace := []; inner := ∅ |}.

Example reconcile_backoff_witness :
  exists rs' w', recordReplicaSetReconcileError interval failing "no image" failing_world
      = (Ok tt, w') /\
    ReplicaSets (store w') = <["rs" := rs']> (ReplicaSets (store failing_world)) /\
    ReconcileAttempt rs' = 4 /\
    forall w1 t1 ts1, times w1 = t1 :: ts1 ->
      (shouldSkipReplicaSet (W := containers) rs' w1).1 = Ok (t1 <? 140 * Second).
Proof.
  destruct (reconcile_backoff interval failing failing "no image" failing_world
    (100 * Second) []) as (_ & rs' & w' & Hr & _ & Hrs & _ & _ & Ha & _ & Hskip);
    [unfold interval, Minute, Second; lia|simpl; lia|reflexivity|reflexivity|
     vm_compute; reflexivity|].
  exists rs', w'. split; [exact Hr|]. split; [exact Hrs|]. split; [exact Ha|].
  intros w1 t1 ts1 H1. apply (Hskip w1 t1 ts1 H1). vm_compute. discriminate.
Defined.

Example reconcileOnce_steady_witness :
  reconcileOnce interval settled_world = (Ok tt, settled_world).
Proof.
  apply (reconcileOnce_steady interval settled_world); [vm_compute; reflexivity|].
  apply steadyb_ok. vm_compute. reflexivity.
Defined.

Lemma two_deployments_ok : sys_ok (store two_deployments) (ids two_deployments).
Proof.
  unfold two_deployments, world_of, tables. cbn [store ids]. split; cbn [Deployments ReplicaSets].
  - apply keyed_insert; [|done]. apply keyed_insert; [|done]. exact (keyed_empty DeploymentId).
  - exact (keyed_empty ReplicaSetId).
  - intros k1 k2 d1 d2 H1 H2 E Hne.
    rewrite !lookup_insert_Some, lookup_empty in H1, H2.
    destruct H1 as [[<- <-]|[? [[<- <-]|[? [=]]]]], H2 as [[<- <-]|[? [[<- <-]|[? [=]]]]];
      done.
  - intros k d H. rewrite !lookup_insert_Some, lookup_empty in H.
    destruct H as [[<- <-]|[? [[<- <-]|[? [=]]]]]; simpl; lia.
  - apply (bool_decide_unpack _). vm_compute. exact I.
  - assert (Forall (fun i => i <> "" /\ i <> "gone") (ids world0)) as Hf
      by (apply (bool_decide_unpack _); vm_compute; exact I).
    intros i Hi. rewrite Forall_forall in Hf. destruct (Hf i Hi) as [Hi1 Hi2].
    split; [done|]. split; [apply lookup_empty|].
    intros k d H. rewrite !lookup_insert_Some, lookup_empty in H.
    destruct H as [[<- <-]|[? [[<- <-]|[? [=]]]]]; by apply not_eq_sym.
Qed.

Example deployments_converge_witness :
  exists w1 w2 d1 d2, reconcileDeployments two_deployments = (Ok tt, w1) /\
    reconcileDeployments w1 = (Ok tt, w2) /\
    Deployments (store w2) !! "d1" = Some d1 /\ synced (store w2) d1 /\
    Deployments (store w2) !! "d2" = Some d2 /\ synced (store w2) d2.
Proof.
  destruct (deployments_converge two_deployments eq_refl two_deployments_ok) as
    (w1 & w2 & H1 & H2 & _ & H); [vm_compute; lia|].
  pose proof (H "d1") as Hd1. pose proof (H "d2") as Hd2. clear H.
  assert (exists x, Deployments (store two_deployments) !! "d1" = Some x) as [x Hx]
    by (eexists; vm_compute; reflexivity).
  assert (exists y, Deployments (store two_deployments) !! "d2" = Some y) as [y Hy]
    by (eexists; vm_compute; reflexivity).
  rewrite Hx in Hd1. rewrite Hy in Hd2.
  destruct (Deployments (store w2) !! "d1") as [d1|] eqn:E1; [|destruct Hd1].
  destruct (Deployments (store w2) !! "d2") as [d2|] eqn:E2; [|destruct Hd2].
  exists w1, w2, d1, d2. split; [exact H1|]. split; [exact H2|]. split; [exact E1|].
  split; [apply Hd1|]. split; [exact E2|apply Hd2].
Defined.
End ControllerDemo.
