(* ===== verification/Iptables.v ===== *)
(** * Rules and the iptables command ([core/policy/iptables_handler.go])

    Rules are written as command lines.  The command itself is an argument of
    the definitions; what its manual says of the options used here is the
    class [IptablesLaw] of [PolicyTheory.v]. *)

From Stdlib Require Import ZArith Lia String.
From stdpp Require Import base gmap strings list.
From S2P Require Import Prelude.
From S2P Require Import GoString.
From S2P Require Import World.
Open Scope Z_scope.

Record RuleModel := {
  Conntrack : bool;
  Ctstate : list string;
  Syn : bool;
  Physdev : bool;
  PhysdevIsBridge : bool;
  InputDev : string;
  OutputDev : string;
  InputPhysdev : string;
  OutputPhysdev : string;
  r_Source : string;
  r_Destination : string;
  r_Protocol : string;
  SourcePort : Z;
  r_DestPort : Z;
  NflogGroup : Z;
  NflogPrefix : string
}.

(** [RuleModel{}]. *)
Definition any_packet : RuleModel :=
  {| Conntrack := false; Ctstate := []; Syn := false; Physdev := false;
     PhysdevIsBridge := false; InputDev := ""; OutputDev := ""; InputPhysdev := "";
     OutputPhysdev := ""; r_Source := ""; r_Destination := ""; r_Protocol := "";
     SourcePort := 0; r_DestPort := 0; NflogGroup := 0; NflogPrefix := "" |}.

(** One [if cond { ruleParam = slices.Concat(ruleParam, l) }]. *)
Definition opt (cond : bool) (l : list string) : list string := if cond then l else [].
Definition set (s : string) : bool := negb (String.eqb s "").

(** The rule after the chain name, as [AddRuleToChain] writes it. *)
Definition add_param (action : string) (m : RuleModel) : list string :=
  ["-j"; action] ++
  opt (Conntrack m) ["-m"; "conntrack"] ++
  opt (0 <? Z.of_nat (length (Ctstate m))) ["--ctstate"; join "," (Ctstate m)] ++
  opt (Physdev m) ["-m"; "physdev"] ++
  opt (PhysdevIsBridge m) ["--physdev-is-bridged"] ++
  opt (set (InputDev m)) ["-i"; InputDev m] ++
  opt (set (OutputDev m)) ["-o"; OutputDev m] ++
  opt (set (InputPhysdev m)) ["--physdev-in"; InputPhysdev m] ++
  opt (set (OutputPhysdev m)) ["--physdev-out"; OutputPhysdev m] ++
  opt (set (r_Protocol m)) (["-p"; r_Protocol m] ++
    opt (String.eqb (r_Protocol m) "tcp" && Syn m) ["--syn"]) ++
  opt (0 <? SourcePort m) ["--sport"; itoa (SourcePort m)] ++
  opt (0 <? r_DestPort m) ["--dport"; itoa (r_DestPort m)] ++
  opt (0 <? NflogGroup m) ["--nflog-group"; itoa (NflogGroup m)] ++
  opt (set (NflogPrefix m)) ["--nflog-prefix"; NflogPrefix m].

(** The same for [InsertRuleToChain], which writes the addresses and not
    [--syn]. *)
Definition insert_param (action : string) (m : RuleModel) : list string :=
  ["-j"; action] ++
  opt (Conntrack m) ["-m"; "conntrack"] ++
  opt (0 <? Z.of_nat (length (Ctstate m))) ["--ctstate"; join "," (Ctstate m)] ++
  opt (Physdev m) ["-m"; "physdev"] ++
  opt (PhysdevIsBridge m) ["--physdev-is-bridged"] ++
  opt (set (InputDev m)) ["-i"; InputDev m] ++
  opt (set (OutputDev m)) ["-o"; OutputDev m] ++
  opt (set (InputPhysdev m)) ["--physdev-in"; InputPhysdev m] ++
  opt (set (OutputPhysdev m)) ["--physdev-out"; OutputPhysdev m] ++
  opt (set (r_Protocol m)) ["-p"; r_Protocol m] ++
  opt (set (r_Source m)) ["-s"; r_Source m] ++
  opt (0 <? SourcePort m) ["--sport"; itoa (SourcePort m)] ++
  opt (set (r_Destination m)) ["-d"; r_Destination m] ++
  opt (0 <? r_DestPort m) ["--dport"; itoa (r_DestPort m)] ++
  opt (0 <? NflogGroup m) ["--nflog-group"; itoa (NflogGroup m)] ++
  opt (set (NflogPrefix m)) ["--nflog-prefix"; NflogPrefix m].

Section handler.
Context {St C W : Type}.
#[local] Notation M := (M St C W).
(** [commandFactory.Command("iptables", args...).Run()]. *)
Context (iptables : list string -> M string).

(** [if err := check.Run(); err == nil { a } else { b }]. *)
Definition if_succeeds {A} (check : M string) (a b : M A) : M A :=
  r ← attempt check; match r with Ok _ => a | _ => b end.

Definition run (args : list string) : M unit := _ ← iptables args; mret tt.

Definition CreateChain (chainName : string) : M unit :=
  if_succeeds (iptables ["-L"; chainName])
    (run ["-F"; chainName]) (run ["-N"; chainName]).

Definition InsertForwardRule (chainName : string) : M unit :=
  if_succeeds (iptables ["-C"; "FORWARD"; "-j"; chainName])
    (mret tt) (run ["-I"; "FORWARD"; "1"; "-j"; chainName]).

Definition AddRuleToChain (chainName : string) (m : RuleModel) (action : string) : M unit :=
  if_succeeds (iptables ("-C" :: chainName :: add_param action m))
    (mret tt) (run ("-A" :: chainName :: add_param action m)).

Definition InsertRuleToChain (chainName : string) (m : RuleModel) (action : string)
    : M unit :=
  if_succeeds (iptables ("-C" :: chainName :: insert_param action m))
    (mret tt) (run ("-I" :: chainName :: insert_param action m)).
End handler.
