(* ===== verification/PolicyService.v ===== *)
(** * The network policy service ([core/policy/service.go])

    The policies of the table ([Npm.v]) written to the packet filter: the
    predefined chains, then the rules of the users, over the container and
    address tables. *)

From Stdlib Require Import ZArith Lia Ascii String.
From stdpp Require Import base gmap strings list.
From S2P Require Import Prelude.
From S2P Require Import GoString.
From S2P Require Import Npm.
From S2P Require Csm.
From S2P Require Ipam.
From S2P Require Psm.
From S2P Require Import World.
From S2P Require Import Iptables.
From S2P Require PodService.
Open Scope Z_scope.

(** ** Data ([model.go]) *)

Record ServiceAddPolicyModel := {
  ap_ChainName : string;
  ap_Source : string;
  ap_Destination : string;
  ap_Protocol : string;
  ap_DestPort : Z;
  ap_Comment : string
}.

Record HostInfo := {
  hi_ContainerName : string;
  hi_DisplayName : string;
  hi_Address : string
}.

Record PolicyInfo := {
  pi_Id : string;
  pi_Status : string;
  pi_Reason : string;
  pi_Source : HostInfo;
  pi_Destination : HostInfo;
  pi_Protocol : string;
  pi_DestPort : Z;
  pi_Comment : string
}.

Record PolicyListModel := {
  pl_Mode : string;
  PoliciesTotal : Z;
  pl_Policies : list PolicyInfo
}.

(** ** The other tables, and what is outside *)

Record tables (X : Type) := {
  csm : Csm.ContainerState;
  ipam : Ipam.IpamState;
  psm : Psm.PodState;
  net : X
}.
Arguments csm {X} t.
Arguments ipam {X} t.
Arguments psm {X} t.
Arguments net {X} t.

Inductive policy_call :=
  | Iptables (args : list string)
  | Backup
  | Revert.

(** The packet filter with its command, and the copies of the policy file
    ([Npm.Backup], [Npm.Revert]) with the file system under them. *)
Class PolicyPeers (X : Type) := {
  run_iptables : list string -> X -> res string * X;
  run_backup : X -> res string * X;
  run_revert : NetworkPolicy * X -> res string * (NetworkPolicy * X)
}.

#[export] Instance policy_callees {X} {P : PolicyPeers X} :
    Callees policy_call NetworkPolicy (tables X) := fun c '(st, t) =>
  let with_net x := {| csm := csm t; ipam := ipam t; psm := psm t; net := x |} in
  match c with
  | Iptables args => let '(r, x) := run_iptables args (net t) in (r, (st, with_net x))
  | Backup => let '(r, x) := run_backup (net t) in (r, (st, with_net x))
  | Revert => let '(r, (st, x)) := run_revert (st, net t) in (r, (st, with_net x))
  end.

Section service.
Context {RO : RangeOrder} {X : Type} {P : PolicyPeers X}.
#[local] Notation M := (M NetworkPolicy policy_call (tables X)).

Definition iptables (args : list string) : M string := invoke (Iptables args).

(** The getters of the policy table drop the error of the store. *)
Definition GetNSMode : M string := or_zero "" (read Npm.GetNSMode).
Definition GetEWMode : M string := or_zero "" (read Npm.GetEWMode).
Definition GetEWLogging : M bool := or_zero false (read Npm.GetEWLogging).
Definition GetNSLogging : M bool := or_zero false (read Npm.GetNSLogging).
Definition IsNsEnforce : M bool := or_zero false (read Npm.IsNsEnforce).
Definition GetEWPolicyList : M (list Policy) := or_zero [] (read Npm.GetEWPolicyList).
Definition GetNSObsPolicyList : M (list Policy) := or_zero [] (read Npm.GetNSObsPolicyList).
Definition GetNSEnfPolicyList : M (list Policy) := or_zero [] (read Npm.GetNSEnfPolicyList).

(** [for _, x := range l { if err := f(x); err != nil { return err } }]. *)
Fixpoint for_each {A} (f : A -> M unit) (l : list A) : M unit :=
  match l with
  | [] => mret tt
  | x :: l => _ ← f x; for_each f l
  end.

(** ** User operations *)

(** The id and the name of a container given by either; a name not in the
    table yet is kept, without an id. *)
Definition resolveContainerNameAndInfo (str : string) : M (string * string) :=
  r ← attempt (peek (fun t => Csm.GetContainerIdByName str (csm t)));
  match r with
  | Ok got => mret (got, str)
  | _ =>
      r ← attempt (peek (fun t => Csm.GetContainerNameById str (csm t)));
      match r with
      | Ok got => mret (str, got)
      | _ => mret ("", str)
      end
  end.

Definition named_host (containerName : string) : Npm.HostInfo :=
  {| h_ContainerName := containerName; DisplayName := ""; h_Address := "" |}.

Definition AddUserPolicy (param : ServiceAddPolicyModel) : M string :=
  policyId ← new_id;
  srcDst ← (if String.eqb (ap_ChainName param) "RAIND-EW" then
              s ← resolveContainerNameAndInfo (ap_Source param);
              d ← resolveContainerNameAndInfo (ap_Destination param);
              mret (named_host s.2, named_host d.2)
            else
              s ← resolveContainerNameAndInfo (ap_Source param);
              mret (named_host s.2,
                    {| h_ContainerName := ""; DisplayName := "";
                       h_Address := ap_Destination param |}));
  _ ← txn (AddPolicy (ap_ChainName param)
        {| Id := policyId; Status := "before_commit"; Reason := ""; Source := srcDst.1;
           Destination := srcDst.2; Protocol := ap_Protocol param;
           DestPort := ap_DestPort param; Comment := ap_Comment param; ManagedBy := "";
           OwnerKind := ""; OwnerNS := ""; OwnerName := ""; OwnerId := "" |});
  mret policyId.

Definition RemoveUserPolicy (policyId : string) : M unit :=
  chainName ← read (GetPolicyChain policyId);
  txn (UpdateStatus chainName policyId "remove_next_commit" "user operation").

Definition ChangeNSMode (mode : string) : M unit :=
  if negb (String.eqb mode "enforce") && negb (String.eqb mode "observe")
  then fail ("invalid mode: " +:+ mode) else
  current ← GetNSMode;
  if String.eqb current mode then fail ("NS Mode already set in: " +:+ current) else
  txn (Npm.ChangeNSMode (mode +:+ "_next_commit")).

Definition displayNameForPolicyHost (host : Npm.HostInfo) : M string :=
  if negb (String.eqb (DisplayName host) "") then mret (DisplayName host) else
  if String.eqb (h_ContainerName host) "" ||
     negb (hasPrefix (h_ContainerName host) PodService.PodInfraContainerNamePrefix)
  then mret (h_ContainerName host) else
  r ← resolveContainerNameAndInfo (h_ContainerName host);
  if String.eqb r.1 "" then mret (h_ContainerName host) else
  info ← attempt (peek (fun t => Csm.GetContainerById r.1 (csm t)));
  match info with
  | Ok info =>
      if String.eqb (Csm.PodId info) "" then mret (h_ContainerName host) else
      pod ← attempt (peek (fun t => Psm.GetPodById (Csm.PodId info) (psm t)));
      match pod with
      | Ok pod => mret (if String.eqb (Psm.Name pod) "" then h_ContainerName host
                        else Psm.Name pod)
      | _ => mret (h_ContainerName host)
      end
  | _ => mret (h_ContainerName host)
  end.

Definition policyHostInfo (host : Npm.HostInfo) : M HostInfo :=
  name ← displayNameForPolicyHost host;
  mret {| hi_ContainerName := h_ContainerName host; hi_DisplayName := name;
          hi_Address := h_Address host |}.

Fixpoint policy_infos (l : list Policy) : M (list PolicyInfo) :=
  match l with
  | [] => mret []
  | p :: l =>
      src ← policyHostInfo (Source p);
      dst ← policyHostInfo (Destination p);
      rest ← policy_infos l;
      mret ({| pi_Id := Id p; pi_Status := Status p; pi_Reason := Reason p;
               pi_Source := src; pi_Destination := dst; pi_Protocol := Protocol p;
               pi_DestPort := DestPort p; pi_Comment := Comment p |} :: rest)
  end.

Definition list_model (mode : string) (policyList : list Policy) : M PolicyListModel :=
  policies ← policy_infos policyList;
  mret {| pl_Mode := mode; PoliciesTotal := Z.of_nat (length policyList);
          pl_Policies := policies |}.

Definition GetPolicyList (chain : string) : M PolicyListModel :=
  if String.eqb chain "RAIND-EW" then
    mode ← GetEWMode; l ← GetEWPolicyList; list_model mode l
  else if String.eqb chain "RAIND-NS-OBS" then
    mode ← GetNSMode; l ← GetNSObsPolicyList; list_model mode l
  else if String.eqb chain "RAIND-NS-ENF" then
    mode ← GetNSMode; l ← GetNSEnfPolicyList; list_model mode l
  else mret {| pl_Mode := ""; PoliciesTotal := 0; pl_Policies := [] |}.

(** ** The predefined chains *)

Definition FixNSMode : M unit :=
  current ← GetNSMode;
  if String.eqb current "observe" || String.eqb current "enforce" then mret tt else
  if contains current "_next_commit"
  then txn (Npm.ChangeNSMode (split_head "_"%char current)) else mret tt.

Definition add (chainName : string) (ma : RuleModel * string) : M unit :=
  AddRuleToChain iptables chainName ma.1 ma.2.

Definition createChain : M unit :=
  for_each (CreateChain iptables) ["RAIND-ROOT"; "RAIND-EW"; "RAIND-NS-OBS"; "RAIND-NS-ENF"].

Definition insertForward : M unit := InsertForwardRule iptables "RAIND-ROOT".

Definition established : RuleModel :=
  {| Conntrack := true; Ctstate := ["ESTABLISHED"; "RELATED"]; Syn := false;
     Physdev := false; PhysdevIsBridge := false; InputDev := ""; OutputDev := "";
     InputPhysdev := ""; OutputPhysdev := ""; r_Source := ""; r_Destination := "";
     r_Protocol := ""; SourcePort := 0; r_DestPort := 0; NflogGroup := 0;
     NflogPrefix := "" |}.

(** A rule on the devices alone. *)
Definition between (inputDev outputDev : string) : RuleModel :=
  {| Conntrack := false; Ctstate := []; Syn := false; Physdev := false;
     PhysdevIsBridge := false; InputDev := inputDev; OutputDev := outputDev;
     InputPhysdev := ""; OutputPhysdev := ""; r_Source := ""; r_Destination := "";
     r_Protocol := ""; SourcePort := 0; r_DestPort := 0; NflogGroup := 0;
     NflogPrefix := "" |}.

(** The log rule for new connections between two devices. *)
Definition log_between (bridged : bool) (inputDev outputDev protocol : string) (syn : bool)
    (group : Z) (prefix : string) : RuleModel :=
  {| Conntrack := true; Ctstate := ["NEW"]; Syn := syn; Physdev := bridged;
     PhysdevIsBridge := bridged; InputDev := inputDev; OutputDev := outputDev;
     InputPhysdev := ""; OutputPhysdev := ""; r_Source := ""; r_Destination := "";
     r_Protocol := protocol; SourcePort := 0; r_DestPort := 0; NflogGroup := group;
     NflogPrefix := prefix |}.

Definition root_rules (enforce : bool) : list (RuleModel * string) :=
  [(established, "ACCEPT"); (any_packet, "RAIND-EW");
   (any_packet, if enforce then "RAIND-NS-ENF" else "RAIND-NS-OBS");
   (any_packet, "RETURN")].

Definition buildRaindRootChain (enforce : bool) : M unit :=
  for_each (add "RAIND-ROOT") (root_rules enforce).

Definition ew_rules (networkList : list Ipam.NetworkList) (nflog : bool)
    : list (RuleModel * string) :=
  (if nflog then
     (fun n => (log_between true (Ipam.nl_Interface n) (Ipam.nl_Interface n) "" false 10
                  "RAIND-EW-DENY,id=predefined", "NFLOG")) <$> networkList
   else []) ++
  ((fun n => (between (Ipam.nl_Interface n) (Ipam.nl_Interface n), "DROP")) <$> networkList) ++
  (if nflog then
     [(log_between false "raind+" "raind+" "" false 10 "RAIND-EW-DENY,id=predefined", "NFLOG")]
   else []) ++
  [(between "raind+" "raind+", "DROP"); (any_packet, "RETURN")].

Definition buildRaindEWChain (networkList : list Ipam.NetworkList) (nflog : bool) : M unit :=
  for_each (add "RAIND-EW") (ew_rules networkList nflog).

Definition obs_rules (hostInterface : string) (networkList : list Ipam.NetworkList)
    (nflog : bool) : list (RuleModel * string) :=
  (n ← networkList;
   (if nflog then
      [(log_between false hostInterface (Ipam.nl_Interface n) "tcp" true 11
          "RAIND-NS-ALLOW,id=predefined", "NFLOG");
       (log_between false hostInterface (Ipam.nl_Interface n) "udp" false 11
          "RAIND-NS-ALLOW,id=predefined", "NFLOG");
       (log_between false (Ipam.nl_Interface n) hostInterface "" false 11
          "RAIND-NS-ALLOW,id=predefined", "NFLOG")]
    else []) ++ [(between (Ipam.nl_Interface n) hostInterface, "ACCEPT")]) ++
  [(any_packet, "RETURN")].

Definition GetDefaultInterface : M string :=
  peek (fun t => Ipam.GetDefaultInterface (ipam t)).

Definition buildRaindNSObserveChain (networkList : list Ipam.NetworkList) (nflog : bool)
    : M unit :=
  hostInterface ← GetDefaultInterface;
  for_each (add "RAIND-NS-OBS") (obs_rules hostInterface networkList nflog).

Definition enf_rules (hostInterface : string) (networkList : list Ipam.NetworkList)
    (nflog : bool) : list (RuleModel * string) :=
  (if nflog then
     (fun n => (log_between false (Ipam.nl_Interface n) hostInterface "" false 12
                  "RAIND-NS-DENY,id=predefined", "NFLOG")) <$> networkList
   else []) ++
  ((fun n => (between (Ipam.nl_Interface n) hostInterface, "DROP")) <$> networkList) ++
  [(any_packet, "RETURN")].

Definition buildRaindNSEnforceChain (networkList : list Ipam.NetworkList) (nflog : bool)
    : M unit :=
  hostInterface ← GetDefaultInterface;
  for_each (add "RAIND-NS-ENF") (enf_rules hostInterface networkList nflog).

Definition BuildPredefinedPolicy : M unit :=
  networkList ← peek (fun t => Ipam.GetNetworkList (ipam t));
  enforce ← IsNsEnforce;
  loggingEw ← GetEWLogging;
  loggingNs ← GetNSLogging;
  _ ← createChain;
  _ ← insertForward;
  _ ← buildRaindRootChain enforce;
  _ ← buildRaindEWChain networkList loggingEw;
  if enforce : bool then buildRaindNSEnforceChain networkList loggingNs
  else buildRaindNSObserveChain networkList loggingNs.

(** ** The rules of the users *)

Definition GetVethById (containerId : string) : M string :=
  peek (fun t => Ipam.GetVethById containerId (ipam t)).

Definition ew_rule (srcVeth dstVeth : string) (p : Policy) : RuleModel :=
  {| Conntrack := false; Ctstate := []; Syn := false; Physdev := true;
     PhysdevIsBridge := true; InputDev := ""; OutputDev := "";
     InputPhysdev := srcVeth; OutputPhysdev := dstVeth; r_Source := "";
     r_Destination := ""; r_Protocol := Protocol p; SourcePort := 0;
     r_DestPort := DestPort p; NflogGroup := 0; NflogPrefix := "" |}.
Definition ew_log_rule (srcVeth dstVeth : string) (p : Policy) : RuleModel :=
  {| Conntrack := true; Ctstate := ["NEW"]; Syn := false; Physdev := true;
     PhysdevIsBridge := true; InputDev := ""; OutputDev := "";
     InputPhysdev := srcVeth; OutputPhysdev := dstVeth; r_Source := "";
     r_Destination := ""; r_Protocol := Protocol p; SourcePort := 0;
     r_DestPort := DestPort p; NflogGroup := 10;
     NflogPrefix := "RAIND-EW-ALLOW,id=" +:+ Id p |}.

Definition unresolved (chainName : string) (p : Policy) (containerName : string) : M unit :=
  txn (UpdateStatus chainName (Id p) "unresolved"
         ("container: " +:+ containerName +:+ " not found")).
(** The update at the end of the loop, whose error is dropped by [continue]. *)
Definition applied (chainName : string) (p : Policy) : M unit :=
  ignore (txn (UpdateStatus chainName (Id p) "applied" "")).

(** [if err := m(); err != nil { continue }; k]. *)
Definition or_continue (m : M unit) (k : M unit) : M unit :=
  r ← attempt m; match r with Ok _ => k | _ => mret tt end.

Definition insert_rules (chainName : string) (rule log_rule : RuleModel)
    (action : string) (logging : bool) (p : Policy) : M unit :=
  or_continue (InsertRuleToChain iptables chainName rule action)
    (if logging then
       or_continue (InsertRuleToChain iptables chainName log_rule "NFLOG")
         (applied chainName p)
     else applied chainName p).

(** One turn of the loop of [insertRaindEWUserPolicy]. *)
Definition ew_policy (logging : bool) (p : Policy) : M unit :=
  let chainName := "RAIND-EW" in
  if String.eqb (Status p) "remove_next_commit" then txn (RemovePolicy (Id p)) else
  '(srcId, _) ← resolveContainerNameAndInfo (h_ContainerName (Source p));
  '(dstId, _) ← resolveContainerNameAndInfo (h_ContainerName (Destination p));
  srcVeth ← attempt (GetVethById srcId);
  match srcVeth with
  | Ok srcVeth =>
      dstVeth ← attempt (GetVethById dstId);
      match dstVeth with
      | Ok dstVeth => insert_rules chainName (ew_rule srcVeth dstVeth p)
                        (ew_log_rule srcVeth dstVeth p) "ACCEPT" logging p
      | _ => unresolved chainName p (h_ContainerName (Destination p))
      end
  | _ => unresolved chainName p (h_ContainerName (Source p))
  end.

Definition insertRaindEWUserPolicy (policies : list Policy) (logging : bool) : M unit :=
  for_each (ew_policy logging) policies.

Definition ns_rule (bridgeDev srcAddress dstDev : string) (p : Policy) : RuleModel :=
  {| Conntrack := false; Ctstate := []; Syn := false; Physdev := false;
     PhysdevIsBridge := false; InputDev := bridgeDev; OutputDev := dstDev;
     InputPhysdev := ""; OutputPhysdev := ""; r_Source := srcAddress;
     r_Destination := h_Address (Destination p); r_Protocol := Protocol p;
     SourcePort := 0; r_DestPort := DestPort p; NflogGroup := 0; NflogPrefix := "" |}.
Definition ns_log_rule (chainName bridgeDev srcAddress dstDev : string) (p : Policy)
    : RuleModel :=
  let obs := String.eqb chainName "RAIND-NS-OBS" in
  {| Conntrack := true; Ctstate := ["NEW"]; Syn := false; Physdev := false;
     PhysdevIsBridge := false; InputDev := bridgeDev; OutputDev := dstDev;
     InputPhysdev := ""; OutputPhysdev := ""; r_Source := srcAddress;
     r_Destination := h_Address (Destination p); r_Protocol := Protocol p;
     SourcePort := 0; r_DestPort := DestPort p;
     NflogGroup := if obs then 11 else 12;
     NflogPrefix := (if obs then "RAIND-NS-DENY,id=" else "RAIND-NS-ALLOW,id=") +:+ Id p |}.

(** [_, bridgeDev, srcAddress, _ := GetContainerAddress(id)]. *)
Definition GetContainerAddress (containerId : string) : M (string * string) :=
  or_zero (EmptyString, EmptyString) (peek (fun t =>
    let '(_, bridgeDev, srcAddress, _) := Ipam.GetContainerAddress containerId (ipam t) in
    Ok (bridgeDev, srcAddress))).

Definition ns_action (chainName : string) : string :=
  if String.eqb chainName "RAIND-NS-OBS" then "DROP" else "ACCEPT".

Definition ns_policy (chainName : string) (logging : bool) (p : Policy) : M unit :=
  if String.eqb (Status p) "remove_next_commit" then txn (RemovePolicy (Id p)) else
  '(srcId, _) ← resolveContainerNameAndInfo (h_ContainerName (Source p));
  veth ← attempt (GetVethById srcId);
  match veth with
  | Ok _ =>
      '(bridgeDev, srcAddress) ← GetContainerAddress srcId;
      dstDev ← or_zero "" GetDefaultInterface;
      insert_rules chainName (ns_rule bridgeDev srcAddress dstDev p)
        (ns_log_rule chainName bridgeDev srcAddress dstDev p) (ns_action chainName) logging p
  | _ => unresolved chainName p (h_ContainerName (Source p))
  end.

Definition insertRaindNSUserPolicy (chainName : string) (policies : list Policy)
    (logging : bool) : M unit :=
  for_each (ns_policy chainName logging) policies.

(** [err] is assigned three times; only the last one is returned. *)
Definition BuildUserPolicy : M unit :=
  loggingEw ← GetEWLogging;
  loggingNs ← GetNSLogging;
  ewPolicies ← GetEWPolicyList;
  _ ← attempt (insertRaindEWUserPolicy ewPolicies loggingEw);
  nsObsPolicies ← GetNSObsPolicyList;
  _ ← attempt (insertRaindNSUserPolicy "RAIND-NS-OBS" nsObsPolicies loggingNs);
  nsEnfPolicies ← GetNSEnfPolicyList;
  insertRaindNSUserPolicy "RAIND-NS-ENF" nsEnfPolicies loggingNs.

Definition CommitPolicy : M unit :=
  _ ← FixNSMode;
  _ ← BuildPredefinedPolicy;
  _ ← BuildUserPolicy;
  _ ← invoke Backup;
  mret tt.

Definition RevertPolicy : M unit := _ ← invoke Revert; mret tt.
End service.
