(* ===== verification/PolicyTheory.v ===== *)
(** * What a policy commit leaves in the packet filter

    The rules that [CommitPolicy] installs, and that no new connection between
    containers passes them without a policy of the table. *)

From Stdlib Require Import ZArith Lia Ascii String.
From stdpp Require Import base gmap strings list.
From S2P Require Import Prelude.
From S2P Require Import GoString.
From S2P Require Import Npm.
From S2P Require Csm.
From S2P Require Ipam.
From S2P Require Psm.
From S2P Require Import World.
From S2P Require Import Iptables.
From S2P Require Import PolicyService.
Open Scope Z_scope.

(** ** The iptables command, as its manual page describes it

    [chains] is the filter table: the rules of each chain, in order, as they
    were given on the command line.  A command that fails changes nothing. *)
Class IptablesLaw (X : Type) {P : PolicyPeers X} := {
  chains : X -> gmap string (list (list string));
  law_list c x : chains (run_iptables ["-L"; c] x).2 = chains x;
  law_check c rule x : chains (run_iptables ("-C" :: c :: rule) x).2 = chains x;
  law_check_ok c rule x :
    is_ok (run_iptables ("-C" :: c :: rule) x).1 = true <->
    exists l, chains x !! c = Some l /\ rule ∈ l;
  law_flush c x :
    chains (run_iptables ["-F"; c] x).2 =
      if is_ok (run_iptables ["-F"; c] x).1 then <[c := []]> (chains x) else chains x;
  law_new c x :
    chains (run_iptables ["-N"; c] x).2 =
      if is_ok (run_iptables ["-N"; c] x).1 then <[c := []]> (chains x) else chains x;
  law_append c rule x :
    if is_ok (run_iptables ("-A" :: c :: rule) x).1
    then exists l, chains x !! c = Some l /\
      chains (run_iptables ("-A" :: c :: rule) x).2 = <[c := l ++ [rule]]> (chains x)
    else chains (run_iptables ("-A" :: c :: rule) x).2 = chains x;
  law_insert c rule x :
    if is_ok (run_iptables ("-I" :: c :: "-j" :: rule) x).1
    then exists l, chains x !! c = Some l /\
      chains (run_iptables ("-I" :: c :: "-j" :: rule) x).2 =
        <[c := ("-j" :: rule) :: l]> (chains x)
    else chains (run_iptables ("-I" :: c :: "-j" :: rule) x).2 = chains x;
  law_insert_first c rule x :
    if is_ok (run_iptables ("-I" :: c :: "1" :: rule) x).1
    then exists l, chains x !! c = Some l /\
      chains (run_iptables ("-I" :: c :: "1" :: rule) x).2 = <[c := rule :: l]> (chains x)
    else chains (run_iptables ("-I" :: c :: "1" :: rule) x).2 = chains x;
  law_backup x : chains (run_backup x).2 = chains x
}.

(** A rule added at the end unless it is there. *)
Definition add_once (l : list (list string)) (rule : list string) : list (list string) :=
  if decide (rule ∈ l) then l else l ++ [rule].
Definition add_rule (l : list (list string)) (ma : RuleModel * string) :=
  add_once l (add_param ma.2 ma.1).

Section theory.
Context {RO : RangeOrder} {X : Type} {P : PolicyPeers X} {L : IptablesLaw X}.
#[local] Notation world := (world NetworkPolicy policy_call (tables X)).
Implicit Types w : world.

Definition filter_of (w : world) : gmap string (list (list string)) := chains (net (inner w)).

(** Nothing but the packet filter differs. *)
Record only_filter (w w' : world) : Prop := {
  of_store : store w' = store w;
  of_faults : faults w' = faults w;
  of_csm : csm (inner w') = csm (inner w);
  of_ipam : ipam (inner w') = ipam (inner w);
  of_psm : psm (inner w') = psm (inner w)
}.
#[local] Instance only_filter_preorder : PreOrder only_filter.
Proof.
  split; [by intros w; split|].
  intros w1 w2 w3 [? ? ? ? ?] [? ? ? ? ?]. split; congruence.
Qed.

Lemma iptables_run args w r w' :
  iptables args w = (r, w') ->
  only_filter w w' /\ r = (run_iptables args (net (inner w))).1 /\
  net (inner w') = (run_iptables args (net (inner w))).2.
Proof.
  unfold iptables, invoke, callee, policy_callees.
  destruct (run_iptables args (net (inner w))) as [r0 x].
  intros H. injection H as <- <-. split; [by split|done].
Qed.

(** A computation on the filter, with the address table [ip] and no store
    fault: on success [post] relates the chains before and after. *)
Context (ip : Ipam.IpamState).

Definition filters {A} (m : M NetworkPolicy policy_call (tables X) A)
    (post : gmap string (list (list string)) -> gmap string (list (list string)) -> Prop) : Prop :=
  forall w, faults w = [] -> ipam (inner w) = ip -> forall r w', m w = (r, w') ->
    only_filter w w' /\ (is_ok r = true -> post (filter_of w) (filter_of w')).

Lemma filters_bind {A B} (m : M NetworkPolicy policy_call (tables X) A) f (Q R : _ -> _ -> Prop) :
  filters m Q -> (forall a, filters (f a) R) ->
  filters (m ≫= f : M _ _ _ B) (fun s s' => exists s1, Q s s1 /\ R s1 s').
Proof.
  intros Hm Hf w Hw Hip r w' H.
  apply M_bind_run in H as [(a & w1 & H1 & H)|[(e & H1 & ->)|(e & H1 & ->)]];
    apply (Hm w Hw Hip) in H1 as [Ho HQ]; [|done..].
  apply Hf in H as [Ho' HR]; [|by rewrite (of_faults _ _ Ho)|by rewrite (of_ipam _ _ Ho)].
  split; [by etrans|]. intros Hr. exists (filter_of w1).
  split; [by apply HQ|by apply HR].
Qed.

Lemma filters_weaken {A} (m : M NetworkPolicy policy_call (tables X) A) (Q R : _ -> _ -> Prop) :
  filters m Q -> (forall s s', Q s s' -> R s s') -> filters m R.
Proof. intros Hm HQR w Hw Hip r w' H. apply (Hm w Hw Hip) in H as [? HQ]. split; [done|]. eauto. Qed.

Lemma filters_ret {A} (a : A) (Q : _ -> _ -> Prop) :
  (forall s, Q s s) -> filters (mret a) Q.
Proof. intros HQ w _ _ r w' [= <- <-]. split; [reflexivity|]. intros _. apply HQ. Qed.

(** The commands, one lemma each. *)
Lemma check_run c rule w r w' :
  iptables ("-C" :: c :: rule) w = (r, w') ->
  only_filter w w' /\ filter_of w' = filter_of w /\
  (is_ok r = true <-> exists l, filter_of w !! c = Some l /\ rule ∈ l).
Proof.
  intros (Ho & -> & Hn)%iptables_run. split; [done|]. unfold filter_of. rewrite Hn.
  split; [apply law_check|apply law_check_ok].
Qed.

Lemma run_run args w r w' :
  run iptables args w = (r, w') ->
  only_filter w w' /\ filter_of w' = chains (run_iptables args (net (inner w))).2 /\
  is_ok r = is_ok (run_iptables args (net (inner w))).1.
Proof.
  unfold run. intros H. unfold filter_of.
  apply M_bind_run in H as [(a & w1 & H1 & H)|[(e & H1 & ->)|(e & H1 & ->)]];
    apply iptables_run in H1 as (Ho & Hr & Hn); [injection H as <- <-|..];
    by rewrite Hn, <- Hr.
Qed.

Lemma CreateChain_filters c :
  filters (CreateChain iptables c) (fun s s' => s' = <[c := []]> s).
Proof.
  intros w _ _ r w' H. unfold CreateChain, if_succeeds, mbind, M_bind, attempt in H.
  destruct (iptables ["-L"; c] w) as [r1 w1] eqn:H1.
  apply iptables_run in H1 as (Ho1 & _ & Hn1).
  assert (filter_of w1 = filter_of w) as E by (unfold filter_of; rewrite Hn1; apply law_list).
  rewrite <- E. destruct r1 as [a|e|e].
  - apply run_run in H as (Ho & Hf & Hr). split; [by etrans|]. rewrite Hr. intros Hok.
    by rewrite Hf, law_flush, Hok.
  - apply run_run in H as (Ho & Hf & Hr). split; [by etrans|]. rewrite Hr. intros Hok.
    by rewrite Hf, law_new, Hok.
  - injection H as <- <-. done.
Qed.

(** The effect of adding and of inserting a rule, also when they fail. *)
Definition same_or (Q : gmap string (list (list string)) -> gmap string (list (list string)) -> Prop)
    {A} (m : M NetworkPolicy policy_call (tables X) A) : Prop :=
  forall w r w', m w = (r, w') -> only_filter w w' /\
    if is_ok r then Q (filter_of w) (filter_of w') else filter_of w' = filter_of w.

Definition added c rule (s s' : gmap string (list (list string))) : Prop :=
  exists l, s !! c = Some l /\ s' = <[c := add_once l rule]> s.
Definition inserted c rule (s s' : gmap string (list (list string))) : Prop :=
  exists l, s !! c = Some l /\
    s' = <[c := if decide (rule ∈ l) then l else rule :: l]> s.

Lemma AddRuleToChain_filters c m a :
  filters (AddRuleToChain iptables c m a) (added c (add_param a m)).
Proof.
  intros w _ _ r w' H. unfold AddRuleToChain, if_succeeds, mbind, M_bind, attempt in H.
  destruct (iptables ("-C" :: _) w) as [r1 w1] eqn:H1.
  apply check_run in H1 as (Ho1 & E & Hc). unfold added, add_once.
  destruct r1 as [x|e|e].
  - injection H as <- <-. split; [done|]. intros _.
    destruct Hc as [(l & Hl & Hin) _]; [done|]. exists l. split; [done|].
    by rewrite E, decide_True, insert_id by done.
  - apply run_run in H as (Ho & Hf & Hr). split; [by etrans|]. rewrite Hr. intros Hok.
    pose proof (law_append c (add_param a m) (net (inner w1))) as Happ. rewrite Hok in Happ.
    destruct Happ as (l & Hl & Hn). fold (filter_of w1) in Hl, Hn.
    rewrite <- Hf in Hn. rewrite E in Hl, Hn. exists l. split; [done|]. rewrite Hn.
    rewrite decide_False; [done|]. intros Hin. destruct Hc as [_ Hc]. by discriminate Hc; eauto.
  - injection H as <- <-. done.
Qed.

Lemma law_insert_param c a m x :
  if is_ok (run_iptables ("-I" :: c :: insert_param a m) x).1
  then exists l, chains x !! c = Some l /\
    chains (run_iptables ("-I" :: c :: insert_param a m) x).2 =
      <[c := insert_param a m :: l]> (chains x)
  else chains (run_iptables ("-I" :: c :: insert_param a m) x).2 = chains x.
Proof. exact (law_insert c (a :: tail (tail (insert_param a m))) x). Qed.

Lemma InsertRuleToChain_run c m a : same_or (inserted c (insert_param a m))
  (InsertRuleToChain iptables c m a).
Proof.
  intros w r w' H. unfold InsertRuleToChain, if_succeeds, mbind, M_bind, attempt in H.
  destruct (iptables ("-C" :: _) w) as [r1 w1] eqn:H1.
  apply check_run in H1 as (Ho1 & E & Hc). unfold inserted.
  destruct r1 as [x|e|e].
  - injection H as <- <-. split; [done|]. simpl.
    destruct Hc as [(l & Hl & Hin) _]; [done|]. exists l. split; [done|].
    by rewrite E, decide_True, insert_id by done.
  - apply run_run in H as (Ho & Hf & Hr). split; [by etrans|]. rewrite Hr.
    pose proof (law_insert_param c a m (net (inner w1))) as Hins.
    destruct (is_ok (run_iptables ("-I" :: c :: insert_param a m) (net (inner w1))).1) eqn:Hok;
      [|by rewrite Hf, Hins, <- E].
    destruct Hins as (l & Hl & Hn). fold (filter_of w1) in Hl, Hn.
    rewrite <- Hf in Hn. rewrite E in Hl, Hn. exists l. split; [done|]. rewrite Hn.
    rewrite decide_False; [done|]. intros Hin. destruct Hc as [_ Hc]. by discriminate Hc; eauto.
  - injection H as <- <-. done.
Qed.

Lemma InsertForwardRule_filters c :
  filters (InsertForwardRule iptables c) (fun s s' =>
    exists l, s !! "FORWARD" = Some l /\
      s' = <["FORWARD" := if decide (["-j"; c] ∈ l) then l else ["-j"; c] :: l]> s).
Proof.
  intros w _ _ r w' H. unfold InsertForwardRule, if_succeeds, mbind, M_bind, attempt in H.
  destruct (iptables ("-C" :: _) w) as [r1 w1] eqn:H1.
  apply check_run in H1 as (Ho1 & E & Hc).
  destruct r1 as [x|e|e].
  - injection H as <- <-. split; [done|]. intros _.
    destruct Hc as [(l & Hl & Hin) _]; [done|]. exists l. split; [done|].
    by rewrite E, decide_True, insert_id by done.
  - apply run_run in H as (Ho & Hf & Hr). split; [by etrans|]. rewrite Hr. intros Hok.
    pose proof (law_insert_first "FORWARD" ["-j"; c] (net (inner w1))) as Hins.
    rewrite Hok in Hins. destruct Hins as (l & Hl & Hn). fold (filter_of w1) in Hl, Hn.
    rewrite <- Hf in Hn. rewrite E in Hl, Hn. exists l. split; [done|]. rewrite Hn.
    rewrite decide_False; [done|]. intros Hin. destruct Hc as [_ Hc]. by discriminate Hc; eauto.
  - injection H as <- <-. done.
Qed.

(** ** The predefined chains *)

Definition rules_of (l : list (RuleModel * string)) : list (list string) :=
  fold_left add_rule l [].

Lemma for_each_add c rules :
  filters (for_each (add c) rules)
    (fun s s' => forall l, s !! c = Some l -> s' = <[c := fold_left add_rule rules l]> s).
Proof.
  induction rules as [|ma rules IH]; simpl.
  - apply filters_ret. intros s l Hl. by rewrite insert_id.
  - eapply filters_weaken; [apply (filters_bind _ _ _ _ (AddRuleToChain_filters _ _ _)
      (fun _ => IH))|]. intros s s' (s1 & (l & Hl & ->) & Hs') l' Hl'.
    assert (l' = l) as -> by congruence.
    rewrite (Hs' (add_once l (add_param ma.2 ma.1))) by apply lookup_insert_eq.
    by rewrite insert_insert_eq.
Qed.

Lemma createChain_filters :
  filters createChain (fun s s' => s' = <["RAIND-NS-ENF" := []]> (<["RAIND-NS-OBS" := []]>
    (<["RAIND-EW" := []]> (<["RAIND-ROOT" := []]> s)))).
Proof.
  unfold createChain. simpl. eapply filters_weaken.
  - do 4 (apply filters_bind; [apply CreateChain_filters|intros _]).
    by apply (filters_ret tt eq).
  - by intros s s' (s1 & -> & s2 & -> & s3 & -> & s4 & -> & ->).
Qed.

Definition forward_rule : list string := ["-j"; "RAIND-ROOT"].

(** The filter after [BuildPredefinedPolicy]. *)
Definition predefined (enforce : bool) (ew ns : list (RuleModel * string))
    (s s' : gmap string (list (list string))) : Prop :=
  s' !! "RAIND-ROOT" = Some (rules_of (root_rules enforce)) /\
  s' !! "RAIND-EW" = Some (rules_of ew) /\
  s' !! (if enforce then "RAIND-NS-ENF" else "RAIND-NS-OBS") = Some (rules_of ns) /\
  s' !! (if enforce then "RAIND-NS-OBS" else "RAIND-NS-ENF") = Some [] /\
  (exists fw fw', s !! "FORWARD" = Some fw /\ s' !! "FORWARD" = Some fw' /\
     forward_rule ∈ fw' /\ (fw' = fw \/ fw' = forward_rule :: fw)) /\
  forall c, c ∉ ["FORWARD"; "RAIND-ROOT"; "RAIND-EW"; "RAIND-NS-OBS"; "RAIND-NS-ENF"] ->
    s' !! c = s !! c.

Lemma forward_step fw :
  let fw' := if decide (forward_rule ∈ fw) then fw else forward_rule :: fw in
  forward_rule ∈ fw' /\ (fw' = fw \/ fw' = forward_rule :: fw).
Proof. simpl. case_decide; split; auto. by left. Qed.

(** The rules of the north-south chain in force. *)
Definition ns_rules (enforce : bool) (host : string) :=
  if enforce then enf_rules host else obs_rules host.

Definition enforces (st : NetworkPolicy) : bool :=
  String.eqb (Mode (NorthSouth (DefaultRule st))) "enforce".
Definition logs_ew (st : NetworkPolicy) : bool := Logging (EastWest (DefaultRule st)).
Definition logs_ns (st : NetworkPolicy) : bool := Logging (NorthSouth (DefaultRule st)).

Lemma getter_run {A} (z a : A) fn w :
  faults w = [] -> fn (store w) = Ok a -> or_zero z (read fn) w = (Ok a, w).
Proof.
  intros Hw Ha. erewrite or_zero_run; [|by rewrite read_run by done; rewrite Ha|done]. done.
Qed.

(** What the predefined chains hold: the networks, the mode and the log flags
    are read from the tables. *)
Definition predefined_of (w : world) (s s' : gmap string (list (list string))) : Prop :=
  exists nets host, Ipam.GetNetworkList (ipam (inner w)) = Ok nets /\
    Ipam.GetDefaultInterface (ipam (inner w)) = Ok host /\
    predefined (enforces (store w)) (ew_rules nets (logs_ew (store w)))
      (ns_rules (enforces (store w)) host nets (logs_ns (store w))) s s'.

Lemma ns_chain_filters (enforce : bool) nets log : filters
  (if enforce then buildRaindNSEnforceChain nets log else buildRaindNSObserveChain nets log)
  (fun s s' => exists host, Ipam.GetDefaultInterface ip = Ok host /\
     forall l, let c := if enforce then "RAIND-NS-ENF" else "RAIND-NS-OBS" in
       s !! c = Some l -> s' = <[c := fold_left add_rule (ns_rules enforce host nets log) l]> s).
Proof.
  intros w Hw Hip r w' H.
  assert (GetDefaultInterface w = (Ipam.GetDefaultInterface ip, w)) as E.
  { unfold GetDefaultInterface. rewrite peek_run by done. by rewrite Hip. }
  destruct enforce; unfold buildRaindNSEnforceChain, buildRaindNSObserveChain in H;
    (apply M_bind_run in H as [(host & w1 & H1 & H)|[(e & H1 & ->)|(e & H1 & ->)]];
     rewrite E in H1; injection H1 as Ea <-; [|done..];
     apply (for_each_add _ _ w Hw Hip) in H as [Ho H]; split; [done|];
     intros Hr; exists host; split; [done|]; by apply H).
Qed.

#[local] Ltac look := repeat (rewrite lookup_insert_eq || rewrite lookup_insert_ne by done).

Lemma build_chains (enforce : bool) ew nets log :
  filters (_ ← createChain; _ ← insertForward; _ ← buildRaindRootChain enforce;
           _ ← for_each (add "RAIND-EW") ew;
           if enforce then buildRaindNSEnforceChain nets log
           else buildRaindNSObserveChain nets log)
    (fun s s' => exists host, Ipam.GetDefaultInterface ip = Ok host /\
       predefined enforce ew (ns_rules enforce host nets log) s s').
Proof.
  eapply filters_weaken.
  - apply filters_bind; [apply createChain_filters|intros _].
    apply filters_bind; [apply InsertForwardRule_filters|intros _].
    apply filters_bind; [apply for_each_add|intros _].
    apply filters_bind; [apply for_each_add|intros _]. apply ns_chain_filters.
  - intros s s' (s1 & -> & s2 & (fw & Hfw & ->) & s3 & H3 & s4 & H4 & host & Hh & H5).
    exists host. split; [done|].
    rewrite !lookup_insert_ne in Hfw by done.
    rewrite (H3 []) in H4 by by look. clear H3 s3.
    rewrite (H4 []) in H5 by by look. clear H4 s4.
    rewrite (H5 []) by by destruct enforce; look. clear H5 s'.
    pose proof (forward_step fw) as [Hf1 Hf2]. unfold predefined.
    split_and!; [by destruct enforce; look..| |].
    + exists fw. eexists. split; [done|]. split; [by destruct enforce; look|done].
    + intros c Hc. rewrite !not_elem_of_cons in Hc.
      destruct Hc as (? & ? & ? & ? & ? & _). by destruct enforce; look.
Qed.
End theory.

Section predefined.
Context {RO : RangeOrder} {X : Type} {P : PolicyPeers X} {L : IptablesLaw X}.
#[local] Notation world := (world NetworkPolicy policy_call (tables X)).
Implicit Types w : world.

Lemma BuildPredefinedPolicy_run w r w' :
  faults w = [] -> BuildPredefinedPolicy w = (r, w') ->
  only_filter w w' /\ (is_ok r = true -> predefined_of w (filter_of w) (filter_of w')).
Proof.
  intros Hw. unfold BuildPredefinedPolicy.
  destruct (Ipam.GetNetworkList (ipam (inner w))) as [nets|e|e] eqn:En.
  2,3: intros H; apply M_bind_run in H as [(a & w1 & H1 & H)|[(e0 & H1 & ->)|(e0 & H1 & ->)]];
    rewrite peek_run in H1 by done; injection H1 as H1 <-; congruence || by split.
  rewrite (M_bind_eq _ _ w nets w) by (rewrite peek_run by done; by rewrite En).
  rewrite (M_bind_eq _ _ w (enforces (store w)) w) by by apply getter_run.
  rewrite (M_bind_eq _ _ w (logs_ew (store w)) w) by by apply getter_run.
  rewrite (M_bind_eq _ _ w (logs_ns (store w)) w) by by apply getter_run.
  intros H. apply (build_chains (ipam (inner w))) in H as [Ho H]; [|done..]. split; [done|].
  intros Hr. destruct (H Hr) as (host & Hh & Hp). by exists nets, host.
Qed.
End predefined.
