(* ===== verification/PolicyCommit.v ===== *)
(** * What packets pass after a policy commit

    The rules that the policies of the users put before the predefined ones,
    the reading of the chains by the packet filter, and default deny: no new
    connection between containers, or in enforcing mode from a container to
    the outside, passes without a live policy of the table. *)

From Stdlib Require Import ZArith Lia Ascii String.
From stdpp Require Import base gmap strings list.
From S2P Require Import Prelude.
From S2P Require Import GoString.
From S2P Require Import Npm.
From S2P Require Csm.
From S2P Require Ipam.
From S2P Require Psm.
From S2P Require Import World.
From S2P Require Import Iptables.
From S2P Require Import PolicyService.
From S2P Require Import PolicyTheory.
Open Scope Z_scope.

(** ** The rules of a policy *)

(** The container id that [resolveContainerNameAndInfo] finds. *)
Definition resolve_id `{RangeOrder} (cs : Csm.ContainerState) (str : string) : string :=
  match Csm.GetContainerIdByName str cs with
  | Ok got => got
  | _ => match Csm.GetContainerNameById str cs with Ok _ => str | _ => "" end
  end.

Definition veth_of `{RangeOrder} (cs : Csm.ContainerState) (ip : Ipam.IpamState)
    (h : Npm.HostInfo) : res string :=
  Ipam.GetVethById (resolve_id cs (h_ContainerName h)) ip.

Definition live (p : Policy) : bool := negb (String.eqb (Status p) "remove_next_commit").

(** What the loops find for a live policy: its rule with the log rule, or the
    name of a container without an address. *)
Definition resolution : Type := (RuleModel * RuleModel) + string.

Definition ew_resolve `{RangeOrder} cs ip (p : Policy) : resolution :=
  match veth_of cs ip (Source p), veth_of cs ip (Destination p) with
  | Ok s, Ok d => inl (ew_rule s d p, ew_log_rule s d p)
  | Ok _, _ => inr (h_ContainerName (Destination p))
  | _, _ => inr (h_ContainerName (Source p))
  end.

Definition ns_resolve `{RangeOrder} (c : string) cs ip (p : Policy) : resolution :=
  match veth_of cs ip (Source p) with
  | Ok _ =>
      let '(_, bridgeDev, srcAddress, _) :=
        Ipam.GetContainerAddress (resolve_id cs (h_ContainerName (Source p))) ip in
      let dstDev := match Ipam.GetDefaultInterface ip with Ok h => h | _ => "" end in
      inl (ns_rule bridgeDev srcAddress dstDev p, ns_log_rule c bridgeDev srcAddress dstDev p)
  | _ => inr (h_ContainerName (Source p))
  end.

(** The rule of a policy that is live and resolved. *)
Definition model_of (resolve : Policy -> resolution) (p : Policy) : option RuleModel :=
  if live p then match resolve p with inl (m, _) => Some m | inr _ => None end else None.
Definition ew_model `{RangeOrder} cs ip := model_of (ew_resolve cs ip).
Definition ns_model `{RangeOrder} cs ip := model_of (ns_resolve "RAIND-NS-ENF" cs ip).

(** A rule that [action]s what a policy of [l] names, or logs. *)
Definition user_rule (model : Policy -> option RuleModel) (action : string)
    (l : list Policy) (u : list string) : Prop :=
  (exists p m, p ∈ l /\ model p = Some m /\ u = insert_param action m) \/
  exists opts, u = "-j" :: "NFLOG" :: opts.

(** Rules are added at the head of one chain. *)
Definition extends (c : string) (ok : list string -> Prop)
    (s s' : gmap string (list (list string))) : Prop :=
  (forall d, d <> c -> s' !! d = s !! d) /\
  forall l, s !! c = Some l -> exists us, s' !! c = Some (us ++ l) /\ Forall ok us.

#[export] Instance extends_preorder c ok : PreOrder (extends c ok).
Proof.
  split.
  - intros s. split; [done|]. intros l Hl. by exists [].
  - intros s1 s2 s3 [H1 H2] [H3 H4]. split.
    + intros d Hd. by rewrite H3, H1.
    + intros l Hl. destruct (H2 l Hl) as (us & Hus & Hok).
      destruct (H4 _ Hus) as (vs & Hvs & Hok'). exists (vs ++ us).
      rewrite Hvs. split; [by rewrite (assoc_L (++))|by apply Forall_app].
Qed.

Lemma inserted_extends c (ok : list string -> Prop) u s s' :
  ok u -> inserted c u s s' -> extends c ok s s'.
Proof.
  intros Hu (l & Hl & ->). split; [intros d Hd; by rewrite lookup_insert_ne|].
  intros l' Hl'. simplify_eq. case_decide.
  - exists []. by rewrite lookup_insert_eq.
  - exists [u]. rewrite lookup_insert_eq. split; [done|]. by apply Forall_singleton.
Qed.

Section grows.
Context {RO : RangeOrder} {X : Type} {P : PolicyPeers X} {L : IptablesLaw X}.
#[local] Notation world := (world NetworkPolicy policy_call (tables X)).
#[local] Notation M := (M NetworkPolicy policy_call (tables X)).
Implicit Types w : world.
Context (cs : Csm.ContainerState) (ip : Ipam.IpamState).

(** No store fault, and the container and address tables are [cs] and [ip]. *)
Record sound (w : world) : Prop := {
  sound_faults : faults w = [];
  sound_csm : csm (inner w) = cs;
  sound_ipam : ipam (inner w) = ip
}.

(** What a step of the user phase does: [R] to the policy table, rules
    satisfying [ok] before those of chain [c]. *)
Definition grows (c : string) (ok : list string -> Prop) (R : relation NetworkPolicy)
    {A} (m : M A) : Prop :=
  forall w, sound w -> sound (m w).2 /\ R (store w) (store (m w).2) /\
    extends c ok (filter_of w) (filter_of (m w).2).

Section rules.
Context (c : string) (ok : list string -> Prop) (R : relation NetworkPolicy) `{!PreOrder R}.

Lemma grows_bind {A B} (m : M A) (f : A -> M B) :
  grows c ok R m -> (forall a, grows c ok R (f a)) -> grows c ok R (m ≫= f).
Proof.
  intros Hm Hf w Hw. unfold mbind, M_bind. destruct (Hm w Hw) as (H1 & H2 & H3).
  destruct (m w) as [[a|e|e] w1]; simpl in *; [|done..].
  destruct (Hf a w1 H1) as (H4 & H5 & H6). split; [done|]. split; by etrans.
Qed.
Lemma grows_attempt {A} (m : M A) : grows c ok R m -> grows c ok R (attempt m).
Proof.
  intros Hm w Hw. unfold attempt. specialize (Hm w Hw). by destruct (m w) as [[| |] w1].
Qed.
Lemma grows_ignore {A} (m : M A) : grows c ok R m -> grows c ok R (ignore m).
Proof.
  intros Hm w Hw. unfold ignore. specialize (Hm w Hw). by destruct (m w) as [[| |] w1].
Qed.
Lemma grows_ret {A} (a : A) : grows c ok R (mret a).
Proof. intros w Hw. simpl. done. Qed.
Lemma grows_txn {A} (fn : NetworkPolicy -> res (NetworkPolicy * A)) :
  (forall st st' a, fn st = Ok (st', a) -> R st st') -> grows c ok R (txn fn).
Proof.
  intros Hfn w Hw. rewrite txn_run by by apply Hw. destruct Hw.
  destruct (fn (store w)) as [[st a]|e|e] eqn:E; simpl; [|done..].
  split; [done|]. split; [by eapply Hfn|done].
Qed.
Lemma grows_insert m a :
  ok (insert_param a m) -> grows c ok R (InsertRuleToChain iptables c m a).
Proof.
  intros Hok w [Hf Hc Hi]. destruct (InsertRuleToChain iptables c m a w) as [r w'] eqn:H.
  apply InsertRuleToChain_run in H as [[Hs Hf' Hc' Hi' _] H]. simpl.
  split; [split; congruence|]. rewrite Hs. split; [done|].
  destruct (is_ok r); [by eapply inserted_extends|by rewrite H].
Qed.
Lemma grows_for_each {A} (f : A -> M unit) l :
  (forall x, x ∈ l -> grows c ok R (f x)) -> grows c ok R (for_each f l).
Proof.
  induction l as [|x l IH]; intros Hf; simpl; [apply grows_ret|].
  apply grows_bind; [apply Hf; by left|]. intros _. apply IH. intros y Hy. apply Hf. by right.
Qed.

(** The loop body, from the point where the rule is known. *)
Lemma insert_rules_grows rule log_rule action logging p :
  ok (insert_param action rule) -> (forall opts, ok ("-j" :: "NFLOG" :: opts)) ->
  (forall st st' u, UpdateStatus c (Id p) "applied" "" st = Ok (st', u) -> R st st') ->
  grows c ok R (insert_rules c rule log_rule action logging p).
Proof using PreOrder0 L.
  intros Hok Hlog HR.
  assert (grows c ok R (applied c p)) as Ha by (apply grows_ignore, grows_txn; exact HR).
  apply grows_bind; [by apply grows_attempt, grows_insert|]. intros [[]|e|e]; [|apply grows_ret..].
  destruct logging; [|done]. apply grows_bind; [apply grows_attempt, grows_insert, Hlog|].
  intros [[]|e'|e']; [done|apply grows_ret..].
Qed.

Lemma unresolved_grows p name :
  (forall st st' u reason, UpdateStatus c (Id p) "unresolved" reason st = Ok (st', u) -> R st st') ->
  grows c ok R (unresolved c p name).
Proof. intros HR. by apply grows_txn; eauto. Qed.

End rules.

(** What the policies of one chain do to the others: nothing, except that a
    removal may drop some. *)
Definition keeps (f : NetworkPolicy -> list Policy) (st st' : NetworkPolicy) : Prop :=
  f st' ⊆ f st /\ DefaultRule st' = DefaultRule st.
#[local] Instance keeps_preorder f : PreOrder (keeps f).
Proof.
  split; [by intros st|]. intros s1 s2 s3 [H1 H2] [H3 H4]. split; [by etrans|congruence].
Qed.

Definition ew_list (st : NetworkPolicy) := EastWestPolicy (Policies st).
Definition obs_list (st : NetworkPolicy) := NorthSouthObservePolicy (Policies st).
Definition enf_list (st : NetworkPolicy) := NorthSouthEnforcePolicy (Policies st).

Lemma remove_id_subset id l l' : remove_id id l = Some l' -> l' ⊆ l.
Proof.
  revert l'. induction l as [|p l IH]; intros l' H; simpl in H; [done|].
  case_match; [simplify_eq; set_solver|].
  apply fmap_Some in H as (r & Hr & ->). specialize (IH _ Hr). set_solver.
Qed.

Lemma RemovePolicy_keeps id st st' u f :
  f = obs_list \/ f = enf_list -> RemovePolicy id st = Ok (st', u) -> keeps f st st'.
Proof.
  unfold RemovePolicy. intros Hf H. repeat case_match; simplify_eq;
    (split; [|done]); destruct Hf as [-> | ->]; try done; by eapply remove_id_subset.
Qed.

Lemma UpdateStatus_keeps c id status reason st st' u f :
  (c = "RAIND-EW" /\ (f = obs_list \/ f = enf_list)) \/ (c = "RAIND-NS-OBS" /\ f = enf_list) ->
  UpdateStatus c id status reason st = Ok (st', u) -> keeps f st st'.
Proof.
  unfold UpdateStatus. intros Hf H.
  destruct Hf as [(-> & [-> | ->])|(-> & ->)]; cbn in H; case_match; by simplify_eq.
Qed.

(** *** One turn of the loops *)

Lemma resolve_run str w :
  sound w -> exists name, resolveContainerNameAndInfo str w = (Ok (resolve_id cs str, name), w).
Proof.
  intros [Hf Hc _]. unfold resolveContainerNameAndInfo, resolve_id, mbind, M_bind, attempt.
  rewrite peek_run by done. rewrite Hc.
  unfold Csm.GetContainerIdByName. destruct (Csm.find_by_name str cs) as [[k c0]|];
    [by eexists|]. rewrite peek_run by done. rewrite Hc.
  unfold Csm.GetContainerNameById, Csm.get_by_id.
  by destruct (Csm.find_by_id str cs) as [[k c0]|]; eexists.
Qed.

Lemma veth_run h w :
  sound w -> attempt (GetVethById (resolve_id cs (h_ContainerName h))) w =
    (Ok (veth_of cs ip h), w).
Proof.
  intros [Hf _ Hi]. unfold attempt, GetVethById, veth_of. rewrite peek_run, Hi by done.
  unfold Ipam.GetVethById. by destruct (Ipam.locate _ _) as [[? []]|].
Qed.

(** A live policy becomes its rules or is marked; another is removed. *)
Definition turn (c action : string) (resolve : Policy -> resolution) (logging : bool)
    (p : Policy) : M unit :=
  if live p then
    match resolve p with
    | inl (m, log) => insert_rules c m log action logging p
    | inr name => unresolved c p name
    end
  else txn (RemovePolicy (Id p)).

Lemma ew_policy_turn logging p w :
  sound w -> ew_policy logging p w = turn "RAIND-EW" "ACCEPT" (ew_resolve cs ip) logging p w.
Proof.
  intros Hw. unfold ew_policy, turn, live, ew_resolve.
  destruct (String.eqb (Status p) "remove_next_commit"); [done|].
  destruct (resolve_run (h_ContainerName (Source p)) w Hw) as [n E].
  rewrite (M_bind_eq _ _ _ _ _ E). clear E n.
  destruct (resolve_run (h_ContainerName (Destination p)) w Hw) as [n E].
  rewrite (M_bind_eq _ _ _ _ _ E), (M_bind_eq _ _ _ _ _ (veth_run _ w Hw)). clear E n.
  destruct (veth_of cs ip (Source p)); [|done..].
  rewrite (M_bind_eq _ _ _ _ _ (veth_run _ w Hw)). by destruct (veth_of cs ip (Destination p)).
Qed.

Lemma GetContainerAddress_run id w :
  sound w -> GetContainerAddress id w =
    (Ok (let '(_, bridgeDev, srcAddress, _) := Ipam.GetContainerAddress id ip in
         (bridgeDev, srcAddress)), w).
Proof.
  intros [Hf _ Hi]. unfold GetContainerAddress.
  erewrite or_zero_run; [|by rewrite peek_run|]; rewrite Hi;
    by destruct (Ipam.GetContainerAddress id ip) as [[[? ?] ?] ?].
Qed.

Lemma host_run w :
  sound w -> or_zero "" GetDefaultInterface w =
    (Ok (match Ipam.GetDefaultInterface ip with Ok h => h | _ => "" end), w).
Proof.
  intros [Hf _ Hi]. unfold GetDefaultInterface.
  erewrite or_zero_run; [|by rewrite peek_run|]; rewrite Hi; [done|].
  intros e. unfold Ipam.GetDefaultInterface. by case_match.
Qed.

Lemma ns_policy_turn c logging p w :
  sound w -> ns_policy c logging p w = turn c (ns_action c) (ns_resolve c cs ip) logging p w.
Proof.
  intros Hw. unfold ns_policy, turn, live, ns_resolve.
  destruct (String.eqb (Status p) "remove_next_commit"); [done|].
  destruct (resolve_run (h_ContainerName (Source p)) w Hw) as [n E].
  rewrite (M_bind_eq _ _ _ _ _ E), (M_bind_eq _ _ _ _ _ (veth_run _ w Hw)).
  destruct (veth_of cs ip (Source p)); [|done..].
  rewrite (M_bind_eq _ _ _ _ _ (GetContainerAddress_run _ w Hw)).
  destruct (Ipam.GetContainerAddress _ ip) as [[[? ?] ?] ?].
  by rewrite (M_bind_eq _ _ _ _ _ (host_run w Hw)).
Qed.

(** *** The loops over the policies of a chain *)
Section loop.
Context (c action : string) (resolve : Policy -> resolution) (logging : bool).
Context (step : Policy -> M unit).
Context (Hstep : forall p w, sound w -> step p w = turn c action resolve logging p w).
Context (R : relation NetworkPolicy) `{!PreOrder R}.
Context (Hupdate : forall id status reason st st' u,
  UpdateStatus c id status reason st = Ok (st', u) -> R st st').
Context (Hremove : forall id st st' u, RemovePolicy id st = Ok (st', u) -> R st st').

Lemma loop_grows policies :
  grows c (user_rule (model_of resolve) action policies) R (for_each step policies).
Proof using All.
  apply grows_for_each; [done|]. intros p Hp w Hw. rewrite (Hstep p w Hw). revert w Hw.
  unfold turn. destruct (live p) eqn:El;
    [|apply grows_txn; [done|]; intros st st' u; apply Hremove].
  destruct (resolve p) as [[m log]|name] eqn:Er;
    [|apply unresolved_grows; [done|]; intros; by eapply Hupdate].
  apply insert_rules_grows; [done| |right; by eexists|intros ???; apply Hupdate].
  left. exists p, m. split; [done|]. split; [|reflexivity]. unfold model_of. by rewrite El, Er.
Qed.
End loop.

Definition ew_loop_grows logging :=
  loop_grows "RAIND-EW" "ACCEPT" (ew_resolve cs ip) logging _ (ew_policy_turn logging).
Definition ns_loop_grows c logging :=
  loop_grows c (ns_action c) (ns_resolve c cs ip) logging _ (ns_policy_turn c logging).

Lemma extends_mono c (ok ok' : list string -> Prop) s s' :
  (forall u, ok u -> ok' u) -> extends c ok s s' -> extends c ok' s s'.
Proof.
  intros Hok [H1 H2]. split; [done|]. intros l Hl. destruct (H2 l Hl) as (us & Hus & Hf).
  exists us. split; [done|]. by eapply Forall_impl.
Qed.

Lemma ns_model_any c p : model_of (ns_resolve c cs ip) p = ns_model cs ip p.
Proof.
  unfold ns_model, model_of, ns_resolve. destruct (live p); [|done].
  destruct (veth_of cs ip (Source p)); [|done..].
  by destruct (Ipam.GetContainerAddress _ ip) as [[[? ?] ?] ?].
Qed.

Lemma ns_rule_any c a l l' u :
  l ⊆ l' -> user_rule (model_of (ns_resolve c cs ip)) a l u -> user_rule (ns_model cs ip) a l' u.
Proof.
  intros Hl [(p & m & Hp & Hm & Hu)|H]; [|by right]. left. exists p, m.
  rewrite ns_model_any in Hm. split; [by apply Hl|done].
Qed.

Lemma attempt_step {A B} (m : M A) (k : M B) w r w' :
  (_ ← attempt m; k) w = (r, w') -> is_ok r = true -> k (m w).2 = (r, w').
Proof.
  unfold mbind, M_bind, attempt. by destruct (m w) as [[a|e|e] w1]; intros H; simplify_eq.
Qed.

(** The three lists of rules that a commit puts before the predefined ones. *)
Definition user_phase (st : NetworkPolicy) (s s' : gmap string (list (list string))) : Prop :=
  exists s1 s2,
    extends "RAIND-EW" (user_rule (ew_model cs ip) "ACCEPT" (ew_list st)) s s1 /\
    extends "RAIND-NS-OBS" (user_rule (ns_model cs ip) "DROP" (obs_list st)) s1 s2 /\
    extends "RAIND-NS-ENF" (user_rule (ns_model cs ip) "ACCEPT" (enf_list st)) s2 s'.

(** The list that a phase reads is one of the start. *)
Definition others (st st' : NetworkPolicy) : Prop :=
  keeps obs_list st st' /\ keeps enf_list st st'.
#[local] Instance others_preorder : PreOrder others.
Proof. split; [by intros st|]. intros s1 s2 s3 [H1 H2] [H3 H4]. split; by etrans. Qed.

Definition anything : relation NetworkPolicy := fun _ _ => True.
#[local] Instance anything_preorder : PreOrder anything.
Proof. by split. Qed.

Lemma EW_others id status reason st st' u :
  UpdateStatus "RAIND-EW" id status reason st = Ok (st', u) -> others st st'.
Proof. intros H. split; (eapply UpdateStatus_keeps; [|done]); naive_solver. Qed.
Lemma OBS_keeps id status reason st st' u :
  UpdateStatus "RAIND-NS-OBS" id status reason st = Ok (st', u) -> keeps enf_list st st'.
Proof. intros H. eapply UpdateStatus_keeps; [|done]. naive_solver. Qed.
Lemma Remove_others id st st' u : RemovePolicy id st = Ok (st', u) -> others st st'.
Proof. intros H. split; (eapply RemovePolicy_keeps; [|done]); naive_solver. Qed.

Lemma BuildUserPolicy_run w r w' :
  sound w -> BuildUserPolicy w = (r, w') -> is_ok r = true ->
  sound w' /\ user_phase (store w) (filter_of w) (filter_of w').
Proof.
  intros Hw H Hr.
  unfold BuildUserPolicy, insertRaindEWUserPolicy, insertRaindNSUserPolicy in H.
  rewrite (M_bind_eq _ _ w (logs_ew (store w)) w) in H by (apply getter_run; [apply Hw|done]).
  rewrite (M_bind_eq _ _ w (logs_ns (store w)) w) in H by (apply getter_run; [apply Hw|done]).
  rewrite (M_bind_eq _ _ w (ew_list (store w)) w) in H by (apply getter_run; [apply Hw|done]).
  apply attempt_step in H; [|done].
  destruct (ew_loop_grows (logs_ew (store w)) others _ EW_others Remove_others
    (ew_list (store w)) w Hw) as (Hw1 & [Ho1 He1] & Hx1).
  revert H Hw1 Ho1 He1 Hx1. generalize (for_each (ew_policy (logs_ew (store w)))
    (ew_list (store w)) w).2. intros w1 H Hw1 Ho1 He1 Hx1.
  rewrite (M_bind_eq _ _ w1 (obs_list (store w1)) w1) in H by (apply getter_run; [apply Hw1|done]).
  apply attempt_step in H; [|done].
  destruct (ns_loop_grows "RAIND-NS-OBS" (logs_ns (store w)) (keeps enf_list) _
    OBS_keeps (fun id st st' u => RemovePolicy_keeps id st st' u _ (or_intror eq_refl))
    (obs_list (store w1)) w1 Hw1) as (Hw2 & [He2 _] & Hx2).
  revert H Hw2 He2 Hx2. generalize (for_each (ns_policy "RAIND-NS-OBS" (logs_ns (store w)))
    (obs_list (store w1)) w1).2. intros w2 H Hw2 He2 Hx2.
  rewrite (M_bind_eq _ _ w2 (enf_list (store w2)) w2) in H by (apply getter_run; [apply Hw2|done]).
  destruct (ns_loop_grows "RAIND-NS-ENF" (logs_ns (store w)) anything _
    (fun _ _ _ _ _ _ _ => I) (fun _ _ _ _ _ => I)
    (enf_list (store w2)) w2 Hw2) as (Hw3 & _ & Hx3).
  rewrite H in Hw3, Hx3. split; [done|]. exists (filter_of w1), (filter_of w2).
  split; [done|]. split.
  - eapply extends_mono; [|exact Hx2]. intros u. apply ns_rule_any, Ho1.
  - eapply extends_mono; [|exact Hx3]. intros u. apply ns_rule_any. etrans; [done|].
    apply He1.
Qed.
End grows.

(** ** The whole commit *)
Section commit.
Context {RO : RangeOrder} {X : Type} {P : PolicyPeers X} {L : IptablesLaw X}.
#[local] Notation world := (world NetworkPolicy policy_call (tables X)).
Implicit Types w : world.

Definition fixed_mode (mode : string) : string :=
  if String.eqb mode "observe" || String.eqb mode "enforce" then mode
  else if contains mode "_next_commit" then split_head "_"%char mode else mode.
Definition ns_mode (st : NetworkPolicy) : string := Mode (NorthSouth (DefaultRule st)).

(** The table when the rules are built. *)
Definition fixed (st : NetworkPolicy) : NetworkPolicy :=
  {| Version := Version st;
     DefaultRule := {| EastWest := EastWest (DefaultRule st);
                       NorthSouth := {| Mode := fixed_mode (ns_mode st);
                                        Logging := logs_ns st |} |};
     Policies := Policies st |}.

Lemma fixed_same st : fixed_mode (ns_mode st) = ns_mode st -> fixed st = st.
Proof. unfold fixed. intros ->. by destruct st as [? [? []] ?]. Qed.

Lemma FixNSMode_run cs ip w :
  sound cs ip w -> FixNSMode w = (Ok tt, set_store (fixed (store w)) w).
Proof.
  intros [Hw _ _]. unfold FixNSMode.
  rewrite (M_bind_eq _ _ w (ns_mode (store w)) w) by by apply getter_run.
  pose proof (fixed_same (store w)) as Hs. unfold fixed_mode in Hs at 1.
  assert (forall w : world, set_store (store w) w = w) as Hid by (by intros []).
  destruct (_ || _) eqn:E1; [by rewrite Hs, Hid|].
  destruct (contains (ns_mode (store w)) "_next_commit") eqn:E2; [|by rewrite Hs, Hid].
  rewrite txn_run by done. simpl. unfold fixed, fixed_mode. by rewrite E1, E2.
Qed.

(** What the chains hold after a commit: before the predefined rules, those of
    the policies. *)
Definition committed (w : world) (s s' : gmap string (list (list string))) : Prop :=
  exists nets host s1,
    Ipam.GetNetworkList (ipam (inner w)) = Ok nets /\
    Ipam.GetDefaultInterface (ipam (inner w)) = Ok host /\
    let st := fixed (store w) in
    predefined (enforces st) (ew_rules nets (logs_ew st))
      (ns_rules (enforces st) host nets (logs_ns st)) s s1 /\
    user_phase (csm (inner w)) (ipam (inner w)) st s1 s'.

Lemma Backup_run w r w' :
  (_ ← invoke Backup; mret tt) w = (r, w') ->
  store w' = store w /\ filter_of w' = filter_of w.
Proof.
  unfold mbind, M_bind, invoke, callee, policy_callees, filter_of. intros H.
  pose proof (law_backup (net (inner w))) as Hb.
  destruct (run_backup (net (inner w))) as [[b|e|e] x]; simpl in *;
    injection H as <- <-; done.
Qed.

(** A commit that succeeds, phase by phase. *)
Lemma CommitPolicy_phases w w' :
  faults w = [] -> CommitPolicy w = (Ok tt, w') ->
  let w1 := set_store (fixed (store w)) w in
  exists w2 w3, BuildPredefinedPolicy w1 = (Ok tt, w2) /\
    sound (csm (inner w)) (ipam (inner w)) w2 /\ store w2 = fixed (store w) /\
    BuildUserPolicy w2 = (Ok tt, w3) /\
    store w' = store w3 /\ filter_of w' = filter_of w3.
Proof.
  intros Hw H w1. assert (sound (csm (inner w)) (ipam (inner w)) w) as Hs by done.
  unfold CommitPolicy in H. rewrite (M_bind_eq _ _ _ _ _ (FixNSMode_run _ _ _ Hs)) in H.
  apply M_bind_run in H as [([] & w2 & H1 & H)|[(e & H1 & ?)|(e & H1 & ?)]]; [|done..].
  pose proof H1 as [[Ho1 Ho2 Ho3 Ho4 _] _]%BuildPredefinedPolicy_run; [|done].
  apply M_bind_run in H as [([] & w3 & H3 & H)|[(e & H3 & ?)|(e & H3 & ?)]]; [|done..].
  exists w2, w3. split; [exact H1|]. split; [by split; rewrite ?Ho2, ?Ho3, ?Ho4|].
  split; [done|]. split; [done|]. by apply Backup_run in H.
Qed.

Lemma CommitPolicy_run w w' :
  faults w = [] -> CommitPolicy w = (Ok tt, w') -> committed w (filter_of w) (filter_of w').
Proof.
  intros Hw H. destruct (CommitPolicy_phases _ _ Hw H) as (w2 & w3 & H1 & Hs & Hst & H3 & _ & ->).
  apply BuildPredefinedPolicy_run in H1 as [_ H1]; [|done].
  destruct (H1 eq_refl) as (nets & host & Hn & Hh & Hp).
  apply (BuildUserPolicy_run _ _ _ _ _ Hs) in H3 as [_ H3]; [|done].
  rewrite Hst in H3. by exists nets, host, (filter_of w2).
Qed.
End commit.

(** * What a policy commit does to the policy table

    The policies marked for removal, and only those, leave the table; the mode
    becomes the one asked for. *)

Definition chain_list (c : string) (st : NetworkPolicy) : list Policy :=
  if String.eqb c "RAIND-EW" then ew_list st
  else if String.eqb c "RAIND-NS-OBS" then obs_list st
  else if String.eqb c "RAIND-NS-ENF" then enf_list st
  else [].
Definition chain_names : list string := ["RAIND-EW"; "RAIND-NS-OBS"; "RAIND-NS-ENF"].

Definition policy_ids (l : list Policy) : list string := Id <$> l.
Definition all_ids (st : NetworkPolicy) : list string :=
  policy_ids (ew_list st) ++ policy_ids (obs_list st) ++ policy_ids (enf_list st).
Definition dead_ids (l : list Policy) : list string :=
  policy_ids (List.filter (fun p => negb (live p)) l).

(** The identifiers of chain [c] change by [f]; nothing else does. *)
Definition edits (c : string) (f : list string -> list string)
    (st st' : NetworkPolicy) : Prop :=
  policy_ids (chain_list c st') = f (policy_ids (chain_list c st)) /\
  (forall d, d ∈ chain_names -> d <> c -> chain_list d st' = chain_list d st) /\
  DefaultRule st' = DefaultRule st.
Definition same_ids (c : string) := edits c (fun l => l).

#[export] Instance same_ids_preorder c : PreOrder (same_ids c).
Proof.
  split; [by intros st|]. intros s1 s2 s3 (H1 & H2 & H3) (H4 & H5 & H6).
  split; [congruence|]. split; [|congruence]. intros d Hd Hne. by rewrite H5, H2.
Qed.

Lemma edits_trans c f g st st1 st2 :
  edits c f st st1 -> edits c g st1 st2 -> edits c (fun l => g (f l)) st st2.
Proof.
  intros (H1 & H2 & H3) (H4 & H5 & H6). split; [congruence|]. split; [|congruence].
  intros d Hd Hne. by rewrite H5, H2.
Qed.

(** The three chains, one by one. *)
Ltac by_chain H :=
  unfold chain_names in H; rewrite !elem_of_cons in H;
  destruct H as [-> |[-> |[-> |H%elem_of_nil]]]; [| | |done].

(** ** Lists of identifiers *)

Lemma ids_app l k : policy_ids (l ++ k) = policy_ids l ++ policy_ids k.
Proof. apply fmap_app. Qed.

Lemma has_id_ids id l : has_id id l = false <-> id ∉ policy_ids l.
Proof.
  rewrite has_id_false. unfold policy_ids. rewrite list_elem_of_fmap. naive_solver.
Qed.

Lemma update_id_ids id s r l :
  match update_id id s r l with
  | Some l' => policy_ids l' = policy_ids l
  | None => id ∉ policy_ids l
  end.
Proof.
  pose proof (update_id_spec id s r l) as H. destruct (update_id id s r l) as [l'|].
  - destruct H as (l1 & p & l2 & -> & -> & _). by rewrite !ids_app.
  - by apply has_id_ids.
Qed.

Lemma filter_not_in (l : list string) i : i ∉ l -> filter (fun x => x <> i) l = l.
Proof.
  intros Hi. induction l as [|x l IH]; [done|]. rewrite filter_cons_True by set_solver.
  f_equal. apply IH. set_solver.
Qed.

Lemma remove_id_ids id l :
  NoDup (policy_ids l) ->
  match remove_id id l with
  | Some l' => id ∈ policy_ids l /\ policy_ids l' = filter (fun i => i <> id) (policy_ids l)
  | None => id ∉ policy_ids l
  end.
Proof.
  pose proof (remove_id_spec id l) as H. destruct (remove_id id l) as [l'|]; intros Hnd.
  - destruct H as (l1 & p & l2 & -> & -> & <- & H1%has_id_ids).
    rewrite !ids_app in *. apply NoDup_app in Hnd as (_ & _ & [Hp _]%NoDup_cons).
    split; [set_solver|]. rewrite filter_app. simpl. rewrite filter_cons_False by naive_solver.
    by rewrite !filter_not_in.
  - by apply has_id_ids.
Qed.

(** ** The operations of the table *)

Lemma UpdateStatus_same c id status reason st st' u :
  c ∈ chain_names -> UpdateStatus c id status reason st = Ok (st', u) -> same_ids c st st'.
Proof.
  intros Hc H. by_chain Hc; unfold UpdateStatus in H; simpl in H;
    (match type of H with context[update_id ?i ?s ?r ?l] =>
       pose proof (update_id_ids i s r l) as Hl; destruct (update_id i s r l) end; [|done]);
    injection H as <- _; (split; [exact Hl|]); (split; [|done]); intros d Hd Hne; by by_chain Hd.
Qed.

Lemma UpdateStatus_known c id status reason st :
  c ∈ chain_names -> id ∈ policy_ids (chain_list c st) ->
  exists st', UpdateStatus c id status reason st = Ok (st', tt).
Proof.
  intros Hc Hin. by_chain Hc; unfold UpdateStatus; simpl;
    (match goal with |- context[update_id ?i ?s ?r ?l] =>
       pose proof (update_id_ids i s r l) as Hl; destruct (update_id i s r l) end; [by eexists|done]).
Qed.

Lemma RemovePolicy_known c id st :
  c ∈ chain_names -> NoDup (all_ids st) -> id ∈ policy_ids (chain_list c st) ->
  exists st', RemovePolicy id st = Ok (st', tt) /\
    edits c (fun l => filter (fun i => i <> id) l) st st'.
Proof.
  intros Hc Hnd Hin. unfold all_ids in Hnd.
  apply NoDup_app in Hnd as (H1 & Hd1 & (H2 & Hd2 & H3)%NoDup_app).
  pose proof (remove_id_ids id _ H1) as E1. pose proof (remove_id_ids id _ H2) as E2.
  pose proof (remove_id_ids id _ H3) as E3. unfold RemovePolicy.
  fold (ew_list st) (obs_list st) (enf_list st).
  by_chain Hc; unfold chain_list in Hin; simpl in Hin;
    (destruct (remove_id id (ew_list st)); [try (exfalso; set_solver)|try done]);
    try (destruct (remove_id id (obs_list st)); [try (exfalso; set_solver)|try done]);
    try (destruct (remove_id id (enf_list st)); [|done]);
    (eexists; split; [done|]; split; [naive_solver|]; split; [|done]);
    intros d Hd Hne; by by_chain Hd.
Qed.

Lemma edits_sublist c (P : string -> Prop) `{!forall x, Decision (P x)} st st' :
  c ∈ chain_names -> edits c (filter P) st st' -> sublist (all_ids st') (all_ids st).
Proof.
  intros Hc (H1 & H2 & _). unfold all_ids.
  assert (forall d, d ∈ chain_names -> sublist (policy_ids (chain_list d st')) (policy_ids (chain_list d st))) as Hsub.
  { intros d Hd. destruct (decide (d = c)) as [->|Hne]; [|by rewrite H2].
    rewrite H1. apply sublist_filter. }
  repeat apply sublist_app.
  - apply (Hsub "RAIND-EW"). set_solver.
  - apply (Hsub "RAIND-NS-OBS"). set_solver.
  - apply (Hsub "RAIND-NS-ENF"). set_solver.
Qed.

(** The identifiers that the policies of [l] leave. *)
Definition surviving (l : list Policy) (is' : list string) : list string :=
  filter (fun i => i ∉ dead_ids l) is'.

Lemma surviving_nil is' : surviving [] is' = is'.
Proof.
  unfold surviving, dead_ids. simpl. induction is' as [|x l IH]; [done|].
  rewrite filter_cons_True by set_solver. by rewrite IH.
Qed.

Lemma surviving_cons p l is' : surviving (p :: l) is' = surviving l (surviving [p] is').
Proof.
  unfold surviving. rewrite list_filter_filter. apply list_filter_iff. intros i.
  unfold dead_ids. simpl. destruct (negb (live p)); simpl; set_solver.
Qed.

Lemma surviving_live p is' : live p = true -> surviving [p] is' = is'.
Proof.
  intros Hp. unfold surviving, dead_ids. simpl. rewrite Hp. simpl.
  induction is' as [|x l IH]; [done|]. rewrite filter_cons_True by set_solver. by rewrite IH.
Qed.
Lemma surviving_dead p is' :
  live p = false -> surviving [p] is' = filter (fun i => i <> Id p) is'.
Proof.
  intros Hp. apply list_filter_iff. intros i. unfold dead_ids. simpl. rewrite Hp. set_solver.
Qed.

(** ** The loops *)
Section table.
Context {RO : RangeOrder} {X : Type} {P : PolicyPeers X} {L : IptablesLaw X}.
#[local] Notation world := (world NetworkPolicy policy_call (tables X)).
#[local] Notation M := (M NetworkPolicy policy_call (tables X)).
Implicit Types w : world.
Context (cs : Csm.ContainerState) (ip : Ipam.IpamState).
#[local] Notation sound := (sound cs ip).

Lemma or_continue_err (m k : M unit) w e :
  (forall w e, (k w).1 <> Err e) -> (or_continue m k w).1 <> Err e.
Proof.
  intros Hk. unfold or_continue, mbind, M_bind, attempt.
  by destruct (m w) as [[a|e'|e'] w1].
Qed.

Lemma insert_rules_err c rule log_rule action logging p w e :
  (insert_rules c rule log_rule action logging p w).1 <> Err e.
Proof.
  assert (forall w e, (applied (X := X) c p w).1 <> Err e) as Ha.
  { intros w0 e0. unfold applied, ignore. by destruct (txn _ w0) as [[| |] ?]. }
  apply or_continue_err. intros w0 e0. destruct logging; [|done]. by apply or_continue_err.
Qed.

(** [Ok] and the relation, or a panic of the command. *)
Definition lands (Q : NetworkPolicy -> Prop) (rw : res unit * world) : Prop :=
  sound rw.2 /\ ((rw.1 = Ok tt /\ Q (store rw.2)) \/ exists e, rw.1 = Panic e).

Lemma lands_bind {A} Q (m : M unit) (k : M A) w r w' :
  lands Q (m w) -> (_ ← attempt m; k) w = (r, w') -> is_ok r = true ->
  exists w1, sound w1 /\ Q (store w1) /\ k w1 = (r, w').
Proof.
  intros [Hs H]. unfold mbind, M_bind, attempt. destruct (m w) as [r1 w1]. simpl in *.
  destruct H as [[-> HQ]|[e ->]]; intros H Hr; [by exists w1|by simplify_eq].
Qed.

Section loop.
Context (c action : string) (resolve : Policy -> resolution) (logging : bool).
Context (step : Policy -> M unit).
Context (Hstep : forall p w, sound w -> step p w = turn c action resolve logging p w).
Context (Hc : c ∈ chain_names).

Lemma turn_lands p w :
  sound w -> NoDup (all_ids (store w)) -> Id p ∈ policy_ids (chain_list c (store w)) ->
  lands (edits c (surviving [p]) (store w)) (turn c action resolve logging p w).
Proof using Hc L.
  intros Hw Hnd Hin. unfold turn. destruct (live p) eqn:El.
  - assert (forall st st', same_ids c st st' -> edits c (surviving [p]) st st') as Hsame.
    { intros st st' (H1 & H2 & H3). split; [|done]. by rewrite surviving_live. }
    destruct (resolve p) as [[m log]|name] eqn:Er.
    + pose proof (insert_rules_err c m log action logging p w) as Herr.
      destruct (insert_rules_grows cs ip c (fun _ => True) (same_ids c) m log action logging p I
        (fun _ => I) (fun st st' u => UpdateStatus_same c _ _ _ st st' u Hc) w Hw) as (Hs & HR & _).
      destruct (insert_rules c m log action logging p w) as [[[]|e|e] w'].
      * split; [done|]. left. split; [done|]. by apply Hsame.
      * by destruct (Herr e).
      * split; [done|]. right. by exists e.
    + unfold unresolved. rewrite txn_run by apply Hw.
      destruct (UpdateStatus_known c (Id p) "unresolved" ("container: " +:+ name +:+ " not found")
        (store w) Hc Hin) as (st' & E). rewrite E.
      split; [by destruct Hw|]. left. split; [done|]. apply Hsame. by eapply UpdateStatus_same.
  - destruct (RemovePolicy_known c (Id p) (store w) Hc Hnd Hin) as (st' & E & H1 & H2 & H3).
    rewrite txn_run by apply Hw. rewrite E. split; [by destruct Hw|]. left. split; [done|].
    split; [|done]. simpl. by rewrite surviving_dead.
Qed.

Lemma loop_lands l w :
  sound w -> NoDup (all_ids (store w)) -> NoDup (policy_ids l) ->
  (forall p, p ∈ l -> Id p ∈ policy_ids (chain_list c (store w))) ->
  lands (edits c (surviving l) (store w)) (for_each step l w).
Proof using All.
  revert w. induction l as [|p l IH]; intros w Hw Hnd Hl Hin; simpl.
  { split; [done|]. left. split; [done|]. split; [|done]. by rewrite surviving_nil. }
  change (NoDup (Id p :: policy_ids l)) in Hl. apply NoDup_cons in Hl as [Hp Hl].
  pose proof (turn_lands p w Hw Hnd (Hin p ltac:(by left))) as [Hs Ht].
  rewrite <- (Hstep p w Hw) in Hs, Ht. unfold mbind, M_bind.
  destruct (step p w) as [r1 w1]. simpl in Hs, Ht.
  destruct Ht as [[-> He]|[e ->]]; [|split; [done|]; right; by exists e].
  assert (NoDup (all_ids (store w1))) as Hnd1
    by (eapply sublist_NoDup; [exact Hnd|by eapply edits_sublist]).
  destruct (IH w1 Hs Hnd1 Hl) as [Hs2 Ht2].
  { intros q Hq. destruct He as (H1 & _). rewrite H1. unfold surviving.
    apply list_elem_of_filter. split; [|apply Hin; by right].
    assert (Id q <> Id p). { intros E. apply Hp. rewrite <- E. by apply (list_elem_of_fmap_2 Id). }
    unfold dead_ids. simpl. destruct (negb (live p)); set_solver. }
  split; [done|]. destruct Ht2 as [[Hr He2]|[e He2]]; [|right; by exists e].
  left. split; [done|]. destruct (edits_trans _ _ _ _ _ _ He He2) as [H1 H2].
  split; [|exact H2]. by rewrite H1, <- surviving_cons.
Qed.
End loop.

Lemma ew_lands logging w :
  sound w -> NoDup (all_ids (store w)) ->
  lands (edits "RAIND-EW" (surviving (ew_list (store w))) (store w))
    (for_each (ew_policy logging) (ew_list (store w)) w).
Proof using L.
  intros Hw Hnd. apply (loop_lands "RAIND-EW" "ACCEPT" (ew_resolve cs ip) logging);
    [intros; by apply ew_policy_turn|set_solver|done|done| |].
  - by apply NoDup_app in Hnd as (H & _).
  - intros p Hp. by apply (list_elem_of_fmap_2 Id).
Qed.

Lemma ns_lands c logging w :
  c ∈ ["RAIND-NS-OBS"; "RAIND-NS-ENF"] -> sound w -> NoDup (all_ids (store w)) ->
  lands (edits c (surviving (chain_list c (store w))) (store w))
    (for_each (ns_policy c logging) (chain_list c (store w)) w).
Proof using L.
  intros Hc Hw Hnd. apply (loop_lands c (ns_action c) (ns_resolve c cs ip) logging);
    [intros; by apply ns_policy_turn|set_solver|done|done| |].
  - unfold all_ids in Hnd. apply NoDup_app in Hnd as (_ & _ & (H1 & _ & H2)%NoDup_app).
    rewrite !elem_of_cons in Hc. by destruct Hc as [-> |[-> |?%elem_of_nil]].
  - intros p Hp. by apply (list_elem_of_fmap_2 Id).
Qed.

(** What the three loops leave of the table. *)
Definition swept (st st' : NetworkPolicy) : Prop :=
  (forall c, c ∈ chain_names ->
     policy_ids (chain_list c st') = surviving (chain_list c st) (policy_ids (chain_list c st))) /\
  DefaultRule st' = DefaultRule st.

Lemma BuildUserPolicy_table w r w' :
  sound w -> NoDup (all_ids (store w)) -> BuildUserPolicy w = (r, w') -> is_ok r = true ->
  swept (store w) (store w').
Proof using L.
  intros Hw Hnd H Hr.
  unfold BuildUserPolicy, insertRaindEWUserPolicy, insertRaindNSUserPolicy in H.
  rewrite (M_bind_eq _ _ w (logs_ew (store w)) w) in H by (apply getter_run; [apply Hw|done]).
  rewrite (M_bind_eq _ _ w (logs_ns (store w)) w) in H by (apply getter_run; [apply Hw|done]).
  rewrite (M_bind_eq _ _ w (ew_list (store w)) w) in H by (apply getter_run; [apply Hw|done]).
  destruct (lands_bind _ _ _ _ _ _ (ew_lands _ w Hw Hnd) H Hr) as (w1 & Hw1 & E1 & H1).
  assert (NoDup (all_ids (store w1))) as Hnd1
    by (eapply sublist_NoDup; [exact Hnd|by eapply edits_sublist; [|done]; set_solver]).
  clear H. rewrite (M_bind_eq _ _ w1 (obs_list (store w1)) w1) in H1
    by (apply getter_run; [apply Hw1|done]).
  destruct (lands_bind _ _ _ _ _ _
    (ns_lands "RAIND-NS-OBS" _ w1 ltac:(set_solver) Hw1 Hnd1) H1 Hr) as (w2 & Hw2 & E2 & H2).
  assert (NoDup (all_ids (store w2))) as Hnd2
    by (eapply sublist_NoDup; [exact Hnd1|by eapply edits_sublist; [|done]; set_solver]).
  clear H1. rewrite (M_bind_eq _ _ w2 (enf_list (store w2)) w2) in H2
    by (apply getter_run; [apply Hw2|done]).
  pose proof (ns_lands "RAIND-NS-ENF" (logs_ns (store w)) w2 ltac:(set_solver) Hw2 Hnd2)
    as [_ [[_ E3]|[e E3]]];
    change (chain_list "RAIND-NS-ENF" (store w2)) with (enf_list (store w2)) in E3;
    rewrite H2 in E3; simpl in E3; [|by subst].
  clear H2. destruct E1 as (A1 & B1 & D1), E2 as (A2 & B2 & D2), E3 as (A3 & B3 & D3).
  split; [|congruence]. intros c Hc.
  assert ("RAIND-EW" ∈ chain_names /\ "RAIND-NS-OBS" ∈ chain_names /\
    "RAIND-NS-ENF" ∈ chain_names) as (M1 & M2 & M3) by set_solver.
  by_chain Hc.
  - rewrite (B3 "RAIND-EW"), (B2 "RAIND-EW") by done. exact A1.
  - rewrite (B3 "RAIND-NS-OBS"), A2 by done. by rewrite (B1 "RAIND-NS-OBS") by done.
  - rewrite A3. change (enf_list (store w2)) with (chain_list "RAIND-NS-ENF" (store w2)).
    by rewrite (B2 "RAIND-NS-ENF"), (B1 "RAIND-NS-ENF") by done.
Qed.
End table.

(** ** The commit *)
Section commit.
Context {RO : RangeOrder} {X : Type} {P : PolicyPeers X} {L : IptablesLaw X}.
#[local] Notation world := (world NetworkPolicy policy_call (tables X)).
Implicit Types w : world.

Lemma filter_not_dead l :
  NoDup (policy_ids l) -> surviving l (policy_ids l) = policy_ids (List.filter live l).
Proof.
  intros Hnd. unfold surviving.
  assert (forall k, k ⊆ l -> filter (fun i => i ∉ dead_ids l) (policy_ids k) = policy_ids (List.filter live k))
    as H; [|by apply H].
  induction k as [|p k IH]; intros Hk; [done|]. simpl.
  assert (Id p ∈ dead_ids l <-> live p = false) as Hp.
  { unfold dead_ids, policy_ids. rewrite list_elem_of_fmap. split.
    - intros (q & Hq & Hin). apply list_elem_of_In, filter_In in Hin as [Hin Hl].
      assert (p = q) as ->; [|by apply negb_true_iff].
      apply list_elem_of_In in Hin. apply list_elem_of_lookup in Hin as [i Hi].
      assert (p ∈ l) as [j Hj]%list_elem_of_lookup by (apply Hk; by left).
      assert (i = j) as ->; [|congruence].
      eapply NoDup_lookup; [exact Hnd| |]; unfold policy_ids; rewrite list_lookup_fmap;
        [by rewrite Hi|rewrite Hj; simpl; by f_equal].
    - intros Hl. exists p. split; [done|]. apply list_elem_of_In, filter_In.
      split; [apply list_elem_of_In, Hk; by left|by rewrite Hl]. }
  assert (k ⊆ l) as Hk' by (intros x Hx; apply Hk; by right).
  destruct (live p) eqn:El.
  - rewrite filter_cons_True by (intros ?%Hp; done). simpl. f_equal. by apply IH.
  - rewrite filter_cons_False by (intros Hn; by apply Hn, Hp). by apply IH.
Qed.

Lemma all_ids_parts st c : NoDup (all_ids st) -> c ∈ chain_names -> NoDup (policy_ids (chain_list c st)).
Proof.
  intros Hnd Hc. unfold all_ids in Hnd.
  apply NoDup_app in Hnd as (H1 & _ & (H2 & _ & H3)%NoDup_app). by by_chain Hc.
Qed.

(** A commit carries out what was asked of the table: when the identifiers
    are distinct, a commit that reports success leaves in each of the three
    lists exactly the policies that were not marked for removal, in order, and
    turns [observe_next_commit] and [enforce_next_commit] into the mode. *)
Theorem CommitPolicy_table w w' :
  faults w = [] -> NoDup (all_ids (store w)) -> CommitPolicy w = (Ok tt, w') ->
  (forall c, c ∈ chain_names ->
     policy_ids (chain_list c (store w')) = policy_ids (List.filter live (chain_list c (store w)))) /\
  ns_mode (store w') = fixed_mode (ns_mode (store w)).
Proof.
  intros Hw Hnd H.
  destruct (CommitPolicy_phases _ _ Hw H) as (w2 & w3 & _ & Hs & Hst & H3 & -> & _).
  assert (all_ids (store w2) = all_ids (store w)) as E by by rewrite Hst.
  apply (BuildUserPolicy_table _ _ _ _ _ Hs) in H3 as [H3 Hm]; [|by rewrite E|done].
  rewrite Hst in H3, Hm. split; [|unfold ns_mode at 1; by rewrite Hm].
  intros c Hc. rewrite H3 by done. change (chain_list c (fixed (store w))) with (chain_list c (store w)).
  apply filter_not_dead. by apply all_ids_parts.
Qed.
End commit.
