(* ===== verification/PolicyPackets.v ===== *)
(** * Default deny

    How the packet filter reads the chains of [PolicyCommit.v]
    ([iptables-extensions(8)], for the options that [Iptables.v] writes), and
    which new connections a committed policy table lets through. *)

From Stdlib Require Import ZArith Lia Ascii String.
From stdpp Require Import base gmap strings list.
From S2P Require Import Prelude.
From S2P Require Import GoString.
From S2P Require Import GoNet.
From S2P Require Import Npm.
From S2P Require Csm.
From S2P Require Ipam.
From S2P Require Psm.
From S2P Require Import World.
From S2P Require Import Iptables.
From S2P Require Import PolicyService.
From S2P Require Import PolicyTheory.
From S2P Require Import PolicyCommit.
Open Scope Z_scope.

Record packet := {
  ct_state : string;
  in_dev : string;
  out_dev : string;
  in_physdev : string;
  out_physdev : string;
  bridged : bool;
  src : string;
  dst : string;
  proto : string;
  sport : Z;
  dport : Z;
  is_syn : bool
}.

(** A device name; a [+] at the end stands for any suffix. *)
Definition dev_match (pattern dev : string) : bool :=
  if hasSuffix pattern "+" then hasPrefix dev (trimSuffix pattern "+")
  else String.eqb pattern dev.

Section packets.
(** How addresses and protocol names are compared is the kernel's. *)
Context (addr_match proto_match : string -> string -> bool).

(** An option with its value, on a packet; [-m] and the options of the target
    always hold. *)
Definition opt_match (k : packet) (o v : string) : bool :=
  if String.eqb o "--ctstate" then existsb (String.eqb (ct_state k)) (split ","%char v)
  else if String.eqb o "-i" then dev_match v (in_dev k)
  else if String.eqb o "-o" then dev_match v (out_dev k)
  else if String.eqb o "--physdev-in" then dev_match v (in_physdev k)
  else if String.eqb o "--physdev-out" then dev_match v (out_physdev k)
  else if String.eqb o "-p" then proto_match v (proto k)
  else if String.eqb o "-s" then addr_match v (src k)
  else if String.eqb o "-d" then addr_match v (dst k)
  else if String.eqb o "--sport" then String.eqb v (itoa (sport k))
  else if String.eqb o "--dport" then String.eqb v (itoa (dport k))
  else true.

Fixpoint opts_match (k : packet) (l : list string) : bool :=
  match l with
  | [] => true
  | o :: l =>
      if String.eqb o "--physdev-is-bridged" then bridged k && opts_match k l
      else if String.eqb o "--syn" then is_syn k && opts_match k l
      else match l with
           | [] => false
           | v :: l => opt_match k o v && opts_match k l
           end
  end.

(** One chain: the rules in order, up to the first that decides.  [jump] is
    the verdict of another chain. *)
Fixpoint chain_verdict (jump : string -> option string) (k : packet)
    (l : list (list string)) : option string :=
  match l with
  | [] => None
  | (_ :: target :: opts) :: l =>
      if opts_match k opts then
        if String.eqb target "ACCEPT" || String.eqb target "DROP" then Some target
        else if String.eqb target "RETURN" then None
        else if String.eqb target "NFLOG" then chain_verdict jump k l
        else match jump target with
             | Some v => Some v
             | None => chain_verdict jump k l
             end
      else chain_verdict jump k l
  | _ :: l => chain_verdict jump k l
  end.

(** [depth] bounds the nesting of user chains; the chains here nest once. *)
Fixpoint verdict (depth : nat) (s : gmap string (list (list string))) (k : packet)
    (c : string) : option string :=
  match depth with
  | O => None
  | S depth => chain_verdict (verdict depth s k) k (default [] (s !! c))
  end.

(** ** Rules against models *)

(** The packets that the rule of a model takes. *)
Definition unset_or (s : string) (b : bool) : bool := String.eqb s "" || b.
Definition covers (m : RuleModel) (k : packet) : bool :=
  (bool_decide (Ctstate m = []) || existsb (String.eqb (ct_state k)) (split ","%char (join "," (Ctstate m)))) &&
  (negb (PhysdevIsBridge m) || bridged k) &&
  unset_or (InputDev m) (dev_match (InputDev m) (in_dev k)) &&
  unset_or (OutputDev m) (dev_match (OutputDev m) (out_dev k)) &&
  unset_or (InputPhysdev m) (dev_match (InputPhysdev m) (in_physdev k)) &&
  unset_or (OutputPhysdev m) (dev_match (OutputPhysdev m) (out_physdev k)) &&
  unset_or (r_Protocol m) (proto_match (r_Protocol m) (proto k)) &&
  unset_or (r_Source m) (addr_match (r_Source m) (src k)) &&
  ((SourcePort m <=? 0) || (SourcePort m =? sport k)) &&
  unset_or (r_Destination m) (addr_match (r_Destination m) (dst k)) &&
  ((r_DestPort m <=? 0) || (r_DestPort m =? dport k)).

Lemma opts_match_opt k cond o v rest :
  String.eqb o "--physdev-is-bridged" = false -> String.eqb o "--syn" = false ->
  opts_match k (opt cond [o; v] ++ rest) = (negb cond || opt_match k o v) && opts_match k rest.
Proof. intros H1 H2. destruct cond; simpl; [by rewrite H1, H2|done]. Qed.

Lemma opts_match_flag k cond rest :
  opts_match k (opt cond ["--physdev-is-bridged"] ++ rest) =
    (negb cond || bridged k) && opts_match k rest.
Proof. by destruct cond. Qed.

Lemma unset_or_set s b : negb (set s) || b = unset_or s b.
Proof. unfold set, unset_or. by rewrite negb_involutive. Qed.

Lemma itoa_eqb x y : String.eqb (itoa x) (itoa y) = (x =? y).
Proof.
  destruct (x =? y) eqn:E; [apply Z.eqb_eq in E as ->; apply String.eqb_refl|].
  apply String.eqb_neq. intros H%(inj itoa). by apply Z.eqb_neq in E.
Qed.

Lemma insert_param_match k a m :
  exists opts, insert_param a m = "-j" :: a :: opts /\ opts_match k opts = covers m k.
Proof.
  eexists. split; [reflexivity|].
  rewrite !opts_match_opt, opts_match_flag, !opts_match_opt by done.
  assert (opts_match k (opt (set (NflogPrefix m)) ["--nflog-prefix"; NflogPrefix m]) = true) as ->
    by by destruct (set (NflogPrefix m)).
  cbn [opt_match String.eqb Ascii.eqb Bool.eqb].
  rewrite !unset_or_set, !itoa_eqb, !orb_true_r. unfold covers.
  assert (negb (0 <? Z.of_nat (length (Ctstate m))) = bool_decide (Ctstate m = [])) as -> by by destruct (Ctstate m).
  rewrite !Z.ltb_antisym, !negb_involutive, !andb_true_r, !andb_true_l, !andb_assoc. done.
Qed.

(** ** Lists of rules with one deciding target *)

Definition acts (a : string) (u : list string) : Prop :=
  exists t opts, u = "-j" :: t :: opts /\ (t = a \/ t = "NFLOG").
Definition fires (k : packet) (a : string) (u : list string) : bool :=
  match u with
  | _ :: t :: opts => String.eqb t a && opts_match k opts
  | _ => false
  end.
Definition decides (a : string) : Prop := a = "ACCEPT" \/ a = "DROP".

Lemma chain_verdict_acts a jump k us l :
  decides a -> Forall (acts a) us ->
  chain_verdict jump k (us ++ l) =
    if existsb (fires k a) us then Some a else chain_verdict jump k l.
Proof.
  intros Ha. induction 1 as [|u us (t & opts & -> & Ht) _ IH]; [done|]. simpl.
  destruct (opts_match k opts).
  - rewrite andb_true_r. destruct (String.eqb_spec t a) as [->|Hne]; simpl.
    + by destruct Ha as [-> | ->].
    + destruct Ht as [?| ->]; [done|]. by rewrite IH.
  - rewrite andb_false_r. by rewrite IH.
Qed.

Lemma user_rule_acts model a l u : user_rule model a l u -> acts a u.
Proof.
  intros [(p & m & _ & _ & ->)|(opts & ->)].
  - eexists a, _. split; [reflexivity|by left].
  - exists "NFLOG", opts. auto.
Qed.

(** The packets that the rules of some policies take. *)
Definition allows (model : Policy -> option RuleModel) (l : list Policy) (k : packet) : bool :=
  existsb (fun p => match model p with Some m => covers m k | None => false end) l.

Lemma user_rules_fire model a l us k :
  decides a -> Forall (user_rule model a l) us ->
  existsb (fires k a) us = true -> allows model l k = true.
Proof.
  intros Ha Hus (u & Hin & Hf)%existsb_exists. rewrite Forall_forall in Hus.
  destruct (Hus u) as [(p & m & Hp & Hm & ->)|(opts & ->)]; [by apply list_elem_of_In| |].
  - apply existsb_exists. exists p. split; [by apply list_elem_of_In|]. rewrite Hm.
    destruct (insert_param_match k a m) as (opts & Heq & <-).
    rewrite Heq in Hf. simpl in Hf. by rewrite String.eqb_refl in Hf.
  - by destruct Ha as [-> | ->].
Qed.

(** A user chain: the rules of policies, those of the program, [RETURN]. *)
Lemma user_chain_verdict model a b l us pre jump k :
  decides a -> decides b -> Forall (user_rule model a l) us -> Forall (acts b) pre ->
  exists hit : bool, (hit = true -> allows model l k = true) /\
    chain_verdict jump k (us ++ pre ++ [["-j"; "RETURN"]]) =
      if hit then Some a else if existsb (fires k b) pre then Some b else None.
Proof.
  intros Ha Hb Hus Hpre. exists (existsb (fires k a) us).
  split; [by eapply user_rules_fire|]. rewrite (chain_verdict_acts a); [|done|].
  2:{ eapply Forall_impl; [done|]. intros u. apply user_rule_acts. }
  by rewrite (chain_verdict_acts b) by done.
Qed.

(** ** The predefined rules *)

Lemma add_rules_elem l acc u :
  u ∈ fold_left add_rule l acc <-> u ∈ acc \/ exists ma, ma ∈ l /\ u = add_param ma.2 ma.1.
Proof.
  revert acc. induction l as [|ma l IH]; intros acc; simpl; [set_solver|].
  rewrite IH. unfold add_rule, add_once. case_decide as Hd.
  - split; [intros [?|(ma' & ? & ->)]|intros [?|(ma' & Hma & ->)]].
    + by left.
    + right. exists ma'. split; [by right|done].
    + by left.
    + apply elem_of_cons in Hma as [->|Hma]; [by left|]. right. by exists ma'.
  - rewrite elem_of_app, elem_of_cons. set_solver.
Qed.

Lemma rules_of_elem l u : u ∈ rules_of l <-> exists ma, ma ∈ l /\ u = add_param ma.2 ma.1.
Proof. unfold rules_of. rewrite add_rules_elem. set_solver. Qed.

Lemma rules_of_acts a l :
  Forall (fun ma => ma.2 = a \/ ma.2 = "NFLOG") l -> Forall (acts a) (rules_of l).
Proof.
  rewrite !Forall_forall. intros Hl u (ma & Hma & ->)%rules_of_elem.
  eexists _, _. split; [reflexivity|by apply Hl].
Qed.

Lemma rules_of_return a l :
  decides a -> Forall (fun ma => ma.2 = a \/ ma.2 = "NFLOG") l ->
  rules_of (l ++ [(any_packet, "RETURN")]) = rules_of l ++ [["-j"; "RETURN"]].
Proof.
  intros Ha Hl. unfold rules_of at 1. rewrite fold_left_app. simpl.
  unfold add_rule, add_once. rewrite decide_False; [done|].
  intros Hin. apply (rules_of_acts a l) in Hl. rewrite Forall_forall in Hl.
  destruct (Hl _ Hin) as (t & opts & Heq & Ht). injection Heq as <- _.
  destruct Ht as [<-|Ht]; [by destruct Ha|done].
Qed.

Lemma between_match k a i o :
  fires k a (add_param a (between i o)) =
    unset_or i (dev_match i (in_dev k)) && unset_or o (dev_match o (out_dev k)).
Proof.
  unfold add_param. cbn [fires app]. rewrite String.eqb_refl.
  change (opts_match k (opt (set i) ["-i"; i] ++ opt (set o) ["-o"; o] ++ []) = 
    unset_or i (dev_match i (in_dev k)) && unset_or o (dev_match o (out_dev k))).
  rewrite !opts_match_opt by done. cbn. by rewrite !unset_or_set, andb_true_r.
Qed.

Lemma between_fires k a i o l :
  (between i o, a) ∈ l -> dev_match i (in_dev k) = true -> dev_match o (out_dev k) = true ->
  existsb (fires k a) (rules_of l) = true.
Proof.
  intros Hin Hi Ho. apply existsb_exists. exists (add_param a (between i o)). split.
  - apply list_elem_of_In, rules_of_elem. by eexists.
  - rewrite between_match, Hi, Ho. unfold unset_or. by rewrite !orb_true_r.
Qed.
End packets.

(** ** Default deny *)
Section deny.
Context {RO : RangeOrder} {X : Type} {P : PolicyPeers X} {L : IptablesLaw X}.
Context (addr_match proto_match : string -> string -> bool).
#[local] Notation world := (world NetworkPolicy policy_call (tables X)).
#[local] Notation verdict := (verdict addr_match proto_match).
#[local] Notation allows := (allows addr_match proto_match).
#[local] Notation fires := (fires addr_match proto_match).
Implicit Types w : world.

Lemma root_verdict s k enforce :
  s !! "RAIND-ROOT" = Some (rules_of (root_rules enforce)) -> ct_state k = "NEW" ->
  verdict 2 s k "RAIND-ROOT" =
    match verdict 1 s k "RAIND-EW" with
    | Some v => Some v
    | None => verdict 1 s k (if enforce then "RAIND-NS-ENF" else "RAIND-NS-OBS")
    end.
Proof.
  intros Hs Hk. cbn [PolicyPackets.verdict]. rewrite Hs. destruct k; simpl in Hk; subst.
  destruct enforce; simpl; repeat case_match; done.
Qed.

(** The deciding part of the east-west rules. *)
Definition ew_drops (nets : list Ipam.NetworkList) (log : bool) : list (RuleModel * string) :=
  (if log then
     (fun n => (log_between true (Ipam.nl_Interface n) (Ipam.nl_Interface n) "" false 10
                  "RAIND-EW-DENY,id=predefined", "NFLOG")) <$> nets
   else []) ++
  ((fun n => (between (Ipam.nl_Interface n) (Ipam.nl_Interface n), "DROP")) <$> nets) ++
  (if log then
     [(log_between false "raind+" "raind+" "" false 10 "RAIND-EW-DENY,id=predefined", "NFLOG")]
   else []) ++ [(between "raind+" "raind+", "DROP")].
Definition enf_drops (host : string) (nets : list Ipam.NetworkList) (log : bool)
    : list (RuleModel * string) :=
  (if log then
     (fun n => (log_between false (Ipam.nl_Interface n) host "" false 12
                  "RAIND-NS-DENY,id=predefined", "NFLOG")) <$> nets
   else []) ++
  ((fun n => (between (Ipam.nl_Interface n) host, "DROP")) <$> nets).

Lemma ew_rules_split nets log : ew_rules nets log = ew_drops nets log ++ [(any_packet, "RETURN")].
Proof. unfold ew_rules, ew_drops. by rewrite <- !(assoc_L (++)). Qed.
Lemma enf_rules_split host nets log :
  enf_rules host nets log = enf_drops host nets log ++ [(any_packet, "RETURN")].
Proof. unfold enf_rules, enf_drops. by rewrite <- !(assoc_L (++)). Qed.

Lemma mapped_targets {A} (f : A -> RuleModel) t a (l : list A) :
  t = a \/ t = "NFLOG" ->
  Forall (fun ma : RuleModel * string => ma.2 = a \/ ma.2 = "NFLOG") ((fun n => (f n, t)) <$> l).
Proof. intros Ht. by apply Forall_fmap, Forall_true. Qed.

Lemma ew_drops_targets nets log :
  Forall (fun ma => ma.2 = "DROP" \/ ma.2 = "NFLOG") (ew_drops nets log).
Proof.
  unfold ew_drops. repeat apply Forall_app_2; try (apply mapped_targets; by auto);
    destruct log; repeat constructor; auto; apply mapped_targets; auto.
Qed.
Lemma enf_drops_targets host nets log :
  Forall (fun ma => ma.2 = "DROP" \/ ma.2 = "NFLOG") (enf_drops host nets log).
Proof.
  unfold enf_drops. apply Forall_app_2; [|apply mapped_targets; by auto].
  destruct log; [apply mapped_targets; auto|constructor].
Qed.

(** A committed east-west chain. *)
Lemma ew_verdict w s s' k :
  committed w s s' ->
  exists nets (hit : bool), Ipam.GetNetworkList (ipam (inner w)) = Ok nets /\
    (hit = true ->
       allows (ew_model (csm (inner w)) (ipam (inner w))) (ew_list (store w)) k = true) /\
    verdict 1 s' k "RAIND-EW" =
      if hit then Some "ACCEPT"
      else if existsb (fires k "DROP") (rules_of (ew_drops nets (logs_ew (store w))))
      then Some "DROP" else None.
Proof.
  intros (nets & host & s1 & Hn & _ & (_ & He & _) & (s2 & s3 & [_ H1] & [H2 _] & [H3 _])).
  destruct (H1 _ He) as (us & Hus & Hok). cbn [PolicyPackets.verdict].
  rewrite H3, H2, Hus by done. simpl. rewrite ew_rules_split.
  rewrite (rules_of_return "DROP") by (by right || apply ew_drops_targets).
  destruct (user_chain_verdict addr_match proto_match
    (ew_model (csm (inner w)) (ipam (inner w))) "ACCEPT" "DROP" (ew_list (store w)) us
    (rules_of (ew_drops nets (logs_ew (store w)))) (verdict 0 s' k) k)
    as (hit & Hhit & Hv); [by left|by right|done|apply rules_of_acts, ew_drops_targets|].
  exists nets, hit. split; [done|]. split; [exact Hhit|exact Hv].
Qed.

(** A committed north-south chain in enforcing mode. *)
Lemma enf_verdict w s s' k :
  committed w s s' -> enforces (fixed (store w)) = true ->
  exists nets host (hit : bool), Ipam.GetNetworkList (ipam (inner w)) = Ok nets /\
    Ipam.GetDefaultInterface (ipam (inner w)) = Ok host /\
    (hit = true ->
       allows (ns_model (csm (inner w)) (ipam (inner w))) (enf_list (store w)) k = true) /\
    verdict 1 s' k "RAIND-NS-ENF" =
      if hit then Some "ACCEPT"
      else if existsb (fires k "DROP") (rules_of (enf_drops host nets (logs_ns (store w))))
      then Some "DROP" else None.
Proof.
  intros (nets & host & s1 & Hn & Hh & (_ & _ & He & _) & (s2 & s3 & [H1 _] & [H2 _] & [_ H3])) Hf.
  rewrite Hf in He. rewrite <- H1, <- H2 in He by done.
  destruct (H3 _ He) as (us & Hus & Hok). cbn [PolicyPackets.verdict].
  rewrite Hus. simpl. rewrite enf_rules_split.
  rewrite (rules_of_return "DROP") by (by right || apply enf_drops_targets).
  destruct (user_chain_verdict addr_match proto_match
    (ns_model (csm (inner w)) (ipam (inner w))) "ACCEPT" "DROP" (enf_list (store w)) us
    (rules_of (enf_drops host nets (logs_ns (store w)))) (verdict 0 s' k) k)
    as (hit & Hhit & Hv); [by left|by right|done|apply rules_of_acts, enf_drops_targets|].
  exists nets, host, hit. split; [done|]. split; [done|]. split; [exact Hhit|exact Hv].
Qed.

Lemma committed_root w s s' k :
  committed w s s' -> ct_state k = "NEW" ->
  verdict 2 s' k "RAIND-ROOT" =
    match verdict 1 s' k "RAIND-EW" with
    | Some v => Some v
    | None => verdict 1 s' k
        (if enforces (fixed (store w)) then "RAIND-NS-ENF" else "RAIND-NS-OBS")
    end.
Proof.
  intros (nets & host & s1 & _ & _ & (Hr & _) & (s2 & s3 & [H1 _] & [H2 _] & [H3 _])) Hk.
  apply root_verdict; [|done]. by rewrite H3, H2, H1 by done.
Qed.

(** Between two containers: across any two networks of the program, or inside
    one network. *)
Definition east_west (ip : Ipam.IpamState) (k : packet) : bool :=
  (hasPrefix (in_dev k) "raind" && hasPrefix (out_dev k) "raind") ||
  existsb (fun p => String.eqb (Ipam.p_Interface p) (in_dev k) &&
                    String.eqb (Ipam.p_Interface p) (out_dev k)) (Ipam.Pools ip).

(** Out of a network of the program, over the host's interface. *)
Definition outbound (ip : Ipam.IpamState) (k : packet) : bool :=
  negb (bridged k) && String.eqb (Ipam.HostInterface ip) (out_dev k) &&
  existsb (fun p => String.eqb (Ipam.p_Interface p) (in_dev k)) (Ipam.Pools ip).

Lemma dev_match_refl d : dev_match d d = true.
Proof.
  unfold dev_match. destruct (hasSuffix d "+") eqn:E; [|apply String.eqb_refl].
  unfold trimSuffix. rewrite E. apply hasPrefix_take.
Qed.

Lemma network_of_pool ip nets p :
  Ipam.GetNetworkList ip = Ok nets -> p ∈ Ipam.Pools ip ->
  exists n, n ∈ nets /\ Ipam.nl_Interface n = Ipam.p_Interface p.
Proof.
  unfold Ipam.GetNetworkList. intros H Hp. destruct (is_nil _); [done|]. injection H as <-.
  eexists. split; [by apply list_elem_of_fmap_2|done].
Qed.

(** The rules that drop such connections fire. *)
Lemma east_west_drops ip nets log k :
  Ipam.GetNetworkList ip = Ok nets -> east_west ip k = true ->
  existsb (fires k "DROP") (rules_of (ew_drops nets log)) = true.
Proof.
  intros Hn [Hb|(p & Hp & Hb)%existsb_exists]%orb_true_iff;
    apply andb_true_iff in Hb as [Hi Ho].
  - apply between_fires with "raind+" "raind+"; [|done..].
    unfold ew_drops. rewrite !elem_of_app. right; right; right. by left.
  - apply String.eqb_eq in Hi, Ho.
    destruct (network_of_pool _ _ p Hn) as (n & Hin & Hnp); [by apply list_elem_of_In|].
    apply between_fires with (Ipam.nl_Interface n) (Ipam.nl_Interface n).
    + unfold ew_drops. rewrite !elem_of_app. right. left.
      apply list_elem_of_fmap. by exists n.
    + rewrite Hnp, <- Hi. apply dev_match_refl.
    + rewrite Hnp, <- Ho. apply dev_match_refl.
Qed.

Lemma outbound_not_bridged ip k : outbound ip k = true -> bridged k = false.
Proof. intros [[Hbr _]%andb_true_iff _]%andb_true_iff. by apply negb_true_iff in Hbr. Qed.

Lemma outbound_drops ip nets host log k :
  Ipam.GetNetworkList ip = Ok nets -> Ipam.GetDefaultInterface ip = Ok host ->
  outbound ip k = true ->
  existsb (fires k "DROP") (rules_of (enf_drops host nets log)) = true.
Proof.
  intros Hn Hh [[_ Ho]%andb_true_iff (p & Hp & Hi)%existsb_exists]%andb_true_iff.
  apply String.eqb_eq in Hi, Ho.
  destruct (network_of_pool _ _ p Hn) as (n & Hin & Hnp); [by apply list_elem_of_In|].
  apply between_fires with (Ipam.nl_Interface n) host.
  - unfold enf_drops. rewrite elem_of_app. right. apply list_elem_of_fmap. by exists n.
  - rewrite Hnp, <- Hi. apply dev_match_refl.
  - unfold Ipam.GetDefaultInterface in Hh. case_match; [done|]. injection Hh as <-.
    rewrite Ho. apply dev_match_refl.
Qed.

(** Policies between containers match bridged packets only. *)
Lemma not_bridged_misses c ip l k (hit : bool) :
  bridged k = false -> (hit = true -> allows (ew_model c ip) l k = true) -> hit = false.
Proof.
  intros Hbr Hhit. destruct hit; [|done]. exfalso.
  specialize (Hhit eq_refl). apply existsb_exists in Hhit as (q & _ & Hq).
  unfold ew_model, model_of, ew_resolve in Hq. repeat case_match; try done. simplify_eq.
  unfold covers in Hq. simpl in Hq. by rewrite Hbr in Hq.
Qed.

(** The jump of [FORWARD] to [RAIND-ROOT] is there after the commit: at the
    front, or where it was before; [d] is what becomes of a packet that reaches
    it, in the state of the chains then. *)
Definition forwarded (s s' : gmap string (list (list string))) (k : packet)
    (d : option string -> Prop) : Prop :=
  exists ahead rest, s' !! "FORWARD" = Some (ahead ++ forward_rule :: rest) /\
    (ahead = [] \/ s !! "FORWARD" = s' !! "FORWARD") /\
    d (chain_verdict addr_match proto_match (verdict 2 s' k) k (forward_rule :: rest)).

Lemma forward_jump s k rest v :
  verdict 2 s k "RAIND-ROOT" = Some v ->
  chain_verdict addr_match proto_match (verdict 2 s k) k (forward_rule :: rest) = Some v.
Proof. intros Hv. unfold forward_rule. cbn -[PolicyPackets.verdict]. by rewrite Hv. Qed.

Lemma committed_forward w s s' k (d : option string -> Prop) v :
  committed w s s' -> verdict 2 s' k "RAIND-ROOT" = Some v -> d (Some v) ->
  forwarded s s' k d.
Proof.
  intros (nets & host & s1 & _ & _ & (_ & _ & _ & _ & (fw & fw' & Hs & H1 & Hin & Hor) & _) &
    (s2 & s3 & [H1' _] & [H2 _] & [H3 _])) Hv Hd.
  assert (s' !! "FORWARD" = Some fw') as Hs' by by rewrite H3, H2, H1' by done.
  destruct Hor as [->| ->].
  - apply list_elem_of_split in Hin as (ahead & rest & ->). exists ahead, rest.
    split; [done|]. split; [right; congruence|].
    by rewrite (forward_jump _ _ _ _ Hv).
  - exists [], fw. split; [done|]. split; [by left|].
    by rewrite (forward_jump _ _ _ _ Hv).
Qed.


(** C5: default deny to the outside: when the mode of the table is enforce, or
    becomes so with this commit, and the commit reports success, all reads of
    the tables having succeeded ([faults w = []]), the chain [FORWARD] holds the
    jump to [RAIND-ROOT], at its front or where it already was, and a new
    connection from a container network over the host's interface that reaches
    the jump is dropped, unless a live policy of the enforcing list covers it;
    then it may be accepted. *)
Theorem commit_denies_outbound w w' k :
  faults w = [] -> CommitPolicy w = (Ok tt, w') ->
  fixed_mode (ns_mode (store w)) = "enforce" ->
  ct_state k = "NEW" -> outbound (ipam (inner w)) k = true ->
  forwarded (filter_of w) (filter_of w') k (fun v =>
    v = Some "DROP" \/
    v = Some "ACCEPT" /\
    allows (ns_model (csm (inner w)) (ipam (inner w))) (enf_list (store w)) k = true).
Proof.
  intros Hw H Hm Hk Hb. apply CommitPolicy_run in H; [|done].
  assert (enforces (fixed (store w)) = true) as He by by apply String.eqb_eq.
  pose proof (committed_root _ _ _ _ H Hk) as Hroot. rewrite He in Hroot.
  destruct (ew_verdict _ _ _ k H) as (nets & hit & Hn & Hhit & Hew).
  rewrite Hew, (not_bridged_misses _ _ _ _ hit (outbound_not_bridged _ _ Hb) Hhit) in Hroot.
  destruct (existsb _ _) in Hroot; [eapply committed_forward; [done..|by left]|].
  destruct (enf_verdict _ _ _ k H He) as (nets' & host & hit' & Hn' & Hh & Hhit' & Henf).
  rewrite Henf in Hroot.
  destruct hit'; [eapply committed_forward; [done..|right; split; [done|by apply Hhit']]|].
  rewrite (outbound_drops _ _ _ _ _ Hn' Hh Hb) in Hroot.
  eapply committed_forward; [done..|by left].
Qed.
End deny.

(** * A packet filter, and commits on it

    An executable filter table that satisfies [IptablesLaw], and a small system
    on which the theorems of [PolicyPackets.v] are applied. *)

Notation filter_table := (gmap string (list (list string))).

Definition run_filter (args : list string) (x : filter_table) : res string * filter_table :=
  match args with
  | cmd :: c :: rule =>
      match x !! c with
      | None => if String.eqb cmd "-N" then (Ok "", <[c := []]> x) else (Err "no chain", x)
      | Some l =>
          if String.eqb cmd "-L" then (Ok "", x)
          else if String.eqb cmd "-C" then
            (if decide (rule ∈ l) then Ok "" else Err "bad rule", x)
          else if String.eqb cmd "-F" then (Ok "", <[c := []]> x)
          else if String.eqb cmd "-A" then (Ok "", <[c := l ++ [rule]]> x)
          else if String.eqb cmd "-I" then
            match rule with
            | o :: rest => if String.eqb o "1" then (Ok "", <[c := rest :: l]> x)
                           else (Ok "", <[c := rule :: l]> x)
            | [] => (Err "no rule", x)
            end
          else (Err "chain exists", x)
      end
  | _ => (Err "no command", x)
  end.

#[export] Instance filter_peers : PolicyPeers filter_table := {|
  run_iptables := run_filter;
  run_backup x := (Ok "", x);
  run_revert sx := (Ok "", sx)
|}.

#[export] Instance filter_law : IptablesLaw filter_table.
Proof.
  refine {| chains := fun x => x |}; simpl.
  - intros c x. by destruct (x !! c).
  - intros c rule x. by destruct (x !! c).
  - intros c rule x. destruct (x !! c) as [l|]; simpl; [|naive_solver].
    case_decide; naive_solver.
  - intros c x. by destruct (x !! c).
  - intros c x. by destruct (x !! c).
  - intros c rule x. destruct (x !! c) as [l|]; simpl; [by exists l|done].
  - intros c rule x. destruct (x !! c) as [l|]; simpl; [by exists l|done].
  - intros c rule x. destruct (x !! c) as [l|]; simpl; [by exists l|done].
  - done.
Defined.

Module Demo.
Definition container (id name : string) : Csm.ContainerInfo :=
  {| Csm.ContainerId := id; Csm.ContainerName := name; Csm.PodId := ""; Csm.DropletId := "";
     Csm.SpiffeId := ""; Csm.State := "running"; Csm.Pid := 0; Csm.ExitCode := 0;
     Csm.Reason := ""; Csm.Message := ""; Csm.LogPath := ""; Csm.Tty := false;
     Csm.Repository := ""; Csm.Reference := ""; Csm.Command := []; Csm.BottleId := "";
     Csm.SecurityProfile := ""; Csm.CreatingAt := 0; Csm.CreatedAt := 0; Csm.StartedAt := 0;
     Csm.StoppedAt := 0; Csm.FinishedAt := 0; Csm.Labels := ∅; Csm.Annotaions := ∅;
     Csm.Attemp := 0 |}.
Definition containers : Csm.ContainerState :=
  {| Csm.Version := "v1"; Csm.Containers :=
       <["c1" := container "c1" "web"]> (<["c2" := container "c2" "db"]> ∅) |}.

Definition address (id veth : string) : Ipam.Allocation :=
  {| Ipam.al_ContainerId := id; Ipam.al_Interface := veth; Ipam.Forwards := [];
     Ipam.AssignedAt := 0 |}.
Definition addresses : Ipam.IpamState :=
  {| Ipam.Version := "v1"; Ipam.RuntimeSubnet := "10.166.0.0/16";
     Ipam.st_DnsProxy := Ipam.default_dns; Ipam.HostInterface := "eth0";
     Ipam.HostInterfaceAddr := "192.168.0.5";
     Ipam.Pools := [
       {| Ipam.p_Interface := "raind0"; Ipam.Subnet := "10.166.0.0/24";
          Ipam.Address := "10.166.0.254/24";
          Ipam.Allocations := Some (<["10.166.0.1" := address "c1" "rd_c1"]>
                                    (<["10.166.0.2" := address "c2" "rd_c2"]> ∅)) |}] |}.

Definition policy (id status source destination address proto : string) (port : Z) : Policy :=
  {| Id := id; Status := status; Reason := ""; Source := named_host source;
     Destination := {| h_ContainerName := destination; DisplayName := ""; h_Address := address |};
     Protocol := proto; DestPort := port; Comment := ""; ManagedBy := ""; OwnerKind := "";
     OwnerNS := ""; OwnerName := ""; OwnerId := "" |}.

(** [web] may reach [db]; a policy is to be removed, one names a container
    that does not exist; [db] may reach an update server. *)
Definition table (mode : string) : NetworkPolicy :=
  {| Version := "v1";
     DefaultRule := {| EastWest := {| Mode := "deny_by_default"; Logging := true |};
                       NorthSouth := {| Mode := mode; Logging := true |} |};
     Policies :=
       {| EastWestPolicy :=
            [policy "p1" "before_commit" "web" "db" "" "tcp" 5432;
             policy "p2" "remove_next_commit" "db" "web" "" "tcp" 80;
             policy "p3" "before_commit" "web" "cache" "" "tcp" 6379];
          NorthSouthObservePolicy := [];
          NorthSouthEnforcePolicy := [policy "p4" "before_commit" "db" "" "10.1.1.1" "tcp" 443] |} |}.

Definition start (mode : string) : world NetworkPolicy policy_call (tables filter_table) :=
  {| store := table mode; faults := []; times := []; ids := []; trace := [];
     inner := {| csm := containers; ipam := addresses; psm := Psm.init;
                 net := <["FORWARD" := []]> ∅ |} |}.

Definition done_w (mode : string) := (CommitPolicy (start mode)).2.

Definition east_west_packet (i o : string) (port : Z) : packet :=
  {| ct_state := "NEW"; in_dev := "raind0"; out_dev := "raind0"; in_physdev := i;
     out_physdev := o; bridged := true; src := ""; dst := ""; proto := "tcp";
     sport := 40000; dport := port; is_syn := true |}.
Definition outbound_packet (s d : string) (port : Z) : packet :=
  {| ct_state := "NEW"; in_dev := "raind0"; out_dev := "eth0"; in_physdev := "";
     out_physdev := ""; bridged := false; src := s; dst := d; proto := "tcp";
     sport := 40000; dport := port; is_syn := true |}.

Definition passes (mode : string) (k : packet) : option string :=
  verdict String.eqb String.eqb 3 (filter_of (done_w mode)) k "FORWARD".

(** The policy of the table passes its packets, and only those. *)
Example verdicts :
  (passes "observe" (east_west_packet "rd_c1" "rd_c2" 5432),
   passes "observe" (east_west_packet "rd_c1" "rd_c2" 5433),
   passes "observe" (east_west_packet "rd_c2" "rd_c1" 80),
   passes "observe" (outbound_packet "10.166.0.1" "10.1.1.1" 443),
   passes "enforce_next_commit" (outbound_packet "10.166.0.1" "10.1.1.1" 443),
   passes "enforce_next_commit" (outbound_packet "10.166.0.2" "10.1.1.1" 443)) =
  (Some "ACCEPT", Some "DROP", Some "DROP", Some "ACCEPT", Some "DROP", Some "ACCEPT").
Proof. vm_compute. reflexivity. Qed.

(** The statuses that the commit leaves. *)
Example statuses :
  ((fun p => (Id p, Status p)) <$> ew_list (store (done_w "observe"))) =
    [("p1", "applied"); ("p3", "unresolved")].
Proof. vm_compute. reflexivity. Qed.

Lemma commits mode :
  mode = "observe" \/ mode = "enforce_next_commit" ->
  CommitPolicy (start mode) = (Ok tt, done_w mode).
Proof. intros [-> | ->]; apply injective_projections; vm_compute; reflexivity. Qed.


(** [commit_denies_outbound] on a packet of [web], which has no policy. *)
Example commit_denies_outbound_witness :
  CommitPolicy (start "enforce_next_commit") = (Ok tt, done_w "enforce_next_commit") /\
  forwarded String.eqb String.eqb (filter_of (start "enforce_next_commit"))
    (filter_of (done_w "enforce_next_commit")) (outbound_packet "10.166.0.1" "10.1.1.1" 443)
    (fun v =>
      v = Some "DROP" \/
      v = Some "ACCEPT" /\
      allows String.eqb String.eqb (ns_model containers addresses)
        (enf_list (table "enforce_next_commit")) (outbound_packet "10.166.0.1" "10.1.1.1" 443) = true) /\
  verdict String.eqb String.eqb 3 (filter_of (done_w "enforce_next_commit"))
    (outbound_packet "10.166.0.1" "10.1.1.1" 443) "FORWARD" = Some "DROP".
Proof.
  split; [by apply commits; right|]. split.
  - apply (commit_denies_outbound String.eqb String.eqb (start "enforce_next_commit")
      (done_w "enforce_next_commit") (outbound_packet "10.166.0.1" "10.1.1.1" 443));
      [reflexivity|by apply commits; right|reflexivity|reflexivity|reflexivity].
  - vm_compute. reflexivity.
Defined.

(** [CommitPolicy_table] on the table above. *)
Example CommitPolicy_table_witness :
  policy_ids (ew_list (store (done_w "enforce_next_commit"))) = ["p1"; "p3"] /\
  ns_mode (store (done_w "enforce_next_commit")) = "enforce".
Proof.
  destruct (CommitPolicy_table (start "enforce_next_commit") (done_w "enforce_next_commit"))
    as [H1 H2].
  - reflexivity.
  - apply (bool_decide_unpack _). vm_compute. exact I.
  - by apply commits; right.
  - split; [|exact H2]. apply (H1 "RAIND-EW"). by left.
Defined.

(** The same system, with store accesses that fail. *)
Definition faulty (mode : string) (fs : list (option error)) :
    world NetworkPolicy policy_call (tables filter_table) :=
  {| store := table mode; faults := fs; times := []; ids := []; trace := [];
     inner := inner (start mode) |}.

(** One failed read opens the filter: the table says [enforce] and lists no
    policy for [web], but when the read of the mode fails, [IsNsEnforce] is
    false, the observing rules are installed, the commit reports success, and
    the connection of [web] to the outside is accepted; without the failure it
    is dropped. *)
Theorem failed_read_opens :
  let k := outbound_packet "10.166.0.1" "10.1.1.1" 443 in
  let commit fs := CommitPolicy (faulty "enforce" fs) in
  let seen fs := verdict String.eqb String.eqb 2 (filter_of (commit fs).2) k "RAIND-ROOT" in
  ((commit []).1, seen []) = (Ok tt, Some "DROP") /\
  ((commit [None; None; Some "store locked"]).1, seen [None; None; Some "store locked"]) =
    (Ok tt, Some "ACCEPT").
Proof. vm_compute. split; reflexivity. Qed.

(** A failure in the loop over the east-west policies is not reported: when
    marking [p3] fails, the policies after it are neither installed nor
    marked, and the commit still reports success, because the error is
    overwritten by the result of the next loop. *)
Theorem commit_hides_failure :
  let broken := {| store :=
      {| Version := "v1"; DefaultRule := DefaultRule (table "observe");
         Policies := {| EastWestPolicy := [policy "p3" "before_commit" "web" "cache" "" "tcp" 6379;
                                           policy "p1" "before_commit" "web" "db" "" "tcp" 5432];
                        NorthSouthObservePolicy := []; NorthSouthEnforcePolicy := [] |} |};
      faults := repeat None 14 ++ [Some "store locked"]; times := []; ids := []; trace := [];
      inner := inner (start "observe") |} in
  let '(r, w) := CommitPolicy broken in
  r = Ok tt /\ ((fun p => (Id p, Status p)) <$> ew_list (store w)) =
    [("p3", "before_commit"); ("p1", "before_commit")] /\
  verdict String.eqb String.eqb 2 (filter_of w) (east_west_packet "rd_c1" "rd_c2" 5432)
    "RAIND-ROOT" = Some "DROP".
Proof. vm_compute. repeat split. Qed.
End Demo.
