(* ===== verification/Netpol.v ===== *)
(** * Network policy objects ([store/netpol])

    The table of the network policies that users apply; [NetworkPolicy.v]
    translates them to the policies of [Npm.v]. *)

From Stdlib Require Import ZArith Lia String.
From stdpp Require Import base gmap strings list.
From S2P Require Import Prelude.
From S2P Require Import GoString.
From S2P Require Import Persist.
Open Scope Z_scope.

(** ** Data ([model.go]) *)

Record RuleInfo := {
  ri_Direction : string;
  ri_PodSelector : gmap string string;
  ri_Protocol : string;
  ri_Port : Z
}.

Record NetworkPolicyInfo := {
  NetworkPolicyId : string;
  Name : string;
  Namespace : string;
  PodSelector : gmap string string;
  Ingress : list RuleInfo;
  Egress : list RuleInfo;
  GeneratedRuleIds : list string;
  CreatedAt : Z
}.

Record NetworkPolicyState := {
  Version : string;
  NetworkPolicies : gmap string NetworkPolicyInfo
}.

Definition set_NetworkPolicies (st : NetworkPolicyState) (m : gmap string NetworkPolicyInfo)
    : NetworkPolicyState :=
  {| Version := Version st; NetworkPolicies := m |}.

Definition set_GeneratedRuleIds (info : NetworkPolicyInfo) (ids : list string)
    : NetworkPolicyInfo :=
  {| NetworkPolicyId := NetworkPolicyId info; Name := Name info; Namespace := Namespace info;
     PodSelector := PodSelector info; Ingress := Ingress info; Egress := Egress info;
     GeneratedRuleIds := ids; CreatedAt := CreatedAt info |}.

(** ** Operations ([netpol.go]) *)

Section manager.
Context {RO : RangeOrder}.
Implicit Types st : NetworkPolicyState.

Definition id_not_found (networkPolicyId : string) : error :=
  "networkPolicyId=" +:+ networkPolicyId +:+ " not found".
Definition in_namespace (namespace : string) : string :=
  if String.eqb namespace "" then "default" else namespace.

(** [now] is [time.Now()]. *)
Definition StoreNetworkPolicy (networkPolicyId : string) (info : NetworkPolicyInfo) (now : Z) st
    : res (NetworkPolicyState * unit) :=
  let info := {| NetworkPolicyId := networkPolicyId; Name := Name info;
                 Namespace := in_namespace (Namespace info); PodSelector := PodSelector info;
                 Ingress := Ingress info; Egress := Egress info;
                 GeneratedRuleIds := GeneratedRuleIds info;
                 CreatedAt := if CreatedAt info =? 0 then now else CreatedAt info |} in
  Ok (set_NetworkPolicies st (<[networkPolicyId := info]> (NetworkPolicies st)), tt).

Definition GetNetworkPolicyList st : res (list NetworkPolicyInfo) :=
  Ok (range_values (NetworkPolicies st)).

Definition GetNetworkPolicyById (networkPolicyId : string) st : res NetworkPolicyInfo :=
  match NetworkPolicies st !! networkPolicyId with
  | Some policy => Ok policy
  | None => Err (id_not_found networkPolicyId)
  end.

Definition find_by_name (name namespace : string) st : option (string * NetworkPolicyInfo) :=
  range_find (fun p => String.eqb (Name p) name && String.eqb (Namespace p) namespace)
    (NetworkPolicies st).

Definition GetNetworkPolicyByName (name namespace : string) st : res NetworkPolicyInfo :=
  let namespace := in_namespace namespace in
  match find_by_name name namespace st with
  | Some (_, policy) => Ok policy
  | None => Err ("networkpolicy " +:+ namespace +:+ "/" +:+ name +:+ " not found")
  end.

Definition RemoveNetworkPolicy (networkPolicyId : string) st : res (NetworkPolicyState * unit) :=
  m ← remove_entry (id_not_found networkPolicyId) networkPolicyId (NetworkPolicies st);
  Ok (set_NetworkPolicies st m, tt).

Definition UpdateGeneratedRuleIds (networkPolicyId : string) (generatedRuleIds : list string) st
    : res (NetworkPolicyState * unit) :=
  m ← update_entry (id_not_found networkPolicyId) networkPolicyId
        (fun info => Ok (set_GeneratedRuleIds info generatedRuleIds)) (NetworkPolicies st);
  Ok (set_NetworkPolicies st m, tt).

Definition IsNameAlreadyUsed (name namespace : string) st : res bool :=
  Ok (match find_by_name name (in_namespace namespace) st with Some _ => true | None => false end).
End manager.

(** ** The store ([store.go]) *)

Definition init : NetworkPolicyState := {| Version := "0.1.0"; NetworkPolicies := ∅ |}.

Definition SetNetworkPolicyState_tx (st : NetworkPolicyState)
    : res (NetworkPolicyState * unit) :=
  Ok ({| Version := "0.1.0"; NetworkPolicies := NetworkPolicies st |}, tt).

Section store.
Context {C : Codec NetworkPolicyState}.

(** A missing map reads as the empty one. *)
Definition loadOrInit (path : string) : fsM NetworkPolicyState :=
  Persist.loadOrInit path "networkpolicy state json broken" init id.
Definition atomicSave : string -> NetworkPolicyState -> fsM unit := Persist.atomicSave.
Definition withLock {A} (path : string)
    : (NetworkPolicyState -> res (NetworkPolicyState * A)) -> fsM A :=
  Persist.withLock path (loadOrInit path).
Definition withRLock {A} (path : string) : (NetworkPolicyState -> res A) -> fsM A :=
  Persist.withRLock path (loadOrInit path).
Definition SetNetworkPolicyState (path : string) : fsM unit :=
  withLock path SetNetworkPolicyState_tx.
End store.
