(* ===== verification/Cfm.v ===== *)
(** * Config maps ([store/cfm])

    The table of the config maps: named sets of values that pods take their
    environment from. *)

From Stdlib Require Import ZArith Lia String.
From stdpp Require Import base gmap strings list.
From S2P Require Import Prelude.
From S2P Require Import GoString.
From S2P Require Import Persist.
Open Scope Z_scope.

(** ** Data ([model.go]) *)

Record ConfigMapInfo := {
  ConfigMapId : string;
  Name : string;
  Namespace : string;
  Data : gmap string string;
  CreatedAt : Z
}.

Record ConfigMapState := {
  Version : string;
  ConfigMap : gmap string ConfigMapInfo
}.

Definition set_ConfigMap (st : ConfigMapState) (m : gmap string ConfigMapInfo) : ConfigMapState :=
  {| Version := Version st; ConfigMap := m |}.

(** ** Operations ([cfm.go]) *)

Section manager.
Context {RO : RangeOrder}.
Implicit Types st : ConfigMapState.

Definition id_not_found (configMapId : string) : error :=
  "configMapId=" +:+ configMapId +:+ " not found".
Definition in_namespace (namespace : string) : string :=
  if String.eqb namespace "" then "default" else namespace.
Definition named (name namespace : string) (c : ConfigMapInfo) : bool :=
  String.eqb (Name c) name && String.eqb (Namespace c) namespace.

(** What is stored: [now] is [time.Now()], whatever the creation time of [spec]. *)
Definition stored (configMapId : string) (spec : ConfigMapInfo) (now : Z) : ConfigMapInfo :=
  {| ConfigMapId := configMapId; Name := Name spec; Namespace := in_namespace (Namespace spec);
     Data := Data spec; CreatedAt := now |}.

Definition StoreConfigMap (configMapId : string) (spec : ConfigMapInfo) (now : Z) st
    : res (ConfigMapState * unit) :=
  Ok (set_ConfigMap st (<[configMapId := stored configMapId spec now]> (ConfigMap st)), tt).

Definition GetConfigMapList st : res (list ConfigMapInfo) := Ok (range_values (ConfigMap st)).

Definition GetConfigMapById (configMapId : string) st : res ConfigMapInfo :=
  match ConfigMap st !! configMapId with
  | Some cm => Ok cm
  | None => Err (id_not_found configMapId)
  end.

Definition GetConfigMapByName (name namespace : string) st : res ConfigMapInfo :=
  let namespace := in_namespace namespace in
  match range_find (named name namespace) (ConfigMap st) with
  | Some (_, cm) => Ok cm
  | None => Err ("configmap " +:+ namespace +:+ "/" +:+ name +:+ " not found")
  end.

Definition RemoveConfigMap (configMapId : string) st : res (ConfigMapState * unit) :=
  m ← remove_entry (id_not_found configMapId) configMapId (ConfigMap st);
  Ok (set_ConfigMap st m, tt).

(** The error of the lock is dropped: [false] when the store cannot be read. *)
Definition IsNameAlreadyUsed (name namespace : string) st : res bool :=
  Ok (match range_find (named name (in_namespace namespace)) (ConfigMap st) with
      | Some _ => true
      | None => false
      end).
End manager.

(** ** The store ([store.go]) *)

Definition init : ConfigMapState := {| Version := "0.1.0"; ConfigMap := ∅ |}.

Definition SetConfigMapState_tx (st : ConfigMapState) : res (ConfigMapState * unit) :=
  Ok ({| Version := "0.1.0"; ConfigMap := ConfigMap st |}, tt).

Section store.
Context {C : Codec ConfigMapState}.

(** A missing map reads as the empty one. *)
Definition loadOrInit (path : string) : fsM ConfigMapState :=
  Persist.loadOrInit path "configmap state json broken" init id.
Definition atomicSave : string -> ConfigMapState -> fsM unit := Persist.atomicSave.
Definition withLock {A} (path : string) : (ConfigMapState -> res (ConfigMapState * A)) -> fsM A :=
  Persist.withLock path (loadOrInit path).
Definition withRLock {A} (path : string) : (ConfigMapState -> res A) -> fsM A :=
  Persist.withRLock path (loadOrInit path).
Definition SetConfigMapState (path : string) : fsM unit := withLock path SetConfigMapState_tx.
End store.
