(* ===== verification/Sec.v ===== *)
(** * Secrets ([store/sec])

    The table of the secrets.  Its engine is its own: the directory, the lock
    and the files are made private, the state file after it has been renamed
    into place, so that an error can come after the new state is stored. *)

From Stdlib Require Import ZArith Lia String.
From stdpp Require Import base gmap strings list.
From S2P Require Import Prelude.
From S2P Require Import GoString.
From S2P Require Import Persist.
Open Scope Z_scope.

(** ** Data ([model.go]) *)

Definition SecretTypeOpaque : string := "Opaque".

Record SecretInfo := {
  SecretId : string;
  Name : string;
  Namespace : string;
  Type_ : string;
  Data : gmap string string;
  CreatedAt : Z
}.

Record SecretState := {
  Version : string;
  Secrets : gmap string SecretInfo
}.

Definition set_Secrets (st : SecretState) (m : gmap string SecretInfo) : SecretState :=
  {| Version := Version st; Secrets := m |}.

(** ** Operations ([sec.go]) *)

Section manager.
Context {RO : RangeOrder}.
Implicit Types st : SecretState.

Definition id_not_found (secretId : string) : error := "secretId=" +:+ secretId +:+ " not found".
Definition in_namespace (namespace : string) : string :=
  if String.eqb namespace "" then "default" else namespace.
Definition named (name namespace : string) (s : SecretInfo) : bool :=
  String.eqb (Name s) name && String.eqb (Namespace s) namespace.

(** What is stored: [now] is [time.Now()], whatever the creation time of [spec]. *)
Definition stored (secretId : string) (spec : SecretInfo) (now : Z) : SecretInfo :=
  {| SecretId := secretId; Name := Name spec; Namespace := in_namespace (Namespace spec);
     Type_ := if String.eqb (Type_ spec) "" then SecretTypeOpaque else Type_ spec;
     Data := Data spec; CreatedAt := now |}.

Definition StoreSecret (secretId : string) (spec : SecretInfo) (now : Z) st
    : res (SecretState * unit) :=
  Ok (set_Secrets st (<[secretId := stored secretId spec now]> (Secrets st)), tt).

Definition GetSecretList st : res (list SecretInfo) := Ok (range_values (Secrets st)).

Definition GetSecretById (secretId : string) st : res SecretInfo :=
  match Secrets st !! secretId with
  | Some s => Ok s
  | None => Err (id_not_found secretId)
  end.

Definition GetSecretByName (name namespace : string) st : res SecretInfo :=
  let namespace := in_namespace namespace in
  match range_find (named name namespace) (Secrets st) with
  | Some (_, s) => Ok s
  | None => Err ("secret " +:+ namespace +:+ "/" +:+ name +:+ " not found")
  end.

Definition RemoveSecret (secretId : string) st : res (SecretState * unit) :=
  m ← remove_entry (id_not_found secretId) secretId (Secrets st);
  Ok (set_Secrets st m, tt).

(** The error of the lock is dropped: [false] when the store cannot be read. *)
Definition IsNameAlreadyUsed (name namespace : string) st : res bool :=
  Ok (match range_find (named name (in_namespace namespace)) (Secrets st) with
      | Some _ => true
      | None => false
      end).
End manager.

(** ** The store ([store.go]) *)

Definition init : SecretState := {| Version := "0.1.0"; Secrets := ∅ |}.

Definition SetSecretState_tx (st : SecretState) : res (SecretState * unit) :=
  Ok ({| Version := "0.1.0"; Secrets := Secrets st |}, tt).

(** The modes of files are not part of the file system of [Persist]. *)
Definition Chmod (name : string) : fsM unit := syscall nop.

Section store.
Context {C : Codec SecretState}.

Definition ensurePrivateDir (path : string) : fsM unit := _ ← MkdirAll path; Chmod path.

(** A missing map reads as the empty one. *)
Definition loadOrInit (path : string) : fsM SecretState :=
  Persist.loadOrInit path "secret state json broken" init id.

Definition atomicSave (path : string) (st : SecretState) : fsM unit :=
  let tmp := path +:+ ".tmp" in
  b ← of_res (marshal st);
  let b := b +:+ newline in
  _ ← OpenTrunc tmp;
  _ ← Chmod tmp;
  _ ← Write tmp b;
  _ ← Sync tmp;
  _ ← Close tmp;
  _ ← Rename tmp path;
  Chmod path.

Definition acquire (path : string) : fsM unit :=
  let lockPath := path +:+ ".lock" in
  _ ← ensurePrivateDir path;
  _ ← OpenCreate lockPath;
  _ ← Chmod lockPath;
  FlockEx lockPath.

Definition withLock {A} (path : string) (fn : SecretState -> res (SecretState * A)) : fsM A :=
  fun w =>
  match acquire path w with
  | (Done _, w) =>
      let '(r, w) :=
        (st ← loadOrInit path;
         '(st', a) ← of_res (fn st);
         _ ← atomicSave path st';
         mret a) w in
      (r, Unlock (path +:+ ".lock") w)
  | (Failed e, w) => (Failed e, w)
  | (Crashed, w) => (Crashed, w)
  end.

Definition withRLock {A} (path : string) (fn : SecretState -> res A) : fsM A := fun w =>
  match acquire path w with
  | (Done _, w) =>
      let '(r, w) := (st ← loadOrInit path; of_res (fn st)) w in
      (r, Unlock (path +:+ ".lock") w)
  | (Failed e, w) => (Failed e, w)
  | (Crashed, w) => (Crashed, w)
  end.

Definition SetSecretState (path : string) : fsM unit := withLock path SetSecretState_tx.
End store.

(** ** What the engine guarantees *)
Section theory.
Context {C : Codec SecretState} {CL : CodecLaws SecretState}.
Context (path : string).
Let tmp := path +:+ ".tmp".

Definition stored_state (w : fs) : option SecretState :=
  content_view init id (files w !! path).

Lemma stored_ext w w' : files w' !! path = files w !! path -> stored_state w' = stored_state w.
Proof. unfold stored_state. by intros ->. Qed.

(** Where a save ends: the old state, or all of the new one. *)
Definition old_or_new (st : SecretState) (w w' : fs) : Prop :=
  files w' !! path = files w !! path \/ stored_state w' = Some st.

Lemma saved_stored st b w :
  marshal st = Ok b -> files w !! path = Some (b +:+ newline) -> stored_state w = Some st.
Proof.
  intros Hb Hw. unfold stored_state, content_view. rewrite Hw.
  by rewrite (unmarshal_marshal _ _ Hb).
Qed.

Lemma tmp_frame b :
  frame {[tmp]} (_ ← OpenTrunc tmp; _ ← Chmod tmp; _ ← Write tmp b; _ ← Sync tmp; Close tmp).
Proof.
  repeat (apply frame_bind; [|intros []]);
    auto using frame_nop with go; auto with go set_solver;
    first [apply frame_OpenTrunc | apply frame_Write]; set_solver.
Qed.

Lemma tmp_done b w u w' :
  (_ ← OpenTrunc tmp; _ ← Chmod tmp; _ ← Write tmp b; _ ← Sync tmp; Close tmp) w = (Done u, w') ->
  files w' !! tmp = Some b.
Proof.
  intros H.
  apply bind_run in H as [(? & w1 & H1 & H)|[(? & _ & [=])|[_ [=]]]].
  apply bind_run in H as [(? & w2 & H2 & H)|[(? & _ & [=])|[_ [=]]]].
  apply bind_run in H as [(? & w3 & H3 & H)|[(? & _ & [=])|[_ [=]]]].
  apply bind_run in H as [(? & w4 & H4 & H)|[(? & _ & [=])|[_ [=]]]].
  apply OpenTrunc_done in H1. apply nop_done in H2, H4, H.
  rewrite H, H4. apply (Write_done _ _ _ _ _ "" H3). by rewrite H2.
Qed.

Lemma atomicSave_phases st w :
  atomicSave path st w =
    match marshal st with
    | Ok b =>
        (_ ← (_ ← OpenTrunc tmp; _ ← Chmod tmp; _ ← Write tmp (b +:+ newline);
              _ ← Sync tmp; Close tmp);
         _ ← Rename tmp path; Chmod path) w
    | Err e => (Failed (OsError e), w)
    | Panic _ => (Crashed, w)
    end.
Proof.
  unfold atomicSave, mbind, fsM_bind, of_res. fold tmp.
  destruct (marshal st) as [b|e|e]; [|done..].
  destruct (OpenTrunc _ w) as [[a1|e1|] w1]; [|done..].
  destruct (Chmod _ w1) as [[a2|e2|] w2]; [|done..].
  destruct (Write _ _ w2) as [[a3|e3|] w3]; [|done..].
  by destruct (Sync _ w3) as [[a4|e4|] w4].
Qed.

Lemma atomicSave_ends st w o w' :
  atomicSave path st w = (o, w') ->
  old_or_new st w w' /\ (forall u, o = Done u -> stored_state w' = Some st).
Proof.
  rewrite atomicSave_phases. unfold old_or_new.
  assert (tmp <> path) as Hne by by apply string_app_ne.
  destruct (marshal st) as [b|e|e] eqn:Hm; [|intros [= <- <-]; naive_solver..].
  intros H. pose proof (tmp_frame (b +:+ newline) w) as [_ Hf].
  apply bind_run in H as [([] & w1 & H1 & H)|[(e & H1 & ->)|[H1 ->]]];
    rewrite H1 in Hf; simpl in Hf; [|split; [left; apply Hf; set_solver|done]..].
  apply tmp_done in H1.
  assert (Hw1 : files w1 !! path = files w !! path) by (apply Hf; set_solver). clear Hf.
  apply bind_run in H as [([] & w2 & H2 & H)|[(e & H2 & ->)|[H2 ->]]];
    destruct (Rename_run _ _ _ _ _ _ H1 H2) as [_ Hr].
  - assert (Hw2 : stored_state w2 = Some st).
    { apply (saved_stored _ b); [done|].
      destruct Hr as [[-> _]|[[_ [? [=]]]|[_ [=]]]]. apply lookup_insert_eq. }
    assert (stored_state w' = Some st) as Hw'.
    { rewrite <- Hw2. apply stored_ext. pose proof (frame_nop ∅ w2) as [_ Hn].
      unfold Chmod in H. rewrite H in Hn. apply Hn. set_solver. }
    split; [by right|done].
  - split; [left|done]. destruct Hr as [[_ [[=]|[=]]]|[[-> _]|[-> _]]]; done.
  - split; [|done]. destruct Hr as [[Hr _]|[[Hr _]|[Hr _]]].
    + right. apply (saved_stored _ b); [done|]. rewrite Hr. apply lookup_insert_eq.
    + left. by rewrite Hr.
    + left. by rewrite Hr.
Qed.

(** Taking the lock writes nothing but the lock file. *)
Lemma acquire_files w o w' :
  acquire path w = (o, w') -> files w' !! path = files w !! path.
Proof.
  assert (lock_path path <> path) as Hne by apply lock_path_ne.
  intros H. assert (HF : forall w, files (acquire path w).2 !! path = files w !! path).
  { clear - Hne. intros w. unfold acquire, ensurePrivateDir.
    assert (Hb : forall A B (m : fsM A) (f : A -> fsM B),
      (forall w, files (m w).2 !! path = files w !! path) ->
      (forall a w, files (f a w).2 !! path = files w !! path) ->
      forall w, files ((m ≫= f) w).2 !! path = files w !! path).
    { intros A B m f Hm Hf v. unfold mbind, fsM_bind. specialize (Hm v).
      destruct (m v) as [[a|e|] v']; simpl in *; [|done..]. by rewrite Hf. }
    assert (Hfr : forall A (m : fsM A), frame {[lock_path path]} m ->
      forall w, files (m w).2 !! path = files w !! path).
    { intros A m Hm v. apply Hm. set_solver. }
    revert w. repeat (apply Hb; [|intros []]); intros v.
    - apply (Hfr _ _ (frame_nop _)).
    - apply (Hfr _ _ (frame_nop _)).
    - apply Hfr. apply frame_OpenCreate. set_solver.
    - apply (Hfr _ _ (frame_nop _)).
    - unfold FlockEx, syscall. pose proof (pop_frame v) as [_ Hp].
      destruct (pop v) as [[] v']; simpl in *; by rewrite ?Hp. }
  specialize (HF w). by rewrite H in HF.
Qed.

(** What one call may do: the state is the old one or the transaction's.  An
    error does not tell which. *)
Definition call_spec {A} (fn : SecretState -> res (SecretState * A)) (s : option SecretState)
    (o : outcome A) (s' : option SecretState) : Prop :=
  let committed a := exists st st', s = Some st /\ fn st = Ok (st', a) /\ s' = Some st' in
  match o with
  | Done a => committed a
  | Failed _ | Crashed => s' = s \/ exists a, committed a
  end.

(** A call on the secrets leaves the old state or the transaction's, under any
    fault or crash; when it returns it is the transaction's. *)
Theorem secret_call_commits_or_not {A} (fn : SecretState -> res (SecretState * A)) w o w' :
  withLock path fn w = (o, w') -> call_spec fn (stored_state w) o (stored_state w').
Proof.
  unfold withLock. destruct (acquire path w) as [oa w1] eqn:Ha. apply acquire_files in Ha as Hw1.
  assert (Hs1 : stored_state w1 = stored_state w) by by apply stored_ext.
  destruct oa as [u|e|]; [|intros [= <- <-]; left; done..].
  destruct ((st ← loadOrInit path; _) w1) as [r w2] eqn:Hb. intros [= <- <-].
  assert (stored_state (Unlock (path +:+ ".lock") w2) = stored_state w2) as -> by done.
  rewrite <- Hs1. clear w Ha Hw1 Hs1.
  pose proof (load_frame (path := path) (load := loadOrInit path) w1) as [_ Hf].
  apply bind_run in Hb as [(st & w3 & H1 & H)|[(e & H1 & ->)|[H1 ->]]];
    rewrite H1 in Hf; simpl in Hf; [|left; apply stored_ext, Hf; set_solver..].
  apply load_view in H1.
  assert (Hs3 : stored_state w3 = stored_state w1) by (apply stored_ext, Hf; set_solver).
  rewrite <- Hs3. unfold of_res, mbind at 1, fsM_bind at 1 in H.
  assert (Hst : stored_state w3 = Some st) by by rewrite Hs3.
  destruct (fn st) as [[st' a]|e|e] eqn:Hfn; [|injection H as <- <-; by left..].
  apply bind_run in H as [([] & w4 & H2 & H)|[(e & H2 & ->)|[H2 ->]]];
    destruct (atomicSave_ends _ _ _ _ H2) as [Hold Hdone].
  - injection H as <- <-. exists st, st'. by rewrite (Hdone tt).
  - destruct Hold as [Ho|Hn]; [left; by apply stored_ext|right; exists a, st, st'; done].
  - destruct Hold as [Ho|Hn]; [left; by apply stored_ext|right; exists a, st, st'; done].
Qed.

(** The change of mode after the rename can fail: the call returns an error,
    and the new state is stored all the same. *)
Theorem error_after_commit {A} (fn : SecretState -> res (SecretState * A)) st b a e :
  fn init = Ok (st, a) -> marshal st = Ok b ->
  let w := {| files := ∅; locked := ∅; faults := replicate 12 NoFault ++ [Fail e] |} in
  (withLock path fn w).1 = Failed (OsError e) /\ stored_state (withLock path fn w).2 = Some st.
Proof.
  intros Hfn Hb w.
  assert (Hne : path +:+ ".lock" <> path) by apply lock_path_ne.
  assert (Hnt : tmp <> path) by by apply string_app_ne.
  assert (Hlt : path +:+ ".lock" <> tmp)
    by (unfold tmp; intros He; apply (inj (String.append path)) in He; done).
  unfold withLock, acquire, ensurePrivateDir, loadOrInit, Persist.loadOrInit, atomicSave,
    Chmod, MkdirAll, OpenCreate, OpenTrunc, FlockEx, ReadFile, Write, Sync, Close, Rename, of_res.
  unfold mbind, fsM_bind, syscall, pop. fold tmp. cbn -[String.append lookup insert delete].
  rewrite lookup_empty. rewrite lookup_insert_ne by done. rewrite lookup_empty.
  cbn -[String.append lookup insert delete]. rewrite Hfn. cbn -[String.append lookup insert delete].
  rewrite Hb. cbn -[String.append lookup insert delete].
  rewrite !lookup_insert_eq. cbn -[String.append lookup insert delete]. split; [done|].
  apply (saved_stored _ b); [done|]. cbn -[String.append lookup insert delete].
  by rewrite !lookup_insert_eq.
Qed.
End theory.
