(* ===== verification/Ism.v ===== *)
(** * Ingresses ([store/ism])

    The table of the ingresses: which host and path goes to which service. *)

From Stdlib Require Import ZArith Lia String.
From stdpp Require Import base gmap strings list.
From S2P Require Import Prelude.
From S2P Require Import GoString.
From S2P Require Import Persist.
Open Scope Z_scope.

(** ** Data ([model.go]) *)

Record IngressBackend := { ServiceName : string; ServicePort : Z }.

Record IngressPath := { Path : string; PathType : string; Backend : IngressBackend }.

Record IngressRule := { Host : string; Paths : list IngressPath }.

Record IngressInfo := {
  IngressId : string;
  Name : string;
  Namespace : string;
  Rules : list IngressRule;
  TLSHosts : list string;
  CreatedAt : Z
}.

Record IngressState := {
  Version : string;
  Ingresses : gmap string IngressInfo
}.

#[export] Instance IngressBackend_eq_dec : EqDecision IngressBackend.
Proof. solve_decision. Defined.
#[export] Instance IngressPath_eq_dec : EqDecision IngressPath.
Proof. solve_decision. Defined.
#[export] Instance IngressRule_eq_dec : EqDecision IngressRule.
Proof. solve_decision. Defined.

Definition set_Ingresses (st : IngressState) (m : gmap string IngressInfo) : IngressState :=
  {| Version := Version st; Ingresses := m |}.

(** ** Operations ([ism.go]) *)

Section manager.
Context {RO : RangeOrder}.
Implicit Types st : IngressState.

Definition id_not_found (ingressId : string) : error :=
  "ingressId=" +:+ ingressId +:+ " not found".
Definition named (name namespace : string) (i : IngressInfo) : bool :=
  String.eqb (Name i) name && String.eqb (Namespace i) namespace.

(** What is stored: [now] is [time.Now()]; the namespace is not defaulted. *)
Definition stored (ingressId : string) (spec : IngressInfo) (now : Z) : IngressInfo :=
  {| IngressId := ingressId; Name := Name spec; Namespace := Namespace spec;
     Rules := Rules spec; TLSHosts := TLSHosts spec; CreatedAt := now |}.

Definition StoreIngress (ingressId : string) (spec : IngressInfo) (now : Z) st
    : res (IngressState * unit) :=
  Ok (set_Ingresses st (<[ingressId := stored ingressId spec now]> (Ingresses st)), tt).

Definition GetIngressList st : res (list IngressInfo) := Ok (range_values (Ingresses st)).

Definition GetIngressById (ingressId : string) st : res IngressInfo :=
  match Ingresses st !! ingressId with
  | Some i => Ok i
  | None => Err (id_not_found ingressId)
  end.

Definition RemoveIngress (ingressId : string) st : res (IngressState * unit) :=
  m ← remove_entry (id_not_found ingressId) ingressId (Ingresses st);
  Ok (set_Ingresses st m, tt).

Definition IsNameAlreadyUsed (name namespace : string) st : res bool :=
  Ok (match range_find (named name namespace) (Ingresses st) with
      | Some _ => true
      | None => false
      end).
End manager.

(** ** The store ([store.go]) *)

Definition init : IngressState := {| Version := "0.1.0"; Ingresses := ∅ |}.

Definition SetIngressState_tx (st : IngressState) : res (IngressState * unit) :=
  Ok ({| Version := "0.1.0"; Ingresses := Ingresses st |}, tt).

Section store.
Context {C : Codec IngressState}.

(** A missing map reads as the empty one. *)
Definition loadOrInit (path : string) : fsM IngressState :=
  Persist.loadOrInit path "ingress state json broken" init id.
Definition atomicSave : string -> IngressState -> fsM unit := Persist.atomicSave.
Definition withLock {A} (path : string) : (IngressState -> res (IngressState * A)) -> fsM A :=
  Persist.withLock path (loadOrInit path).
Definition withRLock {A} (path : string) : (IngressState -> res A) -> fsM A :=
  Persist.withRLock path (loadOrInit path).
Definition SetIngressState (path : string) : fsM unit := withLock path SetIngressState_tx.
End store.
