(* ===== verification/Vsm.v ===== *)
(** * Persistent volume claims ([store/vsm])

    The table of the volumes that pods mount. *)

From Stdlib Require Import ZArith Lia String.
From stdpp Require Import base gmap strings list.
From S2P Require Import Prelude.
From S2P Require Import GoString.
From S2P Require Import Persist.
Open Scope Z_scope.

(** ** Data ([model.go]) *)

Definition PVCPhaseBound : string := "Bound".
Definition PVCPhaseReleased : string := "Released".
Definition PVCReclaimRetain : string := "Retain".
Definition PVCReclaimDelete : string := "Delete".

Record PersistentVolumeClaimInfo := {
  PVCId : string;
  Name : string;
  Namespace : string;
  AccessModes : list string;
  RequestedStorage : string;
  RequestedBytes : Z;
  StorageClassName : string;
  VolumeMode : string;
  HostPath : string;
  DataPath : string;
  ReclaimPolicy : string;
  Phase : string;
  CreatedAt : Z
}.

Record VolumeState := {
  Version : string;
  PVCs : gmap string PersistentVolumeClaimInfo
}.

Definition set_PVCs (st : VolumeState) (m : gmap string PersistentVolumeClaimInfo) : VolumeState :=
  {| Version := Version st; PVCs := m |}.

(** ** Operations ([vsm.go]) *)

Section manager.
Context {RO : RangeOrder}.
Implicit Types st : VolumeState.

Definition id_not_found (pvcId : string) : error := "pvcId=" +:+ pvcId +:+ " not found".
Definition in_namespace (namespace : string) : string :=
  if String.eqb namespace "" then "default" else namespace.
Definition named (name namespace : string) (p : PersistentVolumeClaimInfo) : bool :=
  String.eqb (Name p) name && String.eqb (Namespace p) namespace.

(** [x == ""] read as [d]. *)
Definition or_default (x d : string) : string := if String.eqb x "" then d else x.

(** What is stored; unlike the other tables this one keeps a creation time. *)
Definition stored (pvcId : string) (info : PersistentVolumeClaimInfo) (now : Z)
    : PersistentVolumeClaimInfo :=
  {| PVCId := pvcId; Name := Name info; Namespace := in_namespace (Namespace info);
     AccessModes := AccessModes info; RequestedStorage := RequestedStorage info;
     RequestedBytes := RequestedBytes info; StorageClassName := StorageClassName info;
     VolumeMode := VolumeMode info; HostPath := HostPath info; DataPath := DataPath info;
     ReclaimPolicy := or_default (ReclaimPolicy info) PVCReclaimRetain;
     Phase := or_default (Phase info) PVCPhaseBound;
     CreatedAt := if CreatedAt info =? 0 then now else CreatedAt info |}.

Definition StorePVC (pvcId : string) (info : PersistentVolumeClaimInfo) (now : Z) st
    : res (VolumeState * unit) :=
  Ok (set_PVCs st (<[pvcId := stored pvcId info now]> (PVCs st)), tt).

Definition GetPVCList st : res (list PersistentVolumeClaimInfo) := Ok (range_values (PVCs st)).

Definition GetPVCById (pvcId : string) st : res PersistentVolumeClaimInfo :=
  match PVCs st !! pvcId with
  | Some pvc => Ok pvc
  | None => Err (id_not_found pvcId)
  end.

Definition GetPVCByName (name namespace : string) st : res PersistentVolumeClaimInfo :=
  let namespace := in_namespace namespace in
  match range_find (named name namespace) (PVCs st) with
  | Some (_, pvc) => Ok pvc
  | None => Err ("pvc " +:+ namespace +:+ "/" +:+ name +:+ " not found")
  end.

Definition RemovePVC (pvcId : string) st : res (VolumeState * unit) :=
  m ← remove_entry (id_not_found pvcId) pvcId (PVCs st);
  Ok (set_PVCs st m, tt).

Definition IsNameAlreadyUsed (name namespace : string) st : res bool :=
  Ok (match range_find (named name (in_namespace namespace)) (PVCs st) with
      | Some _ => true
      | None => false
      end).
End manager.

(** ** The store ([store.go]) *)

Definition init : VolumeState := {| Version := "0.1.0"; PVCs := ∅ |}.

Definition SetVolumeState_tx (st : VolumeState) : res (VolumeState * unit) :=
  Ok ({| Version := "0.1.0"; PVCs := PVCs st |}, tt).

Section store.
Context {C : Codec VolumeState}.

(** A missing map reads as the empty one. *)
Definition loadOrInit (path : string) : fsM VolumeState :=
  Persist.loadOrInit path "volume state json broken" init id.
Definition atomicSave : string -> VolumeState -> fsM unit := Persist.atomicSave.
Definition withLock {A} (path : string) : (VolumeState -> res (VolumeState * A)) -> fsM A :=
  Persist.withLock path (loadOrInit path).
Definition withRLock {A} (path : string) : (VolumeState -> res A) -> fsM A :=
  Persist.withRLock path (loadOrInit path).
Definition SetVolumeState (path : string) : fsM unit := withLock path SetVolumeState_tx.
End store.
