(* ===== verification/Pvc.v ===== *)
(** * Persistent volume claims ([core/pvc])

    The manifest of a claim with its quantity of storage, and the service that
    makes and removes the directories of the claims, over the tables of claims
    ([Vsm]) and of pods ([Psm]). *)

From Stdlib Require Import ZArith Lia Ascii String.
From stdpp Require Import base gmap strings pretty list.
From S2P Require Import Prelude.
From S2P Require Import GoString.
From S2P Require Import GoSort.
From S2P Require Import GoPath.
From S2P Require Import GoNumber.
From S2P Require Import GoYaml.
From S2P Require Import World.
From S2P Require Import PathSafety.
From S2P Require Psm.
From S2P Require Import Vsm.
Open Scope Z_scope.

(** ** The manifest ([manifest.go]) *)

Definition ReclaimPolicyAnnotation : string := "raind.dev/reclaimPolicy".

Record Manifest := {
  m_Name : string;
  m_Namespace : string;
  m_Annotations : gmap string string;
  m_AccessModes : list string;
  m_RequestedStorage : string;
  m_RequestedBytes : Z;
  m_StorageClassName : string;
  m_VolumeMode : string;
  m_ReclaimPolicy : string
}.

Record pvcManifest := {
  meta_Name : string;
  meta_Namespace : string;
  meta_Annotations : gmap string string;
  spec_AccessModes : list string;
  spec_StorageClassName : string;
  spec_VolumeMode : string;
  spec_Requests : gmap string string
}.

(** The longest prefix of digits and the rest. *)
Fixpoint cut_digits (s : string) : string * string :=
  match s with
  | EmptyString => ("", "")
  | String c r => if is_digit c then let '(d, t) := cut_digits r in (String c d, t) else ("", s)
  end.

(** The units of [([KMGT]i?|)] with what they stand for. *)
Definition multiplier (unit : string) : option Z :=
  if String.eqb unit "" then Some 1 else
  if String.eqb unit "K" then Some 1000 else
  if String.eqb unit "M" then Some (1000 * 1000) else
  if String.eqb unit "G" then Some (1000 * 1000 * 1000) else
  if String.eqb unit "T" then Some (1000 * 1000 * 1000 * 1000) else
  if String.eqb unit "Ki" then Some 1024 else
  if String.eqb unit "Mi" then Some (1024 * 1024) else
  if String.eqb unit "Gi" then Some (1024 * 1024 * 1024) else
  if String.eqb unit "Ti" then Some (1024 * 1024 * 1024 * 1024) else None.

(** The two groups of the pattern: a number without a leading zero, then a unit.
    The multiplier comes with the unit, and every unit of the pattern has one. *)
Definition quantityPattern (value : string) : option (string * Z) :=
  let '(digits, unit) := cut_digits value in
  match digits with
  | EmptyString => None
  | String c _ => if Ascii.eqb c "0" then None else
                  match multiplier unit with Some m => Some (digits, m) | None => None end
  end.

(** In [uint64]: the quotient tells whether the product overflows. *)
Definition ParseStorageQuantity (value : string) : res Z :=
  let value := trimSpace value in
  match quantityPattern value with
  | None => Err ("invalid storage quantity: " +:+ value)
  | Some (digits, multiplier) =>
      match ParseUint digits with
      | Ok n =>
          if MaxUint64 / multiplier <? n
          then Err ("storage quantity overflows uint64: " +:+ value)
          else Ok ((n * multiplier) mod 2 ^ 64)
      | _ => Err ("invalid storage quantity: " +:+ value)
      end
  end.

(** The first access mode that is not supported. *)
Fixpoint check_modes (modes : list string) : res unit :=
  match modes with
  | [] => Ok tt
  | mode :: modes =>
      if String.eqb mode "ReadWriteOnce" then check_modes modes
      else Err ("unsupported persistentvolumeclaim accessMode: " +:+ mode)
  end.

Definition buildManifest (pm : pvcManifest) : res Manifest :=
  if String.eqb (meta_Name pm) "" then Err "persistentvolumeclaim name is required" else
  let namespace := in_namespace (meta_Namespace pm) in
  match spec_AccessModes pm with
  | [] => Err "persistentvolumeclaim accessModes is required"
  | _ =>
      _ ← check_modes (spec_AccessModes pm);
      let requested := default "" (spec_Requests pm !! "storage") in
      if String.eqb requested ""
      then Err "persistentvolumeclaim resources.requests.storage is required" else
      bytes ← ParseStorageQuantity requested;
      let reclaimPolicy := or_default (default "" (meta_Annotations pm !! ReclaimPolicyAnnotation))
                                      PVCReclaimRetain in
      if negb (String.eqb reclaimPolicy PVCReclaimRetain) &&
         negb (String.eqb reclaimPolicy PVCReclaimDelete)
      then Err ("unsupported persistentvolumeclaim reclaim policy: " +:+ reclaimPolicy) else
      let volumeMode := or_default (spec_VolumeMode pm) "Filesystem" in
      if negb (String.eqb volumeMode "Filesystem")
      then Err ("unsupported persistentvolumeclaim volumeMode: " +:+ volumeMode) else
      Ok {| m_Name := meta_Name pm; m_Namespace := namespace;
            m_Annotations := meta_Annotations pm; m_AccessModes := spec_AccessModes pm;
            m_RequestedStorage := requested; m_RequestedBytes := bytes;
            m_StorageClassName := spec_StorageClassName pm; m_VolumeMode := volumeMode;
            m_ReclaimPolicy := reclaimPolicy |}
  end.

Definition DecodeK8sPVCManifest `{Yaml, YamlType pvcManifest} : string -> res Manifest :=
  decode_manifest "PersistentVolumeClaim" "persistentvolumeclaim" buildManifest.

(** ** The service ([service.go]) *)

Definition PVCVolumeRootDir : string := "/etc/raind/volume/pvc".

(** What it asks of the file system; [MarshalIndent] gives the metadata. *)
Inductive pvc_call :=
| MkdirAll (path : string)
| Chmod (path : string)
| WriteMetadata (path : string) (info : PersistentVolumeClaimInfo)
| RemoveAll (path : string).

Section service.
Context {RO : RangeOrder} {SS : SliceSort} {X : Type} {P : Peers pvc_call X}.
(** The pods, and the file system; [os.Getwd]. *)
#[local] Notation W := (Psm.PodState * X)%type.
#[export] Instance pvc_peers : Peers pvc_call W := fun c '(pods, x) =>
  let '(r, x) := perform c x in (r, (pods, x)).
#[local] Notation M := (M VolumeState pvc_call W).
Context (cwd : res string).

Definition do (c : pvc_call) : M unit := _ ← call c; mret tt.

Definition RemoveVolume (path : string) : M unit :=
  RemoveAllUnderRoot cwd (fun p => do (RemoveAll p)) PVCVolumeRootDir path.

(** A step after which [Create] removes the directory if it fails. *)
Definition or_remove {A} (hostPath : string) (m : M A) : M A :=
  r ← attempt m;
  match r with
  | Ok a => mret a
  | Err e | Panic e => _ ← ignore (RemoveVolume hostPath); fail e
  end.

(** The record of a new claim. *)
Definition new_claim (manifest : Manifest) (namespace hostPath : string)
    : PersistentVolumeClaimInfo :=
  {| PVCId := ""; Name := m_Name manifest; Namespace := namespace;
     AccessModes := m_AccessModes manifest; RequestedStorage := m_RequestedStorage manifest;
     RequestedBytes := m_RequestedBytes manifest;
     StorageClassName := m_StorageClassName manifest; VolumeMode := m_VolumeMode manifest;
     HostPath := hostPath; DataPath := Join [hostPath; "data"];
     ReclaimPolicy := m_ReclaimPolicy manifest; Phase := PVCPhaseBound; CreatedAt := 0 |}.

Definition Create (manifest : Manifest) : M PersistentVolumeClaimInfo :=
  if String.eqb (m_Name manifest) "" then fail "persistentvolumeclaim name is required" else
  let namespace := in_namespace (m_Namespace manifest) in
  used ← or_zero false (read (IsNameAlreadyUsed (m_Name manifest) namespace));
  if used : bool then fail "name already used by other persistentvolumeclaim" else
  pvcId ← new_id;
  hostPath ← observe (fun _ => SafeJoin cwd PVCVolumeRootDir [namespace; pvcId]);
  let dataPath := Join [hostPath; "data"] in
  _ ← observe (fun _ => EnsurePathUnderRoot cwd PVCVolumeRootDir dataPath);
  made ← attempt (do (MkdirAll dataPath));
  match made with
  | Err e | Panic e => fail ("create pvc data path: " +:+ e)
  | Ok _ =>
      _ ← ignore (do (Chmod hostPath));
      _ ← ignore (do (Chmod dataPath));
      let info := new_claim manifest namespace hostPath in
      _ ← or_remove hostPath (do (WriteMetadata (Join [hostPath; "metadata.json"]) info));
      t ← now;
      _ ← or_remove hostPath (txn (StorePVC pvcId info t));
      read (GetPVCById pvcId)
  end.

Definition pvc_less (a b : PersistentVolumeClaimInfo) : bool :=
  if negb (String.eqb (Namespace a) (Namespace b)) then string_ltb (Namespace a) (Namespace b)
  else string_ltb (Name a) (Name b).

Definition List_ (namespace : string) : M (list PersistentVolumeClaimInfo) :=
  l ← read GetPVCList;
  mret (sort_slice pvc_less
    (if String.eqb namespace "" then l
     else List.filter (fun pvc => String.eqb (Namespace pvc) namespace) l)).

Definition Get (idOrName namespace : string) : M PersistentVolumeClaimInfo :=
  if negb (String.eqb namespace "") then read (GetPVCByName idOrName namespace) else
  r ← attempt (read (GetPVCById idOrName));
  match r with
  | Ok info => mret info
  | _ =>
      l ← read GetPVCList;
      match List.filter (fun info => String.eqb (Name info) idOrName) l with
      | [info] => mret info
      | [] => fail ("persistentvolumeclaim " +:+ quoted idOrName +:+ " not found")
      | _ => fail ("persistentvolumeclaim name " +:+ quoted idOrName +:+
                   " exists in multiple namespaces; specify namespace")
      end
  end.

(** Whether a mount is of the data of a claim. *)
Definition mount_of (dataPath mount : string) : bool :=
  String.eqb mount dataPath || hasPrefix mount (dataPath +:+ ":").

Definition podReferencesDataPath (pod : Psm.PodInfo) (dataPath : string) : M bool :=
  if String.eqb (Psm.TemplateId pod) "" then mret false else
  tpl ← attempt (peek (fun w => Psm.GetPodTemplate (Psm.TemplateId pod) w.1));
  mret (match tpl with
        | Ok tpl => existsb (fun c => existsb (mount_of dataPath) (Psm.Mount c))
                      (Psm.pt_Containers (Psm.ti_Spec tpl))
        | _ => false
        end).

Fixpoint no_reference (info : PersistentVolumeClaimInfo) (pods : list Psm.PodInfo) : M unit :=
  match pods with
  | [] => mret tt
  | pod :: pods =>
      if negb (String.eqb (Psm.State pod) Psm.PodStateRunning) then no_reference info pods else
      used ← podReferencesDataPath pod (DataPath info);
      if used : bool
      then fail ("persistentvolumeclaim " +:+ Namespace info +:+ "/" +:+ Name info +:+
                 " is still used by running pod " +:+ Psm.Name pod)
      else no_reference info pods
  end.

Definition ensureNoRunningPodReference (info : PersistentVolumeClaimInfo) : M unit :=
  pods ← peek (fun w => Psm.GetPodList w.1);
  no_reference info pods.

Definition Remove (idOrName namespace : string) : M PersistentVolumeClaimInfo :=
  info ← Get idOrName namespace;
  _ ← ensureNoRunningPodReference info;
  _ ← txn (RemovePVC (PVCId info));
  if String.eqb (ReclaimPolicy info) PVCReclaimDelete then
    r ← attempt (RemoveVolume (HostPath info));
    match r with
    | Ok _ => mret info
    | Err e | Panic e => fail ("remove pvc data path: " +:+ e)
    end
  else mret info.
End service.

(** ** Quantities *)

Lemma cut_digits_app fn whole max s unit n v :
  read_digits fn whole max s n = Ok v ->
  match unit with EmptyString => true | String c _ => negb (is_digit c) end = true ->
  cut_digits (s +:+ unit) = (s, unit).
Proof.
  intros Hs Hu. revert n Hs. induction s as [|c s IH]; intros n; simpl.
  - intros _. destruct unit as [|c unit]; [done|]. simpl. by destruct (is_digit c).
  - destruct (is_digit c); [|done]. simpl. destruct (max <? _); [done|]. intros H.
    by rewrite (IH _ H).
Qed.

Lemma cut_digits_eq s d u : cut_digits s = (d, u) -> s = d +:+ u.
Proof.
  revert d u. induction s as [|c s IH]; intros d u; simpl; [by intros [= <- <-]|].
  destruct (is_digit c); [|by intros [= <- <-]]. destruct (cut_digits s) as [d' u'].
  intros [= <- <-]. by rewrite (IH d' u').
Qed.

Lemma pretty_head_not_zero x s c r : (0 < x)%N ->
  pretty_N_go x s = String c r -> c <> "0"%char.
Proof.
  revert s. induction (N.lt_wf_0 x) as [x _ IH]; intros s Hx. rewrite pretty_N_go_step by lia.
  destruct (decide (x `div` 10 = 0)%N) as [Hz|Hz].
  - rewrite Hz, pretty_N_go_0. intros [= <- _].
    assert (x `mod` 10 <> 0)%N as Hm.
    { intros Hm. pose proof (N.Div0.div_mod x 10) as H. rewrite Hz, Hm in H. lia. }
    assert (x `mod` 10 < 10)%N as Hlt by (apply N.mod_lt; lia).
    intros Hc. destruct (pretty_N_char_digit _ Hlt) as [_ Hb]. rewrite Hc in Hb.
    change (byte_of "0") with 48 in Hb. lia.
  - apply IH; [by apply N.div_lt|by apply N.neq_0_lt_0].
Qed.

Lemma multiplier_pos unit m : multiplier unit = Some m -> 0 < m.
Proof. unfold multiplier. repeat case_match; naive_solver lia. Qed.

Lemma multiplier_head unit m : multiplier unit = Some m ->
  match unit with EmptyString => true | String c _ => negb (is_digit c) end = true.
Proof.
  unfold multiplier. repeat match goal with
  | |- context [String.eqb unit ?u] => destruct (String.eqb_spec unit u) as [->|]; [done|]
  end. done.
Qed.

Lemma quantity_fits n m : 0 < m -> (MaxUint64 / m <? n) = (MaxUint64 <? n * m).
Proof.
  intros Hm. destruct (Z.ltb_spec (MaxUint64 / m) n) as [H|H]; symmetry.
  - apply Z.ltb_lt. pose proof (Z.mul_succ_div_gt MaxUint64 m Hm). nia.
  - apply Z.ltb_ge. pose proof (Z.mul_div_le MaxUint64 m Hm). nia.
Qed.

Lemma read_digits_mono fn whole fn' whole' max max' s n v : max <= max' ->
  read_digits fn whole max s n = Ok v -> read_digits fn' whole' max' s n = Ok v.
Proof.
  intros Hm. revert n. induction s as [|c s IH]; intros n; simpl; [done|].
  destruct (is_digit c); [|done]. simpl.
  destruct (Z.ltb_spec max (n * 10 + (byte_of c - 48))); [done|].
  destruct (Z.ltb_spec max' (n * 10 + (byte_of c - 48))); [lia|]. apply IH.
Qed.

(** What does not fit is refused. *)
Lemma ParseUint_pretty n : 
  if Z.of_N n <=? MaxUint64 then ParseUint (pretty n) = Ok (Z.of_N n)
  else forall v, ParseUint (pretty n) <> Ok v.
Proof.
  unfold ParseUint. destruct (Z.leb_spec (Z.of_N n) MaxUint64) as [H|H];
    [by apply uint_of_pretty|]. intros v Hv.
  pose proof (uint_of_pretty "" "" (Z.of_N n) n (Z.le_refl _)) as Hn.
  assert (0 <= v <= MaxUint64) as Hb by (by eapply uint_of_bounds; [|exact Hv]).
  unfold uint_of in *. destruct (String.eqb (pretty n) ""); [done|].
  eapply (read_digits_mono _ _ "" "" _ (Z.of_N n)) in Hv; [|lia]. rewrite Hn in Hv.
  injection Hv as Hv. lia.
Qed.

Lemma quantityPattern_pretty n unit m : (0 < n)%N ->
  multiplier unit = Some m -> quantityPattern (pretty n +:+ unit) = Some (pretty n, m).
Proof.
  intros Hn Hu. unfold quantityPattern.
  assert (read_digits "" "" (Z.of_N n) (pretty n) 0 = Ok (Z.of_N n)) as Hr.
  { pose proof (uint_of_pretty "" "" (Z.of_N n) n (Z.le_refl _)) as H. unfold uint_of in H.
    by destruct (String.eqb (pretty n) ""). }
  rewrite (cut_digits_app _ _ _ _ _ _ _ Hr (multiplier_head _ _ Hu)).
  destruct (pretty n) as [|c r] eqn:E; [by destruct (pretty_N_head n) as (? & ? & ? & _); congruence|].
  assert (c <> "0"%char) as Hc.
  { unfold pretty, pretty_N in E. rewrite decide_False in E by lia.
    by eapply pretty_head_not_zero. }
  apply Ascii.eqb_neq in Hc as ->. by rewrite Hu.
Qed.

(** C37: a quantity of storage is read exactly: a positive number with a unit is
    the product, without a wrap-around, as long as that fits 64 bits, and an
    error otherwise; and only such texts are accepted. *)
Theorem storage_quantity_exact value :
  (forall n unit m, (0 < n)%N -> multiplier unit = Some m ->
     trimSpace value = pretty n +:+ unit ->
     if Z.of_N n * m <=? MaxUint64
     then ParseStorageQuantity value = Ok (Z.of_N n * m)
     else exists e, ParseStorageQuantity value = Err e) /\
  (forall b, ParseStorageQuantity value = Ok b ->
     0 <= b < 2 ^ 64 /\
     exists digits unit n m, trimSpace value = digits +:+ unit /\ multiplier unit = Some m /\
       ParseUint digits = Ok n /\ b = n * m).
Proof.
  split.
  - intros n unit m Hn Hu Hv. unfold ParseStorageQuantity.
    rewrite Hv, (quantityPattern_pretty n unit m) by done.
    pose proof (multiplier_pos _ _ Hu) as Hm. pose proof (ParseUint_pretty n) as Hp.
    destruct (Z.leb_spec (Z.of_N n * m) MaxUint64) as [H|H],
      (Z.leb_spec (Z.of_N n) MaxUint64) as [H'|H']; [|nia| |].
    + rewrite Hp, quantity_fits by done. destruct (Z.ltb_spec MaxUint64 (Z.of_N n * m)); [lia|].
      f_equal. apply Z.mod_small. unfold MaxUint64 in *. nia.
    + rewrite Hp, quantity_fits by done.
      destruct (Z.ltb_spec MaxUint64 (Z.of_N n * m)); [eauto|lia].
    + destruct (ParseUint (pretty n)) as [v| |] eqn:E; [by destruct (Hp v)|eauto..].
  - intros b. unfold ParseStorageQuantity, quantityPattern.
    destruct (cut_digits _) as [digits unit] eqn:Ec. apply cut_digits_eq in Ec.
    destruct digits as [|c r]; [done|]. destruct (Ascii.eqb c "0"); [done|].
    destruct (multiplier unit) as [m|] eqn:Em; [|done].
    destruct (ParseUint (String c r)) as [n|e|e] eqn:En; [|done..].
    pose proof (multiplier_pos _ _ Em) as Hm.
    assert (0 <= n <= MaxUint64) as Hb by (by eapply uint_of_bounds; [|exact En]).
    rewrite quantity_fits by done. destruct (Z.ltb_spec MaxUint64 (n * m)); [done|].
    intros [= <-]. unfold MaxUint64 in *. rewrite Z.mod_small by nia. split; [nia|].
    by exists (String c r), unit, n, m.
Qed.

(** ** The service *)
Section theory.
Context {RO : RangeOrder} {SS : SliceSort} {X : Type} {P : Peers pvc_call X}.
#[local] Notation world := (world VolumeState pvc_call (Psm.PodState * X)).
Context (cwd : res string) (Hcwd : forall wd, cwd = Ok wd -> IsAbs wd = true).
Implicit Types w : world.

(** [after w l w']: between [w] and [w'] the calls [l] were made and the tables
    stayed as they were. *)
Definition after (w : world) (l : list pvc_call) (w' : world) : Prop :=
  faults w' = faults w /\ store w' = store w /\ (inner w').1 = (inner w).1 /\
  trace w' = trace w ++ l.

Lemma after_nil w : after w [] w.
Proof. unfold after. by rewrite app_nil_r. Qed.

Lemma after_app w l w1 l' w' : after w l w1 -> after w1 l' w' -> after w (l ++ l') w'.
Proof. unfold after. intros (-> & -> & -> & ->) (-> & -> & -> & ->). by rewrite app_assoc. Qed.

Lemma do_after c w r w' : do c w = (r, w') -> after w [c] w'.
Proof.
  unfold do, mbind, M_bind, mret, M_ret, call. destruct (inner w) as [pods x] eqn:Ei.
  change (perform c (pods, x)) with (let (r, x) := perform c x in (r, (pods, x))). simpl.
  destruct (perform c x) as [[s|e|e] x']; intros [= <- <-]; unfold after; simpl; by rewrite Ei.
Qed.

Lemma ignore_do c w : (exists w', ignore (do c) w = (Ok tt, w') /\ after w [c] w') \/
  exists e w', ignore (do c) w = (Panic e, w').
Proof.
  unfold ignore. destruct (do c w) as [[[]|e|e] w'] eqn:E; [left; exists w'..|right; eauto];
    by split; [|apply do_after in E].
Qed.

(** Every directory that is made lies below the root of the volumes. *)
Definition volume_path (p : string) : Prop := below PVCVolumeRootDir p.

Lemma SafeJoin_volume l p : SafeJoin cwd PVCVolumeRootDir l = Ok p ->
  volume_path p /\ EnsurePathUnderRoot cwd PVCVolumeRootDir p = Ok tt.
Proof.
  intros Hp. assert (Abs cwd PVCVolumeRootDir = Ok PVCVolumeRootDir) as Ha by by rewrite Abs_abs.
  destruct (proj1 (SafeJoin_correct cwd _ l _ Hcwd Ha) p Hp) as (Hb & HA & HC).
  split; [done|]. apply (Ensure_Abs cwd _ p PVCVolumeRootDir p); try done.
  by rewrite Abs_abs, HC.
Qed.

Lemma RemoveVolume_run p w : EnsurePathUnderRoot cwd PVCVolumeRootDir p = Ok tt ->
  RemoveVolume cwd p w = do (RemoveAll p) w.
Proof. intros Hp. unfold RemoveVolume, RemoveAllUnderRoot. by rewrite Hp. Qed.

Lemma or_remove_run {A} p (m : M VolumeState pvc_call (Psm.PodState * X) A) w r w' :
  EnsurePathUnderRoot cwd PVCVolumeRootDir p = Ok tt ->
  or_remove cwd p m w = (r, w') ->
  match r with
  | Ok a => m w = (Ok a, w')
  | Err e => exists w1, m w = (Err e, w1) /\ after w1 [RemoveAll p] w'
  | Panic _ => True
  end.
Proof.
  intros Hp. unfold or_remove, mbind, M_bind, attempt.
  destruct (m w) as [[a|e|e] w1] eqn:Em; [by intros [= <- <-]| |by intros [= <- <-]].
  unfold ignore at 1. rewrite RemoveVolume_run by done.
  destruct (do (RemoveAll p) w1) as [[[]|e'|e'] w2] eqn:Ed; intros [= <- <-]; try done;
    exists w1; (split; [done|]); by apply do_after in Ed.
Qed.

Lemma read_after {A} (fn : VolumeState -> res A) w r w' :
  faults w = [] -> read fn w = (r, w') -> r = fn (store w) /\ w' = w.
Proof. intros Hw. rewrite read_run by done. by intros [= <- <-]. Qed.

(** What a creation leaves. *)
Definition created_or_not (manifest : Manifest) (namespace : string) w
    (r : res PersistentVolumeClaimInfo) w' : Prop :=
  match r with  | Ok info =>
      (forall id c, PVCs (store w) !! id = Some c -> named (m_Name manifest) namespace c = false) /\
      exists id, PVCs (store w') = <[id := info]> (PVCs (store w)) /\
        PVCId info = id /\ Name info = m_Name manifest /\ Namespace info = namespace /\
        volume_path (HostPath info) /\ DataPath info = Join [HostPath info; "data"] /\
        MkdirAll (DataPath info) ∈ trace w'
  | Err _ =>
      store w' = store w /\
      (trace w' = trace w \/
       exists hostPath, volume_path hostPath /\
         (trace w' = trace w ++ [MkdirAll (Join [hostPath; "data"])] \/
          exists l, trace w' = trace w ++ MkdirAll (Join [hostPath; "data"]) :: l ++ [RemoveAll hostPath]))
  | Panic _ => True
  end.

(** The rest of a creation, after the directory is there. *)
Lemma stored_or_removed manifest ns id hp w w2 r w' :
  volume_path hp -> EnsurePathUnderRoot cwd PVCVolumeRootDir hp = Ok tt ->
  ns <> "" -> range_find (named (m_Name manifest) ns) (PVCs (store w)) = None ->
  faults w2 = [] -> store w2 = store w ->
  trace w2 = trace w ++ [MkdirAll (Join [hp; "data"])] ->
  (_ ← ignore (do (Chmod hp));
   _ ← ignore (do (Chmod (Join [hp; "data"])));
   _ ← or_remove cwd hp (do (WriteMetadata (Join [hp; "metadata.json"]) (new_claim manifest ns hp)));
   t ← now;
   _ ← or_remove cwd hp (txn (StorePVC id (new_claim manifest ns hp) t));
   read (GetPVCById id)) w2 = (r, w') ->
  created_or_not manifest ns w r w'.
Proof.
  intros Hvol Hens Hns Hfree Hf Hs Ht H.
  assert (forall l w', after w2 l w' -> faults w' = [] /\ store w' = store w /\
    trace w' = trace w ++ MkdirAll (Join [hp; "data"]) :: l) as Hafter.
  { intros l w1 (Hf1 & Hs1 & _ & Ht1). split_and!; [congruence..|].
    by rewrite Ht1, Ht, <- app_assoc. }
  destruct (ignore_do (Chmod hp) w2) as [(w3 & E3 & A3)|(e & w3 & E3)];
    [|by unfold mbind at 1, M_bind at 1 in H; rewrite E3 in H; injection H as <- <-].
  rewrite (M_bind_eq _ _ _ _ _ E3) in H.
  destruct (ignore_do (Chmod (Join [hp; "data"])) w3) as [(w4 & E4 & A4)|(e & w4 & E4)];
    [|by unfold mbind at 1, M_bind at 1 in H; rewrite E4 in H; injection H as <- <-].
  rewrite (M_bind_eq _ _ _ _ _ E4) in H. pose proof (after_app _ _ _ _ _ A3 A4) as A.
  apply M_bind_run in H as [([] & w5 & H5 & H)|[(e & H5 & ->)|(e & _ & ->)]]; [| |done];
    apply or_remove_run in H5; try done.
  2: { destruct H5 as (w1 & Hw & Hr). apply do_after in Hw.
       destruct (Hafter _ _ (after_app _ _ _ _ _ A (after_app _ _ _ _ _ Hw Hr))) as (_ & Hs' & Ht').
       split; [done|]. right. exists hp. split; [done|]. right.
       exists ([Chmod hp; Chmod (Join [hp; "data"])] ++ [WriteMetadata (Join [hp; "metadata.json"]) (new_claim manifest ns hp)]).
       by rewrite Ht', <- !app_assoc. }
  apply do_after in H5. destruct (Hafter _ _ (after_app _ _ _ _ _ A H5)) as (Hf5 & Hs5 & Ht5).
  assert (exists t w6, now w5 = (Ok t, w6) /\ faults w6 = [] /\ store w6 = store w /\
    trace w6 = trace w5) as (t & w6 & H6 & Hf6 & Hs6 & Ht6).
  { unfold now. destruct (times w5); eauto 10. }
  rewrite (M_bind_eq _ _ _ _ _ H6) in H. unfold or_remove, mbind, M_bind, attempt in H.
  rewrite txn_run, Hs6 in H by done. unfold StorePVC in H.
  cbn [mret M_ret] in H. unfold mret, M_ret in H. cbv beta iota in H.
  rewrite read_run in H by done. unfold GetPVCById in H. cbn [store set_store PVCs set_PVCs] in H.
  rewrite lookup_insert_eq in H. injection H as <- <-. split.
  - intros k c Hk. by eapply range_find_None in Hfree.
  - exists id. cbn [store set_store PVCs set_PVCs]. split; [done|].
    unfold stored, new_claim. cbn. split_and!; try done.
    + unfold in_namespace. by destruct (String.eqb_spec ns "").
    + rewrite Ht6, Ht5. set_solver.
Qed.

(** Creating a claim, when the table can be read and written: one that is
    created had a free name, is stored with the directory made for it, strictly
    below the root of the volumes, and is what the caller gets; after an error
    the table is what it was, and a directory that was made is removed. *)
Theorem claim_created manifest w r w' :
  faults w = [] -> Create cwd manifest w = (r, w') ->
  created_or_not manifest (in_namespace (m_Namespace manifest)) w r w'.
Proof.
  intros Hw. unfold Create.
  destruct (String.eqb _ ""); [intros [= <- <-]; split; eauto|]. cbv zeta.
  set (ns := in_namespace _).
  assert (in_namespace ns = ns /\ ns <> "") as [Hns Hne].
  { subst ns. unfold in_namespace. by destruct (String.eqb_spec (m_Namespace manifest) ""),
      (String.eqb_spec (m_Namespace manifest) ""). }
  set (used := match range_find (named (m_Name manifest) ns) (PVCs (store w)) with
               | Some _ => true | None => false end).
  rewrite (M_bind_eq _ _ w used w).
  2: { apply (or_zero_run false _ w (Ok used)); [|done].
       rewrite read_run by done. unfold IsNameAlreadyUsed. by rewrite Hns. }
  destruct used eqn:Hu; [intros [= <- <-]; split; eauto|]. intros H.
  assert (range_find (named (m_Name manifest) ns) (PVCs (store w)) = None) as Hfree
    by (subst used; by case_match).
  assert (exists id w1, new_id w = (Ok id, w1) /\ after w [] w1) as (id & w1 & Hid & A1).
  { unfold new_id. destruct (ids w); eexists _, _; split; try done; [apply after_nil|].
    unfold after. by rewrite app_nil_r. }
  rewrite (M_bind_eq _ _ _ _ _ Hid) in H.
  apply M_bind_run in H as [(hp & w2 & H2 & H)|[(e & H2 & ->)|(e & _ & ->)]]; [| |done];
    unfold observe in H2; injection H2 as Hsafe <-; destruct A1 as (Hf1 & Hs1 & Hi1 & Ht1);
    rewrite app_nil_r in Ht1; [|split; [congruence|left; congruence]].
  apply SafeJoin_volume in Hsafe as [Hvol Hens].
  apply M_bind_run in H as [([] & w2 & H2 & H)|[(e & H2 & ->)|(e & _ & ->)]]; [| |done];
    unfold observe in H2; injection H2 as _ <-; [|split; [congruence|left; congruence]].
  set (data := Join [hp; "data"]) in *.
  unfold mbind at 1, M_bind at 1, attempt at 1 in H.
  destruct (do (MkdirAll data) w1) as [[[]|e|e] w2] eqn:E2; [| |by injection H as <- <-];
    apply do_after in E2 as (Hf2 & Hs2 & Hi2 & Ht2); rewrite Ht1 in Ht2.
  2: { injection H as <- <-. split; [congruence|]. right. exists hp. eauto. }
  exact (stored_or_removed manifest ns id hp w w2 r w' Hvol Hens Hne Hfree
           ltac:(congruence) ltac:(congruence) Ht2 H).
Qed.
(** No running pod was made from a template with a mount of the claim's data. *)
Definition unused (info : PersistentVolumeClaimInfo) (pods : Psm.PodState) : Prop :=
  forall id p tpl c m, Psm.Pods pods !! id = Some p -> Psm.State p = Psm.PodStateRunning ->
    Psm.TemplateId p <> "" -> Psm.PodTemplates pods !! Psm.TemplateId p = Some tpl ->
    c ∈ Psm.pt_Containers (Psm.ti_Spec tpl) -> m ∈ Psm.Mount c ->
    mount_of (DataPath info) m = false.

Lemma existsb_false {A} (p : A -> bool) l x : existsb p l = false -> x ∈ l -> p x = false.
Proof.
  intros H Hx. apply not_true_is_false. intros Hp. apply not_true_iff_false in H. apply H.
  apply existsb_exists. exists x. split; [by apply list_elem_of_In|done].
Qed.

Lemma podReferencesDataPath_run p path w : faults w = [] ->
  exists b, podReferencesDataPath p path w = (Ok b, w) /\
    (b = false -> forall tpl c m, Psm.TemplateId p <> "" ->
       Psm.PodTemplates (inner w).1 !! Psm.TemplateId p = Some tpl ->
       c ∈ Psm.pt_Containers (Psm.ti_Spec tpl) -> m ∈ Psm.Mount c -> mount_of path m = false).
Proof.
  intros Hw. unfold podReferencesDataPath.
  destruct (String.eqb_spec (Psm.TemplateId p) ""); [by exists false|].
  unfold mbind, M_bind, attempt. rewrite peek_run by done. unfold Psm.GetPodTemplate.
  destruct (Psm.PodTemplates _ !! _) as [tpl'|]; eexists; (split; [done|]); [|done].
  intros Hb tpl c m _ [= <-] Hc Hm. eapply existsb_false in Hb; [|exact Hc].
  by eapply existsb_false in Hb.
Qed.

Lemma no_reference_run info pods w r w' : faults w = [] ->
  no_reference info pods w = (r, w') ->
  w' = w /\ (r = Ok tt \/ exists e, r = Err e) /\
  (r = Ok tt -> forall p tpl c m, p ∈ pods -> Psm.State p = Psm.PodStateRunning ->
     Psm.TemplateId p <> "" -> Psm.PodTemplates (inner w).1 !! Psm.TemplateId p = Some tpl ->
     c ∈ Psm.pt_Containers (Psm.ti_Spec tpl) -> m ∈ Psm.Mount c ->
     mount_of (DataPath info) m = false).
Proof.
  intros Hw. induction pods as [|p pods IH]; simpl.
  { intros [= <- <-]. split_and!; eauto. intros _ p tpl c m []%elem_of_nil. }
  destruct (String.eqb_spec (Psm.State p) Psm.PodStateRunning) as [Hr|Hr]; simpl.
  - destruct (podReferencesDataPath_run p (DataPath info) w Hw) as (b & Hb & Hf).
    rewrite (M_bind_eq _ _ _ _ _ Hb). destruct b.
    { intros [= <- <-]. split_and!; eauto. done. }
    intros H. destruct (IH H) as (-> & Hres & Hu). split_and!; [done..|].
    intros Hok q tpl c m [->|Hq]%elem_of_cons; eauto.
  - intros H. destruct (IH H) as (-> & Hres & Hu). split_and!; [done..|].
    intros Hok q tpl c m [->|Hq]%elem_of_cons; eauto. by intros ?.
Qed.

Lemma Get_run idOrName namespace w r w' :
  faults w = [] -> keyed PVCId (PVCs (store w)) -> Get idOrName namespace w = (r, w') ->
  w' = w /\ match r with
            | Ok info => PVCs (store w) !! PVCId info = Some info
            | Err _ => True
            | Panic _ => False
            end.
Proof.
  intros Hw Hk. assert (forall id c, PVCs (store w) !! id = Some c ->
    PVCs (store w) !! PVCId c = Some c) as Hkey by (intros id c H; by rewrite (Hk _ _ H)).
  unfold Get. destruct (negb (String.eqb namespace "")).
  { rewrite read_run by done. unfold GetPVCByName. intros [= <- <-]. split; [done|].
    destruct (range_find _ _) as [[id c]|] eqn:E; [|done].
    apply range_find_Some in E as [E _]. eauto. }
  unfold mbind at 1, M_bind at 1, attempt. rewrite read_run by done. unfold GetPVCById.
  destruct (PVCs (store w) !! idOrName) as [c|] eqn:E; [intros [= <- <-]; eauto|].
  rewrite (M_bind_eq _ _ w (range_values (PVCs (store w))) w) by by rewrite read_run.
  destruct (List.filter _ _) as [|c [|c' l]] eqn:Ef; intros [= <- <-]; split; try done.
  assert (In c (range_values (PVCs (store w)))) as Hin.
  { eapply (proj1 (filter_In _ c _)). rewrite Ef. by left. }
  apply list_elem_of_In, elem_of_range_values in Hin as [id Hid]. eauto.
Qed.

Lemma RemoveVolume_after p w r w' : RemoveVolume cwd p w = (r, w') ->
  store w' = store w /\ (inner w').1 = (inner w).1 /\
  ((trace w' = trace w /\ r <> Ok tt) \/
   (trace w' = trace w ++ [RemoveAll p] /\ exists q, Abs cwd p = Ok q /\ volume_path q)).
Proof.
  unfold RemoveVolume, RemoveAllUnderRoot.
  destruct (EnsurePathUnderRoot cwd PVCVolumeRootDir p) as [[]|e|e] eqn:E;
    [|intros [= <- <-]; split_and!; try done; by left..].
  intros (_ & Hs & Hi & Ht)%do_after. split_and!; [done..|]. right. split; [done|].
  assert (exists q, Abs cwd p = Ok q) as [q Hq].
  { revert E. unfold EnsurePathUnderRoot. rewrite (Abs_abs cwd PVCVolumeRootDir) by done.
    cbn [mbind res_bind]. destruct (Abs cwd p); [eauto|done..]. }
  exists q. split; [done|].
  by eapply (Ensure_Abs cwd _ p PVCVolumeRootDir q) in E.
Qed.

(** What is left of a claim that was in the table. *)
Definition claim_gone (info : PersistentVolumeClaimInfo) w w' : Prop :=
  PVCs (store w) !! PVCId info = Some info /\ unused info (inner w).1 /\
  PVCs (store w') = delete (PVCId info) (PVCs (store w)) /\ (inner w').1 = (inner w).1.

(** Removing a claim, when the tables can be read and written: it is gone
    from the table only if no running pod mounts its data, and only then, by its
    reclaim policy, its directory is removed, which must lie below the root of
    the volumes; a claim that a running pod uses stays, with its data. *)
Theorem used_claim_kept idOrName namespace w r w' :
  faults w = [] -> keyed PVCId (PVCs (store w)) ->
  Remove cwd idOrName namespace w = (r, w') ->
  match r with
  | Ok info =>
      claim_gone info w w' /\
      (if String.eqb (ReclaimPolicy info) PVCReclaimDelete
       then trace w' = trace w ++ [RemoveAll (HostPath info)] /\
            exists dir, Abs cwd (HostPath info) = Ok dir /\ volume_path dir
       else trace w' = trace w)
  | Err _ =>
      w' = w \/
      exists info, claim_gone info w w' /\ ReclaimPolicy info = PVCReclaimDelete /\
        (trace w' = trace w \/ trace w' = trace w ++ [RemoveAll (HostPath info)])
  | Panic _ => True
  end.
Proof.
  intros Hw Hk. unfold Remove. intros H.
  apply M_bind_run in H as [(info & w1 & H1 & H)|[(e & H1 & ->)|(e & _ & ->)]]; [| |done];
    apply Get_run in H1 as [-> Hin]; try done; [|by left].
  apply M_bind_run in H as [([] & w1 & H1 & H)|[(e & H1 & ->)|(e & _ & ->)]]; [| |done];
    unfold ensureNoRunningPodReference, Psm.GetPodList in H1;
    (erewrite M_bind_eq in H1 by by rewrite peek_run);
    apply no_reference_run in H1 as (-> & _ & Hu); try done; [|by left].
  rewrite (M_bind_eq _ _ w tt (set_store (set_PVCs (store w) (delete (PVCId info) (PVCs (store w)))) w)) in H.
  2: { rewrite txn_run by done. unfold RemovePVC, remove_entry. by rewrite Hin. }
  set (w2 := set_store _ w) in H.
  assert (forall w3, store w3 = store w2 -> (inner w3).1 = (inner w2).1 -> claim_gone info w w3) as Hg.
  { intros w3 Hs Hi. unfold claim_gone. rewrite Hs, Hi. split_and!; try done.
    intros id p tpl c m Hp. apply (Hu eq_refl). apply elem_of_range_values. eauto. }
  destruct (String.eqb_spec (ReclaimPolicy info) PVCReclaimDelete) as [Hp|Hp].
  - unfold mbind, M_bind, attempt in H.
    destruct (RemoveVolume cwd (HostPath info) w2) as [[[]|e|e] w3] eqn:E;
      injection H as <- <-; try done;
      apply RemoveVolume_after in E as (Hs & Hi & Ht).
    + destruct Ht as [[_ Hne]|Ht]; [done|]. split; [by apply Hg|].
      rewrite Hp, String.eqb_refl. exact Ht.
    + right. exists info. split; [by apply Hg|]. split; [done|].
      destruct Ht as [[Ht _]|[Ht _]]; [by left|by right].
  - injection H as <- <-. split; [by apply Hg|].
    by apply String.eqb_neq in Hp as ->.
Qed.
End theory.

(** ** On concrete tables *)
Module PvcDemo.

Lemma cwd_absolute wd : @Ok string "/root" = Ok wd -> IsAbs wd = true.
Proof. by intros [= <-]. Qed.

Example storage_quantity_exact_witness :
  ParseStorageQuantity " 16777215Ti" = Ok (16777215 * 2 ^ 40) /\
  exists e, ParseStorageQuantity "16777216Ti" = Err e.
Proof.
  split.
  - exact (proj1 (storage_quantity_exact " 16777215Ti") 16777215%N "Ti" (2 ^ 40)
             eq_refl eq_refl eq_refl).
  - exact (proj1 (storage_quantity_exact "16777216Ti") 16777216%N "Ti" (2 ^ 40)
             eq_refl eq_refl eq_refl).
Defined.

(** The texts that the tests of the code refuse. *)
Example refused : forallb (fun v => negb (is_ok (ParseStorageQuantity v)))
  [""; "0"; "-1Gi"; "1.5Gi"; "1Pi"; "abc"] = true.
Proof. vm_compute. reflexivity. Qed.

(** A file system on which the metadata of one claim cannot be written. *)
#[local] Instance disk : Peers pvc_call unit := fun c x =>
  (match c with
   | WriteMetadata _ info => if String.eqb (Name info) "bad" then Err "no space left on device" else Ok ""
   | _ => Ok ""
   end, x).

Definition claim (name : string) : Manifest :=
  {| m_Name := name; m_Namespace := ""; m_Annotations := ∅; m_AccessModes := ["ReadWriteOnce"];
     m_RequestedStorage := "1Gi"; m_RequestedBytes := 1073741824; m_StorageClassName := "";
     m_VolumeMode := "Filesystem"; m_ReclaimPolicy := "Delete" |}.

Definition begin : world VolumeState pvc_call (Psm.PodState * unit) :=
  {| store := init; faults := []; times := [5]; ids := ["01a"]; trace := [];
     inner := ({| Psm.Version := ""; Psm.Pods := ∅; Psm.PodTemplates := ∅; Psm.ReplicaSets := ∅;
                  Psm.Deployments := ∅ |}, tt) |}.

Definition failed := (Create (Ok "/root") (claim "bad") begin).2.
Lemma failed_run :
  Create (Ok "/root") (claim "bad") begin = (Err "no space left on device", failed).
Proof. vm_compute. reflexivity. Qed.

Example failed_trace : last (trace failed) = Some (RemoveAll "/etc/raind/volume/pvc/default/01a").
Proof. vm_compute. reflexivity. Qed.

Example claim_created_witness : store failed = init.
Proof.
  exact (proj1 (claim_created (Ok "/root") cwd_absolute (claim "bad") begin _ _ eq_refl failed_run)).
Defined.

Definition data := new_claim (claim "data") "default" "/etc/raind/volume/pvc/default/01a".
Definition one_claim : VolumeState := set_PVCs init {[ "01a" := stored "01a" data 5 ]}.

(** A pod that mounts the claim, running or not. *)
Definition pods (state : string) : Psm.PodState :=
  {| Psm.Version := "";
     Psm.Pods := {[ "p" := {| Psm.PodId := "p"; Psm.TemplateId := "t"; Psm.OwnerKind := "";
       Psm.OwnerId := ""; Psm.Name := "db"; Psm.Namespace := "default"; Psm.UID := "";
       Psm.State := state; Psm.OwnerPid := 0; Psm.NetworkNS := ""; Psm.IPCNS := "";
       Psm.UTSNS := ""; Psm.UserNS := ""; Psm.Rootless := false; Psm.Labels := ∅;
       Psm.Annotations := ∅; Psm.CreatedAt := 0; Psm.StartedAt := 0; Psm.StoppedAt := 0;
       Psm.StoppedByUser := false |} ]};
     Psm.PodTemplates := {[ "t" := {| Psm.ti_TemplateId := "t"; Psm.ti_CreatedAt := 0; Psm.ti_Spec :=
       {| Psm.pt_Name := "db"; Psm.pt_Namespace := "default"; Psm.pt_NetworkNS := "";
          Psm.pt_IPCNS := ""; Psm.pt_UTSNS := ""; Psm.pt_UserNS := ""; Psm.pt_Rootless := false;
          Psm.pt_Labels := ∅; Psm.pt_Annotations := ∅; Psm.pt_Containers :=
          [{| Psm.ct_Name := "db"; Psm.Image := "db"; Psm.ct_Command := []; Psm.Port := [];
              Psm.Mount := [DataPath data +:+ ":/var/lib/db"]; Psm.Env := []; Psm.CapAdd := [];
              Psm.CapDrop := []; Psm.ct_SecurityProfile := ""; Psm.Network := "";
              Psm.ct_Tty := false |}] |} |} ]};
     Psm.ReplicaSets := ∅; Psm.Deployments := ∅ |}.
Definition used_by (state : string) : world VolumeState pvc_call (Psm.PodState * unit) :=
  {| store := one_claim; faults := []; times := []; ids := []; trace := []; inner := (pods state, tt) |}.

Lemma one_claim_keyed : keyed PVCId (PVCs one_claim).
Proof.
  intros k v H. change (({[ "01a" := stored "01a" data 5 ]} : gmap string _) !! k = Some v) in H.
  by apply lookup_singleton_Some in H as [<- <-].
Qed.

Lemma kept_run : Remove (Ok "/root") "data" "default" (used_by "running") =
  (Err "persistentvolumeclaim default/data is still used by running pod db", used_by "running").
Proof. vm_compute. reflexivity. Qed.

Definition gone := (Remove (Ok "/root") "data" "default" (used_by "stopped")).2.
Lemma gone_claim_run : Remove (Ok "/root") "data" "default" (used_by "stopped") =
  (Ok (stored "01a" data 5), gone).
Proof. vm_compute. reflexivity. Qed.

Example used_claim_kept_witness :
  trace gone = [RemoveAll "/etc/raind/volume/pvc/default/01a"] /\
  unused (stored "01a" data 5) (pods "stopped").
Proof.
  destruct (used_claim_kept (Ok "/root") cwd_absolute "data" "default" (used_by "stopped") _ _
    eq_refl one_claim_keyed gone_claim_run) as ((_ & Hu & _) & Ht & _).
  split; [exact Ht|exact Hu].
Defined.
End PvcDemo.
