(* ===== verification/NetworkPolicy.v ===== *)
(** * Network policies of users ([core/networkpolicy])

    Manifests, the service that turns the objects of [Netpol.v] into east-west
    policies between the pods they select, and the controller that commits
    them. *)

From Stdlib Require Import ZArith Lia Ascii String.
From stdpp Require Import base gmap strings list.
From S2P Require Import Prelude.
From S2P Require Import GoString.
From S2P Require Import GoSort.
From S2P Require Csm.
From S2P Require Psm.
From S2P Require Npm.
From S2P Require Import Netpol.
From S2P Require Import World.
From S2P Require PodService.
From S2P Require Import PolicyService.
Open Scope Z_scope.

(** ** Manifests ([manifest.go]) *)

Record Rule := {
  Direction : string;
  r_PodSelector : gmap string string;
  r_Protocol : string;
  r_Port : Z
}.

Record Manifest := {
  m_Name : string;
  m_Namespace : string;
  m_PodSelector : gmap string string;
  m_Ingress : list Rule;
  m_Egress : list Rule
}.

(** The decoded YAML document; [IPBlock] is whether the field is there. *)
Record port := { p_Protocol : string; p_Port : Z }.
Record peer := {
  pr_PodSelector : option (gmap string string);
  NamespaceSelector : option (gmap string string);
  IPBlock : bool
}.
Record policyRule := { Peers : list peer; Ports : list port }.
Record k8sManifest := {
  k_Name : string;
  k_Namespace : string;
  k_PodSelector : gmap string string;
  k_Ingress : list policyRule;
  k_Egress : list policyRule
}.

Definition peerPodSelector (p : peer) (field : string) : res (gmap string string) :=
  match NamespaceSelector p with
  | Some _ => Err (field +:+ ".namespaceSelector is not supported yet")
  | None =>
      if IPBlock p then Err (field +:+ ".ipBlock is not supported yet") else
      match pr_PodSelector p with
      | None => Err (field +:+ ".podSelector is required")
      | Some labels => Ok labels
      end
  end.

Fixpoint normalize_ports (ports : list port) : res (list port) :=
  match ports with
  | [] => Ok []
  | p :: ports =>
      let protocol := toLower (p_Protocol p) in
      let protocol := if String.eqb protocol "" then "tcp" else protocol in
      if negb (String.eqb protocol "tcp") && negb (String.eqb protocol "udp")
      then Err ("unsupported networkpolicy protocol: " +:+ p_Protocol p) else
      rest ← normalize_ports ports;
      Ok ({| p_Protocol := protocol; p_Port := p_Port p |} :: rest)
  end.
Definition normalizePorts (ports : list port) : res (list port) :=
  match ports with
  | [] => Ok [{| p_Protocol := ""; p_Port := 0 |}]
  | _ => normalize_ports ports
  end.

(** The loop over the peers of one rule. *)
Fixpoint expand_peers (direction field : string) (ports : list port) (peers : list peer)
    : res (list Rule) :=
  match peers with
  | [] => Ok []
  | p :: peers =>
      labels ← peerPodSelector p field;
      rest ← expand_peers direction field ports peers;
      Ok (((fun port => {| Direction := direction; r_PodSelector := labels;
                           r_Protocol := p_Protocol port; r_Port := p_Port port |}) <$> ports)
          ++ rest)
  end.

Definition expandIngressRule (rule : policyRule) : res (list Rule) :=
  match Peers rule with
  | [] => Err "networkpolicy ingress.from with podSelector is required"
  | _ => ports ← normalizePorts (Ports rule);
         expand_peers "ingress" "ingress.from" ports (Peers rule)
  end.
Definition expandEgressRule (rule : policyRule) : res (list Rule) :=
  match Peers rule with
  | [] => Err "networkpolicy egress.to with podSelector is required"
  | _ => ports ← normalizePorts (Ports rule);
         expand_peers "egress" "egress.to" ports (Peers rule)
  end.

Fixpoint expand_rules (expand : policyRule -> res (list Rule)) (l : list policyRule)
    : res (list Rule) :=
  match l with
  | [] => Ok []
  | rule :: l => rules ← expand rule; rest ← expand_rules expand l; Ok (rules ++ rest)
  end.

Definition buildManifest (m : k8sManifest) : res Manifest :=
  if String.eqb (k_Name m) "" then Err "networkpolicy name is required" else
  ingress ← expand_rules expandIngressRule (k_Ingress m);
  egress ← expand_rules expandEgressRule (k_Egress m);
  Ok {| m_Name := k_Name m;
        m_Namespace := if String.eqb (k_Namespace m) "" then "default" else k_Namespace m;
        m_PodSelector := k_PodSelector m; m_Ingress := ingress; m_Egress := egress |}.

(** ** The service ([service.go]) *)

Definition networkPolicyOwnerKind : string := "NetworkPolicy".

Record podEndpoint := { pod : Psm.PodInfo; container : Csm.ContainerInfo }.

Definition rulesFromInfo (rules : list RuleInfo) : list Rule :=
  (fun r => {| Direction := ri_Direction r; r_PodSelector := ri_PodSelector r;
               r_Protocol := ri_Protocol r; r_Port := ri_Port r |}) <$> rules.
Definition toRuleInfo (rules : list Rule) : list RuleInfo :=
  (fun r => {| ri_Direction := Direction r; ri_PodSelector := r_PodSelector r;
               ri_Protocol := r_Protocol r; ri_Port := r_Port r |}) <$> rules.
Definition manifestFromInfo (info : NetworkPolicyInfo) : Manifest :=
  {| m_Name := Name info; m_Namespace := Namespace info; m_PodSelector := PodSelector info;
     m_Ingress := rulesFromInfo (Ingress info); m_Egress := rulesFromInfo (Egress info) |}.

(** A missing label reads as the empty string. *)
Definition labelsMatch `{RangeOrder} (labels selector : gmap string string) : bool :=
  forallb (fun kv => String.eqb (default "" (labels !! kv.1)) kv.2) (range_map selector).

Definition NUL : string := String "000"%char EmptyString.

Definition policyStateKey (p : Npm.Policy) : string :=
  join NUL
    [Npm.OwnerKind p; Npm.OwnerId p; Npm.OwnerNS p; Npm.OwnerName p;
     Npm.h_ContainerName (Npm.Source p); Npm.DisplayName (Npm.Source p);
     Npm.h_ContainerName (Npm.Destination p); Npm.DisplayName (Npm.Destination p);
     Npm.Protocol p; itoa (Npm.DestPort p); Npm.Comment p; Npm.ManagedBy p].

Definition sortPolicies `{SliceSort} (policies : list Npm.Policy) : list Npm.Policy :=
  sort_slice (key_less policyStateKey) policies.

Definition network_policy_less (a b : NetworkPolicyInfo) : bool :=
  if negb (String.eqb (Namespace a) (Namespace b)) then string_ltb (Namespace a) (Namespace b)
  else string_ltb (Name a) (Name b).
Definition sortNetworkPolicies `{SliceSort} (l : list NetworkPolicyInfo)
    : list NetworkPolicyInfo := sort_slice network_policy_less l.

Definition endpoint_less (a b : podEndpoint) : bool :=
  if negb (String.eqb (Psm.Namespace (pod a)) (Psm.Namespace (pod b)))
  then string_ltb (Psm.Namespace (pod a)) (Psm.Namespace (pod b))
  else if negb (String.eqb (Psm.Name (pod a)) (Psm.Name (pod b)))
  then string_ltb (Psm.Name (pod a)) (Psm.Name (pod b))
  else string_ltb (Csm.ContainerName (container a)) (Csm.ContainerName (container b)).

Definition filterPoliciesByOwnerKind (policies : list Npm.Policy) (ownerKind : string)
    : list Npm.Policy :=
  List.filter (fun p => String.eqb (Npm.OwnerKind p) ownerKind) policies.

Definition equalPolicySets (a b : list Npm.Policy) : bool :=
  bool_decide (length a = length b) &&
  forallb (fun ab => String.eqb (policyStateKey ab.1) (policyStateKey ab.2)) (zip a b).

(** The loop over the containers of a pod: the infra container, the names of
    the members and their number, unless one is not running. *)
Fixpoint scan_containers (l : list Csm.ContainerInfo) (infra : option Csm.ContainerInfo)
    (runningByName : gset string) (memberCount : Z)
    : option (option Csm.ContainerInfo * gset string * Z) :=
  match l with
  | [] => Some (infra, runningByName, memberCount)
  | c :: l =>
      if negb (String.eqb (Csm.State c) Psm.ContainerStateRunning) then None
      else if hasPrefix (Csm.ContainerName c) PodService.PodInfraContainerNamePrefix
      then scan_containers l (Some c) runningByName memberCount
      else scan_containers l infra ({[Csm.ContainerName c]} ∪ runningByName) (memberCount + 1)
  end.

Definition members_running (podId : string) (specs : list Psm.ContainerTemplateSpec)
    (runningByName : gset string) : bool :=
  forallb (fun spec => String.eqb (Psm.ct_Name spec) "" ||
    bool_decide (PodService.buildPodMemberName (Psm.ct_Name spec) podId ∈ runningByName)) specs.

Definition backend_key (src dst : podEndpoint) (rule : Rule) : string :=
  join NUL [Csm.ContainerName (container src); Csm.ContainerName (container dst);
            r_Protocol rule; itoa (r_Port rule)].

Definition endpoint_host (e : podEndpoint) : Npm.HostInfo :=
  {| Npm.h_ContainerName := Csm.ContainerName (container e);
     Npm.DisplayName := Psm.Name (pod e); Npm.h_Address := "" |}.

Definition backend_policy (id networkPolicyId : string) (manifest : Manifest) (rule : Rule)
    (src dst : podEndpoint) : Npm.Policy :=
  {| Npm.Id := id; Npm.Status := "before_commit"; Npm.Reason := "";
     Npm.Source := endpoint_host src; Npm.Destination := endpoint_host dst;
     Npm.Protocol := r_Protocol rule; Npm.DestPort := r_Port rule;
     Npm.Comment := "NetworkPolicy " +:+ m_Namespace manifest +:+ "/" +:+ m_Name manifest +:+
       " " +:+ Direction rule +:+ " " +:+ Psm.Name (pod src) +:+ "->" +:+ Psm.Name (pod dst);
     Npm.ManagedBy := "resource"; Npm.OwnerKind := networkPolicyOwnerKind;
     Npm.OwnerNS := m_Namespace manifest; Npm.OwnerName := m_Name manifest;
     Npm.OwnerId := networkPolicyId |}.

(** The two tables that the service writes. *)
Record state := { netpol : NetworkPolicyState; npm : Npm.NetworkPolicy }.

Section service.
Context {RO : RangeOrder} {SS : SliceSort} {X : Type} {P : PolicyPeers X}.
#[local] Notation M := (M state policy_call (tables X)).

Definition on_netpol {A} (fn : NetworkPolicyState -> res (NetworkPolicyState * A)) : M A :=
  txn (fun st => '(n, a) ← fn (netpol st); Ok ({| netpol := n; npm := npm st |}, a)).
Definition on_npm {A} (fn : Npm.NetworkPolicy -> res (Npm.NetworkPolicy * A)) : M A :=
  txn (fun st => '(n, a) ← fn (npm st); Ok ({| netpol := netpol st; npm := n |}, a)).
Definition read_netpol {A} (fn : NetworkPolicyState -> res A) : M A :=
  read (fun st => fn (netpol st)).

(** A computation of the policy service, on its table. *)
Definition with_npm {A} (m : World.M Npm.NetworkPolicy policy_call (tables X) A) : M A := fun w =>
  let '(r, w') := m {| store := npm (store w); faults := faults w; times := times w;
                       ids := ids w; trace := trace w; inner := inner w |} in
  (r, {| store := {| netpol := netpol (store w); npm := store w' |}; faults := faults w';
         times := times w'; ids := ids w'; trace := trace w'; inner := inner w' |}).

Definition GetPodList : M (list Psm.PodInfo) := peek (fun t => Psm.GetPodList (psm t)).
Definition GetContainersByPodId (podId : string) : M (list Csm.ContainerInfo) :=
  peek (fun t => Csm.GetContainersByPodId podId (csm t)).

Definition expectedMembersRunning (pod : Psm.PodInfo) (runningByName : gset string) : M bool :=
  if String.eqb (Psm.TemplateId pod) "" then mret true else
  tpl ← attempt (peek (fun t => Psm.GetPodTemplate (Psm.TemplateId pod) (psm t)));
  match tpl with
  | Ok tpl => mret (members_running (Psm.PodId pod) (Psm.pt_Containers (Psm.ti_Spec tpl))
                      runningByName)
  | _ => mret false
  end.

(** [Some infra] for [infra, true, nil]. *)
Definition readyInfraContainer (pod : Psm.PodInfo) : M (option Csm.ContainerInfo) :=
  if negb (String.eqb (Psm.State pod) Psm.PodStateRunning) || Psm.StoppedByUser pod
  then mret None else
  containers ← GetContainersByPodId (Psm.PodId pod);
  match scan_containers containers None ∅ 0 with
  | Some (Some infra, runningByName, memberCount) =>
      if String.eqb (Csm.ContainerId infra) "" || (memberCount =? 0) then mret None else
      expected ← expectedMembersRunning pod runningByName;
      mret (if expected : bool then Some infra else None)
  | _ => mret None
  end.

Fixpoint select_loop (namespace : string) (labels : gmap string string)
    (pods : list Psm.PodInfo) : M (list podEndpoint) :=
  match pods with
  | [] => mret []
  | p :: pods =>
      if negb (String.eqb (Psm.Namespace p) namespace) || negb (labelsMatch (Psm.Labels p) labels)
      then select_loop namespace labels pods else
      infra ← readyInfraContainer p;
      rest ← select_loop namespace labels pods;
      mret (match infra with
            | Some infra => {| pod := p; container := infra |} :: rest
            | None => rest
            end)
  end.

Definition selectPods (namespace : string) (labels : gmap string string)
    : M (list podEndpoint) :=
  pods ← GetPodList;
  result ← select_loop namespace labels pods;
  mret (sort_slice endpoint_less result).

Definition addBackendPolicy (networkPolicyId : string) (manifest : Manifest) (rule : Rule)
    (srcDst : podEndpoint * podEndpoint) (policySet : gmap string Npm.Policy)
    : M (gmap string Npm.Policy) :=
  let '(src, dst) := srcDst in
  if String.eqb (Csm.ContainerId (container src)) (Csm.ContainerId (container dst))
  then mret policySet else
  let key := backend_key src dst rule in
  match policySet !! key with
  | Some _ => mret policySet
  | None =>
      id ← new_id;
      mret (<[key := backend_policy id networkPolicyId manifest rule src dst]> policySet)
  end.

Fixpoint accumulate {A B} (f : A -> B -> M B) (l : list A) (b : B) : M B :=
  match l with [] => mret b | x :: l => b ← f x b; accumulate f l b end.

(** One rule: for each selected pod, each peer. *)
Definition ingress_rule (networkPolicyId : string) (manifest : Manifest)
    (selectedPods : list podEndpoint) (rule : Rule) (policySet : gmap string Npm.Policy)
    : M (gmap string Npm.Policy) :=
  sourcePods ← selectPods (m_Namespace manifest) (r_PodSelector rule);
  accumulate (addBackendPolicy networkPolicyId manifest rule)
    (dst ← selectedPods; src ← sourcePods; [(src, dst)]) policySet.
Definition egress_rule (networkPolicyId : string) (manifest : Manifest)
    (selectedPods : list podEndpoint) (rule : Rule) (policySet : gmap string Npm.Policy)
    : M (gmap string Npm.Policy) :=
  destinationPods ← selectPods (m_Namespace manifest) (r_PodSelector rule);
  accumulate (addBackendPolicy networkPolicyId manifest rule)
    (src ← selectedPods; dst ← destinationPods; [(src, dst)]) policySet.

Definition generateBackendPolicies (networkPolicyId : string) (manifest : Manifest)
    : M (list Npm.Policy) :=
  selectedPods ← selectPods (m_Namespace manifest) (m_PodSelector manifest);
  policySet ← accumulate (ingress_rule networkPolicyId manifest selectedPods)
                (m_Ingress manifest) ∅;
  policySet ← accumulate (egress_rule networkPolicyId manifest selectedPods)
                (m_Egress manifest) policySet;
  mret (sortPolicies (range_values policySet)).

(** The loop over the network policies: [desired], and [generatedByPolicy] as
    the ids that each policy of [infos] has at the end. *)
Fixpoint generate_all (infos : list NetworkPolicyInfo) (desired : list Npm.Policy)
    (generatedByPolicy : gmap string (list string))
    : M (list Npm.Policy * gmap string (list string)) :=
  match infos with
  | [] => mret (desired, generatedByPolicy)
  | info :: infos =>
      generated ← generateBackendPolicies (NetworkPolicyId info) (manifestFromInfo info);
      let old := default [] (generatedByPolicy !! NetworkPolicyId info) in
      generate_all infos (desired ++ generated)
        (match generated with
         | [] => generatedByPolicy
         | _ => <[NetworkPolicyId info := old ++ (Npm.Id <$> generated)]> generatedByPolicy
         end)
  end.

Fixpoint update_generated (generatedByPolicy : gmap string (list string))
    (infos : list NetworkPolicyInfo) : M unit :=
  match infos with
  | [] => mret tt
  | info :: infos =>
      let ids := default [] (generatedByPolicy !! NetworkPolicyId info) in
      _ ← on_netpol (UpdateGeneratedRuleIds (NetworkPolicyId info) (sort_Strings ids));
      update_generated generatedByPolicy infos
  end.

Definition ReconcileAll : M bool :=
  infos ← read_netpol GetNetworkPolicyList;
  let infos := sortNetworkPolicies infos in
  '(desired, generatedByPolicy) ← generate_all infos [] ∅;
  let desired := sortPolicies desired in
  ewPolicies ← or_zero [] (read (fun st => Npm.GetEWPolicyList (npm st)));
  let current := sortPolicies (filterPoliciesByOwnerKind ewPolicies networkPolicyOwnerKind) in
  if equalPolicySets current desired then mret false else
  _ ← on_npm (Npm.ReplacePoliciesByOwnerKind "RAIND-EW" networkPolicyOwnerKind desired);
  _ ← update_generated generatedByPolicy infos;
  mret true.

Definition Apply (manifest : Manifest) : M NetworkPolicyInfo :=
  if String.eqb (m_Name manifest) "" then fail "networkpolicy name is required" else
  let namespace := if String.eqb (m_Namespace manifest) "" then "default"
                   else m_Namespace manifest in
  used ← or_zero false (read_netpol (IsNameAlreadyUsed (m_Name manifest) namespace));
  if used : bool then fail "name already used by other networkpolicy" else
  networkPolicyId ← new_id;
  t ← now;
  _ ← on_netpol (StoreNetworkPolicy networkPolicyId
        {| NetworkPolicyId := ""; Name := m_Name manifest; Namespace := namespace;
           PodSelector := m_PodSelector manifest; Ingress := toRuleInfo (m_Ingress manifest);
           Egress := toRuleInfo (m_Egress manifest); GeneratedRuleIds := [];
           CreatedAt := 0 |} t);
  r ← attempt ReconcileAll;
  match r with
  | Ok _ => read_netpol (GetNetworkPolicyById networkPolicyId)
  | Err e | Panic e => _ ← ignore (on_netpol (RemoveNetworkPolicy networkPolicyId)); fail e
  end.

Definition list_all (namespace : string) : M (list NetworkPolicyInfo) :=
  l ← read_netpol GetNetworkPolicyList;
  mret (sortNetworkPolicies
    (if String.eqb namespace "" then l
     else List.filter (fun info => String.eqb (Namespace info) namespace) l)).

Definition Get (idOrName namespace : string) : M NetworkPolicyInfo :=
  if negb (String.eqb namespace "")
  then read_netpol (GetNetworkPolicyByName idOrName namespace) else
  r ← attempt (read_netpol (GetNetworkPolicyById idOrName));
  match r with
  | Ok info => mret info
  | _ =>
      l ← read_netpol GetNetworkPolicyList;
      match List.filter (fun info => String.eqb (Name info) idOrName) l with
      | [info] => mret info
      | [] => fail ("networkpolicy " +:+ quoted idOrName +:+ " not found")
      | _ => fail ("networkpolicy name " +:+ quoted idOrName +:+
                   " exists in multiple namespaces; specify namespace")
      end
  end.

Definition Remove (idOrName namespace : string) : M NetworkPolicyInfo :=
  info ← Get idOrName namespace;
  _ ← on_netpol (RemoveNetworkPolicy (NetworkPolicyId info));
  mret info.

(** ** The controller ([controller.go]) *)

Definition reconcileOnce : M unit :=
  changed ← ReconcileAll;
  if negb changed then mret tt else with_npm CommitPolicy.
End service.
