(* ===== verification/Manifests.v ===== *)
(** * Manifests of config maps, secrets, services, ingresses, network policies

    [core/configmap], [core/secret], [core/service/manifest.go],
    [core/ingress/manifest.go] and [core/networkpolicy/manifest.go]: what a
    decoded struct must be like and what is made of it; with the services of
    config maps and secrets. *)

From Stdlib Require Import ZArith Lia Ascii String.
From stdpp Require Import base gmap strings list.
From S2P Require Import Prelude.
From S2P Require Import GoString.
From S2P Require Import GoNumber.
From S2P Require Import GoYaml.
From S2P Require Import World.
From S2P Require Ssm.
From S2P Require Cfm.
From S2P Require Sec.
From S2P Require Ism.
From S2P Require NetworkPolicy.
Open Scope Z_scope.

(** [for k, v := range m { data[k] = v }]. *)
Definition copy_into {V} (m data : gmap string V) : gmap string V := m ∪ data.

(** ** Config maps ([core/configmap]) *)
Module ConfigMap.

Record Warning := { Field : string; Message : string }.

Record Manifest := {
  Name : string;
  Namespace : string;
  Data : gmap string string;
  Warnings : list Warning
}.

(** The struct that the text is decoded into, [metadata] flattened. *)
Record configMapManifest := {
  meta_Name : string;
  meta_Namespace : string;
  m_Data : gmap string string;
  m_BinaryData : gmap string string;
  m_Immutable : option bool
}.

Definition buildManifest (cm : configMapManifest) : res Manifest :=
  if String.eqb (meta_Name cm) "" then Err "configmap name is required" else
  Ok {| Name := meta_Name cm;
        Namespace := if String.eqb (meta_Namespace cm) "" then "default" else meta_Namespace cm;
        Data := copy_into (m_Data cm) ∅;
        Warnings :=
          (if decide (m_BinaryData cm = ∅) then [] else
           [{| Field := "binaryData";
               Message := "binaryData is ignored in the current ConfigMap implementation" |}]) ++
          (match m_Immutable cm with
           | Some _ => [{| Field := "immutable";
                           Message := "immutable update semantics are not enforced" |}]
           | None => []
           end) |}.

Definition DecodeK8sConfigMapManifest `{Yaml, YamlType configMapManifest}
    : string -> res Manifest :=
  decode_manifest "ConfigMap" "configmap" buildManifest.

Section service.
Context {RO : RangeOrder} {C W : Type}.
#[local] Notation M := (M Cfm.ConfigMapState C W).

Definition Create (manifest : Manifest) : M Cfm.ConfigMapInfo :=
  if String.eqb (Name manifest) "" then fail "configmap name is required" else
  let namespace := Cfm.in_namespace (Namespace manifest) in
  used ← or_zero false (read (Cfm.IsNameAlreadyUsed (Name manifest) namespace));
  if used : bool then fail "name already used by other configmap" else
  configMapId ← new_id;
  t ← now;
  _ ← txn (Cfm.StoreConfigMap configMapId
        {| Cfm.ConfigMapId := ""; Cfm.Name := Name manifest; Cfm.Namespace := namespace;
           Cfm.Data := Data manifest; Cfm.CreatedAt := 0 |} t);
  read (Cfm.GetConfigMapById configMapId).

Definition List (namespace : string) : M (list Cfm.ConfigMapInfo) :=
  l ← read Cfm.GetConfigMapList;
  mret (if String.eqb namespace "" then l
        else List.filter (fun cm => String.eqb (Cfm.Namespace cm) namespace) l).

Definition Get (idOrName namespace : string) : M Cfm.ConfigMapInfo :=
  if negb (String.eqb namespace "") then read (Cfm.GetConfigMapByName idOrName namespace) else
  r ← attempt (read (Cfm.GetConfigMapById idOrName));
  match r with
  | Ok info => mret info
  | _ =>
      l ← read Cfm.GetConfigMapList;
      match List.filter (fun cm => String.eqb (Cfm.Name cm) idOrName) l with
      | [cm] => mret cm
      | [] => fail ("configmap " +:+ quoted idOrName +:+ " not found")
      | _ => fail ("configmap name " +:+ quoted idOrName +:+
                   " exists in multiple namespaces; specify namespace")
      end
  end.

Definition Remove (idOrName namespace : string) : M Cfm.ConfigMapInfo :=
  info ← Get idOrName namespace;
  _ ← txn (Cfm.RemoveConfigMap (Cfm.ConfigMapId info));
  mret info.
End service.
End ConfigMap.

(** ** Secrets ([core/secret]) *)
Module Secret.

Record Manifest := {
  Name : string;
  Namespace : string;
  Type_ : string;
  Data : gmap string string
}.

Record secretManifest := {
  meta_Name : string;
  meta_Namespace : string;
  m_Type : string;
  m_Data : gmap string string;
  m_StringData : gmap string string
}.

(** The loop over [data]: the first value that is not base 64 ends it. *)
Fixpoint decode_data (l : list (string * string)) (data : gmap string string)
    : res (gmap string string) :=
  match l with
  | [] => Ok data
  | (k, v) :: l =>
      match DecodeString v with
      | None => Err ("secret data " +:+ quoted k +:+ " is not valid base64")
      | Some decoded => decode_data l (<[k := decoded]> data)
      end
  end.

Section manifest.
Context {RO : RangeOrder}.

Definition buildManifest (sm : secretManifest) : res Manifest :=
  if String.eqb (meta_Name sm) "" then Err "secret name is required" else
  let namespace := if String.eqb (meta_Namespace sm) "" then "default" else meta_Namespace sm in
  let type := if String.eqb (m_Type sm) "" then Sec.SecretTypeOpaque else m_Type sm in
  if negb (String.eqb type Sec.SecretTypeOpaque)
  then Err ("unsupported secret type: " +:+ type) else
  data ← decode_data (range_map (m_Data sm)) ∅;
  Ok {| Name := meta_Name sm; Namespace := namespace; Type_ := type;
        Data := copy_into (m_StringData sm) data |}.

Definition DecodeK8sSecretManifest `{Yaml, YamlType secretManifest} : string -> res Manifest :=
  decode_manifest "Secret" "secret" buildManifest.
End manifest.

Section service.
Context {RO : RangeOrder} {C W : Type}.
#[local] Notation M := (M Sec.SecretState C W).

Definition Create (manifest : Manifest) : M Sec.SecretInfo :=
  if String.eqb (Name manifest) "" then fail "secret name is required" else
  let namespace := Sec.in_namespace (Namespace manifest) in
  let type := if String.eqb (Type_ manifest) "" then Sec.SecretTypeOpaque else Type_ manifest in
  if negb (String.eqb type Sec.SecretTypeOpaque)
  then fail ("unsupported secret type: " +:+ type) else
  used ← or_zero false (read (Sec.IsNameAlreadyUsed (Name manifest) namespace));
  if used : bool then fail "name already used by other secret" else
  secretId ← new_id;
  t ← now;
  _ ← txn_late (Sec.StoreSecret secretId
        {| Sec.SecretId := ""; Sec.Name := Name manifest; Sec.Namespace := namespace;
           Sec.Type_ := type; Sec.Data := Data manifest; Sec.CreatedAt := 0 |} t);
  read (Sec.GetSecretById secretId).

Definition List (namespace : string) : M (list Sec.SecretInfo) :=
  l ← read Sec.GetSecretList;
  mret (if String.eqb namespace "" then l
        else List.filter (fun s => String.eqb (Sec.Namespace s) namespace) l).

Definition Get (idOrName namespace : string) : M Sec.SecretInfo :=
  if negb (String.eqb namespace "") then read (Sec.GetSecretByName idOrName namespace) else
  r ← attempt (read (Sec.GetSecretById idOrName));
  match r with
  | Ok info => mret info
  | _ =>
      l ← read Sec.GetSecretList;
      match List.filter (fun s => String.eqb (Sec.Name s) idOrName) l with
      | [s] => mret s
      | [] => fail ("secret " +:+ quoted idOrName +:+ " not found")
      | _ => fail ("secret name " +:+ quoted idOrName +:+
                   " exists in multiple namespaces; specify namespace")
      end
  end.

Definition Remove (idOrName namespace : string) : M Sec.SecretInfo :=
  info ← Get idOrName namespace;
  _ ← txn_late (Sec.RemoveSecret (Sec.SecretId info));
  mret info.
End service.
End Secret.

(** ** Services ([core/service/manifest.go]) *)
Module Service.

Record ServiceManifest := {
  Name : string;
  Namespace : string;
  Type_ : string;
  ClusterIP : string;
  Selector : gmap string string;
  Ports : list Ssm.ServicePort
}.

Record servicePortManifest := { p_Port : Z; p_TargetPort : Z; p_Protocol : string }.

Record serviceManifest := {
  meta_Name : string;
  meta_Namespace : string;
  sp_Type : string;
  sp_ClusterIP : string;
  sp_Selector : gmap string string;
  sp_Ports : list servicePortManifest
}.

(** Entries without a port are dropped. *)
Fixpoint build_ports (l : list servicePortManifest) : list Ssm.ServicePort :=
  match l with
  | [] => []
  | p :: l =>
      if p_Port p =? 0 then build_ports l else
      {| Ssm.sp_Port := p_Port p;
         Ssm.TargetPort := if p_TargetPort p =? 0 then p_Port p else p_TargetPort p;
         Ssm.sp_Protocol := if String.eqb (p_Protocol p) "" then "tcp" else p_Protocol p |}
      :: build_ports l
  end.

Definition buildServiceManifest (in_ : serviceManifest) : ServiceManifest :=
  {| Name := meta_Name in_;
     Namespace := if String.eqb (meta_Namespace in_) "" then "default" else meta_Namespace in_;
     Type_ := sp_Type in_; ClusterIP := sp_ClusterIP in_; Selector := sp_Selector in_;
     Ports := build_ports (sp_Ports in_) |}.

Definition DecodeK8sServiceManifest `{Yaml, YamlType serviceManifest}
    : string -> res ServiceManifest :=
  decode_manifest "Service" "service" (fun svc => Ok (buildServiceManifest svc)).
End Service.

(** ** Ingresses ([core/ingress/manifest.go]) *)
Module Ingress.

Record IngressManifest := {
  Name : string;
  Namespace : string;
  Rules : list Ism.IngressRule;
  TLSHosts : list string
}.

Record ingressPathManifest := {
  p_Path : string;
  p_PathType : string;
  backend_Name : string;
  backend_Port : Z
}.
Record ingressRuleManifest := { r_Host : string; r_Paths : list ingressPathManifest }.
Record ingressTLSManifest := { t_Hosts : list string; t_SecretName : string }.

Record ingressManifest := {
  meta_Name : string;
  meta_Namespace : string;
  spec_TLS : list ingressTLSManifest;
  spec_Rules : list ingressRuleManifest
}.

Definition build_path (p : ingressPathManifest) : res Ism.IngressPath :=
  let path := if String.eqb (p_Path p) "" then "/" else p_Path p in
  if negb (hasPrefix path "/") then Err ("ingress path must start with /: " +:+ path) else
  let pathType := if String.eqb (p_PathType p) "" then "Prefix" else p_PathType p in
  if negb (String.eqb pathType "Prefix" || String.eqb pathType "Exact")
  then Err ("unsupported ingress pathType: " +:+ pathType) else
  if String.eqb (backend_Name p) "" then Err "ingress backend service name is required" else
  if backend_Port p =? 0 then Err "ingress backend service port.number is required" else
  Ok {| Ism.Path := path; Ism.PathType := pathType;
        Ism.Backend := {| Ism.ServiceName := backend_Name p;
                          Ism.ServicePort := backend_Port p |} |}.

Fixpoint build_paths (l : list ingressPathManifest) : res (list Ism.IngressPath) :=
  match l with
  | [] => Ok []
  | p :: l => path ← build_path p; paths ← build_paths l; Ok (path :: paths)
  end.

Definition lower_host (host : string) : string := toLower (trimSpace host).

Fixpoint build_rules (l : list ingressRuleManifest) : res (list Ism.IngressRule) :=
  match l with
  | [] => Ok []
  | r :: l =>
      paths ← build_paths (r_Paths r);
      match paths with
      | [] => Err "ingress rule must have at least one http path"
      | _ =>
          rules ← build_rules l;
          Ok ({| Ism.Host := lower_host (r_Host r); Ism.Paths := paths |} :: rules)
      end
  end.

(** The hosts of one entry, and of all of them: [seen] are those in [hosts]. *)
Fixpoint tls_hosts_of (l : list string) (seen : gset string) (hosts : list string)
    : res (gset string * list string) :=
  match l with
  | [] => Ok (seen, hosts)
  | rawHost :: l =>
      let host := lower_host rawHost in
      if String.eqb host "" then tls_hosts_of l seen hosts else
      if contains host "*"
      then Err ("ingress tls wildcard host is not supported yet: " +:+ host) else
      if contains host ":" then Err ("ingress tls host must not include port: " +:+ host) else
      if decide (host ∈ seen) then tls_hosts_of l seen hosts
      else tls_hosts_of l ({[host]} ∪ seen) (hosts ++ [host])
  end.

Fixpoint tls_entries (entries : list ingressTLSManifest) (seen : gset string)
    (hosts : list string) : res (list string) :=
  match entries with
  | [] => Ok hosts
  | entry :: entries =>
      '(seen, hosts) ← tls_hosts_of (t_Hosts entry) seen hosts;
      tls_entries entries seen hosts
  end.

Definition buildTLSHosts (entries : list ingressTLSManifest) : res (list string) :=
  tls_entries entries ∅ [].

Definition buildIngressManifest (in_ : ingressManifest) : res IngressManifest :=
  let namespace := if String.eqb (meta_Namespace in_) "" then "default"
                   else meta_Namespace in_ in
  if String.eqb (meta_Name in_) "" then Err "ingress name is required" else
  rules ← build_rules (spec_Rules in_);
  match rules with
  | [] => Err "ingress must have at least one rule"
  | _ =>
      tlsHosts ← buildTLSHosts (spec_TLS in_);
      Ok {| Name := meta_Name in_; Namespace := namespace; Rules := rules; TLSHosts := tlsHosts |}
  end.

Definition DecodeK8sIngressManifest `{Yaml, YamlType ingressManifest}
    : string -> res IngressManifest :=
  decode_manifest "Ingress" "ingress" buildIngressManifest.
End Ingress.

(** ** Network policies ([core/networkpolicy/manifest.go]) *)
Definition DecodeK8sNetworkPolicyManifest `{Yaml, YamlType NetworkPolicy.k8sManifest}
    : string -> res NetworkPolicy.Manifest :=
  decode_manifest "NetworkPolicy" "networkpolicy" NetworkPolicy.buildManifest.

(** ** Secrets: the values that were encoded *)
Section secret_theory.
Context {RO : RangeOrder}.
Implicit Types m : gmap string string.

(** The loop, from what it has so far: the order does not show. *)
Lemma decode_data_encoded (l : list (string * string)) (data vals : gmap string string) :
  NoDup l.*1 -> (forall k v, (k, v) ∈ l -> exists s, vals !! k = Some s /\ DecodeString v = Some s) ->
  exists out, Secret.decode_data l data = Ok out /\
    forall k, out !! k = if decide (k ∈ l.*1) then vals !! k else data !! k.
Proof.
  revert data. induction l as [|[k v] l IH]; intros data Hnd Hl; cbn [Secret.decode_data].
  { exists data. split; [done|]. intros k. by rewrite decide_False by apply not_elem_of_nil. }
  rewrite fmap_cons in Hnd |- *. simpl in Hnd. apply NoDup_cons in Hnd as [Hk Hnd].
  destruct (Hl k v) as (s & Hs & ->); [by left|].
  destruct (IH (<[k := s]> data) Hnd) as (out & -> & Hout); [intros k' v' Hin; apply (Hl k' v'); by right|].
  exists out. split; [done|]. intros k'. rewrite Hout.
  destruct (decide (k' ∈ l.*1)) as [Hin|Hin].
  - by rewrite decide_True by by right.
  - destruct (decide (k = k')) as [<-|Hne].
    + by rewrite lookup_insert_eq, decide_True by by left.
    + rewrite lookup_insert_ne, decide_False by (rewrite ?elem_of_cons; naive_solver). done.
Qed.

Lemma decode_data_invalid (l : list (string * string)) data k v :
  (k, v) ∈ l -> DecodeString v = None -> exists e, Secret.decode_data l data = Err e.
Proof.
  intros Hin Hv. revert data Hin. induction l as [|[k2 v2] l IH]; intros data Hin.
  { by apply not_elem_of_nil in Hin. }
  apply elem_of_cons in Hin as [[= <- <-]|Hin]; cbn [Secret.decode_data].
  - rewrite Hv. eauto.
  - destruct (DecodeString v2); eauto.
Qed.

(** The data of a secret manifest are what was encoded: if each value of
    [data] is a base 64 text of a value (line ends anywhere), the manifest has
    these values, those of [stringData] in their place where both name a key;
    the order in which the map is gone through does not show. *)
Theorem secret_values_decoded sm (vals : gmap string string) :
  Secret.meta_Name sm <> "" -> Secret.m_Type sm ∈ [""; "Opaque"] ->
  (forall k, DecodeString <$> Secret.m_Data sm !! k = Some <$> vals !! k) ->
  Secret.buildManifest sm =
    Ok {| Secret.Name := Secret.meta_Name sm;
          Secret.Namespace := Sec.in_namespace (Secret.meta_Namespace sm);
          Secret.Type_ := "Opaque";
          Secret.Data := Secret.m_StringData sm ∪ vals |}.
Proof.
  intros Hn Ht Hd. unfold Secret.buildManifest, Sec.in_namespace.
  destruct (String.eqb_spec (Secret.meta_Name sm) ""); [done|].
  assert ((if String.eqb (Secret.m_Type sm) "" then Sec.SecretTypeOpaque else Secret.m_Type sm)
    = "Opaque") as ->.
  { rewrite !elem_of_cons, elem_of_nil in Ht. by destruct Ht as [->|[->|[]]]. }
  simpl. destruct (decode_data_encoded (range_map (Secret.m_Data sm)) ∅ vals) as (out & -> & Hout).
  - apply NoDup_range_keys.
  - intros k v Hkv%elem_of_range_map. specialize (Hd k). rewrite Hkv in Hd. simpl in Hd.
    destruct (vals !! k) as [s|]; simpl in Hd; [|done]. injection Hd as Hd. eauto.
  - simpl. assert (out = vals) as ->; [|done]. apply map_eq. intros k. rewrite Hout.
    specialize (Hd k). case_decide as Hin; [done|]. rewrite lookup_empty.
    destruct (vals !! k) as [s|] eqn:Hs; [|done]. exfalso. apply Hin.
    destruct (Secret.m_Data sm !! k) as [v|] eqn:Hv; [|done].
    apply list_elem_of_fmap. exists (k, v). by rewrite elem_of_range_map.
Qed.

(** One value that is no base 64 text makes the manifest an error. *)
Theorem secret_value_invalid sm k v :
  Secret.m_Data sm !! k = Some v -> DecodeString v = None ->
  is_ok (Secret.buildManifest sm) = false.
Proof.
  intros Hk Hv. unfold Secret.buildManifest.
  destruct (String.eqb _ ""); [done|]. destruct (negb _); [done|].
  apply elem_of_range_map in Hk.
  by destruct (decode_data_invalid _ ∅ _ _ Hk Hv) as [e ->].
Qed.
End secret_theory.

(** ** Ingresses: what a manifest that is accepted has *)
Section ingress_theory.

Definition path_ok (p : Ism.IngressPath) : Prop :=
  hasPrefix (Ism.Path p) "/" = true /\ Ism.PathType p ∈ ["Prefix"; "Exact"] /\
  Ism.ServiceName (Ism.Backend p) <> "" /\ Ism.ServicePort (Ism.Backend p) <> 0.

Definition rule_ok (r : Ism.IngressRule) : Prop :=
  Ism.Paths r <> [] /\ Forall path_ok (Ism.Paths r).

Definition host_ok (h : string) : Prop :=
  h <> "" /\ contains h "*" = false /\ contains h ":" = false.

Lemma build_path_ok p path : Ingress.build_path p = Ok path -> path_ok path.
Proof.
  unfold Ingress.build_path, path_ok. set (q := if String.eqb (Ingress.p_Path p) "" then _ else _).
  set (t := if String.eqb (Ingress.p_PathType p) "" then _ else _).
  destruct (hasPrefix q "/") eqn:Hq; [|done]. simpl.
  destruct (String.eqb_spec t "Prefix") as [Ht|Ht];
    [|destruct (String.eqb_spec t "Exact") as [Ht'|Ht']; [|done]]; simpl;
    (destruct (String.eqb_spec (Ingress.backend_Name p) ""); [done|]);
    (destruct (Z.eqb_spec (Ingress.backend_Port p) 0); [done|]); intros [= <-]; simpl;
    repeat split; try done; rewrite ?Ht, ?Ht'; set_solver.
Qed.

Lemma build_paths_ok l paths : Ingress.build_paths l = Ok paths -> Forall path_ok paths.
Proof.
  revert paths. induction l as [|p l IH]; intros paths; simpl; [by intros [= <-]|].
  intros H. inv_ok. eauto using build_path_ok.
Qed.

Lemma build_rules_ok l rules : Ingress.build_rules l = Ok rules -> Forall rule_ok rules.
Proof.
  revert rules. induction l as [|r l IH]; intros rules; simpl; [by intros [= <-]|].
  intros (paths & Hp & H)%res_bind_ok. destruct paths as [|p paths]; [done|]. inv_ok.
  constructor; [|by apply IH]. split; [done|]. by eapply build_paths_ok.
Qed.

(** The hosts so far: as many as were seen, each well formed, none twice. *)
Definition hosts_ok (seen : gset string) (hosts : list string) : Prop :=
  NoDup hosts /\ Forall host_ok hosts /\ (forall h, h ∈ seen <-> h ∈ hosts).

Lemma tls_hosts_of_ok l seen hosts seen' hosts' :
  hosts_ok seen hosts -> Ingress.tls_hosts_of l seen hosts = Ok (seen', hosts') ->
  hosts_ok seen' hosts'.
Proof.
  revert seen hosts. induction l as [|raw l IH]; intros seen hosts Hok; simpl; [by intros [= <- <-]|].
  destruct (String.eqb_spec (Ingress.lower_host raw) "") as [|Hne]; [by apply IH|].
  destruct (contains _ "*") eqn:E1; [done|]. destruct (contains _ ":") eqn:E2; [done|].
  case_decide as Hin; [by apply IH|]. apply IH. destruct Hok as (Hnd & Hall & Hiff).
  split_and!.
  - apply NoDup_app. split_and!; [done| |by apply NoDup_singleton].
    intros h Hh ->%list_elem_of_singleton. by apply Hin, Hiff.
  - apply Forall_app. split; [done|]. by repeat constructor.
  - intros h. set_solver.
Qed.

Lemma tls_entries_ok entries seen hosts out :
  hosts_ok seen hosts -> Ingress.tls_entries entries seen hosts = Ok out ->
  NoDup out /\ Forall host_ok out.
Proof.
  revert seen hosts. induction entries as [|e entries IH]; intros seen hosts Hok; simpl.
  { intros [= <-]. by destruct Hok as (? & ? & _). }
  intros ([seen' hosts'] & H1 & H)%res_bind_ok. eapply IH, H. by eapply tls_hosts_of_ok.
Qed.

(** An ingress manifest that is accepted has a name, a namespace and at
    least one rule; every rule has paths, every path starts at the root, has one
    of the two types and names a service and a port; no TLS host is listed
    twice, is a wildcard or has a port. *)
Theorem ingress_manifest_well_formed in_ m :
  Ingress.buildIngressManifest in_ = Ok m ->
  Ingress.Name m <> "" /\ Ingress.Namespace m <> "" /\ Ingress.Rules m <> [] /\
  Forall rule_ok (Ingress.Rules m) /\
  NoDup (Ingress.TLSHosts m) /\ Forall host_ok (Ingress.TLSHosts m).
Proof.
  unfold Ingress.buildIngressManifest.
  destruct (String.eqb_spec (Ingress.meta_Name in_) "") as [|Hn]; [done|].
  intros (rules & Hr & H)%res_bind_ok. destruct rules as [|r rules]; [done|]. inv_ok. simpl.
  split_and!; [done| |done|by eapply build_rules_ok|..].
  - by destruct (String.eqb_spec (Ingress.meta_Namespace in_) "") as [|Hns].
  - eapply tls_entries_ok; [|done]. split_and!; [constructor|done|set_solver].
  - eapply tls_entries_ok; [|done]. split_and!; [constructor|done|set_solver].
Qed.
End ingress_theory.

(** ** On concrete manifests *)
Module ManifestDemo.

Definition database : Secret.secretManifest :=
  {| Secret.meta_Name := "db"; Secret.meta_Namespace := ""; Secret.m_Type := "";
     Secret.m_Data := <["password" := "aHVudGVyMg=="]> (<["user" := "cm9v" +:+ "dA=="]> ∅);
     Secret.m_StringData := <["user" := "admin"]> ∅ |}.
Definition database_values : gmap string string :=
  <["password" := "hunter2"]> (<["user" := "root"]> ∅).

Example secret_values_decoded_witness :
  (Secret.Data <$> Secret.buildManifest database) = Ok (<["user" := "admin"]> ∅ ∪ database_values).
Proof.
  rewrite (secret_values_decoded database database_values).
  - reflexivity.
  - done.
  - by left.
  - intros k. unfold database, database_values. cbn [Secret.m_Data].
    destruct (decide (k = "password")) as [->|H1]; [vm_compute; reflexivity|].
    destruct (decide (k = "user")) as [->|H2]; [vm_compute; reflexivity|].
    by rewrite !lookup_insert_ne by done.
Defined.

Definition shop : Ingress.ingressManifest :=
  {| Ingress.meta_Name := "shop"; Ingress.meta_Namespace := "demo";
     Ingress.spec_TLS := [{| Ingress.t_Hosts := [" Shop.example "; "shop.example"];
                             Ingress.t_SecretName := "" |}];
     Ingress.spec_Rules := [{| Ingress.r_Host := "Shop.example";
       Ingress.r_Paths := [{| Ingress.p_Path := ""; Ingress.p_PathType := "";
                              Ingress.backend_Name := "web"; Ingress.backend_Port := 80 |}] |}] |}.
Definition shop_built : Ingress.IngressManifest :=
  {| Ingress.Name := "shop"; Ingress.Namespace := "demo";
     Ingress.Rules := [{| Ism.Host := "shop.example";
       Ism.Paths := [{| Ism.Path := "/"; Ism.PathType := "Prefix";
         Ism.Backend := {| Ism.ServiceName := "web"; Ism.ServicePort := 80 |} |}] |}];
     Ingress.TLSHosts := ["shop.example"] |}.

Example ingress_manifest_well_formed_witness :
  Forall rule_ok (Ingress.Rules shop_built) /\ NoDup (Ingress.TLSHosts shop_built).
Proof.
  destruct (ingress_manifest_well_formed shop shop_built) as (_ & _ & _ & H1 & H2 & _).
  - vm_compute. reflexivity.
  - exact (conj H1 H2).
Defined.
End ManifestDemo.
