(* ===== verification/PodManifest.v ===== *)
(** * Manifests of pods, replica sets and deployments ([core/pod/manifest.go])

    A pod specification becomes the containers of a template; what it takes from
    config maps, secrets and volume claims is left as references to containers
    by their index, which [Resource.v] resolves. *)

From Stdlib Require Import ZArith Lia Ascii String.
From stdpp Require Import base gmap strings list.
From S2P Require Import Prelude.
From S2P Require Import GoString.
From S2P Require Import GoPath.
From S2P Require Import GoYaml.
From S2P Require Import World.
From S2P Require Import Psm.
Open Scope Z_scope.

(** ** Data *)

Record ContainerConfigMapRef := { cmr_ContainerIndex : Z; cmr_Name : string }.
Record ContainerConfigMapKeyRef := {
  cmk_ContainerIndex : Z; cmk_EnvName : string; cmk_Name : string; cmk_Key : string
}.
Record ContainerSecretRef := { sr_ContainerIndex : Z; sr_Name : string }.
Record ContainerSecretKeyRef := {
  sk_ContainerIndex : Z; sk_EnvName : string; sk_Name : string; sk_Key : string
}.
Record ContainerPVCMountRef := {
  pm_ContainerIndex : Z; pm_Name : string; pm_MountPath : string; pm_ReadOnly : bool
}.

Record PodManifest := {
  Kind : string;
  m_Name : string;
  m_Namespace : string;
  m_Labels : gmap string string;
  m_Annotations : gmap string string;
  m_Containers : list ContainerTemplateSpec;
  ConfigMapEnvFrom : list ContainerConfigMapRef;
  ConfigMapEnvKeys : list ContainerConfigMapKeyRef;
  SecretEnvFrom : list ContainerSecretRef;
  SecretEnvKeys : list ContainerSecretKeyRef;
  PVCMounts : list ContainerPVCMountRef;
  m_Rootless : bool;
  m_Replicas : Z;
  m_Selector : gmap string string
}.

Definition set_Containers (m : PodManifest) (l : list ContainerTemplateSpec) : PodManifest :=
  {| Kind := Kind m; m_Name := m_Name m; m_Namespace := m_Namespace m; m_Labels := m_Labels m;
     m_Annotations := m_Annotations m; m_Containers := l; ConfigMapEnvFrom := ConfigMapEnvFrom m;
     ConfigMapEnvKeys := ConfigMapEnvKeys m; SecretEnvFrom := SecretEnvFrom m;
     SecretEnvKeys := SecretEnvKeys m; PVCMounts := PVCMounts m; m_Rootless := m_Rootless m;
     m_Replicas := m_Replicas m; m_Selector := m_Selector m |}.

(** The structs that the text is decoded into; the fields of nested structs
    with one use are flattened, a pointer is an option. *)
Record manifestMeta := {
  meta_Name : string;
  meta_Namespace : string;
  meta_Labels : gmap string string;
  meta_Annotations : gmap string string
}.

Record manifestEnvVar := {
  ev_Name : string;
  ev_Value : string;
  ev_ConfigMapName : string;
  ev_ConfigMapKey : string;
  ev_SecretName : string;
  ev_SecretKey : string
}.
Record manifestEnvFrom := { ef_ConfigMapName : string; ef_SecretName : string }.
Record manifestPort := { mp_ContainerPort : Z; mp_HostPort : Z }.
Record manifestVolumeMount := { vm_Name : string; vm_MountPath : string; vm_ReadOnly : bool }.
Record manifestVolume := {
  v_Name : string;
  v_HostPath : string;
  v_HostPathType : string;
  v_ClaimName : string
}.

Record containerManifest := {
  c_Name : string;
  c_Image : string;
  c_Command : list string;
  c_Args : list string;
  c_Env : list manifestEnvVar;
  c_EnvFrom : list manifestEnvFrom;
  c_Ports : list manifestPort;
  c_Mount : list string;
  c_CapAdd : list string;
  c_CapDrop : list string;
  c_VolumeMounts : list manifestVolumeMount;
  c_Tty : bool
}.

Record podManifestSpec := {
  HostUsers : option bool;
  s_Containers : list containerManifest;
  s_Volumes : list manifestVolume
}.

Record podManifest := { p_Metadata : manifestMeta; p_Spec : podManifestSpec }.

(** [replicaSetManifest]; [deploymentManifest] has the same fields. *)
Record replicaSetManifest := {
  rs_Metadata : manifestMeta;
  rs_MatchLabels : option (gmap string string);
  rs_Replicas : option Z;
  rs_TemplateMetadata : manifestMeta;
  rs_TemplateSpec : podManifestSpec
}.

(** ** Containers *)

Definition rootlessFromHostUsers (hostUsers : option bool) : bool :=
  match hostUsers with Some b => negb b | None => false end.

(** A missing label counts as the empty value. *)
Definition selectorMatchesLabels `{RangeOrder} (selector labels : gmap string string) : bool :=
  forallb (fun kv => String.eqb (default "" (labels !! kv.1)) kv.2) (range_map selector).

Definition env_from (i : Z) (l : list manifestEnvFrom)
    : list ContainerConfigMapRef * list ContainerSecretRef :=
  (flat_map (fun ref => if String.eqb (ef_ConfigMapName ref) "" then []
     else [{| cmr_ContainerIndex := i; cmr_Name := ef_ConfigMapName ref |}]) l,
   flat_map (fun ref => if String.eqb (ef_SecretName ref) "" then []
     else [{| sr_ContainerIndex := i; sr_Name := ef_SecretName ref |}]) l).

(** The environment: a variable without a name is dropped; a reference to a
    config map goes before one to a secret, and either before the value. *)
Fixpoint env_vars (i : Z) (l : list manifestEnvVar)
    : list string * list ContainerConfigMapKeyRef * list ContainerSecretKeyRef :=
  match l with
  | [] => ([], [], [])
  | e :: l =>
      let '(envs, cms, secs) := env_vars i l in
      if String.eqb (ev_Name e) "" then (envs, cms, secs) else
      if negb (String.eqb (ev_ConfigMapName e) "") || negb (String.eqb (ev_ConfigMapKey e) "")
      then (envs, {| cmk_ContainerIndex := i; cmk_EnvName := ev_Name e;
                     cmk_Name := ev_ConfigMapName e; cmk_Key := ev_ConfigMapKey e |} :: cms, secs)
      else
      if negb (String.eqb (ev_SecretName e) "") || negb (String.eqb (ev_SecretKey e) "")
      then (envs, cms, {| sk_ContainerIndex := i; sk_EnvName := ev_Name e;
                          sk_Name := ev_SecretName e; sk_Key := ev_SecretKey e |} :: secs)
      else ((ev_Name e +:+ "=" +:+ ev_Value e) :: envs, cms, secs)
  end.

Fixpoint host_ports (l : list manifestPort) : list string :=
  match l with
  | [] => []
  | p :: l =>
      if (mp_ContainerPort p =? 0) || (mp_HostPort p =? 0) then host_ports l
      else (itoa (mp_HostPort p) +:+ ":" +:+ itoa (mp_ContainerPort p)) :: host_ports l
  end.

(** The loop over the mounts of volumes: paths of the host and claims. *)
Fixpoint volume_mounts (i : Z) (name : string) (volumeHostPath volumePVC : gmap string string)
    (l : list manifestVolumeMount) : res (list string * list ContainerPVCMountRef) :=
  match l with
  | [] => Ok ([], [])
  | vm :: l =>
      if String.eqb (vm_Name vm) "" || String.eqb (vm_MountPath vm) ""
      then volume_mounts i name volumeHostPath volumePVC l else
      if negb (IsAbs (vm_MountPath vm))
      then Err ("container " +:+ quoted name +:+ ": volumeMount " +:+ quoted (vm_Name vm) +:+
                " mountPath must be absolute") else
      match volumeHostPath !! vm_Name vm with
      | Some hostPath =>
          let m := hostPath +:+ ":" +:+ vm_MountPath vm +:+
                   (if vm_ReadOnly vm then ":ro" else "") in
          '(mounts, pvcs) ← volume_mounts i name volumeHostPath volumePVC l;
          Ok (m :: mounts, pvcs)
      | None =>
          match volumePVC !! vm_Name vm with
          | Some claimName =>
              '(mounts, pvcs) ← volume_mounts i name volumeHostPath volumePVC l;
              Ok (mounts, {| pm_ContainerIndex := i; pm_Name := claimName;
                             pm_MountPath := vm_MountPath vm;
                             pm_ReadOnly := vm_ReadOnly vm |} :: pvcs)
          | None => Err ("container " +:+ quoted name +:+ ": volume " +:+ quoted (vm_Name vm) +:+
                         " not found")
          end
      end
  end.

Definition container_spec (c : containerManifest) (envs mounts : list string)
    : ContainerTemplateSpec :=
  {| ct_Name := c_Name c; Image := c_Image c; ct_Command := c_Command c ++ c_Args c;
     Port := host_ports (c_Ports c); Mount := mounts; Env := envs; CapAdd := c_CapAdd c;
     CapDrop := c_CapDrop c; ct_SecurityProfile := ""; Network := ""; ct_Tty := c_Tty c |}.

(** The loop over the containers: [m] has what the earlier ones gave. *)
Fixpoint build_containers (i : Z) (volumeHostPath volumePVC : gmap string string)
    (l : list containerManifest) (m : PodManifest) : res PodManifest :=
  match l with
  | [] => Ok m
  | c :: l =>
      let '(cmFrom, secFrom) := env_from i (c_EnvFrom c) in
      let '(envs, cmKeys, secKeys) := env_vars i (c_Env c) in
      '(mounts, pvcs) ← volume_mounts i (c_Name c) volumeHostPath volumePVC (c_VolumeMounts c);
      build_containers (i + 1) volumeHostPath volumePVC l
        {| Kind := Kind m; m_Name := m_Name m; m_Namespace := m_Namespace m;
           m_Labels := m_Labels m; m_Annotations := m_Annotations m;
           m_Containers := m_Containers m ++ [container_spec c envs (c_Mount c ++ mounts)];
           ConfigMapEnvFrom := ConfigMapEnvFrom m ++ cmFrom;
           ConfigMapEnvKeys := ConfigMapEnvKeys m ++ cmKeys;
           SecretEnvFrom := SecretEnvFrom m ++ secFrom;
           SecretEnvKeys := SecretEnvKeys m ++ secKeys;
           PVCMounts := PVCMounts m ++ pvcs; m_Rootless := m_Rootless m;
           m_Replicas := m_Replicas m; m_Selector := m_Selector m |}
  end.

(** ** Volumes and documents

    [Stat] is [os.Stat] ([IsDir] of what is there), [MkdirAll] is
    [os.MkdirAll]: a manifest that is read looks at the host and may make
    directories on it. *)
Section decode.
Context {RO : RangeOrder} {St C W : Type}.
#[local] Notation M := (M St C W).
Context (Stat : string -> M bool) (MkdirAll : string -> M unit).

Definition lift {A} (r : res A) : M A := fun w => (r, w).

Definition hostPath_ready (v : manifestVolume) : M unit :=
  let path := v_HostPath v in
  let at_volume := "volume " +:+ quoted (v_Name v) +:+ ": " in
  let not_a_directory := at_volume +:+ "hostPath " +:+ quoted path +:+ " is not a directory" in
  if String.eqb (v_HostPathType v) "" || String.eqb (v_HostPathType v) "Directory" then
    info ← attempt (Stat path);
    match info with
    | Err e | Panic e => fail (at_volume +:+ "hostPath directory " +:+ quoted path +:+
                               " is not available: " +:+ e)
    | Ok isDir => if isDir : bool then mret tt else fail not_a_directory
    end
  else if String.eqb (v_HostPathType v) "DirectoryOrCreate" then
    made ← attempt (MkdirAll path);
    match made with
    | Err e | Panic e => fail (at_volume +:+ "create hostPath directory " +:+ quoted path +:+
                               ": " +:+ e)
    | Ok _ =>
        info ← attempt (Stat path);
        match info with
        | Err e | Panic e => fail (at_volume +:+ "stat hostPath directory " +:+ quoted path +:+
                                   ": " +:+ e)
        | Ok isDir => if isDir : bool then mret tt else fail not_a_directory
        end
    end
  else fail (at_volume +:+ "unsupported hostPath.type " +:+ quoted (v_HostPathType v)).

Fixpoint volume_maps (l : list manifestVolume) (volumeHostPath volumePVC : gmap string string)
    : M (gmap string string * gmap string string) :=
  match l with
  | [] => mret (volumeHostPath, volumePVC)
  | v :: l =>
      let at_volume := "volume " +:+ quoted (v_Name v) +:+ ": " in
      if String.eqb (v_Name v) "" then volume_maps l volumeHostPath volumePVC else
      match volumeHostPath !! v_Name v, volumePVC !! v_Name v with
      | Some _, _ | _, Some _ => fail (at_volume +:+ "duplicate volume name")
      | None, None =>
          if negb (String.eqb (v_HostPath v) "") && negb (String.eqb (v_ClaimName v) "")
          then fail (at_volume +:+ "hostPath and persistentVolumeClaim are mutually exclusive") else
          if negb (String.eqb (v_ClaimName v) "")
          then volume_maps l volumeHostPath (<[v_Name v := v_ClaimName v]> volumePVC) else
          if String.eqb (v_HostPath v) ""
          then fail (at_volume +:+ "only hostPath and persistentVolumeClaim volumes are supported") else
          if negb (IsAbs (v_HostPath v))
          then fail (at_volume +:+ "hostPath.path must be absolute") else
          _ ← hostPath_ready v;
          volume_maps l (<[v_Name v := v_HostPath v]> volumeHostPath) volumePVC
      end
  end.

Definition buildVolumeMaps (volumes : list manifestVolume)
    : M (gmap string string * gmap string string) := volume_maps volumes ∅ ∅.

Definition buildPodManifest (meta : manifestMeta) (podSpec : podManifestSpec) : M PodManifest :=
  '(volumeHostPath, volumePVC) ← buildVolumeMaps (s_Volumes podSpec);
  lift (build_containers 0 volumeHostPath volumePVC (s_Containers podSpec)
    {| Kind := ""; m_Name := meta_Name meta;
       m_Namespace := if String.eqb (meta_Namespace meta) "" then "default"
                      else meta_Namespace meta;
       m_Labels := meta_Labels meta; m_Annotations := meta_Annotations meta; m_Containers := [];
       ConfigMapEnvFrom := []; ConfigMapEnvKeys := []; SecretEnvFrom := []; SecretEnvKeys := [];
       PVCMounts := []; m_Rootless := rootlessFromHostUsers (HostUsers podSpec);
       m_Replicas := 0; m_Selector := ∅ |}).

Definition pod_document (pod : podManifest) : M PodManifest :=
  manifest ← buildPodManifest (p_Metadata pod) (p_Spec pod);
  if String.eqb (m_Name manifest) "" then fail "pod name is required" else
  mret {| Kind := "Pod"; m_Name := m_Name manifest; m_Namespace := m_Namespace manifest;
          m_Labels := m_Labels manifest; m_Annotations := m_Annotations manifest;
          m_Containers := m_Containers manifest; ConfigMapEnvFrom := ConfigMapEnvFrom manifest;
          ConfigMapEnvKeys := ConfigMapEnvKeys manifest; SecretEnvFrom := SecretEnvFrom manifest;
          SecretEnvKeys := SecretEnvKeys manifest; PVCMounts := PVCMounts manifest;
          m_Rootless := m_Rootless manifest; m_Replicas := m_Replicas manifest;
          m_Selector := m_Selector manifest |}.

(** The case of a replica set, and that of a deployment, which differs from it
    in the texts. *)
Definition set_document (kind label : string) (rs : replicaSetManifest) : M PodManifest :=
  let meta := rs_TemplateMetadata rs in
  let meta := {| meta_Name := if String.eqb (meta_Name meta) "" then meta_Name (rs_Metadata rs)
                              else meta_Name meta;
                 meta_Namespace := meta_Namespace meta; meta_Labels := meta_Labels meta;
                 meta_Annotations := meta_Annotations meta |} in
  manifest ← buildPodManifest meta (rs_TemplateSpec rs);
  let replicas := match rs_Replicas rs with Some n => n | None => 1 end in
  if replicas <? 0 then fail "replicas must be >= 0" else
  let selector := match rs_MatchLabels rs with Some l => l | None => m_Labels manifest end in
  if negb (selectorMatchesLabels selector (m_Labels manifest))
  then fail (label +:+ " selector must match template labels") else
  if String.eqb (meta_Name (rs_Metadata rs)) "" then fail (label +:+ " name is required") else
  mret {| Kind := kind; m_Name := meta_Name (rs_Metadata rs);
          m_Namespace := if String.eqb (meta_Namespace (rs_Metadata rs)) "" then "default"
                         else meta_Namespace (rs_Metadata rs);
          m_Labels := m_Labels manifest; m_Annotations := m_Annotations manifest;
          m_Containers := m_Containers manifest; ConfigMapEnvFrom := ConfigMapEnvFrom manifest;
          ConfigMapEnvKeys := ConfigMapEnvKeys manifest; SecretEnvFrom := SecretEnvFrom manifest;
          SecretEnvKeys := SecretEnvKeys manifest; PVCMounts := PVCMounts manifest;
          m_Rootless := m_Rootless manifest; m_Replicas := replicas; m_Selector := selector |}.

Section documents.
Context {Y : Yaml} {TP : YamlType podManifest} {TR : YamlType replicaSetManifest}.

Fixpoint decode_documents (docs : list document) (end_error : option error)
    (result : list PodManifest) : M (list PodManifest) :=
  match docs with
  | [] => match end_error with Some e => fail e | None => mret result end
  | [] :: docs => decode_documents docs end_error result
  | raw :: docs =>
      let kind := raw_kind raw in
      if String.eqb kind "" then fail "kind is required" else
      rawBytes ← lift (Marshal raw);
      if String.eqb kind "Pod" then
        pod ← lift (Unmarshal rawBytes);
        manifest ← pod_document pod;
        decode_documents docs end_error (result ++ [manifest])
      else if String.eqb kind "ReplicaSet" then
        rs ← lift (Unmarshal rawBytes);
        manifest ← set_document "ReplicaSet" "replicaset" rs;
        decode_documents docs end_error (result ++ [manifest])
      else if String.eqb kind "Deployment" then
        deploy ← lift (Unmarshal rawBytes);
        manifest ← set_document "Deployment" "deployment" deploy;
        decode_documents docs end_error (result ++ [manifest])
      else fail ("unsupported kind: " +:+ kind)
  end.

Definition DecodeK8sManifests (body : string) : M (list PodManifest) :=
  let '(docs, end_error) := Decode body in decode_documents docs end_error [].
End documents.
End decode.

(** ** What a manifest that was read has *)

(** Every index that a manifest refers by is one of its containers. *)
Definition indices (m : PodManifest) : list Z :=
  (cmr_ContainerIndex <$> ConfigMapEnvFrom m) ++ (cmk_ContainerIndex <$> ConfigMapEnvKeys m) ++
  (sr_ContainerIndex <$> SecretEnvFrom m) ++ (sk_ContainerIndex <$> SecretEnvKeys m) ++
  (pm_ContainerIndex <$> PVCMounts m).

Definition refs_below (n : Z) (m : PodManifest) : Prop :=
  Forall (fun i => 0 <= i < n) (indices m).

Record manifest_ok (m : PodManifest) : Prop := {
  ok_kind : Kind m ∈ ["Pod"; "ReplicaSet"; "Deployment"];
  ok_name : m_Name m <> "";
  ok_namespace : m_Namespace m <> "";
  ok_replicas : 0 <= m_Replicas m;
  ok_selector : forall k v, m_Selector m !! k = Some v -> default "" (m_Labels m !! k) = v;
  ok_refs : refs_below (Z.of_nat (length (m_Containers m))) m
}.

Lemma volume_mounts_index i name hp pvc l mounts pvcs :
  volume_mounts i name hp pvc l = Ok (mounts, pvcs) ->
  Forall (fun j => j = i) (pm_ContainerIndex <$> pvcs).
Proof.
  revert mounts pvcs. induction l as [|vm l IH]; intros mounts pvcs; simpl;
    [by intros [= <- <-]|].
  destruct (_ || _); [by apply IH|]. destruct (negb _); [done|].
  destruct (hp !! _).
  - intros H. inv_ok. destruct v as [ms ps]. inv_ok. eauto.
  - destruct (pvc !! _); [|done]. intros H. inv_ok. destruct v as [ms ps]. inv_ok.
    constructor; eauto.
Qed.

Lemma env_vars_index i l envs cms secs :
  env_vars i l = (envs, cms, secs) ->
  Forall (fun j => j = i) (cmk_ContainerIndex <$> cms) /\
  Forall (fun j => j = i) (sk_ContainerIndex <$> secs).
Proof.
  revert envs cms secs. induction l as [|e l IH]; intros envs cms secs; simpl;
    [by intros [= <- <- <-]|].
  destruct (env_vars i l) as [[envs' cms'] secs']. destruct (IH _ _ _ eq_refl) as [H1 H2].
  repeat case_match; intros [= <- <- <-]; split; try done; by constructor.
Qed.

Lemma env_from_index i l :
  Forall (fun j => j = i) (cmr_ContainerIndex <$> (env_from i l).1) /\
  Forall (fun j => j = i) (sr_ContainerIndex <$> (env_from i l).2).
Proof.
  unfold env_from. simpl. induction l as [|e l [IH1 IH2]]; [done|]. simpl.
  split; case_match; try done; by constructor.
Qed.

(** The fields that the loop over the containers leaves alone. *)
Definition same_meta (m m' : PodManifest) : Prop :=
  Kind m' = Kind m /\ m_Name m' = m_Name m /\ m_Namespace m' = m_Namespace m /\
  m_Labels m' = m_Labels m /\ m_Annotations m' = m_Annotations m /\
  m_Rootless m' = m_Rootless m /\ m_Replicas m' = m_Replicas m /\ m_Selector m' = m_Selector m.

Lemma build_containers_ok hp pvc l i m m' :
  i = Z.of_nat (length (m_Containers m)) -> refs_below i m ->
  build_containers i hp pvc l m = Ok m' ->
  refs_below (Z.of_nat (length (m_Containers m'))) m' /\ same_meta m m' /\
  exists specs, m_Containers m' = m_Containers m ++ specs /\ (ct_Name <$> specs) = (c_Name <$> l).
Proof.
  revert i m. induction l as [|c l IH]; intros i m Hi Hm; cbn [build_containers].
  { intros [= <-]. subst i. repeat split; try done. exists []. by rewrite app_nil_r. }
  destruct (env_from i (c_EnvFrom c)) as [cmFrom secFrom] eqn:Ef.
  destruct (env_vars i (c_Env c)) as [[envs cmKeys] secKeys] eqn:Ev.
  intros ([mounts pvcs] & Hv & H)%res_bind_ok.
  destruct (env_from_index i (c_EnvFrom c)) as [F1 F2]. rewrite Ef in F1, F2.
  destruct (env_vars_index _ _ _ _ _ Ev) as [F3 F4]. apply volume_mounts_index in Hv as F5.
  simpl in F1, F2. apply IH in H as (Hr & Hs & specs & Hspecs & Hn).
  - split_and!; [done| |].
    + destruct Hs as (? & ? & ? & ? & ? & ? & ? & ?). by repeat split.
    + exists (container_spec c envs (c_Mount c ++ mounts) :: specs).
      rewrite Hspecs. split; [simpl; by rewrite <- app_assoc|]. by rewrite fmap_cons, Hn.
  - simpl. rewrite length_app. simpl. lia.
  - unfold refs_below, indices in *. simpl. rewrite !fmap_app, !Forall_app in *.
    assert (Hle : forall js, Forall (fun j => 0 <= j < i) js -> Forall (fun j => 0 <= j < i + 1) js)
      by (intros js Hj; eapply Forall_impl; [exact Hj|]; simpl; intros; lia).
    assert (Heq : forall js, Forall (fun j => j = i) js -> Forall (fun j => 0 <= j < i + 1) js)
      by (intros js Hj; eapply Forall_impl; [exact Hj|]; simpl; intros; lia).
    destruct Hm as (? & ? & ? & ? & ?). repeat split; auto.
Qed.

Lemma selectorMatchesLabels_spec `{RangeOrder} selector labels :
  selectorMatchesLabels selector labels = true <->
  forall k v, selector !! k = Some v -> default "" (labels !! k) = v.
Proof.
  unfold selectorMatchesLabels. rewrite forallb_forall. split.
  - intros Hf k v Hk. apply elem_of_range_map, list_elem_of_In in Hk.
    apply Hf in Hk. by apply String.eqb_eq in Hk.
  - intros Hf [k v] Hk. apply list_elem_of_In, elem_of_range_map in Hk.
    apply String.eqb_eq. by apply Hf.
Qed.

Section decode_theory.
Context {RO : RangeOrder} {St C W : Type}.
Context (Stat : string -> M St C W bool) (MkdirAll : string -> M St C W unit).
Context {Y : Yaml} {TP : YamlType podManifest} {TR : YamlType replicaSetManifest}.

Lemma buildPodManifest_ok meta spec w m w' :
  buildPodManifest Stat MkdirAll meta spec w = (Ok m, w') ->
  refs_below (Z.of_nat (length (m_Containers m))) m /\ m_Name m = meta_Name meta /\
  m_Namespace m <> "" /\ m_Replicas m = 0 /\ m_Selector m = ∅ /\
  m_Labels m = meta_Labels meta /\
  (ct_Name <$> m_Containers m) = (c_Name <$> s_Containers spec).
Proof.
  unfold buildPodManifest. intros H. apply bind_ok in H as ([hp pvc] & w1 & _ & H).
  unfold lift in H. injection H as H _. apply build_containers_ok in H; [|done|by constructor].
  destruct H as (Hr & (_ & Hn & Hns & Hl & _ & _ & Hrep & Hsel) & specs & Hspecs & Hnames).
  simpl in *. rewrite Hspecs, Hn, Hns, Hrep, Hsel, Hl. split_and!; try done.
  - by rewrite <- Hspecs.
  - by destruct (String.eqb_spec (meta_Namespace meta) "") as [|].
Qed.

Lemma pod_document_ok pod w m w' :
  pod_document Stat MkdirAll pod w = (Ok m, w') ->
  manifest_ok m /\ (ct_Name <$> m_Containers m) = (c_Name <$> s_Containers (p_Spec pod)).
Proof.
  unfold pod_document. intros H. apply bind_ok in H as (m1 & w1 & H1 & H).
  apply buildPodManifest_ok in H1 as (Hr & Hn & Hns & Hrep & Hsel & Hl & Hc).
  destruct (String.eqb_spec (m_Name m1) ""); [done|]. injection H as <- _.
  split; [|done]. split; simpl; try done; [by left|lia|].
  intros k v. by rewrite Hsel.
Qed.

Lemma set_document_ok kind label rs w m w' :
  kind ∈ ["Pod"; "ReplicaSet"; "Deployment"] ->
  set_document Stat MkdirAll kind label rs w = (Ok m, w') ->
  manifest_ok m /\ (ct_Name <$> m_Containers m) = (c_Name <$> s_Containers (rs_TemplateSpec rs)).
Proof.
  intros Hk. unfold set_document. intros H. apply bind_ok in H as (m1 & w1 & H1 & H).
  apply buildPodManifest_ok in H1 as (Hr & _ & _ & _ & _ & Hl & Hc).
  set (n := match rs_Replicas rs with Some _ => _ | None => _ end) in *.
  destruct (Z.ltb_spec n 0); [done|].
  destruct (selectorMatchesLabels _ _) eqn:Hsel; [|done]. simpl in H.
  destruct (String.eqb_spec (meta_Name (rs_Metadata rs)) ""); [done|]. injection H as <- _.
  split; [|done]. split; simpl; try done.
  - by destruct (String.eqb_spec (meta_Namespace (rs_Metadata rs)) "").
  - by apply selectorMatchesLabels_spec.
Qed.

Lemma decode_documents_ok docs e result w l w' :
  Forall manifest_ok result ->
  decode_documents Stat MkdirAll docs e result w = (Ok l, w') -> Forall manifest_ok l.
Proof.
  revert result w. induction docs as [|raw docs IH]; intros result w Hr.
  { simpl. destruct e; [done|]. by intros [= <- _]. }
  destruct raw as [|kv raw]; [by apply IH|]. cbn [decode_documents].
  destruct (String.eqb _ ""); [done|]. intros H. apply bind_ok in H as (bytes & w1 & _ & H).
  destruct (String.eqb _ "Pod").
  { apply bind_ok in H as (pod & w2 & _ & H). apply bind_ok in H as (m & w3 & Hm & H).
    apply pod_document_ok in Hm as [Hm _]. eapply IH; [|done]. apply Forall_app; auto. }
  destruct (String.eqb _ "ReplicaSet").
  { apply bind_ok in H as (rs & w2 & _ & H). apply bind_ok in H as (m & w3 & Hm & H).
    apply set_document_ok in Hm as [Hm _]; [|set_solver]. eapply IH; [|done]. apply Forall_app; auto. }
  destruct (String.eqb _ "Deployment"); [|done].
  apply bind_ok in H as (d & w2 & _ & H). apply bind_ok in H as (m & w3 & Hm & H).
  apply set_document_ok in Hm as [Hm _]; [|set_solver]. eapply IH; [|done]. apply Forall_app; auto.
Qed.

(** Every manifest that is read has a name, a namespace, a kind that can be
    applied and a number of replicas that is not negative; its selector selects
    its own labels, and its references to config maps, secrets and volume claims
    are of containers that it has. *)
Theorem decoded_manifests_ok body w l w' :
  DecodeK8sManifests Stat MkdirAll body w = (Ok l, w') -> Forall manifest_ok l.
Proof.
  unfold DecodeK8sManifests. destruct (Decode body) as [docs e].
  apply decode_documents_ok. constructor.
Qed.
End decode_theory.
