(* ===== verification/NetworkPolicyTheory.v ===== *)
(** * The network policy controller is right, and late

    Which policies the service derives from the objects and the pods, that a
    reconciliation brings the table to them and is idempotent, and that the
    policies of a new object are not committed. *)

From Stdlib Require Import ZArith Lia Ascii String.
From stdpp Require Import base gmap strings list sorting.
From S2P Require Import Prelude.
From S2P Require Ipam.
From S2P Require PolicyTheory.
From S2P Require Import PolicyPackets.
From S2P Require Import GoString.
From S2P Require Import GoSort.
From S2P Require Csm.
From S2P Require Psm.
From S2P Require Npm.
From S2P Require Import Netpol.
From S2P Require Import World.
From S2P Require PodService.
From S2P Require Import PolicyService.
From S2P Require Import NetworkPolicy.
Open Scope Z_scope.

(** ** What the service computes, as functions of the tables *)
Section spec.
Context {RO : RangeOrder} {SS : SliceSort} (cs : Csm.ContainerState) (ps : Psm.PodState).

Definition containers_of (podId : string) : list Csm.ContainerInfo :=
  List.filter (fun c => String.eqb (Csm.PodId c) podId) (range_values (Csm.Containers cs)).

Definition expected_running (p : Psm.PodInfo) (running : gset string) : bool :=
  String.eqb (Psm.TemplateId p) "" ||
  match Psm.PodTemplates ps !! Psm.TemplateId p with
  | Some tpl => members_running (Psm.PodId p) (Psm.pt_Containers (Psm.ti_Spec tpl)) running
  | None => false
  end.

(** The infra container of a pod that is ready. *)
Definition ready_infra (p : Psm.PodInfo) : option Csm.ContainerInfo :=
  if negb (String.eqb (Psm.State p) Psm.PodStateRunning) || Psm.StoppedByUser p then None else
  match scan_containers (containers_of (Psm.PodId p)) None ∅ 0 with
  | Some (Some infra, running, members) =>
      if String.eqb (Csm.ContainerId infra) "" || (members =? 0) then None else
      if expected_running p running then Some infra else None
  | _ => None
  end.

Definition endpoint_of (p : Psm.PodInfo) : option podEndpoint :=
  (fun infra => {| pod := p; container := infra |}) <$> ready_infra p.

(** The ready pods of a namespace that a selector selects. *)
Definition endpoints (namespace : string) (labels : gmap string string) : list podEndpoint :=
  sort_slice endpoint_less (omap endpoint_of
    (List.filter (fun p => String.eqb (Psm.Namespace p) namespace &&
                           labelsMatch (Psm.Labels p) labels)
       (range_values (Psm.Pods ps)))).

Definition selected (m : Manifest) : list podEndpoint :=
  endpoints (m_Namespace m) (m_PodSelector m).
Definition peers (m : Manifest) (rule : Rule) : list podEndpoint :=
  endpoints (m_Namespace m) (r_PodSelector rule).

Definition rule_pairs (m : Manifest) : list (Rule * (podEndpoint * podEndpoint)) :=
  (rule ← m_Ingress m; pair rule <$> (dst ← selected m; src ← peers m rule; [(src, dst)])) ++
  (rule ← m_Egress m; pair rule <$> (src ← selected m; dst ← peers m rule; [(src, dst)])).

(** The connections that a manifest asks for. *)
Definition wanted (m : Manifest) (rule : Rule) (src dst : podEndpoint) : Prop :=
  Csm.ContainerId (container src) <> Csm.ContainerId (container dst) /\
  ((rule ∈ m_Ingress m /\ dst ∈ selected m /\ src ∈ peers m rule) \/
   (rule ∈ m_Egress m /\ src ∈ selected m /\ dst ∈ peers m rule)).

Lemma rule_pairs_elem m rule src dst :
  (rule, (src, dst)) ∈ rule_pairs m <->
  (rule ∈ m_Ingress m /\ dst ∈ selected m /\ src ∈ peers m rule) \/
  (rule ∈ m_Egress m /\ src ∈ selected m /\ dst ∈ peers m rule).
Proof.
  unfold rule_pairs. rewrite elem_of_app. split.
  - intros [H|H]; set_unfold in H; naive_solver.
  - intros [H|H]; [left|right]; set_unfold; naive_solver.
Qed.

(** The set of policies without their identifiers: the first rule that gives a
    key decides. *)
Definition add_pure (id : string) (m : Manifest) (acc : gmap string Npm.Policy)
    (x : Rule * (podEndpoint * podEndpoint)) : gmap string Npm.Policy :=
  let '(rule, (src, dst)) := x in
  if String.eqb (Csm.ContainerId (container src)) (Csm.ContainerId (container dst)) then acc else
  match acc !! backend_key src dst rule with
  | Some _ => acc
  | None => <[backend_key src dst rule := backend_policy "" id m rule src dst]> acc
  end.

Definition pure_set (id : string) (m : Manifest) : gmap string Npm.Policy :=
  fold_left (add_pure id m) (rule_pairs m) ∅.

Definition state_keys (l : list Npm.Policy) : list string := policyStateKey <$> l.
Definition info_keys (info : NetworkPolicyInfo) : list string :=
  state_keys (map_to_list (pure_set (NetworkPolicyId info) (manifestFromInfo info))).*2.

(** The keys of the policies that the objects of a table ask for, sorted. *)
Definition desired_keys (np : NetworkPolicyState) : list string :=
  sort_Strings (info ← range_values (NetworkPolicies np); info_keys info).
End spec.

(** A policy without its identifier. *)
Definition erase (p : Npm.Policy) : Npm.Policy :=
  {| Npm.Id := ""; Npm.Status := Npm.Status p; Npm.Reason := Npm.Reason p;
     Npm.Source := Npm.Source p; Npm.Destination := Npm.Destination p;
     Npm.Protocol := Npm.Protocol p; Npm.DestPort := Npm.DestPort p;
     Npm.Comment := Npm.Comment p; Npm.ManagedBy := Npm.ManagedBy p;
     Npm.OwnerKind := Npm.OwnerKind p; Npm.OwnerNS := Npm.OwnerNS p;
     Npm.OwnerName := Npm.OwnerName p; Npm.OwnerId := Npm.OwnerId p |}.

Section theory.
Context {RO : RangeOrder} {SS : SliceSort} {X : Type} {P : PolicyPeers X}.
#[local] Notation world := (world state policy_call (tables X)).
#[local] Notation M := (M state policy_call (tables X)).
Implicit Types w : world.
Context (cs : Csm.ContainerState) (ps : Psm.PodState).

(** No store fault, over the container and pod tables [cs] and [ps]. *)
Record calm (w : world) : Prop := {
  calm_faults : faults w = [];
  calm_csm : csm (inner w) = cs;
  calm_psm : psm (inner w) = ps
}.

(** Only identifiers and times were drawn. *)
Record only_ids (w w' : world) : Prop := {
  oi_store : store w' = store w;
  oi_faults : faults w' = faults w;
  oi_trace : trace w' = trace w;
  oi_inner : inner w' = inner w
}.
#[export] Instance only_ids_preorder : PreOrder only_ids.
Proof. split; [by intros w; split|]. intros w1 w2 w3 [? ? ? ?] [? ? ? ?]. split; congruence. Qed.

Lemma calm_only_ids w w' : calm w -> only_ids w w' -> calm w'.
Proof. intros [? ? ?] [? ? ? Hi]. split; rewrite ?Hi; congruence. Qed.

(** *** Reading the pods *)

Lemma ready_run p w : calm w -> readyInfraContainer p w = (Ok (ready_infra cs ps p), w).
Proof.
  intros [Hf Hc Hp]. unfold readyInfraContainer, ready_infra.
  destruct (_ || _) eqn:E1; [done|].
  rewrite (M_bind_eq _ _ w (containers_of cs (Psm.PodId p)) w).
  2:{ unfold GetContainersByPodId. rewrite peek_run by done. by rewrite Hc. }
  destruct (scan_containers _ _ _ _) as [[[[infra|] running] members]|]; [|done..].
  destruct (String.eqb (Csm.ContainerId infra) "" || (members =? 0)); [done|].
  rewrite (M_bind_eq _ _ w (expected_running ps p running) w); [done|].
  unfold expectedMembersRunning, expected_running.
  destruct (String.eqb (Psm.TemplateId p) ""); [done|].
  unfold mbind, M_bind, attempt. rewrite peek_run, Hp by done. unfold Psm.GetPodTemplate.
  by destruct (Psm.PodTemplates ps !! Psm.TemplateId p).
Qed.

Lemma select_loop_run ns labels l w :
  calm w -> select_loop ns labels l w =
    (Ok (omap (endpoint_of cs ps) (List.filter (fun p => String.eqb (Psm.Namespace p) ns &&
            labelsMatch (Psm.Labels p) labels) l)), w).
Proof.
  intros Hw. induction l as [|p l IH]; [done|]. cbn [select_loop List.filter].
  destruct (String.eqb (Psm.Namespace p) ns); [|done].
  destruct (labelsMatch (Psm.Labels p) labels); [|done]. cbn [negb orb andb].
  rewrite (M_bind_eq _ _ _ _ _ (ready_run p w Hw)), (M_bind_eq _ _ _ _ _ IH).
  cbn. unfold endpoint_of. by destruct (ready_infra cs ps p).
Qed.

Lemma selectPods_run ns labels w :
  calm w -> selectPods ns labels w = (Ok (endpoints cs ps ns labels), w).
Proof.
  intros Hw. pose proof Hw as [Hf Hc Hp]. unfold selectPods.
  rewrite (M_bind_eq _ _ w (range_values (Psm.Pods ps)) w).
  2:{ unfold GetPodList. rewrite peek_run by done. by rewrite Hp. }
  by rewrite (M_bind_eq _ _ _ _ _ (select_loop_run ns labels _ w Hw)).
Qed.

(** *** Collecting the policies *)

Lemma add_run id m rule sd set w :
  calm w -> exists set' w', addBackendPolicy id m rule sd set w = (Ok set', w') /\
    only_ids w w' /\ erase <$> set' = add_pure id m (erase <$> set) (rule, sd).
Proof.
  intros Hw. destruct sd as [src dst]. unfold addBackendPolicy, add_pure.
  destruct (String.eqb _ _); [by exists set, w|]. rewrite lookup_fmap.
  destruct (set !! backend_key src dst rule) as [q|]; [by exists set, w|]. simpl.
  unfold mbind, M_bind, new_id. destruct (ids w) as [|i is'];
    (eexists _, _; split; [reflexivity|]; split; [by split|by rewrite fmap_insert]).
Qed.

Lemma accumulate_run {A} (f : A -> gmap string Npm.Policy -> M (gmap string Npm.Policy))
    (g : gmap string Npm.Policy -> A -> gmap string Npm.Policy) l :
  (forall x set w, calm w -> exists set' w', f x set w = (Ok set', w') /\
     only_ids w w' /\ erase <$> set' = g (erase <$> set) x) ->
  forall set w, calm w -> exists set' w', accumulate f l set w = (Ok set', w') /\
    only_ids w w' /\ erase <$> set' = fold_left g l (erase <$> set).
Proof.
  intros Hf. induction l as [|x l IH]; intros set w Hw; simpl.
  { by exists set, w. }
  destruct (Hf x set w Hw) as (set1 & w1 & H1 & Ho1 & E1).
  rewrite (M_bind_eq _ _ _ _ _ H1).
  destruct (IH set1 w1) as (set2 & w2 & H2 & Ho2 & E2); [by eapply calm_only_ids|].
  exists set2, w2. split; [done|]. split; [by etrans|]. by rewrite E2, E1.
Qed.

Lemma fold_left_bind {A B C} (h : C -> B -> C) (k : A -> list B) l (c : C) :
  fold_left (fun c x => fold_left h (k x) c) l c = fold_left h (l ≫= k) c.
Proof. revert c. induction l as [|x l IH]; intros c; simpl; [done|]. by rewrite fold_left_app, IH. Qed.

Lemma fold_left_fmap {A B C} (h : C -> B -> C) (k : A -> B) l (c : C) :
  fold_left h (k <$> l) c = fold_left (fun c x => h c (k x)) l c.
Proof. revert c. by induction l as [|x l IH]; intros c; simpl. Qed.

Lemma rule_run id m rule (pairs : list (podEndpoint * podEndpoint)) labels
    (order : list podEndpoint -> list (podEndpoint * podEndpoint)) set w :
  calm w -> exists set' w',
    (l ← selectPods (m_Namespace m) labels;
     accumulate (addBackendPolicy id m rule) (order l) set) w = (Ok set', w') /\
    only_ids w w' /\
    erase <$> set' = fold_left (add_pure id m)
      (pair rule <$> order (endpoints cs ps (m_Namespace m) labels)) (erase <$> set).
Proof.
  intros Hw. rewrite (M_bind_eq _ _ _ _ _ (selectPods_run _ _ w Hw)). rewrite fold_left_fmap.
  by apply accumulate_run; [intros; apply add_run|].
Qed.

Lemma generate_run id m w :
  calm w -> exists l w', generateBackendPolicies id m w = (Ok l, w') /\ only_ids w w' /\
    exists set, l = sortPolicies (range_values set) /\ erase <$> set = pure_set cs ps id m.
Proof.
  intros Hw. unfold generateBackendPolicies.
  rewrite (M_bind_eq _ _ _ _ _ (selectPods_run _ _ w Hw)).
  destruct (accumulate_run (ingress_rule id m (selected cs ps m))
    (fun acc rule => fold_left (add_pure id m)
       (pair rule <$> (dst ← selected cs ps m; src ← peers cs ps m rule; [(src, dst)])) acc)
    (m_Ingress m)) with (set := (∅ : gmap string Npm.Policy)) (w := w)
    as (set1 & w1 & H1 & Ho1 & E1); [|done|].
  { intros rule set w0 Hw0. unfold ingress_rule.
    by apply (rule_run id m rule [] _ (fun l => dst ← selected cs ps m; src ← l; [(src, dst)])). }
  fold (selected cs ps m). rewrite (M_bind_eq _ _ _ _ _ H1).
  assert (calm w1) as Hw1 by by eapply calm_only_ids.
  destruct (accumulate_run (egress_rule id m (selected cs ps m))
    (fun acc rule => fold_left (add_pure id m)
       (pair rule <$> (src ← selected cs ps m; dst ← peers cs ps m rule; [(src, dst)])) acc)
    (m_Egress m)) with (set := set1) (w := w1)
    as (set2 & w2 & H2 & Ho2 & E2); [|done|].
  { intros rule set w0 Hw0. unfold egress_rule.
    by apply (rule_run id m rule [] _ (fun l => src ← selected cs ps m; dst ← l; [(src, dst)])). }
  rewrite (M_bind_eq _ _ _ _ _ H2). eexists _, w2. split; [reflexivity|]. split; [by etrans|].
  exists set2. split; [done|]. rewrite E2, E1, fmap_empty, !fold_left_bind.
  unfold pure_set, rule_pairs. by rewrite fold_left_app.
Qed.
(** *** The set of policies *)

Lemma pure_fold id m l acc key p :
  fold_left (add_pure id m) l acc !! key = Some p ->
  acc !! key = Some p \/ exists rule src dst, (rule, (src, dst)) ∈ l /\
    Csm.ContainerId (container src) <> Csm.ContainerId (container dst) /\
    key = backend_key src dst rule /\ p = backend_policy "" id m rule src dst.
Proof.
  revert acc. induction l as [|[rule [src dst]] l IH]; intros acc H; simpl in H; [by left|].
  apply IH in H as [H|(r & s & d & Hin & H)];
    [|right; exists r, s, d; split; [by right|done]].
  unfold add_pure in H. destruct (String.eqb_spec (Csm.ContainerId (container src))
    (Csm.ContainerId (container dst))) as [|Hne]; [by left|].
  destruct (acc !! backend_key src dst rule); [by left|].
  destruct (decide (key = backend_key src dst rule)) as [->|Hk].
  - rewrite lookup_insert_eq in H. injection H as <-. right. exists rule, src, dst.
    split; [by left|done].
  - rewrite lookup_insert_ne in H by done. by left.
Qed.

Lemma pure_fold_mono id m l acc key p :
  acc !! key = Some p -> fold_left (add_pure id m) l acc !! key = Some p.
Proof.
  revert acc. induction l as [|[rule [src dst]] l IH]; intros acc H; simpl; [done|].
  apply IH. unfold add_pure. destruct (String.eqb _ _); [done|].
  destruct (acc !! backend_key src dst rule) eqn:E; [done|].
  rewrite lookup_insert_ne; [done|]. congruence.
Qed.

Lemma pure_fold_complete id m l acc rule src dst :
  (rule, (src, dst)) ∈ l ->
  Csm.ContainerId (container src) <> Csm.ContainerId (container dst) ->
  is_Some (fold_left (add_pure id m) l acc !! backend_key src dst rule).
Proof.
  revert acc. induction l as [|x l IH]; intros acc Hin Hne; [by apply elem_of_nil in Hin|].
  apply elem_of_cons in Hin as [<-|Hin]; [|by apply IH]. simpl.
  rewrite (proj2 (String.eqb_neq _ _) Hne).
  destruct (acc !! backend_key src dst rule) as [q|] eqn:E.
  - exists q. by apply pure_fold_mono.
  - eexists. apply pure_fold_mono, lookup_insert_eq.
Qed.

Lemma state_key_erase p : policyStateKey (erase p) = policyStateKey p.
Proof. done. Qed.

Lemma erased_values (set : gmap string Npm.Policy) :
  erase <$> range_values set ≡ₚ (map_to_list (erase <$> set)).*2.
Proof.
  unfold range_values. rewrite range_map_perm, map_to_list_fmap.
  rewrite <- !list_fmap_compose. done.
Qed.

Lemma generated_keys set :
  state_keys (sortPolicies (range_values set)) ≡ₚ state_keys (map_to_list (erase <$> set)).*2.
Proof.
  unfold state_keys, sortPolicies. rewrite sort_slice_perm, <- erased_values.
  rewrite <- list_fmap_compose. apply reflexive_eq, list_fmap_ext. done.
Qed.

Definition owned (p : Npm.Policy) : bool := String.eqb (Npm.OwnerKind p) networkPolicyOwnerKind.

Lemma generated_owned id m set p :
  erase <$> set = pure_set cs ps id m -> p ∈ range_values set -> owned p = true.
Proof.
  intros E (kp & -> & Hkp)%list_elem_of_fmap. destruct kp as [k p].
  apply elem_of_range_map in Hkp.
  assert (pure_set cs ps id m !! k = Some (erase p)) as H by by rewrite <- E, lookup_fmap, Hkp.
  apply pure_fold in H as [H|(rule & src & dst & _ & _ & _ & H)]; [by rewrite lookup_empty in H|].
  unfold owned. change (Npm.OwnerKind (k, p).2) with (Npm.OwnerKind (erase p)). by rewrite H.
Qed.

Lemma generate_all_run infos desired gen w :
  calm w -> exists l gen' w', generate_all infos desired gen w = (Ok (desired ++ l, gen'), w') /\
    only_ids w w' /\ state_keys l ≡ₚ infos ≫= info_keys cs ps /\ Forall (fun p => owned p = true) l.
Proof.
  revert desired gen w. induction infos as [|info infos IH]; intros desired gen w Hw; simpl.
  { exists [], gen, w. by rewrite app_nil_r. }
  destruct (generate_run (NetworkPolicyId info) (manifestFromInfo info) w Hw)
    as (l & w1 & H1 & Ho1 & set & -> & E). rewrite (M_bind_eq _ _ _ _ _ H1).
  edestruct IH as (l2 & gen2 & w2 & -> & Ho2 & Hk & Hown); [by eapply calm_only_ids|].
  eexists _, gen2, w2. rewrite <- (assoc_L (++)). split; [reflexivity|]. split; [by etrans|].
  split.
  - unfold state_keys at 1. rewrite fmap_app. fold (state_keys l2) 
      (state_keys (sortPolicies (range_values set))). rewrite Hk, generated_keys, E. done.
  - apply Forall_app. split; [|done]. apply Forall_forall. intros p Hp.
    unfold sortPolicies in Hp. rewrite sort_slice_perm in Hp. by eapply generated_owned.
Qed.
(** *** Comparing with the table *)

Lemma equalPolicySets_spec a b :
  equalPolicySets a b = bool_decide (state_keys a = state_keys b).
Proof.
  unfold equalPolicySets. apply eq_true_iff_eq.
  rewrite andb_true_iff, !bool_decide_eq_true, forallb_forall. unfold state_keys. split.
  - intros [Hlen H]. apply list_eq_same_length with (length a); rewrite ?length_fmap; [done..|].
    intros i x y Hi. rewrite !list_lookup_fmap. intros Hx Hy.
    apply fmap_Some in Hx as (p & Hp & ->). apply fmap_Some in Hy as (q & Hq & ->).
    apply String.eqb_eq, (H (p, q)), list_elem_of_In, list_elem_of_lookup. exists i.
    by apply lookup_zip_Some.
  - intros H. split; [by rewrite <- (length_fmap policyStateKey a), H, length_fmap|].
    intros [p q] Hin. apply list_elem_of_In, list_elem_of_lookup in Hin as [i Hi].
    apply lookup_zip_Some in Hi as [Hp Hq]. apply String.eqb_eq.
    assert (Some (policyStateKey p) = Some (policyStateKey q)) as Heq; [|by injection Heq].
    change (policyStateKey (p, q).1) with (policyStateKey p).
    rewrite <- (fmap_Some_2 _ _ _ Hp), <- (fmap_Some_2 _ _ _ Hq), <- !list_lookup_fmap.
    by rewrite H.
Qed.

Lemma sorted_keys l : state_keys (sortPolicies l) = sort_Strings (state_keys l).
Proof. apply sort_by_key. Qed.

Lemma sort_Strings_perm l k : l ≡ₚ k -> sort_Strings l = sort_Strings k.
Proof.
  intros H. apply (StronglySorted_unique string_le); unfold sort_Strings.
  - apply StronglySorted_merge_sort; apply _.
  - apply StronglySorted_merge_sort; apply _.
  - by rewrite !merge_sort_Permutation.
Qed.

(** The objects without what the controller writes into them. *)
Definition objects (np : NetworkPolicyState) : gmap string NetworkPolicyInfo :=
  (fun info => set_GeneratedRuleIds info []) <$> NetworkPolicies np.

Lemma desired_objects np np' : objects np = objects np' -> desired_keys cs ps np = desired_keys cs ps np'.
Proof.
  assert (forall np, desired_keys cs ps np =
    sort_Strings (info ← (map_to_list (objects np)).*2; info_keys cs ps info)) as H.
  { intros n. apply sort_Strings_perm. unfold objects. rewrite map_to_list_fmap.
    unfold range_values. rewrite range_map_perm. rewrite <- list_fmap_compose.
    induction (map_to_list (NetworkPolicies n)) as [|[k v] l IH]; [done|]. simpl.
    by rewrite IH. }
  intros E. by rewrite !H, E.
Qed.

Lemma objects_keyed np np' :
  objects np = objects np' -> keyed NetworkPolicyId (NetworkPolicies np) ->
  keyed NetworkPolicyId (NetworkPolicies np').
Proof.
  intros E Hk k v Hv. assert (objects np !! k = Some (set_GeneratedRuleIds v [])) as H
    by (rewrite E; unfold objects; by rewrite lookup_fmap, Hv).
  unfold objects in H. rewrite lookup_fmap in H. apply fmap_Some in H as (u & Hu & Heq).
  apply Hk in Hu. rewrite <- Hu. exact (f_equal NetworkPolicyId Heq).
Qed.

Lemma update_generated_run gen infos w :
  calm w -> (forall info, info ∈ infos ->
    is_Some (NetworkPolicies (netpol (store w)) !! NetworkPolicyId info)) ->
  exists w', update_generated gen infos w = (Ok tt, w') /\
    calm w' /\ trace w' = trace w /\ inner w' = inner w /\ npm (store w') = npm (store w) /\
    objects (netpol (store w')) = objects (netpol (store w)).
Proof.
  revert w. induction infos as [|info infos IH]; intros w Hw Hin; simpl; [by exists w|].
  destruct (Hin info) as [i Hi]; [by left|].
  set (is' := sort_Strings (default [] (gen !! NetworkPolicyId info))).
  set (np' := set_NetworkPolicies (netpol (store w))
    (<[NetworkPolicyId info := set_GeneratedRuleIds i is']> (NetworkPolicies (netpol (store w))))).
  set (w1 := set_store {| netpol := np'; npm := npm (store w) |} w).
  rewrite (M_bind_eq _ _ w tt w1).
  2:{ unfold on_netpol. rewrite txn_run by apply Hw. unfold UpdateGeneratedRuleIds, update_entry.
      by rewrite Hi. }
  destruct (IH w1) as (w' & -> & H1 & H2 & H3 & H4 & H5).
  - by destruct Hw.
  - intros info' Hin'. simpl. rewrite lookup_insert_is_Some'. right. apply Hin. by right.
  - exists w'. split; [done|]. split; [done|]. split; [done|]. split; [done|]. split; [done|].
    rewrite H5. unfold objects. simpl. rewrite fmap_insert. simpl.
    rewrite insert_id; [done|]. rewrite lookup_fmap, Hi. simpl. by destruct i.
Qed.
(** *** Reconciliation *)

Definition ew (st : state) : list Npm.Policy := Npm.EastWestPolicy (Npm.Policies (npm st)).
(** The keys of the policies that network policies own, sorted. *)
Definition current_keys (st : state) : list string :=
  sort_Strings (state_keys (List.filter owned (ew st))).
Definition foreign (st : state) : list Npm.Policy :=
  List.filter (fun p => negb (owned p)) (ew st).

(** What a reconciliation may change. *)
Record reconciled (w w' : world) : Prop := {
  rc_calm : calm w';
  rc_trace : trace w' = trace w;
  rc_inner : inner w' = inner w;
  rc_objects : objects (netpol (store w')) = objects (netpol (store w));
  rc_foreign : foreign (store w') = foreign (store w);
  rc_obs : Npm.NorthSouthObservePolicy (Npm.Policies (npm (store w'))) =
           Npm.NorthSouthObservePolicy (Npm.Policies (npm (store w)));
  rc_enf : Npm.NorthSouthEnforcePolicy (Npm.Policies (npm (store w'))) =
           Npm.NorthSouthEnforcePolicy (Npm.Policies (npm (store w)));
  rc_rule : Npm.DefaultRule (npm (store w')) = Npm.DefaultRule (npm (store w))
}.

Lemma filter_app_split (l k : list Npm.Policy) :
  Forall (fun p => owned p = true) k ->
  List.filter owned (List.filter (fun p => negb (owned p)) l ++ k) = k /\
  List.filter (fun p => negb (owned p)) (List.filter (fun p => negb (owned p)) l ++ k) =
    List.filter (fun p => negb (owned p)) l.
Proof.
  intros Hk. rewrite !List.filter_app.
  rewrite (Npm.filter_all owned k), (Npm.filter_none (fun p => negb (owned p)) k).
  - rewrite Npm.filter_idem, app_nil_r. rewrite Npm.filter_none; [done|].
    intros p Hp. apply list_elem_of_In, filter_In in Hp as [_ Hp]. by apply negb_true_iff.
  - intros p Hp. rewrite Forall_forall in Hk. by rewrite Hk.
  - intros p Hp. rewrite Forall_forall in Hk. by rewrite Hk.
Qed.

Lemma ReconcileAll_run w :
  calm w -> keyed NetworkPolicyId (NetworkPolicies (netpol (store w))) ->
  let same := bool_decide (current_keys (store w) = desired_keys cs ps (netpol (store w))) in
  exists w', ReconcileAll w = (Ok (negb same), w') /\ reconciled w w' /\
    (if same then store w' = store w
     else current_keys (store w') = desired_keys cs ps (netpol (store w))).
Proof.
  intros Hw Hk same. unfold ReconcileAll.
  set (infos := range_values (NetworkPolicies (netpol (store w)))).
  rewrite (M_bind_eq _ _ w infos w) by (unfold read_netpol; by rewrite read_run by apply Hw).
  destruct (generate_all_run (sortNetworkPolicies infos) [] ∅ w Hw)
    as (l & gen & w1 & H1 & Ho & Hkeys & Hown).
  rewrite (M_bind_eq _ _ _ _ _ H1). simpl app.
  assert (calm w1) as Hw1 by by eapply calm_only_ids.
  rewrite (M_bind_eq _ _ w1 (ew (store w)) w1).
  2:{ erewrite or_zero_run; [|by rewrite read_run by apply Hw1|done]. simpl.
      by rewrite (oi_store _ _ Ho). }
  assert (state_keys (sortPolicies l) = desired_keys cs ps (netpol (store w))) as Hd.
  { rewrite sorted_keys. apply sort_Strings_perm. rewrite Hkeys.
    unfold sortNetworkPolicies. by rewrite sort_slice_perm. }
  rewrite equalPolicySets_spec, Hd.
  change (state_keys (sortPolicies (filterPoliciesByOwnerKind (ew (store w))
    networkPolicyOwnerKind))) with
    (state_keys (sortPolicies (List.filter owned (ew (store w))))).
  rewrite sorted_keys. fold (current_keys (store w)). fold same.
  destruct Ho as [Ho1 Ho2 Ho3 Ho4]. destruct same eqn:Es; simpl negb.
  { exists w1. split; [done|]. split; [|done]. by split; rewrite ?Ho1. }
  set (others := foreign (store w)).
  set (np := Npm.set_EW (npm (store w)) (others ++ sortPolicies l)).
  rewrite (M_bind_eq _ _ w1 tt (set_store {| netpol := netpol (store w); npm := np |} w1)).
  2:{ unfold on_npm. rewrite txn_run by apply Hw1. by rewrite Ho1. }
  destruct (update_generated_run gen (sortNetworkPolicies infos)
    (set_store {| netpol := netpol (store w); npm := np |} w1)) as (w2 & H2 & Hc & Ht & Hi & Hn & Hob).
  { by destruct Hw1. }
  { intros info Hin. unfold sortNetworkPolicies in Hin. rewrite sort_slice_perm in Hin.
    apply list_elem_of_fmap in Hin as ([k v] & -> & Hkv). apply elem_of_range_map in Hkv.
    simpl. rewrite (Hk _ _ Hkv). by eexists. }
  rewrite (M_bind_eq _ _ _ _ _ H2). exists w2. split; [done|].
  assert (Forall (fun p => owned p = true) (sortPolicies l)) as Hown'.
  { unfold sortPolicies. by rewrite sort_slice_perm. }
  destruct (filter_app_split (ew (store w)) (sortPolicies l) Hown') as [Hf1 Hf2].
  split.
  - split; [done|by rewrite Ht|by rewrite Hi|done| |by rewrite Hn|by rewrite Hn|by rewrite Hn].
    unfold foreign, ew. rewrite Hn. exact Hf2.
  - unfold current_keys, ew. rewrite Hn. simpl. rewrite <- Hd.
    unfold others, foreign. rewrite Hf1. rewrite sorted_keys. apply sort_Strings_perm.
    unfold sort_Strings. by rewrite merge_sort_Permutation.
Qed.
Lemma generated_NoDup (set : gmap string Npm.Policy) (key : Npm.Policy -> string) :
  (forall k p, set !! k = Some p -> key p = k) -> NoDup (key <$> sortPolicies (range_values set)).
Proof.
  intros Hkey. unfold sortPolicies. rewrite sort_slice_perm. unfold range_values.
  assert (key <$> (range_map set).*2 = (range_map set).*1) as ->; [|apply NoDup_range_keys].
  rewrite <- list_fmap_compose. apply list_fmap_ext. intros i [k p] Hi. simpl.
  apply Hkey, elem_of_range_map. by eapply list_elem_of_lookup_2.
Qed.
End theory.

(** ** The properties *)
Section properties.
Context {RO : RangeOrder} {SS : SliceSort} {X : Type} {P : PolicyPeers X}.
#[local] Notation world := (world state policy_call (tables X)).
Implicit Types w : world.

(** The key of the connection that a policy allows. *)
Definition policy_key (p : Npm.Policy) : string :=
  join NUL [Npm.h_ContainerName (Npm.Source p); Npm.h_ContainerName (Npm.Destination p);
            Npm.Protocol p; itoa (Npm.DestPort p)].

(** C6: the translation of a network policy is exact: without store faults it
    succeeds and changes no table; every policy it returns is one that a rule
    of the manifest asks for, between two different ready pods of the
    manifest's namespace that the selectors select, in the direction of the
    rule and with its protocol and port; every connection asked for has a
    policy; and no connection has two. *)
Theorem generateBackendPolicies_correct id m w :
  faults w = [] ->
  let cs := csm (inner w) in
  let ps := psm (inner w) in
  exists l w', generateBackendPolicies id m w = (Ok l, w') /\
    store w' = store w /\ inner w' = inner w /\ trace w' = trace w /\
    (forall p, p ∈ l -> exists rule src dst, wanted cs ps m rule src dst /\
       p = backend_policy (Npm.Id p) id m rule src dst) /\
    (forall rule src dst, wanted cs ps m rule src dst ->
       exists p, p ∈ l /\ policy_key p = backend_key src dst rule) /\
    NoDup (policy_key <$> l).
Proof.
  intros Hw cs ps. assert (calm cs ps w) as Hc by done.
  destruct (generate_run cs ps id m w Hc) as (l & w' & H & [Ho1 _ Ho3 Ho4] & set & -> & E).
  exists (sortPolicies (range_values set)), w'. split; [done|].
  split; [done|]. split; [done|]. split; [done|].
  assert (forall k p, set !! k = Some p -> exists rule src dst,
    wanted cs ps m rule src dst /\ k = backend_key src dst rule /\
    p = backend_policy (Npm.Id p) id m rule src dst) as Hset.
  { intros k p Hp. assert (pure_set cs ps id m !! k = Some (erase p)) as Hk
      by by rewrite <- E, lookup_fmap, Hp.
    apply pure_fold in Hk as [Hk|(rule & src & dst & Hin & Hne & -> & Hq)];
      [by rewrite lookup_empty in Hk|].
    exists rule, src, dst. split; [split; [done|by apply rule_pairs_elem]|]. split; [done|].
    destruct p. unfold erase in Hq. simpl in *. injection Hq as -> -> -> -> -> -> -> -> -> -> -> ->.
    done. }
  split; [|split].
  - intros p Hp. unfold sortPolicies in Hp. rewrite sort_slice_perm in Hp.
    apply list_elem_of_fmap in Hp as ([k q] & -> & Hq). apply elem_of_range_map in Hq.
    destruct (Hset _ _ Hq) as (rule & src & dst & Hwt & _ & Hp). by exists rule, src, dst.
  - intros rule src dst [Hne Hin]. apply rule_pairs_elem in Hin.
    destruct (pure_fold_complete id m _ ∅ rule src dst Hin Hne) as [q Hq].
    fold (pure_set cs ps id m) in Hq. rewrite <- E, lookup_fmap in Hq.
    apply fmap_Some in Hq as (p & Hp & _). exists p. split.
    + unfold sortPolicies. rewrite sort_slice_perm. apply list_elem_of_fmap.
      exists (backend_key src dst rule, p). split; [done|]. by apply elem_of_range_map.
    + destruct (Hset _ _ Hp) as (r & s & d & _ & -> & ->). done.
  - apply generated_NoDup. intros k p Hp.
    destruct (Hset _ _ Hp) as (r & s & d & _ & -> & ->). done.
Qed.

(** C7: a reconciliation converges in one round: without store faults it
    succeeds; the policies that network policies own become those that the
    objects ask for, every other policy, list and mode stays as it is, and no
    rule is committed; and a second round reports no change and leaves the
    tables as they are. *)
Theorem ReconcileAll_converges w :
  faults w = [] -> keyed NetworkPolicyId (NetworkPolicies (netpol (store w))) ->
  let desired := desired_keys (csm (inner w)) (psm (inner w)) (netpol (store w)) in
  exists changed w' w'', ReconcileAll w = (Ok changed, w') /\
    reconciled (csm (inner w)) (psm (inner w)) w w' /\
    current_keys (store w') = desired /\
    (changed = true <-> current_keys (store w) <> desired) /\
    ReconcileAll w' = (Ok false, w'') /\ store w'' = store w'.
Proof.
  intros Hw Hk desired. assert (calm (csm (inner w)) (psm (inner w)) w) as Hc by done.
  destruct (ReconcileAll_run _ _ w Hc Hk) as (w' & H1 & Hr & Hs).
  assert (current_keys (store w') = desired) as Hcur.
  { case_bool_decide; [by rewrite Hs|done]. }
  assert (keyed NetworkPolicyId (NetworkPolicies (netpol (store w')))) as Hk'
    by (eapply objects_keyed; [symmetry; apply Hr|done]).
  destruct (ReconcileAll_run _ _ w' (rc_calm _ _ _ _ Hr) Hk') as (w'' & H2 & _ & Hs2).
  rewrite (desired_objects _ _ _ (netpol (store w)) (rc_objects _ _ _ _ Hr)) in H2, Hs2.
  rewrite bool_decide_eq_true_2 in H2, Hs2 by done.
  eexists _, w', w''. split; [exact H1|]. split; [done|]. split; [done|].
  split; [|done]. rewrite negb_true_iff, bool_decide_eq_false. done.
Qed.
Lemma new_id_run w : exists i w', new_id w = (Ok i, w') /\ only_ids w w'.
Proof. unfold new_id. destruct (ids w); (eexists _, _; split; [reflexivity|by split]). Qed.
Lemma clock_run w : exists t w', now w = (Ok t, w') /\ only_ids w w'.
Proof. unfold now. destruct (times w); (eexists _, _; split; [reflexivity|by split]). Qed.

Lemma store_run id info t w :
  faults w = [] -> keyed NetworkPolicyId (NetworkPolicies (netpol (store w))) ->
  exists w', on_netpol (StoreNetworkPolicy id info t) w = (Ok tt, w') /\
    faults w' = [] /\ trace w' = trace w /\ inner w' = inner w /\
    keyed NetworkPolicyId (NetworkPolicies (netpol (store w'))).
Proof.
  intros Hw Hk. unfold on_netpol. rewrite txn_run by done. eexists. split; [reflexivity|].
  split; [done|]. split; [done|]. split; [done|]. simpl. by apply keyed_insert.
Qed.

Lemma Apply_run m w info w' :
  faults w = [] -> keyed NetworkPolicyId (NetworkPolicies (netpol (store w))) ->
  Apply m w = (Ok info, w') ->
  exists w0, keyed NetworkPolicyId (NetworkPolicies (netpol (store w0))) /\
    calm (csm (inner w)) (psm (inner w)) w0 /\ trace w0 = trace w /\ inner w0 = inner w /\
    reconciled (csm (inner w)) (psm (inner w)) w0 w' /\
    current_keys (store w') =
      desired_keys (csm (inner w)) (psm (inner w)) (netpol (store w0)).
Proof.
  intros Hw Hk H. unfold Apply in H. destruct (String.eqb (m_Name m) ""); [done|].
  set (ns := if String.eqb (m_Namespace m) "" then "default" else m_Namespace m) in H.
  erewrite (M_bind_eq _ _ w _ w) in H.
  2:{ erewrite or_zero_run; [|unfold read_netpol; by rewrite read_run|done]. reflexivity. }
  simpl in H. destruct (find_by_name (m_Name m) (in_namespace ns) (netpol (store w))); [done|].
  destruct (new_id_run w) as (id & w1 & H1 & Ho1). rewrite (M_bind_eq _ _ _ _ _ H1) in H.
  destruct (clock_run w1) as (t & w2 & H2 & Ho2). rewrite (M_bind_eq _ _ _ _ _ H2) in H.
  assert (only_ids w w2) as [Hs2 Hf2 Ht2 Hi2] by by etrans. clear H1 H2 Ho1 Ho2.
  match type of H with context[StoreNetworkPolicy id ?stored t] =>
    destruct (store_run id stored t w2) as (w3 & H3 & Hw3 & Ht3 & Hi3 & Hk3);
      [congruence|by rewrite Hs2|]
  end.
  rewrite (M_bind_eq _ _ _ _ _ H3) in H.
  assert (calm (csm (inner w)) (psm (inner w)) w3) as Hc3 by (split; congruence).
  destruct (ReconcileAll_run _ _ w3 Hc3 Hk3) as (w4 & H4 & Hr & Hs4).
  unfold mbind, M_bind, attempt in H. rewrite H4 in H.
  unfold read_netpol in H. rewrite read_run in H by apply Hr. injection H as _ <-.
  exists w3. split; [done|]. split; [done|]. split; [congruence|]. split; [congruence|].
  split; [done|].
  case_bool_decide; [by rewrite Hs4|done].
Qed.

(** A new network policy is not put in force: after an [Apply] that
    succeeded, the controller finds the tables already equal, and its round
    returns without a commit, so no rule of the packet filter changes, however
    many policies the object asks for. *)
Theorem Apply_is_not_committed m w info w1 :
  faults w = [] -> keyed NetworkPolicyId (NetworkPolicies (netpol (store w))) ->
  Apply m w = (Ok info, w1) ->
  exists w2, reconcileOnce w1 = (Ok tt, w2) /\ store w2 = store w1 /\
    trace w2 = trace w /\ inner w2 = inner w.
Proof.
  intros Hw Hk H.  destruct (Apply_run _ _ _ _ Hw Hk H) as (w0 & Hk0 & Hc0 & Ht0 & Hi0 & Hr & Hcur).
  assert (keyed NetworkPolicyId (NetworkPolicies (netpol (store w1)))) as Hk1
    by (eapply objects_keyed; [symmetry; apply Hr|done]).
  destruct (ReconcileAll_run _ _ w1 (rc_calm _ _ _ _ Hr) Hk1) as (w2 & H2 & Hr2 & Hs2).
  rewrite (desired_objects _ _ _ (netpol (store w0)) (rc_objects _ _ _ _ Hr)) in H2, Hs2.
  rewrite bool_decide_eq_true_2 in H2, Hs2 by done.
  exists w2. unfold reconcileOnce. rewrite (M_bind_eq _ _ _ _ _ H2). split; [done|].
  split; [done|]. split; [by rewrite (rc_trace _ _ _ _ Hr2), (rc_trace _ _ _ _ Hr)|].
  by rewrite (rc_inner _ _ _ _ Hr2), (rc_inner _ _ _ _ Hr).
Qed.
End properties.

(** * Network policies on a small system

    Two pods, the filter of [PolicyPackets.v], and a policy between the pods:
    the theorems of [NetworkPolicyTheory.v] applied, and what the packet filter
    does with a policy that was applied and not committed. *)

Module NetworkDemo.
Definition in_pod (id name podId : string) : Csm.ContainerInfo :=
  {| Csm.ContainerId := id; Csm.ContainerName := name; Csm.PodId := podId; Csm.DropletId := "";
     Csm.SpiffeId := ""; Csm.State := "running"; Csm.Pid := 0; Csm.ExitCode := 0;
     Csm.Reason := ""; Csm.Message := ""; Csm.LogPath := ""; Csm.Tty := false;
     Csm.Repository := ""; Csm.Reference := ""; Csm.Command := []; Csm.BottleId := "";
     Csm.SecurityProfile := ""; Csm.CreatingAt := 0; Csm.CreatedAt := 0; Csm.StartedAt := 0;
     Csm.StoppedAt := 0; Csm.FinishedAt := 0; Csm.Labels := ∅; Csm.Annotaions := ∅;
     Csm.Attemp := 0 |}.
Definition infra (podId : string) : string := PodService.PodInfraContainerNamePrefix +:+ podId.
Definition containers : Csm.ContainerState :=
  {| Csm.Version := "v1"; Csm.Containers :=
       <["c1" := in_pod "c1" (infra "web") "web"]> (<["c2" := in_pod "c2" "nginx-web" "web"]>
       (<["c3" := in_pod "c3" (infra "api") "api"]> (<["c4" := in_pod "c4" "srv-api" "api"]> ∅))) |}.

Definition running_pod (id : string) : Psm.PodInfo :=
  {| Psm.PodId := id; Psm.TemplateId := ""; Psm.OwnerKind := ""; Psm.OwnerId := "";
     Psm.Name := id; Psm.Namespace := "demo"; Psm.UID := id; Psm.State := "running";
     Psm.OwnerPid := 0; Psm.NetworkNS := ""; Psm.IPCNS := ""; Psm.UTSNS := ""; Psm.UserNS := "";
     Psm.Rootless := false; Psm.Labels := <["app" := id]> ∅; Psm.Annotations := ∅;
     Psm.CreatedAt := 0; Psm.StartedAt := 0; Psm.StoppedAt := 0; Psm.StoppedByUser := false |}.
Definition pods : Psm.PodState :=
  {| Psm.Version := "0.1.0"; Psm.Pods := <["web" := running_pod "web"]>
       (<["api" := running_pod "api"]> ∅);
     Psm.PodTemplates := ∅; Psm.ReplicaSets := ∅; Psm.Deployments := ∅ |}.

Definition addresses : Ipam.IpamState :=
  Ipam.set_Pools Demo.addresses [
    {| Ipam.p_Interface := "raind0"; Ipam.Subnet := "10.166.0.0/24";
       Ipam.Address := "10.166.0.254/24";
       Ipam.Allocations := Some (<["10.166.0.1" := Demo.address "c1" "rd_c1"]>
                                 (<["10.166.0.2" := Demo.address "c3" "rd_c3"]> ∅)) |}].

Definition start (x : filter_table) (is' : list string)
    : world state policy_call (tables filter_table) :=
  {| store := {| netpol := Netpol.init; npm := Npm.init |}; faults := []; times := [];
     ids := is'; trace := [];
     inner := {| csm := containers; ipam := addresses; psm := pods; net := x |} |}.
Definition begin := start (<["FORWARD" := []]> ∅) ["np1"; "p1"; "p2"; "p3"].

(** [web] may reach [api] on port 8080. *)
Definition allow_web : Manifest :=
  {| m_Name := "allow-web"; m_Namespace := "demo"; m_PodSelector := <["app" := "api"]> ∅;
     m_Ingress := [{| Direction := "ingress"; r_PodSelector := <["app" := "web"]> ∅;
                      r_Protocol := "tcp"; r_Port := 8080 |}];
     m_Egress := [] |}.

(** The empty filter, built once, so that the chains are there. *)
Definition ready := (with_npm CommitPolicy begin).2.
Definition applied_w := (Apply allow_web ready).2.
Definition sees (w : world state policy_call (tables filter_table)) : option string :=
  PolicyPackets.verdict String.eqb String.eqb 2 (net (inner w))
    (Demo.east_west_packet "rd_c1" "rd_c3" 8080) "RAIND-ROOT".

(** The policy is in the table after [Apply], the connection is dropped, the
    controller does not change that, and a commit does. *)
Example applied_but_dropped :
  (is_ok (Apply allow_web ready).1, length (ew (store applied_w)), sees applied_w,
   sees (Nat.iter 3 (fun w => (reconcileOnce w).2) applied_w),
   sees (with_npm CommitPolicy applied_w).2) =
  (true, 1%nat, Some "DROP", Some "DROP", Some "ACCEPT").
Proof. vm_compute. reflexivity. Qed.

Definition object : NetworkPolicyInfo :=
  match (Apply allow_web ready).1 with
  | Ok info => info
  | _ => {| NetworkPolicyId := ""; Name := ""; Namespace := ""; PodSelector := ∅; Ingress := [];
            Egress := []; GeneratedRuleIds := []; CreatedAt := 0 |}
  end.

Example Apply_is_not_committed_witness :
  Apply allow_web ready = (Ok object, applied_w) /\
  exists w2, reconcileOnce applied_w = (Ok tt, w2) /\ store w2 = store applied_w /\
    trace w2 = trace ready /\ inner w2 = inner ready.
Proof.
  assert (Apply allow_web ready = (Ok object, applied_w)) as H
    by (apply injective_projections; vm_compute; reflexivity).
  split; [exact H|].
  apply (Apply_is_not_committed allow_web ready object applied_w); [vm_compute; reflexivity| |exact H].
  assert (NetworkPolicies (netpol (store ready)) = ∅) as -> by (vm_compute; reflexivity).
  exact (keyed_empty NetworkPolicyId).
Defined.

(** The object in the table, before its first reconciliation. *)
Definition stored_w : world state policy_call (tables filter_table) :=
  set_store {| netpol := set_NetworkPolicies Netpol.init (<["np1" :=
      {| NetworkPolicyId := "np1"; Name := "allow-web"; Namespace := "demo";
         PodSelector := <["app" := "api"]> ∅;
         Ingress := toRuleInfo (m_Ingress allow_web); Egress := []; GeneratedRuleIds := [];
         CreatedAt := 0 |}]> ∅); npm := Npm.init |} begin.

Example ReconcileAll_converges_witness :
  exists changed w' w'', ReconcileAll stored_w = (Ok changed, w') /\
    reconciled containers pods stored_w w' /\
    current_keys (store w') = desired_keys containers pods (netpol (store stored_w)) /\
    (changed = true <->
       current_keys (store stored_w) <> desired_keys containers pods (netpol (store stored_w))) /\
    ReconcileAll w' = (Ok false, w'') /\ store w'' = store w'.
Proof.
  apply (ReconcileAll_converges stored_w); [reflexivity|].
  apply keyed_insert; [exact (keyed_empty NetworkPolicyId)|reflexivity].
Defined.

Example generateBackendPolicies_correct_witness :
  exists l w', generateBackendPolicies "np1" allow_web begin = (Ok l, w') /\
    policy_key <$> l = [join NUL [infra "web"; infra "api"; "tcp"; "8080"]] /\
    NoDup (policy_key <$> l).
Proof.
  destruct (generateBackendPolicies_correct "np1" allow_web begin eq_refl)
    as (l & w' & H & _ & _ & _ & _ & _ & Hnd).
  exists l, w'. split; [exact H|]. split; [|exact Hnd].
  assert (Ok l = (generateBackendPolicies "np1" allow_web begin).1) as Hl by by rewrite H.
  vm_compute in Hl. injection Hl as ->. vm_compute. reflexivity.
Defined.

(** A commit that failed is not retried: when the packet filter refuses the
    commit of a round, the round fails, but the table already holds the new
    policies; every later round, although the filter works again, sees no
    change, commits nothing, and the connection stays dropped. *)
Theorem failed_commit_is_not_retried :
  let broken := set_store (store stored_w) (start ∅ []) in
  let '(r, w1) := reconcileOnce broken in
  let repaired := {| store := store w1; faults := faults w1; times := times w1; ids := ids w1;
                     trace := []; inner := inner ready |} in
  let later := Nat.iter 5 (fun w => (reconcileOnce w).2) repaired in
  is_ok r = false /\ length (ew (store w1)) = 1%nat /\
  trace later = [] /\ sees later = Some "DROP" /\
  sees (with_npm CommitPolicy later).2 = Some "ACCEPT".
Proof. vm_compute. repeat split. Qed.
End NetworkDemo.
