(* ===== verification/ContainerList.v ===== *)
(** * Listing containers ([core/container/service_list.go])

    The containers of the table with the addresses and forwards that the pools
    have for them. *)

From Stdlib Require Import ZArith Lia String.
From stdpp Require Import base gmap strings list.
From S2P Require Import Prelude.
From S2P Require Import GoString.
From S2P Require Csm.
From S2P Require Ipam.
From S2P Require Import World.
From S2P Require Import ContainerModel.
Open Scope Z_scope.

Definition forward_infos (a : Ipam.Allocation) : list ForwardInfo :=
  (fun f => {| fw_HostPort := Ipam.HostPort f; fw_ContainerPort := Ipam.ContainerPort f;
               fw_Protocol := Ipam.fi_Protocol f |}) <$> Ipam.Forwards a.

Section list.
Context {RO : RangeOrder}.

(** The two inner loops: the last address that names the container, and the
    forwards of all of them. *)
Definition network_of (poolList : list Ipam.Pool) (containerId : string)
    : string * list ForwardInfo :=
  let found := filter (fun kv => Ipam.al_ContainerId kv.2 = containerId)
                 (p ← poolList; range_map (Ipam.allocs p)) in
  (default "" (last found.*1), found.*2 ≫= forward_infos).

Definition container_state (poolList : list Ipam.Pool) (c : Csm.ContainerInfo) : ContainerState :=
  let '(address, forwards) := network_of poolList (Csm.ContainerId c) in
  {| cs_ContainerId := Csm.ContainerId c; cs_Name := Csm.ContainerName c;
     cs_PodId := Csm.PodId c; cs_State := Csm.State c; cs_Pid := Csm.Pid c;
     cs_Repository := Csm.Repository c; cs_Reference := Csm.Reference c;
     cs_Command := Csm.Command c; cs_Address := address; cs_Forwards := forwards;
     cs_CreatingAt := Csm.CreatingAt c; cs_CreatedAt := Csm.CreatedAt c;
     cs_StartedAt := Csm.StartedAt c; cs_StoppedAt := Csm.StoppedAt c |}.

(** The service works on the container and address tables among those of [W]. *)
Context {St C W : Type} (csm : W -> Csm.ContainerState) (ipam : W -> Ipam.IpamState).
#[local] Notation M := (M St C W).

Definition buildContainerStateList (containerList : list Csm.ContainerInfo)
    : M (list ContainerState) :=
  poolList ← peek (fun t => Ipam.GetPoolList (ipam t));
  mret (container_state poolList <$> containerList).

Definition GetContainerList : M (list ContainerState) :=
  l ← peek (fun t => Csm.GetContainerList (csm t)); buildContainerStateList l.

Definition GetContainersByPodId (podId : string) : M (list ContainerState) :=
  l ← peek (fun t => Csm.GetContainersByPodId podId (csm t)); buildContainerStateList l.

(** The name is left out. *)
Definition GetContainerById (containerId : string) : M ContainerState :=
  c ← peek (fun t => Csm.GetContainerById containerId (csm t));
  '(address, networkState) ← peek (fun t => Ipam.GetNetworkInfoById containerId (ipam t));
  mret {| cs_ContainerId := Csm.ContainerId c; cs_Name := "";
          cs_PodId := Csm.PodId c; cs_State := Csm.State c; cs_Pid := Csm.Pid c;
          cs_Repository := Csm.Repository c; cs_Reference := Csm.Reference c;
          cs_Command := Csm.Command c; cs_Address := address;
          cs_Forwards := forward_infos networkState;
          cs_CreatingAt := Csm.CreatingAt c; cs_CreatedAt := Csm.CreatedAt c;
          cs_StartedAt := Csm.StartedAt c; cs_StoppedAt := Csm.StoppedAt c |}.
End list.
