(* ===== verification/ServiceController.v ===== *)
(** * The service controller ([core/service/controller.go])

    Services as NAT chains of the packet filter: what a round of the controller
    does to the filter, over the tables of services, pods, containers and
    addresses and the controller's own memory of the last round. *)

From Stdlib Require Import ZArith Lia Ascii String SpecFloat.
From stdpp Require Import base gmap strings list.
From S2P Require Import Prelude.
From S2P Require Import GoString.
From S2P Require Import GoSort.
From S2P Require Csm.
From S2P Require Ipam.
From S2P Require Psm.
From S2P Require Import Ssm.
From S2P Require Import World.
From S2P Require Import ContainerModel.
From S2P Require ContainerList.
From S2P Require PodService.
Open Scope Z_scope.

(** ** State *)

(** [lastState] and [lastServices]. *)
Record ServiceController := {
  lastState : gmap string string;
  lastServices : gmap string ServiceInfo
}.

(** The tables that are read, and the packet filter. *)
Record service_tables (X : Type) := {
  st_csm : Csm.ContainerState;
  st_ipam : Ipam.IpamState;
  st_psm : Psm.PodState;
  st_ssm : ServiceState;
  st_net : X
}.
Arguments st_csm {X} s.
Arguments st_ipam {X} s.
Arguments st_psm {X} s.
Arguments st_ssm {X} s.
Arguments st_net {X} s.

(** A call of the [iptables] command with its arguments. *)
Inductive command := Command (args : list string).
Class Netfilter (X : Type) := netfilter : list string -> X -> res string * X.

#[export] Instance command_callees {X} {N : Netfilter X} :
    Callees command ServiceController (service_tables X) := fun c '(st, t) =>
  let '(Command args) := c in
  let '(r, x) := netfilter args (st_net t) in
  (r, (st, {| st_csm := st_csm t; st_ipam := st_ipam t; st_psm := st_psm t;
              st_ssm := st_ssm t; st_net := x |})).

Record svcEndpoint := {
  Addr : string;
  ep_HostInterface : string;
  Bridge : string
}.

(** ** Texts *)

Definition labelsMatch `{RangeOrder} (selector labels : gmap string string) : bool :=
  match range_map selector with
  | [] => false
  | l => forallb (fun kv => String.eqb (default "" (labels !! kv.1)) kv.2) l
  end.

Definition serviceType (svc : ServiceInfo) : string := NormalizeServiceType (sv_Type svc).

Definition short_id (serviceId : string) : string :=
  if (8 <? String.length serviceId)%nat then take_str 8 serviceId else serviceId.
Definition serviceChainName (serviceId : string) (port : Z) : string :=
  "RAIND-SVC-" +:+ short_id serviceId +:+ "-" +:+ itoa port.
Definition serviceForwardChainName (serviceId : string) : string :=
  "RAIND-FWD-" +:+ short_id serviceId.
Definition serviceSNATChainName (serviceId : string) : string :=
  "RAIND-SNAT-" +:+ short_id serviceId.

Definition buildStateKey (svc : ServiceInfo) (endpoints : list svcEndpoint) : string :=
  join "," (sort_Strings
    (["type=" +:+ serviceType svc] ++
     (if negb (String.eqb (ClusterIP svc) "") then ["clusterIP=" +:+ ClusterIP svc] else []) ++
     ((fun p => itoa (sp_Port p) +:+ ":" +:+ itoa (TargetPort p) +:+ "/" +:+
                toLower (sp_Protocol p)) <$> sv_Ports svc) ++
     (Addr <$> endpoints))).

(** [1.0 / float64(n)], and [%.4f] of it: the exact value rounded to four
    places, halves to even. *)
Definition share (n : Z) : spec_float :=
  SFdiv 53 1024 (S754_finite false 4503599627370496 (-52)) (binary_normalize 53 1024 n 0 false).
Definition round_half_even (num den : Z) : Z :=
  let q := num / den in
  let r := num mod den in
  if (den <? 2 * r) || ((den =? 2 * r) && Z.odd q) then q + 1 else q.
Definition tenthousandths (f : spec_float) : Z :=
  match f with
  | S754_finite false m e =>
      if e <? 0 then round_half_even (Zpos m * 10000) (2 ^ (- e)) else Zpos m * 10000 * 2 ^ e
  | _ => 0
  end.
Definition format_4f (f : spec_float) : string :=
  let v := tenthousandths f in
  let d := itoa (v mod 10000) in
  itoa (v / 10000) +:+ "." +:+
    String.concat "" (repeat "0" (4 - String.length d)) +:+ d.

Definition tableArgs (table : string) (args : list string) : list string :=
  if String.eqb table "" then args else ["-t"; table] ++ args.

Fixpoint jumpTarget (fields : list string) : string :=
  match fields with
  | f :: ((t :: _) as rest) => if String.eqb f "-j" then t else jumpTarget rest
  | _ => ""
  end.

Definition hasManagedPrefix (value : string) (prefixes : list string) : bool :=
  existsb (fun prefix => hasPrefix value prefix) prefixes.

(** The loop over the containers of a pod: the id of the infra container, the
    names of the members and their number, unless one is not running. *)
Fixpoint scan_states (l : list ContainerState) (infraId : string)
    (runningByName : gset string) (memberCount : Z) : option (string * gset string * Z) :=
  match l with
  | [] => Some (infraId, runningByName, memberCount)
  | c :: l =>
      if negb (String.eqb (cs_State c) Psm.ContainerStateRunning) then None
      else if hasPrefix (cs_Name c) PodService.PodInfraContainerNamePrefix
      then scan_states l (cs_ContainerId c) runningByName memberCount
      else scan_states l infraId ({[cs_Name c]} ∪ runningByName) (memberCount + 1)
  end.

Definition members_running (podId : string) (specs : list Psm.ContainerTemplateSpec)
    (runningByName : gset string) : bool :=
  forallb (fun spec => String.eqb (Psm.ct_Name spec) "" ||
    bool_decide (PodService.buildPodMemberName (Psm.ct_Name spec) podId ∈ runningByName)) specs.

Section controller.
Context {RO : RangeOrder} {SS : SliceSort} {X : Type} {N : Netfilter X}.
#[local] Notation M := (M ServiceController command (service_tables X)).

(** The controller's fields are in memory. *)
Definition fields_of : M ServiceController := fun w => (Ok (store w), w).
Definition set_fields (f : ServiceController -> ServiceController) : M unit := fun w =>
  (Ok tt, set_store (f (store w)) w).

Definition iptables (args : list string) : M unit := _ ← invoke (Command args); mret tt.
Definition nat (args : list string) : M unit := iptables (["-t"; "nat"] ++ args).

(** ** Endpoints *)

Definition expectedMembersRunning (p : Psm.PodInfo) (runningByName : gset string) : M bool :=
  if String.eqb (Psm.TemplateId p) "" then mret true else
  tpl ← attempt (peek (fun t => Psm.GetPodTemplate (Psm.TemplateId p) (st_psm t)));
  match tpl with
  | Ok tpl => mret (members_running (Psm.PodId p) (Psm.pt_Containers (Psm.ti_Spec tpl))
                      runningByName)
  | _ => mret false
  end.

Definition getReadyInfraContainerId (p : Psm.PodInfo) : M (option string) :=
  if negb (String.eqb (Psm.State p) Psm.PodStateRunning) || Psm.StoppedByUser p
  then mret None else
  containers ← attempt (ContainerList.GetContainersByPodId st_csm st_ipam (Psm.PodId p));
  match containers with
  | Ok containers =>
      match scan_states containers "" ∅ 0 with
      | Some (infraId, runningByName, memberCount) =>
          if String.eqb infraId "" || (memberCount =? 0) then mret None else
          expected ← expectedMembersRunning p runningByName;
          mret (if expected : bool then Some infraId else None)
      | None => mret None
      end
  | _ => mret None
  end.

Definition GetContainerAddress (containerId : string) : M svcEndpoint :=
  peek (fun t =>
    match Ipam.GetContainerAddress containerId (st_ipam t) with
    | (host, bridge, addr, None) =>
        Ok {| Addr := addr; ep_HostInterface := host; Bridge := bridge |}
    | (_, _, _, Some e) => Err e
    end).

Fixpoint endpoint_loop (svc : ServiceInfo) (pods : list Psm.PodInfo) : M (list svcEndpoint) :=
  match pods with
  | [] => mret []
  | p :: pods =>
      if negb (String.eqb (Psm.Namespace p) (sv_Namespace svc)) ||
         negb (labelsMatch (Selector svc) (Psm.Labels p))
      then endpoint_loop svc pods else
      infraId ← getReadyInfraContainerId p;
      match infraId with
      | None => endpoint_loop svc pods
      | Some infraId =>
          e ← attempt (GetContainerAddress infraId);
          rest ← endpoint_loop svc pods;
          mret (match e with Ok e => e :: rest | _ => rest end)
      end
  end.

Definition buildEndpoints (svc : ServiceInfo) (pods : list Psm.PodInfo) : M (list svcEndpoint) :=
  endpoints ← endpoint_loop svc pods;
  mret (sort_slice (fun a b => string_ltb (Addr a) (Addr b)) endpoints).

(** ** Commands *)

Definition deleteChain (chain : string) : M unit := nat ["-X"; chain].
Definition ensureChain (chain : string) : M unit := ignore (nat ["-N"; chain]).
Definition flushChain (chain : string) : M unit := nat ["-F"; chain].
Definition ensureForwardChain (chain : string) : M unit := ignore (iptables ["-N"; chain]).
Definition flushForwardChain (chain : string) : M unit := iptables ["-F"; chain].
Definition deleteForwardChain (chain : string) : M unit := iptables ["-X"; chain].
Definition ensureSNATChain (chain : string) : M unit := ignore (nat ["-N"; chain]).
Definition flushSNATChain (chain : string) : M unit := nat ["-F"; chain].
Definition deleteSNATChain (chain : string) : M unit := ignore (nat ["-X"; chain]).

Definition localhost_jump (chain : string) : list string :=
  ["POSTROUTING"; "-s"; "127.0.0.0/8"; "-j"; chain].
Definition host_jump (hostAddr chain : string) : list string :=
  ["POSTROUTING"; "-s"; hostAddr +:+ "/32"; "-j"; chain].

Definition address_part (hostAddr : string) : string := trimSpace (split_head "/" hostAddr).

Definition defaultHostInterfaceAddr : M string :=
  r ← attempt (peek (fun t => Ipam.GetDefaultInterfaceAddr (st_ipam t)));
  mret (match r with Ok hostAddr => address_part hostAddr | _ => "" end).

Definition addLocalhostSNATJumpRule (chain : string) : M unit :=
  nat ("-A" :: localhost_jump chain).
Definition addHostSNATJumpRule (chain hostAddr : string) : M unit :=
  let hostAddr := address_part hostAddr in
  if String.eqb hostAddr "" then mret tt else nat ("-A" :: host_jump hostAddr chain).
Definition deleteSNATJumpRules (chain : string) : M unit :=
  _ ← ignore (nat ("-D" :: localhost_jump chain));
  hostAddr ← defaultHostInterfaceAddr;
  if negb (String.eqb hostAddr "") then ignore (nat ("-D" :: host_jump hostAddr chain))
  else mret tt.

Definition addServiceSNATRule (chain endpointAddr : string) (targetPort : Z) (proto : string)
    : M unit :=
  nat ["-A"; chain; "-d"; endpointAddr; "-p"; proto; "--dport"; itoa targetPort;
       "-j"; "MASQUERADE"].

Definition addForwardJumpRule (chain : string) : M unit :=
  iptables ["-I"; "FORWARD"; "1"; "-j"; chain].
Definition deleteForwardJumpRule (chain : string) : M unit :=
  ignore (iptables ["-D"; "FORWARD"; "-j"; chain]).

(** The two jumps to the chain of a port, in PREROUTING and OUTPUT. *)
Definition node_port_jumps (chain proto : string) (port : Z) : list (list string) :=
  [["PREROUTING"; "-p"; proto; "--dport"; itoa port; "-j"; chain];
   ["OUTPUT"; "-m"; "addrtype"; "--dst-type"; "LOCAL"; "-p"; proto; "--dport"; itoa port;
    "-j"; chain]].
Definition cluster_jumps (chain clusterIP proto : string) (port : Z) : list (list string) :=
  let dst := clusterIP +:+ "/32" in
  [["PREROUTING"; "-d"; dst; "-p"; proto; "--dport"; itoa port; "-j"; chain];
   ["OUTPUT"; "-d"; dst; "-p"; proto; "--dport"; itoa port; "-j"; chain]].

Fixpoint add_jumps (l : list (list string)) : M unit :=
  match l with [] => mret tt | rule :: l => _ ← nat ("-A" :: rule); add_jumps l end.
Fixpoint delete_jumps (l : list (list string)) : M unit :=
  match l with [] => mret tt | rule :: l => _ ← ignore (nat ("-D" :: rule)); delete_jumps l end.

Definition deleteNodePortJumpRule (chain proto : string) (port : Z) : M unit :=
  delete_jumps (node_port_jumps chain proto port).
Definition addNodePortJumpRule (chain proto : string) (port : Z) : M unit :=
  add_jumps (node_port_jumps chain proto port).
Definition deleteClusterIPJumpRule (chain clusterIP proto : string) (port : Z) : M unit :=
  if String.eqb clusterIP "" then mret tt
  else delete_jumps (cluster_jumps chain clusterIP proto port).
Definition addClusterIPJumpRule (chain clusterIP proto : string) (port : Z) : M unit :=
  if String.eqb clusterIP "" then fail "clusterIP service requires clusterIP"
  else add_jumps (cluster_jumps chain clusterIP proto port).

Definition addServiceJumpRule (svc : ServiceInfo) (chain proto : string) (port : Z) : M unit :=
  if String.eqb (serviceType svc) ServiceTypeClusterIP
  then addClusterIPJumpRule chain (ClusterIP svc) proto port
  else addNodePortJumpRule chain proto port.
Definition deleteServiceJumpRule (svc : ServiceInfo) (chain proto : string) (port : Z) : M unit :=
  if String.eqb (serviceType svc) ServiceTypeClusterIP
  then deleteClusterIPJumpRule chain (ClusterIP svc) proto port
  else deleteNodePortJumpRule chain proto port.

(** [prob] is the text of the probability, [None] for 0. *)
Definition endpoint_rule (addr : string) (targetPort : Z) (proto : string)
    (prob : option string) : list string :=
  ["-p"; proto] ++
  match prob with
  | Some prob => ["-m"; "statistic"; "--mode"; "random"; "--probability"; prob]
  | None => []
  end ++ ["-j"; "DNAT"; "--to-destination"; addr +:+ ":" +:+ itoa targetPort].
Definition addEndpointRule (chain addr : string) (targetPort : Z) (proto : string)
    (prob : option string) : M unit :=
  nat ("-A" :: chain :: endpoint_rule addr targetPort proto prob).

Definition forward_rules (ep : svcEndpoint) (targetPort : Z) (proto : string)
    : list (list string) :=
  [["-i"; Bridge ep; "-o"; Bridge ep; "-p"; proto; "-m"; "conntrack"; "--ctstate"; "DNAT";
    "--dport"; itoa targetPort; "-d"; Addr ep; "-j"; "ACCEPT"];
   ["-i"; ep_HostInterface ep; "-o"; Bridge ep; "-p"; proto; "--dport"; itoa targetPort;
    "-d"; Addr ep; "-j"; "ACCEPT"];
   ["-o"; ep_HostInterface ep; "-i"; Bridge ep; "-p"; proto; "--sport"; itoa targetPort;
    "-s"; Addr ep; "-j"; "ACCEPT"]].
Fixpoint append_all (chain : string) (l : list (list string)) : M unit :=
  match l with
  | [] => mret tt
  | rule :: l => _ ← ignore (iptables ("-A" :: chain :: rule)); append_all chain l
  end.
Definition addForwardRules (chain : string) (ep : svcEndpoint) (targetPort : Z) (proto : string)
    : M unit :=
  if String.eqb (ep_HostInterface ep) "" || String.eqb (Bridge ep) "" then mret tt
  else append_all chain (forward_rules ep targetPort proto).

(** ** The rules of a service *)

(** The loop over the endpoints; all but the last get the probability. *)
Fixpoint endpoints_loop (forwardChain snatChain chain prob : string) (targetPort : Z)
    (proto : string) (endpoints : list svcEndpoint) : M unit :=
  match endpoints with
  | [] => mret tt
  | ep :: rest =>
      _ ← addEndpointRule chain (Addr ep) targetPort proto
            (match rest with [] => None | _ => Some prob end);
      _ ← ignore (addForwardRules forwardChain ep targetPort proto);
      _ ← ignore (addServiceSNATRule snatChain (Addr ep) targetPort proto);
      endpoints_loop forwardChain snatChain chain prob targetPort proto rest
  end.

Definition port_proto (port : ServicePort) : string :=
  let proto := toLower (sp_Protocol port) in if String.eqb proto "" then "tcp" else proto.

Definition apply_port (svc : ServiceInfo) (endpoints : list svcEndpoint) (port : ServicePort)
    : M unit :=
  if (sp_Port port =? 0) || (TargetPort port =? 0) then mret tt else
  let proto := port_proto port in
  let chain := serviceChainName (ServiceId svc) (sp_Port port) in
  _ ← ensureChain chain;
  _ ← flushChain chain;
  _ ← ignore (deleteServiceJumpRule svc chain proto (sp_Port port));
  _ ← addServiceJumpRule svc chain proto (sp_Port port);
  endpoints_loop (serviceForwardChainName (ServiceId svc))
    (serviceSNATChainName (ServiceId svc)) chain
    (format_4f (share (Z.of_nat (length endpoints)))) (TargetPort port) proto endpoints.

Fixpoint apply_ports (svc : ServiceInfo) (endpoints : list svcEndpoint) (l : list ServicePort)
    : M unit :=
  match l with
  | [] => mret tt
  | port :: l => _ ← apply_port svc endpoints port; apply_ports svc endpoints l
  end.

Definition applyRules (svc : ServiceInfo) (endpoints : list svcEndpoint) : M unit :=
  let forwardChain := serviceForwardChainName (ServiceId svc) in
  _ ← ensureForwardChain forwardChain;
  _ ← flushForwardChain forwardChain;
  _ ← ignore (deleteForwardJumpRule forwardChain);
  _ ← addForwardJumpRule forwardChain;
  let snatChain := serviceSNATChainName (ServiceId svc) in
  _ ← ensureSNATChain snatChain;
  _ ← flushSNATChain snatChain;
  _ ← ignore (deleteSNATJumpRules snatChain);
  _ ← addLocalhostSNATJumpRule snatChain;
  hostAddr ← defaultHostInterfaceAddr;
  _ ← (if negb (String.eqb hostAddr "") then addHostSNATJumpRule snatChain hostAddr
       else mret tt);
  apply_ports svc endpoints (sv_Ports svc).

Definition cleanup_port (svc : ServiceInfo) (p : ServicePort) : M unit :=
  if sp_Port p =? 0 then mret tt else
  let chain := serviceChainName (ServiceId svc) (sp_Port p) in
  _ ← ignore (deleteServiceJumpRule svc chain "tcp" (sp_Port p));
  _ ← ignore (deleteServiceJumpRule svc chain "udp" (sp_Port p));
  _ ← ignore (flushChain chain);
  ignore (deleteChain chain).

Fixpoint cleanup_ports (svc : ServiceInfo) (l : list ServicePort) : M unit :=
  match l with
  | [] => mret tt
  | p :: l => _ ← cleanup_port svc p; cleanup_ports svc l
  end.

Definition cleanupServiceRules (svc : ServiceInfo) : M unit :=
  let forwardChain := serviceForwardChainName (ServiceId svc) in
  _ ← ignore (deleteForwardJumpRule forwardChain);
  _ ← ignore (flushForwardChain forwardChain);
  _ ← ignore (deleteForwardChain forwardChain);
  let snatChain := serviceSNATChainName (ServiceId svc) in
  _ ← ignore (deleteSNATJumpRules snatChain);
  _ ← ignore (flushSNATChain snatChain);
  _ ← ignore (deleteSNATChain snatChain);
  cleanup_ports svc (sv_Ports svc).

Definition cleanupService (serviceId : string) : M unit :=
  c ← fields_of;
  match lastServices c !! serviceId with
  | None => mret tt
  | Some svc => cleanupServiceRules svc
  end.

(** ** A round *)

Definition remember (serviceId stateKey : string) (svc : ServiceInfo) (c : ServiceController)
    : ServiceController :=
  {| lastState := <[serviceId := stateKey]> (lastState c);
     lastServices := <[serviceId := svc]> (lastServices c) |}.
Definition forget (serviceId : string) (c : ServiceController) : ServiceController :=
  {| lastState := delete serviceId (lastState c);
     lastServices := delete serviceId (lastServices c) |}.

Definition reconcile_service (pods : list Psm.PodInfo) (svc : ServiceInfo) : M unit :=
  endpoints ← buildEndpoints svc pods;
  let stateKey := buildStateKey svc endpoints in
  c ← fields_of;
  if String.eqb (default "" (lastState c !! ServiceId svc)) stateKey then mret tt else
  _ ← (match lastState c !! ServiceId svc with
       | Some _ => cleanupService (ServiceId svc)
       | None => mret tt
       end);
  _ ← set_fields (remember (ServiceId svc) stateKey svc);
  ignore (applyRules svc endpoints).

Fixpoint reconcile_services (pods : list Psm.PodInfo) (l : list ServiceInfo) : M unit :=
  match l with
  | [] => mret tt
  | svc :: l => _ ← reconcile_service pods svc; reconcile_services pods l
  end.

Definition serviceExists (serviceId : string) (l : list ServiceInfo) : bool :=
  existsb (fun s => String.eqb (ServiceId s) serviceId) l.

Fixpoint cleanup_removed (services : list ServiceInfo) (l : list string) : M unit :=
  match l with
  | [] => mret tt
  | serviceId :: l =>
      _ ← (if serviceExists serviceId services then mret tt else
           _ ← cleanupService serviceId; set_fields (forget serviceId));
      cleanup_removed services l
  end.

Definition reconcileOnce : M unit :=
  services ← peek (fun t => GetServiceList (st_ssm t));
  _ ← (match services with
       | [] => mret tt
       | _ => pods ← peek (fun t => Psm.GetPodList (st_psm t)); reconcile_services pods services
       end);
  c ← fields_of;
  cleanup_removed services (range_map (lastState c)).*1.

(** ** Clean-up on start *)

Definition iptablesRules (table : string) : M (list string) :=
  out ← invoke (Command (tableArgs table ["-S"]));
  mret (List.filter (fun line => negb (String.eqb line ""))
          (trimSpace <$> split "010"%char out)).
Definition runIptables (table : string) (args : list string) : M unit :=
  iptables (tableArgs table args).

(** The chains to remove, and the jumps deleted on the way. *)
Fixpoint rules_loop (table : string) (prefixes : list string) (rules : list string)
    (chains : gset string) : M (gset string) :=
  match rules with
  | [] => mret chains
  | line :: rules =>
      match fields line with
      | cmd :: name :: rest =>
          if String.eqb cmd "-N" then
            rules_loop table prefixes rules
              (if hasManagedPrefix name prefixes then {[name]} ∪ chains else chains)
          else if String.eqb cmd "-A" then
            _ ← (if hasManagedPrefix (jumpTarget (cmd :: name :: rest)) prefixes
                 then ignore (runIptables table ("-D" :: name :: rest)) else mret tt);
            rules_loop table prefixes rules chains
          else rules_loop table prefixes rules chains
      | _ => rules_loop table prefixes rules chains
      end
  end.

Fixpoint remove_chains (table : string) (chains : list string) : M unit :=
  match chains with
  | [] => mret tt
  | chain :: chains =>
      _ ← ignore (runIptables table ["-F"; chain]);
      _ ← ignore (runIptables table ["-X"; chain]);
      remove_chains table chains
  end.

(** The order of the set of chains is that of [range]. *)
Definition cleanupManagedIptablesRules (table : string) (prefixes : list string) : M unit :=
  rules ← iptablesRules table;
  chains ← rules_loop table prefixes rules ∅;
  remove_chains table (range_map (gset_to_gmap tt chains)).*1.

Definition cleanupManagedRulesOnStart : M unit :=
  _ ← cleanupManagedIptablesRules "nat" ["RAIND-SVC-"; "RAIND-SNAT-"];
  cleanupManagedIptablesRules "" ["RAIND-FWD-"].
End controller.
