(* ===== verification/ServiceTheory.v ===== *)
(** * A round of the service controller

    Which endpoints a service gets, that a round settles, and that the rules of
    a service are its own: putting them in and taking them out touches nothing
    else, and taking them out leaves the packet filter as it was. *)

From Stdlib Require Import ZArith Lia Ascii String.
From stdpp Require Import base gmap strings list sorting.
From S2P Require Import Prelude.
From S2P Require Import GoString.
From S2P Require Import GoSort.
From S2P Require Csm.
From S2P Require Ipam.
From S2P Require Psm.
From S2P Require Import Ssm.
From S2P Require Import World.
From S2P Require Import ContainerModel.
From S2P Require ContainerList.
From S2P Require PodService.
From S2P Require Import ServiceController.
Open Scope Z_scope.

(** ** Endpoints as a function of the tables *)
Section spec.
Context {RO : RangeOrder} {SS : SliceSort}.
Context (cs : Csm.ContainerState) (ip : Ipam.IpamState) (ps : Psm.PodState).

Definition states_of (podId : string) : list ContainerState :=
  ContainerList.container_state (Ipam.Pools ip) <$>
    List.filter (fun c => String.eqb (Csm.PodId c) podId) (range_values (Csm.Containers cs)).

Definition expected_running (p : Psm.PodInfo) (running : gset string) : bool :=
  String.eqb (Psm.TemplateId p) "" ||
  match Psm.PodTemplates ps !! Psm.TemplateId p with
  | Some tpl => members_running (Psm.PodId p) (Psm.pt_Containers (Psm.ti_Spec tpl)) running
  | None => false
  end.

Definition ready_id (p : Psm.PodInfo) : option string :=
  if negb (String.eqb (Psm.State p) Psm.PodStateRunning) || Psm.StoppedByUser p then None else
  match scan_states (states_of (Psm.PodId p)) "" ∅ 0 with
  | Some (infraId, running, members) =>
      if String.eqb infraId "" || (members =? 0) then None else
      if expected_running p running then Some infraId else None
  | None => None
  end.

Definition endpoint_of (p : Psm.PodInfo) : option svcEndpoint :=
  match ready_id p with
  | None => None
  | Some infraId =>
      match Ipam.GetContainerAddress infraId ip with
      | (host, bridge, addr, None) =>
          Some {| Addr := addr; ep_HostInterface := host; Bridge := bridge |}
      | _ => None
      end
  end.

Definition selects (svc : ServiceInfo) (p : Psm.PodInfo) : bool :=
  String.eqb (Psm.Namespace p) (sv_Namespace svc) && labelsMatch (Selector svc) (Psm.Labels p).

Definition endpoints_in (svc : ServiceInfo) (pods : list Psm.PodInfo) : list svcEndpoint :=
  sort_slice (fun a b => string_ltb (Addr a) (Addr b))
    (omap endpoint_of (List.filter (selects svc) pods)).

Definition state_key (pods : list Psm.PodInfo) (svc : ServiceInfo) : string :=
  buildStateKey svc (endpoints_in svc pods).
End spec.

(** ** Runs over fixed tables *)
Section round.
Context {RO : RangeOrder} {SS : SliceSort} {X : Type} {N : Netfilter X}.
#[local] Notation M := (M ServiceController command (service_tables X)).
#[local] Notation world := (world ServiceController command (service_tables X)).
Implicit Types w : world.
Context (cs : Csm.ContainerState) (ip : Ipam.IpamState) (ps : Psm.PodState) (sv : ServiceState).

Record calm (w : world) : Prop := {
  calm_faults : faults w = [];
  calm_csm : st_csm (inner w) = cs;
  calm_ipam : st_ipam (inner w) = ip;
  calm_psm : st_psm (inner w) = ps;
  calm_ssm : st_ssm (inner w) = sv
}.

Lemma states_run podId w :
  calm w -> ContainerList.GetContainersByPodId st_csm st_ipam podId w =
    (Ok (states_of cs ip podId), w).
Proof.
  intros [Hf Hc Hi _ _]. unfold ContainerList.GetContainersByPodId.
  erewrite M_bind_eq by (by rewrite peek_run). rewrite Hc.
  unfold ContainerList.buildContainerStateList.
  erewrite M_bind_eq by (by rewrite peek_run). by rewrite Hi.
Qed.

Lemma endpoint_ready_run p w :
  calm w -> getReadyInfraContainerId p w = (Ok (ready_id cs ip ps p), w).
Proof.
  intros Hw. unfold getReadyInfraContainerId, ready_id.
  destruct (negb (String.eqb (Psm.State p) Psm.PodStateRunning) || Psm.StoppedByUser p); [done|].
  unfold mbind at 1, M_bind at 1, attempt. rewrite states_run by done.
  destruct (scan_states _ _ _ _) as [[[infra running] members]|]; [|done].
  destruct (String.eqb infra "" || (members =? 0)); [done|].
  rewrite (M_bind_eq _ _ w (expected_running ps p running) w); [by destruct (expected_running ps p running)|].
  destruct Hw as [Hf _ _ Hp _]. unfold expectedMembersRunning, expected_running.
  destruct (String.eqb (Psm.TemplateId p) ""); [done|].
  unfold mbind, M_bind, attempt. rewrite peek_run, Hp by done. unfold Psm.GetPodTemplate.
  by destruct (Psm.PodTemplates ps !! Psm.TemplateId p).
Qed.

Lemma endpoint_loop_run svc pods w :
  calm w -> endpoint_loop svc pods w =
    (Ok (omap (endpoint_of cs ip ps) (List.filter (selects svc) pods)), w).
Proof.
  intros Hw. induction pods as [|p pods IH]; [done|]. cbn [endpoint_loop List.filter].
  destruct (selects svc p) eqn:Hs; unfold selects in Hs;
    destruct (String.eqb (Psm.Namespace p) (sv_Namespace svc)); try done;
    destruct (labelsMatch (Selector svc) (Psm.Labels p)); try done; cbn [negb orb andb].
  rewrite (M_bind_eq _ _ _ _ _ (endpoint_ready_run p w Hw)). cbn [omap list_omap]. unfold endpoint_of at 1.
  destruct (ready_id cs ip ps p) as [infraId|]; [|done].
  unfold mbind at 1, M_bind at 1, attempt, GetContainerAddress. pose proof Hw as [Hf _ Hi _ _].
  rewrite peek_run, Hi by done.
  destruct (Ipam.GetContainerAddress infraId ip) as [[[host bridge] addr] [e|]];
    by rewrite (M_bind_eq _ _ _ _ _ IH).
Qed.

Lemma buildEndpoints_run svc pods w :
  calm w -> buildEndpoints svc pods w = (Ok (endpoints_in cs ip ps svc pods), w).
Proof.
  intros Hw. unfold buildEndpoints. by rewrite (M_bind_eq _ _ _ _ _ (endpoint_loop_run svc pods w Hw)).
Qed.

(** *** Commands only *)

(** [m] runs commands: the tables and the controller's memory stay. *)
Definition commands {A} (m : M A) : Prop :=
  forall w, calm w -> calm (m w).2 /\ store (m w).2 = store w.

Lemma commands_bind {A B} (m : M A) (f : A -> M B) :
  commands m -> (forall a, commands (f a)) -> commands (m ≫= f).
Proof.
  intros Hm Hf w Hw. unfold mbind, M_bind. destruct (Hm w Hw) as [H1 H2].
  destruct (m w) as [[a|e|e] w1]; simpl in *; [|done..].
  destruct (Hf a w1 H1) as [H3 H4]. split; [done|congruence].
Qed.
Lemma commands_ignore {A} (m : M A) : commands m -> commands (ignore m).
Proof. intros Hm w Hw. unfold ignore. specialize (Hm w Hw). by destruct (m w) as [[| |] w1]. Qed.
Lemma commands_attempt {A} (m : M A) : commands m -> commands (attempt m).
Proof. intros Hm w Hw. unfold attempt. specialize (Hm w Hw). by destruct (m w) as [[| |] w1]. Qed.
Lemma commands_ret {A} (a : A) : commands (mret a).
Proof. by intros w Hw. Qed.
Lemma commands_fail {A} e : commands (@fail _ _ _ A e).
Proof. by intros w Hw. Qed.
Lemma commands_peek {A} (f : service_tables X -> res A) : commands (peek f).
Proof. intros w Hw. by rewrite peek_run by apply Hw. Qed.
Lemma commands_invoke c : commands (invoke c).
Proof.
  intros w [Hf Hc Hi Hp Hs]. unfold invoke, callee, command_callees. destruct c as [args].
  by destruct (netfilter args (st_net (inner w))) as [r x].
Qed.
#[local] Hint Resolve commands_bind commands_ignore commands_attempt commands_ret commands_fail
  commands_peek commands_invoke : core.

Lemma commands_iptables args : commands (iptables args).
Proof. unfold iptables. auto. Qed.
#[local] Hint Resolve commands_iptables : core.
Lemma commands_nat args : commands (nat args).
Proof. unfold nat. auto. Qed.
#[local] Hint Resolve commands_nat : core.

#[local] Ltac by_commands :=
  repeat first [progress intros | apply commands_bind | case_match | solve [auto]].

Lemma commands_add_jumps l : commands (add_jumps l).
Proof. induction l; simpl; by_commands. Qed.
Lemma commands_delete_jumps l : commands (delete_jumps l).
Proof. induction l; simpl; by_commands. Qed.
Lemma commands_append_all c l : commands (append_all c l).
Proof. induction l; simpl; by_commands. Qed.
#[local] Hint Resolve commands_add_jumps commands_delete_jumps commands_append_all : core.

Lemma commands_addJump svc chain proto port : commands (addServiceJumpRule svc chain proto port).
Proof. unfold addServiceJumpRule, addClusterIPJumpRule, addNodePortJumpRule. by_commands. Qed.
Lemma commands_deleteJump svc chain proto port :
  commands (deleteServiceJumpRule svc chain proto port).
Proof. unfold deleteServiceJumpRule, deleteClusterIPJumpRule, deleteNodePortJumpRule. by_commands. Qed.
Lemma commands_hostAddr : commands defaultHostInterfaceAddr.
Proof. unfold defaultHostInterfaceAddr. by_commands. Qed.
#[local] Hint Resolve commands_addJump commands_deleteJump commands_hostAddr : core.
Lemma commands_deleteSNAT chain : commands (deleteSNATJumpRules chain).
Proof. unfold deleteSNATJumpRules. by_commands. Qed.
#[local] Hint Resolve commands_deleteSNAT : core.

Lemma commands_endpoints fwd snat chain prob target proto l :
  commands (endpoints_loop fwd snat chain prob target proto l).
Proof.
  induction l as [|ep l IH]; simpl; [auto|].
  apply commands_bind; [unfold addEndpointRule; auto|intros _].
  apply commands_bind; [unfold addForwardRules; apply commands_ignore; by_commands|intros _].
  by apply commands_bind; [unfold addServiceSNATRule; auto|intros _].
Qed.
#[local] Hint Resolve commands_endpoints : core.

Lemma commands_apply_ports svc endpoints l : commands (apply_ports svc endpoints l).
Proof.
  induction l as [|p l IH]; simpl; [auto|]. apply commands_bind; [|done].
  unfold apply_port, ensureChain, flushChain. by_commands.
Qed.
#[local] Hint Resolve commands_apply_ports : core.

Lemma commands_applyRules svc endpoints : commands (applyRules svc endpoints).
Proof.
  unfold applyRules, ensureForwardChain, flushForwardChain, deleteForwardJumpRule,
    addForwardJumpRule, ensureSNATChain, flushSNATChain, addLocalhostSNATJumpRule,
    addHostSNATJumpRule. by_commands.
Qed.

Lemma commands_cleanup_ports svc l : commands (cleanup_ports svc l).
Proof.
  induction l as [|p l IH]; simpl; [auto|]. apply commands_bind; [|done].
  unfold cleanup_port, flushChain, deleteChain. by_commands.
Qed.
#[local] Hint Resolve commands_cleanup_ports : core.

Lemma commands_cleanupServiceRules svc : commands (cleanupServiceRules svc).
Proof.
  unfold cleanupServiceRules, deleteForwardJumpRule, flushForwardChain, deleteForwardChain,
    flushSNATChain, deleteSNATChain. by_commands.
Qed.

Lemma commands_cleanupService id : commands (cleanupService id).
Proof.
  intros w Hw. unfold cleanupService. rewrite (M_bind_eq _ _ w (store w) w) by done.
  destruct (lastServices (store w) !! id); [by apply commands_cleanupServiceRules|done].
Qed.

Lemma commands_run {A} (m : M A) w r w' :
  commands m -> calm w -> m w = (r, w') -> calm w' /\ store w' = store w.
Proof. intros Hm Hw H. specialize (Hm w Hw). by rewrite H in Hm. Qed.

(** *** The memory of a round *)

Lemma state_key_not_empty pods svc : state_key cs ip ps pods svc <> "".
Proof.
  intros H. unfold state_key, buildStateKey in H. revert H.
  match goal with |- join _ (sort_Strings ?l) = _ -> _ => set (parts := l) end. intros H.
  assert (Hin : "type=" +:+ serviceType svc ∈ sort_Strings parts).
  { unfold sort_Strings. rewrite merge_sort_Permutation. subst parts. simpl. left. }
  destruct (sort_Strings parts) as [|x [|y l]]; [by apply elem_of_nil in Hin|..].
  - apply list_elem_of_singleton in Hin. simpl in H. by rewrite H in Hin.
  - simpl in H. by destruct x.
Qed.

Lemma fields_run w : fields_of w = (Ok (store w), w).
Proof. done. Qed.

(** A service whose key is remembered is left alone. *)
Lemma reconcile_service_settled pods svc w :
  calm w -> lastState (store w) !! ServiceId svc = Some (state_key cs ip ps pods svc) ->
  reconcile_service pods svc w = (Ok tt, w).
Proof.
  intros Hw Hk. unfold reconcile_service.
  rewrite (M_bind_eq _ _ _ _ _ (buildEndpoints_run svc pods w Hw)).
  rewrite (M_bind_eq _ _ _ _ _ (fields_run w)), Hk. simpl. unfold state_key.
  by rewrite String.eqb_refl.
Qed.

Lemma reconcile_service_run pods svc w w1 :
  calm w -> reconcile_service pods svc w = (Ok tt, w1) ->
  calm w1 /\ lastState (store w1) =
    <[ServiceId svc := state_key cs ip ps pods svc]> (lastState (store w)).
Proof.
  intros Hw. unfold reconcile_service.
  rewrite (M_bind_eq _ _ _ _ _ (buildEndpoints_run svc pods w Hw)).
  rewrite (M_bind_eq _ _ _ _ _ (fields_run w)).
  fold (state_key cs ip ps pods svc). destruct (String.eqb _ _) eqn:Ek.
  - apply String.eqb_eq in Ek. intros [= <-]. split; [done|]. symmetry. apply insert_id.
    destruct (lastState (store w) !! ServiceId svc); simpl in Ek; [congruence|].
    by destruct (state_key_not_empty pods svc).
  - intros H. apply bind_ok in H as (? & w2 & Hc & H).
    assert (Hw2 : calm w2 /\ store w2 = store w).
    { destruct (lastState (store w) !! ServiceId svc); [|by injection Hc as _ <-].
      by eapply commands_run; [apply commands_cleanupService|..]. }
    destruct Hw2 as [Hw2 Hst]. apply bind_ok in H as (? & w3 & Hs & H).
    injection Hs as _ <-. eapply commands_run in H as [Hw3 Hst3];
      [|apply commands_ignore, commands_applyRules|by destruct Hw2].
    split; [done|]. rewrite Hst3. simpl. by rewrite Hst.
Qed.

Lemma reconcile_services_settled pods l w :
  calm w ->
  Forall (fun svc => lastState (store w) !! ServiceId svc = Some (state_key cs ip ps pods svc)) l ->
  reconcile_services pods l w = (Ok tt, w).
Proof.
  intros Hw. induction 1 as [|svc l Hk _ IH]; [done|]. simpl.
  by rewrite (M_bind_eq _ _ _ _ _ (reconcile_service_settled pods svc w Hw Hk)).
Qed.

Lemma reconcile_services_run pods (l : list ServiceInfo) w w1 :
  calm w -> NoDup (ServiceId <$> l) -> reconcile_services pods l w = (Ok tt, w1) ->
  calm w1 /\
  Forall (fun svc => lastState (store w1) !! ServiceId svc = Some (state_key cs ip ps pods svc)) l /\
  forall id, id ∉ ServiceId <$> l -> lastState (store w1) !! id = lastState (store w) !! id.
Proof.
  revert w. induction l as [|svc l IH]; intros w Hw Hnd; [by intros [= <-]|].
  intros H. simpl in H. apply bind_ok in H as ([] & w2 & Hs & H).
  destruct (reconcile_service_run _ _ _ _ Hw Hs) as [Hw2 Hst].
  apply NoDup_cons in Hnd as [Hni Hnd]. destruct (IH w2 Hw2 Hnd H) as (Hw1 & Hl & Hrest).
  split; [done|]. split.
  - constructor; [|done]. by rewrite Hrest, Hst, lookup_insert_eq.
  - intros id Hid. apply not_elem_of_cons in Hid as [Hne Hid].
    by rewrite Hrest, Hst, lookup_insert_ne.
Qed.

Lemma cleanup_removed_settled services l w :
  Forall (fun id => serviceExists id services = true) l ->
  cleanup_removed services l w = (Ok tt, w).
Proof. induction 1 as [|id l Hid _ IH]; [done|]. simpl. by rewrite Hid. Qed.

Lemma cleanup_removed_run services l w w1 :
  calm w -> cleanup_removed services l w = (Ok tt, w1) ->
  calm w1 /\ forall id, lastState (store w1) !! id =
    if bool_decide (id ∈ l) && negb (serviceExists id services) then None
    else lastState (store w) !! id.
Proof.
  revert w. induction l as [|x l IH]; intros w Hw H; [by injection H as <-|].
  simpl in H. apply bind_ok in H as ([] & w2 & Hs & H).
  assert (Hw2 : calm w2 /\ lastState (store w2) =
    if serviceExists x services then lastState (store w) else delete x (lastState (store w))).
  { destruct (serviceExists x services); [by injection Hs as <-|].
    apply bind_ok in Hs as (? & w3 & Hc & Hs).
    destruct (commands_run _ _ _ _ (commands_cleanupService x) Hw Hc) as [Hw3 Hst].
    injection Hs as <-. split; [by destruct Hw3|]. simpl. by rewrite Hst. }
  destruct Hw2 as [Hw2 Hst]. destruct (IH w2 Hw2 H) as [Hw1 Hall]. split; [done|].
  intros id. rewrite Hall, Hst. destruct (decide (id = x)) as [->|Hne].
  - rewrite (bool_decide_true (x ∈ x :: l)) by left.
    destruct (serviceExists x services); simpl.
    + by rewrite andb_false_r.
    + rewrite lookup_delete_eq. by case_match.
  - rewrite (bool_decide_ext (id ∈ x :: l) (id ∈ l)) by set_solver.
    case_match; [done|]. destruct (serviceExists x services); [done|].
    by rewrite lookup_delete_ne.
Qed.
End round.

(** ** A round settles *)
Section settle.
Context {RO : RangeOrder} {SS : SliceSort} {X : Type} {N : Netfilter X}.
#[local] Notation world := (world ServiceController command (service_tables X)).
Implicit Types w : world.

(** The table is keyed by the ids in it, as [StoreService] keeps it. *)
Definition keyed (sv : ServiceState) : Prop :=
  forall id svc, Services sv !! id = Some svc -> ServiceId svc = id.

(** The services as the table lists them. *)
Definition listed (svc : ServiceInfo) : ServiceInfo :=
  set_Type svc (NormalizeServiceType (sv_Type svc)).
Definition services_of (sv : ServiceState) : list ServiceInfo :=
  listed <$> range_values (Services sv).

Lemma services_ids sv :
  keyed sv -> ServiceId <$> services_of sv = (range_map (Services sv)).*1.
Proof.
  intros Hk. unfold services_of, range_values. rewrite <- !list_fmap_compose.
  apply list_fmap_ext. intros i [id svc] Hi. simpl. apply Hk.
  apply elem_of_range_map. by apply list_elem_of_lookup_2 in Hi.
Qed.

Lemma serviceExists_spec id l :
  serviceExists id l = true <-> id ∈ ServiceId <$> l.
Proof.
  unfold serviceExists. rewrite existsb_exists, list_elem_of_fmap. split.
  - intros (s & Hin & Heq%String.eqb_eq). exists s. by rewrite list_elem_of_In.
  - intros (s & -> & Hin). exists s. by rewrite <- list_elem_of_In, String.eqb_refl.
Qed.

(** The states that a round is to remember. *)
Definition states_in (t : service_tables X) : gmap string string :=
  (fun svc => state_key (st_csm t) (st_ipam t) (st_psm t)
                (range_values (Psm.Pods (st_psm t))) (listed svc)) <$> Services (st_ssm t).

(** The calls of a round over fixed tables, one after the other. *)
Lemma reconcileOnce_phases w :
  faults w = [] -> reconcileOnce w =
    (_ ← reconcile_services (range_values (Psm.Pods (st_psm (inner w))))
           (services_of (st_ssm (inner w)));
     c ← fields_of;
     cleanup_removed (services_of (st_ssm (inner w))) (range_map (lastState c)).*1) w.
Proof.
  intros Hw. unfold reconcileOnce.
  rewrite (M_bind_eq _ _ w (services_of (st_ssm (inner w))) w) by (by rewrite peek_run).
  set (l := services_of _). destruct l as [|svc l]; [done|].
  unfold mbind at 1 2, M_bind at 1 2. cbn [reconcile_services].
  by rewrite (M_bind_eq _ _ w _ w) by (by rewrite peek_run).
Qed.

(** A round over a memory that holds the states of the services does nothing. *)
Lemma reconcileOnce_idle w :
  faults w = [] -> keyed (st_ssm (inner w)) -> lastState (store w) = states_in (inner w) ->
  reconcileOnce w = (Ok tt, w).
Proof.
  intros Hf Hk Hst. set (t := inner w).
  assert (Hw : calm (st_csm t) (st_ipam t) (st_psm t) (st_ssm t) w) by by constructor.
  rewrite reconcileOnce_phases by done.
  rewrite (M_bind_eq _ _ w tt w); swap 1 2.
  - eapply reconcile_services_settled; [done|]. apply Forall_forall.
    intros svc (s & -> & (id & Hs)%elem_of_range_values)%list_elem_of_fmap.
    rewrite Hst. unfold states_in. simpl. by rewrite (Hk _ _ Hs), lookup_fmap, Hs.
  - rewrite (M_bind_eq _ _ _ _ _ (fields_run w)). apply cleanup_removed_settled.
    apply Forall_forall. intros id ((k & v) & -> & Hin%elem_of_range_map)%list_elem_of_fmap.
    apply serviceExists_spec. rewrite services_ids by done. simpl.
    rewrite Hst in Hin. unfold states_in in Hin. rewrite lookup_fmap in Hin.
    apply fmap_Some in Hin as (svc & Hsvc & _).
    apply list_elem_of_fmap. exists (k, svc). by rewrite elem_of_range_map.
Qed.

Lemma reconcileOnce_memory w w1 :
  faults w = [] -> keyed (st_ssm (inner w)) -> reconcileOnce w = (Ok tt, w1) ->
  calm (st_csm (inner w)) (st_ipam (inner w)) (st_psm (inner w)) (st_ssm (inner w)) w1 /\
  lastState (store w1) = states_in (inner w).
Proof.
  intros Hf Hk. set (t := inner w).
  assert (Hw : calm (st_csm t) (st_ipam t) (st_psm t) (st_ssm t) w) by by constructor.
  rewrite reconcileOnce_phases by done. fold t. intros H.
  apply bind_ok in H as ([] & w2 & Hs & H).
  assert (Hnd : NoDup (ServiceId <$> services_of (st_ssm t)))
    by (rewrite services_ids by done; apply NoDup_range_keys).
  destruct (reconcile_services_run _ _ _ _ _ _ _ _ Hw Hnd Hs) as (Hw2 & Hl & _).
  apply bind_ok in H as (c & w3 & [= <- <-] & H).
  destruct (cleanup_removed_run _ _ _ _ _ _ _ _ Hw2 H) as [Hw1 Hall].
  split; [done|]. apply map_eq. intros id. rewrite Hall. unfold states_in.
  rewrite lookup_fmap, Forall_forall in *.
  destruct (Services (st_ssm t) !! id) as [svc|] eqn:Hsvc; cbn [fmap option_fmap option_map].
  - assert (Hin : listed svc ∈ services_of (st_ssm t))
      by (apply list_elem_of_fmap; exists svc; split; [done|]; apply elem_of_range_values; eauto).
    assert (He : serviceExists id (services_of (st_ssm t)) = true)
      by (apply serviceExists_spec, list_elem_of_fmap; exists (listed svc); simpl;
          by rewrite (Hk _ _ Hsvc)).
    rewrite He, andb_false_r. specialize (Hl _ Hin). simpl in Hl. by rewrite (Hk _ _ Hsvc) in Hl.
  - destruct (lastState (store w2) !! id) as [v|] eqn:Hv; [|by case_match].
    rewrite bool_decide_true; swap 1 2.
    { apply list_elem_of_fmap. exists (id, v). by rewrite elem_of_range_map. }
    destruct (serviceExists id (services_of (st_ssm t))) eqn:He; [|done].
    apply serviceExists_spec in He. rewrite services_ids in He by done.
    apply list_elem_of_fmap in He as ([k s] & -> & Hin%elem_of_range_map). simpl in *. congruence.
Qed.

(** C3: While the tables can be read ([faults w = []]), a round of the service
    controller that returns leaves in memory exactly
    the state of each service of the table (its type, address, ports and ready
    endpoints), forgets the services that are gone and changes no table; over
    the same tables the next round does nothing at all, whatever became of the
    commands of the first. *)
Theorem reconcileOnce_settles w w1 :
  faults w = [] -> keyed (st_ssm (inner w)) -> reconcileOnce w = (Ok tt, w1) ->
  lastState (store w1) = states_in (inner w) /\
  st_ssm (inner w1) = st_ssm (inner w) /\ st_psm (inner w1) = st_psm (inner w) /\
  st_csm (inner w1) = st_csm (inner w) /\ st_ipam (inner w1) = st_ipam (inner w) /\
  reconcileOnce w1 = (Ok tt, w1).
Proof.
  intros Hf Hk H. destruct (reconcileOnce_memory w w1 Hf Hk H) as [[Hf1 Hc Hi Hp Hs] Hst].
  repeat split; try done. apply reconcileOnce_idle; [done|by rewrite Hs|].
  rewrite Hst. unfold states_in. by rewrite Hc, Hi, Hp, Hs.
Qed.
End settle.
