(* ===== verification/Netfilter.v ===== *)
(** * The packet filter behind the service controller

    What the manual of [iptables] says of the options the controller uses, as
    edits of chains of rules, and what a filter looks like once the chains of
    an owner and the jumps to them are taken out. *)

From Stdlib Require Import ZArith Lia String.
From stdpp Require Import base gmap strings list.
From S2P Require Import Prelude.
From S2P Require Import GoString.
From S2P Require Import World.
From S2P Require Import ServiceController.
Open Scope Z_scope.

(** ** Edits *)

(** Chains are known by table and name. *)
#[export] Instance chain_countable : Countable (string * string) | 0 := prod_countable.

(** The rules of the chains of each table. *)
Notation rule := (list string) (only parsing).
Notation tables := (gmap (string * string) (list rule)).

Inductive edit :=
| NewChain
| Flush
| RemoveChain
| Append (r : rule)
| Insert (r : rule)
| Delete (r : rule).

(** The edit that a command line asks for, with its table and chain. *)
Definition edit_of (args : list string) : option (string * string * edit) :=
  let '(table, args) :=
    match args with
    | o :: t :: rest => if String.eqb o "-t" then (t, rest) else ("filter", args)
    | _ => ("filter", args)
    end in
  match args with
  | o :: chain :: rest =>
      if String.eqb o "-N" then Some (table, chain, NewChain)
      else if String.eqb o "-F" then Some (table, chain, Flush)
      else if String.eqb o "-X" then Some (table, chain, RemoveChain)
      else if String.eqb o "-A" then Some (table, chain, Append rest)
      else if String.eqb o "-D" then Some (table, chain, Delete rest)
      else if String.eqb o "-I" then
        match rest with
        | n :: r => if String.eqb n "1" then Some (table, chain, Insert r) else None
        | [] => None
        end
      else None
  | _ => None
  end.

Fixpoint remove_first (r : rule) (l : list rule) : list rule :=
  match l with
  | [] => []
  | x :: l => if decide (x = r) then l else x :: remove_first r l
  end.

(** A rule of the table jumps to the chain. *)
Definition referenced (k : string * string) (v : tables) : bool :=
  existsb (fun kl => String.eqb kl.1.1 k.1 &&
    existsb (fun r => String.eqb (jumpTarget r) k.2) kl.2) (map_to_list v).

(** The filter after the edit; [None] when the command refuses it: the chain is
    there already or is missing, it is in use, there is no such rule. *)
Definition effect (k : string * string) (e : edit) (v : tables) : option tables :=
  match v !! k, e with
  | None, NewChain => Some (<[k := []]> v)
  | Some _, Flush => Some (<[k := []]> v)
  | Some l, RemoveChain =>
      if bool_decide (l = []) && negb (referenced k v) then Some (delete k v) else None
  | Some l, Append r => Some (<[k := l ++ [r]]> v)
  | Some l, Insert r => Some (<[k := r :: l]> v)
  | Some l, Delete r => if decide (r ∈ l) then Some (<[k := remove_first r l]> v) else None
  | _, _ => None
  end.

(** The edits that only take away. *)
Definition removal (e : edit) : bool :=
  match e with Flush | RemoveChain | Delete _ => true | _ => false end.

(** A command does its edit and succeeds, or fails and changes nothing. *)
Class NetfilterLaw (X : Type) {N : Netfilter X} := {
  rules : X -> tables;
  netfilter_edits args x k e : edit_of args = Some (k, e) ->
    (exists out v, effect k e (rules x) = Some v /\
       (netfilter args x).1 = Ok out /\ rules (netfilter args x).2 = v) \/
    (exists err, (netfilter args x).1 = Err err /\ rules (netfilter args x).2 = rules x)
}.
(** Removals that can be done are not refused. *)
Class NetfilterSteady (X : Type) {N : Netfilter X} {L : NetfilterLaw X} :=
  netfilter_removes args x k e v : edit_of args = Some (k, e) -> removal e = true ->
    effect k e (rules x) = Some v -> rules (netfilter args x).2 = v.

(** ** Removing a rule *)

Lemma remove_first_sublist r l : sublist (remove_first r l) l.
Proof.
  induction l as [|x l IH]; simpl; [done|]. case_decide; [by constructor|by constructor].
Qed.

Lemma remove_first_filter (p : rule -> bool) r l :
  p r = false -> List.filter p (remove_first r l) = List.filter p l.
Proof.
  intros Hr. induction l as [|x l IH]; simpl; [done|]. case_decide; [by subst; rewrite Hr|].
  simpl. by rewrite IH.
Qed.

(** The only occurrence of a rule is gone. *)
Lemma remove_first_gone (p : rule -> bool) r l :
  p r = true -> NoDup (List.filter p l) -> r ∉ remove_first r l.
Proof.
  intros Hr. induction l as [|x l IH]; simpl; [intros _; apply not_elem_of_nil|].
  case_decide as Hx.
  - subst x. rewrite Hr. intros [Hni _]%NoDup_cons Hin. apply Hni.
    apply list_elem_of_In, filter_In. by rewrite <- list_elem_of_In.
  - intros Hnd Hin. apply elem_of_cons in Hin as [->|Hin]; [done|].
    apply IH; [|done]. destruct (p x); [by apply NoDup_cons in Hnd as [_ Hnd]|done].
Qed.

Lemma remove_first_other r s l : s <> r -> s ∈ l -> s ∈ remove_first r l.
Proof.
  intros Hs. induction l as [|x l IH]; simpl; [done|]. intros Hin. case_decide as Hx.
  - subst x. by apply elem_of_cons in Hin as [->|Hin].
  - apply elem_of_cons in Hin as [->|Hin]; [left|right; auto].
Qed.

Lemma referenced_spec k v :
  referenced k v = true <->
  exists c l r, v !! (k.1, c) = Some l /\ r ∈ l /\ jumpTarget r = k.2.
Proof.
  unfold referenced. rewrite existsb_exists. split.
  - intros ([[t c] l] & Hin & [Ht Hr]%andb_true_iff). simpl in *.
    apply String.eqb_eq in Ht as ->. apply existsb_exists in Hr as (r & Hr & Hj%String.eqb_eq).
    exists c, l, r. rewrite list_elem_of_In. split; [|done].
    apply elem_of_map_to_list. by apply list_elem_of_In.
  - intros (c & l & r & Hl & Hr & Hj). exists ((k.1, c), l). split.
    + apply list_elem_of_In, elem_of_map_to_list, Hl.
    + simpl. rewrite String.eqb_refl. apply existsb_exists. exists r.
      rewrite <- list_elem_of_In, Hj. by rewrite String.eqb_refl.
Qed.

(** ** Without the chains of an owner *)
Section owner.
Context (own : string * string -> bool).
Implicit Types v : tables.

(** The rule jumps to a chain of the owner. *)
Definition targets (table : string) (r : rule) : bool := own (table, jumpTarget r).

Definition erase v : tables :=
  map_imap (fun k l => if own k then None
                       else Some (List.filter (fun r => negb (targets k.1 r)) l)) v.

Lemma lookup_erase v k :
  erase v !! k = if own k then None
                 else List.filter (fun r => negb (targets k.1 r)) <$> v !! k.
Proof.
  unfold erase. rewrite map_lookup_imap. destruct (v !! k); simpl; [done|]. by destruct (own k).
Qed.

(** The edit is of a chain of the owner, or of a jump to one. *)
Definition touches (k : string * string) (e : edit) : Prop :=
  own k = true \/
  match e with Append r | Insert r | Delete r => targets k.1 r = true | _ => False end.

(** Any edit changes its chain only. *)
Lemma effect_other k e v v' i : effect k e v = Some v' -> i <> k -> v' !! i = v !! i.
Proof.
  unfold effect. intros H Hi. destruct (v !! k), e; try done; repeat case_match; try done;
    injection H as <-; by rewrite ?lookup_insert_ne, ?lookup_delete_ne by done.
Qed.

Lemma erase_effect k e v v' : touches k e -> effect k e v = Some v' -> erase v' = erase v.
Proof.
  intros Ht He. apply map_eq. intros i. rewrite !lookup_erase.
  destruct (decide (i = k)) as [->|Hi]; [|by rewrite (effect_other _ _ _ _ _ He Hi)].
  destruct (own k) eqn:Hk; [done|]. destruct Ht as [Ht|Ht]; [congruence|].
  unfold effect in He. destruct (v !! k) as [l|], e as [| | |r|r|r]; try done.
  - injection He as <-. rewrite lookup_insert_eq. simpl. rewrite List.filter_app. simpl.
    by rewrite Ht, app_nil_r.
  - injection He as <-. rewrite lookup_insert_eq. simpl. by rewrite Ht.
  - case_decide; [|done]. injection He as <-. rewrite lookup_insert_eq. simpl.
    by rewrite remove_first_filter by by rewrite Ht.
Qed.

(** ** Only taking away *)

(** Each chain is one of before, without some of its rules. *)
Definition shrinks v v' : Prop :=
  forall k l', v' !! k = Some l' -> exists l, v !! k = Some l /\ sublist l' l.

#[export] Instance shrinks_preorder : PreOrder shrinks.
Proof.
  split; [by intros v k l Hl; exists l|]. intros v1 v2 v3 H1 H2 k l3 H3.
  destruct (H2 _ _ H3) as (l2 & Hl2 & Hs2). destruct (H1 _ _ Hl2) as (l1 & Hl1 & Hs1).
  exists l1. split; [done|by etrans].
Qed.

Lemma effect_shrinks k e v v' : removal e = true -> effect k e v = Some v' -> shrinks v v'.
Proof.
  intros Hr He i l' Hl'. destruct (decide (i = k)) as [->|Hi];
    [|rewrite (effect_other _ _ _ _ _ He Hi) in Hl'; by exists l'].
  unfold effect in He. destruct (v !! k) as [l|] eqn:Hk, e as [| | |r|r|r]; try done.
  - injection He as <-. rewrite lookup_insert_eq in Hl'. injection Hl' as <-.
    exists l. split; [done|apply sublist_nil_l].
  - case_match; [|done]. injection He as <-. by rewrite lookup_delete_eq in Hl'.
  - case_decide; [|done]. injection He as <-. rewrite lookup_insert_eq in Hl'.
    injection Hl' as <-. exists l. split; [done|apply remove_first_sublist].
Qed.

(** With the owner's chains gone and no jumps left, nothing is taken out. *)
Lemma erase_id v :
  (forall k l r, v !! k = Some l -> own k = false /\ (r ∈ l -> targets k.1 r = false)) ->
  erase v = v.
Proof.
  intros H. apply map_eq. intros k. rewrite lookup_erase.
  destruct (v !! k) as [l|] eqn:Hk; [|by destruct (own k)].
  destruct (H k l [] Hk) as [-> _]. simpl. f_equal.
  assert (Hl : forall r, r ∈ l -> targets k.1 r = false) by (intros r; apply (H k l r Hk)).
  clear -Hl. induction l as [|r l IH]; simpl; [done|]. rewrite Hl by left. simpl.
  rewrite IH; [done|]. intros s Hs. apply Hl. by right.
Qed.
End owner.
