(* ===== verification/ServiceRules.v ===== *)
(** * The rules of a service

    Which chains and jumps belong to a service, that putting its rules in and
    taking them out touches nothing else of the packet filter, that taking them
    out removes them all, and what a successful installation leaves. *)

From Stdlib Require Import ZArith Lia Ascii String.
From stdpp Require Import pretty base gmap strings list.
From S2P Require Import Prelude.
From S2P Require Import GoString.
From S2P Require Csm.
From S2P Require Ipam.
From S2P Require Psm.
From S2P Require Import Ssm.
From S2P Require Import World.
From S2P Require Import ServiceController.
From S2P Require Import ServiceTheory.
From S2P Require Import Netfilter.
Open Scope Z_scope.

(** ** Texts that are no option *)

Lemma pretty_N_go_suffix n s : exists a, pretty_N_go n s = (a +:+ s)%string.
Proof.
  revert s. induction (N.lt_wf_0 n) as [n _ IH]. intros s.
  destruct (N.eq_dec n 0%N) as [->|Hn]; [exists ""%string; by rewrite pretty_N_go_0|].
  rewrite pretty_N_go_step by lia.
  destruct (IH (n `div` 10)%N ltac:(apply N.div_lt; lia) (String (pretty_N_char (n `mod` 10)) s))
    as [a Ha].
  exists (a +:+ String (pretty_N_char (n `mod` 10)) "")%string.
  by rewrite Ha, string_app_assoc.
Qed.

(** The last character of a number is a digit. *)
Lemma pretty_positive_last (p : positive) :
  exists a n, pretty p = (a +:+ String (pretty_N_char n) "")%string.
Proof.
  unfold pretty, pretty_positive, pretty, pretty_N. case_decide; [lia|].
  rewrite pretty_N_go_step by lia.
  destruct (pretty_N_go_suffix (N.pos p `div` 10)
    (String (pretty_N_char (N.pos p `mod` 10)) "")) as [a Ha]. eauto.
Qed.

Lemma itoa_no_option z : itoa z <> "-j".
Proof.
  unfold itoa, pretty at 1, pretty_Z. destruct z as [|p|p]; [done|..];
    destruct (pretty_positive_last p) as (a & n & ->); intros H;
    (destruct a as [|x [|y [|z a]]]; try done); injection H;
    unfold pretty_N_char; repeat case_match; intros; simplify_eq.
Qed.

Lemma mask_no_option a : (a +:+ "/32")%string <> "-j".
Proof.
  intros H. apply (f_equal String.length) in H. rewrite string_length_app in H. simpl in H. lia.
Qed.

Lemma mask_not_loopback a : (a +:+ "/32")%string <> "127.0.0.0/8".
Proof.
  intros H. pose proof (f_equal String.length H) as Hl.
  rewrite string_length_app in Hl. simpl in Hl.
  do 9 (destruct a as [|? a]; simpl in Hl; [try lia; discriminate H|]). lia.
Qed.

(** ** What belongs to a service *)

Definition exposed (svc : ServiceInfo) : list ServicePort :=
  List.filter (fun p => negb (sp_Port p =? 0)) (sv_Ports svc).
Definition port_chain (svc : ServiceInfo) (p : ServicePort) : string * string :=
  ("nat", serviceChainName (ServiceId svc) (sp_Port p)).
Definition forward_chain (svc : ServiceInfo) : string * string :=
  ("filter", serviceForwardChainName (ServiceId svc)).
Definition snat_chain (svc : ServiceInfo) : string * string :=
  ("nat", serviceSNATChainName (ServiceId svc)).

Definition chains_of (svc : ServiceInfo) : list (string * string) :=
  forward_chain svc :: snat_chain svc :: (port_chain svc <$> exposed svc).
Definition own (svc : ServiceInfo) (k : string * string) : bool := bool_decide (k ∈ chains_of svc).

(** A rule with its table and chain, from its words after [-t nat -A]. *)
Definition in_nat (words : list string) : (string * string) * rule :=
  match words with
  | chain :: r => (("nat", chain), r)
  | [] => (("nat", ""), [])
  end.

Definition forward_jump (svc : ServiceInfo) : (string * string) * rule :=
  (("filter", "FORWARD"), ["-j"; serviceForwardChainName (ServiceId svc)]).
Definition local_jump (svc : ServiceInfo) : (string * string) * rule :=
  in_nat (localhost_jump (serviceSNATChainName (ServiceId svc))).
Definition interface_jumps (svc : ServiceInfo) (hostAddr : string)
    : list ((string * string) * rule) :=
  if String.eqb hostAddr "" then []
  else [in_nat (host_jump hostAddr (serviceSNATChainName (ServiceId svc)))].
Definition service_jumps (svc : ServiceInfo) (chain proto : string) (port : Z)
    : list (list string) :=
  if String.eqb (serviceType svc) ServiceTypeClusterIP
  then if String.eqb (ClusterIP svc) "" then [] else cluster_jumps chain (ClusterIP svc) proto port
  else node_port_jumps chain proto port.
Definition port_jumps (svc : ServiceInfo) (proto : string) (p : ServicePort)
    : list ((string * string) * rule) :=
  in_nat <$> service_jumps svc (serviceChainName (ServiceId svc) (sp_Port p)) proto (sp_Port p).

Definition jumps_of (svc : ServiceInfo) (hostAddr : string) : list ((string * string) * rule) :=
  forward_jump svc :: local_jump svc :: interface_jumps svc hostAddr ++
  (p ← exposed svc; port_jumps svc "tcp" p ++ port_jumps svc "udp" p).

(** The protocols that the clean-up knows of. *)
Definition known_protocols (svc : ServiceInfo) : bool :=
  forallb (fun p => String.eqb (port_proto p) "tcp" || String.eqb (port_proto p) "udp")
    (sv_Ports svc).

Lemma own_prefix svc k : own svc k = true -> hasPrefix k.2 "RAIND-" = true.
Proof.
  intros H%bool_decide_eq_true. unfold chains_of in H. rewrite !elem_of_cons in H.
  destruct H as [->|[->|(p & -> & _)%list_elem_of_fmap]]; simpl;
    reflexivity.
Qed.

Lemma own_forward svc : own svc (forward_chain svc) = true.
Proof. apply bool_decide_eq_true. by left. Qed.
Lemma own_snat svc : own svc (snat_chain svc) = true.
Proof. apply bool_decide_eq_true. right. by left. Qed.
Lemma own_port svc p : p ∈ exposed svc -> own svc (port_chain svc p) = true.
Proof.
  intros Hp. apply bool_decide_eq_true. right. right. apply list_elem_of_fmap. eauto.
Qed.

(** ** The jumps *)

Lemma split_option (o : string) (l : list string) c :
  o <> "-j" -> jumpTarget (o :: c :: l) = jumpTarget (c :: l).
Proof. intros Ho. cbn [jumpTarget]. by rewrite (proj2 (String.eqb_neq _ _) Ho). Qed.

Lemma host_jump_target hostAddr chain :
  jumpTarget (in_nat (host_jump hostAddr chain)).2 = chain.
Proof.
  simpl. rewrite (proj2 (String.eqb_neq (hostAddr +:+ "/32") "-j")); [done|].
  apply mask_no_option.
Qed.

Lemma service_jump_shape svc chain proto port words :
  proto = "tcp" \/ proto = "udp" -> words ∈ service_jumps svc chain proto port ->
  hasPrefix (in_nat words).1.2 "RAIND-" = false /\ (in_nat words).1.1 = "nat" /\
  jumpTarget (in_nat words).2 = chain.
Proof.
  intros Hp Hw. unfold service_jumps, cluster_jumps, node_port_jumps in Hw.
  pose proof (proj2 (String.eqb_neq _ _) (itoa_no_option port)) as Hn.
  pose proof (proj2 (String.eqb_neq _ _) (mask_no_option (ClusterIP svc))) as Hm.
  repeat case_match; [by apply elem_of_nil in Hw|..];
    (apply elem_of_cons in Hw as [->| ->%list_elem_of_singleton]);
    destruct Hp as [-> | ->]; simpl; by rewrite ?Hn, ?Hm.
Qed.

Lemma not_own svc k : hasPrefix k.2 "RAIND-" = false -> own svc k = false.
Proof. intros Hk. destruct (own svc k) eqn:E; [|done]. apply own_prefix in E. congruence. Qed.

Lemma port_jump_shape svc proto p j :
  proto = "tcp" \/ proto = "udp" -> j ∈ port_jumps svc proto p ->
  own svc j.1 = false /\ (j.1.1, jumpTarget j.2) = port_chain svc p.
Proof.
  intros Hp (words & -> & Hw)%list_elem_of_fmap.
  destruct (service_jump_shape _ _ _ _ _ Hp Hw) as (H1 & H2 & H3).
  split; [by apply not_own|]. unfold port_chain. by rewrite H2, H3.
Qed.

(** The jumps are in chains of others and lead to the service's own. *)
Lemma jumps_shape svc hostAddr j :
  j ∈ jumps_of svc hostAddr -> own svc j.1 = false /\ targets (own svc) j.1.1 j.2 = true.
Proof.
  unfold jumps_of. rewrite !elem_of_cons, elem_of_app. intros [->|[->|[Hj|Hj]]].
  - split; [by apply not_own|apply own_forward].
  - split; [by apply not_own|apply own_snat].
  - unfold interface_jumps in Hj. destruct (String.eqb hostAddr ""); [by apply elem_of_nil in Hj|].
    apply list_elem_of_singleton in Hj as ->. split; [by apply not_own|].
    unfold targets. rewrite host_jump_target. apply own_snat.
  - apply list_elem_of_bind in Hj as (p & Hj & Hp). apply elem_of_app in Hj.
    unfold targets. destruct Hj as [Hj|Hj]; (apply port_jump_shape in Hj as [H1 H2]; [|auto]);
      rewrite H2; by auto using own_port.
Qed.

(** The rules of the service's own chains lead to none of them. *)
Lemma not_managed svc table c : hasPrefix c "RAIND-" = false -> own svc (table, c) = false.
Proof. intros Hc. by apply not_own. Qed.

#[local] Ltac no_own_target :=
  apply not_managed; cbn [endpoint_rule app jumpTarget String.eqb Ascii.eqb Bool.eqb];
  repeat match goal with |- context [String.eqb ?a ?b] => destruct (String.eqb a b) end;
  reflexivity.

Lemma endpoint_rule_leaves svc table addr target proto prob :
  proto = "tcp" \/ proto = "udp" ->
  targets (own svc) table (endpoint_rule addr target proto prob) = false.
Proof. intros [-> | ->]; destruct prob as [prob|]; no_own_target. Qed.
Lemma snat_rule_leaves svc table addr target proto :
  proto = "tcp" \/ proto = "udp" ->
  targets (own svc) table
    ["-d"; addr; "-p"; proto; "--dport"; itoa target; "-j"; "MASQUERADE"] = false.
Proof. intros [-> | ->]; no_own_target. Qed.
Lemma forward_rules_leave svc table ep target proto r :
  proto = "tcp" \/ proto = "udp" -> r ∈ forward_rules ep target proto ->
  targets (own svc) table r = false.
Proof.
  intros Hp Hr. unfold forward_rules in Hr. rewrite !elem_of_cons in Hr.
  destruct Hr as [->|[->|[->|Hr]]]; [..|by apply elem_of_nil in Hr];
    destruct Hp as [-> | ->]; no_own_target.
Qed.

(** ** Commands over the rules *)
Section logic.
Context {X : Type} {N : Netfilter X} {L : NetfilterLaw X}.
#[local] Notation M := (M ServiceController command (service_tables X)).
#[local] Notation world := (world ServiceController command (service_tables X)).
Implicit Types w : world.
Implicit Types v : tables.

Definition rules_of w : tables := rules (st_net (inner w)).

Section triple.
Context (ip : Ipam.IpamState).

(** From rules with [P], over the addresses [ip], a return leaves [Q] and an
    error [R]. *)
Definition triple {A : Type} (P : tables -> Prop) (m : M A) (Q : A -> tables -> Prop)
    (R : tables -> Prop) : Prop := forall w,
  faults w = [] -> st_ipam (inner w) = ip -> P (rules_of w) ->
  faults (m w).2 = [] /\ st_ipam (inner (m w).2) = ip /\
  match (m w).1 with Ok a => Q a | Err _ => R | Panic _ => fun _ => False end (rules_of (m w).2).

Lemma triple_ret {A : Type} (P : tables -> Prop) (a : A) R : triple P (mret a) (fun _ => P) R.
Proof. by intros w Hw Hi HP. Qed.
Lemma triple_fail {A : Type} (P : tables -> Prop) e Q : triple P (@fail _ _ _ A e) Q P.
Proof. by intros w Hw Hi HP. Qed.
Lemma triple_bind {A B : Type} (P : tables -> Prop) (m : M A) (f : A -> M B) Q Q' R :
  triple P m Q R -> (forall a, triple (Q a) (f a) Q' R) -> triple P (m ≫= f) Q' R.
Proof.
  intros Hm Hf w Hw Hi HP. unfold mbind, M_bind. destruct (Hm w Hw Hi HP) as (H1 & H2 & H3).
  destruct (m w) as [[a|e|e] w1]; simpl in *; [|done..].
  exact (Hf a w1 H1 H2 H3).
Qed.
Lemma triple_seq {A B : Type} P (m : M A) (f : M B) (Q : tables -> Prop) Q' R :
  triple P m (fun _ => Q) R -> triple Q f Q' R -> triple P (_ ← m; f) Q' R.
Proof. intros Hm Hf. by eapply triple_bind; [exact Hm|intros a]. Qed.
Lemma triple_ignore {A : Type} (P : tables -> Prop) (m : M A) Q R : triple P m (fun _ => Q) Q -> triple P (ignore m) (fun _ => Q) R.
Proof.
  intros Hm w Hw Hi HP. unfold ignore. destruct (Hm w Hw Hi HP) as (H1 & H2 & H3).
  by destruct (m w) as [[a|e|e] w1].
Qed.
Lemma triple_conseq {A : Type} (P P' : tables -> Prop) (m : M A) (Q Q' : A -> tables -> Prop) (R R' : tables -> Prop) :
  triple P' m Q' R' -> (forall v, P v -> P' v) -> (forall a v, Q' a v -> Q a v) ->
  (forall v, R' v -> R v) -> triple P m Q R.
Proof.
  intros Hm HP HQ HR w Hw Hi H. destruct (Hm w Hw Hi (HP _ H)) as (H1 & H2 & H3). split; [done|].
  split; [done|]. destruct (m w) as [[a|e|e] w1]; simpl in *; auto.
Qed.
(** Facts that hold of the rules or not at all. *)
Lemma triple_pure {A : Type} (H : Prop) (P : tables -> Prop) (m : M A) Q R :
  (H -> triple P m Q R) -> triple (fun v => H /\ P v) m Q R.
Proof. intros Hm w Hw Hi [Hh HP]. by apply Hm. Qed.

Lemma triple_command args k e (P Q R : tables -> Prop) :
  edit_of args = Some (k, e) ->
  (forall v v', P v -> effect k e v = Some v' -> Q v') -> (forall v, P v -> R v) ->
  triple P (iptables args) (fun _ => Q) R.
Proof.
  intros He HQ HR w Hw Hi HP. unfold iptables, mbind, M_bind, invoke, callee, command_callees.
  pose proof (netfilter_edits args (st_net (inner w)) k e He) as Hl.
  destruct (netfilter args (st_net (inner w))) as [r x]. unfold rules_of in *. simpl in *.
  destruct Hl as [(out & v & H1 & -> & H2)|(err & -> & H2)]; simpl; (split; [done|]);
    (split; [done|]); rewrite H2; [by eapply HQ|by apply HR].
Qed.

Lemma triple_command_id args (k : string * string) (e : edit) (P : tables -> Prop) :
  edit_of args = Some (k, e) -> (forall v v', P v -> effect k e v = Some v' -> P v') ->
  triple P (iptables args) (fun _ => P) P.
Proof. intros He HP. by apply (triple_command args k e). Qed.

(** A removal that is not refused. *)
Lemma triple_removal {SN : NetfilterSteady X} args k e (P Q R : tables -> Prop) :
  edit_of args = Some (k, e) -> removal e = true ->
  (forall v v', P v -> effect k e v = Some v' -> Q v') ->
  (forall v, P v -> effect k e v = None -> Q v) ->
  triple P (ignore (iptables args)) (fun _ => Q) R.
Proof.
  intros He Hr HQ HN. apply triple_ignore. intros w Hw Hi HP.
  unfold iptables, mbind, M_bind, invoke, callee, command_callees.
  pose proof (netfilter_edits args (st_net (inner w)) k e He) as Hl.
  pose proof (netfilter_removes args (st_net (inner w)) k e) as Hs.
  destruct (netfilter args (st_net (inner w))) as [r x]. unfold rules_of in *. simpl in *.
  assert (Hx : Q (rules x)).
  { destruct (effect k e (rules (st_net (inner w)))) as [v|] eqn:E.
    - rewrite (Hs v He Hr eq_refl). by eapply HQ.
    - destruct Hl as [(out & v & H1 & _)|(err & _ & ->)]; [done|by apply HN]. }
  by destruct Hl as [(out & v & _ & -> & _)|(err & -> & _)].
Qed.

(** The address of the host's interface. *)
Definition host_addr : string :=
  match Ipam.GetDefaultInterfaceAddr ip with Ok a => address_part a | _ => "" end.

Lemma triple_hostAddr (P : tables -> Prop) R :
  triple P defaultHostInterfaceAddr (fun a v => a = host_addr /\ P v) R.
Proof.
  intros w Hw Hi HP. unfold defaultHostInterfaceAddr, mbind, M_bind, attempt.
  rewrite peek_run, Hi by done. unfold host_addr, Ipam.GetDefaultInterfaceAddr.
  by destruct (String.eqb (Ipam.HostInterfaceAddr ip) "").
Qed.
End triple.

(** ** Nothing else is touched *)

(** [m] leaves the filter as it is but for the service's chains and jumps. *)
Definition frames {A : Type} (own : string * string -> bool) (m : M A) : Prop := forall w,
  erase own (rules_of (m w).2) = erase own (rules_of w).

Lemma frames_bind {A B : Type} o (m : M A) (f : A -> M B) :
  frames o m -> (forall a, frames o (f a)) -> frames o (m ≫= f).
Proof.
  intros Hm Hf w. unfold mbind, M_bind. specialize (Hm w).
  destruct (m w) as [[a|e|e] w1]; simpl in *; [|done..]. by rewrite Hf.
Qed.
Lemma frames_ignore {A : Type} o (m : M A) : frames o m -> frames o (ignore m).
Proof. intros Hm w. unfold ignore. specialize (Hm w). by destruct (m w) as [[| |] w1]. Qed.
Lemma frames_ret {A : Type} o (a : A) : frames o (mret a).
Proof. done. Qed.
Lemma frames_fail {A : Type} o e : frames o (@fail _ _ _ A e).
Proof. done. Qed.
Lemma frames_hostAddr o : frames o defaultHostInterfaceAddr.
Proof.
  intros w. unfold defaultHostInterfaceAddr, mbind, M_bind, attempt, peek.
  unfold rules_of. pose proof (pop_fault_keeps w) as (_ & _ & Hi).
  destruct (pop_fault w) as [[e|] w1]; simpl in *; [by rewrite Hi|].
  destruct (Ipam.GetDefaultInterfaceAddr (st_ipam (inner w1))); simpl; by rewrite Hi.
Qed.
Lemma frames_command o args (k : string * string) (e : edit) :
  edit_of args = Some (k, e) -> touches o k e -> frames o (iptables args).
Proof.
  intros He Ht w. unfold iptables, mbind, M_bind, invoke, callee, command_callees.
  pose proof (netfilter_edits args (st_net (inner w)) k e He) as Hl.
  destruct (netfilter args (st_net (inner w))) as [r x]. unfold rules_of. simpl in *.
  destruct Hl as [(out & v & H1 & -> & H2)|(err & -> & H2)]; simpl; rewrite H2; [|done].
  by apply (erase_effect o k e).
Qed.
End logic.

(** ** Rules of a service stay its own *)
Section frame.
Context {X : Type} {N : Netfilter X} {L : NetfilterLaw X}.
#[local] Notation M := (M ServiceController command (service_tables X)).
Context (svc : ServiceInfo).
#[local] Notation frames := (frames (own svc)).

(** The words of a rule with its chain: a jump to a chain of the service. *)
Definition jump_words (words : list string) : Prop :=
  words <> [] /\ own svc (in_nat words).1 = false /\
  targets (own svc) (in_nat words).1.1 (in_nat words).2 = true.

Lemma edit_append words :
  words <> [] -> edit_of (["-t"; "nat"] ++ "-A" :: words) =
    Some ((in_nat words).1, Append (in_nat words).2).
Proof. by destruct words. Qed.
Lemma edit_delete words :
  words <> [] -> edit_of (["-t"; "nat"] ++ "-D" :: words) =
    Some ((in_nat words).1, Delete (in_nat words).2).
Proof. by destruct words. Qed.

Lemma service_jumps_words proto p :
  proto = "tcp" \/ proto = "udp" -> p ∈ exposed svc ->
  Forall jump_words (service_jumps svc (port_chain svc p).2 proto (sp_Port p)).
Proof.
  intros Hp Hin. apply Forall_forall. intros words Hw.
  destruct (service_jump_shape _ _ _ _ _ Hp Hw) as (H1 & H2 & H3). split.
  - by intros ->.
  - split; [by apply not_own|]. unfold targets. rewrite H2, H3. by apply (own_port svc p).
Qed.

Lemma localhost_words : jump_words (localhost_jump (serviceSNATChainName (ServiceId svc))).
Proof. split; [done|]. apply (jumps_shape svc "" (local_jump svc)). right. by left. Qed.
Lemma host_words hostAddr : jump_words (host_jump hostAddr (serviceSNATChainName (ServiceId svc))).
Proof.
  split; [done|]. split; [by apply not_own|]. unfold targets.
  rewrite host_jump_target. apply own_snat.
Qed.

(** The jumps that a port's rules need, and an error without an address. *)
Lemma addServiceJumpRule_eq chain proto port :
  addServiceJumpRule svc chain proto port =
    (if String.eqb (serviceType svc) ServiceTypeClusterIP && String.eqb (ClusterIP svc) ""
     then fail "clusterIP service requires clusterIP"
     else add_jumps (service_jumps svc chain proto port)) :> M unit.
Proof.
  unfold addServiceJumpRule, addClusterIPJumpRule, addNodePortJumpRule, service_jumps.
  destruct (String.eqb (serviceType svc) ServiceTypeClusterIP); [|done].
  by destruct (String.eqb (ClusterIP svc) "").
Qed.
Lemma deleteServiceJumpRule_eq chain proto port :
  deleteServiceJumpRule svc chain proto port =
    delete_jumps (service_jumps svc chain proto port) :> M unit.
Proof.
  unfold deleteServiceJumpRule, deleteClusterIPJumpRule, deleteNodePortJumpRule, service_jumps.
  destruct (String.eqb (serviceType svc) ServiceTypeClusterIP); [|done].
  by destruct (String.eqb (ClusterIP svc) "").
Qed.

Lemma frames_jump words o :
  jump_words words -> o = "-A" \/ o = "-D" -> frames (nat (o :: words) : M unit).
Proof.
  intros (Hn & _ & Ht) [-> | ->]; eapply frames_command;
    [by apply edit_append|by right|by apply edit_delete|by right].
Qed.
Lemma frames_add_jumps l : Forall jump_words l -> frames (add_jumps l : M unit).
Proof.
  induction 1 as [|words l Hw _ IH]; [done|]. simpl.
  apply frames_bind; [apply frames_jump; auto|done].
Qed.
Lemma frames_delete_jumps l : Forall jump_words l -> frames (delete_jumps l : M unit).
Proof.
  induction 1 as [|words l Hw _ IH]; [done|]. simpl.
  apply frames_bind; [apply frames_ignore, frames_jump; auto|done].
Qed.

Lemma frames_own_nat args k e :
  edit_of (["-t"; "nat"] ++ args) = Some (k, e) -> own svc k = true -> frames (nat args : M unit).
Proof. intros He Ho. eapply frames_command; [done|]. by left. Qed.
Lemma frames_own_filter args k e :
  edit_of args = Some (k, e) -> own svc k = true -> frames (iptables args : M unit).
Proof. intros He Ho. eapply frames_command; [done|]. by left. Qed.

#[local] Ltac edits_own :=
  first [eapply frames_own_nat; [reflexivity|] | eapply frames_own_filter; [reflexivity|]];
  first [apply own_forward | apply own_snat | by apply (own_port svc)].
#[local] Ltac next :=
  apply frames_bind; [repeat apply frames_ignore; try edits_own|intros _].

(** *** Clean-up *)

Lemma frames_snat_jumps :
  frames (deleteSNATJumpRules (serviceSNATChainName (ServiceId svc)) : M unit).
Proof.
  unfold deleteSNATJumpRules. next; [apply frames_jump; auto using localhost_words|].
  apply frames_bind; [apply frames_hostAddr|]. intros hostAddr.
  case_match; [|done]. apply frames_ignore, frames_jump; auto using host_words.
Qed.

Lemma frames_forward_jump o :
  edit_of o = Some (("filter", "FORWARD"), Delete (forward_jump svc).2) \/
  edit_of o = Some (("filter", "FORWARD"), Insert (forward_jump svc).2) ->
  frames (iptables o : M unit).
Proof.
  intros [H|H]; (eapply frames_command; [exact H|]); right; apply own_forward.
Qed.

Lemma frames_cleanup_port p :
  p ∈ sv_Ports svc -> frames (cleanup_port svc p : M unit).
Proof.
  intros Hp. unfold cleanup_port. destruct (sp_Port p =? 0) eqn:Hz; [done|].
  assert (Hin : p ∈ exposed svc).
  { unfold exposed. apply list_elem_of_In, filter_In. by rewrite <- list_elem_of_In, Hz. }
  rewrite !deleteServiceJumpRule_eq.
  next; [by apply frames_delete_jumps, (service_jumps_words "tcp" p); auto|].
  next; [by apply frames_delete_jumps, (service_jumps_words "udp" p); auto|].
  next. apply frames_ignore. edits_own.
Qed.

Lemma frames_cleanup : frames (cleanupServiceRules svc : M unit).
Proof.
  unfold cleanupServiceRules, deleteForwardJumpRule, flushForwardChain, deleteForwardChain,
    flushSNATChain, deleteSNATChain.
  next; [apply frames_forward_jump; by left|]. next. next.
  next; [apply frames_snat_jumps|]. next. next.
  assert (H : forall l, (forall p, p ∈ l -> p ∈ sv_Ports svc) -> frames (cleanup_ports svc l : M unit)).
  { intros l. induction l as [|p l IH]; intros Hl; [done|]. simpl.
    apply frames_bind; [apply frames_cleanup_port, Hl; left|]. intros _. apply IH.
    intros q Hq. apply Hl. by right. }
  by apply H.
Qed.

(** *** Installation *)

Lemma frames_append_all l : frames (append_all (forward_chain svc).2 l : M unit).
Proof. induction l as [|r l IH]; [done|]. simpl. by next. Qed.

Lemma frames_endpoints p prob proto endpoints :
  p ∈ exposed svc ->
  frames (endpoints_loop (forward_chain svc).2 (snat_chain svc).2 (port_chain svc p).2 prob
            (TargetPort p) proto endpoints : M unit).
Proof.
  intros Hp. induction endpoints as [|ep l IH]; [done|]. cbn [endpoints_loop].
  next. apply frames_bind; [apply frames_ignore; unfold addForwardRules; case_match;
    [done|apply frames_append_all]|intros _]. by next.
Qed.

Lemma known_proto p :
  known_protocols svc = true -> p ∈ sv_Ports svc -> port_proto p = "tcp" \/ port_proto p = "udp".
Proof.
  unfold known_protocols. rewrite forallb_forall. intros H Hp%list_elem_of_In.
  apply H, orb_true_iff in Hp. by rewrite !String.eqb_eq in Hp.
Qed.

Lemma exposed_in p : p ∈ sv_Ports svc -> sp_Port p <> 0 -> p ∈ exposed svc.
Proof.
  intros Hp Hz. unfold exposed. apply list_elem_of_In, filter_In. rewrite <- list_elem_of_In.
  split; [done|]. by rewrite (proj2 (Z.eqb_neq _ _) Hz).
Qed.

Lemma frames_apply_port endpoints p :
  known_protocols svc = true -> p ∈ sv_Ports svc -> frames (apply_port svc endpoints p : M unit).
Proof.
  intros Hk Hp. unfold apply_port, ensureChain, flushChain.
  destruct (sp_Port p =? 0) eqn:Hz; [done|]. destruct (TargetPort p =? 0); [done|].
  cbn [orb]. assert (Hin : p ∈ exposed svc) by (apply exposed_in; [done|lia]).
  rewrite deleteServiceJumpRule_eq, addServiceJumpRule_eq.
  pose proof (service_jumps_words _ p (known_proto p Hk Hp) Hin) as Hw.
  next. next. next; [by apply frames_delete_jumps|].
  apply frames_bind; [case_match; [done|by apply frames_add_jumps]|intros _].
  by apply frames_endpoints.
Qed.

Lemma frames_apply endpoints :
  known_protocols svc = true -> frames (applyRules svc endpoints : M unit).
Proof.
  intros Hk. unfold applyRules, ensureForwardChain, flushForwardChain, deleteForwardJumpRule,
    addForwardJumpRule, ensureSNATChain, flushSNATChain, addLocalhostSNATJumpRule.
  next. next. next; [apply frames_forward_jump; by left|].
  next; [apply frames_forward_jump; by right|]. next. next.
  next; [apply frames_snat_jumps|]. next; [apply frames_jump; auto using localhost_words|].
  apply frames_bind; [apply frames_hostAddr|intros hostAddr].
  apply frames_bind; [|intros _].
  { case_match; [|done]. unfold addHostSNATJumpRule. case_match; [done|].
    apply frames_jump; auto using host_words. }
  assert (H : forall l, (forall p, p ∈ l -> p ∈ sv_Ports svc) ->
    frames (apply_ports svc endpoints l : M unit)).
  { intros l. induction l as [|p l IH]; intros Hl; [done|]. cbn [apply_ports].
    apply frames_bind; [apply frames_apply_port; [done|apply Hl; left]|]. intros _. apply IH.
    intros q Hq. apply Hl. by right. }
  by apply H.
Qed.
End frame.

(** * Putting the rules of a service in and taking them out

    What holds of the packet filter while the rules of a service are put in,
    that the clean-up takes all of them out wherever the installation stopped,
    and what an installation that returns has put in. *)

Lemma sublist_List_filter {A} (p : A -> bool) l l' :
  sublist l l' -> sublist (List.filter p l) (List.filter p l').
Proof.
  induction 1 as [|x l l' _ IH|x l l' _ IH]; simpl; [done|..]; destruct (p x); by try constructor.
Qed.

(** ** What stays true of the filter *)
Section tidy.
Context (svc : ServiceInfo) (hostAddr : string).
Implicit Types v : tables.
#[local] Notation targets := (targets (own svc)).
#[local] Notation jumps := (jumps_of svc hostAddr).

(** The jumps to the service's chains are those of the service, each there once
    at most, and none of them is in its own chains. *)
Definition tidy v : Prop := forall k l, v !! k = Some l ->
  (own svc k = true -> forall r, r ∈ l -> targets k.1 r = false) /\
  (own svc k = false -> NoDup (List.filter (targets k.1) l) /\
     forall r, r ∈ l -> targets k.1 r = true -> (k, r) ∈ jumps).

(** The rule is not there. *)
Definition absent (j : (string * string) * rule) v : Prop :=
  forall l, v !! j.1 = Some l -> j.2 ∉ l.

(** The chain is not there and nothing leads to it. *)
Definition gone (x : string * string) v : Prop :=
  v !! x = None /\ referenced x v = false.

(** True of less when true of more. *)
Definition stable (P : tables -> Prop) : Prop := forall v v', shrinks v v' -> P v -> P v'.

Lemma stable_and P Q : stable P -> stable Q -> stable (fun v => P v /\ Q v).
Proof. intros HP HQ v v' Hv [H1 H2]. split; eauto. Qed.
Lemma stable_Forall {A : Type} (P : A -> tables -> Prop) l :
  (forall a, stable (P a)) -> stable (fun v => Forall (fun a => P a v) l).
Proof. intros HP v v' Hv Hl. eapply Forall_impl; [exact Hl|]. intros a. by apply HP. Qed.

Lemma stable_tidy : stable tidy.
Proof.
  intros v v' Hv Ht k l' Hl'. destruct (Hv _ _ Hl') as (l & Hl & Hs).
  destruct (Ht k l Hl) as [H1 H2]. split.
  - intros Ho r Hr. apply H1; [done|]. by eapply elem_of_sublist.
  - intros Ho. destruct (H2 Ho) as [Hnd Hin]. split.
    + eapply sublist_NoDup; [exact Hnd|]. by apply sublist_List_filter.
    + intros r Hr. apply Hin. by eapply elem_of_sublist.
Qed.
Lemma stable_absent j : stable (absent j).
Proof.
  intros v v' Hv Ha l' Hl'. destruct (Hv _ _ Hl') as (l & Hl & Hs). intros Hin.
  apply (Ha l Hl). by eapply elem_of_sublist.
Qed.
Lemma stable_gone x : stable (gone x).
Proof.
  intros v v' Hv [Hn Hr]. split.
  - destruct (v' !! x) as [lx|] eqn:E; [|done]. destruct (Hv _ _ E) as (l & Hl & _). congruence.
  - destruct (referenced x v') eqn:E; [|done]. apply referenced_spec in E as (c & l' & r & Hl' & Hin & Hj).
    destruct (Hv _ _ Hl') as (l & Hl & Hs). rewrite <- Hr. symmetry. apply referenced_spec.
    exists c, l, r. repeat split; try done. by eapply elem_of_sublist.
Qed.

(** Edits of the service's chains. *)
Lemma tidy_own k e v v' :
  own svc k = true ->
  match e with Append r | Insert r => targets k.1 r = false | _ => True end ->
  tidy v -> effect k e v = Some v' -> tidy v'.
Proof.
  intros Ho Hr Ht He i l' Hl'. destruct (decide (i = k)) as [->|Hi];
    [|rewrite (effect_other _ _ _ _ _ He Hi) in Hl'; by apply Ht].
  split; [intros _|congruence]. intros r Hin. unfold effect in He.
  destruct (v !! k) as [l|] eqn:Hk, e as [| | |s|s|s]; try done;
    try (case_match; [|done]); try (case_decide; [|done]);
    injection He as <-; rewrite ?lookup_insert_eq, ?lookup_delete_eq in Hl'; try done;
    injection Hl' as <-; try (by apply elem_of_nil in Hin);
    destruct (Ht k l Hk) as [H1 _]; specialize (H1 Ho).
  - apply elem_of_app in Hin as [Hin| ->%list_elem_of_singleton]; auto.
  - apply elem_of_cons in Hin as [->|Hin]; auto.
  - apply H1. eapply elem_of_sublist; [done|apply remove_first_sublist].
Qed.

(** A jump of the service where there is none yet. *)
Lemma tidy_jump j e v v' :
  j ∈ jumps -> e = Append j.2 \/ e = Insert j.2 -> tidy v -> absent j v ->
  effect j.1 e v = Some v' -> tidy v'.
Proof.
  intros Hj He Ht Ha Hv i l' Hl'. destruct (decide (i = j.1)) as [->|Hi];
    [|rewrite (effect_other _ _ _ _ _ Hv Hi) in Hl'; by apply Ht].
  destruct (jumps_shape _ _ _ Hj) as [Ho Htj]. split; [congruence|intros _].
  unfold effect in Hv. destruct (v !! j.1) as [l|] eqn:Hk; [|by destruct He as [-> | ->]].
  destruct (Ht _ _ Hk) as [_ H2]. destruct (H2 Ho) as [Hnd Hin]. specialize (Ha l Hk).
  assert (Hni : j.2 ∉ List.filter (targets j.1.1) l).
  { intros [H _]%list_elem_of_In%filter_In. apply Ha. by apply list_elem_of_In. }
  destruct He as [-> | ->]; injection Hv as <-; rewrite lookup_insert_eq in Hl'; injection Hl' as <-.
  - rewrite List.filter_app. simpl. rewrite Htj. split.
    + apply NoDup_app. split; [done|]. split; [|apply NoDup_singleton].
      intros r Hr ->%list_elem_of_singleton. done.
    + intros r [Hr| ->%list_elem_of_singleton]%elem_of_app Hs; [by apply Hin|by destruct j].
  - simpl. rewrite Htj. split; [by constructor|].
    intros r [->|Hr]%elem_of_cons Hs; [by destruct j|by apply Hin].
Qed.

Lemma absent_other j j' e v v' :
  (e = Append j.2 \/ e = Insert j.2) -> j <> j' -> absent j' v -> effect j.1 e v = Some v' ->
  absent j' v'.
Proof.
  intros He Hne Ha Hv l' Hl'. destruct (decide (j'.1 = j.1)) as [Heq|Hi];
    [|rewrite (effect_other _ _ _ _ _ Hv Hi) in Hl'; by apply Ha].
  unfold effect in Hv. rewrite <- Heq in Hv.
  destruct (v !! j'.1) as [l|] eqn:Hk; [|by destruct He as [-> | ->]].
  specialize (Ha l Hk). assert (Hr : j'.2 <> j.2) by (intros ?; apply Hne; by destruct j, j'; simpl in *; subst).
  destruct He as [-> | ->]; injection Hv as <-; rewrite lookup_insert_eq in Hl'; injection Hl' as <-.
  - intros [Hr'|Hr'%list_elem_of_singleton]%elem_of_app; done.
  - intros [Hr'|Hr']%elem_of_cons; done.
Qed.

(** After its removal the only jump is gone. *)
Lemma removed_absent j v v' :
  j ∈ jumps -> tidy v -> effect j.1 (Delete j.2) v = Some v' -> absent j v'.
Proof.
  intros Hj Ht He l' Hl'. destruct (jumps_shape _ _ _ Hj) as [Ho Htj]. unfold effect in He.
  destruct (v !! j.1) as [l|] eqn:Hk; [|done]. case_decide as Hin; [|done].
  injection He as <-. rewrite lookup_insert_eq in Hl'. injection Hl' as <-.
  destruct (Ht _ _ Hk) as [_ H2]. by eapply remove_first_gone, H2.
Qed.
Lemma refused_absent j v : effect j.1 (Delete j.2) v = None -> absent j v.
Proof.
  intros He l Hl Hin. unfold effect in He. rewrite Hl in He. by case_decide.
Qed.

(** An own chain to which no jump is left can be removed. *)
Lemma unreferenced x v :
  own svc x = true -> tidy v ->
  (forall j, j ∈ jumps -> (j.1.1, jumpTarget j.2) = x -> absent j v) -> referenced x v = false.
Proof.
  intros Hx Ht Ha. destruct (referenced x v) eqn:E; [|done].
  apply referenced_spec in E as (c & l & r & Hl & Hin & Hj). destruct x as [t x]. simpl in *.
  assert (Htr : targets t r = true) by (unfold Netfilter.targets; by rewrite Hj).
  destruct (Ht _ _ Hl) as [H1 H2]. destruct (own svc (t, c)) eqn:Ho.
  - specialize (H1 eq_refl r Hin). simpl in H1. congruence.
  - destruct (H2 eq_refl) as [_ H3]. specialize (H3 r Hin Htr).
    by destruct (Ha _ H3 ltac:(simpl; by rewrite Hj) l Hl).
Qed.
End tidy.

(** ** The clean-up *)
Section cleanup.
Context {X : Type} {N : Netfilter X} {L : NetfilterLaw X} {SN : NetfilterSteady X}.
#[local] Notation M := (M ServiceController command (service_tables X)).
Context (ip : Ipam.IpamState) (svc : ServiceInfo).
#[local] Notation triple := (triple ip).
#[local] Notation jumps := (jumps_of svc (host_addr ip)).
#[local] Notation tidy := (tidy svc (host_addr ip)).
Implicit Types v : tables.

(** The words of a jump of the service. *)
Definition own_jump (words : list string) : Prop := words <> [] /\ in_nat words ∈ jumps.

(** The jump is removed, and what is stable stays. *)
Lemma triple_delete_jump (S : tables -> Prop) args j R :
  edit_of args = Some (j.1, Delete j.2) -> j ∈ jumps -> stable S ->
  triple (fun v => tidy v /\ S v) (ignore (iptables args) : M unit)
    (fun _ v => tidy v /\ S v /\ absent j v) R.
Proof.
  intros He Hj HS. eapply (triple_removal ip args j.1 (Delete j.2)); [exact He|done|..].
  - intros v v' [Ht Hv] Hd. pose proof (effect_shrinks _ (Delete j.2) _ _ eq_refl Hd) as Hs.
    split; [by eapply stable_tidy|]. split; [by eapply HS|by eapply removed_absent].
  - intros v [Ht Hv] Hd. split; [done|]. split; [done|by apply refused_absent].
Qed.

Lemma triple_delete_jumps (S : tables -> Prop) l R :
  Forall own_jump l -> stable S ->
  triple (fun v => tidy v /\ S v) (delete_jumps l : M unit)
    (fun _ v => tidy v /\ S v /\ Forall (fun j => absent j v) (in_nat <$> l)) R.
Proof.
  intros Hl. revert S. induction Hl as [|words l [Hn Hj] Hl IH]; intros S1 HS; cbn [delete_jumps].
  - eapply triple_conseq; [apply (triple_ret ip (fun v => tidy v /\ S1 v))|..]; try done.
    intros _ v [H1 H2]. split; [done|]. split; [done|constructor].
  - eapply triple_seq; [apply (triple_delete_jump S1 _ (in_nat words)); [by apply edit_delete|done..]|].
    eapply triple_conseq;
      [apply (IH (fun v => S1 v /\ absent (in_nat words) v)); by apply stable_and, stable_absent|..];
      [done| |done]. intros _ v (H1 & [H2 H3] & H4).
    split; [done|]. split; [done|by constructor].
Qed.

(** An edit of a chain of the service. *)
Lemma triple_own args k e :
  edit_of args = Some (k, e) -> own svc k = true ->
  match e with Append r | Insert r => targets (own svc) k.1 r = false | _ => True end ->
  triple tidy (iptables args : M unit) (fun _ => tidy) tidy.
Proof.
  intros He Ho Hr. eapply triple_command_id; [exact He|]. intros v v' Ht Hd.
  by eapply tidy_own.
Qed.

Lemma triple_add_jump (js : list ((string * string) * rule)) args j e :
  edit_of args = Some (j.1, e) -> e = Append j.2 \/ e = Insert j.2 -> j ∈ jumps -> j ∉ js ->
  triple (fun v => tidy v /\ absent j v /\ Forall (fun j => absent j v) js) (iptables args : M unit)
    (fun _ v => tidy v /\ Forall (fun j => absent j v) js) tidy.
Proof.
  intros He Hjr Hj Hni. eapply triple_command; [exact He| |by intros v (? & _)].
  intros v v' (Ht & Ha & Hl) Hd. split; [by eapply tidy_jump|].
  rewrite Forall_forall in *. intros j' Hj'. eapply absent_other; [done| |by apply Hl|done].
  by intros ->.
Qed.

Lemma triple_add_jumps l :
  Forall own_jump l -> NoDup (in_nat <$> l) ->
  triple (fun v => tidy v /\ Forall (fun j => absent j v) (in_nat <$> l)) (add_jumps l : M unit)
    (fun _ => tidy) tidy.
Proof.
  induction 1 as [|words l [Hn Hj] Hl IH]; intros Hnd; cbn [add_jumps].
  - eapply triple_conseq; [apply (triple_ret ip tidy)|..]; try done. by intros v [? _].
  - apply NoDup_cons in Hnd as [Hni Hnd]. eapply triple_seq; [|by apply IH].
    eapply triple_conseq; [eapply (triple_add_jump (in_nat <$> l) _ (in_nat words));
      [by apply edit_append|by left|done..]|..]; try done.
    intros v [Ht Ha]. by apply Forall_cons in Ha as [H1 H2].
Qed.

Lemma service_jumps_own proto p :
  proto = "tcp" \/ proto = "udp" -> p ∈ exposed svc ->
  Forall own_jump (service_jumps svc (port_chain svc p).2 proto (sp_Port p)).
Proof.
  intros Hp Hin. apply Forall_forall. intros words Hw.
  pose proof (service_jumps_words svc proto p Hp Hin) as H.
  rewrite Forall_forall in H. destruct (H words Hw) as [Hn _]. split; [done|].
  unfold jumps_of. do 2 right. apply elem_of_app. right. apply list_elem_of_bind.
  exists p. split; [|done]. unfold port_jumps. apply elem_of_app.
  destruct Hp as [-> | ->]; [left|right]; apply list_elem_of_fmap; by exists words.
Qed.
Lemma service_jumps_NoDup chain proto port : NoDup (in_nat <$> service_jumps svc chain proto port).
Proof.
  unfold service_jumps. repeat case_match; simpl; repeat constructor;
    rewrite ?list_elem_of_singleton; try apply not_elem_of_nil; by intros [=].
Qed.

Lemma local_own : own_jump (localhost_jump (serviceSNATChainName (ServiceId svc))).
Proof. split; [done|]. right. by left. Qed.
Lemma interface_own j : j ∈ interface_jumps svc (host_addr ip) -> j ∈ jumps.
Proof. intros Hj. do 2 right. apply elem_of_app. by left. Qed.
Lemma forward_own : forward_jump svc ∈ jumps.
Proof. by left. Qed.

Lemma stable_true : stable (fun _ => True).
Proof. done. Qed.
Lemma stable_absents l : stable (fun v => Forall (fun j => absent j v) l).
Proof. apply stable_Forall. intros j. apply stable_absent. Qed.

Definition snat_jumps : list ((string * string) * rule) :=
  local_jump svc :: interface_jumps svc (host_addr ip).

Lemma triple_snat_delete (S : tables -> Prop) R :
  stable S ->
  triple (fun v => tidy v /\ S v)
    (deleteSNATJumpRules (serviceSNATChainName (ServiceId svc)) : M unit)
    (fun _ v => tidy v /\ S v /\ Forall (fun j => absent j v) snat_jumps) R.
Proof.
  intros HS. unfold deleteSNATJumpRules.
  eapply triple_seq; [apply (triple_delete_jump S _ (local_jump svc));
    [done|right; by left|done]|].
  eapply triple_bind; [apply triple_hostAddr|]. intros hostAddr. cbn beta.
  apply triple_pure. intros ->. unfold snat_jumps, interface_jumps.
  destruct (String.eqb (host_addr ip) "") eqn:Hh; cbn [negb].
  - eapply triple_conseq; [apply (triple_ret ip
      (fun v => tidy v /\ S v /\ absent (local_jump svc) v) tt (fun _ => False))|..]; [done| |].
    + intros _ v (H1 & H2 & H3). split; [done|]. split; [done|by constructor].
    + done.
  - eapply triple_conseq; [apply (triple_delete_jump (fun v => S v /\ absent (local_jump svc) v)
      _ (in_nat (host_jump (host_addr ip) (serviceSNATChainName (ServiceId svc)))))|..].
    + done.
    + apply interface_own. unfold interface_jumps. rewrite Hh. by left.
    + by apply stable_and, stable_absent.
    + done.
    + intros _ v (H1 & [H2 H3] & H4). split; [done|]. split; [done|].
      constructor; [done|]. by constructor.
    + done.
Qed.

Lemma triple_append_all l :
  (forall r, r ∈ l -> targets (own svc) "filter" r = false) ->
  triple tidy (append_all (forward_chain svc).2 l : M unit) (fun _ => tidy) tidy.
Proof.
  induction l as [|r l IH]; intros Hl; [apply triple_ret|]. cbn [append_all].
  eapply triple_seq; [|apply IH; intros s Hs; apply Hl; by right]. apply triple_ignore.
  eapply triple_own; [done|apply own_forward|]. apply Hl. by left.
Qed.

Lemma triple_endpoints p prob endpoints :
  p ∈ exposed svc -> port_proto p = "tcp" \/ port_proto p = "udp" ->
  triple tidy (endpoints_loop (forward_chain svc).2 (snat_chain svc).2 (port_chain svc p).2 prob
                 (TargetPort p) (port_proto p) endpoints : M unit) (fun _ => tidy) tidy.
Proof.
  intros Hin Hp. induction endpoints as [|ep l IH]; [apply triple_ret|]. cbn [endpoints_loop].
  eapply triple_seq; [eapply triple_own; [done|by apply own_port|by apply endpoint_rule_leaves]|].
  eapply triple_seq; [apply triple_ignore; unfold addForwardRules; case_match;
    [apply triple_ret|apply triple_append_all; intros r; by apply forward_rules_leave]|].
  eapply triple_seq; [apply triple_ignore; eapply triple_own;
    [done|apply own_snat|by apply snat_rule_leaves]|]. exact IH.
Qed.

Lemma triple_clear l R :
  Forall own_jump l ->
  triple tidy (delete_jumps l : M unit)
    (fun _ v => tidy v /\ Forall (fun j => absent j v) (in_nat <$> l)) R.
Proof.
  intros Hl. eapply triple_conseq; [apply (triple_delete_jumps (fun _ => True) l R Hl stable_true)|..].
  - done.
  - by intros _ v (H1 & _ & H2).
  - done.
Qed.

Lemma triple_apply_port endpoints p :
  known_protocols svc = true -> p ∈ sv_Ports svc ->
  triple tidy (apply_port svc endpoints p : M unit) (fun _ => tidy) tidy.
Proof.
  intros Hk Hp. unfold apply_port, ensureChain, flushChain.
  destruct (sp_Port p =? 0) eqn:Hz; [apply triple_ret|].
  destruct (TargetPort p =? 0); [apply triple_ret|]. cbn [orb].
  assert (Hin : p ∈ exposed svc) by (apply exposed_in; [done|lia]).
  pose proof (known_proto svc p Hk Hp) as Hproto.
  rewrite deleteServiceJumpRule_eq, addServiceJumpRule_eq.
  pose proof (service_jumps_own _ p Hproto Hin) as Hw.
  eapply triple_seq; [apply triple_ignore; eapply triple_own; [done|by apply own_port|done]|].
  eapply triple_seq; [eapply triple_own; [done|by apply own_port|done]|].
  eapply triple_seq; [by apply triple_ignore, triple_clear|].
  eapply triple_seq; [|by apply triple_endpoints]. case_match.
  - eapply triple_conseq; [apply triple_fail with (Q := fun _ => tidy)|..]; try done.
    by intros v [? _].
  - apply triple_add_jumps; [exact Hw|apply service_jumps_NoDup].
Qed.

Lemma triple_forward_jump :
  triple (fun v => tidy v /\ absent (forward_jump svc) v)
    (addForwardJumpRule (serviceForwardChainName (ServiceId svc)) : M unit) (fun _ => tidy) tidy.
Proof.
  eapply triple_conseq; [eapply (triple_add_jump [] _ (forward_jump svc));
    [done|by right|apply forward_own|apply not_elem_of_nil]|..]; try done.
  - intros v [H1 H2]. split; [done|]. split; [done|constructor].
  - by intros _ v [H _].
Qed.

Lemma local_not_interface : local_jump svc ∉ interface_jumps svc (host_addr ip).
Proof.
  unfold interface_jumps. case_match; [apply not_elem_of_nil|].
  intros Hj%list_elem_of_singleton. injection Hj as Hj. symmetry in Hj.
  by apply mask_not_loopback in Hj.
Qed.

Lemma address_part_idem a : address_part (address_part a) = address_part a.
Proof.
  unfold address_part. by rewrite split_head_trimSpace, trimSpace_idem.
Qed.
Lemma host_addr_part : address_part (host_addr ip) = host_addr ip.
Proof. unfold host_addr. case_match; [apply address_part_idem|done..]. Qed.

Lemma triple_snat_local :
  triple (fun v => tidy v /\ Forall (fun j => absent j v) snat_jumps)
    (addLocalhostSNATJumpRule (serviceSNATChainName (ServiceId svc)) : M unit)
    (fun _ v => tidy v /\ Forall (fun j => absent j v) (interface_jumps svc (host_addr ip))) tidy.
Proof.
  eapply triple_conseq; [eapply (triple_add_jump (interface_jumps svc (host_addr ip)) _
    (local_jump svc)); [done|by left|right; by left|apply local_not_interface]|..]; try done.
  intros v [H1 H2]. by apply Forall_cons in H2.
Qed.

Lemma triple_snat_host :
  triple (fun v => tidy v /\ Forall (fun j => absent j v) (interface_jumps svc (host_addr ip)))
    (if negb (String.eqb (host_addr ip) "")
     then addHostSNATJumpRule (serviceSNATChainName (ServiceId svc)) (host_addr ip)
     else mret tt : M unit) (fun _ => tidy) tidy.
Proof.
  unfold addHostSNATJumpRule. rewrite host_addr_part.
  pose proof interface_own as Hown. unfold interface_jumps in *.
  destruct (String.eqb (host_addr ip) ""); cbn [negb].
  - eapply triple_conseq; [apply (triple_ret ip tidy tt tidy)|..]; try done. by intros v [? _].
  - set (words := host_jump _ _) in *. eapply triple_conseq.
    + eapply (triple_add_jump [] _ (in_nat words)); [done|by left| |apply not_elem_of_nil].
      apply Hown. by left.
    + intros v [H1 H2]. split; [done|]. apply Forall_cons in H2 as [H2 _]. split; [done|constructor].
    + by intros _ v [? _].
    + done.
Qed.

Lemma triple_clear_forward R :
  triple tidy (deleteForwardJumpRule (serviceForwardChainName (ServiceId svc)) : M unit)
    (fun _ v => tidy v /\ absent (forward_jump svc) v) R.
Proof.
  eapply triple_conseq; [apply (triple_delete_jump (fun _ => True) _ (forward_jump svc) R);
    [done|apply forward_own|done]|done| |done].
  by intros _ v (H1 & _ & H2).
Qed.

Lemma triple_clear_snat R :
  triple tidy (deleteSNATJumpRules (serviceSNATChainName (ServiceId svc)) : M unit)
    (fun _ v => tidy v /\ Forall (fun j => absent j v) snat_jumps) R.
Proof.
  eapply triple_conseq; [apply (triple_snat_delete (fun _ => True) R stable_true)|done| |done].
  by intros _ v (H1 & _ & H2).
Qed.

Lemma triple_apply_ports endpoints l :
  known_protocols svc = true -> (forall p, p ∈ l -> p ∈ sv_Ports svc) ->
  triple tidy (apply_ports svc endpoints l : M unit) (fun _ => tidy) tidy.
Proof.
  intros Hk. induction l as [|p l IH]; intros Hl; [apply triple_ret|]. cbn [apply_ports].
  eapply triple_seq; [apply triple_apply_port; [done|apply Hl; by left]|].
  apply IH. intros q Hq. apply Hl. by right.
Qed.

(** Wherever the installation stops, the filter is tidy. *)
Lemma triple_apply endpoints :
  known_protocols svc = true ->
  triple tidy (applyRules svc endpoints : M unit) (fun _ => tidy) tidy.
Proof.
  intros Hk. unfold applyRules, ensureForwardChain, flushForwardChain, ensureSNATChain, flushSNATChain.
  pose proof (own_forward svc) as Hf. pose proof (own_snat svc) as Hs.
  eapply triple_seq; [apply triple_ignore; by eapply triple_own|].
  eapply triple_seq; [by eapply triple_own|].
  eapply triple_seq; [apply triple_ignore, triple_clear_forward|].
  eapply triple_seq; [apply triple_forward_jump|].
  eapply triple_seq; [apply triple_ignore; by eapply triple_own|].
  eapply triple_seq; [by eapply triple_own|].
  eapply triple_seq; [apply triple_ignore, triple_clear_snat|].
  eapply triple_seq; [apply triple_snat_local|].
  eapply triple_bind; [apply triple_hostAddr|]. intros hostAddr. cbn beta. apply triple_pure.
  intros ->. eapply triple_seq; [apply triple_snat_host|]. by apply triple_apply_ports.
Qed.

(** *** Taking the chains out *)

(** No jump to the chain is left. *)
Definition cut (x : string * string) v : Prop :=
  forall j, j ∈ jumps -> (j.1.1, jumpTarget j.2) = x -> absent j v.
Lemma stable_cut x : stable (cut x).
Proof. intros v v' Hv Hc j Hj Hx. eapply stable_absent; [exact Hv|]. by apply Hc. Qed.

Lemma jumps_cases j :
  j ∈ jumps -> j = forward_jump svc \/ j ∈ snat_jumps \/
    exists p proto, p ∈ exposed svc /\ (proto = "tcp" \/ proto = "udp") /\ j ∈ port_jumps svc proto p.
Proof.
  unfold jumps_of, snat_jumps. rewrite !elem_of_cons, elem_of_app, list_elem_of_bind.
  intros [->|[->|[Hj|(p & Hj & Hp)]]]; [by left|right; left; by left|right; left; by right|].
  right. right. apply elem_of_app in Hj. exists p. destruct Hj; eauto.
Qed.
Lemma snat_jumps_target j : j ∈ snat_jumps -> (j.1.1, jumpTarget j.2) = snat_chain svc.
Proof.
  unfold snat_jumps, interface_jumps. rewrite elem_of_cons. intros [->|Hj]; [done|].
  case_match; [by apply elem_of_nil in Hj|]. apply list_elem_of_singleton in Hj as ->.
  by rewrite host_jump_target.
Qed.

Lemma cut_forward v : absent (forward_jump svc) v -> cut (forward_chain svc) v.
Proof.
  intros Ha j [->|[Hj|(p & proto & Hp & Hproto & Hj)]]%jumps_cases Hx; [done|exfalso..].
  - apply snat_jumps_target in Hj. by rewrite Hj in Hx.
  - apply port_jump_shape in Hj as [_ Hj]; [|done]. by rewrite Hj in Hx.
Qed.
Lemma cut_snat v : Forall (fun j => absent j v) snat_jumps -> cut (snat_chain svc) v.
Proof.
  intros Ha j [->|[Hj|(p & proto & Hp & Hproto & Hj)]]%jumps_cases Hx; [done| |exfalso].
  - rewrite Forall_forall in Ha. by apply Ha.
  - apply port_jump_shape in Hj as [_ Hj]; [|done]. rewrite Hj in Hx. by injection Hx.
Qed.
Lemma port_chain_inj p q : port_chain svc p = port_chain svc q -> sp_Port p = sp_Port q.
Proof.
  unfold port_chain, serviceChainName. intros H. injection H as H.
  by apply (inj (String.append _)), (inj (String.append _)), (inj (String.append _)), itoa_inj in H.
Qed.
Lemma cut_port p v :
  Forall (fun j => absent j v) (port_jumps svc "tcp" p) ->
  Forall (fun j => absent j v) (port_jumps svc "udp" p) -> cut (port_chain svc p) v.
Proof.
  intros Ht Hu j [->|[Hj|(q & proto & Hq & Hproto & Hj)]]%jumps_cases Hx; [done|exfalso|].
  - apply snat_jumps_target in Hj. rewrite Hj in Hx. by injection Hx.
  - pose proof Hj as Hc. apply port_jump_shape in Hc as [_ Hc]; [|done].
    rewrite Hc in Hx. apply port_chain_inj in Hx.
    assert (Heq : port_jumps svc proto q = port_jumps svc proto p) by (unfold port_jumps; by rewrite Hx).
    rewrite Heq, Forall_forall in *. destruct Hproto as [-> | ->]; auto.
Qed.

Definition emptied (x : string * string) v : Prop := v !! x = None \/ v !! x = Some [].

Lemma triple_flush (S : tables -> Prop) args x R :
  edit_of args = Some (x, Flush) -> stable S ->
  triple S (ignore (iptables args) : M unit) (fun _ v => S v /\ emptied x v) R.
Proof.
  intros He HS. eapply (triple_removal ip args x Flush); [exact He|done|..].
  - intros v v' Hv Hd. split; [eapply HS; [|exact Hv]; by eapply (effect_shrinks _ Flush)|].
    unfold effect in Hd. case_match; [|done]. injection Hd as <-. right. apply lookup_insert_eq.
  - intros v Hv Hd. split; [done|]. unfold effect in Hd. case_match; [done|by left].
Qed.

Lemma triple_remove (S : tables -> Prop) args x R :
  edit_of args = Some (x, RemoveChain) -> own svc x = true -> stable S ->
  triple (fun v => (tidy v /\ S v /\ cut x v) /\ emptied x v) (ignore (iptables args) : M unit)
    (fun _ v => tidy v /\ S v /\ gone x v) R.
Proof.
  intros He Ho HS. eapply (triple_removal ip args x RemoveChain); [exact He|done|..].
  - intros v v' [(Ht & Hv & Hc) Hx] Hd.
    pose proof (effect_shrinks _ RemoveChain _ _ eq_refl Hd) as Hs.
    split; [by eapply stable_tidy|]. split; [by eapply HS|].
    pose proof (unreferenced _ _ x v Ho Ht Hc) as Hr. unfold effect in Hd.
    destruct (v !! x) as [l|] eqn:E; [|done]. case_match; [|done]. injection Hd as <-.
    split; [apply lookup_delete_eq|].
    destruct (referenced x (delete x v)) eqn:Er; [|done].
    apply referenced_spec in Er as (c & l' & r & Hl' & Hin & Hj).
    destruct (Hs _ _ Hl') as (l2 & Hl2 & Hs2). rewrite <- Hr. symmetry. apply referenced_spec.
    exists c, l2, r. repeat split; try done. by eapply elem_of_sublist.
  - intros v [(Ht & Hv & Hc) Hx] Hd. split; [done|]. split; [done|].
    pose proof (unreferenced _ _ x v Ho Ht Hc) as Hr. split; [|done].
    unfold effect in Hd. destruct Hx as [Hx|Hx]; [done|]. rewrite Hx, Hr in Hd. done.
Qed.

Lemma triple_pre {A : Type} (P P' : tables -> Prop) (m : M A) Q R :
  triple P' m Q R -> (forall v, P v -> P' v) -> triple P m Q R.
Proof. intros Hm HP. by eapply triple_conseq; [exact Hm|..]. Qed.

(** The two commands that take a chain out. *)
Lemma triple_take_out {A : Type} (S : tables -> Prop) flush remove x (rest : M A) Q R :
  edit_of flush = Some (x, Flush) -> edit_of remove = Some (x, RemoveChain) ->
  own svc x = true -> stable S ->
  triple (fun v => tidy v /\ S v /\ gone x v) rest Q R ->
  triple (fun v => tidy v /\ S v /\ cut x v)
    (_ ← ignore (iptables flush); _ ← ignore (iptables remove); rest) Q R.
Proof.
  intros Hf Hr Ho HS Hrest. eapply triple_seq; [apply triple_flush; [exact Hf|]|].
  - apply stable_and; [apply stable_tidy|]. apply stable_and; [done|apply stable_cut].
  - eapply triple_seq; [by apply triple_remove|exact Hrest].
Qed.

Definition port_gone (p : ServicePort) v : Prop := sp_Port p <> 0 -> gone (port_chain svc p) v.
Lemma stable_port_gone p : stable (port_gone p).
Proof. intros v v' Hv Hp Hz. eapply stable_gone; [exact Hv|by apply Hp]. Qed.

Lemma ignore_then_ret (m : M unit) w : (_ ← ignore m; mret tt) w = ignore m w.
Proof. unfold mbind, M_bind, ignore. by destruct (m w) as [[]]. Qed.
Lemma triple_ext {A : Type} (P : tables -> Prop) (m m' : M A) Q R :
  (forall w, m w = m' w) -> triple P m Q R -> triple P m' Q R.
Proof. intros He Hm w Hw Hi HP. rewrite <- He. by apply Hm. Qed.

Lemma triple_cleanup_port (S : tables -> Prop) p R :
  p ∈ sv_Ports svc -> stable S ->
  triple (fun v => tidy v /\ S v) (cleanup_port svc p : M unit)
    (fun _ v => tidy v /\ S v /\ port_gone p v) R.
Proof.
  intros Hp HS. unfold cleanup_port, flushChain, deleteChain.
  destruct (Z.eqb_spec (sp_Port p) 0) as [Hz|Hz].
  { eapply triple_conseq; [apply (triple_ret ip (fun v => tidy v /\ S v) tt R)|done| |done].
    intros _ v [H1 H2]. split; [done|]. by split. }
  assert (Hin : p ∈ exposed svc) by by apply exposed_in.
  rewrite !deleteServiceJumpRule_eq.
  pose proof (service_jumps_own "tcp" p ltac:(auto) Hin) as Ht.
  pose proof (service_jumps_own "udp" p ltac:(auto) Hin) as Hu.
  eapply triple_seq; [apply triple_ignore, (triple_delete_jumps S _ _ Ht HS)|].
  eapply triple_seq; [apply triple_ignore, (triple_delete_jumps (fun v => S v /\ _) _ _ Hu)|].
  { apply stable_and; [done|apply stable_absents]. }
  eapply triple_ext; [|eapply triple_pre;
    [apply (triple_take_out S ["-t"; "nat"; "-F"; (port_chain svc p).2]
      ["-t"; "nat"; "-X"; (port_chain svc p).2] (port_chain svc p) (mret tt)); [done|done|by apply own_port|done|]|]].
  - intros w. unfold mbind at 1 3, M_bind at 1 3. destruct (ignore _ w) as [[]]; [|done..].
    apply ignore_then_ret.
  - eapply triple_conseq; [apply (triple_ret ip
      (fun v => tidy v /\ S v /\ gone (port_chain svc p) v) tt R)|done| |done].
    intros _ v (H1 & H2 & H3). split; [done|]. split; [done|]. by intros _.
  - intros v (H1 & [H2 H3] & H4). split; [done|]. split; [done|]. by apply cut_port.
Qed.

Lemma triple_cleanup_ports (S : tables -> Prop) l R :
  (forall p, p ∈ l -> p ∈ sv_Ports svc) -> stable S ->
  triple (fun v => tidy v /\ S v) (cleanup_ports svc l : M unit)
    (fun _ v => tidy v /\ S v /\ Forall (fun p => port_gone p v) l) R.
Proof.
  revert S. induction l as [|p l IH]; intros S1 Hl HS; cbn [cleanup_ports].
  - eapply triple_conseq; [apply (triple_ret ip (fun v => tidy v /\ S1 v) tt R)|done| |done].
    intros _ v [H1 H2]. split; [done|]. by split.
  - eapply triple_seq; [apply (triple_cleanup_port S1); [apply Hl; by left|done]|].
    eapply triple_conseq; [apply (IH (fun v => S1 v /\ port_gone p v))|done| |done].
    + intros q Hq. apply Hl. by right.
    + apply stable_and; [done|apply stable_port_gone].
    + intros _ v (H1 & [H2 H3] & H4). split; [done|]. split; [done|by constructor].
Qed.

(** Nothing of the service is left. *)
Lemma triple_cleanup R :
  triple tidy (cleanupServiceRules svc : M unit)
    (fun _ v => tidy v /\ forall x, x ∈ chains_of svc -> gone x v) R.
Proof.
  unfold cleanupServiceRules, flushForwardChain, deleteForwardChain, flushSNATChain, deleteSNATChain.
  eapply triple_seq; [apply triple_ignore, triple_clear_forward|].
  eapply triple_pre; [eapply (triple_take_out (fun _ => True) _ _ (forward_chain svc));
    [done|done|apply own_forward|apply stable_true|]|].
  2: { intros v [H1 H2]. split; [done|]. split; [done|by apply cut_forward]. }
  set (F := fun v => True /\ gone (forward_chain svc) v).
  assert (HF : stable F) by (apply stable_and; [apply stable_true|apply stable_gone]).
  eapply triple_seq; [apply triple_ignore, (triple_snat_delete F _ HF)|].
  eapply triple_ext; [|eapply triple_pre;
    [apply (triple_take_out F ["-t"; "nat"; "-F"; (snat_chain svc).2]
      ["-t"; "nat"; "-X"; (snat_chain svc).2] (snat_chain svc) (cleanup_ports svc (sv_Ports svc)));
      [done|done|apply own_snat|done|]|]].
  - intros w. unfold mbind, M_bind. destruct (ignore _ w) as [[a|e|e] w1]; [|done..].
    unfold nat, ignore. by destruct (iptables _ w1) as [[]].
  - eapply triple_conseq; [apply (triple_cleanup_ports (fun v => F v /\ gone (snat_chain svc) v))|..].
    + done.
    + apply stable_and; [done|apply stable_gone].
    + done.
    + intros _ v (H1 & [[_ H2] H3] & H4). split; [done|]. intros x Hx. unfold chains_of in Hx.
      rewrite !elem_of_cons in Hx. destruct Hx as [->|[->|(p & -> & Hp)%list_elem_of_fmap]]; [done..|].
      rewrite Forall_forall in H4. apply list_elem_of_In, filter_In in Hp as [Hp Hz].
      apply H4; [by apply list_elem_of_In|]. lia.
    + done.
  - intros v (H1 & H2 & H3). split; [done|]. split; [done|by apply cut_snat].
Qed.
End cleanup.

(** ** What the controller's commands do to the packet filter *)
Section rules.
Context {X : Type} {N : Netfilter X} {L : NetfilterLaw X}.
#[local] Notation world := (world ServiceController command (service_tables X)).
Implicit Types w : world.

(** Whatever fails on the way, putting in the rules of a service and taking
    them out changes nothing of the packet filter but the chains of the service
    and the jumps to them: the chains of others keep all other rules, in order. *)
Theorem rules_touch_own_chains svc endpoints w :
  known_protocols svc = true ->
  erase (own svc) (rules_of (applyRules svc endpoints w).2) = erase (own svc) (rules_of w) /\
  erase (own svc) (rules_of (cleanupServiceRules svc w).2) = erase (own svc) (rules_of w).
Proof. intros Hk. split; [by apply frames_apply|apply frames_cleanup]. Qed.

Lemma clean_tidy svc hostAddr v : erase (own svc) v = v -> tidy svc hostAddr v.
Proof.
  intros He k l Hl. pose proof (lookup_erase (own svc) v k) as Hk. rewrite He, Hl in Hk.
  destruct (own svc k); [done|]. split; [done|intros _]. injection Hk as Hk.
  assert (Hn : forall r, r ∈ l -> targets (own svc) k.1 r = false).
  { intros r Hr. rewrite Hk in Hr. apply list_elem_of_In, filter_In in Hr as [_ Hr].
    by destruct (targets (own svc) k.1 r). }
  split; [|intros r Hr Ht; by rewrite Hn in Ht].
  replace (List.filter (targets (own svc) k.1) l) with (@nil rule); [constructor|].
  clear -Hn. induction l as [|r l IH]; [done|]. simpl. rewrite Hn by left. apply IH.
  intros s Hs. apply Hn. by right.
Qed.

Lemma gone_erase svc v : (forall x, x ∈ chains_of svc -> gone x v) -> erase (own svc) v = v.
Proof.
  intros Hg. apply erase_id. intros k l r Hl. split.
  - destruct (own svc k) eqn:Ho; [|done]. apply bool_decide_eq_true, Hg in Ho as [Ho _]. congruence.
  - intros Hr. destruct (targets (own svc) k.1 r) eqn:Ht; [|done].
    apply bool_decide_eq_true, Hg in Ht as [_ Ht]. rewrite <- Ht. symmetry. apply referenced_spec.
    exists k.2, l, r. by destruct k.
Qed.

(** C2: for a service whose ports use tcp or udp ([known_protocols]) and of which nothing is
    in the packet filter before, putting its rules in, as far as that gets, and taking
    them out again leaves the filter exactly as it was - if the tables can be read and
    the filter does what its manual says ([NetfilterLaw]) and refuses no removal that
    can be done ([NetfilterSteady]). *)
Theorem cleanup_undoes_apply {SN : NetfilterSteady X} svc endpoints w :
  faults w = [] -> known_protocols svc = true -> erase (own svc) (rules_of w) = rules_of w ->
  rules_of (cleanupServiceRules svc (applyRules svc endpoints w).2).2 = rules_of w.
Proof.
  intros Hf Hk Hc. set (ip := st_ipam (inner w)).
  destruct (triple_apply ip svc endpoints Hk w Hf eq_refl) as (Hf1 & Hi1 & H1);
    [by apply clean_tidy|].
  assert (Ht : tidy svc (host_addr ip) (rules_of (applyRules svc endpoints w).2))
    by by destruct (applyRules svc endpoints w).1.
  destruct (triple_cleanup ip svc (fun _ => False) _ Hf1 Hi1 Ht) as (_ & _ & H2).
  set (w1 := (applyRules svc endpoints w).2) in *.
  destruct (cleanupServiceRules svc w1).1 as [a|e|e]; [|done..]. destruct H2 as [_ H2].
  rewrite <- (gone_erase svc (rules_of _) H2), frames_cleanup.
  unfold w1. by rewrite (frames_apply svc endpoints Hk w).
Qed.
End rules.
