(* ===== verification/ServiceInstall.v ===== *)
(** * What an installation leaves

    The chains and jumps in the packet filter after the rules of a service were
    put in without an error, and how a chain shares the connections among the
    endpoints. *)

From Stdlib Require Import ZArith Lia Ascii String QArith Lqa.
From stdpp Require Import base gmap strings list.
From S2P Require Import Prelude.
From S2P Require Import GoSort.
From S2P Require Csm.
From S2P Require Psm.
From S2P Require Import NetworkPolicyTheory.
From S2P Require Import ServiceTheory.
From S2P Require Import GoString.
From S2P Require Ipam.
From S2P Require Import Ssm.
From S2P Require Import World.
From S2P Require Import ServiceController.
From S2P Require Import Netfilter.
From S2P Require Import ServiceRules.
Open Scope Z_scope.

(** ** The rules wanted *)

(** The ports that get rules. *)
Definition active (p : ServicePort) : bool := negb (sp_Port p =? 0) && negb (TargetPort p =? 0).

(** The rules of a port's chain: each endpoint but the last with the share of
    all of them. *)
Fixpoint dnat_rules (prob : string) (target : Z) (proto : string) (endpoints : list svcEndpoint)
    : list rule :=
  match endpoints with
  | [] => []
  | [ep] => [endpoint_rule (Addr ep) target proto None]
  | ep :: rest => endpoint_rule (Addr ep) target proto (Some prob)
                    :: dnat_rules prob target proto rest
  end.
Definition wanted (endpoints : list svcEndpoint) (p : ServicePort) : list rule :=
  dnat_rules (format_4f (share (Z.of_nat (length endpoints)))) (TargetPort p) (port_proto p) endpoints.

Definition present (j : (string * string) * rule) (v : tables) : Prop :=
  exists l, v !! j.1 = Some l /\ j.2 ∈ l.

(** The port's chain is complete and the traffic is sent to it. *)
Definition installed (svc : ServiceInfo) (endpoints : list svcEndpoint) (p : ServicePort)
    (v : tables) : Prop :=
  v !! port_chain svc p = Some (wanted endpoints p) /\
  Forall (fun j => present j v) (port_jumps svc (port_proto p) p).

(** ** Facts that edits keep *)

(** The edit does not take the rule away. *)
Definition spares (j : (string * string) * rule) (k : string * string) (e : edit) : Prop :=
  k <> j.1 \/ match e with
              | NewChain | Append _ | Insert _ => True
              | Delete r => r <> j.2
              | Flush | RemoveChain => False
              end.

Lemma present_kept j k e v v' : spares j k e -> present j v -> effect k e v = Some v' -> present j v'.
Proof.
  intros Hs (l & Hl & Hin) He. destruct (decide (j.1 = k)) as [<-|Hk].
  2: { exists l. by rewrite (effect_other _ _ _ _ _ He Hk). }
  destruct Hs as [Hs|Hs]; [done|]. unfold effect in He. rewrite Hl in He.
  destruct e as [| | |r|r|r]; try done.
  - injection He as <-. exists (l ++ [r]). rewrite lookup_insert_eq, elem_of_app. auto.
  - injection He as <-. exists (r :: l). rewrite lookup_insert_eq. split; [done|by right].
  - case_decide; [|done]. injection He as <-. exists (remove_first r l).
    rewrite lookup_insert_eq. split; [done|]. by apply remove_first_other.
Qed.

Section install.
Context {X : Type} {N : Netfilter X} {L : NetfilterLaw X}.
#[local] Notation M := (M ServiceController command (service_tables X)).
Context (ip : Ipam.IpamState) (svc : ServiceInfo) (endpoints : list svcEndpoint).
#[local] Notation any := (fun _ : tables => True).
#[local] Notation triple := (fun P m Q => triple ip P m (fun _ => Q) any).
#[local] Notation installed := (installed svc endpoints).
Implicit Types v : tables.
Implicit Types K : tables -> Prop.

Definition kept K k e : Prop := forall v v', K v -> effect k e v = Some v' -> K v'.

Lemma kept_and K K' k e : kept K k e -> kept K' k e -> kept (fun v => K v /\ K' v) k e.
Proof. intros H1 H2 v v' [Ha Hb] He. split; eauto. Qed.
Lemma kept_lookup x o k e : k <> x -> kept (fun v => v !! x = o) k e.
Proof. intros Hk v v' <- He. by apply (effect_other _ _ _ _ _ He). Qed.
Lemma kept_Forall {A : Type} (P : A -> tables -> Prop) l k e :
  (forall a, a ∈ l -> kept (P a) k e) -> kept (fun v => Forall (fun a => P a v) l) k e.
Proof.
  intros HP v v' Hl He. rewrite Forall_forall in *. intros a Ha. eapply HP; eauto.
Qed.

(** What a command keeps, it keeps when it fails as well. *)
Lemma run_kept K args k e : edit_of args = Some (k, e) -> kept K k e -> triple K (iptables args : M unit) K.
Proof. intros He Hk. by apply (triple_command ip args k e). Qed.
Lemma try_kept K args k e R :
  edit_of args = Some (k, e) -> kept K k e ->
  ServiceRules.triple ip K (ignore (iptables args) : M unit) (fun _ => K) R.
Proof. intros He Hk. apply triple_ignore. by apply (triple_command ip args k e). Qed.
(** What it brings about when it returns. *)
Lemma run_does K Q args k e :
  edit_of args = Some (k, e) -> kept K k e -> (forall v v', K v -> effect k e v = Some v' -> Q v') ->
  triple K (iptables args : M unit) (fun v => K v /\ Q v).
Proof.
  intros He Hk HQ. apply (triple_command ip args k e); [done| |done].
  intros v v' Hv Hd. split; eauto.
Qed.

(** The edits that installing a port makes. *)
Definition port_edit (q : ServicePort) (k : string * string) (e : edit) : Prop :=
  k = port_chain svc q \/
  ((k = forward_chain svc \/ k = snat_chain svc) /\ exists r, e = Append r) \/
  exists j, j ∈ port_jumps svc (port_proto q) q /\ k = j.1 /\ (e = Append j.2 \/ e = Delete j.2).
Definition kept_by_port K q : Prop := forall k e, port_edit q k e -> kept K k e.

Lemma delete_jumps_kept K l R :
  Forall (fun words => words <> [] /\ kept K (in_nat words).1 (Delete (in_nat words).2)) l ->
  ServiceRules.triple ip K (delete_jumps l : M unit) (fun _ => K) R.
Proof.
  induction 1 as [|words l [Hn Hk] _ IH]; cbn [delete_jumps]; [apply triple_ret|].
  eapply triple_seq; [|exact IH]. eapply try_kept; [by apply edit_delete|done].
Qed.

Lemma add_jumps_present K l :
  Forall (fun words => words <> [] /\ kept K (in_nat words).1 (Append (in_nat words).2)) l ->
  triple K (add_jumps l : M unit) (fun v => K v /\ Forall (fun j => present j v) (in_nat <$> l)).
Proof.
  intros Hl. revert K Hl. induction l as [|words l IH]; intros K Hl; cbn [add_jumps].
  - eapply triple_conseq; [apply (triple_ret ip K tt any)|done| |done]. intros a v Hv. split; [exact Hv|constructor].
  - apply Forall_cons in Hl as [[Hn Hk] Hl]. eapply triple_seq.
    + eapply (run_does K (present (in_nat words))); [by apply edit_append|done|].
      intros v v' _ Hd. unfold effect in Hd. destruct (v !! (in_nat words).1) as [r|]; [|done].
      injection Hd as <-. eexists. rewrite lookup_insert_eq. split; [done|].
      apply elem_of_app. right. by left.
    + eapply triple_conseq; [apply (IH (fun v => K v /\ present (in_nat words) v))| | |].
      * eapply Forall_impl; [exact Hl|]. intros w [Hw Hkw]. split; [done|].
        apply kept_and; [done|]. intros v v' Hp Hd. eapply present_kept; [|exact Hp|exact Hd]. by right.
      * done.
      * intros a v [[H1 H2] H3]. split; [done|by constructor].
      * done.
Qed.

(** ** A port *)

Lemma forward_rules_kept K ep target proto R :
  (forall r, kept K (forward_chain svc) (Append r)) ->
  ServiceRules.triple ip K (addForwardRules (forward_chain svc).2 ep target proto : M unit)
    (fun _ => K) R.
Proof.
  intros Hk. unfold addForwardRules. case_match; [apply triple_ret|].
  induction (forward_rules ep target proto) as [|r l IH]; cbn [append_all]; [apply triple_ret|].
  eapply triple_seq; [|exact IH]. by eapply try_kept.
Qed.

Lemma endpoints_installed K q prob pre l :
  (forall k r, k = forward_chain svc \/ k = snat_chain svc \/ k = port_chain svc q ->
     kept K k (Append r)) ->
  triple (fun v => K v /\ v !! port_chain svc q = Some pre)
    (endpoints_loop (forward_chain svc).2 (snat_chain svc).2 (port_chain svc q).2 prob
       (TargetPort q) (port_proto q) l : M unit)
    (fun v => K v /\ v !! port_chain svc q =
                      Some (pre ++ dnat_rules prob (TargetPort q) (port_proto q) l)).
Proof.
  intros Hk. revert pre. induction l as [|ep l IH]; intros pre; cbn [endpoints_loop].
  { rewrite app_nil_r. apply triple_ret. }
  set (r := endpoint_rule (Addr ep) (TargetPort q) (port_proto q)
              match l with [] => None | _ => Some prob end).
  set (Q := fun v => K v /\ v !! port_chain svc q = Some (pre ++ [r])).
  assert (HQ : forall k s, k = forward_chain svc \/ k = snat_chain svc -> kept Q k (Append s)).
  { intros k s Hks. apply kept_and; [apply Hk; by destruct Hks as [-> | ->]; auto|].
    apply kept_lookup. by destruct Hks as [-> | ->]. }
  eapply triple_seq.
  { eapply (triple_command ip _ (port_chain svc q) (Append r) _ Q); [done| |done].
    intros v v' [Hv Hl] He. split; [eapply Hk; [|exact Hv|exact He]; auto|].
    unfold effect in He. rewrite Hl in He. injection He as <-. apply lookup_insert_eq. }
  eapply triple_seq; [apply triple_ignore, forward_rules_kept; auto|].
  eapply triple_seq; [eapply try_kept; [done|]; auto|].
  eapply triple_conseq; [apply (IH (pre ++ [r]))|done| |done].
  intros a v [H1 H2]. split; [done|]. rewrite H2, <- app_assoc. unfold r. by destruct l.
Qed.

Lemma apply_port_installed K q :
  known_protocols svc = true -> q ∈ sv_Ports svc -> kept_by_port K q ->
  triple K (apply_port svc endpoints q : M unit)
    (fun v => K v /\ (active q = true -> installed q v)).
Proof.
  intros Hp Hq Hk. unfold apply_port, ensureChain, flushChain, active.
  destruct (Z.eqb_spec (sp_Port q) 0) as [Hz|Hz]; destruct (Z.eqb_spec (TargetPort q) 0) as [Ht|Ht];
    cbn [orb andb negb];
    try (eapply triple_conseq; [apply (triple_ret ip K tt any)|done| |done]; by intros a v Hv).
  assert (Hin : q ∈ exposed svc) by by apply exposed_in.
  rewrite deleteServiceJumpRule_eq, addServiceJumpRule_eq.
  set (l := service_jumps svc (port_chain svc q).2 (port_proto q) (sp_Port q)).
  assert (Hl : forall words, words ∈ l -> words <> [] /\ in_nat words ∈ port_jumps svc (port_proto q) q /\
    (in_nat words).1 <> port_chain svc q).
  { intros words Hw. pose proof (service_jumps_words svc _ q (known_proto svc q Hp Hq) Hin) as H.
    rewrite Forall_forall in H. destruct (H words Hw) as (H1 & H2 & _). split; [done|].
    split; [apply list_elem_of_fmap; by exists words|].
    intros Hc. rewrite Hc, own_port in H2; done. }
  set (K1 := fun v => K v /\ v !! port_chain svc q = Some []).
  assert (HK1 : forall words e, words ∈ l ->
    e = Append (in_nat words).2 \/ e = Delete (in_nat words).2 -> kept K1 (in_nat words).1 e).
  { intros words e Hw He. destruct (Hl words Hw) as (H1 & H2 & H3).
    apply kept_and; [|by apply kept_lookup]. apply Hk. right. right. by exists (in_nat words). }
  eapply triple_seq; [eapply try_kept; [done|]; apply Hk; by left|].
  eapply triple_seq.
  { eapply (triple_command ip _ (port_chain svc q) Flush _ K1); [done| |done].
    intros v v' Hv He. split; [eapply Hk; [|exact Hv|exact He]; by left|].
    unfold effect in He. case_match; [|done]. injection He as <-. apply lookup_insert_eq. }
  eapply triple_seq.
  { apply triple_ignore, delete_jumps_kept. apply Forall_forall. intros words Hw.
    split; [by apply Hl|]. apply HK1; auto. }
  eapply triple_seq.
  { case_match; [apply triple_conseq with (P' := K1) (Q' := fun _ _ => False) (R' := K1); try done;
      apply triple_fail|].
    apply add_jumps_present, Forall_forall. intros words Hw. split; [by apply Hl|]. apply HK1; auto. }
  eapply triple_conseq; [apply (endpoints_installed
    (fun v => K v /\ Forall (fun j => present j v) (in_nat <$> l)) q _ [])|..].
  - intros k r Hkr. apply kept_and.
    + apply Hk. destruct Hkr as [->|[->| ->]]; [right; left; eauto..|by left].
    + apply kept_Forall. intros j _ v v' Hv He. eapply present_kept; [|done..]. by right.
  - by intros v [[H1 H2] H3].
  - intros a v [[H1 H2] H3]. split; [done|]. intros _. split; done.
  - done.
Qed.

(** ** All ports *)

(** A jump to one chain spares those to another. *)
Lemma spares_jump (j j' : (string * string) * rule) :
  (j.1.1, jumpTarget j.2) <> (j'.1.1, jumpTarget j'.2) -> spares j j'.1 (Delete j'.2).
Proof.
  intros Hne. destruct (decide (j'.1 = j.1)) as [He|He]; [right|by left].
  intros Hr. apply Hne. by rewrite He, Hr.
Qed.

(** The edits for one port spare the jumps to other chains. *)
Lemma port_edit_spares q j k e :
  known_protocols svc = true -> q ∈ sv_Ports svc -> sp_Port q <> 0 -> j.1 <> port_chain svc q ->
  (j.1.1, jumpTarget j.2) <> port_chain svc q -> port_edit q k e -> spares j k e.
Proof.
  intros Hp Hq Hz Hc Ht [->|[(_ & r & ->)|(j' & Hj' & -> & He)]].
  - by left.
  - by right.
  - apply port_jump_shape in Hj' as [_ Hj']; [|by apply (known_proto svc)].
    destruct He as [-> | ->]; [by right|]. apply spares_jump. by rewrite Hj'.
Qed.

Lemma installed_kept p q k e :
  known_protocols svc = true -> p ∈ sv_Ports svc -> q ∈ sv_Ports svc ->
  sp_Port p <> 0 -> sp_Port q <> 0 -> sp_Port p <> sp_Port q ->
  port_edit q k e -> kept (installed p) k e.
Proof.
  intros Hp Hpin Hqin Hpz Hqz Hne He.
  assert (Hc : port_chain svc q <> port_chain svc p) by (intros H%port_chain_inj; by apply Hne).
  assert (Hown : own svc (port_chain svc p) = true) by (apply own_port; by apply exposed_in).
  apply kept_and.
  - apply kept_lookup. destruct He as [->|[([-> | ->] & _)|(j & Hj & -> & _)]]; [done..|].
    apply port_jump_shape in Hj as [Hj _]; [|by apply (known_proto svc)]. intros H. congruence.
  - apply kept_Forall. intros j Hj v v' Hv Hd.
    apply port_jump_shape in Hj as [Ho Hj]; [|by apply (known_proto svc)].
    eapply present_kept; [|exact Hv|exact Hd]. eapply port_edit_spares; [done..| | |exact He].
    + intros H. rewrite H, own_port in Ho; [done|by apply exposed_in].
    + rewrite Hj. by apply not_eq_sym.
Qed.

Lemma active_port p : active p = true -> sp_Port p <> 0.
Proof. unfold active. destruct (Z.eqb_spec (sp_Port p) 0); [done|]. by intros. Qed.

Lemma apply_port_inactive q : active q = false -> apply_port svc endpoints q = (mret tt : M unit).
Proof.
  unfold active, apply_port. by destruct (sp_Port q =? 0), (TargetPort q =? 0).
Qed.

Lemma apply_ports_installed K l :
  known_protocols svc = true -> (forall q, q ∈ l -> q ∈ sv_Ports svc) ->
  (forall q, q ∈ l -> active q = true -> kept_by_port K q) ->
  NoDup (sp_Port <$> List.filter active l) ->
  triple K (apply_ports svc endpoints l : M unit)
    (fun v => K v /\ Forall (fun p => installed p v) (List.filter active l)).
Proof.
  intros Hp. revert K. induction l as [|q l IH]; intros K Hl Hk Hnd; cbn [apply_ports].
  { eapply triple_conseq; [apply (triple_ret ip K tt any)|done| |done]. by intros a v Hv. }
  assert (Hl' : forall p, p ∈ l -> p ∈ sv_Ports svc) by (intros p Hin; apply Hl; by right).
  assert (Hq : q ∈ sv_Ports svc) by (apply Hl; by left).
  cbn [List.filter] in *. destruct (active q) eqn:Ha.
  - apply NoDup_cons in Hnd as [Hni Hnd]. eapply triple_seq.
    { apply (apply_port_installed K); [done..|]. apply Hk; [by left|done]. }
    eapply triple_conseq; [apply (IH (fun v => K v /\ installed q v))|..]; [done| |done|..].
    + intros p Hin Hap k e He. apply kept_and; [eapply Hk; [by right|done|done]|].
      apply (installed_kept q p); try done; auto using active_port.
      intros Heq. apply Hni. rewrite Heq. apply list_elem_of_fmap. exists p. split; [done|].
      apply list_elem_of_In, filter_In. by rewrite <- list_elem_of_In.
    + intros v [H1 H2]. split; [done|by apply H2].
    + intros a v [[H1 H2] H3]. split; [done|by constructor].
    + done.
  - eapply triple_seq; [rewrite apply_port_inactive by done; apply triple_ret|].
    apply IH; [done| |done]. intros p Hin. apply Hk. by right.
Qed.

(** ** The whole service *)

Lemma run_presents K args j e :
  edit_of args = Some (j.1, e) -> e = Append j.2 \/ e = Insert j.2 -> kept K j.1 e ->
  triple K (iptables args : M unit) (fun v => K v /\ present j v).
Proof.
  intros He Hj Hk. eapply run_does; [exact He|done|]. intros v v' _ Hd.
  unfold effect in Hd. destruct (v !! j.1) as [l|]; [|by destruct Hj as [-> | ->]].
  destruct Hj as [-> | ->]; injection Hd as <-; eexists; rewrite lookup_insert_eq;
    (split; [done|]); [apply elem_of_app; right; by left|by left].
Qed.

Lemma snat_jumps_kept K chain R :
  (forall r, kept K ("nat", "POSTROUTING") (Delete r)) ->
  ServiceRules.triple ip K (deleteSNATJumpRules chain : M unit) (fun _ => K) R.
Proof.
  intros Hk. unfold deleteSNATJumpRules. eapply triple_seq; [by eapply try_kept|].
  eapply triple_bind; [apply triple_hostAddr|]. intros hostAddr. cbn beta.
  apply triple_pure. intros _. case_match; [by eapply try_kept|apply triple_ret].
Qed.

Lemma kept_present j k e : spares j k e -> kept (present j) k e.
Proof. intros Hs v v' Hv He. by eapply present_kept. Qed.

Definition base_jumps : list ((string * string) * rule) :=
  forward_jump svc :: snat_jumps ip svc.

Lemma base_jumps_kept q :
  known_protocols svc = true -> q ∈ sv_Ports svc -> active q = true ->
  kept_by_port (fun v => Forall (fun j => present j v) base_jumps) q.
Proof.
  intros Hp Hq Ha k e He. apply kept_Forall. intros j Hj. apply kept_present.
  eapply port_edit_spares; [done..|by apply active_port| | |exact He].
  - assert (Hin : j ∈ jumps_of svc (host_addr ip)).
    { unfold base_jumps, snat_jumps, jumps_of in *. rewrite !elem_of_cons, elem_of_app in *.
      naive_solver. }
    apply jumps_shape in Hin as [Ho _]. intros H. rewrite H, own_port in Ho; [done|].
    apply exposed_in; [done|by apply active_port].
  - apply elem_of_cons in Hj as [->|Hj]; [done|]. rewrite (snat_jumps_target _ _ _ Hj). done.
Qed.

Lemma triple_install :
  known_protocols svc = true -> NoDup (sp_Port <$> List.filter active (sv_Ports svc)) ->
  triple any (applyRules svc endpoints : M unit)
    (fun v => Forall (fun j => present j v) base_jumps /\
              Forall (fun p => installed p v) (List.filter active (sv_Ports svc))).
Proof.
  intros Hp Hnd. unfold applyRules, ensureForwardChain, flushForwardChain, deleteForwardJumpRule,
    addForwardJumpRule, ensureSNATChain, flushSNATChain, addLocalhostSNATJumpRule.
  eapply triple_seq; [by eapply try_kept|]. eapply triple_seq; [by eapply run_kept|].
  eapply triple_seq; [apply triple_ignore; by eapply try_kept|].
  eapply triple_seq; [by apply (run_presents any _ (forward_jump svc) (Insert (forward_jump svc).2));
    auto|].
  set (K := fun v => True /\ present (forward_jump svc) v).
  assert (HK : forall k e, k.1 = "nat" -> kept K k e).
  { intros k e Hk. apply kept_and; [done|]. apply kept_present. left. intros H. by rewrite H in Hk. }
  eapply triple_seq; [eapply try_kept; [done|by apply HK]|].
  eapply triple_seq; [eapply run_kept; [done|by apply HK]|].
  eapply triple_seq; [apply triple_ignore, snat_jumps_kept; intros r; by apply HK|].
  eapply triple_seq; [by apply (run_presents K _ (local_jump svc) (Append (local_jump svc).2));
    auto|].
  set (K1 := fun v => K v /\ present (local_jump svc) v).
  eapply triple_bind; [apply triple_hostAddr|]. intros hostAddr. cbn beta. apply triple_pure.
  intros ->. eapply (triple_seq ip _ _ _ (fun v => Forall (fun j => present j v) base_jumps)).
  - unfold addHostSNATJumpRule. rewrite host_addr_part. unfold base_jumps, snat_jumps, interface_jumps.
    destruct (String.eqb (host_addr ip) ""); cbn [negb].
    + eapply triple_conseq; [apply (triple_ret ip K1 tt any)|done| |done].
      intros a v [[_ H1] H2]. by repeat constructor.
    + eapply triple_conseq; [eapply (run_presents K1 _ (in_nat (host_jump (host_addr ip)
        (serviceSNATChainName (ServiceId svc)))) (Append _)); [done|by left|]|done| |done].
      * apply kept_and; [by apply HK|]. apply kept_present. by right.
      * intros a v [[[_ H1] H2] H3]. by repeat constructor.
  - apply apply_ports_installed; [done|done| |done]. intros q Hq Ha. by apply base_jumps_kept.
Qed.
End install.

(** ** An installation that returns *)

(** C1: when the rules of a service were put in without an error, the traffic of its chains
    is sent there by the jumps in the chains of the host, and the chain of each of its
    ports holds exactly the rules for the ready endpoints, in order - provided that
    its ports use tcp or udp ([known_protocols]), that no two of them have the same
    number (otherwise they share a chain, [ServiceDemo.protocols_of_a_port_share_a_chain]),
    that the tables can be read, and that the packet filter does what its manual says
    ([NetfilterLaw]). *)
Theorem applyRules_installs {X : Type} {N : Netfilter X} {L : NetfilterLaw X}
    svc endpoints (w w' : world ServiceController command (service_tables X)) :
  faults w = [] -> known_protocols svc = true ->
  NoDup (sp_Port <$> List.filter active (sv_Ports svc)) ->
  applyRules svc endpoints w = (Ok tt, w') ->
  Forall (fun j => present j (rules_of w')) (base_jumps (st_ipam (inner w)) svc) /\
  Forall (fun p => installed svc endpoints p (rules_of w')) (List.filter active (sv_Ports svc)).
Proof.
  intros Hf Hp Hnd H.
  destruct (triple_install (st_ipam (inner w)) svc endpoints Hp Hnd w Hf eq_refl I) as (_ & _ & Hi).
  by rewrite H in Hi.
Qed.

(** ** How connections are shared *)
Section chances.
Local Open Scope Q_scope.
(** The number that a text stands for. *)
Context (read : string -> Q).

(** The chance that a rule takes a connection that gets to it. *)
Definition rule_chance (r : rule) : Q :=
  match r with
  | _ :: _ :: _ :: _ :: _ :: _ :: o :: text :: _ =>
      if String.eqb o "--probability" then read text else 1
  | _ => 1
  end.

(** The chance of each rule of a chain, of a connection that gets to the first
    of them with chance [c]. *)
Fixpoint chances (c : Q) (l : list rule) : list Q :=
  match l with
  | [] => []
  | r :: l => c * rule_chance r :: chances (c * (1 - rule_chance r)) l
  end.

(** The chances of [n] endpoints, all but the last with share [p]. *)
Fixpoint geometric (c p : Q) (n : Datatypes.nat) : list Q :=
  match n with
  | O => []
  | S O => [c * 1]
  | S n => c * p :: geometric (c * (1 - p)) p n
  end.

Lemma chances_dnat c prob target proto l :
  chances c (dnat_rules prob target proto l) = geometric c (read prob) (length l).
Proof.
  revert c. induction l as [|ep [|ep' l] IH]; intros c; [done|done|].
  cbn [dnat_rules chances length geometric] in *. by rewrite IH.
Qed.

(** A connection to a port of a service with [n] ready endpoints goes to the
    k-th of them with chance p(1-p)^(k-1), p the share 1/n as written in the
    rules, and to the last with what is left: with three endpoints or more the
    second gets fewer connections than the first. *)
Theorem connections_are_shared_unevenly endpoints p :
  let q := read (format_4f (share (Z.of_nat (length endpoints)))) in
  (chances 1 (wanted endpoints p) = geometric 1 q (length endpoints)) /\
  ((3 <= length endpoints)%nat -> 0 < q -> q < 1 ->
   exists a b rest, chances 1 (wanted endpoints p) = a :: b :: rest /\ b < a).
Proof.
  intros q. unfold wanted. rewrite chances_dnat. fold q. split; [done|].
  intros Hn H0 H1. destruct (length endpoints) as [|[|[|n]]]; [lia..|].
  eexists _, _, _. split; [reflexivity|].
  assert (1 * (1 - q) * q == q - q * q) by ring. assert (1 * q == q) by ring.
  assert (0 < q * q) by (apply Qmult_lt_0_compat; done). lra.
Qed.
End chances.

(** * Services on a small system

    A packet filter that does what [Netfilter.v] says of it, the pods of
    [NetworkPolicyTheory.v] and services in front of them: the theorems on the
    service controller applied, and three things its rules do not do. *)

(** ** A packet filter *)

Definition run_netfilter (args : list string) (v : tables) : res string * tables :=
  match edit_of args with
  | Some (k, e) =>
      match effect k e v with Some v => (Ok "", v) | None => (Err "refused", v) end
  | None => (Err "unknown", v)
  end.
#[export] Instance table_netfilter : Netfilter tables := run_netfilter.

#[export] Instance table_law : NetfilterLaw tables.
Proof.
  refine {| rules := fun v => v |}. intros args v k e He.
  unfold netfilter, table_netfilter, run_netfilter. rewrite He.
  destruct (effect k e v) as [v'|]; [left|right]; eauto.
Defined.
#[export] Instance table_steady : NetfilterSteady tables.
Proof.
  intros args v k e v' He _ Hv. unfold netfilter, table_netfilter, run_netfilter.
  rewrite He. simpl in Hv. by rewrite Hv.
Defined.

Module ServiceDemo.
Definition port (n target : Z) (proto : string) : ServicePort :=
  {| sp_Port := n; TargetPort := target; sp_Protocol := proto |}.
Definition service (id app ip : string) (ports : list ServicePort) : ServiceInfo :=
  {| ServiceId := id; sv_Name := app; sv_Namespace := "demo"; sv_Type := "ClusterIP";
     ClusterIP := ip; Selector := <["app" := app]> ∅; sv_Ports := ports; sv_CreatedAt := 0 |}.

(** Ids given out within one second. *)
Definition id_a : string := "01hv3c5m8k0000000000000000".
Definition id_b : string := "01hv3c5m9z0000000000000000".
Definition web : ServiceInfo := service id_a "web" "10.96.0.1" [port 80 8080 "tcp"].
Definition api : ServiceInfo := service id_b "api" "10.96.0.2" [port 80 9090 "tcp"].
Definition dns : ServiceInfo := service id_a "web" "10.96.0.3" [port 53 5300 "tcp"; port 53 5400 "udp"].

Definition table (l : list ServiceInfo) : ServiceState :=
  {| sv_Version := "0.1.0"; Services := list_to_map ((fun s => (ServiceId s, s)) <$> l) |}.

(** The chains that a host has. *)
Definition host_filter : tables :=
  <[("filter", "FORWARD") := [["-j"; "DOCKER"]]]>
  (<[("nat", "PREROUTING") := []]> (<[("nat", "OUTPUT") := []]> (<[("nat", "POSTROUTING") := []]> ∅))).

Definition start (l : list ServiceInfo) (v : tables)
    : world ServiceController command (service_tables tables) :=
  {| store := {| lastState := ∅; lastServices := ∅ |};
     faults := []; times := []; ids := []; trace := [];
     inner := {| st_csm := NetworkDemo.containers; st_ipam := NetworkDemo.addresses;
                 st_psm := NetworkDemo.pods; st_ssm := table l; st_net := v |} |}.

Definition after (l : list ServiceInfo) (v : tables) : world ServiceController command (service_tables tables) :=
  (reconcileOnce (start l v)).2.

(** The rules for one service. *)
Example web_rules :
  (rules_of (after [web] host_filter) !! ("nat", "RAIND-SVC-01hv3c5m-80"),
   rules_of (after [web] host_filter) !! ("nat", "PREROUTING"),
   rules_of (after [web] host_filter) !! ("filter", "FORWARD")) =
  (Some [["-p"; "tcp"; "-j"; "DNAT"; "--to-destination"; "10.166.0.1:8080"]],
   Some [["-d"; "10.96.0.1/32"; "-p"; "tcp"; "--dport"; "80"; "-j"; "RAIND-SVC-01hv3c5m-80"]],
   Some [["-j"; "RAIND-FWD-01hv3c5m"]; ["-j"; "DOCKER"]]).
Proof. vm_compute. reflexivity. Qed.

Lemma keyed_table l : keyed (table l).
Proof.
  intros id svc H. unfold table in H. simpl in H. apply elem_of_list_to_map_2 in H.
  apply list_elem_of_fmap in H as (s & [= -> ->] & _). done.
Qed.

(** ** The theorems applied *)

(** A round over the table of [l] returns: only the outcome is computed. *)
Lemma after_ran l v : (reconcileOnce (start l v)).1 = Ok tt ->
  reconcileOnce (start l v) = (Ok tt, after l v).
Proof. exact (ran _ _ _). Qed.

Lemma pair_rounds : reconcileOnce (start [web; api] host_filter) =
  (Ok tt, after [web; api] host_filter).
Proof. apply after_ran. vm_compute. reflexivity. Qed.

Example reconcileOnce_settles_witness :
  lastState (store (after [web; api] host_filter)) = states_in (inner (start [web; api] host_filter)) /\
  reconcileOnce (after [web; api] host_filter) = (Ok tt, after [web; api] host_filter).
Proof.
  pose proof (reconcileOnce_settles (start [web; api] host_filter) (after [web; api] host_filter)
    eq_refl (keyed_table _) pair_rounds) as (H1 & _ & _ & _ & _ & H2).
  exact (conj H1 H2).
Defined.

Definition two_endpoints : list svcEndpoint :=
  [{| Addr := "10.166.0.1"; ep_HostInterface := "eth0"; Bridge := "raind0" |};
   {| Addr := "10.166.0.2"; ep_HostInterface := "eth0"; Bridge := "raind0" |}].

Example rules_touch_own_chains_witness :
  erase (own web) (rules_of (applyRules web two_endpoints (start [] host_filter)).2) =
    erase (own web) host_filter.
Proof.
  exact (proj1 (rules_touch_own_chains web two_endpoints (start [] host_filter)
    ltac:(vm_compute; reflexivity))).
Defined.

Lemma host_clean : erase (own dns) (rules_of (start [] host_filter)) = rules_of (start [] host_filter).
Proof. apply (bool_decide_eq_true _). vm_compute. reflexivity. Qed.

Example cleanup_undoes_apply_witness :
  rules_of (cleanupServiceRules dns (applyRules dns two_endpoints (start [] host_filter)).2).2 =
    rules_of (start [] host_filter).
Proof.
  exact (cleanup_undoes_apply dns two_endpoints (start [] host_filter) eq_refl eq_refl
    host_clean).
Defined.

Definition web_applied : world ServiceController command (service_tables tables) :=
  (applyRules web two_endpoints (start [] host_filter)).2.

Lemma web_applies : applyRules web two_endpoints (start [] host_filter) = (Ok tt, web_applied).
Proof. apply (ran _ _ _). vm_compute. reflexivity. Qed.

Example applyRules_installs_witness :
  Forall (fun p => installed web two_endpoints p (rules_of web_applied))
    [port 80 8080 "tcp"].
Proof.
  exact (proj2 (applyRules_installs web two_endpoints (start [] host_filter) web_applied
    eq_refl eq_refl (NoDup_singleton _) web_applies)).
Defined.

(** ** What the rules do not do *)

(** The first characters of the id tell services apart only if they were made
    more than a second apart: two younger ones with a port of the same number
    have one chain, and the connections to one go to the endpoints of the other. *)
Theorem services_of_one_second_share_a_chain :
  port_chain web (port 80 8080 "tcp") = port_chain api (port 80 9090 "tcp") /\
  rules_of (after [web; api] host_filter) !! port_chain api (port 80 9090 "tcp") =
    Some [["-p"; "tcp"; "-j"; "DNAT"; "--to-destination"; "10.166.0.1:8080"]] /\
  lastState (store (after [web; api] host_filter)) !! ServiceId api =
    Some "10.166.0.2,80:9090/tcp,clusterIP=10.96.0.2,type=ClusterIP".
Proof. vm_compute. done. Qed.

(** A port number served over two protocols has one chain, which is left with
    the rules of the last of them: TCP connections match none. *)
Theorem protocols_of_a_port_share_a_chain :
  rules_of (after [dns] host_filter) !! ("nat", "RAIND-SVC-01hv3c5m-53") =
    Some [["-p"; "udp"; "-j"; "DNAT"; "--to-destination"; "10.166.0.1:5400"]] /\
  rules_of (after [dns] host_filter) !! ("nat", "PREROUTING") =
    Some [["-d"; "10.96.0.3/32"; "-p"; "tcp"; "--dport"; "53"; "-j"; "RAIND-SVC-01hv3c5m-53"];
          ["-d"; "10.96.0.3/32"; "-p"; "udp"; "--dport"; "53"; "-j"; "RAIND-SVC-01hv3c5m-53"]].
Proof. vm_compute. done. Qed.

(** A state is remembered before its rules are in: where they could not be put
    in, the next round does not try again. *)
Theorem failed_rules_are_not_retried :
  let w := after [web] ∅ in
  rules_of w !! ("nat", "RAIND-SVC-01hv3c5m-80") = None /\
  lastState (store w) !! ServiceId web =
    Some "10.166.0.1,80:8080/tcp,clusterIP=10.96.0.1,type=ClusterIP" /\
  reconcileOnce w = (Ok tt, w).
Proof.
  cbv zeta. split; [vm_compute; reflexivity|]. split; [vm_compute; reflexivity|].
  destruct (reconcileOnce_memory (start [web] ∅) (after [web] ∅)) as [[Hf Hc Hi Hp Hs] Hst];
    [reflexivity|exact (keyed_table [web])|apply after_ran; vm_compute; reflexivity|].
  apply reconcileOnce_idle; [exact Hf|rewrite Hs; exact (keyed_table [web])|].
  rewrite Hst. unfold states_in. by rewrite Hc, Hi, Hp, Hs.
Qed.

(** The shares of three endpoints, in the four digits that the rules have. *)
Definition three_endpoints : list svcEndpoint :=
  two_endpoints ++ [{| Addr := "10.166.0.3"; ep_HostInterface := "eth0"; Bridge := "raind0" |}].
Example shares_of_three :
  chances (fun text => if String.eqb text "0.3333" then 3333 # 10000 else 0)%Q 1
    (wanted three_endpoints (port 80 8080 "tcp")) =
  [3333 # 10000; 22221111 # 100000000; 44448889 # 100000000]%Q.
Proof. vm_compute. reflexivity. Qed.
End ServiceDemo.
