(* ===== verification/Network.v ===== *)
(** * Networks ([core/network])

    Bridges with their DNS redirection, and the rules that publish the ports of
    containers, over the address pools ([Ipam]).  The [ip] and [iptables]
    commands and the commit of the policies are the class [NetworkPeers]. *)

From Stdlib Require Import ZArith Lia Ascii String.
From stdpp Require Import base gmap strings list.
From S2P Require Import Prelude.
From S2P Require Import GoString.
From S2P Require Import World.
From S2P Require Ipam.
Open Scope Z_scope.

Record ServiceNetworkModel := {
  HostPort : string;
  ContainerPort : string;
  Protocol : string
}.

Record InputRuleModel := {
  SourceAddr : string;
  DestAddr : string;
  ir_Protocol : string;
  SourcePort : Z;
  DestPort : Z
}.

Record RollbackFlag := { StoreIpam : bool; flag_CreateBridgeInterface : bool }.

Inductive network_call :=
| Command (argv : list string)
| Commit.

(** A command changes the host and gives its output; the commit of the policies
    reads the pools. *)
Class NetworkPeers (X : Type) := {
  host_run : list string -> X -> res string * X;
  commit_policy : Ipam.IpamState -> X -> res string * X
}.

#[export] Instance network_callees {X} {P : NetworkPeers X} :
    Callees network_call Ipam.IpamState X := fun c '(st, x) =>
  let '(r, x) := match c with
                 | Command argv => host_run argv x
                 | Commit => commit_policy st x
                 end in
  (r, (st, x)).

(** ** Text *)

(** [strings.Cut] for any separator. *)
Fixpoint cut_string (sep s : string) : option (string * string) :=
  if hasPrefix s sep then Some ("", drop_str (String.length sep) s) else
  match s with
  | EmptyString => None
  | String c r => match cut_string sep r with
                  | Some (a, b) => Some (String c a, b)
                  | None => None
                  end
  end.

(** The second of the three parts of a line. *)
Definition link_name (line : string) : option string :=
  '(_, rest) ← cut_string ": " line;
  '(name, _) ← cut_string ": " rest;
  let name := split_head "@" (trimSpace name) in
  if String.eqb name "" then None else Some name.

Definition parseLinkNames (output : string) : list string :=
  omap link_name (split "010"%char output).

(** ** Rules *)

Definition buildIptablesRuleCommand (table op chain position : string) (ruleParam : list string)
    : list string :=
  ["iptables"] ++ (if String.eqb table "" then [] else ["-t"; table]) ++ [op; chain] ++
  (if String.eqb position "" then [] else [position]) ++ ruleParam.

Definition redirect_rule (forwarderIf forwarderAddr proto : string) : list string :=
  ["PREROUTING"; "-i"; forwarderIf; "-p"; proto; "--dport"; "53"; "-j"; "DNAT";
   "--to-destination"; forwarderAddr +:+ ":1053"].

Definition input_rule (ruleModel : InputRuleModel) (action : string) : list string :=
  ["-s"; SourceAddr ruleModel; "-d"; DestAddr ruleModel; "-j"; action] ++
  (if String.eqb (ir_Protocol ruleModel) "" then [] else ["-p"; ir_Protocol ruleModel]) ++
  (if 0 <? SourcePort ruleModel then ["--sport"; itoa (SourcePort ruleModel)] else []) ++
  (if 0 <? DestPort ruleModel then ["--dport"; itoa (DestPort ruleModel)] else []).

(** A rule with its table, its chain and how it is added. *)
Record placed := { pl_table : string; pl_chain : string; pl_mode : string; pl_rule : list string }.

(** The rules that publish a port, in the order in which they are added and
    removed. *)
Definition forward_rules (hostInterface bridgeInterface containerAddr : string)
    (p : ServiceNetworkModel) : list placed :=
  let target := containerAddr +:+ ":" +:+ ContainerPort p in
  [{| pl_table := "nat"; pl_chain := "PREROUTING"; pl_mode := "append";
      pl_rule := ["-i"; hostInterface; "-p"; Protocol p; "--dport"; HostPort p; "-j"; "DNAT";
                  "--to-destination"; target] |};
   {| pl_table := "nat"; pl_chain := "OUTPUT"; pl_mode := "append";
      pl_rule := ["-m"; "addrtype"; "--dst-type"; "LOCAL"; "-p"; Protocol p; "--dport"; HostPort p;
                  "-j"; "DNAT"; "--to-destination"; target] |};
   {| pl_table := "nat"; pl_chain := "PREROUTING"; pl_mode := "append";
      pl_rule := ["-i"; bridgeInterface; "-m"; "addrtype"; "--dst-type"; "LOCAL"; "-p"; Protocol p;
                  "--dport"; HostPort p; "-j"; "DNAT"; "--to-destination"; target] |};
   {| pl_table := "nat"; pl_chain := "POSTROUTING"; pl_mode := "append";
      pl_rule := ["-s"; "127.0.0.0/8"; "-d"; containerAddr; "-p"; Protocol p; "--dport";
                  ContainerPort p; "-j"; "MASQUERADE"] |};
   {| pl_table := ""; pl_chain := "FORWARD"; pl_mode := "append";
      pl_rule := ["-i"; hostInterface; "-o"; bridgeInterface; "-p"; Protocol p; "--dport";
                  HostPort p; "-d"; containerAddr; "-j"; "ACCEPT"] |};
   {| pl_table := ""; pl_chain := "FORWARD"; pl_mode := "insert-first";
      pl_rule := ["-i"; bridgeInterface; "-o"; bridgeInterface; "-p"; Protocol p; "-m"; "conntrack";
                  "--ctstate"; "DNAT"; "--dport"; ContainerPort p; "-d"; containerAddr; "-j";
                  "ACCEPT"] |};
   {| pl_table := ""; pl_chain := "FORWARD"; pl_mode := "append";
      pl_rule := ["-o"; hostInterface; "-i"; bridgeInterface; "-p"; Protocol p; "--sport";
                  HostPort p; "-s"; containerAddr; "-j"; "ACCEPT"] |}].

(** ** The service *)
Section service.
Context {X : Type} {P : NetworkPeers X}.
#[local] Notation M := (M Ipam.IpamState network_call X).

(** [Command(argv...).Output()] and [.Run()]. *)
Definition output (argv : list string) : M string := invoke (Command argv).
Definition run (argv : list string) : M unit := _ ← output argv; mret tt.
Definition succeeds (argv : list string) : M bool :=
  r ← attempt (run argv); mret (is_ok r).
Definition CommitPolicy : M unit := _ ← invoke Commit; mret tt.

(** *** Rules *)

Definition addIptablesRuleIfMissing (r : placed) : M unit :=
  there ← succeeds (buildIptablesRuleCommand (pl_table r) "-C" (pl_chain r) "" (pl_rule r));
  if there : bool then mret tt else
  run (if String.eqb (pl_mode r) "insert-first"
       then buildIptablesRuleCommand (pl_table r) "-I" (pl_chain r) "1" (pl_rule r)
       else buildIptablesRuleCommand (pl_table r) "-A" (pl_chain r) "" (pl_rule r)).

Definition deleteIptablesRuleIfExists (r : placed) : M unit :=
  there ← succeeds (buildIptablesRuleCommand (pl_table r) "-C" (pl_chain r) "" (pl_rule r));
  if there : bool
  then run (buildIptablesRuleCommand (pl_table r) "-D" (pl_chain r) "" (pl_rule r))
  else mret tt.

Fixpoint each (f : placed -> M unit) (l : list placed) : M unit :=
  match l with [] => mret tt | r :: l => _ ← f r; each f l end.

Definition setForwardRules (hostInterface bridgeInterface containerAddr : string)
    (portParam : ServiceNetworkModel) : M unit :=
  each addIptablesRuleIfMissing
    (forward_rules hostInterface bridgeInterface containerAddr portParam).
Definition deleteForwardRules (hostInterface bridgeInterface containerAddr : string)
    (portParam : ServiceNetworkModel) : M unit :=
  each deleteIptablesRuleIfExists
    (forward_rules hostInterface bridgeInterface containerAddr portParam).

Definition getContainerAddress (containerId : string) : M (string * string * string) :=
  read (fun st =>
    let '(host, bridge, addr, err) := Ipam.GetContainerAddress containerId st in
    match err with Some e => Err e | None => Ok (host, bridge, addr) end).

Definition CreateForwardingRule (containerId : string) (parameter : ServiceNetworkModel)
    : M unit :=
  '(host, bridge, addr) ← getContainerAddress containerId;
  setForwardRules host bridge addr parameter.
Definition RemoveForwardingRule (containerId : string) (parameter : ServiceNetworkModel)
    : M unit :=
  '(host, bridge, addr) ← getContainerAddress containerId;
  deleteForwardRules host bridge addr parameter.

Definition CreateMasqueradeRule (src dst : string) : M unit :=
  let rule := ["POSTROUTING"; "-s"; src; "-o"; dst; "-j"; "MASQUERADE"] in
  there ← succeeds (["iptables"; "-t"; "nat"; "-C"] ++ rule);
  if there : bool then mret tt else run (["iptables"; "-t"; "nat"; "-A"] ++ rule).

Definition add_redirect (rule : list string) : M unit :=
  there ← succeeds (["iptables"; "-t"; "nat"; "-C"] ++ rule);
  if there : bool then mret tt else run (["iptables"; "-t"; "nat"; "-A"] ++ rule).
Definition CreateRedirectDnsTrafficRule (forwarderIf forwarderAddr : string) : M unit :=
  _ ← add_redirect (redirect_rule forwarderIf forwarderAddr "udp");
  add_redirect (redirect_rule forwarderIf forwarderAddr "tcp").

Definition removeRedirectDnsTrafficRule (forwarderIf forwarderAddr proto : string) : M unit :=
  let rule := redirect_rule forwarderIf forwarderAddr proto in
  there ← succeeds (["iptables"; "-t"; "nat"; "-C"] ++ rule);
  if there : bool then run (["iptables"; "-t"; "nat"; "-D"] ++ rule) else mret tt.
Definition RemoveRedirectDnsTrafficRule (forwarderIf forwarderAddr : string) : M unit :=
  _ ← removeRedirectDnsTrafficRule forwarderIf forwarderAddr "udp";
  removeRedirectDnsTrafficRule forwarderIf forwarderAddr "tcp".

Definition InsertInputRule (num : Z) (ruleModel : InputRuleModel) (action : string) : M unit :=
  there ← succeeds (["iptables"; "-C"; "INPUT"] ++ input_rule ruleModel action);
  if there : bool then mret tt
  else run (["iptables"; "-I"; "INPUT"; itoa num] ++ input_rule ruleModel action).

(** *** Bridges *)

Definition CreateBridgeInterface (ifname addr : string) : M unit :=
  there ← succeeds ["ip"; "link"; "show"; ifname];
  if there : bool then mret tt else
  _ ← run ["ip"; "link"; "add"; ifname; "type"; "bridge"];
  _ ← run ["ip"; "addr"; "add"; addr; "dev"; ifname];
  run ["ip"; "link"; "set"; ifname; "up"].

Definition RemoveBridgeInterface (ifname : string) : M unit :=
  there ← succeeds ["ip"; "link"; "show"; ifname];
  if there : bool then run ["ip"; "link"; "del"; ifname]
  else fail ("bridge: " +:+ ifname +:+ " not found").

(** The first interface that looks like the bridge of a namespace and is not in
    the pools. *)
Fixpoint find_unmanaged (managed : gset string) (names : list string) : option string :=
  match names with
  | [] => None
  | ifname :: names =>
      if negb (hasPrefix ifname "rns") then find_unmanaged managed names else
      if decide (ifname ∈ managed) then find_unmanaged managed names else Some ifname
  end.

Definition ensureNoUnmanagedNamespaceBridge : M unit :=
  networkList ← read Ipam.GetNetworkList;
  out ← output ["ip"; "-o"; "link"; "show"];
  match find_unmanaged (list_to_set (Ipam.nl_Interface <$> networkList)) (parseLinkNames out) with
  | Some ifname => fail ("unmanaged namespace bridge exists: " +:+ ifname +:+
                         "; remove stale bridge before creating a network")
  | None => mret tt
  end.

Definition GetDnsProxyAddr : M string :=
  read (fun st => let '(_, addr, _, err) := Ipam.GetDnsProxyInfo st in
                  match err with Some e => Err e | None => Ok addr end).

(** The deferred function of [CreateNewNetwork]: an error in it ends it. *)
Definition rollback_network (bridge : string) (flags : RollbackFlag) : M unit :=
  ignore
    (_ ← (if StoreIpam flags then txn (Ipam.RemoveBridge bridge) else mret tt);
     _ ← (if flag_CreateBridgeInterface flags then RemoveBridgeInterface bridge else mret tt);
     CommitPolicy).

(** A step of it after which the function returns if it fails. *)
Definition or_rollback {A} (bridge : string) (flags : RollbackFlag) (m : M A) : M A :=
  r ← attempt m;
  match r with
  | Ok a => mret a
  | Err e | Panic e => _ ← rollback_network bridge flags; fail e
  end.

Definition CreateNewNetwork (bridge : string) : M unit :=
  _ ← ensureNoUnmanagedNamespaceBridge;
  let nothing := {| StoreIpam := false; flag_CreateBridgeInterface := false |} in
  let stored := {| StoreIpam := true; flag_CreateBridgeInterface := false |} in
  let created := {| StoreIpam := true; flag_CreateBridgeInterface := true |} in
  '(_, addr) ← or_rollback bridge nothing (txn (Ipam.StoreBridge bridge));
  _ ← or_rollback bridge stored (CreateBridgeInterface bridge addr);
  dnsProxyAddr ← or_rollback bridge created GetDnsProxyAddr;
  _ ← or_rollback bridge created (CreateRedirectDnsTrafficRule bridge dnsProxyAddr);
  or_rollback bridge created CommitPolicy.

(** An error if some network of that name has containers. *)
Fixpoint check_empty (bridge : string) (l : list Ipam.NetworkList) : res unit :=
  match l with
  | [] => Ok tt
  | n :: l =>
      if negb (String.eqb (Ipam.nl_Interface n) bridge) then check_empty bridge l else
      if negb (Ipam.NumContainers n =? 0)
      then Err ("network: " +:+ bridge +:+ " contains existing container")
      else check_empty bridge l
  end.

Definition RemoveNetwork (bridge : string) : M unit :=
  networkList ← read Ipam.GetNetworkList;
  _ ← observe (fun _ => check_empty bridge networkList);
  dnsProxyAddr ← GetDnsProxyAddr;
  _ ← RemoveRedirectDnsTrafficRule bridge dnsProxyAddr;
  _ ← RemoveBridgeInterface bridge;
  _ ← txn (Ipam.RemoveBridge bridge);
  CommitPolicy.
End service.
