(* ===== verification/NetworkTheory.v ===== *)
(** * Networks: published ports and roll-back

    The rules that publish a port can be taken out again wherever their
    installation stopped, and a network that could not be made leaves the pools
    as they were. *)

From Stdlib Require Import ZArith Lia Ascii String.
From stdpp Require Import base gmap strings list.
From S2P Require Import Prelude.
From S2P Require Import GoString.
From S2P Require Import World.
From S2P Require Ipam.
From S2P Require Import Netfilter.
From S2P Require Import Network.
Open Scope Z_scope.

(** ** The packet filter of the host *)

(** The chain and the rule that [iptables -C] is asked for. *)
Definition check_of (args : list string) : option ((string * string) * rule) :=
  let '(table, args) :=
    match args with
    | o :: t :: rest => if String.eqb o "-t" then (t, rest) else ("filter", args)
    | _ => ("filter", args)
    end in
  match args with
  | o :: chain :: r => if String.eqb o "-C" then Some ((table, chain), r) else None
  | _ => None
  end.

(** What the manual says: [-C] tells whether the rule is there and changes
    nothing, an edit is done or fails and changes nothing, and a rule that is
    there can be deleted. *)
Class FilterHost (X : Type) {P : NetworkPeers X} := {
  chains : X -> tables;
  host_no_panic argv x e : (host_run argv x).1 <> Panic e;
  host_check args k r x : check_of args = Some (k, r) ->
    chains (host_run ("iptables" :: args) x).2 = chains x /\
    (is_ok (host_run ("iptables" :: args) x).1 = true <->
     exists l, chains x !! k = Some l /\ r ∈ l);
  host_edit args k e x : edit_of args = Some (k, e) ->
    (exists v, effect k e (chains x) = Some v /\
       is_ok (host_run ("iptables" :: args) x).1 = true /\
       chains (host_run ("iptables" :: args) x).2 = v) \/
    (is_ok (host_run ("iptables" :: args) x).1 = false /\
     chains (host_run ("iptables" :: args) x).2 = chains x);
  host_removes args k e v x : edit_of args = Some (k, e) -> removal e = true ->
    effect k e (chains x) = Some v ->
    is_ok (host_run ("iptables" :: args) x).1 = true /\
    chains (host_run ("iptables" :: args) x).2 = v
}.

(** ** A set of rules of its own *)
Section own_rules.
Context (S : list ((string * string) * rule)).
Implicit Types v : tables.

Definition ours (k : string * string) (r : rule) : bool := bool_decide ((k, r) ∈ S).

Definition without v : tables :=
  map_imap (fun k l => Some (List.filter (fun r => negb (ours k r)) l)) v.

Lemma lookup_without v k : without v !! k = List.filter (fun r => negb (ours k r)) <$> v !! k.
Proof. unfold without. rewrite map_lookup_imap. by destruct (v !! k). Qed.

(** Besides the rules of [S], each there once at most, the filter is [v0]. *)
Definition published (v0 v : tables) : Prop :=
  without v = v0 /\
  forall k l, v !! k = Some l -> NoDup (List.filter (ours k) l).

Definition absent (j : (string * string) * rule) v : Prop :=
  forall l, v !! j.1 = Some l -> j.2 ∉ l.

Lemma net_filter_none {A} (p : A -> bool) (l : list A) :
  (forall x, x ∈ l -> p x = false) ->
  List.filter p l = [] /\ List.filter (fun x => negb (p x)) l = l.
Proof.
  induction l as [|x l IH]; [done|]. intros H. simpl. rewrite (H x) by left. simpl.
  destruct IH as [-> ->]; [|done]. intros y Hy. apply H. by right.
Qed.

Lemma absent_ours v k l : (forall j, j ∈ S -> absent j v) -> v !! k = Some l ->
  forall r, r ∈ l -> ours k r = false.
Proof.
  intros Ha Hl r Hr. apply bool_decide_eq_false. intros Hin. by apply (Ha _ Hin l Hl).
Qed.

Lemma published_start v : (forall j, j ∈ S -> absent j v) -> published v v.
Proof.
  intros Ha. split.
  - apply map_eq. intros k. rewrite lookup_without. destruct (v !! k) as [l|] eqn:Hk; [|done].
    simpl. f_equal. apply (net_filter_none (ours k)). by eapply absent_ours.
  - intros k l Hk. destruct (net_filter_none (ours k) l) as [-> _]; [by eapply absent_ours|].
    constructor.
Qed.

Lemma published_end v0 v : published v0 v -> (forall j, j ∈ S -> absent j v) -> v = v0.
Proof. intros [<- _] Ha. symmetry. apply (published_start v Ha). Qed.

(** Adding a rule that is not there, and removing one. *)
Lemma published_edit v0 v v' j e :
  j ∈ S -> published v0 v ->
  (e = Append j.2 \/ e = Insert j.2) /\ absent j v \/ e = Delete j.2 ->
  effect j.1 e v = Some v' -> published v0 v'.
Proof.
  intros Hj [Hw Hnd] He Hv. destruct j as [k r]. simpl in *.
  assert (Ho : ours k r = true) by by apply bool_decide_eq_true.
  split.
  - rewrite <- Hw. apply map_eq. intros i. rewrite !lookup_without.
    destruct (decide (i = k)) as [->|Hi]; [|by rewrite (effect_other _ _ _ _ _ Hv Hi)].
    unfold effect in Hv. destruct (v !! k) as [l|] eqn:Hk;
      [|by destruct He as [[[-> | ->] _]| ->]]. simpl.
    destruct He as [[[-> | ->] _]| ->]; [..|case_decide; [|done]]; injection Hv as <-;
      rewrite lookup_insert_eq; simpl; f_equal.
    + rewrite List.filter_app. simpl. by rewrite Ho, app_nil_r.
    + by rewrite Ho.
    + apply remove_first_filter. by rewrite Ho.
  - intros i l' Hl'. destruct (decide (i = k)) as [->|Hi];
      [|rewrite (effect_other _ _ _ _ _ Hv Hi) in Hl'; by apply Hnd].
    unfold effect in Hv. destruct (v !! k) as [l|] eqn:Hk;
      [|by destruct He as [[[-> | ->] _]| ->]]. specialize (Hnd k l Hk).
    assert (Hni : r ∉ l -> r ∉ List.filter (ours k) l).
    { intros H [Hin _]%list_elem_of_In%filter_In. apply H. by apply list_elem_of_In. }
    destruct He as [[[-> | ->] Ha]| ->]; [specialize (Ha l Hk)..|case_decide; [|done]];
      injection Hv as <-; rewrite lookup_insert_eq in Hl'; injection Hl' as <-.
    + rewrite List.filter_app. simpl. rewrite Ho. apply NoDup_app. split; [done|].
      split; [|apply NoDup_singleton]. intros x Hx ->%list_elem_of_singleton. by apply Hni in Hx.
    + simpl. rewrite Ho. constructor; auto.
    + eapply sublist_NoDup; [exact Hnd|].
      assert (Hsub : forall a b, sublist a b ->
        sublist (List.filter (ours k) a) (List.filter (ours k) b)).
      { clear. induction 1 as [|x a b _ IH|x a b _ IH]; simpl; [done|..];
          destruct (ours k x); by try constructor. }
      apply Hsub, remove_first_sublist.
Qed.

Lemma deleted_absent v0 v v' j :
  j ∈ S -> published v0 v -> effect j.1 (Delete j.2) v = Some v' -> absent j v'.
Proof.
  intros Hj [_ Hnd] Hv l' Hl'. destruct j as [k r]. simpl in *. unfold effect in Hv.
  destruct (v !! k) as [l|] eqn:Hk; [|done]. case_decide; [|done]. injection Hv as <-.
  rewrite lookup_insert_eq in Hl'. injection Hl' as <-.
  apply (remove_first_gone (ours k)); [by apply bool_decide_eq_true|by apply Hnd].
Qed.

Lemma absent_shrinks v v' j : shrinks v v' -> absent j v -> absent j v'.
Proof.
  intros Hv Ha l' Hl'. destruct (Hv _ _ Hl') as (l & Hl & Hs). intros Hin.
  apply (Ha l Hl). by eapply elem_of_sublist.
Qed.
End own_rules.

(** ** Publishing a port and taking it back *)
Section publish.
Context {X : Type} {P : NetworkPeers X} {H : FilterHost X}.
#[local] Notation M := (M Ipam.IpamState network_call X).
Implicit Types w : world Ipam.IpamState network_call X.

Definition filter_of w : tables := chains (inner w).

Definition placed_at (r : placed) : (string * string) * rule :=
  ((if String.eqb (pl_table r) "" then "filter" else pl_table r, pl_chain r), pl_rule r).

(** The words of a command line after its name. *)
Definition words_of (r : placed) (op position : string) : list string :=
  (if String.eqb (pl_table r) "" then [] else ["-t"; pl_table r]) ++ [op; pl_chain r] ++
  (if String.eqb position "" then [] else [position]) ++ pl_rule r.

Lemma build_words r op position :
  buildIptablesRuleCommand (pl_table r) op (pl_chain r) position (pl_rule r) =
  "iptables" :: words_of r op position.
Proof. done. Qed.

Lemma words_check r : check_of (words_of r "-C" "") = Some (placed_at r).
Proof. unfold words_of, placed_at, check_of. by destruct (String.eqb (pl_table r) ""). Qed.
Lemma words_delete r : edit_of (words_of r "-D" "") = Some ((placed_at r).1, Delete (placed_at r).2).
Proof. unfold words_of, placed_at, edit_of. by destruct (String.eqb (pl_table r) ""). Qed.
Lemma words_append r : edit_of (words_of r "-A" "") = Some ((placed_at r).1, Append (placed_at r).2).
Proof. unfold words_of, placed_at, edit_of. by destruct (String.eqb (pl_table r) ""). Qed.
Lemma words_insert r : edit_of (words_of r "-I" "1") = Some ((placed_at r).1, Insert (placed_at r).2).
Proof. unfold words_of, placed_at, edit_of. by destruct (String.eqb (pl_table r) ""). Qed.

(** A command leaves the pools and the faults alone. *)
Definition after_command w w' : Prop := store w' = store w /\ faults w' = faults w.

#[export] Instance after_command_preorder : PreOrder after_command.
Proof. split; [done|]. intros a b c [] []. split; congruence. Qed.

Lemma output_run argv w :
  (output argv w).1 = (host_run argv (inner w)).1 /\ after_command w (output argv w).2 /\
  inner (output argv w).2 = (host_run argv (inner w)).2.
Proof.
  unfold output, invoke, callee, network_callees. by destruct (host_run argv (inner w)) as [r x].
Qed.

Lemma net_run_run argv w :
  is_ok (run argv w).1 = is_ok (host_run argv (inner w)).1 /\ after_command w (run argv w).2 /\
  inner (run argv w).2 = (host_run argv (inner w)).2.
Proof.
  destruct (output_run argv w) as (H1 & H2 & H3). unfold run, mbind, M_bind.
  rewrite <- H1, <- H3. by destruct (output argv w) as [[] w'].
Qed.

Lemma succeeds_run argv w :
  (succeeds argv w).1 = Ok (is_ok (host_run argv (inner w)).1) /\
  after_command w (succeeds argv w).2 /\
  inner (succeeds argv w).2 = (host_run argv (inner w)).2.
Proof.
  destruct (output_run argv w) as (H1 & H2 & H3). rewrite <- H3, <- H1.
  assert (Hp : forall e, (output argv w).1 <> Panic e)
    by (intros e; rewrite H1; apply host_no_panic).
  unfold succeeds, run, mbind, M_bind, attempt.
  destruct (output argv w) as [[o|e|e] w']; simpl in *; [by split_and!..|]. by destruct (Hp e).
Qed.

(** Whether a rule is there. *)
Lemma net_check_run r w :
  let m := succeeds (buildIptablesRuleCommand (pl_table r) "-C" (pl_chain r) "" (pl_rule r)) w in
  (exists b, m.1 = Ok b /\ (b = false -> absent (placed_at r) (filter_of w)) /\
     (b = true -> exists l, filter_of w !! (placed_at r).1 = Some l /\ (placed_at r).2 ∈ l)) /\
  after_command w m.2 /\ filter_of m.2 = filter_of w.
Proof.
  intros m. unfold m. rewrite build_words.
  destruct (succeeds_run ("iptables" :: words_of r "-C" "") w) as (H1 & H2 & H3).
  destruct (host_check _ _ _ (inner w) (words_check r)) as [H4 H5].
  split; [|split; [done|unfold filter_of; by rewrite H3]].
  eexists. split; [exact H1|]. split.
  - intros Hb l Hl Hin. assert (is_ok (host_run ("iptables" :: words_of r "-C" "") (inner w)).1 = true)
      as Ht; [|congruence]. apply H5. by exists l.
  - intros Hb. by apply H5.
Qed.

Section rules.
Context (S : list ((string * string) * rule)) (v0 : tables).

Definition holds w w' : Prop :=
  after_command w w' /\ (published S v0 (filter_of w) -> published S v0 (filter_of w')).

Lemma add_step r w :
  placed_at r ∈ S -> holds w (addIptablesRuleIfMissing r w).2.
Proof.
  intros Hr. unfold addIptablesRuleIfMissing, mbind, M_bind.
  destruct (net_check_run r w) as ((b & Hb & Hf & _) & Ha & Hv).
  destruct (succeeds _ w) as [[b'| |] w1]; try (by cbn in Hb). cbn [fst snd] in *. injection Hb as ->.
  destruct b; [split; [done|unfold mret, M_ret; cbn [snd]; by rewrite Hv]|]. specialize (Hf eq_refl).
  set (argv := if String.eqb (pl_mode r) "insert-first" then _ else _).
  assert (Hargv : exists args e, argv = "iptables" :: args /\
    edit_of args = Some ((placed_at r).1, e) /\
    (e = Append (placed_at r).2 \/ e = Insert (placed_at r).2)).
  { unfold argv. destruct (String.eqb _ _); rewrite build_words.
    - eexists _, _. split; [done|]. split; [apply words_insert|by right].
    - eexists _, _. split; [done|]. split; [apply words_append|by left]. }
  destruct Hargv as (args & e & -> & He & Hr').
  destruct (net_run_run ("iptables" :: args) w1) as (_ & Ha1 & Hi1).
  split; [by etrans|]. intros Hpub. unfold filter_of in *. rewrite Hi1.
  destruct (host_edit _ _ _ (inner w1) He) as [(v & Hv1 & _ & ->)|[_ ->]]; [|by rewrite Hv].
  eapply published_edit; [exact Hr| |left; split; [exact Hr'|exact Hf]|].
  - exact Hpub.
  - by rewrite <- Hv.
Qed.

Lemma add_all l w :
  Forall (fun r => placed_at r ∈ S) l -> holds w (each addIptablesRuleIfMissing l w).2.
Proof.
  intros Hl. revert w. induction Hl as [|r l Hr Hl IH]; intros w; [done|]. cbn [each].
  unfold mbind, M_bind. destruct (add_step r w Hr) as [Ha Hp].
  destruct (addIptablesRuleIfMissing r w) as [[u|e|e] w1]; simpl in *; [|done..].
  destruct (IH w1) as [Ha1 Hp1]. split; [by etrans|auto].
Qed.

Lemma delete_step r w :
  placed_at r ∈ S -> published S v0 (filter_of w) ->
  exists w', deleteIptablesRuleIfExists r w = (Ok tt, w') /\ after_command w w' /\
    published S v0 (filter_of w') /\ shrinks (filter_of w) (filter_of w') /\
    absent (placed_at r) (filter_of w').
Proof.
  intros Hr Hpub. unfold deleteIptablesRuleIfExists, mbind, M_bind.
  destruct (net_check_run r w) as ((b & Hb & Hf & Ht) & Ha & Hv).
  destruct (succeeds _ w) as [[b'| |] w1]; try (by cbn in Hb). cbn [fst snd] in *. injection Hb as ->.
  destruct b; cycle 1.
  { exists w1. rewrite Hv. split_and!; try done. by apply Hf. }
  destruct (Ht eq_refl) as (l & Hl & Hin). rewrite build_words.
  destruct (net_run_run ("iptables" :: words_of r "-D" "") w1) as (Ho & Ha1 & Hi1).
  assert (He : effect (placed_at r).1 (Delete (placed_at r).2) (chains (inner w1)) =
    Some (<[(placed_at r).1 := remove_first (placed_at r).2 l]> (filter_of w))).
  { unfold effect. change (chains (inner w1)) with (filter_of w1). rewrite Hv, Hl.
    by rewrite decide_True. }
  destruct (host_removes _ _ _ _ (inner w1) (words_delete r) eq_refl He) as [Hok Hc].
  exists (run ("iptables" :: words_of r "-D" "") w1).2.
  assert (Hw' : filter_of (run ("iptables" :: words_of r "-D" "") w1).2 =
    <[(placed_at r).1 := remove_first (placed_at r).2 l]> (filter_of w))
    by (unfold filter_of at 1; by rewrite Hi1).
  change (chains (inner w1)) with (filter_of w1) in He. rewrite Hv in He.
  split_and!.
  - rewrite Hok in Ho. by destruct (run _ w1) as [[[]| |] w2].
  - by etrans.
  - rewrite Hw'. eapply published_edit; [exact Hr|done|by right|done].
  - rewrite Hw'. eapply effect_shrinks; [|exact He]. done.
  - rewrite Hw'. by eapply deleted_absent.
Qed.

Lemma delete_all l w :
  Forall (fun r => placed_at r ∈ S) l -> published S v0 (filter_of w) ->
  exists w', each deleteIptablesRuleIfExists l w = (Ok tt, w') /\ after_command w w' /\
    published S v0 (filter_of w') /\ shrinks (filter_of w) (filter_of w') /\
    Forall (fun r => absent (placed_at r) (filter_of w')) l.
Proof.
  intros Hl. revert w. induction Hl as [|r l Hr Hl IH]; intros w Hpub.
  { exists w. by split_and!. }
  destruct (delete_step r w Hr Hpub) as (w1 & H1 & Ha1 & Hp1 & Hs1 & Hab).
  destruct (IH w1 Hp1) as (w2 & H2 & Ha2 & Hp2 & Hs2 & Hall).
  exists w2. cbn [each]. rewrite (M_bind_eq _ _ _ _ _ H1). split_and!; [done|by etrans|done|by etrans|].
  constructor; [by eapply absent_shrinks|done].
Qed.
End rules.

Definition published_rules (containerId : string) (parameter : ServiceNetworkModel) (st : Ipam.IpamState)
    : list placed :=
  let '(host, bridge, addr, _) := Ipam.GetContainerAddress containerId st in
  forward_rules host bridge addr parameter.

End publish.

(** ** Making a network *)
Section create.
Context {X : Type} {P : NetworkPeers X}.
#[local] Notation M := (M Ipam.IpamState network_call X).
Implicit Types w : world Ipam.IpamState network_call X.

(** Commands leave the pools alone. *)
Notation calm := (steps (@eq Ipam.IpamState)).

Lemma calm_invoke (c : network_call) : calm (invoke c : M string).
Proof.
  apply steps_invoke. intros st x. unfold callee, network_callees.
  by destruct c; [destruct (host_run _ x)|destruct (commit_policy st x)].
Qed.

Ltac calm_step :=
  first [ apply calm_invoke
        | apply (steps_read (@eq Ipam.IpamState)) | apply (steps_observe (@eq Ipam.IpamState))
        | apply (steps_ret (@eq Ipam.IpamState)) | apply (steps_fail (@eq Ipam.IpamState))
        | apply (steps_attempt (@eq Ipam.IpamState))
        | apply (steps_bind (@eq Ipam.IpamState)); [|intros ?] ].
Ltac calm := repeat (cbv zeta; calm_step || case_match).

Lemma calm_run argv : calm (run argv : M unit).
Proof. unfold run, output. calm. Qed.
Lemma calm_succeeds argv : calm (succeeds argv : M bool).
Proof. unfold succeeds. calm. Qed.
Lemma calm_commit : calm (CommitPolicy : M unit).
Proof. unfold CommitPolicy. calm. Qed.
Lemma calm_ensure : calm (ensureNoUnmanagedNamespaceBridge : M unit).
Proof. unfold ensureNoUnmanagedNamespaceBridge, output. calm. Qed.
Lemma calm_bridge b addr : calm (CreateBridgeInterface b addr : M unit).
Proof. unfold CreateBridgeInterface. calm; auto using calm_run, calm_succeeds. Qed.
Lemma calm_remove b : calm (RemoveBridgeInterface b : M unit).
Proof. unfold RemoveBridgeInterface. calm; auto using calm_run, calm_succeeds. Qed.
Lemma calm_redirect b addr : calm (CreateRedirectDnsTrafficRule b addr : M unit).
Proof. unfold CreateRedirectDnsTrafficRule, add_redirect. calm; auto using calm_run, calm_succeeds. Qed.
Lemma calm_unredirect b addr : calm (RemoveRedirectDnsTrafficRule b addr : M unit).
Proof.
  unfold RemoveRedirectDnsTrafficRule, removeRedirectDnsTrafficRule.
  calm; auto using calm_run, calm_succeeds.
Qed.
Lemma calm_dns : calm (GetDnsProxyAddr : M string).
Proof. unfold GetDnsProxyAddr. calm. Qed.

(** The pools after the deferred function. *)
Definition undone (b : string) (flags : RollbackFlag) (st : Ipam.IpamState) : Ipam.IpamState :=
  if StoreIpam flags
  then match Ipam.RemoveBridge b st with Ok (st', _) => st' | _ => st end else st.

Lemma bind_after {A B} (m : M A) (f : A -> M B) w :
  ((m ≫= f) w).2 = match m w with (Ok a, w1) => (f a w1).2 | (_, w1) => w1 end.
Proof. unfold mbind, M_bind. by destruct (m w) as [[a|e|e] w1]. Qed.
Lemma ignore_after {A} (m : M A) w : (ignore m w).2 = (m w).2.
Proof. unfold ignore. by destruct (m w) as [[a|e|e] w1]. Qed.

Lemma net_rollback_run b flags w :
  faults w = [] ->
  faults (rollback_network b flags w).2 = [] /\
  store (rollback_network b flags w).2 = undone b flags (store w).
Proof.
  intros Hw. unfold rollback_network, undone. rewrite ignore_after.
  set (rest := (_ ← (if flag_CreateBridgeInterface flags then RemoveBridgeInterface b else mret tt);
                CommitPolicy) : M unit).
  assert (Hrest : calm rest).
  { unfold rest. apply (steps_bind (@eq _)); [|intros _; apply calm_commit].
    case_match; [apply calm_remove|apply (steps_ret (@eq _))]. }
  rewrite bind_after. destruct (StoreIpam flags).
  - rewrite txn_run by done.
    destruct (Ipam.RemoveBridge b (store w)) as [[st u]|e|e]; [|done..].
    by destruct (Hrest (set_store st w) Hw).
  - unfold mret, M_ret. by destruct (Hrest w Hw).
Qed.

Lemma or_rollback_run {A} b flags (m : M A) w r w' :
  faults (m w).2 = [] -> or_rollback b flags m w = (r, w') ->
  (exists a, m w = (Ok a, w') /\ r = Ok a) \/
  (exists e w1, m w = (Err e, w1) /\ store w' = undone b flags (store w1) /\ faults w' = [] /\
     is_ok r = false) \/
  (exists e, r = Panic e).
Proof.
  unfold or_rollback, mbind, M_bind, attempt. destruct (m w) as [[a|e|e] w1]; intros Hf.
  - intros [= <- <-]. left. eauto.
  - destruct (net_rollback_run b flags w1 Hf) as [H1 H2].
    destruct (rollback_network b flags w1) as [[u|e'|e'] w2]; intros [= <- <-]; right; [left..|right];
      eauto 10.
  - intros [= <- <-]. right. right. eauto.
Qed.

(** A bridge that was just stored is removed without a trace. *)
Lemma RemoveBridge_StoreBridge b st st' x :
  Ipam.StoreBridge b st = Ok (st', x) -> Ipam.RemoveBridge b st' = Ok (st, tt).
Proof.
  unfold Ipam.StoreBridge. destruct (existsb _ (Ipam.Pools st)) eqn:Ex; [done|].
  destruct (String.eqb _ ""); [done|]. destruct (GoNet.ParseCIDR _); [|done].
  destruct (GoNet.is_nil _); [done|]. destruct (_ <? _); [done|].
  intros (used & _ & H)%res_bind_ok. destruct (GoNet.is_nil _); [done|].
  destruct (iter_until _ _ _) as [|[ip|]]; [done| |done]. injection H as <- _.
  unfold Ipam.RemoveBridge, Ipam.set_Pools. simpl. rewrite existsb_app, List.filter_app. simpl.
  rewrite String.eqb_refl, orb_true_r. simpl. rewrite app_nil_r.
  assert (List.filter (fun p => negb (String.eqb (Ipam.p_Interface p) b)) (Ipam.Pools st) =
    Ipam.Pools st) as ->; [|by destruct st].
  apply (net_filter_none (fun p => String.eqb (Ipam.p_Interface p) b)). intros p Hp.
  apply not_true_is_false. intros Ht. apply not_true_iff_false in Ex. apply Ex.
  apply existsb_exists. exists p. by rewrite <- list_elem_of_In.
Qed.

(** A part of the function after the pools became [st]: it leaves them so, or
    fails and has them as they were. *)
Definition undoes (st0 st : Ipam.IpamState) {A} (m : M A) : Prop :=
  forall w, faults w = [] -> store w = st ->
  match m w with
  | (Ok _, w') => faults w' = [] /\ store w' = st
  | (Err _, w') => store w' = st0
  | (Panic _, _) => True
  end.

Lemma undoes_bind st0 st {A B} (m : M A) (f : A -> M B) :
  undoes st0 st m -> (forall a, undoes st0 st (f a)) -> undoes st0 st (m ≫= f).
Proof.
  intros Hm Hf w Hw Hst. specialize (Hm w Hw Hst). unfold mbind, M_bind.
  destruct (m w) as [[a|e|e] w1]; [|done..]. destruct Hm. by apply Hf.
Qed.

Lemma undoes_step b flags st0 st {A} (m : M A) :
  StoreIpam flags = true -> Ipam.RemoveBridge b st = Ok (st0, tt) -> calm m ->
  undoes st0 st (or_rollback b flags m).
Proof.
  intros Hfl Hr Hm w Hw Hst. destruct (Hm w Hw) as [Hf1 Hs1].
  destruct (or_rollback b flags m w) as [r w'] eqn:Ho.
  apply or_rollback_run in Ho as [(a & Ho & ->)|[(e & w1 & Ho & Hs & _ & Hr')|(e & ->)]]; [| |done|done].
  - rewrite Ho in Hf1, Hs1. simpl in *. by rewrite <- Hs1.
  - rewrite Ho in Hs1. simpl in Hs1. rewrite <- Hs1, Hst in Hs. unfold undone in Hs.
    rewrite Hfl, Hr in Hs. by destruct r.
Qed.

Lemma store_step b w r w' :
  faults w = [] ->
  or_rollback b {| StoreIpam := false; flag_CreateBridgeInterface := false |}
    (txn (Ipam.StoreBridge b) : M (string * string)) w = (r, w') ->
  match r with
  | Ok a => exists st, Ipam.StoreBridge b (store w) = Ok (st, a) /\ faults w' = [] /\ store w' = st
  | Err _ => store w' = store w
  | Panic _ => True
  end.
Proof.
  intros Hw Ho.
  pose proof (txn_run (C := network_call) (W := X) (Ipam.StoreBridge b) w Hw) as Hm.
  apply or_rollback_run in Ho.
  - destruct Ho as [(a & Ho & ->)|[(e & w1 & Ho & Hs & _ & Hr)|(e & ->)]]; [| |done];
      rewrite Hm in Ho; destruct (Ipam.StoreBridge b (store w)) as [[st x]|?|?]; try done.
    + injection Ho as -> <-. exists st. done.
    + injection Ho as _ <-. rewrite Hs. by destruct r.
  - rewrite Hm. by destruct (Ipam.StoreBridge b (store w)) as [[st x]|?|?].
Qed.

(** A network that could not be made is not in the pools: when
    [CreateNewNetwork] returns an error, wherever it failed, the pools are what
    they were. *)
Theorem failed_network_not_stored b w e w' :
  faults w = [] -> CreateNewNetwork b w = (Err e, w') -> store w' = store w.
Proof.
  intros Hw H. unfold CreateNewNetwork in H. destruct (calm_ensure w Hw) as [Hf1 Hs1].
  apply M_bind_run in H as [([] & w1 & H1 & H)|[(e1 & H1 & He)|(e1 & _ & He)]];
    [| |done]; rewrite H1 in Hf1, Hs1; simpl in *; [|done].
  rewrite Hs1. clear w Hw H1 Hs1.
  apply M_bind_run in H as [([s addr] & w2 & H1 & H)|[(e1 & H1 & [= ->])|(e1 & _ & [=])]];
    apply store_step in H1; [|done|done|done].
  destruct H1 as (st & Hst & Hf2 & Hs2). apply RemoveBridge_StoreBridge in Hst.
  match type of H with ?m w2 = _ => assert (Hu : undoes (store w1) st m) end.
  { apply undoes_bind; [|intros _; apply undoes_bind; [|intros dns; apply undoes_bind; [|intros _]]];
      (eapply undoes_step; [done|exact Hst|]);
      auto using calm_bridge, calm_dns, calm_redirect, calm_commit. }
  specialize (Hu w2 Hf2 Hs2). by rewrite H in Hu.
Qed.

(** The service makes no faults of its own. *)
Lemma bind_faults {A B} (m : M A) (f : A -> M B) :
  (forall w, faults w = [] -> faults (m w).2 = []) ->
  (forall a w, faults w = [] -> faults (f a w).2 = []) ->
  forall w, faults w = [] -> faults ((m ≫= f) w).2 = [].
Proof.
  intros Hm Hf w Hw. rewrite bind_after. specialize (Hm w Hw).
  destruct (m w) as [[a|e|e] w1]; auto.
Qed.
Lemma txn_faults {A} (fn : Ipam.IpamState -> res (Ipam.IpamState * A)) w :
  faults w = [] -> faults (txn fn w : res A * _).2 = [].
Proof. intros Hw. rewrite txn_run by done. by destruct (fn (store w)) as [[]| |]. Qed.

Lemma RemoveNetwork_faults b w : faults w = [] -> faults (RemoveNetwork b w).2 = [].
Proof.
  revert w. unfold RemoveNetwork. apply bind_faults; [intros w Hw; by rewrite read_run|intros l].
  apply bind_faults; [done|intros _]. apply bind_faults; [intros w Hw; by apply calm_dns|intros d].
  apply bind_faults; [intros w Hw; by apply calm_unredirect|intros _].
  apply bind_faults; [intros w Hw; by apply calm_remove|intros _].
  apply bind_faults; [intros w Hw; by apply txn_faults|intros _ w Hw; by apply calm_commit].
Qed.

Lemma or_rollback_faults {A} b flags (m : M A) w :
  faults w = [] -> faults (m w).2 = [] -> faults (or_rollback b flags m w).2 = [].
Proof.
  intros Hw Hm. unfold or_rollback, mbind, M_bind, attempt.
  destruct (m w) as [[a|e|e] w1]; [done| |done].
  destruct (net_rollback_run b flags w1 Hm) as [H1 _].
  by destruct (rollback_network b flags w1) as [[]].
Qed.

Lemma CreateNewNetwork_faults b w : faults w = [] -> faults (CreateNewNetwork b w).2 = [].
Proof.
  revert w. unfold CreateNewNetwork. apply bind_faults; [intros w Hw; by apply calm_ensure|intros _].
  apply bind_faults; [intros w Hw; apply or_rollback_faults; [done|by apply txn_faults]|intros [s a]].
  apply bind_faults; [intros w Hw; apply or_rollback_faults; [done|by apply calm_bridge]|intros _].
  apply bind_faults; [intros w Hw; apply or_rollback_faults; [done|by apply calm_dns]|intros d].
  apply bind_faults; [intros w Hw; apply or_rollback_faults; [done|by apply calm_redirect]|intros _].
  intros w Hw. apply or_rollback_faults; [done|by apply calm_commit].
Qed.

(** A network with containers is not removed: the answer is an error, and no
    command is run. *)
Theorem network_in_use_kept b w n :
  faults w = [] -> n ∈ match Ipam.GetNetworkList (store w) with Ok l => l | _ => [] end ->
  Ipam.nl_Interface n = b -> Ipam.NumContainers n <> 0 ->
  exists e, RemoveNetwork b w = (Err e, w).
Proof.
  intros Hw Hn Hb Hc. unfold RemoveNetwork.
  destruct (Ipam.GetNetworkList (store w)) as [l|e|e] eqn:Hl; [|by apply not_elem_of_nil in Hn..].
  rewrite (M_bind_eq _ _ w l w) by (by rewrite read_run, Hl by done).
  assert (Hchk : exists e, check_empty b l = Err e).
  { clear - Hn Hb Hc. induction l as [|x l IH]; [by apply not_elem_of_nil in Hn|]. simpl.
    apply elem_of_cons in Hn as [<-|Hn].
    - rewrite Hb, String.eqb_refl. destruct (Z.eqb_spec (Ipam.NumContainers n) 0); [done|]. eauto.
    - repeat case_match; eauto. }
  destruct Hchk as [e He]. exists e. unfold mbind, M_bind, observe. by rewrite He.
Qed.
End create.

(** * Networks on a small host

    A host with links and a packet filter, the theorems on networks applied to
    it, and what a failed creation leaves behind. *)

(** ** A host *)

(** [failing] says which [ip] commands are refused. *)
Record host := {
  links : list string;
  host_chains : tables;
  failing : list string -> bool;
  commit_fails : bool
}.

Definition set_links (h : host) (l : list string) : host :=
  {| links := l; host_chains := host_chains h; failing := failing h;
     commit_fails := commit_fails h |}.
Definition set_chains (h : host) (v : tables) : host :=
  {| links := links h; host_chains := v; failing := failing h; commit_fails := commit_fails h |}.

Definition run_filter (args : list string) (h : host) : res string * host :=
  match check_of args with
  | Some (k, r) =>
      (if decide (r ∈ default [] (host_chains h !! k)) then Ok "" else Err "exit status 1", h)
  | None =>
      match edit_of args with
      | Some (k, e) =>
          match effect k e (host_chains h) with
          | Some v => (Ok "", set_chains h v)
          | None => (Err "exit status 1", h)
          end
      | None => (Err "exit status 2", h)
      end
  end.

(** What [ip -o link show] prints of a link. *)
Definition link_line (name : string) : string := "1: " +:+ name +:+ ": <UP>".

Definition run_ip (args : list string) (h : host) : res string * host :=
  if failing h args then (Err "exit status 2", h) else
  match args with
  | [a; b; n] =>
      if String.eqb a "-o" then (Ok (join (String "010"%char "") (link_line <$> links h)), h) else
      if String.eqb b "show"
      then (if decide (n ∈ links h) then Ok "" else Err "does not exist", h)
      else if String.eqb b "del"
      then (Ok "", set_links h (List.filter (fun x => negb (String.eqb x n)) (links h)))
      else (Err "exit status 255", h)
  | a :: b :: n :: _ =>
      if String.eqb a "link" && String.eqb b "add" then (Ok "", set_links h (links h ++ [n]))
      else (Ok "", h)
  | _ => (Err "exit status 255", h)
  end.

Definition run_host (argv : list string) (h : host) : res string * host :=
  match argv with
  | [] => (Err "no command", h)
  | cmd :: args => if String.eqb cmd "iptables" then run_filter args h else run_ip args h
  end.

#[export] Instance host_peers : NetworkPeers host := {|
  host_run := run_host;
  commit_policy := fun _ h => (if commit_fails h then Err "exit status 4" else Ok "", h)
|}.

(** No command line both asks for a rule and changes one. *)
Lemma edit_no_check args k e : edit_of args = Some (k, e) -> check_of args = None.
Proof.
  unfold edit_of, check_of.
  set (p := match args with
            | o :: t :: rest => if String.eqb o "-t" then (t, rest) else ("filter", args)
            | _ => ("filter", args)
            end).
  destruct p as [table [|o [|chain rest]]]; try done.
  destruct (String.eqb_spec o "-C") as [->|]; done.
Qed.

#[export] Instance filter_host : FilterHost host.
Proof.
  refine {| chains := host_chains |}.
  - intros [|cmd args] x e; simpl; [done|]. unfold run_filter, run_ip.
    repeat (case_match; simpl; try done).
  - intros args k r x Hc. cbn [host_run host_peers run_host].
    change (String.eqb "iptables" "iptables") with true. cbn [fst snd].
    unfold run_filter. rewrite Hc. split; [done|]. simpl.
    destruct (host_chains x !! k) as [l|] eqn:Hk; simpl.
    + case_decide; simpl; split; try done; [by exists l|]. by intros (l' & [= <-] & ?).
    + split; [done|]. by intros (? & ? & _).
  - intros args k e x He. cbn [host_run host_peers run_host].
    change (String.eqb "iptables" "iptables") with true.
    unfold run_filter. rewrite (edit_no_check _ _ _ He), He.
    destruct (effect k e (host_chains x)) as [v|]; simpl; eauto.
  - intros args k e v x He _ Hv. cbn [host_run host_peers run_host].
    change (String.eqb "iptables" "iptables") with true.
    unfold run_filter. rewrite (edit_no_check _ _ _ He), He. simpl in Hv. by rewrite Hv.
Defined.

Module BridgeDemo.

Definition pools : Ipam.IpamState :=
  {| Ipam.Version := "0.1.0"; Ipam.RuntimeSubnet := "10.166.0.0/16";
     Ipam.st_DnsProxy := {| Ipam.DnsProxyInterface := "raind-dns";
                            Ipam.DnsProxyAddr := "10.166.255.254"; Ipam.Upstreams := ["1.1.1.1"] |};
     Ipam.HostInterface := "eth0"; Ipam.HostInterfaceAddr := "192.0.2.7/24";
     Ipam.Pools := [
       {| Ipam.p_Interface := "raind0"; Ipam.Subnet := "10.166.0.0/24";
          Ipam.Address := "10.166.0.254/24";
          Ipam.Allocations := Some (<["10.166.0.1" :=
            {| Ipam.al_ContainerId := "c1"; Ipam.al_Interface := "rd_c1"; Ipam.Forwards := [];
               Ipam.AssignedAt := 0 |}]> ∅) |}] |}.

Definition empty_chains : tables :=
  <[("nat", "PREROUTING") := []]> (<[("nat", "OUTPUT") := []]>
  (<[("nat", "POSTROUTING") := []]> (<[("filter", "FORWARD") := [["-j"; "RAIND"]]]> ∅))).

Definition start (fails : list string -> bool) (commit : bool)
    : world Ipam.IpamState network_call host :=
  {| store := pools; faults := []; times := []; ids := []; trace := [];
     inner := {| links := ["lo"; "eth0"; "raind0"]; host_chains := empty_chains;
                 failing := fails; commit_fails := commit |} |}.
Definition calm_start := start (fun _ => false) false.

Definition web_port : ServiceNetworkModel :=
  {| HostPort := "8080"; ContainerPort := "80"; Protocol := "tcp" |}.

(** ** The theorems applied *)

(** A chain without the rule, to be evaluated. *)
Lemma absent_eval (j : (string * string) * rule) (v : tables) :
  match v !! j.1 with Some l => negb (bool_decide (j.2 ∈ l)) | None => true end = true ->
  absent j v.
Proof.
  intros Hj l Hl. rewrite Hl in Hj. apply negb_true_iff in Hj. by apply bool_decide_eq_false in Hj.
Qed.

Lemma web_port_absent :
  Forall (fun r => absent (placed_at r) (filter_of calm_start))
    (published_rules "c1" web_port (store calm_start)).
Proof. repeat constructor; apply absent_eval; vm_compute; reflexivity. Qed.

Definition web_published := (CreateForwardingRule "c1" web_port calm_start).2.


Example web_published_rules :
  (filter_of web_published : tables) !! ("nat", "PREROUTING") =
    Some [["-i"; "eth0"; "-p"; "tcp"; "--dport"; "8080"; "-j"; "DNAT";
           "--to-destination"; "10.166.0.1:80"];
          ["-i"; "raind0"; "-m"; "addrtype"; "--dst-type"; "LOCAL"; "-p"; "tcp"; "--dport"; "8080";
           "-j"; "DNAT"; "--to-destination"; "10.166.0.1:80"]].
Proof. vm_compute. reflexivity. Qed.

(** An address cannot be given to the new link. *)
Definition no_address (args : list string) : bool :=
  match args with a :: _ => String.eqb a "addr" | [] => false end.
Definition half_made := (CreateNewNetwork "rns1" (start no_address false)).2.

Lemma half_made_run : CreateNewNetwork "rns1" (start no_address false) = (Err "exit status 2", half_made).
Proof.
  assert (H : (CreateNewNetwork "rns1" (start no_address false)).1 = Err "exit status 2")
    by (vm_compute; reflexivity).
  unfold half_made. by destruct (CreateNewNetwork _ _) as [r w]; simpl in H; subst r.
Qed.

Example failed_network_not_stored_witness : store half_made = pools.
Proof.
  exact (failed_network_not_stored "rns1" (start no_address false) _ half_made eq_refl half_made_run).
Defined.

Example network_in_use_kept_witness : exists e, RemoveNetwork "raind0" calm_start = (Err e, calm_start).
Proof.
  apply (network_in_use_kept "raind0" calm_start
    {| Ipam.nl_Interface := "raind0"; Ipam.nl_Address := "10.166.0.254/24"; Ipam.NumContainers := 1 |}).
  - reflexivity.
  - vm_compute. by left.
  - reflexivity.
  - done.
Defined.

(** ** What a failed creation leaves behind *)

(** The link of a bridge that could not be finished stays: it is not in the
    pools, so that no network can be made from then on, nor can this one be
    removed by its name without an error. *)
Theorem half_made_bridge_blocks_networks :
  links (inner half_made) = ["lo"; "eth0"; "raind0"; "rns1"] /\
  (CreateNewNetwork "br2" half_made).1 =
    Err ("unmanaged namespace bridge exists: rns1; remove stale bridge before creating a network") /\
  (RemoveNetwork "rns1" half_made).1 = Err "bridge: rns1 not found".
Proof. vm_compute. done. Qed.

(** The redirection of the DNS traffic is not taken back when the policies
    cannot be committed after it. *)
Theorem redirection_left_behind :
  let w := (CreateNewNetwork "br2" (start (fun _ => false) true)).2 in
  links (inner w) = ["lo"; "eth0"; "raind0"] /\
  (filter_of w : tables) !! ("nat", "PREROUTING") =
    Some [List.tl (redirect_rule "br2" "10.166.255.254" "udp");
          List.tl (redirect_rule "br2" "10.166.255.254" "tcp")].
Proof. vm_compute. done. Qed.

(** The forwarded packets of a published port carry the port of the container;
    the rule to accept them that is written has that of the host. *)
Theorem forward_rule_has_host_port :
  pl_rule <$> List.filter (fun r => String.eqb (pl_chain r) "FORWARD" &&
                             bool_decide ("eth0" ∈ pl_rule r))
    (published_rules "c1" web_port pools) =
  [["-i"; "eth0"; "-o"; "raind0"; "-p"; "tcp"; "--dport"; "8080"; "-d"; "10.166.0.1"; "-j"; "ACCEPT"];
   ["-o"; "eth0"; "-i"; "raind0"; "-p"; "tcp"; "--sport"; "8080"; "-s"; "10.166.0.1"; "-j"; "ACCEPT"]].
Proof. vm_compute. reflexivity. Qed.
End BridgeDemo.
