(* ===== verification/NamespaceService.v ===== *)
(** * The namespace service ([core/namespace])

    Namespaces with a network of their own or a given one, over the table of
    namespaces ([Nsm]), the network service ([Network]) and the tables that tell
    whether a namespace is in use. *)

From Stdlib Require Import ZArith Lia Ascii String.
From stdpp Require Import base gmap strings list.
From S2P Require Import Prelude.
From S2P Require Import GoString.
From S2P Require Import GoNumber.
From S2P Require Import World.
From S2P Require Ipam.
From S2P Require Psm.
From S2P Require Ssm.
From S2P Require Import Nsm.
From S2P Require Import Network.
From S2P Require Import NetworkTheory.
Open Scope Z_scope.

(** ** Data ([model.go]) *)

Record ServiceCreateModel := {
  sc_Name : string;
  sc_Network : string;
  sc_Labels : gmap string string;
  sc_Annotations : gmap string string
}.

Record ResourceCounts := {
  rc_Pods : Z;
  rc_Services : Z;
  rc_ReplicaSets : Z;
  rc_Deployments : Z;
  rc_Allocations : Z
}.

Record NamespaceView := {
  nv_Name : string;
  nv_Network : string;
  nv_NetworkAuto : bool;
  nv_Labels : gmap string string;
  nv_Annotations : gmap string string;
  nv_CreatedAt : Z;
  Resources : ResourceCounts
}.

Definition isEmpty (r : ResourceCounts) : bool :=
  (rc_Pods r =? 0) && (rc_Services r =? 0) && (rc_ReplicaSets r =? 0) &&
  (rc_Deployments r =? 0) && (rc_Allocations r =? 0).

(** ** Names *)

Definition name_char (c : ascii) : bool := is_lower c || is_digit c || Ascii.eqb c "-".

(** The pattern: small letters, digits and hyphens, no hyphen at either end. *)
Definition namespaceNamePattern (name : string) : bool :=
  let l := list_ascii_of_string name in
  forallb name_char l &&
  match l with [] => false | c :: _ => negb (Ascii.eqb c "-") end &&
  match rev l with [] => false | c :: _ => negb (Ascii.eqb c "-") end.

Definition validateNamespaceName (name : string) : res unit :=
  if String.eqb name "" then Err "namespace name is required" else
  if 63 <? Z.of_nat (String.length name)
  then Err "namespace name must be 63 characters or less" else
  if negb (namespaceNamePattern name) then Err ("invalid namespace name: " +:+ name) else Ok tt.

Definition bridgeNameForNamespace (name : string) : string :=
  "rns" +:+ take_str 12 (hex_of (Sum256 name)).

(** ** The service *)

(** The other tables, and the host of the network service. *)
Record ns_tables (X : Type) := {
  ns_psm : Psm.PodState;
  ns_ssm : Ssm.ServiceState;
  ns_ipam : Ipam.IpamState;
  ns_host : X
}.
Arguments ns_psm {X} n.
Arguments ns_ssm {X} n.
Arguments ns_ipam {X} n.
Arguments ns_host {X} n.

Section service.
Context {RO : RangeOrder} {X : Type} {P : NetworkPeers X}.
#[local] Notation M := (M NamespaceState network_call (ns_tables X)).

(** A computation of the network service, on the pools and the host. *)
Definition with_network {A} (m : World.M Ipam.IpamState network_call X A) : M A := fun w =>
  let t := inner w in
  let '(r, w') := m {| store := ns_ipam t; faults := faults w; times := times w; ids := ids w;
                       trace := trace w; inner := ns_host t |} in
  (r, {| store := store w; faults := faults w'; times := times w'; ids := ids w';
         trace := trace w';
         inner := {| ns_psm := ns_psm t; ns_ssm := ns_ssm t; ns_ipam := store w';
                     ns_host := inner w' |} |}).

Definition count {A} (p : A -> bool) (l : list A) : Z := Z.of_nat (length (List.filter p l)).

(** The first network of that name. *)
Definition allocations_of (networkName : string) (l : list Ipam.NetworkList) : Z :=
  match first_match (fun n => String.eqb (Ipam.nl_Interface n) networkName) l with
  | Some n => Ipam.NumContainers n
  | None => 0
  end.

(** Networks that cannot be read count as empty. *)
Definition resourceCounts (namespaceName networkName : string) : M ResourceCounts :=
  pods ← peek (fun t => Psm.GetPodList (ns_psm t));
  services ← peek (fun t => Ssm.GetServiceList (ns_ssm t));
  replicaSets ← peek (fun t => Psm.GetReplicaSetList (ns_psm t));
  deployments ← peek (fun t => Psm.GetDeploymentList (ns_psm t));
  networks ← or_zero [] (peek (fun t => Ipam.GetNetworkList (ns_ipam t)));
  mret {| rc_Pods := count (fun p => String.eqb (Psm.Namespace p) namespaceName) pods;
          rc_Services := count (fun s => String.eqb (Ssm.sv_Namespace s) namespaceName) services;
          rc_ReplicaSets := count (fun rs => String.eqb (Psm.rs_Namespace (Psm.ri_Spec rs))
                                               namespaceName) replicaSets;
          rc_Deployments := count (fun d => String.eqb (Psm.d_Namespace (Psm.di_Spec d))
                                              namespaceName) deployments;
          rc_Allocations := allocations_of networkName networks |}.

Definition enrich (info : NamespaceInfo) : M NamespaceView :=
  counts ← resourceCounts (Name info) (Network info);
  mret {| nv_Name := Name info; nv_Network := Network info; nv_NetworkAuto := NetworkAuto info;
          nv_Labels := Labels info; nv_Annotations := Annotations info;
          nv_CreatedAt := CreatedAt info; Resources := counts |}.

Definition Create (param : ServiceCreateModel) : M NamespaceView :=
  let name := trimSpace (sc_Name param) in
  match validateNamespaceName name with
  | Err e | Panic e => fail e
  | Ok _ =>
      if String.eqb name DefaultNamespace then fail ("namespace already exists: " +:+ name) else
      let given := trimSpace (sc_Network param) in
      let autoNetwork := String.eqb given "" in
      let networkName := if autoNetwork then bridgeNameForNamespace name else given in
      _ ← (if autoNetwork then with_network (CreateNewNetwork networkName)
           else
             r ← attempt (peek (fun t => Ipam.GetBridgeAddr networkName (ns_ipam t)));
             if is_ok r then mret tt else fail ("network not found: " +:+ networkName));
      t ← now;
      let info := {| Name := name; Network := networkName; NetworkAuto := autoNetwork;
                     Labels := sc_Labels param; Annotations := sc_Annotations param;
                     CreatedAt := t |} in
      r ← attempt (txn (StoreNamespace info t));
      match r with
      | Ok _ => enrich info
      | Err e | Panic e =>
          _ ← (if autoNetwork then ignore (with_network (RemoveNetwork networkName)) else mret tt);
          fail e
      end
  end.

Definition Remove (paramName : string) : M string :=
  let name := trimSpace paramName in
  if String.eqb name "" then fail "namespace name is required" else
  if String.eqb name DefaultNamespace then fail "default namespace cannot be removed" else
  info ← read (GetNamespace name);
  enriched ← enrich info;
  if negb (isEmpty (Resources enriched)) then fail ("namespace " +:+ name +:+ " is not empty") else
  _ ← (if NetworkAuto info && negb (String.eqb (Network info) "")
       then with_network (RemoveNetwork (Network info)) else mret tt);
  _ ← txn (RemoveNamespace name);
  mret name.

Definition Get (name : string) : M NamespaceView :=
  info ← read (GetNamespace (trimSpace name)); enrich info.

Fixpoint enrich_all (l : list NamespaceInfo) : M (list NamespaceView) :=
  match l with
  | [] => mret []
  | ns :: l => info ← enrich ns; rest ← enrich_all l; mret (info :: rest)
  end.

Definition List_ : M (list NamespaceView) := l ← read GetNamespaceList; enrich_all l.

Definition ResolveNetwork (name : string) : M string :=
  let name := if String.eqb (trimSpace name) "" then DefaultNamespace else name in
  info ← read (GetNamespace name);
  mret (if String.eqb (Network info) "" then DefaultNamespaceNetwork else Network info).
End service.

(** ** Names of bridges *)

Lemma length_take_str n s : (n <= String.length s)%nat -> String.length (take_str n s) = n.
Proof.
  unfold take_str. revert s. induction n as [|n IH]; intros [|c s] H; simpl in *; try lia; [done..|].
  by rewrite IH by lia.
Qed.

(** A bridge has a name that an interface can have: 15 characters, told from
    other interfaces by its prefix. *)
Theorem bridge_name_length name :
  String.length (bridgeNameForNamespace name) = 15%nat /\
  hasPrefix (bridgeNameForNamespace name) "rns" = true.
Proof.
  unfold bridgeNameForNamespace. split; [|done].
  rewrite string_length_app, length_take_str; [done|]. rewrite hex_of_length, Sum256_length. lia.
Qed.

(** ** What is left of a removal and of a failed creation *)
Section theory.
Context {RO : RangeOrder} {X : Type} {P : NetworkPeers X}.
Implicit Types w : world NamespaceState network_call (ns_tables X).
#[local] Notation M := (M NamespaceState network_call (ns_tables X)).
Notation calm := (steps (@eq NamespaceState)).

(** The network service may meet faults of its own; without, it leaves none. *)
Lemma calm_with_network {A} (m : World.M Ipam.IpamState network_call X A) :
  (forall v, faults v = [] -> faults (m v).2 = []) -> calm (with_network m : M A).
Proof.
  intros Hm w Hw. unfold with_network. specialize (Hm {| store := ns_ipam (inner w);
    faults := faults w; times := times w; ids := ids w; trace := trace w;
    inner := ns_host (inner w) |} Hw). by destruct (m _) as [r w'].
Qed.

Lemma peek_ok {A} (f : ns_tables X -> res A) w a w' :
  faults w = [] -> peek f w = (Ok a, w') -> f (inner w) = Ok a /\ w' = w.
Proof. intros Hw. rewrite peek_run by done. by intros [= -> <-]. Qed.

Lemma count_zero {A} (p : A -> bool) l : count p l = 0 -> forall x, x ∈ l -> p x = false.
Proof.
  unfold count. induction l as [|y l IH]; [intros _ x Hx; by apply not_elem_of_nil in Hx|].
  simpl. destruct (p y) eqn:Hy; simpl; [lia|]. intros Hc x [->|Hx]%elem_of_cons; [done|auto].
Qed.

(** What the counts say of the tables. *)
Definition unused (name : string) (t : ns_tables X) : Prop :=
  (forall id p, Psm.Pods (ns_psm t) !! id = Some p -> Psm.Namespace p <> name) /\
  (forall id s, Ssm.Services (ns_ssm t) !! id = Some s -> Ssm.sv_Namespace s <> name) /\
  (forall id r, Psm.ReplicaSets (ns_psm t) !! id = Some r ->
     Psm.rs_Namespace (Psm.ri_Spec r) <> name) /\
  (forall id d, Psm.Deployments (ns_psm t) !! id = Some d ->
     Psm.d_Namespace (Psm.di_Spec d) <> name).

Lemma resourceCounts_run name network w :
  faults w = [] ->
  exists c, resourceCounts name network w = (Ok c, w) /\
    (isEmpty c = true -> unused name (inner w)).
Proof.
  intros Hw. set (t := inner w). eexists. split.
  - unfold resourceCounts, Psm.GetPodList, Ssm.GetServiceList, Psm.GetReplicaSetList,
      Psm.GetDeploymentList.
    do 4 (erewrite M_bind_eq by by rewrite peek_run). fold t.
    erewrite M_bind_eq; [done|]. apply or_zero_run; [by rewrite peek_run|].
    intros e. unfold Ipam.GetNetworkList. by case_match.
  - unfold isEmpty. simpl. rewrite !andb_true_iff, !Z.eqb_eq. intros ((((Hp & Hs) & Hr) & Hd) & _).
    repeat split; intros id x Hx; apply String.eqb_neq.
    + eapply (count_zero _ _ Hp). apply elem_of_range_values. eauto.
    + apply (count_zero _ _ Hs (Ssm.set_Type x (Ssm.NormalizeServiceType (Ssm.sv_Type x)))).
      apply list_elem_of_fmap. exists x. split; [done|]. apply elem_of_range_values. eauto.
    + eapply (count_zero _ _ Hr). apply elem_of_range_values. eauto.
    + eapply (count_zero _ _ Hd). apply elem_of_range_values. eauto.
Qed.

Lemma enrich_run info w :
  faults w = [] ->
  exists c, resourceCounts (Name info) (Network info) w = (Ok c, w) /\
    enrich info w = (Ok {| nv_Name := Name info; nv_Network := Network info;
      nv_NetworkAuto := NetworkAuto info; nv_Labels := Labels info;
      nv_Annotations := Annotations info; nv_CreatedAt := CreatedAt info; Resources := c |}, w) /\
    (isEmpty c = true -> unused (Name info) (inner w)).
Proof.
  intros Hw. destruct (resourceCounts_run (Name info) (Network info) w Hw) as (c & Hc & Hu).
  exists c. split; [done|]. split; [|done]. unfold enrich. by rewrite (M_bind_eq _ _ _ _ _ Hc).
Qed.

(** The tables that the network service does not write. *)
Definition same_tables (t t' : ns_tables X) : Prop := ns_psm t' = ns_psm t /\ ns_ssm t' = ns_ssm t.

Lemma with_network_after {A} (m : World.M Ipam.IpamState network_call X A) w :
  store (with_network m w).2 = store w /\ same_tables (inner w) (inner (with_network m w).2).
Proof. unfold with_network. by destruct (m _) as [r w']. Qed.

(** A namespace that was removed was not in use: it was in the table and not
    the default one, no pod, service, replica set or deployment is in it, and the
    table has lost this namespace and no other. *)
Theorem removed_namespace_unused name w r w' :
  faults w = [] -> keyed Name (Namespace (store w)) ->
  Remove name w = (Ok r, w') ->
  r = trimSpace name /\ r <> DefaultNamespace /\ is_Some (Namespace (store w) !! r) /\
  Namespace (store w') = delete r (Namespace (store w)) /\
  unused r (inner w').
Proof.
  intros Hw Hk. unfold Remove. set (n := trimSpace name).
  destruct (String.eqb n ""); [done|].
  destruct (String.eqb_spec n DefaultNamespace) as [|Hd]; [done|]. intros H.
  apply bind_ok in H as (info & w1 & H1 & H). rewrite read_run in H1 by done.
  unfold GetNamespace in H1. destruct (Namespace (store w) !! n) as [ns|] eqn:Hn; [|done].
  injection H1 as -> <-. destruct (enrich_run info w Hw) as (c & _ & He & Hu).
  rewrite (M_bind_eq _ _ _ _ _ He) in H. simpl in H. destruct (isEmpty c) eqn:Hc; [|done].
  specialize (Hu eq_refl). rewrite (Hk _ _ Hn) in Hu. simpl in H.
  apply bind_ok in H as ([] & w2 & H2 & H). apply bind_ok in H as ([] & w3 & H3 & [= <- <-]).
  assert (Hw2 : faults w2 = [] /\ store w2 = store w /\ same_tables (inner w) (inner w2)).
  { destruct (_ && _); [|by injection H2 as <-].
    destruct (with_network_after (RemoveNetwork (Network info)) w) as [Hs Ht].
    destruct (calm_with_network (RemoveNetwork (Network info)) (RemoveNetwork_faults _) w Hw) as [Hf _].
    by rewrite H2 in Hs, Ht, Hf. }
  destruct Hw2 as (Hf2 & Hs2 & Hp2 & Hss2). rewrite txn_run in H3 by done. rewrite Hs2 in H3.
  unfold RemoveNamespace in H3. destruct (String.eqb_spec n DefaultNamespace); [done|].
  unfold remove_entry in H3. rewrite Hn in H3. simpl in H3. injection H3 as <-. simpl.
  split_and!; try done. unfold unused. by rewrite Hp2, Hss2.
Qed.
(** The network of a new namespace, before the namespace is stored. *)
Lemma network_step networkName (auto : bool) w r w' :
  faults w = [] ->
  ((if auto then with_network (CreateNewNetwork networkName)
    else
      r ← attempt (peek (fun t => Ipam.GetBridgeAddr networkName (ns_ipam t)));
      if is_ok r then mret tt else fail ("network not found: " +:+ networkName)) : M unit) w = (r, w') ->
  faults w' = [] /\ store w' = store w.
Proof.
  intros Hw. destruct auto.
  - intros H. destruct (with_network_after (CreateNewNetwork networkName) w) as [Hs _].
    destruct (calm_with_network (CreateNewNetwork networkName) (CreateNewNetwork_faults _) w Hw)
      as [Hf _]. by rewrite H in Hs, Hf.
  - unfold mbind, M_bind, attempt. rewrite peek_run by done.
    destruct (Ipam.GetBridgeAddr networkName (ns_ipam (inner w))); by intros [= <- <-].
Qed.

(** Undoing it leaves the table alone. *)
Lemma network_undo (auto : bool) networkName w r w' :
  ((if auto then ignore (with_network (RemoveNetwork networkName)) else mret tt) : M unit) w
    = (r, w') -> store w' = store w.
Proof.
  destruct auto; [|by intros [= <- <-]].
  pose proof (proj1 (with_network_after (RemoveNetwork networkName) w)) as Hs.
  unfold ignore. intros H. by destruct (with_network _ w) as [[| |] w1]; simplify_eq/=.
Qed.

(** Creating a namespace: when it returns, the name is well formed and was
    free, and the table has the namespace with its network, one of its own if
    none was given; when it fails, wherever, the table is what it was. *)
Theorem namespace_created param w r w' :
  faults w = [] -> Create param w = (r, w') ->
  let name := trimSpace (sc_Name param) in
  let given := trimSpace (sc_Network param) in
  match r with
  | Ok v =>
      validateNamespaceName name = Ok tt /\ name <> DefaultNamespace /\
      Namespace (store w) !! name = None /\
      exists t, Namespace (store w') =
        <[name := {| Name := name;
                     Network := if String.eqb given "" then bridgeNameForNamespace name else given;
                     NetworkAuto := String.eqb given ""; Labels := sc_Labels param;
                     Annotations := sc_Annotations param; CreatedAt := t |}]> (Namespace (store w))
  | Err _ => store w' = store w
  | Panic _ => True
  end.
Proof.
  intros Hw. unfold Create. set (name := trimSpace (sc_Name param)).
  set (given := trimSpace (sc_Network param)). cbv zeta.
  destruct (validateNamespaceName name) as [[]|e|e] eqn:Hv; [|by intros [= <- <-]..].
  destruct (String.eqb_spec name DefaultNamespace) as [|Hd]; [by intros [= <- <-]|].
  set (networkName := if String.eqb given "" then _ else _). intros H.
  apply M_bind_run in H as [([] & w1 & H1 & H)|[(e & H1 & ->)|(e & _ & ->)]]; [| |done];
    apply (network_step networkName (String.eqb given "") w _ _ Hw) in H1 as [Hf1 Hs1]; [|done].
  assert (exists t w2, now w1 = (Ok t, w2) /\ faults w2 = [] /\ store w2 = store w) as
    (t & w2 & Hnow & Hf2 & Hs2).
  { unfold now. destruct (times w1); eauto 10. }
  rewrite (M_bind_eq _ _ _ _ _ Hnow) in H. unfold mbind at 1, M_bind at 1, attempt in H.
  rewrite txn_run, Hs2 in H by done. unfold StoreNamespace at 1 in H. cbn [Name] in H.
  destruct (String.eqb_spec name "") as [Hn|Hn].
  { by rewrite Hn in Hv. }
  destruct (Namespace (store w) !! name) as [ns|] eqn:Hfree.
  - apply M_bind_run in H as [([] & w3 & H3 & H)|[(e & H3 & ->)|(e & _ & ->)]]; [| |done].
    + injection H as <- <-. by rewrite (network_undo _ _ _ _ _ H3).
    + by rewrite (network_undo _ _ _ _ _ H3).
  - set (w3 := set_store _ w2) in H. cbn [mret M_ret] in H.
    match type of H with enrich ?i _ = _ => destruct (enrich_run i w3 Hf2) as (c & _ & He & _) end.
    rewrite He in H. injection H as <- <-. split_and!; try done. exists t. subst w3. simpl.
    by destruct (t =? 0).
Qed.
End theory.

(** ** On concrete tables *)
Module NamespaceDemo.

Definition begin : world NamespaceState network_call (ns_tables host) :=
  {| store := {| Version := "0.1.0"; Namespace := ∅ |}; faults := []; times := [5]; ids := [];
     trace := [];
     inner := {| ns_psm := {| Psm.Version := ""; Psm.Pods := ∅; Psm.PodTemplates := ∅;
                              Psm.ReplicaSets := ∅; Psm.Deployments := ∅ |};
                 ns_ssm := Ssm.init; ns_ipam := BridgeDemo.pools;
                 ns_host := inner BridgeDemo.calm_start |} |}.

Definition team : ServiceCreateModel :=
  {| sc_Name := " team-a "; sc_Network := ""; sc_Labels := ∅; sc_Annotations := ∅ |}.
Definition made := Create team begin.
Definition with_team := made.2.

Example made_ok : (nv_Network <$> made.1) = Ok "rns96c2886c51d1".
Proof. vm_compute. reflexivity. Qed.

Lemma begin_calm : faults begin = [] /\ faults with_team = [].
Proof. vm_compute. split; reflexivity. Qed.

Lemma with_team_table :
  Namespace (store with_team) = {[ "team-a" := {| Name := "team-a"; Network := "rns96c2886c51d1";
    NetworkAuto := true; Labels := ∅; Annotations := ∅; CreatedAt := 5 |} ]}.
Proof. vm_compute. reflexivity. Qed.

Lemma with_team_keyed : keyed Name (Namespace (store with_team)).
Proof. rewrite with_team_table. by intros k v [<- <-]%lookup_singleton_Some. Qed.

Lemma gone_ok : (Remove "team-a" with_team).1 = Ok "team-a".
Proof. vm_compute. reflexivity. Qed.

Definition gone := (Remove "team-a" with_team).2.

Lemma gone_run : Remove "team-a" with_team = (Ok "team-a", gone).
Proof. unfold gone. rewrite <- gone_ok. apply surjective_pairing. Qed.

Example removed_namespace_unused_witness :
  Namespace (store gone) = delete "team-a" (Namespace (store with_team)) /\
  unused "team-a" (inner gone).
Proof.
  apply (removed_namespace_unused "team-a" with_team "team-a" gone (proj2 begin_calm)
    with_team_keyed gone_run).
Defined.

Definition again := (Create team with_team).2.

Lemma again_fails : (Create team with_team).1 = Err "interface: rns96c2886c51d1 is already created".
Proof. vm_compute. reflexivity. Qed.

Lemma again_run : Create team with_team = (Err "interface: rns96c2886c51d1 is already created", again).
Proof. unfold again. rewrite <- again_fails. apply surjective_pairing. Qed.

Lemma made_run : exists v, Create team begin = (Ok v, with_team).
Proof.
  assert (is_ok (Create team begin).1 = true) as H by (vm_compute; reflexivity).
  unfold with_team, made. revert H. generalize (Create team begin). intros [[v|e|e] w] H; [|done..].
  by exists v.
Qed.

(** A free name gets a namespace; a name that is taken leaves the table as it was. *)
Example namespace_created_witness :
  is_Some (Namespace (store with_team) !! "team-a") /\ store again = store with_team.
Proof.
  split; [|exact (namespace_created team with_team _ _ (proj2 begin_calm) again_run)].
  destruct made_run as [v Hv].
  destruct (namespace_created team begin _ _ (proj1 begin_calm) Hv) as (_ & _ & _ & t & ->).
  apply lookup_insert_is_Some'. left. vm_compute. reflexivity.
Defined.
End NamespaceDemo.
