(* ===== verification/Resource.v ===== *)
(** * Resources ([core/resource]): data, interface and comparison

    The results of applying and deleting manifests, the errors with an HTTP
    status, the tables and the services that the resource service uses, and
    what counts as unchanged ([model.go], [error.go], [manifest.go] and the end
    of [rollout.go]). *)

From Stdlib Require Import ZArith Lia Ascii String.
From stdpp Require Import base gmap strings list.
From S2P Require Import Prelude.
From S2P Require Import GoString.
From S2P Require Import GoYaml.
From S2P Require Import World.
From S2P Require ContainerModel.
From S2P Require Psm.
From S2P Require Ssm.
From S2P Require Ism.
From S2P Require Cfm.
From S2P Require Sec.
From S2P Require Vsm.
From S2P Require Netpol.
From S2P Require PodService.
From S2P Require NetworkPolicy.
From S2P Require NamespaceService.
From S2P Require Pvc.
From S2P Require Manifests.
From S2P Require Import PodManifest.
Open Scope Z_scope.

(** ** Results ([model.go]) *)

Record Warning := {
  w_Kind : string; w_Name : string; w_Namespace : string; w_Field : string; w_Message : string
}.

Record ApplyPodResult := {
  ap_PodId : string;
  ap_ReplicaSetId : string;
  ap_Name : string;
  ap_Namespace : string;
  ap_ContainerIds : list string;
  ap_Action : string
}.
Record ApplyServiceResult := {
  as_ServiceId : string; as_Name : string; as_Namespace : string; as_Action : string
}.
Record ApplyIngressResult := {
  ai_IngressId : string; ai_Name : string; ai_Namespace : string; ai_TLSHosts : list string;
  ai_Action : string
}.
Record ApplyNamespaceResult := { an_Name : string; an_Network : string; an_Action : string }.
Record ApplyConfigMapResult := {
  ac_ConfigMapId : string; ac_Name : string; ac_Namespace : string; ac_Action : string
}.
Record ApplySecretResult := {
  ax_SecretId : string; ax_Name : string; ax_Namespace : string; ax_Action : string
}.
Record ApplyNetworkPolicyResult := {
  aw_NetworkPolicyId : string; aw_Name : string; aw_Namespace : string; aw_GeneratedRules : Z;
  aw_Action : string
}.
Record ApplyPVCResult := {
  av_PVCId : string; av_Name : string; av_Namespace : string; av_RequestedStorage : string;
  av_RequestedBytes : Z; av_ReclaimPolicy : string; av_Action : string
}.
Record ApplyReplicaSetResult := {
  ar_ReplicaSetId : string; ar_Name : string; ar_Namespace : string; ar_Action : string
}.
Record ApplyDeploymentResult := {
  ad_DeploymentId : string; ad_Name : string; ad_Namespace : string; ad_Replicas : Z;
  ad_Action : string
}.

Record ApplyResult := {
  a_Pods : list ApplyPodResult;
  a_ReplicaSets : list ApplyReplicaSetResult;
  a_Deployments : list ApplyDeploymentResult;
  a_Services : list ApplyServiceResult;
  a_Ingresses : list ApplyIngressResult;
  a_Namespaces : list ApplyNamespaceResult;
  a_ConfigMaps : list ApplyConfigMapResult;
  a_Secrets : list ApplySecretResult;
  a_NetworkPolicies : list ApplyNetworkPolicyResult;
  a_PersistentVolumeClaims : list ApplyPVCResult;
  a_Warnings : list Warning
}.
Definition no_result : ApplyResult :=
  {| a_Pods := []; a_ReplicaSets := []; a_Deployments := []; a_Services := []; a_Ingresses := [];
     a_Namespaces := []; a_ConfigMaps := []; a_Secrets := []; a_NetworkPolicies := [];
     a_PersistentVolumeClaims := []; a_Warnings := [] |}.

(** [result.Xs = append(result.Xs, x)], for the list of each kind. *)
Inductive entry :=
| APod (r : ApplyPodResult)
| AReplicaSet (r : ApplyReplicaSetResult)
| ADeployment (r : ApplyDeploymentResult)
| AService (r : ApplyServiceResult)
| AIngress (r : ApplyIngressResult)
| ANamespace (r : ApplyNamespaceResult)
| AConfigMap (r : ApplyConfigMapResult)
| ASecret (r : ApplySecretResult)
| ANetworkPolicy (r : ApplyNetworkPolicyResult)
| APVC (r : ApplyPVCResult).

Definition add_entry (e : entry) (r : ApplyResult) : ApplyResult :=
  {| a_Pods := a_Pods r ++ match e with APod x => [x] | _ => [] end;
     a_ReplicaSets := a_ReplicaSets r ++ match e with AReplicaSet x => [x] | _ => [] end;
     a_Deployments := a_Deployments r ++ match e with ADeployment x => [x] | _ => [] end;
     a_Services := a_Services r ++ match e with AService x => [x] | _ => [] end;
     a_Ingresses := a_Ingresses r ++ match e with AIngress x => [x] | _ => [] end;
     a_Namespaces := a_Namespaces r ++ match e with ANamespace x => [x] | _ => [] end;
     a_ConfigMaps := a_ConfigMaps r ++ match e with AConfigMap x => [x] | _ => [] end;
     a_Secrets := a_Secrets r ++ match e with ASecret x => [x] | _ => [] end;
     a_NetworkPolicies := a_NetworkPolicies r ++ match e with ANetworkPolicy x => [x] | _ => [] end;
     a_PersistentVolumeClaims :=
       a_PersistentVolumeClaims r ++ match e with APVC x => [x] | _ => [] end;
     a_Warnings := a_Warnings r |}.
Definition add_warnings (l : list Warning) (r : ApplyResult) : ApplyResult :=
  {| a_Pods := a_Pods r; a_ReplicaSets := a_ReplicaSets r; a_Deployments := a_Deployments r;
     a_Services := a_Services r; a_Ingresses := a_Ingresses r; a_Namespaces := a_Namespaces r;
     a_ConfigMaps := a_ConfigMaps r; a_Secrets := a_Secrets r;
     a_NetworkPolicies := a_NetworkPolicies r;
     a_PersistentVolumeClaims := a_PersistentVolumeClaims r; a_Warnings := a_Warnings r ++ l |}.
Definition set_result_Pods (r : ApplyResult) (l : list ApplyPodResult) : ApplyResult :=
  {| a_Pods := l; a_ReplicaSets := a_ReplicaSets r; a_Deployments := a_Deployments r;
     a_Services := a_Services r; a_Ingresses := a_Ingresses r; a_Namespaces := a_Namespaces r;
     a_ConfigMaps := a_ConfigMaps r; a_Secrets := a_Secrets r;
     a_NetworkPolicies := a_NetworkPolicies r;
     a_PersistentVolumeClaims := a_PersistentVolumeClaims r; a_Warnings := a_Warnings r |}.
Definition set_Action (r : ApplyPodResult) (action : string) : ApplyPodResult :=
  {| ap_PodId := ap_PodId r; ap_ReplicaSetId := ap_ReplicaSetId r; ap_Name := ap_Name r;
     ap_Namespace := ap_Namespace r; ap_ContainerIds := ap_ContainerIds r; ap_Action := action |}.

(** [DeletePodResult] and the results of the other kinds but two. *)
Record DeletedResult := { dl_Id : string; dl_Name : string; dl_Namespace : string }.
Record DeletePVCResult := { dv_Result : DeletedResult; dv_ReclaimPolicy : string }.

Record DeleteResult := {
  d_Pods : list DeletedResult;
  d_ReplicaSets : list DeletedResult;
  d_Deployments : list DeletedResult;
  d_Services : list DeletedResult;
  d_Ingresses : list DeletedResult;
  d_Namespaces : list string;
  d_ConfigMaps : list DeletedResult;
  d_Secrets : list DeletedResult;
  d_NetworkPolicies : list DeletedResult;
  d_PersistentVolumeClaims : list DeletePVCResult;
  d_Warnings : list Warning
}.
Definition nothing_deleted : DeleteResult :=
  {| d_Pods := []; d_ReplicaSets := []; d_Deployments := []; d_Services := []; d_Ingresses := [];
     d_Namespaces := []; d_ConfigMaps := []; d_Secrets := []; d_NetworkPolicies := [];
     d_PersistentVolumeClaims := []; d_Warnings := [] |}.

Inductive deleted :=
| DPods (l : list DeletedResult)
| DReplicaSets (l : list DeletedResult)
| DDeployments (l : list DeletedResult)
| DServices (l : list DeletedResult)
| DIngresses (l : list DeletedResult)
| DNamespace (name : string)
| DConfigMaps (l : list DeletedResult)
| DSecrets (l : list DeletedResult)
| DNetworkPolicies (l : list DeletedResult)
| DPVCs (l : list DeletePVCResult)
| DWarnings (l : list Warning).

Definition add_deleted (e : deleted) (r : DeleteResult) : DeleteResult :=
  {| d_Pods := d_Pods r ++ match e with DPods l => l | _ => [] end;
     d_ReplicaSets := d_ReplicaSets r ++ match e with DReplicaSets l => l | _ => [] end;
     d_Deployments := d_Deployments r ++ match e with DDeployments l => l | _ => [] end;
     d_Services := d_Services r ++ match e with DServices l => l | _ => [] end;
     d_Ingresses := d_Ingresses r ++ match e with DIngresses l => l | _ => [] end;
     d_Namespaces := d_Namespaces r ++ match e with DNamespace n => [n] | _ => [] end;
     d_ConfigMaps := d_ConfigMaps r ++ match e with DConfigMaps l => l | _ => [] end;
     d_Secrets := d_Secrets r ++ match e with DSecrets l => l | _ => [] end;
     d_NetworkPolicies := d_NetworkPolicies r ++ match e with DNetworkPolicies l => l | _ => [] end;
     d_PersistentVolumeClaims :=
       d_PersistentVolumeClaims r ++ match e with DPVCs l => l | _ => [] end;
     d_Warnings := d_Warnings r ++ match e with DWarnings l => l | _ => [] end |}.

Definition applyActionCreated : string := "created".
Definition applyActionUpdated : string := "updated".
Definition applyActionUnchanged : string := "unchanged".

(** ** Errors ([error.go]) *)

Record StatusError := { Status : Z; Message : string }.
Definition StatusBadRequest : Z := 400.
Definition StatusNotFound : Z := 404.
Definition StatusInternalServerError : Z := 500.

(** An error is a [StatusError] or one of another type. *)
Definition ErrorStatus (err : StatusError + error) (fallback : Z) : Z :=
  match err with inl e => Status e | inr _ => fallback end.
Definition error_text (err : StatusError + error) : string :=
  match err with inl e => Message e | inr e => e end.

(** ** Manifests ([manifest.go]) *)

Record Header := { APIVersion : string; h_Kind : string; h_Name : string; h_Namespace : string }.

Definition decodeHeader {T : YamlType Header} (rawBytes : string) : res Header :=
  header ← Unmarshal rawBytes;
  if String.eqb (h_Kind header) "" then Err "kind is required" else Ok header.

Definition collectHeaderWarnings (header : Header) (raw : document) : list Warning :=
  match field "metadata" raw with
  | Some (AMap metadata) =>
      match field "generateName" metadata with
      | Some _ => [{| w_Kind := h_Kind header; w_Name := h_Name header;
                      w_Namespace := h_Namespace header; w_Field := "metadata.generateName";
                      w_Message := "metadata.generateName is ignored; set metadata.name explicitly" |}]
      | None => []
      end
  | _ => []
  end.

Record namespaceManifest := {
  nm_Name : string;
  nm_Labels : gmap string string;
  nm_Annotations : gmap string string
}.

Definition decodeNamespaceManifest {T : YamlType namespaceManifest} (rawBytes : string)
    : res namespaceManifest :=
  manifest ← Unmarshal rawBytes;
  if String.eqb (nm_Name manifest) "" then Err "namespace name is required" else Ok manifest.

Definition invalidYAMLErrorMessage (err : option error) : string :=
  match err with None => "invalid yaml" | Some e => "invalid yaml: " +:+ e end.

(** ** The tables and the services *)

(** The handlers of [ResourceService] for tables that it reads and writes. *)
Record tables := {
  t_psm : Psm.PodState;
  t_ssm : Ssm.ServiceState;
  t_ism : Ism.IngressState;
  t_cfm : Cfm.ConfigMapState;
  t_sec : Sec.SecretState;
  t_vsm : Vsm.VolumeState
}.

Definition set_psm (t : tables) (x : Psm.PodState) : tables :=
  {| t_psm := x; t_ssm := t_ssm t; t_ism := t_ism t; t_cfm := t_cfm t; t_sec := t_sec t;
     t_vsm := t_vsm t |}.
Definition set_ssm (t : tables) (x : Ssm.ServiceState) : tables :=
  {| t_psm := t_psm t; t_ssm := x; t_ism := t_ism t; t_cfm := t_cfm t; t_sec := t_sec t;
     t_vsm := t_vsm t |}.
Definition set_ism (t : tables) (x : Ism.IngressState) : tables :=
  {| t_psm := t_psm t; t_ssm := t_ssm t; t_ism := x; t_cfm := t_cfm t; t_sec := t_sec t;
     t_vsm := t_vsm t |}.
Definition set_cfm (t : tables) (x : Cfm.ConfigMapState) : tables :=
  {| t_psm := t_psm t; t_ssm := t_ssm t; t_ism := t_ism t; t_cfm := x; t_sec := t_sec t;
     t_vsm := t_vsm t |}.
Definition set_sec (t : tables) (x : Sec.SecretState) : tables :=
  {| t_psm := t_psm t; t_ssm := t_ssm t; t_ism := t_ism t; t_cfm := t_cfm t; t_sec := x;
     t_vsm := t_vsm t |}.

(** What it asks of other services, each call with the type of its answer. *)
Inductive resource_call : Type -> Type :=
| NamespaceGet (name : string) : resource_call NamespaceService.NamespaceView
| NamespaceCreate (m : NamespaceService.ServiceCreateModel)
    : resource_call NamespaceService.NamespaceView
| NamespaceRemove (name : string) : resource_call string
| ResolveNetwork (name : string) : resource_call string
| NetworkPolicyApply (m : NetworkPolicy.Manifest) : resource_call Netpol.NetworkPolicyInfo
| NetworkPolicyRemove (idOrName namespace : string) : resource_call Netpol.NetworkPolicyInfo
| PVCCreate (m : Pvc.Manifest) : resource_call Vsm.PersistentVolumeClaimInfo
| PVCRemove (idOrName namespace : string) : resource_call Vsm.PersistentVolumeClaimInfo
| PodCreate (m : PodService.ServiceCreateModel) : resource_call string
| PodCreateFromTemplate (templateId nameOverride : string) : resource_call string
| PodStart (podId : string) : resource_call string
| PodRemove (podId : string) : resource_call string
| ContainersByPodId (podId : string) : resource_call (list ContainerModel.ContainerState)
| EnsureHosts (hosts : list string) : resource_call unit
| RemoveHostsIfUnused (hosts activeHosts : list string) : resource_call unit
| StatDir (path : string) : resource_call bool
| MakeDirs (path : string) : resource_call unit.

(** The services may work on the same tables. *)
Class ResourcePeers (X : Type) :=
  answer : forall A, resource_call A -> tables * X -> res A * (tables * X).

(** A call with its type, as the trace has it. *)
Definition asked : Type := { A : Type & resource_call A }.

Section monad.
Context {X : Type} {P : ResourcePeers X}.
#[local] Notation M := (M tables asked X).

Definition ask {A} (c : resource_call A) : M A := fun w =>
  let '(r, (st, i)) := answer A c (store w, inner w) in
  (r, {| store := st; faults := faults w; times := times w; ids := ids w;
         trace := trace w ++ [existT A c]; inner := i |}).

(** Reads and transactions of one table. *)
Definition on_psm {A} (fn : Psm.PodState -> res (Psm.PodState * A)) : M A :=
  txn (fun t => '(x, a) ← fn (t_psm t); Ok (set_psm t x, a)).
Definition on_ssm {A} (fn : Ssm.ServiceState -> res (Ssm.ServiceState * A)) : M A :=
  txn (fun t => '(x, a) ← fn (t_ssm t); Ok (set_ssm t x, a)).
Definition on_ism {A} (fn : Ism.IngressState -> res (Ism.IngressState * A)) : M A :=
  txn (fun t => '(x, a) ← fn (t_ism t); Ok (set_ism t x, a)).
Definition on_cfm {A} (fn : Cfm.ConfigMapState -> res (Cfm.ConfigMapState * A)) : M A :=
  txn (fun t => '(x, a) ← fn (t_cfm t); Ok (set_cfm t x, a)).
Definition on_sec {A} (fn : Sec.SecretState -> res (Sec.SecretState * A)) : M A :=
  txn_late (fun t => '(x, a) ← fn (t_sec t); Ok (set_sec t x, a)).
Definition psm {A} (fn : Psm.PodState -> res A) : M A := read (fun t => fn (t_psm t)).

(** A transaction that takes the time. *)
Definition timed {A} (m : Z -> M A) : M A := t ← now; m t.
End monad.

(** ** Computations that fail with a status

    They return the error as a value; what the tables and the services do
    with their own errors stays in [M]. *)
Section status.
Context {X : Type}.
#[local] Notation M := (M tables asked X).
#[local] Notation S A := (World.M tables asked X (StatusError + A)%type).

Definition sret {A} (a : A) : S A := mret (inr a).
Definition sfail {A} (status : Z) (message : string) : S A :=
  mret (inl {| Status := status; Message := message |}).
Definition sbind {A B} (m : S A) (f : A -> S B) : S B :=
  r ← m; match r with inl e => mret (inl e) | inr a => f a end.

(** [if err != nil { return statusError(status, f(err)) }]. *)
Definition or_status {A} (status : Z) (text : error -> string) (m : M A) : S A :=
  r ← attempt m;
  match r with
  | Ok a => sret a
  | Err e | Panic e => sfail status (text e)
  end.
Definition internal {A} (what : string) : M A -> S A :=
  or_status StatusInternalServerError (fun e => what +:+ ": " +:+ e).
Definition bad_request {A} : M A -> S A := or_status StatusBadRequest (fun e => e).
Definition bad_yaml {A} (r : res A) : S A :=
  or_status StatusBadRequest (fun e => invalidYAMLErrorMessage (Some e)) (fun w => (r, w)).
End status.

Arguments sret {X A}.
Arguments sfail {X A}.

Declare Scope status_scope.
Delimit Scope status_scope with status.
Notation "x ⇐ m ; k" := (sbind m (fun x => k))
  (at level 20, m at level 100, k at level 200, right associativity) : status_scope.
Notation "' p ⇐ m ; k" := (sbind m (fun x => match x with p => k end))
  (at level 20, p pattern, m at level 100, k at level 200, right associativity) : status_scope.

(** ** What counts as unchanged ([rollout.go]) *)

#[export] Instance template_container_eq_dec : EqDecision Psm.ContainerTemplateSpec.
Proof. solve_decision. Defined.
#[export] Instance template_spec_eq_dec : EqDecision Psm.PodTemplateSpec.
Proof. solve_decision. Defined.
#[export] Instance replicaSet_spec_eq_dec : EqDecision Psm.ReplicaSetSpec.
Proof. solve_decision. Defined.
#[export] Instance deployment_spec_eq_dec : EqDecision Psm.DeploymentSpec.
Proof. solve_decision. Defined.
#[export] Instance service_port_eq_dec : EqDecision Ssm.ServicePort.
Proof. solve_decision. Defined.
#[export] Instance ingress_backend_eq_dec : EqDecision Ism.IngressBackend.
Proof. solve_decision. Defined.
#[export] Instance ingress_path_eq_dec : EqDecision Ism.IngressPath.
Proof. solve_decision. Defined.
#[export] Instance ingress_rule_eq_dec : EqDecision Ism.IngressRule.
Proof. solve_decision. Defined.

Definition templateSpecFromManifest (m : PodManifest) : Psm.PodTemplateSpec :=
  {| Psm.pt_Name := m_Name m; Psm.pt_Namespace := m_Namespace m; Psm.pt_NetworkNS := "";
     Psm.pt_IPCNS := ""; Psm.pt_UTSNS := ""; Psm.pt_UserNS := ""; Psm.pt_Rootless := m_Rootless m;
     Psm.pt_Labels := m_Labels m; Psm.pt_Annotations := m_Annotations m;
     Psm.pt_Containers := m_Containers m |}.
Definition replicaSetSpecFromManifest (m : PodManifest) (templateId : string)
    : Psm.ReplicaSetSpec :=
  {| Psm.rs_Name := m_Name m; Psm.rs_Namespace := m_Namespace m; Psm.Replicas := m_Replicas m;
     Psm.rs_TemplateId := templateId; Psm.rs_Selector := m_Selector m |}.
Definition deploymentSpecFromManifest (m : PodManifest) (templateId replicaSetId : string)
    : Psm.DeploymentSpec :=
  {| Psm.d_Name := m_Name m; Psm.d_Namespace := m_Namespace m; Psm.d_Replicas := m_Replicas m;
     Psm.d_TemplateId := templateId; Psm.d_Selector := m_Selector m;
     Psm.d_ReplicaSetId := replicaSetId |}.

(** A nil slice or map and an empty one are the same list or map here, so what
    is left of the normalisation is the default security profile. *)
Definition normalize_container (c : Psm.ContainerTemplateSpec) : Psm.ContainerTemplateSpec :=
  {| Psm.ct_Name := Psm.ct_Name c; Psm.Image := Psm.Image c; Psm.ct_Command := Psm.ct_Command c;
     Psm.Port := Psm.Port c; Psm.Mount := Psm.Mount c; Psm.Env := Psm.Env c;
     Psm.CapAdd := Psm.CapAdd c; Psm.CapDrop := Psm.CapDrop c;
     Psm.ct_SecurityProfile := if String.eqb (Psm.ct_SecurityProfile c) "default" then ""
                               else Psm.ct_SecurityProfile c;
     Psm.Network := Psm.Network c; Psm.ct_Tty := Psm.ct_Tty c |}.
Definition normalizeTemplateSpec (s : Psm.PodTemplateSpec) : Psm.PodTemplateSpec :=
  {| Psm.pt_Name := Psm.pt_Name s; Psm.pt_Namespace := Psm.pt_Namespace s;
     Psm.pt_NetworkNS := Psm.pt_NetworkNS s; Psm.pt_IPCNS := Psm.pt_IPCNS s;
     Psm.pt_UTSNS := Psm.pt_UTSNS s; Psm.pt_UserNS := Psm.pt_UserNS s;
     Psm.pt_Rootless := Psm.pt_Rootless s; Psm.pt_Labels := Psm.pt_Labels s;
     Psm.pt_Annotations := Psm.pt_Annotations s;
     Psm.pt_Containers := normalize_container <$> Psm.pt_Containers s |}.

Definition podTemplateSpecEqual (a b : Psm.PodTemplateSpec) : bool :=
  bool_decide (normalizeTemplateSpec a = normalizeTemplateSpec b).
Definition replicaSetSpecEqual (a b : Psm.ReplicaSetSpec) : bool := bool_decide (a = b).
Definition deploymentSpecEqual (a b : Psm.DeploymentSpec) : bool := bool_decide (a = b).

Definition defaultNamespace (namespace : string) : string :=
  if String.eqb namespace "" then "default" else namespace.
Definition stringMapEqual (a b : gmap string string) : bool := bool_decide (a = b).

Definition configMapInfoEqual (existing desired : Cfm.ConfigMapInfo) : bool :=
  String.eqb (Cfm.Name existing) (Cfm.Name desired) &&
  String.eqb (defaultNamespace (Cfm.Namespace existing)) (defaultNamespace (Cfm.Namespace desired)) &&
  stringMapEqual (Cfm.Data existing) (Cfm.Data desired).

Definition opaque_if_empty (type : string) : string :=
  if String.eqb type "" then Sec.SecretTypeOpaque else type.
Definition secretInfoEqual (existing desired : Sec.SecretInfo) : bool :=
  String.eqb (Sec.Name existing) (Sec.Name desired) &&
  String.eqb (defaultNamespace (Sec.Namespace existing)) (defaultNamespace (Sec.Namespace desired)) &&
  String.eqb (opaque_if_empty (Sec.Type_ existing)) (opaque_if_empty (Sec.Type_ desired)) &&
  stringMapEqual (Sec.Data existing) (Sec.Data desired).

Definition serviceInfoEqual (existing desired : Ssm.ServiceInfo) : bool :=
  String.eqb (Ssm.sv_Name existing) (Ssm.sv_Name desired) &&
  String.eqb (Ssm.sv_Namespace existing) (Ssm.sv_Namespace desired) &&
  String.eqb (Ssm.NormalizeServiceType (Ssm.sv_Type existing))
             (Ssm.NormalizeServiceType (Ssm.sv_Type desired)) &&
  String.eqb (Ssm.ClusterIP existing) (Ssm.ClusterIP desired) &&
  stringMapEqual (Ssm.Selector existing) (Ssm.Selector desired) &&
  bool_decide (Ssm.sv_Ports existing = Ssm.sv_Ports desired).

Definition ingressInfoEqual (existing desired : Ism.IngressInfo) : bool :=
  String.eqb (Ism.Name existing) (Ism.Name desired) &&
  String.eqb (Ism.Namespace existing) (Ism.Namespace desired) &&
  bool_decide (Ism.Rules existing = Ism.Rules desired) &&
  bool_decide (Ism.TLSHosts existing = Ism.TLSHosts desired).

Definition pvcManifestEqual (existing : Vsm.PersistentVolumeClaimInfo) (m : Pvc.Manifest) : bool :=
  String.eqb (Vsm.Name existing) (Pvc.m_Name m) &&
  String.eqb (defaultNamespace (Vsm.Namespace existing)) (defaultNamespace (Pvc.m_Namespace m)) &&
  bool_decide (Vsm.AccessModes existing = Pvc.m_AccessModes m) &&
  String.eqb (Vsm.RequestedStorage existing) (Pvc.m_RequestedStorage m) &&
  (Vsm.RequestedBytes existing =? Pvc.m_RequestedBytes m) &&
  String.eqb (Vsm.StorageClassName existing) (Pvc.m_StorageClassName m) &&
  String.eqb (Vsm.VolumeMode existing) (Pvc.m_VolumeMode m) &&
  String.eqb (Vsm.ReclaimPolicy existing) (Pvc.m_ReclaimPolicy m).

Definition containerIDs (containers : list ContainerModel.ContainerState) : list string :=
  ContainerModel.cs_ContainerId <$> containers.
