(* ===== verification/ResourceApply.v ===== *)
(** * Applying manifests ([core/resource/service.go], [rollout.go])

    The documents are applied in order; each pushes what undoes it, and an
    error runs what was pushed, the last first. *)

From Stdlib Require Import ZArith Lia Ascii String.
From stdpp Require Import base gmap strings list.
From S2P Require Import Prelude.
From S2P Require Import GoString.
From S2P Require Import GoSort.
From S2P Require Import GoYaml.
From S2P Require Import World.
From S2P Require ContainerModel.
From S2P Require Psm.
From S2P Require Ssm.
From S2P Require Ism.
From S2P Require Cfm.
From S2P Require Sec.
From S2P Require Vsm.
From S2P Require Netpol.
From S2P Require PodService.
From S2P Require NetworkPolicy.
From S2P Require NamespaceService.
From S2P Require Pvc.
From S2P Require Manifests.
From S2P Require Import PodManifest.
From S2P Require Import Resource.
Open Scope Z_scope.

(** ** Environments *)

(** The two parts around the first sign of an entry. *)
Definition env_entry (kv : string) : option (string * string) :=
  match cut "=" kv with
  | Some (k, v) => if String.eqb k "" then None else Some (k, v)
  | None => None
  end.

(** A later entry of a name replaces an earlier one. *)
Definition envListToMap (env : list string) : gmap string string :=
  fold_left (fun out kv => match env_entry kv with
                           | Some (k, v) => <[k := v]> out
                           | None => out
                           end) env ∅.

Definition envMapToList `{RangeOrder} (env : gmap string string) : list string :=
  (fun k => k +:+ "=" +:+ default "" (env !! k)) <$> sort_Strings (range_map env).*1.

Definition set_Env (c : Psm.ContainerTemplateSpec) (env : list string)
    : Psm.ContainerTemplateSpec :=
  {| Psm.ct_Name := Psm.ct_Name c; Psm.Image := Psm.Image c; Psm.ct_Command := Psm.ct_Command c;
     Psm.Port := Psm.Port c; Psm.Mount := Psm.Mount c; Psm.Env := env;
     Psm.CapAdd := Psm.CapAdd c; Psm.CapDrop := Psm.CapDrop c;
     Psm.ct_SecurityProfile := Psm.ct_SecurityProfile c; Psm.Network := Psm.Network c;
     Psm.ct_Tty := Psm.ct_Tty c |}.
Definition add_Mount (mount : string) (c : Psm.ContainerTemplateSpec)
    : Psm.ContainerTemplateSpec :=
  {| Psm.ct_Name := Psm.ct_Name c; Psm.Image := Psm.Image c; Psm.ct_Command := Psm.ct_Command c;
     Psm.Port := Psm.Port c; Psm.Mount := Psm.Mount c ++ [mount]; Psm.Env := Psm.Env c;
     Psm.CapAdd := Psm.CapAdd c; Psm.CapDrop := Psm.CapDrop c;
     Psm.ct_SecurityProfile := Psm.ct_SecurityProfile c; Psm.Network := Psm.Network c;
     Psm.ct_Tty := Psm.ct_Tty c |}.
Definition default_Network (networkName : string) (c : Psm.ContainerTemplateSpec)
    : Psm.ContainerTemplateSpec :=
  {| Psm.ct_Name := Psm.ct_Name c; Psm.Image := Psm.Image c; Psm.ct_Command := Psm.ct_Command c;
     Psm.Port := Psm.Port c; Psm.Mount := Psm.Mount c; Psm.Env := Psm.Env c;
     Psm.CapAdd := Psm.CapAdd c; Psm.CapDrop := Psm.CapDrop c;
     Psm.ct_SecurityProfile := Psm.ct_SecurityProfile c;
     Psm.Network := if String.eqb (Psm.Network c) "" then networkName else Psm.Network c;
     Psm.ct_Tty := Psm.ct_Tty c |}.

Definition out_of_range {A} (i : Z) (l : list A) : bool := (i <? 0) || (Z.of_nat (length l) <=? i).

Section apply.
Context {RO : RangeOrder} {X : Type} {P : ResourcePeers X}.
#[local] Notation M := (M tables asked X).
#[local] Notation S A := (World.M tables asked X (StatusError + A)%type).
Open Scope status_scope.

(** *** What containers take from config maps and secrets

    [resolveConfigMapEnv] and [resolveSecretEnv] are one text with the table
    ([get], the data of an object of a namespace) and its name changed. *)
Section env.
Context (label namespace : string) (get : string -> M (gmap string string)).

Definition get_data (name : string) : M (gmap string string) := fun w =>
  match get name w with
  | (Err e, w) => (Err (label +:+ " " +:+ namespace +:+ "/" +:+ name +:+ " not found: " +:+ e), w)
  | r => r
  end.

(** All the entries of an object: those that a container has stay. *)
Fixpoint env_all (refs : list (Z * string)) (envs : list (gmap string string))
    : M (list (gmap string string)) :=
  match refs with
  | [] => mret envs
  | (i, name) :: refs =>
      if out_of_range i envs
      then fail (label +:+ " envFrom reference has invalid container index") else
      data ← get_data name;
      env_all refs (alter (fun env => env ∪ data) (Z.to_nat i) envs)
  end.

(** One entry under a name of the container's: it replaces what is there. *)
Fixpoint env_keys (refs : list (Z * string * string * string)) (envs : list (gmap string string))
    : M (list (gmap string string)) :=
  match refs with
  | [] => mret envs
  | (i, envName, name, key) :: refs =>
      if out_of_range i envs
      then fail (label +:+ " key reference has invalid container index") else
      if String.eqb name "" || String.eqb key ""
      then fail (label +:+ "KeyRef requires name and key") else
      data ← get_data name;
      match data !! key with
      | None => fail (label +:+ " " +:+ namespace +:+ "/" +:+ name +:+ " key " +:+ quoted key +:+
                      " not found")
      | Some value => env_keys refs (alter (fun env => <[envName := value]> env) (Z.to_nat i) envs)
      end
  end.

Definition resolve_env (all : list (Z * string)) (keys : list (Z * string * string * string))
    (containers : list Psm.ContainerTemplateSpec) : M (list Psm.ContainerTemplateSpec) :=
  match all, keys with
  | [], [] => mret containers
  | _, _ =>
      envs ← env_all all ((fun c => envListToMap (Psm.Env c)) <$> containers);
      envs ← env_keys keys envs;
      mret (zip_with (fun c env => set_Env c (envMapToList env)) containers envs)
  end.
End env.

Definition resolveConfigMapEnv (m : PodManifest) : M PodManifest :=
  l ← resolve_env "configmap" (m_Namespace m)
        (fun name => cm ← read (fun t => Cfm.GetConfigMapByName name (m_Namespace m) (t_cfm t));
                     mret (Cfm.Data cm))
        ((fun r => (cmr_ContainerIndex r, cmr_Name r)) <$> ConfigMapEnvFrom m)
        ((fun r => (cmk_ContainerIndex r, cmk_EnvName r, cmk_Name r, cmk_Key r)) <$>
           ConfigMapEnvKeys m)
        (m_Containers m);
  mret (set_Containers m l).

Definition resolveSecretEnv (m : PodManifest) : M PodManifest :=
  l ← resolve_env "secret" (m_Namespace m)
        (fun name => s ← read (fun t => Sec.GetSecretByName name (m_Namespace m) (t_sec t));
                     mret (Sec.Data s))
        ((fun r => (sr_ContainerIndex r, sr_Name r)) <$> SecretEnvFrom m)
        ((fun r => (sk_ContainerIndex r, sk_EnvName r, sk_Name r, sk_Key r)) <$> SecretEnvKeys m)
        (m_Containers m);
  mret (set_Containers m l).

(** *** Volumes of claims and networks *)

Fixpoint pvc_mounts (namespace : string) (refs : list ContainerPVCMountRef)
    (containers : list Psm.ContainerTemplateSpec) : M (list Psm.ContainerTemplateSpec) :=
  match refs with
  | [] => mret containers
  | ref :: refs =>
      let claim := namespace +:+ "/" +:+ pm_Name ref in
      if out_of_range (pm_ContainerIndex ref) containers
      then fail "persistentVolumeClaim reference has invalid container index" else
      if String.eqb (pm_Name ref) ""
      then fail "persistentVolumeClaim claimName is required" else
      found ← attempt (read (fun t => Vsm.GetPVCByName (pm_Name ref) namespace (t_vsm t)));
      match found with
      | Err e | Panic e => fail ("persistentvolumeclaim " +:+ claim +:+ " not found: " +:+ e)
      | Ok pvcInfo =>
          if negb (String.eqb (Vsm.Phase pvcInfo) Vsm.PVCPhaseBound)
          then fail ("persistentvolumeclaim " +:+ claim +:+ " is not bound") else
          pvc_mounts namespace refs
            (alter (add_Mount (Vsm.DataPath pvcInfo +:+ ":" +:+ pm_MountPath ref +:+
                               (if pm_ReadOnly ref then ":ro" else "")))
               (Z.to_nat (pm_ContainerIndex ref)) containers)
      end
  end.
Definition resolvePVCMounts (m : PodManifest) : M PodManifest :=
  l ← pvc_mounts (m_Namespace m) (PVCMounts m) (m_Containers m); mret (set_Containers m l).

Definition resolveManifestNetworks (m : PodManifest) : M PodManifest :=
  networkName ← ask (ResolveNetwork (m_Namespace m));
  mret (set_Containers m (default_Network networkName <$> m_Containers m)).

(** *** Lookups *)

Definition findDeployment (name namespace : string) : M (option Psm.DeploymentInfo) :=
  l ← psm Psm.GetDeploymentList;
  mret (first_match (fun d => String.eqb (Psm.d_Name (Psm.di_Spec d)) name &&
                              String.eqb (Psm.d_Namespace (Psm.di_Spec d)) namespace) l).
Definition findReplicaSet (name namespace : string) : M (option Psm.ReplicaSetInfo) :=
  l ← psm Psm.GetReplicaSetList;
  mret (first_match (fun rs => String.eqb (Psm.rs_Name (Psm.ri_Spec rs)) name &&
                               String.eqb (Psm.rs_Namespace (Psm.ri_Spec rs)) namespace) l).
Definition findPod (name namespace : string) : M (option Psm.PodInfo) :=
  l ← psm Psm.GetPodList;
  mret (first_match (fun p => String.eqb (Psm.Name p) name &&
                              String.eqb (Psm.Namespace p) namespace) l).
Definition findService (name namespace : string) : M (option Ssm.ServiceInfo) :=
  l ← read (fun t => Ssm.GetServiceList (t_ssm t));
  mret (first_match (fun s => String.eqb (Ssm.sv_Name s) name &&
                              String.eqb (Ssm.sv_Namespace s) namespace) l).
Definition findIngress (name namespace : string) : M (option Ism.IngressInfo) :=
  l ← read (fun t => Ism.GetIngressList (t_ism t));
  mret (first_match (fun i => String.eqb (Ism.Name i) name &&
                              String.eqb (Ism.Namespace i) namespace) l).

Definition errNameAlreadyUsed (name namespace : string) : error :=
  "name already used by other resource: " +:+ namespace +:+ "/" +:+ name.

Definition ensureResourceNameAvailable (name namespace : string) : M unit :=
  if String.eqb name "" || String.eqb namespace "" then mret tt else
  used ← or_zero false (psm (Psm.IsNameAlreadyUsed name namespace));
  if used : bool then fail (errNameAlreadyUsed name namespace) else
  replicaSet ← findReplicaSet name namespace;
  match replicaSet with
  | Some _ => fail (errNameAlreadyUsed name namespace)
  | None =>
      deployment ← findDeployment name namespace;
      match deployment with
      | Some _ => fail (errNameAlreadyUsed name namespace)
      | None => mret tt
      end
  end.

(** *** Kinds that are one entry of a table

    Each gives its result and what undoes it. *)

Definition nothing : M unit := mret tt.

Section secret.
Context {Y : Yaml} {T : YamlType Manifests.Secret.secretManifest}.

Definition applySecret (rawBytes : string) : S (ApplySecretResult * M unit) :=
  manifest ⇐ bad_yaml (Manifests.Secret.DecodeK8sSecretManifest rawBytes);
  let name := Manifests.Secret.Name manifest in
  let namespace := Manifests.Secret.Namespace manifest in
  let info namespace :=
    {| Sec.SecretId := ""; Sec.Name := name; Sec.Namespace := namespace;
       Sec.Type_ := Manifests.Secret.Type_ manifest; Sec.Data := Manifests.Secret.Data manifest;
       Sec.CreatedAt := 0 |} in
  found ← attempt (read (fun t => Sec.GetSecretByName name namespace (t_sec t)));
  match found with
  | Ok existing =>
      let id := Sec.SecretId existing in
      let desired := info (defaultNamespace namespace) in
      if secretInfoEqual existing desired then
        sret ({| ax_SecretId := id; ax_Name := Sec.Name existing;
                 ax_Namespace := Sec.Namespace existing; ax_Action := applyActionUnchanged |},
              nothing)
      else
        _ ⇐ internal "secret update failed" (timed (fun t => on_sec (Sec.StoreSecret id desired t)));
        sret ({| ax_SecretId := id; ax_Name := name; ax_Namespace := Sec.Namespace desired;
                 ax_Action := applyActionUpdated |},
              ignore (timed (fun t => on_sec (Sec.StoreSecret id existing t))))
  | _ =>
      secretId ← new_id;
      _ ⇐ internal "secret store failed"
            (timed (fun t => on_sec (Sec.StoreSecret secretId (info namespace) t)));
      sret ({| ax_SecretId := secretId; ax_Name := name; ax_Namespace := namespace;
               ax_Action := applyActionCreated |},
            ignore (on_sec (Sec.RemoveSecret secretId)))
  end.
End secret.

Section configmap.
Context {Y : Yaml} {T : YamlType Manifests.ConfigMap.configMapManifest}.

Definition manifest_warning (name namespace : string) (w : Manifests.ConfigMap.Warning) : Warning :=
  {| w_Kind := "ConfigMap"; w_Name := name; w_Namespace := namespace;
     w_Field := Manifests.ConfigMap.Field w; w_Message := Manifests.ConfigMap.Message w |}.

Definition applyConfigMap (rawBytes : string)
    : S (ApplyConfigMapResult * M unit * list Warning) :=
  manifest ⇐ bad_yaml (Manifests.ConfigMap.DecodeK8sConfigMapManifest rawBytes);
  let name := Manifests.ConfigMap.Name manifest in
  let namespace := Manifests.ConfigMap.Namespace manifest in
  let warnings := manifest_warning name namespace <$> Manifests.ConfigMap.Warnings manifest in
  let info namespace :=
    {| Cfm.ConfigMapId := ""; Cfm.Name := name; Cfm.Namespace := namespace;
       Cfm.Data := Manifests.ConfigMap.Data manifest; Cfm.CreatedAt := 0 |} in
  found ← attempt (read (fun t => Cfm.GetConfigMapByName name namespace (t_cfm t)));
  match found with
  | Ok existing =>
      let id := Cfm.ConfigMapId existing in
      let desired := info (defaultNamespace namespace) in
      if configMapInfoEqual existing desired then
        sret ({| ac_ConfigMapId := id; ac_Name := Cfm.Name existing;
                 ac_Namespace := Cfm.Namespace existing; ac_Action := applyActionUnchanged |},
              nothing, warnings)
      else
        _ ⇐ internal "configmap update failed"
              (timed (fun t => on_cfm (Cfm.StoreConfigMap id desired t)));
        sret ({| ac_ConfigMapId := id; ac_Name := name; ac_Namespace := Cfm.Namespace desired;
                 ac_Action := applyActionUpdated |},
              ignore (timed (fun t => on_cfm (Cfm.StoreConfigMap id existing t))), warnings)
  | _ =>
      configMapId ← new_id;
      _ ⇐ internal "configmap store failed"
            (timed (fun t => on_cfm (Cfm.StoreConfigMap configMapId (info namespace) t)));
      sret ({| ac_ConfigMapId := configMapId; ac_Name := name; ac_Namespace := namespace;
               ac_Action := applyActionCreated |},
            ignore (on_cfm (Cfm.RemoveConfigMap configMapId)), warnings)
  end.
End configmap.

Section network_policy.
Context {Y : Yaml} {T : YamlType NetworkPolicy.k8sManifest}.

Definition applyNetworkPolicy (rawBytes : string) : S (ApplyNetworkPolicyResult * M unit) :=
  manifest ⇐ bad_yaml (Manifests.DecodeK8sNetworkPolicyManifest rawBytes);
  info ⇐ internal "networkpolicy apply failed" (ask (NetworkPolicyApply manifest));
  sret ({| aw_NetworkPolicyId := Netpol.NetworkPolicyId info; aw_Name := Netpol.Name info;
           aw_Namespace := Netpol.Namespace info;
           aw_GeneratedRules := Z.of_nat (length (Netpol.GeneratedRuleIds info));
           aw_Action := applyActionCreated |},
        ignore (ask (NetworkPolicyRemove (Netpol.NetworkPolicyId info) ""))).
End network_policy.

Section pvc.
Context {Y : Yaml} {T : YamlType Pvc.pvcManifest}.

Definition pvc_result (info : Vsm.PersistentVolumeClaimInfo) (action : string) : ApplyPVCResult :=
  {| av_PVCId := Vsm.PVCId info; av_Name := Vsm.Name info; av_Namespace := Vsm.Namespace info;
     av_RequestedStorage := Vsm.RequestedStorage info;
     av_RequestedBytes := Vsm.RequestedBytes info; av_ReclaimPolicy := Vsm.ReclaimPolicy info;
     av_Action := action |}.

Definition applyPVC (rawBytes : string) : S (ApplyPVCResult * M unit) :=
  manifest ⇐ bad_yaml (Pvc.DecodeK8sPVCManifest rawBytes);
  found ← attempt (read (fun t =>
            Vsm.GetPVCByName (Pvc.m_Name manifest) (Pvc.m_Namespace manifest) (t_vsm t)));
  match found with
  | Ok existing =>
      if pvcManifestEqual existing manifest
      then sret (pvc_result existing applyActionUnchanged, nothing)
      else sfail StatusBadRequest ("persistentvolumeclaim update is not supported: " +:+
                                   Vsm.Namespace existing +:+ "/" +:+ Vsm.Name existing)
  | _ =>
      info ⇐ internal "persistentvolumeclaim apply failed" (ask (PVCCreate manifest));
      sret (pvc_result info applyActionCreated, ignore (ask (PVCRemove (Vsm.PVCId info) "")))
  end.
End pvc.

Section service.
Context {Y : Yaml} {T : YamlType Manifests.Service.serviceManifest}.

Definition service_result (id name namespace action : string) : ApplyServiceResult :=
  {| as_ServiceId := id; as_Name := name; as_Namespace := namespace; as_Action := action |}.

Definition applyService (rawBytes : string) : S (ApplyServiceResult * M unit) :=
  manifest ⇐ bad_yaml (Manifests.Service.DecodeK8sServiceManifest rawBytes);
  let name := Manifests.Service.Name manifest in
  let namespace := Manifests.Service.Namespace manifest in
  if String.eqb name "" || String.eqb namespace ""
  then sfail StatusBadRequest "name and namespace are required" else
  let info type clusterIP :=
    {| Ssm.ServiceId := ""; Ssm.sv_Name := name; Ssm.sv_Namespace := namespace;
       Ssm.sv_Type := type; Ssm.ClusterIP := clusterIP;
       Ssm.Selector := Manifests.Service.Selector manifest;
       Ssm.sv_Ports := Manifests.Service.Ports manifest; Ssm.sv_CreatedAt := 0 |} in
  let store id s := timed (fun t => on_ssm (Ssm.StoreService id s t)) in
  found ⇐ internal "service lookup failed" (findService name namespace);
  match found with
  | Some existing =>
      let id := Ssm.ServiceId existing in
      let given := Manifests.Service.ClusterIP manifest in
      let desired := info (Ssm.NormalizeServiceType (Manifests.Service.Type_ manifest))
                       (if String.eqb given "" then Ssm.ClusterIP existing else given) in
      if serviceInfoEqual existing desired then
        sret (service_result id (Ssm.sv_Name existing) (Ssm.sv_Namespace existing)
                applyActionUnchanged, nothing)
      else
        _ ⇐ internal "service update remove failed" (on_ssm (Ssm.RemoveService id));
        updated ← attempt (store id desired);
        match updated with
        | Err e | Panic e =>
            _ ← ignore (store id existing);
            sfail StatusInternalServerError ("service update failed: " +:+ e)
        | Ok _ =>
            sret (service_result id name namespace applyActionUpdated,
                  _ ← ignore (on_ssm (Ssm.RemoveService id)); ignore (store id existing))
        end
  | None =>
      serviceId ← new_id;
      _ ⇐ internal "service store failed"
            (store serviceId (info (Manifests.Service.Type_ manifest)
                                   (Manifests.Service.ClusterIP manifest)));
      sret (service_result serviceId name namespace applyActionCreated,
            ignore (on_ssm (Ssm.RemoveService serviceId)))
  end.
End service.

Section ingress.
Context {Y : Yaml} {T : YamlType Manifests.Ingress.ingressManifest}.

Definition ingress_result (id : string) (i : Ism.IngressInfo) (action : string)
    : ApplyIngressResult :=
  {| ai_IngressId := id; ai_Name := Ism.Name i; ai_Namespace := Ism.Namespace i;
     ai_TLSHosts := Ism.TLSHosts i; ai_Action := action |}.

Definition ensure_hosts (hosts : list string) : S unit :=
  match hosts with
  | [] => sret tt
  | _ => internal "ingress tls certificate create failed" (ask (EnsureHosts hosts))
  end.

Definition applyIngress (rawBytes : string) : S (ApplyIngressResult * M unit) :=
  manifest ⇐ bad_yaml (Manifests.Ingress.DecodeK8sIngressManifest rawBytes);
  let desired :=
    {| Ism.IngressId := ""; Ism.Name := Manifests.Ingress.Name manifest;
       Ism.Namespace := Manifests.Ingress.Namespace manifest;
       Ism.Rules := Manifests.Ingress.Rules manifest;
       Ism.TLSHosts := Manifests.Ingress.TLSHosts manifest; Ism.CreatedAt := 0 |} in
  found ⇐ internal "ingress lookup failed" (findIngress (Ism.Name desired) (Ism.Namespace desired));
  match found with
  | Some existing =>
      let id := Ism.IngressId existing in
      if ingressInfoEqual existing desired
      then sret (ingress_result id existing applyActionUnchanged, nothing) else
      _ ⇐ ensure_hosts (Ism.TLSHosts desired);
      _ ⇐ internal "ingress update failed"
            (timed (fun t => on_ism (Ism.StoreIngress id desired t)));
      sret (ingress_result id desired applyActionUpdated,
            ignore (timed (fun t => on_ism (Ism.StoreIngress id existing t))))
  | None =>
      _ ⇐ ensure_hosts (Ism.TLSHosts desired);
      ingressId ← new_id;
      _ ⇐ internal "ingress store failed"
            (timed (fun t => on_ism (Ism.StoreIngress ingressId desired t)));
      sret (ingress_result ingressId desired applyActionCreated,
            ignore (on_ism (Ism.RemoveIngress ingressId)))
  end.
End ingress.

(** *** Pods, replica sets and deployments

    These add to the result and to the list of what is to be undone also when
    they fail later. *)

Record progress := { p_result : ApplyResult; p_undo : list (M unit) }.
Definition step (A : Type) : Type := progress -> M (progress * (StatusError + A)).

Definition step_ret {A} (a : A) : step A := fun p => mret (p, inr a).
Definition step_bind {A B} (m : step A) (f : A -> step B) : step B := fun p =>
  '(p, r) ← m p;
  match r with inl e => mret (p, inl e) | inr a => f a p end.
Definition do {A} (m : S A) : step A := fun p => r ← m; mret (p, r).
Definition push (undo : M unit) : step unit := fun p =>
  mret ({| p_result := p_result p; p_undo := p_undo p ++ [undo] |}, inr tt).
Definition edit (f : ApplyResult -> ApplyResult) : step unit := fun p =>
  mret ({| p_result := f (p_result p); p_undo := p_undo p |}, inr tt).
Definition report (e : entry) : step unit := edit (add_entry e).
#[local] Notation "x ⇠ m ; k" := (step_bind m (fun x => k))
  (at level 20, m at level 100, k at level 200, right associativity).
#[local] Notation "' p ⇠ m ; k" := (step_bind m (fun x => match x with p => k end))
  (at level 20, p pattern, m at level 100, k at level 200, right associativity).

(** [if err := m(); err != nil { undo(); return ... }]. *)
Definition or_undo {A} (m : S A) (undo : M unit) : S A :=
  r ← m;
  match r with inl e => _ ← undo; mret (inl e) | inr a => sret a end.

Definition store_template (templateId : string) (spec : Psm.PodTemplateSpec) : M unit :=
  timed (fun t => on_psm (Psm.StorePodTemplate templateId spec t)).
Definition update_deployment (deploymentId : string) (spec : Psm.DeploymentSpec) : M unit :=
  timed (fun t => on_psm (Psm.UpdateDeploymentSpec deploymentId spec t)).
Definition update_replicaSet (replicaSetId : string) (spec : Psm.ReplicaSetSpec) : M unit :=
  on_psm (Psm.UpdateReplicaSetSpec replicaSetId spec).
Definition remove_template (templateId : string) : M unit :=
  ignore (on_psm (Psm.RemovePodTemplate templateId)).
Definition when (b : bool) (m : M unit) : M unit := if b then m else mret tt.

Definition storeTemplate (m : PodManifest) : S string :=
  templateId ← new_id;
  _ ⇐ internal "template store failed" (store_template templateId (templateSpecFromManifest m));
  sret templateId.

(** A template is removed unless something refers to it or that cannot be told. *)
Definition remove_unreferenced (templateId : string) : M unit :=
  inUse ← attempt (psm (Psm.IsTemplateReferenced templateId));
  match inUse with Ok false => remove_template templateId | _ => mret tt end.

(** Every pod of the list that is meant, one after the other. *)
Fixpoint remove_pods (mine : Psm.PodInfo -> bool) (l : list Psm.PodInfo) : M unit :=
  match l with
  | [] => mret tt
  | p :: l =>
      if mine p then _ ← ask (PodRemove (Psm.PodId p)); remove_pods mine l
      else remove_pods mine l
  end.
Definition removePodsByReplicaSetId (replicaSetId : string) : M unit :=
  pods ← psm Psm.GetPodList;
  remove_pods (fun p => String.eqb (Psm.OwnerKind p) Psm.OwnerKindReplicaSet &&
                        String.eqb (Psm.OwnerId p) replicaSetId) pods.
Definition removePodsByTemplateId (templateId : string) : M unit :=
  pods ← psm Psm.GetPodList;
  remove_pods (fun p => String.eqb (Psm.TemplateId p) templateId) pods.

Definition RemoveReplicaSetById (replicaSetId : string) : M unit :=
  rs ← psm (Psm.GetReplicaSet replicaSetId);
  _ ← on_psm (Psm.RemoveReplicaSet replicaSetId);
  let templateId := Psm.rs_TemplateId (Psm.ri_Spec rs) in
  _ ← remove_unreferenced templateId;
  removePodsByTemplateId templateId.

Definition RemoveDeploymentById (deploymentId : string) : M unit :=
  deploy ← psm (Psm.GetDeployment deploymentId);
  _ ← on_psm (Psm.RemoveDeployment deploymentId);
  let replicaSetId := Psm.d_ReplicaSetId (Psm.di_Spec deploy) in
  _ ← (if String.eqb replicaSetId "" then mret tt else
       r ← attempt (RemoveReplicaSetById replicaSetId);
       match r with
       | Err e | Panic e => if contains e "not found" then mret tt else fail e
       | Ok _ => mret tt
       end);
  remove_unreferenced (Psm.d_TemplateId (Psm.di_Spec deploy)).

(** The comparison of templates writes to the containers it is given, also
    those that are stored later: the current ones by the roll-back. *)
Definition normalize_manifest (m : PodManifest) : PodManifest :=
  set_Containers m (normalize_container <$> m_Containers m).

Definition deployment_result (id : string) (spec : Psm.DeploymentSpec) (action : string) : entry :=
  ADeployment {| ad_DeploymentId := id; ad_Name := Psm.d_Name spec;
                 ad_Namespace := Psm.d_Namespace spec; ad_Replicas := Psm.d_Replicas spec;
                 ad_Action := action |}.
Definition replicaSet_result (id name namespace action : string) : entry :=
  AReplicaSet {| ar_ReplicaSetId := id; ar_Name := name; ar_Namespace := namespace;
                 ar_Action := action |}.

Definition rolloutDeploymentManifest (existing : Psm.DeploymentInfo) (m : PodManifest)
    : step unit :=
  let id := Psm.DeploymentId existing in
  let spec := Psm.di_Spec existing in
  currentTemplate ⇠ do (internal "template lookup failed"
                          (psm (Psm.GetPodTemplate (Psm.d_TemplateId spec))));
  let current := Psm.ti_TemplateId currentTemplate in
  let currentSpec := normalizeTemplateSpec (Psm.ti_Spec currentTemplate) in
  let templateUnchanged :=
    podTemplateSpecEqual (Psm.ti_Spec currentTemplate) (templateSpecFromManifest m) in
  let m := normalize_manifest m in
  if templateUnchanged &&
     deploymentSpecEqual spec
       (deploymentSpecFromManifest m (Psm.d_TemplateId spec) (Psm.d_ReplicaSetId spec))
  then report (deployment_result id spec applyActionUnchanged) else
  oldReplicaSet ⇠ do (if String.eqb (Psm.d_ReplicaSetId spec) "" then sret None else
                      r ← attempt (psm (Psm.GetReplicaSet (Psm.d_ReplicaSetId spec)));
                      sret (match r with Ok rs => Some rs | _ => None end));
  newTemplateId ⇠ do (if templateUnchanged then sret (Psm.d_TemplateId spec) else storeTemplate m);
  let drop_new := when (negb templateUnchanged) (remove_template newTemplateId) in
  let desired := deploymentSpecFromManifest m newTemplateId (Psm.d_ReplicaSetId spec) in
  _ ⇠ do (or_undo (internal "deployment update failed" (update_deployment id desired)) drop_new);
  _ ⇠ (match oldReplicaSet with
       | None => step_ret tt
       | Some rs =>
           _ ⇠ do (or_undo (internal "replicaset update failed"
                              (update_replicaSet (Psm.ReplicaSetId rs)
                                 (replicaSetSpecFromManifest m newTemplateId)))
                     (_ ← ignore (update_deployment id spec); drop_new));
           if templateUnchanged then step_ret tt else
           do (internal "rollout pod cleanup failed"
                 (removePodsByReplicaSetId (Psm.ReplicaSetId rs)))
       end);
  _ ⇠ push (_ ← ignore (store_template current currentSpec);
            _ ← ignore (update_deployment id spec);
            _ ← match oldReplicaSet with
                | Some rs => ignore (update_replicaSet (Psm.ReplicaSetId rs) (Psm.ri_Spec rs))
                | None => mret tt
                end;
            drop_new);
  _ ⇠ do (_ ← when (negb templateUnchanged && negb (String.eqb current newTemplateId))
                (remove_unreferenced current);
          sret tt);
  report (deployment_result id desired applyActionUpdated).

Definition rolloutReplicaSetManifest (existing : Psm.ReplicaSetInfo) (m : PodManifest)
    : step unit :=
  let id := Psm.ReplicaSetId existing in
  let spec := Psm.ri_Spec existing in
  currentTemplate ⇠ do (internal "template lookup failed"
                          (psm (Psm.GetPodTemplate (Psm.rs_TemplateId spec))));
  let current := Psm.ti_TemplateId currentTemplate in
  let currentSpec := normalizeTemplateSpec (Psm.ti_Spec currentTemplate) in
  let templateUnchanged :=
    podTemplateSpecEqual (Psm.ti_Spec currentTemplate) (templateSpecFromManifest m) in
  let m := normalize_manifest m in
  if templateUnchanged &&
     replicaSetSpecEqual spec (replicaSetSpecFromManifest m (Psm.rs_TemplateId spec))
  then report (replicaSet_result id (Psm.rs_Name spec) (Psm.rs_Namespace spec)
                 applyActionUnchanged) else
  newTemplateId ⇠ do (if templateUnchanged then sret (Psm.rs_TemplateId spec) else storeTemplate m);
  let drop_new := when (negb templateUnchanged) (remove_template newTemplateId) in
  _ ⇠ do (or_undo (internal "replicaset update failed"
                     (update_replicaSet id (replicaSetSpecFromManifest m newTemplateId))) drop_new);
  _ ⇠ (if templateUnchanged then step_ret tt else
       do (internal "rollout pod cleanup failed" (removePodsByReplicaSetId id)));
  _ ⇠ push (_ ← ignore (store_template current currentSpec);
            _ ← ignore (update_replicaSet id spec);
            drop_new);
  _ ⇠ do (_ ← when (negb templateUnchanged && negb (String.eqb current newTemplateId))
                (remove_unreferenced current);
          sret tt);
  report (replicaSet_result id (m_Name m) (m_Namespace m) applyActionUpdated).

Definition applyDeploymentManifest (m : PodManifest) : step unit :=
  m ⇠ do (bad_request (resolveManifestNetworks m));
  found ⇠ do (internal "deployment lookup failed" (findDeployment (m_Name m) (m_Namespace m)));
  match found with
  | Some existing => rolloutDeploymentManifest existing m
  | None =>
      _ ⇠ do (bad_request (ensureResourceNameAvailable (m_Name m) (m_Namespace m)));
      templateId ⇠ do (storeTemplate m);
      _ ⇠ push (remove_template templateId);
      deploymentId ⇠ do (id ← new_id; sret id);
      let spec := deploymentSpecFromManifest m templateId "" in
      _ ⇠ do (internal "deployment store failed"
                (timed (fun t => on_psm (Psm.StoreDeployment deploymentId spec t))));
      _ ⇠ push (ignore (RemoveDeploymentById deploymentId));
      report (deployment_result deploymentId spec applyActionCreated)
  end.

Definition applyReplicaSetManifest (m : PodManifest) : step unit :=
  m ⇠ do (bad_request (resolveManifestNetworks m));
  found ⇠ do (internal "replicaset lookup failed" (findReplicaSet (m_Name m) (m_Namespace m)));
  match found with
  | Some existing => rolloutReplicaSetManifest existing m
  | None =>
      _ ⇠ do (bad_request (ensureResourceNameAvailable (m_Name m) (m_Namespace m)));
      templateId ⇠ do (storeTemplate m);
      _ ⇠ push (remove_template templateId);
      replicaSetId ⇠ do (id ← new_id; sret id);
      _ ⇠ do (internal "replicaset store failed"
                (timed (fun t => on_psm (Psm.StoreReplicaSet replicaSetId
                                           (replicaSetSpecFromManifest m templateId) t))));
      _ ⇠ push (ignore (RemoveReplicaSetById replicaSetId));
      report (replicaSet_result replicaSetId (m_Name m) (m_Namespace m) applyActionCreated)
  end.

Definition pod_model (m : PodManifest) : PodService.ServiceCreateModel :=
  {| PodService.pc_Name := m_Name m; PodService.pc_Namespace := m_Namespace m;
     PodService.pc_UID := ""; PodService.pc_NetworkNS := ""; PodService.pc_IPCNS := "";
     PodService.pc_UTSNS := ""; PodService.pc_UserNS := ""; PodService.pc_Rootless := m_Rootless m;
     PodService.pc_Labels := m_Labels m; PodService.pc_Annotations := m_Annotations m;
     PodService.pc_Containers := m_Containers m |}.

Definition pod_result (podId name namespace : string) (ids : list string) (action : string) : entry :=
  APod {| ap_PodId := podId; ap_ReplicaSetId := ""; ap_Name := name; ap_Namespace := namespace;
          ap_ContainerIds := ids; ap_Action := action |}.

Definition is_infra (c : ContainerModel.ContainerState) : bool :=
  hasPrefix (ContainerModel.cs_Name c) PodService.PodInfraContainerNamePrefix.

(** A new pod, once there is none of the name. *)
Definition create_pod (m : PodManifest) : step unit :=
  podId ⇠ do (internal "pod create failed" (ask (PodCreate (pod_model m))));
  let remove := ignore (ask (PodRemove podId)) in
  _ ⇠ push remove;
  _ ⇠ do (or_undo (internal "pod start failed" (ask (PodStart podId))) remove);
  containers ⇠ do (or_undo (internal "container list failed" (ask (ContainersByPodId podId))) remove);
  report (pod_result podId (m_Name m) (m_Namespace m)
            (containerIDs (List.filter (fun c => negb (is_infra c)) containers)) applyActionCreated).

(** Whether the template of a pod is the one of the manifest; the manifest as
    the comparison leaves it. *)
Definition same_template (existing : Psm.PodInfo) (m : PodManifest) : M (bool * PodManifest) :=
  if String.eqb (Psm.TemplateId existing) "" then mret (false, m) else
  r ← attempt (psm (Psm.GetPodTemplate (Psm.TemplateId existing)));
  mret (match r with
        | Ok t => (podTemplateSpecEqual (Psm.ti_Spec t) (templateSpecFromManifest m),
                   normalize_manifest m)
        | _ => (false, m)
        end).

Definition mark_updated (before : nat) (r : ApplyResult) : ApplyResult :=
  set_result_Pods r (take before (a_Pods r) ++
                     ((fun p => set_Action p applyActionUpdated) <$> drop before (a_Pods r))).

(** The pod of the manifest when one has its name; [apply_pod] is what applies
    the manifest once that one is removed. *)
Definition rolloutPodManifest (apply_pod : PodManifest -> step unit) (existing : Psm.PodInfo)
    (m : PodManifest) : step unit :=
  '(same, m) ⇠ do (r ← same_template existing m; sret r);
  if same : bool then
    ids ⇠ do (r ← attempt (ask (ContainersByPodId (Psm.PodId existing)));
              sret (match r with Ok l => containerIDs l | _ => [] end));
    report (pod_result (Psm.PodId existing) (Psm.Name existing) (Psm.Namespace existing) ids
              applyActionUnchanged)
  else
  _ ⇠ do (internal "pod remove failed" (ask (PodRemove (Psm.PodId existing))));
  _ ⇠ push (if String.eqb (Psm.TemplateId existing) "" then mret tt else
            r ← attempt (ask (PodCreateFromTemplate (Psm.TemplateId existing) (Psm.Name existing)));
            match r with Ok podId => ignore (ask (PodStart podId)) | _ => mret tt end);
  fun p =>
    let before := length (a_Pods (p_result p)) in
    (_ ⇠ apply_pod m; edit (mark_updated before)) p.

(** [applyPodManifest] and [rolloutPodManifest] call each other as long as a pod
    of the name is found after one was removed; the rounds are bounded by
    [fuel]. *)
Fixpoint applyPodManifest (fuel : nat) (m : PodManifest) : step unit :=
  match fuel with
  | O => do (fun w => (Panic "applyPodManifest: out of fuel", w))
  | Datatypes.S fuel =>
      m ⇠ do (bad_request (resolveManifestNetworks m));
      found ⇠ do (internal "pod lookup failed" (findPod (m_Name m) (m_Namespace m)));
      match found with
      | Some existing => rolloutPodManifest (applyPodManifest fuel) existing m
      | None => create_pod m
      end
  end.

Section documents.
Context {Y : Yaml} {TH : YamlType Header} {TN : YamlType namespaceManifest}
  {TC : YamlType Manifests.ConfigMap.configMapManifest}
  {TS : YamlType Manifests.Secret.secretManifest}
  {TV : YamlType Manifests.Service.serviceManifest}
  {TI : YamlType Manifests.Ingress.ingressManifest}
  {TW : YamlType NetworkPolicy.k8sManifest} {TPV : YamlType Pvc.pvcManifest}
  {TP : YamlType podManifest} {TR : YamlType replicaSetManifest}.

Definition decode_pods (rawBytes : string) : M (list PodManifest) :=
  DecodeK8sManifests (fun path => ask (StatDir path)) (fun path => ask (MakeDirs path)) rawBytes.

(** The first manifest of a document. *)
Definition decodeSinglePodManifest (rawBytes : string) : S PodManifest :=
  r ← attempt (decode_pods rawBytes);
  match r with
  | Ok (m :: _) => sret m
  | Ok [] => sfail StatusBadRequest (invalidYAMLErrorMessage None)
  | Err e | Panic e => sfail StatusBadRequest (invalidYAMLErrorMessage (Some e))
  end.

Definition applyPodResource (fuel : nat) (rawBytes : string) : step unit :=
  m ⇠ do (decodeSinglePodManifest rawBytes);
  m ⇠ do (bad_request (resolveConfigMapEnv m));
  m ⇠ do (bad_request (resolveSecretEnv m));
  m ⇠ do (bad_request (resolvePVCMounts m));
  if String.eqb (Kind m) "Deployment" then applyDeploymentManifest m else
  if String.eqb (Kind m) "ReplicaSet" then applyReplicaSetManifest m else
  applyPodManifest fuel m.

Definition applyNamespace (rawBytes : string) : step unit :=
  manifest ⇠ do (bad_yaml (decodeNamespaceManifest rawBytes));
  existing ⇠ do (r ← attempt (ask (NamespaceGet (nm_Name manifest))); sret r);
  match existing with
  | Ok existing =>
      if negb (stringMapEqual (NamespaceService.nv_Labels existing) (nm_Labels manifest)) ||
         negb (stringMapEqual (NamespaceService.nv_Annotations existing) (nm_Annotations manifest))
      then do (sfail StatusBadRequest ("namespace update is not supported: " +:+ nm_Name manifest))
      else report (ANamespace {| an_Name := NamespaceService.nv_Name existing;
                                 an_Network := NamespaceService.nv_Network existing;
                                 an_Action := applyActionUnchanged |})
  | _ =>
      info ⇠ do (internal "namespace create failed" (ask (NamespaceCreate
                   {| NamespaceService.sc_Name := nm_Name manifest;
                      NamespaceService.sc_Network := "";
                      NamespaceService.sc_Labels := nm_Labels manifest;
                      NamespaceService.sc_Annotations := nm_Annotations manifest |})));
      _ ⇠ push (ignore (ask (NamespaceRemove (NamespaceService.nv_Name info))));
      report (ANamespace {| an_Name := NamespaceService.nv_Name info;
                            an_Network := NamespaceService.nv_Network info;
                            an_Action := applyActionCreated |})
  end.

(** A result of a table's kind with what undoes it. *)
Definition one_entry {A} (m : S (A * M unit)) (e : A -> entry) : step unit :=
  '(r, undo) ⇠ do m; _ ⇠ push undo; report (e r).

Definition apply_kind (fuel : nat) (kind rawBytes : string) : step unit :=
  if String.eqb kind "Namespace" then applyNamespace rawBytes else
  if String.eqb kind "Service" then one_entry (applyService rawBytes) AService else
  if String.eqb kind "Ingress" then one_entry (applyIngress rawBytes) AIngress else
  if String.eqb kind "ConfigMap" then
    '(r, undo, warnings) ⇠ do (applyConfigMap rawBytes);
    _ ⇠ push undo;
    _ ⇠ report (AConfigMap r);
    edit (add_warnings warnings)
  else
  if String.eqb kind "Secret" then one_entry (applySecret rawBytes) ASecret else
  if String.eqb kind "NetworkPolicy" then one_entry (applyNetworkPolicy rawBytes) ANetworkPolicy else
  if String.eqb kind "PersistentVolumeClaim" then one_entry (applyPVC rawBytes) APVC else
  if String.eqb kind "Pod" || String.eqb kind "ReplicaSet" || String.eqb kind "Deployment"
  then applyPodResource fuel rawBytes
  else do (sfail StatusBadRequest ("unsupported kind: " +:+ kind)).

Definition apply_document (fuel : nat) (raw : document) : step unit :=
  rawBytes ⇠ do (bad_yaml (Marshal raw));
  header ⇠ do (bad_request (fun w => (decodeHeader rawBytes, w)));
  _ ⇠ edit (add_warnings (collectHeaderWarnings header raw));
  apply_kind fuel (h_Kind header) rawBytes.

Fixpoint apply_documents (fuel : nat) (docs : list document) (end_error : option error) : step unit :=
  match docs with
  | [] => match end_error with
          | Some e => do (sfail StatusBadRequest (invalidYAMLErrorMessage (Some e)))
          | None => step_ret tt
          end
  | [] :: docs => apply_documents fuel docs end_error
  | raw :: docs => _ ⇠ apply_document fuel raw; apply_documents fuel docs end_error
  end.

(** [rollbackApplied], on the list from its end. *)
Fixpoint run_undos (l : list (M unit)) : M unit :=
  match l with [] => mret tt | undo :: l => _ ← undo; run_undos l end.

Definition Apply (fuel : nat) (body : string) : S ApplyResult :=
  let '(docs, end_error) := Decode body in
  '(p, r) ← apply_documents fuel docs end_error {| p_result := no_result; p_undo := [] |};
  match r with
  | inr _ => sret (p_result p)
  | inl e => _ ← run_undos (rev (p_undo p)); mret (inl e)
  end.
End documents.
End apply.
