(* ===== verification/ResourceDelete.v ===== *)
(** * Deleting manifests ([core/resource/delete.go])

    The documents are read first and deleted in the order of their kinds, with
    what depends on others first; what is not there becomes a warning. *)

From Stdlib Require Import ZArith Lia Ascii String.
From stdpp Require Import base gmap strings list.
From S2P Require Import Prelude.
From S2P Require Import GoString.
From S2P Require Import GoYaml.
From S2P Require Import World.
From S2P Require Psm.
From S2P Require Ssm.
From S2P Require Ism.
From S2P Require Cfm.
From S2P Require Sec.
From S2P Require Vsm.
From S2P Require Netpol.
From S2P Require NetworkPolicy.
From S2P Require Pvc.
From S2P Require Manifests.
From S2P Require Import PodManifest.
From S2P Require Import Resource.
From S2P Require Import ResourceApply.
Open Scope Z_scope.

(** [type deleteManifestDocument]. *)
Record manifestDocument := { RawBytes : string; doc_Header : Header }.

Definition deleteKindPriority (kind : string) : Z :=
  if String.eqb kind "Deployment" then 10 else
  if String.eqb kind "ReplicaSet" then 20 else
  if String.eqb kind "Pod" then 30 else
  if String.eqb kind "Ingress" then 40 else
  if String.eqb kind "NetworkPolicy" then 50 else
  if String.eqb kind "Service" then 60 else
  if String.eqb kind "ConfigMap" then 70 else
  if String.eqb kind "Secret" then 80 else
  if String.eqb kind "PersistentVolumeClaim" then 90 else
  if String.eqb kind "Namespace" then 1000 else 500.

Definition priority (d : manifestDocument) : Z := deleteKindPriority (h_Kind (doc_Header d)).

(** [sort.SliceStable] has one result; it is computed by insertion. *)
Fixpoint insert_document (d : manifestDocument) (l : list manifestDocument)
    : list manifestDocument :=
  match l with
  | [] => [d]
  | x :: l' => if priority x <? priority d then x :: insert_document d l' else d :: l
  end.
Fixpoint stableSortDeleteDocuments (docs : list manifestDocument)
    : list manifestDocument :=
  match docs with [] => [] | d :: docs => insert_document d (stableSortDeleteDocuments docs) end.
Definition sortDeleteManifestDocuments (docs : list manifestDocument)
    : list manifestDocument := stableSortDeleteDocuments docs.

(** [ErrorStatus] and the text of the error are what is looked at. *)
Definition is_not_found (err : StatusError + error) : bool :=
  (ErrorStatus err StatusInternalServerError =? StatusNotFound) ||
  contains (error_text err) "not found".
Definition not_found_warning (header : Header) : Warning :=
  {| w_Kind := h_Kind header; w_Name := h_Name header; w_Namespace := h_Namespace header;
     w_Field := ""; w_Message := "resource not found; skipped delete" |}.

Section delete.
Context {RO : RangeOrder} {X : Type} {P : ResourcePeers X}.
#[local] Notation M := (M tables asked X).
#[local] Notation S A := (World.M tables asked X (StatusError + A)%type).
Open Scope status_scope.

(** The loop over the entries of a table: those of the name are removed, and
    there must be one. *)
Section loop.
Context {A B : Type} (mine : A -> bool) (remove : A -> S unit) (result : A -> B).

Fixpoint remove_matching (l : list A) : S (list B) :=
  match l with
  | [] => sret []
  | x :: l =>
      if negb (mine x) then remove_matching l else
      _ ⇐ remove x;
      rest ⇐ remove_matching l;
      sret (result x :: rest)
  end.

Definition delete_matching (kind : string) (list_ : M (list A)) : S (list B) :=
  l ⇐ internal "list failed" list_;
  found ⇐ remove_matching l;
  match found with
  | [] => sfail StatusNotFound (kind +:+ " not found")
  | _ => sret found
  end.
End loop.

(** [return nil, statusError(500, "remove failed: %v", err)]. *)
Definition removal (m : M unit) : S unit := internal "remove failed" m.
Definition deleted_result (id name namespace : string) : DeletedResult :=
  {| dl_Id := id; dl_Name := name; dl_Namespace := namespace |}.

(** Hosts of the other ingresses. *)
Definition activeTLSHostsExcept (ingresses : list Ism.IngressInfo) (excludedIngressId : string)
    : list string :=
  flat_map (fun i => if String.eqb (Ism.IngressId i) excludedIngressId then [] else Ism.TLSHosts i)
    ingresses.

Section documents.
Context {Y : Yaml} {TH : YamlType Header} {TN : YamlType namespaceManifest}
  {TC : YamlType Manifests.ConfigMap.configMapManifest}
  {TS : YamlType Manifests.Secret.secretManifest}
  {TV : YamlType Manifests.Service.serviceManifest}
  {TI : YamlType Manifests.Ingress.ingressManifest}
  {TW : YamlType NetworkPolicy.k8sManifest} {TPV : YamlType Pvc.pvcManifest}
  {TP : YamlType podManifest} {TR : YamlType replicaSetManifest}.

Definition deleteSecret (rawBytes : string) : S (list DeletedResult) :=
  manifest ⇐ bad_yaml (Manifests.Secret.DecodeK8sSecretManifest rawBytes);
  delete_matching
    (fun s => String.eqb (Sec.Name s) (Manifests.Secret.Name manifest) &&
              String.eqb (Sec.Namespace s) (Manifests.Secret.Namespace manifest))
    (fun s => removal (on_sec (Sec.RemoveSecret (Sec.SecretId s))))
    (fun s => deleted_result (Sec.SecretId s) (Sec.Name s) (Sec.Namespace s))
    "secret" (read (fun t => Sec.GetSecretList (t_sec t))).

Definition deleteConfigMap (rawBytes : string) : S (list DeletedResult) :=
  manifest ⇐ bad_yaml (Manifests.ConfigMap.DecodeK8sConfigMapManifest rawBytes);
  delete_matching
    (fun c => String.eqb (Cfm.Name c) (Manifests.ConfigMap.Name manifest) &&
              String.eqb (Cfm.Namespace c) (Manifests.ConfigMap.Namespace manifest))
    (fun c => removal (on_cfm (Cfm.RemoveConfigMap (Cfm.ConfigMapId c))))
    (fun c => deleted_result (Cfm.ConfigMapId c) (Cfm.Name c) (Cfm.Namespace c))
    "configmap" (read (fun t => Cfm.GetConfigMapList (t_cfm t))).

Definition deleteService (rawBytes : string) : S (list DeletedResult) :=
  manifest ⇐ bad_yaml (Manifests.Service.DecodeK8sServiceManifest rawBytes);
  delete_matching
    (fun s => String.eqb (Ssm.sv_Name s) (Manifests.Service.Name manifest) &&
              String.eqb (Ssm.sv_Namespace s) (Manifests.Service.Namespace manifest))
    (fun s => removal (on_ssm (Ssm.RemoveService (Ssm.ServiceId s))))
    (fun s => deleted_result (Ssm.ServiceId s) (Ssm.sv_Name s) (Ssm.sv_Namespace s))
    "service" (read (fun t => Ssm.GetServiceList (t_ssm t))).

(** The certificates of its hosts go with an ingress, unless the list that was
    read at the start has another ingress for them. *)
Definition deleteIngress (rawBytes : string) : S (list DeletedResult) :=
  manifest ⇐ bad_yaml (Manifests.Ingress.DecodeK8sIngressManifest rawBytes);
  list_ ⇐ internal "list failed" (read (fun t => Ism.GetIngressList (t_ism t)));
  delete_matching
    (fun i => String.eqb (Ism.Name i) (Manifests.Ingress.Name manifest) &&
              String.eqb (Ism.Namespace i) (Manifests.Ingress.Namespace manifest))
    (fun i =>
       _ ⇐ removal (on_ism (Ism.RemoveIngress (Ism.IngressId i)));
       internal "ingress tls certificate cleanup failed"
         (ask (RemoveHostsIfUnused (Ism.TLSHosts i)
                 (activeTLSHostsExcept list_ (Ism.IngressId i)))))
    (fun i => deleted_result (Ism.IngressId i) (Ism.Name i) (Ism.Namespace i))
    "ingress" (mret list_).

(** A service that says that there is none. *)
Definition or_not_found {A} (kind : string) (m : M A) : S A :=
  r ← attempt m;
  match r with
  | Ok a => sret a
  | Err e | Panic e =>
      if contains e "not found" then sfail StatusNotFound (kind +:+ " not found")
      else sfail StatusInternalServerError (kind +:+ " remove failed: " +:+ e)
  end.

Definition deleteNetworkPolicy (rawBytes : string) : S (list DeletedResult) :=
  manifest ⇐ bad_yaml (Manifests.DecodeK8sNetworkPolicyManifest rawBytes);
  info ⇐ or_not_found "networkpolicy"
    (ask (NetworkPolicyRemove (NetworkPolicy.m_Name manifest) (NetworkPolicy.m_Namespace manifest)));
  sret [deleted_result (Netpol.NetworkPolicyId info) (Netpol.Name info) (Netpol.Namespace info)].

Definition deletePVC (rawBytes : string) : S (list DeletePVCResult) :=
  manifest ⇐ bad_yaml (Pvc.DecodeK8sPVCManifest rawBytes);
  info ⇐ or_not_found "persistentvolumeclaim"
    (ask (PVCRemove (Pvc.m_Name manifest) (Pvc.m_Namespace manifest)));
  sret [{| dv_Result := deleted_result (Vsm.PVCId info) (Vsm.Name info) (Vsm.Namespace info);
           dv_ReclaimPolicy := Vsm.ReclaimPolicy info |}].

Definition deleteDeployment (rawBytes : string) : S (list DeletedResult) :=
  manifest ⇐ decodeSinglePodManifest rawBytes;
  delete_matching
    (fun d => String.eqb (Psm.d_Name (Psm.di_Spec d)) (m_Name manifest) &&
              String.eqb (Psm.d_Namespace (Psm.di_Spec d)) (m_Namespace manifest))
    (fun d => removal (RemoveDeploymentById (Psm.DeploymentId d)))
    (fun d => deleted_result (Psm.DeploymentId d) (Psm.d_Name (Psm.di_Spec d))
                (Psm.d_Namespace (Psm.di_Spec d)))
    "deployment" (psm Psm.GetDeploymentList).

Definition deleteReplicaSet (rawBytes : string) : S (list DeletedResult) :=
  manifest ⇐ decodeSinglePodManifest rawBytes;
  delete_matching
    (fun rs => String.eqb (Psm.rs_Name (Psm.ri_Spec rs)) (m_Name manifest) &&
               String.eqb (Psm.rs_Namespace (Psm.ri_Spec rs)) (m_Namespace manifest))
    (fun rs => removal (RemoveReplicaSetById (Psm.ReplicaSetId rs)))
    (fun rs => deleted_result (Psm.ReplicaSetId rs) (Psm.rs_Name (Psm.ri_Spec rs))
                 (Psm.rs_Namespace (Psm.ri_Spec rs)))
    "replicaset" (psm Psm.GetReplicaSetList).

Definition deletePod (rawBytes : string) : S (list DeletedResult) :=
  manifest ⇐ decodeSinglePodManifest rawBytes;
  delete_matching
    (fun p => String.eqb (Psm.Name p) (m_Name manifest) &&
              String.eqb (Psm.Namespace p) (m_Namespace manifest))
    (fun p => removal (_ ← ask (PodRemove (Psm.PodId p)); mret tt))
    (fun p => deleted_result (Psm.PodId p) (Psm.Name p) (Psm.Namespace p))
    "pod" (psm Psm.GetPodList).

Definition deleteNamespace (rawBytes : string) : M ((StatusError + error) + deleted) :=
  r ← bad_yaml (decodeNamespaceManifest rawBytes);
  match r with
  | inl e => mret (inl (inl e))
  | inr manifest =>
      removed ← attempt (ask (NamespaceRemove (nm_Name manifest)));
      mret (match removed with
            | Ok _ => inr (DNamespace (nm_Name manifest))
            | Err e | Panic e => inl (inr e)
            end)
  end.

(** What was deleted, or a warning in its place. *)
Definition or_warning {A} (header : Header) (m : S A) (e : A -> deleted) : S deleted :=
  r ← m;
  match r with
  | inr a => sret (e a)
  | inl err => if is_not_found (inl err) then sret (DWarnings [not_found_warning header])
               else mret (inl err)
  end.

(** A namespace manifest that cannot be decoded is an error at once, and its
    service's errors have no status. *)
Definition delete_namespace_document (header : Header) (rawBytes : string) : S deleted :=
  r ← deleteNamespace rawBytes;
  match r with
  | inr d => sret d
  | inl (inl e) => mret (inl e)
  | inl (inr e) =>
      if is_not_found (inr e) then sret (DWarnings [not_found_warning header])
      else sfail StatusInternalServerError ("namespace remove failed: " +:+ e)
  end.

Definition deleteManifestDocument (doc : manifestDocument) : S deleted :=
  let rawBytes := RawBytes doc in
  let header := doc_Header doc in
  let kind := h_Kind header in
  if String.eqb kind "Namespace" then delete_namespace_document header rawBytes else
  if String.eqb kind "Service" then or_warning header (deleteService rawBytes) DServices else
  if String.eqb kind "Ingress" then or_warning header (deleteIngress rawBytes) DIngresses else
  if String.eqb kind "ConfigMap" then or_warning header (deleteConfigMap rawBytes) DConfigMaps else
  if String.eqb kind "Secret" then or_warning header (deleteSecret rawBytes) DSecrets else
  if String.eqb kind "NetworkPolicy"
  then or_warning header (deleteNetworkPolicy rawBytes) DNetworkPolicies else
  if String.eqb kind "PersistentVolumeClaim" then or_warning header (deletePVC rawBytes) DPVCs else
  if String.eqb kind "Deployment" then or_warning header (deleteDeployment rawBytes) DDeployments else
  if String.eqb kind "ReplicaSet" then or_warning header (deleteReplicaSet rawBytes) DReplicaSets else
  if String.eqb kind "Pod" then or_warning header (deletePod rawBytes) DPods
  else sfail StatusBadRequest ("unsupported kind: " +:+ kind).

Fixpoint decode_delete (docs : list document) (end_error : option error)
    : S (list manifestDocument * list Warning) :=
  match docs with
  | [] => match end_error with
          | Some e => sfail StatusBadRequest (invalidYAMLErrorMessage (Some e))
          | None => sret ([], [])
          end
  | [] :: docs => decode_delete docs end_error
  | raw :: docs =>
      rawBytes ⇐ bad_yaml (Marshal raw);
      header ⇐ bad_request (fun w => (decodeHeader rawBytes, w));
      '(l, warnings) ⇐ decode_delete docs end_error;
      sret ({| RawBytes := rawBytes; doc_Header := header |} :: l,
            collectHeaderWarnings header raw ++ warnings)
  end.
Definition decodeDeleteManifestDocuments (body : string)
    : S (list manifestDocument * list Warning) :=
  let '(docs, end_error) := Decode body in decode_delete docs end_error.

Fixpoint delete_documents (docs : list manifestDocument) (result : DeleteResult)
    : S DeleteResult :=
  match docs with
  | [] => sret result
  | doc :: docs =>
      d ⇐ deleteManifestDocument doc; delete_documents docs (add_deleted d result)
  end.

Definition Delete (body : string) : S DeleteResult :=
  '(docs, warnings) ⇐ decodeDeleteManifestDocuments body;
  delete_documents (sortDeleteManifestDocuments docs)
    (add_deleted (DWarnings warnings) nothing_deleted).
End documents.
End delete.
