(* ===== verification/ResourceTheory.v ===== *)
(** * Applying and deleting manifests: properties

    The order of deletion, the environments of containers, what a failed
    [Apply] leaves, and what a repeated one does. *)

From Stdlib Require Import ZArith Lia Ascii String.
From stdpp Require Import base gmap strings list sorting.
From S2P Require Import Prelude.
From S2P Require Import GoString.
From S2P Require Import GoSort.
From S2P Require Import GoYaml.
From S2P Require Import World.
From S2P Require Psm.
From S2P Require Cfm.
From S2P Require Sec.
From S2P Require Ism.
From S2P Require Manifests.
From S2P Require Import PodManifest.
From S2P Require Import Resource.
From S2P Require Import ResourceApply.
From S2P Require Import ResourceDelete.
Open Scope Z_scope.

(** ** The order of deletion *)
Section order.
Implicit Types l docs : list manifestDocument.

Definition no_later (a b : manifestDocument) : Prop := priority a <= priority b.

Lemma insert_document_perm d l : insert_document d l ≡ₚ d :: l.
Proof.
  induction l as [|x l IH]; simpl; [done|]. destruct (priority x <? priority d); [|done].
  rewrite IH. apply Permutation_swap.
Qed.

Lemma insert_document_sorted d l :
  StronglySorted no_later l -> StronglySorted no_later (insert_document d l).
Proof.
  induction 1 as [|x l Hl IH Hx]; simpl; [by repeat constructor|].
  destruct (Z.ltb_spec (priority x) (priority d)) as [Hlt|Hge].
  - constructor; [done|]. rewrite insert_document_perm. constructor; [red; lia|done].
  - constructor; [by constructor|]. constructor; [red; lia|].
    eapply Forall_impl; [exact Hx|]. unfold no_later. intros y Hy. lia.
Qed.

Lemma insert_document_stable (p : Z) d l :
  filter (fun x => priority x = p) (insert_document d l) =
  filter (fun x => priority x = p) (d :: l).
Proof.
  induction l as [|x l IH]; [done|]. cbn [insert_document].
  destruct (Z.ltb_spec (priority x) (priority d)) as [Hlt|Hge]; [|done].
  rewrite !filter_cons in *. rewrite IH. repeat case_decide; (done || lia).
Qed.

(** The documents of a deletion are taken each once, in the order of their
    kinds, deployments and pods first and namespaces last, and documents of one
    kind in the order of the text. *)
Theorem deletion_order docs :
  sortDeleteManifestDocuments docs ≡ₚ docs /\
  StronglySorted no_later (sortDeleteManifestDocuments docs) /\
  forall p, filter (fun d => priority d = p) (sortDeleteManifestDocuments docs) =
            filter (fun d => priority d = p) docs.
Proof.
  unfold sortDeleteManifestDocuments. induction docs as [|d docs (Hp & Hs & Hf)].
  { split_and!; [done|constructor|done]. }
  cbn [stableSortDeleteDocuments]. split_and!.
  - by rewrite insert_document_perm, Hp.
  - by apply insert_document_sorted.
  - intros p. rewrite insert_document_stable, !filter_cons, Hf. done.
Qed.
End order.

(** ** Environments *)

(** A name that an entry of an environment can have. *)
Definition env_name (k : string) : Prop := k <> "" /\ cut "=" k = None.

Lemma cut_name k v : cut "=" k = None -> cut "=" (k +:+ String "=" v) = Some (k, v).
Proof.
  induction k as [|c k IH]; simpl; [done|]. destruct (Ascii.eqb c "="); [done|].
  destruct (cut "=" k) as [[? ?]|]; [done|]. intros _. by rewrite IH.
Qed.

Lemma env_entry_name k v : env_name k -> env_entry (k +:+ "=" +:+ v) = Some (k, v).
Proof.
  intros [Hne Hk]. unfold env_entry. change ("=" +:+ v) with (String "=" v).
  rewrite (cut_name k v Hk). by destruct (String.eqb_spec k "").
Qed.

Section environments.
Context {RO : RangeOrder}.

(** An environment written as a list and read back is the same map, if its
    names are names of variables: every variable keeps its value. *)
Theorem environment_round_trip (env : gmap string string) :
  (forall k v, env !! k = Some v -> env_name k) ->
  envListToMap (envMapToList env) = env.
Proof.
  intros Hn. unfold envListToMap, envMapToList.
  set (ks := sort_Strings (range_map env).*1).
  assert (forall j, j ∈ ks <-> is_Some (env !! j)) as Hks.
  { intros j. unfold ks, sort_Strings. rewrite merge_sort_Permutation, list_elem_of_fmap. split.
    - intros ([k v] & -> & H%elem_of_range_map). eauto.
    - intros [v H]. exists (j, v). by rewrite elem_of_range_map. }
  assert (forall (l : list string) (out : gmap string string) j, (forall k, k ∈ l -> k ∈ ks) ->
    fold_left (fun out kv => match env_entry kv with Some (k, v) => <[k := v]> out | None => out end)
      ((fun k => k +:+ "=" +:+ default "" (env !! k)) <$> l) out !! j =
    if decide (j ∈ l) then env !! j else out !! j) as Hfold.
  { induction l as [|k l IH]; intros out j Hl; [done|]. cbn [fmap list_fmap fold_left].
    destruct (proj1 (Hks k) (Hl k (list_elem_of_here _ _))) as [v Hv].
    rewrite env_entry_name by by eapply Hn. rewrite Hv. cbn [default].
    rewrite IH by (intros k' Hk'; apply Hl; by right).
    destruct (decide (j ∈ l)), (decide (j = k)) as [->|Hjk]; repeat case_decide;
      rewrite ?lookup_insert_eq, ?lookup_insert_ne by done; try done; set_solver. }
  apply map_eq. intros j. rewrite Hfold by done. case_decide as Hj; [done|].
  rewrite lookup_empty. destruct (env !! j) eqn:E; [|done]. destruct Hj. apply Hks. eauto.
Qed.

(** *** What a container gets

    The last reference that names a variable decides; without one, what the
    container has itself; without that, the first object taken as a whole that
    has the variable. *)
Definition key_value (data : string -> gmap string string) (i : nat) (k : string)
    (r : Z * string * string * string) : option string :=
  let '(j, envName, name, key) := r in
  if decide (j = Z.of_nat i /\ envName = k) then data name !! key else None.
Definition object_value (data : string -> gmap string string) (i : nat) (k : string)
    (r : Z * string) : option string :=
  if decide (r.1 = Z.of_nat i) then data r.2 !! k else None.

Definition environment_of (data : string -> gmap string string) (all : list (Z * string))
    (keys : list (Z * string * string * string)) (i : nat) (own env : gmap string string) : Prop :=
  forall k, env !! k = last (omap (key_value data i k) keys) ∪ own !! k ∪
                       head (omap (object_value data i k) all).

Lemma union_none_r (o : option string) : o ∪ None = o.
Proof. by destruct o. Qed.
Lemma union_assoc (a b c : option string) : a ∪ (b ∪ c) = a ∪ b ∪ c.
Proof. by destruct a, b, c. Qed.

Lemma head_omap_cons {A} (f : A -> option string) x l :
  head (omap f (x :: l)) = f x ∪ head (omap f l).
Proof. simpl. destruct (f x); [|by destruct (head _)]. by destruct (head (omap f l)). Qed.
Lemma last_omap_cons {A} (f : A -> option string) x l :
  last (omap f (x :: l)) = last (omap f l) ∪ f x.
Proof.
  cbn [omap list_omap]. destruct (f x) as [y|].
  - rewrite last_cons. by destruct (last (omap f l)).
  - by rewrite union_none_r.
Qed.

Section resolve.
Context {X : Type} {P : ResourcePeers X} (label namespace : string).
Context (get : string -> M tables asked X (gmap string string)).
Context (w : world tables asked X) (g : string -> res (gmap string string)).
Context (Hget : forall name, get name w = (g name, w)).

Definition data (name : string) : gmap string string :=
  match g name with Ok d => d | _ => ∅ end.

Lemma get_data_run name r w' : get_data label namespace get name w = (r, w') ->
  w' = w /\ forall d, r = Ok d -> data name = d.
Proof.
  unfold get_data. rewrite Hget. unfold data.
  destruct (g name); intros [= <- <-]; (split; [done|]); by intros d [= <-].
Qed.

Lemma in_range {A} (i : Z) (l : list A) : out_of_range i l = false ->
  Z.of_nat (Z.to_nat i) = i.
Proof.
  unfold out_of_range. intros [H _]%orb_false_iff. apply Z.ltb_ge in H. by apply Z2Nat.id.
Qed.

Lemma env_all_run refs envs r w' :
  env_all label namespace get refs envs w = (r, w') ->
  w' = w /\ forall envs', r = Ok envs' -> length envs' = length envs /\
    forall i e, envs !! i = Some e -> exists e', envs' !! i = Some e' /\
      forall k, e' !! k = e !! k ∪ head (omap (object_value data i k) refs).
Proof.
  revert envs. induction refs as [|[j name] refs IH]; intros envs; cbn [env_all].
  { intros [= <- <-]. split; [done|]. intros envs' [= <-]. split; [done|]. intros i e He.
    exists e. split; [done|]. intros k. by rewrite union_none_r. }
  destruct (out_of_range j envs) eqn:Hj; [by intros [= <- <-]|]. apply in_range in Hj. intros H.
  apply M_bind_run in H as [(d & w1 & H1 & H)|[(e & H1 & ->)|(e & H1 & ->)]];
    apply get_data_run in H1 as [-> Hd]; [|done..]. specialize (Hd d eq_refl).
  apply IH in H as [-> H]. split; [done|]. intros envs' ->.
  destruct (H envs' eq_refl) as [Hlen Hi]. rewrite length_alter in Hlen. split; [done|].
  intros i e He. setoid_rewrite head_omap_cons. unfold object_value at 1. cbn [fst snd].
  rewrite Hd. destruct (decide (Z.to_nat j = i)) as [Hji|Hji].
  - destruct (Hi i (e ∪ d)) as (e' & He' & Hk).
    { rewrite <- Hji, list_lookup_alter_eq, Hji, He. done. }
    exists e'. split; [done|]. intros k. rewrite Hk, lookup_union, decide_True by lia.
    by rewrite union_assoc.
  - destruct (Hi i e) as (e' & He' & Hk).
    { by rewrite list_lookup_alter_ne. }
    exists e'. split; [done|]. intros k. rewrite Hk, decide_False by lia.
    by destruct (e !! k), (head _).
Qed.

Lemma env_keys_run refs envs r w' :
  env_keys label namespace get refs envs w = (r, w') ->
  w' = w /\ forall envs', r = Ok envs' -> length envs' = length envs /\
    forall i e, envs !! i = Some e -> exists e', envs' !! i = Some e' /\
      forall k, e' !! k = last (omap (key_value data i k) refs) ∪ e !! k.
Proof.
  revert envs. induction refs as [|[[[j envName] name] key] refs IH]; intros envs; cbn [env_keys].
  { intros [= <- <-]. split; [done|]. intros envs' [= <-]. split; [done|]. intros i e He.
    exists e. split; [done|]. intros k. by destruct (e !! k). }
  destruct (out_of_range j envs) eqn:Hj; [by intros [= <- <-]|]. apply in_range in Hj.
  destruct (_ || _); [by intros [= <- <-]|]. intros H.
  apply M_bind_run in H as [(d & w1 & H1 & H)|[(e & H1 & ->)|(e & H1 & ->)]];
    apply get_data_run in H1 as [-> Hd]; [|done..]. specialize (Hd d eq_refl).
  destruct (d !! key) as [v|] eqn:Hv; [|by injection H as <- <-].
  apply IH in H as [-> H]. split; [done|]. intros envs' ->.
  destruct (H envs' eq_refl) as [Hlen Hi]. rewrite length_alter in Hlen. split; [done|].
  intros i e He. setoid_rewrite last_omap_cons. unfold key_value at 2. rewrite Hd, Hv.
  destruct (decide (Z.to_nat j = i)) as [Hji|Hji].
  - destruct (Hi i (<[envName := v]> e)) as (e' & He' & Hk).
    { rewrite <- Hji, list_lookup_alter_eq, Hji, He. done. }
    exists e'. split; [done|]. intros k. rewrite Hk.
    destruct (decide (envName = k)) as [->|Hne].
    + rewrite lookup_insert_eq, decide_True by (split; [lia|done]).
      by destruct (last _), (e !! k).
    + rewrite lookup_insert_ne, decide_False by (done || by intros [_ ?]).
      by rewrite union_none_r.
  - destruct (Hi i e) as (e' & He' & Hk); [by rewrite list_lookup_alter_ne|].
    exists e'. split; [done|]. intros k.
    by rewrite Hk, decide_False, union_none_r by (intros [? _]; lia).
Qed.

(** The containers after the references are resolved. *)
Definition containers_resolved (all : list (Z * string))
    (keys : list (Z * string * string * string))
    (containers containers' : list Psm.ContainerTemplateSpec) : Prop :=
  (all = [] /\ keys = [] /\ containers' = containers) \/
  (length containers' = length containers /\
   forall i c, containers !! i = Some c -> exists env,
     containers' !! i = Some (set_Env c (envMapToList env)) /\
     environment_of data all keys i (envListToMap (Psm.Env c)) env).

Lemma resolve_env_run all keys containers r w' :
  resolve_env label namespace get all keys containers w = (r, w') ->
  w' = w /\ forall containers', r = Ok containers' ->
    containers_resolved all keys containers containers'.
Proof.
  intros H. assert ((all = [] /\ keys = []) \/ ~ (all = [] /\ keys = [])) as [[-> ->]|Hne]
    by (destruct all, keys; naive_solver).
  { injection H as <- <-. split; [done|]. intros l [= <-]. by left. }
  assert (resolve_env label namespace get all keys containers =
    (envs ← env_all label namespace get all ((fun c => envListToMap (Psm.Env c)) <$> containers);
     envs ← env_keys label namespace get keys envs;
     mret (zip_with (fun c env => set_Env c (envMapToList env)) containers envs))) as Heq
    by (destruct all, keys; naive_solver).
  rewrite Heq in H. clear Heq.
  apply M_bind_run in H as [(envs & w1 & H1 & H)|[(e & H1 & ->)|(e & H1 & ->)]];
    apply env_all_run in H1 as [-> H1]; [|done..].
  apply M_bind_run in H as [(envs' & w1 & H2 & H)|[(e & H2 & ->)|(e & H2 & ->)]];
    apply env_keys_run in H2 as [-> H2]; [|done..].
  injection H as <- <-. split; [done|]. intros l [= <-]. right.
  destruct (H1 envs eq_refl) as [Hl1 Hi1], (H2 envs' eq_refl) as [Hl2 Hi2].
  rewrite length_fmap in Hl1. split; [rewrite length_zip_with; lia|].
  intros i c Hc. destruct (Hi1 i (envListToMap (Psm.Env c))) as (e1 & He1 & Hk1).
  { by rewrite list_lookup_fmap, Hc. }
  destruct (Hi2 i e1 He1) as (e2 & He2 & Hk2). exists e2. split.
  - rewrite lookup_zip_with, Hc. simpl. by rewrite He2.
  - intros k. rewrite Hk2, Hk1. by rewrite union_assoc.
Qed.
End resolve.
End environments.

Lemma read_map {St C W A B} (fn : St -> res A) (f : A -> B) (w : world St C W) :
  faults w = [] -> (a ← read fn; mret (f a)) w = (f <$> fn (store w), w).
Proof. intros Hw. unfold mbind, M_bind. rewrite read_run by done. by destruct (fn (store w)). Qed.

(** C38: What the containers of a manifest get from the secrets and config maps
    they name, when the tables can be read: only the environments change, and a
    variable has the value of the last reference that names it, else its own,
    else that of the first object taken as a whole that has it. *)
Theorem resolved_environments {RO : RangeOrder} {X} {P : ResourcePeers X} (m m' : PodManifest)
    (w w' : world tables asked X) :
  faults w = [] ->
  (resolveSecretEnv m w = (Ok m', w') ->
   w' = w /\ m' = set_Containers m (m_Containers m') /\
   containers_resolved
     (fun name => Sec.Data <$> Sec.GetSecretByName name (m_Namespace m) (t_sec (store w)))
     ((fun r => (sr_ContainerIndex r, sr_Name r)) <$> SecretEnvFrom m)
     ((fun r => (sk_ContainerIndex r, sk_EnvName r, sk_Name r, sk_Key r)) <$> SecretEnvKeys m)
     (m_Containers m) (m_Containers m')) /\
  (resolveConfigMapEnv m w = (Ok m', w') ->
   w' = w /\ m' = set_Containers m (m_Containers m') /\
   containers_resolved
     (fun name => Cfm.Data <$> Cfm.GetConfigMapByName name (m_Namespace m) (t_cfm (store w)))
     ((fun r => (cmr_ContainerIndex r, cmr_Name r)) <$> ConfigMapEnvFrom m)
     ((fun r => (cmk_ContainerIndex r, cmk_EnvName r, cmk_Name r, cmk_Key r)) <$> ConfigMapEnvKeys m)
     (m_Containers m) (m_Containers m')).
Proof.
  intros Hw. split; intros H; apply bind_ok in H as (l & w1 & H & [= <- <-]).
  - apply (resolve_env_run _ _ _ w
      (fun name => Sec.Data <$> Sec.GetSecretByName name (m_Namespace m) (t_sec (store w)))) in H
      as [Hww H]; [|intros name; cbn beta; by rewrite (read_map _ _ w Hw)].
    split_and!; [done..|]. exact (H l eq_refl).
  - apply (resolve_env_run _ _ _ w
      (fun name => Cfm.Data <$> Cfm.GetConfigMapByName name (m_Namespace m) (t_cfm (store w)))) in H
      as [Hww H]; [|intros name; cbn beta; by rewrite (read_map _ _ w Hw)].
    split_and!; [done..|]. exact (H l eq_refl).
Qed.

(** ** Rounds of a pod

    Applying the manifest of a pod that is there removes it and starts again:
    as many rounds as there are pods, and one more, are enough. *)
Section rounds.
Context {RO : RangeOrder} {X : Type} {P : ResourcePeers X}.
#[local] Notation M := (M tables asked X).
#[local] Notation S A := (World.M tables asked X (StatusError + A)%type).
Implicit Types w : world tables asked X.

Lemma do_run {A B} (m : S A) (k : A -> step B) p w : step_bind (do m) k p w =
  match m w with
  | (Ok (inl err), w1) => (Ok (p, inl err), w1)
  | (Ok (inr a), w1) => k a p w1
  | (Err e, w1) => (Err e, w1)
  | (Panic e, w1) => (Panic e, w1)
  end.
Proof. unfold step_bind, do, mbind, M_bind. by destruct (m w) as [[[]| |] w1]. Qed.

Definition pods_of (t : tables) : gmap string Psm.PodInfo := Psm.Pods (t_psm t).
Definition pods w : gmap string Psm.PodInfo := pods_of (store w).

(** What is relied on: the services return, resolving a network adds no pod,
    and a pod that was removed has no entry ([PodService.Remove]). *)
Context (answers : forall A (c : resource_call A) s e, (answer A c s).1 <> Panic e).
Context (ResolveNetwork_pods : forall name t x,
  pods_of (answer string (ResolveNetwork name) (t, x)).2.1 ⊆ pods_of t).
Context (PodRemove_pods : forall podId t x r t' x',
  answer string (PodRemove podId) (t, x) = (Ok r, (t', x')) -> pods_of t' ⊆ delete podId (pods_of t)).

(** [m] returns, an error as a value or as one of its own. *)
Definition quits {A} (m : M A) : Prop := forall w e, (m w).1 <> Panic e.
Definition returns {A} (m : M A) : Prop := forall w, exists a w', m w = (Ok a, w').

Lemma quits_ask {A} (c : resource_call A) : quits (ask c).
Proof.
  intros w e. unfold ask. pose proof (answers A c (store w, inner w)) as H.
  destruct (answer A c _) as [r [t x]]. apply H.
Qed.
Lemma quits_read {A} (fn : tables -> res A) : (forall t e, fn t <> Panic e) -> quits (read fn).
Proof.
  intros Hfn w e. unfold read. destruct (pop_fault w) as [[?|] w']; [done|]. apply Hfn.
Qed.
Lemma quits_bind {A B} (m : M A) (f : A -> M B) :
  quits m -> (forall a, quits (f a)) -> quits (m ≫= f).
Proof.
  intros Hm Hf w e. unfold mbind, M_bind. specialize (Hm w).
  destruct (m w) as [[a|?|e'] w1]; [apply Hf|done|]. by destruct (Hm e').
Qed.
Lemma quits_ret {A} (a : A) : quits (mret a).
Proof. done. Qed.

Lemma returns_attempt {A} (m : M A) : quits m -> returns (attempt m).
Proof.
  intros Hm w. unfold attempt. specialize (Hm w). destruct (m w) as [[a|e|e] w1]; [eauto..|].
  by destruct (Hm e).
Qed.
Lemma returns_or_status {A} status text (m : M A) : quits m -> returns (or_status status text m).
Proof.
  intros Hm w. unfold or_status. destruct (returns_attempt m Hm w) as (r & w1 & H).
  erewrite M_bind_eq by exact H. destruct r; cbn; eauto.
Qed.
Lemma returns_ignore {A} (m : M A) : quits m -> returns (ignore m).
Proof.
  intros Hm w. unfold ignore. specialize (Hm w). destruct (m w) as [[a|e|e] w1]; [eauto..|].
  by destruct (Hm e).
Qed.
Lemma returns_bind {A B} (m : M A) (f : A -> M B) :
  returns m -> (forall a, returns (f a)) -> returns (m ≫= f).
Proof.
  intros Hm Hf w. destruct (Hm w) as (a & w1 & H). erewrite M_bind_eq by exact H. apply Hf.
Qed.
Lemma returns_ret {A} (a : A) : returns (mret a).
Proof. intros w. by eexists _, w. Qed.
Lemma returns_or_undo {A} (m : S A) undo : returns m -> returns undo -> returns (or_undo m undo).
Proof.
  intros Hm Hu. apply returns_bind; [done|]. intros [e|a]; [|apply returns_ret].
  apply returns_bind; [done|]. intros []. apply returns_ret.
Qed.

Definition done_step {A} (s : step A) : Prop := forall p w, exists p' r w', s p w = (Ok (p', r), w').
Lemma done_bind {A B} (m : S A) (k : A -> step B) :
  returns m -> (forall a, done_step (k a)) -> done_step (step_bind (do m) k).
Proof.
  intros Hm Hk p w. rewrite do_run. destruct (Hm w) as (r & w1 & ->). destruct r; [eauto|apply Hk].
Qed.

Lemma create_pod_done m : done_step (create_pod m).
Proof.
  apply done_bind; [apply returns_or_status, quits_ask|]. intros podId p w.
  unfold push, step_bind at 1. cbn [mret M_ret]. unfold mbind, M_bind. cbn.
  apply done_bind.
  { apply returns_or_undo; [apply returns_or_status, quits_ask|apply returns_ignore, quits_ask]. }
  intros _. apply done_bind.
  { apply returns_or_undo; [apply returns_or_status, quits_ask|apply returns_ignore, quits_ask]. }
  intros l p' w'. by eexists _, _, _.
Qed.
Lemma resolveManifestNetworks_quits m : quits (resolveManifestNetworks m).
Proof. apply quits_bind; [apply quits_ask|]. intros n. apply quits_ret. Qed.

Lemma resolveManifestNetworks_pods m w : pods (resolveManifestNetworks m w).2 ⊆ pods w.
Proof.
  unfold resolveManifestNetworks, mbind, M_bind, ask.
  pose proof (ResolveNetwork_pods (m_Namespace m) (store w) (inner w)) as H.
  by destruct (answer _ _ _) as [[s|e|e] [t x]].
Qed.

Lemma bad_request_end {A} (m : M A) w : quits m ->
  exists r, bad_request m w = (Ok r, (m w).2).
Proof.
  intros Hm. unfold bad_request, or_status, attempt, mbind, M_bind. specialize (Hm w).
  destruct (m w) as [[a|e|e] w1]; [by eexists..|]. by destruct (Hm e).
Qed.

Lemma findPod_run name namespace w r w' : findPod name namespace w = (r, w') ->
  store w' = store w /\ (forall e, r <> Panic e) /\
  forall i, r = Ok (Some i) -> exists k, pods w !! k = Some i.
Proof.
  unfold findPod, psm, read, mbind, M_bind. pose proof (pop_fault_keeps w) as (Hs & _).
  destruct (pop_fault w) as [[e|] w1]; cbn in Hs |- *; [by intros [= <- <-]|].
  intros [= <- <-]. split_and!; [done..|]. intros i [= Hi].
  apply first_match_Some in Hi as [Hi _]. apply elem_of_range_values in Hi. by rewrite Hs in Hi.
Qed.

Lemma same_template_run i m w : exists b m' w',
  same_template i m w = (Ok (b, m'), w') /\ store w' = store w.
Proof.
  unfold same_template. destruct (String.eqb _ _); [by eexists _, _, w|].
  unfold psm, attempt, read, mbind, M_bind. pose proof (pop_fault_keeps w) as (Hs & _).
  destruct (pop_fault w) as [[e|] w1]; cbn in Hs |- *; [by eexists _, _, _|].
  unfold Psm.GetPodTemplate. destruct (_ !! _); by eexists _, _, _.
Qed.

(** The replacement of a pod that is there, if applying the manifest ends on
    tables with fewer pods. *)
Lemma rollout_done apply_pod i m w p k :
  pods w !! k = Some i -> Psm.PodId i = k ->
  (forall m' w' p', (size (pods w') < size (pods w))%nat -> pods w' ⊆ pods w ->
     exists p'' r w'', apply_pod m' p' w' = (Ok (p'', r), w'')) ->
  exists p' r w', rolloutPodManifest apply_pod i m p w = (Ok (p', r), w').
Proof.
  intros Hk Hi Hgo. unfold rolloutPodManifest. rewrite do_run.
  destruct (same_template_run i m w) as (b & m' & w1 & H1 & Hs1).
  erewrite M_bind_eq by exact H1. cbn. destruct b.
  { apply done_bind.
    - apply returns_bind; [apply returns_attempt, quits_ask|]. intros r. apply returns_ret.
    - intros l p' w'. by eexists _, _, _. }
  rewrite do_run. unfold internal, or_status, attempt, mbind, M_bind, ask.
  pose proof (answers string (PodRemove (Psm.PodId i)) (store w1, inner w1)) as Hq.
  pose proof (PodRemove_pods (Psm.PodId i) (store w1) (inner w1)) as Hr.
  destruct (answer _ _ _) as [[s|e|e] [t x]]; cbn; [|by eexists _, _, _|by destruct (Hq e)].
  specialize (Hr s t x eq_refl). rewrite Hs1, Hi in Hr. fold (pods w) in Hr.
  unfold push, step_bind, mbind, M_bind. cbn.
  match goal with |- context [apply_pod m' ?p' ?w'] =>
    destruct (Hgo m' w' p') as (p2 & r & w2 & ->) end.
  - eapply Nat.le_lt_trans; [by apply map_subseteq_size|].
    rewrite map_size_delete_Some by eauto. assert (size (pods w) <> 0%nat); [|lia].
    intros H0%map_size_empty_inv. by rewrite H0, lookup_empty in Hk.
  - etrans; [exact Hr|]. apply delete_subseteq.
  - destruct r; by eexists _, _, _.
Qed.

(** C39: Applying the manifest of a pod ends: with one round more than there are
    pods it gives a result or an error and never runs out of rounds. *)
Theorem applyPodManifest_ends fuel m p w :
  keyed Psm.PodId (pods w) -> (size (pods w) < fuel)%nat ->
  exists p' r w', applyPodManifest fuel m p w = (Ok (p', r), w').
Proof.
  revert m p w. induction fuel as [|fuel IH]; intros m p w Hk Hf; [lia|].
  cbn [applyPodManifest]. rewrite do_run.
  pose proof (resolveManifestNetworks_pods m w) as Hsub.
  destruct (bad_request_end _ w (resolveManifestNetworks_quits m)) as [[e|m1] ->];
    [by eexists _, _, _|].
  set (w1 := (resolveManifestNetworks m w).2) in *. rewrite do_run.
  unfold internal, or_status, attempt, mbind at 1, M_bind at 1.
  destruct (findPod _ _ w1) as [r w2] eqn:Hfind.
  apply findPod_run in Hfind as (Hs2 & Hr & Hin).
  destruct r as [[i|]|e|e]; cbn; [|by apply create_pod_done|by eexists _, _, _|by destruct (Hr e)].
  destruct (Hin i eq_refl) as [k Hki].
  assert (pods w2 = pods w1) as Hp2 by (unfold pods; by rewrite Hs2).
  assert (Hk1 : keyed Psm.PodId (pods w1)).
  { intros k' v Hv. apply (Hk k' v). by eapply lookup_weaken. }
  eapply rollout_done; [by rewrite Hp2|by apply Hk1|].
  intros m' w' p' Hsize Hsub'. rewrite Hp2 in Hsize, Hsub'. apply IH.
  - intros k' v Hv. apply (Hk1 k' v). by eapply lookup_weaken.
  - apply map_subseteq_size in Hsub. lia.
Qed.
End rounds.
