(* ===== verification/ResourceRollback.v ===== *)
(** * A failed [Apply]

    The objects that an [Apply] has created or changed are put back when a
    later document fails: for the kinds that are one entry of a table, config
    maps, secrets and ingresses, the tables are what they were. *)

From Stdlib Require Import ZArith Lia Ascii String.
From stdpp Require Import base gmap strings list.
From S2P Require Import Prelude.
From S2P Require Psm.
From S2P Require Ssm.
From S2P Require Vsm.
From S2P Require Import ResourceDelete.
From S2P Require Import GoString.
From S2P Require Import GoSort.
From S2P Require Import GoYaml.
From S2P Require Import World.
From S2P Require Cfm.
From S2P Require Sec.
From S2P Require Ism.
From S2P Require NetworkPolicy.
From S2P Require Pvc.
From S2P Require Manifests.
From S2P Require Import PodManifest.
From S2P Require Import Resource.
From S2P Require Import ResourceApply.
From S2P Require Import ResourceTheory.
Open Scope Z_scope.

(** ** Tables of entries

    [row_stored] is the entry that a call stores; its time is the call's, so a
    table is compared without the times ([forget]). *)
Class Table (E : Type) := {
  rows : tables -> gmap string E;
  put : gmap string E -> tables -> tables;
  row_stored : string -> E -> Z -> E;
  forget : E -> E
}.

#[export] Instance configMaps : Table Cfm.ConfigMapInfo := {|
  rows t := Cfm.ConfigMap (t_cfm t);
  put m t := set_cfm t (Cfm.set_ConfigMap (t_cfm t) m);
  row_stored := Cfm.stored;
  forget e := {| Cfm.ConfigMapId := Cfm.ConfigMapId e; Cfm.Name := Cfm.Name e;
                 Cfm.Namespace := Cfm.Namespace e; Cfm.Data := Cfm.Data e; Cfm.CreatedAt := 0 |}
|}.
#[export] Instance secrets : Table Sec.SecretInfo := {|
  rows t := Sec.Secrets (t_sec t);
  put m t := set_sec t (Sec.set_Secrets (t_sec t) m);
  row_stored := Sec.stored;
  forget e := {| Sec.SecretId := Sec.SecretId e; Sec.Name := Sec.Name e;
                 Sec.Namespace := Sec.Namespace e; Sec.Type_ := Sec.Type_ e;
                 Sec.Data := Sec.Data e; Sec.CreatedAt := 0 |}
|}.
#[export] Instance ingresses : Table Ism.IngressInfo := {|
  rows t := Ism.Ingresses (t_ism t);
  put m t := set_ism t (Ism.set_Ingresses (t_ism t) m);
  row_stored := Ism.stored;
  forget e := {| Ism.IngressId := Ism.IngressId e; Ism.Name := Ism.Name e;
                 Ism.Namespace := Ism.Namespace e; Ism.Rules := Ism.Rules e;
                 Ism.TLSHosts := Ism.TLSHosts e; Ism.CreatedAt := 0 |}
|}.

(** The tables without the creation times. *)
Definition settled (t : tables) : tables :=
  put (forget <$> rows (E := Cfm.ConfigMapInfo) t)
    (put (forget <$> rows (E := Sec.SecretInfo) t)
       (put (forget <$> rows (E := Ism.IngressInfo) t) t)).

(** An entry as the table's own calls store it. *)
Definition normal_row {E} `{Table E} (k : string) (e : E) : Prop :=
  forget (row_stored k e 0) = forget e.
Definition normal_rows {E} `{Table E} (m : gmap string E) : Prop := map_Forall normal_row m.
Definition unused {E} `{Table E} (l : list string) (m : gmap string E) : Prop :=
  Forall (fun id => m !! id = None) l.

Record tables_ok (fresh : list string) (t : tables) : Prop := {
  ok_cfm : normal_rows (rows (E := Cfm.ConfigMapInfo) t);
  ok_sec : normal_rows (rows (E := Sec.SecretInfo) t);
  ok_ism : normal_rows (rows (E := Ism.IngressInfo) t);
  fresh_cfm : unused fresh (rows (E := Cfm.ConfigMapInfo) t);
  fresh_sec : unused fresh (rows (E := Sec.SecretInfo) t);
  fresh_ism : unused fresh (rows (E := Ism.IngressInfo) t)
}.

(** What the three tables have in common. *)
Class TableLaws (E : Type) `{Table E} := {
  rows_put m t : rows (put m t) = m;
  put_rows t : put (rows t) t = t;
  put_put m m' t : put m (put m' t) = put m t;
  settled_put m t : settled (put m t) = put (forget <$> m) (settled t);
  rows_settled t : rows (settled t) = forget <$> rows t;
  stored_normal k e n : normal_row k (row_stored k e n);
  forget_stored k e n : forget (row_stored k e n) = forget (row_stored k e 0);
  put_ok fresh m t : tables_ok fresh t -> normal_rows m -> unused fresh m -> tables_ok fresh (put m t);
  get_ok fresh t : tables_ok fresh t -> normal_rows (rows t) /\ unused fresh (rows t)
}.

Lemma in_namespace_twice n : Cfm.in_namespace (Cfm.in_namespace n) = Cfm.in_namespace n.
Proof. unfold Cfm.in_namespace. destruct (String.eqb_spec n ""); [done|]. by apply String.eqb_neq in n0 as ->. Qed.

#[export] Instance configMaps_laws : TableLaws Cfm.ConfigMapInfo.
Proof.
  split; try done; try (intros; by destruct t as [? ? ? [] ? ?]).
  - intros k e n. unfold normal_row. cbn. unfold Cfm.stored. cbn. by rewrite in_namespace_twice.
  - intros fresh m t [] ? ?. by split.
  - by intros fresh t [].
Qed.
#[export] Instance secrets_laws : TableLaws Sec.SecretInfo.
Proof.
  split; try done; try (intros; by destruct t as [? ? ? ? [] ?]).
  - intros k e n. unfold normal_row. cbn. unfold Sec.stored. cbn.
    change Sec.in_namespace with Cfm.in_namespace. rewrite in_namespace_twice.
    by destruct (String.eqb_spec (Sec.Type_ e) ""); [|apply String.eqb_neq in n0 as ->].
  - intros fresh m t [] ? ?. by split.
  - by intros fresh t [].
Qed.
#[export] Instance ingresses_laws : TableLaws Ism.IngressInfo.
Proof.
  split; try done; try (intros; by destruct t as [? ? [] ? ? ?]).
  - intros fresh m t [] ? ?. by split.
  - by intros fresh t [].
Qed.

(** ** Undoing one call *)
Section undo.
Context {RO : RangeOrder} {X : Type} {P : ResourcePeers X}.
#[local] Notation M := (M tables asked X).
#[local] Notation S A := (World.M tables asked X (StatusError + A)%type).
Implicit Types w : world tables asked X.

(** Run on the tables [t], [undo] leaves [t0]. *)
Definition restores (undo : M unit) (t0 t : tables) : Prop :=
  forall w, faults w = [] -> settled (store w) = settled t ->
    exists w', undo w = (Ok tt, w') /\ faults w' = [] /\ settled (store w') = settled t0.

Definition stores {E} `{Table E} (m : M unit) (k : string) (e : E) : Prop :=
  forall w, faults w = [] -> exists n w',
    m w = (Ok tt, w') /\ faults w' = [] /\ ids w' = ids w /\
    store w' = put (<[k := row_stored k e n]> (rows (store w))) (store w).
Definition removes (E : Type) `{Table E} (m : M unit) (k : string) : Prop :=
  forall w, faults w = [] -> is_Some (rows (E := E) (store w) !! k) -> exists w',
    m w = (Ok tt, w') /\ faults w' = [] /\
    store w' = put (delete k (rows (E := E) (store w))) (store w).

Lemma tick_run w : exists n w', now w = (Ok n, w') /\ store w' = store w /\
  faults w' = faults w /\ ids w' = ids w.
Proof. unfold now. destruct (times w); eauto 10. Qed.

Ltac run_store :=
  intros w Hw; unfold timed; destruct (tick_run w) as (n & w1 & H1 & Hs & Hf & Hi);
  exists n; erewrite M_bind_eq by exact H1; unfold on_cfm, on_sec, on_ism;
  rewrite ?txn_late_run, txn_run by congruence; cbn; rewrite Hs;
  eexists; split; [reflexivity|]; cbn; by rewrite Hf.
Lemma stores_cfm k e : stores (timed (fun t => on_cfm (Cfm.StoreConfigMap k e t))) k e.
Proof. run_store. Qed.
Lemma stores_sec k e : stores (timed (fun t => on_sec (Sec.StoreSecret k e t))) k e.
Proof. run_store. Qed.
Lemma stores_ism k e : stores (timed (fun t => on_ism (Ism.StoreIngress k e t))) k e.
Proof. run_store. Qed.

Ltac run_remove :=
  intros w Hw [e He]; unfold on_cfm, on_sec, on_ism; cbn in He;
  rewrite ?txn_late_run, txn_run by done; cbn;
  unfold Cfm.RemoveConfigMap, Sec.RemoveSecret, Ism.RemoveIngress, remove_entry; rewrite He;
  eexists; by split.
Lemma removes_cfm k : removes Cfm.ConfigMapInfo (on_cfm (Cfm.RemoveConfigMap k)) k.
Proof. run_remove. Qed.
Lemma removes_sec k : removes Sec.SecretInfo (on_sec (Sec.RemoveSecret k)) k.
Proof. run_remove. Qed.
Lemma removes_ism k : removes Ism.IngressInfo (on_ism (Ism.RemoveIngress k)) k.
Proof. run_remove. Qed.

Lemma ignore_ok {A} (m : M A) w a w' : m w = (Ok a, w') -> ignore m w = (Ok tt, w').
Proof. intros H. unfold ignore. by rewrite H. Qed.

Section table.
Context {E : Type} `{TableLaws E}.
Implicit Types e d : E.

Lemma settled_rows t t' : settled t = settled t' ->
  forget <$> rows (E := E) t = forget <$> rows t'.
Proof. intros Ht. by rewrite <- !rows_settled, Ht. Qed.

(** A changed entry is stored as it was. *)
Lemma restores_change m k e d t :
  rows t !! k = Some e -> normal_row k e -> stores m k e ->
  restores (ignore m) t (put (<[k := d]> (rows t)) t).
Proof.
  intros Hk Hn Hm w Hw Hs. destruct (Hm w Hw) as (n & w' & Hr & Hf & _ & Hst).
  exists w'. split_and!; [by eapply ignore_ok|done|].
  rewrite Hst, settled_put, Hs, settled_put, put_put, fmap_insert, (settled_rows _ _ Hs).
  rewrite rows_put, fmap_insert, insert_insert_eq, forget_stored, Hn, insert_id;
    [|by rewrite lookup_fmap, Hk].
  rewrite <- rows_settled. apply put_rows.
Qed.

(** A new entry is removed. *)
Lemma restores_new m k d t :
  rows (E := E) t !! k = None -> removes E m k ->
  restores (ignore m) t (put (<[k := d]> (rows t)) t).
Proof.
  intros Hk Hm w Hw Hs. pose proof (settled_rows _ _ Hs) as Hrows.
  rewrite rows_put, fmap_insert in Hrows.
  destruct (Hm w Hw) as (w' & Hr & Hf & Hst).
  { destruct (rows (store w) !! k) eqn:Hx; [eauto|]. apply (f_equal (.!! k)) in Hrows.
    by rewrite lookup_fmap, Hx, lookup_insert_eq in Hrows. }
  exists w'. split_and!; [by eapply ignore_ok|done|].
  rewrite Hst, settled_put, Hs, settled_put, put_put, fmap_delete, Hrows.
  rewrite delete_insert_id by by rewrite lookup_fmap, Hk. rewrite <- rows_settled. apply put_rows.
Qed.
End table.

(** ** One document *)

(** Room for [n] more documents: an identifier for each, used by no entry. *)
Record ready (n : nat) (w : world tables asked X) : Prop := {
  no_faults : faults w = [];
  enough_ids : (n <= length (ids w))%nat;
  different_ids : NoDup (ids w);
  ready_tables : tables_ok (ids w) (store w)
}.

(** [m] does its part of a document: what it gives undoes what it did, and an
    error has left the tables alone. *)
Definition reversible {A} (m : S A) (undo : A -> M unit) : Prop :=
  forall n w, ready (Datatypes.S n) w -> match m w with
  | (Ok (inr a), w') => ready n w' /\ restores (undo a) (store w) (store w')
  | (Ok (inl _), w') => ready n w' /\ store w' = store w
  | _ => True
  end.

Lemma ready_less n w : ready (Datatypes.S n) w -> ready n w.
Proof. intros []. split; [done|lia|done..]. Qed.

Lemma restores_nothing t : restores nothing t t.
Proof. intros w Hw Ht. by exists w. Qed.

Lemma take_id_run n w : ready (Datatypes.S n) w -> exists id w',
  new_id w = (Ok id, w') /\ store w' = store w /\ faults w' = [] /\ ids w = id :: ids w' /\
  (n <= length (ids w'))%nat.
Proof.
  intros [Hf Hn _ _]. unfold new_id. destruct (ids w) as [|i l] eqn:E; simpl in Hn; [lia|].
  eexists i, _. split_and!; [reflexivity|done|done|done|]. simpl. lia.
Qed.

Section table.
Context {E : Type} `{TableLaws E}.
Implicit Types e d : E.

(** A change of an entry that is there keeps the tables in order. *)
Lemma ready_change n w w' k e d j :
  ready (Datatypes.S n) w -> rows (store w) !! k = Some e ->
  faults w' = [] -> ids w' = ids w ->
  store w' = put (<[k := row_stored k d j]> (rows (store w))) (store w) -> ready n w'.
Proof.
  intros [Hf Hn Hd Ht] Hk Hf' Hi Hs. pose proof (get_ok _ _ Ht) as [Hno Hun].
  split; [done|rewrite Hi; lia|by rewrite Hi|]. rewrite Hs, Hi. apply put_ok; [done|..].
  - apply map_Forall_insert_2; [apply stored_normal|done].
  - eapply Forall_impl; [exact Hun|]. intros i Hne. simpl in Hne.
    rewrite lookup_insert_ne by congruence. done.
Qed.

Lemma ready_new n w w1 w' id d j :
  ready (Datatypes.S n) w -> ids w = id :: ids w1 -> (n <= length (ids w1))%nat ->
  faults w' = [] -> ids w' = ids w1 ->
  store w' = put (<[id := row_stored id d j]> (rows (store w))) (store w) -> ready n w'.
Proof.
  intros [Hf Hn Hd Ht] Hi Hl Hf' Hi' Hs. rewrite Hi in Hd, Ht. apply NoDup_cons in Hd as [Hid Hd].
  pose proof (get_ok _ _ Ht) as [Hno Hun]. apply Forall_cons in Hun as [_ Hun].
  split; [done|by rewrite Hi'|by rewrite Hi'|]. rewrite Hs, Hi'. apply put_ok.
  - destruct Ht. split; try done; by eapply Forall_cons.
  - apply map_Forall_insert_2; [apply stored_normal|done].
  - apply Forall_forall. intros i Hin. rewrite lookup_insert_ne by (intros ->; done).
    by apply (proj1 (Forall_forall _ _) Hun).
Qed.
End table.
(** *** The common shape of the kinds *)
Section table.
Context {E : Type} `{TableLaws E}.
Implicit Types e d : E.

Lemma internal_ok {A} what (m : M A) w a w' :
  m w = (Ok a, w') -> internal what m w = (Ok (inr a), w').
Proof. intros Hm. unfold internal, or_status, attempt, mbind, M_bind. by rewrite Hm. Qed.

Lemma bad_yaml_run {A} (r : res A) w : bad_yaml r w =
  match r with
  | Ok a => (Ok (inr a), w)
  | Err e => (Ok (inl {| Status := StatusBadRequest;
                         Message := invalidYAMLErrorMessage (Some e) |}), w)
  | Panic e => (Panic e, w)
  end.
Proof. by destruct r. Qed.

(** What changes an entry and what makes one, around the call of the table. *)
Lemma reversible_change {A} n w k e d what (m m' : M unit) (a : A) (undo : A -> M unit) :
  ready (Datatypes.S n) w -> rows (store w) !! k = Some e -> stores m k d -> stores m' k e ->
  undo a = ignore m' ->
  match (sbind (internal what m) (fun _ => sret a)) w with
  | (Ok (inr a), w') => ready n w' /\ restores (undo a) (store w) (store w')
  | (Ok (inl _), w') => ready n w' /\ store w' = store w
  | _ => True
  end.
Proof.
  intros Hw Hk Hm Hm' Hu. pose proof Hw as [Hf _ _ Ht].
  destruct (Hm w Hf) as (j & w' & Hr & Hf' & Hi & Hs). unfold sbind.
  erewrite M_bind_eq by by apply internal_ok. cbn. split; [by eapply ready_change|].
  rewrite Hu, Hs. eapply restores_change; [done| |done].
  apply get_ok in Ht as [Hn _]. by apply Hn.
Qed.

Lemma reversible_new {A} n w what (m : string -> M unit) (m' : string -> M unit) (d : string -> E)
    (a : string -> A) (undo : A -> M unit) :
  ready (Datatypes.S n) w -> (forall id, stores (m id) id (d id)) ->
  (forall id, removes E (m' id) id) -> (forall id, undo (a id) = ignore (m' id)) ->
  match (id ← new_id; sbind (internal what (m id)) (fun _ => sret (a id))) w with
  | (Ok (inr a), w') => ready n w' /\ restores (undo a) (store w) (store w')
  | (Ok (inl _), w') => ready n w' /\ store w' = store w
  | _ => True
  end.
Proof.
  intros Hw Hm Hm' Hu. destruct (take_id_run n w Hw) as (id & w1 & H1 & Hs1 & Hf1 & Hi & Hl).
  erewrite M_bind_eq by exact H1.
  destruct (Hm id w1 Hf1) as (j & w' & Hr & Hf' & Hi' & Hs). unfold sbind.
  erewrite M_bind_eq by by apply internal_ok. cbn. rewrite Hs1 in Hs.
  split; [by eapply ready_new|]. rewrite Hu, Hs. apply restores_new; [|done].
  destruct Hw as [_ _ _ Ht]. apply get_ok in Ht as [_ Hun]. rewrite Hi in Hun.
  by apply Forall_cons in Hun as [? _].
Qed.
End table.

Lemma attempt_read_run {A} (fn : tables -> res A) w : faults w = [] ->
  attempt (read fn) w = match fn (store w) with
                        | Ok a => (Ok (Ok a), w) | Err e => (Ok (Err e), w)
                        | Panic e => (Panic e, w)
                        end.
Proof. intros Hw. unfold attempt. rewrite read_run by done. by destruct (fn (store w)). Qed.

Lemma reversible_ret {A} n w (a : A) (undo : A -> M unit) :
  ready (Datatypes.S n) w -> undo a = nothing ->
  match (sret a : S A) w with
  | (Ok (inr a), w') => ready n w' /\ restores (undo a) (store w) (store w')
  | (Ok (inl _), w') => ready n w' /\ store w' = store w
  | _ => True
  end.
Proof. intros Hw Hu. cbn. rewrite Hu. split; [by apply ready_less|apply restores_nothing]. Qed.

Lemma sbind_yaml_run {A B} (r : res A) (f : A -> S B) w :
  (exists a, r = Ok a /\ sbind (bad_yaml r) f w = f a w) \/
  (exists e, sbind (bad_yaml r) f w = (Ok (inl e), w)) \/
  (exists e, sbind (bad_yaml r) f w = (Panic e, w)).
Proof. unfold sbind, mbind, M_bind. rewrite bad_yaml_run. destruct r; eauto. Qed.

Section kinds.
Context {Y : Yaml} {TC : YamlType Manifests.ConfigMap.configMapManifest}
  {TS : YamlType Manifests.Secret.secretManifest} {TI : YamlType Manifests.Ingress.ingressManifest}.

Lemma applySecret_reversible rawBytes : reversible (applySecret rawBytes) snd.
Proof.
  intros n w Hw. pose proof Hw as [Hf _ _ Ht]. unfold applySecret.
  match goal with |- context [sbind (bad_yaml ?r) ?f w] =>
    destruct (sbind_yaml_run r f w) as [(manifest & _ & ->)|[[e ->]|[e ->]]] end;
    [|by split; [apply ready_less|]|done].
  unfold mbind at 1, M_bind at 1. rewrite attempt_read_run by done.
  unfold Sec.GetSecretByName. destruct (range_find _ _) as [[k existing]|] eqn:E.
  - apply range_find_Some in E as [Hk _].
    assert (Sec.SecretId existing = k) as <-.
    { destruct Ht as [_ Hn _ _ _ _]. by injection (Hn _ _ Hk). }
    destruct (secretInfoEqual _ _); [by apply reversible_ret|].
    eapply (reversible_change (E := Sec.SecretInfo)); [done|exact Hk|apply stores_sec|apply stores_sec|done].
  - eapply (reversible_new (E := Sec.SecretInfo) n w _ _ (fun id => on_sec (Sec.RemoveSecret id)));
      [done|intros; apply stores_sec|intros; apply removes_sec|done].
Qed.

Lemma applyConfigMap_reversible rawBytes :
  reversible (applyConfigMap rawBytes) (fun x => x.1.2).
Proof.
  intros n w Hw. pose proof Hw as [Hf _ _ Ht]. unfold applyConfigMap.
  match goal with |- context [sbind (bad_yaml ?r) ?f w] =>
    destruct (sbind_yaml_run r f w) as [(manifest & _ & ->)|[[e ->]|[e ->]]] end;
    [|by split; [apply ready_less|]|done].
  unfold mbind at 1, M_bind at 1. rewrite attempt_read_run by done.
  unfold Cfm.GetConfigMapByName. destruct (range_find _ _) as [[k existing]|] eqn:E.
  - apply range_find_Some in E as [Hk _].
    assert (Cfm.ConfigMapId existing = k) as <-.
    { destruct Ht as [Hn _ _ _ _ _]. by injection (Hn _ _ Hk). }
    destruct (configMapInfoEqual _ _); [by apply reversible_ret|].
    eapply (reversible_change (E := Cfm.ConfigMapInfo)); [done|exact Hk|apply stores_cfm|apply stores_cfm|done].
  - eapply (reversible_new (E := Cfm.ConfigMapInfo) n w _ _ (fun id => on_cfm (Cfm.RemoveConfigMap id)));
      [done|intros; apply stores_cfm|intros; apply removes_cfm|done].
Qed.
(** What is relied on: making the certificates of hosts leaves the tables. *)
Context (EnsureHosts_frame : forall hosts t x, (answer unit (EnsureHosts hosts) (t, x)).2.1 = t).

Lemma ensure_hosts_run hosts n w : ready n w -> match ensure_hosts hosts w with
  | (Ok _, w') => ready n w' /\ store w' = store w
  | _ => True
  end.
Proof.
  intros Hw. destruct hosts as [|h hosts]; [done|]. unfold ensure_hosts, internal, or_status.
  unfold mbind, M_bind, attempt, ask. pose proof (EnsureHosts_frame (h :: hosts) (store w) (inner w)) as H.
  destruct (answer unit _ _) as [[u|e|e] [t x]]; simpl in H; subst t; cbn; [..|done];
    (split; [by destruct Hw; split|done]).
Qed.

Lemma find_internal_run {A} what (fn : tables -> res A) w :
  faults w = [] -> (forall t e, fn t <> Err e /\ fn t <> Panic e) ->
  exists a, fn (store w) = Ok a /\ internal what (read fn) w = (Ok (inr a), w).
Proof.
  intros Hw Hfn. destruct (fn (store w)) as [a|e|e] eqn:E; [|by destruct (Hfn (store w) e)..].
  exists a. split; [done|]. apply internal_ok. by rewrite read_run, E.
Qed.

Lemma applyIngress_reversible rawBytes : reversible (applyIngress rawBytes) snd.
Proof.
  intros n w Hw. pose proof Hw as [Hf _ _ Ht]. unfold applyIngress.
  match goal with |- context [sbind (bad_yaml ?r) ?f w] =>
    destruct (sbind_yaml_run r f w) as [(manifest & _ & ->)|[[e ->]|[e ->]]] end;
    [|by split; [apply ready_less|]|done].
  cbv zeta. set (desired := {| Ism.IngressId := ""; |}).
  unfold sbind at 1. erewrite M_bind_eq.
  2:{ apply internal_ok. unfold findIngress. erewrite M_bind_eq; [reflexivity|].
      by rewrite read_run. }
  cbn [Ism.GetIngressList]. destruct (first_match _ _) as [existing|] eqn:E.
  - apply first_match_Some in E as [[k Hk]%elem_of_range_values _].
    assert (Ism.IngressId existing = k) as <-.
    { destruct Ht as [_ _ Hn _ _ _]. by injection (Hn _ _ Hk). }
    destruct (ingressInfoEqual _ _); [by apply reversible_ret|].
    unfold sbind at 1. unfold mbind at 1, M_bind at 1.
    pose proof (ensure_hosts_run (Ism.TLSHosts desired) _ w Hw) as Hh.
    destruct (ensure_hosts _ w) as [[[err|u]|err|err] w1]; [|..|done|done].
    { destruct Hh. by split; [apply ready_less|]. }
    destruct Hh as [Hw1 Hs1]. rewrite <- Hs1 in Hk |- *.
    eapply (reversible_change (E := Ism.IngressInfo));
      [done|exact Hk|apply stores_ism|apply stores_ism|done].
  - unfold sbind at 1. unfold mbind at 1, M_bind at 1.
    pose proof (ensure_hosts_run (Ism.TLSHosts desired) _ w Hw) as Hh.
    destruct (ensure_hosts _ w) as [[[err|u]|err|err] w1]; [|..|done|done].
    { destruct Hh. by split; [apply ready_less|]. }
    destruct Hh as [Hw1 Hs1]. rewrite <- Hs1.
    eapply (reversible_new (E := Ism.IngressInfo) n w1 _ _ (fun id => on_ism (Ism.RemoveIngress id)));
      [done|intros; apply stores_ism|intros; apply removes_ism|done].
Qed.
End kinds.

(** ** A list of documents *)
Definition undoable (t0 : tables) (n : nat) (p : progress) w : Prop :=
  ready n w /\ restores (run_undos (rev (p_undo p))) t0 (store w).

Lemma restores_push u l t0 t1 t :
  restores u t1 t -> restores (run_undos (rev l)) t0 t1 ->
  restores (run_undos (rev (l ++ [u]))) t0 t.
Proof.
  intros Hu Hl w Hw Ht. rewrite rev_unit. cbn [run_undos].
  destruct (Hu w Hw Ht) as (w1 & H1 & Hf1 & Hs1).
  destruct (Hl w1 Hf1 Hs1) as (w2 & H2 & Hf2 & Hs2). exists w2.
  split; [|done]. by erewrite M_bind_eq by exact H1.
Qed.

Lemma undoable_stay t0 n p p' w w' :
  undoable t0 n p w -> p_undo p' = p_undo p -> ready n w' -> store w' = store w ->
  undoable t0 n p' w'.
Proof. intros [_ Hu] Hp Hw Hs. split; [done|]. by rewrite Hp, Hs. Qed.

Definition backed {A} (s : step A) : Prop := forall t0 n p w,
  undoable t0 (Datatypes.S n) p w -> match s p w with
  | (Ok (p', _), w') => undoable t0 n p' w'
  | _ => True
  end.

Lemma backed_push {A B} (m : S A) (undo : A -> M unit) (k : A -> step B) :
  reversible m undo ->
  (forall a p w, exists p' r, k a p w = (Ok (p', r), w) /\ p_undo p' = p_undo p ++ [undo a]) ->
  backed (step_bind (do m) k).
Proof.
  intros Hm Hk t0 n p w [Hw Hu]. unfold step_bind, do. specialize (Hm n w Hw).
  unfold mbind, M_bind. destruct (m w) as [[[err|a]|e|e] w1]; [|..|done|done]; cbn.
  - destruct Hm as [Hr Hs]. split; [done|]. by rewrite Hs.
  - destruct Hm as [Hr Hs]. destruct (Hk a p w1) as (p' & r & -> & Hp). split; [done|].
    rewrite Hp. by eapply restores_push.
Qed.

Lemma backed_one_entry {A} (m : S (A * M unit)) (e : A -> entry) :
  reversible m snd -> backed (one_entry m e).
Proof. intros Hm. eapply backed_push; [exact Hm|]. intros [a u] p w. by eexists _, _. Qed.

Lemma backed_fail {A} status message : backed (do (sfail status message : S A)).
Proof. intros t0 n p w [Hw Hu]. cbn. split; [by apply ready_less|done]. Qed.
Section documents.
Context {Y : Yaml} {TH : YamlType Header} {TN : YamlType namespaceManifest}
  {TC : YamlType Manifests.ConfigMap.configMapManifest}
  {TS : YamlType Manifests.Secret.secretManifest}
  {TV : YamlType Manifests.Service.serviceManifest}
  {TI : YamlType Manifests.Ingress.ingressManifest}
  {TW : YamlType NetworkPolicy.k8sManifest} {TPV : YamlType Pvc.pvcManifest}
  {TP : YamlType podManifest} {TR : YamlType replicaSetManifest}.
Context (EnsureHosts_frame : forall hosts t x, (answer unit (EnsureHosts hosts) (t, x)).2.1 = t).

(** The kinds whose objects other services keep, or several tables. *)
Definition other_kinds : list string :=
  ["Namespace"; "Service"; "NetworkPolicy"; "PersistentVolumeClaim"; "Pod"; "ReplicaSet";
   "Deployment"].
Definition one_table (raw : document) : Prop := forall rawBytes header,
  Marshal raw = Ok rawBytes -> decodeHeader rawBytes = Ok header -> h_Kind header ∉ other_kinds.

Lemma other_kind kind s : kind ∉ other_kinds -> bool_decide (s ∈ other_kinds) = true ->
  String.eqb kind s = false.
Proof. intros Hk Hs%bool_decide_eq_true. apply String.eqb_neq. by intros ->. Qed.

Lemma backed_kind fuel kind rawBytes : kind ∉ other_kinds -> backed (apply_kind fuel kind rawBytes).
Proof.
  intros Hk. unfold apply_kind.
  rewrite (other_kind kind "Namespace"), (other_kind kind "Service"),
    (other_kind kind "NetworkPolicy"), (other_kind kind "PersistentVolumeClaim"),
    (other_kind kind "Pod"), (other_kind kind "ReplicaSet"), (other_kind kind "Deployment")
    by done. cbn [orb].
  destruct (String.eqb kind "Ingress"); [by apply backed_one_entry, applyIngress_reversible|].
  destruct (String.eqb kind "ConfigMap").
  { eapply backed_push; [apply applyConfigMap_reversible|]. intros [[a u] l] p w. by eexists _, _. }
  destruct (String.eqb kind "Secret"); [by apply backed_one_entry, applySecret_reversible|].
  apply backed_fail.
Qed.

Lemma backed_document fuel raw : one_table raw -> backed (apply_document fuel raw).
Proof.
  intros Hraw t0 n p w [Hw Hu]. unfold apply_document. rewrite do_run, bad_yaml_run.
  destruct (Marshal raw) as [rawBytes|e|e] eqn:Em; [|by split; [apply ready_less|]|done].
  rewrite do_run. unfold bad_request, or_status, attempt, mbind, M_bind.
  destruct (decodeHeader rawBytes) as [header|e|e] eqn:Eh; cbn;
    [|by split; [apply ready_less|]|done].
  by apply (backed_kind fuel _ _ (Hraw _ _ Em Eh) t0).
Qed.

Lemma documents_undoable fuel docs end_error t0 p w n :
  Forall one_table docs -> undoable t0 (length docs + n) p w ->
  match apply_documents fuel docs end_error p w with
  | (Ok (p', _), w') => undoable t0 n p' w'
  | _ => True
  end.
Proof.
  revert p w. induction docs as [|raw docs IH]; intros p w Hd Hw; [by destruct end_error|].
  apply Forall_cons in Hd as [Hraw Hd]. cbn [length Nat.add] in Hw.
  destruct raw as [|x raw]; cbn [apply_documents].
  { apply IH; [done|]. destruct Hw as [Hw Hu]. split; [by apply ready_less|done]. }
  pose proof (backed_document fuel (x :: raw) Hraw t0 _ p w Hw) as H1.
  unfold step_bind, mbind, M_bind.
  destruct (apply_document fuel _ p w) as [[[p1 [err|[]]]|e|e] w1]; [|by apply IH|done..].
  destruct H1 as [H1 H2]. split; [|done]. clear -H1. induction (length docs); [done|].
  cbn in H1. apply IHn0. by apply ready_less.
Qed.

(** C8: When [Apply] fails on config maps, secrets and ingresses, what the documents
    before the failing one have created is removed and what they have changed is
    as it was: the tables are the same up to the times of creation, if they can be read
    and written throughout ([ready]). *)
Theorem failed_Apply_rolls_back fuel body w err w' :
  Forall one_table (Decode body).1 -> ready (length (Decode body).1) w ->
  Apply fuel body w = (Ok (inl err), w') ->
  settled (store w') = settled (store w).
Proof.
  unfold Apply. destruct (Decode body) as [docs end_error]. cbn [fst]. intros Hd Hw H.
  apply bind_ok in H as ([p r] & w1 & H1 & H).
  pose proof (documents_undoable fuel docs end_error (store w) {| p_result := no_result; p_undo := [] |}
                w 0 Hd) as Hu.
  rewrite Nat.add_0_r, H1 in Hu. destruct Hu as [Hr Hu]; [split; [done|apply restores_nothing]|].
  destruct r as [e|u]; [|done]. destruct (Hu w1) as (w2 & Hrun & _ & Hs); [by destruct Hr|done|].
  apply bind_ok in H as (v & w3 & H3 & [= <- <-]). rewrite Hrun in H3. by injection H3 as <- <-.
Qed.
End documents.
End undo.

(** * Applying and deleting manifests: concrete runs

    A small text format in place of YAML (a document is the line of its kind),
    services that answer nothing, and the theorems at concrete inputs. *)

(** ** Environments *)
Module EnvDemo.
Definition env : gmap string string := <["PORT" := "80"]> (<["HOST" := "a=b"]> ∅).

Example environment_round_trip_witness : envListToMap (envMapToList env) = env.
Proof.
  apply environment_round_trip. intros k v Hv. unfold env in Hv.
  apply lookup_insert_Some in Hv as [[<- _]|[_ Hv]]; [by split|].
  apply lookup_insert_Some in Hv as [[<- _]|[_ Hv]]; [by split|].
  by rewrite lookup_empty in Hv.
Defined.
End EnvDemo.

(** ** A pod that takes a variable from a secret *)
Module ApplyDemo.

#[local] Instance no_peers : ResourcePeers unit := fun A c w =>
  match c in resource_call A return res A * (tables * unit) with
  | EnsureHosts _ => (Ok tt, w)
  | _ => (Err "not available", w)
  end.

Definition pass : Sec.SecretInfo :=
  {| Sec.SecretId := "s1"; Sec.Name := "db"; Sec.Namespace := "default";
     Sec.Type_ := Sec.SecretTypeOpaque;
     Sec.Data := <["password" := "hunter2"]> (<["USER" := "root"]> ∅); Sec.CreatedAt := 5 |}.
Definition settings : Cfm.ConfigMapInfo :=
  {| Cfm.ConfigMapId := "c1"; Cfm.Name := "settings"; Cfm.Namespace := "default";
     Cfm.Data := <["mode" := "slow"]> ∅; Cfm.CreatedAt := 7 |}.
Definition before : tables :=
  {| t_psm := Psm.init; t_ssm := Ssm.init; t_ism := Ism.init;
     t_cfm := Cfm.set_ConfigMap Cfm.init (<["c1" := settings]> ∅);
     t_sec := Sec.set_Secrets Sec.init (<["s1" := pass]> ∅); t_vsm := Vsm.init |}.
Definition begin : world tables asked unit :=
  {| store := before; faults := []; times := [100; 101; 102]; ids := ["i1"; "i2"; "i3"; "i4"];
     trace := []; inner := tt |}.

Definition web : Psm.ContainerTemplateSpec :=
  {| Psm.ct_Name := "web"; Psm.Image := "web:1"; Psm.ct_Command := []; Psm.Port := [];
     Psm.Mount := []; Psm.Env := ["USER=guest"; "MODE=fast"]; Psm.CapAdd := []; Psm.CapDrop := [];
     Psm.ct_SecurityProfile := ""; Psm.Network := ""; Psm.ct_Tty := false |}.
Definition pod : PodManifest :=
  {| Kind := "Pod"; m_Name := "web"; m_Namespace := "default"; m_Labels := ∅; m_Annotations := ∅;
     m_Containers := [web]; ConfigMapEnvFrom := []; ConfigMapEnvKeys := [];
     SecretEnvFrom := [{| sr_ContainerIndex := 0; sr_Name := "db" |}];
     SecretEnvKeys := [{| sk_ContainerIndex := 0; sk_EnvName := "PASS"; sk_Name := "db";
                          sk_Key := "password" |}];
     PVCMounts := []; m_Rootless := false; m_Replicas := 1; m_Selector := ∅ |}.
Definition resolved : PodManifest :=
  set_Containers pod [set_Env web ["MODE=fast"; "PASS=hunter2"; "USER=guest"; "password=hunter2"]].

Lemma pod_resolved : resolveSecretEnv pod begin = (Ok resolved, begin).
Proof. vm_compute. reflexivity. Qed.

(** The container's own [USER] stays, [PASS] is the entry of the secret. *)
Example resolved_environments_witness :
  containers_resolved
    (fun name => Sec.Data <$> Sec.GetSecretByName name (m_Namespace pod) (t_sec before))
    [(0, "db")] [(0, "PASS", "db", "password")] (m_Containers pod) (m_Containers resolved).
Proof. exact (proj2 (proj2 (proj1 (resolved_environments pod resolved begin begin eq_refl) pod_resolved))). Defined.

(** ** Three documents, the last of a kind that there is not *)

Fixpoint lines (s : string) (line : string) : list string :=
  match s with
  | EmptyString => [line]
  | String c s => if Ascii.eqb c ";" then line :: lines s "" else lines s (line +:+ String c "")
  end.
#[local] Instance text : Yaml := {|
  Decode body := ((fun kind => [("kind", AString kind)]) <$> lines body "", None);
  Marshal raw := Ok (raw_kind raw)
|}.
#[local] Instance header : YamlType Header := fun kind =>
  Ok {| APIVersion := "v1"; h_Kind := kind; h_Name := ""; h_Namespace := "" |}.
#[local] Instance configmap : YamlType Manifests.ConfigMap.configMapManifest := fun _ =>
  Ok {| Manifests.ConfigMap.meta_Name := "settings"; Manifests.ConfigMap.meta_Namespace := "";
        Manifests.ConfigMap.m_Data := <["mode" := "fast"]> ∅;
        Manifests.ConfigMap.m_BinaryData := ∅; Manifests.ConfigMap.m_Immutable := None |}.
#[local] Instance secret : YamlType Manifests.Secret.secretManifest := fun _ =>
  Ok {| Manifests.Secret.meta_Name := "key"; Manifests.Secret.meta_Namespace := "";
        Manifests.Secret.m_Type := ""; Manifests.Secret.m_Data := ∅;
        Manifests.Secret.m_StringData := <["k" := "v"]> ∅ |}.
#[local] Instance no_type {A} : YamlType A | 100 := fun _ => Err "not supported".

Definition body : string := "ConfigMap;Secret;Widget".
Definition after : world tables asked unit := (Apply 1 body begin).2.

Lemma apply_fails :
  (Apply 1 body begin).1 = Ok (inl {| Status := 400; Message := "unsupported kind: Widget" |}).
Proof. vm_compute. reflexivity. Qed.

(** The config map was changed and the secret made: both are undone; only the
    creation time of the config map shows it. *)
Example restored_time :
  Cfm.CreatedAt <$> Cfm.ConfigMap (t_cfm (store after)) !! "c1" = Some 102.
Proof. vm_compute. reflexivity. Qed.

Lemma begin_ready : ready 3 begin.
Proof.
  split; [done|vm_compute; lia|apply (bool_decide_unpack _); exact I|].
  assert (forall id, id ∈ ids begin -> id <> "c1" /\ id <> "s1") as Hids.
  { intros id Hid. cbn in Hid. rewrite !elem_of_cons in Hid.
    destruct Hid as [->|[->|[->|[->|Hid]]]]; [by split..|]. by apply not_elem_of_nil in Hid. }
  split; try apply Forall_forall; cbn.
  - by apply map_Forall_insert_2; [|apply map_Forall_empty].
  - by apply map_Forall_insert_2; [|apply map_Forall_empty].
  - apply map_Forall_empty.
  - intros id [? ?]%Hids. by rewrite lookup_insert_ne, lookup_empty.
  - intros id [? ?]%Hids. by rewrite lookup_insert_ne, lookup_empty.
  - intros id _. apply lookup_empty.
Qed.

Lemma EnsureHosts_leaves hosts t (x : unit) : (answer unit (EnsureHosts hosts) (t, x)).2.1 = t.
Proof. done. Qed.

Example failed_Apply_rolls_back_witness : settled (store after) = settled (store begin).
Proof.
  apply (failed_Apply_rolls_back EnsureHosts_leaves 1 body begin
           {| Status := 400; Message := "unsupported kind: Widget" |}).
  - repeat apply Forall_cons_2; [..|apply Forall_nil_2]; intros bytes h [= <-] [= <-];
      apply (bool_decide_unpack _); exact I.
  - exact begin_ready.
  - unfold after. rewrite <- apply_fails. apply surjective_pairing.
Defined.
End ApplyDemo.

(** ** A pod that is there twice *)
Module RoundsDemo.

(** Removing a pod removes its entry, making one is answered with its
    identifier. *)
#[local] Instance pod_peers : ResourcePeers unit := fun A c w =>
  match c in resource_call A return res A * (tables * unit) with
  | ResolveNetwork _ => (Ok "raind0", w)
  | PodRemove podId =>
      let st := t_psm w.1 in
      (Ok podId,
       (set_psm w.1 {| Psm.Version := Psm.Version st; Psm.Pods := delete podId (Psm.Pods st);
                       Psm.PodTemplates := Psm.PodTemplates st;
                       Psm.ReplicaSets := Psm.ReplicaSets st;
                       Psm.Deployments := Psm.Deployments st |}, tt))
  | PodCreate _ => (Ok "p9", w)
  | PodStart podId => (Ok podId, w)
  | ContainersByPodId _ => (Ok [], w)
  | _ => (Err "not available", w)
  end.

Definition old (podId : string) : Psm.PodInfo :=
  {| Psm.PodId := podId; Psm.TemplateId := ""; Psm.OwnerKind := ""; Psm.OwnerId := "";
     Psm.Name := "web"; Psm.Namespace := "default"; Psm.UID := ""; Psm.State := "running";
     Psm.OwnerPid := 0; Psm.NetworkNS := ""; Psm.IPCNS := ""; Psm.UTSNS := ""; Psm.UserNS := "";
     Psm.Rootless := false; Psm.Labels := ∅; Psm.Annotations := ∅; Psm.CreatedAt := 0;
     Psm.StartedAt := 0; Psm.StoppedAt := 0; Psm.StoppedByUser := false |}.
Definition two : Psm.PodState :=
  {| Psm.Version := "0.3.0"; Psm.Pods := <["p1" := old "p1"]> (<["p2" := old "p2"]> ∅);
     Psm.PodTemplates := ∅; Psm.ReplicaSets := ∅; Psm.Deployments := ∅ |}.
Definition begin : world tables asked unit :=
  {| store := set_psm ApplyDemo.before two; faults := []; times := []; ids := []; trace := [];
     inner := tt |}.
Definition first : progress (X := unit) := {| p_result := no_result; p_undo := [] |}.

(** Three rounds: two pods are removed, the third makes the new one. *)
Example three_rounds :
  (fun p => (fun x => (ap_PodId x, ap_Action x)) <$> a_Pods (p_result p.1)) <$>
    (applyPodManifest 3 ApplyDemo.pod first begin).1 = Ok [("p9", "updated")].
Proof. vm_compute. reflexivity. Qed.
Example two_are_not_enough :
  (applyPodManifest 2 ApplyDemo.pod first begin).1 = Panic "applyPodManifest: out of fuel".
Proof. vm_compute. reflexivity. Qed.

Example applyPodManifest_ends_witness :
  exists p' r w', applyPodManifest 3 ApplyDemo.pod first begin = (Ok (p', r), w').
Proof.
  apply applyPodManifest_ends.
  - by intros A [] s e.
  - done.
  - by intros podId t [] r t' [] [= <- <-].
  - intros k v Hv. cbn in Hv.
    apply lookup_insert_Some in Hv as [[<- <-]|[_ Hv]]; [done|].
    apply lookup_insert_Some in Hv as [[<- <-]|[_ Hv]]; [done|].
    by rewrite lookup_empty in Hv.
  - vm_compute. lia.
Defined.
End RoundsDemo.
