(* ===== verification/Seccomp.v ===== *)
(** * The system call filter ([droplet/container/security/seccomp.go])

    The rules of a specification become a program of the kernel's packet
    filter machine.  The machine is modelled for the three instructions that
    the program has, and the program is proved to do what the rules say. *)

From Stdlib Require Import ZArith Lia Ascii String.
From stdpp Require Import base gmap strings list.
From S2P Require Import Prelude.
From S2P Require Import GoString.
From S2P Require Import RuntimeSpec.
Open Scope Z_scope.

(** [uint16], [uint8], [uint8] and [uint32]. *)
Record SockFilter := { Code : Z; Jt : Z; Jf : Z; K : Z }.

Definition bpfLD : Z := 0.
Definition bpfRET : Z := 6.
Definition bpfJMP : Z := 5.
Definition bpfW : Z := 0.
Definition bpfABS : Z := 32.
Definition bpfJEQ : Z := 16.
Definition bpfK : Z := 0.

Definition SECCOMP_RET_KILL_PROCESS : Z := 2147483648.
Definition SECCOMP_RET_ERRNO : Z := 327680.
Definition SECCOMP_RET_ALLOW : Z := 2147418112.

Definition seccompDataNrOffset : Z := 0.
Definition seccompDataArchOffset : Z := 4.

Definition AUDIT_ARCH_X86_64 : Z := 3221225534.
Definition AUDIT_ARCH_AARCH64 : Z := 3221225655.
Definition AUDIT_ARCH_RISCV64 : Z := 3221225715.

Definition linuxSysClone3 : Z := 435.

Definition BPFStmt (code k : Z) : SockFilter := {| Code := code; Jt := 0; Jf := 0; K := k |}.
Definition BPFJump (code k jt jf : Z) : SockFilter := {| Code := code; Jt := jt; Jf := jf; K := k |}.

Definition AuditArchForGOARCH (goarch : string) : res Z :=
  if String.eqb goarch "amd64" then Ok AUDIT_ARCH_X86_64
  else if String.eqb goarch "arm64" then Ok AUDIT_ARCH_AARCH64
  else if String.eqb goarch "riscv64" then Ok AUDIT_ARCH_RISCV64
  else Err ("unsupported GOARCH for seccomp audit arch: " +:+ goarch).

Definition EPERM : Z := 1.
Definition ErrnoForRule (rule : SeccompSyscallObject) : Z := default EPERM (ErrnoRet rule).

(** [seccompDenyRule]. *)
Record seccompDenyRule := { nr : Z; errno : Z }.

Section filter.
(** [GOARCH], and the numbers of the system calls on it ([unix.SYS_...]). *)
Context (GOARCH : string) (SYS : string -> Z).
Implicit Types blocked : list seccompDenyRule.

Definition syscall_table : list (string * Z) :=
  [("bpf", SYS "BPF"); ("perf_event_open", SYS "PERF_EVENT_OPEN"); ("kexec_load", SYS "KEXEC_LOAD");
   ("open_by_handle_at", SYS "OPEN_BY_HANDLE_AT"); ("ptrace", SYS "PTRACE");
   ("process_vm_readv", SYS "PROCESS_VM_READV"); ("process_vm_writev", SYS "PROCESS_VM_WRITEV");
   ("userfaultfd", SYS "USERFAULTFD"); ("init_module", SYS "INIT_MODULE");
   ("finit_module", SYS "FINIT_MODULE"); ("delete_module", SYS "DELETE_MODULE");
   ("name_to_handle_at", SYS "NAME_TO_HANDLE_AT"); ("kcmp", SYS "KCMP"); ("reboot", SYS "REBOOT");
   ("swapon", SYS "SWAPON"); ("swapoff", SYS "SWAPOFF"); ("mount", SYS "MOUNT");
   ("unshare", SYS "UNSHARE"); ("setns", SYS "SETNS"); ("clone3", linuxSysClone3)].
Definition syscallNameToNr : gmap string Z := list_to_map syscall_table.

Definition ResolveSyscallNr (name : string) : option Z :=
  syscallNameToNr !! toLower (trimSpace name).

(** The loop over the names of a rule: [seen] and what is blocked so far. *)
Fixpoint block_names (e : Z) (names : list string) (seen : gset Z) blocked
    : res (gset Z * list seccompDenyRule) :=
  match names with
  | [] => Ok (seen, blocked)
  | name :: names =>
      match ResolveSyscallNr name with
      | None => Err ("unknown/unsupported syscall name " +:+ GOARCH +:+ ": " +:+ quoted name)
      | Some n =>
          if decide (n ∈ seen) then block_names e names seen blocked
          else block_names e names ({[n]} ∪ seen) (blocked ++ [{| nr := n; errno := e |}])
      end
  end.
Fixpoint block_rules (rules : list SeccompSyscallObject) (seen : gset Z) blocked
    : res (list seccompDenyRule) :=
  match rules with
  | [] => Ok blocked
  | rule :: rules =>
      if negb (String.eqb (Action rule) "SCMP_ACT_ERRNO") then block_rules rules seen blocked else
      '(seen, blocked) ← block_names (ErrnoForRule rule) (Names rule) seen blocked;
      block_rules rules seen blocked
  end.

Definition deny_instructions (r : seccompDenyRule) : list SockFilter :=
  [BPFJump (bpfJMP + bpfJEQ + bpfK) (nr r) 0 1;
   BPFStmt (bpfRET + bpfK) (Z.lor SECCOMP_RET_ERRNO (errno r))].

Definition program (arch : Z) blocked : list SockFilter :=
  [BPFStmt (bpfLD + bpfW + bpfABS) seccompDataArchOffset;
   BPFJump (bpfJMP + bpfJEQ + bpfK) arch 1 0;
   BPFStmt (bpfRET + bpfK) SECCOMP_RET_KILL_PROCESS;
   BPFStmt (bpfLD + bpfW + bpfABS) seccompDataNrOffset] ++
  flat_map deny_instructions blocked ++
  [BPFStmt (bpfRET + bpfK) SECCOMP_RET_ALLOW].

(** [SockFprog]: the length goes through 16 bits.  [None]: nothing is installed. *)
Definition deny_filter (config : SeccompObject) : res (option (Z * list SockFilter)) :=
  arch ← AuditArchForGOARCH GOARCH;
  blocked ← block_rules (Syscalls config) ∅ [];
  Ok (match blocked with
      | [] => None
      | _ => let prog := program arch blocked in Some (Z.of_nat (length prog) mod 2 ^ 16, prog)
      end).

(** [seccomp] answers with the kernel's error. *)
Definition InstallDenyFilter (seccomp : Z -> list SockFilter -> option error)
    (config : SeccompObject) : res unit :=
  f ← deny_filter config;
  match f with
  | None => Ok tt
  | Some (len, prog) =>
      match seccomp len prog with
      | None => Ok tt
      | Some e => Err ("seccomp(SECCOMP_SET_MODE_FILTER) failed: " +:+ e)
      end
  end.

(** ** The rules that are read

    The runtime reads a part of a filter only: the rules whose action is the
    error, and of them the names and the error.  The first that names a call
    decides its error; the default action, other actions, and conditions on the
    arguments play no part. *)
Definition rule_denies (n : Z) (rule : SeccompSyscallObject) : option Z :=
  if decide (Action rule = "SCMP_ACT_ERRNO" /\ Some n ∈ ResolveSyscallNr <$> Names rule)
  then Some (ErrnoForRule rule) else None.
Definition errno_rule (rules : list SeccompSyscallObject) (n : Z) : option Z :=
  head (omap (rule_denies n) rules).

(** ** The machine

    What the kernel does with the instructions that occur: [skip] is how many
    to pass over, [a] the accumulator.  [None]: not an instruction, or the end
    of the program. *)
Record seccomp_data := { sd_nr : Z; sd_arch : Z }.

Definition load (d : seccomp_data) (offset : Z) : option Z :=
  if offset =? 0 then Some (sd_nr d) else if offset =? 4 then Some (sd_arch d) else None.

Fixpoint run (prog : list SockFilter) (skip : nat) (a : Z) (d : seccomp_data) : option Z :=
  match prog, skip with
  | [], _ => None
  | _ :: prog, S skip => run prog skip a d
  | i :: prog, O =>
      if Code i =? bpfLD + bpfW + bpfABS then
        match load d (K i) with Some v => run prog O v d | None => None end
      else if Code i =? bpfJMP + bpfJEQ + bpfK then
        run prog (Z.to_nat (if a =? K i then Jt i else Jf i)) a d
      else if Code i =? bpfRET + bpfK then Some (K i)
      else None
  end.

(** ** The filter does what the rules say *)

Definition blocks blocked (n : Z) : option Z := errno <$> first_match (fun r => nr r =? n) blocked.

Lemma run_deny blocked rest d :
  run (flat_map deny_instructions blocked ++ rest) 0 (sd_nr d) d =
  match blocks blocked (sd_nr d) with
  | Some e => Some (Z.lor SECCOMP_RET_ERRNO e)
  | None => run rest 0 (sd_nr d) d
  end.
Proof.
  unfold blocks. induction blocked as [|r blocked IH]; [done|].
  rewrite first_match_cons, (Z.eqb_sym (nr r)). cbn.
  by destruct (Z.eqb (sd_nr d) (nr r)); cbn.
Qed.

Lemma run_program arch blocked d :
  run (program arch blocked) 0 0 d =
  Some (if sd_arch d =? arch then
          match blocks blocked (sd_nr d) with
          | Some e => Z.lor SECCOMP_RET_ERRNO e
          | None => SECCOMP_RET_ALLOW
          end
        else SECCOMP_RET_KILL_PROCESS).
Proof.
  unfold program. cbn. destruct (sd_arch d =? arch); cbn; [|done].
  rewrite run_deny. by destruct (blocks blocked (sd_nr d)).
Qed.

(** The bookkeeping of the loops. *)
Record blocking (seen : gset Z) blocked : Prop := {
  seen_nrs : seen = list_to_set (nr <$> blocked);
  different : NoDup (nr <$> blocked);
  known : Forall (fun r => nr r ∈ syscall_table.*2) blocked
}.

Lemma ResolveSyscallNr_known name n : ResolveSyscallNr name = Some n -> n ∈ syscall_table.*2.
Proof.
  unfold ResolveSyscallNr, syscallNameToNr. intros H%elem_of_list_to_map_2. apply list_elem_of_fmap. by exists (toLower (trimSpace name), n).
Qed.

Lemma blocks_None blocked n : blocks blocked n = None <-> n ∉ nr <$> blocked.
Proof.
  unfold blocks. rewrite fmap_None, first_match_None, list_elem_of_fmap. split.
  - intros H (r & -> & Hr). specialize (H r Hr). by rewrite Z.eqb_refl in H.
  - intros H r Hr. apply Z.eqb_neq. intros <-. eauto.
Qed.

Lemma first_match_app {A} (p : A -> bool) l k :
  first_match p (l ++ k) = match first_match p l with Some x => Some x | None => first_match p k end.
Proof.
  induction l as [|x l IH]; [done|]. cbn [app]. rewrite !first_match_cons, IH. by destruct (p x).
Qed.
Lemma blocks_app blocked more n : blocks (blocked ++ more) n = blocks blocked n ∪ blocks more n.
Proof.
  unfold blocks. rewrite first_match_app. destruct (first_match _ blocked); cbn.
  - by destruct (errno <$> _).
  - by destruct (errno <$> _).
Qed.

Lemma block_names_spec e names seen blocked seen' blocked' :
  block_names e names seen blocked = Ok (seen', blocked') -> blocking seen blocked ->
  blocking seen' blocked' /\
  forall n, blocks blocked' n =
    blocks blocked n ∪ (if decide (Some n ∈ ResolveSyscallNr <$> names) then Some e else None).
Proof.
  revert seen blocked. induction names as [|name names IH]; intros seen blocked; cbn [block_names].
  { intros [= <- <-] Hb. split; [done|]. intros n. rewrite decide_False by apply not_elem_of_nil.
    by destruct (blocks blocked n). }
  destruct (ResolveSyscallNr name) as [m|] eqn:Hm; [|done].
  assert (forall n, Some n ∈ ResolveSyscallNr <$> name :: names <->
    n = m \/ Some n ∈ ResolveSyscallNr <$> names) as Hn.
  { intros n. rewrite fmap_cons, Hm, elem_of_cons. naive_solver. }
  set (named := ResolveSyscallNr <$> name :: names) in *.
  destruct (decide (m ∈ seen)) as [Hin|Hin]; intros H Hb.
  - destruct (IH _ _ H Hb) as [Hb' Hs]. split; [done|]. intros n. rewrite Hs.
    destruct (decide (n = m)) as [->|Hne].
    + destruct (blocks blocked m) eqn:E; [by repeat case_decide|].
      apply blocks_None in E. destruct Hb as [-> _ _]. by apply elem_of_list_to_set in Hin.
    + f_equal. apply decide_ext. rewrite Hn. naive_solver.
  - assert (Hb1 : blocking ({[m]} ∪ seen) (blocked ++ [{| nr := m; errno := e |}])).
    { destruct Hb as [-> Hd Hk]. rewrite elem_of_list_to_set in Hin. split.
      - rewrite fmap_app, list_to_set_app_L. cbn. set_solver.
      - rewrite fmap_app. apply NoDup_app. split_and!; [done| |apply NoDup_singleton].
        intros x Hx ->%list_elem_of_singleton. done.
      - apply Forall_app. split; [done|]. apply Forall_singleton. by eapply ResolveSyscallNr_known. }
    destruct (IH _ _ H Hb1) as [Hb' Hs]. split; [done|]. intros n.
    rewrite Hs, blocks_app. unfold blocks at 2. rewrite first_match_cons. cbn.
    destruct (Z.eqb_spec m n) as [->|Hne]; cbn.
    + assert (blocks blocked n = None) as ->.
      { apply blocks_None. destruct Hb as [-> _ _]. by rewrite elem_of_list_to_set in Hin. }
      rewrite (decide_True (P := Some n ∈ named)) by (apply Hn; by left). by destruct (decide _).
    + assert (blocks blocked n ∪ None = blocks blocked n) as -> by by destruct (blocks blocked n).
      f_equal. apply decide_ext. change (Some n ∈ ResolveSyscallNr <$> names <-> Some n ∈ named).
      rewrite Hn. naive_solver.
Qed.

Lemma block_rules_spec rules seen blocked blocked' :
  block_rules rules seen blocked = Ok blocked' -> blocking seen blocked ->
  (exists seen', blocking seen' blocked') /\
  forall n, blocks blocked' n = blocks blocked n ∪ errno_rule rules n.
Proof.
  revert seen blocked. induction rules as [|rule rules IH]; intros seen blocked; cbn [block_rules].
  { intros [= <-] Hb. split; [eauto|]. intros n. by destruct (blocks blocked n). }
  assert (forall n, errno_rule (rule :: rules) n = rule_denies n rule ∪ errno_rule rules n) as Hcons.
  { intros n. unfold errno_rule. cbn. destruct (rule_denies n rule); cbn; [by destruct (head _)|].
    by destruct (head _). }
  destruct (String.eqb_spec (Action rule) "SCMP_ACT_ERRNO") as [Ha|Ha]; cbn [negb]; intros H Hb.
  - apply res_bind_ok in H as ([seen1 blocked1] & H1 & H).
    destruct (block_names_spec _ _ _ _ _ _ H1 Hb) as [Hb1 Hs1].
    destruct (IH _ _ H Hb1) as [Hb' Hs]. split; [done|]. intros n. rewrite Hs, Hs1, Hcons.
    unfold rule_denies.
    destruct (blocks blocked n), (errno_rule rules n); repeat case_decide; (done || naive_solver).
  - destruct (IH _ _ H Hb) as [Hb' Hs]. split; [done|]. intros n. rewrite Hs, Hcons.
    unfold rule_denies. rewrite decide_False by naive_solver. by destruct (errno_rule rules n).
Qed.

Lemma blocked_few seen blocked : blocking seen blocked -> (length blocked <= 20)%nat.
Proof.
  intros [_ Hd Hk]. rewrite <- (length_fmap nr). change 20%nat with (length syscall_table.*2).
  apply submseteq_length, NoDup_submseteq; [done|]. intros n (r & -> & Hr)%list_elem_of_fmap.
  by eapply Forall_forall in Hk.
Qed.

Lemma length_program arch blocked : length (program arch blocked) = (5 + 2 * length blocked)%nat.
Proof.
  unfold program. rewrite !length_app. cbn.
  assert (length (flat_map deny_instructions blocked) = (2 * length blocked)%nat) as ->; [|lia].
  induction blocked as [|r blocked IH]; [done|]. cbn. rewrite IH. lia.
Qed.

(** An error of 16 bits leaves the action as it is. *)
Lemma errno_answer e : 0 <= e < 2 ^ 16 ->
  Z.shiftr (Z.lor SECCOMP_RET_ERRNO e) 16 = Z.shiftr SECCOMP_RET_ERRNO 16 /\
  Z.lor SECCOMP_RET_ERRNO e mod 2 ^ 16 = e.
Proof.
  intros He. assert (Z.shiftr e 16 = 0) as Hs by (rewrite Z.shiftr_div_pow2 by lia; apply Z.div_small; lia).
  split; [by rewrite Z.shiftr_lor, Hs, Z.lor_0_r|].
  rewrite <- Z.land_ones by lia. rewrite Z.land_lor_distr_l.
  change (Z.land SECCOMP_RET_ERRNO (Z.ones 16)) with 0. rewrite Z.lor_0_l, Z.land_ones by lia.
  apply Z.mod_small. lia.
Qed.

(** C28: the program given to the kernel does what the rules with the errno action
    say, read without conditions, default action and other actions, which the
    runtime ignores ([errno_rule]): on the architecture it was made for, a call with
    the number of a name in such a rule is answered with the errno action and the
    error of the first such rule - combined by a bitwise or, so that an error below
    2^16 comes back as it is - and every other number, also the same call with the
    x32 bit, is let through; on another architecture the process is killed.  The
    program's length is not cut to 16 bits and is within the kernel's limit, and when
    there is no program no such rule names a call. *)
Theorem deny_filter_correct config arch f :
  AuditArchForGOARCH GOARCH = Ok arch -> deny_filter config = Ok f ->
  match f with
  | None => forall n, errno_rule (Syscalls config) n = None
  | Some (len, prog) =>
      len = Z.of_nat (length prog) /\ len <= 4096 /\
      (forall d, run prog 0 0 d =
        Some (if sd_arch d =? arch then
                match errno_rule (Syscalls config) (sd_nr d) with
                | Some e => Z.lor SECCOMP_RET_ERRNO e
                | None => SECCOMP_RET_ALLOW
                end
              else SECCOMP_RET_KILL_PROCESS)) /\
      (forall d e, sd_arch d = arch -> errno_rule (Syscalls config) (sd_nr d) = Some e ->
        0 <= e < 2 ^ 16 ->
        exists answer, run prog 0 0 d = Some answer /\
          Z.shiftr answer 16 = Z.shiftr SECCOMP_RET_ERRNO 16 /\ answer mod 2 ^ 16 = e)
  end.
Proof.
  intros Ha. unfold deny_filter. rewrite Ha. intros (? & [= <-] & H)%res_bind_ok.
  apply res_bind_ok in H as (blocked & H & Hf).
  assert (H0 : blocking ∅ []) by (split; [done|constructor|constructor]).
  destruct (block_rules_spec _ _ _ _ H H0) as [[seen Hb] Hs].
  assert (Hden : forall n, errno_rule (Syscalls config) n = blocks blocked n).
  { intros n. rewrite Hs. by destruct (errno_rule _ n). }
  pose proof (blocked_few _ _ Hb) as Hl. pose proof (length_program arch blocked) as Hlen.
  pose proof (run_program arch blocked) as Hrun. remember (program arch blocked) as prog.
  assert (f = if decide (blocked = []) then None
              else Some (Z.of_nat (length prog) mod 2 ^ 16, prog)) as ->.
  { injection Hf as <-. by destruct blocked; [|subst prog]. }
  case_decide as Hnil; [intros n; by rewrite Hden, Hnil|].
  rewrite Z.mod_small by lia. split_and!; [done|lia|intros d; by rewrite Hrun, Hden|].
  intros d e Hd He Hle. exists (Z.lor SECCOMP_RET_ERRNO e). rewrite Hrun, <- Hden, He, Hd, Z.eqb_refl.
  split; [done|]. by apply errno_answer.
Qed.
End filter.

(** What the kernel reads from an answer: the action and the error. *)
Definition action (ret : Z) : Z := Z.land ret 4294901760.
Definition ret_data (ret : Z) : Z := Z.land ret 65535.

Lemma denied_error e : 0 <= e < 2 ^ 16 ->
  action (Z.lor SECCOMP_RET_ERRNO e) = SECCOMP_RET_ERRNO /\ ret_data (Z.lor SECCOMP_RET_ERRNO e) = e.
Proof.
  intros He. unfold action, ret_data. rewrite !Z.land_lor_distr_l.
  replace (Z.land e 4294901760) with 0; [replace (Z.land e 65535) with e; [done|]|].
  - change 65535 with (Z.ones 16). rewrite Z.land_ones by lia. by rewrite Z.mod_small.
  - symmetry. apply Z.bits_inj'. intros n Hn. rewrite Z.land_spec, Z.bits_0.
    destruct (Z.ltb_spec n 16).
    + change 4294901760 with (Z.shiftl (Z.ones 16) 16).
      rewrite Z.shiftl_spec_low, andb_false_r by done. done.
    + rewrite <- (Z.mod_small e (2 ^ 16)), Z.mod_pow2_bits_high by lia. done.
Qed.

(** ** On the numbers of amd64 *)
Module SeccompDemo.
Definition numbers : list (string * Z) :=
  [("BPF", 321); ("PERF_EVENT_OPEN", 298); ("KEXEC_LOAD", 246); ("OPEN_BY_HANDLE_AT", 304);
   ("PTRACE", 101); ("PROCESS_VM_READV", 310); ("PROCESS_VM_WRITEV", 311); ("USERFAULTFD", 323);
   ("INIT_MODULE", 175); ("FINIT_MODULE", 313); ("DELETE_MODULE", 176); ("NAME_TO_HANDLE_AT", 303);
   ("KCMP", 312); ("REBOOT", 169); ("SWAPON", 167); ("SWAPOFF", 168); ("MOUNT", 165);
   ("UNSHARE", 272); ("SETNS", 308)].
Definition SYS (name : string) : Z :=
  from_option snd (-1) (first_match (fun p => String.eqb p.1 name) numbers).

Definition config : SeccompObject :=
  {| DefaultAction := "SCMP_ACT_ALLOW"; DefaultErrnoRet := Some 1;
     Architectures := ["SCMP_ARCH_X86_64"];
     Syscalls := [{| Names := ["mount"; " Ptrace"; "mount"]; Action := "SCMP_ACT_ERRNO";
                     ErrnoRet := Some 38 |};
                  {| Names := ["ptrace"; "clone3"]; Action := "SCMP_ACT_ERRNO";
                     ErrnoRet := None |}] |}.
Definition installed : list SockFilter :=
  program AUDIT_ARCH_X86_64
    [{| nr := 165; errno := 38 |}; {| nr := 101; errno := 38 |}; {| nr := 435; errno := 1 |}].

Lemma config_filter : deny_filter "amd64" SYS config = Ok (Some (11, installed)).
Proof. vm_compute. reflexivity. Qed.

Example deny_filter_correct_witness :
  11 = Z.of_nat (length installed) /\ 11 <= 4096 /\
  (forall d, run installed 0 0 d =
    Some (if sd_arch d =? AUDIT_ARCH_X86_64 then
            match errno_rule SYS (Syscalls config) (sd_nr d) with
            | Some e => Z.lor SECCOMP_RET_ERRNO e
            | None => SECCOMP_RET_ALLOW
            end
          else SECCOMP_RET_KILL_PROCESS)) /\
  (forall d e, sd_arch d = AUDIT_ARCH_X86_64 ->
    errno_rule SYS (Syscalls config) (sd_nr d) = Some e -> 0 <= e < 2 ^ 16 ->
    exists answer, run installed 0 0 d = Some answer /\
      Z.shiftr answer 16 = Z.shiftr SECCOMP_RET_ERRNO 16 /\ answer mod 2 ^ 16 = e).
Proof.
  exact (deny_filter_correct "amd64" SYS config AUDIT_ARCH_X86_64 (Some (11, installed))
           eq_refl config_filter).
Defined.

(** The error goes into the answer as it is: beyond 16 bits it changes the
    action, here to letting the call through. *)
Definition loud : SeccompObject :=
  {| DefaultAction := "SCMP_ACT_ALLOW"; DefaultErrnoRet := None; Architectures := [];
     Syscalls := [{| Names := ["mount"]; Action := "SCMP_ACT_ERRNO";
                     ErrnoRet := Some 2147090432 |}] |}.
Example error_hides_denial :
  let prog := program AUDIT_ARCH_X86_64 [{| nr := 165; errno := 2147090432 |}] in
  deny_filter "amd64" SYS loud = Ok (Some (7, prog)) /\
  run prog 0 0 {| sd_nr := 165; sd_arch := AUDIT_ARCH_X86_64 |} = Some SECCOMP_RET_ALLOW.
Proof. vm_compute. split; reflexivity. Qed.

(** A list of what is allowed denies nothing: the default action is not read. *)
Definition allow_list : SeccompObject :=
  {| DefaultAction := "SCMP_ACT_ERRNO"; DefaultErrnoRet := Some 1; Architectures := [];
     Syscalls := [{| Names := ["read"]; Action := "SCMP_ACT_ALLOW"; ErrnoRet := None |}] |}.
Example allow_list_denies_nothing : deny_filter "amd64" SYS allow_list = Ok None.
Proof. vm_compute. reflexivity. Qed.

(** The x32 calls of amd64 have the same architecture and their numbers have
    bit 30 set: [mount] made that way is let through. *)
Example x32_call_passes :
  run installed 0 0 {| sd_nr := 165; sd_arch := AUDIT_ARCH_X86_64 |} =
    Some (Z.lor SECCOMP_RET_ERRNO 38) /\
  run installed 0 0 {| sd_nr := 165 + 2 ^ 30; sd_arch := AUDIT_ARCH_X86_64 |} =
    Some SECCOMP_RET_ALLOW.
Proof. vm_compute. split; reflexivity. Qed.
End SeccompDemo.
