(* ===== verification/Profiles.v ===== *)
(** * Security profiles ([core/securityprofile])

    The built-in profiles, and the service of custom ones: manifests in a
    directory, each extending a built-in profile or another custom one. *)

From Stdlib Require Import ZArith Lia Ascii String.
From stdpp Require Import base gmap strings list.
From S2P Require Import Prelude.
From S2P Require Import GoString.
From S2P Require Import GoSort.
From S2P Require Import GoPath.
From S2P Require Import GoYaml.
From S2P Require Import World.
From S2P Require RuntimeSpec.
Open Scope Z_scope.

(** ** Data ([model.go])

    A slice that is nil and one that is empty are the same list; an optional
    pointer is an option. *)

Record SeccompArgObject := { Index : Z; Value : Z; Op : string; ValueTwo : option Z }.
Record SeccompFilterObject := {
  f_Architectures : list string; f_Caps : list string; MinKernel : string
}.
Record SeccompSyscallObject := {
  Names : list string;
  Action : string;
  ErrnoRet : option Z;
  Args : list SeccompArgObject;
  Comment : string;
  Include : option SeccompFilterObject;
  Excludes : option SeccompFilterObject
}.
Record SeccompObject := {
  DefaultAction : string;
  DefaultErrnoRet : option Z;
  Architectures : list string;
  Flags : list string;
  Syscalls : list SeccompSyscallObject
}.

Definition ProfileTypeBuiltIn : string := "built-in".
Definition ProfileTypeCustom : string := "custom".
Definition ProfileDefault : string := "default".
Definition ProfileDev : string := "dev".
Definition ProfileDeploy : string := "deploy".
Definition ProfileRestricted : string := "restricted".
Definition ProfilePrivileged : string := "privileged".
Definition ProfileUnconfined : string := "unconfined".

Record SecurityProfile := {
  Name : string;
  Type_ : string;
  Extends : string;
  AddCap : list string;
  DropCap : list string;
  Base : list string;
  Seccomp : option SeccompObject;
  AppArmorProfile : string;
  NoNewPrivileges : bool
}.

(** [CustomProfileManifest] with its two spellings of every field. *)
Record CustomProfileManifest := {
  m_Metadata_Name : string;
  m_Spec_Extends : string;
  m_Spec_AddCap : list string;
  m_Spec_DropCap : list string;
  m_Name : string;
  m_Extends : string;
  m_AddCap : list string;
  m_DropCap : list string
}.
Definition ProfileName (m : CustomProfileManifest) : string :=
  if String.eqb (m_Metadata_Name m) "" then m_Name m else m_Metadata_Name m.
Definition ProfileExtends (m : CustomProfileManifest) : string :=
  if String.eqb (m_Spec_Extends m) "" then m_Extends m else m_Spec_Extends m.
Definition ProfileAddCap (m : CustomProfileManifest) : list string :=
  match m_Spec_AddCap m with [] => m_AddCap m | l => l end.
Definition ProfileDropCap (m : CustomProfileManifest) : list string :=
  match m_Spec_DropCap m with [] => m_DropCap m | l => l end.

Record ProfileSummary := {
  ps_Name : string;
  ps_Type : string;
  CapabilitiesCount : Z;
  SeccompEnabled : bool;
  ps_AppArmorProfile : string;
  ps_NoNewPrivileges : bool
}.
Definition Summary (p : SecurityProfile) : ProfileSummary :=
  {| ps_Name := Name p; ps_Type := Type_ p; CapabilitiesCount := Z.of_nat (length (Base p));
     SeccompEnabled := match Seccomp p with Some _ => true | None => false end;
     ps_AppArmorProfile := AppArmorProfile p; ps_NoNewPrivileges := NoNewPrivileges p |}.

(** ** Capabilities *)

Definition dropCapabilities (base drops : list string) : list string :=
  List.filter (fun cap => negb (existsb (String.eqb cap) drops)) base.

(** The loop over what is added: [seen] is what the list has. *)
Fixpoint add_capabilities (drops adds out : list string) : list string :=
  match adds with
  | [] => out
  | cap :: adds =>
      if existsb (String.eqb cap) drops || existsb (String.eqb cap) out
      then add_capabilities drops adds out
      else add_capabilities drops adds (out ++ [cap])
  end.
Definition mergeCapabilityDelta (base addCaps dropCaps : list string) : list string :=
  add_capabilities dropCaps addCaps (dropCapabilities base dropCaps).

Definition validCapabilityName (cap : string) : bool :=
  hasPrefix cap "CAP_" &&
  forallb (fun c => is_upper c || is_digit c || Ascii.eqb c "_") (list_ascii_of_string (drop_str 4 cap)).

(** [^\[a-z0-9\]\[a-z0-9_.-\]{0,62}$] *)
Definition name_start (c : ascii) : bool := is_lower c || is_digit c.
Definition name_rest (c : ascii) : bool :=
  name_start c || Ascii.eqb c "_" || Ascii.eqb c "." || Ascii.eqb c "-".
Definition validProfileName (name : string) : bool :=
  match name with
  | EmptyString => false
  | String c rest =>
      name_start c && forallb name_rest (list_ascii_of_string rest) && Nat.leb (String.length rest) 62
  end.

(** ** Built-in profiles *)

Definition allCapabilities : list string :=
  ["CAP_CHOWN"; "CAP_DAC_OVERRIDE"; "CAP_DAC_READ_SEARCH"; "CAP_FOWNER"; "CAP_FSETID"; "CAP_KILL";
   "CAP_SETGID"; "CAP_SETUID"; "CAP_SETPCAP"; "CAP_LINUX_IMMUTABLE"; "CAP_NET_BIND_SERVICE";
   "CAP_NET_BROADCAST"; "CAP_NET_ADMIN"; "CAP_NET_RAW"; "CAP_IPC_LOCK"; "CAP_IPC_OWNER";
   "CAP_SYS_MODULE"; "CAP_SYS_RAWIO"; "CAP_SYS_CHROOT"; "CAP_SYS_PTRACE"; "CAP_SYS_PACCT";
   "CAP_SYS_ADMIN"; "CAP_SYS_BOOT"; "CAP_SYS_NICE"; "CAP_SYS_RESOURCE"; "CAP_SYS_TIME";
   "CAP_SYS_TTY_CONFIG"; "CAP_MKNOD"; "CAP_LEASE"; "CAP_AUDIT_WRITE"; "CAP_AUDIT_CONTROL";
   "CAP_SETFCAP"; "CAP_MAC_OVERRIDE"; "CAP_MAC_ADMIN"; "CAP_SYSLOG"; "CAP_WAKE_ALARM";
   "CAP_BLOCK_SUSPEND"; "CAP_AUDIT_READ"; "CAP_PERFMON"; "CAP_BPF"; "CAP_CHECKPOINT_RESTORE"].

Section builtin.
Context (GOARCH : string).

Definition defaultSeccompArchitectures : list string :=
  if String.eqb GOARCH "amd64" then ["SCMP_ARCH_X86_64"]
  else if String.eqb GOARCH "arm64" then ["SCMP_ARCH_AARCH64"]
  else if String.eqb GOARCH "riscv64" then ["SCMP_ARCH_RISCV64"]
  else [""].

Definition DefaultSecurityProfile : SecurityProfile :=
  {| Name := ProfileDefault; Type_ := ProfileTypeBuiltIn; Extends := ""; AddCap := [];
     DropCap := [];
     Base := ["CAP_CHOWN"; "CAP_DAC_OVERRIDE"; "CAP_FSETID"; "CAP_FOWNER"; "CAP_MKNOD";
              "CAP_NET_RAW"; "CAP_SETGID"; "CAP_SETUID"; "CAP_SETFCAP"; "CAP_SETPCAP";
              "CAP_NET_BIND_SERVICE"; "CAP_SYS_CHROOT"; "CAP_KILL"; "CAP_AUDIT_WRITE"];
     Seccomp := Some
       {| DefaultAction := "SCMP_ACT_ALLOW"; DefaultErrnoRet := Some 1;
          Architectures := defaultSeccompArchitectures; Flags := [];
          Syscalls := [
            {| Names := ["bpf"; "perf_event_open"; "kexec_load"; "open_by_handle_at"; "ptrace";
                         "process_vm_readv"; "process_vm_writev"; "userfaultfd"; "reboot";
                         "swapon"; "swapoff"; "open_by_handle_at"; "name_to_handle_at";
                         "init_module"; "finit_module"; "delete_module"; "kcmp"; "mount";
                         "unshare"; "setns"];
               Action := "SCMP_ACT_ERRNO"; ErrnoRet := Some 1; Args := []; Comment := "";
               Include := None; Excludes := None |}] |};
     AppArmorProfile := "raind-default"; NoNewPrivileges := false |}.

(** The default profile with a name, capabilities and a flag of its own. *)
Definition variant (name : string) (base : list string) (nnp : bool) : SecurityProfile :=
  {| Name := name; Type_ := ProfileTypeBuiltIn; Extends := ""; AddCap := []; DropCap := [];
     Base := base; Seccomp := Seccomp DefaultSecurityProfile;
     AppArmorProfile := AppArmorProfile DefaultSecurityProfile; NoNewPrivileges := nnp |}.
Definition unfiltered (p : SecurityProfile) : SecurityProfile :=
  {| Name := Name p; Type_ := Type_ p; Extends := Extends p; AddCap := AddCap p;
     DropCap := DropCap p; Base := Base p; Seccomp := None; AppArmorProfile := "";
     NoNewPrivileges := false |}.
Definition DevSecurityProfile : SecurityProfile :=
  variant ProfileDev (Base DefaultSecurityProfile) true.
Definition DeploySecurityProfile : SecurityProfile :=
  variant ProfileDeploy
    (dropCapabilities (Base DefaultSecurityProfile) ["CAP_NET_RAW"; "CAP_MKNOD"]) true.
Definition RestrictedSecurityProfile : SecurityProfile := variant ProfileRestricted [] true.
Definition PrivilegedSecurityProfile : SecurityProfile :=
  unfiltered (variant ProfilePrivileged allCapabilities false).
Definition UnconfinedSecurityProfile : SecurityProfile :=
  unfiltered (variant ProfileUnconfined (Base DefaultSecurityProfile) false).

Definition builtinProfiles : list SecurityProfile :=
  [DefaultSecurityProfile; DevSecurityProfile; DeploySecurityProfile; RestrictedSecurityProfile;
   PrivilegedSecurityProfile; UnconfinedSecurityProfile].

Definition builtinProfile (name : string) : option SecurityProfile :=
  if String.eqb name "" || String.eqb name ProfileDefault then Some DefaultSecurityProfile
  else if String.eqb name ProfileDev then Some DevSecurityProfile
  else if String.eqb name ProfileDeploy then Some DeploySecurityProfile
  else if String.eqb name ProfileRestricted then Some RestrictedSecurityProfile
  else if String.eqb name ProfilePrivileged then Some PrivilegedSecurityProfile
  else if String.eqb name ProfileUnconfined then Some UnconfinedSecurityProfile
  else None.
End builtin.

(** ** The directory

    An entry is a file with its content or a directory ([None]).  A system
    call that meets a fault of the world fails with that error. *)
Notation directory := (gmap string (option string)).
#[local] Notation M := (World.M directory unit unit).

Definition lift {A} (r : res A) : M A := fun w => (r, w).

Section files.
(** The directory's own path. *)
Context (storeDir : string).

(** [None]: the error for which [os.IsNotExist] holds. *)
Definition ReadFile (file : string) : M (option string) :=
  read (fun d => match d !! file with
                 | Some (Some body) => Ok (Some body)
                 | Some None => Err ("read " +:+ Join [storeDir; file] +:+ ": is a directory")
                 | None => Ok None
                 end).
Definition Stat (file : string) : M bool := read (fun d => Ok (bool_decide (is_Some (d !! file)))).
Definition MkdirAll : M unit := txn (fun d => Ok (d, tt)).
Definition Remove (file : string) : M bool :=
  txn (fun d => Ok (delete file d, bool_decide (is_Some (d !! file)))).
(** [os.WriteFile]: the file is emptied or made first, so a write that fails
    leaves an empty file. *)
Definition WriteFile (file body : string) : M unit :=
  _ ← txn (fun d => Ok (<[file := Some ""]> d, tt));
  txn (fun d => Ok (<[file := Some body]> d, tt)).

End files.

Section service.
Context (storeDir GOARCH : string) {RO : RangeOrder} {SS : SliceSort}.
Context {T : YamlType CustomProfileManifest} (Marshal : CustomProfileManifest -> res string).

(** [profilePath], below the directory. *)
Definition profilePath (name : string) : string := name +:+ ".yaml".

Definition parse_manifest (file body : string) : res CustomProfileManifest :=
  match Unmarshal body with
  | Err e => Err ("parse security profile manifest " +:+ quoted (Join [storeDir; file]) +:+ ": " +:+ e)
  | r => r
  end.
(** [None]: there is no such file. *)
Definition readManifestFile (file : string) : M (option CustomProfileManifest) :=
  body ← ReadFile storeDir file;
  match body with
  | None => mret None
  | Some body => lift (m ← parse_manifest file body; Ok (Some m))
  end.
Definition writeManifestFile (file : string) (m : CustomProfileManifest) : M unit :=
  match Marshal m with
  | Ok body =>
      fun w => match WriteFile file body w with
               | (Err e, w) =>
                   (Err ("write security profile manifest " +:+ quoted (Join [storeDir; file]) +:+ ": " +:+ e), w)
               | r => r
               end
  | Err e => fail ("encode security profile manifest: " +:+ e)
  | Panic e => crash e
  end.

Definition validateCustomManifestShape (m : CustomProfileManifest) : res unit :=
  let name := ProfileName m in
  if String.eqb name "" || negb (validProfileName name)
  then Err ("invalid security profile name: " +:+ name) else
  match builtinProfile GOARCH name with
  | Some _ => Err ("cannot overwrite built-in security profile: " +:+ name)
  | None =>
      if String.eqb (ProfileExtends m) "" then Err "security profile extends is required" else Ok tt
  end.

(** What a manifest makes of its parent. *)
Definition extended (m : CustomProfileManifest) (parent : SecurityProfile) : SecurityProfile :=
  {| Name := ProfileName m; Type_ := ProfileTypeCustom; Extends := ProfileExtends m;
     AddCap := ProfileAddCap m; DropCap := ProfileDropCap m;
     Base := mergeCapabilityDelta (Base parent) (ProfileAddCap m) (ProfileDropCap m);
     Seccomp := Seccomp parent; AppArmorProfile := AppArmorProfile parent;
     NoNewPrivileges := NoNewPrivileges parent |}.

(** [get] is [getCustomProfile] for the names seen. *)
Definition resolveCustomManifest (get : string -> gset string -> M SecurityProfile)
    (m : CustomProfileManifest) (seen : gset string) : M SecurityProfile :=
  _ ← lift (validateCustomManifestShape m);
  let name := ProfileName m in
  if decide (name ∈ seen) then fail ("security profile extends cycle detected: " +:+ name) else
  parent ← match builtinProfile GOARCH (ProfileExtends m) with
           | Some p => mret p
           | None => get (ProfileExtends m) ({[name]} ∪ seen)
           end;
  mret (extended m parent).

(** The two functions call each other along the chain of parents; [fuel] bounds
    its length. *)
Fixpoint getCustomProfile (fuel : nat) (name : string) (seen : gset string) : M SecurityProfile :=
  match fuel with
  | O => crash "getCustomProfile: out of fuel"
  | S fuel =>
      if String.eqb name "" then mret (DefaultSecurityProfile GOARCH) else
      if negb (validProfileName name) then fail ("unknown security profile: " +:+ name) else
      m ← readManifestFile (profilePath name);
      match m with
      | None => fail ("unknown security profile: " +:+ name)
      | Some m => resolveCustomManifest (getCustomProfile fuel) m seen
      end
  end.

Definition Get (fuel : nat) (name : string) : M SecurityProfile :=
  match builtinProfile GOARCH name with
  | Some p => mret p
  | None => getCustomProfile fuel name ∅
  end.
Definition Resolve : nat -> string -> M SecurityProfile := Get.

Definition validateManifest (fuel : nat) (m : CustomProfileManifest) : M unit :=
  let name := ProfileName m in
  if String.eqb name "" then fail "missing security profile name" else
  if negb (validProfileName name) then fail ("invalid security profile name: " +:+ name) else
  match builtinProfile GOARCH name with
  | Some _ => fail ("cannot overwrite built-in security profile: " +:+ name)
  | None =>
      let extends := ProfileExtends m in
      if String.eqb extends "" then fail "security profile extends is required" else
      if String.eqb extends name then fail ("security profile cannot extend itself: " +:+ name) else
      parent ← attempt (Get fuel extends);
      match parent with
      | Err e | Panic e => fail ("unknown parent security profile " +:+ quoted extends +:+ ": " +:+ e)
      | Ok _ =>
          match first_match (fun cap => negb (validCapabilityName cap))
                  (ProfileAddCap m ++ ProfileDropCap m) with
          | Some cap => fail ("invalid capability name: " +:+ cap)
          | None => mret tt
          end
      end
  end.

(** [fmt.Errorf(what + ": %w", err)]. *)
Definition wrap {A} (what : string) (m : M A) : M A := fun w =>
  match m w with (Err e, w) => (Err (what +:+ ": " +:+ e), w) | r => r end.

Definition Register (fuel : nat) (m : CustomProfileManifest) : M SecurityProfile :=
  _ ← validateManifest fuel m;
  let name := ProfileName m in
  _ ← wrap "create security profile store" MkdirAll;
  let path := profilePath name in
  there ← wrap "stat security profile" (Stat path);
  if there : bool then fail ("security profile already exists: " +:+ name) else
  _ ← writeManifestFile path m;
  r ← attempt (Get fuel name);
  match r with
  | Ok profile => mret profile
  | Err e | Panic e => _ ← ignore (Remove path); fail e
  end.

Definition Delete (name : string) : M unit :=
  if String.eqb name "" then fail "missing security profile name" else
  match builtinProfile GOARCH name with
  | Some _ => fail ("cannot delete built-in security profile: " +:+ name)
  | None =>
      if negb (validProfileName name) then fail ("invalid security profile name: " +:+ name) else
      there ← wrap "delete security profile" (Remove (profilePath name));
      if there : bool then mret tt else fail ("unknown security profile: " +:+ name)
  end.

(** The loop over the entries: what cannot be read or resolved is left out. *)
Fixpoint list_profiles (fuel : nat) (entries : list (string * option string)) : M (list SecurityProfile) :=
  match entries with
  | [] => mret []
  | (file, node) :: entries =>
      match node with
      | None => list_profiles fuel entries
      | Some _ =>
          if negb (hasSuffix file ".yaml") then list_profiles fuel entries else
          m ← attempt (readManifestFile file);
          match m with
          | Ok (Some m) =>
              p ← attempt (resolveCustomManifest (getCustomProfile fuel) m ∅);
              rest ← list_profiles fuel entries;
              mret (match p with Ok p => p :: rest | _ => rest end)
          | _ => list_profiles fuel entries
          end
      end
  end.
Definition listCustomProfiles (fuel : nat) : M (list SecurityProfile) :=
  entries ← wrap "read security profile store"
    (read (fun d => Ok ((fun k => (k, default None (d !! k))) <$> sort_Strings (range_map d).*1)));
  profiles ← list_profiles fuel entries;
  mret (sort_slice (key_less Name) profiles).
Definition List_ (fuel : nat) : M (list ProfileSummary) :=
  custom ← attempt (listCustomProfiles fuel);
  mret (Summary <$> builtinProfiles GOARCH ++ match custom with Ok l => l | _ => [] end).
End service.
