(* ===== verification/ProfilesTheory.v ===== *)
(** * Security profiles: properties

    What a name resolves to, that resolving ends, what a custom profile can
    have, and what registering one changes. *)

From Stdlib Require Import ZArith Lia Ascii String.
From stdpp Require Import base gmap strings list.
From S2P Require Import Prelude.
From S2P Require Import GoString.
From S2P Require Import GoSort.
From S2P Require Import GoYaml.
From S2P Require Import World.
From S2P Require RuntimeSpec.
From S2P Require Import Profiles.
Open Scope Z_scope.

(** ** Capabilities *)

Lemma existsb_elem (x : string) l : existsb (String.eqb x) l = bool_decide (x ∈ l).
Proof.
  apply eq_true_iff_eq. rewrite existsb_exists, bool_decide_eq_true. split.
  - by intros (y & Hy%list_elem_of_In & ->%String.eqb_eq).
  - intros Hx. exists x. by rewrite <- list_elem_of_In, String.eqb_refl.
Qed.

Lemma elem_of_dropCapabilities base drops cap :
  cap ∈ dropCapabilities base drops <-> cap ∈ base /\ cap ∉ drops.
Proof.
  unfold dropCapabilities. rewrite list_elem_of_In, filter_In, <- list_elem_of_In, existsb_elem.
  by rewrite negb_true_iff, bool_decide_eq_false.
Qed.

Lemma elem_of_add_capabilities drops adds out cap : (forall c, c ∈ out -> c ∉ drops) ->
  cap ∈ add_capabilities drops adds out <-> cap ∈ out \/ (cap ∈ adds /\ cap ∉ drops).
Proof.
  revert out. induction adds as [|c adds IH]; intros out Ho; cbn [add_capabilities].
  { split; [by left|]. intros [?|[[]%not_elem_of_nil _]]. done. }
  rewrite !existsb_elem. destruct (decide (c ∈ drops)) as [Hd|Hd].
  - rewrite bool_decide_true by done. cbn [orb]. rewrite IH by done. set_solver.
  - rewrite bool_decide_false by done. cbn [orb]. case_bool_decide as Hc.
    + rewrite IH by done. set_solver.
    + rewrite IH; [set_solver|]. intros x [Hx|Hx]%elem_of_app; [by apply Ho|set_solver].
Qed.

Lemma elem_of_mergeCapabilityDelta base adds drops cap :
  cap ∈ mergeCapabilityDelta base adds drops <-> (cap ∈ base \/ cap ∈ adds) /\ cap ∉ drops.
Proof.
  unfold mergeCapabilityDelta. rewrite elem_of_add_capabilities; rewrite ?elem_of_dropCapabilities.
  - tauto.
  - by intros c [_ ?]%elem_of_dropCapabilities.
Qed.

(** The profiles that the daemon and the runtime have under one name agree. *)
Definition agrees (p : SecurityProfile) (q : RuntimeSpec.SecurityProfile) : Prop :=
  Name p = RuntimeSpec.p_Name q /\ Base p = RuntimeSpec.Base q /\
  AppArmorProfile p = RuntimeSpec.p_AppArmorProfile q /\
  NoNewPrivileges p = RuntimeSpec.p_NoNewPrivileges q /\
  (fun s => (DefaultAction s, DefaultErrnoRet s, Architectures s,
             (fun r => (Names r, Action r, ErrnoRet r)) <$> Syscalls s)) <$> Seccomp p =
  (fun s => (RuntimeSpec.DefaultAction s, RuntimeSpec.DefaultErrnoRet s,
             RuntimeSpec.Architectures s,
             (fun r => (RuntimeSpec.Names r, RuntimeSpec.Action r, RuntimeSpec.ErrnoRet r)) <$>
               RuntimeSpec.Syscalls s)) <$> RuntimeSpec.p_Seccomp q.

Lemma builtin_profiles_agree GOARCH name :
  match builtinProfile GOARCH name, RuntimeSpec.ResolveSecurityProfile GOARCH name with
  | Some p, Ok q => agrees p q
  | None, Err _ => True
  | _, _ => False
  end.
Proof.
  unfold builtinProfile, RuntimeSpec.ResolveSecurityProfile, ProfileDefault, ProfileDev,
    ProfileDeploy, ProfileRestricted, ProfilePrivileged, ProfileUnconfined.
  repeat match goal with |- context [if ?b then _ else _] => destruct b end; by unfold agrees.
Qed.

Section profiles.
Context (storeDir GOARCH : string) {RO : RangeOrder} {SS : SliceSort}.
Context {T : YamlType CustomProfileManifest}.
#[local] Notation M := (World.M directory unit unit).
#[local] Notation builtin := (builtinProfile GOARCH).
#[local] Notation custom := (getCustomProfile storeDir GOARCH).
#[local] Notation get := (Get storeDir GOARCH).
Implicit Types d : directory.
Implicit Types w : world directory unit unit.
Implicit Types m : CustomProfileManifest.

(** ** What a name means in a directory *)

Definition parsed (node : option string) : option CustomProfileManifest :=
  match node with
  | Some body => match Unmarshal body with Ok m => Some m | _ => None end
  | None => None
  end.
Definition manifest_at d (name : string) : option CustomProfileManifest :=
  if validProfileName name then d !! profilePath name ≫= parsed else None.

(** The profile of a name whose chain of parents is at most [n] long. *)
Fixpoint resolved d (n : nat) (name : string) : option SecurityProfile :=
  match builtin name, n with
  | Some p, _ => Some p
  | None, O => None
  | None, S n =>
      m ← manifest_at d name;
      match validateCustomManifestShape GOARCH m with
      | Ok _ => extended m <$> resolved d n (ProfileExtends m)
      | _ => None
      end
  end.
Definition means d (name : string) (p : SecurityProfile) : Prop := exists n, resolved d n name = Some p.

Lemma resolved_S d n name p : resolved d n name = Some p -> resolved d (S n) name = Some p.
Proof.
  revert name p. induction n as [|n IH]; intros name p; cbn [resolved];
    destruct (builtin name); [done..|].
  intros (m & -> & H)%bind_Some. cbn [mbind option_bind].
  destruct (validateCustomManifestShape GOARCH m); [|done..].
  apply fmap_Some in H as (q & Hq & ->). apply fmap_Some. exists q. split; [|done].
  by apply (IH _ _ Hq).
Qed.
Lemma resolved_le d n k name p : (n <= k)%nat -> resolved d n name = Some p -> resolved d k name = Some p.
Proof. intros Hle H. induction Hle as [|k _ IH]; [done|]. by apply resolved_S. Qed.

Lemma means_unique d name p q : means d name p -> means d name q -> p = q.
Proof.
  intros [n Hn] [k Hk]. apply (resolved_le _ _ (n + k)) in Hn; [|lia].
  apply (resolved_le _ _ (n + k)) in Hk; [|lia]. congruence.
Qed.

(** Every file carries the name it is stored under. *)
Definition own_names d : Prop := forall name m, manifest_at d name = Some m -> ProfileName m = name.

(** What is relied on: a text is decoded or refused. *)
Context (Unmarshal_returns : forall body e, Unmarshal (A := CustomProfileManifest) body <> Panic e).

(** ** Runs *)

(** The files whose profiles are not seen: at most so many parents follow. *)
Definition unseen (seen : gset string) (node : option string) : bool :=
  match parsed node with Some m => bool_decide (ProfileName m ∉ seen) | None => false end.
Definition todo (seen : gset string) d : directory := filter (fun kv => unseen seen kv.2 = true) d.

Lemma todo_less seen d k node m :
  d !! k = Some node -> parsed node = Some m -> ProfileName m ∉ seen ->
  (size (todo ({[ProfileName m]} ∪ seen) d) < size (todo seen d))%nat.
Proof.
  intros Hk Hm Hs. assert (todo seen d !! k = Some node) as Hin.
  { apply map_lookup_filter_Some. split; [done|]. unfold unseen. cbn. by rewrite Hm, bool_decide_true. }
  assert (todo ({[ProfileName m]} ∪ seen) d ⊆ delete k (todo seen d)) as Hsub%map_subseteq_size.
  { apply map_subseteq_spec. intros j x [Hj Hu]%map_lookup_filter_Some.
    unfold unseen in Hu. cbn in Hu. destruct (parsed x) as [mx|] eqn:Hx; [|done].
    apply bool_decide_eq_true in Hu. apply lookup_delete_Some. split.
    - intros Heq. subst j. assert (Some x = Some node) as [= ->] by exact (eq_trans (eq_sym Hj) Hk).
      assert (mx = m) as -> by congruence. set_solver.
    - apply map_lookup_filter_Some. split; [done|]. unfold unseen. cbn. rewrite Hx.
      apply bool_decide_eq_true. set_solver. }
  rewrite map_size_delete_Some in Hsub by eauto.
  assert (size (todo seen d) <> 0%nat); [|lia].
  intros H0%map_size_empty_inv. by rewrite H0, lookup_empty in Hin.
Qed.

Lemma readManifestFile_run file w : faults w = [] -> exists r,
  readManifestFile storeDir file w = (r, w) /\
  match r with
  | Ok (Some m) => store w !! file ≫= parsed = Some m
  | Ok None => store w !! file = None
  | Err _ => store w !! file ≫= parsed = None
  | Panic _ => False
  end.
Proof.
  intros Hw. unfold readManifestFile, mbind, M_bind, ReadFile. rewrite read_run by done.
  destruct (store w !! file) as [[body|]|] eqn:Hf; cbn; [|by eexists..].
  unfold lift, parse_manifest. pose proof (Unmarshal_returns body) as Hu.
  destruct (Unmarshal body) as [m|e|e]; cbn; [by eexists..|]. by destruct (Hu e).
Qed.

(** One step along the chain, as [getCustomProfile] takes it. *)
Lemma custom_step fuel name seen w : faults w = [] -> builtin name = None ->
  (exists e, custom (S fuel) name seen w = (Err e, w) /\
     (manifest_at (store w) name = None \/
      exists m, manifest_at (store w) name = Some m /\
        ((exists e', validateCustomManifestShape GOARCH m = Err e') \/ ProfileName m ∈ seen))) \/
  (exists m node, manifest_at (store w) name = Some m /\ validateCustomManifestShape GOARCH m = Ok tt /\
     ProfileName m ∉ seen /\ store w !! profilePath name = Some node /\ parsed node = Some m /\
     custom (S fuel) name seen w =
       (parent ← match builtin (ProfileExtends m) with
                 | Some p => mret p
                 | None => custom fuel (ProfileExtends m) ({[ProfileName m]} ∪ seen)
                 end;
        mret (extended m parent)) w).
Proof.
  intros Hw Hb. cbn [getCustomProfile]. destruct (String.eqb_spec name "") as [->|_]; [done|].
  unfold manifest_at. destruct (validProfileName name); cbn [negb]; [|left; eexists; by eauto].
  destruct (readManifestFile_run (profilePath name) w Hw) as (r & H & Hr).
  destruct r as [[m|]|e|e]; [|left; eexists..|done].
  - erewrite M_bind_eq by exact H. unfold resolveCustomManifest.
    assert ((exists e, validateCustomManifestShape GOARCH m = Err e) \/
            validateCustomManifestShape GOARCH m = Ok tt) as [[e He]|He].
    { unfold validateCustomManifestShape. repeat case_match; eauto. }
    { left. exists e. split; [|right; eauto]. unfold lift, mbind, M_bind. by rewrite He. }
    unfold lift. erewrite M_bind_eq by by rewrite He.
    destruct (decide (ProfileName m ∈ seen)) as [Hs|Hs]; [left; eexists; split; [done|right; eauto]|].
    right. apply bind_Some in Hr as Hn. destruct Hn as (node & Hn & Hp). by exists m, node.
  - erewrite M_bind_eq by exact H. split; [done|left]. by rewrite Hr.
  - unfold mbind, M_bind. rewrite H. split; [done|by left].
Qed.
Lemma validate_ok m r : validateCustomManifestShape GOARCH m = r -> r = Ok tt \/ exists e, r = Err e.
Proof. intros <-. unfold validateCustomManifestShape. repeat case_match; eauto. Qed.

Lemma custom_ends fuel name seen w : faults w = [] -> builtin name = None ->
  (size (todo seen (store w)) < fuel)%nat ->
  exists r, custom fuel name seen w = (r, w) /\ (forall e, r <> Panic e) /\
    forall p, r = Ok p -> means (store w) name p.
Proof.
  intros Hw. revert name seen. induction fuel as [|fuel IH]; intros name seen Hb Hf; [lia|].
  destruct (custom_step fuel name seen w Hw Hb) as
    [(e & He & _)|(m & node & Hm & Hv & Hs & Hn & Hp & ->)]; [by exists (Err e)|].
  destruct (builtin (ProfileExtends m)) as [q|] eqn:Hq.
  { exists (Ok (extended m q)). split_and!; [done..|]. intros p [= <-]. exists 1%nat.
    cbn [resolved]. rewrite Hb, Hm. cbn. rewrite Hv. cbn. by rewrite Hq. }
  pose proof (todo_less _ _ _ _ _ Hn Hp Hs) as Hless.
  destruct (IH (ProfileExtends m) ({[ProfileName m]} ∪ seen) Hq ltac:(lia)) as (r & Hr & Hnp & Hok).
  unfold mbind at 1, M_bind at 1. rewrite Hr. destruct r as [q|e|e]; [|by exists (Err e)|by destruct (Hnp e)].
  exists (Ok (extended m q)). split_and!; [done..|]. intros p [= <-].
  destruct (Hok q eq_refl) as [n Hres]. exists (S n). cbn [resolved]. rewrite Hb, Hm. cbn.
  by rewrite Hv, Hres.
Qed.

Lemma custom_finds fuel name seen w n p : faults w = [] -> own_names (store w) ->
  builtin name = None -> (size (todo seen (store w)) < fuel)%nat ->
  resolved (store w) (S n) name = Some p -> resolved (store w) n name = None ->
  (forall s, s ∈ seen -> resolved (store w) (S n) s = None) ->
  custom fuel name seen w = (Ok p, w).
Proof.
  intros Hw Hown. revert n name seen p. induction fuel as [|fuel IH]; intros n name seen p Hb Hf Hres Hmin Hseen;
    [lia|].
  assert (name ∉ seen) as Hnot by (intros Hin; by rewrite (Hseen _ Hin) in Hres).
  pose proof Hres as Hres'. cbn [resolved] in Hres'. rewrite Hb in Hres'.
  apply bind_Some in Hres' as (m & Hm & Hres').
  pose proof (Hown _ _ Hm) as Hname.
  destruct (validateCustomManifestShape GOARCH m) as [[]|e|e] eqn:Hv; [|done..].
  apply fmap_Some in Hres' as (q & Hq & ->).
  destruct (custom_step fuel name seen w Hw Hb) as
    [(e & _ & [Hnone|(m' & Hm' & [[e' He']|Hin])])|(m' & node & Hm' & _ & Hs & Hn & Hp & ->)];
    [congruence| | |]; rewrite Hm in Hm'; injection Hm' as <-; [congruence|congruence|].
  destruct (builtin (ProfileExtends m)) as [b|] eqn:Hbm.
  { destruct n; cbn [resolved] in Hq; rewrite Hbm in Hq; by injection Hq as <-. }
  destruct n as [|n]; [cbn [resolved] in Hq; by rewrite Hbm in Hq|].
  pose proof (todo_less _ _ _ _ _ Hn Hp Hs) as Hless.
  erewrite M_bind_eq; [reflexivity|]. eapply (IH n); [done|lia|done| |].
  - cbn [resolved] in Hmin. rewrite Hb, Hm in Hmin. cbn in Hmin. rewrite Hv in Hmin.
    by apply fmap_None in Hmin.
  - intros s. rewrite elem_of_union, elem_of_singleton. intros [->|Hin]; [by rewrite Hname|].
    destruct (resolved (store w) (S n) s) eqn:E; [|done].
    apply resolved_S in E. by rewrite (Hseen _ Hin) in E.
Qed.

Lemma least_chain d name p : builtin name = None -> means d name p ->
  exists n, resolved d (S n) name = Some p /\ resolved d n name = None.
Proof.
  intros Hb [n Hn]. induction n as [|n IH]; [cbn in Hn; by rewrite Hb in Hn|].
  destruct (resolved d n name) as [q|] eqn:E; [|eauto].
  apply IH. apply resolved_S in E. congruence.
Qed.

(** C29: While the directory can be read ([faults w = []]), looking a profile up ends,
    with more fuel than there are files, changes nothing, and gives exactly the profile that the chain of parents makes, when
    every file carries its own name: a cycle, a parent that is missing and a
    file that is not a manifest are errors. *)
Theorem Get_correct fuel name w :
  faults w = [] -> own_names (store w) -> (size (store w) < fuel)%nat ->
  exists r, get fuel name w = (r, w) /\ (forall e, r <> Panic e) /\
    forall p, r = Ok p <-> means (store w) name p.
Proof.
  intros Hw Hown Hf. unfold Get. destruct (builtin name) as [b|] eqn:Hb.
  { exists (Ok b). split_and!; [done..|]. intros p. split.
    - intros [= <-]. exists 0%nat. cbn. by rewrite Hb.
    - intros Hp. f_equal. apply (means_unique (store w) name); [|done]. exists 0%nat. cbn. by rewrite Hb. }
  assert (size (todo ∅ (store w)) < fuel)%nat as Hf'.
  { eapply Nat.le_lt_trans; [|exact Hf]. apply map_subseteq_size, map_filter_subseteq. }
  destruct (custom_ends fuel name ∅ w Hw Hb Hf') as (r & Hr & Hnp & Hok). exists r.
  split_and!; [done..|]. intros p. split; [apply Hok|]. intros Hp.
  destruct (least_chain _ _ _ Hb Hp) as (n & Hn & Hmin).
  pose proof (custom_finds fuel name ∅ w n p Hw Hown Hb Hf' Hn Hmin ltac:(set_solver)) as H.
  rewrite Hr in H. by injection H.
Qed.

(** The manifests along the chain of parents. *)
Fixpoint lineage d (n : nat) (name : string) : list CustomProfileManifest :=
  match builtin name, n with
  | Some _, _ | _, O => []
  | None, S n => match manifest_at d name with
                 | Some m => m :: lineage d n (ProfileExtends m)
                 | None => []
                 end
  end.

Lemma resolved_lineage d n name p : resolved d n name = Some p ->
  exists b, b ∈ builtinProfiles GOARCH /\
    Seccomp p = Seccomp b /\ AppArmorProfile p = AppArmorProfile b /\
    NoNewPrivileges p = NoNewPrivileges b /\
    forall cap, cap ∈ Base p -> cap ∈ Base b \/ exists m, m ∈ lineage d n name /\ cap ∈ ProfileAddCap m.
Proof.
  revert name p. induction n as [|n IH]; intros name p; cbn [resolved lineage];
    destruct (builtin name) as [b|] eqn:Hb; try done.
  1, 2: intros [= <-]; exists b; (split; [|by split_and!; [..|by left]]);
    unfold builtinProfile in Hb; unfold builtinProfiles; repeat case_match; simplify_eq; set_solver.
  intros (m & Hm & H)%bind_Some. rewrite Hm.
  destruct (validateCustomManifestShape GOARCH m); [|done..].
  apply fmap_Some in H as (q & Hq & ->).
  destruct (IH _ _ Hq) as (b & Hin & Hsec & Harm & Hnnp & Hcap). exists b. split_and!; [done..|].
  intros cap [[Hc|Hc] _]%elem_of_mergeCapabilityDelta.
  - destruct (Hcap _ Hc) as [?|(m' & Hm' & ?)]; [by left|]. right. exists m'. split; [by right|done].
  - right. exists m. split; [by left|done].
Qed.
(** ** What custom profiles can have *)

Lemma get_ends fuel name w : faults w = [] -> (size (store w) < fuel)%nat ->
  exists r, get fuel name w = (r, w) /\ (forall e, r <> Panic e) /\
    forall p, r = Ok p -> means (store w) name p.
Proof.
  intros Hw Hf. unfold Get. destruct (builtin name) as [b|] eqn:Hb.
  - exists (Ok b). split_and!; [done..|]. intros p [= <-]. exists 0%nat. cbn. by rewrite Hb.
  - apply custom_ends; [done..|]. eapply Nat.le_lt_trans; [|exact Hf].
    apply map_subseteq_size, map_filter_subseteq.
Qed.

(** A custom profile has the system call filter, the AppArmor profile and
    the no-new-privileges flag of a built-in one, and no capability that is
    neither that profile's nor added by a manifest on the way to it. *)
Theorem custom_profile_confined fuel name w p w' :
  faults w = [] -> (size (store w) < fuel)%nat -> get fuel name w = (Ok p, w') ->
  exists b n, b ∈ builtinProfiles GOARCH /\
    Seccomp p = Seccomp b /\ AppArmorProfile p = AppArmorProfile b /\
    NoNewPrivileges p = NoNewPrivileges b /\
    forall cap, cap ∈ Base p ->
      cap ∈ Base b \/ exists m, m ∈ lineage (store w) n name /\ cap ∈ ProfileAddCap m.
Proof.
  intros Hw Hf H. destruct (get_ends fuel name w Hw Hf) as (r & Hr & _ & Hok).
  rewrite Hr in H. injection H as -> <-. destruct (Hok p eq_refl) as [n Hn].
  destruct (resolved_lineage _ _ _ _ Hn) as (b & Hb). by exists b, n.
Qed.

(** ** Registering and deleting *)

Lemma profilePath_inj : Inj (=) (=) profilePath.
Proof.
  assert (forall a b : string, String.length a = String.length b ->
    a +:+ ".yaml" = b +:+ ".yaml" -> a = b) as Hl.
  { induction a as [|c a IH]; intros [|e b]; cbn; try done.
    intros [= Hl] [= -> Hb]. f_equal. by apply IH. }
  intros a b H. apply Hl; [|done]. unfold profilePath in H.
  apply (f_equal String.length) in H. rewrite !string_length_app in H. lia.
Qed.

Lemma manifest_at_insert d name body name' m :
  d !! profilePath name = None -> manifest_at d name' = Some m ->
  manifest_at (<[profilePath name := body]> d) name' = Some m.
Proof.
  unfold manifest_at. intros Hd. destruct (validProfileName name'); [|done].
  intros (node & Hn & Hp)%bind_Some. rewrite lookup_insert_ne by congruence. by rewrite Hn.
Qed.

Lemma resolved_insert d name body n name' p :
  d !! profilePath name = None -> resolved d n name' = Some p ->
  resolved (<[profilePath name := body]> d) n name' = Some p.
Proof.
  intros Hd. revert name' p. induction n as [|n IH]; intros name' p; cbn [resolved];
    destruct (builtin name'); [done..|].
  intros (m & Hm & H)%bind_Some. rewrite (manifest_at_insert _ _ _ _ _ Hd Hm). cbn.
  destruct (validateCustomManifestShape GOARCH m); [|done..].
  apply fmap_Some in H as (q & Hq & ->). by rewrite (IH _ _ Hq).
Qed.

Lemma validateManifest_run fuel m w : faults w = [] -> (size (store w) < fuel)%nat ->
  exists r, validateManifest storeDir GOARCH fuel m w = (r, w) /\ (forall e, r <> Panic e) /\
    (r = Ok tt -> validProfileName (ProfileName m) = true /\ builtin (ProfileName m) = None).
Proof.
  intros Hw Hf. unfold validateManifest.
  destruct (String.eqb _ ""); [by eexists|].
  destruct (validProfileName (ProfileName m)) eqn:Hv; cbn [negb]; [|by eexists].
  destruct (builtin (ProfileName m)) eqn:Hb; [by eexists|].
  destruct (String.eqb (ProfileExtends m) ""); [by eexists|].
  destruct (String.eqb (ProfileExtends m) _); [by eexists|].
  destruct (get_ends fuel (ProfileExtends m) w Hw Hf) as (r & Hr & Hnp & _).
  unfold mbind, M_bind, attempt. rewrite Hr.
  destruct r as [q|e|e]; [|by eexists|by destruct (Hnp e)].
  destruct (first_match _ _); by eexists.
Qed.

Lemma WriteFile_run file body w : faults w = [] ->
  WriteFile file body w = (Ok tt, set_store (<[file := Some body]> (store w)) w).
Proof.
  intros Hw. unfold WriteFile, mbind, M_bind. rewrite txn_run by done. cbn.
  rewrite txn_run by done. cbn. unfold set_store. cbn. by rewrite insert_insert_eq.
Qed.

(** What is relied on: what is written is read back. *)
Context (Marshal : CustomProfileManifest -> res string).
Context (Unmarshal_Marshal : forall m body, Marshal m = Ok body -> Unmarshal body = Ok m).
Context (Marshal_returns : forall m e, Marshal m <> Panic e).

(** C30: While the directory can be read and written ([faults w = []]) and every file
    carries its own name, registering a profile adds one file with the manifest under a name that
    was free, and the result is what the name means from then on; every other
    profile means what it did and every file still carries its own name.  When
    it fails, the directory is as it was. *)
Theorem Register_correct fuel m w r w' :
  faults w = [] -> own_names (store w) -> (S (size (store w)) < fuel)%nat ->
  Register storeDir GOARCH Marshal fuel m w = (r, w') ->
  match r with
  | Ok p => exists body, Marshal m = Ok body /\
      store w !! profilePath (ProfileName m) = None /\
      store w' = <[profilePath (ProfileName m) := Some body]> (store w) /\
      means (store w') (ProfileName m) p /\ own_names (store w') /\
      forall name q, means (store w) name q -> means (store w') name q
  | Err _ => store w' = store w
  | Panic _ => False
  end.
Proof.
  intros Hw Hown Hf. unfold Register.
  destruct (validateManifest_run fuel m w Hw ltac:(lia)) as (rv & Hrv & Hnp & Hval).
  unfold mbind at 1, M_bind at 1. rewrite Hrv.
  destruct rv as [[]|e|e]; [|by intros [= <- <-]|by destruct (Hnp e)].
  destruct (Hval eq_refl) as [Hvalid Hb].
  unfold mbind at 1, M_bind at 1, wrap at 1, MkdirAll. rewrite txn_run by done. cbn.
  set (w1 := set_store (store w) w). assert (faults w1 = []) as Hw1 by done.
  unfold mbind at 1, M_bind at 1, wrap at 1, Stat. rewrite read_run by done. cbn.
  case_bool_decide as Hthere; [by intros [= <- <-]|].
  assert (store w !! profilePath (ProfileName m) = None) as Hnone by by apply eq_None_not_Some.
  unfold writeManifestFile. destruct (Marshal m) as [body|e|e] eqn:Hm;
    [|by intros [= <- <-]|by destruct (Marshal_returns m e)].
  unfold mbind at 1, M_bind at 1. rewrite WriteFile_run by done. cbn [store].
  set (w2 := set_store _ w1). assert (faults w2 = []) as Hw2 by done.
  assert (store w2 = <[profilePath (ProfileName m) := Some body]> (store w)) as Hs2 by done.
  destruct (get_ends fuel (ProfileName m) w2 Hw2) as (rg & Hrg & Hnpg & Hokg).
  { rewrite Hs2, map_size_insert_None by done. lia. }
  unfold mbind at 1, M_bind at 1, attempt. rewrite Hrg.
  destruct rg as [p|e|e]; [| |by destruct (Hnpg e)].
  - intros [= <- <-]. exists body. split_and!; [done..|by apply Hokg| |].
    + intros name m'. rewrite Hs2. unfold manifest_at.
      destruct (validProfileName name) eqn:Hvn; [|done].
      destruct (decide (name = ProfileName m)) as [->|Hne].
      * rewrite lookup_insert_eq. cbn. rewrite (Unmarshal_Marshal _ _ Hm). by intros [= <-].
      * rewrite lookup_insert_ne by (by intros ?%profilePath_inj). intros H. apply Hown.
        unfold manifest_at. by rewrite Hvn.
    + intros name q [n Hn]. exists n. rewrite Hs2. by apply resolved_insert.
  - unfold mbind, M_bind, ignore, Remove. rewrite txn_run by done. cbn. intros [= <- <-].
    cbn. by rewrite delete_insert_id.
Qed.
End profiles.

(** ** On a concrete directory *)
Module ProfileDemo.

(** A text format: the binary digits of the code of a manifest. *)
Fixpoint bits (p : positive) : string :=
  match p with
  | xH => ""
  | xO p => String "0" (bits p)
  | xI p => String "1" (bits p)
  end.
Fixpoint unbits (s : string) : positive :=
  match s with
  | EmptyString => xH
  | String c s => if Ascii.eqb c "1" then xI (unbits s) else xO (unbits s)
  end.
Lemma unbits_bits p : unbits (bits p) = p.
Proof. induction p as [p IH|p IH|]; cbn; by rewrite ?IH. Qed.

Definition fields : Type :=
  string * string * list string * list string * string * string * list string * list string.
Definition to_fields (m : CustomProfileManifest) : fields :=
  (m_Metadata_Name m, m_Spec_Extends m, m_Spec_AddCap m, m_Spec_DropCap m, m_Name m, m_Extends m,
   m_AddCap m, m_DropCap m).
Definition of_fields (f : fields) : CustomProfileManifest :=
  let '(a, b, c, d, e, g, h, i) := f in
  {| m_Metadata_Name := a; m_Spec_Extends := b; m_Spec_AddCap := c; m_Spec_DropCap := d;
     m_Name := e; m_Extends := g; m_AddCap := h; m_DropCap := i |}.
Definition Marshal (m : CustomProfileManifest) : res string := Ok (bits (encode (to_fields m))).
#[local] Instance codec : YamlType CustomProfileManifest := fun s =>
  match decode (A := fields) (unbits s) with
  | Some f => Ok (of_fields f)
  | None => Err "not a manifest"
  end.

Lemma Unmarshal_returns body e : Unmarshal (A := CustomProfileManifest) body <> Panic e.
Proof. unfold Unmarshal, codec. by destruct (decode _). Qed.
Lemma Unmarshal_Marshal m body : Marshal m = Ok body -> Unmarshal body = Ok m.
Proof.
  intros [= <-]. unfold Unmarshal, codec. rewrite unbits_bits, decode_encode. by destruct m.
Qed.
Lemma Marshal_returns m e : Marshal m <> Panic e.
Proof. done. Qed.

Definition manifest (name parent : string) (add drop : list string) : CustomProfileManifest :=
  {| m_Metadata_Name := name; m_Spec_Extends := parent; m_Spec_AddCap := add;
     m_Spec_DropCap := drop; m_Name := ""; m_Extends := ""; m_AddCap := []; m_DropCap := [] |}.
Definition web : CustomProfileManifest :=
  manifest "web" "restricted" ["CAP_NET_BIND_SERVICE"; "CAP_CHOWN"] [].
Definition admin : CustomProfileManifest := manifest "admin" "web" ["CAP_KILL"] ["CAP_CHOWN"].
Definition text (m : CustomProfileManifest) : string := bits (encode (to_fields m)).

Definition with_web : gmap string (option string) := <["web.yaml" := Some (text web)]> ∅.
Definition begin (d : gmap string (option string)) : world (gmap string (option string)) unit unit :=
  {| store := d; faults := []; times := []; ids := []; trace := []; inner := tt |}.

Lemma with_web_named : own_names with_web.
Proof.
  intros name m. unfold manifest_at. destruct (validProfileName name); [|done].
  intros (node & Hn & Hp)%bind_Some. unfold with_web in Hn.
  apply lookup_insert_Some in Hn as [[Hf <-]|[_ Hn]]; [|by rewrite lookup_empty in Hn].
  change "web.yaml" with (profilePath "web") in Hf. apply profilePath_inj in Hf as <-.
  cbn [parsed] in Hp. unfold text in Hp.
  rewrite (Unmarshal_Marshal web _ eq_refl) in Hp. by injection Hp as <-.
Qed.

Definition admin_profile : SecurityProfile :=
  {| Name := "admin"; Type_ := ProfileTypeCustom; Extends := "web"; AddCap := ["CAP_KILL"];
     DropCap := ["CAP_CHOWN"]; Base := ["CAP_NET_BIND_SERVICE"; "CAP_KILL"];
     Seccomp := Seccomp (DefaultSecurityProfile "amd64"); AppArmorProfile := "raind-default";
     NoNewPrivileges := true |}.

Definition after := (Register "/p" "amd64" Marshal 5 admin (begin with_web)).2.
Lemma registered : (Register "/p" "amd64" Marshal 5 admin (begin with_web)).1 = Ok admin_profile.
Proof. vm_compute. reflexivity. Qed.

Example Register_correct_witness :
  exists body, Marshal admin = Ok body /\ store (begin with_web) !! "admin.yaml" = None /\
    store after = <["admin.yaml" := Some body]> (store (begin with_web)) /\
    means "amd64" (store after) "admin" admin_profile /\ own_names (store after) /\
    forall name q, means "amd64" (store (begin with_web)) name q -> means "amd64" (store after) name q.
Proof.
  apply (Register_correct "/p" "amd64" Unmarshal_returns Marshal Unmarshal_Marshal Marshal_returns
           5 admin (begin with_web) (Ok admin_profile) after).
  - done.
  - exact with_web_named.
  - vm_compute. lia.
  - unfold after. rewrite <- registered. apply surjective_pairing.
Defined.

Example Get_correct_witness :
  exists r, Get "/p" "amd64" 5 "web" (begin with_web) = (r, begin with_web) /\
    (forall e, r <> Panic e) /\ forall p, r = Ok p <-> means "amd64" (store (begin with_web)) "web" p.
Proof.
  apply (Get_correct "/p" "amd64" Unmarshal_returns 5 "web" (begin with_web) eq_refl with_web_named).
  vm_compute. lia.
Defined.

Lemma admin_got : (Get "/p" "amd64" 5 "admin" (begin (store after))).1 = Ok admin_profile.
Proof. vm_compute. reflexivity. Qed.

Example custom_profile_confined_witness :
  exists b n, b ∈ builtinProfiles "amd64" /\
    Seccomp admin_profile = Seccomp b /\ AppArmorProfile admin_profile = AppArmorProfile b /\
    NoNewPrivileges admin_profile = NoNewPrivileges b /\
    forall cap, cap ∈ Base admin_profile ->
      cap ∈ Base b \/ exists m, m ∈ lineage "amd64" (store after) n "admin" /\ cap ∈ ProfileAddCap m.
Proof.
  apply (custom_profile_confined "/p" "amd64" Unmarshal_returns 5 "admin" (begin (store after))
           admin_profile (Get "/p" "amd64" 5 "admin" (begin (store after))).2).
  - done.
  - vm_compute. lia.
  - rewrite <- admin_got. apply surjective_pairing.
Defined.

(** Two profiles that extend each other are refused. *)
Definition loop : gmap string (option string) :=
  <["a.yaml" := Some (text (manifest "a" "b" [] []))]>
    (<["b.yaml" := Some (text (manifest "b" "a" [] []))]> ∅).
Example cycle_refused :
  (Get "/p" "amd64" 5 "a" (begin loop)).1 = Err "security profile extends cycle detected: a".
Proof. vm_compute. reflexivity. Qed.

(** A write that fails leaves an empty file: the name is taken and means nothing. *)
Definition failing : world (gmap string (option string)) unit unit :=
  {| store := ∅; faults := [None; None; None; Some "no space left on device"]; times := [];
     ids := []; trace := []; inner := tt |}.
Example failed_write_takes_name :
  let w := (Register "/p" "amd64" Marshal 5 web failing).2 in
  (Register "/p" "amd64" Marshal 5 web w).1 = Err "security profile already exists: web" /\
  (Get "/p" "amd64" 5 "web" w).1 <> Ok (RestrictedSecurityProfile "amd64") /\
  is_ok (Get "/p" "amd64" 5 "web" w).1 = false.
Proof. vm_compute. split_and!; done. Qed.
End ProfileDemo.
