(* ===== verification/ContainerCalls.v ===== *)
(** * The container service: tables, calls and parts ([core/container])

    The tables that the service reads and writes, what it asks of the runtime,
    the images, the network and the file system, and the pure parts of a
    creation ([service_create.go], [rootless_options.go]). *)

From Stdlib Require Import ZArith Lia Ascii String.
From stdpp Require Import base gmap strings list.
From S2P Require Import Prelude.
From S2P Require Import GoString.
From S2P Require Import GoNumber.
From S2P Require Import GoPath.
From S2P Require Import World.
From S2P Require Ipam.
From S2P Require Csm.
From S2P Require Psm.
From S2P Require Profiles.
From S2P Require Import ContainerModel.
Open Scope Z_scope.

(** ** Constants ([utils/paths.go], [utils/droplet.go]) *)

Definition ContainerRootDir : string := "/etc/raind/container".
Definition CgroupRuntimeDir : string := "/sys/fs/cgroup/raind".
Definition PublicCertPath : string := "/etc/raind/cert/raind.crt".
Definition ClientIssuerCACertPath : string := "/etc/raind/cert/raindClientCA.crt".
Definition ClientIssuerCAKeyPath : string := "/etc/raind/cert/raindClientCA.key".
Definition HookClientCertPath : string := "/etc/raind/cert/raindHookClient.crt".
Definition HookClientKeyPath : string := "/etc/raind/cert/raindHookClient.key".
Definition PodInfraImage : string := "registry.k8s.io/pause:3.9".
Definition PodInfraContainerNamePrefix : string := "condenser-pod-infra-".
Definition DefaultDropletId : string := "container".

(** ** Parameters of the calls ([core/image/model.go], [condenser/runtime]) *)

Record ImageConfigObject := {
  i_Env : list string;
  i_Cmd : list string;
  i_Entrypoint : list string;
  i_WorkingDir : string;
  i_User : string
}.

Record SpecModel := {
  Rootfs : string;
  Cwd : string;
  Command : string;
  Namespace : list string;
  NSPath : list string;
  Hostname : string;
  Env : list string;
  Mount : list string;
  CapAdd : list string;
  CapDrop : list string;
  CapBase : list string;
  SecurityProfile : string;
  SeccompJSON : string;
  AppArmorProfile : string;
  NoNewPrivileges : bool;
  Rootless : bool;
  RootlessMode : string;
  RootlessRootUID : Z;
  RootlessRootGID : Z;
  HostInterface : string;
  BridgeInterface : string;
  ContainerInterface : string;
  ContainerInterfaceAddr : string;
  ContainerGateway : string;
  ContainerDns : list string;
  ImageLayer : list string;
  UpperDir : string;
  WorkDir : string;
  CreateRuntimeHook : list string;
  CreateRuntimeHookEnv : list string;
  CreateContainerHook : list string;
  CreateContainerHookEnv : list string;
  StartContainerHook : list string;
  StartContainerHookEnv : list string;
  PoststartHook : list string;
  PoststartHookEnv : list string;
  StopContainerHook : list string;
  StopContainerHookEnv : list string;
  PoststopHook : list string;
  PoststopHookEnv : list string;
  Output : string
}.

(** ** The tables and the calls *)

Record tables := {
  t_ipam : Ipam.IpamState;
  t_csm : Csm.ContainerState;
  t_psm : Psm.PodState
}.
Definition set_ipam (t : tables) (x : Ipam.IpamState) : tables :=
  {| t_ipam := x; t_csm := t_csm t; t_psm := t_psm t |}.
Definition set_csm (t : tables) (x : Csm.ContainerState) : tables :=
  {| t_ipam := t_ipam t; t_csm := x; t_psm := t_psm t |}.
Definition set_psm (t : tables) (x : Psm.PodState) : tables :=
  {| t_ipam := t_ipam t; t_csm := t_csm t; t_psm := x |}.

(** What is asked of others, each call with the type of its answer. *)
Inductive container_call : Type -> Type :=
| IsImageExist (repo ref : string) : container_call bool
| GetConfigPath (repo ref : string) : container_call string
| GetRootfsPath (repo ref : string) : container_call string
| GetImageConfig (path : string) : container_call ImageConfigObject
| HostOs : container_call string
| HostArch : container_call string
| PullImage (image os arch : string) : container_call unit
| ResolveProfile (name : string) : container_call Profiles.SecurityProfile
| GenerateRandName : container_call string
| CreateForwardingRule (containerId hostPort containerPort protocol : string) : container_call unit
| RemoveForwardingRule (containerId hostPort containerPort protocol : string) : container_call unit
| IssueClientCert (certPath keyPath caCert caKey commonName spiffeId : string) : container_call unit
| RuntimeSpec (m : SpecModel) : container_call unit
| RuntimeCreate (containerId : string) (tty : bool) : container_call unit
| RuntimeStart (containerId : string) (tty : bool) : container_call unit
| RuntimeStop (containerId : string) : container_call unit
| RuntimeDelete (containerId : string) (force : bool) : container_call unit
| RuntimeExec (containerId : string) (tty : bool) (entrypoint : list string) : container_call unit
| MkdirAll (path : string) : container_call unit
| WriteFile (path data : string) : container_call unit
| ReadFile (path : string) : container_call string
| Stat (path : string) : container_call unit
| LchownTree (path : string) (uid gid : Z) : container_call unit
| Chmod (path : string) (mode : Z) : container_call unit
| Remove (path : string) : container_call unit
| RemoveAll (path : string) : container_call unit
| TailLines (path : string) (lines maxBytes : Z) : container_call string
| Getuid : container_call Z
| Getgid : container_call Z
| Sleep (milliseconds : Z) : container_call unit.

(** The runtime's hooks report to the daemon, which writes the tables. *)
Class ContainerPeers (X : Type) :=
  answer : forall A, container_call A -> tables * X -> res A * (tables * X).
Definition asked : Type := { A : Type & container_call A }.

Section monad.
Context {X : Type} {P : ContainerPeers X}.
#[local] Notation M := (M tables asked X).

Definition ask {A} (c : container_call A) : M A := fun w =>
  let '(r, (st, i)) := answer A c (store w, inner w) in
  (r, {| store := st; faults := faults w; times := times w; ids := ids w;
         trace := trace w ++ [existT A c]; inner := i |}).
(** An answer that cannot be an error ([os.Getuid], [time.Sleep]). *)
Definition ask_always {A} (zero : A) (c : container_call A) : M A := or_zero zero (ask c).

Definition ipam {A} (fn : Ipam.IpamState -> res A) : M A := read (fun t => fn (t_ipam t)).
Definition csm {A} (fn : Csm.ContainerState -> res A) : M A := read (fun t => fn (t_csm t)).
Definition psm {A} (fn : Psm.PodState -> res A) : M A := read (fun t => fn (t_psm t)).
Definition on_ipam {A} (fn : Ipam.IpamState -> res (Ipam.IpamState * A)) : M A :=
  txn (fun t => '(x, a) ← fn (t_ipam t); Ok (set_ipam t x, a)).
Definition on_csm {A} (fn : Csm.ContainerState -> res (Csm.ContainerState * A)) : M A :=
  txn (fun t => '(x, a) ← fn (t_csm t); Ok (set_csm t x, a)).
Definition on_psm {A} (fn : Psm.PodState -> res (Psm.PodState * A)) : M A :=
  txn (fun t => '(x, a) ← fn (t_psm t); Ok (set_psm t x, a)).
Definition timed {A} (m : Z -> M A) : M A := t ← now; m t.

(** A loop that ends with the first error. *)
Fixpoint each {A} (f : A -> M unit) (l : list A) : M unit :=
  match l with [] => mret tt | x :: l => _ ← f x; each f l end.
Definition lift {A} (r : res A) : M A := fun w => (r, w).

(** [fmt.Errorf(what + ": %w", err)]. *)
Definition wrap {A} (what : string) (m : M A) : M A := fun w =>
  match m w with (Err e, w) => (Err (what +:+ ": " +:+ e), w) | r => r end.
End monad.

(** ** Errors

    Errors are their texts: [os.ErrNotExist] and [syscall.EBUSY] are found by
    the texts they have. *)
Definition isNotFoundErr (e : error) : bool :=
  contains (toLower e) "not found" || contains (toLower e) "no such file" ||
  hasSuffix e "file does not exist".
Definition isBusyErr (e : error) : bool := hasSuffix e "device or resource busy".

(** ** Parameters of a creation *)

Definition rootlessModeShiftedRoot : string := "shifted-root".
Definition rootlessModeLoginRoot : string := "login-root".

Definition set_rootless (p : ServiceCreateModel) (rootless : bool) (mode : string)
    : ServiceCreateModel :=
  {| cm_Image := cm_Image p; cm_Os := cm_Os p; cm_Arch := cm_Arch p; cm_Command := cm_Command p;
     cm_Port := cm_Port p; cm_Mount := cm_Mount p; cm_Device := cm_Device p; cm_Env := cm_Env p;
     cm_CapAdd := cm_CapAdd p; cm_CapDrop := cm_CapDrop p;
     cm_SecurityProfile := cm_SecurityProfile p; cm_Network := cm_Network p; cm_Tty := cm_Tty p;
     cm_Name := cm_Name p; cm_BottleId := cm_BottleId p; cm_PodId := cm_PodId p;
     cm_Rootless := rootless; cm_RootlessMode := mode; cm_RootlessRootUID := cm_RootlessRootUID p;
     cm_RootlessRootGID := cm_RootlessRootGID p; cm_IsPodInfra := cm_IsPodInfra p |}.
Definition set_SecurityProfile (p : ServiceCreateModel) (name : string) : ServiceCreateModel :=
  {| cm_Image := cm_Image p; cm_Os := cm_Os p; cm_Arch := cm_Arch p; cm_Command := cm_Command p;
     cm_Port := cm_Port p; cm_Mount := cm_Mount p; cm_Device := cm_Device p; cm_Env := cm_Env p;
     cm_CapAdd := cm_CapAdd p; cm_CapDrop := cm_CapDrop p; cm_SecurityProfile := name;
     cm_Network := cm_Network p; cm_Tty := cm_Tty p;
     cm_Name := cm_Name p; cm_BottleId := cm_BottleId p; cm_PodId := cm_PodId p;
     cm_Rootless := cm_Rootless p; cm_RootlessMode := cm_RootlessMode p;
     cm_RootlessRootUID := cm_RootlessRootUID p; cm_RootlessRootGID := cm_RootlessRootGID p;
     cm_IsPodInfra := cm_IsPodInfra p |}.

Definition normalizeRootlessCreateParameter (p : ServiceCreateModel) : ServiceCreateModel :=
  if String.eqb (cm_RootlessMode p) "" then set_rootless p (cm_Rootless p) rootlessModeShiftedRoot
  else if String.eqb (cm_RootlessMode p) rootlessModeShiftedRoot then p
  else if String.eqb (cm_RootlessMode p) rootlessModeLoginRoot
  then set_rootless p true (cm_RootlessMode p)
  else p.

Definition shortId (id : string) (length : nat) : string :=
  if Nat.leb (String.length id) length then id else take_str length id.

Definition buildPodContainerName (baseName podId : string) : string :=
  if String.eqb podId "" then baseName else
  let n := String.length podId in
  baseName +:+ "-" +:+ (if Nat.ltb 8 n then drop_str (n - 8) podId else podId).

Definition podInfraName (podId : string) : string :=
  PodInfraContainerNamePrefix +:+ shortId podId 12.
Definition isPodInfraName (name podId : string) : bool :=
  hasPrefix name PodInfraContainerNamePrefix || String.eqb name (podInfraName podId).

(** ** Image references *)

Definition isRegistryHost (host : string) : bool :=
  String.eqb host "localhost" || contains host "." || contains host ":".
Definition normalizeRegistry (reg : string) : string :=
  if String.eqb reg "docker.io" || String.eqb reg "index.docker.io"
  then "registry-1.docker.io" else reg.

(** The name before the sign, and what is after it. *)
Definition split_reference (imageStr : string) : string * string :=
  match cut "@" imageStr with
  | Some (repo, ref) => (repo, ref)
  | None =>
      match cut ":" imageStr with
      | Some (repo, ref) => (repo, if String.eqb ref "" then "latest" else ref)
      | None => (imageStr, "latest")
      end
  end.
Definition split_registry (repo : string) : string * string :=
  match cut "/" repo with
  | Some (first, rest) =>
      if isRegistryHost first then (normalizeRegistry first, rest) else ("", repo)
  | None => ("", repo)
  end.
Definition parseImageRef (imageStr : string) : res (string * string) :=
  let '(repo, ref) := split_reference imageStr in
  if String.eqb repo "" then Err "empty repository" else
  let '(registry, repo) := split_registry repo in
  Ok (if String.eqb registry "" || String.eqb registry "registry-1.docker.io"
      then (if contains repo "/" then repo else "library/" +:+ repo)
      else registry +:+ "/" +:+ repo,
      ref).

(** ** Devices *)

(** Source, destination and permissions. *)
Definition device_parts (spec : string) : option (string * string * string) :=
  match split ":" spec with
  | [src] => Some (trimSpace src, trimSpace src, "")
  | [src; dst] => Some (trimSpace src, trimSpace dst, "")
  | [src; dst; perm] => Some (trimSpace src, trimSpace dst, trimSpace perm)
  | _ => None
  end.
Definition device_options (raw perm : string) : res (list string) :=
  let opts := ["bind"; "rprivate"; "dev"] in
  if String.eqb perm "" then Ok opts else
  let p := toLower perm in
  if negb (contains p "r" || contains p "w" || contains p "m")
  then Err ("invalid --device permission: " +:+ quoted raw +:+ " (use rwm)") else
  Ok (if contains p "r" && negb (contains p "w") then opts ++ ["ro"] else opts).
Definition device_mount (raw spec : string) : res string :=
  match device_parts spec with
  | None => Err ("invalid --device format: " +:+ quoted raw +:+ " (expected SRC[:DST[:rwm]])")
  | Some (src, dst, perm) =>
      if String.eqb src "" || String.eqb dst ""
      then Err ("invalid --device format: " +:+ quoted raw +:+ " (empty path)") else
      if negb (hasPrefix src "/") || negb (hasPrefix dst "/")
      then Err ("invalid --device format: " +:+ quoted raw +:+ " (absolute path required)") else
      opts ← device_options raw perm;
      Ok (join ":" [src; dst; join "," opts])
  end.
Fixpoint buildDeviceMounts (devices : list string) : res (list string) :=
  match devices with
  | [] => Ok []
  | raw :: devices =>
      let spec := trimSpace raw in
      if String.eqb spec "" then buildDeviceMounts devices else
      mount ← device_mount raw spec;
      rest ← buildDeviceMounts devices;
      Ok (mount :: rest)
  end.

(** ** Ports *)

Definition port_parts (port : string) : res (string * string * string) :=
  match split ":" port with
  | [sport; dport] => Ok (sport, dport, "tcp")
  | [sport; dport; protocol] => Ok (sport, dport, protocol)
  | _ => Err ("port format failed: " +:+ port)
  end.
(** [n, _ := strconv.Atoi(s)]: an error leaves 0, a number out of range the
    nearest one. *)
Definition atoi_or (s : string) : Z :=
  match Atoi s with
  | Ok n => n
  | Err e | Panic e => if negb (String.eqb e (range_error "Atoi" s)) then 0
                       else if hasPrefix s "-" then MinInt64 else MaxInt64
  end.
