(* ===== verification/ContainerCreate.v ===== *)
(** * The container service: operations ([core/container])

    [Create] with its roll-back, the specification it hands to the runtime, the
    infra container of a pod, and [Start], [Stop], [Delete] and [Exec]. *)

From Stdlib Require Import ZArith Lia Ascii String.
From stdpp Require Import base gmap strings list.
From S2P Require Import Prelude.
From S2P Require Import GoString.
From S2P Require Import GoPath.
From S2P Require Import Persist.
From S2P Require Import World.
From S2P Require Ipam.
From S2P Require Csm.
From S2P Require Psm.
From S2P Require Profiles.
From S2P Require Import PathSafety.
From S2P Require Import ContainerModel.
From S2P Require Import ContainerList.
From S2P Require Import ContainerCalls.
Open Scope Z_scope.

Section service.
Context {RO : RangeOrder} {X : Type} {P : ContainerPeers X}.
#[local] Notation M := (M tables asked X).

(** [os.Getwd], the hook agent's path, [shellescape.Quote], the encoding of a
    system call filter and the identifiers of rootless containers. *)
Context (cwd : res string) (HookAgentBinPath : string) (Quote : string -> string)
  (marshal_seccomp : Profiles.SeccompObject -> res string) (uidBase gidBase : Z).
Implicit Types p : ServiceCreateModel.

(** ** Lookups *)

(** Two reads of the table ([Csm.ResolveContainerId]). *)
Definition ResolveContainerId (target : string) : M string :=
  byName ← attempt (csm (Csm.GetContainerIdByName target));
  match byName with
  | Ok containerId => mret containerId
  | _ => _ ← csm (Csm.GetContainerById target); mret target
  end.
(** [fmt.Errorf("container: %s not found", target)] for any error. *)
Definition resolve (target : string) : M string := fun w =>
  match ResolveContainerId target w with
  | (Err _, w) => (Err ("container: " +:+ target +:+ " not found"), w)
  | r => r
  end.
(** [info, err := GetContainerById(id)] where [err] is not looked at: the zero
    value has an empty state and bottle. *)
Definition no_container : Csm.ContainerInfo :=
  Csm.new_container
    {| Csm.req_ContainerId := ""; Csm.req_State := ""; Csm.req_Pid := 0; Csm.req_Tty := false;
       Csm.req_Repository := ""; Csm.req_Reference := ""; Csm.req_Command := [];
       Csm.req_ContainerName := ""; Csm.req_BottleId := ""; Csm.req_LogPath := "";
       Csm.req_PodId := ""; Csm.req_DropletId := ""; Csm.req_SecurityProfile := "" |} 0.
Definition container_info (containerId : string) : M Csm.ContainerInfo :=
  or_zero no_container (csm (Csm.GetContainerById containerId)).

Definition GetContainersByPodId (podId : string) : M (list ContainerState) :=
  l ← csm (Csm.GetContainersByPodId podId);
  pools ← ipam Ipam.GetPoolList;
  mret (container_state pools <$> l).

Definition exists_path (path : string) : M bool :=
  if String.eqb path "" then mret false else
  r ← attempt (ask (Stat path)); mret (is_ok r).

(** [a && b] with calls on the right. *)
Definition and_then (b : bool) (m : M bool) : M bool := if b then m else mret false.

Definition podNamespacesReady (pod : Psm.PodInfo) : M bool :=
  if String.eqb (Psm.NetworkNS pod) "" || String.eqb (Psm.IPCNS pod) "" ||
     String.eqb (Psm.UTSNS pod) "" then mret false else
  user ← (if String.eqb (Psm.UserNS pod) "" then mret true else exists_path (Psm.UserNS pod));
  if negb user then mret false else
  network ← exists_path (Psm.NetworkNS pod);
  ipc ← and_then network (exists_path (Psm.IPCNS pod));
  and_then ipc (exists_path (Psm.UTSNS pod)).
Definition podNamespacesPopulated (pod : Psm.PodInfo) : bool :=
  negb (String.eqb (Psm.UserNS pod) "") || negb (String.eqb (Psm.NetworkNS pod) "") ||
  negb (String.eqb (Psm.IPCNS pod) "") || negb (String.eqb (Psm.UTSNS pod) "").

(** ** The runtime *)

Definition createContainer (containerId : string) (tty : bool) : M unit :=
  ask (RuntimeCreate containerId tty).
Definition startContainer (containerId : string) (tty : bool) : M unit :=
  ask (RuntimeStart containerId tty).
Definition stopContainer (containerId : string) : M unit := ask (RuntimeStop containerId).
Definition deleteContainer (containerId : string) (force : bool) : M unit :=
  ask (RuntimeDelete containerId force).

Definition joinContainer (containerId : string) (tty : bool) (podId : string) : M unit :=
  pod ← psm (Psm.GetPodById podId);
  if Psm.OwnerPid pod <=? 0 then
    _ ← ignore (on_psm (Psm.ResetPodNamespaces podId)); createContainer containerId tty
  else ask (RuntimeCreate containerId tty).

(** ** Directories and rules *)

Definition setupContainerDirectory (containerId : string) : M unit :=
  let containerDir := Join [ContainerRootDir; containerId] in
  each (fun dir => ask (MkdirAll dir))
    (containerDir :: ((fun d => Join [containerDir; d]) <$>
       ["diff"; "work"; "merged"; "etc"; "logs"; "cert"])).
Definition deleteContainerDirectory (containerId : string) : M unit :=
  containerDir ← lift (SafeJoin cwd ContainerRootDir [containerId]);
  RemoveAllUnderRoot cwd (fun path => ask (RemoveAll path)) ContainerRootDir containerDir.
Definition setupCgroupSubtree (containerId : string) : M unit :=
  ask (MkdirAll (Join [CgroupRuntimeDir; containerId])).
Definition ChangeCgroupMode (containerId : string) : M unit :=
  ask (Chmod (Join [CgroupRuntimeDir; containerId]) 365).
Definition deleteCgroupSubtree (containerId : string) : M unit :=
  cgroupPath ← lift (SafeJoin cwd CgroupRuntimeDir [containerId]);
  ask (Remove cgroupPath).

Definition forward_call (call : string -> string -> string -> string -> container_call unit)
    (containerId : string) (f : Ipam.ForwardInfo) : M unit :=
  ask (call containerId (itoa (Ipam.HostPort f)) (itoa (Ipam.ContainerPort f)) (Ipam.fi_Protocol f)).
Definition cleanupForwardRules (containerId : string) : M unit :=
  forwards ← ipam (Ipam.GetForwardInfo containerId);
  each (forward_call RemoveForwardingRule containerId) forwards.
Definition restoreForwardRules (containerId : string) : M unit :=
  forwards ← ipam (Ipam.GetForwardInfo containerId);
  each (forward_call CreateForwardingRule containerId) forwards.
Definition setupForwardRule (containerId : string) (ports : list string) : M unit :=
  each (fun port =>
    '(sport, dport, protocol) ← lift (port_parts port);
    _ ← ask (CreateForwardingRule containerId sport dport protocol);
    on_ipam (Ipam.SetForwardInfo containerId (atoi_or sport) (atoi_or dport) protocol)) ports.

Definition releaseAddress (containerId : string) : M unit := on_ipam (Ipam.Release containerId).
(** The gateway and the address with its mask. *)
Definition allocateAddress (containerId bridgeInterface : string) : M (string * string) :=
  addr ← timed (fun t => on_ipam (Ipam.Allocate containerId bridgeInterface t));
  gateway ← ipam (Ipam.GetBridgeAddr bridgeInterface);
  mret (split_head "/" gateway, addr +:+ "/24").

(** ** The files of a container *)

Definition add_domain (domains : list string) (domain : string) : list string :=
  let domain := trimSpace domain in
  if String.eqb domain "" || existsb (String.eqb domain) domains then domains
  else domains ++ [domain].
Definition resolvSearchDomains (networkName podId : string) : M (list string) :=
  pod ← (if String.eqb podId "" then mret (Err "") else attempt (psm (Psm.GetPodById podId)));
  let domains :=
    match pod with
    | Ok pod =>
        let namespace := trimSpace (Psm.Namespace pod) in
        fold_left add_domain
          ((if String.eqb namespace "" then [] else [namespace +:+ ".svc.cluster.local"]) ++
           ["svc.cluster.local"; "cluster.local"]) []
    | _ => []
    end in
  mret (if String.eqb networkName "" then domains else add_domain domains (networkName +:+ ".raind")).

Definition setupEtcFiles (containerId containerAddr containerGateway networkName podId : string)
    : M unit :=
  let etcDir := Join [ContainerRootDir; containerId; "etc"] in
  _ ← ask (WriteFile (Join [etcDir; "hosts"])
             ("127.0.0.1 localhost" +:+ newline +:+ split_head "/" containerAddr +:+ " " +:+
              containerId +:+ newline));
  _ ← ask (WriteFile (Join [etcDir; "hostname"]) (containerId +:+ newline));
  let gateway := if String.eqb containerGateway "" then "8.8.8.8" else containerGateway in
  searchDomains ← resolvSearchDomains networkName podId;
  ask (WriteFile (Join [etcDir; "resolv.conf"])
         ("nameserver " +:+ gateway +:+ newline +:+
          match searchDomains with
          | [] => ""
          | _ => "search " +:+ join " " searchDomains +:+ newline
          end)).

Definition issueRootlessPodMemberClientCert (containerId : string) : M unit :=
  let file name := Join [ContainerRootDir; containerId; "cert"; name] in
  ask (IssueClientCert (file "client.crt") (file "client.key") ClientIssuerCACertPath
         ClientIssuerCAKeyPath "raind-client" ("spiffe://raind/container/" +:+ containerId)).
Definition rootlessRuntimeHostRootID p : M (Z * Z) :=
  if String.eqb (cm_RootlessMode p) rootlessModeLoginRoot then
    uid ← (if cm_RootlessRootUID p <=? 0 then ask_always 0 Getuid else mret (cm_RootlessRootUID p));
    gid ← (if cm_RootlessRootGID p <=? 0 then ask_always 0 Getgid else mret (cm_RootlessRootGID p));
    mret (uid, gid)
  else mret (uidBase, gidBase).
Definition prepareRootlessPodMemberBundle (containerId : string) p : M unit :=
  '(uid, gid) ← rootlessRuntimeHostRootID p;
  ask (LchownTree (Join [ContainerRootDir; containerId]) uid gid).

(** ** The specification *)

Definition own_namespaces (rootless : bool) : list string :=
  ["mount"; "network"; "uts"; "pid"; "ipc"; "cgroup"] ++ (if rootless then ["user"] else []).
Definition joined_namespaces (rootless : bool) : list string :=
  ["mount"; "pid"; "cgroup"] ++ (if rootless then ["user"] else []).

(** The namespaces a container gets of its own and the paths of those it joins. *)
Definition container_namespaces p (podId : string) : M (list string * list string) :=
  if String.eqb podId "" then mret (own_namespaces (cm_Rootless p), []) else
  pod ← psm (Psm.GetPodById podId);
  if String.eqb (Psm.NetworkNS pod) "" || String.eqb (Psm.IPCNS pod) "" ||
     String.eqb (Psm.UTSNS pod) "" then mret (own_namespaces (cm_Rootless p), []) else
  network ← exists_path (Psm.NetworkNS pod);
  ipc ← and_then network (exists_path (Psm.IPCNS pod));
  uts ← and_then ipc (exists_path (Psm.UTSNS pod));
  ready ← and_then uts (if String.eqb (Psm.UserNS pod) "" then mret true
                        else exists_path (Psm.UserNS pod));
  if ready : bool then
    mret (joined_namespaces (cm_Rootless p),
          ["network=" +:+ Psm.NetworkNS pod; "ipc=" +:+ Psm.IPCNS pod; "uts=" +:+ Psm.UTSNS pod])
  else
    _ ← ignore (on_psm (Psm.ResetPodNamespaces podId));
    mret (own_namespaces (cm_Rootless p), []).

Definition buildCommand (entrypoint cmd : list string) : string :=
  join " " (Quote <$> entrypoint ++ cmd).

Definition hook (url event cert key : string) : string :=
  join "," [HookAgentBinPath; "--url"; url; "--event"; event; "--ca"; PublicCertPath;
            "--cert"; cert; "--key"; key].
Definition container_hook (containerId hookAddr event : string) : string :=
  hook ("https://" +:+ hookAddr +:+ ":7756/v1/hooks/droplet") event
    (Join [ContainerRootDir; containerId; "/cert/client.crt"])
    (Join [ContainerRootDir; containerId; "/cert/client.key"]).
Definition hook_env : string := "RAIND-HOOK-SETTER=CONDENSER".

Definition createContainerSpec (containerId : string) p (imageRepo imageRef : string)
    (imageConfig : ImageConfigObject) (bridge containerAddr containerGateway podId : string)
    : M unit :=
  let cmd := match cm_Command p with
             | [] => buildCommand (i_Entrypoint imageConfig) (i_Cmd imageConfig)
             | command => buildCommand command []
             end in
  '(namespace, nspath) ← container_namespaces p podId;
  deviceMount ← lift (buildDeviceMounts (cm_Device p));
  hostInterface ← ipam Ipam.GetDefaultInterface;
  imageLayer ← ask (GetRootfsPath imageRepo imageRef);
  hookAddr ← ipam Ipam.GetDefaultInterfaceAddr;
  let hook_of := container_hook containerId (split_head "/" hookAddr) in
  profile ← ask (ResolveProfile (cm_SecurityProfile p));
  seccompJSON ← match Profiles.Seccomp profile with
                | None => mret ""
                | Some s => wrap "marshal security profile seccomp failed"
                              (lift (marshal_seccomp s))
                end;
  ask (RuntimeSpec
    {| Rootfs := Join [ContainerRootDir; containerId; "merged"];
       Cwd := if String.eqb (i_WorkingDir imageConfig) "" then "/" else i_WorkingDir imageConfig;
       Command := cmd; Namespace := namespace; NSPath := nspath;
       Hostname := if String.eqb podId "" then containerId else shortId podId 12;
       Env := i_Env imageConfig ++ cm_Env p; Mount := cm_Mount p ++ deviceMount;
       CapAdd := cm_CapAdd p; CapDrop := cm_CapDrop p; CapBase := Profiles.Base profile;
       SecurityProfile := Profiles.Name profile; SeccompJSON := seccompJSON;
       AppArmorProfile := Profiles.AppArmorProfile profile;
       NoNewPrivileges := Profiles.NoNewPrivileges profile;
       Rootless := cm_Rootless p; RootlessMode := cm_RootlessMode p;
       RootlessRootUID := cm_RootlessRootUID p; RootlessRootGID := cm_RootlessRootGID p;
       HostInterface := hostInterface; BridgeInterface := bridge;
       ContainerInterface := "rd_" +:+ containerId; ContainerInterfaceAddr := containerAddr;
       ContainerGateway := containerGateway; ContainerDns := ["8.8.8.8"];
       ImageLayer := [imageLayer];
       UpperDir := Join [ContainerRootDir; containerId; "diff"];
       WorkDir := Join [ContainerRootDir; containerId; "work"];
       CreateRuntimeHook :=
         [hook "https://localhost:7757/v1/pki/sign" "requestCert" HookClientCertPath
            HookClientKeyPath; hook_of "createRuntime"];
       CreateRuntimeHookEnv := [hook_env; hook_env];
       CreateContainerHook := [hook_of "createContainer"]; CreateContainerHookEnv := [hook_env];
       StartContainerHook := []; StartContainerHookEnv := [];
       PoststartHook := [hook_of "poststart"]; PoststartHookEnv := [hook_env];
       StopContainerHook := [hook_of "stopContainer"]; StopContainerHookEnv := [hook_env];
       PoststopHook := [hook_of "poststop"]; PoststopHookEnv := [hook_env];
       Output := Join [ContainerRootDir; containerId] |}).

(** ** The roll-back *)

Record RollbackFlag := {
  AllocateAddr : bool;
  CSMEntry : bool;
  DirectoryEnv : bool;
  CgroupEntry : bool;
  ForwardRule : bool;
  Runtime : bool
}.
Definition no_flags : RollbackFlag :=
  {| AllocateAddr := false; CSMEntry := false; DirectoryEnv := false; CgroupEntry := false;
     ForwardRule := false; Runtime := false |}.

(** [if flag { if err := m(); err != nil && !skip(err) { return err } }]. *)
Definition undo (flag : bool) (skip : error -> bool) (m : M unit) : M unit :=
  if flag then
    r ← attempt m;
    match r with
    | Err e => if skip e then mret tt else fail e
    | _ => mret tt
    end
  else mret tt.
Definition never (e : error) : bool := false.

Definition rollback (f : RollbackFlag) (containerId : string) : M unit :=
  _ ← undo (Runtime f) isNotFoundErr (deleteContainer containerId true);
  _ ← undo (AllocateAddr f) never (releaseAddress containerId);
  _ ← undo (CSMEntry f) isNotFoundErr (on_csm (Csm.RemoveContainer containerId));
  _ ← undo (DirectoryEnv f) never (deleteContainerDirectory containerId);
  _ ← undo (CgroupEntry f) (fun e => isNotFoundErr e || isBusyErr e) (deleteCgroupSubtree containerId);
  undo (ForwardRule f) never (cleanupForwardRules containerId).

(** A computation that sets flags: they stay when it fails. *)
Definition flagged (A : Type) : Type := RollbackFlag -> M (RollbackFlag * res A).
Definition fret {A} (a : A) : flagged A := fun f => mret (f, Ok a).
Definition fdo {A} (m : M A) : flagged A := fun f => r ← attempt m; mret (f, r).
Definition fbind {A B} (m : flagged A) (k : A -> flagged B) : flagged B := fun f =>
  '(f, r) ← m f;
  match r with Ok a => k a f | Err e => mret (f, Err e) | Panic e => crash e end.
Definition mark (set : RollbackFlag -> RollbackFlag) : flagged unit := fun f => mret (set f, Ok tt).
#[local] Notation "x ⇠ m ; k" := (fbind m (fun x => k))
  (at level 20, m at level 100, k at level 200, right associativity).
#[local] Notation "' p ⇠ m ; k" := (fbind m (fun x => match x with p => k end))
  (at level 20, p pattern, m at level 100, k at level 200, right associativity).

Definition set_AllocateAddr (f : RollbackFlag) : RollbackFlag :=
  {| AllocateAddr := true; CSMEntry := CSMEntry f; DirectoryEnv := DirectoryEnv f;
     CgroupEntry := CgroupEntry f; ForwardRule := ForwardRule f; Runtime := Runtime f |}.
Definition set_CSMEntry (f : RollbackFlag) : RollbackFlag :=
  {| AllocateAddr := AllocateAddr f; CSMEntry := true; DirectoryEnv := DirectoryEnv f;
     CgroupEntry := CgroupEntry f; ForwardRule := ForwardRule f; Runtime := Runtime f |}.
Definition set_DirectoryEnv (f : RollbackFlag) : RollbackFlag :=
  {| AllocateAddr := AllocateAddr f; CSMEntry := CSMEntry f; DirectoryEnv := true;
     CgroupEntry := CgroupEntry f; ForwardRule := ForwardRule f; Runtime := Runtime f |}.
Definition set_CgroupEntry (f : RollbackFlag) : RollbackFlag :=
  {| AllocateAddr := AllocateAddr f; CSMEntry := CSMEntry f; DirectoryEnv := DirectoryEnv f;
     CgroupEntry := true; ForwardRule := ForwardRule f; Runtime := Runtime f |}.
Definition set_ForwardRule (f : RollbackFlag) : RollbackFlag :=
  {| AllocateAddr := AllocateAddr f; CSMEntry := CSMEntry f; DirectoryEnv := DirectoryEnv f;
     CgroupEntry := CgroupEntry f; ForwardRule := true; Runtime := Runtime f |}.
Definition set_Runtime (f : RollbackFlag) : RollbackFlag :=
  {| AllocateAddr := AllocateAddr f; CSMEntry := CSMEntry f; DirectoryEnv := DirectoryEnv f;
     CgroupEntry := CgroupEntry f; ForwardRule := ForwardRule f; Runtime := true |}.

(** ** Creating a container *)

(** [genCount] goes from 0 to 10: at most eleven names are tried. *)
Fixpoint generate_name (rounds : nat) : M string :=
  randName ← ask GenerateRandName;
  used ← or_zero false (csm (Csm.IsNameAlreadyUsed randName));
  if negb used then mret randName else
  match rounds with
  | O => fail "cannot assign random name"
  | S rounds => generate_name rounds
  end.
Definition generateContainerName : M string := generate_name 10.

Definition pullImage (image os arch : string) : M unit :=
  targetOs ← (if String.eqb os "" then ask_always "" HostOs else mret os);
  targetArch ← (if String.eqb arch "" then ask HostArch else mret arch);
  ask (PullImage image targetOs targetArch).

(** Containers of a pod that are not its infra container. *)
Definition is_member p : bool := negb (String.eqb (cm_PodId p) "") && negb (cm_IsPodInfra p).

Definition container_name p : M string :=
  if String.eqb (cm_Name p) "" then generateContainerName else
  let name := if is_member p then buildPodContainerName (cm_Name p) (cm_PodId p) else cm_Name p in
  used ← or_zero false (csm (Csm.IsNameAlreadyUsed name));
  if used : bool then fail ("name: " +:+ name +:+ " already used by other container")
  else mret name.

(** [s.psmHandler.IsPodOwner]: [false] when the table cannot be read. *)
Definition IsPodOwner (podId : string) : M bool :=
  or_zero false (psm (fun st => Ok (Psm.IsPodOwner podId st))).
(** [podId == "" || IsPodOwner(podId)]. *)
Definition owns_network p : M bool :=
  if String.eqb (cm_PodId p) "" then mret true else IsPodOwner (cm_PodId p).

Definition store_request (containerId containerName imageRepo imageRef : string)
    (command : list string) p : Csm.StoreContainerRequest :=
  {| Csm.req_ContainerId := containerId; Csm.req_State := "creating"; Csm.req_Pid := 0;
     Csm.req_Tty := cm_Tty p; Csm.req_Repository := imageRepo; Csm.req_Reference := imageRef;
     Csm.req_Command := command; Csm.req_ContainerName := containerName;
     Csm.req_BottleId := cm_BottleId p;
     Csm.req_LogPath := Join [ContainerRootDir; containerId; "logs"; "container.log"];
     Csm.req_PodId := cm_PodId p; Csm.req_DropletId := DefaultDropletId;
     Csm.req_SecurityProfile := cm_SecurityProfile p |}.

Definition template_container (containerName : string) p : Psm.ContainerTemplateSpec :=
  {| Psm.ct_Name := if String.eqb (cm_Name p) "" then containerName else cm_Name p;
     Psm.Image := cm_Image p; Psm.ct_Command := cm_Command p; Psm.Port := cm_Port p;
     Psm.Mount := cm_Mount p; Psm.Env := cm_Env p; Psm.CapAdd := cm_CapAdd p;
     Psm.CapDrop := cm_CapDrop p; Psm.ct_SecurityProfile := cm_SecurityProfile p;
     Psm.Network := cm_Network p; Psm.ct_Tty := cm_Tty p |}.

(** From the image on, where the roll-back is in place. *)
Definition create_steps (containerId containerName : string) p : flagged string :=
  '(imageRepo, imageRef) ⇠ fdo (lift (parseImageRef (cm_Image p)));
  there ⇠ fdo (or_zero false (ask (IsImageExist imageRepo imageRef)));
  _ ⇠ (if there : bool then fret tt
       else fdo (pullImage (cm_Image p) (cm_Os p) (cm_Arch p)));
  imageConfigPath ⇠ fdo (ask (GetConfigPath imageRepo imageRef));
  imageConfig ⇠ fdo (ask (GetImageConfig imageConfigPath));
  let bridge := if String.eqb (cm_Network p) "" then "raind0" else cm_Network p in
  owner ⇠ fdo (owns_network p);
  '(gateway, addr) ⇠ (if owner : bool then
                        a ⇠ fdo (allocateAddress containerId bridge);
                        _ ⇠ mark set_AllocateAddr;
                        fret a
                      else fret ("", ""));
  let command := match cm_Command p with
                 | [] => i_Entrypoint imageConfig ++ i_Cmd imageConfig
                 | c => c
                 end in
  profile ⇠ fdo (ask (ResolveProfile (cm_SecurityProfile p)));
  let p := set_SecurityProfile p (Profiles.Name profile) in
  _ ⇠ fdo (timed (fun t => on_csm (Csm.StoreContainer
             (store_request containerId containerName imageRepo imageRef command p) t)));
  _ ⇠ mark set_CSMEntry;
  _ ⇠ fdo (wrap "create container directory failed" (setupContainerDirectory containerId));
  _ ⇠ mark set_DirectoryEnv;
  _ ⇠ fdo (wrap "setup etc files failed"
             (setupEtcFiles containerId addr gateway bridge (cm_PodId p)));
  _ ⇠ fdo (wrap "setup cgroup subtree failed" (setupCgroupSubtree containerId));
  _ ⇠ mark set_CgroupEntry;
  _ ⇠ fdo (wrap "create spec failed"
             (createContainerSpec containerId p imageRepo imageRef imageConfig bridge addr gateway
                (cm_PodId p)));
  _ ⇠ (if cm_Rootless p && is_member p then
         _ ⇠ fdo (wrap "issue rootless pod member client cert failed"
                    (issueRootlessPodMemberClientCert containerId));
         fdo (wrap "prepare rootless pod member bundle failed"
                (prepareRootlessPodMemberBundle containerId p))
       else fret tt);
  _ ⇠ (if is_member p then fret tt else
       _ ⇠ fdo (wrap "forward rule failed" (setupForwardRule containerId (cm_Port p)));
       mark set_ForwardRule);
  owner ⇠ fdo (owns_network p);
  _ ⇠ fdo (wrap "create container failed"
             (if owner : bool then createContainer containerId (cm_Tty p)
              else joinContainer containerId (cm_Tty p) (cm_PodId p)));
  _ ⇠ mark set_Runtime;
  _ ⇠ (if is_member p
       then fdo (on_psm (Psm.AddContainerToPodTemplate (cm_PodId p)
                           (template_container containerName p)))
       else fret tt);
  fret containerId.

(** The deferred function: an error of the roll-back takes the place of the
    first one. *)
Definition with_rollback (containerId : string) (m : flagged string) : M string :=
  '(f, r) ← m no_flags;
  match r with
  | Ok id => mret id
  | Err e | Panic e => _ ← rollback f containerId; fail e
  end.

(** [Create] after the infra container of the pod is there; [NewUlid] is what
    [new_id] gives. *)
Definition create_container p : M string :=
  ulid ← new_id;
  let containerId := take_str 12 ulid in
  containerName ← container_name p;
  with_rollback containerId (create_steps containerId containerName p).

(** ** Operations on a container *)

Definition managed (op on cmd target bottleId : string) : error :=
  "direct " +:+ op +:+ "operation of container: " +:+ target +:+
  " is not supported as it's managed by bottle: " +:+ bottleId +:+ "." +:+ newline +:+
  "use 'raind bottle " +:+ cmd +:+ " <bottle-id|bottle-name>'" +:+ on.
Definition not_allowed (op state : string) : error :=
  op +:+ " operation not allowed to current container status: " +:+ state.
(** Whether the container belongs to a bottle and the bottle does not ask. *)
Definition of_bottle (info : Csm.ContainerInfo) (opBottle : bool) : bool :=
  negb (String.eqb (Csm.BottleId info) "") && negb opBottle.

Definition Start (target : string) (tty opBottle : bool) : M string :=
  containerId ← resolve target;
  info ← container_info containerId;
  if of_bottle info opBottle then fail (managed "" "" "start" target (Csm.BottleId info)) else
  if String.eqb (Csm.State info) "created" then
    _ ← wrap "start container failed" (startContainer containerId tty); mret containerId
  else if String.eqb (Csm.State info) "running" then
    fail ("container: " +:+ containerId +:+ " already started")
  else if String.eqb (Csm.State info) "stopped" then
    info ← csm (Csm.GetContainerById containerId);
    _ ← wrap "start container failed"
          (if String.eqb (Csm.PodId info) "" then createContainer containerId (Csm.Tty info)
           else joinContainer containerId (Csm.Tty info) (Csm.PodId info));
    _ ← wrap "restore forward rule failed" (restoreForwardRules containerId);
    _ ← wrap "start container failed" (startContainer containerId (Csm.Tty info));
    mret containerId
  else fail (not_allowed "start" (Csm.State info)).

Definition Stop (target : string) (opBottle : bool) : M string :=
  containerId ← resolve target;
  info ← container_info containerId;
  if of_bottle info opBottle then fail (managed "" "" "stop" target (Csm.BottleId info)) else
  if String.eqb (Csm.State info) "running" then
    _ ← wrap "stop failed" (stopContainer containerId);
    _ ← (if negb (String.eqb (Csm.PodId info) "") &&
            negb (hasPrefix (Csm.ContainerName info) PodInfraContainerNamePrefix)
         then ignore (timed (fun t => on_psm (Psm.UpdatePod (Csm.PodId info) "degraded" t)))
         else mret tt);
    mret containerId
  else fail (not_allowed "stop" (Csm.State info)).

(** [if err := m(); err != nil && !isNotFoundErr(err) { return fmt.Errorf(...) }]. *)
Definition unless_not_found (what : string) (m : M unit) : M unit :=
  r ← attempt m;
  match r with
  | Err e => if isNotFoundErr e then mret tt else fail (what +:+ ": " +:+ e)
  | _ => mret tt
  end.

Definition Delete (target : string) (opBottle : bool) : M string :=
  containerId ← resolve target;
  info ← container_info containerId;
  if of_bottle info opBottle then fail (managed "delete " "" "rm" target (Csm.BottleId info)) else
  if String.eqb (Csm.State info) "creating" || String.eqb (Csm.State info) "created" ||
     String.eqb (Csm.State info) "stopped" then
    _ ← wrap "delete container failed"
          (deleteContainer containerId (negb (String.eqb (Csm.State info) "stopped")));
    _ ← wrap "cleanup forward rule failed" (cleanupForwardRules containerId);
    _ ← wrap "release address failed" (releaseAddress containerId);
    _ ← wrap "delete container directory failed" (deleteContainerDirectory containerId);
    _ ← unless_not_found "delete cgroup subtree failed" (deleteCgroupSubtree containerId);
    _ ← unless_not_found "remove container state failed" (on_csm (Csm.RemoveContainer containerId));
    mret containerId
  else fail (not_allowed "delete" (Csm.State info)).

Definition Exec (target : string) (tty : bool) (entrypoint : list string) : M unit :=
  containerId ← resolve target; ask (RuntimeExec containerId tty entrypoint).

Definition maxTailLines : Z := 5000.
Definition maxTailBytes : Z := 4 * 1024 * 1024.

Definition GetContainerLogPath (target : string) : M string :=
  containerId ← resolve target; csm (Csm.GetLogPath containerId).
Definition GetLogWithTailLines (target : string) (n : Z) : M string :=
  containerId ← resolve target;
  logPath ← csm (Csm.GetLogPath containerId);
  if maxTailLines <? n then fail ("invalid tail lines: max=" +:+ itoa maxTailLines) else
  wrap "tail failed" (ask (TailLines logPath n maxTailBytes)).

(** ** The infra container of a pod *)

Definition findPodInfraContainer (podId : string) : M ContainerState :=
  containers ← GetContainersByPodId podId;
  match first_match (fun c => isPodInfraName (cs_Name c) podId) containers with
  | Some c => mret c
  | None => fail "pod infra not found"
  end.

Fixpoint wait_namespaces (rounds : nat) (podId : string) : M unit :=
  match rounds with
  | O => fail ("pod namespaces not ready: " +:+ podId)
  | S rounds =>
      pod ← psm (Psm.GetPodById podId);
      ready ← podNamespacesReady pod;
      if ready : bool then mret tt else
      _ ← ask_always tt (Sleep 50);
      wait_namespaces rounds podId
  end.
Definition waitForPodNamespaces : string -> M unit := wait_namespaces 50.

Definition infra_model (podId network : string) (rootless : bool) : ServiceCreateModel :=
  {| cm_Image := PodInfraImage; cm_Os := ""; cm_Arch := ""; cm_Command := []; cm_Port := [];
     cm_Mount := []; cm_Device := []; cm_Env := []; cm_CapAdd := []; cm_CapDrop := [];
     cm_SecurityProfile := ""; cm_Network := network; cm_Tty := false;
     cm_Name := podInfraName podId; cm_BottleId := ""; cm_PodId := podId;
     cm_Rootless := rootless; cm_RootlessMode := ""; cm_RootlessRootUID := 0;
     cm_RootlessRootGID := 0; cm_IsPodInfra := true |}.

(** An infra container is made without one, so [Create] calls itself once. *)
Definition ensurePodInfra (podId network : string) : M unit :=
  pod ← psm (Psm.GetPodById podId);
  ready ← podNamespacesReady pod;
  if ready : bool then mret tt else
  _ ← (if podNamespacesPopulated pod then ignore (on_psm (Psm.ResetPodNamespaces podId))
       else mret tt);
  infra ← attempt (findPodInfraContainer podId);
  _ ← match infra with
      | Ok infra =>
          _ ← (if String.eqb (cs_State infra) "running"
               then ignore (Stop (cs_ContainerId infra) false) else mret tt);
          ignore (Delete (cs_ContainerId infra) false)
      | _ => mret tt
      end;
  infraId ← create_container
              (normalizeRootlessCreateParameter (infra_model podId network (Psm.Rootless pod)));
  started ← attempt (Start infraId false false);
  match started with
  | Ok _ => waitForPodNamespaces podId
  | Err e | Panic e => _ ← ignore (Delete infraId false); fail e
  end.

Definition Create p : M string :=
  let p := normalizeRootlessCreateParameter p in
  if negb (is_member p) then create_container p else
  pod ← psm (Psm.GetPodById (cm_PodId p));
  if negb (Psm.Rootless pod) && cm_Rootless p
  then fail "rootless mode is a pod-level setting; set spec.hostUsers=false on the pod" else
  let p := if Psm.Rootless pod
           then normalizeRootlessCreateParameter (set_rootless p true (cm_RootlessMode p))
           else p in
  _ ← ensurePodInfra (cm_PodId p) (cm_Network p);
  create_container p.
End service.
