(* ===== verification/ContainerTheory.v ===== *)
(** * The container service: what its operations guarantee

    Operations by the state of a container, failed creations, names, and the
    specification that the runtime gets ([core/container]). *)

From Stdlib Require Import ZArith Lia Ascii String.
From stdpp Require Import base gmap strings list relations.
From S2P Require Import Prelude.
From S2P Require Import GoNet.
From S2P Require Import GoString.
From S2P Require Import GoPath.
From S2P Require Import World.
From S2P Require Ipam.
From S2P Require Import IpamTheory.
From S2P Require Csm.
From S2P Require Psm.
From S2P Require Profiles.
From S2P Require Import PathSafety.
From S2P Require Import ContainerModel.
From S2P Require Import ContainerCalls.
From S2P Require Import ContainerCreate.
Open Scope Z_scope.

(** ** What a computation asks of others *)

Notation asked_for c := (existT (P := container_call) _ c).

Section asks.
Context {X : Type} {P : ContainerPeers X} (Q : asked -> Prop).
#[local] Notation M := (M tables asked X).

Definition asks {A} (m : M A) : Prop :=
  forall w, exists l, trace (m w).2 = trace w ++ l /\ Forall Q l.

Lemma asks_quiet {A} (m : M A) : quiet m -> asks m.
Proof. intros H w. exists []. rewrite (proj1 (H w)), app_nil_r. done. Qed.
Lemma asks_bind {A B} (m : M A) (f : A -> M B) : asks m -> (forall a, asks (f a)) -> asks (m ≫= f).
Proof.
  intros Hm Hf w. unfold mbind, M_bind. destruct (Hm w) as (l & Hl & HQ).
  destruct (m w) as [[a|e|e] w1]; simpl in *; [|by exists l..].
  destruct (Hf a w1) as (l' & Hl' & HQ'). exists (l ++ l').
  rewrite Hl', Hl, app_assoc. split; [done|]. by apply Forall_app.
Qed.
Lemma asks_ask {A} (c : container_call A) : Q (asked_for c) -> asks (ask c).
Proof.
  intros H w. exists [existT A c]. unfold ask. destruct (answer A c _) as [r [st i]].
  split; [done|]. by apply Forall_singleton.
Qed.
Lemma asks_attempt {A} (m : M A) : asks m -> asks (attempt m).
Proof. intros H w. unfold attempt. specialize (H w). by destruct (m w) as [[| |] w1]. Qed.
Lemma asks_ignore {A} (m : M A) : asks m -> asks (ignore m).
Proof. intros H w. unfold ignore. specialize (H w). by destruct (m w) as [[| |] w1]. Qed.
Lemma asks_wrap {A} what (m : M A) : asks m -> asks (wrap what m).
Proof. intros H w. unfold wrap. specialize (H w). by destruct (m w) as [[| |] w1]. Qed.
Lemma asks_or_zero {A} (z : A) (m : M A) : asks m -> asks (or_zero z m).
Proof.
  intros H. apply asks_bind; [by apply asks_attempt|]. intros a. apply asks_quiet, quiet_ret.
Qed.
Lemma asks_each {A} (f : A -> M unit) l : (forall x, asks (f x)) -> asks (each f l).
Proof.
  intros H. induction l as [|x l IH]; simpl; [apply asks_quiet, quiet_ret|].
  apply asks_bind; [done|]. by intros _.
Qed.
Lemma asks_lift {A} (r : res A) : asks (lift r).
Proof. intros w. exists []. by rewrite app_nil_r. Qed.
Lemma asks_crash {A} e : asks (crash (A := A) e).
Proof. intros w. exists []. by rewrite app_nil_r. Qed.
Lemma asks_new_id : asks new_id.
Proof. apply asks_quiet. intros w. unfold new_id. by destruct (ids w). Qed.
End asks.

(** One construct at a time. *)
Ltac asks_step :=
  match goal with
  | |- asks _ (_ ≫= _) => apply asks_bind; [|intros ?]
  | |- asks _ (wrap _ _) => apply asks_wrap
  | |- asks _ (attempt _) => apply asks_attempt
  | |- asks _ (ignore _) => apply asks_ignore
  | |- asks _ (or_zero _ _) => apply asks_or_zero
  | |- asks _ (ask_always _ _) => apply asks_or_zero
  | |- asks _ (ask _) => apply asks_ask
  | |- asks _ (each _ _) => apply asks_each; intros ?
  | |- asks _ (lift _) => apply asks_lift
  | |- asks _ (crash _) => apply asks_crash
  | |- asks _ new_id => apply asks_new_id
  | |- asks _ (mret _) => apply asks_quiet, quiet_ret
  | |- asks _ (fail _) => apply asks_quiet, quiet_fail
  | |- asks _ (read _) => apply asks_quiet, quiet_read
  | |- asks _ (txn _) => apply asks_quiet, quiet_txn
  | |- asks _ now => apply asks_quiet, quiet_now
  | |- asks _ (match ?x with _ => _ end) => destruct x eqn:?
  | |- asks _ ((match ?x with _ => _ end) _) => destruct x eqn:?
  end.
Ltac asking := repeat asks_step.

(** ** Operations and the state of the container *)

Section guarded.
Context {RO : RangeOrder} {X : Type} {P : ContainerPeers X} (cwd : res string).
#[local] Notation M := (M tables asked X).
#[local] Notation world := (world tables asked X).

(** A target is a name, else an identifier. *)
Definition known_as (st : Csm.ContainerState) (target containerId : string) : Prop :=
  Csm.GetContainerIdByName target st = Ok containerId \/ containerId = target.

Lemma target_run target (w : world) r w' : resolve target w = (r, w') ->
  trace w' = trace w /\ store w' = store w /\
  forall id, r = Ok id -> known_as (t_csm (store w)) target id.
Proof.
  intros H. unfold resolve in H. destruct (ResolveContainerId target w) as [r1 w1] eqn:E.
  assert (w1 = w' /\ (forall id, r = Ok id -> r1 = Ok id)) as [<- Hr]
    by (destruct r1; by simplify_eq).
  assert (quiet (ResolveContainerId (X := X) target)) as Hq.
  { apply quiet_bind; [eauto with go|]. intros [?|?|?]; eauto with go.
    all: apply quiet_bind; eauto with go. }
  assert (reads (ResolveContainerId (X := X) target)) as Hrd.
  { apply reads_bind; [eauto with go|]. intros [?|?|?]; eauto with go.
    all: apply reads_bind; eauto with go. }
  pose proof (Hq w) as [Ht _]. pose proof (Hrd w) as Hs. rewrite E in Ht, Hs.
  split_and!; [done..|]. intros id Hid%Hr. rewrite Hid in E.
  apply bind_ok in E as (a & w2 & E1 & E2). unfold attempt in E1.
  destruct (csm _ w) as [[b|b|b] w3] eqn:E3; simplify_eq/=.
  - left. injection E2 as -> ->. by apply read_ok in E3 as [E3 _].
  - right. by apply bind_ok in E2 as (? & ? & _ & [= -> _]).
Qed.

Lemma container_info_run id (w : world) : exists info w', container_info id w = (Ok info, w') /\
  trace w' = trace w /\ store w' = store w /\
  (info = no_container \/ Csm.GetContainerById id (t_csm (store w)) = Ok info).
Proof.
  unfold container_info, or_zero, attempt, csm, read, mbind, M_bind.
  pose proof (pop_fault_keeps w) as (H1 & H2 & _).
  destruct (pop_fault w) as [[e|] w1]; simpl in *; [by eauto 10|]. rewrite H1.
  unfold Csm.GetContainerById, Csm.get_by_id.
  destruct (Csm.find_by_id id _) as [[k c]|]; eauto 10.
Qed.

(** The calls for one container. *)
Definition concerns (id : string) (q : asked) : Prop :=
  match projT2 q with
  | RuntimeCreate i _ | RuntimeStart i _ | RuntimeStop i | RuntimeDelete i _
  | CreateForwardingRule i _ _ _ | RemoveForwardingRule i _ _ _ => i = id
  | RemoveAll path => SafeJoin cwd ContainerRootDir [id] = Ok path
  | Remove path => SafeJoin cwd CgroupRuntimeDir [id] = Ok path
  | _ => False
  end.
Definition silent {A} (m : M A) : Prop := asks (fun _ => False) m.

(** What [Start], [Stop] and [Delete] share. *)
Lemma guarded target opBottle (allowed : list string) (k : string -> Csm.ContainerInfo -> M string) (w : world) r w' :
  (forall id, silent (k id no_container)) ->
  (forall id info, ~ (Csm.State info ∈ allowed /\ (Csm.BottleId info = "" \/ opBottle = true)) ->
     silent (k id info)) ->
  (forall id info, asks (concerns id) (k id info)) ->
  (id ← resolve target; info ← container_info id; k id info) w = (r, w') ->
  exists l, trace w' = trace w ++ l /\
    (l = [] \/ exists id info,
       known_as (t_csm (store w)) target id /\
       Csm.GetContainerById id (t_csm (store w)) = Ok info /\
       Csm.State info ∈ allowed /\ (Csm.BottleId info = "" \/ opBottle = true) /\
       Forall (concerns id) l).
Proof.
  intros Hnone Hno Hk H. unfold mbind at 1, M_bind at 1 in H.
  destruct (resolve target w) as [r1 w1] eqn:E1. pose proof (target_run _ _ _ _ E1) as (T1 & S1 & K1).
  destruct r1 as [id|e|e]; [|exists []; rewrite app_nil_r; simplify_eq; auto..].
  destruct (container_info_run id w1) as (info & w2 & E2 & T2 & S2 & Hinfo).
  rewrite (M_bind_eq _ _ _ _ _ E2) in H. rewrite S1 in Hinfo.
  destruct (Hk id info w2) as (l & Hl & HQ). rewrite H in Hl. simpl in Hl.
  exists l. split; [congruence|].
  destruct (decide (Csm.State info ∈ allowed /\ (Csm.BottleId info = "" \/ opBottle = true)))
    as [[Ha Hb]|Hd].
  - destruct Hinfo as [->|Hinfo]; [|by right; exists id, info; eauto 10].
    destruct (Hnone id w2) as (l' & Hl' & HF). rewrite H in Hl'. simpl in Hl'.
    assert (l = l') as -> by (eapply app_inv_head; by rewrite <- Hl, <- Hl').
    left. by destruct HF.
  - destruct (Hno id info Hd w2) as (l' & Hl' & HF). rewrite H in Hl'. simpl in Hl'.
    assert (l = l') as -> by (eapply app_inv_head; by rewrite <- Hl, <- Hl').
    left. by destruct HF.
Qed.
End guarded.

Section operations.
Context {RO : RangeOrder} {X : Type} {P : ContainerPeers X} (cwd : res string).
#[local] Notation M := (M tables asked X).

Inductive operation := OpStart (tty : bool) | OpStop | OpDelete.
Definition run_operation (o : operation) (target : string) (opBottle : bool) : M string :=
  match o with
  | OpStart tty => Start target tty opBottle
  | OpStop => Stop target opBottle
  | OpDelete => Delete cwd target opBottle
  end.
(** The states in which an operation does something. *)
Definition states_for (o : operation) : list string :=
  match o with
  | OpStart _ => ["created"; "stopped"]
  | OpStop => ["running"]
  | OpDelete => ["creating"; "created"; "stopped"]
  end.

Lemma asks_forward_rules (Q : asked -> Prop)
    (call : string -> string -> string -> string -> container_call unit) id :
  (forall h c p, Q (asked_for (call id h c p))) ->
  asks Q (forwards ← ipam (X := X) (Ipam.GetForwardInfo id); each (forward_call call id) forwards).
Proof. intros H. unfold ipam, forward_call. asking. apply H. Qed.
Lemma asks_joinContainer (Q : asked -> Prop) id tty podId : Q (asked_for (RuntimeCreate id tty)) ->
  asks Q (joinContainer (X := X) id tty podId).
Proof. intros H. unfold joinContainer, psm, on_psm, createContainer. asking; done. Qed.
Lemma asks_lift_bind (Q : asked -> Prop) {A B} (r : res A) (f : A -> M B) :
  (forall a, r = Ok a -> asks Q (f a)) -> asks Q (lift r ≫= f).
Proof.
  intros H w. destruct r as [a|e|e]; [by apply H|exists []; by rewrite app_nil_r..].
Qed.
Lemma asks_unless (Q : asked -> Prop) what (m : M unit) : asks Q m -> asks Q (unless_not_found what m).
Proof. intros H. unfold unless_not_found. asking; done. Qed.

Lemma asks_Delete_tail id force :
  asks (concerns cwd id)
    (_ ← wrap "delete container failed" (deleteContainer id force);
     _ ← wrap "cleanup forward rule failed" (cleanupForwardRules id);
     _ ← wrap "release address failed" (releaseAddress id);
     _ ← wrap "delete container directory failed" (deleteContainerDirectory cwd id);
     _ ← unless_not_found "delete cgroup subtree failed" (deleteCgroupSubtree cwd id);
     _ ← unless_not_found "remove container state failed" (on_csm (Csm.RemoveContainer id));
     mret (M := M) id).
Proof.
  unfold deleteContainer, cleanupForwardRules, releaseAddress, on_ipam, on_csm, deleteContainerDirectory,
    deleteCgroupSubtree, RemoveAllUnderRoot.
  repeat first [apply asks_forward_rules; intros | apply asks_unless | apply asks_lift_bind; intros ? ?
               | asks_step]; done.
Qed.

Ltac refused Hno :=
  unfold silent, of_bottle; asking; exfalso; apply Hno;
  repeat match goal with
  | H : _ || _ = true |- _ => apply orb_true_iff in H as [H|H]
  | H : String.eqb _ _ = true |- _ => apply String.eqb_eq in H
  | H : negb _ && negb _ = false |- _ => apply andb_false_iff in H as [H%negb_false_iff|H%negb_false_iff]
  end; split; set_solver.

(** C10: [Start], [Stop] and [Delete] ask others for something only when the target
    is a container in a state that the operation is for, and that belongs to no
    bottle or is operated on by its bottle; and all they ask for is about that
    container: its runtime calls, its forwarding rules and its own two
    directories.  Faults of the tables and answers of any kind are allowed. *)
Theorem operations_follow_states o target opBottle (w : world tables asked X) r w' :
  run_operation o target opBottle w = (r, w') ->
  exists l, trace w' = trace w ++ l /\
    (l = [] \/ exists id info,
       known_as (t_csm (store w)) target id /\
       Csm.GetContainerById id (t_csm (store w)) = Ok info /\
       Csm.State info ∈ states_for o /\ (Csm.BottleId info = "" \/ opBottle = true) /\
       Forall (concerns cwd id) l).
Proof.
  intros H. destruct o as [tty| |]; (eapply guarded; [| | |exact H]).
  all: try (intros id; apply asks_quiet, quiet_fail).
  - intros id info Hno. refused Hno.
  - intros id info. unfold startContainer, createContainer, restoreForwardRules, csm.
    repeat first [apply asks_forward_rules; intros | apply asks_joinContainer | asks_step]; done.
  - intros id info Hno. refused Hno.
  - intros id info. unfold stopContainer, timed, on_psm. asking; done.
  - intros id info Hno. refused Hno.
  - intros id info. cbv beta. repeat first [apply asks_Delete_tail | asks_step].
Qed.
End operations.

(** * The container service: what creations leave behind

    The roll-back of a failed creation and the names of containers
    ([core/container/service_create.go]), over services that do not touch the
    address pools and add no container. *)

(** ** The addresses of a container *)

Section holds.
Context {RO : RangeOrder}.
Implicit Types ps : list Ipam.Pool.

(** The container has the address [ip] of the pool at [i]. *)
Definition holds (cid : string) ps (i : nat) (ip : string) : Prop :=
  exists p a, ps !! i = Some p /\ Ipam.allocs p !! ip = Some a /\ Ipam.al_ContainerId a = cid.
Definition unheld cid ps : Prop := forall i ip, ~ holds cid ps i ip.
Definition held_once cid ps : Prop :=
  forall i ip j jp, holds cid ps i ip -> holds cid ps j jp -> i = j /\ ip = jp.

Lemma holds_0 cid p ps ip : holds cid (p :: ps) 0 ip <->
  exists a, Ipam.allocs p !! ip = Some a /\ Ipam.al_ContainerId a = cid.
Proof. unfold holds. simpl. naive_solver. Qed.
Lemma holds_S cid p ps i ip : holds cid (p :: ps) (S i) ip <-> holds cid ps i ip.
Proof. done. Qed.

Lemma find_container_holds cid p ps : Ipam.find_container cid p = None <->
  forall ip, ~ holds cid (p :: ps) 0 ip.
Proof. rewrite find_container_None. setoid_rewrite holds_0. naive_solver. Qed.

Lemma once_unheld cid ps : unheld cid ps -> held_once cid ps.
Proof. intros H i ip j jp Hi. by apply H in Hi. Qed.

Lemma release_unheld cid ps : held_once cid ps -> unheld cid (Ipam.release_pools cid ps).
Proof.
  induction ps as [|p ps IH]; intros H; [by intros i ip (? & ? & ? & _)|]. simpl.
  destruct (Ipam.find_container cid p) as [[ip a]|] eqn:E.
  - apply find_container_Some in E as [E1 E2].
    assert (holds cid (p :: ps) 0 ip) as H0 by (apply holds_0; eauto).
    intros [|i] jp Hj.
    + apply holds_0 in Hj as (b & Hb & Hc). rewrite allocs_set in Hb.
      apply lookup_delete_Some in Hb as [Hne Hb]. apply Hne.
      apply (H 0%nat ip 0%nat jp); [done|]. apply holds_0. eauto.
    + apply (H 0%nat ip (S i) jp) in Hj as [? _]; done.
  - intros [|i] jp Hj.
    + rewrite (find_container_holds _ _ ps) in E. apply (E jp). by rewrite holds_0 in Hj |- *.
    + apply holds_S in Hj. revert Hj. apply IH. intros x xp y yp Hx Hy.
      destruct (H (S x) xp (S y) yp) as [[= ->] ->]; done.
Qed.

Lemma forward_holds cid id fi ps ps' i ip : Ipam.forward_pools id fi ps = Ok ps' ->
  holds cid ps' i ip <-> holds cid ps i ip.
Proof.
  revert ps' i. induction ps as [|p ps IH]; intros ps' i; simpl; [done|].
  destruct (Ipam.find_container id p) as [[k a]|] eqn:E; intros H.
  - injection H as <-. destruct i as [|i]; [|by rewrite !holds_S].
    rewrite !holds_0, allocs_set. apply find_container_Some in E as [E _].
    destruct (decide (k = ip)) as [<-|Hne]; [|by rewrite lookup_insert_ne].
    rewrite lookup_insert_eq, E. simpl. naive_solver.
  - inv_ok. destruct i as [|i]; [by rewrite !holds_0|]. rewrite !holds_S. by apply IH.
Qed.

Lemma insert_once cid p ps ip a :
  unheld cid (p :: ps) ->
  held_once cid (Ipam.set_Allocations p (<[ip := a]> (Ipam.allocs p)) :: ps).
Proof.
  intros Hno.
  assert (forall i jp, holds cid (Ipam.set_Allocations p (<[ip := a]> (Ipam.allocs p)) :: ps) i jp ->
    i = 0%nat /\ jp = ip) as Hat.
  { intros [|i] jp Hj; [|exfalso; by apply (Hno (S i) jp)]. split; [done|].
    apply holds_0 in Hj as (b & Hb & Hc). rewrite allocs_set in Hb.
    destruct (decide (ip = jp)) as [|Hne]; [done|]. rewrite lookup_insert_ne in Hb by done.
    exfalso. apply (Hno 0%nat jp), holds_0. eauto. }
  intros i xp j yp Hi%Hat Hj%Hat. naive_solver.
Qed.

Lemma allocate_once cid br now ps ps' ip : Ipam.allocate_pools cid br now ps = Ok (ps', ip) ->
  unheld cid ps -> held_once cid ps' /\ br ∈ Ipam.p_Interface <$> ps'.
Proof.
  revert ps' ip. induction ps as [|p ps IH]; intros ps' ip; simpl; [done|].
  destruct (String.eqb_spec (Ipam.p_Interface p) br) as [<-|_].
  - destruct (_ || _); [done|]. destruct (is_nil _); [done|].
    destruct (ParseCIDR _); [|done]. intros H Hno. inv_ok.
    destruct (Ipam.Allocations p) as [m|] eqn:Em; [|done]. inv_ok.
    assert (m = Ipam.allocs p) as -> by (unfold Ipam.allocs; by rewrite Em).
    split; [by apply insert_once|]. rewrite fmap_cons. by left.
  - intros H Hno. inv_ok. destruct v as [ps1 ip1]. inv_ok.
    edestruct IH as [IH1 IH2]; [done| |].
    { intros i jp Hj. by apply (Hno (S i) jp). }
    split; [|rewrite fmap_cons; by right].
    assert (forall i jp, holds cid (p :: ps1) i jp -> exists i', i = S i' /\ holds cid ps1 i' jp) as Hat.
    { intros [|i] jp Hj; [|by exists i]. exfalso. apply (Hno 0%nat jp).
      by rewrite holds_0 in Hj |- *. }
    intros i xp j yp (i' & -> & Hi)%Hat (j' & -> & Hj)%Hat.
    by destruct (IH1 _ _ _ _ Hi Hj) as [-> ->].
Qed.

Lemma bridge_address st br : br ∈ Ipam.p_Interface <$> Ipam.Pools st ->
  exists addr, Ipam.GetBridgeAddr br st = Ok addr.
Proof.
  intros (p & -> & Hp)%list_elem_of_fmap. unfold Ipam.GetBridgeAddr.
  destruct (first_match _ _) as [q|] eqn:E; [eauto|]. rewrite first_match_None in E.
  apply E in Hp. by rewrite String.eqb_refl in Hp.
Qed.
End holds.

(** ** What the parts of a creation do to the tables *)

(** The hooks of the runtime report to the daemon, which updates or removes
    containers; no service called gives out addresses or adds a container. *)
Record tame {X : Type} (P : ContainerPeers X) : Prop := {
  tame_ipam : forall A (c : container_call A) st i,
    t_ipam (answer A c (st, i)).2.1 = t_ipam st;
  tame_csm : forall A (c : container_call A) st i id y,
    Csm.Containers (t_csm (answer A c (st, i)).2.1) !! id = Some y ->
    exists x, Csm.Containers (t_csm st) !! id = Some x /\
      Csm.ContainerName y = Csm.ContainerName x /\ Csm.ContainerId y = Csm.ContainerId x
}.

Section walk.
Context {RO : RangeOrder} {X : Type} {P : ContainerPeers X}.
Context (cwd : res string) (HookAgentBinPath : string) (Quote : string -> string)
  (marshal_seccomp : Profiles.SeccompObject -> res string) (uidBase gidBase : Z).
Context (R : relation tables) `{!PreOrder R}.
Context (R_peers : forall A (c : container_call A) st i, R st (answer A c (st, i)).2.1)
  (R_psm : forall t x, R t (set_psm t x))
  (R_forward : forall id s d p t x, Ipam.SetForwardInfo id s d p (t_ipam t) = Ok (x, tt) ->
     R t (set_ipam t x)).
#[local] Notation M := (M tables asked X).
#[local] Notation steps := (steps R (C := asked) (W := X)).

Lemma steps_ask {A} (c : container_call A) : steps (ask c).
Proof.
  intros w Hw. unfold ask. pose proof (R_peers A c (store w) (inner w)) as H.
  by destruct (answer A c (store w, inner w)) as [r [st i]].
Qed.
Lemma steps_lift {A} (r : res A) : steps (lift r).
Proof. by intros w Hw. Qed.
Lemma steps_wrap {A} what (m : M A) : steps m -> steps (wrap what m).
Proof. intros H w Hw. unfold wrap. specialize (H w Hw). by destruct (m w) as [[| |] w1]. Qed.
Lemma steps_zero {A} (z : A) (m : M A) : steps m -> steps (or_zero z m).
Proof. intros H. apply steps_bind; [done|by apply steps_attempt|]. intros r. by apply steps_ret. Qed.
Lemma steps_each_unit {A} (f : A -> M unit) l : (forall x, steps (f x)) -> steps (each f l).
Proof.
  intros H. induction l as [|x l IH]; simpl; [by apply steps_ret|].
  apply steps_bind; [done..|]. by intros _.
Qed.
Lemma steps_on_psm {A} (fn : Psm.PodState -> res (Psm.PodState * A)) : steps (on_psm fn).
Proof. apply steps_txn; [done|]. intros t t' a H. inv_ok. destruct v as [x b]. by inv_ok. Qed.
Lemma steps_forward id s d p : steps (on_ipam (Ipam.SetForwardInfo id s d p)).
Proof.
  apply steps_txn; [done|]. intros t t' a H. inv_ok. destruct v as [x []]. inv_ok. by eapply R_forward.
Qed.
End walk.

Ltac walk_side := solve [assumption | typeclasses eauto | eauto].
Ltac walk_step :=
  match goal with
  | |- steps _ (_ ≫= _) => apply steps_bind; [walk_side| |intros ?]
  | |- steps _ (wrap _ _) => apply steps_wrap
  | |- steps _ (attempt _) => apply steps_attempt
  | |- steps _ (ignore _) => apply steps_ignore
  | |- steps _ (or_zero _ _) => apply steps_zero; [walk_side|]
  | |- steps _ (ask_always _ _) => apply steps_zero; [walk_side|]
  | |- steps _ (ask _) => apply steps_ask; walk_side
  | |- steps _ (each _ _) => apply steps_each_unit; [walk_side|intros ?]
  | |- steps _ (lift _) => apply steps_lift; walk_side
  | |- steps _ (mret _) => apply steps_ret; walk_side
  | |- steps _ (fail _) => apply steps_fail; walk_side
  | |- steps _ (crash _) => apply steps_crash; walk_side
  | |- steps _ (read _) => apply steps_read; walk_side
  | |- steps _ (csm _) => apply steps_read; walk_side
  | |- steps _ (ipam _) => apply steps_read; walk_side
  | |- steps _ (psm _) => apply steps_read; walk_side
  | |- steps _ (on_psm _) => apply steps_on_psm; walk_side
  | |- steps _ (on_ipam (Ipam.SetForwardInfo _ _ _ _)) => apply steps_forward; walk_side
  | |- steps _ now => apply steps_now; walk_side
  | |- steps _ new_id => apply steps_new_id; walk_side
  | |- steps _ (match ?x with _ => _ end) => destruct x eqn:?
  | |- steps _ (forward_call _ _ _) => apply steps_ask; walk_side
  end.
Ltac walk := repeat walk_step.

Section parts.
Context {RO : RangeOrder} {X : Type} {P : ContainerPeers X}.
Context (cwd : res string) (HookAgentBinPath : string) (Quote : string -> string)
  (marshal_seccomp : Profiles.SeccompObject -> res string) (uidBase gidBase : Z).
Context (R : relation tables) `{!PreOrder R}.
Context (R_peers : forall A (c : container_call A) st i, R st (answer A c (st, i)).2.1)
  (R_psm : forall t x, R t (set_psm t x))
  (R_forward : forall id s d p t x, Ipam.SetForwardInfo id s d p (t_ipam t) = Ok (x, tt) ->
     R t (set_ipam t x)).
#[local] Notation steps := (steps R (C := asked) (W := X)).

Lemma steps_exists path : steps (exists_path path).
Proof. unfold exists_path. walk. Qed.
Lemma steps_and_then b m : steps m -> steps (and_then b m).
Proof. intros H. unfold and_then. destruct b; [done|]. walk. Qed.
Lemma steps_pullImage image os arch : steps (pullImage image os arch).
Proof. unfold pullImage. walk. Qed.
Lemma steps_container_name p : steps (container_name p).
Proof.
  unfold container_name, generateContainerName. walk.
  assert (forall n, steps (generate_name n)) as H; [|done].
  induction n as [|n IH]; simpl; walk. done.
Qed.
Lemma steps_owns_network p : steps (owns_network p).
Proof. unfold owns_network, IsPodOwner. walk. Qed.
Lemma steps_setupContainerDirectory id : steps (setupContainerDirectory id).
Proof. unfold setupContainerDirectory. walk. Qed.
Lemma steps_setupEtcFiles id addr gateway network podId : steps (setupEtcFiles id addr gateway network podId).
Proof. unfold setupEtcFiles, resolvSearchDomains. walk. Qed.
Lemma steps_container_namespaces p podId : steps (container_namespaces p podId).
Proof.
  unfold container_namespaces.
  repeat first [apply steps_exists | apply steps_and_then | walk_step].
Qed.
Lemma steps_createContainerSpec id p repo ref image bridge addr gateway podId :
  steps (createContainerSpec HookAgentBinPath Quote marshal_seccomp id p repo ref image bridge addr
           gateway podId).
Proof.
  unfold createContainerSpec. repeat first [apply steps_container_namespaces | walk_step].
Qed.
Lemma steps_joinContainer id tty podId : steps (joinContainer id tty podId).
Proof. unfold joinContainer, createContainer. walk. Qed.
Lemma steps_setupForwardRule id ports : steps (setupForwardRule id ports).
Proof. unfold setupForwardRule. walk. Qed.
Lemma steps_cleanupForwardRules id : steps (cleanupForwardRules id).
Proof. unfold cleanupForwardRules. walk. Qed.
Lemma steps_restoreForwardRules id : steps (restoreForwardRules id).
Proof. unfold restoreForwardRules. walk. Qed.
Lemma steps_member_cert id : steps (issueRootlessPodMemberClientCert id).
Proof. unfold issueRootlessPodMemberClientCert. walk. Qed.
Lemma steps_member_bundle id p : steps (prepareRootlessPodMemberBundle uidBase gidBase id p).
Proof. unfold prepareRootlessPodMemberBundle, rootlessRuntimeHostRootID. walk. Qed.
Lemma steps_deleteContainerDirectory id : steps (deleteContainerDirectory cwd id).
Proof. unfold deleteContainerDirectory, RemoveAllUnderRoot. walk. Qed.
Lemma steps_deleteCgroupSubtree id : steps (deleteCgroupSubtree cwd id).
Proof. unfold deleteCgroupSubtree. walk. Qed.
Lemma steps_undo f skip m : steps m -> steps (undo f skip m).
Proof. intros H. unfold undo. walk. done. Qed.
End parts.

Ltac calm_step :=
  match goal with
  | |- steps _ (pullImage _ _ _) => apply steps_pullImage; eauto
  | |- steps _ (owns_network _) => apply steps_owns_network; eauto
  | |- steps _ (setupContainerDirectory _) => apply steps_setupContainerDirectory; eauto
  | |- steps _ (setupEtcFiles _ _ _ _ _) => apply steps_setupEtcFiles; eauto
  | |- steps _ (createContainerSpec _ _ _ _ _ _ _ _ _ _ _ _) => apply steps_createContainerSpec; eauto
  | |- steps _ (issueRootlessPodMemberClientCert _) => apply steps_member_cert; eauto
  | |- steps _ (prepareRootlessPodMemberBundle _ _ _ _) => apply steps_member_bundle; eauto
  | |- steps _ (setupForwardRule _ _) => apply steps_setupForwardRule; eauto
  | |- steps _ (joinContainer _ _ _) => apply steps_joinContainer; eauto
  | |- steps _ (createContainer _ _) => unfold createContainer
  | |- steps _ (setupCgroupSubtree _) => unfold setupCgroupSubtree
  | _ => walk_step
  end.
Ltac calm_part := repeat calm_step.

(** ** Failed creations *)

Section failed.
Context {RO : RangeOrder} {X : Type} {P : ContainerPeers X} (HP : tame P).
Context (cwd : res string) (HookAgentBinPath : string) (Quote : string -> string)
  (marshal_seccomp : Profiles.SeccompObject -> res string) (uidBase gidBase : Z).
Context (cid : string).
#[local] Notation M := (M tables asked X).
#[local] Notation steps := (steps (C := asked) (W := X)).

(** The container is in none of the tables. *)
Definition absent (t : tables) : Prop :=
  Csm.Containers (t_csm t) !! cid = None /\ unheld cid (Ipam.Pools (t_ipam t)).
Definition keyed_table (t : tables) : Prop := keyed Csm.ContainerId (Csm.Containers (t_csm t)).

(** Steps that give the container nothing. *)
Record calm (t t' : tables) : Prop := {
  calm_keyed : keyed_table t -> keyed_table t';
  calm_entry : Csm.Containers (t_csm t) !! cid = None -> Csm.Containers (t_csm t') !! cid = None;
  calm_address i ip : holds cid (Ipam.Pools (t_ipam t')) i ip -> holds cid (Ipam.Pools (t_ipam t)) i ip
}.
#[export] Instance calm_preorder : PreOrder calm.
Proof. split; [by split|]. intros t1 t2 t3 [] []. split; eauto. Qed.

Lemma calm_peers A (c : container_call A) st i : calm st (answer A c (st, i)).2.1.
Proof.
  split.
  - intros Hk k y Hy. destruct (tame_csm P HP A c st i k y Hy) as (x & Hx & _ & ->). by apply Hk.
  - intros Hn.
    destruct (Csm.Containers (t_csm (answer A c (st, i)).2.1) !! cid) as [y|] eqn:E; [|done].
    destruct (tame_csm P HP A c st i cid y E) as (x & Hx & _). congruence.
  - by rewrite (tame_ipam P HP).
Qed.
Lemma calm_psm t x : calm t (set_psm t x).
Proof. by split. Qed.
Lemma calm_forward id s d p t x : Ipam.SetForwardInfo id s d p (t_ipam t) = Ok (x, tt) ->
  calm t (set_ipam t x).
Proof.
  intros H. split; [done..|]. intros i ip. unfold Ipam.SetForwardInfo in H. inv_ok. simpl.
  apply (forward_holds cid _ _ _ _ i ip Hv).
Qed.
#[local] Hint Resolve calm_preorder calm_peers calm_psm calm_forward : core.

Lemma calm_once t t' : calm t t' -> held_once cid (Ipam.Pools (t_ipam t)) ->
  held_once cid (Ipam.Pools (t_ipam t')).
Proof. intros [_ _ H] Ho i ip j jp Hi%H Hj%H. eauto. Qed.
Lemma calm_unheld t t' : calm t t' -> unheld cid (Ipam.Pools (t_ipam t)) ->
  unheld cid (Ipam.Pools (t_ipam t')).
Proof. intros [_ _ H] Ho i ip Hi%H. by apply (Ho i ip). Qed.
Lemma calm_absent t t' : calm t t' -> absent t -> absent t'.
Proof. intros Hc [H1 H2]. split; [by eapply calm_entry|by eapply calm_unheld]. Qed.

(** What the flags know of the tables. *)
Record known (f : RollbackFlag) (t : tables) : Prop := {
  known_keyed : keyed_table t;
  known_entry : CSMEntry f = true \/ Csm.Containers (t_csm t) !! cid = None;
  known_address : AllocateAddr f = true /\ held_once cid (Ipam.Pools (t_ipam t)) \/
    unheld cid (Ipam.Pools (t_ipam t))
}.
Lemma calm_known f t t' : calm t t' -> known f t -> known f t'.
Proof.
  intros Hc [H1 H2 H3]. split.
  - by eapply calm_keyed.
  - destruct H2 as [H2|H2]; [by left|right]. by eapply calm_entry.
  - destruct H3 as [[H3 H4]|H3]; [left|right]; eauto using calm_once, calm_unheld.
Qed.

Definition informed {A} (m : flagged (X := X) A) : Prop := forall f w,
  faults w = [] -> known f (store w) ->
  match m f w with (Ok (f', _), w') => faults w' = [] /\ known f' (store w')
  | (Err _, _) => False | _ => True end.

Lemma informed_fret {A} (a : A) : informed (fret a).
Proof. by intros f w. Qed.
Lemma informed_fdo {A} (m : M A) : steps calm m -> informed (fdo m).
Proof.
  intros H f w Hw Hk. unfold fdo, attempt, mbind, M_bind. destruct (H w Hw) as [H1 H2].
  destruct (m w) as [[a|e|e] w1]; simpl in *; [| |done]; split; eauto using calm_known.
Qed.
Lemma informed_fbind {A B} (m : flagged A) (k : A -> flagged B) :
  informed m -> (forall a, informed (k a)) -> informed (fbind m k).
Proof.
  intros Hm Hk f w Hw Hf. unfold fbind, mbind, M_bind. specialize (Hm f w Hw Hf).
  destruct (m f w) as [[[f1 [a|e|e]]|e|e] w1]; simpl in *; try done.
  destruct Hm as [H1 H2]. by apply Hk.
Qed.
Lemma informed_mark g : (forall f, CSMEntry f = true -> CSMEntry (g f) = true) ->
  (forall f, AllocateAddr f = true -> AllocateAddr (g f) = true) -> informed (mark g).
Proof.
  intros H1 H2 f w Hw [? Ha Hb]. split; [done|]. split; [done|naive_solver..].
Qed.

(** The same from the start, where no flag is set. *)
Definition starts {A} (m : flagged (X := X) A) : Prop := forall w,
  faults w = [] -> known no_flags (store w) ->
  match m no_flags w with (Ok (f', _), w') => faults w' = [] /\ known f' (store w')
  | (Err _, _) => False | _ => True end.
Lemma starts_fdo {A B} (m : M A) (k : A -> flagged B) :
  steps calm m -> (forall a, starts (k a)) -> starts (fbind (fdo m) k).
Proof.
  intros H Hk w Hw Hn. unfold fbind, fdo, attempt, mbind, M_bind. destruct (H w Hw) as [H1 H2].
  destruct (m w) as [[a|e|e] w1]; simpl in *; [|by eauto using calm_known|done].
  apply Hk; eauto using calm_known.
Qed.
Lemma starts_fret {A B} (a : A) (k : A -> flagged B) : starts (k a) -> starts (fbind (fret a) k).
Proof. done. Qed.

(** The two steps that give the container something, with their flags. *)
Lemma allocate_run bridge (w : world tables asked X) : faults w = [] -> known no_flags (store w) ->
  exists r w', allocateAddress cid bridge w = (r, w') /\ faults w' = [] /\
    match r with
    | Ok _ => known (set_AllocateAddr no_flags) (store w')
    | Err _ => known no_flags (store w')
    | Panic _ => True
    end.
Proof.
  intros Hw [Hk [?|He] [[? _]|Ha]]; try done.
  unfold allocateAddress, timed, on_ipam, ipam.
  assert (exists n w1, now w = (Ok n, w1) /\ faults w1 = [] /\ store w1 = store w) as (n & w1 & E1 & F1 & S1).
  { unfold now. destruct (times w); eauto 10. }
  unfold mbind, M_bind. rewrite E1, txn_run, S1 by done. clear E1.
  destruct (Ipam.Allocate cid bridge n (t_ipam (store w))) as [[x ip]|e|e] eqn:E2; cbn [mbind res_bind];
    [|eexists _, _; split_and!; [done..|rewrite S1; split; by auto]|by eauto].
  unfold Ipam.Allocate in E2. inv_ok. destruct v as [ps ip']. inv_ok.
  destruct (allocate_once _ _ _ _ _ _ Hv Ha) as [Ho Hb].
  destruct (bridge_address (Ipam.set_Pools (t_ipam (store w)) ps) bridge Hb) as [addr Haddr].
  rewrite read_run by done. cbn [store set_store t_ipam set_ipam]. rewrite Haddr.
  eexists _, _. split_and!; [done..|]. split; [done|by right|by left].
Qed.
Lemma starts_allocate {B} bridge (k : string * string -> flagged B) :
  (forall a, informed (k a)) ->
  starts (fbind (fbind (fdo (allocateAddress cid bridge)) (fun a => fbind (mark set_AllocateAddr)
              (fun _ => fret a))) k).
Proof.
  intros Hk w Hw Hn. destruct (allocate_run bridge w Hw Hn) as (r & w1 & E & F & H).
  unfold fbind at 1 2, fdo, attempt, mbind, M_bind. rewrite E.
  destruct r as [a|e|e]; [|by split|done]. apply Hk; done.
Qed.
Lemma informed_store {B} req (k : flagged B) : Csm.req_ContainerId req = cid -> informed k ->
  informed (fbind (fdo (timed (fun t => on_csm (Csm.StoreContainer req t)))) (fun _ =>
            fbind (mark set_CSMEntry) (fun _ => k))).
Proof.
  intros Hreq Hk f w Hw [Hkey _ Ha]. unfold fbind, fdo, mark, attempt, timed, on_csm.
  assert (exists n w1, now w = (Ok n, w1) /\ faults w1 = [] /\ store w1 = store w) as (n & w1 & E1 & F1 & S1).
  { unfold now. destruct (times w); eauto 10. }
  unfold mbind, M_bind. rewrite E1, txn_run, S1 by done.
  cbn [mbind res_bind Csm.StoreContainer mret M_ret]. apply Hk; [done|].
  split; [|by left|done]. unfold keyed_table. simpl. by apply keyed_insert.
Qed.

Ltac informed_step :=
  match goal with
  | |- informed (fbind (fdo (timed (fun t => on_csm (Csm.StoreContainer _ t)))) _) =>
      apply informed_store; [done|]
  | |- informed (fbind _ _) => apply informed_fbind; [|intros ?]
  | |- informed (fdo _) => apply informed_fdo; [by calm_part]
  | |- informed (mark _) => apply informed_mark; by intros []
  | |- informed (fret _) => apply informed_fret
  | |- informed (match ?b with _ => _ end) => destruct b
  end.

Lemma starts_informed {A} (m : flagged A) : informed m -> starts m.
Proof. intros H w. apply H. Qed.

Lemma starts_create_steps name p :
  starts (create_steps HookAgentBinPath Quote marshal_seccomp uidBase gidBase cid name p).
Proof.
  unfold create_steps.
  repeat first
    [ apply starts_fdo; [by calm_part|intros ?]
    | apply starts_fret
    | apply starts_allocate; intros ?
    | match goal with
      | |- starts (fbind (match ?b with true => _ | false => _ end) _) => destruct b
      | |- starts (match ?b with (_, _) => _ end) => destruct b
      | |- informed (match ?b with (_, _) => _ end) => destruct b
      end].
  all: try apply starts_informed; repeat informed_step.
Qed.

(** The roll-back. *)
Definition undone (answer_ : res unit) : Prop :=
  match answer_ with Ok _ => True | Err e => isNotFoundErr e = true | Panic _ => False end.
Context (Hundo : forall st i, undone (answer unit (RuntimeDelete cid true) (st, i)).1).

Lemma undo_delete f (w : world tables asked X) : faults w = [] -> exists w',
  undo f isNotFoundErr (deleteContainer cid true) w = (Ok tt, w') /\ faults w' = [] /\
  calm (store w) (store w').
Proof.
  intros Hw. unfold undo. destruct f; [|by exists w].
  unfold attempt, deleteContainer, ask, mbind, M_bind.
  pose proof (Hundo (store w) (inner w)) as H.
  pose proof (calm_peers unit (RuntimeDelete cid true) (store w) (inner w)) as Hc.
  destruct (answer unit _ _) as [[[]|e|e] [st i]]; simpl in *; [by eexists|rewrite H; by eexists|done].
Qed.
Lemma undo_release f (w : world tables asked X) : faults w = [] -> known f (store w) -> exists w',
  undo (AllocateAddr f) never (releaseAddress cid) w = (Ok tt, w') /\ faults w' = [] /\
  t_csm (store w') = t_csm (store w) /\ unheld cid (Ipam.Pools (t_ipam (store w'))).
Proof.
  intros Hw [_ _ Ha]. unfold undo. destruct (AllocateAddr f) eqn:E.
  - unfold attempt, releaseAddress, on_ipam, mbind, M_bind. rewrite txn_run by done.
    cbn [Ipam.Release mbind res_bind mret M_ret]. eexists. split_and!; [done..|]. simpl.
    apply release_unheld. destruct Ha as [[_ Ha]|Ha]; [done|by apply once_unheld].
  - exists w. destruct Ha as [[? _]|Ha]; done.
Qed.
Lemma undo_entry f (w : world tables asked X) r w' : faults w = [] -> keyed_table (store w) ->
  (CSMEntry f = true \/ Csm.Containers (t_csm (store w)) !! cid = None) ->
  undo (CSMEntry f) isNotFoundErr (on_csm (Csm.RemoveContainer cid)) w = (r, w') ->
  faults w' = [] /\ t_ipam (store w') = t_ipam (store w) /\
  Csm.Containers (t_csm (store w')) !! cid = None.
Proof.
  intros Hw Hk He. unfold undo. destruct (CSMEntry f); [|intros [= <- <-]; naive_solver].
  unfold attempt, on_csm, mbind, M_bind. rewrite txn_run by done. unfold Csm.RemoveContainer.
  rewrite Csm.find_by_id_keyed by done.
  destruct (Csm.Containers (t_csm (store w)) !! cid) as [c|] eqn:E; cbn.
  - intros [= <- <-]. split_and!; [done..|]. simpl. apply lookup_delete_eq.
  - case_match; intros [= <- <-]; done.
Qed.

Lemma rollback_absent f (w : world tables asked X) r w' : faults w = [] -> known f (store w) ->
  rollback cwd f cid w = (r, w') -> absent (store w').
Proof.
  intros Hw Hk H. unfold rollback in H.
  destruct (undo_delete (Runtime f) w Hw) as (w1 & E1 & F1 & C1).
  rewrite (M_bind_eq _ _ _ _ _ E1) in H. apply (calm_known _ _ _ C1) in Hk.
  destruct (undo_release f w1 F1 Hk) as (w2 & E2 & F2 & S2 & U2).
  rewrite (M_bind_eq _ _ _ _ _ E2) in H. destruct Hk as [Hkey He _].
  unfold mbind at 1, M_bind at 1 in H.
  destruct (undo (CSMEntry f) _ _ w2) as [r3 w3] eqn:E3.
  apply undo_entry in E3 as (F3 & S3 & N3); [|done|unfold keyed_table; by rewrite S2|by rewrite S2].
  assert (absent (store w3)) as Ha by (split; [done|by rewrite S3]).
  destruct r3 as [[]|e|e]; [|by simplify_eq..].
  match type of H with ?m w3 = _ => assert (steps calm m) as Hs end.
  { apply steps_bind; [done| |intros _; apply steps_bind; [done| |intros _]];
      apply steps_undo; auto.
    - apply steps_deleteContainerDirectory; auto.
    - apply steps_deleteCgroupSubtree; auto.
    - apply steps_cleanupForwardRules; auto. }
  destruct (Hs w3 F3) as [_ Hc]. rewrite H in Hc. by eapply calm_absent.
Qed.
End failed.

(** The identifier that the next creation takes. *)
Definition created_id {St C W} (w : world St C W) : string :=
  take_str 12 (match ids w with i :: _ => i | [] => "" end).

Section creations.
Context {RO : RangeOrder} {X : Type} {P : ContainerPeers X}.
Context (cwd : res string) (HookAgentBinPath : string) (Quote : string -> string)
  (marshal_seccomp : Profiles.SeccompObject -> res string) (uidBase gidBase : Z).
#[local] Notation create :=
  (create_container cwd HookAgentBinPath Quote marshal_seccomp uidBase gidBase).

Lemma created_id_run (w : world tables asked X) : exists u w1, new_id w = (Ok u, w1) /\
  take_str 12 u = created_id w /\ faults w1 = faults w /\ store w1 = store w.
Proof. unfold new_id, created_id. destruct (ids w); eauto 10. Qed.

(** C9: when the creation of a container fails, at whatever step, afterwards the container
    is in no table and has no address - if the tables can be read and written
    throughout ([faults w = []]: an address stays when a read fails in between,
    [ContainerSpec.Demo.address_left]), the other services give out no address and
    add no container ([tame]), the identifier was not in use before, and the
    runtime answers the removal by saying that it is done or that there is nothing to
    remove. *)
Theorem failed_creation_leaves_nothing p (w : world tables asked X) e w' :
  tame P -> faults w = [] -> keyed_table (store w) -> absent (created_id w) (store w) ->
  (forall st i, undone (answer unit (RuntimeDelete (created_id w) true) (st, i)).1) ->
  create p w = (Err e, w') -> absent (created_id w) (store w').
Proof.
  intros HP Hw Hk Ha Hundo H. unfold create_container in H.
  destruct (created_id_run w) as (u & w1 & E1 & Hu & F1 & S1).
  rewrite (M_bind_eq _ _ _ _ _ E1) in H. rewrite <- Hu in *. clear Hu E1.
  set (cid := take_str 12 u) in *. clearbody cid. rewrite <- S1 in Hk, Ha. rewrite Hw in F1.
  assert (steps (calm cid) (container_name (X := X) p)) as Hs.
  { apply steps_container_name; eauto using calm_peers with typeclass_instances. }
  destruct (Hs w1 F1) as [F2 C2]. unfold mbind at 1, M_bind at 1 in H.
  destruct (container_name p w1) as [[name|e2|e2] w2]; simpl in F2, C2; simplify_eq;
    [|by apply (calm_absent cid _ _ C2)].
  assert (known cid no_flags (store w2)) as Hn.
  { destruct Ha. split; [by eapply calm_keyed|right; by eapply calm_entry|right; by eapply calm_unheld]. }
  pose proof (starts_create_steps HP HookAgentBinPath Quote marshal_seccomp uidBase gidBase cid name p
    w2 F2 Hn) as Hst.
  unfold with_rollback in H. unfold mbind at 1, M_bind at 1 in H.
  destruct (create_steps _ _ _ _ _ _ _ _ _ w2) as [[[f r]|e3|e3] w3]; [|done|done].
  destruct Hst as [F3 K3]. destruct r as [id|e4|e4]; [done|..].
  all: unfold mbind at 1, M_bind at 1 in H.
  all: destruct (rollback cwd f cid w3) as [r4 w4] eqn:E4.
  all: eapply rollback_absent in E4; [|done..].
  all: by destruct r4; try injection H as <- <-.
Qed.
End creations.

(** ** Names *)

(** Every container is stored under its identifier, and no two have a name. *)
Definition names_unique (t : tables) : Prop :=
  keyed_table t /\ forall i j c d,
    Csm.Containers (t_csm t) !! i = Some c -> Csm.Containers (t_csm t) !! j = Some d ->
    Csm.ContainerName c = Csm.ContainerName d -> i = j.
(** And only the container [cid] may have the name [n]. *)
Definition reserved (n cid : string) (t : tables) : Prop :=
  names_unique t /\ forall i c,
    Csm.Containers (t_csm t) !! i = Some c -> Csm.ContainerName c = n -> i = cid.

(** Properties of the container table that survive the loss of containers and
    changes of other fields. *)
Definition survives (I : tables -> Prop) : Prop := forall t t',
  (forall i y, Csm.Containers (t_csm t') !! i = Some y ->
    exists x, Csm.Containers (t_csm t) !! i = Some x /\
      Csm.ContainerName y = Csm.ContainerName x /\ Csm.ContainerId y = Csm.ContainerId x) ->
  I t -> I t'.

Lemma names_survive : survives names_unique.
Proof.
  intros t t' H [Hk Hu]. split.
  - intros i y (x & Hx & _ & ->)%H. by apply Hk.
  - intros i j c d (x & Hx & -> & _)%H (y & Hy & -> & _)%H. by eapply Hu.
Qed.
Lemma reserved_survives n cid : survives (reserved n cid).
Proof.
  intros t t' H [Hu Hn]. split; [by eapply names_survive|].
  intros i y (x & Hx & -> & _)%H. by apply Hn.
Qed.

Section survival.
Context {RO : RangeOrder} {X : Type} {P : ContainerPeers X} (HP : tame P).
Context (cwd : res string) (HookAgentBinPath : string) (Quote : string -> string)
  (marshal_seccomp : Profiles.SeccompObject -> res string) (uidBase gidBase : Z).
Context (I : tables -> Prop) (HI : survives I).
#[local] Notation M := (M tables asked X).
#[local] Notation steps := (steps (C := asked) (W := X)).

Definition kept (t t' : tables) : Prop := I t -> I t'.
#[export] Instance kept_preorder : PreOrder kept.
Proof. split; unfold kept; [by intros t|]. intros t1 t2 t3; auto. Qed.

Lemma kept_peers A (c : container_call A) st i : kept st (answer A c (st, i)).2.1.
Proof. intros Hst. eapply HI; [|exact Hst]. intros k y Hy. by apply (tame_csm P HP A c st i k y). Qed.
Lemma kept_same t t' : t_csm t' = t_csm t -> kept t t'.
Proof. intros H Hst. eapply HI; [|exact Hst]. rewrite H. eauto. Qed.
Lemma kept_psm t x : kept t (set_psm t x).
Proof. by apply kept_same. Qed.
Lemma kept_forward id s d p t x : Ipam.SetForwardInfo id s d p (t_ipam t) = Ok (x, tt) ->
  kept t (set_ipam t x).
Proof. intros _. by apply kept_same. Qed.
#[local] Hint Resolve kept_preorder kept_peers kept_psm kept_forward : core.

Lemma kept_on_ipam {A} (fn : Ipam.IpamState -> res (Ipam.IpamState * A)) : steps kept (on_ipam (X := X) fn).
Proof.
  apply steps_txn; [auto|]. intros t t' a H. inv_ok. destruct v as [x b]. inv_ok. by apply kept_same.
Qed.
Lemma kept_remove id : steps kept (on_csm (X := X) (Csm.RemoveContainer id)).
Proof.
  apply steps_txn; [auto|]. intros t t' a H. inv_ok. destruct v as [x b]. inv_ok.
  unfold Csm.RemoveContainer in Hv. case_match; [|done]. destruct p. injection Hv as <- <-.
  intros Hst. eapply HI; [|exact Hst]. intros i y Hy. simpl in Hy.
  apply lookup_delete_Some in Hy as [_ Hy]. eauto.
Qed.
Lemma kept_timed {A} (m : Z -> M A) : (forall t, steps kept (m t)) -> steps kept (timed m).
Proof. intros H. apply steps_bind; [auto|apply steps_now; auto|done]. Qed.
End survival.

Ltac kept_step :=
  match goal with
  | |- steps _ (on_ipam _) => apply kept_on_ipam; eauto
  | |- steps _ (on_csm (Csm.RemoveContainer _)) => apply kept_remove; eauto
  | |- steps _ (timed _) => apply kept_timed; [eauto..|intros ?]
  | |- steps _ (undo _ _ _) => apply steps_undo; eauto
  | |- steps _ (deleteContainerDirectory _ _) => apply steps_deleteContainerDirectory; eauto
  | |- steps _ (deleteCgroupSubtree _ _) => apply steps_deleteCgroupSubtree; eauto
  | |- steps _ (cleanupForwardRules _) => apply steps_cleanupForwardRules; eauto
  | |- steps _ (restoreForwardRules _) => apply steps_restoreForwardRules; eauto
  | |- steps _ (container_name _) => apply steps_container_name; eauto
  | |- steps _ (exists_path _) => apply steps_exists; eauto
  | |- steps _ (and_then _ _) => apply steps_and_then; eauto
  | _ => calm_step
  end.

Section service_names.
Context {RO : RangeOrder} {X : Type} {P : ContainerPeers X} (HP : tame P).
Context (cwd : res string) (HookAgentBinPath : string) (Quote : string -> string)
  (marshal_seccomp : Profiles.SeccompObject -> res string) (uidBase gidBase : Z).
#[local] Notation M := (M tables asked X).
#[local] Notation steps I := (steps (C := asked) (W := X) (kept I)).
#[local] Notation create :=
  (create_container cwd HookAgentBinPath Quote marshal_seccomp uidBase gidBase).
#[local] Hint Resolve kept_preorder kept_peers kept_psm kept_forward names_survive reserved_survives : core.

Lemma kept_store n cid req t : Csm.req_ContainerId req = cid -> Csm.req_ContainerName req = n ->
  steps (reserved n cid) (on_csm (X := X) (Csm.StoreContainer req t)).
Proof.
  intros <- <-. apply steps_txn; [auto|]. intros x y a H [[Hk Hu] Hn]. inv_ok.
  injection Hv as <-. injection H as <-. unfold reserved, names_unique, keyed_table. simpl.
  assert (forall i c, <[Csm.req_ContainerId req := Csm.new_container req t]> (Csm.Containers (t_csm x))
      !! i = Some c -> i = Csm.req_ContainerId req /\ Csm.ContainerName c = Csm.req_ContainerName req \/
    Csm.Containers (t_csm x) !! i = Some c /\ i <> Csm.req_ContainerId req) as Hi.
  { intros i c [[<- <-]|[Hne Hc]]%lookup_insert_Some; auto. }
  split; [split|].
  - by apply keyed_insert.
  - intros i j c d [[-> Hc]|[Hc Hci]]%Hi [[-> Hd]|[Hd Hdj]]%Hi He; [done|..|by eapply Hu].
    + symmetry. eapply Hn; [done|congruence].
    + eapply Hn; [done|congruence].
  - intros i c [[-> _]|[Hc _]]%Hi; [done|]. by eapply Hn.
Qed.

Definition fkept I {A} (m : flagged (X := X) A) : Prop := forall f, steps I (m f).
Lemma fkept_fret I {A} (a : A) : fkept I (fret a).
Proof. intros f. apply steps_ret; auto. Qed.
Lemma fkept_mark I g : fkept I (mark g).
Proof. intros f. apply steps_ret; auto. Qed.
Lemma fkept_fdo I {A} (m : M A) : steps I m -> fkept I (fdo m).
Proof.
  intros H f. apply steps_bind; [auto|apply steps_attempt; auto|]. intros r. apply steps_ret; auto.
Qed.
Lemma fkept_fbind I {A B} (m : flagged A) (k : A -> flagged B) :
  fkept I m -> (forall a, fkept I (k a)) -> fkept I (fbind m k).
Proof.
  intros Hm Hk f. apply steps_bind; [auto|apply Hm|]. intros [f1 [a|e|e]];
    [apply Hk|apply steps_ret|apply steps_crash]; auto.
Qed.
End service_names.

Ltac fkept_step :=
  match goal with
  | |- fkept _ (fbind _ _) => apply fkept_fbind; [|intros ?]
  | |- fkept _ (fdo _) => apply fkept_fdo
  | |- fkept _ (mark _) => apply fkept_mark
  | |- fkept _ (fret _) => apply fkept_fret
  | |- fkept _ (match ?b with _ => _ end) => destruct b
  | |- steps _ (on_csm (Csm.StoreContainer _ _)) => apply kept_store; eauto
  | _ => kept_step
  end.

Section service.
Context {RO : RangeOrder} {X : Type} {P : ContainerPeers X} (HP : tame P).
Context (cwd : res string) (HookAgentBinPath : string) (Quote : string -> string)
  (marshal_seccomp : Profiles.SeccompObject -> res string) (uidBase gidBase : Z).
#[local] Notation M := (M tables asked X).
#[local] Notation steps I := (steps (C := asked) (W := X) (kept I)).
#[local] Notation create :=
  (create_container cwd HookAgentBinPath Quote marshal_seccomp uidBase gidBase).
#[local] Hint Resolve kept_preorder kept_peers kept_psm kept_forward names_survive reserved_survives : core.

Lemma kept_create_steps n cid p :
  fkept (reserved n cid)
    (create_steps (X := X) HookAgentBinPath Quote marshal_seccomp uidBase gidBase cid n p).
Proof.
  unfold create_steps, allocateAddress. repeat fkept_step.
Qed.
Lemma kept_rollback I f cid : survives I -> steps I (rollback (X := X) cwd f cid).
Proof. intros HI. unfold rollback, deleteContainer, releaseAddress. repeat kept_step. Qed.

(** The check of a name, and what it means that it is free. *)
Lemma free_name n (w w' : world tables asked X) : faults w = [] ->
  or_zero false (csm (Csm.IsNameAlreadyUsed n)) w = (Ok false, w') ->
  w' = w /\ forall i c, Csm.Containers (t_csm (store w)) !! i = Some c -> Csm.ContainerName c <> n.
Proof.
  intros Hw. unfold or_zero, attempt, csm, mbind, M_bind. rewrite read_run by done.
  cbn [Csm.IsNameAlreadyUsed]. unfold Csm.find_by_name.
  destruct (range_find _ _) as [[k v]|] eqn:E; [done|]. intros [= <-]. split; [done|].
  rewrite range_find_None in E. intros i c Hc%E. by apply String.eqb_neq.
Qed.
Lemma generate_name_run k n (w w' : world tables asked X) : faults w = [] ->
  generate_name k w = (Ok n, w') ->
  forall i c, Csm.Containers (t_csm (store w')) !! i = Some c -> Csm.ContainerName c <> n.
Proof.
  revert w. induction k as [|k IH]; intros w Hw H; simpl in H.
  all: apply bind_ok in H as (a & w1 & E1 & H).
  all: assert (faults w1 = []) as F1 by (pose proof (steps_ask (kept names_unique)
         ltac:(eauto) GenerateRandName w Hw) as [F _]; by rewrite E1 in F).
  all: apply bind_ok in H as ([|] & w2 & E2 & H); simpl in H; try done.
  1, 3: injection H as <- <-; by destruct (free_name _ _ _ F1 E2) as [-> Hn].
  assert (faults w2 = []) as F2.
  { assert (steps names_unique (or_zero false (csm (X := X) (Csm.IsNameAlreadyUsed a)))) as Hs
      by repeat kept_step.
    destruct (Hs w1 F1) as [F _]. by rewrite E2 in F. }
  by eapply IH.
Qed.
Lemma container_name_run p (w w' : world tables asked X) n : faults w = [] ->
  container_name p w = (Ok n, w') ->
  forall i c, Csm.Containers (t_csm (store w')) !! i = Some c -> Csm.ContainerName c <> n.
Proof.
  intros Hw. unfold container_name, generateContainerName.
  destruct (String.eqb _ _); [by apply generate_name_run|].
  intros ([|] & w1 & E1 & H)%bind_ok; simpl in H; [done|]. injection H as <- <-.
  by destruct (free_name _ _ _ Hw E1) as [-> Hn].
Qed.

Lemma kept_create p : steps names_unique (create p).
Proof.
  apply steps_bind; [auto|apply steps_new_id; auto|]. intros u w Hw.
  unfold mbind, M_bind.
  assert (steps names_unique (container_name (X := X) p)) as Hs by repeat kept_step.
  destruct (Hs w Hw) as [F1 K1].
  destruct (container_name p w) as [[n|e|e] w1] eqn:E; simpl in F1, K1; [|done..].
  set (cid := take_str 12 u).
  assert (steps (reserved n cid) (with_rollback cwd cid (create_steps HookAgentBinPath Quote
    marshal_seccomp uidBase gidBase cid n p))) as Hr.
  { apply steps_bind; [auto|apply kept_create_steps|]. intros [f [id|e|e]].
    - apply steps_ret; auto.
    - apply steps_bind; [auto|by apply kept_rollback|]. intros _. apply steps_fail; auto.
    - apply steps_bind; [auto|by apply kept_rollback|]. intros _. apply steps_fail; auto. }
  destruct (Hr w1 F1) as [F2 K2]. split; [done|]. intros Hu%K1.
  apply K2. split; [done|]. intros i c Hi Hn. by destruct (container_name_run _ _ _ _ Hw E i c).
Qed.

(** ** The operations *)

Lemma kept_resolve target : steps names_unique (resolve target).
Proof.
  assert (steps names_unique (ResolveContainerId (X := X) target)) as H.
  { unfold ResolveContainerId. repeat kept_step. }
  intros w Hw. unfold resolve. destruct (H w Hw) as [F K].
  by destruct (ResolveContainerId target w) as [[| |] w1].
Qed.
Lemma kept_start target tty ob : steps names_unique (Start target tty ob).
Proof.
  unfold Start, container_info, startContainer. repeat first [apply kept_resolve | kept_step].
Qed.
Lemma kept_stop target ob : steps names_unique (Stop target ob).
Proof.
  unfold Stop, container_info, stopContainer. repeat first [apply kept_resolve | kept_step].
Qed.
Lemma kept_delete target ob : steps names_unique (Delete cwd target ob).
Proof.
  unfold Delete, container_info, deleteContainer, releaseAddress, unless_not_found.
  repeat first [apply kept_resolve | kept_step].
Qed.
Lemma kept_wait n podId : steps names_unique (wait_namespaces n podId).
Proof.
  induction n as [|n IH]; simpl; [apply steps_fail; auto|]. unfold podNamespacesReady.
  repeat first [apply IH | kept_step].
Qed.
Lemma kept_infra podId network :
  steps names_unique (ensurePodInfra cwd HookAgentBinPath Quote marshal_seccomp uidBase gidBase
    podId network).
Proof.
  unfold ensurePodInfra, podNamespacesReady, findPodInfraContainer, GetContainersByPodId,
    waitForPodNamespaces.
  repeat first [apply kept_wait | apply kept_create | apply kept_stop | apply kept_delete
               | apply kept_start | kept_step].
Qed.

(** C11: while the tables can be read and written ([faults w = []]) and the other services add
    no container and rename none ([tame]), no two containers get the same name, and
    each is stored under its own identifier: every run of [Create], with the infra
    container of a pod and the roll-back, and of [Start], [Stop] and [Delete],
    whether it succeeds or fails, keeps it so.  A name that cannot be looked up counts
    as free ([ContainerSpec.Demo.unread_names_are_free]). *)
Theorem container_names_unique (w : world tables asked X) :
  faults w = [] -> names_unique (store w) ->
  (forall p, names_unique (store
     (Create cwd HookAgentBinPath Quote marshal_seccomp uidBase gidBase p w).2)) /\
  (forall o target opBottle, names_unique (store (run_operation cwd o target opBottle w).2)).
Proof.
  intros Hw Hu. split.
  - intros p. assert (steps names_unique (Create cwd HookAgentBinPath Quote marshal_seccomp
      uidBase gidBase p)) as H.
    { unfold Create. repeat first [apply kept_create | apply kept_infra | kept_step]. }
    by apply H.
  - intros o target ob. destruct o as [tty| |]; simpl.
    + by apply kept_start.
    + by apply kept_stop.
    + by apply kept_delete.
Qed.
End service.
