(* ===== verification/ContainerSpec.v ===== *)
(** * The container service: the specification the runtime gets

    What every specification that [create_container] hands to the runtime is
    like ([createContainerSpec] in [core/container/service_create.go]). *)

From Stdlib Require Import ZArith Lia Ascii String.
From stdpp Require Import base gmap strings list.
From S2P Require Import Prelude.
From S2P Require Import IpamTheory.
From S2P Require Import GoString.
From S2P Require Import GoPath.
From S2P Require Import World.
From S2P Require Ipam.
From S2P Require Csm.
From S2P Require Psm.
From S2P Require Profiles.
From S2P Require Import PathSafety.
From S2P Require Import ContainerModel.
From S2P Require Import ContainerCalls.
From S2P Require Import ContainerCreate.
From S2P Require Import ContainerTheory.
Open Scope Z_scope.

(** ** Devices *)

(** A bind mount of an absolute path to an absolute path that is not shared. *)
Definition device_bind (mount : string) : Prop :=
  exists src dst opts, mount = join ":" [src; dst; join "," opts] /\
    hasPrefix src "/" = true /\ hasPrefix dst "/" = true /\ "bind" ∈ opts /\ "rprivate" ∈ opts.

Lemma device_mount_bind raw spec mount : device_mount raw spec = Ok mount -> device_bind mount.
Proof.
  unfold device_mount. destruct (device_parts spec) as [[[src dst] perm]|]; [|done].
  destruct (_ || _); [done|]. destruct (negb _ || negb _) eqn:E; [done|].
  apply orb_false_iff in E as [E1%negb_false_iff E2%negb_false_iff]. intros H. inv_ok.
  exists src, dst, v. split_and!; [done..| |].
  all: revert Hv; unfold device_options; destruct (String.eqb perm ""); [intros [= <-]; set_solver|].
  all: destruct (negb _); [done|]; intros [= <-]; destruct (_ && _); set_solver.
Qed.
Lemma device_mounts_bind devices mounts :
  buildDeviceMounts devices = Ok mounts -> Forall device_bind mounts.
Proof.
  revert mounts. induction devices as [|raw devices IH]; intros mounts; simpl; [by intros [= <-]|].
  destruct (String.eqb _ _); [auto|]. intros H. inv_ok. constructor; [|auto].
  by eapply device_mount_bind.
Qed.

(** ** Namespaces *)

(** The namespaces by type: those every container has of its own, and [others]. *)
Definition has_namespaces (rootless : bool) (others ns : list string) : Prop :=
  forall t, t ∈ ns <-> t ∈ ["mount"; "pid"; "cgroup"] \/ t ∈ others \/ rootless = true /\ t = "user".
(** The files of the namespaces of a pod. *)
Definition ns_files (pod : Psm.PodInfo) : list string :=
  [Psm.NetworkNS pod; Psm.IPCNS pod; Psm.UTSNS pod; Psm.UserNS pod].
(** The pod has namespaces and their files are there; [present] is what the file
    system says of a path. *)
Definition joinable (present : string -> bool) (pod : Psm.PodInfo) : bool :=
  forallb (fun path => negb (String.eqb path "") && present path)
    [Psm.NetworkNS pod; Psm.IPCNS pod; Psm.UTSNS pod] &&
  (String.eqb (Psm.UserNS pod) "" || present (Psm.UserNS pod)).
(** A container that is in no pod, or in a pod that cannot be joined, has namespaces
    of its own; one in a pod that can be joined has the network, the messages and
    the host name of that pod. *)
Definition own_or_joined (st : Psm.PodState) (present : string -> bool) (podId : string)
    (rootless : bool) (ns paths : list string) : Prop :=
  let own := has_namespaces rootless ["network"; "ipc"; "uts"] ns /\ paths = [] in
  if String.eqb podId "" then own else
  exists pod, Psm.GetPodById podId st = Ok pod /\
    if joinable present pod
    then has_namespaces rootless [] ns /\
         paths = ["network=" +:+ Psm.NetworkNS pod; "ipc=" +:+ Psm.IPCNS pod; "uts=" +:+ Psm.UTSNS pod]
    else own.
Definition ns_confining (st : Psm.PodState) (present : string -> bool)
    (p : ServiceCreateModel) (q : asked) : Prop :=
  match projT2 q with
  | RuntimeSpec m => own_or_joined st present (cm_PodId p) (cm_Rootless p) (Namespace m) (NSPath m)
  | _ => True
  end.

(** The calls that run a container, whose hooks report to the daemon. *)
Definition runs {A} (c : container_call A) : bool :=
  match c with
  | RuntimeCreate _ _ | RuntimeStart _ _ | RuntimeStop _ | RuntimeDelete _ _ | RuntimeExec _ _ _ => true
  | _ => false
  end.
(** The other calls leave the table of pods as it is. *)
Definition pods_kept {X} (P : ContainerPeers X) : Prop :=
  forall A (c : container_call A) st i, runs c = false ->
    t_psm (answer A c (st, i)).2.1 = t_psm st.

Lemma own_has rootless : has_namespaces rootless ["network"; "ipc"; "uts"] (own_namespaces rootless).
Proof. intros t. unfold own_namespaces. destruct rootless; set_solver. Qed.
Lemma joined_has rootless : has_namespaces rootless [] (joined_namespaces rootless).
Proof. intros t. unfold joined_namespaces. destruct rootless; set_solver. Qed.

Section pods.
Context {RO : RangeOrder} {X : Type} {P : ContainerPeers X}.
#[local] Notation M := (M tables asked X).

Definition keeps {A} (m : M A) : Prop := forall w, t_psm (store (m w).2) = t_psm (store w).
Lemma keeps_reads {A} (m : M A) : reads m -> keeps m.
Proof. intros H w. by rewrite (H w). Qed.
Lemma keeps_bind {A B} (m : M A) (f : A -> M B) : keeps m -> (forall a, keeps (f a)) -> keeps (m ≫= f).
Proof.
  intros Hm Hf w. unfold mbind, M_bind. specialize (Hm w).
  destruct (m w) as [[a|e|e] w1]; [by rewrite (Hf a w1)|done..].
Qed.
Lemma keeps_attempt {A} (m : M A) : keeps m -> keeps (attempt m).
Proof. intros H w. unfold attempt. specialize (H w). by destruct (m w) as [[| |] w1]. Qed.
Lemma keeps_wrap {A} what (m : M A) : keeps m -> keeps (wrap what m).
Proof. intros H w. unfold wrap. specialize (H w). by destruct (m w) as [[| |] w1]. Qed.
Lemma keeps_or_zero {A} (z : A) (m : M A) : keeps m -> keeps (or_zero z m).
Proof. intros H. apply keeps_bind; [by apply keeps_attempt|]. intros a. apply keeps_reads, reads_ret. Qed.
Lemma keeps_each {A} (f : A -> M unit) l : (forall x, keeps (f x)) -> keeps (each f l).
Proof.
  intros H. induction l as [|x l IH]; simpl; [apply keeps_reads, reads_ret|].
  apply keeps_bind; [done|]. by intros _.
Qed.
Lemma keeps_now : keeps now.
Proof. intros w. unfold now. by destruct (times w). Qed.
Lemma keeps_new_id : keeps new_id.
Proof. intros w. unfold new_id. by destruct (ids w). Qed.
Lemma keeps_ask {A} (c : container_call A) : pods_kept P -> runs c = false -> keeps (ask c).
Proof.
  intros H Hc w. unfold ask. specialize (H A c (store w) (inner w) Hc).
  by destruct (answer A c _) as [r [st i]].
Qed.
Lemma keeps_on_ipam {A} (fn : Ipam.IpamState -> res (Ipam.IpamState * A)) : keeps (on_ipam fn).
Proof.
  intros w. unfold on_ipam, txn. pose proof (pop_fault_keeps w) as (H1 & _).
  destruct (pop_fault w) as [[e|] w1]; simpl in *; [by rewrite H1|]. rewrite <- H1.
  by destruct (fn _) as [[x a]|e|e].
Qed.
Lemma keeps_on_csm {A} (fn : Csm.ContainerState -> res (Csm.ContainerState * A)) : keeps (on_csm fn).
Proof.
  intros w. unfold on_csm, txn. pose proof (pop_fault_keeps w) as (H1 & _).
  destruct (pop_fault w) as [[e|] w1]; simpl in *; [by rewrite H1|]. rewrite <- H1.
  by destruct (fn _) as [[x a]|e|e].
Qed.

(** What a computation asks while the table of pods is [st]. *)
Context (st : Psm.PodState) (Q : asked -> Prop).
Definition pasks {A} (m : M A) : Prop :=
  forall w, t_psm (store w) = st -> exists l, trace (m w).2 = trace w ++ l /\ Forall Q l.
Lemma pasks_asks {A} (m : M A) : asks Q m -> pasks m.
Proof. intros H w _. apply H. Qed.
Lemma pasks_bind_run {A B} (m : M A) (f : A -> M B) : asks Q m -> keeps m ->
  (forall a w w', t_psm (store w) = st -> m w = (Ok a, w') -> pasks (f a)) -> pasks (m ≫= f).
Proof.
  intros Hm Hk Hf w Hw. destruct (Hm w) as (l & Hl & HQ). specialize (Hk w).
  unfold mbind, M_bind. destruct (m w) as [[a|e|e] w1] eqn:E; simpl in *; [|by exists l..].
  destruct (Hf a w w1 Hw E w1) as (l' & Hl' & HQ'); [congruence|]. exists (l ++ l').
  rewrite Hl', Hl, app_assoc. split; [done|]. by apply Forall_app.
Qed.
Lemma pasks_bind {A B} (m : M A) (f : A -> M B) :
  asks Q m -> keeps m -> (forall a, pasks (f a)) -> pasks (m ≫= f).
Proof. intros Hm Hk Hf. apply pasks_bind_run; auto. Qed.
Lemma pasks_then {A B} (m : M A) (f : A -> M B) :
  pasks m -> (forall a, asks Q (f a)) -> pasks (m ≫= f).
Proof.
  intros Hm Hf w Hw. unfold mbind, M_bind. destruct (Hm w Hw) as (l & Hl & HQ).
  destruct (m w) as [[a|e|e] w1]; simpl in *; [|by exists l..].
  destruct (Hf a w1) as (l' & Hl' & HQ'). exists (l ++ l').
  rewrite Hl', Hl, app_assoc. split; [done|]. by apply Forall_app.
Qed.
Lemma pasks_wrap {A} what (m : M A) : pasks m -> pasks (wrap what m).
Proof. intros H w Hw. unfold wrap. specialize (H w Hw). by destruct (m w) as [[| |] w1]. Qed.
Lemma pasks_attempt {A} (m : M A) : pasks m -> pasks (attempt m).
Proof. intros H w Hw. unfold attempt. specialize (H w Hw). by destruct (m w) as [[| |] w1]. Qed.
End pods.

Ltac keeps_step :=
  match goal with
  | |- keeps (_ ≫= _) => apply keeps_bind; [|intros ?]
  | |- keeps (wrap _ _) => apply keeps_wrap
  | |- keeps (attempt _) => apply keeps_attempt
  | |- keeps (or_zero _ _) => apply keeps_or_zero
  | |- keeps (ask_always _ _) => apply keeps_or_zero
  | |- keeps (ask _) => apply keeps_ask; [assumption|reflexivity]
  | |- keeps (each _ _) => apply keeps_each; intros ?
  | |- keeps (on_ipam _) => apply keeps_on_ipam
  | |- keeps (on_csm _) => apply keeps_on_csm
  | |- keeps now => apply keeps_now
  | |- keeps (mret _) => apply keeps_reads, reads_ret
  | |- keeps (fail _) => apply keeps_reads, reads_fail
  | |- keeps (read _) => apply keeps_reads, reads_read
  | |- keeps (lift _) => intros ?; reflexivity
  | |- keeps (crash _) => intros ?; reflexivity
  | |- keeps (match ?x with _ => _ end) => destruct x eqn:?
  end.
Ltac keeping := repeat keeps_step.

(** ** Specifications *)

Section spec.
Context {RO : RangeOrder} {X : Type} {P : ContainerPeers X}.
Context (cwd : res string) (HookAgentBinPath : string) (Quote : string -> string)
  (marshal_seccomp : Profiles.SeccompObject -> res string) (uidBase gidBase : Z).
#[local] Notation M := (M tables asked X).
(** What the service of profiles answers. *)
Context (profile_of : string -> res Profiles.SecurityProfile)
  (Hprofile : forall name st i, (answer _ (ResolveProfile name) (st, i)).1 = profile_of name).

(** The restrictions of a profile, as the runtime gets them. *)
Definition restricted_by (m : SpecModel) (profile : Profiles.SecurityProfile) : Prop :=
  CapBase m = Profiles.Base profile /\ SecurityProfile m = Profiles.Name profile /\
  AppArmorProfile m = Profiles.AppArmorProfile profile /\
  NoNewPrivileges m = Profiles.NoNewPrivileges profile /\
  match Profiles.Seccomp profile with
  | None => SeccompJSON m = ""
  | Some s => marshal_seccomp s = Ok (SeccompJSON m)
  end.

Record confined (cid : string) (p : ServiceCreateModel) (m : SpecModel) : Prop := {
  confined_directories :
    (Rootfs m, UpperDir m, WorkDir m, Output m) =
    (Join [ContainerRootDir; cid; "merged"], Join [ContainerRootDir; cid; "diff"],
     Join [ContainerRootDir; cid; "work"], Join [ContainerRootDir; cid]);
  confined_profile : exists asked_, profile_of (cm_SecurityProfile p) = Ok asked_ /\
    exists profile, profile_of (Profiles.Name asked_) = Ok profile /\ restricted_by m profile;
  confined_mounts : exists devices, Mount m = cm_Mount p ++ devices /\ Forall device_bind devices;
  confined_rootless :
    (Rootless m, RootlessMode m, RootlessRootUID m, RootlessRootGID m) =
    (cm_Rootless p, cm_RootlessMode p, cm_RootlessRootUID p, cm_RootlessRootGID p);
  confined_capabilities : (CapAdd m, CapDrop m) = (cm_CapAdd p, cm_CapDrop p)
}.
Definition confining (cid : string) p (q : asked) : Prop :=
  match projT2 q with RuntimeSpec m => confined cid p m | _ => True end.

Lemma asks_bind_run Q {A B} (m : M A) (f : A -> M B) :
  asks Q m -> (forall a w w', m w = (Ok a, w') -> asks Q (f a)) -> asks Q (m ≫= f).
Proof.
  intros Hm Hf w. unfold mbind, M_bind. destruct (Hm w) as (l & Hl & HQ).
  destruct (m w) as [[a|e|e] w1] eqn:E; simpl in *; [|by exists l..].
  destruct (Hf a _ _ E w1) as (l' & Hl' & HQ'). exists (l ++ l').
  rewrite Hl', Hl, app_assoc. split; [done|]. by apply Forall_app.
Qed.

Lemma resolved name (w : world tables asked X) prof w' : ask (ResolveProfile name) w = (Ok prof, w') ->
  profile_of name = Ok prof.
Proof.
  unfold ask. intros H. rewrite <- (Hprofile name (store w) (inner w)).
  destruct (answer _ _ _) as [r [st i]]. by injection H as -> _.
Qed.

Lemma asks_spec cid p q repo ref image bridge addr gateway :
  profile_of (cm_SecurityProfile p) = Ok q ->
  asks (confining cid p)
    (createContainerSpec HookAgentBinPath Quote marshal_seccomp cid
       (set_SecurityProfile p (Profiles.Name q)) repo ref image bridge addr gateway (cm_PodId p)).
Proof.
  intros Hq. unfold createContainerSpec.
  apply asks_bind.
  { unfold container_namespaces, exists_path, and_then, psm, on_psm. asking; done. }
  intros [ns paths].
  apply asks_bind_run; [asking|]. intros devices w1 w1' Hd. unfold lift in Hd.
  injection Hd as Hd%device_mounts_bind _. unfold ipam.
  do 3 (apply asks_bind; [asking; done|intros ?]).
  apply asks_bind_run; [asking; done|]. intros profile w2 w2' Hp%resolved.
  apply asks_bind_run; [asking|]. intros json w3 w3' Hj.
  apply asks_ask. cbn [confining projT2]. split; try done.
  - cbn. exists q. split; [done|]. exists profile. split; [done|]. repeat split.
    cbn [SeccompJSON]. destruct (Profiles.Seccomp profile) as [s|]; [|by injection Hj as <-].
    unfold wrap, lift in Hj. destruct (marshal_seccomp s) as [x|e|e]; by simplify_eq.
  - exists devices. done.
Qed.

Definition fasks (Q : asked -> Prop) {A} (m : flagged (X := X) A) : Prop := forall f, asks Q (m f).
Lemma fasks_fret Q {A} (a : A) : fasks Q (fret a).
Proof. intros f. apply asks_quiet, quiet_ret. Qed.
Lemma fasks_mark Q g : fasks Q (mark g).
Proof. intros f. apply asks_quiet, quiet_ret. Qed.
Lemma fasks_fdo Q {A} (m : M A) : asks Q m -> fasks Q (fdo m).
Proof. intros H f. unfold fdo. asking. done. Qed.
Lemma fasks_fbind Q {A B} (m : flagged A) (k : A -> flagged B) :
  fasks Q m -> (forall a, fasks Q (k a)) -> fasks Q (fbind m k).
Proof.
  intros Hm Hk f. apply asks_bind; [apply Hm|]. intros [f1 [a|e|e]]; [apply Hk|asking..].
Qed.
Lemma fasks_resolve Q {B} name (k : Profiles.SecurityProfile -> flagged B) :
  Q (asked_for (ResolveProfile name)) -> (forall q, profile_of name = Ok q -> fasks Q (k q)) ->
  fasks Q (fbind (fdo (ask (ResolveProfile name))) k).
Proof.
  intros HQ Hk f. unfold fbind, fdo. apply asks_bind_run; [asking; done|].
  intros [f1 r] w w' H. destruct r as [q|e|e]; [|asking..].
  apply bind_ok in H as (r & w1 & E & H). injection H as <- -> <-.
  unfold attempt in E. destruct (ask (ResolveProfile name) w) as [[b|b|b] w2] eqn:E1; simplify_eq.
  apply Hk. by eapply resolved.
Qed.
End spec.

Ltac fasks_step :=
  match goal with
  | |- fasks _ (fbind (fdo (ask (ResolveProfile _))) _) => eapply fasks_resolve; [eassumption|exact I|intros ? ?]
  | |- fasks _ (fbind _ _) => apply fasks_fbind; [|intros ?]
  | |- fasks _ (fdo _) => apply fasks_fdo
  | |- fasks _ (mark _) => apply fasks_mark
  | |- fasks _ (fret _) => apply fasks_fret
  | |- fasks _ (match ?b with _ => _ end) => destruct b
  | |- asks _ (createContainerSpec _ _ _ _ _ _ _ _ _ _ _ _) => eapply asks_spec; eassumption
  | _ => asks_step
  end.

Section creation.
Context {RO : RangeOrder} {X : Type} {P : ContainerPeers X}.
Context (cwd : res string) (HookAgentBinPath : string) (Quote : string -> string)
  (marshal_seccomp : Profiles.SeccompObject -> res string) (uidBase gidBase : Z).
Context (profile_of : string -> res Profiles.SecurityProfile).

Lemma fasks_create_steps cid name p
  (Hprofile : forall name st i, (answer _ (ResolveProfile name) (st, i)).1 = profile_of name) :
  fasks (confining marshal_seccomp profile_of cid p)
    (create_steps (X := X) HookAgentBinPath Quote marshal_seccomp uidBase gidBase cid name p).
Proof.
  unfold create_steps, pullImage, owns_network, IsPodOwner, allocateAddress, timed, on_ipam, on_csm,
    on_psm, csm, psm, ipam, setupContainerDirectory, setupEtcFiles, resolvSearchDomains,
    setupCgroupSubtree, issueRootlessPodMemberClientCert, prepareRootlessPodMemberBundle,
    rootlessRuntimeHostRootID, setupForwardRule, createContainer.
  repeat fasks_step; try exact I.
  all: try (unfold joinContainer, createContainer, psm, on_ipam, on_psm; asking; exact I).
  by apply asks_spec with (p := p).
Qed.

Lemma creation_confining p (w : world tables asked X) r w' :
  (forall name st i, (answer _ (ResolveProfile name) (st, i)).1 = profile_of name) ->
  create_container cwd HookAgentBinPath Quote marshal_seccomp uidBase gidBase p w = (r, w') ->
  exists l, trace w' = trace w ++ l /\
    Forall (confining marshal_seccomp profile_of (created_id w) p) l.
Proof.
  intros Hprofile H. unfold create_container in H.
  destruct (created_id_run w) as (u & w1 & E1 & Hu & F1 & S1).
  rewrite (M_bind_eq _ _ _ _ _ E1) in H. rewrite <- Hu.
  assert (trace w1 = trace w) as <-.
  { unfold new_id in E1. destruct (ids w); by injection E1 as <- <-. }
  match type of H with ?m w1 = _ => assert (asks (confining marshal_seccomp profile_of
    (take_str 12 u) p) m) as Hm; [|specialize (Hm w1); by rewrite H in Hm] end.
  apply asks_bind.
  { unfold container_name, generateContainerName, csm.
    assert (forall n, asks (confining marshal_seccomp profile_of (take_str 12 u) p)
      (generate_name (X := X) n)) as Hg; [|asking; by apply Hg].
    induction n as [|n IH]; simpl; unfold csm; asking; done. }
  intros name. unfold with_rollback. apply asks_bind; [by apply fasks_create_steps|].
  intros [f [id|e|e]]; [asking|..].
  all: unfold rollback, undo, deleteContainer, releaseAddress, deleteContainerDirectory,
    deleteCgroupSubtree, RemoveAllUnderRoot, cleanupForwardRules, forward_call, on_ipam, on_csm, ipam.
  all: asking; done.
Qed.

Section namespaces.
Context (st : Psm.PodState) (present : string -> bool) (p : ServiceCreateModel).
Context (Hkept : pods_kept P).
Context (Hstat : forall pod path st0 i, Psm.GetPodById (cm_PodId p) st = Ok pod ->
  path ∈ ns_files pod -> is_ok (answer _ (Stat path) (st0, i)).1 = present path).
#[local] Notation Q := (ns_confining st present p).

Lemma exists_path_run pod path (w : world tables asked X) b w' :
  Psm.GetPodById (cm_PodId p) st = Ok pod -> path ∈ ns_files pod ->
  exists_path path w = (Ok b, w') -> b = negb (String.eqb path "") && present path.
Proof.
  intros Hpod Hin. unfold exists_path. destruct (String.eqb path ""); [by intros [= <- _]|].
  intros (a & w1 & E & H)%bind_ok. injection H as <- _. simpl. rewrite <- (Hstat pod path (store w) (inner w)) by done.
  unfold attempt, ask in E. by destruct (answer _ _ _) as [[| |] [? ?]]; simplify_eq.
Qed.
Lemma and_then_run b (m : World.M tables asked X bool) x (w : world tables asked X) c w' :
  (forall w c w', m w = (Ok c, w') -> c = x) -> and_then b m w = (Ok c, w') -> c = b && x.
Proof. intros Hm. destruct b; simpl; [by apply Hm|by intros [= <- _]]. Qed.

Lemma container_namespaces_run (p' : ServiceCreateModel) (w : world tables asked X) ns paths w' :
  t_psm (store w) = st ->
  container_namespaces p' (cm_PodId p) w = (Ok (ns, paths), w') ->
  own_or_joined st present (cm_PodId p) (cm_Rootless p') ns paths.
Proof.
  unfold container_namespaces, own_or_joined. intros Hst.
  pose proof (own_has (cm_Rootless p')) as Hown. pose proof (joined_has (cm_Rootless p')) as Hjoin.
  destruct (String.eqb_spec (cm_PodId p) "") as [_|Hid]; [by intros [= <- <-]|].
  intros (pod & w1 & E1 & H)%bind_ok. apply read_ok in E1 as [E1 _]. rewrite Hst in E1.
  exists pod. split; [done|]. unfold joinable, ns_files in *. cbn [forallb].
  destruct (String.eqb (Psm.NetworkNS pod) "") eqn:N1; [by injection H as <- <-|].
  destruct (String.eqb (Psm.IPCNS pod) "") eqn:N2;
    [injection H as <- <-; by rewrite andb_false_r|].
  destruct (String.eqb (Psm.UTSNS pod) "") eqn:N3;
    [injection H as <- <-; by rewrite !andb_false_r|]. cbn [orb negb andb] in *.
  apply bind_ok in H as (n & w2 & E2 & H). apply (exists_path_run pod) in E2; [|done|set_solver].
  apply bind_ok in H as (i & w3 & E3 & H). apply bind_ok in H as (u & w4 & E4 & H).
  apply bind_ok in H as (ready & w5 & E5 & H). rewrite N1 in E2. simpl in E2.
  apply (and_then_run _ _ (present (Psm.IPCNS pod))) in E3.
  2:{ intros ? ? ? E. apply (exists_path_run pod) in E; [|done|set_solver]. by rewrite N2 in E. }
  apply (and_then_run _ _ (present (Psm.UTSNS pod))) in E4.
  2:{ intros ? ? ? E. apply (exists_path_run pod) in E; [|done|set_solver]. by rewrite N3 in E. }
  apply (and_then_run _ _ (String.eqb (Psm.UserNS pod) "" || present (Psm.UserNS pod))) in E5.
  2:{ destruct (String.eqb (Psm.UserNS pod) "") eqn:N4; [by intros ? ? ? [= <- _]|].
      intros ? ? ? E. apply (exists_path_run pod) in E; [|done|set_solver]. by rewrite N4 in E. }
  rewrite andb_true_r, andb_assoc, <- E2, <- E3, <- E4, <- E5.
  destruct ready; [by injection H as <- <-|].
  apply bind_ok in H as (? & ? & _ & H). by injection H as <- <-.
Qed.

Lemma pasks_spec cid p' repo ref image bridge addr gateway :
  cm_Rootless p' = cm_Rootless p ->
  pasks st Q (createContainerSpec HookAgentBinPath Quote marshal_seccomp cid p' repo ref image
    bridge addr gateway (cm_PodId p)).
Proof.
  intros Hp w Hw. unfold createContainerSpec, mbind at 1, M_bind at 1.
  assert (asks Q (container_namespaces (X := X) p' (cm_PodId p))) as Ha.
  { unfold container_namespaces, exists_path, and_then, psm, on_psm. asking; done. }
  destruct (Ha w) as (l & Hl & HQ).
  destruct (container_namespaces p' (cm_PodId p) w) as [[[ns paths]|e|e] w1] eqn:E; simpl in Hl;
    [|by exists l..].
  apply container_namespaces_run in E; [|done]. rewrite Hp in E.
  match goal with |- context [(?m w1).2] => assert (asks Q m) as Hm end.
  { unfold ipam. asking; try done. all: exact E. }
  destruct (Hm w1) as (l' & Hl' & HQ'). exists (l ++ l').
  rewrite Hl', Hl, app_assoc. split; [done|]. by apply Forall_app.
Qed.

Definition fpasks {A} (m : flagged (X := X) A) : Prop := forall f, pasks st Q (m f).
Lemma fpasks_step {A B} (m : flagged A) (k : A -> flagged B) :
  fasks Q m -> (forall f, keeps (m f)) -> (forall a, fpasks (k a)) -> fpasks (fbind m k).
Proof.
  intros Hm Hk Hf f. apply pasks_bind; [apply Hm|apply Hk|].
  intros [f1 [a|e|e]]; [apply Hf|apply pasks_asks; asking..].
Qed.
Lemma fpasks_then {A B} (m : flagged A) (k : A -> flagged B) :
  fpasks m -> (forall a, fasks Q (k a)) -> fpasks (fbind m k).
Proof.
  intros Hm Hf f. apply pasks_then; [apply Hm|]. intros [f1 [a|e|e]]; [apply Hf|asking..].
Qed.
Lemma fpasks_fdo {A} (m : World.M tables asked X A) : pasks st Q m -> fpasks (fdo m).
Proof.
  intros H f. unfold fdo. apply pasks_then; [by apply pasks_attempt|]. intros r. asking.
Qed.

(** Before the specification nothing touches the table of pods, and nothing after
    it asks for another. *)
Ltac before_spec :=
  repeat first
    [ match goal with
      | |- fpasks (fbind (fdo (wrap _ (createContainerSpec _ _ _ _ _ _ _ _ _ _ _ _))) _) => fail 2
      | |- fpasks (fbind _ _) => apply fpasks_step; [|intros ?|intros ?]
      | |- fpasks (match ?b with _ => _ end) => destruct b
      | |- keeps (fdo _ _) => unfold fdo
      | |- keeps (mark _ _) => unfold mark
      | |- keeps (fret _ _) => unfold fret
      | |- keeps (fbind _ _ _) => unfold fbind
      | |- keeps ((match ?b with _ => _ end) _) => destruct b
      end
    | fasks_step | keeps_step ].
Lemma fpasks_create_steps cid name :
  fpasks (create_steps HookAgentBinPath Quote marshal_seccomp uidBase gidBase cid name p).
Proof.
  unfold create_steps, pullImage, owns_network, IsPodOwner, allocateAddress, timed,
    csm, psm, ipam, setupContainerDirectory, setupEtcFiles, resolvSearchDomains, setupCgroupSubtree.
  before_spec; try exact I;
    try (unfold psm; apply keeps_reads, reads_read);
    try (apply asks_quiet; unfold psm, on_ipam, on_csm; apply quiet_txn || apply quiet_read).
  apply fpasks_then; [by apply fpasks_fdo, pasks_wrap, pasks_spec|intros _].
  unfold issueRootlessPodMemberClientCert, prepareRootlessPodMemberBundle,
    rootlessRuntimeHostRootID, setupForwardRule, createContainer, joinContainer, psm, on_ipam, on_psm.
  repeat fasks_step; try (unfold createContainer; apply asks_ask); exact I.
Qed.

Lemma creation_namespaces :
  pasks st Q (create_container cwd HookAgentBinPath Quote marshal_seccomp uidBase gidBase p).
Proof.
  unfold create_container. apply pasks_bind; [asking|apply keeps_new_id|]. intros u.
  apply pasks_bind; unfold container_name, generateContainerName, csm.
  { assert (forall n, asks Q (generate_name (X := X) n)) as Hg; [|asking; by apply Hg].
    induction n as [|n IH]; simpl; unfold csm; asking; done. }
  { assert (forall n, keeps (generate_name (X := X) n)) as Hg; [|keeping; by apply Hg].
    induction n as [|n IH]; simpl; unfold csm; keeping; done. }
  intros name. unfold with_rollback. apply pasks_then.
  - apply fpasks_create_steps.
  - intros [f [id|e|e]]; [asking|..].
    all: unfold rollback, undo, deleteContainer, releaseAddress, deleteContainerDirectory,
      deleteCgroupSubtree, RemoveAllUnderRoot, cleanupForwardRules, forward_call, on_ipam, on_csm, ipam.
    all: asking; done.
Qed.
End namespaces.

(** C12: every specification that a creation hands to the runtime, however the creation
    ends, is confined: its directories are those of the new container; its base
    capabilities, system call filter, AppArmor profile and no-new-privileges flag are
    those of the security profile asked for, under its resolved name; beside the mounts
    asked for it has only private binds of absolute device paths; and it has mount,
    process and control group namespaces of its own (a user namespace when it is
    rootless), and, for a container of a pod that has its namespaces and their files,
    the network, message and host name namespaces of exactly that pod of the table,
    else ones of its own.  Reads and writes of the tables may fail, and the other
    services may answer anything but different things for one profile name or one
    namespace file of the pod; only the calls that run a container may change the
    table of pods meanwhile. *)
Theorem specifications_confined (present : string -> bool) p (w : world tables asked X) r w' :
  (forall name st i, (answer _ (ResolveProfile name) (st, i)).1 = profile_of name) ->
  pods_kept P ->
  (forall pod path st i, Psm.GetPodById (cm_PodId p) (t_psm (store w)) = Ok pod ->
     path ∈ ns_files pod -> is_ok (answer _ (Stat path) (st, i)).1 = present path) ->
  create_container cwd HookAgentBinPath Quote marshal_seccomp uidBase gidBase p w = (r, w') ->
  exists l, trace w' = trace w ++ l /\
    Forall (confining marshal_seccomp profile_of (created_id w) p) l /\
    Forall (ns_confining (t_psm (store w)) present p) l.
Proof.
  intros Hprofile Hkept Hstat H.
  destruct (creation_confining p w r w' Hprofile H) as (l & Hl & HF).
  exists l. split; [done|]. split; [done|].
  destruct (creation_namespaces (t_psm (store w)) present p Hkept Hstat w eq_refl) as (l' & Hl' & HF').
  rewrite H in Hl'. simpl in Hl'.
  assert (l = l') as -> by (eapply app_inv_head; by rewrite <- Hl, <- Hl'). done.
Qed.
End creation.

(** * The container service on concrete runs *)

Module Demo.

Definition image_config : ImageConfigObject :=
  {| i_Env := ["PATH=/bin"]; i_Cmd := ["sh"]; i_Entrypoint := []; i_WorkingDir := ""; i_User := "" |}.
Definition profile_of (name : string) : res Profiles.SecurityProfile :=
  match Profiles.builtinProfile "amd64" name with
  | Some p => Ok p
  | None => Err ("security profile not found: " +:+ name)
  end.
Definition answer_of {A} (broken : bool) (c : container_call A) : res A :=
  match c with
  | IsImageExist _ _ => Ok true
  | GetConfigPath _ _ => Ok "/images/config.json"
  | GetRootfsPath _ _ => Ok "/images/rootfs"
  | GetImageConfig _ => Ok image_config
  | HostOs => Ok "linux"
  | HostArch => Ok "amd64"
  | PullImage _ _ _ => Ok tt
  | ResolveProfile name => profile_of name
  | GenerateRandName => Ok "calm_fox"
  | CreateForwardingRule _ _ _ _ | RemoveForwardingRule _ _ _ _ => Ok tt
  | IssueClientCert _ _ _ _ _ _ => Ok tt
  | RuntimeSpec _ => Ok tt
  | RuntimeCreate _ _ => if broken then Err "droplet create failed: exit status 1" else Ok tt
  | RuntimeStart _ _ | RuntimeStop _ | RuntimeDelete _ _ | RuntimeExec _ _ _ => Ok tt
  | MkdirAll _ | WriteFile _ _ => Ok tt
  | ReadFile _ => Ok ""
  | Stat _ | LchownTree _ _ _ | Chmod _ _ | Remove _ | RemoveAll _ => Ok tt
  | TailLines _ _ _ => Ok ""
  | Getuid | Getgid => Ok 0
  | Sleep _ => Ok tt
  end.
(** The state of the others says whether the runtime can create containers. *)
#[local] Instance peers : ContainerPeers bool := fun A c '(st, broken) =>
  (answer_of broken c, (st, broken)).
Lemma peers_tame : tame peers.
Proof. split; [done|]. intros A c st i id y Hy. by exists y. Qed.

Definition begin (broken : bool) (faults_ : list (option error)) : world tables asked bool :=
  {| store := {| t_ipam := demo; t_csm := Csm.init; t_psm := Psm.init |};
     faults := faults_; times := [100; 200; 300; 400];
     ids := ["01J5XK3V8Q2MAAAAAAAAAAAAAA"; "01J5XK3V9R3NBBBBBBBBBBBBBB"];
     trace := []; inner := broken |}.
Definition web : ServiceCreateModel :=
  {| cm_Image := "nginx"; cm_Os := ""; cm_Arch := ""; cm_Command := ["nginx"]; cm_Port := ["8080:80"];
     cm_Mount := ["/srv:/srv:ro"]; cm_Device := ["/dev/kvm:/dev/kvm:r"]; cm_Env := []; cm_CapAdd := [];
     cm_CapDrop := ["CAP_MKNOD"]; cm_SecurityProfile := "restricted"; cm_Network := "raind0";
     cm_Tty := false; cm_Name := "web"; cm_BottleId := ""; cm_PodId := ""; cm_Rootless := false;
     cm_RootlessMode := "shifted-root"; cm_RootlessRootUID := 0; cm_RootlessRootGID := 0;
     cm_IsPodInfra := false |}.
Definition create_web : world tables asked bool -> res string * world tables asked bool :=
  create_container (Ok "/") "/usr/bin/hook" quoted (fun _ => Ok "{}") 100000 100000 web.
Definition id1 : string := "01J5XK3V8Q2M".

Lemma begin_absent b : absent id1 (store (begin b [])).
Proof.
  split; [done|]. intros i ip (p & a & Hp & Ha & _).
  destruct i as [|i]; [|by destruct i]. injection Hp as <-. cbn in Ha. by rewrite lookup_empty in Ha.
Qed.

(** ** A creation that fails in the runtime *)

Definition failed := (create_web (begin true [])).2.
Lemma failed_answer : (create_web (begin true [])).1 =
  Err "create container failed: droplet create failed: exit status 1".
Proof. vm_compute. reflexivity. Qed.
Lemma failed_web_run : create_web (begin true []) =
  (Err "create container failed: droplet create failed: exit status 1", failed).
Proof. unfold failed. rewrite <- failed_answer. apply surjective_pairing. Qed.

Example failed_creation_leaves_nothing_witness : absent id1 (store failed).
Proof.
  apply (failed_creation_leaves_nothing (Ok "/") "/usr/bin/hook" quoted (fun _ => Ok "{}") 100000
    100000 web (begin true []) "create container failed: droplet create failed: exit status 1" failed).
  - exact peers_tame.
  - reflexivity.
  - apply keyed_empty.
  - exact (begin_absent true).
  - intros st i. exact I.
  - exact failed_web_run.
Defined.

(** The roll-back releases the address, which holds the list of published ports,
    before it removes their rules: it finds none and the rule stays. *)
Definition rule_calls (l : list asked) : list bool :=
  omap (fun q => match projT2 q with
                 | CreateForwardingRule _ _ _ _ => Some true
                 | RemoveForwardingRule _ _ _ _ => Some false
                 | _ => None
                 end) l.
Example forwarding_rule_left : rule_calls (trace failed) = [true].
Proof. vm_compute. reflexivity. Qed.

(** ** A creation that succeeds *)

Definition made := (create_web (begin false [])).2.
Lemma made_answer : (create_web (begin false [])).1 = Ok id1.
Proof. vm_compute. reflexivity. Qed.
Lemma made_web_run : create_web (begin false []) = (Ok id1, made).
Proof. unfold made. rewrite <- made_answer. apply surjective_pairing. Qed.

Definition specs (l : list asked) : list SpecModel :=
  omap (fun q => match projT2 q with RuntimeSpec m => Some m | _ => None end) l.
Example made_spec : (fun m => (NoNewPrivileges m, Namespace m, Mount m)) <$> specs (trace made) =
  [(true, ["mount"; "network"; "uts"; "pid"; "ipc"; "cgroup"],
    ["/srv:/srv:ro"; "/dev/kvm:/dev/kvm:bind,rprivate,dev,ro"])].
Proof. vm_compute. reflexivity. Qed.
Lemma peers_keep_pods : pods_kept peers.
Proof. done. Qed.
(** A member of a pod whose infra container runs, next to another pod. *)
Definition pod_with (podId : string) (pid : Z) : Psm.PodInfo :=
  let file name := "/proc/" +:+ itoa pid +:+ "/ns/" +:+ name in
  {| Psm.PodId := podId; Psm.TemplateId := "t1"; Psm.OwnerKind := ""; Psm.OwnerId := "";
     Psm.Name := podId; Psm.Namespace := "default"; Psm.UID := podId; Psm.State := "running";
     Psm.OwnerPid := pid; Psm.NetworkNS := file "net"; Psm.IPCNS := file "ipc";
     Psm.UTSNS := file "uts"; Psm.UserNS := ""; Psm.Rootless := false; Psm.Labels := ∅;
     Psm.Annotations := ∅; Psm.CreatedAt := 1; Psm.StartedAt := 2; Psm.StoppedAt := 0;
     Psm.StoppedByUser := false |}.
Definition pods : Psm.PodState :=
  {| Psm.Version := "0.1.0"; Psm.PodTemplates := ∅; Psm.ReplicaSets := ∅; Psm.Deployments := ∅;
     Psm.Pods := {[ "p1" := pod_with "p1" 42; "p2" := pod_with "p2" 77 ]} |}.
Definition begin_pods : world tables asked bool :=
  {| store := {| t_ipam := demo; t_csm := Csm.init; t_psm := pods |};
     faults := []; times := [100; 200; 300; 400]; ids := ["01J5XK3V8Q2MAAAAAAAAAAAAAA"];
     trace := []; inner := false |}.
Definition member : ServiceCreateModel :=
  {| cm_Image := "nginx"; cm_Os := ""; cm_Arch := ""; cm_Command := ["nginx"]; cm_Port := [];
     cm_Mount := []; cm_Device := []; cm_Env := []; cm_CapAdd := []; cm_CapDrop := [];
     cm_SecurityProfile := "restricted"; cm_Network := "raind0"; cm_Tty := false; cm_Name := "web";
     cm_BottleId := ""; cm_PodId := "p1"; cm_Rootless := false; cm_RootlessMode := "shifted-root";
     cm_RootlessRootUID := 0; cm_RootlessRootGID := 0; cm_IsPodInfra := false |}.
Definition create_member : res string * world tables asked bool :=
  create_container (Ok "/") "/usr/bin/hook" quoted (fun _ => Ok "{}") 100000 100000 member begin_pods.
Example member_spec : (fun m => (Namespace m, NSPath m)) <$> specs (trace create_member.2) =
  [(["mount"; "pid"; "cgroup"], ["network=/proc/42/ns/net"; "ipc=/proc/42/ns/ipc"; "uts=/proc/42/ns/uts"])].
Proof. vm_compute. reflexivity. Qed.

(** [specifications_confined] on it. *)
Example specifications_confined_witness :
  exists l, trace create_member.2 = trace begin_pods ++ l /\
    Forall (confining (fun _ => Ok "{}") profile_of (created_id begin_pods) member) l /\
    Forall (ns_confining pods (fun _ => true) member) l.
Proof.
  apply (specifications_confined (Ok "/") "/usr/bin/hook" quoted (fun _ => Ok "{}") 100000 100000
    profile_of (fun _ => true) member begin_pods create_member.1 create_member.2).
  - intros name st i. reflexivity.
  - exact peers_keep_pods.
  - intros pod path st i _ _. reflexivity.
  - apply surjective_pairing.
Defined.

Lemma begin_names b f : names_unique (store (begin b f)).
Proof. split; [apply keyed_empty|]. intros i j c d Hc. cbn in Hc. by rewrite lookup_empty in Hc. Qed.
Example container_names_unique_witness : names_unique (store
  (Create (Ok "/") "/usr/bin/hook" quoted (fun _ => Ok "{}") 100000 100000 web (begin false [])).2).
Proof.
  exact (proj1 (container_names_unique peers_tame (Ok "/") "/usr/bin/hook" quoted (fun _ => Ok "{}")
    100000 100000 (begin false []) (eq_refl []) (begin_names false [])) web).
Defined.

(** ** Operations *)

Definition begun := (run_operation (Ok "/") OpDelete "web" false made).2.
Example operations_follow_states_witness :
  exists l, trace begun = trace made ++ l /\
    (l = [] \/ exists id info,
       known_as (t_csm (store made)) "web" id /\
       Csm.GetContainerById id (t_csm (store made)) = Ok info /\
       Csm.State info ∈ ["creating"; "created"; "stopped"] /\ (Csm.BottleId info = "" \/ false = true) /\
       Forall (concerns (Ok "/") id) l).
Proof.
  apply (operations_follow_states (Ok "/") OpDelete "web" false made
    (run_operation (Ok "/") OpDelete "web" false made).1 begun).
  apply surjective_pairing.
Defined.

(** ** What goes wrong *)

(** A name that cannot be looked up counts as free. *)
Example unread_names_are_free :
  let w := (create_web {| store := store made; faults := [Some "input/output error"];
                          times := [500]; ids := ["01J5XK3V9R3NBBBBBBBBBBBBBB"];
                          trace := []; inner := false |}).2 in
  (fun kv => (kv.1, Csm.ContainerName kv.2)) <$> map_to_list (Csm.Containers (t_csm (store w))) =
  [("01J5XK3V9R3N", "web"); ("01J5XK3V8Q2M", "web")].
Proof. vm_compute. reflexivity. Qed.

(** The address is taken before its flag is set: when the gateway cannot be read in
    between, it stays with a container that does not exist. *)
Example address_left :
  let w := (create_web (begin false [None; None; Some "input/output error"])).2 in
  bool_decide (Csm.Containers (t_csm (store w)) !! id1 = None) = true /\
  Ipam.locate id1 (Ipam.Pools (t_ipam (store w))) <> None.
Proof. vm_compute. split; [reflexivity|discriminate]. Qed.

(** The port of a registry is taken for the tag. *)
Example registry_port_is_a_tag :
  parseImageRef "localhost:5000/app" = Ok ("library/localhost", "5000/app") /\
  parseImageRef "registry.example/team/app:v1" = Ok ("registry.example/team/app", "v1") /\
  parseImageRef "nginx" = Ok ("library/nginx", "latest").
Proof. vm_compute. done. Qed.

End Demo.
