(* ===== verification/DropletHandler.v ===== *)
(** * The daemon's calls of the runtime ([condenser/runtime/droplet])

    Every call is a run of the runtime's command; its output becomes part of
    the error. *)

From Stdlib Require Import ZArith Lia Ascii String.
From stdpp Require Import base gmap strings list.
From S2P Require Import Prelude.
From S2P Require Import GoString.
From S2P Require Import GoPath.
From S2P Require Import ContainerCalls.
Open Scope Z_scope.

(** [DropletBinPath]: the two variables of the environment, empty when unset. *)
Definition DropletBinPath (RAIND_DROPLET_BIN SNAP : string) : string :=
  if negb (String.eqb RAIND_DROPLET_BIN "") then RAIND_DROPLET_BIN else
  if negb (String.eqb SNAP "") then Join [SNAP; "bin"; "droplet"] else "/usr/local/bin/droplet".

(** [for _, v := range l { args = append(args, flag, v) }]. *)
Definition repeated (flag : string) (l : list string) : list string :=
  v ← l; [flag; v].
Definition given (b : bool) (args : list string) : list string := if b then args else [].

Definition spec_args (m : SpecModel) : list string :=
  ["spec"; "--rootfs"; Rootfs m; "--cwd"; Cwd m; "--command"; Command m;
   "--hostname"; Hostname m; "--host_if_name"; HostInterface m;
   "--bridge_if_name"; BridgeInterface m; "--if_name"; ContainerInterface m;
   "--if_addr"; ContainerInterfaceAddr m; "--if_gateway"; ContainerGateway m;
   "--upper_dir"; UpperDir m; "--work_dir"; WorkDir m; "--output"; Output m] ++
  given (bool_decide (CapBase m = []) && String.eqb (SeccompJSON m) "" &&
         String.eqb (AppArmorProfile m) "" && negb (NoNewPrivileges m) &&
         negb (String.eqb (SecurityProfile m) ""))
    ["--security-profile"; SecurityProfile m] ++
  repeated "--base-cap" (CapBase m) ++
  given (negb (String.eqb (SeccompJSON m) "")) ["--seccomp-json"; SeccompJSON m] ++
  given (negb (String.eqb (AppArmorProfile m) "")) ["--apparmor-profile"; AppArmorProfile m] ++
  given (NoNewPrivileges m) ["--no-new-privileges"] ++
  given (Rootless m)
    (["--rootless"] ++
     given (negb (String.eqb (RootlessMode m) "")) ["--rootless-mode"; RootlessMode m] ++
     given (0 <? RootlessRootUID m) ["--rootless-root-uid"; itoa (RootlessRootUID m)] ++
     given (0 <? RootlessRootGID m) ["--rootless-root-gid"; itoa (RootlessRootGID m)]) ++
  repeated "--ns" (Namespace m) ++
  repeated "--ns-path" (NSPath m) ++
  repeated "--env" (Env m) ++
  repeated "--mount" (Mount m) ++
  repeated "--cap-add" (CapAdd m) ++
  repeated "--cap-drop" (CapDrop m) ++
  repeated "--dns" (ContainerDns m) ++
  repeated "--image_layer" (ImageLayer m) ++
  repeated "--hook-create-runtime" (CreateRuntimeHook m) ++
  repeated "--hook-create-runtime-env" (CreateRuntimeHookEnv m) ++
  repeated "--hook-create-container" (CreateContainerHook m) ++
  repeated "--hook-create-container-env" (CreateContainerHookEnv m) ++
  repeated "--hook-start-container" (StartContainerHook m) ++
  repeated "--hook-start-container-env" (StartContainerHookEnv m) ++
  repeated "--hook-poststart" (PoststartHook m) ++
  repeated "--hook-poststart-env" (PoststartHookEnv m) ++
  repeated "--hook-stop-container" (StopContainerHook m) ++
  repeated "--hook-stop-container-env" (StopContainerHookEnv m) ++
  repeated "--hook-poststop" (PoststopHook m) ++
  repeated "--hook-poststop-env" (PoststopHookEnv m).

Section handler.
(** [Command(name, args...).CombineOutput()], and where the runtime is. *)
Context (CombineOutput : string -> list string -> string * option error) (runtimePath : string).

Definition runtime (what name : string) (args : list string) : res unit :=
  match CombineOutput name args with
  | (_, None) => Ok tt
  | (out, Some e) =>
      let msg := trimSpace out in
      Err ("droplet " +:+ what +:+ " failed: " +:+
           (if String.eqb msg "" then e else msg +:+ ": " +:+ e))
  end.

Definition Spec (m : SpecModel) : res unit := runtime "spec" runtimePath (spec_args m).
Definition Create (containerId : string) (tty : bool) (podPid : Z) : res unit :=
  let args := "create" :: given tty ["-t"] ++ [containerId] in
  if podPid <=? 0 then runtime "create" runtimePath args
  else runtime "create" "nsenter" (["-t"; itoa podPid; "-U"; "--"; runtimePath] ++ args).
Definition Start (containerId : string) : res unit := runtime "start" runtimePath ["start"; containerId].
Definition Delete (containerId : string) (force : bool) : res unit :=
  runtime "delete" runtimePath ("delete" :: given force ["--force"] ++ [containerId]).
Definition Stop (containerId : string) : res unit := runtime "stop" runtimePath ["kill"; containerId].
Definition Exec (containerId : string) (tty : bool) (entrypoint : list string) : res unit :=
  runtime "exec" runtimePath ("exec" :: given tty ["-t"] ++ containerId :: entrypoint).
End handler.
