(* ===== verification/SpecCommand.v ===== *)
(** * The command that writes a specification ([droplet/command/spec.go])

    What [droplet spec] makes of its flags.  The parser of command lines
    (urfave/cli) is a parameter; what it is known to do is stated in [SpecRefinement.v]. *)

From Stdlib Require Import ZArith Lia Ascii String.
From stdpp Require Import base gmap strings list.
From S2P Require Import Prelude.
From S2P Require Import GoString.
From S2P Require Import GoNumber.
From S2P Require Import RuntimeSpec.
Open Scope Z_scope.

(** ** Flags *)

Inductive Flag :=
  | StringFlag (Value : string)
  | StringSliceFlag
  | BoolFlag
  | IntFlag (Value : Z).

(** [commandSpec].  The application turns the separator of slices off
    ([DisableSliceFlagSeparator]): a value is one element of its slice. *)
Definition commandSpec : list (string * Flag) :=
  [("rootfs", StringFlag "rootfs"); ("mount", StringSliceFlag); ("cwd", StringFlag "/");
   ("env", StringSliceFlag); ("cap-add", StringSliceFlag); ("cap-drop", StringSliceFlag);
   ("command", StringFlag "sh"); ("ns", StringSliceFlag); ("ns-path", StringSliceFlag);
   ("hostname", StringFlag "");
   ("security-profile", StringFlag "default"); ("base-cap", StringSliceFlag);
   ("seccomp-json", StringFlag ""); ("apparmor-profile", StringFlag "");
   ("no-new-privileges", BoolFlag);
   ("rootless", BoolFlag); ("rootless-mode", StringFlag RootlessModeShiftedRoot);
   ("rootless-root-uid", IntFlag 0); ("rootless-root-gid", IntFlag 0);
   ("host_if_name", StringFlag "eth0"); ("bridge_if_name", StringFlag "raind_br0");
   ("if_name", StringFlag "eth0"); ("if_addr", StringFlag "172.16.0.1/24");
   ("if_gateway", StringFlag "172.16.0.254"); ("dns", StringSliceFlag);
   ("image_layer", StringSliceFlag); ("upper_dir", StringFlag ""); ("work_dir", StringFlag "");
   ("hook-prestart", StringSliceFlag); ("hook-prestart-env", StringSliceFlag);
   ("hook-create-runtime", StringSliceFlag); ("hook-create-runtime-env", StringSliceFlag);
   ("hook-create-container", StringSliceFlag); ("hook-create-container-env", StringSliceFlag);
   ("hook-start-container", StringSliceFlag); ("hook-start-container-env", StringSliceFlag);
   ("hook-poststart", StringSliceFlag); ("hook-poststart-env", StringSliceFlag);
   ("hook-stop-container", StringSliceFlag); ("hook-stop-container-env", StringSliceFlag);
   ("hook-poststop", StringSliceFlag); ("hook-poststop-env", StringSliceFlag);
   ("output", StringFlag ".")].

(** [cli.Context]: the getters of the values. *)
Record Context := {
  String_ : string -> string;
  StringSlice : string -> list string;
  Bool : string -> bool;
  Int : string -> Z;
  IsSet : string -> bool
}.

(** ** The parts of the options *)

Fixpoint normalizeCapabilityFlag (seen : list string) (items : list string) : list string :=
  match items with
  | [] => []
  | item :: items =>
      let v := trimSpace (toUpper item) in
      if String.eqb v "" then normalizeCapabilityFlag seen items else
      let v := if hasPrefix v "CAP_" then v else "CAP_" +:+ v in
      if existsb (String.eqb v) seen then normalizeCapabilityFlag seen items
      else v :: normalizeCapabilityFlag (v :: seen) items
  end.

Definition hasBindMountOption (options : list string) : bool :=
  existsb (fun opt => String.eqb opt "bind" || String.eqb opt "rbind") options.

(** [strings.SplitN(s, sep, 3)] and [strings.SplitN(s, sep, 2)] as what is
    before and after the first signs. *)
Definition mount_parts (mount : string) : option (string * string * string) :=
  match cut ":" mount with
  | None => None
  | Some (src, rest) =>
      match cut ":" rest with
      | None => Some (src, rest, "")
      | Some (dst, opts) => Some (src, dst, opts)
      end
  end.

Section parse.
(** [os.Stat]: whether there is a directory. *)
Context (StatIsDir : string -> res bool).

Definition parse_mount (mount : string) : res MountObject :=
  match mount_parts mount with
  | None => Err "invalid mount format"
  | Some (src, dst, options) =>
      dir ← StatIsDir src;
      let opts := if String.eqb options "" then [] else split "," options in
      Ok {| Destination := dst; m_Type := if dir : bool then "" else "bind"; Source := src;
            Options := if hasBindMountOption opts then opts
                       else if dir : bool then "bind" :: opts else "rbind" :: "rprivate" :: opts |}
  end.
Fixpoint parseMountFlag (mounts : list string) : res (list MountObject) :=
  match mounts with
  | [] => Ok []
  | mount :: mounts => m ← parse_mount mount; rest ← parseMountFlag mounts; Ok (m :: rest)
  end.
End parse.

Definition isValidNamespaceType (ns : string) : bool :=
  existsb (String.eqb ns) ["mount"; "network"; "uts"; "pid"; "ipc"; "user"; "cgroup"; "time"].

Fixpoint parseNamespaceFlag (namespaces : list string) : res (list NamespaceObject) :=
  match namespaces with
  | [] => Ok []
  | ns :: namespaces =>
      if String.eqb ns "" then parseNamespaceFlag namespaces else
      if negb (isValidNamespaceType ns) then Err ("invalid namespace type: " +:+ quoted ns) else
      rest ← parseNamespaceFlag namespaces;
      Ok ({| ns_Type := ns; ns_Path := "" |} :: rest)
  end.
Fixpoint parseNamespacePathFlag (items : list string) : res (list NamespaceObject) :=
  match items with
  | [] => Ok []
  | item :: items =>
      if String.eqb item "" then parseNamespacePathFlag items else
      let invalid := Err ("invalid ns-path: " +:+ quoted item +:+ " (expected type=path)") in
      match cut "=" item with
      | None => invalid
      | Some (nsType, path) =>
          if String.eqb nsType "" || String.eqb path "" then invalid else
          if negb (isValidNamespaceType nsType)
          then Err ("invalid namespace type: " +:+ quoted nsType) else
          rest ← parseNamespacePathFlag items;
          Ok ({| ns_Type := nsType; ns_Path := path |} :: rest)
      end
  end.

Definition merge_step (merged : gmap string NamespaceObject) (ns : NamespaceObject) :=
  if String.eqb (ns_Type ns) "" then merged else <[ns_Type ns := ns]> merged.
(** The result is ranged out of a map. *)
Definition mergeNamespaceOptions {RO : RangeOrder} (base overrides : list NamespaceObject)
    : list NamespaceObject :=
  range_values (fold_left merge_step (base ++ overrides) ∅).
Definition hasNamespaceOption (items : list NamespaceObject) (nsType : string) : bool :=
  existsb (fun item => String.eqb (ns_Type item) nsType) items.

Fixpoint parse_hooks (command : list string) : res (list HookObject) :=
  match command with
  | [] => Ok []
  | v :: command =>
      if String.eqb v "" then parse_hooks command else
      match split "," v with
      | path :: args =>
          if String.eqb path "" then Err ("invalid hook: " +:+ quoted v +:+ " (path is required)") else
          rest ← parse_hooks command;
          Ok ({| hook_Path := path; hook_Args := args; hook_Env := []; Timeout := None |} :: rest)
      | [] => Err ("invalid hook: " +:+ quoted v +:+ " (path is required)")
      end
  end.
Definition add_env (v : string) (h : HookObject) : HookObject :=
  {| hook_Path := hook_Path h; hook_Args := hook_Args h; hook_Env := hook_Env h ++ [v];
     Timeout := Timeout h |}.
(** The hooks from the index of the next value on. *)
Fixpoint add_envs (env : list string) (hooks : list HookObject) : res (list HookObject) :=
  match env with
  | [] => Ok hooks
  | v :: env =>
      let skip := match hooks with [] => add_envs env [] | h :: hooks => r ← add_envs env hooks; Ok (h :: r) end in
      if String.eqb v "" then skip else
      match hooks with
      | [] => Err ("hook env has no matching hook: " +:+ quoted v)
      | h :: hooks =>
          match cut "=" v with
          | None => Err ("invalid hook env: " +:+ quoted v)
          | Some _ => r ← add_envs env hooks; Ok (add_env v h :: r)
          end
      end
  end.
Definition parseHookFlag (command env : list string) : res (list HookObject) :=
  hooks ← parse_hooks command; add_envs env hooks.

Definition rootlessOptionsFromSpecCLI (ctx : Context) : res (bool * string) :=
  let rootless := Bool ctx "rootless" in
  let mode := String_ ctx "rootless-mode" in
  '(rootless, mode) ←
    (if String.eqb mode "" || String.eqb mode RootlessModeShiftedRoot
     then Ok (rootless, RootlessModeShiftedRoot)
     else if String.eqb mode RootlessModeLoginRoot then Ok (true, mode)
     else Err ("invalid --rootless-mode: " +:+ mode +:+ ", expected " +:+ RootlessModeShiftedRoot +:+
               " or " +:+ RootlessModeLoginRoot));
  Ok ((if IsSet ctx "rootless-mode" then true else rootless), mode).

(** ** The options *)

Section command.
Context {RO : RangeOrder} (GOARCH : string).
(** [os.Stat], [shlex.Split] and the decoder of a system call filter. *)
Context (StatIsDir : string -> res bool) (shlex_Split : string -> res (list string))
  (unmarshal_seccomp : string -> res SeccompObject).

Definition seccomp_flag (raw : string) : res (option SeccompObject) :=
  let raw := trimSpace raw in
  if String.eqb raw "" then Ok None else
  match unmarshal_seccomp raw with
  | Ok s => Ok (Some s)
  | Err e => Err ("invalid seccomp-json: " +:+ e)
  | Panic e => Panic e
  end.

Definition hook_flags (ctx : Context) (name : string) : res (list HookObject) :=
  parseHookFlag (StringSlice ctx ("hook-" +:+ name)) (StringSlice ctx ("hook-" +:+ name +:+ "-env")).

Definition createConfigOptions (ctx : Context) : res ConfigOptions :=
  let baseCapabilities := normalizeCapabilityFlag [] (StringSlice ctx "base-cap") in
  seccompProfile ← seccomp_flag (String_ ctx "seccomp-json");
  _ ← (if bool_decide (baseCapabilities = []) &&
          match seccompProfile with None => true | Some _ => false end &&
          String.eqb (String_ ctx "apparmor-profile") "" && negb (Bool ctx "no-new-privileges")
       then _ ← ResolveSecurityProfile GOARCH (String_ ctx "security-profile"); Ok tt
       else Ok tt);
  '(rootless, rootlessMode) ← rootlessOptionsFromSpecCLI ctx;
  mounts ← parseMountFlag StatIsDir (StringSlice ctx "mount");
  args ← shlex_Split (String_ ctx "command");
  base ← parseNamespaceFlag (StringSlice ctx "ns");
  paths ← parseNamespacePathFlag (StringSlice ctx "ns-path");
  let namespace := mergeNamespaceOptions base paths in
  let namespace := if rootless && negb (hasNamespaceOption namespace "user")
                   then namespace ++ [{| ns_Type := "user"; ns_Path := "" |}] else namespace in
  prestartHook ← hook_flags ctx "prestart";
  createRuntimeHook ← hook_flags ctx "create-runtime";
  createContainerHook ← hook_flags ctx "create-container";
  startContainerHook ← hook_flags ctx "start-container";
  poststartHook ← hook_flags ctx "poststart";
  stopContainerHook ← hook_flags ctx "stop-container";
  poststopHook ← hook_flags ctx "poststop";
  Ok {| Rootfs := String_ ctx "rootfs"; o_Mounts := mounts;
        o_Process :=
          {| po_Cwd := String_ ctx "cwd"; po_Env := StringSlice ctx "env"; po_Args := args;
             CapAdd := normalizeCapabilityFlag [] (StringSlice ctx "cap-add");
             CapDrop := normalizeCapabilityFlag [] (StringSlice ctx "cap-drop") |};
        Security :=
          {| ProfileName := String_ ctx "security-profile"; BaseCapabilities := baseCapabilities;
             so_Seccomp := seccompProfile; so_AppArmorProfile := String_ ctx "apparmor-profile";
             so_NoNewPrivileges := Bool ctx "no-new-privileges" |};
        Namespace := namespace; o_Hostname := String_ ctx "hostname";
        o_Net :=
          {| no_HostInterface := String_ ctx "host_if_name";
             BridgeInterfaceName := String_ ctx "bridge_if_name";
             InterfaceName := String_ ctx "if_name"; Address := String_ ctx "if_addr";
             Gateway := String_ ctx "if_gateway"; Dns := StringSlice ctx "dns" |};
        o_ImageLayer := StringSlice ctx "image_layer"; o_UpperDir := String_ ctx "upper_dir";
        o_WorkDir := String_ ctx "work_dir";
        o_Hooks :=
          {| Prestart := prestartHook; CreateRuntime := createRuntimeHook;
             CreateContainer := createContainerHook; StartContainer := startContainerHook;
             Poststart := poststartHook; StopContainer := stopContainerHook;
             Poststop := poststopHook |};
        o_Rootless := rootless; RootlessMode := rootlessMode;
        RootlessRootUID := Int ctx "rootless-root-uid";
        RootlessRootGID := Int ctx "rootless-root-gid" |}.

(** [runCreateConfigFile]: the path of the file and what is written. *)
Definition runCreateConfigFile (CreateConfigFile : string -> ConfigOptions -> res unit)
    (ctx : Context) : res unit :=
  configOptions ← createConfigOptions ctx;
  CreateConfigFile (String_ ctx "output" +:+ "/config.json") configOptions.
End command.
