(* ===== verification/SpecRefinement.v ===== *)
(** * From the daemon's request to the runtime's specification

    [DropletHandler.Spec] writes a request as a command line, [droplet spec]
    reads it back and makes a specification of it: nothing of the request is
    lost on the way, and the security profile comes out as it went in. *)

From Stdlib Require Import ZArith Lia Ascii String.
From stdpp Require Import base gmap strings pretty list.
From S2P Require Import Prelude.
From S2P Require Import GoString.
From S2P Require Import GoNumber.
From S2P Require Profiles.
From S2P Require Import World.
From S2P Require Import ContainerModel.
From S2P Require Import ContainerCalls.
From S2P Require Import ContainerCreate.
From S2P Require Import ContainerTheory.
From S2P Require Import ContainerSpec.
From S2P Require Import RuntimeSpec.
From S2P Require DropletHandler.
From S2P Require Import SpecCommand.
Open Scope Z_scope.

(** ** What is known of the parser of command lines

    What urfave/cli v2.27.7 does with the flags of [commandSpec], given each as
    its own argument and followed by its value: a slice has all its values in
    order, each without the spaces around it (no flag sets [KeepSpace], and the
    application sets [DisableSliceFlagSeparator]); any other flag has the last
    value as it is, or its default.  A slice value that begins with the mark of
    the library's own serialised slices, and a number that is not written in
    decimal without a sign, are left out. *)

Inductive item :=
  | Given (flag value : string)
  | Switch (flag : string).
Definition item_args (i : item) : list string :=
  match i with
  | Given flag value => ["--" +:+ flag; value]
  | Switch flag => ["--" +:+ flag]
  end.
Definition flag_of (name : string) (flags : list (string * Flag)) : option Flag :=
  snd <$> first_match (fun '(n, _) => String.eqb n name) flags.
(** Not a serialised slice of the library. *)
Definition plain (value : string) : Prop := hasPrefix value "sl:::" = false.
#[export] Instance plain_dec value : Decision (plain value) := decide (hasPrefix value "sl:::" = false).
Definition declared (flags : list (string * Flag)) (i : item) : Prop :=
  match i with
  | Given flag value =>
      match flag_of flag flags with
      | Some (StringFlag _) => True
      | Some StringSliceFlag => plain value
      | Some (IntFlag _) => exists z, 0 <= z <= MaxInt64 /\ value = itoa z
      | _ => False
      end
  | Switch flag => flag_of flag flags = Some BoolFlag
  end.

Definition values (name : string) (items : list item) : list string :=
  omap (fun i => match i with
                 | Given flag value => if String.eqb flag name then Some value else None
                 | Switch _ => None
                 end) items.
Definition switched (name : string) (items : list item) : bool :=
  existsb (fun i => match i with Given _ _ => false | Switch flag => String.eqb flag name end) items.
Definition slice (l : list string) : list string := trimSpace <$> l.
Definition cli_of (flags : list (string * Flag)) (items : list item) : Context :=
  {| String_ := fun n => match last (values n items), flag_of n flags with
                         | Some v, _ => v
                         | None, Some (StringFlag v) => v
                         | None, _ => ""
                         end;
     StringSlice := fun n => slice (values n items);
     Bool := fun n => switched n items;
     Int := fun n => match last (values n items), flag_of n flags with
                     | Some v, _ => match Atoi v with Ok x => x | _ => 0 end
                     | None, Some (IntFlag x) => x
                     | None, _ => 0
                     end;
     IsSet := fun n => negb (bool_decide (values n items = [])) || switched n items |}.
Record same_context (c d : Context) : Prop := {
  same_String : forall n, String_ c n = String_ d n;
  same_StringSlice : forall n, StringSlice c n = StringSlice d n;
  same_Bool : forall n, Bool c n = Bool d n;
  same_Int : forall n, Int c n = Int d n;
  same_IsSet : forall n, IsSet c n = IsSet d n
}.
Definition parses_flags (cli : list (string * Flag) -> list string -> res Context) : Prop :=
  forall items, Forall (declared commandSpec) items ->
    exists c, cli commandSpec (items ≫= item_args) = Ok c /\
      same_context c (cli_of commandSpec items).

(** ** The arguments of a request, by flag *)

Inductive block :=
  | Values (flag : string) (l : list string)
  | Switches (flag : string) (b : bool).
Definition block_items (b : block) : list item :=
  match b with
  | Values flag l => Given flag <$> l
  | Switches flag b => if b then [Switch flag] else []
  end.

Definition optional (b : bool) (v : string) : list string := if b then [v] else [].
Definition unresolved (m : SpecModel) : bool :=
  bool_decide (CapBase m = []) && String.eqb (SeccompJSON m) "" &&
  String.eqb (ContainerCalls.AppArmorProfile m) "" && negb (ContainerCalls.NoNewPrivileges m) &&
  negb (String.eqb (ContainerCalls.SecurityProfile m) "").
Definition spec_blocks (m : SpecModel) : list block :=
  [Values "rootfs" [ContainerCalls.Rootfs m]; Values "cwd" [ContainerCalls.Cwd m];
   Values "command" [Command m]; Values "hostname" [ContainerCalls.Hostname m];
   Values "host_if_name" [ContainerCalls.HostInterface m];
   Values "bridge_if_name" [ContainerCalls.BridgeInterface m];
   Values "if_name" [ContainerInterface m]; Values "if_addr" [ContainerInterfaceAddr m];
   Values "if_gateway" [ContainerGateway m]; Values "upper_dir" [ContainerCalls.UpperDir m];
   Values "work_dir" [ContainerCalls.WorkDir m]; Values "output" [Output m];
   Values "security-profile" (optional (unresolved m) (ContainerCalls.SecurityProfile m));
   Values "base-cap" (CapBase m);
   Values "seccomp-json" (optional (negb (String.eqb (SeccompJSON m) "")) (SeccompJSON m));
   Values "apparmor-profile" (optional (negb (String.eqb (ContainerCalls.AppArmorProfile m) ""))
                                (ContainerCalls.AppArmorProfile m));
   Switches "no-new-privileges" (ContainerCalls.NoNewPrivileges m);
   Switches "rootless" (ContainerCalls.Rootless m);
   Values "rootless-mode" (optional (ContainerCalls.Rootless m &&
     negb (String.eqb (ContainerCalls.RootlessMode m) "")) (ContainerCalls.RootlessMode m));
   Values "rootless-root-uid" (optional (ContainerCalls.Rootless m &&
     (0 <? ContainerCalls.RootlessRootUID m)) (itoa (ContainerCalls.RootlessRootUID m)));
   Values "rootless-root-gid" (optional (ContainerCalls.Rootless m &&
     (0 <? ContainerCalls.RootlessRootGID m)) (itoa (ContainerCalls.RootlessRootGID m)));
   Values "ns" (ContainerCalls.Namespace m); Values "ns-path" (NSPath m);
   Values "env" (ContainerCalls.Env m); Values "mount" (ContainerCalls.Mount m);
   Values "cap-add" (ContainerCalls.CapAdd m); Values "cap-drop" (ContainerCalls.CapDrop m);
   Values "dns" (ContainerDns m); Values "image_layer" (ContainerCalls.ImageLayer m);
   Values "hook-create-runtime" (CreateRuntimeHook m);
   Values "hook-create-runtime-env" (CreateRuntimeHookEnv m);
   Values "hook-create-container" (CreateContainerHook m);
   Values "hook-create-container-env" (CreateContainerHookEnv m);
   Values "hook-start-container" (StartContainerHook m);
   Values "hook-start-container-env" (StartContainerHookEnv m);
   Values "hook-poststart" (PoststartHook m); Values "hook-poststart-env" (PoststartHookEnv m);
   Values "hook-stop-container" (StopContainerHook m);
   Values "hook-stop-container-env" (StopContainerHookEnv m);
   Values "hook-poststop" (PoststopHook m); Values "hook-poststop-env" (PoststopHookEnv m)].
Definition spec_items (m : SpecModel) : list item := spec_blocks m ≫= block_items.

Lemma repeated_items flag l : DropletHandler.repeated ("--" +:+ flag) l =
  block_items (Values flag l) ≫= item_args.
Proof. unfold DropletHandler.repeated. cbn [block_items].
  induction l as [|v l IH]; [done|]. rewrite fmap_cons, !bind_cons, IH. done.
Qed.

Lemma given_items flag b v : DropletHandler.given b ["--" +:+ flag; v] =
  block_items (Values flag (optional b v)) ≫= item_args.
Proof. by destruct b. Qed.
Lemma switch_items flag b : DropletHandler.given b ["--" +:+ flag] =
  block_items (Switches flag b) ≫= item_args.
Proof. by destruct b. Qed.

Lemma given_app b l k : DropletHandler.given b (l ++ k) = DropletHandler.given b l ++ DropletHandler.given b k.
Proof. by destruct b. Qed.
Lemma given_given a b l : DropletHandler.given a (DropletHandler.given b l) = DropletHandler.given (a && b) l.
Proof. by destruct a, b. Qed.
Lemma blocks_args bs : (bs ≫= block_items) ≫= item_args = bs ≫= (fun b => block_items b ≫= item_args).
Proof. induction bs as [|b bs IH]; [done|]. by rewrite !bind_cons, bind_app, IH. Qed.

Lemma spec_args_items m : DropletHandler.spec_args m = "spec" :: (spec_items m ≫= item_args).
Proof.
  unfold DropletHandler.spec_args, spec_items. rewrite blocks_args. unfold spec_blocks.
  rewrite !given_app, !given_given.
  repeat match goal with
  | |- context [DropletHandler.repeated ?s ?l] =>
      lazymatch s with "--" +:+ _ => fail | _ =>
      let f := eval cbv in (drop_str 2 s) in change s with ("--" +:+ f); rewrite (repeated_items f l) end
  end.
  repeat match goal with
  | |- context [DropletHandler.given ?b [?s; ?v]] =>
      let f := eval cbv in (drop_str 2 s) in
      change (DropletHandler.given b [s; v]) with (DropletHandler.given b ["--" +:+ f; v]);
      rewrite (given_items f b v)
  | |- context [DropletHandler.given ?b [?s]] =>
      let f := eval cbv in (drop_str 2 s) in
      change (DropletHandler.given b [s]) with (DropletHandler.given b ["--" +:+ f]);
      rewrite (switch_items f b)
  end.
  rewrite !bind_cons. cbn [mbind list_bind]. rewrite app_nil_r. rewrite <- !app_assoc.
  reflexivity.
Qed.

(** ** What the runtime reads *)

Lemma values_app name l k : values name (l ++ k) = values name l ++ values name k.
Proof. apply omap_app. Qed.
Lemma values_given name flag l : values name (Given flag <$> l) = if String.eqb flag name then l else [].
Proof.
  unfold values. induction l as [|v l IH]; [by destruct (String.eqb flag name)|].
  rewrite fmap_cons. cbn. destruct (String.eqb flag name); [by rewrite IH|done].
Qed.

Lemma values_blocks name bs : values name (bs ≫= block_items) =
  bs ≫= (fun b => match b with
                  | Values flag l => if String.eqb flag name then l else []
                  | Switches _ _ => []
                  end).
Proof.
  induction bs as [|b bs IH]; [done|]. rewrite !bind_cons, values_app, IH. f_equal.
  destruct b as [flag l|flag []]; cbn [block_items]; [apply values_given|done|done].
Qed.
Lemma switched_blocks name bs : switched name (bs ≫= block_items) =
  existsb (fun b => match b with Values _ _ => false | Switches flag b => b && String.eqb flag name end) bs.
Proof.
  unfold switched. induction bs as [|b bs IH]; [done|]. rewrite bind_cons, existsb_app, IH. cbn [existsb].
  f_equal. destruct b as [flag l|flag []]; cbn [block_items]; [|cbn; by rewrite orb_false_r|done].
  induction l as [|v l IHl]; [done|]. by rewrite fmap_cons.
Qed.

Definition bounded (m : SpecModel) : Prop :=
  ContainerCalls.RootlessRootUID m <= MaxInt64 /\ ContainerCalls.RootlessRootGID m <= MaxInt64.

(** The values of slices. *)
Definition slices (m : SpecModel) : list (list string) :=
  [CapBase m; ContainerCalls.Namespace m; NSPath m; ContainerCalls.Env m; ContainerCalls.Mount m;
   ContainerCalls.CapAdd m; ContainerCalls.CapDrop m; ContainerDns m; ContainerCalls.ImageLayer m;
   CreateRuntimeHook m; CreateRuntimeHookEnv m; CreateContainerHook m; CreateContainerHookEnv m;
   StartContainerHook m; StartContainerHookEnv m; PoststartHook m; PoststartHookEnv m;
   StopContainerHook m; StopContainerHookEnv m; PoststopHook m; PoststopHookEnv m].

Lemma declared_values flag l : (forall v, declared commandSpec (Given flag v)) ->
  Forall (declared commandSpec) (block_items (Values flag l)).
Proof. intros H. apply Forall_fmap, Forall_true. intros v. apply H. Qed.
Lemma declared_slice flag l : flag_of flag commandSpec = Some StringSliceFlag -> Forall plain l ->
  Forall (declared commandSpec) (block_items (Values flag l)).
Proof.
  intros Hf H. apply Forall_fmap. eapply Forall_impl; [exact H|]. intros v Hv. cbn [compose declared]. by rewrite Hf.
Qed.
Lemma declared_id flag b z : 0 <= z <= MaxInt64 -> flag_of flag commandSpec = Some (IntFlag 0) ->
  Forall (declared commandSpec) (block_items (Values flag (optional b (itoa z)))).
Proof.
  intros Hz Hf. destruct b; [|apply Forall_nil_2]. apply Forall_singleton. cbn [declared].
  rewrite Hf. eauto.
Qed.

Lemma spec_declared m : bounded m -> Forall (Forall plain) (slices m) -> Forall (declared commandSpec) (spec_items m).
Proof.
  intros [Hu Hg] Hs. unfold slices in Hs. rewrite !Forall_cons in Hs. destruct_and? Hs.
  unfold spec_items.
  assert (Forall (fun b => Forall (declared commandSpec) (block_items b)) (spec_blocks m)) as Hblocks.
  { unfold spec_blocks.
    repeat match goal with |- Forall _ (_ :: _) => apply Forall_cons_2 end; try apply Forall_nil_2.
    all: try (apply declared_values; intros v; exact I).
    all: try (apply declared_slice; [reflexivity|assumption]).
    all: try (cbn [block_items]; case_match; [by apply Forall_singleton|apply Forall_nil_2]).
    all: destruct (Z.ltb_spec 0 (ContainerCalls.RootlessRootUID m)),
      (Z.ltb_spec 0 (ContainerCalls.RootlessRootGID m)); rewrite ?andb_false_r; try apply Forall_nil_2.
    all: apply declared_id; [lia|done]. }
  induction Hblocks; [apply Forall_nil_2|]. rewrite bind_cons. by apply Forall_app_2.
Qed.

Definition block_flag (b : block) : string :=
  match b with Values flag _ | Switches flag _ => flag end.
Lemma flags_once m : NoDup (block_flag <$> spec_blocks m).
Proof.
  assert (bool_decide (NoDup (block_flag <$> spec_blocks m)) = true) as H by (vm_compute; reflexivity).
  by apply bool_decide_eq_true in H.
Qed.

Lemma no_values name bs : name ∉ block_flag <$> bs -> values name (bs ≫= block_items) = [].
Proof.
  rewrite values_blocks. induction bs as [|b bs IH]; [done|].
  rewrite fmap_cons, not_elem_of_cons, bind_cons. intros [Hn Hr]. rewrite IH by done.
  destruct b as [flag l|flag b]; [|done]. destruct (String.eqb_spec flag name) as [->|]; done.
Qed.
Lemma value_at m flag l : Values flag l ∈ spec_blocks m -> values flag (spec_items m) = l.
Proof.
  unfold spec_items. pose proof (flags_once m) as Hn. revert Hn. generalize (spec_blocks m).
  intros bs. induction bs as [|b bs IH]; [by intros _ ?%not_elem_of_nil|].
  rewrite fmap_cons, NoDup_cons, elem_of_cons, bind_cons. intros [Hb Hn] [<-|Hin].
  - rewrite values_app, (no_values flag bs Hb), app_nil_r. cbn [block_items].
    by rewrite values_given, String.eqb_refl.
  - rewrite values_app, IH by done.
    destruct b as [flag' l'|flag' []]; cbn [block_items]; [|done|done].
    assert (flag' <> flag) as Hne%String.eqb_neq.
    { intros ->. apply Hb. apply list_elem_of_fmap. by exists (Values flag l). }
    by rewrite values_given, Hne.
Qed.
Lemma switches_at m :
  switched "no-new-privileges" (spec_items m) = ContainerCalls.NoNewPrivileges m /\
  switched "rootless" (spec_items m) = ContainerCalls.Rootless m /\
  switched "rootless-mode" (spec_items m) = false.
Proof.
  unfold spec_items. rewrite !switched_blocks. unfold spec_blocks. cbn.
  by destruct (ContainerCalls.NoNewPrivileges m), (ContainerCalls.Rootless m).
Qed.

Lemma last_optional b v : last (optional b v) = if b then Some v else None.
Proof. by destruct b. Qed.

(** ** The options that a request becomes *)

Section carried.
Context {RO : RangeOrder} (GOARCH : string).
Context (StatIsDir : string -> res bool) (shlex_Split : string -> res (list string))
  (unmarshal_seccomp : string -> res SeccompObject).

(** What the parts of a request are read as. *)
Record request := {
  rq_seccomp : option SeccompObject;
  rq_mounts : list MountObject;
  rq_args : list string;
  rq_namespaces : list NamespaceObject;
  rq_paths : list NamespaceObject;
  rq_hooks : HookLifecycleObject
}.
Record readable (m : SpecModel) (r : request) : Prop := {
  readable_ids : bounded m;
  readable_slices : Forall (Forall plain) (slices m);
  readable_mode : ContainerCalls.Rootless m = true ->
    ContainerCalls.RootlessMode m ∈ [""; RootlessModeShiftedRoot; RootlessModeLoginRoot];
  readable_seccomp : seccomp_flag unmarshal_seccomp (SeccompJSON m) = Ok (rq_seccomp r);
  readable_mounts : parseMountFlag StatIsDir (slice (ContainerCalls.Mount m)) = Ok (rq_mounts r);
  readable_args : shlex_Split (Command m) = Ok (rq_args r);
  readable_namespaces : parseNamespaceFlag (slice (ContainerCalls.Namespace m)) = Ok (rq_namespaces r);
  readable_paths : parseNamespacePathFlag (slice (NSPath m)) = Ok (rq_paths r);
  readable_prestart : Prestart (rq_hooks r) = [];
  readable_createRuntime :
    parseHookFlag (slice (CreateRuntimeHook m)) (slice (CreateRuntimeHookEnv m)) = Ok (CreateRuntime (rq_hooks r));
  readable_createContainer :
    parseHookFlag (slice (CreateContainerHook m)) (slice (CreateContainerHookEnv m)) = Ok (CreateContainer (rq_hooks r));
  readable_startContainer :
    parseHookFlag (slice (StartContainerHook m)) (slice (StartContainerHookEnv m)) = Ok (StartContainer (rq_hooks r));
  readable_poststart :
    parseHookFlag (slice (PoststartHook m)) (slice (PoststartHookEnv m)) = Ok (Poststart (rq_hooks r));
  readable_stopContainer :
    parseHookFlag (slice (StopContainerHook m)) (slice (StopContainerHookEnv m)) = Ok (StopContainer (rq_hooks r));
  readable_poststop :
    parseHookFlag (slice (PoststopHook m)) (slice (PoststopHookEnv m)) = Ok (Poststop (rq_hooks r))
}.

(** The restrictions are given by value, or by the name of a built-in profile. *)
Definition resolvable (m : SpecModel) (r : request) : Prop :=
  normalizeCapabilityFlag [] (slice (CapBase m)) <> [] \/ rq_seccomp r <> None \/
  ContainerCalls.AppArmorProfile m <> "" \/ ContainerCalls.NoNewPrivileges m = true.

Definition carried (m : SpecModel) (r : request) : ConfigOptions :=
  let namespace := mergeNamespaceOptions (rq_namespaces r) (rq_paths r) in
  {| Rootfs := ContainerCalls.Rootfs m;
     o_Mounts := rq_mounts r;
     o_Process :=
       {| po_Cwd := ContainerCalls.Cwd m; po_Env := slice (ContainerCalls.Env m); po_Args := rq_args r;
          CapAdd := normalizeCapabilityFlag [] (slice (ContainerCalls.CapAdd m));
          CapDrop := normalizeCapabilityFlag [] (slice (ContainerCalls.CapDrop m)) |};
     Security :=
       {| ProfileName := if unresolved m then ContainerCalls.SecurityProfile m else "default";
          BaseCapabilities := normalizeCapabilityFlag [] (slice (CapBase m));
          so_Seccomp := rq_seccomp r; so_AppArmorProfile := ContainerCalls.AppArmorProfile m;
          so_NoNewPrivileges := ContainerCalls.NoNewPrivileges m |};
     Namespace := if ContainerCalls.Rootless m && negb (hasNamespaceOption namespace "user")
                  then namespace ++ [{| ns_Type := "user"; ns_Path := "" |}] else namespace;
     o_Hostname := ContainerCalls.Hostname m;
     o_Net :=
       {| no_HostInterface := ContainerCalls.HostInterface m;
          BridgeInterfaceName := ContainerCalls.BridgeInterface m;
          InterfaceName := ContainerInterface m; Address := ContainerInterfaceAddr m;
          Gateway := ContainerGateway m; Dns := slice (ContainerDns m) |};
     o_ImageLayer := slice (ContainerCalls.ImageLayer m); o_UpperDir := ContainerCalls.UpperDir m;
     o_WorkDir := ContainerCalls.WorkDir m; o_Hooks := rq_hooks r;
     o_Rootless := ContainerCalls.Rootless m;
     RootlessMode := if ContainerCalls.Rootless m && negb (String.eqb (ContainerCalls.RootlessMode m) "")
                     then ContainerCalls.RootlessMode m else RootlessModeShiftedRoot;
     RootlessRootUID := if ContainerCalls.Rootless m && (0 <? ContainerCalls.RootlessRootUID m)
                        then ContainerCalls.RootlessRootUID m else 0;
     RootlessRootGID := if ContainerCalls.Rootless m && (0 <? ContainerCalls.RootlessRootGID m)
                        then ContainerCalls.RootlessRootGID m else 0 |}.

Ltac in_blocks := unfold spec_blocks; repeat (first [left; reflexivity | right]).
Ltac at_flag := erewrite value_at by in_blocks.

Lemma carried_rootless m (c : Context) : same_context c (cli_of commandSpec (spec_items m)) ->
  (ContainerCalls.Rootless m = true ->
    ContainerCalls.RootlessMode m ∈ [""; RootlessModeShiftedRoot; RootlessModeLoginRoot]) ->
  rootlessOptionsFromSpecCLI c =
    Ok (ContainerCalls.Rootless m,
        if ContainerCalls.Rootless m && negb (String.eqb (ContainerCalls.RootlessMode m) "")
        then ContainerCalls.RootlessMode m else RootlessModeShiftedRoot).
Proof.
  intros [HS _ HB _ HI] Hmode. unfold rootlessOptionsFromSpecCLI. rewrite HS, HB, HI.
  cbn [cli_of String_ Bool IsSet]. destruct (switches_at m) as (_ & -> & ->). at_flag.
  destruct (ContainerCalls.Rootless m); [|reflexivity]. specialize (Hmode eq_refl).
  rewrite !elem_of_cons, elem_of_nil in Hmode.
  destruct Hmode as [->|[->|[->|[]]]]; reflexivity.
Qed.
Lemma read_single m c flag v : same_context c (cli_of commandSpec (spec_items m)) ->
  Values flag [v] ∈ spec_blocks m -> String_ c flag = v.
Proof. intros [H _ _ _ _] Hv%value_at. rewrite H. cbn [cli_of String_ StringSlice]. by rewrite Hv. Qed.
Lemma read_slice m c flag l : same_context c (cli_of commandSpec (spec_items m)) ->
  Values flag l ∈ spec_blocks m -> StringSlice c flag = slice l.
Proof. intros [_ H _ _ _] Hv%value_at. rewrite H. cbn [cli_of String_ StringSlice]. by rewrite Hv. Qed.
Lemma read_optional m c flag b v d : same_context c (cli_of commandSpec (spec_items m)) ->
  Values flag (optional b v) ∈ spec_blocks m -> flag_of flag commandSpec = Some (StringFlag d) ->
  String_ c flag = if b then v else d.
Proof.
  intros [H _ _ _ _] Hv%value_at Hd. rewrite H. cbn [cli_of String_]. rewrite Hv, Hd. by destruct b.
Qed.
Lemma read_nonempty m c flag v : same_context c (cli_of commandSpec (spec_items m)) ->
  Values flag (optional (negb (String.eqb v "")) v) ∈ spec_blocks m ->
  flag_of flag commandSpec = Some (StringFlag "") -> String_ c flag = v.
Proof.
  intros Hc Hv Hd. rewrite (read_optional m c flag _ v "" Hc Hv Hd).
  by destruct (String.eqb_spec v "") as [->|].
Qed.
Lemma read_id m c flag b z : same_context c (cli_of commandSpec (spec_items m)) ->
  Values flag (optional (b && (0 <? z)) (itoa z)) ∈ spec_blocks m ->
  flag_of flag commandSpec = Some (IntFlag 0) -> z <= MaxInt64 ->
  Int c flag = if b && (0 <? z) then z else 0.
Proof.
  intros [_ _ _ H _] Hv%value_at Hd Hz. rewrite H. cbn [cli_of Int]. rewrite Hv, Hd.
  destruct b; [|done]. destruct (Z.ltb_spec 0 z); [|done]. cbn [andb optional last].
  unfold Atoi. rewrite int_of_itoa; [done|unfold MinInt64; lia].
Qed.
Lemma read_prestart m c : same_context c (cli_of commandSpec (spec_items m)) ->
  StringSlice c "hook-prestart" = [] /\ StringSlice c "hook-prestart-env" = [].
Proof.
  intros [_ H _ _ _]. rewrite !H. cbn [cli_of StringSlice]. unfold spec_items, slice.
  split; rewrite no_values; try done; unfold spec_blocks; cbn;
    repeat (apply not_elem_of_cons; split; [discriminate|]); apply not_elem_of_nil.
Qed.

Ltac read_flag Hc :=
  match goal with
  | |- context [StringSlice ?c ?f] => erewrite (read_slice _ c f _ Hc) by in_blocks
  | |- context [String_ ?c ?f] => erewrite (read_single _ c f _ Hc) by in_blocks
  | |- context [String_ ?c ?f] => erewrite (read_nonempty _ c f _ Hc) by first [reflexivity | in_blocks]
  | |- context [String_ ?c ?f] => erewrite (read_optional _ c f _ _ _ Hc) by first [reflexivity | in_blocks]
  | |- context [Int ?c ?f] => erewrite (read_id _ c f _ _ Hc) by first [reflexivity | assumption | in_blocks]
  end.

Lemma carried_over (cli : list (string * Flag) -> list string -> res Context) m r :
  parses_flags cli -> readable m r ->
  resolvable m r \/ is_ok (ResolveSecurityProfile GOARCH (ProfileName (Security (carried m r)))) = true ->
  exists args, DropletHandler.spec_args m = "spec" :: args /\
    (c ← cli commandSpec args;
     createConfigOptions GOARCH StatIsDir shlex_Split unmarshal_seccomp c) = Ok (carried m r).
Proof.
  intros Hcli [Hb Hsl Hmode Hsec Hm Ha Hn Hp Hpre H1 H2 H3 H4 H5 H6] Hres.
  eexists. split; [apply spec_args_items|].
  destruct (Hcli _ (spec_declared m Hb Hsl)) as (c & -> & Hc). cbn [mbind res_bind].
  pose proof (carried_rootless m c Hc Hmode) as Hroot. pose proof (read_prestart m c Hc) as [P1 P2].
  pose proof (same_Bool _ _ Hc "no-new-privileges") as HB. cbn [cli_of Bool] in HB.
  rewrite (proj1 (switches_at m)) in HB. destruct Hb as [Hu Hg].
  unfold createConfigOptions, hook_flags.
  repeat match goal with
  | |- context ["hook-" +:+ ?x] => let y := eval vm_compute in ("hook-" +:+ x) in change ("hook-" +:+ x) with y
  end.
  rewrite P1, P2, HB, Hroot. repeat read_flag Hc.
  rewrite Hsec, Hm, Ha, Hn, Hp, H1, H2, H3, H4, H5, H6. cbn [mbind res_bind parseHookFlag parse_hooks add_envs].
  match goal with |- (if ?b then _ else _) ≫= ?k = _ =>
    assert ((if b then ResolveSecurityProfile GOARCH (ProfileName (Security (carried m r)))
                       ≫= (fun _ => Ok tt) else Ok tt) = Ok tt) as Hok end.
  { destruct Hres as [Hres|Hres].
    - destruct (bool_decide_reflect (normalizeCapabilityFlag [] (slice (CapBase m)) = [])); [|done].
      destruct (rq_seccomp r) eqn:Es; [done|].
      destruct (String.eqb_spec (ContainerCalls.AppArmorProfile m) ""); [|done].
      destruct (ContainerCalls.NoNewPrivileges m) eqn:En; [done|].
      exfalso. unfold resolvable in Hres. rewrite Es, En in Hres.
      by destruct Hres as [?|[?|[?|?]]].
    - revert Hres. destruct (ResolveSecurityProfile _ _) as [q|e|e]; [|by intros [=]..].
      intros _. match goal with |- (if ?b then _ else _) = _ => by destruct b end. }
  cbn [Security ProfileName carried] in Hok. rewrite Hok. cbn [mbind res_bind].
  unfold carried. destruct (rq_hooks r) as [pre h1 h2 h3 h4 h5 h6]. cbn in Hpre. by subst pre.
Qed.
(** C14: a request that the runtime can read reaches it: the arguments that
    [DropletHandler.Spec] makes of it, parsed as urfave/cli does ([parses_flags]), are
    turned by [droplet spec] into exactly the options that the request stands for - no
    value is lost, taken for a flag, split or given to another flag, also when values
    are empty or begin with a dash - single values as they are, the elements of lists
    (environment, mounts, hooks, ...) without the spaces around them, which the parser
    cuts.  The request is [readable] - its parts parse, and its identifiers fit 64
    bits - and its security settings are given by value, or by the name of a built-in
    profile. *)
Theorem request_carried_over (cli : list (string * Flag) -> list string -> res Context) m r :
  parses_flags cli -> readable m r ->
  resolvable m r \/ is_ok (ResolveSecurityProfile GOARCH (ProfileName (Security (carried m r)))) = true ->
  exists args, DropletHandler.spec_args m = "spec" :: args /\
    (c ← cli commandSpec args;
     createConfigOptions GOARCH StatIsDir shlex_Split unmarshal_seccomp c) = Ok (carried m r).
Proof. apply carried_over. Qed.
End carried.

(** ** The profile *)

Definition upper_fixed (s : string) : Prop := toUpper s = s.
Lemma toUpper_app a b : toUpper (a +:+ b) = toUpper a +:+ toUpper b.
Proof.
  unfold toUpper. induction a as [|c a IH]; [done|].
  change (String (upper_byte c) (string_map upper_byte (a +:+ b)) =
          String (upper_byte c) (string_map upper_byte a +:+ string_map upper_byte b)). by rewrite IH.
Qed.
Lemma upper_byte_idem c : upper_byte (upper_byte c) = upper_byte c.
Proof. by destruct c as [[] [] [] [] [] [] [] []]. Qed.
Lemma toUpper_idem s : toUpper (toUpper s) = toUpper s.
Proof. unfold toUpper. induction s as [|c s IH]; [done|]. cbn. by rewrite upper_byte_idem, IH. Qed.
Lemma upper_fixed_app a b : upper_fixed (a +:+ b) -> upper_fixed a /\ upper_fixed b.
Proof.
  unfold upper_fixed. induction a as [|c a IH]; intros H; [done|].
  change (String (upper_byte c) (toUpper (a +:+ b)) = String c (a +:+ b)) in H. injection H as Hc H.
  destruct (IH H) as [Ha Hb]. split; [|done].
  change (String (upper_byte c) (toUpper a) = String c a). by rewrite Hc, Ha.
Qed.
Lemma upper_fixed_trim s : upper_fixed s -> upper_fixed (trimSpace s).
Proof.
  intros H. unfold trimSpace. destruct (trim_left_suffix is_space s) as [a Ha]. rewrite Ha in H.
  apply upper_fixed_app in H as [_ H]. set (t := trim_left is_space s) in *.
  destruct (trim_right_prefix is_space t) as [b Hb]. rewrite Hb in H.
  by apply upper_fixed_app in H as [H _].
Qed.

Lemma trim_right_head p s : head_not p (string_rev (trim_right p s)) = true.
Proof. unfold trim_right. rewrite string_rev_involutive. apply trim_left_head. Qed.
Lemma head_not_app p c a b : head_not p (String c a) = true -> head_not p (String c a +:+ b) = true.
Proof. done. Qed.
Lemma trim_right_app p a b : b <> "" -> trim_right p b = b -> trim_right p (a +:+ b) = a +:+ b.
Proof.
  intros Hb Ht. unfold trim_right at 1. rewrite string_rev_app.
  pose proof (trim_right_head p b) as Hh. rewrite Ht in Hh. rewrite trim_left_id.
  - rewrite <- string_rev_app. apply string_rev_involutive.
  - destruct (string_rev b) as [|c r] eqn:E; [|done].
    exfalso. apply Hb. rewrite <- (string_rev_involutive b), E. done.
Qed.
Lemma trim_right_trimSpace s : trim_right is_space (trimSpace s) = trimSpace s.
Proof.
  unfold trimSpace. set (t := trim_left is_space s). unfold trim_right at 1.
  by rewrite trim_left_id, string_rev_involutive by apply trim_right_head.
Qed.

Lemma normalize_name_idem c :
  normalizeCapabilityName (normalizeCapabilityName c) = normalizeCapabilityName c.
Proof.
  unfold normalizeCapabilityName at 2 3. set (u := trimSpace (toUpper c)).
  assert (upper_fixed u) as Hu by apply upper_fixed_trim, toUpper_idem.
  assert (trimSpace u = u) as Ht by apply trimSpace_idem.
  destruct (String.eqb_spec u "") as [|Hne]; [done|].
  destruct (hasPrefix u "CAP_") eqn:Ep.
  - unfold normalizeCapabilityName. rewrite Hu, Ht, Ep. by destruct (String.eqb_spec u "").
  - unfold normalizeCapabilityName. rewrite toUpper_app, Hu. change (toUpper "CAP_") with "CAP_".
    assert (trimSpace ("CAP_" +:+ u) = "CAP_" +:+ u) as ->.
    { unfold trimSpace. rewrite trim_left_id by done. apply trim_right_app; [done|].
      apply trim_right_trimSpace. }
    done.
Qed.

Lemma normalize_flag seen l : normalizeCapabilityFlag seen l = normalize_from seen l.
Proof.
  revert seen. induction l as [|c l IH]; intros seen; cbn [normalizeCapabilityFlag normalize_from]; [done|].
  rewrite !IH. unfold normalizeCapabilityName.
  destruct (String.eqb (trimSpace (toUpper c)) "") eqn:E; [done|].
  destruct (hasPrefix _ "CAP_"); [by rewrite E|]. done.
Qed.
Lemma named_normalized n l : named n (normalizeCapabilityFlag [] l) <-> named n l.
Proof.
  rewrite normalize_flag. split.
  - intros [Hn (c & Hc & Hin)%list_elem_of_fmap]. apply normalize_from_elem in Hin as [_ [Hne Hin]].
    apply list_elem_of_fmap in Hin as (d & Hd & Hin). split; [done|]. apply list_elem_of_fmap.
    exists d. split; [|done]. rewrite Hc, Hd. apply normalize_name_idem.
  - intros [Hn (c & Hc & Hin)%list_elem_of_fmap]. split; [done|]. apply list_elem_of_fmap.
    exists n. split; [rewrite Hc; symmetry; apply normalize_name_idem|].
    apply normalize_from_elem. split; [apply not_elem_of_nil|]. split; [done|].
    apply list_elem_of_fmap. eauto.
Qed.

(** Spaces around the name of a capability make no difference. *)
Lemma is_space_upper c : is_space (upper_byte c) = is_space c.
Proof. by destruct c as [[] [] [] [] [] [] [] []]. Qed.
Lemma trim_left_upper s : trim_left is_space (toUpper s) = toUpper (trim_left is_space s).
Proof.
  unfold toUpper. induction s as [|c s IH]; [done|]. cbn. rewrite is_space_upper.
  by destruct (is_space c).
Qed.
Lemma string_rev_upper s : string_rev (toUpper s) = toUpper (string_rev s).
Proof.
  induction s as [|c s IH]; [done|].
  change (string_rev (String (upper_byte c) "" +:+ toUpper s) = toUpper (string_rev (String c "" +:+ s))).
  by rewrite !string_rev_app, toUpper_app, IH.
Qed.
Lemma trimSpace_upper s : trimSpace (toUpper s) = toUpper (trimSpace s).
Proof.
  unfold trimSpace, trim_right.
  by rewrite trim_left_upper, string_rev_upper, trim_left_upper, string_rev_upper.
Qed.
Lemma named_slice n l : named n (slice l) <-> named n l.
Proof.
  unfold named. replace (normalizeCapabilityName <$> slice l) with (normalizeCapabilityName <$> l); [done|].
  unfold slice. rewrite <- list_fmap_compose. apply list_fmap_ext. intros _ c _. cbn.
  unfold normalizeCapabilityName. by rewrite !trimSpace_upper, trimSpace_idem.
Qed.

(** The runtime's form of a filter of the daemon: conditions on arguments and on the
    kernel are read but not used. *)
Definition runtime_filter (s : Profiles.SeccompObject) : SeccompObject :=
  {| DefaultAction := Profiles.DefaultAction s; DefaultErrnoRet := Profiles.DefaultErrnoRet s;
     Architectures := Profiles.Architectures s;
     Syscalls := (fun r => {| Names := Profiles.Names r; Action := Profiles.Action r;
                              ErrnoRet := Profiles.ErrnoRet r |}) <$> Profiles.Syscalls s |}.
(** The codec of filters: what the daemon encodes the runtime decodes. *)
Definition codec_of_filters (marshal : Profiles.SeccompObject -> res string)
    (unmarshal : string -> res SeccompObject) : Prop :=
  forall s j, marshal s = Ok j -> trimSpace j <> "" /\ unmarshal (trimSpace j) = Ok (runtime_filter s).

(** A process confined by a profile, with the capabilities asked for and dropped. *)
Record runs_under (s : Spec) (q : Profiles.SecurityProfile) (add drop : list string) : Prop := {
  under_capabilities : forall cap, cap ∈ Bounding (Capabilities (Process s)) <->
    (named cap (Profiles.Base q) \/ named cap add) /\ ~ named cap drop;
  under_sets : Permitted (Capabilities (Process s)) = Bounding (Capabilities (Process s)) /\
    Effective (Capabilities (Process s)) = Bounding (Capabilities (Process s)) /\
    Inheritable (Capabilities (Process s)) = [] /\ Ambient (Capabilities (Process s)) = [];
  under_privileges : NoNewPrivileges (Process s) = Profiles.NoNewPrivileges q;
  under_filter : Seccomp (LinuxSpec s) = runtime_filter <$> Profiles.Seccomp q;
  under_apparmor : AppArmorProfile (LinuxSpec s) = Profiles.AppArmorProfile q
}.

Section enforced.
Context {RO : RangeOrder} (GOARCH : string).
Context (StatIsDir : string -> res bool) (shlex_Split : string -> res (list string))
  (unmarshal : string -> res SeccompObject) (marshal : Profiles.SeccompObject -> res string).
Context (json_net : NetConfigObject -> res string) (json_image : ImageConfigObject -> res string)
  (json_rootless : RootlessConfigObject -> res string).

Lemma filter_read m r q : codec_of_filters marshal unmarshal -> restricted_by marshal m q ->
  readable StatIsDir shlex_Split unmarshal m r -> rq_seccomp r = runtime_filter <$> Profiles.Seccomp q.
Proof.
  intros Hcodec (_ & _ & _ & _ & Hf) Hr. pose proof (readable_seccomp _ _ _ _ _ Hr) as H.
  unfold seccomp_flag in H. destruct (Profiles.Seccomp q) as [f|].
  - apply Hcodec in Hf as [Hne Hun]. apply String.eqb_neq in Hne. rewrite Hne, Hun in H.
    by injection H as <-.
  - rewrite Hf in H. by injection H as <-.
Qed.

Lemma carried_runs_under m r q : codec_of_filters marshal unmarshal -> restricted_by marshal m q ->
  readable StatIsDir shlex_Split unmarshal m r -> resolvable m r ->
  exists s, buildSpec GOARCH json_net json_image json_rootless (carried m r) = Ok s /\
    runs_under s q (ContainerCalls.CapAdd m) (ContainerCalls.CapDrop m).
Proof.
  intros Hcodec Hq Hr Hres. pose proof (filter_read m r q Hcodec Hq Hr) as Hf.
  destruct Hq as (Hb & _ & Ha & Hn & _).
  unfold buildSpec, ResolveSecurityOption. cbn [carried Security BaseCapabilities so_Seccomp
    so_AppArmorProfile so_NoNewPrivileges].
  match goal with |- context [if ?b then _ else _] => assert (b = true) as -> end.
  { destruct Hres as [H|[H|[H|H]]].
    - by rewrite bool_decide_false.
    - destruct (rq_seccomp r); [by rewrite !orb_true_r|done].
    - apply String.eqb_neq in H. by rewrite H, !orb_true_r.
    - by rewrite H, !orb_true_r. }
  cbn [mbind res_bind]. eexists. split; [done|]. split; cbn; [|done..|]; try done.
  intros cap. rewrite <- Hb.
  destruct (mergeCapabilities_spec (normalizeCapabilityFlag [] (slice (CapBase m)))
    (normalizeCapabilityFlag [] (slice (ContainerCalls.CapAdd m)))
    (normalizeCapabilityFlag [] (slice (ContainerCalls.CapDrop m)))) as [_ ->].
  by rewrite !named_normalized, !named_slice.
Qed.
End enforced.

(** ** From the request of a user to the process *)

Section whole_way.
Context {RO : RangeOrder} {X : Type} {P : ContainerPeers X}.
Context (cwd : res string) (HookAgentBinPath : string) (Quote : string -> string)
  (marshal : Profiles.SeccompObject -> res string) (uidBase gidBase : Z).
Context (GOARCH : string) (StatIsDir : string -> res bool)
  (shlex_Split : string -> res (list string)) (unmarshal : string -> res SeccompObject).
Context (json_net : NetConfigObject -> res string) (json_image : ImageConfigObject -> res string)
  (json_rootless : RootlessConfigObject -> res string).

(** C13: the security profile asked for is the one the process runs under: of every
    specification that the daemon asks for while it creates a container, the command
    line that carries it, parsed as urfave/cli does ([parses_flags]: the elements of
    lists lose the spaces around them), becomes a specification whose process has
    exactly the capabilities of the resolved profile and those added, less those
    dropped, and its no-new-privileges flag, system call filter and AppArmor profile.
    The request is [readable] by the runtime, at least one restriction is given by
    value, one profile name has one meaning, and the filter is decoded as it was
    encoded. *)
Theorem profile_reaches_process (cli : list (string * Flag) -> list string -> res Context)
    (profile_of : string -> res Profiles.SecurityProfile) p (w : world tables asked X) r w' l m rq :
  (forall name st i, (answer _ (ResolveProfile name) (st, i)).1 = profile_of name) ->
  parses_flags cli -> codec_of_filters marshal unmarshal ->
  create_container cwd HookAgentBinPath Quote marshal uidBase gidBase p w = (r, w') ->
  trace w' = trace w ++ l -> In (asked_for (RuntimeSpec m)) l ->
  readable StatIsDir shlex_Split unmarshal m rq -> resolvable m rq ->
  exists q0 q args s, profile_of (cm_SecurityProfile p) = Ok q0 /\
    profile_of (Profiles.Name q0) = Ok q /\
    DropletHandler.spec_args m = "spec" :: args /\
    (c ← cli commandSpec args;
     opts ← createConfigOptions GOARCH StatIsDir shlex_Split unmarshal c;
     buildSpec GOARCH json_net json_image json_rootless opts) = Ok s /\
    runs_under s q (cm_CapAdd p) (cm_CapDrop p).
Proof.
  intros Hprofile Hcli Hcodec Hrun Hl Hin Hr Hres.
  destruct (creation_confining cwd HookAgentBinPath Quote marshal uidBase gidBase profile_of p w r w'
    Hprofile Hrun) as (l' & Hl' & HF).
  assert (l' = l) as -> by (eapply app_inv_head; by rewrite <- Hl', <- Hl).
  apply List.Forall_forall with (x := asked_for (RuntimeSpec m)) in HF; [|done].
  destruct HF as [_ (q0 & Hq0 & q & Hq & Hrestr) _ _ Hcaps]. cbn in Hcaps. injection Hcaps as Ha Hd.
  destruct (carried_over GOARCH StatIsDir shlex_Split unmarshal cli m rq Hcli Hr (or_introl Hres))
    as (args & Hargs & Hopts).
  destruct (carried_runs_under GOARCH StatIsDir shlex_Split unmarshal marshal json_net json_image
    json_rootless m rq q Hcodec Hrestr Hr Hres) as (s & Hs & Hu).
  rewrite Ha, Hd in Hu. exists q0, q, args, s. split_and!; [done..| |done].
  apply res_bind_ok in Hopts as (c & Hc & Hopts). rewrite Hc. cbn [mbind res_bind]. by rewrite Hopts.
Qed.
End whole_way.

(** * From a request to a process, on a concrete container *)

Module PipeDemo.
Import Demo.
#[local] Existing Instance peers.

(** ** A parser of command lines *)

Fixpoint items_of (flags : list (string * Flag)) (args : list string) : list item :=
  match args with
  | [] => []
  | arg :: rest =>
      let flag := drop_str 2 arg in
      match flag_of flag flags with
      | Some BoolFlag => Switch flag :: items_of flags rest
      | _ => match rest with
             | value :: rest => Given flag value :: items_of flags rest
             | [] => []
             end
      end
  end.
Definition cli (flags : list (string * Flag)) (args : list string) : res Context :=
  Ok (cli_of flags (items_of flags args)).

Lemma items_of_args flags items : Forall (declared flags) items ->
  items_of flags (items ≫= item_args) = items.
Proof.
  induction 1 as [|[flag v|flag] items Hd Hr IH]; [done|..]; rewrite bind_cons;
    cbn [item_args app items_of]; rewrite (drop_str_app "--" flag) || idtac.
  - change (drop_str 2 ("--" +:+ flag)) with flag. cbn [declared] in Hd.
    destruct (flag_of flag flags) as [[]|]; by rewrite ?IH.
  - change (drop_str 2 ("--" +:+ flag)) with flag. cbn [declared] in Hd. rewrite Hd. by rewrite IH.
Qed.
Lemma cli_parses : parses_flags cli.
Proof.
  intros items H. eexists. split; [done|]. rewrite items_of_args by done. by split.
Qed.

(** ** A codec of filters: the one of the profile *)

#[local] Instance arg_dec : EqDecision Profiles.SeccompArgObject.
Proof. solve_decision. Defined.
#[local] Instance filter_dec : EqDecision Profiles.SeccompFilterObject.
Proof. solve_decision. Defined.
#[local] Instance rule_dec : EqDecision Profiles.SeccompSyscallObject.
Proof. solve_decision. Defined.
#[local] Instance seccomp_dec : EqDecision Profiles.SeccompObject.
Proof. solve_decision. Defined.

Definition the_filter : option Profiles.SeccompObject :=
  Profiles.Seccomp (Profiles.RestrictedSecurityProfile "amd64").
Definition marshal (s : Profiles.SeccompObject) : res string :=
  if decide (Some s = the_filter) then Ok "{}" else Err "json: unsupported value".
Definition unmarshal (j : string) : res SeccompObject :=
  match the_filter with
  | Some s => if String.eqb j "{}" then Ok (runtime_filter s) else Err "unexpected end of JSON input"
  | None => Err "unexpected end of JSON input"
  end.
Lemma marshal_codec : codec_of_filters marshal unmarshal.
Proof.
  intros s j. unfold marshal, unmarshal. destruct (decide _) as [<-|]; [|done].
  intros [= <-]. by split.
Qed.

(** ** The way of one container *)

Definition create_secured : World.M tables asked bool string :=
  create_container (Ok "/") "/usr/bin/hook" quoted marshal 100000 100000 web.
Definition secured := (create_secured (begin false [])).2.
Lemma secured_answer : (create_secured (begin false [])).1 = Ok id1.
Proof. vm_compute. reflexivity. Qed.
Lemma secured_run : create_secured (begin false []) = (Ok id1, secured).
Proof. unfold secured. rewrite <- secured_answer. apply surjective_pairing. Qed.

(** A request for nothing but a profile by its name. *)
Definition bare_request (profile : string) : SpecModel :=
  {| ContainerCalls.Rootfs := ""; ContainerCalls.Cwd := ""; Command := "";
     ContainerCalls.Namespace := []; NSPath := []; ContainerCalls.Hostname := "";
     ContainerCalls.Env := []; Mount := []; ContainerCalls.CapAdd := []; ContainerCalls.CapDrop := [];
     CapBase := []; ContainerCalls.SecurityProfile := profile; SeccompJSON := "";
     ContainerCalls.AppArmorProfile := ""; ContainerCalls.NoNewPrivileges := false;
     ContainerCalls.Rootless := false; ContainerCalls.RootlessMode := "";
     ContainerCalls.RootlessRootUID := 0; ContainerCalls.RootlessRootGID := 0;
     ContainerCalls.HostInterface := ""; ContainerCalls.BridgeInterface := "";
     ContainerInterface := ""; ContainerInterfaceAddr := ""; ContainerGateway := "";
     ContainerDns := []; ContainerCalls.ImageLayer := []; ContainerCalls.UpperDir := "";
     ContainerCalls.WorkDir := ""; CreateRuntimeHook := []; CreateRuntimeHookEnv := [];
     CreateContainerHook := []; CreateContainerHookEnv := []; StartContainerHook := [];
     StartContainerHookEnv := []; PoststartHook := []; PoststartHookEnv := [];
     StopContainerHook := []; StopContainerHookEnv := []; PoststopHook := []; PoststopHookEnv := [];
     Output := "" |}.
Definition the_request : SpecModel :=
  match specs (trace secured) with m :: _ => m | [] => bare_request "" end.
Lemma requested : In (asked_for (RuntimeSpec the_request)) (trace secured).
Proof. apply nth_error_In with (n := 17%nat). vm_compute. reflexivity. Qed.

Definition StatIsDir (path : string) : res bool := Ok (negb (hasPrefix path "/dev")).
Definition shlex_Split (s : string) : res (list string) := Ok ["nginx"].
Definition or_nil {A} (r : res (list A)) : list A := match r with Ok l => l | _ => [] end.
Definition as_read : request :=
  {| rq_seccomp := runtime_filter <$> the_filter;
     rq_mounts := or_nil (parseMountFlag StatIsDir (Mount the_request));
     rq_args := ["nginx"];
     rq_namespaces := or_nil (parseNamespaceFlag (ContainerCalls.Namespace the_request));
     rq_paths := [];
     rq_hooks :=
       let read command env := or_nil (parseHookFlag command env) in
       {| Prestart := [];
          CreateRuntime := read (CreateRuntimeHook the_request) (CreateRuntimeHookEnv the_request);
          CreateContainer := read (CreateContainerHook the_request) (CreateContainerHookEnv the_request);
          StartContainer := [];
          Poststart := read (PoststartHook the_request) (PoststartHookEnv the_request);
          StopContainer := read (StopContainerHook the_request) (StopContainerHookEnv the_request);
          Poststop := read (PoststopHook the_request) (PoststopHookEnv the_request) |} |}.
Lemma request_readable : readable StatIsDir shlex_Split unmarshal the_request as_read.
Proof.
  split; try (vm_compute; reflexivity).
  - split; apply Z.leb_le; vm_compute; reflexivity.
  - apply (bool_decide_unpack _). vm_compute. exact I.
  - intros H. exfalso. revert H. vm_compute. discriminate.
Qed.
Lemma request_resolvable : resolvable the_request as_read.
Proof. right; right; right. vm_compute. reflexivity. Qed.

Example request_carried_over_witness :
  exists args, DropletHandler.spec_args the_request = "spec" :: args /\
    (c ← cli commandSpec args;
     createConfigOptions "amd64" StatIsDir shlex_Split unmarshal c) = Ok (carried the_request as_read).
Proof.
  apply (request_carried_over "amd64" StatIsDir shlex_Split unmarshal cli the_request as_read).
  - exact cli_parses.
  - exact request_readable.
  - left. exact request_resolvable.
Defined.

Example profile_reaches_process_witness :
  exists q0 q args s, profile_of "restricted" = Ok q0 /\
    profile_of (Profiles.Name q0) = Ok q /\
    DropletHandler.spec_args the_request = "spec" :: args /\
    (c ← cli commandSpec args;
     opts ← createConfigOptions "amd64" StatIsDir shlex_Split unmarshal c;
     buildSpec "amd64" (fun _ => Ok "{}") (fun _ => Ok "{}") (fun _ => Ok "{}") opts) = Ok s /\
    runs_under s q [] ["CAP_MKNOD"].
Proof.
  apply (profile_reaches_process (Ok "/") "/usr/bin/hook" quoted marshal 100000 100000 "amd64"
    StatIsDir shlex_Split unmarshal (fun _ => Ok "{}") (fun _ => Ok "{}") (fun _ => Ok "{}") cli
    profile_of web (begin false []) (Ok id1) secured (trace secured) the_request as_read).
  - intros name st i. reflexivity.
  - exact cli_parses.
  - exact marshal_codec.
  - exact secured_run.
  - reflexivity.
  - exact requested.
  - exact request_readable.
  - exact request_resolvable.
Defined.

(** A variable of the environment whose value ends with a space loses it. *)
Example env_is_trimmed :
  (fun c => StringSlice c "env") <$> cli commandSpec ["--env"; "PS1=$ "] = Ok ["PS1=$"].
Proof. vm_compute. reflexivity. Qed.

(** A custom profile that drops every capability of the unconfined one has nothing to
    hand over but its name, which the runtime does not know. *)
Example bare_profile_is_unknown :
  (c ← cli commandSpec (tail (DropletHandler.spec_args (bare_request "bare")));
   createConfigOptions "amd64" StatIsDir shlex_Split unmarshal c) =
  Err "unknown security profile: bare".
Proof. vm_compute. reflexivity. Qed.
End PipeDemo.
