(* ===== verification/Ilm.v ===== *)
(** * Images and their layers ([store/ilm])

    The table of the images on the host: for every repository its references,
    each with the paths of its bundle, configuration and root file system. *)

From Stdlib Require Import ZArith Lia String.
From stdpp Require Import base gmap strings list.
From S2P Require Import Prelude.
From S2P Require Import GoString.
From S2P Require Import Persist.
Open Scope Z_scope.

(** ** Data ([model.go]) *)

Record ReferenceInfo := {
  BundlePath : string;
  ConfigPath : string;
  RootfsPath : string;
  CreatedAt : Z
}.

(** A missing [References] map reads as the empty one. *)
Record RepositoryInfo := { References : gmap string ReferenceInfo }.

Record ImageLayerState := {
  Version : string;
  Repositories : gmap string RepositoryInfo
}.

Record ImageInfo := {
  Repository : string;
  Reference : string;
  i_CreatedAt : Z
}.

Definition set_Repositories (st : ImageLayerState) (m : gmap string RepositoryInfo) : ImageLayerState :=
  {| Version := Version st; Repositories := m |}.

(** ** Operations ([ilm.go]) *)

Section manager.
Context {RO : RangeOrder}.
Implicit Types st : ImageLayerState.

Definition image_not_found (repository reference : string) : error :=
  repository +:+ ":" +:+ reference +:+ " not found".

(** [st.Repositories[repository]], the zero value when it is missing. *)
Definition references (repository : string) st : gmap string ReferenceInfo :=
  match Repositories st !! repository with Some r => References r | None => ∅ end.
Definition image (repository reference : string) st : option ReferenceInfo :=
  references repository st !! reference.

Definition StoreImage (repository reference bundlePath configPath rootfsPath : string) (now : Z) st
    : res (ImageLayerState * unit) :=
  let info := {| BundlePath := bundlePath; ConfigPath := configPath; RootfsPath := rootfsPath;
                 CreatedAt := now |} in
  Ok (set_Repositories st
        (<[repository := {| References := <[reference := info]> (references repository st) |}]>
           (Repositories st)), tt).

Definition RemoveImage (repository reference : string) st : res (ImageLayerState * unit) :=
  match Repositories st !! repository with
  | None => Err (image_not_found repository reference)
  | Some repo =>
      match References repo !! reference with
      | None => Err (image_not_found repository reference)
      | Some _ =>
          Ok (set_Repositories st
                (<[repository := {| References := delete reference (References repo) |}]>
                   (Repositories st)), tt)
      end
  end.

(** A path of the entry, which is empty when there is none. *)
Definition path_of (what : string) (path : ReferenceInfo -> string) (repository reference : string) st
    : res string :=
  let p := match image repository reference st with Some i => path i | None => "" end in
  if String.eqb p "" then Err (what +:+ " path not found.") else Ok p.
Definition GetBundlePath : string -> string -> ImageLayerState -> res string :=
  path_of "bundle" BundlePath.
Definition GetConfigPath : string -> string -> ImageLayerState -> res string :=
  path_of "config" ConfigPath.
(** The text of the error is that of the bundle. *)
Definition GetRootfsPath : string -> string -> ImageLayerState -> res string :=
  path_of "bundle" RootfsPath.

Definition image_info (repository : string) (kv : string * ReferenceInfo) : ImageInfo :=
  {| Repository := repository; Reference := kv.1; i_CreatedAt := CreatedAt kv.2 |}.

Definition GetImageList st : res (list ImageInfo) :=
  Ok ('(repo, refs) ← range_map (Repositories st);
      image_info repo <$> range_map (References refs)).

Definition GetImageInfo (repository reference : string) st : res ImageInfo :=
  match Repositories st !! repository with
  | None => Err (image_not_found repository reference)
  | Some repo =>
      match References repo !! reference with
      | None => Err (image_not_found repository reference)
      | Some info => Ok (image_info repository (reference, info))
      end
  end.

(** What [IsImageExist] takes out of the table: the path of the configuration.
    The two loops run over all keys. *)
Definition find_config (imageRepo imageRef : string) st : res (option string) :=
  Ok (first_match (fun kv => String.eqb kv.1 imageRepo) (range_map (Repositories st)) ≫= fun '(_, refs) =>
      first_match (fun kv => String.eqb kv.1 imageRef) (range_map (References refs)) ≫= fun '(_, info) =>
      Some (ConfigPath info)).

(** [found] is what the read gave, [Err] when it failed, which is dropped; [exists_]
    is [os.Stat]. *)
Definition IsImageExist (found : res (option string)) (exists_ : string -> bool) : bool :=
  match found with
  | Ok (Some configPath) => negb (String.eqb configPath "") && exists_ configPath
  | _ => false
  end.
End manager.

(** ** The store ([store.go]) *)

Definition init : ImageLayerState := {| Version := "0.1.0"; Repositories := ∅ |}.
Definition SetConfig_tx (st : ImageLayerState) : res (ImageLayerState * unit) :=
  Ok ({| Version := "0.1.0"; Repositories := Repositories st |}, tt).

Section store.
Context {C : Codec ImageLayerState}.

Definition loadOrInit (path : string) : fsM ImageLayerState :=
  Persist.loadOrInit path "image layer state json broken" init id.
Definition atomicSave : string -> ImageLayerState -> fsM unit := Persist.atomicSave.
Definition withLock {A} (path : string) : (ImageLayerState -> res (ImageLayerState * A)) -> fsM A :=
  Persist.withLock path (loadOrInit path).
Definition withRLock {A} (path : string) : (ImageLayerState -> res A) -> fsM A :=
  Persist.withRLock path (loadOrInit path).
Definition SetConfig (path : string) : fsM unit := withLock path SetConfig_tx.
End store.

(** ** Lemmas *)

Section lemmas.
Context {RO : RangeOrder}.
Implicit Types st : ImageLayerState.

(** A search for a key is the lookup, in whatever order the map is visited. *)
Lemma first_key {V} (m : gmap string V) k :
  first_match (fun kv => String.eqb kv.1 k) (range_map m) = (fun v => (k, v)) <$> m !! k.
Proof.
  destruct (first_match _ _) as [[k' v]|] eqn:E.
  - apply first_match_Some in E as [H%elem_of_range_map He%String.eqb_eq].
    simpl in He. subst. by rewrite H.
  - destruct (m !! k) as [v|] eqn:Ek; [|done]. rewrite first_match_None in E.
    apply elem_of_range_map in Ek. specialize (E _ Ek). simpl in E. by rewrite String.eqb_refl in E.
Qed.

Lemma image_stored repository reference b c r t st st' k ref :
  StoreImage repository reference b c r t st = Ok (st', tt) ->
  image k ref st' =
    if decide (k = repository /\ ref = reference)
    then Some {| BundlePath := b; ConfigPath := c; RootfsPath := r; CreatedAt := t |}
    else image k ref st.
Proof.
  intros [= <-]. unfold image, references. simpl.
  destruct (decide (k = repository)) as [->|Hk].
  - rewrite lookup_insert_eq. simpl. destruct (decide (ref = reference)) as [->|Hr].
    + by rewrite lookup_insert_eq, decide_True.
    + by rewrite lookup_insert_ne, decide_False by naive_solver.
  - by rewrite lookup_insert_ne, decide_False by naive_solver.
Qed.

Lemma image_removed repository reference st st' k ref :
  RemoveImage repository reference st = Ok (st', tt) ->
  image k ref st' = if decide (k = repository /\ ref = reference) then None else image k ref st.
Proof.
  unfold RemoveImage, image, references. intros H.
  destruct (Repositories st !! repository) as [repo|] eqn:E; [|done].
  destruct (References repo !! reference); [|done]. injection H as <-. simpl.
  destruct (decide (k = repository)) as [->|Hk].
  - rewrite lookup_insert_eq, E. simpl. destruct (decide (ref = reference)) as [->|Hr].
    + by rewrite lookup_delete_eq, decide_True.
    + by rewrite lookup_delete_ne, decide_False by naive_solver.
  - by rewrite lookup_insert_ne, decide_False by naive_solver.
Qed.

Lemma image_there repository reference st :
  is_Some (image repository reference st) <-> is_ok (RemoveImage repository reference st) = true.
Proof.
  unfold image, references, RemoveImage. destruct (Repositories st !! repository) as [repo|]; simpl.
  - destruct (References repo !! reference); simpl; [naive_solver|]. by split; [intros [? ?]|].
  - rewrite lookup_empty. by split; [intros [? ?]|].
Qed.

Lemma find_config_image repo ref st :
  find_config repo ref st = Ok (ConfigPath <$> image repo ref st).
Proof.
  unfold find_config, image, references. rewrite first_key.
  destruct (Repositories st !! repo) as [r|]; simpl; [|by rewrite lookup_empty].
  rewrite first_key. by destruct (References r !! ref).
Qed.

Lemma elem_of_image_list st l i :
  GetImageList st = Ok l ->
  i ∈ l <-> exists info, image (Repository i) (Reference i) st = Some info /\
                         i_CreatedAt i = CreatedAt info.
Proof.
  intros [= <-]. rewrite list_elem_of_bind. unfold image, references. split.
  - intros ([repo refs] & (kv & -> & Hkv)%list_elem_of_fmap & Hr%elem_of_range_map).
    destruct kv as [ref info]. apply elem_of_range_map in Hkv. simpl. rewrite Hr. eauto.
  - intros (info & Hi & Ht). destruct (Repositories st !! Repository i) as [refs|] eqn:E;
      [|by rewrite lookup_empty in Hi].
    exists (Repository i, refs). split; [|by apply elem_of_range_map].
    apply list_elem_of_fmap. exists (Reference i, info).
    split; [|by apply elem_of_range_map]. destruct i; simpl in *. by subst.
Qed.

(** The list has every image once. *)
Lemma NoDup_image_list st l :
  GetImageList st = Ok l -> NoDup ((fun i => (Repository i, Reference i)) <$> l).
Proof.
  intros [= <-]. generalize (NoDup_range_keys (Repositories st)).
  induction (range_map (Repositories st)) as [|[repo refs] k IH]; simpl; [constructor|].
  intros [Hn Hk]%NoDup_cons. rewrite fmap_app. apply NoDup_app. split_and!.
  - generalize (NoDup_range_keys (References refs)).
    induction (range_map (References refs)) as [|[ref info] r IHr]; simpl; [constructor|].
    intros [Hr Hnr]%NoDup_cons. constructor; [|by apply IHr].
    intros (i & E & ([ref' x] & -> & Hin)%list_elem_of_fmap)%list_elem_of_fmap.
    simpl in E. injection E as ->. apply Hr, list_elem_of_fmap. by exists (ref', x).
  - intros x (i & -> & (kv & -> & _)%list_elem_of_fmap)%list_elem_of_fmap.
    intros (i & E & ([repo' refs'] & Hi & Hin)%list_elem_of_bind)%list_elem_of_fmap.
    apply list_elem_of_fmap in Hi as (kv' & -> & _). simpl in E. injection E as -> _.
    apply Hn, list_elem_of_fmap. by exists (repo', refs').
  - by apply IH.
Qed.
End lemmas.

(** An image that was stored with an empty path of its configuration is listed but
    does not exist. *)
Example listed_but_absent :
  (st ← StoreImage "library/a" "latest" "/b" "" "/r" 0 init;
   l ← GetImageList st.1; f ← find_config "library/a" "latest" st.1;
   Ok (length l, IsImageExist (Ok f) (fun _ => true))) = Ok (1%nat, false).
Proof. vm_compute. reflexivity. Qed.
