(* ===== verification/HookService.v ===== *)
(** * What the runtime's hooks report ([core/hook])

    The hooks of a container call the daemon at each step of its life; the hook
    service brings the tables of containers and pods up to date. *)

From Stdlib Require Import ZArith Lia Ascii String.
From stdpp Require Import base gmap strings list.
From S2P Require Import Prelude.
From S2P Require Import GoString.
From S2P Require Import World.
From S2P Require Csm.
From S2P Require Psm.
From S2P Require Import ContainerCalls.
Open Scope Z_scope.

(** ** Data ([model.go]) *)

Record ServiceStateAnnotaionModel := {
  AnnotationVersion : string;
  NetConfig : string;
  ImageConfig : string
}.

Record ServiceStateModel := {
  OciVersion : string;
  Id : string;
  Status : string;
  Pid : Z;
  ExitCode : Z;
  Reason : string;
  Message : string;
  sm_Rootfs : string;
  Bundler : string;
  Annotations : ServiceStateAnnotaionModel
}.

Record hook_tables := { h_csm : Csm.ContainerState; h_psm : Psm.PodState }.

(** What is asked of the container service, the policy service and the host. *)
Inductive hook_call :=
  | ChangeCgroupMode (containerId : string)
  | CommitPolicy
  | Readlink (path : string).

(** ** Operations ([service.go], [service_podns.go]) *)

Section service.
Context {RO : RangeOrder} {X : Type} {P : Callees hook_call hook_tables X}.
#[local] Notation M := (M hook_tables hook_call X).
#[local] Notation world := (world hook_tables hook_call X).

Definition on_containers {A} (fn : Csm.ContainerState -> res (Csm.ContainerState * A)) : M A :=
  txn (fun t => '(x, a) ← fn (h_csm t); Ok ({| h_csm := x; h_psm := h_psm t |}, a)).
Definition on_pods {A} (fn : Psm.PodState -> res (Psm.PodState * A)) : M A :=
  txn (fun t => '(x, a) ← fn (h_psm t); Ok ({| h_csm := h_csm t; h_psm := x |}, a)).

(** [fmt.Errorf(what + ": %w", err)]. *)
Definition errorf {A} (what : string) (m : M A) : M A := fun w =>
  match m w with (Err e, w) => (Err (what +:+ ": " +:+ e), w) | r => r end.

Definition UpdateContainer (s : ServiceStateModel) : M unit :=
  errorf "csm update failed"
    (t ← now; on_containers (Csm.UpdateContainer (Id s) (Status s) (Pid s) t)).
Definition commit : M unit := errorf "policy commit failed" (_ ← invoke CommitPolicy; mret tt).

Definition ns_of (pid : Z) (kind : string) : string := "/proc/" +:+ itoa pid +:+ "/ns/" +:+ kind.

Definition isDifferentUserNamespace (pid : Z) : M bool :=
  host ← attempt (invoke (Readlink "/proc/self/ns/user"));
  match host with
  | Ok host =>
      target ← attempt (invoke (Readlink (ns_of pid "user")));
      mret (match target with Ok target => negb (String.eqb host target) | _ => false end)
  | _ => mret false
  end.

(** [containerInfo.PodId != ""] and the name and pid of a pod's infra container. *)
Definition owns_pod (c : Csm.ContainerInfo) : bool :=
  negb (String.eqb (Csm.PodId c) "") &&
  hasPrefix (Csm.ContainerName c) PodInfraContainerNamePrefix && (0 <? Csm.Pid c).

Definition updatePodNamespacesIfOwner (containerId : string) : M unit :=
  c ← read (fun t => Csm.GetContainerById containerId (h_csm t));
  if negb (owns_pod c) then mret tt else
  different ← isDifferentUserNamespace (Csm.Pid c);
  let ns := ns_of (Csm.Pid c) in
  on_pods (Psm.UpdatePodNamespaces (Csm.Pid c) (Csm.PodId c) (ns "net") (ns "ipc") (ns "uts")
             (if different : bool then ns "user" else "")).

(** [if err := RemoveContainer(id); err != nil && !Contains(err.Error(), "not found")]. *)
Definition remove_container (containerId : string) : M unit :=
  r ← attempt (on_containers (Csm.RemoveContainer containerId));
  match r with
  | Err e => if contains e "not found" then mret tt else fail ("csm remove failed: " +:+ e)
  | _ => mret tt
  end.

Definition HookAction (s : ServiceStateModel) (eventType : string) : M unit :=
  if String.eqb eventType "createRuntime" then UpdateContainer s
  else if String.eqb eventType "createContainer" then
    _ ← UpdateContainer s;
    _ ← errorf "chmod cgroup path failed" (_ ← invoke (ChangeCgroupMode (Id s)); mret tt);
    _ ← commit;
    errorf "update pod namespaces failed" (updatePodNamespacesIfOwner (Id s))
  else if String.eqb eventType "poststart" then UpdateContainer s
  else if String.eqb eventType "stopContainer" then
    _ ← UpdateContainer s;
    errorf "csm update failed"
      (on_containers (Csm.UpdateExitStatus (Id s) (ExitCode s) (Reason s) (Message s)))
  else if String.eqb eventType "poststop" then
    _ ← remove_container (Id s);
    commit
  else fail ("csm unknown eventType: " +:+ eventType).

(** ** What an event may change *)

(** One entry of a table of containers or pods, at most, differs. *)
Definition only_container (id : string) (t t' : hook_tables) : Prop :=
  forall k, k <> id -> Csm.Containers (h_csm t') !! k = Csm.Containers (h_csm t) !! k.

(** The pod of a container, after the container has reported its process. *)
Definition joined (c : Csm.ContainerInfo) (p p' : Psm.PodInfo) : Prop :=
  let ns := ns_of (Csm.Pid c) in
  Psm.OwnerPid p' = Csm.Pid c /\
  Psm.NetworkNS p' = Psm.keep_first (Psm.NetworkNS p) (ns "net") /\
  Psm.IPCNS p' = Psm.keep_first (Psm.IPCNS p) (ns "ipc") /\
  Psm.UTSNS p' = Psm.keep_first (Psm.UTSNS p) (ns "uts") /\
  (Psm.UserNS p' = Psm.UserNS p \/ Psm.UserNS p' = Psm.keep_first (Psm.UserNS p) (ns "user")).

(** The table of pods afterwards: as before, but for the pod that the container owns. *)
Definition pods_follow (c : Csm.ContainerInfo) (pods pods' : gmap string Psm.PodInfo) : Prop :=
  if owns_pod c
  then exists p p', pods !! Csm.PodId c = Some p /\ joined c p p' /\
         pods' = <[Csm.PodId c := p']> pods
  else pods' = pods.

(** What the daemon knows after an event that was taken in. *)
Definition recorded (s : ServiceStateModel) (eventType : string) (time : Z) (t t' : hook_tables) : Prop :=
  let old := Csm.Containers (h_csm t) !! Id s in
  let new := Csm.Containers (h_csm t') !! Id s in
  let updated := Csm.update_state (Status s) (Pid s) time in
  let pods := Psm.Pods (h_psm t) in let pods' := Psm.Pods (h_psm t') in
  only_container (Id s) t t' /\
  (((eventType = "createRuntime" \/ eventType = "poststart") /\
      exists c, old = Some c /\ new = Some (updated c) /\ h_psm t' = h_psm t) \/
   (eventType = "createContainer" /\
      exists c, old = Some c /\ new = Some (updated c) /\ pods_follow (updated c) pods pods') \/
   (eventType = "stopContainer" /\
      exists c, old = Some c /\ h_psm t' = h_psm t /\
        new = Some (Csm.update_exit (ExitCode s) (Reason s) (Message s) (updated c))) \/
   (eventType = "poststop" /\ new = None /\ h_psm t' = h_psm t)).

(** ** Lemmas *)

(** The other services leave the two tables alone. *)
Context (calm : forall c t i, (callee c (t, i)).2.1 = t).

(** A computation that keeps the tables and meets no fault, and what it asks. *)
Definition asks_only {A} (m : M A) : Prop := forall w,
  store (m w).2 = store w /\ faults (m w).2 = faults w /\
  exists l, trace (m w).2 = trace w ++ l.

Lemma invoke_traced c w : trace (invoke c w).2 = trace w ++ [c].
Proof. unfold invoke. by destruct (callee c _) as [? [? ?]]. Qed.

Lemma asks_invoke c : asks_only (invoke c).
Proof.
  intros w. split_and!; [..|rewrite invoke_traced; eauto]; unfold invoke;
    pose proof (calm c (store w) (inner w)); by destruct (callee c _) as [? [? ?]].
Qed.
Lemma asks_ret {A} (a : A) : asks_only (mret a).
Proof. intros w. split_and!; [done..|]. exists []. by rewrite app_nil_r. Qed.
Lemma asks_only_bind {A B} (m : M A) (f : A -> M B) :
  asks_only m -> (forall a, asks_only (f a)) -> asks_only (m ≫= f).
Proof.
  intros Hm Hf w. unfold mbind, M_bind. destruct (Hm w) as (Hs & Hft & l & Hl).
  destruct (m w) as [[a|e|e] w1]; simpl in *; [|by eauto..].
  destruct (Hf a w1) as (Hs1 & Hf1 & l1 & Hl1). split_and!; [congruence..|].
  exists (l ++ l1). by rewrite Hl1, Hl, app_assoc.
Qed.
Lemma asks_only_attempt {A} (m : M A) : asks_only m -> asks_only (attempt m).
Proof.
  intros Hm w. unfold attempt. specialize (Hm w). by destruct (m w) as [[a|e|e] w1].
Qed.
Lemma asks_errorf {A} what (m : M A) : asks_only m -> asks_only (errorf what m).
Proof. intros Hm w. unfold errorf. specialize (Hm w). by destruct (m w) as [[a|e|e] w1]. Qed.

Lemma asks_commit : asks_only commit.
Proof. apply asks_errorf, asks_only_bind; [apply asks_invoke|intros; apply asks_ret]. Qed.
Lemma asks_chmod id : asks_only (errorf "chmod cgroup path failed" (_ ← invoke (ChangeCgroupMode id); mret tt)).
Proof. apply asks_errorf, asks_only_bind; [apply asks_invoke|intros; apply asks_ret]. Qed.
Lemma asks_different pid : asks_only (isDifferentUserNamespace pid).
Proof.
  apply asks_only_bind; [apply asks_only_attempt, asks_invoke|intros [host|e|e]]; [|apply asks_ret..].
  apply asks_only_bind; [apply asks_only_attempt, asks_invoke|intros; apply asks_ret].
Qed.

Lemma asks_run {A} (m : M A) w r w' : asks_only m -> m w = (r, w') ->
  store w' = store w /\ faults w' = faults w /\ exists l, trace w' = trace w ++ l.
Proof. intros Hm H. specialize (Hm w). by rewrite H in Hm. Qed.

Lemma errorf_run {A} what (m : M A) w r w' : errorf what m w = (r, w') ->
  exists r', m w = (r', w') /\ match r with Ok a => r' = Ok a | _ => is_ok r' = false end.
Proof.
  unfold errorf. destruct (m w) as [[a|e|e] w1]; intros [= <- <-]; eauto.
Qed.

(** A commit that went through was asked for. *)
Lemma commit_asked w w' : commit w = (Ok tt, w') -> trace w' = trace w ++ [CommitPolicy].
Proof.
  intros (r' & H & ->)%errorf_run. apply bind_ok in H as (a & w1 & H & [= <-]).
  by rewrite <- (invoke_traced CommitPolicy w), H.
Qed.

(** One transaction on the table of containers, without faults. *)
Lemma containers_run {A} (fn : Csm.ContainerState -> res (Csm.ContainerState * A)) w r w' :
  faults w = [] -> on_containers fn w = (r, w') ->
  faults w' = [] /\ trace w' = trace w /\
  match fn (h_csm (store w)) with
  | Ok (x, a) => r = Ok a /\ store w' = {| h_csm := x; h_psm := h_psm (store w) |}
  | Err e => r = Err e /\ store w' = store w
  | Panic e => r = Panic e /\ store w' = store w
  end.
Proof.
  intros Hf. unfold on_containers. rewrite txn_run by done.
  destruct (fn (h_csm (store w))) as [[x a]|e|e]; simpl; by intros [= <- <-].
Qed.

Lemma update_found id f st : Csm.update id f st =
  match Csm.Containers st !! id with
  | Some c => Ok (Csm.set_Containers st (<[id := f c]> (Csm.Containers st)), tt)
  | None => Err (Csm.id_not_found id)
  end.
Proof. unfold Csm.update, update_entry. by destruct (Csm.Containers st !! id). Qed.

(** The tables after the entry of a container was changed by [f]. *)
Definition changed (id : string) (f : Csm.ContainerInfo -> Csm.ContainerInfo)
    (t t' : hook_tables) : Prop :=
  h_psm t' = h_psm t /\ exists c, Csm.Containers (h_csm t) !! id = Some c /\
    Csm.Containers (h_csm t') = <[id := f c]> (Csm.Containers (h_csm t)).

Lemma changed_only id f t t' : changed id f t t' -> only_container id t t'.
Proof. intros (_ & c & _ & H) k Hk. by rewrite H, lookup_insert_ne. Qed.

Lemma UpdateContainer_run s w r w' : faults w = [] -> UpdateContainer s w = (r, w') ->
  faults w' = [] /\ trace w' = trace w /\
  match r with
  | Ok _ => exists time, changed (Id s) (Csm.update_state (Status s) (Pid s) time) (store w) (store w')
  | _ => store w' = store w
  end.
Proof.
  intros Hf (r' & H & Hr)%errorf_run. unfold mbind, M_bind in H.
  destruct (now w) as [[t|e|e] w1] eqn:E; unfold now in E; destruct (times w); try done.
  all: injection E as _ <-.
  all: apply containers_run in H as (Hf' & Ht' & H); [|done].
  all: split_and!; [done..|]; unfold Csm.UpdateContainer in H; rewrite update_found in H; simpl in H.
  all: destruct (Csm.Containers (h_csm (store w)) !! Id s) as [c|] eqn:Ec;
    destruct H as [-> H]; destruct r; try done; simplify_eq.
  all: eexists; split; rewrite H; [done|]; by exists c.
Qed.

Lemma exit_run s w r w' : faults w = [] ->
  errorf "csm update failed"
    (on_containers (Csm.UpdateExitStatus (Id s) (ExitCode s) (Reason s) (Message s))) w = (r, w') ->
  trace w' = trace w /\
  match r with
  | Ok _ => changed (Id s) (Csm.update_exit (ExitCode s) (Reason s) (Message s)) (store w) (store w')
  | _ => store w' = store w
  end.
Proof.
  intros Hf (r' & H & Hr)%errorf_run. apply containers_run in H as (_ & Ht & H); [|done].
  split; [done|]. unfold Csm.UpdateExitStatus in H. rewrite update_found in H.
  destruct (Csm.Containers (h_csm (store w)) !! Id s) as [c|] eqn:Ec;
    destruct H as [-> H]; destruct r; try done.
  split; rewrite H; [done|]. by exists c.
Qed.

Lemma contains_tail a b : contains (a +:+ b) b = true.
Proof.
  induction a as [|c a IH]; simpl.
  - destruct b as [|c b]; [done|]. pose proof (hasPrefix_app (String c b) "") as H.
    rewrite string_app_nil_r in H. change (hasPrefix (String c b) (String c b) || contains b (String c b) = true).
    by rewrite H.
  - rewrite IH. apply orb_true_r.
Qed.
Lemma contains_not_found id : contains (Csm.id_not_found id) "not found" = true.
Proof.
  replace (Csm.id_not_found id) with (("containerId=" +:+ id +:+ " ") +:+ "not found")%string
    by (unfold Csm.id_not_found; by rewrite !string_app_assoc).
  apply contains_tail.
Qed.

Lemma remove_run id w r w' : faults w = [] -> keyed Csm.ContainerId (Csm.Containers (h_csm (store w))) ->
  remove_container id w = (r, w') ->
  r = Ok tt /\ faults w' = [] /\ trace w' = trace w /\ h_psm (store w') = h_psm (store w) /\
  Csm.Containers (h_csm (store w')) = delete id (Csm.Containers (h_csm (store w))).
Proof.
  intros Hf Hk. unfold remove_container, attempt, mbind, M_bind.
  destruct (on_containers (Csm.RemoveContainer id) w) as [r1 w1] eqn:E.
  apply containers_run in E as (Hf1 & Ht1 & E); [|done].
  unfold Csm.RemoveContainer in E. rewrite Csm.find_by_id_keyed in E by done.
  destruct (Csm.Containers (h_csm (store w)) !! id) as [c|] eqn:Ec; simpl in E;
    destruct E as [-> E]; cbv beta iota.
  - intros [= <- <-]. split_and!; try done; by rewrite E.
  - rewrite contains_not_found. intros [= <- <-]. split_and!; try done; rewrite E; [done|]. by rewrite delete_id.
Qed.

Lemma namespaces_run id w r w' : faults w = [] ->
  keyed Csm.ContainerId (Csm.Containers (h_csm (store w))) ->
  errorf "update pod namespaces failed" (updatePodNamespacesIfOwner id) w = (r, w') ->
  h_csm (store w') = h_csm (store w) /\ (exists l, trace w' = trace w ++ l) /\
  match r with
  | Ok _ => exists c, Csm.Containers (h_csm (store w)) !! id = Some c /\
      pods_follow c (Psm.Pods (h_psm (store w))) (Psm.Pods (h_psm (store w')))
  | _ => h_psm (store w') = h_psm (store w)
  end.
Proof.
  intros Hf Hk (r' & H & Hr)%errorf_run. revert H. unfold updatePodNamespacesIfOwner.
  unfold mbind at 1, M_bind at 1. rewrite read_run by done. unfold Csm.GetContainerById, Csm.get_by_id.
  rewrite Csm.find_by_id_keyed by done. unfold pods_follow.
  destruct (Csm.Containers (h_csm (store w)) !! id) as [c|] eqn:Ec; simpl.
  2:{ intros [= <- <-]. split_and!; [done|exists []; by rewrite app_nil_r|by destruct r]. }
  destruct (owns_pod c) eqn:Eo; simpl.
  2:{ intros [= <- <-]. split_and!; [done|exists []; by rewrite app_nil_r|].
      destruct r; [|done..]. exists c. by rewrite Eo. }
  unfold mbind, M_bind. destruct (isDifferentUserNamespace (Csm.Pid c) w) as [r1 w1] eqn:E1.
  apply asks_run in E1 as (Hs1 & Hf1 & l & Hl); [|apply asks_different].
  destruct r1 as [d|e|e].
  2,3: intros [= <- <-]; rewrite Hs1; split_and!; [done|by exists l|by destruct r].
  unfold on_pods. rewrite txn_run by congruence. rewrite Hs1.
  unfold Psm.UpdatePodNamespaces, Psm.update_pod, update_entry.
  destruct (Psm.Pods (h_psm (store w)) !! Csm.PodId c) as [q|] eqn:Eq; simpl.
  2:{ intros [= <- <-]. rewrite Hs1. split_and!; [done|by exists l|by destruct r]. }
  intros [= <- <-]. simpl. split_and!; [done|by exists l|]. destruct r; try done.
  exists c. split; [done|]. rewrite Eo. eexists q, _. split; [done|]. split; [|done].
  unfold joined. simpl. split_and!; try done. destruct d; [by right|left].
  unfold Psm.keep_first. by rewrite andb_false_r.
Qed.

(** What an event leaves behind. *)
Definition event_outcome (s : ServiceStateModel) (eventType : string) (w : world) (r : res unit) (w' : world) : Prop :=
  exists l, trace w' = trace w ++ l /\
    match r with
    | Ok _ =>
        (exists time, recorded s eventType time (store w) (store w')) /\
        (eventType = "createContainer" \/ eventType = "poststop" -> CommitPolicy ∈ l)
    | _ => only_container (Id s) (store w) (store w') /\ h_psm (store w') = h_psm (store w)
    end.

Lemma changed_entry id f t t' : changed id f t t' ->
  exists c, Csm.Containers (h_csm t) !! id = Some c /\ Csm.Containers (h_csm t') !! id = Some (f c) /\
    h_psm t' = h_psm t /\ only_container id t t'.
Proof.
  intros H. pose proof (changed_only _ _ _ _ H). destruct H as (Hp & c & Hc & Hm).
  exists c. split_and!; try done. by rewrite Hm, lookup_insert_eq.
Qed.

Lemma updated_event s eventType w r w' : faults w = [] ->
  eventType = "createRuntime" \/ eventType = "poststart" ->
  UpdateContainer s w = (r, w') -> event_outcome s eventType w r w'.
Proof.
  intros Hf He H. apply UpdateContainer_run in H as (_ & Ht & H); [|done].
  exists []. split; [by rewrite app_nil_r|]. destruct r; [|by rewrite H..].
  destruct H as (time & (c & Hc & Hc' & Hp & Ho)%changed_entry). split; [|naive_solver].
  exists time. split; [done|]. left. split; [done|]. by exists c.
Qed.

Lemma stopped_event s w r w' : faults w = [] ->
  (_ ← UpdateContainer s; errorf "csm update failed"
     (on_containers (Csm.UpdateExitStatus (Id s) (ExitCode s) (Reason s) (Message s)))) w = (r, w') ->
  event_outcome s "stopContainer" w r w'.
Proof.
  intros Hf H. unfold mbind, M_bind in H. destruct (UpdateContainer s w) as [r1 w1] eqn:E1.
  apply UpdateContainer_run in E1 as (Hf1 & Ht1 & E1); [|done].
  exists []. rewrite app_nil_r. destruct r1 as [[]|e|e]; [|injection H as <- <-; by rewrite E1..].
  apply exit_run in H as (Ht & H); [|done]. split; [congruence|].
  destruct E1 as (time & (c & Hc & Hc' & Hp & Ho)%changed_entry).
  destruct r; [|rewrite H; done..]. apply changed_entry in H as (c2 & Hc2 & Hc2' & Hp2 & Ho2).
  split; [|naive_solver]. exists time. split; [intros k Hk; by rewrite Ho2, Ho|].
  right; right; left. split; [done|]. exists c. rewrite Hc2'. split_and!; [done|congruence|congruence].
Qed.

Lemma removed_event s w r w' : faults w = [] ->
  keyed Csm.ContainerId (Csm.Containers (h_csm (store w))) ->
  (_ ← remove_container (Id s); commit) w = (r, w') -> event_outcome s "poststop" w r w'.
Proof.
  intros Hf Hk H. unfold mbind, M_bind in H. destruct (remove_container (Id s) w) as [r1 w1] eqn:E1.
  apply remove_run in E1 as (-> & _ & Ht1 & Hp1 & Hc1); [|done..].
  pose proof (asks_run _ _ _ _ asks_commit H) as (Hs & _ & l & Hl).
  exists l. split; [congruence|].
  assert (only_container (Id s) (store w) (store w')) as Ho.
  { intros k Hne. by rewrite Hs, Hc1, lookup_delete_ne. }
  destruct r as [[]|e|e]; [|split; [done|by rewrite Hs]..].
  split; [exists 0; split; [done|]; do 3 right; rewrite Hs, Hc1, lookup_delete_eq; by split_and!|].
  intros _. apply commit_asked in H. rewrite H in Hl. apply app_inv_head in Hl as <-. by left.
Qed.

Lemma created_event s w r w' : faults w = [] ->
  keyed Csm.ContainerId (Csm.Containers (h_csm (store w))) ->
  (_ ← UpdateContainer s;
   _ ← errorf "chmod cgroup path failed" (_ ← invoke (ChangeCgroupMode (Id s)); mret tt);
   _ ← commit;
   errorf "update pod namespaces failed" (updatePodNamespacesIfOwner (Id s))) w = (r, w') ->
  event_outcome s "createContainer" w r w'.
Proof.
  intros Hf Hk H. unfold mbind, M_bind in H. destruct (UpdateContainer s w) as [r1 w1] eqn:E1.
  apply UpdateContainer_run in E1 as (Hf1 & Ht1 & E1); [|done].
  destruct r1 as [[]|e|e];
    [|injection H as <- <-; exists []; rewrite app_nil_r; by rewrite E1..].
  destruct E1 as (time & Hch). pose proof (changed_entry _ _ _ _ Hch) as (c & Hc & Hc' & Hp & Ho).
  assert (keyed Csm.ContainerId (Csm.Containers (h_csm (store w1)))) as Hk1.
  { destruct Hch as (_ & c1 & Hc1 & ->). apply keyed_insert; [done|]. by apply Hk in Hc1. }
  destruct (errorf "chmod cgroup path failed" _ w1) as [r2 w2] eqn:E2.
  apply asks_run in E2 as (Hs2 & Hf2 & l2 & Hl2); [|apply asks_chmod].
  destruct r2 as [[]|e|e];
    [|injection H as <- <-; exists l2; rewrite Hs2; split; [congruence|done]..].
  destruct (commit w2) as [r3 w3] eqn:E3.
  pose proof (asks_run _ _ _ _ asks_commit E3) as (Hs3 & Hf3 & l3 & Hl3).
  destruct r3 as [[]|e|e];
    [|injection H as <- <-; exists (l2 ++ l3); rewrite Hs3, Hs2, Hl3, Hl2, Ht1, app_assoc; done..].
  apply commit_asked in E3.
  apply namespaces_run in H as (Hcs & (l4 & Hl4) & H); [|congruence|by rewrite Hs3, Hs2].
  exists (l2 ++ [CommitPolicy] ++ l4). split; [by rewrite Hl4, E3, Hl2, Ht1, <- !app_assoc|].
  assert (only_container (Id s) (store w) (store w')) as Ho'.
  { intros k Hne. rewrite Hcs, Hs3, Hs2. by apply Ho. }
  destruct r as [[]|e|e]; [|split; [done|congruence]..].
  split; [|intros _; set_solver].
  exists time. split; [done|]. right; left. split; [done|]. exists c.
  rewrite Hs3, Hs2 in H. destruct H as (c0 & Hc0 & Hpods). rewrite Hc' in Hc0. injection Hc0 as <-.
  rewrite Hcs, Hs3, Hs2. rewrite Hp in Hpods. by split_and!.
Qed.
End service.

(** ** The property *)

(** An event of the runtime is recorded as it was reported: the entry of its
    container becomes what [Csm.update_state] makes of the status and process
    reported, with the exit status for a stop, or is gone after the last event; the
    pod of an infra container gets its process and namespaces; nothing else in the
    two tables changes, also when a later step fails; an unknown event is refused;
    and the policies are committed after the creation and the end of a container. *)
Theorem HookAction_correct {RO : RangeOrder} {X : Type} {P : Callees hook_call hook_tables X}
    s eventType (w : world hook_tables hook_call X) r w' :
  (forall c t i, (callee c (t, i)).2.1 = t) ->
  faults w = [] -> keyed Csm.ContainerId (Csm.Containers (h_csm (store w))) ->
  HookAction s eventType w = (r, w') ->
  exists l, trace w' = trace w ++ l /\
    match r with
    | Ok _ =>
        (exists time, recorded s eventType time (store w) (store w')) /\
        (eventType = "createContainer" \/ eventType = "poststop" -> CommitPolicy ∈ l)
    | _ => only_container (Id s) (store w) (store w') /\ h_psm (store w') = h_psm (store w)
    end.
Proof.
  intros calm Hf Hk. unfold HookAction.
  destruct (String.eqb_spec eventType "createRuntime") as [->|_].
  { apply updated_event; auto. }
  destruct (String.eqb_spec eventType "createContainer") as [->|_].
  { by apply (created_event calm). }
  destruct (String.eqb_spec eventType "poststart") as [->|_].
  { apply updated_event; auto. }
  destruct (String.eqb_spec eventType "stopContainer") as [->|_].
  { by apply stopped_event. }
  destruct (String.eqb_spec eventType "poststop") as [->|_].
  { by apply (removed_event calm). }
  intros [= <- <-]. exists []. rewrite app_nil_r. by split.
Qed.

(** ** A pod's infra container, from its creation to its end *)

Module HookDemo.
(** Services that do what they are asked, and links that differ by process. *)
#[local] Instance services : Callees hook_call hook_tables unit := fun c ti =>
  (Ok (match c with Readlink path => path | _ => "" end), ti).
Lemma services_calm c t i : (callee c (t, i)).2.1 = t.
Proof. done. Qed.

Definition infra : Csm.ContainerState :=
  {| Csm.Version := "0.1.0";
     Csm.Containers := {[ "c1" := Csm.new_container
       {| Csm.req_ContainerId := "c1"; Csm.req_State := "creating"; Csm.req_Pid := 0;
          Csm.req_Tty := false; Csm.req_Repository := "pause"; Csm.req_Reference := "3.9";
          Csm.req_Command := []; Csm.req_ContainerName := "condenser-pod-infra-p1";
          Csm.req_BottleId := ""; Csm.req_LogPath := ""; Csm.req_PodId := "p1";
          Csm.req_DropletId := ""; Csm.req_SecurityProfile := "" |} 1 ]} |}.
Definition pod : Psm.PodInfo :=
  {| Psm.PodId := "p1"; Psm.TemplateId := "t1"; Psm.OwnerKind := ""; Psm.OwnerId := "";
     Psm.Name := "web"; Psm.Namespace := "default"; Psm.UID := "u1"; Psm.State := "created";
     Psm.OwnerPid := 0; Psm.NetworkNS := ""; Psm.IPCNS := ""; Psm.UTSNS := ""; Psm.UserNS := "";
     Psm.Rootless := false; Psm.Labels := ∅; Psm.Annotations := ∅; Psm.CreatedAt := 1;
     Psm.StartedAt := 0; Psm.StoppedAt := 0; Psm.StoppedByUser := false |}.
Definition begin : world hook_tables hook_call unit :=
  {| store := {| h_csm := infra;
                 h_psm := {| Psm.Version := "0.1.0"; Psm.PodTemplates := ∅; Psm.ReplicaSets := ∅;
                             Psm.Deployments := ∅; Psm.Pods := {[ "p1" := pod ]} |} |};
     faults := []; times := [2]; ids := []; trace := []; inner := tt |}.
Definition event (status : string) (pid : Z) : ServiceStateModel :=
  {| OciVersion := "1.2"; Id := "c1"; Status := status; Pid := pid; ExitCode := 0; Reason := "";
     Message := ""; sm_Rootfs := ""; Bundler := "";
     Annotations := {| AnnotationVersion := ""; NetConfig := ""; ImageConfig := "" |} |}.
Definition created : world hook_tables hook_call unit :=
  (HookAction (event "created" 42) "createContainer" begin).2.
Definition pod_of (w : world hook_tables hook_call unit) : option (Z * string * string) :=
  (fun p => (Psm.OwnerPid p, Psm.NetworkNS p, Psm.UserNS p)) <$> Psm.Pods (h_psm (store w)) !! "p1".

Example pod_joined : pod_of created = Some (42, "/proc/42/ns/net", "/proc/42/ns/user").
Proof. vm_compute. reflexivity. Qed.

(** When the infra container is created again, without the pod having been reset,
    the pod has the new process and the namespaces of the old one. *)
Example old_namespaces_kept :
  pod_of (HookAction (event "created" 77) "createContainer" created).2 =
    Some (77, "/proc/42/ns/net", "/proc/42/ns/user").
Proof. vm_compute. reflexivity. Qed.

Lemma created_ok : (HookAction (event "created" 42) "createContainer" begin).1 = Ok tt.
Proof. vm_compute. reflexivity. Qed.
Lemma begin_keyed : keyed Csm.ContainerId (Csm.Containers (h_csm (store begin))).
Proof. by apply map_Forall_singleton. Qed.

Example HookAction_correct_witness :
  exists l, trace created = trace begin ++ l /\
    (exists time, recorded (event "created" 42) "createContainer" time (store begin) (store created)) /\
    CommitPolicy ∈ l.
Proof.
  destruct (HookAction_correct (event "created" 42) "createContainer" begin (Ok tt) created
              services_calm eq_refl begin_keyed) as (l & Hl & Hr & Hc).
  - unfold created. rewrite <- created_ok. apply surjective_pairing.
  - exists l. split; [exact Hl|]. split; [exact Hr|]. apply Hc. by left.
Defined.
End HookDemo.
