(* ===== verification/LocalZone.v ===== *)
(** * The DNS proxy ([dns])

    Questions about containers and services are answered from the tables; all
    others go to a cache and to the upstream servers.  The DNS library is a
    parameter: [Fqdn], [SetReply], [IsEdns0] and the exchange with a server. *)

From Stdlib Require Import ZArith Lia Ascii String.
From stdpp Require Import base gmap strings list.
From S2P Require Import Prelude.
From S2P Require Import GoString.
From S2P Require Import GoNet.
From S2P Require Import World.
From S2P Require Csm.
From S2P Require Bsm.
From S2P Require Ssm.
From S2P Require Ipam.
Open Scope Z_scope.

(** ** Messages *)

(** What the proxy reads and sets of the library's types. *)
Record DnsQuestion := { q_Name : string; q_Type : Z; q_Class : Z }.
Record RR := { rr_Name : string; rr_Type : Z; rr_Class : Z; rr_Ttl : Z; rr_Data : list Z }.
Record Msg := {
  Id : Z;
  Response : bool;
  Opcode : Z;
  Rcode : Z;
  Authoritative : bool;
  RecursionAvailable : bool;
  Truncated : bool;
  Question : list DnsQuestion;
  Answer : list RR;
  Ns : list RR;
  Extra : list RR
}.

Definition OpcodeQuery : Z := 0.
Definition ClassINET : Z := 1.
Definition TypeA : Z := 1.
Definition TypeANY : Z := 255.
Definition RcodeSuccess : Z := 0.
Definition RcodeFormatError : Z := 1.
Definition RcodeServerFailure : Z := 2.
Definition RcodeNameError : Z := 3.

Definition set_reply_fields (m : Msg) (id : Z) (authoritative : bool) (rcode : Z) (answer : list RR) : Msg :=
  {| Id := id; Response := Response m; Opcode := Opcode m; Rcode := rcode;
     Authoritative := authoritative; RecursionAvailable := true; Truncated := Truncated m;
     Question := Question m; Answer := answer; Ns := Ns m; Extra := Extra m |}.
(** [resp.Id = id; resp.RecursionAvailable = true]. *)
Definition for_client (id : Z) (m : Msg) : Msg :=
  set_reply_fields m id (Authoritative m) (Rcode m) (Answer m).

(** ** Names ([local_zone.go]) *)

Definition raindLocalZone : string := "raind.".
Definition clusterLocalZone : string := "cluster.local.".
Definition clusterServiceZone : string := "svc.cluster.local.".
Definition shortServiceZone : string := "svc.".
Definition raindLocalTTL : Z := 5.
Definition clusterServiceDNSTTL : Z := 5.

Definition label_byte (c : ascii) : bool := is_lower c || is_digit c.
(** The loop at byte [i] of [n]. *)
Fixpoint label_from (i n : nat) (s : string) : bool :=
  match s with
  | EmptyString => true
  | String c s =>
      (label_byte c || Ascii.eqb c "-" && negb (Nat.eqb i 0 || Nat.eqb i (n - 1))) && label_from (S i) n s
  end.
Definition isDnsLabel (s : string) : bool :=
  negb (Nat.eqb (String.length s) 0 || Nat.ltb 63 (String.length s)) && label_from 0 (String.length s) s.

(** [left] as two labels. *)
Definition two_labels (left : string) : option (string * string) :=
  match split "." left with
  | [a; b] => if negb (String.eqb a "") && negb (String.eqb b "") && isDnsLabel a && isDnsLabel b
              then Some (a, b) else None
  | _ => None
  end.

Section names.
Context (Fqdn : string -> string).

Definition in_zone (zone name : string) : bool := hasSuffix (toLower (Fqdn name)) zone.
Definition isRaindLocalName : string -> bool := in_zone raindLocalZone.
Definition isClusterLocalName : string -> bool := in_zone clusterLocalZone.
Definition isShortServiceName : string -> bool := in_zone shortServiceZone.

Definition parseRaindLocalName (name : string) : option (string * string) :=
  let fqdn := trimSuffix (toLower (Fqdn name)) "." in
  let zone := "." +:+ trimSuffix raindLocalZone "." in
  if hasSuffix fqdn zone then two_labels (trimSuffix fqdn zone) else None.

Definition parseClusterServiceName (name : string) : option (string * string) :=
  let fqdn := trimSuffix (toLower (Fqdn name)) "." in
  let cluster := "." +:+ trimSuffix clusterServiceZone "." in
  let short := "." +:+ trimSuffix shortServiceZone "." in
  if hasSuffix fqdn cluster then two_labels (trimSuffix fqdn cluster)
  else if hasSuffix fqdn short then two_labels (trimSuffix fqdn short)
  else None.
End names.

(** ** The cache ([cache.go]) *)

Record CacheEntry := { ce_Msg : Msg; ExpiresAt : Z }.

Section cache.
Context {RO : RangeOrder} (maxKeys : Z).
Implicit Types items : gmap string CacheEntry.

(** The message, and the cache without an entry that has expired. *)
Definition cache_Get (key : string) (now : Z) items : option Msg * gmap string CacheEntry :=
  match items !! key with
  | None => (None, items)
  | Some ent => if ExpiresAt ent <? now then (None, delete key items) else (Some (ce_Msg ent), items)
  end.

(** One entry, whichever comes first, makes room. *)
Definition evict items : gmap string CacheEntry :=
  if (0 <? maxKeys) && (maxKeys <=? Z.of_nat (size items))
  then match range_map items with [] => items | (k, _) :: _ => delete k items end
  else items.
Definition cache_Put (key : string) (msg : Msg) (ttl now : Z) items : gmap string CacheEntry :=
  if ttl <=? 0 then items
  else <[key := {| ce_Msg := msg; ExpiresAt := now + ttl |}]> (evict items).
End cache.

Definition second : Z := 1000000000.
Definition minTTL (msg : Msg) : option Z :=
  match Answer msg ++ Ns msg ++ Extra msg with
  | [] => None
  | rr :: rest => Some (second * fold_left (fun ttl r => Z.min ttl (rr_Ttl r)) rest (rr_Ttl rr))
  end.
(** A query that is not a reply, with one question. *)
Definition isCacheableQuery (r : Msg) : bool :=
  (Opcode r =? OpcodeQuery) && negb (Response r) && Nat.eqb (length (Question r)) 1.
Definition cacheKey (Fqdn : string -> string) (q : DnsQuestion) (dnssecOk : bool) : string :=
  toLower (Fqdn (q_Name q)) +:+ "|" +:+ itoa (q_Type q) +:+ "|" +:+ itoa (q_Class q) +:+ "|do=" +:+
  (if dnssecOk then "true" else "false").

(** ** The proxy *)

Record zone := {
  z_ipam : Ipam.IpamState;
  z_csm : Csm.ContainerState;
  z_bsm : Bsm.BottleState;
  z_ssm : Ssm.ServiceState;
  items : gmap string CacheEntry
}.
Definition set_items (z : zone) (m : gmap string CacheEntry) : zone :=
  {| z_ipam := z_ipam z; z_csm := z_csm z; z_bsm := z_bsm z; z_ssm := z_ssm z; items := m |}.

(** What leaves the proxy: a question to a server, a reply to the client. *)
Inductive sent :=
  | Exchange (tcp : bool) (up : string) (r : Msg)
  | WriteMsg (m : Msg).

Class DnsPeers (X : Type) := {
  exchange_with : bool -> string -> Msg -> X -> res (option Msg) * X;
  write_msg : Msg -> X -> res unit * X;
  Intn : nat -> X -> nat * X
}.

Section proxy.
Context {RO : RangeOrder} {X : Type} {D : DnsPeers X}.
Context (Fqdn : string -> string) (SetReply : Msg -> Msg) (IsEdns0 : Msg -> option bool).
Context (upstreams : list string) (maxKeys : Z).
#[local] Notation M := (M zone sent X).

Definition emit {A} (s : sent) (f : X -> res A * X) : M A := fun w =>
  let '(r, i) := f (inner w) in
  (r, {| store := store w; faults := faults w; times := times w; ids := ids w;
         trace := trace w ++ [s]; inner := i |}).
Definition pick (n : nat) : M nat := fun w =>
  let '(k, i) := Intn n (inner w) in
  (Ok k, {| store := store w; faults := faults w; times := times w; ids := ids w;
            trace := trace w; inner := i |}).
(** The cache is in memory. *)
Definition on_cache {A} (f : gmap string CacheEntry -> A * gmap string CacheEntry) : M A := fun w =>
  let '(a, m) := f (items (store w)) in (Ok a, set_store (set_items (store w) m) w).

(** *** Lookups *)

Definition serviceType (svc : Ssm.ServiceInfo) : string :=
  if String.eqb (trimSpace (Ssm.sv_Type svc)) "" then Ssm.ServiceTypeClusterIP else Ssm.sv_Type svc.

Definition lookupClusterIPService (namespace serviceName : string) : M string :=
  services ← read (fun z => Ssm.GetServiceList (z_ssm z));
  match first_match (fun svc => String.eqb (Ssm.sv_Name svc) serviceName &&
                                String.eqb (Ssm.sv_Namespace svc) namespace) services with
  | None => fail ("service " +:+ namespace +:+ "/" +:+ serviceName +:+ " not found")
  | Some svc =>
      if negb (String.eqb (serviceType svc) Ssm.ServiceTypeClusterIP) ||
         String.eqb (trimSpace (Ssm.ClusterIP svc)) ""
      then fail ("service " +:+ namespace +:+ "/" +:+ serviceName +:+ " has no ClusterIP")
      else mret (trimSpace (Ssm.ClusterIP svc))
  end.

Fixpoint lookupDirectContainerName (allocations : list (string * Ipam.Allocation)) (containerName : string)
    : M (option string) :=
  match allocations with
  | [] => mret None
  | (addr, alloc) :: rest =>
      name ← attempt (read (fun z => Csm.GetContainerNameById (Ipam.al_ContainerId alloc) (z_csm z)));
      if match name with Ok n => String.eqb n containerName | _ => false end
      then mret (Some addr)
      else lookupDirectContainerName rest containerName
  end.

Definition address_of (allocations : list (string * Ipam.Allocation)) (containerId : string) : option string :=
  fst <$> first_match (fun kv => String.eqb (Ipam.al_ContainerId kv.2) containerId) allocations.
Fixpoint alias_in (networkName serviceName : string) (allocations : list (string * Ipam.Allocation))
    (bottles : list Bsm.BottleInfo) : option string :=
  match bottles with
  | [] => None
  | b :: rest =>
      let containerId := default "" (Bsm.Containers b !! serviceName) in
      if negb (String.eqb (Bsm.b_Network b) networkName) || String.eqb containerId "" then
        alias_in networkName serviceName allocations rest
      else match address_of allocations containerId with
           | Some addr => Some addr
           | None => alias_in networkName serviceName allocations rest
           end
  end.
Definition lookupBottleServiceAlias (networkName : string) (allocations : list (string * Ipam.Allocation))
    (serviceName : string) : M (option string) :=
  bottles ← attempt (read (fun z => Bsm.GetBottleList (z_bsm z)));
  mret (match bottles with
        | Ok bottles => alias_in networkName serviceName allocations bottles
        | _ => None
        end).

Definition lookupContainerAddress (networkName containerName : string) : M string :=
  pools ← read (fun z => Ipam.GetPoolList (z_ipam z));
  match first_match (fun p => String.eqb (Ipam.p_Interface p) networkName) pools with
  | None => fail ("network " +:+ networkName +:+ " not found")
  | Some pool =>
      let allocations := range_map (Ipam.allocs pool) in
      direct ← lookupDirectContainerName allocations containerName;
      match direct with
      | Some addr => mret addr
      | None =>
          alias ← lookupBottleServiceAlias networkName allocations containerName;
          match alias with
          | Some addr => mret addr
          | None => fail ("container or service " +:+ containerName +:+ " not found in network " +:+ networkName)
          end
      end
  end.

(** *** Replies *)

Definition newRaindLocalReply (req : Msg) (rcode : Z) : Msg :=
  let m := SetReply req in set_reply_fields m (Id m) true rcode (Answer m).

(** The reply with an address, or that the name does not exist. *)
Definition address_reply (req : Msg) (q : DnsQuestion) (ttl : Z) (addr : res string) : Msg :=
  match addr with
  | Ok addr =>
      let ip := To4 (ParseIP addr) in
      if is_nil ip then newRaindLocalReply req RcodeNameError else
      let m := newRaindLocalReply req RcodeSuccess in
      set_reply_fields m (Id m) true RcodeSuccess
        (Answer m ++ [{| rr_Name := Fqdn (toLower (q_Name q)); rr_Type := TypeA;
                         rr_Class := ClassINET; rr_Ttl := ttl; rr_Data := ip |}])
  | _ => newRaindLocalReply req RcodeNameError
  end.

(** The one question of a query about the internet. *)
Definition local_question (req : Msg) : option DnsQuestion :=
  match Question req with
  | [q] => if (Opcode req =? OpcodeQuery) && negb (Response req) && (q_Class q =? ClassINET)
           then Some q else None
  | _ => None
  end.
Definition asks_address (q : DnsQuestion) : bool := (q_Type q =? TypeA) || (q_Type q =? TypeANY).

Definition resolveClusterService (req : Msg) : M (option Msg) :=
  match local_question req with
  | None => mret None
  | Some q =>
      match parseClusterServiceName Fqdn (q_Name q) with
      | None =>
          mret (if isClusterLocalName Fqdn (q_Name q) || isShortServiceName Fqdn (q_Name q)
                then Some (newRaindLocalReply req RcodeNameError) else None)
      | Some (serviceName, namespace) =>
          if negb (asks_address q) then mret (Some (newRaindLocalReply req RcodeNameError)) else
          addr ← attempt (lookupClusterIPService namespace serviceName);
          mret (Some (address_reply req q clusterServiceDNSTTL addr))
      end
  end.

Definition resolveRaindLocal (req : Msg) : M (option Msg) :=
  cluster ← resolveClusterService req;
  match cluster with
  | Some msg => mret (Some msg)
  | None =>
      match local_question req with
      | None => mret None
      | Some q =>
          let refused := if isRaindLocalName Fqdn (q_Name q)
                         then Some (newRaindLocalReply req RcodeNameError) else None in
          if negb (asks_address q) then mret refused else
          match parseRaindLocalName Fqdn (q_Name q) with
          | None => mret refused
          | Some (containerName, networkName) =>
              addr ← attempt (lookupContainerAddress networkName containerName);
              mret (Some (address_reply req q raindLocalTTL addr))
          end
      end
  end.

(** *** Upstream servers ([proxy.go]) *)

Definition pickUpstream : M string :=
  match upstreams with
  | [] => fail "no upstream configured"
  | _ => k ← pick (length upstreams); mret (nth k upstreams "")
  end.
Definition ask_server (tcp : bool) (req : Msg) (up : string) : M (option Msg) :=
  emit (Exchange tcp up req) (exchange_with tcp up req).
Definition reply_of (r : res (option Msg)) : option Msg :=
  match r with Ok (Some m) => Some m | _ => None end.

Definition exchange (req : Msg) : M (option Msg) :=
  up ← pickUpstream;
  resp ← attempt (ask_server false req up);
  match resp with
  | Ok (Some m) =>
      if Truncated m then
        resp2 ← attempt (ask_server true req up);
        mret (Some (default m (reply_of resp2)))
      else mret (Some m)
  | Ok None => mret None
  | Err e | Panic e =>
      if Nat.ltb 1 (length upstreams) then
        up2 ← or_zero "" pickUpstream;
        resp2 ← attempt (ask_server false req up2);
        match reply_of resp2 with
        | Some m => mret (Some m)
        | None => fail e
        end
      else fail e
  end.

Definition WriteReply (m : Msg) : M bool :=
  r ← attempt (emit (WriteMsg m) (write_msg m)); mret (is_ok r).
Definition answer_failure (r : Msg) (rcode : Z) : M unit :=
  let m := SetReply r in
  _ ← WriteReply (set_reply_fields m (Id m) (Authoritative m) rcode (Answer m)); mret tt.
Definition doBit (r : Msg) : bool := default false (IsEdns0 r).

(** Without the log lines. *)
Definition ServeDns (r : Msg) : M unit :=
  now ← now;
  match Question r with
  | [] => answer_failure r RcodeFormatError
  | q :: _ =>
      local ← resolveRaindLocal r;
      match local with
      | Some msg => _ ← WriteReply msg; mret tt
      | None =>
          let key := if isCacheableQuery r then cacheKey Fqdn q (doBit r) else "" in
          hit ← (if isCacheableQuery r then on_cache (cache_Get key now) else mret None);
          match hit with
          | Some msg => _ ← WriteReply (for_client (Id r) msg); mret tt
          | None =>
              resp ← attempt (exchange r);
              match resp with
              | Ok (Some m) =>
                  let m := for_client (Id r) m in
                  written ← WriteReply m;
                  if negb written then mret tt else
                  match minTTL m with
                  | Some ttl =>
                      if String.eqb key "" then mret tt
                      else on_cache (fun c => (tt, cache_Put maxKeys key m ttl now c))
                  | None => mret tt
                  end
              | _ => answer_failure r RcodeServerFailure
              end
          end
      end
  end.

(** ** Lemmas *)

(** A look-up: it reads the tables, asks nobody, and does not crash. *)
Definition looks {A} (m : M A) : Prop := forall w, exists r w',
  m w = (r, w') /\ (forall e, r <> Panic e) /\
  store w' = store w /\ trace w' = trace w /\ inner w' = inner w /\
  (faults w = [] -> faults w' = []).

Lemma looks_ret {A} (a : A) : looks (mret a).
Proof. intros w. by eexists _, _. Qed.
Lemma looks_fail {A} e : looks (fail e : M A).
Proof. intros w. by eexists _, _. Qed.
Lemma looks_read {A} (f : zone -> res A) : (forall z e, f z <> Panic e) -> looks (read f).
Proof.
  intros Hf w. unfold read, pop_fault. destruct (faults w) as [|[e|] fs] eqn:E;
    eexists _, _; split_and!; try done; by rewrite E.
Qed.
Lemma looks_bind {A B} (m : M A) (f : A -> M B) :
  looks m -> (forall a, looks (f a)) -> looks (m ≫= f).
Proof.
  intros Hm Hf w. destruct (Hm w) as (r & w1 & E & Hp & Hs & Ht & Hi & Hft).
  unfold mbind, M_bind. rewrite E. destruct r as [a|e|e]; [|by eexists _, _|by destruct (Hp e)].
  destruct (Hf a w1) as (r & w2 & E2 & Hp2 & Hs2 & Ht2 & Hi2 & Hft2).
  exists r, w2. split_and!; try done; [congruence..|auto].
Qed.
Lemma looks_attempt {A} (m : M A) : looks m -> looks (attempt m).
Proof.
  intros Hm w. destruct (Hm w) as (r & w1 & E & Hp & H). unfold attempt. rewrite E.
  destruct r as [a|e|e]; [by eexists _, _..|by destruct (Hp e)].
Qed.
(** What an attempt gives is never an error. *)
Lemma attempt_looks {A} (m : M A) w : looks m -> exists r w',
  attempt m w = (Ok r, w') /\ m w = (r, w') /\ store w' = store w /\ trace w' = trace w /\
  inner w' = inner w /\ (faults w = [] -> faults w' = []).
Proof.
  intros Hm. destruct (Hm w) as (r & w1 & E & Hp & H). unfold attempt. rewrite E.
  destruct r as [a|e|e]; [by eexists _, _..|by destruct (Hp e)].
Qed.

Lemma looks_service namespace name : looks (lookupClusterIPService namespace name).
Proof.
  apply looks_bind; [by apply looks_read|]. intros l.
  destruct (first_match _ l); [|apply looks_fail]. case_match; [apply looks_fail|apply looks_ret].
Qed.
Lemma looks_direct l name : looks (lookupDirectContainerName l name).
Proof.
  induction l as [|[addr alloc] l IH]; [apply looks_ret|]. simpl.
  apply looks_bind; [|intros a; case_match; [apply looks_ret|done]].
  apply looks_attempt, looks_read. intros z e. unfold Csm.GetContainerNameById, Csm.get_by_id.
  by destruct (Csm.find_by_id _ _) as [[]|].
Qed.
Lemma looks_alias network l name : looks (lookupBottleServiceAlias network l name).
Proof.
  apply looks_bind; [by apply looks_attempt, looks_read|intros; apply looks_ret].
Qed.
Lemma looks_container network name : looks (lookupContainerAddress network name).
Proof.
  apply looks_bind; [by apply looks_read|]. intros pools.
  destruct (first_match _ pools) as [p|]; [|apply looks_fail].
  apply looks_bind; [apply looks_direct|]. intros [a|]; [apply looks_ret|].
  apply looks_bind; [apply looks_alias|]. intros [a|]; [apply looks_ret|apply looks_fail].
Qed.

(** The answer to a question about a local name. *)
Definition local_answer (req : Msg) (q : DnsQuestion) (w : world zone sent X) : Msg :=
  match parseClusterServiceName Fqdn (q_Name q) with
  | Some (serviceName, namespace) =>
      if asks_address q
      then address_reply req q clusterServiceDNSTTL (lookupClusterIPService namespace serviceName w).1
      else newRaindLocalReply req RcodeNameError
  | None =>
      if isClusterLocalName Fqdn (q_Name q) || isShortServiceName Fqdn (q_Name q)
      then newRaindLocalReply req RcodeNameError else
      match parseRaindLocalName Fqdn (q_Name q) with
      | Some (containerName, networkName) =>
          if asks_address q
          then address_reply req q raindLocalTTL (lookupContainerAddress networkName containerName w).1
          else newRaindLocalReply req RcodeNameError
      | None => newRaindLocalReply req RcodeNameError
      end
  end.

(** The names that the proxy answers for itself. *)
Definition is_local (name : string) : bool :=
  isRaindLocalName Fqdn name || isClusterLocalName Fqdn name || isShortServiceName Fqdn name.

Lemma resolve_local req q w : local_question req = Some q -> is_local (q_Name q) = true ->
  exists w', resolveRaindLocal req w = (Ok (Some (local_answer req q w)), w') /\
    store w' = store w /\ trace w' = trace w /\ inner w' = inner w.
Proof.
  intros Hq Hl. unfold resolveRaindLocal, resolveClusterService, local_answer. rewrite Hq.
  destruct (parseClusterServiceName Fqdn (q_Name q)) as [[serviceName namespace]|] eqn:Ec.
  - destruct (asks_address q); simpl; [|by eexists].
    destruct (attempt_looks _ w (looks_service namespace serviceName)) as (r & w1 & E & E' & H).
    unfold mbind, M_bind. rewrite E, E'. cbn. exists w1. naive_solver.
  - unfold is_local in Hl. destruct (isClusterLocalName Fqdn (q_Name q) || isShortServiceName Fqdn (q_Name q)) eqn:Ez;
      simpl; [by eexists|]. rewrite <- orb_assoc, Ez, orb_false_r in Hl.
    unfold mbind at 1, M_bind at 1. simpl. rewrite Hl.
    destruct (asks_address q); simpl; [|by destruct (parseRaindLocalName _ _) as [[]|]; eexists].
    destruct (parseRaindLocalName Fqdn (q_Name q)) as [[containerName networkName]|]; [|by eexists].
    destruct (attempt_looks _ w (looks_container networkName containerName)) as (r & w1 & E & E' & H).
    unfold mbind, M_bind. rewrite E, E'. cbn. exists w1. naive_solver.
Qed.

(** ** What a name resolves to *)

Definition is_network (z : zone) (network : string) (p : Ipam.Pool) : Prop :=
  first_match (fun p => String.eqb (Ipam.p_Interface p) network) (Ipam.Pools (z_ipam z)) = Some p.
(** The address [a] of the pool is that of a container with the name. *)
Definition named_in (z : zone) (p : Ipam.Pool) (name a : string) : Prop :=
  exists alloc c, Ipam.allocs p !! a = Some alloc /\
    Csm.Containers (z_csm z) !! Ipam.al_ContainerId alloc = Some c /\ Csm.ContainerName c = name.
(** It is that of the container of a bottle's service with the name. *)
Definition serves_in (z : zone) (p : Ipam.Pool) (network name a : string) : Prop :=
  exists k b id alloc, Bsm.Bottles (z_bsm z) !! k = Some b /\ Bsm.b_Network b = network /\
    Bsm.Containers b !! name = Some id /\ id <> "" /\
    Ipam.allocs p !! a = Some alloc /\ Ipam.al_ContainerId alloc = id.
(** A container of that name comes before a service. *)
Definition found_at (z : zone) (network name a : string) : Prop :=
  exists p, is_network z network p /\
    (named_in z p name a \/ (forall a', ~ named_in z p name a') /\ serves_in z p network name a).

Lemma direct_correct l name w : faults w = [] ->
  keyed Csm.ContainerId (Csm.Containers (z_csm (store w))) ->
  let names a alloc := exists c,
    Csm.Containers (z_csm (store w)) !! Ipam.al_ContainerId alloc = Some c /\ Csm.ContainerName c = name in
  exists r, lookupDirectContainerName l name w = (Ok r, w) /\
    match r with
    | Some a => exists alloc, (a, alloc) ∈ l /\ names a alloc
    | None => forall a alloc, (a, alloc) ∈ l -> ~ names a alloc
    end.
Proof.
  intros Hf Hk names. induction l as [|[addr alloc] l IH]; simpl.
  - exists None. split; [done|]. by intros a alloc ?%elem_of_nil.
  - unfold mbind, M_bind, attempt. rewrite read_run by done.
    unfold Csm.GetContainerNameById, Csm.get_by_id. rewrite Csm.find_by_id_keyed by done.
    destruct IH as (r & E & Hr).
    assert (forall b, b = false -> ~ names addr alloc -> exists r0,
      (if b : bool then mret (Some addr) else lookupDirectContainerName l name) w = (Ok r0, w) /\
      match r0 with
      | Some a => exists alloc0, (a, alloc0) ∈ (addr, alloc) :: l /\ names a alloc0
      | None => forall a alloc0, (a, alloc0) ∈ (addr, alloc) :: l -> ~ names a alloc0
      end) as Hnext.
    { intros b -> Hn. exists r. split; [done|]. destruct r as [a|].
      - destruct Hr as (al & Hin & Hal). exists al. split; [by right|done].
      - intros a al [[= -> ->]|Hin]%elem_of_cons; [done|by apply Hr]. }
    destruct (Csm.Containers (z_csm (store w)) !! Ipam.al_ContainerId alloc) as [c|] eqn:Ec; simpl.
    + destruct (String.eqb_spec (Csm.ContainerName c) name) as [He|He].
      * exists (Some addr). split; [done|]. exists alloc. split; [by left|]. by exists c.
      * apply (Hnext false); [done|]. intros (c' & Hc' & Hn). congruence.
    + apply (Hnext false); [done|]. intros (c' & Hc' & Hn). congruence.
Qed.

Lemma address_of_correct p id : match address_of (range_map (Ipam.allocs p)) id with
  | Some a => exists alloc, Ipam.allocs p !! a = Some alloc /\ Ipam.al_ContainerId alloc = id
  | None => forall a alloc, Ipam.allocs p !! a = Some alloc -> Ipam.al_ContainerId alloc <> id
  end.
Proof.
  unfold address_of. destruct (first_match _ _) as [[a alloc]|] eqn:E; simpl.
  - apply first_match_Some in E as [H%elem_of_range_map He%String.eqb_eq]. by exists alloc.
  - rewrite first_match_None in E. intros a alloc Ha%elem_of_range_map.
    apply String.eqb_neq. exact (E _ Ha).
Qed.

Lemma alias_correct network name p l :
  let serves a := exists b id alloc, b ∈ l /\ Bsm.b_Network b = network /\
    Bsm.Containers b !! name = Some id /\ id <> "" /\
    Ipam.allocs p !! a = Some alloc /\ Ipam.al_ContainerId alloc = id in
  match alias_in network name (range_map (Ipam.allocs p)) l with
  | Some a => serves a
  | None => forall a, ~ serves a
  end.
Proof.
  induction l as [|b l IH]; simpl; [by intros a (b & id & alloc & ?%elem_of_nil & _)|].
  simpl in IH.
  set (rest := alias_in network name (range_map (Ipam.allocs p)) l) in *.
  assert (forall o : option string,
    o = rest -> (forall a id alloc, Bsm.b_Network b = network -> Bsm.Containers b !! name = Some id ->
                  id <> "" -> Ipam.allocs p !! a = Some alloc -> Ipam.al_ContainerId alloc <> id) ->
    match o with
    | Some a => exists b' id alloc, b' ∈ b :: l /\ Bsm.b_Network b' = network /\
        Bsm.Containers b' !! name = Some id /\ id <> "" /\
        Ipam.allocs p !! a = Some alloc /\ Ipam.al_ContainerId alloc = id
    | None => forall a, ~ exists b' id alloc, b' ∈ b :: l /\ Bsm.b_Network b' = network /\
        Bsm.Containers b' !! name = Some id /\ id <> "" /\
        Ipam.allocs p !! a = Some alloc /\ Ipam.al_ContainerId alloc = id
    end) as Hskip.
  { intros o -> Hn. destruct rest as [a|].
    - destruct IH as (b' & id & alloc & Hb & H). exists b', id, alloc. split; [by right|done].
    - intros a (b' & id & alloc & [->|Hb]%elem_of_cons & H1 & H2 & H3 & H4 & H5).
      + by apply (Hn a id alloc).
      + apply (IH a). by exists b', id, alloc. }
  destruct (String.eqb_spec (Bsm.b_Network b) network) as [Hn|Hn]; simpl.
  2:{ apply Hskip; [done|]. naive_solver. }
  destruct (Bsm.Containers b !! name) as [id|] eqn:Eid; simpl; [|apply Hskip; [done|naive_solver]].
  destruct (String.eqb_spec id "") as [->|Hid]; [apply Hskip; [done|naive_solver]|].
  pose proof (address_of_correct p id) as Ha. destruct (address_of _ id) as [a|].
  - destruct Ha as (alloc & Hal & He). exists b, id, alloc. split_and!; try done. by left.
  - apply Hskip; [done|]. intros a id' alloc _ [= <-] _ Hal. by apply (Ha a alloc).
Qed.

Lemma container_address network name w : faults w = [] ->
  keyed Csm.ContainerId (Csm.Containers (z_csm (store w))) ->
  match (lookupContainerAddress network name w).1 with
  | Ok a => found_at (store w) network name a
  | _ => forall a, ~ found_at (store w) network name a
  end.
Proof.
  intros Hf Hk. unfold lookupContainerAddress.
  unfold mbind at 1, M_bind at 1. rewrite read_run by done. simpl.
  destruct (first_match _ (Ipam.Pools (z_ipam (store w)))) as [p|] eqn:Ep; simpl.
  2:{ intros a (p & Hp & _). unfold is_network in Hp. congruence. }
  assert (forall a, found_at (store w) network name a <->
    named_in (store w) p name a \/
    (forall a', ~ named_in (store w) p name a') /\ serves_in (store w) p network name a) as Hfound.
  { intros a. split; [|by exists p]. intros (p' & Hp' & H). unfold is_network in Hp'.
    rewrite Ep in Hp'. by injection Hp' as <-. }
  destruct (direct_correct (range_map (Ipam.allocs p)) name w Hf Hk) as (r & Er & Hr).
  unfold mbind at 1, M_bind at 1. rewrite Er. destruct r as [a|]; simpl.
  - apply Hfound. left. destruct Hr as (alloc & Hin%elem_of_range_map & c & Hc). by exists alloc, c.
  - assert (forall a', ~ named_in (store w) p name a') as Hnone.
    { intros a' (alloc & c & Ha & Hc). apply elem_of_range_map in Ha. apply (Hr a' alloc Ha). by exists c. }
    unfold lookupBottleServiceAlias, mbind, M_bind, attempt. rewrite read_run by done. simpl.
    pose proof (alias_correct network name p (range_values (Bsm.Bottles (z_bsm (store w))))) as Ha.
    cbv zeta in Ha. destruct (alias_in _ _ _ _) as [a|]; simpl.
    + apply Hfound. right. split; [done|].
      destruct Ha as (b & id & alloc & [k Hb]%elem_of_range_values & H). by exists k, b, id, alloc.
    + intros a [Hn|[_ (k & b & id & alloc & Hb & H)]]%Hfound; [by apply (Hnone a)|].
      apply (Ha a). exists b, id, alloc. split; [|done]. apply elem_of_range_values. eauto.
Qed.

(** ** Names below [raind] *)

Lemma take_str_app a b : take_str (String.length a) (a +:+ b) = a.
Proof. induction a as [|c a IH]; simpl; [by destruct b|]. unfold take_str in *. simpl. by f_equal. Qed.
Lemma hasSuffix_app a b : hasSuffix (a +:+ b) b = true.
Proof.
  unfold hasSuffix. rewrite string_length_app.
  replace (String.length a + String.length b - String.length b)%nat with (String.length a) by lia.
  rewrite drop_str_app, String.eqb_refl, andb_true_r. apply Nat.leb_le. lia.
Qed.
Lemma take_drop_str n s : (take_str n s +:+ drop_str n s = s)%string.
Proof.
  revert s. induction n as [|n IH]; intros s; [by destruct s|].
  destruct s as [|c s]; [done|]. change (String c (take_str n s +:+ drop_str n s) = String c s)%string. by rewrite IH.
Qed.
Lemma hasSuffix_spec s suf : hasSuffix s suf = true <-> exists a, s = (a +:+ suf)%string.
Proof.
  split; [|intros [a ->]; apply hasSuffix_app].
  unfold hasSuffix. intros [_ H%String.eqb_eq]%andb_true_iff.
  exists (take_str (String.length s - String.length suf) s).
  etrans; [symmetry; apply take_drop_str|]. by f_equal.
Qed.
(** Texts with last bytes that differ. *)
Lemma hasSuffix_differs a b suf :
  hasPrefix (string_rev b +:+ string_rev a) (string_rev suf) = false -> hasSuffix (a +:+ b) suf = false.
Proof.
  intros H. destruct (hasSuffix _ suf) eqn:E; [|done]. apply hasSuffix_spec in E as [c Hc].
  rewrite <- string_rev_app, Hc, string_rev_app, hasPrefix_app in H. done.
Qed.
Lemma trimSuffix_app a b : trimSuffix (a +:+ b) b = a.
Proof.
  unfold trimSuffix. rewrite hasSuffix_app, string_length_app.
  replace (String.length a + String.length b - String.length b)%nat with (String.length a) by lia.
  apply take_str_app.
Qed.

(** A name that is read as one below [raind] is in no other zone. *)
Lemma raind_name_only name x : parseRaindLocalName Fqdn name = Some x ->
  parseClusterServiceName Fqdn name = None /\
  isClusterLocalName Fqdn name = false /\ isShortServiceName Fqdn name = false.
Proof.
  unfold parseRaindLocalName, parseClusterServiceName, isClusterLocalName, isShortServiceName, in_zone.
  set (F := toLower (Fqdn name)). destruct (hasSuffix (trimSuffix F ".") _) eqn:E; [|done].
  intros _. apply hasSuffix_spec in E as [a Ha].
  change ("." +:+ trimSuffix raindLocalZone ".")%string with ".raind"%string in Ha.
  rewrite Ha. rewrite !hasSuffix_differs by done.
  split; [done|]. destruct (hasSuffix F ".") eqn:Ed.
  - apply hasSuffix_spec in Ed as [b Hb]. rewrite Hb, trimSuffix_app in Ha. rewrite Hb, Ha.
    by rewrite string_app_assoc, !hasSuffix_differs.
  - assert (forall z, hasSuffix F (z +:+ ".") = false) as Hz.
    { intros z. destruct (hasSuffix F (z +:+ ".")) eqn:Ez; [|reflexivity]. apply hasSuffix_spec in Ez as [b Hb].
      rewrite Hb, <- string_app_assoc, hasSuffix_app in Ed. done. }
    split; [apply (Hz "cluster.local")|apply (Hz "svc")].
Qed.

(** ** What the cache keeps *)

Lemma size_insert_le (m : gmap string CacheEntry) k e : (size (<[k := e]> m) <= S (size m))%nat.
Proof. rewrite map_size_insert. destruct (m !! k); simpl; lia. Qed.
Lemma size_put key msg ttl now (m : gmap string CacheEntry) : 0 < maxKeys ->
  Z.of_nat (size m) <= maxKeys -> Z.of_nat (size (cache_Put maxKeys key msg ttl now m)) <= maxKeys.
Proof.
  intros Hk Hm. unfold cache_Put. destruct (ttl <=? 0); [done|].
  unfold evict. rewrite (proj2 (Z.ltb_lt 0 maxKeys)) by done. simpl.
  destruct (maxKeys <=? Z.of_nat (size m)) eqn:E.
  - apply Z.leb_le in E. destruct (range_map m) as [|[k v] l] eqn:El.
    { pose proof (length_range_map m) as H. rewrite El in H. simpl in H. lia. }
    assert (m !! k = Some v) as Hv by (apply elem_of_range_map; rewrite El; by left).
    assert (size (delete k m) = pred (size m)) as Hd by (rewrite map_size_delete, Hv; done).
    pose proof (size_insert_le (delete k m) key {| ce_Msg := msg; ExpiresAt := now + ttl |}) as Hi. lia.
  - apply Z.leb_gt in E. pose proof (size_insert_le m key {| ce_Msg := msg; ExpiresAt := now + ttl |}). lia.
Qed.

(** A run leaves the tables alone and the cache within its bound. *)
Definition keeps (z z' : zone) : Prop :=
  (z_ipam z', z_csm z', z_bsm z', z_ssm z') = (z_ipam z, z_csm z, z_bsm z, z_ssm z) /\
  (0 < maxKeys -> Z.of_nat (size (items z)) <= maxKeys -> Z.of_nat (size (items z')) <= maxKeys).
#[local] Instance keeps_preorder : PreOrder keeps.
Proof. split; [by intros z|]. intros x y z [H1 H2] [H3 H4]. split; [congruence|auto]. Qed.

Lemma keeps_looks {A} (m : M A) : looks m -> steps keeps m.
Proof.
  intros Hm w Hw. destruct (Hm w) as (r & w1 & E & _ & Hs & _ & _ & Hf). rewrite E. simpl.
  rewrite Hs. split; [by apply Hf|reflexivity].
Qed.
Lemma keeps_emit {A} s (f : X -> res A * X) : steps keeps (emit s f).
Proof. intros w Hw. unfold emit. destruct (f (inner w)). by split. Qed.
Lemma keeps_pick n : steps keeps (pick n).
Proof. intros w Hw. unfold pick. destruct (Intn n (inner w)). by split. Qed.
Lemma keeps_cache {A} (f : gmap string CacheEntry -> A * gmap string CacheEntry) :
  (forall m, 0 < maxKeys -> Z.of_nat (size m) <= maxKeys -> Z.of_nat (size (f m).2) <= maxKeys) ->
  steps keeps (on_cache f).
Proof.
  intros Hf w Hw. unfold on_cache. specialize (Hf (items (store w))).
  destruct (f (items (store w))) as [a m]. by split.
Qed.
Lemma keeps_pickUpstream : steps keeps pickUpstream.
Proof.
  unfold pickUpstream. destruct upstreams; [apply steps_fail, _|].
  apply steps_bind; [apply _|apply keeps_pick|intros; apply steps_ret, _].
Qed.
Lemma keeps_write m : steps keeps (WriteReply m).
Proof.
  apply steps_bind; [apply _|apply steps_attempt, keeps_emit|intros; apply steps_ret, _].
Qed.
Lemma keeps_failure r rcode : steps keeps (answer_failure r rcode).
Proof. apply steps_bind; [apply _|apply keeps_write|intros; apply steps_ret, _]. Qed.
Lemma keeps_exchange r : steps keeps (exchange r).
Proof.
  apply steps_bind; [apply _|apply keeps_pickUpstream|]. intros up.
  apply steps_bind; [apply _|apply steps_attempt, keeps_emit|]. intros [[m|]|e|e].
  1: destruct (Truncated m); [|apply steps_ret, _];
     apply steps_bind; [apply _|apply steps_attempt, keeps_emit|intros; apply steps_ret, _].
  1: apply steps_ret, _.
  all: destruct (Nat.ltb _ _); [|apply steps_fail, _].
  all: apply steps_bind; [apply _| |intros up2].
  1,3: apply steps_bind; [apply _|apply steps_attempt, keeps_pickUpstream|intros; apply steps_ret, _].
  all: apply steps_bind; [apply _|apply steps_attempt, keeps_emit|intros r2].
  all: destruct (reply_of r2); [apply steps_ret, _|apply steps_fail, _].
Qed.

Lemma looks_resolve req : looks (resolveRaindLocal req).
Proof.
  assert (looks (resolveClusterService req)) as Hc.
  { unfold resolveClusterService. destruct (local_question req) as [q|]; [|apply looks_ret].
    destruct (parseClusterServiceName _ _) as [[sn ns]|]; [|apply looks_ret].
    destruct (negb _); [apply looks_ret|].
    apply looks_bind; [apply looks_attempt, looks_service|intros; apply looks_ret]. }
  apply looks_bind; [done|]. intros [m|]; [apply looks_ret|].
  destruct (local_question req) as [q|]; [|apply looks_ret].
  destruct (negb _); [apply looks_ret|].
  destruct (parseRaindLocalName _ _) as [[cn nn]|]; [|apply looks_ret].
  apply looks_bind; [apply looks_attempt, looks_container|intros; apply looks_ret].
Qed.

(** The cache stays within its bound, whatever is asked, and the tables are only read. *)
Theorem cache_bounded r w : faults w = [] ->
  keeps (store w) (store (ServeDns r w).2).
Proof.
  intros Hw. enough (steps keeps (ServeDns r)) as H by (by apply (H w)). unfold ServeDns.
  apply steps_bind; [apply _|apply steps_now, _|]. intros t.
  destruct (Question r) as [|q qs]; [apply keeps_failure|].
  apply steps_bind; [apply _|apply keeps_looks, looks_resolve|]. intros [m|].
  { apply steps_bind; [apply _|apply keeps_write|intros; apply steps_ret, _]. }
  apply steps_bind; [apply _| |].
  { destruct (isCacheableQuery r); [|apply steps_ret, _]. apply keeps_cache. intros m Hk Hm.
    unfold cache_Get. destruct (m !! _) as [e|] eqn:E; [|done]. destruct (_ <? t); [|done].
    simpl. rewrite map_size_delete, E. simpl. lia. }
  intros [m|]; [apply steps_bind; [apply _|apply keeps_write|intros; apply steps_ret, _]|].
  apply steps_bind; [apply _|apply steps_attempt, keeps_exchange|].
  intros [[m|]|e|e]; [|apply keeps_failure..].
  apply steps_bind; [apply _|apply keeps_write|]. intros b.
  destruct (negb b); [apply steps_ret, _|]. destruct (minTTL _) as [ttl|]; [|apply steps_ret, _].
  destruct (String.eqb _ ""); [apply steps_ret, _|]. apply keeps_cache. intros c Hk Hc.
  by apply size_put.
Qed.

(** ** The properties *)

Lemma write_trace m w : trace (WriteReply m w).2 = trace w ++ [WriteMsg m] /\ store (WriteReply m w).2 = store w.
Proof.
  unfold WriteReply, mbind, M_bind, attempt, emit. destruct (write_msg m (inner w)) as [[a|e|e] i]; by split.
Qed.

Lemma serve_local req q w : local_question req = Some q -> is_local (q_Name q) = true ->
  store (ServeDns req w).2 = store w /\
  trace (ServeDns req w).2 = trace w ++ [WriteMsg (local_answer req q (now w).2)].
Proof.
  intros Hq Hl. unfold ServeDns.
  assert (exists t w1, now w = (Ok t, w1) /\ store w1 = store w /\ trace w1 = trace w)
    as (t & w1 & E1 & Hs1 & Ht1) by (unfold now; destruct (times w); by eexists _, _).
  rewrite (M_bind_eq _ _ w t w1 E1), E1. cbn [snd].
  assert (exists qs, Question req = q :: qs) as [qs ->].
  { unfold local_question in Hq. destruct (Question req) as [|q0 [|]]; try done.
    destruct (_ && _); [|done]. injection Hq as ->. by eexists. }
  destruct (resolve_local req q w1 Hq Hl) as (w2 & E2 & Hs2 & Ht2 & _).
  rewrite (M_bind_eq _ _ w1 _ w2 E2). cbv beta iota.
  destruct (write_trace (local_answer req q w1) w2) as [Ht3 Hs3].
  unfold mbind, M_bind.
  destruct (WriteReply (local_answer req q w1) w2) as [[a|e|e] w3]; simpl in *;
    rewrite Hs3, Ht3, Hs2, Ht2, Hs1, Ht1; by split.
Qed.

(** A question about a name of the local zones is answered by the proxy itself:
    whatever the tables hold and whichever read of them fails, the client gets exactly
    one reply, no server is asked, and the cache and the tables stay as they are. *)
Theorem local_names_stay_local req q w r w' :
  local_question req = Some q -> is_local (q_Name q) = true ->
  ServeDns req w = (r, w') ->
  store w' = store w /\ trace w' = trace w ++ [WriteMsg (local_answer req q (now w).2)].
Proof. intros Hq Hl H. pose proof (serve_local req q w Hq Hl) as Hs. by rewrite H in Hs. Qed.

(** A reply with the IPv4 address [ip], and one that the name does not exist. *)
Definition gives (req : Msg) (q : DnsQuestion) (ip : list Z) (m : Msg) : Prop :=
  Rcode m = RcodeSuccess /\
  Answer m = Answer (SetReply req) ++
    [{| rr_Name := Fqdn (toLower (q_Name q)); rr_Type := TypeA; rr_Class := ClassINET;
        rr_Ttl := raindLocalTTL; rr_Data := ip |}].
Definition no_such_name (req : Msg) (m : Msg) : Prop :=
  Rcode m = RcodeNameError /\ Answer m = Answer (SetReply req).

(** A question for the address of [container.network.raind] gets the address that
    the network's pool has for a container of that name, or, when it has none, for the
    container of a bottle's service of that name; the name does not exist only when
    there is neither, or the address is no IPv4 address. *)
Theorem container_names_resolve req q containerName networkName w r w' :
  faults w = [] -> keyed Csm.ContainerId (Csm.Containers (z_csm (store w))) ->
  local_question req = Some q -> asks_address q = true ->
  parseRaindLocalName Fqdn (q_Name q) = Some (containerName, networkName) ->
  is_local (q_Name q) = true ->
  ServeDns req w = (r, w') ->
  exists m, trace w' = trace w ++ [WriteMsg m] /\
    ((exists a, found_at (store w) networkName containerName a /\
        (To4 (ParseIP a) <> [] /\ gives req q (To4 (ParseIP a)) m \/
         To4 (ParseIP a) = [] /\ no_such_name req m)) \/
     (forall a, ~ found_at (store w) networkName containerName a) /\ no_such_name req m).
Proof.
  intros Hf Hk Hq Ha Hp Hl H. destruct (serve_local req q w Hq Hl) as [_ Ht].
  rewrite H in Ht. eexists. split; [exact Ht|]. unfold local_answer.
  destruct (raind_name_only _ _ Hp) as (-> & -> & ->). simpl. rewrite Hp, Ha.
  assert (store (now w).2 = store w /\ faults (now w).2 = faults w) as [Hs1 Hf1]
    by (unfold now; by destruct (times w)).
  pose proof (container_address networkName containerName (now w).2) as Hc.
  rewrite Hs1, Hf1 in Hc. specialize (Hc Hf Hk).
  destruct (lookupContainerAddress networkName containerName (now w).2).1 as [a|e|e].
  - left. exists a. split; [done|]. simpl. destruct (To4 (ParseIP a)) as [|b ip]; [by right|by left].
  - by right.
  - by right.
Qed.
End proxy.

(** ** A host with a container and a bottle *)

Module ZoneDemo.
(** The library's functions on names without escapes, and servers that do not answer. *)
Definition Fqdn (name : string) : string := if hasSuffix name "." then name else name +:+ ".".
Definition SetReply (r : Msg) : Msg :=
  {| Id := Id r; Response := true; Opcode := Opcode r; Rcode := RcodeSuccess; Authoritative := false;
     RecursionAvailable := false; Truncated := false; Question := Question r; Answer := []; Ns := [];
     Extra := [] |}.
#[local] Instance silent : DnsPeers unit := {
  exchange_with _ _ _ i := (Err "i/o timeout", i);
  write_msg _ i := (Ok tt, i);
  Intn _ i := (0%nat, i)
}.

Definition alloc (id : string) : Ipam.Allocation :=
  {| Ipam.al_ContainerId := id; Ipam.al_Interface := "v"; Ipam.Forwards := []; Ipam.AssignedAt := 0 |}.
Definition db : Bsm.BottleInfo :=
  {| Bsm.BottleId := "b1"; Bsm.BottleName := "shop"; Bsm.Services := ∅; Bsm.StartOrder := ["db"];
     Bsm.Containers := {[ "db" := "c2" ]}; Bsm.Policies := []; Bsm.b_Network := "raind1";
     Bsm.NetworkAuto := false; Bsm.CreatedAt := 0 |}.
Definition host : zone :=
  {| z_ipam := {| Ipam.Version := ""; Ipam.RuntimeSubnet := "10.166.0.0/16";
                  Ipam.HostInterface := ""; Ipam.HostInterfaceAddr := "";
                  Ipam.st_DnsProxy := {| Ipam.DnsProxyInterface := ""; Ipam.DnsProxyAddr := "";
                                          Ipam.Upstreams := [] |};
                  Ipam.Pools := [{| Ipam.p_Interface := "raind1"; Ipam.Subnet := "10.166.1.0/24";
                                    Ipam.Address := "10.166.1.254/24";
                                    Ipam.Allocations := Some {[ "10.166.1.1" := alloc "c1";
                                                                "10.166.1.2" := alloc "c2" ]} |}] |};
     z_csm := match Csm.StoreContainer (Csm.req "c1" "web") 0 Csm.init with
              | Ok (st, _) => match Csm.StoreContainer (Csm.req "c2" "shop-db-1") 0 st with
                              | Ok (st, _) => st | _ => Csm.init end
              | _ => Csm.init
              end;
     z_bsm := {| Bsm.Version := ""; Bsm.Bottles := {[ "b1" := db ]} |};
     z_ssm := {| Ssm.sv_Version := ""; Ssm.Services := ∅ |};
     items := ∅ |}.
Definition begin : world zone sent unit :=
  {| store := host; faults := []; times := []; ids := []; trace := []; inner := tt |}.
Definition question_for (name : string) : DnsQuestion :=
  {| q_Name := name; q_Type := TypeA; q_Class := ClassINET |}.
Definition ask_for (name : string) : Msg :=
  {| Id := 7; Response := false; Opcode := OpcodeQuery; Rcode := 0; Authoritative := false;
     RecursionAvailable := false; Truncated := false;
     Question := [question_for name];
     Answer := []; Ns := []; Extra := [] |}.
Definition serve (name : string) : list sent :=
  trace (ServeDns Fqdn SetReply (fun _ => None) ["192.0.2.1:53"] 10 (ask_for name) begin).2.
Definition answers (l : list sent) : list (Z * list (list Z)) :=
  s ← l; match s with WriteMsg m => [(Rcode m, rr_Data <$> Answer m)] | _ => [] end.

Example container_by_name : answers (serve "Web.raind1.raind") = [(RcodeSuccess, [[10; 166; 1; 1]])].
Proof. vm_compute. reflexivity. Qed.
Example service_by_name : answers (serve "db.raind1.raind.") = [(RcodeSuccess, [[10; 166; 1; 2]])].
Proof. vm_compute. reflexivity. Qed.
Example nobody : answers (serve "mail.raind1.raind") = [(RcodeNameError, [])].
Proof. vm_compute. reflexivity. Qed.
(** The zones are recognised without the dot before them: names that only end in the
    same letters are refused and never looked up. *)
Example foreign_name_refused : answers (serve "www.grraind") = [(RcodeNameError, [])].
Proof. vm_compute. reflexivity. Qed.

(** A reply with an OPT record, whose [Ttl] field holds flags, has no time to live
    and is not kept. *)
Definition with_opt : Msg :=
  {| Id := 7; Response := true; Opcode := OpcodeQuery; Rcode := 0; Authoritative := false;
     RecursionAvailable := true; Truncated := false; Question := [];
     Answer := [{| rr_Name := "a."; rr_Type := TypeA; rr_Class := ClassINET; rr_Ttl := 300; rr_Data := [] |}];
     Ns := []; Extra := [{| rr_Name := "."; rr_Type := 41; rr_Class := 1232; rr_Ttl := 0; rr_Data := [] |}] |}.
Example opt_is_not_cached :
  minTTL with_opt = Some 0 /\ cache_Put 10 "k" with_opt 0 5 ∅ = ∅.
Proof. split; reflexivity. Qed.

Definition served : world zone sent unit :=
  (ServeDns Fqdn SetReply (fun _ => None) ["192.0.2.1:53"] 10 (ask_for "web.raind1.raind") begin).2.
Lemma served_ok :
  (ServeDns Fqdn SetReply (fun _ => None) ["192.0.2.1:53"] 10 (ask_for "web.raind1.raind") begin).1 = Ok tt.
Proof. vm_compute. reflexivity. Qed.
Lemma served_run :
  ServeDns Fqdn SetReply (fun _ => None) ["192.0.2.1:53"] 10 (ask_for "web.raind1.raind") begin = (Ok tt, served).
Proof. unfold served. rewrite <- served_ok. apply surjective_pairing. Qed.
Lemma host_keyed : keyed Csm.ContainerId (Csm.Containers (z_csm (store begin))).
Proof. apply (bool_decide_unpack _). vm_compute. exact I. Qed.

Example local_names_stay_local_witness : exists m, trace served = [WriteMsg m] /\ store served = host.
Proof.
  destruct (local_names_stay_local Fqdn SetReply (fun _ => None) ["192.0.2.1:53"] 10
              (ask_for "web.raind1.raind") _ begin _ _ eq_refl eq_refl served_run) as [Hs Ht].
  eexists. split; [exact Ht|exact Hs].
Defined.
Example container_names_resolve_witness : exists m, trace served = [WriteMsg m] /\
  ((exists a, found_at host "raind1" "web" a /\
      (To4 (ParseIP a) <> [] /\ gives Fqdn SetReply (ask_for "web.raind1.raind") (question_for "web.raind1.raind") (To4 (ParseIP a)) m \/
       To4 (ParseIP a) = [] /\ no_such_name SetReply (ask_for "web.raind1.raind") m)) \/
   (forall a, ~ found_at host "raind1" "web" a) /\ no_such_name SetReply (ask_for "web.raind1.raind") m).
Proof.
  apply (container_names_resolve Fqdn SetReply (fun _ => None) ["192.0.2.1:53"] 10
           (ask_for "web.raind1.raind") _ "web" "raind1" begin _ _ eq_refl host_keyed eq_refl eq_refl
           eq_refl eq_refl served_run).
Defined.
End ZoneDemo.
